(* ===== verification/_CoqProject ===== *)
-Q . S2P
Prelude.v
Memory.v
Words.v
MemFns.v
Ctype.v
StrFns.v
Tokens.v
Numbers.v
LibGcc.v
Rand48.v
Sort.v
Alloc.v
HeapSpec.v
StaticHeap.v
Arena.v
ArenaShape.v
ArenaOps.v
ArenaHeap.v
ArenaMain.v
Printf.v
PrintfSpec.v
Scanf.v
Fnmatch.v
Getopt.v
Env.v
Stdio.v
StdioSpec.v
Format.v
StdioList.v
Process.v
Exec.v
Inet.v
Lines.v
Mntent.v
Dirent.v
Signals.v
Adler.v
CrcTable.v
Crc.v
Inftrees.v
InftreesSpec.v
InftreesLoop.v
InftreesMain.v
TreesTables.v
Trees.v
Bitstream.v
TreesBits.v
TreesBlock.v
InfFixed.v
Inflate.v
InflateTables.v
InflateRead.v
InflateCopy.v
InflateFast.v
InflateBlock.v
InflateStream.v
InflateFaults.v
Blocks.v
TreesCodes.v
Roundtrip.v
ZlibFormat.v
Deflate.v
DeflateMatch.v
DeflateChains.v
DeflateWindow.v
DeflateText.v
DeflateRun.v
DeflateLazy.v
DeflateSpec.v
DeflateStored.v
DeflateFaults.v
