(* ===== verification/Prelude.v ===== *)
(** * klibc, the C library of POET: a verification development

    POET explores the interleavings of concurrent C programs.  The programs it
    runs are linked with the small C library of the directory [libc], a klibc with
    the changes POET needs (its configuration is [libc/include/klibc/poet.h]: a
    static heap and unbuffered streams instead of the originals, which are still in
    the sources).  This development models that library, function by function, and
    proves what its functions promise.

    ** The parts of the program and the files that model them

    Foundations, not code of their own:
    - [Prelude]: machine integers ([wrap], [sext]), the monad [C] of computations
      that return, go wrong (undefined behaviour) or run out of fuel, the combinator
      [loop] for C loops, and its tactics;
    - [Memory]: the byte memory [mem], a finite map from addresses to bytes, with
      [load8], [loadc] and [store8], which go wrong outside of it, and the
      predicates [bytes_at], [cstr] and [valid] on its contents;
    - [Words]: 64-bit loads and stores, for pointers and headers in memory.

    Components, with their sources under [libc/src]:
    - [MemFns] (memcpy.c, memmove.c, memset.c, memcmp.c, memchr.c, memrchr.c,
      memccpy.c, memswap.c, memmem.c, bzero.c) and [StrFns] (strlen.c to strstr.c):
      memory and string routines;
    - [Ctype] (ctypes.c and the directory ctype): the character table;
    - [Tokens] (strxspn.c, strspn.c, strcspn.c, strpbrk.c, strsep.c, strtok_r.c,
      strtok.c): the tokenizer, with the pointer strtok keeps as its state;
    - [Numbers] (strntoumax.c, strtox.c.h, atox.c.h, strtotimex.c.h and the files
      that instantiate them): number parsing;
    - [LibGcc] (the directory libgcc): division and shifts for narrow machines;
    - [Rand48] (jrand48.c to seed48.c): random numbers;
    - [Sort] (qsort.c, bsearch.c): combsort and binary search over a callback;
    - [Alloc]: the interface of an allocator as the classes [Allocator] and
      [AllocatorLaws], and its clients (zalloc.c, calloc.c, strdup.c, strndup.c)
      proved against it; [HeapSpec]: the abstract heap of disjoint live blocks and
      its refinement by every allocator that satisfies the laws;
    - [StaticHeap] (malloc.c, realloc.c: the static variants) and [Arena],
      [ArenaShape], [ArenaOps], [ArenaHeap], [ArenaMain] (malloc.c, malloc.h,
      realloc.c: the original variants): two implementations of the interface.
      [Arena] has the code, on headers and links in the byte memory; [ArenaShape]
      the invariant, two doubly linked rings over the blocks; [ArenaOps] the effect
      of each operation on the invariant; [ArenaHeap] the allocator laws;
      [ArenaMain] the properties;
    - [Printf], [PrintfSpec] (vsnprintf.c) and [Scanf] (vsscanf.c): formatted output
      and input, as the state machines of the sources; [PrintfSpec] has the grammar
      of formats and the text they denote;
    - [Fnmatch] (fnmatch.c), [Getopt] (getopt.c, getopt_long.c): patterns and
      command lines, each with its specification;
    - [Env] (__put_env.c, setenv.c, getenv.c, putenv.c, unsetenv.c, clearenv.c): the
      environment, a vector of strings in memory, over the allocator interface;
    - [Stdio], [StdioSpec] (the directory stdio, fgets.c, fputs.c, fputc.c, puts.c,
      putchar.c, fread2.c, fwrite2.c, isatty.c): both variants of the streams over a
      heap and a kernel, and what the buffered ones guarantee; [StdioList]: the ring
      of open streams; [Lines]: reading lines;
    - [Format] (vfprintf.c, fprintf.c, vprintf.c, printf.c, sprintf.c, snprintf.c,
      vsprintf.c, asprintf.c, vasprintf.c, sscanf.c, perror.c, strerror.c): formatted
      output on memory, blocks and streams;
    - [Process] (onexit.c, atexit.c, exit.c): the exit handlers, and exit;
    - [Exec] (execvpe.c, exec_l.c and the files that instantiate it, execv.c,
      execvp.c): the search for a program along the path;
    - [Inet] (the directory inet): texts of network addresses and reserved ports;
    - [Mntent] (getmntent.c, setmntent.c, endmntent.c): the mount table, over the
      streams, the tokenizer and the number parser;
    - [Dirent] (readdir.c, scandir.c, alphasort.c): directory streams;
    - [Signals] (signal.h, __signal.c, bsd_signal.c, sysv_signal.c, raise.c, abort.c,
      system.c, sleep.c, usleep.c): signal sets, the shell, and sleeping;
    - [Adler] (zlib/adler32.c), [CrcTable] (zlib/crc32.h) and [Crc] (zlib/crc32.c): the
      checksums of the copy of zlib the library is built with;
    - [Inftrees] (zlib/inftrees.c, zlib/inftrees.h): the construction of decoding tables;
      [InftreesSpec] has the arithmetic of canonical codes, [InftreesLoop] the loop that
      fills the tables, [InftreesMain] the whole function;
    - [TreesTables] (zlib/trees.h) and [Trees] (zlib/trees.c and the macros of
      zlib/deflate.h): the writer of blocks, the Huffman trees, the buffer of symbols;
      [TreesBits] has what the bit writer guarantees, [TreesBlock] what a block writes,
      [TreesCodes] the code words of a tree;
    - [InfFixed] (zlib/inffixed.h) and [Inflate] (zlib/inflate.c, zlib/inflate.h,
      zlib/inffast.c): the state machine of inflate, case by case, and its fast path;
      [InflateTables] says what a decoding table is, [InflateRead] how the bits of the
      input are read, [InflateCopy] how matches are copied from output and window,
      [InflateFast] what the loop of inflate_fast does, [InflateBlock] how a block is
      decoded on either path, [InflateStream] what happens between blocks, and
      [InflateFaults] where the code goes wrong;
    - [Bitstream], [Blocks], [Roundtrip], [ZlibFormat]: the two sides put together.  Fields
      of bits are the interface between them: the compressor is shown to write the fields
      of its symbols, the decompressor to read the text of the fields;
    - [Deflate] (zlib/deflate.c, compressBound of zlib/compress.c): the search for matches,
      the window, the loops of the levels, headers and trailers; [DeflateMatch] has what
      the two searches compare, [DeflateChains] the hash and its chains, [DeflateWindow]
      the window and its filling, [DeflateText] the symbols and the text they stand for,
      [DeflateRun] and [DeflateLazy] the loops of deflate_fast and deflate_slow,
      [DeflateSpec] the way from deflateInit2_ to the symbols of a text, [DeflateStored]
      that of level 0 through deflate to inflate and back, and [DeflateFaults] where a byte
      is lost.

    ** How the code is translated

    A function of the source is a definition of the same name in the monad [C] over
    the state it touches: the byte memory, a record of its static variables, or a
    heap ([Allocator]) and more.  Every load and store is a step that goes wrong
    outside of the memory, so a theorem that a function returns says that it stays
    inside it.  A C loop is [loop fuel body start]; the body gives [Next] or [Break].
    The fuel of a scan over memory is one more than the size of the memory
    ([scan_fuel]), which no scan that stays inside can exceed; of a counted loop, one
    more than its count; of the retry loops of the streams, a parameter, with the
    theorems stating how much suffices.  The theorems are that the functions return,
    never that their results are right if they do.  Integers keep their width: [wrap]
    and [sext] are written where C converts.  [char] is signed and pointers have 64
    bits, as on x86_64.  A switch of the build is a boolean argument, and the theorems that
    depend on one say what happens for either value or name the variant they are about.

    Code that is not in the repository is a parameter: the kernel of [Arena] (mmap
    and the page size, with the laws [kernel_ok]), the system calls of [Stdio] (with
    the laws [syscalls_ok]), execve, bind and getpid, the signal
    calls, nanosleep, readdir (whose body the sources
    leave out), and the callbacks of qsort, bsearch, scandir and exit.  Each theorem
    that assumes such laws has a witness with a concrete instance.  Local arrays and
    string constants are arguments, the addresses at which they are.

    ** What the theorems show

    - Allocators: each operation keeps the invariant; every run of a well-behaved
      client terminates, never goes wrong and is a run of the abstract heap, for the
      arena allocator and for the static one; where requests wrap around is stated
      exactly.
    - Formatted output and input: vsnprintf writes the text its format denotes,
      truncated and terminated; numbers survive printing and scanning where the build
      has sscanf (KLIBC_STREAMS_ORIG; without it the call fails its assertion).
    - Streams: writes and a flush deliver the bytes in order and once each, and reads
      return them in order, whatever the kernel accepts or hands out at a time; the
      ring of open streams survives opening and closing; fprintf delivers the text of
      its format, fgets takes one line; exit runs the handlers, the last registered
      first, and flushes all, each where its build switch is set.
    - Programs, addresses, tables, directories: execvpe tries the candidates in order
      (while they are shorter than PATH_MAX), the text of an address reads back, every reserved port is tried once, a line of
      the mount table becomes its record, directory streams leave nothing behind,
      system gives the signal state back, usleep sleeps for the time asked for.
    - Compression: whatever stored and fixed blocks the compressor writes, while its output
      stays behind the symbols still to be read, inflate returns their text, on both of its paths; with the codes of any trees a block decodes to the
      text of its symbols or stops at the match that reaches too far back; a zlib stream of
      such blocks is accepted exactly when its checksum is right; inflate_table decodes the canonical code
      of every complete set of lengths, rejects exactly the sets that are no code, and agrees with gen_codes; the
      symbols deflate finds expand to its input at every level that searches, with every
      strategy, whatever the links of the hash chains held before; at level 0 one call of
      deflate with the space deflateBound asks for writes a stream that inflate turns back
      into the text.
    - Checksums: every variant of crc32 computes the shift register bit by bit, adler32
      the two sums with no overflow; joining checksums is compared with the checksum of
      the joined texts.
    - Environment, options, patterns, tokens, numbers, sorting, strings, memory:
      each against its mathematical meaning on every input that satisfies the
      interface.
    - Lemmas without a number show where the code departs from the interface, on a
      concrete input.

    ** Not modelled, and why

    The explorer itself is written in Haskell, and the tools and benchmarks are inputs
    or third-party code, and the kernel headers are declarations; of zlib inflate with
    call-backs (infback.c), the layer over files (gzio.c), compress, uncompress and the
    functions that free and copy a state are left; the system call stubs, set-jump and start-up code are assembly or single calls of the
    kernel; the tables of error and signal texts are generated.  Of the library's own
    C code what is left are single calls of the kernel with converted arguments (open,
    lseek, wait, the terminal calls and the like, many of them left out of the build by
    the sources themselves), the constant user database, strsignal and the code around
    main. *)

From stdpp Require Import base tactics numbers list gmap.

Open Scope Z_scope.

(** ** Machine integers

    A [w]-bit unsigned value is a [Z] in [0, 2^w); [wrap w] is the conversion
    to it.  [sext w] is the conversion to the signed type of the same width
    (two's complement, as on every architecture the library is built for). *)

Definition wrap (w x : Z) : Z := x mod 2 ^ w.

Definition sext (w x : Z) : Z := (x + 2 ^ (w - 1)) mod 2 ^ w - 2 ^ (w - 1).

Abbreviation u8 := (wrap 8).
Abbreviation u16 := (wrap 16).
Abbreviation u32 := (wrap 32).
Abbreviation u64 := (wrap 64).
Abbreviation s8 := (sext 8).
Abbreviation s32 := (sext 32).
Abbreviation s64 := (sext 64).

Definition ULONG_MAX : Z := 2 ^ 64 - 1.

(** The value of a C condition, as an [int]. *)
Definition cbool (b : bool) : Z := if b then 1 else 0.

Definition is_byte (b : Z) : Prop := 0 ≤ b < 256.

#[export] Instance is_byte_dec b : Decision (is_byte b).
Proof. unfold is_byte. apply _. Defined.

(** ** Outcomes and the computation monad

    [C S A] is a C computation over the state [S] with result [A].  [UB] is an
    access or an operation the C language leaves undefined; [OOF] marks a loop
    that used up the steps given to it, and every total-correctness theorem
    rules it out. *)

Inductive outcome (S A : Type) : Type :=
  | Ret (a : A) (s : S)
  | UB
  | OOF.
Arguments Ret {S A} a s.
Arguments UB {S A}.
Arguments OOF {S A}.

Definition C (S A : Type) : Type := S → outcome S A.

#[export] Instance C_ret S : MRet (C S) := λ A a s, Ret a s.

#[export] Instance C_bind S : MBind (C S) := λ A B f c s,
  match c s with
  | Ret a s' => f a s'
  | UB => UB
  | OOF => OOF
  end.

Definition get {S} : C S S := λ s, Ret s s.
Definition put {S} (s : S) : C S unit := λ _, Ret tt s.
Definition modify {S} (f : S → S) : C S unit := λ s, Ret tt (f s).
Definition undef {S A} : C S A := λ _, UB.
Definition diverge {S A} : C S A := λ _, OOF.

Abbreviation Next st := (mret (inl st)).
Abbreviation Break x := (mret (inr x)).

(** A loop whose body either goes round again ([inl]) or leaves ([inr]). *)
Fixpoint loop {S St R} (fuel : nat) (body : St → C S (St + R)) (st : St)
  : C S R :=
  match fuel with
  | O => diverge
  | Datatypes.S k =>
      r ← body st;
      match r with
      | inl st' => loop k body st'
      | inr x => mret x
      end
  end.

(** A component's computation run inside a larger state. *)
Definition zoom {S T A} (f : T → S) (g : S → T → T) (c : C S A) : C T A :=
  λ t, match c (f t) with
       | Ret a s => Ret a (g s t)
       | UB => UB
       | OOF => OOF
       end.

(** *** Arrays that live in local variables

    An array is the list of its elements; an access outside of it is undefined. *)

Definition elem {S A} (l : list A) (i : Z) : C S A :=
  if i <? 0 then undef else
  match l !! Z.to_nat i with Some v => mret v | None => undef end.

Definition upd {S A} (l : list A) (i : Z) (v : A) : C S (list A) :=
  if (0 <=? i) && (i <? Z.of_nat (length l)) then mret (<[Z.to_nat i := v]> l) else undef.

(** ** Running computations *)

Section run.
Context {S : Type}.
Implicit Types s : S.

Lemma run_ret {A} (a : A) s : (mret a : C S A) s = Ret a s.
Proof. reflexivity. Qed.

Lemma run_bind {A B} (c : C S A) (f : A → C S B) s :
  (c ≫= f) s = match c s with Ret a s' => f a s' | UB => UB | OOF => OOF end.
Proof. reflexivity. Qed.

Lemma run_bind_Ret {A B} (c : C S A) (f : A → C S B) s a s' :
  c s = Ret a s' → (c ≫= f) s = f a s'.
Proof. intros H. by rewrite run_bind, H. Qed.

(** Two steps of three. *)
Lemma run_seq {A B D} (c : C S A) (d : A → C S B) (e : B → C S D) s b s' :
  (c ≫= d) s = Ret b s' → (c ≫= λ a, d a ≫= e) s = e b s'.
Proof.
  rewrite !run_bind. destruct (c s) as [a s1| |]; [|done..]. intros E. by rewrite run_bind, E.
Qed.

Lemma run_elem {A} (l : list A) i v s : 0 ≤ i → l !! Z.to_nat i = Some v → elem l i s = Ret v s.
Proof. intros Hi Hl. unfold elem. rewrite (proj2 (Z.ltb_ge i 0)) by lia. by rewrite Hl. Qed.

Lemma run_elem_nth {A} (l : list A) i d s : 0 ≤ i < Z.of_nat (length l) → elem l i s = Ret (List.nth (Z.to_nat i) l d) s.
Proof.
  intros Hi. destruct (lookup_lt_is_Some_2 l (Z.to_nat i)) as [v Hv]; [lia|].
  rewrite (run_elem _ _ _ _ (proj1 Hi) Hv). by rewrite (nth_lookup_Some _ _ _ _ Hv).
Qed.

Lemma run_upd {A} (l : list A) i v s :
  0 ≤ i < Z.of_nat (length l) → upd l i v s = Ret (<[Z.to_nat i := v]> l) s.
Proof. intros Hi. unfold upd. by rewrite (proj2 (Z.leb_le 0 i)), (proj2 (Z.ltb_lt i _)) by lia. Qed.

Lemma run_modify (f : S → S) s : modify f s = Ret tt (f s).
Proof. reflexivity. Qed.

Lemma run_get s : get s = Ret s s.
Proof. reflexivity. Qed.

Lemma run_bind_UB {A B} (c : C S A) (f : A → C S B) s :
  c s = UB → (c ≫= f) s = UB.
Proof. intros H. by rewrite run_bind, H. Qed.

Lemma run_loop {St R} k (body : St → C S (St + R)) st s :
  loop (Datatypes.S k) body st s =
  match body st s with
  | Ret (inl st') s' => loop k body st' s'
  | Ret (inr x) s' => Ret x s'
  | UB => UB
  | OOF => OOF
  end.
Proof. simpl. rewrite run_bind. by destruct (body st s) as [[] ?| |]. Qed.

Lemma loop_next {St R} k (body : St → C S (St + R)) st s st' s' :
  body st s = Ret (inl st') s' →
  loop (Datatypes.S k) body st s = loop k body st' s'.
Proof. intros H. by rewrite run_loop, H. Qed.

Lemma loop_exit {St R} k (body : St → C S (St + R)) st s x s' :
  body st s = Ret (inr x) s' → loop (Datatypes.S k) body st s = Ret x s'.
Proof. intros H. by rewrite run_loop, H. Qed.

(** The total-correctness rule: the invariant is indexed by a bound on the
    number of rounds left. *)
Lemma loop_total {St R} (I : nat → St → S → Prop) (Q : R → S → Prop)
    (body : St → C S (St + R)) :
  (∀ n st s, I n st s → ∃ r s', body st s = Ret r s' ∧
     match r with
     | inl st' => ∃ n', (n' < n)%nat ∧ I n' st' s'
     | inr x => Q x s'
     end) →
  ∀ n fuel st s, (n < fuel)%nat → I n st s →
  ∃ x s', loop fuel body st s = Ret x s' ∧ Q x s'.
Proof.
  intros Hstep n. induction n as [n IH] using lt_wf_ind.
  intros [|fuel] st s Hlt HI; [lia|].
  destruct (Hstep n st s HI) as ([st'|x] & s' & Hrun & H).
  - destruct H as (n' & Hn' & HI'). rewrite (loop_next _ _ _ _ _ _ Hrun).
    apply (IH n'); [done|lia|done].
  - rewrite (loop_exit _ _ _ _ _ _ Hrun). eauto.
Qed.

(** Fuel is monotone: a loop that returns keeps its result. *)
Lemma loop_more {St R} (body : St → C S (St + R)) fuel fuel' st s x s' :
  (fuel ≤ fuel')%nat →
  loop fuel body st s = Ret x s' → loop fuel' body st s = Ret x s'.
Proof.
  revert fuel' st s. induction fuel as [|fuel IH]; intros [|fuel'] st s Hle;
    try done; try lia.
  rewrite !run_loop. destruct (body st s) as [[st'|y] s1| |]; try done.
  apply IH. lia.
Qed.
End run.

Create Rewrite HintDb crun.
#[export] Hint Rewrite @run_ret @run_bind : crun.

(** Run the computation in the goal as far as the rewriting hints go;
    [crun_access] is extended by the memory and the other state components. *)
Ltac crun_access := fail.
Ltac crun :=
  repeat ((first [crun_access | progress autorewrite with crun]); cbn beta iota zeta).

(** Decide the arithmetic tests in the goal that [lia] can. *)
Ltac clia := cbn [length] in *; lia.
Ltac ctest :=
  match goal with
  | |- context [?a =? ?b] =>
      first [rewrite (proj2 (Z.eqb_neq a b)) by clia
            |rewrite (proj2 (Z.eqb_eq a b)) by clia]
  | |- context [?a <? ?b] =>
      first [rewrite (proj2 (Z.ltb_ge a b)) by clia
            |rewrite (proj2 (Z.ltb_lt a b)) by clia]
  | |- context [?a <=? ?b] =>
      first [rewrite (proj2 (Z.leb_gt a b)) by clia
            |rewrite (proj2 (Z.leb_le a b)) by clia]
  | |- context [bool_decide ?P] =>
      first [rewrite (bool_decide_eq_false_2 P) by clia
            |rewrite (bool_decide_eq_true_2 P) by clia]
  end; cbn beta iota.

(** Prove a decidable, closed goal by evaluation. *)
Ltac by_decide := refine (bool_decide_unpack _ _); vm_compute; exact I.

(** Unfold one round of the loop in the goal and run it. *)
Ltac cround := rewrite run_loop; cbn beta iota; repeat ctest; crun.

(** ** Conversions *)

Section ints.
Lemma wrap_range w x : 0 ≤ w → 0 ≤ wrap w x < 2 ^ w.
Proof. intros Hw. apply Z.mod_pos_bound. by apply Z.pow_pos_nonneg. Qed.

Lemma wrap_small w x : 0 ≤ x < 2 ^ w → wrap w x = x.
Proof. apply Z.mod_small. Qed.

Lemma wrap_wrap w x : 0 ≤ w → wrap w (wrap w x) = wrap w x.
Proof. intros. apply wrap_small. by apply wrap_range. Qed.

Lemma sext_range w x : 0 < w → - 2 ^ (w - 1) ≤ sext w x < 2 ^ (w - 1).
Proof.
  intros Hw. unfold sext.
  assert (2 ^ w = 2 * 2 ^ (w - 1)) as E.
  { rewrite <-(Z.pow_succ_r 2) by lia. f_equal. lia. }
  pose proof (Z.mod_pos_bound (x + 2 ^ (w - 1)) (2 ^ w)).
  assert (0 < 2 ^ w) by (apply Z.pow_pos_nonneg; lia). lia.
Qed.

Lemma sext_small w x : 0 < w → - 2 ^ (w - 1) ≤ x < 2 ^ (w - 1) → sext w x = x.
Proof.
  intros Hw Hx. unfold sext.
  assert (2 ^ w = 2 * 2 ^ (w - 1)) as E.
  { rewrite <-(Z.pow_succ_r 2) by lia. f_equal. lia. }
  rewrite Z.mod_small by lia. lia.
Qed.

Lemma s8_byte b : is_byte b → s8 b = if b <? 128 then b else b - 256.
Proof.
  intros [H1 H2]. unfold sext. change (2 ^ (8 - 1)) with 128.
  change (2 ^ 8) with 256. destruct (Z.ltb_spec b 128).
  - rewrite Z.mod_small; lia.
  - rewrite <-(Z_mod_plus_full _ (-1)), Z.mod_small; lia.
Qed.

Lemma s8_u8 x : s8 (u8 x) = s8 x.
Proof. unfold sext, wrap. by rewrite Zplus_mod_idemp_l. Qed.

Lemma u8_is_byte x : is_byte (u8 x).
Proof. apply (wrap_range 8). lia. Qed.

Lemma u8_byte b : is_byte b → u8 b = b.
Proof. intros. by apply wrap_small. Qed.

Lemma u8_s8 x : u8 (s8 x) = u8 x.
Proof.
  unfold sext, wrap. rewrite Zminus_mod_idemp_l. f_equal. lia.
Qed.

(** Two bytes that agree as [char] agree. *)
Lemma s8_inj a b : is_byte a → is_byte b → s8 a = s8 b → a = b.
Proof.
  intros Ha Hb E. rewrite <-(u8_byte a Ha), <-(u8_byte b Hb).
  by rewrite <-u8_s8, E, u8_s8.
Qed.

Lemma s8_eqb a b : is_byte a → is_byte b → (s8 a =? s8 b) = (a =? b).
Proof.
  intros Ha Hb. apply eq_true_iff_eq. rewrite !Z.eqb_eq.
  split; [by apply s8_inj|by intros ->].
Qed.

(** A [char] read from memory against a character argument. *)
Lemma char_eqb b c : is_byte b → (s8 b =? s8 c) = (b =? u8 c).
Proof. intros Hb. rewrite <-(s8_u8 c). apply s8_eqb; [done|apply u8_is_byte]. Qed.

Lemma s8_nul : (s8 0 =? 0) = true.
Proof. reflexivity. Qed.

Lemma is_byte_0 : is_byte 0.
Proof. unfold is_byte. lia. Qed.

Lemma is_byte_pos b : 0 < b < 256 → is_byte b.
Proof. unfold is_byte. lia. Qed.

Lemma s8_zero b : is_byte b → (s8 b =? 0) = (b =? 0).
Proof. intros. apply (s8_eqb b 0); [done|]. unfold is_byte; lia. Qed.

(** A character against an ASCII constant. *)
Lemma s8_const b k : is_byte b → 0 ≤ k < 128 → (s8 b =? k) = (b =? k).
Proof.
  intros Hb Hk. rewrite s8_byte by done. destruct (Z.ltb_spec b 128); [done|].
  unfold is_byte in Hb. destruct (Z.eqb_spec (b - 256) k), (Z.eqb_spec b k); lia.
Qed.
End ints.

#[export] Hint Rewrite s8_nul : crun.
#[export] Hint Resolve u8_is_byte is_byte_0 is_byte_pos : core.

Lemma Forall2_impl_elem {A B} (P Q : A → B → Prop) (l : list A) (k : list B) :
  Forall2 P l k → (∀ x y, x ∈ l → P x y → Q x y) → Forall2 Q l k.
Proof.
  induction 1 as [|x y l k Hxy _ IH]; intros HPQ; constructor.
  - apply HPQ; [by left|done].
  - apply IH. intros a b Ha. apply HPQ. by right.
Qed.
