(* ===== verification/Memory.v ===== *)
(** * Byte memory

    The memory every string routine of klibc works on: a finite map from
    addresses to bytes, so that a load or store outside every object is [UB].
    [bytes_at] and [cstr] say that a memory holds a given byte sequence or
    NUL-terminated string; [write_bytes] is the memory after storing a
    sequence, which lets a theorem name the whole final memory. *)

From stdpp Require Import base tactics numbers list gmap.
From S2P Require Import Prelude.

Open Scope Z_scope.

Abbreviation mem := (gmap Z Z).

Definition NULL : Z := 0.

(** ** Accesses *)

(** Read the [unsigned char] at [p]. *)
Definition load8 (p : Z) : C mem Z := λ m,
  match m !! p with Some b => Ret b m | None => UB end.

(** Read the [char] at [p]; [char] is signed. *)
Definition loadc (p : Z) : C mem Z := b ← load8 p; mret (s8 b).

(** Store [v] in the [char] at [p]: its low byte. *)
Definition store8 (p v : Z) : C mem unit := λ m,
  match m !! p with Some _ => Ret tt (<[p := u8 v]> m) | None => UB end.

(** Steps enough for any scan of a memory: one more than its size, since a scan
    that never reads an address twice faults or stops before. *)
Definition scan_fuel {A} (c : nat → C mem A) : C mem A :=
  λ m, c (S (size m)) m.

(** ** Contents *)

Definition bytes_at (m : mem) (p : Z) (l : list Z) : Prop :=
  Forall is_byte l ∧ ∀ i b, l !! i = Some b → m !! (p + Z.of_nat i) = Some b.

(** [s] is the string at [p]: its bytes, none of them NUL, then a NUL. *)
Definition cstr (m : mem) (p : Z) (s : list Z) : Prop :=
  bytes_at m p (s ++ [0]) ∧ Forall (λ b, 0 < b < 256) s.

Fixpoint write_bytes (m : mem) (p : Z) (l : list Z) : mem :=
  match l with
  | [] => m
  | b :: l' => <[p := b]> (write_bytes m (p + 1) l')
  end.

(** The object of [n] bytes at [p] is allocated. *)
Definition valid (m : mem) (p n : Z) : Prop :=
  ∀ i, 0 ≤ i < n → is_Some (m !! (p + i)).

Definition disjoint_ranges (p n q k : Z) : Prop := p + n ≤ q ∨ q + k ≤ p.

Section contents.
Implicit Types (m : mem) (p q n : Z) (l s : list Z).

Lemma bytes_at_nil m p : bytes_at m p [].
Proof. split; [done|]. intros i b H. by rewrite lookup_nil in H. Qed.

Lemma bytes_at_cons m p b l :
  bytes_at m p (b :: l) ↔ is_byte b ∧ m !! p = Some b ∧ bytes_at m (p + 1) l.
Proof.
  unfold bytes_at. rewrite Forall_cons. split.
  - intros [[Hb Hl] H]. split_and!; [done| |done|].
    + specialize (H 0%nat b eq_refl). by rewrite Z.add_0_r in H.
    + intros i c Hi. specialize (H (S i) c Hi).
      by replace (p + 1 + Z.of_nat i) with (p + Z.of_nat (S i)) by lia.
  - intros (Hb & Hp & Hl & H). split; [done|]. intros [|i] c Hi; simpl in *.
    + rewrite Z.add_0_r. congruence.
    + replace (p + Z.of_nat (S i)) with (p + 1 + Z.of_nat i) by lia. by apply H.
Qed.

Lemma bytes_at_app m p l l' :
  bytes_at m p (l ++ l') ↔
  bytes_at m p l ∧ bytes_at m (p + Z.of_nat (length l)) l'.
Proof.
  revert p. induction l as [|b l IH]; intros p; simpl.
  - rewrite Z.add_0_r. split; [|tauto]. auto using bytes_at_nil.
  - rewrite !bytes_at_cons, IH.
    replace (p + 1 + Z.of_nat (length l)) with (p + Z.of_nat (S (length l))) by lia.
    tauto.
Qed.

Lemma bytes_at_lookup m p l i :
  bytes_at m p l → 0 ≤ i < Z.of_nat (length l) →
  m !! (p + i) = l !! Z.to_nat i.
Proof.
  intros [_ H] Hi. destruct (lookup_lt_is_Some_2 l (Z.to_nat i)) as [b Hb]; [lia|].
  rewrite Hb. specialize (H _ _ Hb). by rewrite Z2Nat.id in H by lia.
Qed.

Lemma bytes_at_valid m p l : bytes_at m p l → valid m p (Z.of_nat (length l)).
Proof.
  intros H i Hi. rewrite (bytes_at_lookup _ _ _ _ H Hi).
  apply lookup_lt_is_Some_2. lia.
Qed.

Lemma bytes_at_ext m m' p l :
  bytes_at m p l →
  (∀ a, p ≤ a < p + Z.of_nat (length l) → m' !! a = m !! a) →
  bytes_at m' p l.
Proof.
  intros [Hl H] E. split; [done|]. intros i b Hi. rewrite E; [by apply H|].
  apply lookup_lt_Some in Hi. lia.
Qed.

Lemma bytes_at_inj m p l l' :
  bytes_at m p l → bytes_at m p l' → length l = length l' → l = l'.
Proof.
  intros [_ H] [_ H'] Hlen. apply list_eq. intros i.
  destruct (l !! i) as [b|] eqn:E.
  - destruct (lookup_lt_is_Some_2 l' i) as [c Hc].
    { apply lookup_lt_Some in E. lia. }
    rewrite Hc. apply H in E. apply H' in Hc. congruence.
  - apply lookup_ge_None in E. symmetry. apply lookup_ge_None. lia.
Qed.

Lemma bytes_at_is_byte m p l : bytes_at m p l → Forall is_byte l.
Proof. by intros [H _]. Qed.

(** A memory is at least as large as what it holds: the bound behind
    [scan_fuel]. *)
Lemma bytes_at_size m p l : bytes_at m p l → (length l ≤ size m)%nat.
Proof.
  revert m p. induction l as [|b l IH]; intros m p H; simpl; [lia|].
  apply bytes_at_cons in H as (_ & Hp & H).
  rewrite <-(insert_id m p b Hp), <-insert_delete_eq.
  rewrite map_size_insert_None by apply lookup_delete_eq.
  apply le_n_S, (IH _ (p + 1)).
  apply (bytes_at_ext m); [done|]. intros a Ha. apply lookup_delete_ne. lia.
Qed.

Lemma valid_split m p n k :
  0 ≤ k ≤ n → valid m p n ↔ valid m p k ∧ valid m (p + k) (n - k).
Proof.
  intros Hk. split.
  - intros H. split; intros i Hi; [apply H; lia|].
    replace (p + k + i) with (p + (k + i)) by lia. apply H. lia.
  - intros [H1 H2] i Hi. destruct (Z.lt_ge_cases i k); [apply H1; lia|].
    replace (p + i) with (p + k + (i - k)) by lia. apply H2. lia.
Qed.

Lemma valid_head m p n : 0 < n → valid m p n → is_Some (m !! p).
Proof. intros Hn H. rewrite <-(Z.add_0_r p). apply H. lia. Qed.

Lemma valid_tail m p n : valid m p n → valid m (p + 1) (n - 1).
Proof.
  intros H i Hi. replace (p + 1 + i) with (p + (1 + i)) by lia. apply H. lia.
Qed.

Lemma valid_insert m p n a b : valid m p n → valid (<[a := b]> m) p n.
Proof.
  intros H i Hi. apply lookup_insert_is_Some'. right. by apply H.
Qed.

Lemma valid_le m p n n' : n' ≤ n → valid m p n → valid m p n'.
Proof. intros Hle H i Hi. apply H. lia. Qed.

Lemma valid_sub m p n q k :
  valid m p n → p ≤ q → q + k ≤ p + n → valid m q k.
Proof.
  intros H H1 H2 i Hi. replace (q + i) with (p + (q - p + i)) by lia.
  apply H. lia.
Qed.

(** *** [write_bytes] *)

Lemma lookup_write_bytes m p l a :
  write_bytes m p l !! a =
  if decide (p ≤ a < p + Z.of_nat (length l))
  then l !! Z.to_nat (a - p) else m !! a.
Proof.
  revert p. induction l as [|b l IH]; intros p; simpl.
  - rewrite decide_False by lia. done.
  - destruct (decide (p = a)) as [->|Hne].
    + rewrite lookup_insert_eq, decide_True by lia.
      by replace (a - a) with 0 by lia.
    + rewrite lookup_insert_ne by done. rewrite IH.
      destruct (decide (p ≤ a < p + Z.of_nat (S (length l)))).
      * rewrite decide_True by lia.
        replace (Z.to_nat (a - p)) with (S (Z.to_nat (a - (p + 1)))) by lia.
        done.
      * rewrite decide_False by lia. done.
Qed.

Lemma lookup_write_bytes_out m p l a :
  a < p ∨ p + Z.of_nat (length l) ≤ a → write_bytes m p l !! a = m !! a.
Proof. intros H. rewrite lookup_write_bytes, decide_False by lia. done. Qed.

Lemma write_bytes_at m p l :
  Forall is_byte l → bytes_at (write_bytes m p l) p l.
Proof.
  intros Hl. split; [done|]. intros i b Hi. rewrite lookup_write_bytes.
  apply lookup_lt_Some in Hi as Hlt. rewrite decide_True by lia.
  by replace (Z.to_nat (p + Z.of_nat i - p)) with i by lia.
Qed.

Lemma write_bytes_frame m p l q l' :
  bytes_at m q l' →
  disjoint_ranges p (Z.of_nat (length l)) q (Z.of_nat (length l')) →
  bytes_at (write_bytes m p l) q l'.
Proof.
  intros H Hd. apply (bytes_at_ext m); [done|]. intros a Ha.
  apply lookup_write_bytes_out. unfold disjoint_ranges in Hd. lia.
Qed.

Lemma write_bytes_valid m p l q n : valid m q n → valid (write_bytes m p l) q n.
Proof.
  intros H i Hi. rewrite lookup_write_bytes.
  case_decide; [|by apply H]. apply lookup_lt_is_Some_2. lia.
Qed.

Lemma write_bytes_app m p l l' :
  write_bytes m p (l ++ l') =
  write_bytes (write_bytes m (p + Z.of_nat (length l)) l') p l.
Proof.
  revert p. induction l as [|b l IH]; intros p; simpl.
  - by rewrite Z.add_0_r.
  - rewrite IH. do 3 f_equal. lia.
Qed.

Lemma write_bytes_app' m p l l' :
  write_bytes m p (l ++ l') =
  write_bytes (write_bytes m p l) (p + Z.of_nat (length l)) l'.
Proof.
  apply map_eq. intros a. rewrite !lookup_write_bytes, length_app.
  repeat case_decide; try lia; try done.
  - rewrite lookup_app_r by lia. f_equal. lia.
  - by rewrite lookup_app_l by lia.
Qed.

Lemma write_bytes_snoc m p l b :
  write_bytes m p (l ++ [b]) =
  <[p + Z.of_nat (length l) := b]> (write_bytes m p l).
Proof. by rewrite write_bytes_app'. Qed.

Lemma write_bytes_cons' m p b l :
  write_bytes m p (b :: l) = write_bytes (<[p := b]> m) (p + 1) l.
Proof. exact (write_bytes_app' m p [b] l). Qed.

Lemma write_bytes_insert_out m p l a b :
  a < p ∨ p + Z.of_nat (length l) ≤ a →
  write_bytes (<[a := b]> m) p l = <[a := b]> (write_bytes m p l).
Proof.
  intros H. apply map_eq. intros k. rewrite lookup_write_bytes, !lookup_insert.
  case_decide; case_decide; subst; try lia.
  - by rewrite lookup_write_bytes, decide_True by lia.
  - done.
  - by rewrite lookup_write_bytes, decide_False by lia.
Qed.

Lemma write_bytes_id m p l : bytes_at m p l → write_bytes m p l = m.
Proof.
  intros H. apply map_eq. intros a. rewrite lookup_write_bytes.
  case_decide as Ha; [|done].
  rewrite <-(bytes_at_lookup _ _ _ (a - p) H) by lia. f_equal. lia.
Qed.

Lemma write_bytes_overwrite m p l l' :
  length l = length l' → write_bytes (write_bytes m p l) p l' = write_bytes m p l'.
Proof.
  intros E. apply map_eq. intros a. rewrite !lookup_write_bytes, E.
  by case_decide.
Qed.

Lemma write_bytes_comm m p l1 q l2 :
  disjoint_ranges p (Z.of_nat (length l1)) q (Z.of_nat (length l2)) →
  write_bytes (write_bytes m p l1) q l2 = write_bytes (write_bytes m q l2) p l1.
Proof.
  unfold disjoint_ranges. intros Hd. apply map_eq. intros c. rewrite !lookup_write_bytes.
  repeat case_decide; try lia; done.
Qed.

(** *** Strings *)

Lemma cstr_nil m p : cstr m p [] ↔ m !! p = Some 0.
Proof.
  unfold cstr. simpl. rewrite bytes_at_cons. split; [tauto|].
  intros H. split; [split_and!; [done|done|apply bytes_at_nil]|done].
Qed.

Lemma cstr_cons m p b s :
  cstr m p (b :: s) ↔ m !! p = Some b ∧ 0 < b < 256 ∧ cstr m (p + 1) s.
Proof.
  unfold cstr. simpl. rewrite bytes_at_cons, Forall_cons. unfold is_byte.
  intuition lia.
Qed.

Lemma cstr_app m p s s' :
  cstr m p (s ++ s') →
  bytes_at m p s ∧ Forall (λ b, 0 < b < 256) s ∧
  cstr m (p + Z.of_nat (length s)) s'.
Proof.
  unfold cstr. rewrite <-app_assoc, bytes_at_app, Forall_app. tauto.
Qed.

Lemma cstr_bytes m p s : cstr m p s → bytes_at m p s.
Proof. intros [H _]. by apply bytes_at_app in H as [H _]. Qed.

Lemma cstr_nul m p s : cstr m p s → m !! (p + Z.of_nat (length s)) = Some 0.
Proof. intros [[_ H] _]. apply (H (length s) 0). by rewrite lookup_app_r, Nat.sub_diag. Qed.

Lemma cstr_size m p s : cstr m p s → (length s < size m)%nat.
Proof.
  intros [H _]. apply bytes_at_size in H. rewrite length_app in H. simpl in H. lia.
Qed.

Lemma cstr_inj m p s s' : cstr m p s → cstr m p s' → s = s'.
Proof.
  revert p s'. induction s as [|b s IH]; intros p [|b' s'] H H'; [done|..].
  - apply cstr_nil in H. apply cstr_cons in H' as (H' & ? & _).
    assert (b' = 0) by congruence. lia.
  - apply cstr_nil in H'. apply cstr_cons in H as (H & ? & _).
    assert (b = 0) by congruence. lia.
  - apply cstr_cons in H as (H1 & ? & H2). apply cstr_cons in H' as (H1' & ? & H2').
    f_equal; [congruence|by eapply IH].
Qed.

Lemma cstr_ext m m' p s :
  cstr m p s →
  (∀ a, p ≤ a ≤ p + Z.of_nat (length s) → m' !! a = m !! a) →
  cstr m' p s.
Proof.
  intros [H1 H2] E. split; [|done]. apply (bytes_at_ext m); [done|].
  intros a Ha. apply E. rewrite length_app in Ha. simpl in Ha. lia.
Qed.

Lemma cstr_write m p s :
  Forall (λ b, 0 < b < 256) s → cstr (write_bytes m p (s ++ [0])) p s.
Proof.
  intros H. split; [|done]. apply write_bytes_at. rewrite Forall_app. split.
  - apply (Forall_impl _ _ _ H). unfold is_byte. lia.
  - by repeat constructor.
Qed.

Lemma cstr_frame m p s q l :
  cstr m p s → disjoint_ranges q (Z.of_nat (length l)) p (Z.of_nat (length s) + 1) →
  cstr (write_bytes m q l) p s.
Proof.
  intros H Hd. apply (cstr_ext m); [done|]. intros a Ha.
  apply lookup_write_bytes_out. unfold disjoint_ranges in Hd. lia.
Qed.
End contents.

(** ** Deciding contents *)

Section decide.
Implicit Types (m : mem) (p n : Z) (l s : list Z).

Fixpoint bytes_atb m p l : bool :=
  match l with
  | [] => true
  | b :: l' =>
      bool_decide (is_byte b) && bool_decide (m !! p = Some b) &&
      bytes_atb m (p + 1) l'
  end.

Lemma bytes_atb_spec m p l : bytes_atb m p l = true ↔ bytes_at m p l.
Proof.
  revert p. induction l as [|b l IH]; intros p; simpl; [by split|].
  rewrite bytes_at_cons, !andb_true_iff, !bool_decide_eq_true, IH. tauto.
Qed.

#[global] Instance bytes_at_dec m p l : Decision (bytes_at m p l) :=
  match decide (bytes_atb m p l = true) with
  | left H => left (proj1 (bytes_atb_spec m p l) H)
  | right H => right (λ H', H (proj2 (bytes_atb_spec m p l) H'))
  end.

#[global] Instance cstr_dec m p s : Decision (cstr m p s).
Proof. unfold cstr. apply _. Defined.

Lemma valid_forall m p n :
  Forall (λ i, is_Some (m !! (p + i))) (seqZ 0 n) ↔ valid m p n.
Proof.
  rewrite Forall_forall. unfold valid. split; intros H i Hi; apply H.
  - apply elem_of_seqZ. lia.
  - apply elem_of_seqZ in Hi. lia.
Qed.

#[global] Instance valid_dec m p n : Decision (valid m p n) :=
  match decide (Forall (λ i, is_Some (m !! (p + i))) (seqZ 0 n)) with
  | left H => left (proj1 (valid_forall m p n) H)
  | right H => right (λ H', H (proj2 (valid_forall m p n) H'))
  end.

#[global] Instance disjoint_ranges_dec p n q k : Decision (disjoint_ranges p n q k).
Proof. unfold disjoint_ranges. apply _. Defined.
End decide.

(** ** Running accesses *)

Section run_access.
Implicit Types (m : mem) (p : Z).

Lemma run_load8 m p b : m !! p = Some b → load8 p m = Ret b m.
Proof. intros H. unfold load8. by rewrite H. Qed.

Lemma run_loadc m p b : m !! p = Some b → loadc p m = Ret (s8 b) m.
Proof. intros H. unfold loadc. by rewrite (run_bind_Ret _ _ _ _ _ (run_load8 _ _ _ H)). Qed.

Lemma run_load8_UB m p : m !! p = None → load8 p m = UB.
Proof. intros H. unfold load8. by rewrite H. Qed.

Lemma run_loadc_UB m p : m !! p = None → loadc p m = UB.
Proof. intros H. unfold loadc. by rewrite (run_bind_UB _ _ _ (run_load8_UB _ _ H)). Qed.

Lemma run_store8 m p v : is_Some (m !! p) → store8 p v m = Ret tt (<[p := u8 v]> m).
Proof. intros [b H]. unfold store8. by rewrite H. Qed.

Lemma run_store8_UB m p v : m !! p = None → store8 p v m = UB.
Proof. intros H. unfold store8. by rewrite H. Qed.

Lemma run_scan_fuel {A} (c : nat → C mem A) m : scan_fuel c m = c (S (size m)) m.
Proof. reflexivity. Qed.
End run_access.

#[export] Hint Rewrite @run_scan_fuel : crun.

(** Loads at addresses whose contents are in the context. *)
Ltac crun_mem :=
  match goal with
  | H : ?m !! ?p = Some ?b |- context [load8 ?p ?m] => rewrite (run_load8 m p b H)
  | H : ?m !! ?p = Some ?b |- context [loadc ?p ?m] => rewrite (run_loadc m p b H)
  end.

Ltac crun_access ::= crun_mem.

#[export] Hint Resolve bytes_at_nil cstr_bytes : core.

(** Contents of a memory built by writes that do not overlap. *)
Ltac peel :=
  first [apply write_bytes_at; by_decide | apply write_bytes_frame; [peel|by_decide]].
