(* ===== verification/Words.v ===== *)
(** * Machine words in byte memory

    Integer objects of several bytes, little-endian: how they are read and
    stored, and the memory after a store.  [word m p] is the 64-bit word at [p];
    [put m p v] is the memory after storing one. *)

From stdpp Require Import base tactics numbers list gmap.
From S2P Require Import Prelude Memory.

Open Scope Z_scope.

Fixpoint store_le (bytes : nat) (p v : Z) : C mem unit :=
  match bytes with
  | O => mret tt
  | S k => store8 p (u8 v);; store_le k (p + 1) (v / 256)
  end.

Fixpoint load_le (bytes : nat) (p : Z) : C mem Z :=
  match bytes with
  | O => mret 0
  | S k => b ← load8 p; v ← load_le k (p + 1); mret (b + 256 * v)
  end.

(** Pointers and [size_t]. *)
Definition load64 (p : Z) : C mem Z := load_le 8 p.
Definition store64 (p v : Z) : C mem unit := store_le 8 p v.

(** ** Contents *)

Fixpoint le_bytes (k : nat) (v : Z) : list Z :=
  match k with O => [] | S k => u8 v :: le_bytes k (v / 256) end.

(** The unsigned value of little-endian bytes. *)
Fixpoint le_value (l : list Z) : Z :=
  match l with [] => 0 | b :: l => b + 256 * le_value l end.

Definition word (m : mem) (p : Z) : option Z :=
  match load64 p m with Ret v _ => Some v | _ => None end.

Definition put (m : mem) (p v : Z) : mem := write_bytes m p (le_bytes 8 v).

Section words.
Implicit Types (m : mem) (p q v : Z).

Lemma le_bytes_length k v : length (le_bytes k v) = k.
Proof. revert v. induction k as [|k IH]; intros v; [done|]. cbn [le_bytes length]. by rewrite IH. Qed.

Lemma le_bytes_is_byte k v : Forall is_byte (le_bytes k v).
Proof.
  revert v. induction k as [|k IH]; intros v; constructor; [|done]. by apply wrap_range.
Qed.

Lemma le_value_bytes k v : le_value (le_bytes k v) = v mod 256 ^ Z.of_nat k.
Proof.
  revert v. induction k as [|k IH]; intros v; cbn [le_bytes le_value]; [by rewrite Z.mod_1_r|].
  rewrite IH, Nat2Z.inj_succ, Z.pow_succ_r, Z.rem_mul_r by lia. done.
Qed.

Lemma run_store_le m p v k :
  valid m p (Z.of_nat k) → store_le k p v m = Ret tt (write_bytes m p (le_bytes k v)).
Proof.
  revert m p v. induction k as [|k IH]; intros m p v Hv; [done|]. cbn [store_le le_bytes].
  pose proof (valid_head m p (Z.of_nat (S k)) ltac:(lia) Hv) as Hp. apply valid_tail in Hv.
  rewrite run_bind, run_store8 by done. cbn beta iota. rewrite wrap_wrap by lia.
  rewrite IH, <-write_bytes_cons'; [done|].
  apply valid_insert. by replace (Z.of_nat k) with (Z.of_nat (S k) - 1) by lia.
Qed.

Lemma run_load_le m p l :
  bytes_at m p l → load_le (length l) p m = Ret (le_value l) m.
Proof.
  revert p. induction l as [|b l IH]; intros p Hl; [done|].
  apply bytes_at_cons in Hl as (_ & Hp & Hl). cbn [length load_le le_value].
  crun. by rewrite (IH _ Hl).
Qed.

(** A read depends on its bytes only. *)
Lemma load_le_ext k m m' p :
  (∀ a, p ≤ a < p + Z.of_nat k → m' !! a = m !! a) →
  load_le k p m' =
  match load_le k p m with Ret v _ => Ret v m' | UB => UB | OOF => OOF end.
Proof.
  revert p. induction k as [|k IH]; intros p E; [done|]. cbn [load_le].
  rewrite !run_bind. unfold load8. rewrite (E p) by lia.
  destruct (m !! p) as [b|]; [|done]. cbn beta iota. rewrite !run_bind, IH by (intros; apply E; lia).
  by destruct (load_le k (p + 1) m).
Qed.

Lemma load_le_same k m p v m' : load_le k p m = Ret v m' → m' = m.
Proof.
  rewrite (load_le_ext k m m) by done. destruct (load_le k p m); [|done..]. by intros [= _ <-].
Qed.

(** *** The word of a memory *)

Lemma run_load64 m p v : word m p = Some v → load64 p m = Ret v m.
Proof.
  unfold word, load64. intros H. destruct (load_le 8 p m) as [v' m'| |] eqn:E; [|done..].
  apply load_le_same in E as E'. by simplify_eq.
Qed.

Lemma run_store64 m p v : valid m p 8 → store64 p v m = Ret tt (put m p v).
Proof. apply (run_store_le m p v 8). Qed.

Lemma word_ext m m' p :
  (∀ a, p ≤ a < p + 8 → m' !! a = m !! a) → word m' p = word m p.
Proof.
  intros E. unfold word, load64. rewrite (load_le_ext 8 m m') by exact E.
  by destruct (load_le 8 p m).
Qed.

Lemma word_write_out m p l q :
  disjoint_ranges p (Z.of_nat (length l)) q 8 → word (write_bytes m p l) q = word m q.
Proof.
  intros Hd. apply word_ext. intros a Ha. apply lookup_write_bytes_out.
  unfold disjoint_ranges in Hd. lia.
Qed.

Lemma word_put_eq m p v : 0 ≤ v < 2 ^ 64 → word (put m p v) p = Some v.
Proof.
  intros Hv. unfold word, load64, put.
  pose proof (run_load_le (write_bytes m p (le_bytes 8 v)) p (le_bytes 8 v)
    (write_bytes_at _ _ _ (le_bytes_is_byte 8 v))) as H.
  rewrite le_bytes_length in H. rewrite H, le_value_bytes.
  change (256 ^ Z.of_nat 8) with (2 ^ 64). by rewrite Z.mod_small.
Qed.

Lemma word_put_ne m p v q : p + 8 ≤ q ∨ q + 8 ≤ p → word (put m p v) q = word m q.
Proof. intros H. apply word_write_out. rewrite le_bytes_length. exact H. Qed.

Lemma lookup_put_out m p v a : a < p ∨ p + 8 ≤ a → put m p v !! a = m !! a.
Proof. intros H. apply lookup_write_bytes_out. by rewrite le_bytes_length. Qed.

Lemma put_valid m p v q n : valid m q n → valid (put m p v) q n.
Proof. apply write_bytes_valid. Qed.

Lemma word_of_bytes m p v : 0 ≤ v < 2 ^ 64 → bytes_at m p (le_bytes 8 v) → word m p = Some v.
Proof.
  intros Hv H. unfold word, load64. pose proof (run_load_le m p (le_bytes 8 v) H) as Hl.
  rewrite le_bytes_length in Hl. rewrite Hl, le_value_bytes.
  change (256 ^ Z.of_nat 8) with (2 ^ 64). by rewrite Z.mod_small.
Qed.

(** *** Arrays of words *)

Definition words (l : list Z) : list Z := mjoin (map (le_bytes 8) l).

Lemma words_cons v l : words (v :: l) = le_bytes 8 v ++ words l.
Proof. reflexivity. Qed.

Lemma words_app l l' : words (l ++ l') = words l ++ words l'.
Proof.
  induction l as [|v l IH]; [done|]. change ((v :: l) ++ l') with (v :: l ++ l').
  by rewrite !words_cons, IH, <-app_assoc.
Qed.

Lemma words_length l : length (words l) = (8 * length l)%nat.
Proof.
  induction l as [|v l IH]; [done|]. rewrite words_cons, length_app, le_bytes_length, IH. simpl. lia.
Qed.

Lemma words_is_byte l : Forall is_byte (words l).
Proof.
  induction l as [|v l IH]; [constructor|]. rewrite words_cons. apply Forall_app.
  split; [apply le_bytes_is_byte|done].
Qed.

Lemma words_lookup m p l i v :
  bytes_at m p (words l) → l !! i = Some v → 0 ≤ v < 2 ^ 64 → word m (p + 8 * Z.of_nat i) = Some v.
Proof.
  intros H Hi Hv. revert p i H Hi. induction l as [|w l IH]; intros p i H Hi; [done|].
  rewrite words_cons in H. apply bytes_at_app in H as [H1 H2]. rewrite le_bytes_length in H2.
  destruct i as [|i]; simpl in Hi.
  - injection Hi as ->. replace (p + 8 * Z.of_nat 0) with p by lia. by apply word_of_bytes.
  - replace (p + 8 * Z.of_nat (S i)) with (p + Z.of_nat 8 + 8 * Z.of_nat i) by lia. by apply IH.
Qed.

(** Storing an element of an array, and one after its end. *)
Lemma words_put m p l i v :
  bytes_at m p (words l) → (i < length l)%nat →
  bytes_at (put m (p + 8 * Z.of_nat i) v) p (words (<[i := v]> l)).
Proof.
  intros Hl Hi. destruct (lookup_lt_is_Some_2 l i Hi) as [w Hw].
  rewrite <-(take_drop_middle l i w Hw) in Hl. rewrite insert_take_drop by done.
  rewrite words_app, words_cons in Hl |- *.
  assert (length (words (take i l)) = 8 * i)%nat as Hlen by (rewrite words_length, length_take; lia).
  rewrite !bytes_at_app, Hlen, !le_bytes_length in *. destruct Hl as (H1 & _ & H3).
  replace (p + Z.of_nat (8 * i)) with (p + 8 * Z.of_nat i) in * by lia. split_and!.
  - apply write_bytes_frame; [done|]. unfold disjoint_ranges. rewrite le_bytes_length. lia.
  - apply write_bytes_at, le_bytes_is_byte.
  - apply write_bytes_frame; [done|]. unfold disjoint_ranges. rewrite le_bytes_length. lia.
Qed.

Lemma words_snoc m p l v :
  bytes_at m p (words l) →
  bytes_at (put m (p + 8 * Z.of_nat (length l)) v) p (words (l ++ [v])).
Proof.
  intros Hl. rewrite words_app, bytes_at_app, words_length. split.
  - apply write_bytes_frame; [done|]. unfold disjoint_ranges. rewrite words_length. lia.
  - replace (p + Z.of_nat (8 * length l)) with (p + 8 * Z.of_nat (length l)) by lia.
    unfold words. cbn [map]. change (mjoin [le_bytes 8 v]) with (le_bytes 8 v ++ []). rewrite app_nil_r.
    apply write_bytes_at, le_bytes_is_byte.
Qed.
End words.

#[export] Hint Resolve put_valid : core.
