(* ===== verification/MemFns.v ===== *)
(** * The mem* routines: [memcpy.c], [memmove.c], [memset.c], [bzero.c],
    [memcmp.c], [memchr.c], [memrchr.c], [memccpy.c], [memswap.c], [memmem.c]

    Each routine is its C loop over the byte memory.  The theorems name the
    final memory and the returned pointer in full; [memmem] is proved equal to
    the naive search. *)

From stdpp Require Import base tactics numbers list gmap.
From S2P Require Import Prelude Memory.

Open Scope Z_scope.

(** ** The routines *)

(** The loop [while (n--) *q++ = *p++;] shared by [memcpy] and [memmove]. *)
Definition copy_up (q p n : Z) : C mem unit :=
  loop (S (Z.to_nat n)) (λ '(q, p, n),
    if n =? 0 then Break tt else
    ch ← loadc p;
    store8 q ch;;
    Next (q + 1, p + 1, n - 1)) (q, p, n).

(** The loop [while (n--) *--q = *--p;] of [memmove]. *)
Definition copy_down (q p n : Z) : C mem unit :=
  loop (S (Z.to_nat n)) (λ '(q, p, n),
    if n =? 0 then Break tt else
    ch ← loadc (p - 1);
    store8 (q - 1) ch;;
    Next (q - 1, p - 1, n - 1)) (q, p, n).

Definition memcpy (dst src n : Z) : C mem Z :=
  copy_up dst src n;; mret dst.

Definition memmove (dst src n : Z) : C mem Z :=
  (if dst <? src then copy_up dst src n
   else copy_down (dst + n) (src + n) n);;
  mret dst.

Definition memset (dst c n : Z) : C mem Z :=
  loop (S (Z.to_nat n)) (λ '(q, n),
    if n =? 0 then Break tt else
    store8 q c;;
    Next (q + 1, n - 1)) (dst, n);;
  mret dst.

Definition bzero (dst n : Z) : C mem unit :=
  memset dst 0 n;; mret tt.

Definition memcmp (s1 s2 n : Z) : C mem Z :=
  loop (S (Z.to_nat n)) (λ '(c1, c2, n, d),
    if n =? 0 then Break d else
    x ← load8 c1;
    y ← load8 c2;
    let d := x - y in
    if d =? 0 then Next (c1 + 1, c2 + 1, n - 1, d) else Break d)
  (s1, s2, n, 0).

Definition memchr (s c n : Z) : C mem Z :=
  loop (S (Z.to_nat n)) (λ '(sp, n),
    if n =? 0 then Break NULL else
    b ← load8 sp;
    if b =? u8 c then Break sp else Next (sp + 1, n - 1)) (s, n).

Definition memrchr (s c n : Z) : C mem Z :=
  loop (S (Z.to_nat n)) (λ '(sp, n),
    if n =? 0 then Break NULL else
    b ← load8 sp;
    if b =? u8 c then Break sp else Next (sp - 1, n - 1)) (s + n - 1, n).

Definition memccpy (dst src c n : Z) : C mem Z :=
  loop (S (Z.to_nat n)) (λ '(q, p, n),
    if n =? 0 then Break NULL else
    ch ← loadc p;
    store8 q ch;;
    if ch =? s8 c then Break (q + 1) else Next (q + 1, p + 1, n - 1))
  (dst, src, n).

Definition memswap (m1 m2 n : Z) : C mem unit :=
  loop (S (Z.to_nat n)) (λ '(p, q, n),
    if n =? 0 then Break tt else
    tmp ← loadc p;
    b ← loadc q;
    store8 p b;;
    store8 q tmp;;
    Next (p + 1, q + 1, n - 1)) (m1, m2, n).

(** [memmem]: the "not so naive" search, a one-byte needle apart. *)
Definition memmem (haystack n needle m : Z) : C mem Z :=
  let y := haystack in
  let x := needle in
  if bool_decide (n < m) || (m =? 0) || (n =? 0) then mret NULL else
  if negb (m =? 1) then
    x0 ← load8 x;
    x1 ← load8 (x + 1);
    let '(k, l) := if x0 =? x1 then (2, 1) else (1, 2) in
    loop (S (Z.to_nat n)) (λ j,
      if bool_decide (j ≤ n - m) then
        x1 ← load8 (x + 1);
        y1 ← load8 (y + (j + 1));
        if negb (x1 =? y1) then Next (j + k) else
        d ← memcmp (x + 2) (y + j + 2) (m - 2);
        if d =? 0 then
          x0 ← load8 x;
          y0 ← load8 (y + j);
          if x0 =? y0 then Break (y + j) else Next (j + l)
        else Next (j + l)
      else Break NULL) 0
  else
    loop (Z.to_nat n) (λ '(y, n),
      b ← load8 y;
      a ← load8 x;
      if b =? a then Break y else
      if n - 1 =? 0 then Break NULL else Next (y + 1, n - 1)) (y, n).

(** ** Reference definitions *)

(** The difference of the first two bytes that differ. *)
Fixpoint bytes_cmp (l1 l2 : list Z) : Z :=
  match l1, l2 with
  | a :: l1', b :: l2' => if a - b =? 0 then bytes_cmp l1' l2' else a - b
  | _, _ => 0
  end.

(** Lexicographic order on bytes taken as unsigned. *)
Definition lex_lt (l1 l2 : list Z) : Prop :=
  ∃ pre a b t1 t2, l1 = pre ++ a :: t1 ∧ l2 = pre ++ b :: t2 ∧ a < b.

(** Naive search: try every position in turn. *)
Fixpoint find_sub (x y : list Z) : option nat :=
  if decide (take (length x) y = x) then Some O else
  match y with
  | [] => None
  | _ :: y' => S <$> find_sub x y'
  end.

(** ** Copying *)

Section copy.
Implicit Types (m : mem) (l : list Z).

Lemma store8_byte m p b :
  is_byte b → is_Some (m !! p) → store8 p (s8 b) m = Ret tt (<[p := b]> m).
Proof. intros Hb Hp. rewrite run_store8 by done. by rewrite u8_s8, u8_byte. Qed.

(** Copying upwards is right when the source does not start below the
    destination inside it. *)
Lemma run_copy_up m q p l :
  bytes_at m p l → valid m q (Z.of_nat (length l)) →
  q ≤ p ∨ p + Z.of_nat (length l) ≤ q →
  copy_up q p (Z.of_nat (length l)) m = Ret tt (write_bytes m q l).
Proof.
  unfold copy_up. rewrite Nat2Z.id. revert m q p.
  induction l as [|b l IH]; intros m q p Hp Hq Hd.
  { by rewrite run_loop. }
  apply bytes_at_cons in Hp as (Hb & Hp0 & Hp). simpl length. cround.
  rewrite store8_byte by (done || (eapply valid_head; [|done]; simpl; lia)).
  crun. replace (Z.of_nat (S (length l)) - 1) with (Z.of_nat (length l)) by lia.
  rewrite write_bytes_cons'. simpl length in *. apply IH.
  - apply (bytes_at_ext m); [done|]. intros a Ha. apply lookup_insert_ne. lia.
  - apply valid_insert. apply valid_tail in Hq. eapply valid_le; [|done]. lia.
  - lia.
Qed.

Lemma run_copy_down m q p l :
  bytes_at m p l → valid m q (Z.of_nat (length l)) → p ≤ q →
  let n := Z.of_nat (length l) in
  copy_down (q + n) (p + n) n m = Ret tt (write_bytes m q l).
Proof.
  unfold copy_down. cbn zeta. rewrite Nat2Z.id. revert m.
  induction l as [|b l IH] using rev_ind; intros m Hp Hq Hd.
  { by rewrite run_loop. }
  apply bytes_at_app in Hp as (Hp & Hb).
  apply bytes_at_cons in Hb as (Hb & Hpb & _).
  rewrite length_app in *. simpl length in *.
  replace (length l + 1)%nat with (S (length l)) in * by lia.
  rewrite run_loop; cbn beta iota; ctest.
  replace (p + Z.of_nat (S (length l)) - 1) with (p + Z.of_nat (length l)) by lia.
  replace (q + Z.of_nat (S (length l)) - 1) with (q + Z.of_nat (length l)) by lia.
  crun. rewrite store8_byte by (done || (apply Hq; lia)). crun.
  replace (Z.of_nat (S (length l)) - 1) with (Z.of_nat (length l)) by lia.
  rewrite IH.
  - f_equal. rewrite write_bytes_snoc, write_bytes_insert_out by lia. done.
  - apply (bytes_at_ext m); [done|]. intros a Ha. apply lookup_insert_ne. lia.
  - apply valid_insert. eapply valid_le; [|done]. lia.
  - done.
Qed.

(** [memcpy] on a source and destination that do not overlap in the wrong
    direction. *)
Lemma run_memcpy m dst src l :
  bytes_at m src l → valid m dst (Z.of_nat (length l)) →
  dst ≤ src ∨ src + Z.of_nat (length l) ≤ dst →
  memcpy dst src (Z.of_nat (length l)) m = Ret dst (write_bytes m dst l).
Proof. intros. unfold memcpy. by rewrite (run_bind_Ret _ _ _ _ _ (run_copy_up _ _ _ _ H H0 H1)). Qed.

Lemma run_memmove m dst src l :
  bytes_at m src l → valid m dst (Z.of_nat (length l)) →
  memmove dst src (Z.of_nat (length l)) m = Ret dst (write_bytes m dst l).
Proof.
  intros Hs Hd. unfold memmove. destruct (Z.ltb_spec dst src).
  - rewrite (run_bind_Ret _ _ _ _ _ (run_copy_up _ _ _ _ Hs Hd ltac:(lia))). done.
  - rewrite (run_bind_Ret _ _ _ _ _ (run_copy_down _ _ _ _ Hs Hd ltac:(lia))). done.
Qed.

Lemma run_memset m dst c n :
  0 ≤ n → valid m dst n →
  memset dst c n m = Ret dst (write_bytes m dst (replicate (Z.to_nat n) (u8 c))).
Proof.
  intros Hn. unfold memset. pattern n at 1 2 3 4.
  rewrite <-(Z2Nat.id n Hn). generalize (Z.to_nat n) as k. clear n Hn.
  intros k Hv. rewrite run_bind, Nat2Z.id.
  match goal with |- context [loop ?k ?b] => set (body := b) end.
  assert (∀ k m q, valid m q (Z.of_nat k) →
    loop (S k) body (q, Z.of_nat k) m =
    Ret tt (write_bytes m q (replicate k (u8 c)))) as Hloop.
  { clear. intros k. induction k as [|k IH]; intros m q Hv; [by rewrite run_loop|].
    rewrite run_loop. unfold body at 1. ctest. crun. rewrite run_store8 by (eapply valid_head; [|done]; lia). crun.
    replace (Z.of_nat (S k) - 1) with (Z.of_nat k) by lia.
    rewrite IH, replicate_S, write_bytes_cons'; [done|].
    apply valid_insert. apply valid_tail in Hv. eapply valid_le; [|done]. lia. }
  by rewrite Hloop.
Qed.

Lemma run_memswap m p q l1 l2 :
  bytes_at m p l1 → bytes_at m q l2 → length l1 = length l2 →
  disjoint_ranges p (Z.of_nat (length l1)) q (Z.of_nat (length l1)) →
  memswap p q (Z.of_nat (length l1)) m =
  Ret tt (write_bytes (write_bytes m q l1) p l2).
Proof.
  unfold memswap, disjoint_ranges. rewrite Nat2Z.id. revert m p q l2.
  induction l1 as [|a l1 IH]; intros m p q [|b l2] Hp Hq Hlen Hd; try done.
  injection Hlen as Hlen. simpl length in *. apply bytes_at_cons in Hp as (Ha & Hpa & Hp).
  apply bytes_at_cons in Hq as (Hb & Hqb & Hq).
  cround. rewrite store8_byte by done. crun.
  rewrite store8_byte by (done || (rewrite lookup_insert_ne by lia; done)). crun.
  replace (Z.of_nat (S (length l1)) - 1) with (Z.of_nat (length l1)) by lia.
  rewrite (IH _ _ _ l2); [| | |done|lia].
  - f_equal. cbn [write_bytes].
    rewrite !write_bytes_insert_out by (rewrite <-?Hlen; lia).
    apply insert_insert_ne. lia.
  - apply (bytes_at_ext m); [done|]. intros c Hc.
    rewrite !lookup_insert_ne by lia. done.
  - apply (bytes_at_ext m); [done|]. intros c Hc.
    rewrite !lookup_insert_ne by lia. done.
Qed.
End copy.

(** ** Comparing and searching *)

Section compare.
Implicit Types (m : mem) (l : list Z).

Lemma run_memcmp m s1 s2 l1 l2 :
  bytes_at m s1 l1 → bytes_at m s2 l2 → length l1 = length l2 →
  memcmp s1 s2 (Z.of_nat (length l1)) m = Ret (bytes_cmp l1 l2) m.
Proof.
  unfold memcmp. rewrite Nat2Z.id. revert s1 s2 l2.
  induction l1 as [|a l1 IH]; intros s1 s2 [|b l2] H1 H2 Hlen; try done.
  injection Hlen as Hlen. simpl length in *.
  apply bytes_at_cons in H1 as (_ & Ha & H1).
  apply bytes_at_cons in H2 as (_ & Hb & H2).
  rewrite run_loop; cbn beta iota; ctest. crun. cbn [bytes_cmp].
  destruct (Z.eqb_spec (a - b) 0) as [->|]; crun; [|done].
  replace (Z.of_nat (S (length l1)) - 1) with (Z.of_nat (length l1)) by lia.
  by apply IH.
Qed.

Lemma bytes_cmp_zero l1 l2 :
  length l1 = length l2 → bytes_cmp l1 l2 = 0 ↔ l1 = l2.
Proof.
  revert l2. induction l1 as [|a l1 IH]; intros [|b l2] Hlen; try done.
  injection Hlen as Hlen. simpl. destruct (Z.eqb_spec (a - b) 0).
  - rewrite IH by done. assert (a = b) as -> by lia.
    split; [by intros ->|by intros [= ->]].
  - split; [lia|]. intros [= -> ->]. lia.
Qed.

Lemma bytes_cmp_swap l1 l2 : bytes_cmp l2 l1 = - bytes_cmp l1 l2.
Proof.
  revert l2. induction l1 as [|a l1 IH]; intros [|b l2]; simpl; try done.
  destruct (Z.eqb_spec (a - b) 0), (Z.eqb_spec (b - a) 0); try lia. apply IH.
Qed.

Lemma bytes_cmp_lt l1 l2 : bytes_cmp l1 l2 < 0 ↔ lex_lt l1 l2.
Proof.
  revert l2. induction l1 as [|a l1 IH]; intros [|b l2].
  1-3: simpl; split; [lia|]; intros ([|] & ? & ? & ? & ? & ? & ? & ?); simplify_eq.
  - simpl. destruct (Z.eqb_spec (a - b) 0).
    + rewrite IH by done. assert (a = b) as -> by lia. split.
      * intros (pre & x & y & t1 & t2 & -> & -> & H).
        by exists (b :: pre), x, y, t1, t2.
      * intros ([|c pre] & x & y & t1 & t2 & E1 & E2 & H); simplify_eq/=; [lia|].
        by exists pre, x, y, t1, t2.
    + split.
      * intros H. exists [], a, b, l1, l2. split_and!; [done..|lia].
      * intros ([|c pre] & x & y & t1 & t2 & E1 & E2 & H); simplify_eq/=; lia.
Qed.

Lemma bytes_cmp_range l1 l2 :
  Forall is_byte l1 → Forall is_byte l2 → -255 ≤ bytes_cmp l1 l2 ≤ 255.
Proof.
  intros H. revert l2. induction H as [|a l1 Ha Hl1 IH]; intros l2 H2; [simpl; lia|].
  destruct H2 as [|b l2 Hb H2]; simpl; [lia|]. unfold is_byte in *.
  case_match; [by apply IH|lia].
Qed.

Lemma run_memchr m s c l :
  bytes_at m s l →
  memchr s c (Z.of_nat (length l)) m =
  Ret (match list_find (λ b, b = u8 c) l with
       | Some (i, _) => s + Z.of_nat i
       | None => NULL
       end) m.
Proof.
  unfold memchr. rewrite Nat2Z.id. revert s.
  induction l as [|b l IH]; intros s H; [done|].
  apply bytes_at_cons in H as (_ & Hb & H). simpl length.
  rewrite run_loop; cbn beta iota; ctest. crun. cbn [list_find].
  destruct (Z.eqb_spec b (u8 c)) as [E|E]; crun.
  - rewrite decide_True by done. by rewrite Z.add_0_r.
  - rewrite decide_False by done.
    replace (Z.of_nat (S (length l)) - 1) with (Z.of_nat (length l)) by lia.
    rewrite IH by done. destruct (list_find _ l) as [[i x]|]; simpl; [|done].
    f_equal. lia.
Qed.

Lemma run_memrchr m s c l :
  bytes_at m s l →
  memrchr s c (Z.of_nat (length l)) m =
  Ret (match list_find (λ b, b = u8 c) (reverse l) with
       | Some (i, _) => s + Z.of_nat (length l) - 1 - Z.of_nat i
       | None => NULL
       end) m.
Proof.
  unfold memrchr. rewrite Nat2Z.id. induction l as [|b l IH] using rev_ind; intros H.
  { done. }
  apply bytes_at_app in H as (H & Hb). apply bytes_at_cons in Hb as (_ & Hb & _).
  rewrite length_app, reverse_app. simpl length. simpl reverse.
  replace (length l + 1)%nat with (S (length l)) by lia.
  replace (s + Z.of_nat (S (length l)) - 1) with (s + Z.of_nat (length l)) by lia.
  rewrite run_loop; cbn beta iota; ctest. crun.
  rewrite reverse_singleton. cbn [app list_find].
  destruct (Z.eqb_spec b (u8 c)) as [E|E]; crun.
  - rewrite decide_True by done. f_equal. lia.
  - rewrite decide_False by done.
    replace (Z.of_nat (S (length l)) - 1) with (Z.of_nat (length l)) by lia.
    rewrite IH by done. destruct (list_find _ (reverse l)) as [[i x]|]; simpl; [|done].
    f_equal. lia.
Qed.

Lemma run_memccpy m dst src c l :
  bytes_at m src l → valid m dst (Z.of_nat (length l)) →
  dst ≤ src ∨ src + Z.of_nat (length l) ≤ dst →
  memccpy dst src c (Z.of_nat (length l)) m =
  match list_find (λ b, b = u8 c) l with
  | Some (i, _) => Ret (dst + Z.of_nat i + 1) (write_bytes m dst (take (S i) l))
  | None => Ret NULL (write_bytes m dst l)
  end.
Proof.
  unfold memccpy. rewrite Nat2Z.id. revert m dst src.
  induction l as [|b l IH]; intros m dst src Hs Hd Hov; [done|].
  apply bytes_at_cons in Hs as (Hb & Hs0 & Hs). simpl length in *.
  rewrite run_loop; cbn beta iota; ctest. crun.
  rewrite store8_byte by (done || (eapply valid_head; [|done]; lia)). crun.
  rewrite char_eqb by done. cbn [list_find].
  destruct (Z.eqb_spec b (u8 c)) as [E|E]; crun.
  - rewrite decide_True by done. f_equal. lia.
  - rewrite decide_False by done.
    replace (Z.of_nat (S (length l)) - 1) with (Z.of_nat (length l)) by lia.
    rewrite IH; [| |apply valid_insert; apply valid_tail in Hd; eapply valid_le; [|done]; lia|lia].
    + destruct (list_find _ l) as [[i x]|]; cbn [fmap option_fmap option_map prod_map fst snd].
      * cbn [take]. rewrite write_bytes_cons'. f_equal. simpl. lia.
      * by rewrite write_bytes_cons'.
    + apply (bytes_at_ext m); [done|]. intros a Ha. apply lookup_insert_ne. lia.
Qed.
End compare.

(** ** [memmem] finds the first occurrence *)

Section memmem.
Implicit Types (m : mem) (x y : list Z).

Definition occurs (x y : list Z) (j : nat) : Prop := take (length x) (drop j y) = x.

Lemma find_sub_intro x y j :
  occurs x y j → (∀ i, (i < j)%nat → ¬ occurs x y i) → find_sub x y = Some j.
Proof.
  revert j. induction y as [|b y IH]; intros j Hj Hbefore; simpl.
  - destruct j as [|j]; [by rewrite decide_True|].
    destruct (Hbefore 0%nat); [lia|]. unfold occurs in *. by rewrite drop_nil in *.
  - destruct j as [|j]; [by rewrite decide_True|].
    rewrite decide_False by (apply (Hbefore 0%nat); lia).
    rewrite (IH j); [done|done|]. intros i Hi. apply (Hbefore (S i)). lia.
Qed.

Lemma find_sub_Some x y j :
  find_sub x y = Some j → occurs x y j ∧ ∀ i, (i < j)%nat → ¬ occurs x y i.
Proof.
  revert j. induction y as [|b y IH]; intros j; simpl; case_decide as Hd;
    try (intros [= <-]; split; [done|lia]); [done|].
  intros (i & Hi & ->)%fmap_Some. destruct (IH i Hi) as [H1 H2].
  split; [done|]. intros [|k] Hk; [done|]. apply (H2 k). lia.
Qed.

Lemma find_sub_none x y : (∀ j, ¬ occurs x y j) → find_sub x y = None.
Proof.
  induction y as [|b y IH]; intros H; simpl.
  - rewrite decide_False by apply (H 0%nat). done.
  - rewrite decide_False by apply (H 0%nat).
    rewrite IH; [done|]. intros j. apply (H (S j)).
Qed.

Lemma occurs_bound x y j : x ≠ [] → occurs x y j → (j + length x ≤ length y)%nat.
Proof.
  intros Hx H. unfold occurs in H. apply (f_equal length) in H as Hlen.
  rewrite length_take, length_drop in Hlen. destruct x; [done|]. cbn [length] in *. lia.
Qed.

Lemma occurs_lookup x y j i c :
  occurs x y j → x !! i = Some c → y !! (j + i)%nat = Some c.
Proof.
  unfold occurs. intros H Hc. rewrite <-H in Hc.
  apply lookup_take_Some in Hc as [Hc _]. by rewrite lookup_drop in Hc.
Qed.

Lemma occurs_cons a x y j :
  occurs (a :: x) y j ↔ y !! j = Some a ∧ occurs x y (S j).
Proof.
  unfold occurs. destruct (y !! j) as [c|] eqn:E.
  - rewrite (drop_S _ _ _ E). simpl. split; [by intros [= -> ->]|by intros [[= ->] ->]].
  - apply lookup_ge_None in E. rewrite drop_ge by done. by split; [|intros []].
Qed.

Lemma bytes_at_drop m p y j :
  bytes_at m p y → (j ≤ length y)%nat → bytes_at m (p + Z.of_nat j) (drop j y).
Proof.
  intros H Hj. rewrite <-(take_drop j y) in H. apply bytes_at_app in H as [_ H].
  by rewrite length_take, Nat.min_l in H by done.
Qed.

Lemma bytes_at_take m p y j : bytes_at m p y → bytes_at m p (take j y).
Proof.
  intros H. rewrite <-(take_drop j y) in H. by apply bytes_at_app in H as [H _].
Qed.

Lemma bytes_at_nth m p y (j : nat) c :
  bytes_at m p y → y !! j = Some c → m !! (p + Z.of_nat j) = Some c.
Proof. intros [_ H]. apply H. Qed.

(** The comparison of the needle's tail with the text at [j + 2]. *)
Lemma run_tail_cmp m px py (a b : Z) x y j :
  bytes_at m px (a :: b :: x) → bytes_at m py y →
  (j + length (a :: b :: x) ≤ length y)%nat →
  ∃ d, memcmp (px + 2) (py + Z.of_nat j + 2) (Z.of_nat (length (a :: b :: x)) - 2) m
       = Ret d m ∧ (d = 0 ↔ occurs x y (S (S j))).
Proof.
  intros Hx Hy Hj. simpl in Hj.
  apply bytes_at_cons in Hx as (_ & _ & Hx). apply bytes_at_cons in Hx as (_ & _ & Hx).
  set (t := take (length x) (drop (S (S j)) y)).
  assert (length x = length t) as Hlen.
  { unfold t. rewrite length_take, length_drop. lia. }
  assert (bytes_at m (py + Z.of_nat j + 2) t) as Ht.
  { replace (py + Z.of_nat j + 2) with (py + Z.of_nat (S (S j))) by lia.
    apply bytes_at_take, bytes_at_drop; [done|lia]. }
  exists (bytes_cmp x t). split.
  - replace (Z.of_nat _ - 2) with (Z.of_nat (length x)) by (simpl; lia).
    apply run_memcmp; [|done..]. by replace (px + 2) with (px + 1 + 1) by lia.
  - rewrite bytes_cmp_zero by done. unfold occurs, t. split; congruence.
Qed.

(** One round of the search loop: it stops at an occurrence and never skips
    one. *)
Lemma memmem_skip (a b : Z) x y j (y1 : Z) :
  y !! S j = Some y1 →
  (y1 ≠ b ∨ ¬ occurs (a :: b :: x) y j) →
  (∀ i, (i < j)%nat → ¬ occurs (a :: b :: x) y i) →
  ∀ i, (i < j + (if decide ((a = b) ↔ (y1 ≠ b)) then 2 else 1))%nat →
  ¬ occurs (a :: b :: x) y i.
Proof.
  intros Hy1 Hj Hbefore i Hi Hocc.
  destruct (decide (i < j)%nat) as [|Hge]; [by eapply Hbefore|].
  rewrite !occurs_cons in Hocc. destruct Hocc as (H0 & H1 & H2).
  destruct (decide (i = j)) as [->|Hne].
  - rewrite Hy1 in H1. injection H1 as ->. destruct Hj as [|Hj]; [done|].
    apply Hj. by rewrite !occurs_cons.
  - case_decide as Hk; [|lia]. assert (i = S j) as -> by lia.
    rewrite Hy1 in H0. injection H0 as ->.
    destruct (decide (a = b)) as [->|Hab]; [tauto|].
    apply Hab. tauto.
Qed.

Definition sub_ptr (hay : Z) (o : option nat) : Z :=
  match o with Some j => hay + Z.of_nat j | None => NULL end.

(** The one-byte needle. *)
Lemma run_memmem_one m hay needle a y :
  bytes_at m hay y → m !! needle = Some a → y ≠ [] →
  loop (length y) (λ '(y, n),
    b ← load8 y;
    a ← load8 needle;
    if b =? a then Break y else
    if n - 1 =? 0 then Break NULL else Next (y + 1, n - 1))
    (hay, Z.of_nat (length y)) m = Ret (sub_ptr hay (find_sub [a] y)) m.
Proof.
  intros Hy Ha Hne. revert hay Hy. induction y as [|b y IH]; intros hay Hy; [done|].
  apply bytes_at_cons in Hy as (_ & Hb & Hy). simpl length.
  rewrite run_loop; cbn beta iota; crun. cbn [find_sub length take].
  destruct (Z.eqb_spec b a) as [->|Hba]; crun.
  { rewrite decide_True by done. simpl. by rewrite Z.add_0_r. }
  rewrite decide_False by congruence.
  replace (Z.of_nat (S (length y)) - 1) with (Z.of_nat (length y)) by lia.
  destruct y as [|c y]; [done|]. ctest. crun. rewrite IH by done.
  unfold sub_ptr. destruct (find_sub [a] (c :: y)); simpl; [|done].
  f_equal. lia.
Qed.

(** The search loop for a needle of two bytes or more. *)
Lemma run_memmem_loop m hay needle a b x y k l :
  bytes_at m hay y → bytes_at m needle (a :: b :: x) →
  (length (a :: b :: x) ≤ length y)%nat →
  (k, l) = (if a =? b then (2, 1) else (1, 2)) →
  let n := Z.of_nat (length y) in
  let nl := Z.of_nat (length (a :: b :: x)) in
  loop (S (length y)) (λ j,
    if bool_decide (j ≤ n - nl) then
      x1 ← load8 (needle + 1);
      y1 ← load8 (hay + (j + 1));
      if negb (x1 =? y1) then Next (j + k) else
      d ← memcmp (needle + 2) (hay + j + 2) (nl - 2);
      if d =? 0 then
        x0 ← load8 needle;
        y0 ← load8 (hay + j);
        if x0 =? y0 then Break (hay + j) else Next (j + l)
      else Next (j + l)
    else Break NULL) 0 m = Ret (sub_ptr hay (find_sub (a :: b :: x) y)) m.
Proof.
  intros Hy Hx Hlen Hkl n nl.
  set (I := λ (t : nat) (j : Z) (s : mem), s = m ∧ ∃ jn, j = Z.of_nat jn ∧
    t = (length y - jn)%nat ∧ ∀ i, (i < jn)%nat → ¬ occurs (a :: b :: x) y i).
  match goal with |- loop _ ?body _ _ = _ =>
    destruct (loop_total I (λ r s, s = m ∧ r = sub_ptr hay (find_sub (a :: b :: x) y))
      body) with (n := length y) (fuel := S (length y)) (st := 0) (s := m)
      as (r & s & -> & -> & ->); [|lia| |done]
  end.
  2: { split; [done|]. exists 0%nat. split_and!; [done|lia|lia]. }
  intros t j s (-> & jn & -> & -> & Hbefore). case_bool_decide as Hj.
  2: { exists (inr NULL), m. split; [done|]. split; [done|].
    rewrite find_sub_none; [done|]. intros i Hocc.
    apply occurs_bound in Hocc as Hi; [|done].
    eapply Hbefore; [|done]. unfold n, nl in Hj. lia. }
  assert (jn + length (a :: b :: x) ≤ length y)%nat as Hjn by (unfold n, nl in Hj; lia).
  destruct (run_tail_cmp m needle hay a b x y jn Hx Hy Hjn) as (d & Hd & Hd0).
  destruct (lookup_lt_is_Some_2 y jn) as [y0 Hy0]; [simpl in Hjn; lia|].
  destruct (lookup_lt_is_Some_2 y (S jn)) as [y1 Hy1]; [simpl in Hjn; lia|].
  pose proof (bytes_at_nth _ _ _ _ _ Hy Hy0) as Hm0.
  pose proof (bytes_at_nth _ _ _ _ _ Hy Hy1) as Hm1.
  apply bytes_at_cons in Hx as (_ & Ha & Hx). apply bytes_at_cons in Hx as (_ & Hb & _).
  replace (hay + (Z.of_nat jn + 1)) with (hay + Z.of_nat (S jn)) by lia.
  pose proof (memmem_skip a b x y jn y1 Hy1) as Hskip.
  assert (∀ (w : Z) (P : Prop), P →
    (P → (∀ i, (i < jn + Z.to_nat w)%nat → ¬ occurs (a :: b :: x) y i)) →
    0 < w → ∃ r s', @Ret mem (Z + Z) (inl (Z.of_nat jn + w)) m = Ret r s' ∧
    match r with
    | inl st' => ∃ n', (n' < length y - jn)%nat ∧ I n' st' s'
    | inr x0 => s' = m ∧ x0 = sub_ptr hay (find_sub (a :: b :: x) y)
    end) as Hnext.
  { intros w P HP Hw Hpos. exists (inl (Z.of_nat jn + w)), m. split; [done|].
    exists (length y - (jn + Z.to_nat w))%nat. simpl in Hjn. split; [lia|].
    split; [done|]. exists (jn + Z.to_nat w)%nat. split_and!; [lia|done|auto]. }
  crun. destruct (Z.eqb_spec b y1) as [<-|Hne1]; cbn [negb].
  - rewrite run_bind. unfold nl. rewrite Hd. cbn beta iota.
    assert (¬ occurs (a :: b :: x) y jn → 
      ∀ i, (i < jn + Z.to_nat l)%nat → ¬ occurs (a :: b :: x) y i) as Hl.
    { intros Hno i Hi. eapply Hskip; [by right|done|].
      destruct (Z.eqb_spec a b) as [->|Hab]; simplify_eq.
      - rewrite decide_False by naive_solver. lia.
      - rewrite decide_True by naive_solver. lia. }
    assert (0 < l) by (destruct (a =? b); simplify_eq; lia).
    destruct (Z.eqb_spec d 0) as [->|Hdn].
    + crun. destruct (Z.eqb_spec a y0) as [<-|Hay].
      * exists (inr (hay + Z.of_nat jn)), m. split; [done|]. split; [done|].
        rewrite (find_sub_intro _ _ jn); [done| |done].
        rewrite !occurs_cons. naive_solver.
      * eapply Hnext; [|done|done]. rewrite occurs_cons. naive_solver.
    + eapply Hnext; [|done|done]. rewrite !occurs_cons. naive_solver.
  - eapply (Hnext k (y1 ≠ b)); [done| |destruct (a =? b); simplify_eq; lia].
    intros _ i Hi. eapply Hskip; [by left|done|].
    destruct (Z.eqb_spec a b) as [->|Hab]; simplify_eq.
    + rewrite decide_True by naive_solver. lia.
    + rewrite decide_False by naive_solver. lia.
Qed.

Lemma run_memmem m hay needle x y :
  bytes_at m hay y → bytes_at m needle x → x ≠ [] →
  memmem hay (Z.of_nat (length y)) needle (Z.of_nat (length x)) m =
  Ret (sub_ptr hay (find_sub x y)) m.
Proof.
  intros Hy Hx Hne. unfold memmem.
  destruct (decide (length y < length x)%nat) as [Hlt|Hge].
  { rewrite bool_decide_eq_true_2 by lia. simpl. rewrite find_sub_none; [done|].
    intros j Hj. apply occurs_bound in Hj; [lia|done]. }
  assert (y ≠ []) by (destruct x, y; simpl in *; naive_solver lia).
  destruct x as [|a [|b x]]; [done|..]; rewrite bool_decide_eq_false_2 by lia;
    rewrite !(proj2 (Z.eqb_neq _ 0)) by (destruct y; simpl in *; done || lia);
    cbn [orb].
  - simpl negb. cbn iota. rewrite Nat2Z.id. apply run_memmem_one; [done| |done].
    by apply bytes_at_cons in Hx as (_ & ? & _).
  - rewrite (proj2 (Z.eqb_neq _ 1)) by (simpl; lia). cbn [negb].
    apply bytes_at_cons in Hx as Hx'. destruct Hx' as (_ & Ha & Hx').
    apply bytes_at_cons in Hx' as (_ & Hb & _). crun. rewrite Nat2Z.id.
    destruct (if a =? b then (2, 1) else (1, 2)) as [k l] eqn:E.
    apply run_memmem_loop; [done..|lia|done].
Qed.
End memmem.

(** ** Properties *)

(** C29: [memmove] copies the [n] bytes the source held before the call to the
    destination, whatever the overlap, changes nothing else, and returns the
    destination. *)
Theorem memmove_correct (m : mem) (dst src : Z) (l : list Z)
    (Hsrc : bytes_at m src l) (Hdst : valid m dst (Z.of_nat (length l))) :
  ∃ m', memmove dst src (Z.of_nat (length l)) m = Ret dst m' ∧
  bytes_at m' dst l ∧
  ∀ a, a < dst ∨ dst + Z.of_nat (length l) ≤ a → m' !! a = m !! a.
Proof.
  exists (write_bytes m dst l). split; [by apply run_memmove|]. split.
  - apply write_bytes_at. by apply bytes_at_is_byte in Hsrc.
  - intros a. apply lookup_write_bytes_out.
Qed.

Definition mem_abcdef : mem := write_bytes ∅ 100 [97; 98; 99; 100; 101; 102].

Lemma memmove_correct_witness :
  ∃ m', memmove 102 100 4 mem_abcdef = Ret 102 m' ∧ bytes_at m' 102 [97; 98; 99; 100] ∧
  ∀ a, a < 102 ∨ 102 + 4 ≤ a → m' !! a = mem_abcdef !! a.
Proof.
  apply (memmove_correct mem_abcdef 102 100 [97; 98; 99; 100]); by_decide.
Defined.

(** Where the source does not run into the destination from below, [memcpy]
    and [memmove] have the same result and the same final memory. *)
Theorem memcpy_agrees_memmove (m : mem) (dst src : Z) (l : list Z)
    (Hsrc : bytes_at m src l) (Hdst : valid m dst (Z.of_nat (length l)))
    (Hov : dst ≤ src ∨ src + Z.of_nat (length l) ≤ dst) :
  memcpy dst src (Z.of_nat (length l)) m = memmove dst src (Z.of_nat (length l)) m ∧
  memcpy dst src (Z.of_nat (length l)) m = Ret dst (write_bytes m dst l).
Proof. by rewrite run_memcpy, run_memmove by done. Qed.

Lemma memcpy_agrees_memmove_witness :
  memcpy 100 102 4 mem_abcdef = memmove 100 102 4 mem_abcdef ∧
  memcpy 100 102 4 mem_abcdef =
  Ret 100 (write_bytes mem_abcdef 100 [99; 100; 101; 102]).
Proof.
  apply (memcpy_agrees_memmove mem_abcdef 100 102 [99; 100; 101; 102]); by_decide.
Defined.

(** [memcmp] returns zero exactly on equal byte sequences, a negative value
    exactly when the first is lexicographically smaller as unsigned bytes, and
    a value within [int] whatever the bytes; the memory is not changed. *)
Theorem memcmp_lexicographic (m : mem) (s1 s2 : Z) (l1 l2 : list Z)
    (H1 : bytes_at m s1 l1) (H2 : bytes_at m s2 l2) (Hlen : length l1 = length l2) :
  ∃ d, memcmp s1 s2 (Z.of_nat (length l1)) m = Ret d m ∧
  (d = 0 ↔ l1 = l2) ∧ (d < 0 ↔ lex_lt l1 l2) ∧ -255 ≤ d ≤ 255.
Proof.
  exists (bytes_cmp l1 l2). split_and!; [by apply run_memcmp| | |..].
  - by apply bytes_cmp_zero.
  - apply bytes_cmp_lt.
  - all: by apply bytes_cmp_range; eapply bytes_at_is_byte.
  - by apply bytes_cmp_range; eapply bytes_at_is_byte.
Qed.

Lemma memcmp_lexicographic_witness :
  ∃ d, memcmp 100 103 3 mem_abcdef = Ret d mem_abcdef ∧
  (d = 0 ↔ [97; 98; 99] = [100; 101; 102]) ∧
  (d < 0 ↔ lex_lt [97; 98; 99] [100; 101; 102]) ∧ -255 ≤ d ≤ 255.
Proof.
  apply (memcmp_lexicographic mem_abcdef 100 103 [97; 98; 99] [100; 101; 102]);
    by_decide.
Defined.

(** [memmem] with a non-empty needle returns what the naive search returns:
    a pointer to the first occurrence of the needle in the text, or [NULL] when
    there is none. *)
Theorem memmem_first_occurrence (m : mem) (hay needle : Z) (x y : list Z)
    (Hy : bytes_at m hay y) (Hx : bytes_at m needle x) (Hne : x ≠ []) :
  memmem hay (Z.of_nat (length y)) needle (Z.of_nat (length x)) m =
    Ret (sub_ptr hay (find_sub x y)) m ∧
  (∀ j, find_sub x y = Some j ↔ occurs x y j ∧ ∀ i, (i < j)%nat → ¬ occurs x y i).
Proof.
  split; [by apply run_memmem|]. intros j. split.
  - intros H. by apply find_sub_Some.
  - intros [H1 H2]. by apply find_sub_intro.
Qed.

Lemma memmem_first_occurrence_witness :
  memmem 100 6 104 2 mem_abcdef = Ret 104 mem_abcdef.
Proof.
  refine (eq_trans (proj1 (memmem_first_occurrence mem_abcdef 100 104 [101; 102]
    [97; 98; 99; 100; 101; 102] _ _ _)) _); [by_decide|by_decide|done|reflexivity].
Defined.
