(* ===== verification/Ctype.v ===== *)
(** * Character classes: [ctypes.c] and [include/ctype.h]

    The table [__ctypes] with its 257 entries (index 0 is EOF) and the
    classification and case-mapping functions that read it.  A lookup outside
    the table is [UB]. *)

From stdpp Require Import base tactics numbers list gmap.
From S2P Require Import Prelude.

Open Scope Z_scope.

Definition __ctype_upper : Z := 1.
Definition __ctype_lower : Z := 2.
Definition __ctype_digit : Z := 4.
Definition __ctype_xdigit : Z := 8.
Definition __ctype_space : Z := 16.
Definition __ctype_print : Z := 32.
Definition __ctype_punct : Z := 64.
Definition __ctype_cntrl : Z := 128.

Local Infix ".|" := Z.lor (at level 50, left associativity).

(** The table, in two halves; runs of equal entries are [replicate]. *)
Definition __ctypes_low : list Z :=
  [0] ++                                                            (* EOF *)
  replicate 8 __ctype_cntrl ++                                      (* 00-07 *)
  replicate 6 (__ctype_cntrl .| __ctype_space) ++                   (* 08-0d *)
  replicate 18 __ctype_cntrl ++                                     (* 0e-1f *)
  [__ctype_print .| __ctype_space] ++                               (* 20 *)
  replicate 15 (__ctype_print .| __ctype_punct) ++                  (* 21-2f *)
  replicate 10 (__ctype_print .| __ctype_digit .| __ctype_xdigit) ++ (* 30-39 *)
  replicate 7 (__ctype_print .| __ctype_punct) ++                   (* 3a-40 *)
  replicate 6 (__ctype_print .| __ctype_upper .| __ctype_xdigit) ++ (* 41-46 *)
  replicate 20 (__ctype_print .| __ctype_upper) ++                  (* 47-5a *)
  replicate 6 (__ctype_print .| __ctype_punct) ++                   (* 5b-60 *)
  replicate 6 (__ctype_print .| __ctype_lower .| __ctype_xdigit) ++ (* 61-66 *)
  replicate 20 (__ctype_print .| __ctype_lower) ++                  (* 67-7a *)
  replicate 4 (__ctype_print .| __ctype_punct) ++                   (* 7b-7e *)
  [__ctype_cntrl].                                                  (* 7f *)

Definition __ctypes_high : list Z :=
  replicate 32 __ctype_cntrl ++                                     (* 80-9f *)
  [__ctype_print .| __ctype_space] ++                               (* a0 *)
  replicate 31 (__ctype_print .| __ctype_punct) ++                  (* a1-bf *)
  replicate 23 (__ctype_print .| __ctype_upper) ++                  (* c0-d6 *)
  [__ctype_print .| __ctype_punct] ++                               (* d7 *)
  replicate 7 (__ctype_print .| __ctype_upper) ++                   (* d8-de *)
  replicate 24 (__ctype_print .| __ctype_lower) ++                  (* df-f6 *)
  [__ctype_print .| __ctype_punct] ++                               (* f7 *)
  replicate 8 (__ctype_print .| __ctype_lower).                     (* f8-ff *)

Definition __ctypes : list Z := __ctypes_low ++ __ctypes_high.

Section functions.
Context {S : Type}.

(** The read [__ctypes[c + 1]]. *)
Definition ctypes_read (c : Z) : C S Z :=
  if bool_decide (c < -1) then undef else
  match __ctypes !! Z.to_nat (c + 1) with
  | Some v => mret v
  | None => undef
  end.

Definition ctype_mask (mask c : Z) : C S Z :=
  v ← ctypes_read c; mret (Z.land v mask).

Definition isalnum (c : Z) : C S Z :=
  ctype_mask (__ctype_upper .| __ctype_lower .| __ctype_digit) c.
Definition isalpha (c : Z) : C S Z := ctype_mask (__ctype_upper .| __ctype_lower) c.
Definition isascii (c : Z) : Z := cbool (Z.land c (Z.lnot 127) =? 0).
Definition isblank (c : Z) : Z := cbool ((c =? 9) || (c =? 32)).
Definition iscntrl (c : Z) : C S Z := ctype_mask __ctype_cntrl c.
Definition isdigit (c : Z) : Z := cbool (u32 (u32 c - 48) <=? 9).
Definition isgraph (c : Z) : C S Z :=
  ctype_mask (__ctype_upper .| __ctype_lower .| __ctype_digit .| __ctype_punct) c.
Definition islower (c : Z) : C S Z := ctype_mask __ctype_lower c.
Definition isprint (c : Z) : C S Z := ctype_mask __ctype_print c.
Definition ispunct (c : Z) : C S Z := ctype_mask __ctype_punct c.
Definition isspace (c : Z) : C S Z := ctype_mask __ctype_space c.
Definition isupper (c : Z) : C S Z := ctype_mask __ctype_upper c.
Definition isxdigit (c : Z) : C S Z := ctype_mask __ctype_xdigit c.

Definition toupper (c : Z) : C S Z :=
  l ← islower c; mret (if l =? 0 then c else Z.land c (Z.lnot 32)).
Definition tolower (c : Z) : C S Z :=
  u ← isupper c; mret (if u =? 0 then c else Z.lor c 32).
End functions.

(** ** The classes of ISO 8859-1 *)

Definition in_range (lo hi c : Z) : bool := (lo <=? c) && (c <=? hi).

Definition latin1_upper (c : Z) : bool :=
  in_range 65 90 c || (in_range 192 222 c && negb (c =? 215)).
Definition latin1_lower (c : Z) : bool :=
  in_range 97 122 c || (in_range 223 255 c && negb (c =? 247)).
Definition latin1_digit (c : Z) : bool := in_range 48 57 c.
Definition latin1_xdigit (c : Z) : bool :=
  latin1_digit c || in_range 65 70 c || in_range 97 102 c.
Definition latin1_cntrl (c : Z) : bool := in_range 0 31 c || in_range 127 159 c.
(** White space: the five control characters of C, space and no-break space; the table
    has the backspace too. *)
Definition latin1_space (c : Z) : bool := in_range 9 13 c || (c =? 32) || (c =? 160).
Definition table_space (c : Z) : bool := latin1_space c || (c =? 8).

(** A class function agrees with a predicate on the whole table. *)
Definition classifies (f : Z → C unit Z) (p : Z → bool) : Prop :=
  ∀ c, -1 ≤ c ≤ 255 →
  ∃ v, f c tt = Ret v tt ∧ (v ≠ 0 ↔ p c = true).

Section tables.
(** Checking a property of every table index by evaluation. *)
Lemma table_forall (P : Z → bool) :
  forallb P (seqZ (-1) 257) = true → ∀ c, -1 ≤ c ≤ 255 → P c = true.
Proof.
  intros H c Hc. rewrite forallb_forall in H. apply H.
  apply list_elem_of_In, elem_of_seqZ. lia.
Qed.

Lemma byte_forall (P : Z → bool) :
  forallb P (seqZ 0 256) = true → ∀ b, is_byte b → P b = true.
Proof.
  intros H b Hb. rewrite forallb_forall in H. apply H.
  apply list_elem_of_In, elem_of_seqZ. unfold is_byte in Hb. lia.
Qed.

(** A class function against a predicate, as one boolean test. *)
Definition agrees (f : Z → C unit Z) (p : Z → bool) (c : Z) : bool :=
  match f c tt with
  | Ret v _ => Bool.eqb (negb (v =? 0)) (p c)
  | _ => false
  end.

Lemma agrees_classifies f p :
  forallb (agrees f p) (seqZ (-1) 257) = true → classifies f p.
Proof.
  intros H c Hc. pose proof (table_forall _ H c Hc) as E. unfold agrees in E.
  destruct (f c tt) as [v []| |]; [|done..]. exists v. split; [done|].
  apply eqb_prop in E. rewrite <-E. destruct (Z.eqb_spec v 0); simpl; split; congruence.
Qed.

Definition class_of (mask c : Z) : Z :=
  Z.land (default 0 (__ctypes !! Z.to_nat (c + 1))) mask.

Lemma run_ctype_mask {S} mask c (s : S) :
  -1 ≤ c ≤ 255 → ctype_mask mask c s = Ret (class_of mask c) s.
Proof.
  intros Hc. unfold ctype_mask, ctypes_read, class_of. rewrite run_bind.
  rewrite bool_decide_eq_false_2 by lia.
  destruct (lookup_lt_is_Some_2 __ctypes (Z.to_nat (c + 1))) as [v ->]; [|done].
  change (length __ctypes) with 257%nat. lia.
Qed.

Definition toupper_of (c : Z) : Z :=
  if class_of __ctype_lower c =? 0 then c else Z.land c (Z.lnot 32).
Definition isspace_of (c : Z) : Z := class_of __ctype_space c.

Lemma run_toupper {S} c (s : S) :
  -1 ≤ c ≤ 255 → toupper c s = Ret (toupper_of c) s.
Proof.
  intros Hc. unfold toupper, islower. rewrite run_bind, run_ctype_mask by done. done.
Qed.

Lemma run_isspace {S} c (s : S) :
  -1 ≤ c ≤ 255 → isspace c s = Ret (isspace_of c) s.
Proof. apply run_ctype_mask. Qed.

Lemma isspace_of_spec c :
  -1 ≤ c ≤ 255 → (isspace_of c =? 0) = negb (table_space c).
Proof.
  intros Hc. apply eqb_prop.
  apply (table_forall (λ c, Bool.eqb (isspace_of c =? 0) (negb (table_space c))));
    [by vm_compute|done].
Qed.
End tables.

(** ** Properties *)

(** Every class function of [ctype.h] reads the table in bounds for EOF and
    every [unsigned char], and accepts exactly its ISO 8859-1 class ([isspace]
    accepts the backspace character too). *)
Theorem ctype_classes :
  classifies isupper latin1_upper ∧
  classifies islower latin1_lower ∧
  classifies (λ c, mret (isdigit c)) latin1_digit ∧
  classifies isxdigit latin1_xdigit ∧
  classifies isspace (λ c, latin1_space c || (c =? 8)) ∧
  classifies (λ c, mret (isblank c)) (λ c, (c =? 9) || (c =? 32)) ∧
  classifies isalpha (λ c, latin1_upper c || latin1_lower c) ∧
  classifies isalnum (λ c, latin1_upper c || latin1_lower c || latin1_digit c) ∧
  classifies iscntrl latin1_cntrl ∧
  classifies isprint (λ c, negb (c =? -1) && negb (latin1_cntrl c)) ∧
  classifies isgraph (λ c, negb (c =? -1) && negb (latin1_cntrl c)
                           && negb (c =? 32) && negb (c =? 160)) ∧
  classifies ispunct (λ c, negb (c =? -1) && negb (latin1_cntrl c)
                           && negb (c =? 32) && negb (c =? 160)
                           && negb (latin1_upper c || latin1_lower c || latin1_digit c)) ∧
  classifies (λ c, mret (isascii c)) (in_range 0 127).
Proof. split_and!; apply agrees_classifies; by vm_compute. Qed.

(** Case mapping: on every lower-case letter but U+00DF and U+00FF [toupper]
    gives an upper-case letter that [tolower] maps back, those two are not
    mapped to upper case at all, and every other argument is returned as it is. *)
Theorem toupper_tolower_roundtrip :
  ∀ c, -1 ≤ c ≤ 255 →
  ∃ u, toupper c tt = Ret u tt ∧
  (latin1_lower c = true → c ≠ 223 → c ≠ 255 →
     latin1_upper u = true ∧ tolower u tt = Ret c tt) ∧
  (c = 223 ∨ c = 255 → u = 223 ∧ latin1_lower u = true) ∧
  (latin1_lower c = false → u = c).
Proof.
  intros c Hc. exists (toupper_of c). split; [by apply run_toupper|].
  set (P := λ c, let u := toupper_of c in
    implb (latin1_lower c && negb (c =? 223) && negb (c =? 255))
      (latin1_upper u && match tolower u tt with Ret d _ => d =? c | _ => false end)
    && implb ((c =? 223) || (c =? 255)) ((u =? 223) && latin1_lower u)
    && implb (negb (latin1_lower c)) (u =? c)).
  assert (P c = true) as HP by (apply (table_forall P); [by vm_compute|done]).
  unfold P in HP. clear P. rewrite !andb_true_iff, !implb_true_iff in HP.
  destruct HP as [[H1 H2] H3]. split_and!.
  - intros Hl H223 H255. rewrite Hl in H1.
    rewrite !andb_true_iff, !negb_true_iff, !Z.eqb_neq in H1.
    destruct H1 as [Hu Ht]; [done|]. split; [done|].
    destruct (tolower (toupper_of c) tt) as [d []| |]; [|done..].
    apply Z.eqb_eq in Ht. by subst.
  - intros H. rewrite orb_true_iff, andb_true_iff, !Z.eqb_eq in H2. by apply H2.
  - intros H. apply Z.eqb_eq, H3. by rewrite H.
Qed.


Lemma toupper_tolower_roundtrip_witness :
  ∃ u, toupper 228 tt = Ret u tt ∧ latin1_upper u = true ∧ tolower u tt = Ret 228 tt.
Proof.
  destruct (toupper_tolower_roundtrip 228) as (u & H1 & H2 & _); [lia|].
  exists u. split; [exact H1|]. apply H2; [reflexivity|lia|lia].
Defined.
