(* ===== verification/StrFns.v ===== *)
(** * The str* routines

    [strlen.c], [strnlen.c], [strchr.c], [strrchr.c], [strcmp.c], [strncmp.c],
    [strcasecmp.c], [strncasecmp.c], [strcpy.c], [strcat.c], [strncpy.c],
    [strncat.c], [strlcpy.c], [strlcat.c], [strstr.c].  Scans of a string whose
    length is not known run with [scan_fuel], which a string held by the memory
    never uses up. *)

From stdpp Require Import base tactics numbers list gmap.
From S2P Require Import Prelude Memory MemFns Ctype.

Open Scope Z_scope.

(** ** The routines *)

Definition strlen (s : Z) : C mem Z :=
  ss ← scan_fuel (λ fuel, loop fuel (λ ss,
         c ← loadc ss;
         if c =? 0 then Break ss else Next (ss + 1)) s);
  mret (ss - s).

Definition strnlen (s maxlen : Z) : C mem Z :=
  ss ← loop (S (Z.to_nat maxlen)) (λ '(ss, maxlen),
         if negb (0 <? maxlen) then Break ss else
         c ← loadc ss;
         if c =? 0 then Break ss else Next (ss + 1, maxlen - 1)) (s, maxlen);
  mret (ss - s).

Definition strchr (s c : Z) : C mem Z :=
  scan_fuel (λ fuel, loop fuel (λ s,
    ch ← loadc s;
    if ch =? s8 c then Break s else
    if ch =? 0 then Break NULL else Next (s + 1)) s).

Definition strrchr (s c : Z) : C mem Z :=
  scan_fuel (λ fuel, loop fuel (λ '(s, found),
    ch ← loadc s;
    if ch =? 0 then Break found else
    Next (s + 1, if ch =? s8 c then s else found)) (s, NULL)).

Definition strcmp (s1 s2 : Z) : C mem Z :=
  scan_fuel (λ fuel, loop fuel (λ '(c1, c2),
    ch ← load8 c1;
    b ← load8 c2;
    let d := ch - b in
    if negb (d =? 0) || (ch =? 0) then Break d else Next (c1 + 1, c2 + 1))
  (s1, s2)).

Definition strncmp (s1 s2 n : Z) : C mem Z :=
  loop (S (Z.to_nat n)) (λ '(c1, c2, n, d),
    if n =? 0 then Break d else
    ch ← load8 c1;
    b ← load8 c2;
    let d := ch - b in
    if negb (d =? 0) || (ch =? 0) then Break d else Next (c1 + 1, c2 + 1, n - 1, d))
  (s1, s2, n, 0).

Definition strcasecmp (s1 s2 : Z) : C mem Z :=
  scan_fuel (λ fuel, loop fuel (λ '(c1, c2),
    ch ← load8 c1;
    x ← toupper ch;
    b ← load8 c2;
    y ← toupper b;
    let d := x - y in
    if negb (d =? 0) || (ch =? 0) then Break d else Next (c1 + 1, c2 + 1))
  (s1, s2)).

Definition strncasecmp (s1 s2 n : Z) : C mem Z :=
  loop (S (Z.to_nat n)) (λ '(c1, c2, n, d),
    if n =? 0 then Break d else
    ch ← load8 c1;
    x ← toupper ch;
    b ← load8 c2;
    y ← toupper b;
    let d := x - y in
    if negb (d =? 0) || (ch =? 0) then Break d else Next (c1 + 1, c2 + 1, n - 1, d))
  (s1, s2, n, 0).

Definition strcpy (dst src : Z) : C mem Z :=
  scan_fuel (λ fuel, loop fuel (λ '(q, p),
    ch ← loadc p;
    store8 q ch;;
    if ch =? 0 then Break tt else Next (q + 1, p + 1)) (dst, src));;
  mret dst.

Definition strcat (dst src : Z) : C mem Z :=
  e ← strchr dst 0;
  strcpy e src;;
  mret dst.

Definition strncpy (dst src n : Z) : C mem Z :=
  '(q, n) ← loop (S (Z.to_nat n)) (λ '(q, p, n),
    if n =? 0 then Break (q, n) else
    let n := n - 1 in
    ch ← loadc p;
    store8 q ch;;
    if ch =? 0 then Break (q + 1, n) else Next (q + 1, p + 1, n)) (dst, src, n);
  memset q 0 n;;
  mret dst.

Definition strncat (dst src n : Z) : C mem Z :=
  e ← strchr dst 0;
  r ← loop (S (Z.to_nat n)) (λ '(q, p, n),
    if n =? 0 then Break (Some q) else
    ch ← loadc p;
    store8 q ch;;
    if ch =? 0 then Break None else Next (q + 1, p + 1, n - 1)) (e, src, n);
  match r with
  | None => mret dst
  | Some q => store8 q 0;; mret dst
  end.

(** The loop [while ((ch = *p++)) { if (bytes + 1 < size) *q++ = ch; bytes++; }]
    of [strlcpy] and [strlcat]. *)
Definition bounded_copy (q p bytes size : Z) : C mem (Z * Z) :=
  scan_fuel (λ fuel, loop fuel (λ '(q, p, bytes),
    ch ← loadc p;
    if ch =? 0 then Break (q, bytes) else
    q ← (if u64 (bytes + 1) <? size then store8 q ch;; mret (q + 1) else mret q);
    Next (q, p + 1, u64 (bytes + 1))) (q, p, bytes)).

Definition strlcpy (dst src size : Z) : C mem Z :=
  '(q, bytes) ← bounded_copy dst src 0 size;
  (if size =? 0 then mret tt else store8 q 0);;
  mret bytes.

Definition strlcat (dst src size : Z) : C mem Z :=
  '(q, bytes) ← loop (S (Z.to_nat size)) (λ '(q, bytes),
    if negb (bytes <? size) then Break (q, bytes) else
    ch ← loadc q;
    if ch =? 0 then Break (q, bytes) else Next (q + 1, bytes + 1)) (dst, 0);
  if bytes =? size then
    l ← strlen src; mret (u64 (bytes + l))
  else
    '(q, bytes) ← bounded_copy q src bytes size;
    store8 q 0;;
    mret bytes.

Definition strstr (haystack needle : Z) : C mem Z :=
  n ← strlen haystack;
  k ← strlen needle;
  memmem haystack n needle k.

(** Running a class function on a byte of a string. *)
Ltac crun_access ::=
  first [crun_mem
        |rewrite run_toupper by lia
        |rewrite run_isspace by lia].

(** ** Lengths and searches *)

Section scan.
Implicit Types (m : mem) (s : list Z).

(** A scan over the string [s] at [p] that stops at the NUL. *)
Lemma scan_nul {R} m p s (body : Z → C mem (Z + R)) r :
  cstr m p s →
  (∀ i b, s !! i = Some b →
     body (p + Z.of_nat i) m = Ret (inl (p + Z.of_nat i + 1)) m) →
  body (p + Z.of_nat (length s)) m = Ret (inr r) m →
  ∀ fuel, (length s < fuel)%nat → loop fuel body p m = Ret r m.
Proof.
  revert p. induction s as [|b s IH]; intros p Hs Hin Hend fuel Hfuel;
    (destruct fuel as [|fuel]; [simpl in *; lia|]).
  - rewrite Z.add_0_r in Hend. by apply loop_exit.
  - pose proof (Hin 0%nat b eq_refl) as H0. rewrite Z.add_0_r in H0.
    rewrite (loop_next _ _ _ _ _ _ H0). apply cstr_cons in Hs as (_ & _ & Hs).
    apply IH; [done| | |simpl in *; lia].
    + intros i c Hi. specialize (Hin (S i) c Hi).
      by replace (p + 1 + Z.of_nat i) with (p + Z.of_nat (S i)) by lia.
    + simpl length in Hend.
      by replace (p + 1 + Z.of_nat (length s)) with (p + Z.of_nat (S (length s))) by lia.
Qed.

Lemma cstr_lookup m p s i b :
  cstr m p s → s !! i = Some b → m !! (p + Z.of_nat i) = Some b ∧ 0 < b < 256.
Proof.
  intros [[_ H] Hs] Hi. split.
  - apply H. by apply lookup_app_l_Some.
  - by eapply (Forall_lookup_1 _ _ _ _ Hs).
Qed.

Lemma s8_nonzero b : 0 < b < 256 → (s8 b =? 0) = false.
Proof. intros H. rewrite s8_zero by (unfold is_byte; lia). lia. Qed.

Lemma run_strlen m p s : cstr m p s → strlen p m = Ret (Z.of_nat (length s)) m.
Proof.
  intros Hs. unfold strlen. rewrite run_bind, run_scan_fuel.
  rewrite (scan_nul m p s _ (p + Z.of_nat (length s)) Hs).
  - crun. f_equal. lia.
  - intros i b Hi. destruct (cstr_lookup _ _ _ _ _ Hs Hi) as [Hb ?].
    crun. by rewrite s8_nonzero.
  - pose proof (cstr_nul _ _ _ Hs). by crun.
  - apply cstr_size in Hs. lia.
Qed.

Lemma run_strnlen m p s n :
  0 ≤ n → cstr m p s → strnlen p n m = Ret (Z.of_nat (length s) `min` n) m.
Proof.
  intros Hn Hs. unfold strnlen. rewrite run_bind.
  match goal with |- context [loop _ ?b _ _] => set (body := b) end.
  assert (∀ k q t, cstr m q t →
    loop (S k) body (q, Z.of_nat k) m = Ret (q + Z.of_nat (length t) `min` Z.of_nat k) m)
    as Hloop.
  { clear. intros k. induction k as [|k IH]; intros q t Ht;
      rewrite run_loop; unfold body at 1; cbn beta iota.
    - crun. f_equal. lia.
    - rewrite (proj2 (Z.ltb_lt _ _)) by lia. cbn [negb].
      destruct t as [|b t].
      + apply cstr_nil in Ht. crun. f_equal. simpl. lia.
      + apply cstr_cons in Ht as (Hb & ? & Ht). crun. rewrite s8_nonzero by lia. crun.
        replace (Z.of_nat (S k) - 1) with (Z.of_nat k) by lia.
        rewrite (IH _ _ Ht). f_equal. simpl length. lia. }
  pattern n at 2. rewrite <-(Z2Nat.id n Hn), Hloop with (t := s) by done. crun.
  f_equal. lia.
Qed.

(** [strnlen] never reads past [maxlen], terminated or not. *)
Lemma run_strnlen_unterminated m p l :
  bytes_at m p l → Forall (λ b, b ≠ 0) l →
  strnlen p (Z.of_nat (length l)) m = Ret (Z.of_nat (length l)) m.
Proof.
  intros Hl Hnz. unfold strnlen. rewrite run_bind, Nat2Z.id.
  match goal with |- context [loop _ ?b _ _] => set (body := b) end.
  assert (loop (S (length l)) body (p, Z.of_nat (length l)) m
          = Ret (p + Z.of_nat (length l)) m) as ->; [|crun; f_equal; lia].
  revert p Hl. induction Hnz as [|b l Hb Hnz IH]; intros p Hl;
    rewrite run_loop; unfold body at 1; cbn beta iota.
  - crun. f_equal. simpl. lia.
  - apply bytes_at_cons in Hl as (Hbyte & Hp & Hl). cbn [length].
    rewrite (proj2 (Z.ltb_lt _ _)) by lia. cbn [negb]. crun.
    rewrite s8_zero, (proj2 (Z.eqb_neq _ _)) by done. crun.
    replace (Z.of_nat (S (length l)) - 1) with (Z.of_nat (length l)) by lia.
    rewrite IH by done. f_equal. lia.
Qed.

Lemma run_strchr m p s c :
  cstr m p s →
  strchr p c m = Ret (sub_ptr p (fst <$> list_find (λ b, b = u8 c) (s ++ [0]))) m.
Proof.
  intros Hs. unfold strchr. rewrite run_scan_fuel.
  apply cstr_size in Hs as Hlen. revert Hs Hlen. generalize (size m) as fuel.
  revert p. induction s as [|b s IH]; intros p [|fuel] Hs Hlen; try (simpl in *; lia);
    rewrite run_loop; cbn beta iota.
  - apply cstr_nil in Hs. crun.
    rewrite char_eqb by auto.
    cbn [app list_find]. destruct (Z.eqb_spec 0 (u8 c)) as [E|E]; crun.
    + rewrite decide_True by done. simpl. by rewrite Z.add_0_r.
    + rewrite decide_False by done. done.
  - apply cstr_cons in Hs as (Hb & Hr & Hs). crun.
    rewrite char_eqb by auto.
    cbn [app list_find]. destruct (Z.eqb_spec b (u8 c)) as [E|E]; crun.
    + rewrite decide_True by done. simpl. by rewrite Z.add_0_r.
    + rewrite decide_False by done. rewrite s8_nonzero by done. crun.
      rewrite (IH _ fuel Hs) by (simpl in Hlen; lia).
      destruct (list_find _ (s ++ [0])) as [[i x]|]; simpl; [|done].
      f_equal. lia.
Qed.

(** [strrchr] over the string's own bytes, the terminating NUL left out. *)
Lemma run_strrchr m p s c :
  cstr m p s →
  strrchr p c m =
  Ret (match list_find (λ b, b = u8 c) (reverse s) with
       | Some (i, _) => p + Z.of_nat (length s) - 1 - Z.of_nat i
       | None => NULL
       end) m.
Proof.
  intros Hs. unfold strrchr. rewrite run_scan_fuel.
  apply cstr_size in Hs as Hlen. revert Hs Hlen. generalize (size m) as fuel.
  match goal with |- context [loop _ ?b _ _] => set (body := b) end.
  assert (∀ s p found fuel, cstr m p s → (length s < fuel)%nat →
    loop fuel body (p, found) m =
    Ret (match list_find (λ b, b = u8 c) (reverse s) with
         | Some (i, _) => p + Z.of_nat (length s) - 1 - Z.of_nat i
         | None => found
         end) m) as Hloop; [|intros; apply Hloop; [done|lia]].
  clear p s. intros s. induction s as [|b s IH]; intros p found [|fuel] Hs Hlen;
    try (simpl in *; lia); rewrite run_loop; unfold body at 1; cbn beta iota.
  - apply cstr_nil in Hs. by crun.
  - apply cstr_cons in Hs as (Hb & Hr & Hs). crun. rewrite s8_nonzero by done. crun.
    rewrite char_eqb by auto.
    rewrite IH by (done || (simpl in Hlen; lia)). rewrite reverse_cons. f_equal.
    cbn [length]. destruct (list_find _ (reverse s)) as [[i x]|] eqn:E.
    + rewrite (list_find_app_l _ _ _ _ _ E). lia.
    + rewrite (list_find_app_r _ _ _ E), length_reverse. cbn [list_find].
      case_decide as Hd; simpl; repeat ctest; lia.
Qed.

Lemma run_strstr m hay needle y x :
  cstr m hay y → cstr m needle x → x ≠ [] →
  strstr hay needle m = Ret (sub_ptr hay (find_sub x y)) m.
Proof.
  intros Hy Hx Hne. unfold strstr.
  rewrite (run_bind_Ret _ _ _ _ _ (run_strlen _ _ _ Hy)).
  rewrite (run_bind_Ret _ _ _ _ _ (run_strlen _ _ _ Hx)).
  apply run_memmem; auto.
Qed.

(** An empty needle is never found, although it occurs at the start. *)
Lemma run_strstr_empty m hay needle y :
  cstr m hay y → cstr m needle [] → strstr hay needle m = Ret NULL m.
Proof.
  intros Hy Hx. unfold strstr.
  rewrite (run_bind_Ret _ _ _ _ _ (run_strlen _ _ _ Hy)).
  rewrite (run_bind_Ret _ _ _ _ _ (run_strlen _ _ _ Hx)).
  unfold memmem. rewrite (proj2 (Z.eqb_eq _ 0)) by done. by rewrite orb_true_r.
Qed.
End scan.

(** ** Comparisons *)

Section compare.
Implicit Types (m : mem) (s : list Z).

Lemma nul_cmp_zero s1 s2 :
  Forall (λ b, 0 < b < 256) s1 → Forall (λ b, 0 < b < 256) s2 →
  bytes_cmp (s1 ++ [0]) (s2 ++ [0]) = 0 ↔ s1 = s2.
Proof.
  intros H1. revert s2. induction H1 as [|a s1 Ha H1 IH]; intros s2 H2;
    destruct H2 as [|b s2 Hb H2]; simpl; repeat ctest; try (split; congruence || lia).
  destruct (Z.eqb_spec (a - b) 0).
  - rewrite IH by done. assert (a = b) as -> by lia. split; congruence.
  - split; [lia|]. intros [= -> ->]. lia.
Qed.

Lemma run_strcmp m p1 p2 s1 s2 :
  cstr m p1 s1 → cstr m p2 s2 →
  strcmp p1 p2 m = Ret (bytes_cmp (s1 ++ [0]) (s2 ++ [0])) m.
Proof.
  intros H1 H2. unfold strcmp. rewrite run_scan_fuel.
  apply cstr_size in H1 as Hlen. revert Hlen. generalize (size m) as fuel.
  revert p1 p2 s2 H1 H2. induction s1 as [|a s1 IH]; intros p1 p2 s2 H1 H2 [|fuel] Hlen;
    try (simpl in *; lia); rewrite run_loop; cbn beta iota.
  - apply cstr_nil in H1. destruct s2 as [|b s2].
    + apply cstr_nil in H2. by crun.
    + apply cstr_cons in H2 as (H2 & ? & _). crun. rewrite orb_true_r. crun.
      simpl. by ctest.
  - apply cstr_cons in H1 as (H1 & ? & H1'). destruct s2 as [|b s2].
    + apply cstr_nil in H2. crun. simpl. by repeat ctest.
    + apply cstr_cons in H2 as (H2 & ? & H2'). crun. cbn [app bytes_cmp].
      rewrite (proj2 (Z.eqb_neq a 0)), orb_false_r by lia.
      destruct (Z.eqb_spec (a - b) 0); simpl; [|done].
      apply IH; [done..|simpl in Hlen; lia].
Qed.

Lemma run_strncmp m p1 p2 s1 s2 n :
  0 ≤ n → cstr m p1 s1 → cstr m p2 s2 →
  strncmp p1 p2 n m =
  Ret (bytes_cmp (take (Z.to_nat n) (s1 ++ [0])) (take (Z.to_nat n) (s2 ++ [0]))) m.
Proof.
  intros Hn H1 H2. unfold strncmp. pattern n at 2. rewrite <-(Z2Nat.id n Hn).
  generalize (Z.to_nat n) as k. clear n Hn. intros k. revert p1 p2 s1 s2 H1 H2.
  induction k as [|k IH]; intros p1 p2 s1 s2 H1 H2; [done|].
  rewrite run_loop; cbn beta iota; ctest.
  replace (Z.of_nat (S k) - 1) with (Z.of_nat k) by lia.
  destruct s1 as [|a s1], s2 as [|b s2].
  - apply cstr_nil in H1. apply cstr_nil in H2. crun. by destruct k.
  - apply cstr_nil in H1. apply cstr_cons in H2 as (H2 & ? & _).
    crun. rewrite orb_true_r. crun. cbn. by ctest.
  - apply cstr_cons in H1 as (H1 & ? & H1'). apply cstr_nil in H2.
    crun. cbn. by repeat ctest.
  - apply cstr_cons in H1 as (H1 & ? & H1'). apply cstr_cons in H2 as (H2 & ? & H2').
    crun. cbn [app take bytes_cmp].
    rewrite (proj2 (Z.eqb_neq a 0)), orb_false_r by lia.
    destruct (Z.eqb_spec (a - b) 0) as [->|]; simpl; [|done]. by apply IH.
Qed.

Lemma toupper_of_zero b : is_byte b → (toupper_of b = 0 ↔ b = 0).
Proof.
  intros Hb. assert ((toupper_of b =? 0) = (b =? 0)) as E.
  { apply eqb_prop, (table_forall (λ b, Bool.eqb (toupper_of b =? 0) (b =? 0)));
      [by vm_compute|unfold is_byte in Hb; lia]. }
  by rewrite <-!Z.eqb_eq, E.
Qed.

(** Both case-insensitive comparisons stop where the plain ones do, on the
    upper-cased bytes. *)
Lemma run_strcasecmp m p1 p2 s1 s2 :
  cstr m p1 s1 → cstr m p2 s2 →
  strcasecmp p1 p2 m =
  Ret (bytes_cmp (toupper_of <$> s1 ++ [0]) (toupper_of <$> s2 ++ [0])) m.
Proof.
  intros H1 H2. unfold strcasecmp. rewrite run_scan_fuel.
  apply cstr_size in H1 as Hlen. revert Hlen. generalize (size m) as fuel.
  revert p1 p2 s2 H1 H2. induction s1 as [|a s1 IH]; intros p1 p2 s2 H1 H2 [|fuel] Hlen;
    try (simpl in *; lia); rewrite run_loop; cbn beta iota.
  - apply cstr_nil in H1. destruct s2 as [|b s2].
    + apply cstr_nil in H2. by crun.
    + apply cstr_cons in H2 as (H2 & ? & _). crun. rewrite orb_true_r. crun. simpl.
      pose proof (proj1 (toupper_of_zero b ltac:(auto))).
      rewrite (proj2 (Z.eqb_neq (toupper_of 0 - toupper_of b) 0)); [done|].
      change (toupper_of 0) with 0. lia.
  - apply cstr_cons in H1 as (H1 & ? & H1').
    pose proof (proj1 (toupper_of_zero a ltac:(auto))).
    destruct s2 as [|b s2].
    + apply cstr_nil in H2. crun. simpl.
      change (toupper_of 0) with 0. rewrite !(proj2 (Z.eqb_neq (toupper_of a - 0) 0)) by lia.
      done.
    + apply cstr_cons in H2 as (H2 & ? & H2'). crun.
      rewrite (proj2 (Z.eqb_neq a 0)), orb_false_r by lia. cbn.
      destruct (Z.eqb_spec (toupper_of a - toupper_of b) 0); simpl; [|done].
      apply IH; [done..|simpl in Hlen; lia].
Qed.

Lemma run_strncasecmp m p1 p2 s1 s2 n :
  0 ≤ n → cstr m p1 s1 → cstr m p2 s2 →
  strncasecmp p1 p2 n m =
  Ret (bytes_cmp (toupper_of <$> take (Z.to_nat n) (s1 ++ [0]))
         (toupper_of <$> take (Z.to_nat n) (s2 ++ [0]))) m.
Proof.
  intros Hn H1 H2. unfold strncasecmp. pattern n at 2. rewrite <-(Z2Nat.id n Hn).
  generalize (Z.to_nat n) as k. clear n Hn. intros k. revert p1 p2 s1 s2 H1 H2.
  induction k as [|k IH]; intros p1 p2 s1 s2 H1 H2; [done|].
  rewrite run_loop; cbn beta iota; ctest.
  replace (Z.of_nat (S k) - 1) with (Z.of_nat k) by lia.
  destruct s1 as [|a s1], s2 as [|b s2].
  - apply cstr_nil in H1. apply cstr_nil in H2. crun. by destruct k.
  - apply cstr_nil in H1. apply cstr_cons in H2 as (H2 & ? & _).
    crun. rewrite orb_true_r. crun. cbn -[toupper_of].
    pose proof (proj1 (toupper_of_zero b ltac:(auto))).
    change (toupper_of 0) with 0.
    by rewrite (proj2 (Z.eqb_neq (0 - toupper_of b) 0)) by lia.
  - apply cstr_cons in H1 as (H1 & ? & H1'). apply cstr_nil in H2.
    crun. cbn -[toupper_of]. pose proof (proj1 (toupper_of_zero a ltac:(auto))).
    change (toupper_of 0) with 0.
    by rewrite !(proj2 (Z.eqb_neq (toupper_of a - 0) 0)) by lia.
  - apply cstr_cons in H1 as (H1 & ? & H1'). apply cstr_cons in H2 as (H2 & ? & H2').
    crun. rewrite (proj2 (Z.eqb_neq a 0)), orb_false_r by lia. cbn -[toupper_of].
    destruct (Z.eqb_spec (toupper_of a - toupper_of b) 0) as [->|]; cbn [negb]; [|done].
    by apply IH.
Qed.
End compare.

(** ** Copies *)

Section copies.
Implicit Types (m : mem) (s d : list Z).

Lemma store8_nul m p : is_Some (m !! p) → store8 p 0 m = Ret tt (<[p := 0]> m).
Proof. intros. by apply run_store8. Qed.

Lemma run_strcpy m dst src s :
  cstr m src s → valid m dst (Z.of_nat (length s) + 1) →
  disjoint_ranges dst (Z.of_nat (length s) + 1) src (Z.of_nat (length s) + 1) →
  strcpy dst src m = Ret dst (write_bytes m dst (s ++ [0])).
Proof.
  intros Hs Hd Hdis. unfold strcpy. rewrite run_bind, run_scan_fuel.
  match goal with |- context [loop _ ?b _ _] => set (body := b) end.
  enough (∀ fuel, (length s < fuel)%nat →
    loop fuel body (dst, src) m = Ret tt (write_bytes m dst (s ++ [0]))) as ->;
    [done|apply cstr_size in Hs; lia|].
  unfold disjoint_ranges in Hdis. revert m dst src Hs Hd Hdis.
  induction s as [|b s IH]; intros m dst src Hs Hd Hdis [|fuel] Hlen;
    try (simpl in *; lia); rewrite run_loop; unfold body at 1; cbn beta iota.
  - apply cstr_nil in Hs. crun. change (s8 0) with 0.
    rewrite store8_nul by (eapply valid_head; [|done]; simpl; lia). by crun.
  - apply cstr_cons in Hs as (Hb & ? & Hs). simpl length in *. crun.
    rewrite store8_byte by (auto || (eapply valid_head; [|done]; lia)). crun.
    rewrite s8_nonzero by done. crun. cbn [app]. rewrite write_bytes_cons'.
    apply IH; [| |lia|lia].
    + apply (cstr_ext m); [done|]. intros a Ha. apply lookup_insert_ne. lia.
    + apply valid_insert. apply valid_tail in Hd. eapply valid_le; [|done]. lia.
Qed.

(** [strchr(dst, 0)] finds the end of the string. *)
Lemma run_strchr_end m p s : cstr m p s → strchr p 0 m = Ret (p + Z.of_nat (length s)) m.
Proof.
  intros Hs. rewrite (run_strchr _ _ _ _ Hs). destruct Hs as [_ Hs].
  replace (list_find (λ b, b = u8 0) (s ++ [0])) with (Some (length s, 0)); [done|].
  symmetry. apply list_find_app_Some. right. split_and!.
  - lia.
  - apply list_find_None, (Forall_impl _ _ _ Hs).
    intros b Hb. change (u8 0) with 0. lia.
  - by rewrite Nat.sub_diag.
Qed.

Lemma run_strcat m dst src d s :
  cstr m dst d → cstr m src s →
  valid m dst (Z.of_nat (length d + length s) + 1) →
  disjoint_ranges dst (Z.of_nat (length d + length s) + 1) src (Z.of_nat (length s) + 1) →
  strcat dst src m = Ret dst (write_bytes m (dst + Z.of_nat (length d)) (s ++ [0])).
Proof.
  intros Hd Hs Hv Hdis. unfold strcat.
  rewrite (run_bind_Ret _ _ _ _ _ (run_strchr_end _ _ _ Hd)), run_bind.
  rewrite (run_strcpy _ _ _ _ Hs); [done| |].
  - eapply valid_sub; [done|lia..].
  - unfold disjoint_ranges in *. lia.
Qed.

(** What the copy loops of [strncpy] and [strncat] have stored after the
    [k] bytes they may copy: the string with its NUL, cut at [k]. *)
Lemma run_strncpy_loop m dst src s (k : nat) :
  cstr m src s → valid m dst (Z.of_nat k) →
  disjoint_ranges dst (Z.of_nat k) src (Z.of_nat (length s) + 1) →
  let j := (k `min` S (length s))%nat in
  loop (S k) (λ '(q, p, n),
    if n =? 0 then Break (q, n) else
    let n := n - 1 in
    ch ← loadc p;
    store8 q ch;;
    if ch =? 0 then Break (q + 1, n) else Next (q + 1, p + 1, n))
    (dst, src, Z.of_nat k) m =
  Ret (dst + Z.of_nat j, Z.of_nat (k - j)) (write_bytes m dst (take j (s ++ [0]))).
Proof.
  unfold disjoint_ranges. cbn zeta. revert m dst src s.
  induction k as [|k IH]; intros m dst src s Hs Hv Hdis.
  { rewrite run_loop. crun. simpl. by rewrite Z.add_0_r. }
  rewrite run_loop; cbn beta iota zeta; ctest.
  replace (Z.of_nat (S k) - 1) with (Z.of_nat k) by lia.
  assert (is_Some (m !! dst)) as Hd0 by (eapply valid_head; [|done]; lia).
  destruct s as [|b s].
  - apply cstr_nil in Hs. crun. change (s8 0) with 0. rewrite store8_nul by done. crun.
    simpl. rewrite Nat.min_0_r, Nat.sub_0_r. simpl. by destruct k.
  - apply cstr_cons in Hs as (Hb & ? & Hs). crun.
    rewrite store8_byte by auto. crun. rewrite s8_nonzero by done. crun.
    simpl length in *. rewrite (IH _ _ _ s); [| | |lia].
    + replace (S k `min` S (S (length s)))%nat with (S (k `min` S (length s))) by lia.
      cbn [app take]. rewrite write_bytes_cons'. f_equal. f_equal; lia.
    + apply (cstr_ext m); [done|]. intros a Ha. apply lookup_insert_ne. lia.
    + apply valid_insert. apply valid_tail in Hv. eapply valid_le; [|done]. lia.
Qed.

(** The string padded with NULs to [k] bytes. *)
Lemma take_pad s (k : nat) :
  let j := (k `min` S (length s))%nat in
  take j (s ++ [0]) ++ replicate (k - j) 0 = take k (s ++ replicate k 0).
Proof.
  cbn zeta. destruct (decide (k ≤ length s)%nat).
  - rewrite Nat.min_l by lia. rewrite Nat.sub_diag, app_nil_r.
    by rewrite !take_app_le by lia.
  - rewrite Nat.min_r by lia. rewrite take_ge by (rewrite length_app; simpl; lia).
    rewrite take_app_ge by lia. rewrite take_replicate, <-app_assoc. f_equal.
    replace ((k - length s) `min` k)%nat with (S (k - S (length s))) by lia. done.
Qed.

Lemma run_strncpy m dst src s n :
  0 ≤ n → cstr m src s → valid m dst n →
  disjoint_ranges dst n src (Z.of_nat (length s) + 1) →
  strncpy dst src n m =
  Ret dst (write_bytes m dst (take (Z.to_nat n) (s ++ replicate (Z.to_nat n) 0))).
Proof.
  intros Hn Hs Hv Hdis. unfold strncpy. rewrite run_bind.
  rewrite <-(Z2Nat.id n Hn) in Hv, Hdis. pattern n at 2. rewrite <-(Z2Nat.id n Hn).
  rewrite (run_strncpy_loop _ _ _ s) by done.
  set (k := Z.to_nat n). set (j := (k `min` S (length s))%nat).
  assert (length (take j (s ++ [0])) = j) as Hlen.
  { rewrite length_take, length_app. simpl. lia. }
  cbn beta iota. rewrite run_bind, run_memset.
  - rewrite run_ret, Nat2Z.id. f_equal. rewrite <-take_pad. fold j.
    rewrite write_bytes_app', Hlen. done.
  - lia.
  - apply write_bytes_valid. eapply valid_sub; [done|lia..].
Qed.

Lemma run_strncat_loop m dst src s (k : nat) :
  cstr m src s → valid m dst (Z.of_nat k) →
  disjoint_ranges dst (Z.of_nat k) src (Z.of_nat (length s) + 1) →
  loop (S k) (λ '(q, p, n),
    if n =? 0 then Break (Some q) else
    ch ← loadc p;
    store8 q ch;;
    if ch =? 0 then Break None else Next (q + 1, p + 1, n - 1))
    (dst, src, Z.of_nat k) m =
  if decide (k ≤ length s)%nat
  then Ret (Some (dst + Z.of_nat k)) (write_bytes m dst (take k s))
  else Ret None (write_bytes m dst (s ++ [0])).
Proof.
  unfold disjoint_ranges. revert m dst src s.
  induction k as [|k IH]; intros m dst src s Hs Hv Hdis.
  { rewrite run_loop. crun. rewrite decide_True by lia. by rewrite Z.add_0_r. }
  rewrite run_loop; cbn beta iota; ctest.
  replace (Z.of_nat (S k) - 1) with (Z.of_nat k) by lia.
  assert (is_Some (m !! dst)) as Hd0 by (eapply valid_head; [|done]; lia).
  destruct s as [|b s].
  - apply cstr_nil in Hs. crun. change (s8 0) with 0. rewrite store8_nul by done. by crun.
  - apply cstr_cons in Hs as (Hb & ? & Hs). crun.
    rewrite store8_byte by auto. crun. rewrite s8_nonzero by done. crun.
    simpl length in *. rewrite (IH _ _ _ s); [| | |lia].
    + destruct (decide (k ≤ length s)%nat); [rewrite decide_True by lia
        |rewrite decide_False by lia]; cbn [app take]; rewrite write_bytes_cons';
        [|done]. do 2 f_equal. lia.
    + apply (cstr_ext m); [done|]. intros a Ha. apply lookup_insert_ne. lia.
    + apply valid_insert. apply valid_tail in Hv. eapply valid_le; [|done]. lia.
Qed.

Lemma run_strncat m dst src d s n :
  0 ≤ n → cstr m dst d → cstr m src s →
  let t := take (Z.to_nat n) s in
  valid m dst (Z.of_nat (length d) + n + 1) →
  disjoint_ranges dst (Z.of_nat (length d) + n + 1) src (Z.of_nat (length s) + 1) →
  strncat dst src n m = Ret dst (write_bytes m (dst + Z.of_nat (length d)) (t ++ [0])).
Proof.
  intros Hn Hd Hs t Hv Hdis. unfold strncat, disjoint_ranges in *.
  rewrite (run_bind_Ret _ _ _ _ _ (run_strchr_end _ _ _ Hd)), run_bind.
  pattern n at 2. rewrite <-(Z2Nat.id n Hn). set (k := Z.to_nat n).
  rewrite (run_strncat_loop _ _ _ s); [|done|..].
  - destruct (decide (k ≤ length s)%nat) as [Hk|Hk]; cbn beta iota.
    + rewrite run_bind, store8_nul.
      * crun. f_equal. unfold t. fold k. rewrite write_bytes_snoc.
        by rewrite length_take, Nat.min_l by done.
      * rewrite <-Z.add_assoc. apply (write_bytes_valid _ _ _ _ _ Hv). lia.
    + unfold t. fold k. by rewrite take_ge by lia.
  - eapply valid_sub; [done|lia..].
  - unfold disjoint_ranges. lia.
Qed.

(** [bounded_copy] stores the bytes that leave room for the NUL and counts
    them all. *)
Lemma run_bounded_copy m q p s bytes size :
  cstr m p s → 0 ≤ bytes → bytes + Z.of_nat (length s) < ULONG_MAX →
  let c := (length s `min` Z.to_nat (size - 1 - bytes))%nat in
  valid m q (Z.of_nat c) →
  disjoint_ranges q (Z.of_nat c) p (Z.of_nat (length s) + 1) →
  bounded_copy q p bytes size m =
  Ret (q + Z.of_nat c, bytes + Z.of_nat (length s)) (write_bytes m q (take c s)).
Proof.
  intros Hs. unfold bounded_copy. rewrite run_scan_fuel.
  apply cstr_size in Hs as Hlen. revert Hlen. generalize (base.size m) as fuel.
  cbn zeta. unfold disjoint_ranges. revert m q p bytes Hs.
  induction s as [|b s IH]; intros m q p bytes Hs [|fuel] Hlen Hb0 Hmax Hv Hdis;
    try (simpl in *; lia); rewrite run_loop; cbn beta iota.
  { apply cstr_nil in Hs. crun. simpl. by rewrite !Z.add_0_r. }
  apply cstr_cons in Hs as (Hb & ? & Hs). simpl length in *. crun.
  rewrite s8_nonzero by done.
  rewrite (wrap_small 64 (bytes + 1)) by (unfold ULONG_MAX in *; lia).
  destruct (Z.ltb_spec (bytes + 1) size) as [Hlt|Hge].
  - replace (S (length s) `min` Z.to_nat (size - 1 - bytes))%nat
      with (S (length s `min` Z.to_nat (size - 1 - (bytes + 1)))) in * by lia.
    crun. rewrite store8_byte by (auto || (eapply valid_head; [|done]; lia)). crun.
    rewrite IH; [| |lia..| |lia].
    + cbn [take]. rewrite write_bytes_cons'. f_equal. f_equal; lia.
    + apply (cstr_ext m); [done|]. intros a Ha. apply lookup_insert_ne. lia.
    + apply valid_insert. apply valid_tail in Hv. eapply valid_le; [|done]. lia.
  - replace (S (length s) `min` Z.to_nat (size - 1 - bytes))%nat with 0%nat by lia.
    crun. assert (length s `min` Z.to_nat (size - 1 - (bytes + 1)) = 0)%nat as E by lia.
    rewrite IH; rewrite ?E; [|done|lia..| |lia].
    + simpl. f_equal. f_equal; lia.
    + intros i. lia.
Qed.

Lemma run_strlcpy m dst src s size :
  cstr m src s → Z.of_nat (length s) < ULONG_MAX → 0 ≤ size →
  let t := take (Z.to_nat (size - 1)) s in
  valid m dst (if size =? 0 then 0 else Z.of_nat (length t) + 1) →
  disjoint_ranges dst (Z.of_nat (length t) + 1) src (Z.of_nat (length s) + 1) →
  strlcpy dst src size m =
  Ret (Z.of_nat (length s))
    (if size =? 0 then m else write_bytes m dst (t ++ [0])).
Proof.
  intros Hs Hmax Hsize t Hv Hdis. unfold strlcpy, disjoint_ranges in *. rewrite run_bind.
  assert (length t = length s `min` Z.to_nat (size - 1 - 0))%nat as Ht.
  { unfold t. rewrite length_take, Z.sub_0_r. lia. }
  rewrite (run_bounded_copy _ _ _ s); rewrite <-?Ht; [|done|lia|done| |].
  - cbn beta iota. destruct (Z.eqb_spec size 0) as [->|Hne].
    + by crun.
    + rewrite run_bind, store8_nul.
      * crun. f_equal. rewrite write_bytes_snoc. do 2 f_equal.
        rewrite Ht. unfold t. destruct (decide (Z.to_nat (size - 1) ≤ length s)%nat).
        -- f_equal. lia.
        -- by rewrite !take_ge by lia.
      * apply (write_bytes_valid _ _ _ _ _ Hv). lia.
  - destruct (Z.eqb_spec size 0) as [->|Hne].
    + intros i. unfold t. simpl. lia.
    + eapply valid_le; [|done]. lia.
  - unfold disjoint_ranges. lia.
Qed.

(** The scan of [strlcat] for the end of the destination. *)
Lemma run_strlcat_scan m dst l size :
  bytes_at m dst l → Forall (λ b, b ≠ 0) l → Z.of_nat (length l) ≤ size →
  size = Z.of_nat (length l) ∨ m !! (dst + Z.of_nat (length l)) = Some 0 →
  loop (S (Z.to_nat size)) (λ '(q, bytes),
    if negb (bytes <? size) then Break (q, bytes) else
    ch ← loadc q;
    if ch =? 0 then Break (q, bytes) else Next (q + 1, bytes + 1)) (dst, 0) m =
  Ret (dst + Z.of_nat (length l), Z.of_nat (length l)) m.
Proof.
  intros Hl Hnz Hle Hend.
  match goal with |- loop _ ?b _ _ = _ => set (body := b) end.
  enough (∀ l q bytes fuel, bytes_at m q l → Forall (λ b, b ≠ 0) l →
    0 ≤ bytes → bytes + Z.of_nat (length l) ≤ size →
    (size = bytes + Z.of_nat (length l) ∨ m !! (q + Z.of_nat (length l)) = Some 0) →
    (length l < fuel)%nat →
    loop fuel body (q, bytes) m = Ret (q + Z.of_nat (length l), bytes + Z.of_nat (length l)) m)
    as H by (apply (H l dst 0); (done || lia)).
  clear. intros l. induction l as [|b l IH]; intros q bytes [|fuel] Hl Hnz H0 Hle Hend Hf;
    try (simpl in *; lia); rewrite run_loop; unfold body at 1; cbn beta iota.
  - simpl length in *. change (Z.of_nat 0) with 0 in *. rewrite !Z.add_0_r in *.
    destruct (Z.ltb_spec bytes size); cbn [negb]; [|by crun].
    destruct Hend as [|Hend]; [lia|]. by crun.
  - apply bytes_at_cons in Hl as (Hbyte & Hb & Hl). apply Forall_cons in Hnz as [Hbn Hnz].
    simpl length in *. rewrite (proj2 (Z.ltb_lt _ _)) by lia. cbn [negb]. crun.
    rewrite s8_zero, (proj2 (Z.eqb_neq b 0)) by done. crun.
    rewrite IH; [f_equal; f_equal; lia|done|done|lia|lia| |lia].
    destruct Hend as [|Hend]; [left; lia|right].
    by replace (q + 1 + Z.of_nat (length l)) with (q + Z.of_nat (S (length l))) by lia.
Qed.

Lemma run_strlcat m dst src d s size :
  cstr m dst d → cstr m src s →
  Z.of_nat (length d + length s) < ULONG_MAX → Z.of_nat (length d) < size →
  let t := take (Z.to_nat (size - 1 - Z.of_nat (length d))) s in
  valid m dst (Z.of_nat (length d + length t) + 1) →
  disjoint_ranges dst (Z.of_nat (length d + length t) + 1)
    src (Z.of_nat (length s) + 1) →
  strlcat dst src size m =
  Ret (Z.of_nat (length d + length s))
    (write_bytes m (dst + Z.of_nat (length d)) (t ++ [0])).
Proof.
  intros Hd Hs Hmax Hsize t Hv Hdis. unfold strlcat, disjoint_ranges in *.
  assert (length t = length s `min` Z.to_nat (size - 1 - Z.of_nat (length d)))%nat as Ht.
  { unfold t. rewrite length_take. lia. }
  assert (take (length t) s = t) as Htt.
  { unfold t. rewrite length_take.
    destruct (decide (Z.to_nat (size - 1 - Z.of_nat (length d)) ≤ length s)%nat).
    - f_equal. lia.
    - by rewrite !take_ge by lia. }
  rewrite run_bind, (run_strlcat_scan _ _ d).
  - cbn beta iota. ctest. rewrite run_bind, (run_bounded_copy _ _ _ s); rewrite <-?Ht.
    + cbn beta iota. rewrite run_bind, store8_nul.
      * crun. rewrite Htt, write_bytes_snoc. f_equal. lia.
      * rewrite <-Z.add_assoc. apply (write_bytes_valid _ _ _ _ _ Hv). lia.
    + done.
    + lia.
    + lia.
    + eapply valid_sub; [done|lia..].
    + unfold disjoint_ranges. lia.
  - auto.
  - destruct Hd as [_ Hd]. apply (Forall_impl _ _ _ Hd). simpl. lia.
  - lia.
  - right. by apply cstr_nul.
Qed.

(** No NUL in the first [size] bytes: nothing is stored. *)
Lemma run_strlcat_full m dst src l s :
  bytes_at m dst l → Forall (λ b, b ≠ 0) l → cstr m src s →
  strlcat dst src (Z.of_nat (length l)) m =
  Ret (u64 (Z.of_nat (length l) + Z.of_nat (length s))) m.
Proof.
  intros Hl Hnz Hs. unfold strlcat.
  rewrite run_bind, (run_strlcat_scan _ _ l) by auto with lia.
  cbn beta iota. rewrite Z.eqb_refl.
  by rewrite (run_bind_Ret _ _ _ _ _ (run_strlen _ _ _ Hs)).
Qed.
End copies.

(** ** Properties *)

(** Two strings, a buffer and some room: the memory the witnesses run on. *)
Definition mem_strings : mem :=
  write_bytes (write_bytes (write_bytes ∅ 100 [104; 101; 108; 108; 111; 0])
                 200 [108; 108; 0]) 300 (replicate 16 7).

(** The scanning routines over the string [s] at [p]: [strlen] is its
    length, [strnlen] the length cut at [maxlen], [strchr] a pointer to the
    first byte equal to [(char)c] with the terminating NUL counted in, and
    [strrchr] a pointer to the last such byte before the NUL.  None changes
    the memory. *)
Theorem string_scans (m : mem) (p : Z) (s : list Z) (c n : Z)
    (Hs : cstr m p s) (Hn : 0 ≤ n) :
  strlen p m = Ret (Z.of_nat (length s)) m ∧
  strnlen p n m = Ret (Z.of_nat (length s) `min` n) m ∧
  strchr p c m = Ret (sub_ptr p (fst <$> list_find (λ b, b = u8 c) (s ++ [0]))) m ∧
  strrchr p c m =
    Ret (match list_find (λ b, b = u8 c) (reverse s) with
         | Some (i, _) => p + Z.of_nat (length s) - 1 - Z.of_nat i
         | None => NULL
         end) m.
Proof.
  split_and!; [by apply run_strlen|by apply run_strnlen|by apply run_strchr
              |by apply run_strrchr].
Qed.

Lemma string_scans_witness :
  strlen 100 mem_strings = Ret 5 mem_strings ∧
  strnlen 100 3 mem_strings = Ret 3 mem_strings ∧
  strchr 100 108 mem_strings = Ret 102 mem_strings ∧
  strrchr 100 108 mem_strings = Ret 103 mem_strings.
Proof.
  apply (string_scans mem_strings 100 [104; 101; 108; 108; 111] 108 3); by_decide.
Defined.

(** [strcmp] orders strings as unsigned bytes: zero exactly when they are
    equal, negative exactly when the first is smaller in the lexicographic
    order that makes a proper prefix the smaller string, and swapping the
    arguments negates the result. *)
Theorem strcmp_order (m : mem) (p1 p2 : Z) (s1 s2 : list Z)
    (H1 : cstr m p1 s1) (H2 : cstr m p2 s2) :
  ∃ d, strcmp p1 p2 m = Ret d m ∧ strcmp p2 p1 m = Ret (- d) m ∧
  (d = 0 ↔ s1 = s2) ∧ (d < 0 ↔ lex_lt (s1 ++ [0]) (s2 ++ [0])).
Proof.
  exists (bytes_cmp (s1 ++ [0]) (s2 ++ [0])). split_and!.
  - by apply run_strcmp.
  - rewrite <-bytes_cmp_swap. by apply run_strcmp.
  - apply nul_cmp_zero; [apply H1|apply H2].
  - apply bytes_cmp_lt.
Qed.

Lemma strcmp_order_witness :
  ∃ d, strcmp 100 200 mem_strings = Ret d mem_strings ∧
  strcmp 200 100 mem_strings = Ret (- d) mem_strings ∧
  (d = 0 ↔ [104; 101; 108; 108; 111] = [108; 108]) ∧
  (d < 0 ↔ lex_lt [104; 101; 108; 108; 111; 0] [108; 108; 0]).
Proof.
  apply (strcmp_order mem_strings 100 200 [104; 101; 108; 108; 111] [108; 108]);
    by_decide.
Defined.

(** The limited and the case-insensitive comparisons are the comparison of
    [strcmp] on the first [n] bytes and on the upper-cased bytes. *)
Theorem strcmp_variants (m : mem) (p1 p2 : Z) (s1 s2 : list Z) (n : Z)
    (H1 : cstr m p1 s1) (H2 : cstr m p2 s2) (Hn : 0 ≤ n) :
  let t1 := s1 ++ [0] in
  let t2 := s2 ++ [0] in
  strcmp p1 p2 m = Ret (bytes_cmp t1 t2) m ∧
  strncmp p1 p2 n m =
    Ret (bytes_cmp (take (Z.to_nat n) t1) (take (Z.to_nat n) t2)) m ∧
  strcasecmp p1 p2 m = Ret (bytes_cmp (toupper_of <$> t1) (toupper_of <$> t2)) m ∧
  strncasecmp p1 p2 n m =
    Ret (bytes_cmp (toupper_of <$> take (Z.to_nat n) t1)
           (toupper_of <$> take (Z.to_nat n) t2)) m.
Proof.
  split_and!; [by apply run_strcmp|by apply run_strncmp|by apply run_strcasecmp
              |by apply run_strncasecmp].
Qed.

Lemma strcmp_variants_witness :
  strcmp 100 200 mem_strings = Ret (-4) mem_strings ∧
  strncmp 100 200 1 mem_strings = Ret (-4) mem_strings ∧
  strcasecmp 100 200 mem_strings = Ret (-4) mem_strings ∧
  strncasecmp 100 200 2 mem_strings = Ret (-4) mem_strings.
Proof.
  pose proof (λ n, strcmp_variants mem_strings 100 200 [104; 101; 108; 108; 111]
    [108; 108] n ltac:(by_decide) ltac:(by_decide)) as H.
  destruct (H 1 ltac:(lia)) as (H1 & H2 & H3 & _).
  destruct (H 2 ltac:(lia)) as (_ & _ & _ & H4). auto.
Defined.

(** [strncpy] stores exactly [n] bytes: the string cut at [n], padded with
    NULs when it is shorter. *)
Theorem strncpy_exact (m : mem) (dst src : Z) (s : list Z) (n : Z)
    (Hn : 0 ≤ n) (Hs : cstr m src s) (Hd : valid m dst n)
    (Hdis : disjoint_ranges dst n src (Z.of_nat (length s) + 1)) :
  ∃ m' t, strncpy dst src n m = Ret dst m' ∧ bytes_at m' dst t ∧
  Z.of_nat (length t) = n ∧ t = take (Z.to_nat n) (s ++ replicate (Z.to_nat n) 0) ∧
  ∀ a, a < dst ∨ dst + n ≤ a → m' !! a = m !! a.
Proof.
  set (t := take (Z.to_nat n) (s ++ replicate (Z.to_nat n) 0)).
  assert (length t = Z.to_nat n) as Ht.
  { unfold t. rewrite length_take, length_app, length_replicate. lia. }
  exists (write_bytes m dst t), t. split_and!; [by apply run_strncpy| |lia|done|].
  - apply write_bytes_at. unfold t. apply Forall_take, Forall_app. split.
    + apply cstr_bytes, bytes_at_is_byte in Hs. done.
    + by apply Forall_replicate.
  - intros a Ha. apply lookup_write_bytes_out. lia.
Qed.

Lemma strncpy_exact_witness :
  ∃ m' t, strncpy 300 200 5 mem_strings = Ret 300 m' ∧ bytes_at m' 300 t ∧
  Z.of_nat (length t) = 5 ∧ t = [108; 108; 0; 0; 0] ∧
  ∀ a, a < 300 ∨ 300 + 5 ≤ a → m' !! a = mem_strings !! a.
Proof.
  apply (strncpy_exact mem_strings 300 200 [108; 108] 5); by_decide.
Defined.

(** [strlcpy] with a non-zero [size] leaves at [dst] the string cut to
    [size - 1] bytes and terminated, writes nowhere else, and returns the
    length of the source, so a result of [size] or more tells truncation. *)
Theorem strlcpy_truncates (m : mem) (dst src : Z) (s : list Z) (size : Z)
    (Hs : cstr m src s) (Hmax : Z.of_nat (length s) < ULONG_MAX) (Hsize : 0 < size)
    (Hd : valid m dst size)
    (Hdis : disjoint_ranges dst size src (Z.of_nat (length s) + 1)) :
  let t := take (Z.to_nat (size - 1)) s in
  ∃ m', strlcpy dst src size m = Ret (Z.of_nat (length s)) m' ∧ cstr m' dst t ∧
  (t = s ↔ Z.of_nat (length s) < size) ∧
  ∀ a, a < dst ∨ dst + size ≤ a → m' !! a = m !! a.
Proof.
  intros t. assert (Z.of_nat (length t) + 1 ≤ size) as Ht.
  { unfold t. rewrite length_take. lia. }
  exists (write_bytes m dst (t ++ [0])). split_and!.
  - rewrite (run_strlcpy _ _ _ s) by
      (done || lia || (unfold disjoint_ranges in *; fold t; lia)
       || (fold t; rewrite (proj2 (Z.eqb_neq size 0)) by lia; by eapply valid_le)).
    by rewrite (proj2 (Z.eqb_neq size 0)) by lia.
  - apply cstr_write, Forall_take, Hs.
  - unfold t. split.
    + intros E%(f_equal length). rewrite length_take in E. lia.
    + intros. by rewrite take_ge by lia.
  - intros a Ha. apply lookup_write_bytes_out. rewrite length_app. simpl. lia.
Qed.

Lemma strlcpy_truncates_witness :
  ∃ m', strlcpy 300 100 4 mem_strings = Ret 5 m' ∧ cstr m' 300 [104; 101; 108] ∧
  ([104; 101; 108] = [104; 101; 108; 108; 111] ↔ 5 < 4) ∧
  ∀ a, a < 300 ∨ 300 + 4 ≤ a → m' !! a = mem_strings !! a.
Proof.
  apply (strlcpy_truncates mem_strings 300 100 [104; 101; 108; 108; 111] 4); by_decide.
Defined.

(** [strlcat] appends what fits in [size] bytes with a terminating NUL and
    returns the length of the string it tried to make; when there is no NUL in
    the first [size] bytes of the destination it stores nothing. *)
Theorem strlcat_truncates (m : mem) (dst src : Z) (d s : list Z) (size : Z)
    (Hs : cstr m src s) (Hmax : Z.of_nat (length d + length s) < ULONG_MAX)
    (Hd : cstr m dst d) (Hsize : Z.of_nat (length d) < size) (Hv : valid m dst size)
    (Hdis : disjoint_ranges dst size src (Z.of_nat (length s) + 1)) :
  let t := take (Z.to_nat (size - 1 - Z.of_nat (length d))) s in
  (∃ m', strlcat dst src size m = Ret (Z.of_nat (length d + length s)) m' ∧
    cstr m' dst (d ++ t) ∧
    ∀ a, a < dst ∨ dst + size ≤ a → m' !! a = m !! a) ∧
  (∀ q l, bytes_at m q l → Forall (λ b, b ≠ 0) l →
    strlcat q src (Z.of_nat (length l)) m =
    Ret (u64 (Z.of_nat (length l) + Z.of_nat (length s))) m).
Proof.
  intros t. split; [|intros q k Hk Hnz; by apply run_strlcat_full].
  assert (Z.of_nat (length d + length t) + 1 ≤ size) as Ht.
  { unfold t. rewrite length_take. lia. }
  exists (write_bytes m (dst + Z.of_nat (length d)) (t ++ [0])). split_and!.
  - apply run_strlcat; try done.
    + by eapply valid_le.
    + unfold disjoint_ranges in *. fold t. lia.
  - destruct Hd as [Hd Hdb]. apply bytes_at_app in Hd as [Hd _].
    rewrite <-(write_bytes_id m dst d Hd), <-write_bytes_app', app_assoc.
    apply cstr_write, Forall_app. split; [done|]. apply Forall_take, Hs.
  - intros a Ha. apply lookup_write_bytes_out. rewrite length_app. simpl. lia.
Qed.

Lemma strlcat_truncates_witness :
  ∃ m', strlcat 200 100 3 (write_bytes mem_strings 200 [108; 0; 0]) = Ret 6 m' ∧
  cstr m' 200 [108; 104] ∧
  ∀ a, a < 200 ∨ 200 + 3 ≤ a →
    m' !! a = write_bytes mem_strings 200 [108; 0; 0] !! a.
Proof.
  refine (proj1 (strlcat_truncates (write_bytes mem_strings 200 [108; 0; 0]) 200 100
    [108] [104; 101; 108; 108; 111] 3 _ _ _ _ _ _)); by_decide.
Defined.

(** [strstr] with a non-empty needle returns the first occurrence, like the
    naive search; with an empty needle it returns [NULL], although the empty
    string occurs at the start of every string. *)
Theorem strstr_occurrence (m : mem) (hay needle : Z) (y x : list Z)
    (Hy : cstr m hay y) (Hx : cstr m needle x) :
  (x ≠ [] → strstr hay needle m = Ret (sub_ptr hay (find_sub x y)) m) ∧
  (x = [] → strstr hay needle m = Ret NULL m ∧ find_sub x y = Some 0%nat).
Proof.
  split.
  - intros. by apply run_strstr.
  - intros ->. split; [by eapply run_strstr_empty|]. by destruct y.
Qed.

Lemma strstr_occurrence_witness :
  strstr 100 200 mem_strings = Ret 102 mem_strings ∧
  strstr 100 202 mem_strings = Ret NULL mem_strings.
Proof.
  split.
  - apply (proj1 (strstr_occurrence mem_strings 100 200 [104; 101; 108; 108; 111]
      [108; 108] ltac:(by_decide) ltac:(by_decide))). discriminate.
  - apply (proj2 (strstr_occurrence mem_strings 100 202 [104; 101; 108; 108; 111]
      [] ltac:(by_decide) ltac:(by_decide))). reflexivity.
Defined.

(** [strrchr] does not take the terminating NUL as part of the string: a
    search for it returns [NULL], where [strchr] returns the end. *)
Theorem strrchr_ignores_nul (m : mem) (p : Z) (s : list Z) (Hs : cstr m p s) :
  strrchr p 0 m = Ret NULL m ∧ strchr p 0 m = Ret (p + Z.of_nat (length s)) m.
Proof.
  split; [|by apply run_strchr_end]. rewrite (run_strrchr _ _ _ _ Hs).
  destruct Hs as [_ Hs]. replace (list_find _ (reverse s)) with (@None (nat * Z)); [done|].
  symmetry. apply list_find_None. apply Forall_reverse, (Forall_impl _ _ _ Hs).
  intros b Hb. change (u8 0) with 0. lia.
Qed.

Lemma strrchr_ignores_nul_witness :
  strrchr 100 0 mem_strings = Ret NULL mem_strings ∧
  strchr 100 0 mem_strings = Ret 105 mem_strings.
Proof.
  apply (strrchr_ignores_nul mem_strings 100 [104; 101; 108; 108; 111]). by_decide.
Defined.
