(* ===== verification/Tokens.v ===== *)
(** * Spans and tokens: [strxspn.c], [strspn.c], [strcspn.c], [strpbrk.c],
    [strsep.c], [strtok_r.c], [strtok.c]

    [__strxspn] is modelled with its 256-entry match map.  A [char **] argument
    is passed and returned by value.  The tokenizer theorem follows a whole
    sequence of [strtok_r] calls: it returns the non-empty fields of the string
    in order, each NUL-terminated in the final memory. *)

From stdpp Require Import base tactics numbers list gmap.
From S2P Require Import Prelude Memory MemFns StrFns.

Open Scope Z_scope.

(** ** The routines *)

Definition __strxspn (s map parity : Z) : C mem Z :=
  matchmap ← scan_fuel (λ fuel, loop fuel (λ '(map, matchmap),
    ch ← loadc map;
    if ch =? 0 then Break matchmap else
    Next (map + 1, <[Z.to_nat (u8 ch) := 1]> matchmap))
    (map, replicate 256 0));
  (* Make sure the null character never matches *)
  let matchmap : list Z := <[0%nat := parity]> matchmap in
  scan_fuel (λ fuel, loop fuel (λ '(s, n),
    ch ← loadc s;
    if Z.lxor (default 0 (matchmap !! Z.to_nat (u8 ch))) parity =? 0 then Break n
    else Next (s + 1, n + 1)) (s, 0)).

Definition strspn (s accept : Z) : C mem Z := __strxspn s accept 0.

Definition strcspn (s reject : Z) : C mem Z := __strxspn s reject 1.

Definition strpbrk (s accept : Z) : C mem Z :=
  n ← __strxspn s accept 1;
  let ss := s + n in
  ch ← loadc ss;
  mret (if ch =? 0 then NULL else ss).

(** The result and the new value of the caller's [*stringp]. *)
Definition strsep (stringp delim : Z) : C mem (Z * Z) :=
  let s := stringp in
  if s =? NULL then mret (NULL, stringp) else
  e ← strpbrk s delim;
  if e =? NULL then mret (s, e) else
  store8 e 0;;
  mret (s, e + 1).

Definition strtok_r (s delim holder : Z) : C mem (Z * Z) :=
  let holder := if s =? NULL then holder else s in
  scan_fuel (λ fuel, loop fuel (λ holder,
    '(s, holder) ← strsep holder delim;
    if s =? NULL then Break (s, holder) else
    ch ← loadc s;
    if ch =? 0 then Next holder else Break (s, holder)) holder).

(** [strtok] keeps its holder in a static variable. *)
Definition strtok (s delim : Z) : C (mem * Z) Z := λ '(m, holder),
  match strtok_r s delim holder m with
  | Ret (t, holder) m' => Ret t (m', holder)
  | UB => UB
  | OOF => OOF
  end.

(** A client that calls [strtok_r] until it returns [NULL], and the pointers it
    gets. *)
Fixpoint strtok_all (calls : nat) (s delim holder : Z) : C mem (list Z) :=
  match calls with
  | O => diverge
  | S k =>
      '(t, holder) ← strtok_r s delim holder;
      if t =? NULL then mret [] else
      ts ← strtok_all k NULL delim holder;
      mret (t :: ts)
  end.

(** ** Reference definitions *)

Fixpoint span_len (p : Z → bool) (l : list Z) : nat :=
  match l with
  | [] => O
  | b :: l' => if p b then S (span_len p l') else O
  end.

(** The fields of a string between delimiters, empty ones included. *)
Fixpoint fields (d s : list Z) : list (list Z) :=
  match s with
  | [] => [[]]
  | b :: s' =>
      if decide (b ∈ d) then [] :: fields d s'
      else match fields d s' with
           | w :: ws => (b :: w) :: ws
           | [] => [[b]]
           end
  end.

Definition tokens (d s : list Z) : list (list Z) := filter (λ w, w ≠ []) (fields d s).

(** ** [__strxspn] *)

Section span.
Implicit Types (m : mem) (s d l : list Z).

(** A match map marks the characters seen so far. *)
Definition marks (mm d : list Z) : Prop :=
  length mm = 256%nat ∧
  ∀ b, is_byte b → mm !! Z.to_nat b = Some (if decide (b ∈ d) then 1 else 0).

Lemma marks_empty : marks (replicate 256 0) [].
Proof.
  split; [done|]. intros b Hb. unfold is_byte in Hb.
  rewrite decide_False by apply not_elem_of_nil. apply lookup_replicate. lia.
Qed.

Lemma marks_insert mm d b :
  is_byte b → marks mm d → marks (<[Z.to_nat b := 1]> mm) (b :: d).
Proof.
  intros Hb [Hlen H]. split; [by rewrite length_insert|]. intros c Hc.
  unfold is_byte in *. destruct (decide (b = c)) as [->|Hne].
  - rewrite list_lookup_insert_eq by lia. rewrite decide_True by set_solver. done.
  - rewrite list_lookup_insert_ne by lia. rewrite H by done.
    do 2 f_equal. apply decide_ext. set_solver.
Qed.

Lemma marks_perm mm d d' :
  (∀ b, b ∈ d ↔ b ∈ d') → marks mm d → marks mm d'.
Proof.
  intros E [Hlen H]. split; [done|]. intros b Hb. rewrite H by done.
  do 2 f_equal. by apply decide_ext.
Qed.

Lemma run_matchmap m map d :
  cstr m map d →
  ∃ mm, scan_fuel (λ fuel, loop fuel (λ '(map, matchmap),
    ch ← loadc map;
    if ch =? 0 then Break matchmap else
    Next (map + 1, <[Z.to_nat (u8 ch) := 1]> matchmap))
    (map, replicate 256 0)) m = Ret mm m ∧ marks mm d.
Proof.
  intros Hd. rewrite run_scan_fuel. apply cstr_size in Hd as Hlen.
  match goal with |- context [loop _ ?b _ _] => set (body := b) end.
  enough (∀ d map mm seen fuel, cstr m map d → marks mm seen → (length d < fuel)%nat →
    ∃ mm', loop fuel body (map, mm) m = Ret mm' m ∧ marks mm' (seen ++ d)) as H
    by (apply (H d _ _ [] _ Hd marks_empty); lia).
  clear. intros d. induction d as [|b d IH]; intros map mm seen [|fuel] Hd Hmm Hf;
    try (simpl in *; lia); rewrite run_loop; unfold body at 1; cbn beta iota.
  - apply cstr_nil in Hd. crun. exists mm. by rewrite app_nil_r.
  - apply cstr_cons in Hd as (Hb & ? & Hd). crun. rewrite s8_nonzero by done. crun.
    rewrite u8_s8, u8_byte by auto.
    destruct (IH (map + 1) (<[Z.to_nat b := 1]> mm) (b :: seen) fuel) as (mm' & -> & H');
      [done|by apply marks_insert; auto|simpl in Hf; lia|].
    exists mm'. split; [done|]. eapply marks_perm, H'. set_solver.
Qed.

(** The characters the second loop goes past. *)
Definition keep (d : list Z) (parity b : Z) : bool :=
  Bool.eqb (bool_decide (b ∈ d)) (parity =? 0).

Lemma run_strxspn m p q s d parity :
  cstr m p s → cstr m q d → parity = 0 ∨ parity = 1 →
  __strxspn p q parity m = Ret (Z.of_nat (span_len (keep d parity) s)) m.
Proof.
  intros Hs Hd Hpar. unfold __strxspn.
  destruct (run_matchmap m q d Hd) as (mm & Hrun & Hmm).
  rewrite (run_bind_Ret _ _ _ _ _ Hrun), run_scan_fuel. clear Hrun.
  set (mm0 := <[0%nat := parity]> mm). apply cstr_size in Hs as Hlen.
  match goal with |- context [loop _ ?b _ _] => set (body := b) end.
  enough (∀ s p n fuel, cstr m p s → (length s < fuel)%nat →
    loop fuel body (p, n) m = Ret (n + Z.of_nat (span_len (keep d parity) s)) m) as H
    by (rewrite (H s) by (done || lia); done).
  assert (mm0 !! 0%nat = Some parity) as H0.
  { apply list_lookup_insert_eq. rewrite (proj1 Hmm). lia. }
  assert (∀ b, 0 < b < 256 →
    (Z.lxor (default 0 (mm0 !! Z.to_nat b)) parity =? 0) = negb (keep d parity b)) as Hb.
  { intros b Hb. unfold mm0. rewrite list_lookup_insert_ne by lia.
    rewrite (proj2 Hmm b) by auto. unfold keep. simpl.
    destruct (decide (b ∈ d)); [rewrite bool_decide_eq_true_2 by done
      |rewrite bool_decide_eq_false_2 by done]; by destruct Hpar as [->| ->]. }
  clear - H0 Hb. intros s.
  induction s as [|b s IH]; intros p n [|fuel] Hs Hf; try (simpl in *; lia);
    rewrite run_loop; unfold body at 1; cbn beta iota.
  - apply cstr_nil in Hs. crun. change (Z.to_nat (u8 (s8 0))) with 0%nat.
    rewrite H0. simpl. rewrite Z.lxor_nilpotent. simpl. crun. f_equal. lia.
  - apply cstr_cons in Hs as (Hp & Hr & Hs). crun.
    rewrite u8_s8, u8_byte by auto. rewrite Hb by done. cbn [span_len].
    destruct (keep d parity b); cbn [negb]; crun; [|f_equal; lia].
    rewrite IH by (done || (simpl in Hf; lia)). f_equal. lia.
Qed.

Lemma run_strspn m p q s d :
  cstr m p s → cstr m q d →
  strspn p q m = Ret (Z.of_nat (span_len (λ b, bool_decide (b ∈ d)) s)) m.
Proof.
  intros Hs Hd. unfold strspn. rewrite (run_strxspn _ _ _ s d) by auto.
  do 2 f_equal. clear. induction s as [|b s IH]; simpl; [done|].
  unfold keep at 1. rewrite IH. by destruct (bool_decide (b ∈ d)).
Qed.

Lemma run_strcspn m p q s d :
  cstr m p s → cstr m q d →
  strcspn p q m = Ret (Z.of_nat (span_len (λ b, negb (bool_decide (b ∈ d))) s)) m.
Proof.
  intros Hs Hd. unfold strcspn. by rewrite (run_strxspn _ _ _ s d) by auto.
Qed.

Lemma run_strpbrk_none m p q s d :
  cstr m p s → cstr m q d → Forall (λ b, b ∉ d) s → strpbrk p q m = Ret NULL m.
Proof.
  intros Hs Hd Hno. unfold strpbrk.
  rewrite (run_bind_Ret _ _ _ _ _ (run_strxspn _ _ _ s d 1 Hs Hd ltac:(auto))).
  assert (span_len (keep d 1) s = length s) as ->.
  { clear - Hno. induction Hno as [|b s Hb _ IH]; simpl; [done|].
    unfold keep. rewrite bool_decide_eq_false_2 by done. simpl. by rewrite <-IH. }
  pose proof (cstr_nul _ _ _ Hs). by crun.
Qed.

Lemma run_strpbrk_some m p q w c r d :
  cstr m p (w ++ c :: r) → cstr m q d → Forall (λ b, b ∉ d) w → c ∈ d →
  strpbrk p q m = Ret (p + Z.of_nat (length w)) m.
Proof.
  intros Hs Hd Hno Hc. unfold strpbrk.
  rewrite (run_bind_Ret _ _ _ _ _ (run_strxspn _ _ _ _ d 1 Hs Hd ltac:(auto))).
  assert (span_len (keep d 1) (w ++ c :: r) = length w) as ->.
  { clear - Hno Hc. induction Hno as [|b s Hb _ IH]; simpl; unfold keep at 1.
    - by rewrite bool_decide_eq_true_2.
    - rewrite bool_decide_eq_false_2 by done. simpl. by rewrite IH. }
  apply cstr_app in Hs as (_ & _ & Hs). apply cstr_cons in Hs as (Hs & ? & _).
  crun. by rewrite s8_nonzero.
Qed.
End span.

(** ** [strsep] and [strtok_r] *)

Section tokens.
Implicit Types (m : mem) (s d w r : list Z).

Lemma split_delim d s :
  Forall (λ b, b ∉ d) s ∨
  ∃ w c r, s = w ++ c :: r ∧ Forall (λ b, b ∉ d) w ∧ c ∈ d.
Proof.
  induction s as [|b s IH]; [by left|]. destruct (decide (b ∈ d)) as [Hb|Hb].
  - right. by exists [], b, s.
  - destruct IH as [IH|(w & c & r & -> & Hw & Hc)]; [left; by constructor|].
    right. exists (b :: w), c, r. split_and!; [done|by constructor|done].
Qed.

Lemma fields_nonempty d v : fields d v ≠ [].
Proof. destruct v as [|b v]; simpl; [done|]. case_decide; [done|]. by destruct (fields d v). Qed.

Lemma fields_none d s : Forall (λ b, b ∉ d) s → fields d s = [s].
Proof.
  induction 1 as [|b s Hb _ IH]; simpl; [done|].
  rewrite decide_False by done. by rewrite IH.
Qed.

Lemma fields_some d w c r :
  Forall (λ b, b ∉ d) w → c ∈ d → fields d (w ++ c :: r) = w :: fields d r.
Proof.
  intros Hw Hc. induction Hw as [|b w Hb _ IH]; simpl.
  - by rewrite decide_True.
  - rewrite decide_False by done. by rewrite IH.
Qed.

Lemma run_strsep_none m p q s d :
  cstr m p s → cstr m q d → Forall (λ b, b ∉ d) s → p ≠ NULL →
  strsep p q m = Ret (p, NULL) m.
Proof.
  intros Hs Hd Hno Hp. unfold strsep, NULL in *. ctest.
  by rewrite (run_bind_Ret _ _ _ _ _ (run_strpbrk_none _ _ _ _ _ Hs Hd Hno)).
Qed.

Lemma run_strsep_some m p q w c r d :
  cstr m p (w ++ c :: r) → cstr m q d → Forall (λ b, b ∉ d) w → c ∈ d → 0 < p →
  let e := p + Z.of_nat (length w) in
  strsep p q m = Ret (p, e + 1) (<[e := 0]> m).
Proof.
  intros Hs Hd Hno Hc Hp e. unfold strsep, NULL. ctest.
  rewrite (run_bind_Ret _ _ _ _ _ (run_strpbrk_some _ _ _ _ _ _ _ Hs Hd Hno Hc)).
  fold e. unfold NULL. rewrite (proj2 (Z.eqb_neq e 0)) by (unfold e; lia).
  rewrite run_bind, store8_nul; [by crun|].
  apply cstr_app in Hs as (_ & _ & Hs). apply cstr_cons in Hs as (Hs & _). eauto.
Qed.

(** What one [strtok_r] call does to a holder that points at [s]. *)
Definition token_step (m m' : mem) (p : Z) (d s : list Z) (t h : Z) : Prop :=
  (∀ a, a < p ∨ p + Z.of_nat (length s) ≤ a → m' !! a = m !! a) ∧
  match tokens d s with
  | [] => t = NULL ∧ h = NULL
  | w :: ws =>
      p ≤ t ∧ cstr m' t w ∧
      (h = NULL ∧ ws = [] ∧ t + Z.of_nat (length w) ≤ p + Z.of_nat (length s) ∨
       ∃ r, t + Z.of_nat (length w) < h ∧ 0 < h ∧
            h + Z.of_nat (length r) = p + Z.of_nat (length s) ∧
            cstr m' h r ∧ ws = tokens d r)
  end.

(** After the delimiter [c] that ended the field [w] is overwritten, the field
    and the rest of the string are strings. *)
Lemma cstr_cut m p w c r :
  cstr m p (w ++ c :: r) →
  let e := p + Z.of_nat (length w) in
  cstr (<[e := 0]> m) p w ∧ cstr (<[e := 0]> m) (e + 1) r.
Proof.
  intros Hs e. apply cstr_app in Hs as (Hw & Hwb & Hs).
  apply cstr_cons in Hs as (_ & _ & Hr). fold e in Hr. split.
  - split; [|done]. apply bytes_at_app. split.
    + apply (bytes_at_ext m); [done|]. intros a Ha. apply lookup_insert_ne. lia.
    + apply bytes_at_cons. split_and!; [done|apply lookup_insert_eq|done].
  - apply (cstr_ext m); [done|]. intros a Ha. apply lookup_insert_ne. lia.
Qed.

Lemma token_step_skip m m' p d c s t h :
  c ∈ d → token_step (<[p := 0]> m) m' (p + 1) d s t h →
  token_step m m' p d (c :: s) t h.
Proof.
  intros Hc [Hframe H]. split.
  - intros a Ha. simpl length in Ha. rewrite Hframe by lia.
    apply lookup_insert_ne. lia.
  - unfold tokens in *. simpl. rewrite decide_True by done.
    rewrite filter_cons_False by (intros []; done).
    destruct (filter _ (fields d s)) as [|w ws]; [done|].
    destruct H as (? & ? & [?|(r & ?)]); split_and!; [lia|done|left|lia|done|right].
    + destruct_and!. split_and!; [done|done|lia].
    + exists r. destruct_and!. split_and!; [lia|done|lia|done|done].
Qed.

Lemma strtok_r_step m q d s p fuel :
  cstr m p s → cstr m q d → 0 < p →
  disjoint_ranges p (Z.of_nat (length s) + 1) q (Z.of_nat (length d) + 1) →
  (length s + 1 < fuel)%nat →
  ∃ t h m', loop fuel (λ holder,
    '(s, holder) ← strsep holder q;
    if s =? NULL then Break (s, holder) else
    ch ← loadc s;
    if ch =? 0 then Next holder else Break (s, holder)) p m = Ret (t, h) m' ∧
  token_step m m' p d s t h.
Proof.
  unfold disjoint_ranges. revert m p fuel.
  induction s as [s IH] using (induction_ltof1 _ length).
  intros m p [|fuel] Hs Hd Hp Hdis Hf; [lia|]. rewrite run_loop; cbn beta iota.
  destruct (split_delim d s) as [Hno|(w & c & r & -> & Hw & Hc)].
  - rewrite run_bind, (run_strsep_none _ _ _ _ _ Hs Hd Hno) by (unfold NULL; lia).
    cbn beta iota. rewrite (proj2 (Z.eqb_neq p NULL)) by (unfold NULL; lia).
    destruct s as [|b s].
    + apply cstr_nil in Hs. crun. destruct fuel as [|fuel]; [simpl in Hf; lia|].
      rewrite run_loop; cbn beta iota. crun. exists NULL, NULL, m. done.
    + apply cstr_cons in Hs as Hs'. destruct Hs' as (Hb & ? & _). crun.
      rewrite s8_nonzero by done. crun. exists p, NULL, m. split; [done|].
      split; [done|]. unfold tokens. rewrite fields_none by done.
      rewrite filter_cons_True by done. split_and!; [lia|done|].
      left. split_and!; [done|done|lia].
  - rewrite run_bind, (run_strsep_some _ _ _ _ _ _ _ Hs Hd Hw Hc Hp). cbn beta iota zeta.
    rewrite (proj2 (Z.eqb_neq p NULL)) by (unfold NULL; lia).
    pose proof (cstr_cut _ _ _ _ _ Hs) as [Hcw Hcr].
    rewrite length_app in *. simpl length in *.
    set (e := p + Z.of_nat (length w)) in *.
    assert (cstr (<[e := 0]> m) q d) as Hd'.
    { apply (cstr_ext m); [done|]. intros a Ha. apply lookup_insert_ne. lia. }
    destruct w as [|b w].
    + simpl length in *. unfold e in *. rewrite Z.add_0_r in *.
      apply cstr_nil in Hcw as Hnul. crun.
      destruct (IH r ltac:(unfold ltof; simpl; lia) (<[p := 0]> m) (p + 1) fuel)
        as (t & h & m' & Hrun & Hstep); [done|done|lia|lia|simpl in Hf; lia|].
      exists t, h, m'. split; [done|]. by apply token_step_skip.
    + apply cstr_cons in Hcw as Hcw'. destruct Hcw' as (Hb & ? & _). crun.
      rewrite s8_nonzero by done. crun. exists p, (e + 1), (<[e := 0]> m).
      split; [done|]. split.
      * intros a Ha. rewrite length_app in Ha. simpl length in *.
        apply lookup_insert_ne. lia.
      * unfold tokens. rewrite fields_some by done. rewrite filter_cons_True by done.
        split_and!; [lia|done|]. right. exists r. rewrite length_app. simpl length in *.
        split_and!; [lia..|done|done].
Qed.

Lemma run_strtok_r m q d s p sarg holder :
  cstr m p s → cstr m q d → 0 < p →
  disjoint_ranges p (Z.of_nat (length s) + 1) q (Z.of_nat (length d) + 1) →
  p = (if sarg =? NULL then holder else sarg) →
  ∃ t h m', strtok_r sarg q holder m = Ret (t, h) m' ∧ token_step m m' p d s t h.
Proof.
  intros Hs Hd Hp Hdis ->. unfold strtok_r. rewrite run_scan_fuel.
  apply strtok_r_step; [done..|]. apply cstr_size in Hs. lia.
Qed.

Lemma run_strtok_r_done m q : strtok_r NULL q NULL m = Ret (NULL, NULL) m.
Proof. unfold strtok_r. rewrite run_scan_fuel. by rewrite run_loop. Qed.

Lemma tokens_length d s : (length (tokens d s) ≤ length s)%nat.
Proof.
  unfold tokens. induction s as [|b s IH]; [done|]. cbn [fields length].
  case_decide.
  - rewrite filter_cons_False by (intros []; done). lia.
  - destruct (fields d s) as [|w ws].
    + rewrite filter_cons_True by done. simpl. lia.
    + rewrite filter_cons_True by done. rewrite filter_cons in IH. cbn [length].
      case_decide; cbn [length] in *; lia.
Qed.

(** The loop of a client over all tokens of [s]. *)
Lemma run_strtok_all q d calls :
  ∀ m s p sarg holder,
  cstr m p s → cstr m q d → 0 < p →
  disjoint_ranges p (Z.of_nat (length s) + 1) q (Z.of_nat (length d) + 1) →
  p = (if sarg =? NULL then holder else sarg) →
  (length (tokens d s) < calls)%nat →
  ∃ ts m', strtok_all calls sarg q holder m = Ret ts m' ∧
    Forall2 (cstr m') ts (tokens d s) ∧
    (∀ a, a < p ∨ p + Z.of_nat (length s) ≤ a → m' !! a = m !! a).
Proof.
  unfold disjoint_ranges.
  induction calls as [|calls IH]; intros m s p sarg holder Hs Hd Hp Hdis Hsarg Hlen;
    [lia|].
  destruct (run_strtok_r m q d s p sarg holder) as (t & h & m' & Hrun & Hframe & Hstep);
    [done..|].
  cbn [strtok_all]. rewrite run_bind, Hrun. cbn beta iota.
  destruct (tokens d s) as [|w ws].
  { destruct Hstep as [-> ->]. exists [], m'. by split_and!. }
  destruct Hstep as (Hpt & Hw & Hrest). rewrite (proj2 (Z.eqb_neq t NULL)) by (unfold NULL; lia).
  destruct Hrest as [(-> & -> & ?)|(r & ? & ? & ? & Hr & ->)]; simpl length in *.
  - destruct calls as [|calls]; [lia|].
    assert (strtok_all (S calls) NULL q NULL m' = Ret [] m') as Hend.
    { cbn [strtok_all]. by rewrite run_bind, run_strtok_r_done. }
    rewrite run_bind, Hend. crun. exists [t], m'.
    split_and!; [done|constructor; [done|constructor]|done].
  - destruct (IH m' r h NULL h) as (ts & m2 & Hrun2 & Hts & Hframe2); [done| |done| |done|lia|].
    { apply (cstr_ext m); [done|]. intros a Ha. apply Hframe. lia. }
    { lia. }
    rewrite run_bind, Hrun2. crun. exists (t :: ts), m2. split_and!; [done| |].
    + constructor; [|done]. apply (cstr_ext m'); [done|]. intros a Ha. apply Hframe2. lia.
    + intros a Ha. rewrite Hframe2 by lia. apply Hframe. lia.
Qed.

(** The tokens [ws] are to come: the holder [h] points between [lo] and [hi], or
    there are none. *)
Definition more_tokens (m : mem) (d : list Z) (lo hi h : Z) (ws : list (list Z)) : Prop :=
  h = NULL ∧ ws = [] ∨
  ∃ r, 0 < h ∧ lo ≤ h ∧ h + Z.of_nat (length r) = hi ∧ cstr m h r ∧ ws = tokens d r.

Lemma more_tokens_ext m m' d lo0 lo hi h ws :
  more_tokens m d lo hi h ws → lo0 ≤ lo → (∀ a, lo0 ≤ a ≤ hi → m' !! a = m !! a) → more_tokens m' d lo hi h ws.
Proof.
  intros [?|(r & Hpos & Hlo & Hhi & Hr & ->)] Hle Hm; [by left|]. right. exists r. split_and!; try done.
  apply (cstr_ext m); [done|]. intros a Ha. apply Hm. lia.
Qed.

(** One call of a client that has called before; what lies below [lo] stays. *)
Lemma run_next_token m q d lo hi h ws sarg holder :
  more_tokens m d lo hi h ws → cstr m q d → disjoint_ranges lo (hi - lo + 1) q (Z.of_nat (length d) + 1) →
  h = (if sarg =? NULL then holder else sarg) →
  ∃ t h' lo' m', strtok_r sarg q holder m = Ret (t, h') m' ∧
  (∀ a, a < lo ∨ hi ≤ a → m' !! a = m !! a) ∧ lo ≤ lo' ∧
  match ws with
  | [] => t = NULL ∧ more_tokens m' d lo' hi h' []
  | w :: ws' => 0 < t ∧ lo ≤ t ∧ t + Z.of_nat (length w) < lo' ∧ t + Z.of_nat (length w) ≤ hi ∧
                cstr m' t w ∧ more_tokens m' d lo' hi h' ws'
  end.
Proof.
  intros [[-> ->]|(r & Hpos & Hlo & Hhi & Hr & ->)] Hq Hd Hh.
  - exists NULL, NULL, lo, m. split_and!; [|done|lia|done|by left].
    unfold strtok_r. rewrite <-Hh, run_scan_fuel. by rewrite run_loop.
  - unfold disjoint_ranges in Hd.
    destruct (run_strtok_r m q d r h sarg holder) as (t & h' & m' & Hrun & Hframe & Hstep);
      [done|done|done|unfold disjoint_ranges; lia|done|].
    destruct (tokens d r) as [|w ws].
    + destruct Hstep as [-> ->]. exists NULL, NULL, lo, m'. split_and!; [done| |lia|done|by left].
      intros a Ha. apply Hframe. lia.
    + destruct Hstep as (Ht & Hw & [(-> & -> & Hend)|(r' & Hlt & Hpos' & Hend & Hr' & ->)]).
      * exists t, NULL, (hi + 1), m'. split_and!; [done| |lia|lia|lia|lia|lia|done|by left]. intros a Ha. apply Hframe. lia.
      * exists t, h', h', m'. split_and!; [done| |lia|lia|lia|lia|lia|done|].
        { intros a Ha. apply Hframe. lia. }
        right. exists r'. split_and!; [done|lia|lia|done|done].
Qed.
End tokens.

(** ** Properties *)

(** The string [,a,,b] at 100, the delimiter string [,] at 200. *)
Definition mem_tokens : mem :=
  write_bytes (write_bytes ∅ 100 [44; 97; 44; 44; 98; 0]) 200 [44; 0].

(** [strspn] and [strcspn] return the length of the longest prefix of bytes
    in the set and out of it, and [strpbrk] a pointer to the first byte in the
    set or [NULL]. *)
Theorem span_lengths (m : mem) (p q : Z) (s d : list Z)
    (Hs : cstr m p s) (Hd : cstr m q d) :
  strspn p q m = Ret (Z.of_nat (span_len (λ b, bool_decide (b ∈ d)) s)) m ∧
  strcspn p q m = Ret (Z.of_nat (span_len (λ b, negb (bool_decide (b ∈ d))) s)) m ∧
  strpbrk p q m = Ret (sub_ptr p (fst <$> list_find (λ b, b ∈ d) s)) m.
Proof.
  split_and!; [by apply run_strspn|by apply run_strcspn|].
  destruct (split_delim d s) as [Hno|(w & c & r & -> & Hw & Hc)].
  - rewrite (run_strpbrk_none _ _ _ _ _ Hs Hd Hno).
    by rewrite (proj2 (list_find_None _ _) Hno).
  - rewrite (run_strpbrk_some _ _ _ _ _ _ _ Hs Hd Hw Hc).
    rewrite list_find_app_r by (by apply list_find_None). cbn [list_find].
    rewrite decide_True by done. done.
Qed.

Lemma span_lengths_witness :
  strspn 100 200 mem_tokens = Ret 1 mem_tokens ∧
  strcspn 101 200 mem_tokens = Ret 1 mem_tokens ∧
  strpbrk 101 200 mem_tokens = Ret 102 mem_tokens.
Proof.
  pose proof (span_lengths mem_tokens 100 200 [44; 97; 44; 44; 98] [44]
    ltac:(by_decide) ltac:(by_decide)) as (H1 & _).
  pose proof (span_lengths mem_tokens 101 200 [97; 44; 44; 98] [44]
    ltac:(by_decide) ltac:(by_decide)) as (_ & H2 & H3). auto.
Defined.

(** C30: calling [strtok_r] on a string and then with [NULL] until it returns
    [NULL] gives, in order, a pointer to each non-empty field between
    delimiters; in the final memory each is a terminated string holding its
    field, and nothing outside the string was written.  One call more than
    there are fields is enough. *)
Theorem strtok_r_tokens (m : mem) (p q : Z) (s d : list Z) (holder : Z)
    (Hs : cstr m p s) (Hd : cstr m q d) (Hp : 0 < p)
    (Hdis : disjoint_ranges p (Z.of_nat (length s) + 1) q (Z.of_nat (length d) + 1)) :
  ∃ ts m', strtok_all (S (length (tokens d s))) p q holder m = Ret ts m' ∧
  Forall2 (cstr m') ts (tokens d s) ∧
  (∀ a, a < p ∨ p + Z.of_nat (length s) ≤ a → m' !! a = m !! a).
Proof.
  apply run_strtok_all; [done..| |lia].
  by rewrite (proj2 (Z.eqb_neq p NULL)) by (unfold NULL; lia).
Qed.

Lemma strtok_r_tokens_witness :
  ∃ ts m', strtok_all 3 100 200 0 mem_tokens = Ret ts m' ∧
  Forall2 (cstr m') ts [[97]; [98]] ∧
  (∀ a, a < 100 ∨ 100 + 5 ≤ a → m' !! a = mem_tokens !! a).
Proof.
  apply (strtok_r_tokens mem_tokens 100 200 [44; 97; 44; 44; 98] [44] 0);
    by_decide || lia.
Defined.
