(* ===== verification/Numbers.v ===== *)
(** * Numbers from text: [strntoumax.c], [strntoimax.c], [strtox.c.h],
    [atox.c.h], [strtotimex.c.h]

    [strntoumax] is modelled with its 64-bit wrap-around; the pointer it stores
    through [endptr] is part of the result.  The theorem gives value and end
    pointer for any text of the form blanks, sign, radix prefix, digits. *)

From stdpp Require Import base tactics numbers list gmap.
From S2P Require Import Prelude Memory MemFns Ctype StrFns.

Open Scope Z_scope.

(** ** The routines *)

Definition digitval (ch : Z) : Z :=
  if (48 <=? ch) && (ch <=? 57) then ch - 48
  else if (65 <=? ch) && (ch <=? 90) then ch - 65 + 10
  else if (97 <=? ch) && (ch <=? 122) then ch - 97 + 10
  else -1.

(** The radix prefix: the text after it, the characters left and the base. *)
Definition strntoumax_prefix (nptr base n : Z) : C mem (Z * Z * Z) :=
  let is_hex : C mem bool :=
    if negb (2 <=? n) then mret false else
    c0 ← loadc nptr;
    if negb (c0 =? 48) then mret false else
    c1 ← loadc (nptr + 1);
    mret ((c1 =? 120) || (c1 =? 88)) in
  if base =? 0 then
    hex ← is_hex;
    if hex : bool then mret (nptr + 2, n - 2, 16) else
    oct ← (if negb (1 <=? n) then mret false else c0 ← loadc nptr; mret (c0 =? 48));
    if oct : bool then mret (nptr + 1, n - 1, 8) else mret (nptr, n, 10)
  else if base =? 16 then
    hex ← is_hex;
    if hex : bool then mret (nptr + 2, n - 2, base) else mret (nptr, n, base)
  else mret (nptr, n, base).

(** The result and the value stored through [endptr]. *)
Definition strntoumax (nptr base n : Z) : C mem (Z * Z) :=
  '(nptr, n) ← scan_fuel (λ fuel, loop fuel (λ '(nptr, n),
    if n =? 0 then Break (nptr, n) else
    c ← loadc nptr;
    sp ← isspace (u8 c);
    if sp =? 0 then Break (nptr, n) else Next (nptr + 1, n - 1)) (nptr, n));
  (* Single optional + or - *)
  '(nptr, n, minus) ←
    (if n =? 0 then mret (nptr, n, false) else
     c ← loadc nptr;
     if (c =? 45) || (c =? 43) then mret (nptr + 1, n - 1, c =? 45)
     else mret (nptr, n, false));
  '(nptr, n, base) ← strntoumax_prefix nptr base n;
  '(nptr, v) ← scan_fuel (λ fuel, loop fuel (λ '(nptr, n, v),
    if n =? 0 then Break (nptr, v) else
    c ← loadc nptr;
    let d := digitval c in
    if (0 <=? d) && (d <? base) then Next (nptr + 1, n - 1, u64 (v * base + d))
    else Break (nptr, v)) (nptr, n, 0));
  mret (if minus : bool then u64 (- v) else v, nptr).

Definition strntoimax (nptr base n : Z) : C mem (Z * Z) :=
  '(v, e) ← strntoumax nptr base n; mret (s64 v, e).

(** The conversions of [strtox.c.h]; [conv] is the cast to [TYPE]. *)
Definition strtox (conv : Z → Z) (nptr base : Z) : C mem (Z * Z) :=
  '(v, e) ← strntoumax nptr base ULONG_MAX; mret (conv v, e).

Definition strtol : Z → Z → C mem (Z * Z) := strtox s64.
Definition strtoll : Z → Z → C mem (Z * Z) := strtox s64.
Definition strtoimax : Z → Z → C mem (Z * Z) := strtox s64.
Definition strtoul : Z → Z → C mem (Z * Z) := strtox u64.
Definition strtoull : Z → Z → C mem (Z * Z) := strtox u64.
Definition strtoumax : Z → Z → C mem (Z * Z) := strtox u64.

(** The conversions of [atox.c.h]. *)
Definition atox (conv : Z → Z) (nptr : Z) : C mem Z :=
  '(v, _) ← strntoumax nptr 10 ULONG_MAX; mret (conv v).

Definition atoi : Z → C mem Z := atox s32.
Definition atol : Z → C mem Z := atox s64.
Definition atoll : Z → C mem Z := atox s64.

Record timex := { tv_sec : Z; tv_fsec : Z }.

(** [strtotimespec] (9 decimals) and [strtotimeval] (6): the time and the
    pointer to the first character that is not part of it. *)
Definition strtotimex (decimals : Z) (str : Z) : C mem (timex * Z) :=
  '(sec, s) ← strntoumax str 10 ULONG_MAX;
  c ← loadc s;
  if c =? 46 then
    let s0 := s + 1 in
    '(fs, s) ← strntoumax s0 10 decimals;
    let n := s - s0 in
    s ← scan_fuel (λ fuel, loop fuel (λ s,
      c ← loadc s;
      if isdigit c =? 0 then Break s else Next (s + 1)) s);
    fs ← loop (S (Z.to_nat decimals)) (λ '(n, fs),
      if n <? decimals then Next (n + 1, s64 (fs * 10)) else Break fs) (n, s64 fs);
    mret ({| tv_sec := s64 sec; tv_fsec := fs |}, s)
  else
    mret ({| tv_sec := s64 sec; tv_fsec := 0 |}, s).

Definition strtotimespec : Z → C mem (timex * Z) := strtotimex 9.
Definition strtotimeval : Z → C mem (timex * Z) := strtotimex 6.

(** ** The text of a number *)

(** The value of a digit sequence in base [b]. *)
Definition digits_value (b : Z) (ds : list Z) : Z :=
  foldl (λ v c, v * b + digitval c) 0 ds.

Definition is_digit_of (b c : Z) : Prop := 0 ≤ digitval c < b.

(** [radix base s b k]: on the text [s] the base argument [base] selects base
    [b] and a prefix of [k] characters is skipped. *)
Inductive radix : Z → list Z → Z → nat → Prop :=
  | radix_hex base x s :
      base = 0 ∨ base = 16 → x = 120 ∨ x = 88 → radix base (48 :: x :: s) 16 2
  | radix_octal s :
      (∀ x s', s = x :: s' → x ≠ 120 ∧ x ≠ 88) → radix 0 (48 :: s) 8 1
  | radix_decimal s : (∀ s', s ≠ 48 :: s') → radix 0 s 10 0
  | radix_hex_plain s :
      (∀ x s', s = 48 :: x :: s' → x ≠ 120 ∧ x ≠ 88) → radix 16 s 16 0
  | radix_given base s : base ≠ 0 → base ≠ 16 → radix base s base 0.

(** The head of [l], if any, fails [P]. *)
Definition stops (P : Z → Prop) (l : list Z) : Prop :=
  match l with [] => True | c :: _ => ¬ P c end.

(** Blanks, an optional sign, a radix prefix, digits, and a rest that does not
    go on with a digit. *)
Record number_text (base b : Z) (k : nat) (ws sgn pfx ds rest : list Z) : Prop := {
  nt_blanks : Forall (λ c, table_space c = true) ws;
  nt_sign : sgn = [] ∨ sgn = [43] ∨ sgn = [45];
  nt_nosign : sgn = [] → stops (λ c, table_space c = true ∨ c = 43 ∨ c = 45)
                               (pfx ++ ds ++ rest);
  nt_radix : radix base (pfx ++ ds ++ rest) b k;
  nt_prefix : length pfx = k;
  nt_digits : Forall (is_digit_of b) ds;
  nt_rest : stops (is_digit_of b) rest;
}.

Definition number_value (b : Z) (sgn ds : list Z) : Z :=
  u64 (if bool_decide (sgn = [45]) then - digits_value b ds else digits_value b ds).

(** The text the routine may look at: [t], and then either the limit [n] is
    reached or a NUL follows. *)
Definition text (m : mem) (p : Z) (t : list Z) (n : Z) : Prop :=
  bytes_at m p t ∧ Forall (λ b, 0 < b < 256) t ∧
  (n = Z.of_nat (length t) ∨
   Z.of_nat (length t) < n ∧ m !! (p + Z.of_nat (length t)) = Some 0).

(** ** Proof *)

Section strntoumax.
Implicit Types (m : mem) (s t ds ws : list Z).

Lemma text_nil m p n : text m p [] n ↔ n = 0 ∨ 0 < n ∧ m !! p = Some 0.
Proof.
  unfold text. simpl. rewrite Z.add_0_r. split; [tauto|].
  intros H. split_and!; [apply bytes_at_nil|constructor|done].
Qed.

Lemma text_cons m p b t n :
  text m p (b :: t) n ↔ m !! p = Some b ∧ 0 < b < 256 ∧ 0 < n ∧ text m (p + 1) t (n - 1).
Proof.
  unfold text. rewrite bytes_at_cons, Forall_cons. cbn [length].
  replace (p + Z.of_nat (S (length t))) with (p + 1 + Z.of_nat (length t)) by lia.
  unfold is_byte. intuition lia.
Qed.

Lemma text_app m p t t' n :
  text m p (t ++ t') n → text m (p + Z.of_nat (length t)) t' (n - Z.of_nat (length t)).
Proof.
  revert p n. induction t as [|b t IH]; intros p n H; simpl in *.
  - by rewrite Z.add_0_r, Z.sub_0_r.
  - apply text_cons in H as (_ & _ & _ & H). apply IH in H.
    replace (p + Z.of_nat (S (length t))) with (p + 1 + Z.of_nat (length t)) by lia.
    by replace (n - Z.of_nat (S (length t))) with (n - 1 - Z.of_nat (length t)) by lia.
Qed.

Lemma text_length m p t n : text m p t n → Z.of_nat (length t) ≤ n.
Proof. intros (_ & _ & H). lia. Qed.

Lemma text_size m p t n : text m p t n → (length t ≤ size m)%nat.
Proof. intros (H & _). by apply bytes_at_size in H. Qed.

(** A string, cut at the limit. *)
Lemma cstr_text m p s n :
  cstr m p s → 0 ≤ n → text m p (take (Z.to_nat n) s) n.
Proof.
  intros Hs Hn. split_and!.
  - apply bytes_at_take. auto.
  - apply Forall_take, Hs.
  - rewrite length_take. destruct (decide (Z.to_nat n ≤ length s)%nat); [left; lia|right].
    split; [lia|]. rewrite Nat.min_r by lia. by apply cstr_nul.
Qed.

Lemma cstr_text_all m p s n :
  cstr m p s → Z.of_nat (length s) ≤ n → text m p s n.
Proof.
  intros Hs Hn. rewrite <-(take_ge s (Z.to_nat n)) by lia. apply cstr_text; [done|lia].
Qed.

Lemma digitval_s8 b : is_byte b → digitval (s8 b) = digitval b.
Proof.
  intros Hb. apply Z.eqb_eq.
  by apply (byte_forall (λ b, digitval (s8 b) =? digitval b)); [vm_compute|].
Qed.

Lemma isdigit_s8 b : is_byte b → isdigit (s8 b) = cbool (latin1_digit b).
Proof.
  intros Hb. apply Z.eqb_eq.
  by apply (byte_forall (λ b, isdigit (s8 b) =? cbool (latin1_digit b))); [vm_compute|].
Qed.

Lemma skip_blanks m p ws s n fuel :
  text m p (ws ++ s) n → Forall (λ c, table_space c = true) ws →
  stops (λ c, table_space c = true) s → (length ws < fuel)%nat →
  loop fuel (λ '(nptr, n),
    if n =? 0 then Break (nptr, n) else
    c ← loadc nptr;
    sp ← isspace (u8 c);
    if sp =? 0 then Break (nptr, n) else Next (nptr + 1, n - 1)) (p, n) m =
  Ret (p + Z.of_nat (length ws), n - Z.of_nat (length ws)) m.
Proof.
  intros Hs Hws Hstop. revert p n fuel Hs.
  induction Hws as [|c ws Hc Hws IH]; intros p n [|fuel] Hs Hf; try (simpl in *; lia);
    rewrite run_loop; cbn beta iota.
  - simpl app in Hs. simpl length. rewrite Z.add_0_r, Z.sub_0_r.
    destruct (Z.eqb_spec n 0) as [->|Hn0]; crun; [done|].
    destruct s as [|b s].
    + apply text_nil in Hs as [?|[_ Hs]]; [lia|]. crun. change (u8 (s8 0)) with 0. by crun.
    + apply text_cons in Hs as (Hb & ? & _). crun. rewrite u8_s8, u8_byte by auto. crun.
      rewrite isspace_of_spec by lia. simpl in Hstop.
      destruct (table_space b); [done|]. by crun.
  - simpl app in Hs. apply text_cons in Hs as (Hb & ? & ? & Hs). simpl length in *.
    ctest. crun. rewrite u8_s8, u8_byte by auto. crun.
    rewrite isspace_of_spec by lia. rewrite Hc. cbn [negb]. crun.
    rewrite IH by (done || lia). f_equal. f_equal; lia.
Qed.

Lemma digits_value_snoc b ds c :
  digits_value b (ds ++ [c]) = digits_value b ds * b + digitval c.
Proof. unfold digits_value. by rewrite foldl_app. Qed.

Lemma scan_digits m p ds rest b n fuel :
  text m p (ds ++ rest) n → Forall (is_digit_of b) ds → stops (is_digit_of b) rest →
  (length ds < fuel)%nat →
  loop fuel (λ '(nptr, n, v),
    if n =? 0 then Break (nptr, v) else
    c ← loadc nptr;
    let d := digitval c in
    if (0 <=? d) && (d <? b) then Next (nptr + 1, n - 1, u64 (v * b + d))
    else Break (nptr, v)) (p, n, 0) m =
  Ret (p + Z.of_nat (length ds), u64 (digits_value b ds)) m.
Proof.
  intros Hs Hds Hstop Hf.
  enough (∀ ds0 p n fuel, text m p (ds ++ rest) n → (length ds < fuel)%nat →
    loop fuel (λ '(nptr, n, v),
      if n =? 0 then Break (nptr, v) else
      c ← loadc nptr;
      let d := digitval c in
      if (0 <=? d) && (d <? b) then Next (nptr + 1, n - 1, u64 (v * b + d))
      else Break (nptr, v)) (p, n, u64 (digits_value b ds0)) m =
    Ret (p + Z.of_nat (length ds), u64 (digits_value b (ds0 ++ ds))) m) as H
    by (apply (H []); done).
  clear p n fuel Hs Hf.
  induction Hds as [|c ds Hc Hds IH]; intros ds0 p n [|fuel] Hs Hf;
    try (simpl in *; lia); rewrite run_loop; cbn beta iota.
  - simpl app in *. rewrite app_nil_r. simpl length. rewrite Z.add_0_r.
    destruct (Z.eqb_spec n 0) as [->|Hn0]; crun; [done|].
    destruct rest as [|r rest].
    + apply text_nil in Hs as [?|[_ Hs]]; [lia|].
      crun. change (digitval (s8 0)) with (-1). by crun.
    + apply text_cons in Hs as (Hr & ? & _). crun. rewrite digitval_s8 by auto.
      simpl in Hstop. unfold is_digit_of in Hstop.
      destruct ((0 <=? digitval r) && (digitval r <? b)) eqn:E; [|by crun].
      apply andb_true_iff in E as [?%Z.leb_le ?%Z.ltb_lt]. lia.
  - simpl app in Hs. apply text_cons in Hs as (Hp & ? & ? & Hs). simpl length in *.
    ctest. crun. rewrite digitval_s8 by auto. unfold is_digit_of in Hc.
    rewrite (proj2 (Z.leb_le 0 (digitval c))), (proj2 (Z.ltb_lt (digitval c) b)) by lia.
    cbn [andb]. crun.
    replace (u64 (u64 (digits_value b ds0) * b + digitval c))
      with (u64 (digits_value b (ds0 ++ [c]))).
    2: { rewrite digits_value_snoc. unfold wrap.
         by rewrite <-(Zplus_mod_idemp_l (_ * b)), <-(Zmult_mod_idemp_l (digits_value b ds0)),
           Zplus_mod_idemp_l. }
    rewrite IH by (done || lia). rewrite <-app_assoc. f_equal. f_equal. lia.
Qed.

(** The tests on the first two characters of the text. *)
Lemma run_is_hex m p s n :
  text m p s n →
  (if negb (2 <=? n) then mret false else
   c0 ← loadc p;
   if negb (c0 =? 48) then mret false else
   c1 ← loadc (p + 1);
   mret ((c1 =? 120) || (c1 =? 88)) : C mem bool) m =
  Ret (match s with 48 :: x :: _ => (x =? 120) || (x =? 88) | _ => false end) m.
Proof.
  intros Hs. apply text_length in Hs as Hn.
  destruct (Z.leb_spec 2 n) as [H2|H2]; cbn [negb].
  2: { destruct s as [|c [|x s]]; simpl in Hn; [by crun| |lia].
       crun. by destruct (decide (c = 48)) as [->|]; [|repeat case_match]. }
  destruct s as [|c s].
  - apply text_nil in Hs as [?|[_ Hs]]; [lia|]. by crun.
  - apply text_cons in Hs as (Hc & ? & _ & Hs). crun. rewrite s8_const by (auto || lia).
    destruct (Z.eqb_spec c 48) as [->|Hne]; cbn [negb].
    2: { crun. by repeat (case_match; try done). }
    destruct s as [|x s].
    + apply text_nil in Hs as [?|[_ Hs]]; [lia|]. by crun.
    + apply text_cons in Hs as (Hx & ? & _). crun. by rewrite !s8_const by (auto || lia).
Qed.

Lemma run_prefix m p s base b k n :
  text m p s n → radix base s b k →
  strntoumax_prefix p base n m = Ret (p + Z.of_nat k, n - Z.of_nat k, b) m.
Proof.
  intros Hs Hr. pose proof (run_is_hex m p s n Hs) as Hhex.
  unfold strntoumax_prefix. cbn zeta.
  destruct Hr as [base x s Hb Hx|s Hx|s Hx|s Hx|base s Hb0 Hb16].
  - assert ((x =? 120) || (x =? 88) = true) as E by (destruct Hx as [->| ->]; done).
    rewrite E in Hhex. by destruct Hb as [->| ->]; cbn [Z.eqb Pos.eqb];
      rewrite run_bind, Hhex.
  - cbn [Z.eqb Pos.eqb]. rewrite run_bind, Hhex. clear Hhex.
    replace (match s with x :: _ => (x =? 120) || (x =? 88) | [] => false end) with false.
    2: { destruct s as [|x s]; [done|]. destruct (Hx x s eq_refl) as [H1 H2].
         by rewrite (proj2 (Z.eqb_neq x 120)), (proj2 (Z.eqb_neq x 88)). }
    apply text_cons in Hs as (Hc & _ & Hn & _).
    rewrite (proj2 (Z.leb_le 1 n)) by lia. cbn [negb]. by crun.
  - cbn [Z.eqb Pos.eqb]. rewrite run_bind, Hhex. clear Hhex.
    replace (match s with 48 :: x :: _ => (x =? 120) || (x =? 88) | _ => false end) with false
      by (destruct s as [|c s]; [done|]; destruct (decide (c = 48)) as [->|];
          [by destruct (Hx s)|repeat (case_match; try done)]).
    rewrite Z.add_0_r, Z.sub_0_r.
    destruct (Z.leb_spec 1 n); cbn [negb]; [|by crun].
    destruct s as [|c s].
    + apply text_nil in Hs as [?|[_ Hs]]; [lia|]. by crun.
    + apply text_cons in Hs as (Hc & ? & _). crun. rewrite s8_const by (auto || lia).
      assert (c ≠ 48) by (intros ->; by destruct (Hx s)). ctest. by crun.
  - cbn [Z.eqb Pos.eqb]. rewrite run_bind, Hhex. clear Hhex.
    rewrite Z.add_0_r, Z.sub_0_r. destruct s as [|c [|x s]]; try by repeat case_match.
    destruct (decide (c = 48)) as [->|]; [|by repeat (case_match; try done)].
    destruct (Hx x s eq_refl). by rewrite (proj2 (Z.eqb_neq x 120)), (proj2 (Z.eqb_neq x 88)).
  - repeat ctest. by rewrite Z.add_0_r, Z.sub_0_r.
Qed.

(** The optional sign. *)
Lemma run_sign m p sgn body n :
  text m p (sgn ++ body) n → sgn = [] ∨ sgn = [43] ∨ sgn = [45] →
  (sgn = [] → stops (λ c, table_space c = true ∨ c = 43 ∨ c = 45) body) →
  (if n =? 0 then mret (p, n, false) else
   c ← loadc p;
   if (c =? 45) || (c =? 43) then mret (p + 1, n - 1, c =? 45)
   else mret (p, n, false) : C mem (Z * Z * bool)) m =
  Ret (p + Z.of_nat (length sgn), n - Z.of_nat (length sgn), bool_decide (sgn = [45])) m.
Proof.
  intros Hs Hsgn Hnosgn. destruct Hsgn as [->|[->| ->]].
  - specialize (Hnosgn eq_refl). simpl app in *. simpl length.
    rewrite Z.add_0_r, Z.sub_0_r. destruct (Z.eqb_spec n 0) as [E|E]; [by crun|].
    destruct body as [|c body'].
    + apply text_nil in Hs as [?|[_ Hs]]; [lia|]. by crun.
    + apply text_cons in Hs as (Hc & ? & _). crun. rewrite !s8_const by (auto || lia).
      simpl in Hnosgn. repeat ctest. by crun.
  - apply text_cons in Hs as (Hc & _ & ? & _). ctest. by crun.
  - apply text_cons in Hs as (Hc & _ & ? & _). ctest. by crun.
Qed.

Lemma run_strntoumax m p base b k ws sgn pfx ds rest n :
  number_text base b k ws sgn pfx ds rest →
  text m p (ws ++ sgn ++ pfx ++ ds ++ rest) n →
  strntoumax p base n m =
  Ret (number_value b sgn ds, p + Z.of_nat (length (ws ++ sgn ++ pfx ++ ds))) m.
Proof.
  intros [Hws Hsgn Hnosgn Hrad <- Hds Hrest] Hs. unfold strntoumax.
  set (body := pfx ++ ds ++ rest) in *.
  apply text_size in Hs as Hlen. rewrite !length_app in Hlen.
  assert (length body = length pfx + (length ds + length rest))%nat as Hbody
    by (unfold body; by rewrite !length_app).
  assert (stops (λ c, table_space c = true) (sgn ++ body)) as Hstop.
  { destruct Hsgn as [->|[->| ->]]; simpl; [|done|done].
    specialize (Hnosgn eq_refl). destruct body; simpl in *; [done|tauto]. }
  rewrite run_bind, run_scan_fuel, (skip_blanks _ _ ws (sgn ++ body)) by (done || lia).
  cbn beta iota. apply text_app in Hs.
  rewrite run_bind, (run_sign _ _ _ _ _ Hs Hsgn Hnosgn). cbn beta iota.
  apply text_app in Hs. rewrite run_bind, (run_prefix _ _ _ _ _ _ _ Hs Hrad).
  cbn beta iota. apply text_app in Hs.
  rewrite run_bind, run_scan_fuel, (scan_digits _ _ ds rest b) by (done || lia).
  cbn beta iota. rewrite run_ret. f_equal. unfold number_value. f_equal.
  - case_bool_decide; [|done]. unfold wrap. by rewrite <-Z.sub_0_l, Zminus_mod_idemp_r.
  - rewrite !length_app. lia.
Qed.
End strntoumax.

(** ** Every text is a number text *)

Section decomposition.
Implicit Types s : list Z.

Lemma span_exists (P : Z → Prop) `{∀ c, Decision (P c)} s :
  ∃ l r, s = l ++ r ∧ Forall P l ∧ stops P r.
Proof.
  induction s as [|c s (l & r & -> & Hl & Hr)]; [by exists [], []|].
  destruct (decide (P c)) as [Hc|Hc].
  - exists (c :: l), r. by split_and!; [|constructor|].
  - by exists [], (c :: l ++ r).
Qed.

Lemma radix_exists base s :
  ∃ b k pfx t, radix base s b k ∧ s = pfx ++ t ∧ length pfx = k.
Proof.
  assert (∃ h, h = match s with 48 :: x :: _ => (x =? 120) || (x =? 88) | _ => false end)
    as [[] Hh] by eauto.
  - destruct s as [|c [|x s]]; try done.
    { by repeat (case_match; try done). }
    assert (c = 48) as -> by (repeat (case_match; try done)).
    assert (x = 120 ∨ x = 88).
    { symmetry in Hh. apply orb_true_iff in Hh as [?%Z.eqb_eq|?%Z.eqb_eq]; auto. }
    destruct (decide (base = 0 ∨ base = 16)) as [Hb|Hb].
    + exists 16, 2%nat, [48; x], s. split_and!; [by constructor|done..].
    + exists base, 0%nat, [], (48 :: x :: s).
      split_and!; [apply radix_given; tauto|done..].
  - assert (∀ x s', s = 48 :: x :: s' → x ≠ 120 ∧ x ≠ 88) as Hx.
    { intros x s' ->. symmetry in Hh. apply orb_false_iff in Hh as [?%Z.eqb_neq ?%Z.eqb_neq].
      done. }
    destruct (decide (base = 16)) as [->|H16].
    { exists 16, 0%nat, [], s. split_and!; [by apply radix_hex_plain|done..]. }
    destruct (decide (base = 0)) as [->|H0].
    2: { exists base, 0%nat, [], s. split_and!; [by apply radix_given|done..]. }
    destruct s as [|c s].
    { exists 10, 0%nat, [], []. split_and!; [by apply radix_decimal|done..]. }
    destruct (decide (c = 48)) as [->|].
    + exists 8, 1%nat, [48], s. split_and!; [|done..]. constructor.
      intros x s' ->. by eapply Hx.
    + exists 10, 0%nat, [], (c :: s). split_and!; [|done..]. constructor. by intros s' [= -> _].
Qed.

Lemma sign_exists s :
  ∃ sgn t, s = sgn ++ t ∧ (sgn = [] ∨ sgn = [43] ∨ sgn = [45]) ∧
           (sgn = [] → stops (λ c, c = 43 ∨ c = 45) t).
Proof.
  destruct s as [|c s]; [by exists [], []; split_and!; auto|].
  destruct (decide (c = 43 ∨ c = 45)) as [Hc|Hc].
  - exists [c], s. split_and!; [done| |done]. destruct Hc as [->| ->]; auto.
  - exists [], (c :: s). split_and!; auto.
Qed.

Lemma number_text_exists base s :
  ∃ b k ws sgn pfx ds rest,
    number_text base b k ws sgn pfx ds rest ∧ s = ws ++ sgn ++ pfx ++ ds ++ rest.
Proof.
  destruct (span_exists (λ c, table_space c = true) s) as (ws & s1 & -> & Hws & Hs1).
  destruct (sign_exists s1) as (sgn & s2 & -> & Hsgn & Hnosgn).
  destruct (radix_exists base s2) as (b & k & pfx & s3 & Hrad & -> & Hk).
  destruct (span_exists (is_digit_of b) s3) as (ds & rest & -> & Hds & Hrest).
  exists b, k, ws, sgn, pfx, ds, rest. split; [|done]. constructor; try done.
  intros ->. specialize (Hnosgn eq_refl). simpl in Hs1.
  destruct (pfx ++ ds ++ rest); simpl in *; tauto.
Qed.

Lemma digits_value_bound b ds :
  1 ≤ b → Forall (is_digit_of b) ds → 0 ≤ digits_value b ds < b ^ Z.of_nat (length ds).
Proof.
  intros Hb. induction ds as [|c ds IH] using rev_ind; intros H; [cbn; lia|].
  apply Forall_app in H as [H Hc]. apply Forall_singleton in Hc as [Hc1 Hc2].
  rewrite digits_value_snoc, length_app. cbn [length].
  replace (Z.of_nat (length ds + 1)) with (Z.succ (Z.of_nat (length ds))) by lia.
  rewrite Z.pow_succ_r by lia. specialize (IH H). nia.
Qed.
End decomposition.

(** The signed value the text denotes. *)
Definition signed_value (b : Z) (sgn ds : list Z) : Z :=
  if bool_decide (sgn = [45]) then - digits_value b ds else digits_value b ds.

Lemma s64_u64 x : s64 (u64 x) = s64 x.
Proof. unfold sext, wrap. by rewrite Zplus_mod_idemp_l. Qed.

Lemma s32_u64 x : s32 (u64 x) = s32 x.
Proof.
  unfold sext, wrap. f_equal.
  rewrite <-(Zplus_mod_idemp_l (x mod _)), <-(Zplus_mod_idemp_l x).
  rewrite Z.mod_mod_divide; [done|]. by exists (2 ^ 32).
Qed.

(** ** Theorems *)

Section theorems.
Implicit Types (m : mem) (s ds ws : list Z).

(** C31: strntoumax is total on every string, base and limit: the part of the
    string within the limit splits into blanks (as isspace has them), sign, radix
    prefix, digits and rest; the result is the value of the digits in the selected
    base, negated if signed, modulo 2^64; the end pointer is just after the last
    digit; the memory is unchanged. *)
Theorem strntoumax_value m p s base n :
  cstr m p s → 0 ≤ n →
  (∃ b k ws sgn pfx ds rest,
     number_text base b k ws sgn pfx ds rest ∧
     take (Z.to_nat n) s = ws ++ sgn ++ pfx ++ ds ++ rest) ∧
  ∀ b k ws sgn pfx ds rest,
    number_text base b k ws sgn pfx ds rest →
    take (Z.to_nat n) s = ws ++ sgn ++ pfx ++ ds ++ rest →
    strntoumax p base n m =
    Ret (u64 (signed_value b sgn ds), p + Z.of_nat (length (ws ++ sgn ++ pfx ++ ds))) m.
Proof.
  intros Hs Hn. split; [apply number_text_exists|].
  intros b k ws sgn pfx ds rest Hnt E. apply (run_strntoumax _ _ _ _ k _ _ _ _ rest); [done|].
  rewrite <-E. by apply cstr_text.
Qed.
Lemma strntoumax_value_witness :
  strntoumax 100 0 50 (write_bytes ∅ 100 [32; 45; 48; 120; 49; 70; 103; 0]) =
  Ret (2 ^ 64 - 31, 106) (write_bytes ∅ 100 [32; 45; 48; 120; 49; 70; 103; 0]).
Proof.
  refine (proj2 (strntoumax_value _ 100 [32; 45; 48; 120; 49; 70; 103] 0 50 _ _)
            16 2%nat [32] [45] [48; 120] [49; 70] [103] _ _);
    [by_decide|lia| |reflexivity].
  split; [by repeat constructor|auto|done|by constructor; auto|done| |].
  - repeat constructor; vm_compute; congruence.
  - vm_compute. intros []; congruence.
Defined.

(** Strtol, strtoul and atoi return the number written in the string
    whenever it fits their type: the signed value in base 10, 8 or 16 as the
    base argument and the prefix select it, with the end pointer after the last
    digit. *)
Theorem strtol_exact m p base b k ws sgn pfx ds rest :
  cstr m p (ws ++ sgn ++ pfx ++ ds ++ rest) →
  Z.of_nat (length (ws ++ sgn ++ pfx ++ ds ++ rest)) ≤ ULONG_MAX →
  number_text base b k ws sgn pfx ds rest →
  let v := signed_value b sgn ds in
  let e := p + Z.of_nat (length (ws ++ sgn ++ pfx ++ ds)) in
  (- 2 ^ 63 ≤ v < 2 ^ 63 → strtol p base m = Ret (v, e) m) ∧
  (0 ≤ v < 2 ^ 64 → strtoul p base m = Ret (v, e) m) ∧
  (base = 10 → - 2 ^ 31 ≤ v < 2 ^ 31 → atoi p m = Ret v m).
Proof.
  intros Hs Hlen Hnt v e.
  assert (∀ n, n = ULONG_MAX → strntoumax p base n m = Ret (u64 v, e) m) as Hrun.
  { intros n ->. by eapply run_strntoumax; [|apply cstr_text_all]. }
  unfold strtol, strtoul, atoi, strtox, atox. split_and!; [intros Hv|intros Hv|intros -> Hv];
    rewrite run_bind, Hrun by done; cbn beta iota; rewrite run_ret.
  - by rewrite s64_u64, sext_small by lia.
  - by rewrite wrap_wrap, wrap_small by lia.
  - by rewrite s32_u64, sext_small by lia.
Qed.

Lemma strtol_exact_witness :
  atoi 100 (write_bytes ∅ 100 [45; 52; 50; 0]) =
  Ret (-42) (write_bytes ∅ 100 [45; 52; 50; 0]).
Proof.
  refine (proj2 (proj2 (strtol_exact _ 100 10 10 0 [] [45] [] [52; 50] [] _ _ _)) _ _);
    [by_decide|vm_compute; congruence| |reflexivity|vm_compute; split; congruence].
  split; [done|auto|done|by constructor|done| |done].
  repeat constructor; vm_compute; congruence.
Defined.

(** The fraction of [strtotimex]: the digits the limit leaves, then the rest. *)
Lemma run_skip_digits m p ds rest fuel :
  cstr m p (ds ++ rest) → Forall (λ c, latin1_digit c = true) ds →
  stops (λ c, latin1_digit c = true) rest → (length ds < fuel)%nat →
  loop fuel (λ q : Z, c ← loadc q; if isdigit c =? 0 then Break q else Next (q + 1)) p m =
  Ret (p + Z.of_nat (length ds)) m.
Proof.
  intros Hs Hds Hstop. revert p fuel Hs.
  induction Hds as [|c ds Hc Hds IH]; intros p [|fuel] Hs Hf; try (simpl in *; lia);
    rewrite run_loop; cbn beta iota.
  - simpl in *. rewrite Z.add_0_r. destruct rest as [|r rest].
    + apply cstr_nil in Hs. by crun.
    + apply cstr_cons in Hs as (Hr & ? & _). crun. rewrite isdigit_s8 by auto.
      destruct (latin1_digit r) eqn:E; [by destruct Hstop|]. by crun.
  - simpl app in Hs. apply cstr_cons in Hs as (Hp & ? & Hs). crun.
    rewrite isdigit_s8, Hc by auto. change (cbool true =? 0) with false. cbn iota. crun.
    rewrite IH by (done || simpl in *; lia).
    f_equal. simpl. lia.
Qed.

Lemma run_scale m decimals k v fuel :
  0 ≤ v → v * 10 ^ (decimals - k) < 2 ^ 63 → k ≤ decimals →
  (Z.to_nat (decimals - k) < fuel)%nat →
  loop fuel (λ '(n, fs),
      if n <? decimals then Next (n + 1, s64 (fs * 10)) else Break fs) (k, v) m =
  Ret (v * 10 ^ (decimals - k)) m.
Proof.
  revert k v. induction fuel as [|fuel IH]; intros k v Hv Hmax Hk Hf; [lia|].
  rewrite run_loop; cbn beta iota. destruct (Z.ltb_spec k decimals) as [Hlt|Hge].
  - crun. assert (10 ^ (decimals - k) = 10 * 10 ^ (decimals - (k + 1))) as E.
    { rewrite <-Z.pow_succ_r by lia. f_equal. lia. }
    assert (0 < 10 ^ (decimals - (k + 1))) by (apply Z.pow_pos_nonneg; lia).
    rewrite sext_small by nia. rewrite IH by nia. f_equal. nia.
  - crun. replace (decimals - k) with 0 by lia. f_equal. lia.
Qed.

Lemma digit_of_10 c : is_byte c → is_digit_of 10 c ↔ latin1_digit c = true.
Proof.
  intros Hc. unfold is_digit_of.
  assert ((0 <=? digitval c) && (digitval c <? 10) = latin1_digit c) as <-.
  { apply eqb_prop. by apply (byte_forall (λ c,
      Bool.eqb ((0 <=? digitval c) && (digitval c <? 10)) (latin1_digit c))); [vm_compute|]. }
  rewrite andb_true_iff, Z.leb_le, Z.ltb_lt. done.
Qed.

Lemma digit_not_start c : is_byte c → latin1_digit c = true →
  ¬ (table_space c = true ∨ c = 43 ∨ c = 45).
Proof.
  intros Hc Hd.
  assert (negb (latin1_digit c) || negb (table_space c || (c =? 43) || (c =? 45)) = true) as H.
  { by apply (byte_forall (λ c, negb (latin1_digit c) ||
      negb (table_space c || (c =? 43) || (c =? 45)))); [vm_compute|]. }
  rewrite Hd in H. simpl in H. apply negb_true_iff in H.
  rewrite !orb_false_iff, !Z.eqb_neq in H. intuition congruence.
Qed.

Lemma stops_take P k (l : list Z) : stops P l → stops P (take k l).
Proof. by destruct l, k. Qed.

Lemma fraction_text fr rest k :
  Forall (λ b, 0 < b < 256) fr → Forall (is_digit_of 10) fr →
  stops (is_digit_of 10) rest → fr ≠ [] → (0 < k)%nat →
  number_text 10 10 0 [] [] [] (take k fr) (take (k - length fr) rest).
Proof.
  intros Hb Hfr Hrest Hne Hk. split; try done; [auto| | |by apply Forall_take|by apply stops_take].
  - intros _. destruct fr as [|c fr]; [done|]. destruct k as [|k]; [lia|]. simpl.
    apply Forall_cons in Hb as [Hb _]. apply Forall_cons in Hfr as [Hc _].
    apply digit_not_start; [auto|]. by apply digit_of_10; [auto|].
  - by apply radix_given.
Qed.

(** The digits past the limit are skipped. *)
Lemma run_skip_rest m q fr rest k :
  cstr m q (fr ++ rest) → Forall (is_digit_of 10) fr → stops (is_digit_of 10) rest →
  loop (S (size m))
    (λ q : Z, c ← loadc q; if isdigit c =? 0 then Break q else Next (q + 1))
    (q + Z.of_nat (length (take k fr))) m = Ret (q + Z.of_nat (length fr)) m.
Proof.
  intros Hs Hfr Hrest. apply cstr_size in Hs as Hsz.
  assert (Forall (λ b, 0 < b < 256) (fr ++ rest)) as Hb by apply Hs.
  rewrite <-(take_drop k fr), <-app_assoc in Hs. apply cstr_app in Hs as (_ & _ & Hs).
  apply Forall_app in Hb as [Hb Hbr].
  assert (length fr = length (take k fr) + length (drop k fr))%nat as Hl
    by (by rewrite <-length_app, take_drop).
  rewrite length_app in Hsz.
  rewrite (run_skip_digits _ _ _ _ _ Hs); [f_equal; lia| | |lia].
  - apply Forall_drop. apply Forall_forall. intros c Hc. rewrite Forall_forall in Hb, Hfr.
    apply digit_of_10; auto.
  - destruct rest as [|c rest]; [done|]. apply Forall_cons in Hbr as [Hc _]. simpl in *.
    intros H. apply Hrest. by apply digit_of_10; [auto|].
Qed.

(** Strtotimespec and strtotimeval ([decimals] 9 and 6) read a decimal
    fraction exactly: the seconds, then the first [decimals] digits after the
    point scaled to the unit whatever their number, further digits skipped; the
    pointer returned is after the last digit. *)
Theorem strtotimex_exact m p decimals ws sgn ds fr rest :
  cstr m p (ws ++ sgn ++ ds ++ 46 :: fr ++ rest) →
  Z.of_nat (length (ws ++ sgn ++ ds ++ 46 :: fr ++ rest)) ≤ ULONG_MAX →
  number_text 10 10 0 ws sgn [] ds (46 :: fr ++ rest) →
  - 2 ^ 63 ≤ signed_value 10 sgn ds < 2 ^ 63 →
  fr ≠ [] → Forall (is_digit_of 10) fr → stops (is_digit_of 10) rest →
  1 ≤ decimals ≤ 18 →
  let kept := take (Z.to_nat decimals) fr in
  let fs := digits_value 10 kept * 10 ^ (decimals - Z.of_nat (length kept)) in
  0 ≤ fs < 10 ^ decimals ∧
  strtotimex decimals p m =
  Ret ({| tv_sec := signed_value 10 sgn ds; tv_fsec := fs |},
       p + Z.of_nat (length (ws ++ sgn ++ ds ++ 46 :: fr))) m.
Proof.
  intros Hs Hlen Hnt Hv Hne Hfr Hrest Hdec kept fs.
  assert (Forall (is_digit_of 10) kept) as Hkept by (by apply Forall_take).
  assert (0 ≤ digits_value 10 kept < 10 ^ Z.of_nat (length kept)) as Hkv
    by (by apply digits_value_bound).
  assert (Z.of_nat (length kept) ≤ decimals) as Hkl
    by (unfold kept; rewrite length_take; lia).
  assert (0 < 10 ^ (decimals - Z.of_nat (length kept))) by (apply Z.pow_pos_nonneg; lia).
  assert (10 ^ decimals = 10 ^ Z.of_nat (length kept) * 10 ^ (decimals - Z.of_nat (length kept)))
    as E10 by (rewrite <-Z.pow_add_r by lia; f_equal; lia).
  assert (10 ^ decimals ≤ 10 ^ 18) by (apply Z.pow_le_mono_r; lia).
  assert (0 ≤ fs < 10 ^ decimals) as Hfs by (unfold fs; nia). split; [done|].
  unfold strtotimex.
  rewrite run_bind, (run_strntoumax _ _ _ _ _ _ _ _ _ _ _ Hnt) by (by apply cstr_text_all).
  cbn beta iota. change ([] ++ ds) with ds.
  rewrite !(app_assoc _ _ (46 :: _)), app_assoc in Hs. rewrite <-(app_assoc ws sgn ds) in Hs.
  apply cstr_app in Hs as (_ & _ & Hs). set (q := p + Z.of_nat (length (ws ++ sgn ++ ds))) in *.
  apply cstr_cons in Hs as (Hq & _ & Hs). rewrite run_bind, (run_loadc _ _ _ Hq).
  change (s8 46 =? 46) with true. cbn beta iota zeta.
  assert (Forall (λ b, 0 < b < 256) fr) as Hbytes by (by apply cstr_app in Hs as (_ & ? & _)).
  rewrite (run_bind (strntoumax (q + 1) 10 decimals)).
  rewrite (run_strntoumax _ _ _ _ _ _ _ _ _ _ _
             (fraction_text fr rest (Z.to_nat decimals) Hbytes Hfr Hrest Hne ltac:(lia))).
  2: { simpl app. rewrite <-take_app. apply cstr_text; [done|lia]. }
  cbn beta iota. simpl app. fold kept. rewrite run_bind, run_scan_fuel.
  unfold kept at 1. rewrite (run_skip_rest m (q + 1) fr rest) by done. cbn beta iota.
  assert (number_value 10 [] kept = digits_value 10 kept) as ->.
  { unfold number_value. rewrite bool_decide_eq_false_2 by done. apply wrap_small. nia. }
  rewrite (sext_small 64 (digits_value _ _)) by nia.
  replace (q + 1 + Z.of_nat (length kept) - (q + 1)) with (Z.of_nat (length kept)) by lia.
  rewrite run_bind, run_scale by (fold fs; lia). cbn beta iota. rewrite run_ret.
  unfold number_value. fold (signed_value 10 sgn ds).
  rewrite s64_u64, sext_small by lia. unfold q. rewrite !length_app. cbn [length].
  do 2 f_equal. lia.
Qed.

Lemma strtotimex_exact_witness :
  strtotimex 6 100 (write_bytes ∅ 100 [51; 46; 48; 53; 0]) =
  Ret ({| tv_sec := 3; tv_fsec := 50000 |}, 104) (write_bytes ∅ 100 [51; 46; 48; 53; 0]).
Proof.
  refine (proj2 (strtotimex_exact _ 100 6 [] [] [51] [48; 53] [] _ _ _ _ _ _ _ _));
    [by_decide|vm_compute; congruence| |vm_compute; split; congruence|done| |done|lia].
  - split; [done|auto| |by constructor|done| |].
    + intros _. vm_compute. intros [?|[?|?]]; congruence.
    + repeat constructor; vm_compute; congruence.
    + vm_compute. intros []; congruence.
  - repeat constructor; vm_compute; congruence.
Defined.
End theorems.
