(* ===== verification/LibGcc.v ===== *)
(** * Compiler support: [libgcc/]

    Division, remainder, shifts and leading zeros of 32- and 64-bit integers
    in terms of narrower operations.  The 32- and 64-bit sources are the same
    text at two widths, so the definitions take the width [w].  The state is
    the list of signals raised ([__divide_error] raises SIGFPE); a shift by the
    width or more, a signed overflow and the use of an unset variable are
    [UB]. *)

From stdpp Require Import base tactics numbers list gmap.
From S2P Require Import Prelude.

Open Scope Z_scope.

Definition SIGFPE : Z := 8.

Abbreviation signals := (list Z).

Definition raise (sig : Z) : C signals unit := modify (λ l, l ++ [sig]).

Definition __divide_error : C signals unit := raise SIGFPE.

(** ** The operations *)

(** The quotient and what is stored through [rem_p], if anything is. *)
Definition udivmod (w num den : Z) : C signals (Z * option Z) :=
  if den =? 0 then
    __divide_error;; mret (0, None)
  else
  (* left-justify the denominator and count the shift *)
  '(den, qbit) ← loop (Z.to_nat w) (λ '(den, qbit),
    if 0 <=? sext w den
    then Next (wrap w (Z.shiftl den 1), wrap w (Z.shiftl qbit 1))
    else Break (den, qbit)) (den, 1);
  '(num, quot) ← loop (S (Z.to_nat w)) (λ '(num, den, quot, qbit),
    if qbit =? 0 then Break (num, quot) else
    let '(num, quot) :=
      if den <=? num then (wrap w (num - den), wrap w (quot + qbit)) else (num, quot) in
    Next (num, Z.shiftr den 1, quot, Z.shiftr qbit 1)) (num, den, 0, qbit);
  mret (quot, Some num).

Definition __udivmoddi4 : Z → Z → C signals (Z * option Z) := udivmod 64.
Definition __udivmodsi4 : Z → Z → C signals (Z * option Z) := udivmod 32.

Definition __udivdi3 (num den : Z) : C signals Z :=
  '(q, _) ← __udivmoddi4 num den; mret q.
Definition __udivsi3 (num den : Z) : C signals Z :=
  '(q, _) ← __udivmodsi4 num den; mret q.

(** The value of a variable that may not have been set. *)
Definition use {S} (v : option Z) : C S Z :=
  match v with Some x => mret x | None => undef end.

Definition __umoddi3 (num den : Z) : C signals Z :=
  '(_, r) ← __udivmoddi4 num den; use r.
Definition __umodsi3 (num den : Z) : C signals Z :=
  '(_, r) ← __udivmodsi4 num den; use r.

(** Negation of a signed [w]-bit integer. *)
Definition neg (w x : Z) : C signals Z :=
  if x =? - 2 ^ (w - 1) then undef else mret (- x).

Definition abs_sign (w num den : Z) : C signals (Z * Z * bool) :=
  num' ← (if num <? 0 then neg w num else mret num);
  den' ← (if den <? 0 then neg w den else mret den);
  mret (num', den', xorb (num <? 0) (den <? 0)).

Definition signed_div (w num den : Z) : C signals Z :=
  '(num, den, minus) ← abs_sign w num den;
  '(q, _) ← udivmod w (wrap w num) (wrap w den);
  let v := sext w q in
  if minus : bool then neg w v else mret v.

Definition signed_mod (w num den : Z) : C signals Z :=
  '(num, den, minus) ← abs_sign w num den;
  '(_, r) ← udivmod w (wrap w num) (wrap w den);
  r ← use r;
  let v := sext w r in
  if minus : bool then neg w v else mret v.

Definition __divdi3 : Z → Z → C signals Z := signed_div 64.
Definition __divsi3 : Z → Z → C signals Z := signed_div 32.
Definition __moddi3 : Z → Z → C signals Z := signed_mod 64.
Definition __modsi3 : Z → Z → C signals Z := signed_mod 32.

(** 32-bit shifts. *)
Definition shl32 (x c : Z) : C signals Z :=
  if (0 <=? c) && (c <? 32) then mret (u32 (Z.shiftl x c)) else undef.
Definition shr32 (x c : Z) : C signals Z :=
  if (0 <=? c) && (c <? 32) then mret (Z.shiftr x c) else undef.

Definition __ashldi3 (v cnt : Z) : C signals Z :=
  let c := Z.land cnt 31 in
  let vl := u32 v in
  let vh := u32 (Z.shiftr v 32) in
  '(vh, vl) ←
    (if negb (Z.land cnt 32 =? 0) then
       vh ← shl32 vl c; mret (vh, 0)
     else
       a ← shl32 vh c; b ← shr32 vl (32 - c);
       l ← shl32 vl c;
       mret (u32 (a + b), l));
  mret (u64 (u64 (Z.shiftl vh 32) + vl)).

Definition __ashrdi3 (v cnt : Z) : C signals Z :=
  let c := Z.land cnt 31 in
  let vl := u32 v in
  let vh := u32 (Z.shiftr v 32) in
  '(vh, vl) ←
    (if negb (Z.land cnt 32 =? 0) then
       l ← shr32 (s32 vh) c; h ← shr32 (s32 vh) 31; mret (u32 h, u32 l)
     else
       a ← shr32 vl c; b ← shl32 vh (32 - c);
       h ← shr32 (s32 vh) c;
       mret (u32 h, u32 (a + b)));
  mret (u64 (u64 (Z.shiftl vh 32) + vl)).

Definition __lshrdi3 (v cnt : Z) : C signals Z :=
  let c := Z.land cnt 31 in
  let vl := u32 v in
  let vh := u32 (Z.shiftr v 32) in
  '(vh, vl) ←
    (if negb (Z.land cnt 32 =? 0) then
       l ← shr32 vh c; mret (0, l)
     else
       a ← shr32 vl c; b ← shl32 vh (32 - c);
       h ← shr32 vh c;
       mret (h, u32 (a + b)));
  mret (u64 (u64 (Z.shiftl vh 32) + vl)).

Definition __clzsi2 (v : Z) : Z :=
  let step '(p, v) '(mask, k) :=
    if Z.land v mask =? 0 then (p, v) else (p - k, Z.shiftr v k) in
  let '(p, _) :=
    step (step (step (step (step (31, v) (4294901760, 16)) (65280, 8)) (240, 4)) (12, 2))
      (2, 1) in
  p.

(** ** Unsigned division *)

Section udivmod.
Implicit Types s : signals.

Lemma pow2_double w : 1 ≤ w → 2 ^ w = 2 * 2 ^ (w - 1).
Proof. intros. rewrite <-Z.pow_succ_r by lia. f_equal. lia. Qed.

Lemma shiftr_double x : Z.shiftr (2 * x) 1 = x.
Proof. rewrite Z.shiftr_div_pow2, Z.pow_1_r, Z.mul_comm by lia. by apply Z.div_mul. Qed.

(** A value is non-negative as a signed integer iff its top bit is clear. *)
Lemma sext_nonneg w x :
  1 ≤ w → 0 ≤ x < 2 ^ w → (0 <=? sext w x) = (x <? 2 ^ (w - 1)).
Proof.
  intros Hw Hx. pose proof (pow2_double w Hw) as E. unfold sext.
  destruct (Z.ltb_spec x (2 ^ (w - 1))).
  - rewrite Z.mod_small by lia. apply Z.leb_le. lia.
  - rewrite <-(Z_mod_plus_full _ (-1)), Z.mod_small by lia. apply Z.leb_gt. lia.
Qed.

Lemma run_justify s w den k n :
  1 ≤ w → 0 < den → 0 ≤ k → den * 2 ^ k < 2 ^ w →
  2 ^ (w - 1) ≤ den * 2 ^ (k + Z.of_nat n) →
  ∃ j, 0 ≤ j ∧ 2 ^ (w - 1) ≤ den * 2 ^ j < 2 ^ w ∧
  loop (S n) (λ '(den, qbit),
    if 0 <=? sext w den
    then Next (wrap w (Z.shiftl den 1), wrap w (Z.shiftl qbit 1))
    else Break (den, qbit)) (den * 2 ^ k, 2 ^ k) s = Ret (den * 2 ^ j, 2 ^ j) s.
Proof.
  intros Hw Hden. revert k. induction n as [|n IH]; intros k Hk Hlt Hn.
  - rewrite Z.add_0_r in Hn. exists k. split_and!; [done..|].
    rewrite run_loop. cbn beta iota. rewrite sext_nonneg by (done || lia).
    ctest. by crun.
  - destruct (Z.ltb_spec (den * 2 ^ k) (2 ^ (w - 1))) as [Hsmall|Hbig].
    + pose proof (pow2_double w Hw) as E.
      assert (2 ^ (k + 1) = 2 * 2 ^ k) as Ek
        by (rewrite <-Z.pow_succ_r by lia; f_equal; lia).
      assert (0 < 2 ^ k) by (apply Z.pow_pos_nonneg; lia).
      destruct (IH (k + 1)) as (j & Hj & Hjr & Hrun); [lia|nia|by rewrite <-Z.add_assoc; replace (1 + Z.of_nat n) with (Z.of_nat (S n)) by lia|].
      exists j. split_and!; try done; try lia.
      rewrite run_loop. cbn beta iota. rewrite sext_nonneg by (done || lia).
      ctest. crun. rewrite !Z.shiftl_mul_pow2, Z.pow_1_r by lia.
      rewrite (wrap_small w (_ * _ * 2)) by nia. rewrite (wrap_small w (2 ^ k * 2)) by nia.
      rewrite <-Hrun, Ek. f_equal. f_equal; lia.
    + exists k. split_and!; try done.
      rewrite run_loop. cbn beta iota. rewrite sext_nonneg by (done || lia).
      ctest. by crun.
Qed.

(** The subtraction rounds for the bits [n] down to 0. *)
Lemma run_subtract s w den num n quot :
  0 < den → 0 ≤ num < den * 2 ^ Z.of_nat n → 0 ≤ quot →
  quot * den + num < 2 ^ w →
  loop (S n) (λ '(num, den, quot, qbit),
    if qbit =? 0 then Break (num, quot) else
    let '(num, quot) :=
      if den <=? num then (wrap w (num - den), wrap w (quot + qbit)) else (num, quot) in
    Next (num, Z.shiftr den 1, quot, Z.shiftr qbit 1))
    (num, Z.shiftr (den * 2 ^ Z.of_nat n) 1, quot, Z.shiftr (2 ^ Z.of_nat n) 1) s =
  Ret (num mod den, quot + num / den) s.
Proof.
  intros Hden. revert num quot. induction n as [|n IH]; intros num quot Hnum Hq Hmax;
    rewrite run_loop; cbn beta iota.
  - cbn in Hnum. change (Z.shiftr (2 ^ Z.of_nat 0) 1 =? 0) with true. cbn iota. crun.
    rewrite Z.mod_small, Z.div_small by lia. by rewrite Z.add_0_r.
  - assert (2 ^ Z.of_nat (S n) = 2 * 2 ^ Z.of_nat n) as E
      by (rewrite <-Z.pow_succ_r by lia; f_equal; lia).
    rewrite E in Hnum |- *.
    assert (0 < 2 ^ Z.of_nat n) by (apply Z.pow_pos_nonneg; lia).
    replace (den * (2 * 2 ^ Z.of_nat n)) with (2 * (den * 2 ^ Z.of_nat n)) by lia.
    rewrite !shiftr_double. ctest.
    destruct (Z.leb_spec (den * 2 ^ Z.of_nat n) num) as [Hle|Hgt]; cbn beta iota zeta; crun.
    + rewrite (wrap_small w (num - _)), (wrap_small w (quot + _)) by nia.
      rewrite IH by nia.
      replace num with (num - den * 2 ^ Z.of_nat n + 2 ^ Z.of_nat n * den) at 3 4 by lia.
      rewrite Z_mod_plus_full, Z.div_add by lia. do 2 f_equal. lia.
    + by rewrite IH by nia.
Qed.

Lemma run_udivmod s w num den :
  1 ≤ w → 0 ≤ num < 2 ^ w → 0 < den < 2 ^ w →
  udivmod w num den s = Ret (num / den, Some (num mod den)) s.
Proof.
  intros Hw Hnum Hden. unfold udivmod. ctest.
  destruct (run_justify s w den 0 (Z.to_nat w - 1)) as (j & Hj & Hjr & Hrun); try lia.
  { rewrite Z.add_0_l. replace (Z.of_nat (Z.to_nat w - 1)) with (w - 1) by lia.
    assert (0 < 2 ^ (w - 1)) by (apply Z.pow_pos_nonneg; lia). nia. }
  replace (S (Z.to_nat w - 1)) with (Z.to_nat w) in Hrun by lia.
  rewrite Z.pow_0_r, Z.mul_1_r in Hrun. rewrite run_bind, Hrun. cbn beta iota.
  assert (j < w) as Hjw.
  { apply (Z.pow_lt_mono_r_iff 2); [lia..|]. nia. }
  pose proof (pow2_double w Hw) as E.
  pose proof (run_subtract s w den num (S (Z.to_nat j)) 0) as Hsub.
  assert (2 ^ Z.of_nat (S (Z.to_nat j)) = 2 * 2 ^ j) as E'.
  { rewrite <-Z.pow_succ_r by lia. f_equal. lia. }
  rewrite E' in Hsub. replace (den * (2 * 2 ^ j)) with (2 * (den * 2 ^ j)) in Hsub by lia.
  rewrite !shiftr_double in Hsub.
  rewrite run_bind. erewrite loop_more; [|shelve|apply Hsub; nia]. cbn beta iota. crun. done.
  Unshelve. lia.
Qed.
End udivmod.

(** ** Signed division *)

Section signed.
Implicit Types s : signals.

(** Both arguments are representable with their negation. *)
Definition symmetric (w x : Z) : Prop := - 2 ^ (w - 1) < x < 2 ^ (w - 1).

Lemma run_neg s w x : symmetric w x → neg w x s = Ret (- x) s.
Proof. intros [H _]. unfold neg. ctest. by crun. Qed.

Lemma run_abs_sign s w num den :
  symmetric w num → symmetric w den →
  abs_sign w num den s = Ret (Z.abs num, Z.abs den, xorb (num <? 0) (den <? 0)) s.
Proof.
  intros Hn Hd. unfold abs_sign.
  assert (∀ x, symmetric w x → (if x <? 0 then neg w x else mret x) s = Ret (Z.abs x) s) as H.
  { intros x Hx. destruct (Z.ltb_spec x 0); [rewrite run_neg by done|crun]; f_equal; lia. }
  by rewrite (run_bind_Ret _ _ _ _ _ (H num Hn)), (run_bind_Ret _ _ _ _ _ (H den Hd)).
Qed.

Lemma symmetric_abs w x :
  1 ≤ w → symmetric w x → 0 ≤ Z.abs x < 2 ^ (w - 1) ∧ 0 ≤ Z.abs x < 2 ^ w.
Proof. intros Hw [H1 H2]. pose proof (pow2_double w Hw). lia. Qed.

Lemma run_signed_div s w num den :
  1 ≤ w → symmetric w num → symmetric w den → den ≠ 0 →
  signed_div w num den s = Ret (Z.quot num den) s.
Proof.
  intros Hw Hn Hd Hne. unfold signed_div.
  rewrite (run_bind_Ret _ _ _ _ _ (run_abs_sign s w num den Hn Hd)). cbn beta iota.
  destruct (symmetric_abs w num Hw Hn) as [Hn1 Hn2].
  destruct (symmetric_abs w den Hw Hd) as [Hd1 Hd2].
  rewrite !wrap_small by done. rewrite run_bind, run_udivmod by (done || lia).
  cbn beta iota zeta.
  assert (0 ≤ Z.abs num / Z.abs den ≤ Z.abs num) as Hq.
  { split; [apply Z.div_pos; lia|]. apply Z.div_le_upper_bound; [lia|]. nia. }
  rewrite sext_small by lia.
  assert (Z.quot num den = if xorb (num <? 0) (den <? 0)
    then - (Z.abs num / Z.abs den) else Z.abs num / Z.abs den) as ->.
  { rewrite Z.quot_div by done.
    destruct (Z.ltb_spec num 0), (Z.ltb_spec den 0); simpl xorb; cbn iota;
      rewrite ?(Z.sgn_neg num), ?(Z.sgn_neg den), ?(Z.sgn_pos den) by lia; try lia;
      destruct (decide (num = 0)) as [->|]; rewrite ?(Z.sgn_pos num) by lia;
      rewrite ?Z.abs_0, ?Z.sgn_0, ?Z.div_0_l by lia; lia. }
  destruct (xorb _ _); [rewrite run_neg by (unfold symmetric; lia)|]; done.
Qed.

(** The remainder has the sign of the quotient. *)
Lemma run_signed_mod s w num den :
  1 ≤ w → symmetric w num → symmetric w den → den ≠ 0 →
  signed_mod w num den s =
  Ret (if den <? 0 then - Z.rem num den else Z.rem num den) s.
Proof.
  intros Hw Hn Hd Hne. unfold signed_mod.
  rewrite (run_bind_Ret _ _ _ _ _ (run_abs_sign s w num den Hn Hd)). cbn beta iota.
  destruct (symmetric_abs w num Hw Hn) as [Hn1 Hn2].
  destruct (symmetric_abs w den Hw Hd) as [Hd1 Hd2].
  rewrite !wrap_small by done. rewrite run_bind, run_udivmod by (done || lia).
  cbn beta iota zeta. unfold use. crun.
  pose proof (Z.mod_pos_bound (Z.abs num) (Z.abs den)) as Hr.
  rewrite sext_small by lia.
  assert (Z.rem num den =
    if num <? 0 then - (Z.abs num mod Z.abs den) else Z.abs num mod Z.abs den) as ->.
  { rewrite Z.rem_mod by done.
    destruct (Z.ltb_spec num 0); [rewrite Z.sgn_neg by lia; lia|].
    destruct (decide (num = 0)) as [->|]; [by rewrite Z.abs_0, Z.mod_0_l by lia|].
    rewrite Z.sgn_pos by lia. lia. }
  destruct (num <? 0), (den <? 0); cbn [xorb];
    rewrite ?run_neg by (unfold symmetric; lia); crun; f_equal; lia.
Qed.
End signed.

(** ** Shifts *)

Section shifts.
Implicit Types s : signals.

Lemma run_shl32 s x c : 0 ≤ c < 32 → shl32 x c s = Ret (u32 (x * 2 ^ c)) s.
Proof.
  intros Hc. unfold shl32. rewrite (proj2 (Z.leb_le 0 c)), (proj2 (Z.ltb_lt c 32)) by lia.
  by rewrite Z.shiftl_mul_pow2 by lia.
Qed.

Lemma run_shr32 s x c : 0 ≤ c < 32 → shr32 x c s = Ret (x / 2 ^ c) s.
Proof.
  intros Hc. unfold shr32. rewrite (proj2 (Z.leb_le 0 c)), (proj2 (Z.ltb_lt c 32)) by lia.
  by rewrite Z.shiftr_div_pow2 by lia.
Qed.

(** The count split in the two fields the routines test. *)
Lemma count_fields cnt :
  0 ≤ cnt < 64 →
  Z.land cnt 31 = (if cnt <? 32 then cnt else cnt - 32) ∧ (Z.land cnt 32 =? 0) = (cnt <? 32).
Proof.
  intros Hc.
  assert (forallb (λ c, (Z.land c 31 =? (if c <? 32 then c else c - 32)) &&
    Bool.eqb (Z.land c 32 =? 0) (c <? 32)) (seqZ 0 64) = true) as H by by vm_compute.
  rewrite forallb_forall in H. specialize (H cnt).
  rewrite andb_true_iff, Z.eqb_eq, eqb_true_iff in H. apply H.
  apply list_elem_of_In, elem_of_seqZ. lia.
Qed.

(** 2^32 as the product of the shift and its complement. *)
Lemma pow_split c : 0 ≤ c ≤ 32 → 2 ^ 32 = 2 ^ c * 2 ^ (32 - c).
Proof. intros. rewrite <-Z.pow_add_r by lia. f_equal. lia. Qed.

Lemma word_halves v :
  0 ≤ v < 2 ^ 64 →
  u32 (Z.shiftr v 32) = v / 2 ^ 32 ∧ 0 ≤ v / 2 ^ 32 < 2 ^ 32 ∧ 0 ≤ u32 v < 2 ^ 32 ∧
  v = v / 2 ^ 32 * 2 ^ 32 + u32 v.
Proof.
  intros Hv. rewrite Z.shiftr_div_pow2 by lia.
  assert (0 ≤ v / 2 ^ 32 < 2 ^ 32).
  { split; [apply Z.div_pos; lia|]. apply Z.div_lt_upper_bound; lia. }
  pose proof (wrap_range 32 v). pose proof (Z.div_mod v (2 ^ 32)).
  split_and!; try lia; [by apply wrap_small|]. unfold wrap. lia.
Qed.

(** The two halves of a value shifted right; [x] is the upper one. *)
Lemma shr_halves x l c :
  0 ≤ c ≤ 32 → 0 ≤ l < 2 ^ 32 →
  (x * 2 ^ 32 + l) / 2 ^ c =
    x / 2 ^ c * 2 ^ 32 + (l / 2 ^ c + u32 (x * 2 ^ (32 - c))) ∧
  0 ≤ l / 2 ^ c + u32 (x * 2 ^ (32 - c)) < 2 ^ 32.
Proof.
  intros Hc Hl. pose proof (pow_split c Hc) as E.
  assert (0 < 2 ^ c) as HK by (apply Z.pow_pos_nonneg; lia).
  assert (0 < 2 ^ (32 - c)) as HJ by (apply Z.pow_pos_nonneg; lia).
  set (K := 2 ^ c) in *. set (J := 2 ^ (32 - c)) in *.
  assert (u32 (x * J) = (x mod K) * J) as ->.
  { unfold wrap. rewrite E. by rewrite Z.mul_mod_distr_r by lia. }
  pose proof (Z.div_mod x K ltac:(lia)) as Ex. pose proof (Z.mod_pos_bound x K HK).
  pose proof (Z.div_mod l K ltac:(lia)) as El. pose proof (Z.mod_pos_bound l K HK).
  assert (0 ≤ l / K < J) by (split; [apply Z.div_pos; lia|apply Z.div_lt_upper_bound; lia]).
  split; [|nia]. rewrite E. symmetry. apply (Z.div_unique_pos _ _ _ (l mod K)); [lia|].
  rewrite El at 1. rewrite Ex at 1. ring.
Qed.

Lemma shl_halves h l c :
  0 ≤ c ≤ 32 → 0 ≤ h < 2 ^ 32 → 0 ≤ l < 2 ^ 32 →
  u64 ((h * 2 ^ 32 + l) * 2 ^ c) =
    (u32 (h * 2 ^ c) + l / 2 ^ (32 - c)) * 2 ^ 32 + u32 (l * 2 ^ c) ∧
  0 ≤ u32 (h * 2 ^ c) + l / 2 ^ (32 - c) < 2 ^ 32.
Proof.
  intros Hc Hh Hl. pose proof (pow_split c Hc) as E.
  assert (0 < 2 ^ c) as HK by (apply Z.pow_pos_nonneg; lia).
  assert (0 < 2 ^ (32 - c)) as HJ by (apply Z.pow_pos_nonneg; lia).
  set (K := 2 ^ c) in *. set (J := 2 ^ (32 - c)) in *.
  assert (∀ x, u32 (x * K) = (x mod J) * K) as EK.
  { intros x. unfold wrap. rewrite E, (Z.mul_comm K). by rewrite Z.mul_mod_distr_r by lia. }
  rewrite !EK.
  pose proof (Z.div_mod h J ltac:(lia)) as Eh. pose proof (Z.mod_pos_bound h J HJ).
  pose proof (Z.div_mod l J ltac:(lia)) as El. pose proof (Z.mod_pos_bound l J HJ).
  assert (0 ≤ l / J < K) by (split; [apply Z.div_pos; lia|apply Z.div_lt_upper_bound; lia]).
  split; [|nia]. unfold wrap. symmetry. apply (Z.mod_unique_pos _ _ (h / J)); [nia|].
  change (2 ^ 64) with (2 ^ 32 * 2 ^ 32). rewrite E.
  rewrite Eh at 1. rewrite El at 1. ring.
Qed.

Lemma join_halves h l :
  0 ≤ h < 2 ^ 32 → 0 ≤ l < 2 ^ 32 → u64 (u64 (Z.shiftl h 32) + l) = h * 2 ^ 32 + l.
Proof. intros Hh Hl. rewrite Z.shiftl_mul_pow2, (wrap_small 64 (_ * _)), wrap_small by lia. done. Qed.

Lemma u64_join h l : u64 (u64 (Z.shiftl (u32 h) 32) + l) = u64 (h * 2 ^ 32 + l).
Proof.
  rewrite Z.shiftl_mul_pow2 by lia. unfold wrap. rewrite Zplus_mod_idemp_l.
  rewrite <-(Zplus_mod_idemp_l (h * _)). rewrite <-(Zplus_mod_idemp_l (_ * _)).
  change (2 ^ 64) with (2 ^ 32 * 2 ^ 32). rewrite !Z.mul_mod_distr_r by lia.
  by rewrite Z.mod_mod by lia.
Qed.

(** Run the 32-bit shifts of the goal. *)
Ltac crun_shifts :=
  repeat (first [rewrite run_shl32 by lia|rewrite run_shr32 by lia]; crun).

Lemma run_ashldi3 s v cnt :
  0 < cnt < 64 → 0 ≤ v < 2 ^ 64 → __ashldi3 v cnt s = Ret (u64 (v * 2 ^ cnt)) s.
Proof.
  intros Hc Hv. unfold __ashldi3. destruct (count_fields cnt) as [-> ->]; [lia|].
  destruct (word_halves v Hv) as (-> & Hh & Hl & E). cbn zeta.
  destruct (Z.ltb_spec cnt 32); cbn [negb]; crun.
  - crun_shifts.
    destruct (shl_halves (v / 2 ^ 32) (u32 v) cnt) as [E1 Hr]; [lia..|].
    rewrite (wrap_small 32 (_ + _)) by done. rewrite join_halves by (done || by apply wrap_range).
    rewrite <-E in E1. by rewrite E1.
  - crun_shifts. rewrite join_halves by (lia || by apply wrap_range).
    assert (2 ^ cnt = 2 ^ (cnt - 32) * 2 ^ 32) as ->
      by (rewrite <-Z.pow_add_r by lia; f_equal; lia).
    rewrite E at 2. f_equal. rewrite Z.add_0_r. unfold wrap.
    replace ((v / 2 ^ 32 * 2 ^ 32 + v mod 2 ^ 32) * (2 ^ (cnt - 32) * 2 ^ 32))
      with (v mod 2 ^ 32 * 2 ^ (cnt - 32) * 2 ^ 32 + v / 2 ^ 32 * 2 ^ (cnt - 32) * 2 ^ 64) by ring.
    rewrite Z_mod_plus_full. change (2 ^ 64) with (2 ^ 32 * 2 ^ 32).
    by rewrite Z.mul_mod_distr_r by lia.
Qed.

Lemma run_lshrdi3 s v cnt :
  0 < cnt < 64 → 0 ≤ v < 2 ^ 64 → __lshrdi3 v cnt s = Ret (v / 2 ^ cnt) s.
Proof.
  intros Hc Hv. unfold __lshrdi3. destruct (count_fields cnt) as [-> ->]; [lia|].
  destruct (word_halves v Hv) as (-> & Hh & Hl & E). cbn zeta.
  assert (∀ c, 0 ≤ c → 0 ≤ v / 2 ^ 32 / 2 ^ c < 2 ^ 32) as Hq.
  { intros c Hc0. assert (0 < 2 ^ c) by (apply Z.pow_pos_nonneg; lia).
    split; [apply Z.div_pos; lia|]. apply Z.div_lt_upper_bound; nia. }
  destruct (Z.ltb_spec cnt 32); cbn [negb]; crun.
  - crun_shifts.
    destruct (shr_halves (v / 2 ^ 32) (u32 v) cnt) as [E1 Hr]; [lia..|].
    rewrite (wrap_small 32 (_ + _)) by done. rewrite join_halves by (done || by apply Hq; lia).
    rewrite <-E in E1. by rewrite E1.
  - crun_shifts. rewrite join_halves by (lia || by apply Hq; lia).
    rewrite Z.mul_0_l, Z.add_0_l, Z.div_div, <-Z.pow_add_r by (try apply Z.pow_pos_nonneg; lia).
    do 3 f_equal. lia.
Qed.

(** The signed value of a double word is that of its upper half, extended. *)
Lemma s64_halves v :
  0 ≤ v < 2 ^ 64 → s64 v = s32 (v / 2 ^ 32) * 2 ^ 32 + u32 v ∧
  - 2 ^ 31 ≤ s32 (v / 2 ^ 32) < 2 ^ 31.
Proof.
  intros Hv. destruct (word_halves v Hv) as (_ & Hh & Hl & E).
  split; [|by apply (sext_range 32)]. set (h := v / 2 ^ 32) in *. clearbody h.
  set (l := u32 v) in *. clearbody l. subst v. unfold sext.
  change (2 ^ (64 - 1)) with (2 ^ 31 * 2 ^ 32). change (32 - 1) with 31.
  replace (h * 2 ^ 32 + l + 2 ^ 31 * 2 ^ 32) with ((h + 2 ^ 31) * 2 ^ 32 + l) by ring.
  pose proof (Z.div_mod (h + 2 ^ 31) (2 ^ 32) ltac:(lia)) as D.
  pose proof (Z.mod_pos_bound (h + 2 ^ 31) (2 ^ 32) ltac:(lia)).
  rewrite <-(Z.mod_unique_pos ((h + 2 ^ 31) * 2 ^ 32 + l) (2 ^ 64) ((h + 2 ^ 31) / 2 ^ 32)
             ((h + 2 ^ 31) mod 2 ^ 32 * 2 ^ 32 + l)); lia.
Qed.

Lemma u32_s32_mul x k : u32 (s32 x * k) = u32 (x * k).
Proof.
  unfold wrap. rewrite <-Zmult_mod_idemp_l, <-(Zmult_mod_idemp_l x). do 2 f_equal.
  unfold sext. rewrite Zminus_mod_idemp_l. f_equal. lia.
Qed.

Lemma run_ashrdi3 s v cnt :
  0 < cnt < 64 → 0 ≤ v < 2 ^ 64 → __ashrdi3 v cnt s = Ret (u64 (s64 v / 2 ^ cnt)) s.
Proof.
  intros Hc Hv. unfold __ashrdi3. destruct (count_fields cnt) as [-> ->]; [lia|].
  destruct (s64_halves v Hv) as [E Hs].
  destruct (word_halves v Hv) as (-> & Hh & Hl & _). cbn zeta.
  destruct (Z.ltb_spec cnt 32); cbn [negb]; crun.
  - crun_shifts. destruct (shr_halves (s32 (v / 2 ^ 32)) (u32 v) cnt) as [E1 Hr]; [lia..|].
    rewrite u32_s32_mul in E1, Hr. rewrite <-E in E1.
    rewrite (wrap_small 32 (_ + _)) by done. by rewrite u64_join, E1.
  - crun_shifts. rewrite u64_join, E.
    assert (2 ^ cnt = 2 ^ 32 * 2 ^ (cnt - 32)) as ->
      by (rewrite <-Z.pow_add_r by lia; f_equal; lia).
    assert (0 < 2 ^ (cnt - 32)) by (apply Z.pow_pos_nonneg; lia).
    rewrite <-Z.div_div, Z.div_add_l, (Z.div_small (u32 v)), Z.add_0_r by lia.
    set (x := s32 (v / 2 ^ 32)) in *. set (y := x / 2 ^ (cnt - 32)).
    assert (- 2 ^ 31 ≤ y < 2 ^ 31).
    { split; [apply Z.div_le_lower_bound; nia|apply Z.div_lt_upper_bound; nia]. }
    assert (x / 2 ^ 31 = if x <? 0 then -1 else 0) as ->.
    { destruct (Z.ltb_spec x 0); [|apply Z.div_small; lia].
      symmetry. apply (Z.div_unique_pos _ _ _ (x + 2 ^ 31)); lia. }
    assert ((x <? 0) = (y <? 0)) as ->.
    { apply eq_true_iff_eq. rewrite !Z.ltb_lt. unfold y. split; intros.
      - apply Z.div_lt_upper_bound; lia.
      - destruct (Z.lt_ge_cases x 0); [done|]. pose proof (Z.div_pos x (2 ^ (cnt - 32))). lia. }
    unfold wrap. destruct (Z.ltb_spec y 0).
    + rewrite <-(Z_mod_plus_full y 1 (2 ^ 64)), <-(Z_mod_plus_full y 1 (2 ^ 32)).
      rewrite (Z.mod_small (y + 1 * 2 ^ 32)), (Z.mod_small (y + 1 * 2 ^ 64)) by lia.
      rewrite <-(Z_mod_plus_full _ 1), Z.mod_small by lia. f_equal. lia.
    + by rewrite (Z.mod_small y (2 ^ 32)) by lia.
Qed.

(** ** Leading zeros *)

Lemma clz_step v k mask :
  0 < k → 0 < v < 2 ^ (2 * k) → mask = Z.shiftl (Z.ones k) k →
  (Z.land v mask =? 0) = (v <? 2 ^ k) ∧
  (2 ^ k ≤ v → Z.log2 (Z.shiftr v k) = Z.log2 v - k ∧ 0 < Z.shiftr v k < 2 ^ k).
Proof.
  intros Hk Hv ->. replace (2 * k) with (k + k) in Hv by lia.
  rewrite Z.pow_add_r in Hv by lia.
  assert (0 < 2 ^ k) by (apply Z.pow_pos_nonneg; lia).
  assert (Z.land v (Z.shiftl (Z.ones k) k) = v / 2 ^ k * 2 ^ k) as ->.
  { rewrite <-(Z.shiftl_mul_pow2 _ k), <-Z.shiftr_div_pow2 by lia.
    apply Z.bits_inj'. intros i Hi. rewrite Z.land_spec, !Z.shiftl_spec by lia.
    destruct (Z.lt_ge_cases i k).
    - rewrite !(Z.testbit_neg_r _ (i - k)) by lia. apply andb_false_r.
    - rewrite Z.shiftr_spec by lia. replace (i - k + k) with i by lia.
      destruct (Z.lt_ge_cases i (k + k)).
      + rewrite Z.ones_spec_low by lia. apply andb_true_r.
      + rewrite (Z.bits_above_log2 v i); [done|lia|].
        apply Z.log2_lt_pow2; [lia|]. apply Z.lt_le_trans with (2 ^ (k + k)).
        * rewrite Z.pow_add_r by lia. lia.
        * apply Z.pow_le_mono_r; lia. }
  split.
  - apply eq_true_iff_eq. rewrite Z.eqb_eq, Z.ltb_lt.
    pose proof (Z.div_mod v (2 ^ k) ltac:(lia)). pose proof (Z.mod_pos_bound v (2 ^ k) ltac:(lia)).
    split; [lia|]. intros. by rewrite Z.div_small by lia.
  - intros Hle. rewrite Z.log2_shiftr by lia. rewrite Z.shiftr_div_pow2 by lia.
    assert (k ≤ Z.log2 v) by (apply Z.log2_le_pow2; lia). split; [lia|].
    split; [apply Z.div_str_pos; lia|apply Z.div_lt_upper_bound; lia].
Qed.

Lemma clz_round p v k mask :
  0 < k → 0 < v < 2 ^ (2 * k) → mask = Z.shiftl (Z.ones k) k →
  ∃ p' v', (if Z.land v mask =? 0 then (p, v) else (p - k, Z.shiftr v k)) = (p', v') ∧
           p - Z.log2 v = p' - Z.log2 v' ∧ 0 < v' < 2 ^ k.
Proof.
  intros Hk Hv Hm. destruct (clz_step v k mask Hk Hv Hm) as [-> Hbig].
  destruct (Z.ltb_spec v (2 ^ k)) as [|Hle]; do 2 eexists; (split; [done|]); [lia|].
  destruct (Hbig Hle). lia.
Qed.
End shifts.

(** ** Theorems *)

Section theorems.
Implicit Types s : signals.

(** The shift-and-subtract division of [__udivmoddi4] and [__udivmodsi4]
    (width 64 and 32) terminates and returns the quotient and the remainder for
    every non-zero denominator, and raises SIGFPE and returns 0 for zero. *)
Theorem udivmod_correct s w num den :
  1 ≤ w → 0 ≤ num < 2 ^ w → 0 ≤ den < 2 ^ w →
  udivmod w num den s =
  if bool_decide (den = 0) then Ret (0, None) (s ++ [SIGFPE])
  else Ret (num / den, Some (num mod den)) s.
Proof.
  intros Hw Hn Hd. case_bool_decide as E; [by subst|].
  apply run_udivmod; [done..|lia].
Qed.

Lemma udivmod_correct_witness :
  __udivmoddi4 (2 ^ 64 - 1) 10 [] = Ret ((2 ^ 64 - 1) / 10, Some 5) [].
Proof. apply (udivmod_correct [] 64 (2 ^ 64 - 1) 10); lia. Defined.

(** Signed division truncates toward zero, as C requires; the remainder of
    [__moddi3] and [__modsi3] is the C remainder exactly when the denominator
    is positive or the remainder is 0, and has the opposite sign otherwise. *)
Theorem signed_division s w num den :
  1 ≤ w → symmetric w num → symmetric w den → den ≠ 0 →
  signed_div w num den s = Ret (Z.quot num den) s ∧
  (signed_mod w num den s = Ret (Z.rem num den) s ↔ 0 < den ∨ Z.rem num den = 0) ∧
  (den < 0 → signed_mod w num den s = Ret (- Z.rem num den) s).
Proof.
  intros Hw Hn Hd Hne. split; [by apply run_signed_div|].
  rewrite run_signed_mod by done. split.
  - destruct (Z.ltb_spec den 0); (split; [intros [=]|intros []]); try (f_equal; lia); lia.
  - intros. by ctest.
Qed.

Lemma signed_division_witness :
  __divdi3 (-7) 2 [] = Ret (-3) [] ∧ __moddi3 7 (-2) [] = Ret (-1) [] ∧ Z.rem 7 (-2) = 1.
Proof.
  split_and!.
  - apply (signed_division [] 64 (-7) 2); [lia|unfold symmetric; lia..|lia].
  - apply (signed_division [] 64 7 (-2)); [lia|unfold symmetric; lia..|lia|lia].
  - reflexivity.
Defined.

(** The double-word shifts compute the C shifts for every count from 1 to
    63, and execute an undefined 32-bit shift by 32 for the count 0. *)
Theorem shifts_correct s v cnt :
  0 ≤ v < 2 ^ 64 →
  (0 < cnt < 64 →
     __ashldi3 v cnt s = Ret (u64 (v * 2 ^ cnt)) s ∧
     __lshrdi3 v cnt s = Ret (v / 2 ^ cnt) s ∧
     __ashrdi3 v cnt s = Ret (u64 (s64 v / 2 ^ cnt)) s) ∧
  __ashldi3 v 0 s = UB ∧ __lshrdi3 v 0 s = UB ∧ __ashrdi3 v 0 s = UB.
Proof.
  intros Hv. split; [|done]. intros Hc.
  split_and!; [by apply run_ashldi3|by apply run_lshrdi3|by apply run_ashrdi3].
Qed.

Lemma shifts_correct_witness : __ashrdi3 (2 ^ 64 - 8) 1 [] = Ret (2 ^ 64 - 4) [].
Proof. apply (shifts_correct [] (2 ^ 64 - 8) 1); lia. Defined.

(** The leading zeros of a non-zero 32-bit value; 0 gives 31. *)
Theorem clzsi2_correct v :
  0 ≤ v < 2 ^ 32 → __clzsi2 v = if bool_decide (v = 0) then 31 else 31 - Z.log2 v.
Proof.
  intros Hv. case_bool_decide as E; [by subst|]. unfold __clzsi2. cbn beta iota.
  destruct (clz_round 31 v 16 4294901760) as (p1 & v1 & -> & E1 & H1); [lia..|done|].
  destruct (clz_round p1 v1 8 65280) as (p2 & v2 & -> & E2 & H2); [lia..|done|].
  destruct (clz_round p2 v2 4 240) as (p3 & v3 & -> & E3 & H3); [lia..|done|].
  destruct (clz_round p3 v3 2 12) as (p4 & v4 & -> & E4 & H4); [lia..|done|].
  destruct (clz_round p4 v4 1 2) as (p5 & v5 & -> & E5 & H5); [lia..|done|].
  assert (v5 = 1) as -> by lia. change (Z.log2 1) with 0 in E5. lia.
Qed.

Lemma clzsi2_correct_witness : __clzsi2 65536 = 15.
Proof. apply (clzsi2_correct 65536). lia. Defined.
End theorems.
