(* ===== verification/Rand48.v ===== *)
(** * Random numbers: [jrand48.c], [lrand48.c], [mrand48.c], [nrand48.c],
    [srand48.c], [seed48.c]

    The generator works on an array of three [unsigned short]; the functions
    without an argument share the global array [__rand48_seed].  The theorems
    identify the generator with the 48-bit linear congruential sequence and
    show that it has full period. *)

From Stdlib Require Import Znumtheory.
From stdpp Require Import base tactics numbers list gmap.
From S2P Require Import Prelude.

Open Scope Z_scope.

(** ** The routines *)

(** [unsigned short xsubi[3]] *)
Record xsubi := { x0 : Z; x1 : Z; x2 : Z }.

(** The static data: the shared seed and the buffer [seed48] returns. *)
Record rand48 := { __rand48_seed : xsubi; oldseed : xsubi }.

Definition jrand48 (xs : xsubi) : Z * xsubi :=
  let x := u64 (u64 (u16 (x0 xs) + u64 (Z.shiftl (u16 (x1 xs)) 16))
                + u64 (Z.shiftl (u16 (x2 xs)) 32)) in
  let x := u64 (u64 (25214903917 * x) + 11) in
  (s32 (Z.shiftr x 16),
   {| x0 := u16 x; x1 := u16 (Z.shiftr x 16); x2 := u16 (Z.shiftr x 32) |}).

Definition nrand48 (xs : xsubi) : Z * xsubi :=
  let '(r, xs) := jrand48 xs in (Z.shiftr (u32 r) 1, xs).

Definition set_seed (xs : xsubi) (st : rand48) : rand48 :=
  {| __rand48_seed := xs; oldseed := oldseed st |}.

Definition mrand48 : C rand48 Z :=
  st ← get; let '(r, xs) := jrand48 (__rand48_seed st) in
  put (set_seed xs st);; mret r.

Definition lrand48 : C rand48 Z :=
  st ← get; let '(r, xs) := jrand48 (__rand48_seed st) in
  put (set_seed xs st);; mret (Z.shiftr (u32 r) 1).

Definition srand48 (seedval : Z) : C rand48 unit :=
  modify (set_seed {| x0 := 13070; x1 := u16 seedval; x2 := u16 (Z.shiftr (u32 seedval) 16) |}).

(** The array returned is [oldseed]. *)
Definition seed48 (xs : xsubi) : C rand48 xsubi :=
  st ← get;
  put {| __rand48_seed := xs; oldseed := __rand48_seed st |};;
  mret (__rand48_seed st).

(** ** The sequence *)

Definition lcg_a : Z := 25214903917.
Definition lcg_c : Z := 11.

Definition lcg (x : Z) : Z := (lcg_a * x + lcg_c) mod 2 ^ 48.

Definition wf_xsubi (xs : xsubi) : Prop :=
  0 ≤ x0 xs < 2 ^ 16 ∧ 0 ≤ x1 xs < 2 ^ 16 ∧ 0 ≤ x2 xs < 2 ^ 16.

Definition word48 (xs : xsubi) : Z := x0 xs + x1 xs * 2 ^ 16 + x2 xs * 2 ^ 32.

(** The state after [n] calls. *)
Definition advance (n : nat) (xs : xsubi) : xsubi := Nat.iter n (λ y, snd (jrand48 y)) xs.

Section sequence.
Lemma u16_wf xs : wf_xsubi xs → 0 ≤ word48 xs < 2 ^ 48.
Proof. unfold wf_xsubi, word48. lia. Qed.

(** The three digits of a 48-bit word. *)
Lemma word48_digits x :
  word48 {| x0 := u16 x; x1 := u16 (x / 2 ^ 16); x2 := u16 (x / 2 ^ 32) |} = x mod 2 ^ 48.
Proof.
  unfold word48, wrap. simpl x0. simpl x1. simpl x2.
  change (2 ^ 32) with (2 ^ 16 * 2 ^ 16). rewrite <-Z.div_div by lia.
  set (a := x / 2 ^ 16). pose proof (Z.div_mod x (2 ^ 16) ltac:(lia)) as E1. fold a in E1.
  pose proof (Z.div_mod a (2 ^ 16) ltac:(lia)) as E2. set (b := a / 2 ^ 16) in *.
  pose proof (Z.div_mod b (2 ^ 16) ltac:(lia)) as E3.
  pose proof (Z.mod_pos_bound x (2 ^ 16)). pose proof (Z.mod_pos_bound a (2 ^ 16)).
  pose proof (Z.mod_pos_bound b (2 ^ 16)).
  apply (Z.mod_unique_pos _ _ (b / 2 ^ 16)); lia.
Qed.

Lemma word48_inj xs ys : wf_xsubi xs → wf_xsubi ys → word48 xs = word48 ys → xs = ys.
Proof.
  destruct xs as [a b c], ys as [a' b' c']. unfold wf_xsubi, word48. simpl.
  intros. f_equal; lia.
Qed.

Lemma jrand48_word xs :
  wf_xsubi xs →
  wf_xsubi (snd (jrand48 xs)) ∧ word48 (snd (jrand48 xs)) = lcg (word48 xs) ∧
  fst (jrand48 xs) = s32 (lcg (word48 xs) / 2 ^ 16).
Proof.
  intros Hwf. pose proof (u16_wf xs Hwf) as Hw. destruct Hwf as (H0 & H1 & H2).
  assert (u64 (u64 (u16 (x0 xs) + u64 (Z.shiftl (u16 (x1 xs)) 16))
    + u64 (Z.shiftl (u16 (x2 xs)) 32)) = word48 xs) as E.
  { rewrite !Z.shiftl_mul_pow2 by lia. rewrite !(wrap_small 16) by done.
    unfold word48 in *. rewrite (wrap_small 64 (x1 xs * _)), (wrap_small 64 (x2 xs * _)) by lia.
    rewrite (wrap_small 64 (x0 xs + _)), wrap_small by lia. done. }
  unfold jrand48. rewrite E. cbn beta zeta iota. cbn [fst snd].
  set (y := u64 (u64 (25214903917 * word48 xs) + 11)).
  assert (y mod 2 ^ 48 = lcg (word48 xs)) as Ey.
  { unfold y, wrap, lcg, lcg_a, lcg_c. rewrite Zplus_mod_idemp_l.
    apply Z.mod_mod_divide. by exists (2 ^ 16). }
  rewrite !Z.shiftr_div_pow2 by lia. split_and!.
  - unfold wf_xsubi. cbn [x0 x1 x2]. split_and!; by apply wrap_range.
  - by rewrite word48_digits.
  - rewrite <-Ey. pose proof (Z.div_mod y (2 ^ 48) ltac:(lia)) as D.
    rewrite D at 1. replace (2 ^ 48 * (y / 2 ^ 48) + y mod 2 ^ 48)
      with (y / 2 ^ 48 * 2 ^ 32 * 2 ^ 16 + y mod 2 ^ 48) by ring.
    rewrite Z.div_add_l by lia. unfold sext. f_equal.
    rewrite <-Z.add_assoc, Z.add_comm. apply Z_mod_plus_full.
Qed.

Lemma advance_word n xs :
  wf_xsubi xs →
  wf_xsubi (advance n xs) ∧ word48 (advance n xs) = Nat.iter n lcg (word48 xs).
Proof.
  intros Hwf. induction n as [|n [IH1 IH2]]; [done|]. cbn [advance Nat.iter].
  destruct (jrand48_word _ IH1) as (H1 & H2 & _). split; [exact H1|].
  change (Nat.iter (S n) lcg (word48 xs)) with (lcg (Nat.iter n lcg (word48 xs))).
  rewrite <-IH2. exact H2.
Qed.

(** The sum of the first [n] powers of the multiplier. *)
Fixpoint powers (n : nat) : Z :=
  match n with O => 0 | S n => lcg_a * powers n + 1 end.

Lemma powers_geometric n : (lcg_a - 1) * powers n = lcg_a ^ Z.of_nat n - 1.
Proof.
  induction n as [|n IH]; [done|]. cbn [powers].
  rewrite Nat2Z.inj_succ, Z.pow_succ_r by lia. lia.
Qed.

Lemma iter_lcg n x :
  0 ≤ x < 2 ^ 48 →
  Nat.iter n lcg x = (x + powers n * ((lcg_a - 1) * x + lcg_c)) mod 2 ^ 48.
Proof.
  intros Hx. induction n as [|n IH]; [simpl; rewrite Z.mod_small; lia|].
  change (Nat.iter (S n) lcg x) with (lcg (Nat.iter n lcg x)). rewrite IH. unfold lcg at 1.
  rewrite <-Zplus_mod_idemp_l, Zmult_mod_idemp_r, Zplus_mod_idemp_l. f_equal.
  cbn [powers]. ring.
Qed.

Lemma powers_add n k : powers (n + k) = lcg_a ^ Z.of_nat k * powers n + powers k.
Proof.
  induction k as [|k IH]; [rewrite Nat.add_0_r; simpl; lia|].
  rewrite Nat.add_succ_r. cbn [powers]. rewrite IH, Nat2Z.inj_succ, Z.pow_succ_r by lia. ring.
Qed.

Lemma lcg_a_pow_mod4 n : ∃ q, lcg_a ^ Z.of_nat n = 4 * q + 1.
Proof.
  induction n as [|n [q IH]]; [by exists 0|].
  rewrite Nat2Z.inj_succ, Z.pow_succ_r, IH by lia.
  exists (lcg_a * q + 6303725979). unfold lcg_a. ring.
Qed.

Lemma powers_double n : ∃ q, powers (n + n) = 2 * (2 * q + 1) * powers n.
Proof. destruct (lcg_a_pow_mod4 n) as [q E]. exists q. rewrite powers_add, E. ring. Qed.

Lemma powers_odd n : Z.odd (powers n) = Nat.odd n.
Proof.
  induction n as [|n IH]; [done|]. cbn [powers].
  rewrite Z.odd_add, Z.odd_mul, IH, Nat.odd_succ, <-Nat.negb_odd.
  change (Z.odd lcg_a) with true. by destruct (Nat.odd n).
Qed.

(** An odd factor does not change divisibility by a power of two. *)
Lemma divide_pow2_odd k x y :
  Z.odd y = true → (2 ^ Z.of_nat k | y * x) ↔ (2 ^ Z.of_nat k | x).
Proof.
  intros Hy. apply Z.odd_spec in Hy as [q ->]. split; [|apply Z.divide_mul_r].
  intros H. apply Z.gauss in H; [done|]. apply Z.coprime_pow_l; [lia|].
  apply Z.coprime_Bezout. exists (- q), 1. ring.
Qed.

(** The power of two in the sum is that in the number of terms. *)
Lemma powers_divide k n :
  (2 ^ Z.of_nat k | powers n) ↔ (2 ^ Z.of_nat k | Z.of_nat n).
Proof.
  revert n. induction k as [|k IH]; intros n.
  { split; intros; apply Z.divide_1_l. }
  assert (∀ x, (2 ^ Z.of_nat (S k) | x) → Z.odd x = false) as Heven.
  { intros x [z ->]. rewrite Nat2Z.inj_succ, Z.pow_succ_r by lia.
    by rewrite !Z.odd_mul, andb_false_r. }
  destruct (Nat.odd n) eqn:Hodd.
  - split; intros H%Heven; exfalso.
    + by rewrite powers_odd, Hodd in H.
    + apply Nat.odd_spec in Hodd as [q ->]. by rewrite Nat2Z.inj_add, Z.odd_add, Nat2Z.inj_mul, Z.odd_mul in H.
  - assert (Nat.even n = true) as [q ->]%Nat.even_spec by (by rewrite <-Nat.negb_odd, Hodd).
    replace (2 * q)%nat with (q + q)%nat by lia. destruct (powers_double q) as [r ->].
    rewrite Nat2Z.inj_succ, Z.pow_succ_r by lia.
    replace (2 * (2 * r + 1) * powers q) with (2 * ((2 * r + 1) * powers q)) by ring.
    replace (Z.of_nat (q + q)) with (2 * Z.of_nat q) by lia.
    rewrite !Z.mul_divide_cancel_l, divide_pow2_odd by (lia || by rewrite Z.odd_add, Z.odd_mul).
    apply IH.
Qed.

Lemma lcg_period n x :
  0 ≤ x < 2 ^ 48 → Nat.iter n lcg x = x ↔ (2 ^ 48 | Z.of_nat n).
Proof.
  intros Hx. rewrite iter_lcg by done. rewrite <-(powers_divide 48).
  rewrite <-(divide_pow2_odd 48 (powers n) ((lcg_a - 1) * x + lcg_c)).
  2: { rewrite Z.odd_add, Z.odd_mul. by change (Z.odd (lcg_a - 1)) with false. }
  change (Z.of_nat 48) with 48. set (d := powers n * _). rewrite (Z.mul_comm _ (powers n)).
  fold d. split.
  - intros E. exists ((x + d) / 2 ^ 48).
    pose proof (Z.div_mod (x + d) (2 ^ 48) ltac:(lia)). lia.
  - intros [q ->]. by rewrite Z_mod_plus_full, Z.mod_small by lia.
Qed.
End sequence.

(** ** Theorems *)

(** The generator is the 48-bit congruential sequence
    x -> (0x5deece66d x + 0xb) mod 2^48: the array stays in range, jrand48
    returns the upper 32 bits of the new word as a signed number and nrand48
    its upper 31 bits, and srand48 starts from the seed's low 32 bits followed
    by 0x330e. *)
Theorem rand48_sequence xs seedval st :
  wf_xsubi xs →
  let w := lcg (word48 xs) in
  wf_xsubi (snd (jrand48 xs)) ∧ word48 (snd (jrand48 xs)) = w ∧
  snd (nrand48 xs) = snd (jrand48 xs) ∧
  fst (jrand48 xs) = s32 (w / 2 ^ 16) ∧
  fst (nrand48 xs) = w / 2 ^ 17 ∧ 0 ≤ fst (nrand48 xs) < 2 ^ 31 ∧
  ∃ st', srand48 seedval st = Ret tt st' ∧ wf_xsubi (__rand48_seed st') ∧
         word48 (__rand48_seed st') = u32 seedval * 2 ^ 16 + 13070.
Proof.
  intros Hwf w. destruct (jrand48_word xs Hwf) as (H1 & H2 & H3). fold w in H2, H3.
  assert (0 ≤ w < 2 ^ 48) as Hw by (apply Z.mod_pos_bound; lia).
  assert (0 ≤ w / 2 ^ 16 < 2 ^ 32) as Hd
    by (split; [apply Z.div_pos; lia|apply Z.div_lt_upper_bound; lia]).
  assert (fst (nrand48 xs) = w / 2 ^ 17) as Hn.
  { unfold nrand48. destruct (jrand48 xs) as [r ys]. cbn [fst snd] in *. subst r.
    rewrite Z.shiftr_div_pow2 by lia.
    assert (u32 (s32 (w / 2 ^ 16)) = w / 2 ^ 16) as ->.
    { unfold sext, wrap. rewrite Zminus_mod_idemp_l.
      replace (w / 2 ^ 16 + 2 ^ (32 - 1) - 2 ^ (32 - 1)) with (w / 2 ^ 16) by lia.
      by apply Z.mod_small. }
    rewrite Z.div_div by lia. done. }
  split_and!; try done.
  - rewrite Hn. apply Z.div_pos; lia.
  - rewrite Hn. apply Z.div_lt_upper_bound; lia.
  - eexists. split; [done|]. split; cbn [__rand48_seed set_seed].
    + split_and!; cbn [x0 x1 x2]; try lia; by apply wrap_range.
    + rewrite Z.shiftr_div_pow2 by lia. unfold word48. cbn [x0 x1 x2].
      pose proof (wrap_range 32 seedval ltac:(lia)) as Hs.
      assert (u16 seedval = u32 seedval mod 2 ^ 16) as ->.
      { unfold wrap. symmetry. apply Z.mod_mod_divide. by exists (2 ^ 16). }
      rewrite (wrap_small 16 (u32 seedval / 2 ^ 16))
        by (split; [apply Z.div_pos; lia|apply Z.div_lt_upper_bound; lia]).
      pose proof (Z.div_mod (u32 seedval) (2 ^ 16)). lia.
Qed.

Lemma rand48_sequence_witness :
  word48 (snd (jrand48 {| x0 := 13070; x1 := 0; x2 := 0 |})) = lcg 13070.
Proof.
  apply (rand48_sequence {| x0 := 13070; x1 := 0; x2 := 0 |} 0
    {| __rand48_seed := {| x0 := 0; x1 := 0; x2 := 0 |};
       oldseed := {| x0 := 0; x1 := 0; x2 := 0 |} |}).
  unfold wf_xsubi. simpl. lia.
Defined.

(** C35: the generator has full period: from any state it comes back to the same
    state after [n] calls exactly when 2^48 divides [n]. *)
Theorem rand48_full_period n xs :
  wf_xsubi xs → advance n xs = xs ↔ (2 ^ 48 | Z.of_nat n).
Proof.
  intros Hwf. destruct (advance_word n xs Hwf) as [H1 H2].
  rewrite <-(lcg_period n (word48 xs)) by (by apply u16_wf). rewrite <-H2. split.
  - by intros ->.
  - by apply word48_inj.
Qed.

Lemma rand48_full_period_witness :
  advance 3 {| x0 := 13070; x1 := 0; x2 := 0 |} ≠ {| x0 := 13070; x1 := 0; x2 := 0 |}.
Proof.
  intros H. apply (rand48_full_period 3) in H; [|unfold wf_xsubi; simpl; lia].
  apply Z.divide_pos_le in H; lia.
Defined.
