(* ===== verification/Sort.v ===== *)
(** * Sorting and searching: [qsort.c], [bsearch.c]

    [qsort] is combsort over the byte memory, swapping with [memswap]; the
    comparison is a callback, a parameter of the model that may read memory.
    The proof goes through the same algorithm on a list of objects: each pass
    is a fold of exchanges, passes with gap 1 remove inversions, so the loop
    ends, and it ends in a sorted permutation. *)

From stdpp Require Import base tactics numbers list sorting gmap.
From S2P Require Import Prelude Memory MemFns.

Open Scope Z_scope.

(** ** The routines *)

Definition newgap (gap : Z) : Z :=
  let gap := u64 (gap * 10) / 13 in
  let gap := if (gap =? 9) || (gap =? 10) then 11 else gap in
  if gap <? 1 then 1 else gap.

(** One pass of the [for] loop; the result is [swapped]. *)
Definition qsort_pass (compar : Z → Z → C mem Z) (base nmemb size gap : Z) : C mem bool :=
  loop (S (Z.to_nat nmemb)) (λ '(i, p1, swapped),
    if i <? u64 (nmemb - gap) then
      let j := u64 (i + gap) in
      let p2 := base + u64 (j * size) in
      r ← compar p1 p2;
      if 0 <? r then
        memswap p1 p2 size;; Next (i + 1, p1 + size, true)
      else Next (i + 1, p1 + size, swapped)
    else Break swapped) (0, base, false).

(** Passes enough for any array: one per gap, then one per inversion. *)
Definition qsort_fuel (nmemb : Z) : nat :=
  let n := Z.to_nat nmemb in (n + n * n + 3)%nat.

Definition qsort (compar : Z → Z → C mem Z) (base nmemb size : Z) : C mem unit :=
  if nmemb =? 0 then mret tt else
  loop (qsort_fuel nmemb) (λ gap,
    let gap := newgap gap in
    swapped ← qsort_pass compar base nmemb size gap;
    if (1 <? gap) || swapped then Next gap else Break tt) nmemb.

Definition bsearch (cmp : Z → Z → C mem Z) (key base nmemb size : Z) : C mem Z :=
  loop (S (Z.to_nat nmemb)) (λ '(base, nmemb),
    if nmemb =? 0 then Break NULL else
    let mididx := nmemb / 2 in
    let midobj := base + u64 (mididx * size) in
    diff ← cmp key midobj;
    if diff =? 0 then Break midobj
    else if 0 <? diff then Next (midobj + size, nmemb - (mididx + 1))
    else Next (base, mididx)) (base, nmemb).

(** ** Combsort on a list of objects *)

Section lists.
Context {A : Type} (cmp : A → A → Z).
Implicit Types (l : list A) (a b : A) (i j g : nat).

(** Exchange the objects at [i] and [i + g] if they are out of order. *)
Definition exchange g i l : bool * list A :=
  match l !! i, l !! (i + g)%nat with
  | Some a, Some b =>
      if 0 <? cmp a b then (true, <[i := b]> (<[(i + g)%nat := a]> l)) else (false, l)
  | _, _ => (false, l)
  end.

Fixpoint pass g (ix : list nat) l : bool * list A :=
  match ix with
  | [] => (false, l)
  | i :: ix =>
      let '(sw, l') := exchange g i l in
      let '(sw', l'') := pass g ix l' in
      (sw || sw', l'')
  end.

(** Inversions: pairs of positions out of order. *)
Fixpoint inversions l : nat :=
  match l with
  | [] => 0
  | a :: l => length (filter (λ b, 0 < cmp a b) l) + inversions l
  end.

Definition in_order a b : Prop := cmp a b ≤ 0.

Lemma two_split l i j a b :
  (i < j)%nat → l !! i = Some a → l !! j = Some b →
  ∃ l1 l2 l3, l = l1 ++ a :: l2 ++ b :: l3 ∧ length l1 = i ∧
              j = (i + S (length l2))%nat.
Proof.
  intros Hij Hi Hj. apply list_elem_of_split_length in Hi as (l1 & r & -> & Hl1).
  rewrite lookup_app_r in Hj by lia.
  destruct (j - length l1)%nat as [|k] eqn:E; [lia|]. simpl in Hj.
  apply list_elem_of_split_length in Hj as (l2 & l3 & -> & Hl2).
  exists l1, l2, l3. split_and!; [done|done|lia].
Qed.

Lemma swap_split l1 l2 l3 a b :
  <[length l1 := b]> (<[(length l1 + S (length l2))%nat := a]> (l1 ++ a :: l2 ++ b :: l3)) =
  l1 ++ b :: l2 ++ a :: l3.
Proof.
  rewrite insert_app_r. change (a :: l2 ++ b :: l3) with ((a :: l2) ++ b :: l3).
  replace (S (length l2)) with (length (a :: l2) + 0)%nat by (simpl; lia).
  rewrite insert_app_r. simpl. replace (length l1) with (length l1 + 0)%nat at 1 by lia.
  by rewrite insert_app_r.
Qed.

(** What an exchange does, in one of two forms. *)
Lemma exchange_cases g i l :
  (0 < g)%nat → (i + g < length l)%nat →
  (exchange g i l = (false, l) ∧
     ∀ a b, l !! i = Some a → l !! (i + g)%nat = Some b → in_order a b) ∨
  ∃ l1 l2 l3 a b,
    l = l1 ++ a :: l2 ++ b :: l3 ∧ length l1 = i ∧ g = S (length l2) ∧ 0 < cmp a b ∧
    exchange g i l = (true, l1 ++ b :: l2 ++ a :: l3).
Proof.
  intros Hg Hlen. unfold exchange.
  destruct (lookup_lt_is_Some_2 l i) as [a Ha]; [lia|].
  destruct (lookup_lt_is_Some_2 l (i + g)%nat) as [b Hb]; [lia|].
  rewrite Ha, Hb. destruct (Z.ltb_spec 0 (cmp a b)) as [Hlt|Hle].
  - right. destruct (two_split l i (i + g)%nat a b) as (l1 & l2 & l3 & -> & <- & E); [lia|done..|].
    exists l1, l2, l3, a, b. split_and!; [done..|lia|done|].
    by rewrite E, swap_split.
  - left. split; [done|]. intros a' b' [= ->] [= ->]. done.
Qed.

Lemma exchange_perm g i l :
  (0 < g)%nat → (i + g < length l)%nat → snd (exchange g i l) ≡ₚ l.
Proof.
  intros Hg Hlen. destruct (exchange_cases g i l Hg Hlen)
    as [[-> _]|(l1 & l2 & l3 & a & b & -> & _ & _ & _ & ->)]; [done|]. simpl. solve_Permutation.
Qed.

Lemma pass_perm g ix l :
  (0 < g)%nat → Forall (λ i, i + g < length l)%nat ix → snd (pass g ix l) ≡ₚ l.
Proof.
  intros Hg. revert l. induction ix as [|i ix IH]; intros l Hix; [done|].
  apply Forall_cons in Hix as [Hi Hix]. simpl.
  pose proof (exchange_perm g i l Hg Hi) as Hp.
  destruct (exchange g i l) as [sw l']. simpl in Hp.
  pose proof (IH l') as Hp'. destruct (pass g ix l') as [sw' l'']. simpl in *.
  rewrite Hp', Hp; [done|]. by rewrite (Permutation_length Hp).
Qed.

(** A pass that exchanges nothing finds every pair in order. *)
Lemma pass_false g ix l l' :
  (0 < g)%nat → Forall (λ i, i + g < length l)%nat ix → pass g ix l = (false, l') →
  l' = l ∧ ∀ i a b, i ∈ ix → l !! i = Some a → l !! (i + g)%nat = Some b → in_order a b.
Proof.
  intros Hg. revert l. induction ix as [|i ix IH]; intros l Hix Hpass; simpl in Hpass.
  { injection Hpass as <-. split; [done|]. intros i a b H. by apply elem_of_nil in H. }
  apply Forall_cons in Hix as [Hi Hix].
  destruct (exchange_cases g i l Hg Hi)
    as [[E Hord]|(l1 & l2 & l3 & a & b & _ & _ & _ & _ & E)]; rewrite E in Hpass;
    destruct (pass g ix _) as [sw' l''] eqn:E'; simpl in Hpass; [|congruence].
  injection Hpass as -> ->. destruct (IH l Hix E') as [-> H]. split; [done|].
  intros j c d [->|Hj]%elem_of_cons; [apply Hord|by apply H].
Qed.

Lemma inversions_swap l1 a b l3 :
  (∀ x y, 0 < cmp x y → cmp y x ≤ 0) → 0 < cmp a b →
  S (inversions (l1 ++ b :: a :: l3)) = inversions (l1 ++ a :: b :: l3).
Proof.
  intros Hasym Hab. induction l1 as [|c l1 IH]; simpl.
  - rewrite !filter_cons, decide_False, decide_True by (specialize (Hasym a b); lia).
    simpl. lia.
  - rewrite <-IH.
    rewrite (Permutation_length (filter_Permutation (λ y, 0 < cmp c y) (l1 ++ b :: a :: l3) (l1 ++ a :: b :: l3)
      ltac:(solve_Permutation))). lia.
Qed.

Lemma inversions_bound l : (inversions l ≤ length l * length l)%nat.
Proof.
  induction l as [|a l IH]; simpl; [lia|]. pose proof (length_filter (λ b, 0 < cmp a b) l). lia.
Qed.

(** With gap 1 a pass removes inversions, unless there is nothing to do. *)
Lemma pass_inversions ix l :
  (∀ x y, 0 < cmp x y → cmp y x ≤ 0) → Forall (λ i, i + 1 < length l)%nat ix →
  (inversions (snd (pass 1 ix l)) ≤ inversions l)%nat ∧
  (fst (pass 1 ix l) = true → inversions (snd (pass 1 ix l)) < inversions l)%nat.
Proof.
  intros Hasym. revert l. induction ix as [|i ix IH]; intros l Hix; simpl; [done|].
  apply Forall_cons in Hix as [Hi Hix].
  destruct (exchange_cases 1 i l ltac:(lia) Hi)
    as [[E _]|(l1 & l2 & l3 & a & b & -> & <- & Hl2 & Hab & E)]; rewrite E.
  - specialize (IH l Hix). by destruct (pass 1 ix l).
  - destruct l2; [|done]. simpl in *.
    pose proof (inversions_swap l1 a b l3 Hasym Hab).
    specialize (IH (l1 ++ b :: a :: l3)).
    rewrite !length_app in *. simpl in *. specialize (IH Hix).
    destruct (pass 1 ix _) as [sw' l'']. simpl in *. lia.
Qed.

Lemma adjacent_sorted l :
  (∀ i a b, l !! i = Some a → l !! (i + 1)%nat = Some b → in_order a b) →
  Sorted in_order l.
Proof.
  induction l as [|a l IH]; intros H; [constructor|]. constructor.
  - apply IH. intros i x y. apply (H (S i)).
  - destruct l as [|b l]; constructor. by apply (H 0%nat).
Qed.
End lists.

(** ** Arrays of objects in memory *)

Section arrays.
Implicit Types (m : mem) (l : list (list Z)) (a b : list Z).
Context (sz : nat).

(** [l] are the objects of the array at [base]. *)
Definition objects m (base : Z) l : Prop :=
  bytes_at m base (concat l) ∧ Forall (λ a, length a = sz) l.

Lemma length_concat_objects l :
  Forall (λ a, length a = sz) l → length (concat l) = (length l * sz)%nat.
Proof. induction 1 as [|a l Ha Hl IH]; simpl; [done|]. rewrite length_app. lia. Qed.

Lemma length_concat_perm l l' :
  l' ≡ₚ l → Forall (λ a, length a = sz) l → length (concat l') = length (concat l).
Proof.
  intros Hp Hl. rewrite !length_concat_objects; [|done|by rewrite Hp].
  by rewrite (Permutation_length Hp).
Qed.

Lemma objects_app m base l l' :
  objects m base (l ++ l') ↔
  objects m base l ∧ objects m (base + Z.of_nat (length l) * Z.of_nat sz) l'.
Proof.
  unfold objects. rewrite concat_app, bytes_at_app, Forall_app.
  split; intros H; destruct_and!; split_and!; try done;
    [rewrite length_concat_objects in * by done|rewrite length_concat_objects by done];
    by rewrite Nat2Z.inj_mul in *.
Qed.

Lemma objects_cons m base a l :
  objects m base (a :: l) ↔
  bytes_at m base a ∧ length a = sz ∧ objects m (base + Z.of_nat sz) l.
Proof.
  unfold objects. simpl. rewrite bytes_at_app, Forall_cons.
  split; intros H; destruct_and!; split_and!; try done; by simplify_eq.
Qed.

Lemma objects_lookup m base l i a :
  objects m base l → l !! i = Some a →
  bytes_at m (base + Z.of_nat i * Z.of_nat sz) a ∧ length a = sz.
Proof.
  intros H Hi. apply list_elem_of_split_length in Hi as (l1 & l2 & -> & ->).
  apply objects_app in H as [_ H]. apply objects_cons in H. tauto.
Qed.

Lemma objects_write m base l l' :
  objects m base l → l' ≡ₚ l → objects (write_bytes m base (concat l')) base l'.
Proof.
  intros [Hb Hf] Hp. split; [|by rewrite Hp]. apply write_bytes_at.
  apply bytes_at_is_byte in Hb. rewrite Forall_concat in Hb |- *. by rewrite Hp.
Qed.

(** Exchanging two objects rewrites the array. *)
Lemma write_swap m base l1 a l2 b l3 :
  objects m base (l1 ++ a :: l2 ++ b :: l3) →
  write_bytes (write_bytes m (base + Z.of_nat (length l1 + S (length l2)) * Z.of_nat sz) a)
    (base + Z.of_nat (length l1) * Z.of_nat sz) b =
  write_bytes m base (concat (l1 ++ b :: l2 ++ a :: l3)).
Proof.
  intros H. apply objects_app in H as [H1 H]. apply objects_cons in H as (Ha & Hla & H).
  apply objects_app in H as [H2 H]. apply objects_cons in H as (Hb & Hlb & H3).
  set (p := base + Z.of_nat (length l1) * Z.of_nat sz) in *.
  set (q := base + Z.of_nat (length l1 + S (length l2)) * Z.of_nat sz).
  replace (p + Z.of_nat sz + Z.of_nat (length l2) * Z.of_nat sz) with q in * by lia.
  rewrite concat_app. simpl. rewrite concat_app. simpl.
  destruct H1 as [H1 F1], H2 as [H2 F2], H3 as [H3 F3].
  rewrite !write_bytes_app', (write_bytes_id m base) by done.
  rewrite !length_concat_objects, Nat2Z.inj_mul by done. fold p.
  rewrite Hla, Hlb, Nat2Z.inj_mul.
  replace (p + Z.of_nat sz + Z.of_nat (length l2) * Z.of_nat sz) with q by lia.
  rewrite (write_bytes_id (write_bytes m p b)).
  2: { apply write_bytes_frame; [done|]. left. lia. }
  rewrite (write_bytes_id _ (q + Z.of_nat sz)).
  2: { apply write_bytes_frame; [apply write_bytes_frame; [done|]|]; left; lia. }
  apply write_bytes_comm. unfold disjoint_ranges. lia.
Qed.
End arrays.

(** ** [qsort] *)

Section qsort.
Implicit Types (m : mem) (l : list (list Z)) (a b : list Z).
Context (sz : nat) (compar : Z → Z → C mem Z) (cmp : list Z → list Z → Z).

(** The callback is a function of the two objects it is given. *)
Definition compares : Prop :=
  ∀ m p q a b, bytes_at m p a → bytes_at m q b → length a = sz → length b = sz →
  compar p q m = Ret (cmp a b) m.

Hypothesis Hcompar : compares.

Lemma exchange_objects m base l g i :
  (0 < g)%nat → (i + g < length l)%nat → objects sz m base l →
  objects sz (write_bytes m base (concat (snd (exchange cmp g i l)))) base
    (snd (exchange cmp g i l)).
Proof. intros Hg Hi Hobj. by apply (objects_write _ _ _ l), exchange_perm. Qed.

Lemma run_exchange m base l g i sw :
  (0 < g)%nat → (i + g < length l)%nat → objects sz m base l →
  (r ← compar (base + Z.of_nat i * Z.of_nat sz) (base + Z.of_nat (i + g) * Z.of_nat sz);
   if 0 <? r then
     memswap (base + Z.of_nat i * Z.of_nat sz) (base + Z.of_nat (i + g) * Z.of_nat sz)
       (Z.of_nat sz);;
     Next (Z.of_nat i + 1, base + Z.of_nat i * Z.of_nat sz + Z.of_nat sz, true)
   else Next (Z.of_nat i + 1, base + Z.of_nat i * Z.of_nat sz + Z.of_nat sz, sw)
   : C mem ((Z * Z * bool) + bool)) m =
  Ret (inl (Z.of_nat (S i), base + Z.of_nat (S i) * Z.of_nat sz,
            sw || fst (exchange cmp g i l)))
      (write_bytes m base (concat (snd (exchange cmp g i l)))).
Proof.
  intros Hg Hlen Hobj.
  replace (Z.of_nat i + 1) with (Z.of_nat (S i)) by lia.
  replace (base + Z.of_nat i * Z.of_nat sz + Z.of_nat sz)
    with (base + Z.of_nat (S i) * Z.of_nat sz) by lia.
  destruct (lookup_lt_is_Some_2 l i) as [a Ha]; [lia|].
  destruct (lookup_lt_is_Some_2 l (i + g)%nat) as [b Hb]; [lia|].
  destruct (objects_lookup _ _ _ _ _ _ Hobj Ha) as [Hpa Hla].
  destruct (objects_lookup _ _ _ _ _ _ Hobj Hb) as [Hpb Hlb].
  rewrite run_bind, (Hcompar _ _ _ a b) by done. cbn beta iota.
  destruct (exchange_cases cmp g i l Hg Hlen)
    as [[-> Hord]|(l1 & l2 & l3 & a' & b' & -> & <- & -> & Hab & ->)]; cbn [fst snd].
  - specialize (Hord a b Ha Hb). unfold in_order in Hord. ctest. crun.
    rewrite write_bytes_id by apply Hobj. by rewrite orb_false_r.
  - rewrite list_lookup_middle in Ha by done. injection Ha as ->.
    rewrite lookup_app_r in Hb by lia.
    replace (length l1 + S (length l2) - length l1)%nat with (S (length l2)) in Hb by lia.
    simpl in Hb. rewrite list_lookup_middle in Hb by done. injection Hb as ->.
    ctest. crun. rewrite <-Hla at 3.  rewrite (run_memswap _ _ _ a b); [|done|done|lia|]; cycle 1.
    { unfold disjoint_ranges. lia. }
    cbn beta iota. crun. rewrite (write_swap _ _ _ _ _ _ _ _ Hobj). by rewrite orb_true_r.
Qed.

Lemma run_qsort_pass m base l g :
  (0 < g ≤ length l)%nat → objects sz m base l →
  Z.of_nat (length l) * Z.of_nat sz < 2 ^ 64 → Z.of_nat (length l) < 2 ^ 64 →
  let r := pass cmp g (seq 0 (length l - g)) l in
  qsort_pass compar base (Z.of_nat (length l)) (Z.of_nat sz) (Z.of_nat g) m =
  Ret (fst r) (write_bytes m base (concat (snd r))).
Proof.
  intros Hg Hobj Hmax Hn. cbn zeta. unfold qsort_pass. rewrite Nat2Z.id.
  set (body := λ '(i, p1, swapped), _).
  enough (∀ k i l' m' sw fuel, length l' = length l → objects sz m' base l' →
    (i + k = length l - g)%nat → (k < fuel)%nat →
    loop fuel body (Z.of_nat i, base + Z.of_nat i * Z.of_nat sz, sw) m' =
    Ret (sw || fst (pass cmp g (seq i k) l'))
        (write_bytes m' base (concat (snd (pass cmp g (seq i k) l'))))) as H.
  { specialize (H (length l - g)%nat 0%nat l m false (S (length l))).
    rewrite Z.mul_0_l, Z.add_0_r in H. apply H; [done|done|lia|lia]. }
  clear m Hobj. intros k. induction k as [|k IH]; intros i l' m' sw [|fuel] Hlen Hobj Hi Hf;
    try lia; rewrite run_loop; unfold body at 1; cbn beta iota;
    rewrite (wrap_small 64 (_ - _)) by lia; ctest.
  - crun. simpl. rewrite orb_false_r, write_bytes_id by apply Hobj. done.
  - cbn zeta. rewrite (wrap_small 64 (Z.of_nat i + _)) by lia.
    rewrite <-Nat2Z.inj_add. rewrite (wrap_small 64 (_ * _)) by nia.
    rewrite (run_exchange _ _ l') by (done || lia). fold body.
    pose proof (exchange_objects m' base l' g i ltac:(lia) ltac:(lia) Hobj) as Hobj1.
    pose proof (Permutation_length (exchange_perm cmp g i l' ltac:(lia) ltac:(lia))) as Hlen1.
    cbn [seq pass]. destruct (exchange cmp g i l') as [sw1 l1] eqn:E1. cbn [fst snd] in *.
    rewrite (IH (S i) l1) by (done || lia).
    pose proof (pass_perm cmp g (seq (S i) k) l1 ltac:(lia)) as Hp.
    destruct (pass cmp g (seq (S i) k) l1) as [sw2 l2] eqn:E2. cbn [fst snd] in *.
    rewrite orb_assoc, write_bytes_overwrite; [done|]. symmetry.
    apply (length_concat_perm sz); [|apply Hobj1].
    apply Hp, Forall_forall. intros j Hj%elem_of_seq. lia.
Qed.

(** ** Termination and sortedness *)

Lemma newgap_bounds gap :
  1 ≤ gap → 10 * gap < 2 ^ 64 →
  1 ≤ newgap gap ≤ gap ∧ (1 < gap → newgap gap < gap).
Proof.
  intros H1 Hmax. unfold newgap. rewrite wrap_small by lia.
  pose proof (Z.div_mod (gap * 10) 13 ltac:(lia)). pose proof (Z.mod_pos_bound (gap * 10) 13).
  set (q := gap * 10 / 13) in *. destruct (Z.eqb_spec q 9), (Z.eqb_spec q 10); simpl orb;
    cbn beta iota zeta; try (cbn; lia); destruct (Z.ltb_spec q 1); lia.
Qed.

(** The measure of the outer loop: the gap while it is above 1, then the
    inversions left. *)
Definition rounds_left (gap : Z) l : nat :=
  if 1 <? gap then (Z.to_nat gap + length l * length l)%nat else inversions cmp l.

Lemma pass_range l g :
  Forall (λ i, i + g < length l)%nat (seq 0 (length l - g)).
Proof. apply Forall_forall. intros j Hj%elem_of_seq. lia. Qed.

Lemma rounds_decrease l gap :
  (∀ x y, 0 < cmp x y → cmp y x ≤ 0) → 1 ≤ gap → 10 * gap < 2 ^ 64 →
  let g := newgap gap in
  let r := pass cmp (Z.to_nat g) (seq 0 (length l - Z.to_nat g)) l in
  (1 <? g) || fst r = true → (rounds_left g (snd r) < rounds_left gap l)%nat.
Proof.
  intros Hasym H1 Hmax g r Hcont. destruct (newgap_bounds gap H1 Hmax) as [Hg Hlt].
  fold g in Hg, Hlt. assert (Permutation (snd r) l) as Hp.
  { apply pass_perm; [lia|apply pass_range]. }
  unfold rounds_left. rewrite (Permutation_length Hp).
  pose proof (inversions_bound cmp (snd r)) as Hb. rewrite (Permutation_length Hp) in Hb.
  destruct (Z.ltb_spec 1 gap) as [Hgap|Hgap], (Z.ltb_spec 1 g) as [Hg1|Hg1]; try lia.
  simpl in Hcont. assert (g = 1) as E by lia. unfold r in *. rewrite E in *.
  by apply (pass_inversions cmp (seq 0 (length l - 1)) l Hasym (pass_range l 1)).
Qed.

(** A pass that exchanges nothing at gap 1 leaves a sorted array. *)
Lemma pass_done l g r :
  g = 1%nat → pass cmp g (seq 0 (length l - g)) l = r →
  fst r = false → snd r = l ∧ Sorted (in_order cmp) l.
Proof.
  intros -> Er Hsw. destruct r as [sw l']. cbn [fst snd] in *. subst sw.
  destruct (pass_false cmp 1 _ l l' ltac:(lia) (pass_range l 1) Er) as [-> Hord].
  split; [done|]. apply adjacent_sorted. intros i a b Ha Hb.
  apply (Hord i); [|done|done]. apply elem_of_seq. apply lookup_lt_Some in Hb. lia.
Qed.

(** One round of the outer loop. *)
Lemma run_round m base l gap :
  (∀ x y, 0 < cmp x y → cmp y x ≤ 0) → objects sz m base l →
  Z.of_nat (length l) * Z.of_nat sz < 2 ^ 64 → 10 * Z.of_nat (length l) < 2 ^ 64 →
  1 ≤ gap ≤ Z.of_nat (length l) →
  ∃ r l', l' ≡ₚ l ∧
  (let gap := newgap gap in
   swapped ← qsort_pass compar base (Z.of_nat (length l)) (Z.of_nat sz) gap;
   if (1 <? gap) || swapped then Next gap else Break tt : C mem (Z + unit)) m =
  Ret r (write_bytes m base (concat l')) ∧
  match r with
  | inl g => 1 ≤ g ≤ Z.of_nat (length l) ∧ (rounds_left g l' < rounds_left gap l)%nat
  | inr _ => Sorted (in_order cmp) l'
  end.
Proof.
  intros Hasym Hobj Hmax Hn Hgap. cbn zeta.
  destruct (newgap_bounds gap) as [Hg _]; [lia..|].
  pose proof (rounds_decrease l gap Hasym ltac:(lia) ltac:(lia)) as Hdec.
  set (g := newgap gap) in *. cbn zeta in Hdec.
  pose proof (run_qsort_pass m base l (Z.to_nat g) ltac:(lia) Hobj ltac:(lia) ltac:(lia)) as Hpass.
  pose proof (pass_perm cmp (Z.to_nat g) _ l ltac:(lia) (pass_range l (Z.to_nat g))) as Hp.
  pose proof (pass_done l (Z.to_nat g)) as Hdone.
  cbn zeta in Hpass. set (r := pass cmp _ _ l) in *. rewrite Z2Nat.id in Hpass by lia.
  rewrite run_bind, Hpass. cbn beta iota.
  destruct ((1 <? g) || fst r) eqn:Ec; do 2 eexists; (split; [exact Hp|]); (split; [done|]).
  - split; [lia|auto].
  - apply orb_false_iff in Ec as [Hg1%Z.ltb_ge Hsw].
    destruct (Hdone r ltac:(lia) eq_refl Hsw) as [-> ?]. done.
Qed.

Lemma run_qsort m base l :
  (∀ x y, 0 < cmp x y → cmp y x ≤ 0) → objects sz m base l →
  Z.of_nat (length l) * Z.of_nat sz < 2 ^ 64 → 10 * Z.of_nat (length l) < 2 ^ 64 →
  ∃ l', l' ≡ₚ l ∧ Sorted (in_order cmp) l' ∧
  qsort compar base (Z.of_nat (length l)) (Z.of_nat sz) m =
  Ret tt (write_bytes m base (concat l')).
Proof.
  intros Hasym Hobj Hmax Hn. unfold qsort. destruct (Z.eqb_spec (Z.of_nat (length l)) 0) as [E|E].
  { exists l. split_and!; [done| |by rewrite write_bytes_id by apply Hobj].
    destruct l; [constructor|done]. }
  edestruct (loop_total
    (λ (k : nat) (gap : Z) (m' : mem), ∃ l', l' ≡ₚ l ∧
       m' = write_bytes m base (concat l') ∧ 1 ≤ gap ≤ Z.of_nat (length l) ∧
       k = rounds_left gap l')
    (λ (_ : unit) (m' : mem), ∃ l', l' ≡ₚ l ∧
       m' = write_bytes m base (concat l') ∧ Sorted (in_order cmp) l'))
    as (x & m' & Hrun & l' & Hp & -> & Hsort); cycle 3.
  { exists l'. destruct x. split_and!; [done|done|]. apply Hrun. }
  - intros k gap m' (l1 & Hp1 & -> & Hgap & ->).
    pose proof (Permutation_length Hp1) as Hl. rewrite <-Hl in *.
    destruct (run_round _ base l1 gap Hasym (objects_write _ _ _ _ _ Hobj Hp1) Hmax Hn Hgap)
      as (r & l2 & Hp2 & Hrun & Hr).
    rewrite write_bytes_overwrite in Hrun
      by (symmetry; apply (length_concat_perm sz); [done|]; rewrite Hp1; apply Hobj).
    exists r, (write_bytes m base (concat l2)). split; [exact Hrun|].
    assert (l2 ≡ₚ l) by (by rewrite Hp2). destruct r as [g|[]]; [|eauto].
    destruct Hr as [Hg Hlt]. eauto 10.
  - shelve.
  - exists l. rewrite write_bytes_id by apply Hobj. split_and!; [done|done|lia|lia|done].
  Unshelve. unfold qsort_fuel, rounds_left. pose proof (inversions_bound cmp l).
    destruct (1 <? _); lia.
Qed.
End qsort.

(** ** [bsearch] *)

Section bsearch.
Implicit Types (m : mem) (l : list (list Z)) (a b : list Z).
Context (sz : nat) (cmp : Z → Z → C mem Z) (key : Z) (f : list Z → Z) (m : mem).

(** The callback compares the key with the object it is given. *)
Definition compares_key : Prop :=
  ∀ p a, bytes_at m p a → length a = sz → cmp key p m = Ret (f a) m.

(** The array is sorted with respect to the key. *)
Definition key_order a b : Prop := (f a < 0 → f b < 0) ∧ (f a ≤ 0 → f b ≤ 0).

Definition found (base : Z) l (r : Z) : Prop :=
  (∃ i a, l !! i = Some a ∧ f a = 0 ∧ r = base + Z.of_nat i * Z.of_nat sz) ∨
  (r = NULL ∧ Forall (λ a, f a ≠ 0) l).

Hypothesis Hcmp : compares_key.

Lemma found_left base l1 a l2 r :
  Forall (λ b, f b ≠ 0) (a :: l2) → found base l1 r → found base (l1 ++ a :: l2) r.
Proof.
  intros H [(i & b & Hi & Hb & ->)|[-> H1]].
  - left. exists i, b. split_and!; [|done..]. by apply lookup_app_l_Some.
  - right. split; [done|]. by apply Forall_app.
Qed.

Lemma found_right base l1 a l2 r :
  Forall (λ b, f b ≠ 0) l1 → f a ≠ 0 →
  found (base + Z.of_nat (S (length l1)) * Z.of_nat sz) l2 r → found base (l1 ++ a :: l2) r.
Proof.
  intros H Ha [(i & b & Hi & Hb & ->)|[-> H1]].
  - left. exists (length l1 + S i)%nat, b. split_and!; [|done|lia].
    by rewrite lookup_app_r, Nat.add_sub' by lia.
  - right. split; [done|]. apply Forall_app. auto.
Qed.

Lemma run_bsearch_loop n base l fuel :
  (length l ≤ n)%nat → (n < fuel)%nat → objects sz m base l →
  Z.of_nat (length l) * Z.of_nat sz < 2 ^ 64 → StronglySorted key_order l →
  ∃ r, loop fuel (λ '(base, nmemb),
    if nmemb =? 0 then Break NULL else
    let mididx := nmemb / 2 in
    let midobj := base + u64 (mididx * Z.of_nat sz) in
    diff ← cmp key midobj;
    if diff =? 0 then Break midobj
    else if 0 <? diff then Next (midobj + Z.of_nat sz, nmemb - (mididx + 1))
    else Next (base, mididx)) (base, Z.of_nat (length l)) m = Ret r m ∧ found base l r.
Proof.
  revert base l fuel. induction n as [|n IH]; intros base l [|fuel] Hn Hf Hobj Hmax Hsort; try lia.
  { destruct l; [|simpl in Hn; lia]. exists NULL. split; [by rewrite run_loop|]. by right. }
  rewrite run_loop. cbn beta iota.
  destruct (Z.eqb_spec (Z.of_nat (length l)) 0) as [E|E].
  { destruct l; [|done]. exists NULL. split; [done|]. by right. }
  assert (Z.of_nat (length l) / 2 = Z.of_nat (length l / 2)) as -> by (by rewrite Nat2Z.inj_div).
  assert (length l / 2 < length l)%nat as Hmid by (apply Nat.div_lt; lia).
  destruct (lookup_lt_is_Some_2 l _ Hmid) as [a Ha].
  destruct (objects_lookup _ _ _ _ _ _ Hobj Ha) as [Hpa Hla].
  apply list_elem_of_split_length in Ha as (l1 & l2 & -> & Hl1). rewrite Hl1.
  apply objects_app in Hobj as [Hobj1 Hobj2]. apply objects_cons in Hobj2 as (_ & _ & Hobj2).
  rewrite length_app in *. cbn [length] in *. rewrite Hl1 in Hpa.
  cbn zeta. rewrite wrap_small by nia. rewrite run_bind, (Hcmp _ a Hpa Hla). cbn beta iota.
  apply StronglySorted_app in Hsort as (Hcross & Hs1 & Hs2).
  apply StronglySorted_inv in Hs2 as [Hs2 Hafter].
  destruct (Z.eqb_spec (f a) 0) as [Hz|Hz].
  { eexists. split; [done|]. left. exists (length l1), a.
    by rewrite list_lookup_middle by done. }
  destruct (Z.ltb_spec 0 (f a)) as [Hpos|Hneg].
  - destruct (IH (base + Z.of_nat (S (length l1)) * Z.of_nat sz) l2 fuel) as (r & Hr & Hfound);
      [lia|lia| |nia|done|].
    { by replace (base + Z.of_nat (S (length l1)) * Z.of_nat sz)
        with (base + Z.of_nat (length l1) * Z.of_nat sz + Z.of_nat sz) by lia. }
    exists r. split; [|apply found_right; [|done|done]].
    + rewrite run_ret. cbn beta iota. rewrite <-Hr. f_equal. f_equal; lia.
    + apply Forall_forall. intros b Hb. specialize (Hcross b a Hb ltac:(left)).
      unfold key_order in Hcross. lia.
  - destruct (IH base l1 fuel) as (r & Hr & Hfound); [lia|lia|done|nia|done|].
    exists r. split; [|apply found_left; [|done]].
    + rewrite run_ret. cbn beta iota. exact Hr.
    + constructor; [done|]. apply (Forall_impl _ _ _ Hafter). unfold key_order. lia.
Qed.
End bsearch.

(** ** Theorems *)

(** A callback on one-byte objects. *)
Definition compar_bytes (p q : Z) : C mem Z :=
  a ← load8 p; b ← load8 q; mret (a - b).

Definition cmp_bytes (a b : list Z) : Z := hd 0 a - hd 0 b.

Lemma compar_bytes_compares : compares 1 compar_bytes cmp_bytes.
Proof.
  intros m p q [|a []] [|b []] Ha Hb La Lb; try done.
  apply bytes_at_cons in Ha as (_ & Ha & _). apply bytes_at_cons in Hb as (_ & Hb & _).
  unfold compar_bytes. by crun.
Qed.

(** C32: qsort (combsort) terminates and leaves a sorted permutation of the
    objects in place, changing no other byte, for every comparison callback
    that is a function of the two objects and never says both "greater"; with a
    transitive comparison every pair is in order, not only neighbours. *)
Theorem qsort_sorts (sz : nat) (compar : Z → Z → C mem Z) (cmp : list Z → list Z → Z)
    (m : mem) (base : Z) (l : list (list Z)) :
  compares sz compar cmp →
  (∀ x y, 0 < cmp x y → cmp y x ≤ 0) →
  objects sz m base l →
  Z.of_nat (length l) * Z.of_nat sz < 2 ^ 64 → 10 * Z.of_nat (length l) < 2 ^ 64 →
  ∃ l', l' ≡ₚ l ∧ Sorted (in_order cmp) l' ∧
  (Transitive (in_order cmp) → StronglySorted (in_order cmp) l') ∧
  qsort compar base (Z.of_nat (length l)) (Z.of_nat sz) m =
  Ret tt (write_bytes m base (concat l')).
Proof.
  intros Hcompar Hasym Hobj Hmax Hn.
  destruct (run_qsort sz compar cmp Hcompar m base l) as (l' & Hp & Hs & Hrun); [done..|].
  exists l'. split_and!; [done|done| |done]. intros. by apply Sorted_StronglySorted.
Qed.

Lemma qsort_sorts_witness :
  ∃ l', l' ≡ₚ [[3]; [1]; [2]] ∧ Sorted (in_order cmp_bytes) l' ∧
  qsort compar_bytes 100 3 1 (write_bytes ∅ 100 [3; 1; 2]) =
  Ret tt (write_bytes (write_bytes ∅ 100 [3; 1; 2]) 100 (concat l')).
Proof.
  destruct (qsort_sorts 1 compar_bytes cmp_bytes (write_bytes ∅ 100 [3; 1; 2]) 100
    [[3]; [1]; [2]]) as (l' & H1 & H2 & _ & H3).
  - apply compar_bytes_compares.
  - unfold cmp_bytes. lia.
  - split; [by_decide|by repeat constructor].
  - by vm_compute.
  - by vm_compute.
  - exists l'. exact (conj H1 (conj H2 H3)).
Defined.

(** C33: bsearch terminates, reads only the array, and returns the address of an
    object equal to the key when there is one and NULL exactly when there is
    none, for an array ordered with respect to the key. *)
Theorem bsearch_finds (sz : nat) (cmp : Z → Z → C mem Z) (key : Z) (f : list Z → Z)
    (m : mem) (base : Z) (l : list (list Z)) :
  compares_key sz cmp key f m → objects sz m base l →
  Z.of_nat (length l) * Z.of_nat sz < 2 ^ 64 → StronglySorted (key_order f) l →
  ∃ r, bsearch cmp key base (Z.of_nat (length l)) (Z.of_nat sz) m = Ret r m ∧
  ((∃ i a, l !! i = Some a ∧ f a = 0 ∧ r = base + Z.of_nat i * Z.of_nat sz) ∨
   (r = NULL ∧ Forall (λ a, f a ≠ 0) l)).
Proof.
  intros Hcmp Hobj Hmax Hs. unfold bsearch. rewrite Nat2Z.id.
  by apply (run_bsearch_loop sz cmp key f m Hcmp (length l)); [lia|lia|..].
Qed.

Lemma bsearch_finds_witness :
  let m := write_bytes ∅ 100 [1; 3; 5; 3] in
  ∃ r, bsearch compar_bytes 103 100 3 1 m = Ret r m ∧
  ((∃ i a, [[1]; [3]; [5]] !! i = Some a ∧ 3 - hd 0 a = 0 ∧ r = 100 + Z.of_nat i * 1) ∨
   (r = NULL ∧ Forall (λ a, 3 - hd 0 a ≠ 0) [[1]; [3]; [5]])).
Proof.
  apply (bsearch_finds 1 compar_bytes 103 (λ a, 3 - hd 0 a)
    (write_bytes ∅ 100 [1; 3; 5; 3]) 100 [[1]; [3]; [5]]).
  - intros p [|a []] Ha La; try done. apply bytes_at_cons in Ha as (_ & Ha & _).
    unfold compar_bytes. assert (write_bytes ∅ 100 [1; 3; 5; 3] !! 103 = Some 3) by done.
    by crun.
  - split; [by_decide|by repeat constructor].
  - by vm_compute.
  - repeat constructor; simpl; lia.
Defined.
