(* ===== verification/Alloc.v ===== *)
(** * The allocator interface and its clients: [zalloc.c], [calloc.c],
    [strdup.c], [strndup.c]

    [Allocator] is what the rest of the library calls; [AllocatorLaws] is what
    it relies on: a block that is handed out is valid, disjoint from every other
    live block and from everything that is in use, and neither [malloc] nor
    [free] changes memory in use.  An allocator explains which addresses are its
    own by a ghost value that the laws thread through the operations.  The
    clients are proved against the laws. *)

From Stdlib Require Import List.
From stdpp Require Import base tactics numbers list gmap.
From S2P Require Import Prelude Memory MemFns StrFns.

Open Scope Z_scope.

(** ** The interface *)

Class Allocator (S : Type) := {
  amem : S → mem;
  set_amem : mem → S → S;
  a_malloc : Z → C S Z;
  a_free : Z → C S unit;
}.

(** A block: its address and its size. *)
Abbreviation block := (Z * Z)%type.

Class AllocatorLaws (S : Type) `{Allocator S} := {
  (** The largest size the laws speak of. *)
  max_request : Z;
  (** What the allocator's own addresses are. *)
  ghost : Type;
  (** The state is consistent and these blocks are live. *)
  heap_inv : S → ghost → list block → Prop;
  (** The range is neither free heap space nor the allocator's own data. *)
  in_use : ghost → Z → Z → Prop;
  amem_set s m : amem (set_amem m s) = m;
  set_amem_set s m m' : set_amem m (set_amem m' s) = set_amem m s;
  set_amem_id s : set_amem (amem s) s = s;
  in_use_sub g p n q k : in_use g p n → p ≤ q → q + k ≤ p + n → in_use g q k;
  heap_inv_perm s g live live' : live ≡ₚ live' → heap_inv s g live → heap_inv s g live';
  heap_inv_block s g live p n :
    heap_inv s g live → (p, n) ∈ live → valid (amem s) p n ∧ in_use g p n ∧ 0 < p < 2 ^ 64;
  heap_inv_disjoint s g live :
    heap_inv s g live →
    ForallOrdPairs (λ b c, disjoint_ranges b.1 b.2 c.1 c.2) live;
  heap_inv_write s g live p l :
    heap_inv s g live → in_use g p (Z.of_nat (length l)) →
    valid (amem s) p (Z.of_nat (length l)) →
    heap_inv (set_amem (write_bytes (amem s) p l) s) g live;
  malloc_ok s g live n :
    heap_inv s g live → 0 ≤ n ≤ max_request →
    ∃ p s' g', a_malloc n s = Ret p s' ∧
    (∀ q l, l ≠ [] → in_use g q (Z.of_nat (length l)) → bytes_at (amem s) q l →
       bytes_at (amem s') q l ∧ in_use g' q (Z.of_nat (length l))) ∧
    (p = NULL ∧ heap_inv s' g' live ∨
     p ≠ NULL ∧ heap_inv s' g' ((p, n) :: live) ∧
     ∀ q l, l ≠ [] → in_use g q (Z.of_nat (length l)) → bytes_at (amem s) q l →
       disjoint_ranges p n q (Z.of_nat (length l)));
  free_null s : a_free NULL s = Ret tt s;
  free_ok s g live p n :
    heap_inv s g ((p, n) :: live) →
    ∃ s' g', a_free p s = Ret tt s' ∧ heap_inv s' g' live ∧
    (∀ q l, l ≠ [] → in_use g q (Z.of_nat (length l)) → bytes_at (amem s) q l →
       disjoint_ranges p n q (Z.of_nat (length l)) →
       bytes_at (amem s') q l ∧ in_use g' q (Z.of_nat (length l)));
}.

#[export] Instance heap_inv_proper {S} `{AllocatorLaws S} :
  Proper ((=) ==> (=) ==> (≡ₚ) ==> iff) heap_inv.
Proof.
  intros s s' <- g g' <- l l' Hl. split; apply heap_inv_perm; [done|by symmetry].
Qed.

(** Pairwise disjointness does not depend on the order. *)
Lemma disjoint_perm (live live' : list block) :
  live ≡ₚ live' →
  ForallOrdPairs (λ b c, disjoint_ranges b.1 b.2 c.1 c.2) live →
  ForallOrdPairs (λ b c, disjoint_ranges b.1 b.2 c.1 c.2) live'.
Proof.
  induction 1 as [|b l l' Hp IH|b c l|l1 l2 l3 _ IH1 _ IH2]; [done| | |auto].
  - inversion 1; subst. constructor; [|auto]. by rewrite <-Hp.
  - inversion 1 as [|? ? Hb Hcl]; subst. inversion Hcl as [|? ? Hc Hl]; subst.
    apply Forall_cons in Hb as [Hbc Hb]. constructor.
    + constructor; [|done]. unfold disjoint_ranges in *. lia.
    + by constructor.
Qed.

(** Memory routines run inside the allocator's state. *)
Definition on_mem {S} `{Allocator S} {A} (c : C mem A) : C S A := zoom amem set_amem c.

(** ** The clients *)

Section clients.
Context {S : Type} `{Allocator S}.

Definition zalloc (size : Z) : C S Z :=
  ptr ← a_malloc size;
  if ptr =? NULL then mret ptr else
  on_mem (memset ptr 0 size);; mret ptr.

Definition calloc (nmemb size : Z) : C S Z := zalloc (u64 (nmemb * size)).

(** [l] is an [int]; it is converted to [size_t] at each call. *)
Definition strdup (s : Z) : C S Z :=
  n ← on_mem (strlen s);
  let l := s32 (u64 (n + 1)) in
  d ← a_malloc (u64 l);
  if d =? NULL then mret d else
  on_mem (memcpy d s (u64 l));; mret d.

Definition strndup (s n : Z) : C S Z :=
  l ← on_mem (strnlen s n);
  d ← a_malloc (u64 (l + 1));
  if d =? NULL then mret NULL else
  on_mem (memcpy d s l);;
  on_mem (store8 (d + l) 0);; mret d.
End clients.

(** ** Proofs against the laws *)

Section laws.
Context {S : Type} `{AllocatorLaws S}.
Implicit Types (s : S) (live : list block).

Lemma run_on_mem {A} (c : C mem A) s a m' :
  c (amem s) = Ret a m' → on_mem c s = Ret a (set_amem m' s).
Proof. intros E. unfold on_mem, zoom. by rewrite E. Qed.

(** Reads leave the state as it is. *)
Lemma run_on_mem_read {A} (c : C mem A) s a :
  c (amem s) = Ret a (amem s) → on_mem c s = Ret a s.
Proof. intros E. by rewrite (run_on_mem c s a _ E), set_amem_id. Qed.

(** What a client promises of a block it has filled with [l]. *)
Definition fresh_copy s (g : ghost) s' live p (l : list Z) : Prop := ∃ g',
  (p = NULL ∧ heap_inv s' g' live ∨
   p ≠ NULL ∧ heap_inv s' g' ((p, Z.of_nat (length l)) :: live) ∧ bytes_at (amem s') p l) ∧
  (∀ q k, k ≠ [] → in_use g q (Z.of_nat (length k)) → bytes_at (amem s) q k →
     bytes_at (amem s') q k ∧ in_use g' q (Z.of_nat (length k))).

(** What a client knows after an allocation that succeeded. *)
Definition fresh_block s (g : ghost) s' (g' : ghost) live p n : Prop :=
  p ≠ NULL ∧ heap_inv s' g' ((p, n) :: live) ∧ valid (amem s') p n ∧ in_use g' p n ∧
  ∀ q l, l ≠ [] → in_use g q (Z.of_nat (length l)) → bytes_at (amem s) q l →
    bytes_at (amem s') q l ∧ in_use g' q (Z.of_nat (length l)) ∧
    disjoint_ranges p n q (Z.of_nat (length l)).

Lemma run_malloc_fresh s g live n :
  heap_inv s g live → 0 ≤ n ≤ max_request →
  ∃ p s', a_malloc n s = Ret p s' ∧
  (p = NULL ∧ (∀ l, fresh_copy s g s' live NULL l) ∨
   ∃ g', fresh_block s g s' g' live p n).
Proof.
  intros Hs Hn. destruct (malloc_ok s g live n Hs Hn)
    as (p & s' & g' & Hrun & Hkeep & [[-> Hs']|(Hp & Hs' & Hd)]); exists p, s' || exists NULL, s'.
  - split; [done|]. left. split; [done|]. intros l. exists g'. by split; [left|].
  - split; [done|]. right. exists g'.
    destruct (heap_inv_block s' g' _ p n Hs') as (Hv & Hu & _); [left|].
    split_and!; [done..|]. intros q l Hne Hq Hl. destruct (Hkeep q l Hne Hq Hl). auto.
Qed.

(** Filling a block just allocated. *)
Lemma fill_fresh s g s1 g1 live p l :
  fresh_block s g s1 g1 live p (Z.of_nat (length l)) → Forall is_byte l →
  fresh_copy s g (set_amem (write_bytes (amem s1) p l) s1) live p l.
Proof.
  intros (Hp & Hinv & Hv & Hu & Hkeep) Hl. exists g1. rewrite amem_set. split.
  - right. split_and!; [done|by apply heap_inv_write|by apply write_bytes_at].
  - intros q k Hne Hq Hk. destruct (Hkeep q k Hne Hq Hk) as (Hk1 & Hu1 & Hd).
    split; [by apply write_bytes_frame|done].
Qed.

(** Writing inside of it, the block is still fresh. *)
Lemma fresh_block_write s g s1 g1 live p n l :
  fresh_block s g s1 g1 live p n → Z.of_nat (length l) ≤ n →
  fresh_block s g (set_amem (write_bytes (amem s1) p l) s1) g1 live p n.
Proof.
  intros (Hp & Hinv & Hv & Hu & Hkeep) Hl. unfold fresh_block. rewrite amem_set. split_and!; [done| | |done|].
  - apply heap_inv_write; [done|by apply (in_use_sub g1 p n); [|lia|lia]|by apply (valid_le _ _ n)].
  - by apply write_bytes_valid.
  - intros q k Hne Hq Hk. destruct (Hkeep q k Hne Hq Hk) as (Hk1 & Hu1 & Hd). split_and!; [|done|done].
    apply write_bytes_frame; [done|]. unfold disjoint_ranges in *. lia.
Qed.

Lemma run_zalloc_fresh s g live n :
  heap_inv s g live → 0 ≤ n ≤ max_request →
  ∃ p s', zalloc n s = Ret p s' ∧
  (p = NULL ∧ (∀ l, fresh_copy s g s' live NULL l) ∨
   ∃ g', fresh_block s g s' g' live p n ∧ bytes_at (amem s') p (replicate (Z.to_nat n) 0)).
Proof.
  intros Hs Hn. unfold zalloc.
  destruct (run_malloc_fresh s g live n Hs Hn) as (p & s1 & Hrun & [[-> Hf]|[g1 Hf]]);
    rewrite (run_bind_Ret _ _ _ _ _ Hrun).
  - eexists _, _. split; [done|by left].
  - pose proof Hf as (Hp & _ & Hv & _). rewrite (proj2 (Z.eqb_neq p NULL)) by done.
    rewrite (run_bind_Ret _ _ _ _ _ (run_on_mem _ _ _ _ (run_memset _ _ 0 n ltac:(lia) Hv))).
    eexists _, _. split; [done|]. right. exists g1. rewrite amem_set. change (u8 0) with 0. split.
    + apply fresh_block_write; [done|]. rewrite length_replicate. lia.
    + by apply write_bytes_at, Forall_replicate.
Qed.

Lemma run_zalloc s g live n :
  heap_inv s g live → 0 ≤ n ≤ max_request →
  ∃ p s', zalloc n s = Ret p s' ∧ fresh_copy s g s' live p (replicate (Z.to_nat n) 0).
Proof.
  intros Hs Hn. unfold zalloc.
  destruct (run_malloc_fresh s g live n Hs Hn) as (p & s1 & Hrun & [[-> Hf]|[g1 Hf]]);
    rewrite (run_bind_Ret _ _ _ _ _ Hrun).
  - eexists _, _. by split.
  - pose proof Hf as (Hp & _ & Hv & _). rewrite (proj2 (Z.eqb_neq p NULL)) by done.
    rewrite (run_bind_Ret _ _ _ _ _ (run_on_mem _ _ _ _ (run_memset _ _ 0 n ltac:(lia) Hv))).
    eexists _, _. split; [done|]. apply (fill_fresh s g s1 g1).
    + by rewrite length_replicate, Z2Nat.id by lia.
    + by apply Forall_replicate.
Qed.

(** The allocated copy of bytes that are in use, at the front of the block. *)
Lemma run_memcpy_fresh s g s1 g1 live p n q l :
  fresh_block s g s1 g1 live p n → Z.of_nat (length l) ≤ n →
  in_use g q (Z.of_nat (length l)) → bytes_at (amem s) q l →
  on_mem (memcpy p q (Z.of_nat (length l))) s1 =
  Ret p (set_amem (write_bytes (amem s1) p l) s1).
Proof.
  intros (_ & _ & Hv & _ & Hkeep) Hn Hq Hl.
  destruct (decide (l = [])) as [->|Hne].
  { apply run_on_mem, (run_memcpy _ p q []); [apply bytes_at_nil|intros i Hi; simpl in Hi; lia|simpl; lia]. }
  destruct (Hkeep q l Hne Hq Hl) as (Hl1 & _ & Hd).
  apply run_on_mem, run_memcpy; [done|by apply (valid_le _ _ n)|].
  unfold disjoint_ranges in Hd. lia.
Qed.

Lemma run_strdup s g live p t :
  heap_inv s g live → cstr (amem s) p t → in_use g p (Z.of_nat (length t) + 1) →
  Z.of_nat (length t) + 1 < 2 ^ 31 → Z.of_nat (length t) + 1 ≤ max_request →
  ∃ d s', strdup p s = Ret d s' ∧ fresh_copy s g s' live d (t ++ [0]).
Proof.
  intros Hs Ht Huse Hmax Hreq. unfold strdup.
  rewrite (run_bind_Ret _ _ _ _ _ (run_on_mem_read _ _ _ (run_strlen _ _ _ Ht))). cbn zeta.
  assert (Z.of_nat (length t) + 1 = Z.of_nat (length (t ++ [0]))) as El
    by (rewrite length_app; simpl; lia).
  rewrite El in *. rewrite (wrap_small 64 (Z.of_nat _)), sext_small, wrap_small by lia.
  destruct (run_malloc_fresh s g live (Z.of_nat (length (t ++ [0]))) Hs)
    as (d & s1 & Hrun & [[-> Hf]|[g1 Hf]]); [lia|..]; rewrite (run_bind_Ret _ _ _ _ _ Hrun).
  { eexists _, _. by split. }
  rewrite (proj2 (Z.eqb_neq d NULL)) by apply Hf.
  assert (bytes_at (amem s) p (t ++ [0])) as Hl by apply Ht.
  rewrite (run_bind_Ret _ _ _ _ _ (run_memcpy_fresh s g s1 g1 live d _ p _ Hf (Z.le_refl _) Huse Hl)).
  eexists _, _. split; [done|]. apply (fill_fresh s g s1 g1); [done|apply Hl].
Qed.

Lemma run_strndup s g live p t n :
  heap_inv s g live → cstr (amem s) p t → in_use g p (Z.of_nat (length t) + 1) → 0 ≤ n →
  Z.of_nat (length t) + 1 < 2 ^ 64 → Z.of_nat (length t) + 1 ≤ max_request →
  ∃ d s', strndup p n s = Ret d s' ∧ fresh_copy s g s' live d (take (Z.to_nat n) t ++ [0]).
Proof.
  intros Hs Ht Huse Hn Hmax Hreq. unfold strndup.
  rewrite (run_bind_Ret _ _ _ _ _ (run_on_mem_read _ _ _ (run_strnlen _ _ _ n Hn Ht))).
  set (t' := take (Z.to_nat n) t).
  assert (Z.of_nat (length t) `min` n = Z.of_nat (length t')) as ->
    by (unfold t'; rewrite length_take; lia).
  assert (length t' ≤ length t)%nat by (unfold t'; rewrite length_take; lia).
  assert (Z.of_nat (length t') + 1 = Z.of_nat (length (t' ++ [0]))) as El
    by (rewrite length_app; simpl; lia).
  rewrite wrap_small, El by lia.
  destruct (run_malloc_fresh s g live (Z.of_nat (length (t' ++ [0]))) Hs)
    as (d & s1 & Hrun & [[-> Hf]|[g1 Hf]]); [lia|..]; rewrite (run_bind_Ret _ _ _ _ _ Hrun).
  { eexists _, _. by split. }
  rewrite (proj2 (Z.eqb_neq d NULL)) by apply Hf.
  assert (bytes_at (amem s) p t') as Hl by (apply cstr_bytes in Ht; by apply bytes_at_take).
  rewrite (run_bind_Ret _ _ _ _ _ (run_memcpy_fresh s g s1 g1 live d _ p t' Hf ltac:(lia)
    (in_use_sub g p (Z.of_nat (length t) + 1) p (Z.of_nat (length t')) Huse ltac:(lia) ltac:(lia)) Hl)).
  assert (is_Some (write_bytes (amem s1) d t' !! (d + Z.of_nat (length t')))) as Hlast.
  { destruct Hf as (_ & _ & Hv & _). apply (write_bytes_valid _ _ _ _ _ Hv). lia. }
  erewrite (run_bind_Ret _ _ _ _ _
    (run_on_mem _ (set_amem (write_bytes (amem s1) d t') s1) _ _ _)).
  Unshelve. 4: { rewrite amem_set. by apply run_store8. }
  change (u8 0) with 0. rewrite <-write_bytes_snoc, set_amem_set.
  eexists _, _. split; [done|]. apply (fill_fresh s g s1 g1); [done|].
  apply Forall_app. split; [apply Hl|by repeat constructor].
Qed.
End laws.

(** ** Copying whole blocks

    [realloc] copies by the size of a block, of which the caller has filled a
    part. *)

Section block_copy.
Implicit Types (m : mem) (l : list Z).

(** A forward copy of any valid range returns, and writes nothing outside. *)
Lemma copy_up_any m q p k :
  valid m p (Z.of_nat k) → valid m q (Z.of_nat k) →
  ∃ m', copy_up q p (Z.of_nat k) m = Ret tt m' ∧
  (∀ a, a < q ∨ q + Z.of_nat k ≤ a → m' !! a = m !! a) ∧
  (∀ r n, valid m r n → valid m' r n).
Proof.
  unfold copy_up. rewrite Nat2Z.id. revert m q p. induction k as [|k IH]; intros m q p Hp Hq.
  { exists m. by rewrite run_loop. }
  destruct (valid_head _ p (Z.of_nat (S k)) ltac:(lia) Hp) as [b Hb].
  pose proof (valid_head _ q (Z.of_nat (S k)) ltac:(lia) Hq) as Hs.
  apply valid_tail in Hp, Hq.
  replace (Z.of_nat (S k) - 1) with (Z.of_nat k) in * by lia.
  destruct (IH (<[q := u8 (s8 b)]> m) (q + 1) (p + 1)) as (m' & Hrun & Hout & Hval);
    [by apply valid_insert..|].
  exists m'. split_and!.
  - cround. rewrite run_store8 by done. crun.
    by replace (Z.of_nat (S k) - 1) with (Z.of_nat k) by lia.
  - intros a Ha. rewrite Hout, lookup_insert_ne by lia. done.
  - intros r n Hr. by apply Hval, valid_insert.
Qed.

(** A forward copy that does not overwrite what it has still to read copies the
    bytes. *)
Lemma copy_up_app m q p l k :
  bytes_at m p l → valid m q (Z.of_nat (length l)) →
  p + Z.of_nat (length l) ≤ q ∨ q + Z.of_nat (length l) ≤ p →
  copy_up q p (Z.of_nat (length l + k)) m =
  copy_up (q + Z.of_nat (length l)) (p + Z.of_nat (length l)) (Z.of_nat k) (write_bytes m q l).
Proof.
  unfold copy_up. rewrite !Nat2Z.id. revert m q p.
  induction l as [|b l IH]; intros m q p Hl Hq Hle.
  { cbn [length Nat.add write_bytes]. by rewrite !Z.add_0_r. }
  apply bytes_at_cons in Hl as (Hb & Hp & Hl). cbn [length] in *.
  pose proof (valid_head _ q (Z.of_nat (S (length l))) ltac:(lia) Hq) as Hs. apply valid_tail in Hq.
  change (S (S (length l) + k)) with (S (S (length l + k))).
  cround. rewrite store8_byte by done. crun.
  replace (Z.of_nat (S (length l) + k) - 1) with (Z.of_nat (length l + k)) by lia.
  rewrite IH.
  - rewrite <-write_bytes_cons'.
    by replace (q + 1 + Z.of_nat (length l)) with (q + Z.of_nat (S (length l))) by lia;
      replace (p + 1 + Z.of_nat (length l)) with (p + Z.of_nat (S (length l))) by lia.
  - apply (bytes_at_ext m); [done|]. intros a Ha. apply lookup_insert_ne. lia.
  - apply valid_insert. by replace (Z.of_nat (length l)) with (Z.of_nat (S (length l)) - 1) by lia.
  - lia.
Qed.

(** What a copy of [n] bytes out of a block of contents [l] leaves. *)
Lemma memcpy_prefix m q p l n :
  bytes_at m p l → p + Z.of_nat (length l) ≤ q ∨ q + n ≤ p → 0 ≤ n → valid m p n → valid m q n →
  ∃ m', memcpy q p n m = Ret q m' ∧ bytes_at m' q (take (Z.to_nat n) l) ∧
  (∀ a, a < q ∨ q + n ≤ a → m' !! a = m !! a) ∧ (∀ r k, valid m r k → valid m' r k).
Proof.
  intros Hl Hle Hn Hp Hq. set (l' := take (Z.to_nat n) l).
  assert (Z.of_nat (length l') ≤ n ∧ Z.of_nat (length l') ≤ Z.of_nat (length l)) as [Hn' Hl']
    by (unfold l'; rewrite length_take; lia).
  set (k := (Z.to_nat n - length l')%nat).
  assert (bytes_at m p l') as Hpl by (by apply bytes_at_take).
  destruct (copy_up_any (write_bytes m q l') (q + Z.of_nat (length l'))
    (p + Z.of_nat (length l')) k) as (m' & Hrun & Hout & Hval).
  { apply write_bytes_valid, (valid_sub m p n); [done|lia|lia]. }
  { apply write_bytes_valid, (valid_sub m q n); [done|lia|lia]. }
  exists m'. split_and!.
  - unfold memcpy. replace n with (Z.of_nat (length l' + k)) by lia.
    rewrite run_bind, copy_up_app, Hrun; [done|done| |lia].
    apply (valid_le _ _ n); [lia|done].
  - apply (bytes_at_ext (write_bytes m q l')); [apply write_bytes_at, Hpl|].
    intros a Ha. apply Hout. lia.
  - intros a Ha. rewrite Hout by lia. apply lookup_write_bytes_out. lia.
  - intros r j Hr. by apply Hval, write_bytes_valid.
Qed.
End block_copy.
