(* ===== verification/HeapSpec.v ===== *)
(** * The abstract heap, and that an allocator refines it

    What a program may rely on: a set of live blocks and the bytes it has stored
    in them.  An allocation returns NULL or a block disjoint from the live ones,
    a release removes a block, and a byte read is the last byte written.  Any
    allocator that satisfies the laws of [Alloc] behaves like this under every
    client that keeps to the rules: the concrete run never goes wrong, it
    terminates, and what the client sees is a run of the abstract heap. *)

From Stdlib Require Import List.
From stdpp Require Import base tactics numbers list gmap.
From S2P Require Import Prelude Memory MemFns Alloc.

Open Scope Z_scope.

Record aheap := { a_live : list block; a_data : gmap Z Z }.

Inductive request := Malloc (n : Z) | FreeBlock (p : Z) | Write (a b : Z) | Read (a : Z).

(** The address is in a live block. *)
Definition in_block (live : list block) (a : Z) : Prop := ∃ p n, (p, n) ∈ live ∧ p ≤ a < p + n.

(** The client's part of the contract. *)
Definition allowed (max : Z) (h : aheap) (r : request) : Prop :=
  match r with
  | Malloc n => 0 ≤ n ≤ max
  | FreeBlock p => p = NULL ∨ ∃ n, (p, n) ∈ a_live h
  | Write a _ => in_block (a_live h) a
  | Read a => is_Some (a_data h !! a)
  end.

Definition forget (p n : Z) (d : gmap Z Z) : gmap Z Z := filter (λ x, x.1 < p ∨ p + n ≤ x.1) d.

(** The steps of the abstract heap, with the result the client sees. *)
Inductive astep (h : aheap) : request → Z → aheap → Prop :=
  | as_fail n : astep h (Malloc n) NULL h
  | as_malloc n p :
      p ≠ NULL → Forall (λ b, disjoint_ranges p n b.1 b.2) (a_live h) →
      astep h (Malloc n) p {| a_live := (p, n) :: a_live h; a_data := a_data h |}
  | as_free_null : astep h (FreeBlock NULL) 0 h
  | as_free p n live' :
      a_live h ≡ₚ (p, n) :: live' →
      astep h (FreeBlock p) 0 {| a_live := live'; a_data := forget p n (a_data h) |}
  | as_write a b :
      astep h (Write a b) 0 {| a_live := a_live h; a_data := <[a := u8 b]> (a_data h) |}
  | as_read a v : a_data h !! a = Some v → astep h (Read a) v h.

(** A client chooses its next request from the results so far. *)
Definition client := list Z → option request.

Inductive atrace (cl : client) (h0 : aheap) : aheap → list Z → Prop :=
  | at_nil : atrace cl h0 h0 []
  | at_step h tr r v h' :
      atrace cl h0 h tr → cl tr = Some r → astep h r v h' → atrace cl h0 h' (tr ++ [v]).

Definition well_behaved (max : Z) (cl : client) (h0 : aheap) : Prop :=
  ∀ h tr r, atrace cl h0 h tr → cl tr = Some r → allowed max h r.

Section refinement.
Context {S : Type} `{AllocatorLaws S}.
Implicit Types (s : S) (h : aheap) (cl : client).

(** The requests on the concrete state. *)
Definition exec (r : request) : C S Z :=
  match r with
  | Malloc n => a_malloc n
  | FreeBlock p => a_free p;; mret 0
  | Write a b => on_mem (store8 a b);; mret 0
  | Read a => on_mem (load8 a)
  end.

Fixpoint crun (k : nat) (cl : client) (tr : list Z) : C S (list Z) :=
  match k with
  | O => mret tr
  | Datatypes.S k =>
      match cl tr with
      | None => mret tr
      | Some r => v ← exec r; crun k cl (tr ++ [v])
      end
  end.

(** The concrete state holds the abstract one. *)
Definition refines s h : Prop := ∃ g, heap_inv s g (a_live h) ∧
  ∀ a v, a_data h !! a = Some v →
    is_byte v ∧ amem s !! a = Some v ∧ in_block (a_live h) a.

Lemma byte_at_single m a v : is_byte v ∧ m !! a = Some v ↔ bytes_at m a [v].
Proof. rewrite bytes_at_cons. split; [intros []|tauto]. auto. Qed.

Lemma in_block_use s g live a : heap_inv s g live → in_block live a → in_use g a 1 ∧ is_Some (amem s !! a).
Proof.
  intros Hs (p & n & Hb & Ha). destruct (heap_inv_block s g live p n Hs Hb) as (Hv & Hu & _).
  split; [apply (in_use_sub g p n); [done|lia|lia]|].
  replace a with (p + (a - p)) by lia. apply Hv. lia.
Qed.

Lemma exec_malloc s h n :
  refines s h → 0 ≤ n ≤ max_request →
  ∃ v s' h', exec (Malloc n) s = Ret v s' ∧ astep h (Malloc n) v h' ∧ refines s' h'.
Proof.
  intros (g & Hs & Hd) Hn. destruct (malloc_ok s g (a_live h) n Hs Hn)
    as (p & s' & g' & Hrun & Hkeep & Hres).
  assert (∀ a v, a_data h !! a = Some v → is_byte v ∧ amem s' !! a = Some v ∧ in_block (a_live h) a) as Hd'.
  { intros a v Hav. destruct (Hd a v Hav) as (Hb & Hm & Hin).
    destruct (Hkeep a [v]) as [Hk _]; [done|by apply (in_block_use s g (a_live h))|by apply byte_at_single|].
    apply byte_at_single in Hk as [? ?]. done. }
  exists p, s'. destruct Hres as [[-> Hs']|(Hp & Hs' & _)].
  - exists h. split_and!; [done|constructor|]. by exists g'.
  - eexists. split_and!; [done|constructor; [done|]|].
    + pose proof (heap_inv_disjoint s' g' _ Hs') as Hdis. by inversion Hdis.
    + exists g'. split; [done|]. intros a v Hav. destruct (Hd' a v Hav) as (? & ? & q & k & Hq & ?).
      split_and!; [done..|]. exists q, k. split; [by right|done].
Qed.

Lemma lookup_forget p n d a v : forget p n d !! a = Some v → d !! a = Some v ∧ (a < p ∨ p + n ≤ a).
Proof. intros Hf. by apply map_lookup_filter_Some in Hf. Qed.

Lemma exec_free s h p :
  refines s h → p = NULL ∨ (∃ n, (p, n) ∈ a_live h) →
  ∃ v s' h', exec (FreeBlock p) s = Ret v s' ∧ astep h (FreeBlock p) v h' ∧ refines s' h'.
Proof.
  intros (g & Hs & Hd) [->|[n Hin]].
  { exists 0, s, h. simpl. rewrite (run_bind_Ret _ _ _ _ _ (free_null s)).
    split_and!; [done|constructor|]. by exists g. }
  apply elem_of_Permutation in Hin as [live' Hp].
  pose proof (heap_inv_perm s g _ _ Hp Hs) as Hs1.
  destruct (free_ok s g live' p n Hs1) as (s' & g' & Hrun & Hs' & Hkeep).
  eexists 0, s', _. simpl. rewrite (run_bind_Ret _ _ _ _ _ Hrun).
  split_and!; [done|by eapply as_free|]. exists g'. split; [done|]. cbn [a_data a_live].
  intros a v Hav. apply lookup_forget in Hav as [Hav Hout].
  destruct (Hd a v Hav) as (Hb & Hm & Hblk).
  destruct (in_block_use s g _ a Hs Hblk) as [Hu _].
  destruct (Hkeep a [v]) as [Hk _]; [done|done|by apply byte_at_single| |].
  { unfold disjoint_ranges. simpl. lia. }
  apply byte_at_single in Hk as [_ ?]. split_and!; [done..|].
  destruct Hblk as (q & k & Hq & Ha). exists q, k. split; [|done].
  rewrite Hp in Hq. apply elem_of_cons in Hq as [E|Hq]; [|done]. simplify_eq. lia.
Qed.

Lemma exec_write s h a b :
  refines s h → in_block (a_live h) a →
  ∃ v s' h', exec (Write a b) s = Ret v s' ∧ astep h (Write a b) v h' ∧ refines s' h'.
Proof.
  intros (g & Hs & Hd) Hblk. destruct (in_block_use s g _ a Hs Hblk) as [Hu Hm].
  eexists 0, (set_amem (write_bytes (amem s) a [u8 b]) s), _. split_and!; [|constructor|].
  - simpl. rewrite (run_bind_Ret _ _ _ _ _ (run_on_mem _ _ _ _ (run_store8 _ _ b Hm))). done.
  - exists g. split.
    + apply heap_inv_write; [done|done|]. intros i Hi. simpl in Hi.
      by replace (a + i) with a by lia.
    + rewrite amem_set. cbn [a_data a_live write_bytes]. intros c v.
      destruct (decide (a = c)) as [<-|Hne].
      * rewrite !lookup_insert_eq. intros [= <-]. split_and!; [by apply wrap_range|done|done].
      * rewrite !lookup_insert_ne by done. apply Hd.
Qed.

Lemma exec_step s h r :
  refines s h → allowed max_request h r →
  ∃ v s' h', exec r s = Ret v s' ∧ astep h r v h' ∧ refines s' h'.
Proof.
  intros Hr Ha. destruct r as [n|p|a b|a]; simpl in Ha.
  - by apply exec_malloc.
  - by apply exec_free.
  - by apply exec_write.
  - destruct Ha as [v Hv]. pose proof Hr as (g & Hs & Hd). destruct (Hd a v Hv) as (_ & Hm & _).
    exists v, s, h. split_and!; [|by constructor|done].
    apply (run_on_mem_read (load8 a)). by apply run_load8.
Qed.

(** Every run of a well-behaved client is a run of the abstract heap. *)
Lemma client_refines k cl s h h0 tr :
  refines s h → atrace cl h0 h tr → well_behaved max_request cl h0 →
  ∃ tr' s' h', crun k cl tr s = Ret tr' s' ∧ atrace cl h0 h' tr' ∧ refines s' h'.
Proof.
  revert s h tr. induction k as [|k IH]; intros s h tr Hr Ht Hw; simpl.
  { by exists tr, s, h. }
  destruct (cl tr) as [r|] eqn:Er; [|by exists tr, s, h].
  destruct (exec_step s h r Hr (Hw h tr r Ht Er)) as (v & s1 & h1 & Hrun & Hstep & Hr1).
  rewrite (run_bind_Ret _ _ _ _ _ Hrun). apply (IH s1 h1); [done| |done].
  by apply (at_step cl h0 h tr r v h1).
Qed.
End refinement.

Definition empty_heap : aheap := {| a_live := []; a_data := ∅ |}.

(** ** A client *)

(** Allocate, write a byte, read it back, release. *)
Definition sample_client : client := λ tr,
  match tr with
  | [] => Some (Malloc 10)
  | [p] => if p =? NULL then None else Some (Write p 65)
  | [p; _] => Some (Read p)
  | [p; _; _] => Some (FreeBlock p)
  | _ => None
  end.

Lemma atrace_snoc cl h0 h tr v :
  atrace cl h0 h (tr ++ [v]) →
  ∃ h' r, atrace cl h0 h' tr ∧ cl tr = Some r ∧ astep h' r v h.
Proof.
  intros Ht. inversion Ht as [E|h' tr' r v' h'' Ht' Er Hstep E1 E2].
  - by destruct tr.
  - apply app_inj_tail in E2 as [-> ->]. by exists h', r.
Qed.

Lemma atrace_nil cl h0 h : atrace cl h0 h [] → h = h0.
Proof. inversion 1 as [|? tr]; [done|]. by destruct tr. Qed.

Lemma sample_client_1 h p :
  atrace sample_client empty_heap h [p] → p ≠ NULL → a_live h = [(p, 10)].
Proof.
  intros Ht Hp. apply (atrace_snoc _ _ _ []) in Ht as (h' & r & ->%atrace_nil & [= <-] & Hstep).
  by inversion Hstep.
Qed.

Lemma sample_client_2 h p u :
  atrace sample_client empty_heap h [p; u] → a_live h = [(p, 10)] ∧ is_Some (a_data h !! p).
Proof.
  intros Ht. apply (atrace_snoc _ _ _ [p]) in Ht as (h' & r & Ht & Er & Hstep). simpl in Er.
  destruct (Z.eqb_spec p NULL) as [|Hp]; [done|]. injection Er as <-.
  apply sample_client_1 in Ht; [|done]. inversion Hstep; subst. simpl. split; [done|].
  rewrite lookup_insert_eq. by eexists.
Qed.

Lemma sample_client_ok max : 10 ≤ max → well_behaved max sample_client empty_heap.
Proof.
  intros Hmax h tr r Ht Er. destruct tr as [|p [|u [|w [|? ?]]]]; simpl in Er; try done.
  - injection Er as <-. simpl. lia.
  - destruct (Z.eqb_spec p NULL) as [|Hp]; [done|]. injection Er as <-.
    apply sample_client_1 in Ht; [|done]. simpl. rewrite Ht. exists p, 10. split; [left|lia].
  - injection Er as <-. by apply sample_client_2 in Ht as [_ ?].
  - injection Er as <-. apply (atrace_snoc _ _ _ [p; u]) in Ht as (h' & r & Ht & [= <-] & Hstep).
    apply sample_client_2 in Ht as [Ht _]. inversion Hstep; subst. right. exists 10.
    rewrite Ht. left.
Qed.
