(* ===== verification/StaticHeap.v ===== *)
(** * The static allocator: [malloc.c] ([malloc_impl_static], [malloc],
    [free]), [realloc.c] ([realloc_impl_static], [realloc])

    The configuration [poet.h] selects a bump allocator over a 64 MB array: an
    allocation advances the 32-bit counter [heapcnt], rounded up to 16, and
    [free] does nothing.  The file shows that it implements the allocator
    interface for every request that does not wrap [size_t], that it does not
    for one that does, and what [realloc] preserves. *)

From Stdlib Require Import List.
From stdpp Require Import base tactics numbers list gmap.
From S2P Require Import Prelude Memory MemFns StrFns Alloc HeapSpec.

Open Scope Z_scope.

Definition KLIBC_MALLOC_STATIC_SIZE : Z := 64 * 1024 * 1024.

(** The static data of [malloc_impl_static] and the memory; [heap] is the
    address of the array. *)
Record static_heap := { heap : Z; heapcnt : Z; heap_mem : mem }.

Definition set_heapcnt (c : Z) (s : static_heap) : static_heap :=
  {| heap := heap s; heapcnt := c; heap_mem := heap_mem s |}.

Definition set_heap_mem (m : mem) (s : static_heap) : static_heap :=
  {| heap := heap s; heapcnt := heapcnt s; heap_mem := m |}.

Definition malloc_impl_static (size : Z) : C static_heap Z :=
  s ← get;
  if KLIBC_MALLOC_STATIC_SIZE <=? u64 (size + heapcnt s) then mret NULL else
  let ptr := heap s + heapcnt s in
  let c := u32 (heapcnt s + size) in
  let c := if c mod 16 =? 0 then c else u32 (c + (16 - c mod 16)) in
  put (set_heapcnt c s);; mret ptr.

Definition malloc (size : Z) : C static_heap Z := malloc_impl_static size.

Definition free (ptr : Z) : C static_heap unit := mret tt.

#[export] Instance static_allocator : Allocator static_heap :=
  {| amem := heap_mem; set_amem := set_heap_mem; a_malloc := malloc; a_free := free |}.

Definition realloc_impl_static (ptr size : Z) : C static_heap Z :=
  if ptr =? NULL then malloc size else
  ptr2 ← malloc size;
  (if negb (ptr2 =? NULL) then on_mem (memcpy ptr2 ptr size);; mret tt else mret tt);;
  free ptr;;
  mret ptr2.

Definition realloc (ptr size : Z) : C static_heap Z := realloc_impl_static ptr size.

(** ** The invariant *)

Definition static_inv (s : static_heap) (live : list block) : Prop :=
  0 < heap s ≤ 2 ^ 63 ∧ 0 ≤ heapcnt s ≤ KLIBC_MALLOC_STATIC_SIZE ∧ (16 | heapcnt s) ∧
  valid (heap_mem s) (heap s) KLIBC_MALLOC_STATIC_SIZE ∧
  Forall (λ b, heap s ≤ b.1 ∧ 0 ≤ b.2 ∧ b.1 + b.2 ≤ heap s + heapcnt s) live ∧
  ForallOrdPairs (λ b c, disjoint_ranges b.1 b.2 c.1 c.2) live.

(** Not the part of the array above the counter; the ghost is the array's
    address and the counter. *)
Definition static_in_use (g : Z * Z) (p n : Z) : Prop :=
  disjoint_ranges p n (g.1 + g.2) (KLIBC_MALLOC_STATIC_SIZE - g.2).

Definition static_ghost (s : static_heap) : Z * Z := (heap s, heapcnt s).

Section proofs.
Implicit Types (s : static_heap) (live : list block).

Definition round16 (c : Z) : Z := (c + 15) / 16 * 16.

Lemma round16_spec c : 0 ≤ c → c ≤ round16 c < c + 16 ∧ (16 | round16 c).
Proof.
  intros Hc. unfold round16. pose proof (Z.div_mod (c + 15) 16 ltac:(lia)).
  pose proof (Z.mod_pos_bound (c + 15) 16 ltac:(lia)).
  split; [lia|by exists ((c + 15) / 16)].
Qed.

Lemma round16_if c : 0 ≤ c → (if c mod 16 =? 0 then c else c + (16 - c mod 16)) = round16 c.
Proof.
  intros Hc. unfold round16. pose proof (Z.div_mod (c + 15) 16 ltac:(lia)).
  pose proof (Z.mod_pos_bound (c + 15) 16 ltac:(lia)).
  pose proof (Z.div_mod c 16 ltac:(lia)). pose proof (Z.mod_pos_bound c 16 ltac:(lia)).
  destruct (Z.eqb_spec (c mod 16) 0); lia.
Qed.

(** Both outcomes of an allocation. *)
Lemma run_malloc s n :
  0 ≤ heapcnt s ≤ KLIBC_MALLOC_STATIC_SIZE → 0 ≤ n → n + heapcnt s < 2 ^ 64 →
  malloc n s =
  if KLIBC_MALLOC_STATIC_SIZE <=? n + heapcnt s then Ret NULL s
  else Ret (heap s + heapcnt s) (set_heapcnt (round16 (heapcnt s + n)) s).
Proof.
  intros Hc Hn Hmax. unfold malloc, malloc_impl_static. unfold KLIBC_MALLOC_STATIC_SIZE in *.
  rewrite run_bind. unfold get. rewrite (wrap_small 64) by lia.
  destruct (Z.leb_spec (64 * 1024 * 1024) (n + heapcnt s)) as [Hle|Hlt]; [done|].
  cbn zeta. rewrite (wrap_small 32 (heapcnt s + n)) by lia.
  rewrite <-(round16_if (heapcnt s + n)) by lia.
  pose proof (Z.mod_pos_bound (heapcnt s + n) 16 ltac:(lia)).
  destruct (Z.eqb_spec ((heapcnt s + n) mod 16) 0); [done|].
  by rewrite (wrap_small 32 (_ + (16 - _))) by lia.
Qed.

Lemma static_malloc_ok s live n :
  static_inv s live → 0 ≤ n ≤ 2 ^ 64 - 1 - KLIBC_MALLOC_STATIC_SIZE →
  ∃ p s', malloc n s = Ret p s' ∧ heap_mem s' = heap_mem s ∧
  (∀ q k, static_in_use (static_ghost s) q k → static_in_use (static_ghost s') q k) ∧
  (p = NULL ∧ static_inv s' live ∨
   p ≠ NULL ∧ static_inv s' ((p, n) :: live) ∧
   ∀ q k, static_in_use (static_ghost s) q k → 0 ≤ k → disjoint_ranges p n q k).
Proof.
  intros (Hh & Hc & Ha & Hv & Hin & Hdis) Hn. rewrite run_malloc by lia.
  destruct (Z.leb_spec KLIBC_MALLOC_STATIC_SIZE (n + heapcnt s)) as [Hle|Hlt].
  { eexists _, _. split_and!; [done|done|done|]. left. split; [done|].
    by repeat (split; [done|]). }
  destruct (round16_spec (heapcnt s + n)) as [Hr Hr16]; [lia|].
  assert (round16 (heapcnt s + n) ≤ KLIBC_MALLOC_STATIC_SIZE) as Hmax.
  { destruct Hr16 as [k Ek]. unfold KLIBC_MALLOC_STATIC_SIZE in *. lia. }
  eexists _, _. split_and!; [done|done| |right; split_and!].
  - unfold static_in_use, disjoint_ranges. simpl. lia.
  - unfold NULL. lia.
  - unfold static_inv. simpl. split_and!; try done; try lia.
    + constructor; [simpl; lia|]. eapply Forall_impl; [exact Hin|]. simpl. lia.
    + constructor; [|done]. eapply Forall_impl; [exact Hin|].
      unfold disjoint_ranges. simpl. lia.
  - unfold static_in_use, disjoint_ranges. simpl. lia.
Qed.

Lemma static_inv_tail s b live : static_inv s (b :: live) → static_inv s live.
Proof.
  intros (Hh & Hc & Ha & Hv & Hin & Hd). apply Forall_cons in Hin as [_ Hin].
  inversion Hd; subst. by repeat (split; [done|]).
Qed.

#[export] Program Instance static_laws : AllocatorLaws static_heap :=
  {| max_request := 2 ^ 64 - 1 - KLIBC_MALLOC_STATIC_SIZE;
     ghost := (Z * Z)%type;
     heap_inv s g live := static_inv s live ∧ g = static_ghost s;
     in_use := static_in_use |}.
Next Obligation. done. Qed.
Next Obligation. done. Qed.
Next Obligation. by intros []. Qed.
Next Obligation.
  unfold static_in_use, disjoint_ranges. intros. simpl in *. lia.
Qed.
Next Obligation.
  intros s g live live' Hp [(Hh & Hc & Ha & Hv & Hin & Hd) ->]. split; [|done].
  repeat (split; [done|]). split; [by rewrite <-Hp|]. by apply (disjoint_perm live).
Qed.
Next Obligation.
  intros s g live p n [(Hh & Hc & _ & Hv & Hin & _) ->] Hp. rewrite Forall_forall in Hin.
  destruct (Hin _ Hp) as (H1 & H2 & H3). simpl in *. split_and!.
  - apply (valid_sub _ (heap s) KLIBC_MALLOC_STATIC_SIZE); [done|lia|lia].
  - left. simpl. lia.
  - lia.
  - unfold KLIBC_MALLOC_STATIC_SIZE in *. lia.
Qed.
Next Obligation. intros s g live [H _]. apply H. Qed.
Next Obligation.
  intros s g live p l [(Hh & Hc & Ha & Hv & Hin & Hd) ->] _ Hvp. split; [|done].
  repeat (split; [done|]). split; [by apply write_bytes_valid|]. done.
Qed.
Next Obligation.
  intros s g live n [Hs ->] Hn. destruct (static_malloc_ok s live n Hs Hn)
    as (p & s' & Hrun & Hm & Hu & Hres).
  exists p, s', (static_ghost s'). split; [done|]. cbn [amem static_allocator] in *. rewrite Hm.
  split; [auto|]. destruct Hres as [[-> Hs']|(Hp & Hs' & Hd)]; [by left|right].
  split_and!; [done..|]. intros q l _ Hq _. apply Hd; [done|lia].
Qed.
Next Obligation. done. Qed.
Next Obligation.
  intros s g live p n [Hs ->]. exists s, (static_ghost s). split; [done|].
  split; [|auto]. split; [by apply static_inv_tail in Hs|done].
Qed.
End proofs.

(** ** Growing and shrinking *)

Section realloc.
Implicit Types (m : mem) (s : static_heap) (live : list block) (l : list Z).

Lemma run_realloc s live ptr l n :
  static_inv s live → (ptr, Z.of_nat (length l)) ∈ live → bytes_at (heap_mem s) ptr l →
  0 ≤ n ≤ 2 ^ 64 - 1 - KLIBC_MALLOC_STATIC_SIZE →
  ∃ p s', realloc ptr n s = Ret p s' ∧
  (p = NULL ∧ s' = s ∨
   p ≠ NULL ∧ static_inv s' ((p, n) :: live) ∧
   bytes_at (heap_mem s') p (take (Z.to_nat n) l) ∧
   (∀ q k, static_in_use (static_ghost s) q (Z.of_nat (length k)) →
      bytes_at (heap_mem s) q k → bytes_at (heap_mem s') q k)).
Proof.
  intros Hs Hptr Hl Hn.
  destruct (@heap_inv_block _ _ static_laws s (static_ghost s) live _ _ (conj Hs eq_refl) Hptr) as (_ & _ & Hpos).
  destruct (static_malloc_ok s live n Hs Hn) as (p & s1 & Hrun & _ & _ & Hres).
  unfold realloc, realloc_impl_static. rewrite (proj2 (Z.eqb_neq ptr NULL)) by (unfold NULL; lia).
  rewrite (run_bind_Ret _ _ _ _ _ Hrun).
  destruct Hs as (Hh & Hc & Ha & Hv & Hin & Hdis).
  rewrite run_malloc in Hrun by lia. rewrite Forall_forall in Hin.
  destruct (Hin _ Hptr) as (Hp1 & Hp2 & Hp3). cbn [fst snd] in *.
  destruct (Z.leb_spec KLIBC_MALLOC_STATIC_SIZE (n + heapcnt s)) as [Hle|Hlt];
    injection Hrun as <- <-.
  { eexists _, _. split; [done|]. by left. }
  destruct Hres as [[Hnul _]|(Hp & Hs1 & Hd)]; [unfold NULL in Hnul; lia|].
  rewrite (proj2 (Z.eqb_neq _ NULL)) by done. cbn [negb].
  destruct (memcpy_prefix (heap_mem s) (heap s + heapcnt s) ptr l n) as
    (m' & Hcpy & Hpre & Hout & Hval); [done|lia|lia| | |].
  { apply (valid_sub _ (heap s) KLIBC_MALLOC_STATIC_SIZE); [done|lia|lia]. }
  { apply (valid_sub _ (heap s) KLIBC_MALLOC_STATIC_SIZE); [done|lia|lia]. }
  rewrite run_bind. erewrite run_bind_Ret.
  2: { apply run_on_mem. exact Hcpy. }
  eexists _, _. split; [done|]. right. split_and!; [done| |done|].
  - destruct Hs1 as (? & H0 & ? & ? & ? & ?). unfold static_inv.
    repeat (split; [done|]). split; [by apply Hval|done].
  - intros q k Hq Hk. apply (bytes_at_ext (heap_mem s)); [done|]. intros a Ha'. apply Hout.
    destruct (Hd q (Z.of_nat (length k)) Hq ltac:(lia)); lia.
Qed.
End realloc.

(** ** Theorems *)

(** For every size that does not wrap when added to the counter, malloc
    either returns NULL because the array is used up, leaving the state as it
    is, or returns a 16-aligned block of the array above every block handed out
    before, disjoint from all of them, and the invariant (counter in range and
    aligned, live blocks below it and pairwise disjoint) holds again. *)
Theorem static_malloc_correct s live n :
  static_inv s live → 0 ≤ n → n + heapcnt s < 2 ^ 64 →
  (KLIBC_MALLOC_STATIC_SIZE ≤ n + heapcnt s ∧ malloc n s = Ret NULL s) ∨
  (n + heapcnt s < KLIBC_MALLOC_STATIC_SIZE ∧
   ∃ p s', malloc n s = Ret p s' ∧ (16 | p - heap s) ∧ p + n ≤ heap s + KLIBC_MALLOC_STATIC_SIZE ∧
   static_inv s' ((p, n) :: live) ∧ heap_mem s' = heap_mem s ∧
   Forall (λ b, b.1 + b.2 ≤ p) live).
Proof.
  intros Hs Hn Hmax. pose proof (static_malloc_ok s live n Hs) as Hok.
  pose proof Hs as (Hh & Hc & Ha & Hv & Hin & Hdis).
  rewrite run_malloc in * by lia.
  destruct (Z.leb_spec KLIBC_MALLOC_STATIC_SIZE (n + heapcnt s)) as [Hle|Hlt]; [by left|right].
  split; [done|]. destruct Hok as (p & s' & [= <- <-] & _ & _ & [[Hnul _]|(_ & Hs' & _)]).
  { unfold KLIBC_MALLOC_STATIC_SIZE in *. lia. }
  { unfold NULL in Hnul. lia. }
  eexists _, _. split_and!; [done| |lia|done|done|].
  - by replace (heap s + heapcnt s - heap s) with (heapcnt s) by lia.
  - eapply Forall_impl; [exact Hin|]. simpl. lia.
Qed.

(** A heap state for the examples: the array at 4096, all zero, 32 bytes
    handed out.  The memory is kept opaque, since it is large. *)
Lemma zero_heap_sig :
  { m : mem | ∀ p k, 4096 ≤ p → p + Z.of_nat k ≤ 4096 + KLIBC_MALLOC_STATIC_SIZE →
    bytes_at m p (replicate k 0) }.
Proof.
  exists (write_bytes ∅ 4096 (replicate (Z.to_nat KLIBC_MALLOC_STATIC_SIZE) 0)).
  intros p k Hp Hk. split; [by apply Forall_replicate|]. intros i b Hi.
  apply lookup_replicate in Hi as [-> Hi].
  rewrite lookup_write_bytes, length_replicate, decide_True by lia.
  apply lookup_replicate. lia.
Qed.

Definition zero_heap : mem := proj1_sig zero_heap_sig.

Definition sample_heap : static_heap :=
  {| heap := 4096; heapcnt := 32; heap_mem := zero_heap |}.

Lemma zero_heap_bytes p k :
  4096 ≤ p → p + Z.of_nat k ≤ 4096 + KLIBC_MALLOC_STATIC_SIZE →
  bytes_at zero_heap p (replicate k 0).
Proof. apply (proj2_sig zero_heap_sig). Qed.

Lemma sample_heap_inv : static_inv sample_heap [(4096, 20)].
Proof.
  split_and!; [simpl; lia|simpl; lia|simpl; lia|by vm_compute|by exists 2| | |].
  - pose proof (bytes_at_valid _ _ _ (zero_heap_bytes 4096 (Z.to_nat KLIBC_MALLOC_STATIC_SIZE)
      ltac:(lia) ltac:(unfold KLIBC_MALLOC_STATIC_SIZE; lia))) as H.
    rewrite length_replicate, Z2Nat.id in H by (by vm_compute). exact H.
  - repeat constructor; simpl; lia.
  - repeat constructor.
Qed.

Lemma static_malloc_correct_witness :
  ∃ p s', malloc 10 sample_heap = Ret p s' ∧ (16 | p - 4096).
Proof.
  destruct (static_malloc_correct sample_heap [(4096, 20)] 10)
    as [[H _]|(_ & p & s' & H1 & H2 & _)].
  - apply sample_heap_inv.
  - lia.
  - by vm_compute.
  - exfalso. by apply H.
  - exists p, s'. exact (conj H1 H2).
Defined.

(** The bound check adds in [size_t], so a request within 64 MB of the top
    of the range wraps: whenever at least 16 bytes have been handed out,
    malloc(2^64 - 16) succeeds and moves the counter back by 16, below blocks
    that are live. *)
Theorem static_malloc_wraps s live :
  static_inv s live → 16 ≤ heapcnt s →
  malloc (2 ^ 64 - 16) s = Ret (heap s + heapcnt s) (set_heapcnt (heapcnt s - 16) s).
Proof.
  intros (Hh & Hc & [k Ha] & Hv & Hin & Hdis) H16. unfold malloc, malloc_impl_static.
  unfold KLIBC_MALLOC_STATIC_SIZE in *. rewrite run_bind. unfold get.
  assert (u64 (2 ^ 64 - 16 + heapcnt s) = heapcnt s - 16) as ->.
  { unfold wrap. rewrite <-(Z_mod_plus_full _ (-1)), Z.mod_small by lia. lia. }
  rewrite (proj2 (Z.leb_gt _ _)) by lia. cbn zeta.
  assert (u32 (heapcnt s + (2 ^ 64 - 16)) = heapcnt s - 16) as ->.
  { unfold wrap. rewrite <-(Z_mod_plus_full _ (- 2 ^ 32)), Z.mod_small by lia. lia. }
  assert ((heapcnt s - 16) mod 16 = 0) as ->; [|done].
  rewrite Ha. replace (k * 16 - 16) with ((k - 1) * 16) by lia. apply Z.mod_mul. lia.
Qed.

Lemma static_malloc_wraps_witness :
  malloc (2 ^ 64 - 16) sample_heap = Ret 4128 (set_heapcnt 16 sample_heap).
Proof. apply (static_malloc_wraps sample_heap [(4096, 20)]); [apply sample_heap_inv|by vm_compute]. Defined.

(** Realloc of a live block returns NULL with the state unchanged, or a new
    block that starts with the old contents, cut at the new size, while every
    byte in use keeps its value (the copy reads past the old block when it
    grows, but only inside the array). *)
Theorem static_realloc_prefix s live ptr l n :
  static_inv s live → (ptr, Z.of_nat (length l)) ∈ live → bytes_at (heap_mem s) ptr l →
  0 ≤ n ≤ 2 ^ 64 - 1 - KLIBC_MALLOC_STATIC_SIZE →
  ∃ p s', realloc ptr n s = Ret p s' ∧
  (p = NULL ∧ s' = s ∨
   p ≠ NULL ∧ static_inv s' ((p, n) :: live) ∧
   bytes_at (heap_mem s') p (take (Z.to_nat n) l) ∧
   (∀ q k, static_in_use (static_ghost s) q (Z.of_nat (length k)) →
      bytes_at (heap_mem s) q k → bytes_at (heap_mem s') q k)).
Proof. apply run_realloc. Qed.

Lemma static_realloc_prefix_witness :
  ∃ p s', realloc 4096 100 sample_heap = Ret p s' ∧
  (p = NULL ∧ s' = sample_heap ∨ bytes_at (heap_mem s') p (replicate 20 0)).
Proof.
  destruct (static_realloc_prefix sample_heap [(4096, 20)] 4096 (replicate 20 0) 100)
    as (p & s' & H1 & H2).
  - apply sample_heap_inv.
  - left.
  - apply zero_heap_bytes; [lia|by vm_compute].
  - split; by vm_compute.
  - exists p, s'. split; [exact H1|]. destruct H2 as [H2|(_ & _ & H2 & _)].
    + left. exact H2.
    + right. exact H2.
Defined.

(** Zalloc and calloc return NULL or a fresh zeroed block of the size asked
    for, and calloc does so for the product modulo 2^64: on an overflowing
    product the block is smaller than the array requested. *)
Theorem calloc_zeroed s live nmemb size :
  static_inv s live → 0 ≤ nmemb → 0 ≤ size →
  let n := u64 (nmemb * size) in
  n ≤ 2 ^ 64 - 1 - KLIBC_MALLOC_STATIC_SIZE →
  (∃ p s', calloc nmemb size s = Ret p s' ∧
     fresh_copy s (static_ghost s) s' live p (replicate (Z.to_nat n) 0)) ∧
  (2 ^ 64 ≤ nmemb * size → n < nmemb * size).
Proof.
  intros Hs Hm Hsz n Hn. assert (0 ≤ n < 2 ^ 64) by (by apply wrap_range).
  split; [|lia]. apply (@run_zalloc _ _ static_laws s (static_ghost s) live n); [done|]. split; [lia|exact Hn].
Qed.

Lemma calloc_zeroed_witness :
  ∃ p s', calloc 3 4 sample_heap = Ret p s' ∧
    fresh_copy sample_heap (4096, 32) s' [(4096, 20)] p (replicate 12 0).
Proof.
  apply (calloc_zeroed sample_heap [(4096, 20)] 3 4);
    [apply sample_heap_inv|lia|lia|by vm_compute].
Defined.

(** Strdup and strndup return NULL or a fresh block holding the string, cut
    at the limit for strndup, with its terminator; nothing in use changes. *)
Theorem strdup_copies s live p t n :
  static_inv s live → cstr (heap_mem s) p t →
  static_in_use (static_ghost s) p (Z.of_nat (length t) + 1) →
  Z.of_nat (length t) + 1 < 2 ^ 31 → 0 ≤ n →
  (∃ d s', strdup p s = Ret d s' ∧ fresh_copy s (static_ghost s) s' live d (t ++ [0])) ∧
  (∃ d s', strndup p n s = Ret d s' ∧
     fresh_copy s (static_ghost s) s' live d (take (Z.to_nat n) t ++ [0])).
Proof.
  intros Hs Ht Hu Hlen Hn. assert (2 ^ 31 ≤ 2 ^ 64 - 1 - KLIBC_MALLOC_STATIC_SIZE) by by vm_compute.
  split.
  - apply run_strdup; try done. change max_request with (2 ^ 64 - 1 - KLIBC_MALLOC_STATIC_SIZE). lia.
  - apply run_strndup; try done; [lia|].
    change max_request with (2 ^ 64 - 1 - KLIBC_MALLOC_STATIC_SIZE). lia.
Qed.

Lemma strdup_copies_witness :
  ∃ d s', strdup 4096 sample_heap = Ret d s' ∧ fresh_copy sample_heap (4096, 32) s' [(4096, 20)] d [0].
Proof.
  apply (strdup_copies sample_heap [(4096, 20)] 4096 [] 0).
  - apply sample_heap_inv.
  - apply cstr_nil. destruct (zero_heap_bytes 4096 1) as [_ H]; [lia|by vm_compute|].
    exact (H 0%nat 0 eq_refl).
  - left. by vm_compute.
  - by vm_compute.
  - lia.
Defined.

(** C34: the static allocator refines the abstract heap: from a heap with nothing
    handed out, every run of a client that keeps to the contract of the interface
    terminates without undefined behaviour, and what the client sees is a run of
    the abstract heap, whose live blocks are pairwise disjoint and whose bytes are
    those in memory. *)
Theorem static_heap_refines s cl k :
  static_inv s [] → well_behaved (2 ^ 64 - 1 - KLIBC_MALLOC_STATIC_SIZE) cl empty_heap →
  ∃ tr s' h', crun k cl [] s = Ret tr s' ∧ atrace cl empty_heap h' tr ∧
  ForallOrdPairs (λ b c : block, disjoint_ranges b.1 b.2 c.1 c.2) (a_live h') ∧
  (∀ a v, a_data h' !! a = Some v → heap_mem s' !! a = Some v).
Proof.
  intros Hs Hcl. destruct (client_refines k cl s empty_heap empty_heap [])
    as (tr & s' & h' & Hrun & Ht & g & Hinv & Hd); [|by constructor|done|].
  - exists (static_ghost s). by split.
  - exists tr, s', h'. split_and!; [done|done|by eapply heap_inv_disjoint|].
    intros a v Hv. by destruct (Hd a v Hv) as (_ & ? & _).
Qed.

Lemma static_heap_refines_witness :
  ∃ tr s' h', crun 4 sample_client [] sample_heap = Ret tr s' ∧ atrace sample_client empty_heap h' tr.
Proof.
  destruct (static_heap_refines sample_heap sample_client 4) as (tr & s' & h' & H1 & H2 & _).
  - exact (static_inv_tail _ _ _ sample_heap_inv).
  - apply sample_client_ok. by vm_compute.
  - exact (ex_intro _ tr (ex_intro _ s' (ex_intro _ h' (conj H1 H2)))).
Defined.
