(* ===== verification/Arena.v ===== *)
(** * The arena allocator: [malloc.h], [malloc.c] ([malloc_impl_orig],
    [free_impl_orig]), [realloc.c] ([realloc_impl_orig])

    The original allocator of klibc.  Every block starts with a header in
    memory: its type, its size and the links of the list of all blocks, sorted
    by address; a free block also has the links of the free list.  Both lists are
    circular and doubly linked through [__malloc_head].  The operations below
    work on the headers in the byte memory, field by field in the order of the
    code; [ArenaOps] shows what they do. *)

From stdpp Require Import base tactics numbers list gmap.
From S2P Require Import Prelude Memory Words MemFns.

Open Scope Z_scope.

(** ** Layout *)

(** The fields of [struct free_arena_header]: their offsets. *)
Definition TYPE : Z := 0.
Definition SIZE : Z := 8.
Definition NEXT : Z := 16.
Definition PREV : Z := 24.
Definition NEXT_FREE : Z := 32.
Definition PREV_FREE : Z := 40.

(** [sizeof (struct arena_header)] *)
Definition ARENA_HEADER : Z := 32.

Definition ARENA_TYPE_USED : Z := 0.
Definition ARENA_TYPE_FREE : Z := 1.
Definition ARENA_TYPE_HEAD : Z := 2.

Definition _KLIBC_MALLOC_CHUNK_SIZE : Z := 65536.
Definition MALLOC_CHUNK_MASK : Z := _KLIBC_MALLOC_CHUNK_SIZE - 1.
Definition ARENA_SIZE_MASK : Z := u64 (Z.lnot (ARENA_HEADER - 1)).

Definition MAP_FAILED : Z := 2 ^ 64 - 1.

(** What the allocator uses of the system: where [mmap] places a new mapping of
    a given length in a given memory, and the page size. *)
Record kernel := {
  k_mmap : mem → Z → option Z;
  page_size : Z;
}.

(** The memory after unmapping a range. *)
Definition unmap (m : mem) (p n : Z) : mem := filter (λ x, x.1 < p ∨ p + n ≤ x.1) m.

Section arena.
Context (K : kernel).
(** The address of [__malloc_head]. *)
Context (__malloc_head : Z).

Definition mmap (length : Z) : C mem Z := λ m,
  match k_mmap K m length with
  | Some p => Ret p (write_bytes m p (replicate (Z.to_nat length) 0))
  | None => Ret MAP_FAILED m
  end.

Definition munmap (start length : Z) : C mem unit := λ m, Ret tt (unmap m start length).

Definition getpagesize : C mem Z := mret (page_size K).

(** ** The chains *)

Definition remove_from_main_chain (ah : Z) : C mem unit :=
  ap ← load64 (ah + PREV);
  an ← load64 (ah + NEXT);
  store64 (ap + NEXT) an;;
  store64 (an + PREV) ap.

Definition remove_from_free_chain (ah : Z) : C mem unit :=
  ap ← load64 (ah + PREV_FREE);
  an ← load64 (ah + NEXT_FREE);
  store64 (ap + NEXT_FREE) an;;
  store64 (an + PREV_FREE) ap.

Definition remove_from_chains (ah : Z) : C mem unit :=
  remove_from_free_chain ah;;
  remove_from_main_chain ah.

(** ** Allocation *)

Definition __malloc_from_block (fp size : Z) : C mem Z :=
  fsize ← load64 (fp + SIZE);
  (if u64 (size + 2 * ARENA_HEADER) <=? fsize then
     let nfp := fp + size in
     na ← load64 (fp + NEXT);
     store64 (nfp + TYPE) ARENA_TYPE_FREE;;
     store64 (nfp + SIZE) (u64 (fsize - size));;
     store64 (fp + TYPE) ARENA_TYPE_USED;;
     store64 (fp + SIZE) size;;
     store64 (nfp + PREV) fp;;
     store64 (nfp + NEXT) na;;
     store64 (na + PREV) nfp;;
     store64 (fp + NEXT) nfp;;
     fpn ← load64 (fp + NEXT_FREE);
     store64 (nfp + NEXT_FREE) fpn;;
     fpp ← load64 (fp + PREV_FREE);
     store64 (nfp + PREV_FREE) fpp;;
     store64 (fpn + PREV_FREE) nfp;;
     store64 (fpp + NEXT_FREE) nfp
   else
     store64 (fp + TYPE) ARENA_TYPE_USED;;
     remove_from_free_chain fp);;
  mret (fp + ARENA_HEADER).

(** [a] is free and ends where [b] starts. *)
Definition free_before (a b : Z) : C mem bool :=
  ty ← load64 (a + TYPE);
  if ty =? ARENA_TYPE_FREE then sz ← load64 (a + SIZE); mret (a + sz =? b) else mret false.

(** [b] is free and starts where [a] ends. *)
Definition free_after (a b : Z) : C mem bool :=
  ty ← load64 (b + TYPE);
  if ty =? ARENA_TYPE_FREE then sz ← load64 (a + SIZE); mret (a + sz =? b) else mret false.

(** Merge into the free block before, or enter the free list. *)
Definition coalesce_prev (ah pah nah : Z) : C mem Z :=
  before ← free_before pah ah;
  if before : bool then
    psz ← load64 (pah + SIZE);
    sz ← load64 (ah + SIZE);
    store64 (pah + SIZE) (u64 (psz + sz));;
    store64 (pah + NEXT) nah;;
    store64 (nah + PREV) pah;;
    mret pah
  else
    store64 (ah + TYPE) ARENA_TYPE_FREE;;
    nf ← load64 (__malloc_head + NEXT_FREE);
    store64 (ah + NEXT_FREE) nf;;
    store64 (ah + PREV_FREE) __malloc_head;;
    store64 (__malloc_head + NEXT_FREE) ah;;
    nf ← load64 (ah + NEXT_FREE);
    store64 (nf + PREV_FREE) ah;;
    mret ah.

(** Take in the free block after. *)
Definition coalesce_next (ah nah : Z) : C mem unit :=
  after ← free_after ah nah;
  if after : bool then
    sz ← load64 (ah + SIZE);
    nsz ← load64 (nah + SIZE);
    store64 (ah + SIZE) (u64 (sz + nsz));;
    remove_from_chains nah
  else mret tt.

Definition __free_block (ah : Z) : C mem Z :=
  pah ← load64 (ah + PREV);
  nah ← load64 (ah + NEXT);
  ah ← coalesce_prev ah pah nah;
  coalesce_next ah nah;;
  mret ah.

(** The first block of the free list that is large enough. *)
Definition first_fit (size : Z) : C mem (option Z) :=
  fp ← load64 (__malloc_head + NEXT_FREE);
  scan_fuel (λ fuel, loop fuel (λ fp,
    ty ← load64 (fp + TYPE);
    if ty =? ARENA_TYPE_HEAD then Break None else
    sz ← load64 (fp + SIZE);
    if size <=? sz then Break (Some fp) else
    nf ← load64 (fp + NEXT_FREE);
    Next nf) fp).

(** The last block of the list of all blocks below the new one. *)
Definition predecessor (fp : Z) : C mem Z :=
  pah ← load64 (__malloc_head + PREV);
  scan_fuel (λ fuel, loop fuel (λ pah,
    ty ← load64 (pah + TYPE);
    if ty =? ARENA_TYPE_HEAD then Break pah else
    if pah <? fp then Break pah else
    pp ← load64 (pah + PREV);
    Next pp) pah).

(** Set up the header of a new mapping and insert it into the list of all
    blocks. *)
Definition link_chunk (fp fsize : Z) : C mem unit :=
  store64 (fp + TYPE) ARENA_TYPE_FREE;;
  store64 (fp + SIZE) fsize;;
  pah ← predecessor fp;
  nx ← load64 (pah + NEXT);
  store64 (fp + NEXT) nx;;
  store64 (fp + PREV) pah;;
  store64 (pah + NEXT) fp;;
  nx ← load64 (fp + NEXT);
  store64 (nx + PREV) fp.

Definition malloc_impl_orig (size : Z) : C mem Z :=
  if size =? 0 then mret NULL else
  let size := Z.land (u64 (size + 2 * ARENA_HEADER - 1)) ARENA_SIZE_MASK in
  r ← first_fit size;
  match r with
  | Some fp => __malloc_from_block fp size
  | None =>
      let fsize := Z.land (u64 (size + MALLOC_CHUNK_MASK)) (u64 (Z.lnot MALLOC_CHUNK_MASK)) in
      fp ← mmap fsize;
      if fp =? MAP_FAILED then mret NULL else
      link_chunk fp fsize;;
      fp ← __free_block fp;
      __malloc_from_block fp size
  end.

(** ** Release *)

(** A new header for the tail of the block, after it in the list of all blocks
    and before it in the free list. *)
Definition split_tail (ah tah tail_portion : Z) : C mem unit :=
  store64 (tah + TYPE) ARENA_TYPE_FREE;;
  store64 (tah + SIZE) tail_portion;;
  tan ← load64 (ah + NEXT);
  store64 (tah + NEXT) tan;;
  store64 (tan + PREV) tah;;
  store64 (tah + PREV) ah;;
  store64 (ah + NEXT) tah;;
  tap ← load64 (ah + PREV_FREE);
  store64 (tah + PREV_FREE) tap;;
  store64 (tap + NEXT_FREE) tah;;
  store64 (tah + NEXT_FREE) ah;;
  store64 (ah + PREV_FREE) tah.

(** A head or tail too small for a header is extended by a page. *)
Definition extend_portion (portion ps : Z) : Z :=
  if negb (portion =? 0) && (portion <? 2 * ARENA_HEADER) then u64 (portion + ps) else portion.

(** The part of a free block that is whole pages goes back to the system. *)
Definition return_pages (ah : Z) : C mem unit :=
  ps ← getpagesize;
  let page_mask := u64 (ps - 1) in
  asize ← load64 (ah + SIZE);
  let head_portion := extend_portion (Z.land (u64 (- ah)) page_mask) ps in
  let tail_portion := extend_portion (Z.land (u64 (ah + asize)) page_mask) ps in
  let adj_size := u64 (asize - head_portion - tail_portion) in
  if u64 (head_portion + tail_portion + _KLIBC_MALLOC_CHUNK_SIZE) <=? asize then
    (if negb (tail_portion =? 0) then split_tail ah (ah + head_portion + adj_size) tail_portion
     else mret tt);;
    (if negb (head_portion =? 0) then store64 (ah + SIZE) head_portion
     else remove_from_chains ah);;
    munmap (ah + head_portion) adj_size
  else mret tt.

Definition free_impl_orig (ptr : Z) : C mem unit :=
  if ptr =? NULL then mret tt else
  let ah := ptr - ARENA_HEADER in
  ah ← __free_block ah;
  return_pages ah.

Definition realloc_impl_orig (ptr size : Z) : C mem Z :=
  if ptr =? NULL then malloc_impl_orig size else
  if size =? 0 then free_impl_orig ptr;; mret NULL else
  let size := Z.land (u64 (size + 2 * ARENA_HEADER - 1)) ARENA_SIZE_MASK in
  let ah := ptr - ARENA_HEADER in
  asize ← load64 (ah + SIZE);
  if (size <=? asize) && (Z.shiftr asize 2 <=? size) then mret ptr
  else
    let oldsize := u64 (asize - ARENA_HEADER) in
    newptr ← malloc_impl_orig size;
    memcpy newptr ptr (if size <? oldsize then size else oldsize);;
    free_impl_orig ptr;;
    mret newptr.
End arena.
