(* ===== verification/ArenaShape.v ===== *)
(** * Descriptions of an arena

    The state of the arena allocator is described by the list of all blocks in
    address order and by the order of the free list.  [arena] says that a memory
    holds headers and chains for such a description.  The central lemma,
    [arena_splice], changes a run of blocks: the operations of [ArenaOps] are
    instances of it. *)

From Stdlib Require Import List.
From stdpp Require Import base tactics numbers list gmap.
From S2P Require Import Prelude Memory Words MemFns Alloc Arena.

Open Scope Z_scope.

(** ** Doubly linked paths *)

Section paths.
Context (on op : Z).
Implicit Types (m : mem) (h a b : Z) (s l mid : list Z).

Definition linked m a b : Prop := word m (a + on) = Some b ∧ word m (b + op) = Some a.

Fixpoint path m s : Prop :=
  match s with
  | a :: s' => match s' with b :: _ => linked m a b | [] => True end ∧ path m s'
  | [] => True
  end.

(** The element before and the element after a position of a ring. *)
Definition lastd h l : Z := default h (last l).
Definition headd h l : Z := default h (head l).

Lemma path_join m s1 a s2 : path m (s1 ++ a :: s2) ↔ path m (s1 ++ [a]) ∧ path m (a :: s2).
Proof.
  induction s1 as [|b s1 IH]; [simpl; tauto|].
  change ((b :: s1) ++ ?x) with (b :: s1 ++ x). cbn [path] in *. rewrite IH.
  destruct s1 as [|c s1]; simpl; tauto.
Qed.

Lemma path_prefix m s1 s2 : path m (s1 ++ s2) → path m s1.
Proof.
  induction s1 as [|b s1 IH]; [done|]. cbn [app path]. intros [H1 H2]. split; [|auto].
  by destruct s1.
Qed.

Lemma path_suffix m s1 s2 : path m (s1 ++ s2) → path m s2.
Proof. induction s1 as [|b s1 IH]; [done|]. cbn [app path]. intros [_ H2]. auto. Qed.

Lemma path_frame m m' s :
  Forall (λ a, word m' (a + on) = word m (a + on)) (removelast s) →
  Forall (λ b, word m' (b + op) = word m (b + op)) (tail s) →
  path m s → path m' s.
Proof.
  induction s as [|a [|b s] IH]; [done|done|].
  change (removelast (a :: b :: s)) with (a :: removelast (b :: s)). simpl tail.
  intros Hon Hop [[H1 H2] H3]. apply Forall_cons in Hon as [E1 Hon]. apply Forall_cons in Hop as [E2 Hop].
  split; [split; congruence|auto].
Qed.

Lemma lastd_split h l : ∃ s, h :: l = s ++ [lastd h l].
Proof.
  unfold lastd. destruct l as [|x l _] using rev_ind; [by exists []|].
  rewrite last_snoc. by exists (h :: l).
Qed.

Lemma headd_split h l : ∃ s, l ++ [h] = headd h l :: s.
Proof. destruct l as [|x l]; simpl; eauto. Qed.

Lemma lastd_in h l : lastd h l ∈ h :: l.
Proof. destruct (lastd_split h l) as [s ->]. apply elem_of_app. right. left. Qed.

Lemma headd_in h l : headd h l ∈ h :: l.
Proof. destruct l; [left|right; left]. Qed.

(** What the fields around a node hold. *)
Lemma path_at m h l1 x l2 :
  path m (h :: l1 ++ x :: l2 ++ [h]) →
  linked m (lastd h l1) x ∧ linked m x (headd h l2).
Proof.
  destruct (lastd_split h l1) as [s1 E1]. destruct (headd_split h l2) as [s2 E2].
  change (h :: l1 ++ x :: l2 ++ [h]) with ((h :: l1) ++ x :: l2 ++ [h]).
  rewrite E1, E2, <-app_assoc. intros H. apply path_suffix in H. simpl in H. tauto.
Qed.

Lemma path_ends m h l :
  path m (h :: l ++ [h]) → word m (h + on) = Some (headd h l) ∧ word m (h + op) = Some (lastd h l).
Proof.
  intros H. split.
  - destruct (headd_split h l) as [s E]. rewrite E in H. apply H.
  - destruct (lastd_split h l) as [s E]. change (h :: l ++ [h]) with ((h :: l) ++ [h]) in H.
    rewrite E, <-app_assoc in H. apply path_suffix in H. simpl in H. unfold linked in H. tauto.
Qed.

Lemma path_between m h l1 l2 :
  path m (h :: l1 ++ l2 ++ [h]) → linked m (lastd h l1) (headd h l2).
Proof.
  destruct (lastd_split h l1) as [s1 E1]. destruct (headd_split h l2) as [s2 E2].
  change (h :: l1 ++ l2 ++ [h]) with ((h :: l1) ++ l2 ++ [h]).
  rewrite E1, E2, <-app_assoc. intros H. apply path_suffix in H. simpl in H. tauto.
Qed.

Lemma path_wrap m h l :
  path m (h :: l ++ [h]) → linked m (lastd h l) h.
Proof.
  intros H. destruct (lastd_split h l) as [s E].
  change (h :: l ++ [h]) with ((h :: l) ++ [h]) in H.
  rewrite E, <-app_assoc in H. apply path_suffix in H. simpl in H. tauto.
Qed.

(** Replacing a segment of a ring: the new segment is linked, and no other link
    changes. *)
Lemma path_splice m m' h l1 mid mid' l2 :
  NoDup (h :: l1 ++ l2) →
  path m (h :: l1 ++ mid ++ l2 ++ [h]) →
  path m' (lastd h l1 :: mid' ++ [headd h l2]) →
  (∀ a, a ∈ h :: l1 ++ l2 → a ≠ lastd h l1 → word m' (a + on) = word m (a + on)) →
  (∀ a, a ∈ h :: l1 ++ l2 → a ≠ headd h l2 → word m' (a + op) = word m (a + op)) →
  path m' (h :: l1 ++ mid' ++ l2 ++ [h]).
Proof.
  intros Hnd H Hmid Hon Hop.
  destruct (lastd_split h l1) as [s1 E1]. destruct (headd_split h l2) as [s2 E2].
  assert (path m (h :: l1)) as Hl by (by apply (path_prefix m (h :: l1)) in H).
  assert (path m (l2 ++ [h])) as Hr.
  { apply (path_suffix m (h :: l1 ++ mid)). simpl. by rewrite <-!app_assoc. }
  pose proof Hnd as Hnd0. apply NoDup_cons in Hnd as [Hh Hnd].
  apply NoDup_app in Hnd as (Hnd1 & Hd & Hnd2). rewrite elem_of_app in Hh.
  assert (path m' (h :: l1)) as Hl'.
  { revert Hl. apply path_frame; apply Forall_forall; intros a Ha.
    - rewrite E1, removelast_last in Ha.
      assert (a ∈ h :: l1) as Ha1 by (rewrite E1; apply elem_of_app; by left).
      apply Hon; [rewrite app_comm_cons; apply elem_of_app; by left|]. intros ->.
      assert (NoDup (h :: l1)) as Hn by (constructor; [tauto|done]).
      rewrite E1 in Hn. apply NoDup_app in Hn as (_ & Hn & _).
      apply (Hn _ Ha). left.
    - simpl in Ha. apply Hop; [right; apply elem_of_app; by left|]. intros ->.
      pose proof (headd_in h l2) as Hq. apply elem_of_cons in Hq as [Hq|Hq].
      + rewrite Hq in Ha. tauto.
      + by apply (Hd _ Ha). }
  assert (path m' (l2 ++ [h])) as Hr'.
  { revert Hr. apply path_frame; apply Forall_forall; intros a Ha.
    - rewrite removelast_last in Ha.
      apply Hon; [right; apply elem_of_app; by right|]. intros ->.
      pose proof (lastd_in h l1) as Hq. apply elem_of_cons in Hq as [Hq|Hq].
      + rewrite Hq in Ha. tauto.
      + by apply (Hd _ Hq).
    - destruct l2 as [|q l2]; [by apply elem_of_nil in Ha|]. simpl in Ha.
      apply NoDup_cons in Hnd2 as [Hq2 Hnd2]. apply elem_of_app in Ha as [Ha|Ha].
      + apply Hop; [right; apply elem_of_app; right; by right|]. simpl. by intros ->.
      + apply list_elem_of_singleton in Ha as ->. apply Hop; [left|]. simpl. intros E.
        apply Hh. right. rewrite E. left. }
  change (path m' ((h :: l1) ++ mid' ++ l2 ++ [h])). rewrite E1, E2 in *.
  rewrite <-app_assoc. apply path_join. split; [done|]. simpl app.
  rewrite app_comm_cons. apply path_join. split; [done|done].
Qed.
End paths.

(** ** Descriptions of an arena *)

(** A block is free, handed out with the size that was asked for, or between
    the two while an operation is at work on it. *)
Inductive status := Free | Used (n : Z) | Pending.

Record blk := Blk { b_addr : Z; b_size : Z; b_stat : status }.

Definition b_end (b : blk) : Z := b_addr b + b_size b.

Definition before (b c : blk) : Prop := b_end b ≤ b_addr c.

Definition free_addrs (bs : list blk) : list Z :=
  omap (λ b, match b_stat b with Free => Some (b_addr b) | _ => None end) bs.

Definition live_of (bs : list blk) : list block :=
  omap (λ b, match b_stat b with Used n => Some (b_addr b + ARENA_HEADER, n) | _ => None end) bs.

Section arena.
Context (H : Z).
Implicit Types (m : mem) (b c : blk) (bs l mid : list blk) (fs f : list Z).

(** Alignment, least size, and disjointness from [__malloc_head]. *)
Record blk_ok b : Prop := {
  ok_pos : 0 < b_addr b;
  ok_addr : (32 | b_addr b);
  ok_size : (32 | b_size b);
  ok_min : 64 ≤ b_size b;
  ok_end : b_end b ≤ 2 ^ 63;
  ok_used : ∀ n, b_stat b = Used n → 0 < n ≤ b_size b - ARENA_HEADER;
  ok_head : H + 48 ≤ b_addr b ∨ b_end b ≤ H;
}.

Definition hdr_ok m b : Prop :=
  valid m (b_addr b) (b_size b) ∧ word m (b_addr b + SIZE) = Some (b_size b) ∧
  match b_stat b with
  | Free => word m (b_addr b + TYPE) = Some ARENA_TYPE_FREE
  | Used _ => word m (b_addr b + TYPE) = Some ARENA_TYPE_USED
  | Pending => True
  end.

Record arena m bs fs : Prop := {
  ar_pos : 0 < H ∧ H + 48 ≤ 2 ^ 63;
  ar_valid : valid m H 48;
  ar_type : word m (H + TYPE) = Some ARENA_TYPE_HEAD;
  ar_ok : Forall blk_ok bs;
  ar_hdr : Forall (hdr_ok m) bs;
  ar_sorted : ForallOrdPairs before bs;
  ar_main : path NEXT PREV m (H :: map b_addr bs ++ [H]);
  ar_free : path NEXT_FREE PREV_FREE m (H :: fs ++ [H]);
  ar_fs : fs ≡ₚ free_addrs bs;
}.

(** *** Lists of blocks *)

Lemma FOP_app {A} (R : A → A → Prop) (l1 l2 : list A) :
  ForallOrdPairs R (l1 ++ l2) ↔
  ForallOrdPairs R l1 ∧ ForallOrdPairs R l2 ∧ (∀ x y, x ∈ l1 → y ∈ l2 → R x y).
Proof.
  induction l1 as [|x l1 IH]; simpl.
  - split; [|tauto]. intros Hl. split_and!; [constructor|done|]. by intros ? ? ?%elem_of_nil.
  - split.
    + inversion 1 as [|? ? Hx Hl]; subst. apply Forall_app in Hx as [Hx1 Hx2].
      apply IH in Hl as (? & ? & Hr). split_and!; [by constructor|done|].
      intros a b [->|Ha]%elem_of_cons Hb; [|auto]. rewrite Forall_forall in Hx2. auto.
    + intros (H1 & H2 & Hr). inversion H1; subst. constructor.
      * apply Forall_app. split; [done|]. apply Forall_forall. intros b Hb. apply Hr; [left|done].
      * apply IH. split_and!; [done..|]. intros a b Ha Hb. apply Hr; [by right|done].
Qed.

Lemma free_addrs_app l1 l2 : free_addrs (l1 ++ l2) = free_addrs l1 ++ free_addrs l2.
Proof. apply omap_app. Qed.

Lemma live_of_app l1 l2 : live_of (l1 ++ l2) = live_of l1 ++ live_of l2.
Proof. apply omap_app. Qed.

Lemma free_addrs_in bs a : a ∈ free_addrs bs → a ∈ map b_addr bs.
Proof.
  unfold free_addrs. rewrite list_elem_of_omap. intros (b & Hb & E).
  apply list_elem_of_fmap. exists b. split; [|done]. by destruct (b_stat b); simplify_eq.
Qed.

Lemma free_addrs_sub bs : free_addrs bs `sublist_of` map b_addr bs.
Proof.
  induction bs as [|b bs IH]; simpl; [constructor|].
  destruct (b_stat b); simpl; by constructor.
Qed.

Lemma before_apart b c :
  blk_ok b → blk_ok c → before b c → b_addr b + 48 ≤ b_addr c.
Proof. intros [? ? ? ? ? ? ?] _. unfold before, b_end. lia. Qed.

Lemma sorted_nodup bs :
  Forall blk_ok bs → ForallOrdPairs before bs → NoDup (H :: map b_addr bs).
Proof.
  intros Hok Hs. constructor.
  - rewrite list_elem_of_fmap. intros (b & E & Hb). rewrite Forall_forall in Hok.
    destruct (Hok b Hb). unfold b_end in *. lia.
  - induction Hs as [|b bs Hb Hs IH]; simpl; [constructor|].
    apply Forall_cons in Hok as [Hbok Hok]. constructor; [|auto].
    rewrite list_elem_of_fmap. intros (c & E & Hc). rewrite Forall_forall in Hok, Hb.
    specialize (Hb c Hc). pose proof (before_apart b c Hbok (Hok c Hc) Hb). lia.
Qed.

Lemma arena_nodup m bs fs : arena m bs fs → NoDup (H :: map b_addr bs) ∧ NoDup (H :: fs).
Proof.
  intros [_ _ _ Hok _ Hs _ _ Hfs]. pose proof (sorted_nodup bs Hok Hs) as Hn. split; [done|].
  rewrite Hfs. apply (sublist_NoDup _ (H :: map b_addr bs)); [done|]. constructor.
  apply free_addrs_sub.
Qed.

Lemma arena_fs_in m bs fs a : arena m bs fs → a ∈ H :: fs → a ∈ H :: map b_addr bs.
Proof.
  intros Ha [->|Hin]%elem_of_cons; [left|right]. rewrite (ar_fs _ _ _ Ha) in Hin.
  by apply free_addrs_in.
Qed.

(** *** Separation of headers *)

(** Two headers are the same or do not overlap. *)
Definition apart (a b : Z) : Prop := a = b ∨ a + 48 ≤ b ∨ b + 48 ≤ a.

(** A header does not meet a region. *)
Definition outside (x sz a : Z) : Prop := a + 48 ≤ x ∨ x + sz ≤ a.

Lemma hdr_block bs a b :
  Forall blk_ok bs → ForallOrdPairs before bs → a ∈ H :: map b_addr bs → b ∈ bs →
  a = b_addr b ∨ a + 48 ≤ b_addr b ∨ b_end b ≤ a.
Proof.
  intros Hok Hs Ha Hb. rewrite Forall_forall in Hok. apply elem_of_cons in Ha as [->|Ha].
  { destruct (Hok b Hb). unfold b_end in *. lia. }
  apply list_elem_of_fmap in Ha as (c & -> & Hc).
  apply list_elem_of_split in Hc as Hc'. destruct Hc' as (l1 & l2 & ->).
  apply FOP_app in Hs as (_ & Hs2 & Hs1). inversion Hs2 as [|? ? Hs3 _]; subst.
  rewrite Forall_forall in Hs3.
  apply elem_of_app in Hb as Hb'. rewrite elem_of_cons in Hb'. destruct Hb' as [Hb'|[->|Hb']].
  - right; right. apply Hs1; [done|left].
  - by left.
  - right; left. apply before_apart; [by apply Hok|by apply Hok|by apply Hs3].
Qed.

Lemma hdr_apart bs a a' :
  Forall blk_ok bs → ForallOrdPairs before bs →
  a ∈ H :: map b_addr bs → a' ∈ H :: map b_addr bs → apart a a'.
Proof.
  intros Hok Hs Ha Ha'. unfold apart. apply elem_of_cons in Ha' as Hb. destruct Hb as [->|Hb].
  - apply elem_of_cons in Ha as [->|Ha]; [by left|].
    apply list_elem_of_fmap in Ha as (b & -> & Hb).
    destruct (hdr_block bs H b Hok Hs) as [?|[?|?]]; [left|done|lia..|].
    rewrite Forall_forall in Hok. destruct (Hok b Hb). unfold b_end in *. lia.
  - apply list_elem_of_fmap in Hb as (b & -> & Hb).
    destruct (hdr_block bs a b Hok Hs Ha Hb) as [?|[?|?]]; [lia..|].
    rewrite Forall_forall in Hok. destruct (Hok b Hb). unfold b_end in *. lia.
Qed.

(** A header's words can be read and written. *)
Lemma hdr_valid m bs fs a :
  arena m bs fs → a ∈ H :: map b_addr bs → valid m a 48 ∧ 0 < a ∧ a + 48 ≤ 2 ^ 63.
Proof.
  intros [Hpos Hv _ Hok Hh _ _ _ _] [->|Ha]%elem_of_cons; [by split|].
  apply list_elem_of_fmap in Ha as (b & -> & Hb). rewrite Forall_forall in Hok, Hh.
  destruct (Hok b Hb), (Hh b Hb) as (Hvb & _). unfold b_end in *.
  split; [by apply (valid_le _ _ (b_size b)); [lia|]|lia].
Qed.

Lemma sub_mid {A} (l1 mid l2 : list A) (x : A) : x ∈ l1 ++ l2 → x ∈ l1 ++ mid ++ l2.
Proof. rewrite !elem_of_app. tauto. Qed.

(** *** Replacing a run of blocks

    [lo] and [hi] bound the run; the headers outside it keep their words, but
    for the links to the run. *)
Lemma arena_splice_gen m m' l1 mid mid' l2 f1 fmid fmid' f2 lo hi :
  arena m (l1 ++ mid ++ l2) (f1 ++ fmid ++ f2) →
  f1 ++ fmid' ++ f2 ≡ₚ free_addrs (l1 ++ mid' ++ l2) →
  (∀ b, b ∈ l1 → b_end b ≤ lo) → (∀ b, b ∈ l2 → hi ≤ b_addr b) → lo ≤ hi →
  ForallOrdPairs before mid' →
  Forall (λ b, lo ≤ b_addr b ∧ b_end b ≤ hi ∧ blk_ok b ∧ hdr_ok m' b) mid' →
  (∀ p n, valid m p n → valid m' p n) →
  (∀ a, a ∈ H :: map b_addr (l1 ++ l2) →
     word m' (a + TYPE) = word m (a + TYPE) ∧ word m' (a + SIZE) = word m (a + SIZE) ∧
     (a ≠ lastd H (map b_addr l1) → word m' (a + NEXT) = word m (a + NEXT)) ∧
     (a ≠ headd H (map b_addr l2) → word m' (a + PREV) = word m (a + PREV))) →
  (∀ a, a ∈ H :: f1 ++ f2 →
     (a ≠ lastd H f1 → word m' (a + NEXT_FREE) = word m (a + NEXT_FREE)) ∧
     (a ≠ headd H f2 → word m' (a + PREV_FREE) = word m (a + PREV_FREE))) →
  path NEXT PREV m' (lastd H (map b_addr l1) :: map b_addr mid' ++ [headd H (map b_addr l2)]) →
  path NEXT_FREE PREV_FREE m' (lastd H f1 :: fmid' ++ [headd H f2]) →
  arena m' (l1 ++ mid' ++ l2) (f1 ++ fmid' ++ f2).
Proof.
  intros Ha Hf' Hlo Hhi Hle Hs' Hok' Hval Hw Hwf Hmain Hfree.
  pose proof (arena_nodup _ _ _ Ha) as [Hnd Hndf].
  pose proof Ha as [Hpos Hv Hty Hok Hh Hs Hm Hfr Hfs].
  rewrite Forall_app in Hok, Hh. destruct Hok as [Hok1 Hok2], Hh as [Hh1 Hh2].
  rewrite Forall_app in Hok2, Hh2. destruct Hok2 as [_ Hok2], Hh2 as [_ Hh2].
  assert (∀ b, b ∈ l1 ++ l2 → hdr_ok m b → hdr_ok m' b) as Hkeep.
  { intros b Hb (H1 & H2 & H3). destruct (Hw (b_addr b)) as (E1 & E2 & _).
    { right. by apply list_elem_of_fmap_2. }
    split; [auto|]. by rewrite E1, E2. }
  split; [done|by apply Hval|..|done].
  - destruct (Hw H) as [E _]; [left|]. by rewrite E.
  - rewrite !Forall_app. split_and!; try done. eapply Forall_impl; [exact Hok'|]. by intros b (_ & _ & ? & _).
  - rewrite !Forall_app. rewrite !Forall_forall in *. split_and!.
    + intros b Hb. apply Hkeep; [apply elem_of_app; by left|auto].
    + intros b Hb. by apply Hok'.
    + intros b Hb. apply Hkeep; [apply elem_of_app; by right|auto].
  - rewrite Forall_forall in Hok'. rewrite !FOP_app in *. destruct Hs as (Hs1 & (_ & Hs2 & _) & Hs3).
    split_and!; try done.
    + intros b c Hb Hc. unfold before. pose proof (Hok' b Hb). pose proof (Hhi c Hc). lia.
    + intros b c Hb [Hc|Hc]%elem_of_app; unfold before.
      * pose proof (Hlo b Hb). pose proof (Hok' c Hc). lia.
      * pose proof (Hlo b Hb). pose proof (Hhi c Hc). lia.
  - rewrite !map_app, <-!app_assoc in Hm |- *. apply (path_splice _ _ m m' _ _ (map b_addr mid)); try done.
    + rewrite !map_app in Hnd. apply (sublist_NoDup _ _ Hnd). constructor.
      apply sublist_app; [done|]. apply sublist_inserts_l. done.
    + rewrite <-map_app. intros a Hin' Hne. by apply Hw.
    + rewrite <-map_app. intros a Hin' Hne. by apply Hw.
  - rewrite <-!app_assoc in *. apply (path_splice _ _ m m' _ _ fmid); try done.
    + apply (sublist_NoDup _ _ Hndf). constructor.
      apply sublist_app; [done|]. apply sublist_inserts_l. done.
    + intros a Hin' Hne. by apply Hwf.
    + intros a Hin' Hne. by apply Hwf.
Qed.

(** The run's own free blocks are consecutive in the free list. *)
Lemma arena_splice m m' l1 mid mid' l2 f1 fmid fmid' f2 lo hi :
  arena m (l1 ++ mid ++ l2) (f1 ++ fmid ++ f2) →
  fmid ≡ₚ free_addrs mid → fmid' ≡ₚ free_addrs mid' →
  (∀ b, b ∈ l1 → b_end b ≤ lo) → (∀ b, b ∈ l2 → hi ≤ b_addr b) → lo ≤ hi →
  ForallOrdPairs before mid' →
  Forall (λ b, lo ≤ b_addr b ∧ b_end b ≤ hi ∧ blk_ok b ∧ hdr_ok m' b) mid' →
  (∀ p n, valid m p n → valid m' p n) →
  (∀ a, a ∈ H :: map b_addr (l1 ++ l2) →
     word m' (a + TYPE) = word m (a + TYPE) ∧ word m' (a + SIZE) = word m (a + SIZE) ∧
     (a ≠ lastd H (map b_addr l1) → word m' (a + NEXT) = word m (a + NEXT)) ∧
     (a ≠ headd H (map b_addr l2) → word m' (a + PREV) = word m (a + PREV)) ∧
     (a ≠ lastd H f1 → a ∈ H :: f1 ++ f2 → word m' (a + NEXT_FREE) = word m (a + NEXT_FREE)) ∧
     (a ≠ headd H f2 → a ∈ H :: f1 ++ f2 → word m' (a + PREV_FREE) = word m (a + PREV_FREE))) →
  path NEXT PREV m' (lastd H (map b_addr l1) :: map b_addr mid' ++ [headd H (map b_addr l2)]) →
  path NEXT_FREE PREV_FREE m' (lastd H f1 :: fmid' ++ [headd H f2]) →
  arena m' (l1 ++ mid' ++ l2) (f1 ++ fmid' ++ f2).
Proof.
  intros Ha Hf Hf' Hlo Hhi Hle Hs' Hok' Hval Hw Hmain Hfree.
  pose proof (ar_fs _ _ _ Ha) as Hfs.
  assert (f1 ++ f2 ≡ₚ free_addrs (l1 ++ l2)) as Hfs2.
  { rewrite !free_addrs_app in *. rewrite Hf in Hfs.
    rewrite (Permutation_app_swap_app f1), (Permutation_app_swap_app (free_addrs l1)) in Hfs.
    by apply Permutation_app_inv_l in Hfs. }
  assert (∀ a, a ∈ H :: f1 ++ f2 → a ∈ H :: map b_addr (l1 ++ l2)) as Hin.
  { intros a [->|Hin]%elem_of_cons; [left|right]. rewrite Hfs2 in Hin. by apply free_addrs_in. }
  apply (arena_splice_gen m m' l1 mid mid' l2 f1 fmid fmid' f2 lo hi); try done.
  - rewrite !free_addrs_app in *. rewrite Hf'.
    by rewrite (Permutation_app_swap_app f1), (Permutation_app_swap_app (free_addrs l1)), Hfs2.
  - intros a Ha'. destruct (Hw a Ha') as (? & ? & ? & ? & _). auto.
  - intros a Ha'. destruct (Hw a (Hin a Ha')) as (_ & _ & _ & _ & ? & ?). auto.
Qed.

(** *** A block and its neighbours *)

Definition hdrs l : list Z := H :: map b_addr l.

(** What an operation on block [x] knows: the block, its neighbours [p] and [q]
    in the list of all blocks, and the other headers. *)
Record focus m l1 x sz st l2 (p q : Z) : Prop := {
  fo_ok : blk_ok (Blk x sz st);
  fo_hdr : hdr_ok m (Blk x sz st);
  fo_p : linked NEXT PREV m p x;
  fo_q : linked NEXT PREV m x q;
  fo_pin : p ∈ hdrs (l1 ++ l2);
  fo_qin : q ∈ hdrs (l1 ++ l2);
  fo_out : ∀ a, a ∈ hdrs (l1 ++ l2) → outside x sz a;
  fo_val : ∀ a, a ∈ hdrs (l1 ++ l2) → valid m a 48 ∧ 0 < a ∧ a + 48 ≤ 2 ^ 63;
  fo_apart : ∀ a a', a ∈ hdrs (l1 ++ l2) → a' ∈ hdrs (l1 ++ l2) → apart a a';
  fo_lo : ∀ b, b ∈ l1 → b_end b ≤ x;
  fo_hi : ∀ b, b ∈ l2 → x + sz ≤ b_addr b;
}.

Lemma hdrs_mid l1 mid l2 a : a ∈ hdrs (l1 ++ l2) → a ∈ hdrs (l1 ++ mid ++ l2).
Proof.
  unfold hdrs. rewrite !elem_of_cons, !map_app, !elem_of_app. tauto.
Qed.

Lemma lastd_hdrs l1 l2 : lastd H (map b_addr l1) ∈ hdrs (l1 ++ l2).
Proof.
  pose proof (lastd_in H (map b_addr l1)). unfold hdrs.
  rewrite elem_of_cons, map_app, elem_of_app in *. tauto.
Qed.

Lemma headd_hdrs l1 l2 : headd H (map b_addr l2) ∈ hdrs (l1 ++ l2).
Proof.
  pose proof (headd_in H (map b_addr l2)). unfold hdrs.
  rewrite elem_of_cons, map_app, elem_of_app in *. tauto.
Qed.

Lemma arena_focus m l1 x sz st l2 fs :
  arena m (l1 ++ Blk x sz st :: l2) fs →
  focus m l1 x sz st l2 (lastd H (map b_addr l1)) (headd H (map b_addr l2)).
Proof.
  intros Ha. pose proof Ha as [_ _ _ Hok Hh Hs Hm _ _].
  assert (Blk x sz st ∈ l1 ++ Blk x sz st :: l2) as Hx by (apply elem_of_app; right; left).
  rewrite map_app in Hm. simpl in Hm. rewrite <-app_assoc in Hm. simpl in Hm.
  destruct (path_at _ _ _ _ _ _ _ Hm) as [Hp Hq].
  pose proof (proj1 (FOP_app _ _ _) Hs) as (_ & Hs2 & Hs1). inversion Hs2 as [|? ? Hs3 _]; subst.
  rewrite Forall_forall in Hs3.
  split; try done.
  - rewrite Forall_forall in Hok. auto.
  - rewrite Forall_forall in Hh. auto.
  - apply lastd_hdrs.
  - apply headd_hdrs.
  - intros a Hin. pose proof (hdrs_mid l1 [Blk x sz st] l2 a Hin) as Hin'.
    destruct (hdr_block _ a (Blk x sz st) Hok Hs Hin' Hx) as [E|?]; [|done].
    exfalso. destruct (arena_nodup _ _ _ Ha) as [Hnd _]. simpl in E. subst a.
    rewrite map_app in Hnd. unfold hdrs in Hin. rewrite map_app in Hin. simpl in Hnd.
    rewrite Permutation_app_comm in Hnd.
    apply elem_of_cons in Hin as [<-|Hin].
    + apply NoDup_cons in Hnd as [Hnd _]. apply Hnd. simpl. left.
    + apply NoDup_cons in Hnd as [_ Hnd]. simpl in Hnd. apply NoDup_cons in Hnd as [Hnd _].
      rewrite elem_of_app in *. tauto.
  - intros a Hin. apply (hdr_valid m (l1 ++ Blk x sz st :: l2) fs); [done|]. by apply (hdrs_mid l1 [Blk x sz st] l2).
  - intros a b Hin Hin'. apply (hdr_apart (l1 ++ Blk x sz st :: l2)); try done;
      by apply (hdrs_mid l1 [Blk x sz st] l2).
  - intros b Hb. apply (Hs1 b (Blk x sz st)); [done|left].
Qed.

(** A free block has neighbours in the free list too. *)
Lemma arena_free_focus m l1 x sz l2 fs :
  arena m (l1 ++ Blk x sz Free :: l2) fs →
  ∃ f1 f2, fs = f1 ++ x :: f2 ∧
  linked NEXT_FREE PREV_FREE m (lastd H f1) x ∧ linked NEXT_FREE PREV_FREE m x (headd H f2) ∧
  (∀ a, a ∈ H :: f1 ++ f2 → a ∈ hdrs (l1 ++ l2)).
Proof.
  intros [_ _ _ _ _ _ _ Hf Hfs].
  assert (x ∈ fs) as Hx.
  { rewrite Hfs, free_addrs_app. apply elem_of_app. right. simpl. left. }
  apply list_elem_of_split in Hx as (f1 & f2 & ->). exists f1, f2. split; [done|].
  rewrite <-app_assoc in Hf. simpl in Hf. destruct (path_at _ _ _ _ _ _ _ Hf) as [Hp Hq].
  split_and!; [done..|]. rewrite free_addrs_app in Hfs. simpl in Hfs.
  rewrite <-!Permutation_middle in Hfs. apply Permutation_cons_inv in Hfs.
  intros a [->|Hin]%elem_of_cons; [left|right]. rewrite Hfs, <-free_addrs_app in Hin.
  by apply free_addrs_in.
Qed.

Lemma free_ends f1 f2 (P : Z → Prop) :
  (∀ a, a ∈ H :: f1 ++ f2 → P a) → P (lastd H f1) ∧ P (headd H f2).
Proof.
  intros HP. split; apply HP.
  - pose proof (lastd_in H f1). rewrite elem_of_cons, elem_of_app in *. tauto.
  - pose proof (headd_in H f2). rewrite elem_of_cons, elem_of_app in *. tauto.
Qed.

Lemma arena_apart m bs fs a a' :
  arena m bs fs → a ∈ hdrs bs → a' ∈ hdrs bs → apart a a'.
Proof. intros Ha. apply hdr_apart; apply Ha. Qed.

Lemma arena_block m bs fs b : arena m bs fs → b ∈ bs → blk_ok b ∧ hdr_ok m b.
Proof.
  intros Ha Hb. pose proof (ar_ok _ _ _ Ha) as H1. pose proof (ar_hdr _ _ _ Ha) as H2.
  rewrite Forall_forall in H1, H2. auto.
Qed.
End arena.

(** Membership in concrete lists of headers. *)
Ltac hin :=
  unfold hdrs in *; rewrite ?map_app in *; simpl map in *;
  rewrite ?elem_of_cons, ?elem_of_app, ?elem_of_cons, ?elem_of_nil in *; tauto.
