(* ===== verification/ArenaOps.v ===== *)
(** * The operations of the arena allocator are correct

    Each operation goes from one description of the arena to the next and writes
    headers only; together they implement the interface of [Alloc]. *)

From Stdlib Require Import List.
From stdpp Require Import base tactics numbers list gmap.
From S2P Require Import Prelude Memory Words MemFns Alloc Arena ArenaShape.

Open Scope Z_scope.

(** ** Running header accesses *)

Ltac offsets := unfold TYPE, SIZE, NEXT, PREV, NEXT_FREE, PREV_FREE, ARENA_HEADER,
  ARENA_TYPE_FREE, ARENA_TYPE_USED, ARENA_TYPE_HEAD, b_end in *.

(** Two fields do not overlap: fields of one header, of two headers that are
    apart, or of a header and a region it is outside of.  The facts stay folded
    until they are needed, which keeps the arithmetic small. *)
Ltac sep1 a b :=
  match goal with
  | Hs : apart a b |- _ => unfold apart in Hs; lia
  | Hs : apart b a |- _ => unfold apart in Hs; lia
  | Hs : outside _ _ a |- _ => unfold outside in Hs; lia
  | Hs : outside _ _ b |- _ => unfold outside in Hs; lia
  end.

Ltac sep :=
  first [lia
  | match goal with |- ?a + _ + 8 ≤ ?b + _ ∨ _ => sep1 a b end].

(** Read a word through the stores before it. *)
Ltac wlook := repeat first [rewrite word_put_eq by lia | rewrite word_put_ne by sep].

Ltac vld :=
  repeat apply put_valid;
  match goal with
  | Hv : valid ?m ?a ?n |- valid ?m ?b ?k => apply (valid_sub m a n b k Hv); lia
  end.

Ltac astore := first [rewrite run_bind, run_store64 by vld | rewrite run_store64 by vld]; cbn beta iota.
Ltac aload := rewrite run_bind; erewrite run_load64 by (wlook; first [eassumption | reflexivity]); cbn beta iota.

(** The addresses whose bytes the allocator owns. *)
Definition blk_owns (b : blk) (a : Z) : Prop :=
  match b_stat b with
  | Used n => b_addr b ≤ a < b_addr b + ARENA_HEADER ∨ b_addr b + ARENA_HEADER + n ≤ a < b_end b
  | _ => b_addr b ≤ a < b_end b
  end.

Definition owns (g : Z * list blk) (a : Z) : Prop :=
  g.1 ≤ a < g.1 + 48 ∨ ∃ b, b ∈ g.2 ∧ blk_owns b a.

Section ops.
Context (K : kernel) (H : Z).
Implicit Types (m : mem) (b c : blk) (bs l mid : list blk) (fs f : list Z).

(** Only bytes the allocator owns change. *)
Definition frame m m' bs : Prop := ∀ a, ¬ owns (H, bs) a → m' !! a = m !! a.

(** The byte at [a] is not in the [k] bytes at [z]. *)
Definition away (a z k : Z) : Prop := a < z ∨ z + k ≤ a.

Lemma not_owns_main l1 x sz st l2 a :
  Forall (blk_ok H) (l1 ++ Blk x sz st :: l2) → (∀ n, st ≠ Used n) →
  ¬ owns (H, l1 ++ Blk x sz st :: l2) a →
  away a x sz ∧ ∀ z, z ∈ hdrs H (l1 ++ l2) → away a z 32.
Proof.
  intros Hok Hst Hn. unfold away. split.
  - destruct (decide (a < x ∨ x + sz ≤ a)); [done|]. exfalso. apply Hn. right.
    exists (Blk x sz st). split; [apply elem_of_app; right; left|].
    unfold blk_owns, b_end. simpl. destruct st as [| |]; [lia|by destruct (Hst n0)|lia].
  - intros z Hz. destruct (decide (a < z ∨ z + 32 ≤ a)); [done|]. exfalso. apply Hn.
    apply elem_of_cons in Hz as [->|Hz]; [left; simpl; lia|right].
    apply list_elem_of_fmap in Hz as (b & -> & Hb). exists b. simpl.
    assert (b ∈ l1 ++ Blk x sz st :: l2) as Hb'
      by (rewrite elem_of_app in *; rewrite elem_of_cons; tauto).
    rewrite Forall_forall in Hok. destruct (Hok b Hb'). split; [done|].
    unfold blk_owns. offsets. destruct (b_stat b); lia.
Qed.

Lemma not_owns_free m bs fs z a :
  arena H m bs fs → z ∈ H :: fs → ¬ owns (H, bs) a → away a z 48.
Proof.
  intros Ha Hz Hn. unfold away. destruct (decide (a < z ∨ z + 48 ≤ a)); [done|].
  exfalso. apply Hn. apply elem_of_cons in Hz as [->|Hz]; [left; simpl; lia|right].
  rewrite (ar_fs _ _ _ _ Ha) in Hz. apply list_elem_of_omap in Hz as (b & Hb & E). exists b. simpl.
  pose proof (ar_ok _ _ _ _ Ha) as Hok. rewrite Forall_forall in Hok. destruct (Hok b Hb).
  split; [done|]. unfold blk_owns. offsets. destruct (b_stat b); simplify_eq; lia.
Qed.

Ltac awy :=
  match goal with
  | |- ?a < ?z + _ ∨ _ => match goal with Hs : away a z _ |- _ => unfold away in Hs; lia end
  | |- ?a < ?z + _ ∨ _ => match goal with Hs : away a _ _ |- _ => unfold away in Hs; lia end
  end.

(** The neighbours of a block, in both lists if it is free, as variables with
    the facts about them. *)
Ltac neighbours Hval Hout l :=
  lazymatch l with
  | (?rest, (?p, ?Hp)) =>
      let V := fresh "V" in
      destruct (Hval p Hp) as (V & ? & ?); pose proof (Hout p Hp); neighbours Hval Hout rest
  | tt => idtac
  end.

Ltac pairs Hap l :=
  lazymatch l with
  | (?rest, (?p, ?Hp)) =>
      let rec go r := lazymatch r with
        | (?r', (?q, ?Hq)) => pose proof (Hap p q Hp Hq); go r'
        | tt => idtac end in
      go rest; pairs Hap rest
  | tt => idtac
  end.

Ltac afocus_main_as Ha p q Hpin Hqin Hout Hval Hap :=
  lazymatch type of Ha with
  | arena ?H ?m (?l1 ++ Blk ?x ?sz ?st :: ?l2) ?fs =>
      pose proof (arena_focus H m l1 x sz st l2 fs Ha)
        as [Hok (? & ? & ?) [? ?] [? ?] Hpin Hqin Hout Hval Hap ? ?];
      set (p := lastd H (map b_addr l1)) in *; set (q := headd H (map b_addr l2)) in *;
      destruct Hok as [? ? ? ? ? ? ?]; cbn [b_addr b_size b_stat b_end] in *
  end.

Ltac afocus_free_as Ha p q pf qf Hpin Hqin Hpf Hqf Hout Hval Hap Hfin :=
  lazymatch type of Ha with
  | arena ?H ?m (?l1 ++ Blk ?x ?sz Free :: ?l2) ?fs =>
      destruct (arena_free_focus H m l1 x sz l2 fs Ha)
        as (f1 & f2 & -> & [? ?] & [? ?] & Hfin);
      destruct (free_ends H _ _ _ Hfin) as [Hpf Hqf];
      lazymatch type of Hfin with ∀ a, a ∈ _ :: ?f1 ++ ?f2 → _ =>
        set (pf := lastd H f1) in *; set (qf := headd H f2) in * end;
      afocus_main_as Ha p q Hpin Hqin Hout Hval Hap;
      neighbours Hval Hout (tt, (p, Hpin), (q, Hqin), (pf, Hpf), (qf, Hqf));
      pairs Hap (tt, (p, Hpin), (q, Hqin), (pf, Hpf), (qf, Hqf));
      unfold linked in *; offsets; cbn [b_addr b_size] in *
  end.
Ltac afocus_free Ha :=
  let p := fresh "p" in let q := fresh "q" in let pf := fresh "pf" in let qf := fresh "qf" in
  let Hpin := fresh "Hpin" in let Hqin := fresh "Hqin" in let Hpf := fresh "Hpf" in
  let Hqf := fresh "Hqf" in let Hout := fresh "Hout" in let Hval := fresh "Hval" in
  let Hap := fresh "Hap" in let Hfin := fresh "Hfin" in
  afocus_free_as Ha p q pf qf Hpin Hqin Hpf Hqf Hout Hval Hap Hfin.

Lemma free_ends_in (f1 f2 : list Z) x :
  lastd H f1 ∈ H :: f1 ++ x :: f2 ∧ headd H f2 ∈ H :: f1 ++ x :: f2.
Proof.
  pose proof (lastd_in H f1). pose proof (headd_in H f2).
  rewrite !elem_of_cons, !elem_of_app, !elem_of_cons in *. tauto.
Qed.

(** Only fields the allocator owns are stored to. *)
Ltac aframe_as Ha a Hno :=
  lazymatch type of Ha with
  | arena _ ?m (?l1 ++ Blk ?x ?sz ?st :: ?l2) (?f1 ++ ?x :: ?f2) =>
      destruct (not_owns_main l1 x sz st l2 a (ar_ok _ _ _ _ Ha) ltac:(done) Hno) as [Hax Haz];
      pose proof (not_owns_free m _ _ _ a Ha (proj1 (free_ends_in f1 f2 x)) Hno);
      pose proof (not_owns_free m _ _ _ a Ha (proj2 (free_ends_in f1 f2 x)) Hno);
      pose proof (Haz _ (lastd_hdrs H l1 l2)); pose proof (Haz _ (headd_hdrs H l1 l2))
  end.
Ltac aframe Ha :=
  let a := fresh "a" in let Hno := fresh "Hno" in
  intros a Hno; aframe_as Ha a Hno.

Ltac dvd := subst; auto using Z.divide_add_r, Z.divide_sub_r.

Ltac ablk :=
  split; offsets; cbn [b_addr b_size b_stat] in *;
  first [lia | dvd; fail | intros ? [=]; subst; lia].

Ltac ahdr :=
  split_and!; cbn [b_addr b_size b_stat];
  [vld|offsets; wlook; done|first [done | offsets; wlook; done]].

(** The fields of the other headers are as before, but for the links that
    change. *)
Ltac akeep Hout Hap ps :=
  let a := fresh "a" in let Ha := fresh "Hin" in
  intros a Ha; pose proof (Hout a Ha);
  let rec go ps := lazymatch ps with
    | (?r, ?Hp) => pose proof (Hap a _ Ha Hp); go r
    | tt => idtac end in
  go ps; offsets; split_and!; intros; wlook; done.

Ltac apath := simpl; unfold linked; offsets; split_and!; try done; wlook; done.

Lemma split_block m l1 x sz l2 fs size n :
  arena H m (l1 ++ Blk x sz Free :: l2) fs →
  (32 | size) → 64 ≤ size → size + 64 ≤ sz → 0 < n ≤ size - ARENA_HEADER →
  ∃ m' fs', __malloc_from_block x size m = Ret (x + ARENA_HEADER) m' ∧
  arena H m' (l1 ++ [Blk x size (Used n); Blk (x + size) (sz - size) Free] ++ l2) fs' ∧
  frame m m' (l1 ++ Blk x sz Free :: l2).
Proof.
  intros Ha H32 Hmin Hsz Hn.
  afocus_free Ha. unfold __malloc_from_block. offsets. aload.
  rewrite wrap_small by lia. rewrite (proj2 (Z.leb_le _ _)) by lia.
  remember (x + size) as nfp eqn:Hnfp.
  rewrite run_bind. aload. rewrite (wrap_small 64 (sz - size)) by lia.
  do 8 astore. aload. astore. aload. do 3 astore.
  rewrite run_ret. eexists _, (f1 ++ [nfp] ++ f2). split; [reflexivity|]. split.
  - apply (arena_splice H m _ l1 [Blk x sz Free] _ l2 f1 [x] [nfp] f2 x (x + sz)); try done.
    + lia.
    + repeat constructor. unfold before. offsets. simpl. lia.
    + constructor; [split_and!|constructor; [split_and!|constructor]]; cbn [b_addr b_size]; offsets; 
        cbn [b_addr b_size]; try lia; [ablk|ahdr|ablk|ahdr].
    + intros. auto 20.
    + fold p q pf qf. akeep Hout Hap (tt, Hpin, Hqin, Hpf, Hqf).
    + fold p q. apath.
    + fold pf qf. apath.
  - aframe Ha. subst p q pf qf. rewrite !lookup_put_out by awy. done.
Qed.

Lemma run_remove_free m x p q :
  word m (x + PREV_FREE) = Some p → word m (x + NEXT_FREE) = Some q →
  valid m (p + NEXT_FREE) 8 → valid m (q + PREV_FREE) 8 →
  remove_from_free_chain x m = Ret tt (put (put m (p + NEXT_FREE) q) (q + PREV_FREE) p).
Proof.
  intros Hp Hq Vp Vq. unfold remove_from_free_chain.
  rewrite run_bind, (run_load64 _ _ _ Hp). cbn beta iota.
  rewrite run_bind, (run_load64 _ _ _ Hq). cbn beta iota.
  rewrite run_bind, run_store64 by done. cbn beta iota. by rewrite run_store64 by auto.
Qed.

Lemma run_remove_main m x p q :
  word m (x + PREV) = Some p → word m (x + NEXT) = Some q →
  valid m (p + NEXT) 8 → valid m (q + PREV) 8 →
  remove_from_main_chain x m = Ret tt (put (put m (p + NEXT) q) (q + PREV) p).
Proof.
  intros Hp Hq Vp Vq. unfold remove_from_main_chain.
  rewrite run_bind, (run_load64 _ _ _ Hp). cbn beta iota.
  rewrite run_bind, (run_load64 _ _ _ Hq). cbn beta iota.
  rewrite run_bind, run_store64 by done. cbn beta iota. by rewrite run_store64 by auto.
Qed.

Lemma whole_block m l1 x sz l2 fs size n :
  arena H m (l1 ++ Blk x sz Free :: l2) fs →
  0 ≤ size → size ≤ sz < size + 64 → 0 < n ≤ sz - ARENA_HEADER →
  ∃ m' fs', __malloc_from_block x size m = Ret (x + ARENA_HEADER) m' ∧
  arena H m' (l1 ++ [Blk x sz (Used n)] ++ l2) fs' ∧
  frame m m' (l1 ++ Blk x sz Free :: l2).
Proof.
  intros Ha Hmin Hsz Hn. afocus_free Ha. unfold __malloc_from_block. offsets. aload.
  rewrite wrap_small by lia. rewrite (proj2 (Z.leb_gt _ _)) by lia.
  rewrite run_bind. astore.
  erewrite run_remove_free by (offsets; first [vld | wlook; eassumption]). cbn beta iota. offsets.
  rewrite run_ret. eexists _, (f1 ++ [] ++ f2). split; [reflexivity|]. split.
  - apply (arena_splice H m _ l1 [Blk x sz Free] _ l2 f1 [x] [] f2 x (x + sz)); try done.
    + lia.
    + repeat constructor.
    + apply Forall_singleton; split_and!; offsets; cbn [b_addr b_size]; try lia; [ablk|ahdr].
    + intros. auto 20.
    + fold p q pf qf. akeep Hout Hap (tt, Hpin, Hqin, Hpf, Hqf).
    + fold p q. apath.
    + fold pf qf. apath.
  - aframe Ha. subst p q pf qf. rewrite !lookup_put_out by awy. done.
Qed.

Lemma owns_splice l1 mid mid' l2 a :
  (∀ b, b ∈ mid' → blk_owns b a → ∃ c, c ∈ mid ∧ blk_owns c a) →
  owns (H, l1 ++ mid' ++ l2) a → owns (H, l1 ++ mid ++ l2) a.
Proof.
  intros Hmid [Hh|(b & Hb & Ho)]; [by left|right]. simpl in *.
  rewrite !elem_of_app in Hb. destruct Hb as [Hb|[Hb|Hb]].
  - exists b. rewrite !elem_of_app. tauto.
  - destruct (Hmid b Hb Ho) as (c & Hc & Ho'). exists c. rewrite !elem_of_app. tauto.
  - exists b. rewrite !elem_of_app. tauto.
Qed.

(** Allocating from a free block large enough: it, or its first part, is handed
    out. *)
Lemma malloc_from_block m l1 x sz l2 fs size n :
  arena H m (l1 ++ Blk x sz Free :: l2) fs →
  (32 | size) → 64 ≤ size ≤ sz → 0 < n ≤ size - ARENA_HEADER →
  ∃ m' mid' fs', __malloc_from_block x size m = Ret (x + ARENA_HEADER) m' ∧
  arena H m' (l1 ++ mid' ++ l2) fs' ∧ live_of mid' = [(x + ARENA_HEADER, n)] ∧
  Forall (λ b, b_stat b ≠ Pending) mid' ∧
  frame m m' (l1 ++ Blk x sz Free :: l2) ∧
  (∀ a, owns (H, l1 ++ mid' ++ l2) a → owns (H, l1 ++ Blk x sz Free :: l2) a).
Proof.
  intros Ha H32 Hsz Hn. destruct (decide (size + 64 ≤ sz)) as [Hs|Hs].
  - destruct (split_block m l1 x sz l2 fs size n) as (m' & fs' & Hrun & Ha' & Hf);
      [done|done|lia|lia|done|].
    exists m', [Blk x size (Used n); Blk (x + size) (sz - size) Free], fs'.
    split_and!; try done.
    + by repeat constructor.
    + intros a. apply (owns_splice l1 [Blk x sz Free]). intros b Hb Ho.
      exists (Blk x sz Free). split; [left|]. rewrite !elem_of_cons in Hb.
      unfold blk_owns in *. offsets. destruct Hb as [->|[->|Hb%elem_of_nil]]; simpl in *; [lia|lia|done].
  - destruct (whole_block m l1 x sz l2 fs size n) as (m' & fs' & Hrun & Ha' & Hf);
      [done|lia|lia|lia|].
    exists m', [Blk x sz (Used n)], fs'. split_and!; try done.
    + by repeat constructor.
    + intros a. apply (owns_splice l1 [Blk x sz Free]). intros b Hb Ho.
      exists (Blk x sz Free). split; [left|]. apply list_elem_of_singleton in Hb as ->.
      unfold blk_owns in *. offsets. simpl in *. lia.
Qed.

(** *** Coalescing *)

(** The common step of the two merges: the facts on the other headers hold for
    those outside a longer run. *)
Lemma hdrs_weaken (P : Z → Prop) l1 mid l2 :
  (∀ a, a ∈ hdrs H (l1 ++ mid ++ l2) → P a) → ∀ a, a ∈ hdrs H (l1 ++ l2) → P a.
Proof. intros HP a Ha. apply HP. by apply hdrs_mid. Qed.

Lemma valid_append m p n k : 0 ≤ n → 0 ≤ k → valid m p n → valid m (p + n) k → valid m p (n + k).
Proof.
  intros Hn Hk H1 H2. apply (valid_split m p (n + k) n); [lia|].
  by replace (n + k - n) with k by lia.
Qed.

(** A block that is being released joins the free block before it. *)
Lemma arena_merge_prev m l1 p psz x sz l2 fs q :
  arena H m (l1 ++ Blk p psz Free :: Blk x sz Pending :: l2) fs → p + psz = x →
  q = headd H (map b_addr l2) →
  let m' := put (put (put m (p + SIZE) (psz + sz)) (p + NEXT) q) (q + PREV) p in
  arena H m' (l1 ++ Blk p (psz + sz) Free :: l2) fs ∧
  frame m m' (l1 ++ Blk p psz Free :: Blk x sz Pending :: l2).
Proof.
  intros Ha E Eq m'.
  assert (Blk x sz Pending ∈ l1 ++ Blk p psz Free :: Blk x sz Pending :: l2) as Hx
    by (apply elem_of_app; right; right; left).
  destruct (arena_block H m _ _ _ Ha Hx) as [[] (Vx & _ & _)].
  assert (arena H m ((l1 ++ [Blk p psz Free]) ++ Blk x sz Pending :: l2) fs) as Ha2
    by (by rewrite <-app_assoc).
  pose proof (fo_hi _ _ _ _ _ _ _ _ _ (arena_focus H _ _ _ _ _ _ _ Ha2)) as Hhi2.
  pose proof (fo_out _ _ _ _ _ _ _ _ _ (arena_focus H _ _ _ _ _ _ _ Ha2)) as Hout2. clear Ha2.
  pose proof (headd_hdrs H l1 l2) as Hq. rewrite <-Eq in Hq.
  pose proof (hdrs_mid H l1 [Blk x sz Pending] l2 q Hq) as Hq'.
  afocus_free Ha. assert (q0 = x) as -> by done.
  destruct (Hval q Hq') as (Vq & ? & ?). pose proof (Hout q Hq').
  pose proof (Hap q pf Hq' Hpf). pose proof (Hap q qf Hq' Hqf). pose proof (Hap q p0 Hq' Hpin).
  pose proof (hdrs_weaken _ l1 [Blk x sz Pending] l2 Hout) as Hout'.
  pose proof (λ a a' Ha Ha', Hap a a' (hdrs_mid H l1 [Blk x sz Pending] l2 a Ha) Ha') as Hap'.
  assert (valid m p (psz + sz)) as Vpx by (apply valid_append; [lia|lia|done|by rewrite E]).
  split.
  - apply (arena_splice H m m' l1 [Blk p psz Free; Blk x sz Pending] [Blk p (psz + sz) Free]
      l2 f1 [p] [p] f2 p (x + sz)); try done.
    + lia.
    + repeat constructor.
    + apply Forall_singleton; split_and!; offsets; cbn [b_addr b_size]; try lia;
        [ablk|subst m'; ahdr].
    + intros. subst m'. auto 20.
    + fold p0 pf qf. rewrite <-Eq. subst m'. akeep Hout' Hap' (tt, Hq').
    + fold p0. rewrite <-Eq. subst m'. apath.
    + fold pf qf. subst m'. apath.
  - aframe Ha. pose proof (Haz q Hq'). subst p0 pf qf m'. offsets. rewrite !lookup_put_out by awy. done.
Qed.

(** A block that is being released goes to the front of the free list. *)
Lemma arena_free_push m l1 x sz l2 fs (f : Z) :
  arena H m (l1 ++ Blk x sz Pending :: l2) fs → f = headd H fs →
  let m' := put (put (put (put (put m (x + TYPE) ARENA_TYPE_FREE) (x + NEXT_FREE) f)
              (x + PREV_FREE) H) (H + NEXT_FREE) x) (f + PREV_FREE) x in
  arena H m' (l1 ++ Blk x sz Free :: l2) (x :: fs) ∧
  frame m m' (l1 ++ Blk x sz Pending :: l2).
Proof.
  intros Ha Ef m'. pose proof (ar_fs _ _ _ _ Ha) as Hfs.
  assert (fs ≡ₚ free_addrs (l1 ++ l2)) as Hfs'.
  { rewrite Hfs, !free_addrs_app. done. }
  assert (f ∈ H :: fs) as Hf0 by (rewrite Ef; apply headd_in).
  assert (f ∈ hdrs H (l1 ++ l2)) as Hf.
  { apply elem_of_cons in Hf0 as [->|Hf']; [left|right].
    rewrite Hfs' in Hf'. by apply free_addrs_in. }
  assert (H ∈ hdrs H (l1 ++ l2)) as HH by left.
  destruct (path_ends _ _ _ _ _ (ar_free _ _ _ _ Ha)) as [E1 _]. rewrite <-Ef in E1.
  pose proof (arena_focus H _ _ _ _ _ _ _ Ha)
    as [[? ? ? ? ? ? ?] (? & ? & ?) [? ?] [? ?] Hpin Hqin Hout Hval Hap ? ?].
  set (p := lastd H (map b_addr l1)) in *. set (q := headd H (map b_addr l2)) in *.
  neighbours Hval Hout (tt, (p, Hpin), (q, Hqin), (f, Hf), (H, HH)).
  pairs Hap (tt, (p, Hpin), (q, Hqin), (f, Hf), (H, HH)).
  unfold linked in *. offsets. cbn [b_addr b_size b_stat] in *. split.
  - apply (arena_splice H m m' l1 [Blk x sz Pending] [Blk x sz Free] l2 [] [] [x] fs x (x + sz));
      try done.
    + lia.
    + repeat constructor.
    + apply Forall_singleton; split_and!; offsets; cbn [b_addr b_size]; try lia;
        [ablk|subst m'; ahdr].
    + intros. subst m'. auto 20.
    + fold p q. rewrite <-Ef. change (lastd H []) with H. subst m'.
      akeep Hout Hap (tt, Hf, HH).
    + fold p q. subst m'. apath.
    + rewrite <-Ef. change (lastd H []) with H. subst m'. apath.
  - intros a Hno.
    destruct (not_owns_main l1 x sz Pending l2 a (ar_ok _ _ _ _ Ha) ltac:(done) Hno) as [Hax Haz].
    pose proof (not_owns_free m _ _ _ a Ha Hf0 Hno).
    pose proof (not_owns_free m _ _ H a Ha ltac:(left) Hno).
    subst m'. rewrite !lookup_put_out by awy. done.
Qed.

(** A free block takes in the free block after it. *)
Lemma arena_merge_next m l1 x sz y ysz l2 fs q :
  arena H m (l1 ++ Blk x sz Free :: Blk y ysz Free :: l2) fs → x + sz = y →
  q = headd H (map b_addr l2) →
  ∃ f1 f2, fs = f1 ++ y :: f2 ∧
  let pf := lastd H f1 in let qf := headd H f2 in
  let m' := put (put (put (put (put m (x + SIZE) (sz + ysz)) (pf + NEXT_FREE) qf)
              (qf + PREV_FREE) pf) (x + NEXT) q) (q + PREV) x in
  remove_from_chains y (put m (x + SIZE) (sz + ysz)) = Ret tt m' ∧
  arena H m' (l1 ++ Blk x (sz + ysz) Free :: l2) (f1 ++ f2) ∧
  frame m m' (l1 ++ Blk x sz Free :: Blk y ysz Free :: l2).
Proof.
  intros Ha E ->.
  pose proof (arena_focus H _ _ _ _ _ _ _ Ha)
    as [[? ? ? ? ? ? ?] (? & ? & ?) [? ?] _ _ _ HoutX _ _ HloX _].
  assert (arena H m ((l1 ++ [Blk x sz Free]) ++ Blk y ysz Free :: l2) fs) as Ha2
    by (by rewrite <-app_assoc).
  assert (lastd H (map b_addr (l1 ++ [Blk x sz Free])) = x) as Ex.
  { unfold lastd. rewrite map_app. cbn [map]. by rewrite last_snoc. }
  pose proof (ar_fs _ _ _ _ Ha) as Hfs.
  afocus_free Ha2. exists f1, f2. split; [done|]. fold pf qf.
  clearbody p. subst p.
  assert (∀ a, a ∈ hdrs H (l1 ++ l2) → a ∈ hdrs H ((l1 ++ [Blk x sz Free]) ++ l2)) as Hsub.
  { intros a Hin. rewrite <-app_assoc. by apply hdrs_mid. }
  pose proof (Hsub _ (lastd_hdrs H l1 l2)) as Hp0. set (p0 := lastd H (map b_addr l1)) in *.
  neighbours Hval Hout (tt, (p0, Hp0)).
  pairs Hap (tt, (x, Hpin), (q, Hqin), (pf, Hpf), (qf, Hqf), (p0, Hp0)).
  pose proof (hdrs_weaken _ l1 [Blk y ysz Free] l2 HoutX) as HoutX'.
  pose proof (λ a a' Ha Ha', Hap a a' (Hsub a Ha) Ha') as Hap'.
  pose proof (HoutX' p0 (lastd_hdrs H l1 l2)). pose proof (HoutX' q (headd_hdrs H l1 l2)).
  assert (valid m x (sz + ysz)) as Vxy by (apply valid_append; [lia|lia|done|by rewrite E]).
  split_and!.
  - unfold remove_from_chains. rewrite run_bind.
    erewrite run_remove_free by (offsets; first [vld | wlook; eassumption]). cbn beta iota. offsets.
    erewrite run_remove_main by (offsets; first [vld | wlook; eassumption]). done.
  - apply (arena_splice_gen H m _ l1 [Blk x sz Free; Blk y ysz Free] [Blk x (sz + ysz) Free]
      l2 f1 [y] [] f2 x (y + ysz)); try done.
    + rewrite !free_addrs_app in *. simpl in *. rewrite <-!Permutation_middle in Hfs.
      rewrite <-Permutation_middle. rewrite perm_swap in Hfs. by apply Permutation_cons_inv in Hfs.
    + lia.
    + repeat constructor.
    + apply Forall_singleton. split_and!; offsets; cbn [b_addr b_size]; try lia.
      * ablk.
      * ahdr.
    + intros. auto 20.
    + fold p0 q. akeep HoutX' Hap' (tt, Hpin, Hqin, Hpf, Hqf).
    + fold pf qf. intros a Hin. pose proof (Hap a x (Hfin a Hin) Hpin).
      pose proof (Hap a q (Hfin a Hin) Hqin). pose proof (Hap a pf (Hfin a Hin) Hpf).
      pose proof (Hap a qf (Hfin a Hin) Hqf). offsets. split; intros; wlook; done.
    + fold p0 q. apath.
    + fold pf qf. apath.
  - intros a Hno.
    destruct (not_owns_main l1 x sz Free (Blk y ysz Free :: l2) a (ar_ok _ _ _ _ Ha) ltac:(done) Hno)
      as [Hax Haz].
    pose proof (not_owns_free m _ _ _ a Ha (proj1 (free_ends_in f1 f2 y)) Hno).
    pose proof (not_owns_free m _ _ _ a Ha (proj2 (free_ends_in f1 f2 y)) Hno).
    pose proof (Haz _ (hdrs_mid H l1 [Blk y ysz Free] l2 _ (headd_hdrs H l1 l2))).
    subst q pf qf. rewrite !lookup_put_out by awy. done.
Qed.

Definition settled b : Prop := b_stat b ≠ Pending.

Lemma run_free_before m l1 x sz st l2 fs p :
  arena H m (l1 ++ Blk x sz st :: l2) fs → Forall settled l1 → p = lastd H (map b_addr l1) →
  (∃ l1' psz, l1 = l1' ++ [Blk p psz Free] ∧ p + psz = x ∧ free_before p x m = Ret true m) ∨
  free_before p x m = Ret false m.
Proof.
  intros Ha Hset ->. unfold free_before. destruct l1 as [|b l1 _] using rev_ind.
  - right. change (lastd H (map b_addr [])) with H.
    rewrite run_bind, (run_load64 _ _ _ (ar_type _ _ _ _ Ha)). done.
  - assert (lastd H (map b_addr (l1 ++ [b])) = b_addr b) as ->.
    { unfold lastd. rewrite map_app. cbn [map]. by rewrite last_snoc. }
    destruct (arena_block H m _ _ b Ha) as [_ (_ & Hs & Ht)].
    { apply elem_of_app. left. apply elem_of_app. right. left. }
    apply Forall_app in Hset as [_ Hset]. apply Forall_cons in Hset as [Hset _]. unfold settled in Hset.
    destruct b as [a s [| n|]]; simpl in *; [|right|by destruct Hset].
    + rewrite run_bind, (run_load64 _ _ _ Ht). cbn beta iota.
      change (ARENA_TYPE_FREE =? ARENA_TYPE_FREE) with true. cbn iota.
      rewrite run_bind, (run_load64 _ _ _ Hs). cbn beta iota. rewrite run_ret.
      destruct (Z.eqb_spec (a + s) x); [left; eauto|by right].
    + rewrite run_bind, (run_load64 _ _ _ Ht). done.
Qed.

Lemma run_free_after m l1 x sz st l2 fs q :
  arena H m (l1 ++ Blk x sz st :: l2) fs → Forall settled l2 → q = headd H (map b_addr l2) →
  (∃ l2' qsz, l2 = Blk q qsz Free :: l2' ∧ x + sz = q ∧ free_after x q m = Ret true m) ∨
  free_after x q m = Ret false m.
Proof.
  intros Ha Hset ->. unfold free_after.
  destruct (arena_block H m _ _ (Blk x sz st) Ha) as [_ (_ & Hx & _)].
  { apply elem_of_app. right. left. }
  destruct l2 as [|b l2]; simpl in *.
  - right. change (headd H []) with H. rewrite run_bind, (run_load64 _ _ _ (ar_type _ _ _ _ Ha)). done.
  - destruct (arena_block H m _ _ b Ha) as [_ (_ & Hs & Ht)].
    { apply elem_of_app. right. right. left. }
    apply Forall_cons in Hset as [Hset _]. unfold settled in Hset.
    change (headd H (b_addr b :: map b_addr l2)) with (b_addr b).
    destruct b as [a s [| n|]]; simpl in *; [|right|by destruct Hset].
    + rewrite run_bind, (run_load64 _ _ _ Ht). cbn beta iota.
      change (ARENA_TYPE_FREE =? ARENA_TYPE_FREE) with true. cbn iota.
      rewrite run_bind, (run_load64 _ _ _ Hx). cbn beta iota. rewrite run_ret.
      destruct (Z.eqb_spec (x + sz) a); [left; eauto|by right].
    + rewrite run_bind, (run_load64 _ _ _ Ht). done.
Qed.

(** The bytes owned after are owned before. *)
Definition owns_sub bs' bs : Prop := ∀ a, owns (H, bs') a → owns (H, bs) a.

Lemma owns_sub_splice l1 mid mid' l2 :
  (∀ a b, b ∈ mid' → blk_owns b a → ∃ c, c ∈ mid ∧ blk_owns c a) →
  owns_sub (l1 ++ mid' ++ l2) (l1 ++ mid ++ l2).
Proof. intros Hmid a. apply owns_splice. intros b. apply Hmid. Qed.

Lemma frame_trans m m1 m2 bs bs1 :
  frame m m1 bs → frame m1 m2 bs1 → owns_sub bs1 bs → frame m m2 bs.
Proof. intros H1 H2 Hs a Ha. rewrite H2, H1; [done|done|]. intros Ho. by apply Ha, Hs. Qed.

Lemma run_coalesce_prev m l1 x sz l2 fs :
  arena H m (l1 ++ Blk x sz Pending :: l2) fs → Forall settled l1 →
  ∃ m' l1' y ysz fs',
  coalesce_prev H x (lastd H (map b_addr l1)) (headd H (map b_addr l2)) m = Ret y m' ∧
  arena H m' (l1' ++ Blk y ysz Free :: l2) fs' ∧ y ≤ x ∧ y + ysz = x + sz ∧
  Forall settled l1' ∧ live_of l1' = live_of l1 ∧
  frame m m' (l1 ++ Blk x sz Pending :: l2) ∧
  owns_sub (l1' ++ Blk y ysz Free :: l2) (l1 ++ Blk x sz Pending :: l2).
Proof.
  intros Ha Hset.
  unfold coalesce_prev. pose proof (arena_focus H _ _ _ _ _ _ _ Ha) as [[] (Vx & Sx & _) _ _ Hp Hq Hout Hval _ _ _].
  assert (H ∈ hdrs H (l1 ++ l2)) as HH by left. pose proof (Hout H HH).
  remember (lastd H (map b_addr l1)) as p eqn:Ep. remember (headd H (map b_addr l2)) as q eqn:Eq.
  destruct (Hval p Hp) as (Vp & ? & ?), (Hval q Hq) as (Vq & ? & ?).
  unfold b_end in *. cbn [b_addr b_size] in *.
  destruct (run_free_before m l1 x sz Pending l2 fs p Ha Hset Ep)
    as [(l1' & psz & -> & E & Hrun)|Hrun]; rewrite run_bind, Hrun; cbn beta iota.
  - rewrite <-app_assoc in Ha. simpl in Ha.
    destruct (arena_block H m _ _ (Blk p psz Free) Ha) as [[] (_ & Sp & _)].
    { apply elem_of_app. right. left. }
    unfold b_end in *. cbn [b_addr b_size] in *.
    destruct (arena_merge_prev m l1' p psz x sz l2 fs q Ha E Eq) as [Ha' Hf].
    offsets. aload. aload. rewrite (wrap_small 64) by lia. do 3 astore. rewrite run_ret.
    eexists _, l1', p, (psz + sz), fs. split_and!; [done|exact Ha'|lia|lia| | | |].
    + by apply Forall_app in Hset as [? _].
    + by rewrite live_of_app, app_nil_r.
    + by rewrite <-app_assoc.
    + rewrite <-app_assoc. apply (owns_sub_splice l1' [Blk p psz Free; Blk x sz Pending] [Blk p (psz + sz) Free] l2).
      intros a b ->%list_elem_of_singleton Ho. unfold blk_owns, b_end in Ho. simpl in Ho.
      destruct (decide (a < x)); [exists (Blk p psz Free)|exists (Blk x sz Pending)];
        (split; [rewrite !elem_of_cons; tauto|]); unfold blk_owns, b_end; simpl; lia.
  - destruct (path_ends _ _ _ _ _ (ar_free _ _ _ _ Ha)) as [E1 _].
    destruct (arena_free_push m l1 x sz l2 fs (headd H fs) Ha eq_refl) as [Ha' Hf].
    destruct (hdr_valid H m _ _ (headd H fs) Ha) as (Vf & ? & ?).
    { apply (arena_fs_in H m _ fs); [done|]. apply headd_in. }
    pose proof (ar_pos _ _ _ _ Ha) as [? ?]. pose proof (ar_valid _ _ _ _ Ha) as VH.
    offsets. astore. aload. do 3 astore. aload. astore. rewrite run_ret.
    eexists _, l1, x, sz, (x :: fs). split_and!; [done|exact Ha'|lia|lia|done|done|exact Hf|].
    apply (owns_sub_splice l1 [Blk x sz Pending] [Blk x sz Free] l2).
    intros a b ->%list_elem_of_singleton Ho. exists (Blk x sz Pending). split; [left|exact Ho].
Qed.

Lemma run_coalesce_next m l1 x sz l2 fs :
  arena H m (l1 ++ Blk x sz Free :: l2) fs → Forall settled l2 →
  ∃ m' l2' xsz fs',
  coalesce_next x (headd H (map b_addr l2)) m = Ret tt m' ∧
  arena H m' (l1 ++ Blk x xsz Free :: l2') fs' ∧ sz ≤ xsz ∧
  Forall settled l2' ∧ live_of l2' = live_of l2 ∧
  frame m m' (l1 ++ Blk x sz Free :: l2) ∧
  owns_sub (l1 ++ Blk x xsz Free :: l2') (l1 ++ Blk x sz Free :: l2).
Proof.
  intros Ha Hset. unfold coalesce_next.
  pose proof (arena_focus H _ _ _ _ _ _ _ Ha) as [[] (Vx & Sx & _) _ _ _ _ _ _ _ _ _].
  unfold b_end in *. cbn [b_addr b_size] in *.
  remember (headd H (map b_addr l2)) as q eqn:Eq.
  destruct (run_free_after m l1 x sz Free l2 fs q Ha Hset Eq)
    as [(l2' & qsz & -> & E & Hrun)|Hrun]; rewrite run_bind, Hrun; cbn beta iota.
  - destruct (arena_block H m _ _ (Blk q qsz Free) Ha) as [[] (_ & Sq & _)].
    { apply elem_of_app. right. right. left. }
    unfold b_end in *. cbn [b_addr b_size] in *.
    destruct (arena_merge_next m l1 x sz q qsz l2' fs _ Ha E eq_refl)
      as (f1 & f2 & -> & Hrem & Ha' & Hf). cbn zeta in *.
    offsets. aload. aload. rewrite (wrap_small 64) by lia. astore. rewrite Hrem.
    eexists _, l2', (sz + qsz), (f1 ++ f2). split_and!; [done|exact Ha'|lia| | |exact Hf|].
    + by apply Forall_cons in Hset as [_ ?].
    + done.
    + apply (owns_sub_splice l1 [Blk x sz Free; Blk q qsz Free] [Blk x (sz + qsz) Free] l2').
      intros a b ->%list_elem_of_singleton Ho. unfold blk_owns, b_end in Ho. simpl in Ho.
      destruct (decide (a < q)); [exists (Blk x sz Free)|exists (Blk q qsz Free)];
        (split; [rewrite !elem_of_cons; tauto|]); unfold blk_owns, b_end; simpl; lia.
  - rewrite run_ret. exists m, l2, sz, fs. split_and!; try done; by intros a ?.
Qed.

(** Releasing a block: it ends up inside a free block, which may have taken in
    its neighbours; no other block changes. *)
Lemma free_block m l1 x sz l2 fs :
  arena H m (l1 ++ Blk x sz Pending :: l2) fs → Forall settled (l1 ++ l2) →
  ∃ m' l1' y ysz l2' fs', __free_block H x m = Ret y m' ∧
  arena H m' (l1' ++ Blk y ysz Free :: l2') fs' ∧ y ≤ x ∧ x + sz ≤ y + ysz ∧
  Forall settled (l1' ++ l2') ∧ live_of (l1' ++ l2') = live_of (l1 ++ l2) ∧
  frame m m' (l1 ++ Blk x sz Pending :: l2) ∧
  owns_sub (l1' ++ Blk y ysz Free :: l2') (l1 ++ Blk x sz Pending :: l2).
Proof.
  intros Ha [Hs1 Hs2]%Forall_app. unfold __free_block.
  pose proof (arena_focus H _ _ _ _ _ _ _ Ha) as [_ _ [_ Hp] [Hn _] _ _ _ _ _ _ _].
  rewrite run_bind, (run_load64 _ _ _ Hp). cbn beta iota.
  rewrite run_bind, (run_load64 _ _ _ Hn). cbn beta iota.
  destruct (run_coalesce_prev m l1 x sz l2 fs Ha Hs1)
    as (m1 & l1' & y & ysz & fs1 & Hrun1 & Ha1 & Hy & Hend & Hs1' & Hl1 & Hf1 & Ho1).
  rewrite run_bind, Hrun1. cbn beta iota.
  destruct (run_coalesce_next m1 l1' y ysz l2 fs1 Ha1 Hs2)
    as (m2 & l2' & sz2 & fs2 & Hrun2 & Ha2 & Hsz & Hs2' & Hl2 & Hf2 & Ho2).
  rewrite run_bind, Hrun2. cbn beta iota. rewrite run_ret.
  exists m2, l1', y, sz2, l2', fs2. split_and!; [done|done|lia|lia| | | |].
  - by apply Forall_app.
  - rewrite !live_of_app. congruence.
  - by apply (frame_trans m m1 m2 _ (l1' ++ Blk y ysz Free :: l2)).
  - intros a Hin. by apply Ho1, Ho2.
Qed.

(** *** Searches *)

Lemma hdrs_size m bs fs : arena H m bs fs → (length (H :: map b_addr bs) ≤ size m)%nat.
Proof.
  intros Ha. destruct (arena_nodup H m bs fs Ha) as [Hnd _].
  assert (list_to_set (H :: map b_addr bs) ⊆@{gset Z} dom m) as Hsub.
  { intros a Hin. apply elem_of_list_to_set in Hin. apply elem_of_dom.
    destruct (hdr_valid H m bs fs a Ha Hin) as (Hv & _).
    apply (valid_head m a 48); [lia|done]. }
  apply subseteq_size in Hsub. rewrite size_list_to_set, size_dom in Hsub by done. done.
Qed.

(** A step of the search. *)
Definition fit_body (size0 fp : Z) : C mem (Z + option Z) :=
  ty ← load64 (fp + TYPE);
  if ty =? ARENA_TYPE_HEAD then Break None else
  sz ← load64 (fp + SIZE);
  if size0 <=? sz then Break (Some fp) else
  nf ← load64 (fp + NEXT_FREE);
  Next nf.

Lemma first_fit_loop m bs fs size0 :
  arena H m bs fs →
  ∀ f fuel, path NEXT_FREE PREV_FREE m (f ++ [H]) →
  (∀ a, a ∈ f → ∃ b, b ∈ bs ∧ b_addr b = a ∧ b_stat b = Free) → (length f < fuel)%nat →
  (∃ l1 x sz l2, bs = l1 ++ Blk x sz Free :: l2 ∧ size0 ≤ sz ∧
     loop fuel (fit_body size0) (headd H f) m = Ret (Some x) m) ∨
  loop fuel (fit_body size0) (headd H f) m = Ret None m ∧
  ∀ a, a ∈ f → ∃ sz, word m (a + SIZE) = Some sz ∧ sz < size0.
Proof.
  intros Ha f. induction f as [|a f IH]; intros [|fuel] Hpath Hin Hfuel; try (simpl in Hfuel; lia);
    rewrite !run_loop.
  - right. split; [|by intros a ?%elem_of_nil]. change (headd H []) with H. unfold fit_body.
    rewrite run_bind, (run_load64 _ _ _ (ar_type _ _ _ _ Ha)). cbn beta iota.
    by change (ARENA_TYPE_HEAD =? ARENA_TYPE_HEAD) with true.
  - change (headd H (a :: f)) with a. destruct (Hin a ltac:(left)) as (b & Hb & <- & Hst).
    destruct (arena_block H m bs fs b Ha Hb) as [_ (_ & Hs & Ht)]. rewrite Hst in Ht.
    simpl app in Hpath. destruct (headd_split H f) as [s0 E]. rewrite E in Hpath.
    destruct Hpath as [[E2 _] Hpath]. rewrite <-E in Hpath.
    assert (fit_body size0 (b_addr b) m =
      Ret (if size0 <=? b_size b then inr (Some (b_addr b)) else inl (headd H f)) m) as Hbody.
    { unfold fit_body. rewrite run_bind, (run_load64 _ _ _ Ht). cbn beta iota.
      change (ARENA_TYPE_FREE =? ARENA_TYPE_HEAD) with false. cbn iota.
      rewrite run_bind, (run_load64 _ _ _ Hs). cbn beta iota.
      destruct (size0 <=? b_size b); [done|]. by rewrite run_bind, (run_load64 _ _ _ E2). }
    rewrite Hbody. destruct (Z.leb_spec size0 (b_size b)) as [Hle|Hlt].
    + left. destruct b as [x sz st]. simpl in *. subst st.
      apply list_elem_of_split in Hb as (l1 & l2 & ->). exists l1, x, sz, l2.
      done.
    + destruct (IH fuel) as [(l1 & x & sz & l2 & -> & Hsz & Hl)|[Hr Hno]];
        [done| |simpl in Hfuel; lia| |right].
      * intros c Hc. apply Hin. by right.
      * left. by exists l1, x, sz, l2.
      * split; [done|]. intros c [->|Hc]%elem_of_cons; [by exists (b_size b)|by apply Hno].
Qed.

(** The search finds a free block that is large enough, if there is one. *)
Lemma run_first_fit m bs fs size0 :
  arena H m bs fs →
  (∃ l1 x sz l2, bs = l1 ++ Blk x sz Free :: l2 ∧ size0 ≤ sz ∧
     first_fit H size0 m = Ret (Some x) m) ∨
  first_fit H size0 m = Ret None m ∧ ∀ b, b ∈ bs → b_stat b = Free → b_size b < size0.
Proof.
  intros Ha. unfold first_fit. fold (fit_body size0).
  pose proof (ar_free _ _ _ _ Ha) as Hpath.
  destruct (path_ends _ _ _ _ _ Hpath) as [E1 _].
  rewrite run_bind, (run_load64 _ _ _ E1). cbn beta iota. rewrite run_scan_fuel.
  destruct (first_fit_loop m bs fs size0 Ha fs (S (size m))) as [Hl|[Hr Hno]].
  - exact (path_suffix _ _ _ [H] _ Hpath).
  - intros a Hin. rewrite (ar_fs _ _ _ _ Ha) in Hin. apply list_elem_of_omap in Hin as (b & Hb & E).
    exists b. by destruct (b_stat b); simplify_eq.
  - pose proof (hdrs_size m bs fs Ha) as Hsz. pose proof (ar_fs _ _ _ _ Ha) as Hp.
    apply Permutation_length in Hp. pose proof (sublist_length _ _ (free_addrs_sub bs)).
    simpl in Hsz. lia.
  - by left.
  - right. split; [done|]. intros b Hb Hst.
    destruct (Hno (b_addr b)) as (sz & Hw & Hlt).
    { rewrite (ar_fs _ _ _ _ Ha). apply list_elem_of_omap. exists b. by rewrite Hst. }
    destruct (arena_block H m bs fs b Ha Hb) as [_ (_ & Hs & _)]. congruence.
Qed.

(** The blocks before the place the search stops at are below, those after are
    not. *)
Lemma predecessor_loop m bs fs fp :
  arena H m bs fs → Forall settled bs → (∀ b, b ∈ bs → b_addr b ≠ fp) →
  ∀ l1 l2 fuel, bs = l1 ++ l2 → (∀ b, b ∈ l2 → fp < b_addr b) → (length l1 < fuel)%nat →
  ∃ l1' l2', bs = l1' ++ l2' ∧
  loop fuel (λ pah,
    ty ← load64 (pah + TYPE);
    if ty =? ARENA_TYPE_HEAD then Break pah else
    if pah <? fp then Break pah else
    pp ← load64 (pah + PREV);
    Next pp) (lastd H (map b_addr l1)) m = Ret (lastd H (map b_addr l1')) m ∧
  (∀ b, b ∈ l1' → b_addr b < fp) ∧ (∀ b, b ∈ l2' → fp < b_addr b).
Proof.
  intros Ha Hset Hne l1. induction l1 as [|b l1 IH] using rev_ind; intros l2 [|fuel] E Hl Hfuel;
    try lia; rewrite run_loop; cbn beta.
  - exists [], l2. split; [done|]. change (lastd H (map b_addr [])) with H. split_and!; [|by intros b ?%elem_of_nil|done].
    rewrite run_bind, (run_load64 _ _ _ (ar_type _ _ _ _ Ha)). cbn beta iota.
    by change (ARENA_TYPE_HEAD =? ARENA_TYPE_HEAD) with true.
  - assert (b ∈ bs) as Hb by (rewrite E; apply elem_of_app; left; apply elem_of_app; right; left).
    assert (lastd H (map b_addr (l1 ++ [b])) = b_addr b) as Elast.
    { unfold lastd. rewrite map_app. cbn [map]. by rewrite last_snoc. }
    destruct (arena_block H m bs fs b Ha Hb) as [_ (_ & _ & Ht)].
    rewrite Forall_forall in Hset. specialize (Hset b Hb). unfold settled in Hset.
    assert (∃ ty, word m (b_addr b + TYPE) = Some ty ∧ (ty =? ARENA_TYPE_HEAD) = false) as (ty & Ety & Hty)
      by (destruct (b_stat b); [eauto|eauto|done]).
    rewrite Elast, run_bind, (run_load64 _ _ _ Ety). cbn beta iota. rewrite Hty.
    destruct (Z.ltb_spec (b_addr b) fp) as [Hlt|Hge].
    + exists (l1 ++ [b]), l2. rewrite Elast. split_and!; [done|done| |done].
      intros c [Hc|Hc]%elem_of_app; [|by apply list_elem_of_singleton in Hc as ->].
      pose proof (ar_sorted _ _ _ _ Ha) as Hs. rewrite E in Hs. apply FOP_app in Hs as (Hs & _ & _).
      apply FOP_app in Hs as (_ & _ & Hs). specialize (Hs c b Hc ltac:(left)).
      destruct (arena_block H m bs fs c Ha) as [[] _].
      { rewrite E. rewrite !elem_of_app. tauto. }
      unfold before, b_end in *. lia.
    + pose proof (Hne b Hb).
      assert (bs = l1 ++ b :: l2) as E' by (by rewrite E, <-app_assoc).
      rewrite E' in Ha. destruct b as [x sz st].
      pose proof (arena_focus H _ _ _ _ _ _ _ Ha) as [_ _ [_ Hp] _ _ _ _ _ _ _ _].
      cbn [b_addr] in *. rewrite run_bind, (run_load64 _ _ _ Hp). cbn beta iota. rewrite run_ret.
      apply (IH (Blk x sz st :: l2)); [done| |rewrite length_app in Hfuel; simpl in Hfuel; lia].
      intros c [->|Hc]%elem_of_cons; [simpl; lia|auto].
Qed.

Lemma run_predecessor m bs fs fp :
  arena H m bs fs → Forall settled bs → (∀ b, b ∈ bs → b_addr b ≠ fp) →
  ∃ l1 l2, bs = l1 ++ l2 ∧ predecessor H fp m = Ret (lastd H (map b_addr l1)) m ∧
  (∀ b, b ∈ l1 → b_addr b < fp) ∧ (∀ b, b ∈ l2 → fp < b_addr b).
Proof.
  intros Ha Hset Hne. unfold predecessor.
  destruct (path_ends _ _ _ _ _ (ar_main _ _ _ _ Ha)) as [_ E1].
  rewrite run_bind, (run_load64 _ _ _ E1). cbn beta iota. rewrite run_scan_fuel.
  pose proof (hdrs_size m bs fs Ha) as Hsz. simpl in Hsz. rewrite length_map in Hsz.
  apply (predecessor_loop m bs fs fp Ha Hset Hne bs []); [by rewrite app_nil_r| |lia].
  by intros b ?%elem_of_nil.
Qed.

(** *** New memory *)

(** A description depends on the bytes the allocator owns only. *)
Lemma arena_agree m m' bs fs :
  arena H m bs fs → (∀ a, owns (H, bs) a → m' !! a = m !! a) →
  (∀ b, b ∈ bs → valid m' (b_addr b) (b_size b)) → arena H m' bs fs.
Proof.
  intros Ha Heq Hv. pose proof (arena_fs_in H m bs fs) as Hfsin.
  assert (∀ a i, a ∈ hdrs H bs → 0 ≤ i → i + 8 ≤ 32 → word m' (a + i) = word m (a + i)) as Hmain.
  { intros a i Hin Hi1 Hi2. apply word_ext. intros c Hc. apply Heq.
    destruct (decide (c < a ∨ a + 32 ≤ c)); [lia|].
    apply elem_of_cons in Hin as [->|Hin]; [left; simpl; lia|right].
    apply list_elem_of_fmap in Hin as (b & -> & Hb). exists b. split; [done|].
    destruct (arena_block H m bs fs b Ha Hb) as [[] _].
    unfold blk_owns. offsets. destruct (b_stat b); lia. }
  assert (∀ a i, a ∈ H :: fs → 0 ≤ i → i + 8 ≤ 48 → word m' (a + i) = word m (a + i)) as Hfree.
  { intros a i Hin Hi1 Hi2. apply word_ext. intros c Hc. apply Heq.
    apply elem_of_cons in Hin as [->|Hin]; [left; simpl; lia|right].
    rewrite (ar_fs _ _ _ _ Ha) in Hin. apply list_elem_of_omap in Hin as (b & Hb & E).
    exists b. split; [done|]. destruct (arena_block H m bs fs b Ha Hb) as [[] _].
    unfold blk_owns. offsets. destruct (b_stat b); simplify_eq. lia. }
  destruct Ha as [Hpos HvH Hty Hok Hh Hs Hm Hf Hfs]. split; try done.
  - intros i Hi. rewrite Heq; [by apply HvH|]. left. simpl. lia.
  - rewrite Hmain; [done|left|unfold TYPE; lia|unfold TYPE; lia].
  - apply Forall_forall. intros b Hb. rewrite Forall_forall in Hh. destruct (Hh b Hb) as (_ & H2 & H3).
    assert (b_addr b ∈ hdrs H bs) as Hin by (right; by apply list_elem_of_fmap_2).
    split; [auto|]. rewrite !Hmain by (done || (unfold TYPE, SIZE; lia)). done.
  - revert Hm. apply path_frame; apply Forall_forall; intros a Hin; apply Hmain;
      try (unfold NEXT, PREV; lia).
    + change (H :: map b_addr bs ++ [H]) with ((H :: map b_addr bs) ++ [H]) in Hin.
      by rewrite removelast_last in Hin.
    + simpl in Hin. apply elem_of_app in Hin as [Hin|Hin%list_elem_of_singleton]; [by right|].
      rewrite Hin. left.
  - revert Hf. apply path_frame; apply Forall_forall; intros a Hin; apply Hfree;
      try (unfold NEXT_FREE, PREV_FREE; lia).
    + change (H :: fs ++ [H]) with ((H :: fs) ++ [H]) in Hin. by rewrite removelast_last in Hin.
    + simpl in Hin. apply elem_of_app in Hin as [Hin|Hin%list_elem_of_singleton]; [by right|].
      rewrite Hin. left.
Qed.

(** A block that is not yet in the list of all blocks enters it. *)
Lemma arena_insert m l1 l2 fs x sz p q :
  arena H m (l1 ++ l2) fs → p = lastd H (map b_addr l1) → q = headd H (map b_addr l2) →
  (∀ b, b ∈ l1 → b_end b ≤ x) → (∀ b, b ∈ l2 → x + sz ≤ b_addr b) →
  blk_ok H (Blk x sz Pending) → valid m x sz → word m (x + SIZE) = Some sz →
  let m' := put (put (put (put m (x + NEXT) q) (x + PREV) p) (p + NEXT) x) (q + PREV) x in
  arena H m' (l1 ++ Blk x sz Pending :: l2) fs ∧
  frame m m' (l1 ++ Blk x sz Pending :: l2).
Proof.
  intros Ha Ep Eq Hlo Hhi Hok Vx Sx m'.
  assert (∀ a, a ∈ hdrs H (l1 ++ l2) → outside x sz a) as Hout.
  { unfold outside. intros a [->|Hin]%elem_of_cons; [destruct Hok; unfold b_end in *; simpl in *; lia|].
    apply list_elem_of_fmap in Hin as (b & -> & Hb). destruct (arena_block H m _ _ b Ha Hb) as [[] _].
    apply elem_of_app in Hb as [Hb|Hb]; [pose proof (Hlo b Hb)|pose proof (Hhi b Hb)];
      unfold b_end in *; lia. }
  pose proof (λ a Hin, hdr_valid H m (l1 ++ l2) fs a Ha Hin) as Hval.
  pose proof (λ a a', arena_apart H m (l1 ++ l2) fs a a' Ha) as Hap.
  pose proof (lastd_hdrs H l1 l2) as Hp. rewrite <-Ep in Hp.
  pose proof (headd_hdrs H l1 l2) as Hq. rewrite <-Eq in Hq.
  pose proof (path_wrap _ _ _ _ _ (ar_free _ _ _ _ Ha)) as [F1 F2].
  pose proof (lastd_in H fs) as Hlf. apply (arena_fs_in H m _ _ _ Ha) in Hlf.
  assert (H ∈ hdrs H (l1 ++ l2)) as HH by left.
  remember (lastd H fs) as pf eqn:Epf.
  neighbours Hval Hout (tt, (p, Hp), (q, Hq), (pf, Hlf), (H, HH)).
  pairs Hap (tt, (p, Hp), (q, Hq), (pf, Hlf), (H, HH)).
  assert (Forall (blk_ok H) (l1 ++ Blk x sz Pending :: l2)) as Hoks.
  { pose proof (ar_ok _ _ _ _ Ha) as Hoks. apply Forall_app in Hoks as [? ?].
    apply Forall_app. split; [done|]. by constructor. }
  destruct Hok as [? ? ? ? ? ? ?]. offsets. cbn [b_addr b_size b_stat] in *. split.
  - rewrite <-(app_nil_r fs). rewrite <-(app_nil_r fs) in Ha.
    apply (arena_splice H m m' l1 [] [Blk x sz Pending] l2 fs [] [] [] x (x + sz)); try done.
    + lia.
    + repeat constructor.
    + apply Forall_singleton. split_and!; offsets; cbn [b_addr b_size]; try lia; [ablk|subst m'; ahdr].
    + intros. subst m'. auto 20.
    + rewrite <-Ep, <-Eq, <-Epf. subst m'. akeep Hout Hap (tt, Hp, Hq).
    + rewrite <-Ep, <-Eq. subst m'. apath.
    + rewrite <-Epf. change (headd H []) with H. subst m'. apath.
  - intros a Hno.
    destruct (not_owns_main l1 x sz Pending l2 a Hoks ltac:(done) Hno) as [Hax Haz].
    pose proof (Haz p Hp). pose proof (Haz q Hq). subst m'. rewrite !lookup_put_out by awy. done.
Qed.

(** *** Giving pages back *)

(** The store of the tail's header, and the description after it if the block
    were cut to [hd] bytes. *)
Lemma trim_both m l1 x sz l2 fs hd tah tl :
  arena H m (l1 ++ Blk x sz Free :: l2) fs →
  64 ≤ hd → (32 | hd) → 64 ≤ tl → (32 | tl) → x + hd ≤ tah → tah + tl = x + sz → (32 | tah) →
  ∃ m' fs', (split_tail x tah tl;; store64 (x + SIZE) hd) m = Ret tt m' ∧
  arena H m' (l1 ++ [Blk x hd Free; Blk tah tl Free] ++ l2) fs' ∧
  frame m m' (l1 ++ Blk x sz Free :: l2).
Proof.
  intros Ha Hh Hh32 Ht Ht32 Hle Hend Htah. afocus_free Ha.
  unfold split_tail. offsets. rewrite run_bind. do 2 astore. aload. do 4 astore. aload. do 4 astore.
  astore. eexists _, (f1 ++ [tah; x] ++ f2). split; [reflexivity|]. split.
  - apply (arena_splice H m _ l1 [Blk x sz Free] _ l2 f1 [x] [tah; x] f2 x (x + sz)); try done.
    + constructor.
    + lia.
    + repeat constructor. unfold before. offsets. simpl. lia.
    + constructor; [split_and!|apply Forall_singleton; split_and!]; offsets; cbn [b_addr b_size];
        try lia; [ablk|ahdr|ablk|ahdr].
    + intros. auto 30.
    + fold p q pf qf. akeep Hout Hap (tt, Hpin, Hqin, Hpf, Hqf).
    + fold p q. apath.
    + fold pf qf. apath.
  - aframe Ha. subst p q pf qf. rewrite !lookup_put_out by awy. done.
Qed.

Lemma trim_tail m l1 x sz l2 fs tah tl :
  arena H m (l1 ++ Blk x sz Free :: l2) fs →
  64 ≤ tl → (32 | tl) → x + 64 ≤ tah → tah + tl = x + sz → (32 | tah) →
  ∃ m' fs', (split_tail x tah tl;; remove_from_chains x) m = Ret tt m' ∧
  arena H m' (l1 ++ [Blk tah tl Free] ++ l2) fs' ∧
  frame m m' (l1 ++ Blk x sz Free :: l2).
Proof.
  intros Ha Ht Ht32 Hle Hend Htah. afocus_free Ha.
  unfold split_tail, remove_from_chains. offsets. rewrite run_bind. do 2 astore. aload. do 4 astore.
  aload. do 4 astore. rewrite run_bind.
  erewrite run_remove_free by (offsets; first [vld | wlook; first [eassumption|reflexivity]]).
  cbn beta iota. offsets.
  erewrite run_remove_main by (offsets; first [vld | wlook; first [eassumption|reflexivity]]).
  offsets. eexists _, (f1 ++ [tah] ++ f2). split; [reflexivity|]. split.
  - apply (arena_splice H m _ l1 [Blk x sz Free] _ l2 f1 [x] [tah] f2 x (x + sz)); try done.
    + lia.
    + repeat constructor.
    + apply Forall_singleton; split_and!; offsets; cbn [b_addr b_size]; try lia; [ablk|ahdr].
    + intros. auto 30.
    + fold p q pf qf. akeep Hout Hap (tt, Hpin, Hqin, Hpf, Hqf).
    + fold p q. apath.
    + fold pf qf. apath.
  - aframe Ha. subst p q pf qf. rewrite !lookup_put_out by awy. done.
Qed.

Lemma trim_head m l1 x sz l2 fs hd :
  arena H m (l1 ++ Blk x sz Free :: l2) fs → 64 ≤ hd ≤ sz → (32 | hd) →
  ∃ m' fs', store64 (x + SIZE) hd m = Ret tt m' ∧
  arena H m' (l1 ++ [Blk x hd Free] ++ l2) fs' ∧
  frame m m' (l1 ++ Blk x sz Free :: l2).
Proof.
  intros Ha Hh Hh32. afocus_free Ha. offsets. astore.
  eexists _, (f1 ++ [x] ++ f2). split; [reflexivity|]. split.
  - apply (arena_splice H m _ l1 [Blk x sz Free] _ l2 f1 [x] [x] f2 x (x + sz)); try done.
    + lia.
    + repeat constructor.
    + apply Forall_singleton; split_and!; offsets; cbn [b_addr b_size]; try lia; [ablk|ahdr].
    + intros. auto 30.
    + fold p q pf qf. akeep Hout Hap (tt, Hpin, Hqin, Hpf, Hqf).
    + fold p q. apath.
    + fold pf qf. apath.
  - aframe Ha. subst p q pf qf. rewrite !lookup_put_out by awy. done.
Qed.

Lemma trim_all m l1 x sz l2 fs :
  arena H m (l1 ++ Blk x sz Free :: l2) fs →
  ∃ m' fs', remove_from_chains x m = Ret tt m' ∧ arena H m' (l1 ++ [] ++ l2) fs' ∧
  frame m m' (l1 ++ Blk x sz Free :: l2).
Proof.
  intros Ha. afocus_free Ha. unfold remove_from_chains. rewrite run_bind.
  erewrite run_remove_free by (offsets; first [vld | wlook; eassumption]). cbn beta iota. offsets.
  erewrite run_remove_main by (offsets; first [vld | wlook; eassumption]). offsets.
  eexists _, (f1 ++ [] ++ f2). split; [reflexivity|]. split.
  - apply (arena_splice H m _ l1 [Blk x sz Free] _ l2 f1 [x] [] f2 x (x + sz)); try done.
    + lia.
    + constructor.
    + intros. auto 30.
    + fold p q pf qf. akeep Hout Hap (tt, Hpin, Hqin, Hpf, Hqf).
    + fold p q. apath.
    + fold pf qf. apath.
  - aframe Ha. subst p q pf qf. rewrite !lookup_put_out by awy. done.
Qed.
End ops.
