(* ===== verification/ArenaHeap.v ===== *)
(** * The arena allocator implements the allocator interface

    Allocation, release and reallocation on whole arenas, for any kernel that
    maps fresh memory; the laws of [Alloc] for them; the theorems. *)

From Stdlib Require Import List.
From stdpp Require Import base tactics numbers list gmap.
From S2P Require Import Prelude Memory Words MemFns StrFns Alloc Arena ArenaShape ArenaOps.

Open Scope Z_scope.

(** What is assumed of the kernel: [mmap] returns page-aligned addresses of the
    lower half of the address space, in place of nothing that is mapped; pages
    have a usual size. *)
Record kernel_ok (K : kernel) : Prop := {
  ko_page : ∃ k, 12 ≤ k ≤ 16 ∧ page_size K = 2 ^ k;
  ko_mmap m n p :
    k_mmap K m n = Some p →
    0 < p ∧ (page_size K | p) ∧ p + n ≤ 2 ^ 63 ∧ ∀ i, 0 ≤ i < n → m !! (p + i) = None;
}.

(** ** Rounding *)

Lemma land_mask k x :
  0 ≤ k ≤ 64 → 0 ≤ x < 2 ^ 64 → Z.land x (u64 (Z.lnot (2 ^ k - 1))) = x / 2 ^ k * 2 ^ k.
Proof.
  intros Hk Hx. unfold wrap. rewrite <-Z.land_ones by lia.
  replace (2 ^ k - 1) with (Z.ones k) by (rewrite Z.ones_equiv; lia).
  rewrite (Z.land_comm (Z.lnot _)), Z.land_assoc, Z.land_ones, Z.mod_small by lia.
  rewrite <-Z.ldiff_land, Z.ldiff_ones_r by lia.
  by rewrite Z.shiftl_mul_pow2, Z.shiftr_div_pow2 by lia.
Qed.

(** The size of the block for a request. *)
Definition block_size (n : Z) : Z := Z.land (u64 (n + 2 * ARENA_HEADER - 1)) ARENA_SIZE_MASK.

Lemma block_size_spec n :
  0 < n ≤ 2 ^ 62 → (32 | block_size n) ∧ 64 ≤ block_size n ≤ 2 ^ 62 + 64 ∧
  n ≤ block_size n - ARENA_HEADER < n + 32.
Proof.
  intros Hn. unfold block_size, ARENA_SIZE_MASK, ARENA_HEADER.
  rewrite wrap_small by lia. change (32 - 1) with (2 ^ 5 - 1).
  rewrite land_mask by lia. change (2 ^ 5) with 32.
  pose proof (Z.div_mod (n + 2 * 32 - 1) 32 ltac:(lia)).
  pose proof (Z.mod_pos_bound (n + 2 * 32 - 1) 32 ltac:(lia)).
  split; [by exists ((n + 2 * 32 - 1) / 32)|lia].
Qed.

(** The size of the mapping for a block. *)
Definition chunk_size (size : Z) : Z :=
  Z.land (u64 (size + MALLOC_CHUNK_MASK)) (u64 (Z.lnot MALLOC_CHUNK_MASK)).

Lemma chunk_size_spec size :
  0 ≤ size ≤ 2 ^ 62 + 64 → (32 | chunk_size size) ∧ size ≤ chunk_size size ≤ 2 ^ 62 + 2 ^ 20.
Proof.
  intros Hn. unfold chunk_size, MALLOC_CHUNK_MASK, _KLIBC_MALLOC_CHUNK_SIZE.
  rewrite wrap_small by lia. change (65536 - 1) with (2 ^ 16 - 1).
  rewrite land_mask by lia. change (2 ^ 16 - 1) with 65535. change (2 ^ 16) with 65536.
  pose proof (Z.div_mod (size + 65535) 65536 ltac:(lia)).
  pose proof (Z.mod_pos_bound (size + 65535) 65536 ltac:(lia)).
  split; [|lia]. exists ((size + 65535) / 65536 * 2048). lia.
Qed.

(** The part of a page before or after an aligned address, extended to hold a
    header if it is not empty. *)
Lemma portion_spec v k :
  (32 | v) → 12 ≤ k ≤ 16 →
  let h := extend_portion (Z.land (u64 v) (u64 (2 ^ k - 1))) (2 ^ k) in
  (h = 0 ∨ 64 ≤ h) ∧ (32 | h) ∧ 0 ≤ h < 2 ^ 18.
Proof.
  intros [j Hj] Hk h.
  assert (2 ^ 12 ≤ 2 ^ k ≤ 2 ^ 16) as Hp by (split; apply Z.pow_le_mono_r; lia).
  assert (2 ^ k = 32 * 2 ^ (k - 5)) as E32.
  { change 32 with (2 ^ 5). rewrite <-Z.pow_add_r by lia. f_equal. lia. }
  assert (Z.land (u64 v) (u64 (2 ^ k - 1)) = v mod 2 ^ k) as E.
  { rewrite (wrap_small 64 (2 ^ k - 1)) by lia.
    replace (2 ^ k - 1) with (Z.ones k) by (rewrite Z.ones_equiv; lia).
    rewrite Z.land_ones by lia. unfold wrap. apply Z.mod_mod_divide.
    exists (2 ^ (64 - k)). rewrite <-Z.pow_add_r by lia. f_equal. lia. }
  unfold h, extend_portion, ARENA_HEADER. rewrite E.
  pose proof (Z.mod_pos_bound v (2 ^ k) ltac:(lia)) as Hb.
  assert (v mod 2 ^ k = 32 * ((v / 32) mod 2 ^ (k - 5))) as Em.
  { rewrite E32, Z.rem_mul_r by lia. rewrite Hj, Z.mod_mul by lia. lia. }
  set (r := (v / 32) mod 2 ^ (k - 5)) in *.
  destruct (Z.eqb_spec (v mod 2 ^ k) 0) as [->|Hne]; cbn [negb andb].
  { split_and!; try lia. by exists 0. }
  destruct (Z.ltb_spec (v mod 2 ^ k) (2 * 32)).
  - rewrite wrap_small by lia. split_and!; try lia. exists (r + 2 ^ (k - 5)). lia.
  - split_and!; try lia. exists r. lia.
Qed.

(** ** Unmapping *)

Lemma lookup_unmap m p n a :
  unmap m p n !! a = if decide (a < p ∨ p + n ≤ a) then m !! a else None.
Proof.
  unfold unmap. case_decide as Hd.
  - destruct (m !! a) as [b|] eqn:E.
    + by apply map_lookup_filter_Some_2.
    + apply map_lookup_filter_None_2. by left.
  - apply map_lookup_filter_None_2. right. simpl. intros b _. done.
Qed.

Section heap.
Context (K : kernel) (H : Z) (HK : kernel_ok K).
Implicit Types (m : mem) (b c : blk) (bs l mid : list blk) (fs f : list Z).

Lemma arena_unmap m bs fs p n :
  arena H m bs fs → (∀ b, b ∈ bs → b_end b ≤ p ∨ p + n ≤ b_addr b) →
  H + 48 ≤ p ∨ p + n ≤ H → arena H (unmap m p n) bs fs.
Proof.
  intros Ha Hbs HH. apply (arena_agree H m); [done| |].
  - intros a Ho. rewrite lookup_unmap. apply decide_True. destruct Ho as [Ho|(b & Hb & Ho)].
    + simpl in Ho. lia.
    + simpl in Hb. destruct (arena_block H m bs fs b Ha Hb) as [[] _]. specialize (Hbs b Hb).
      unfold blk_owns, b_end, ARENA_HEADER in *. destruct (b_stat b) as [|n' |];
        [lia|specialize (ok_used n' eq_refl); lia|lia].
  - intros b Hb i Hi. rewrite lookup_unmap, decide_True.
    + by apply (arena_block H m bs fs b Ha Hb).
    + specialize (Hbs b Hb). unfold b_end in Hbs. lia.
Qed.

(** The three ways to keep parts of a block, and the way to keep none. *)
Lemma run_trim m l1 x sz l2 fs hd tl adj :
  arena H m (l1 ++ Blk x sz Free :: l2) fs →
  (hd = 0 ∨ 64 ≤ hd) → (32 | hd) → (tl = 0 ∨ 64 ≤ tl) → (32 | tl) →
  64 ≤ adj → hd + adj + tl = sz →
  ∃ m' mid' fs',
  ((if negb (tl =? 0) then split_tail x (x + hd + adj) tl else mret tt);;
   (if negb (hd =? 0) then store64 (x + SIZE) hd else remove_from_chains x)) m = Ret tt m' ∧
  arena H m' (l1 ++ mid' ++ l2) fs' ∧ frame H m m' (l1 ++ Blk x sz Free :: l2) ∧
  Forall (λ b, b_stat b = Free ∧ x ≤ b_addr b ∧ b_end b ≤ x + sz ∧
    (b_end b ≤ x + hd ∨ x + hd + adj ≤ b_addr b)) mid'.
Proof.
  intros Ha Hh Hh32 Ht Ht32 Hadj Hsum.
  destruct (arena_block H m _ fs (Blk x sz Free) Ha) as [[] _].
  { apply elem_of_app. right. left. }
  simpl in *. unfold b_end in *. simpl in *.
  assert (32 | x + hd + adj) as Htah.
  { replace (x + hd + adj) with (x + sz - tl) by lia. auto using Z.divide_add_r, Z.divide_sub_r. }
  destruct (Z.eqb_spec tl 0) as [->|Ht0], (Z.eqb_spec hd 0) as [->|Hh0]; cbn [negb].
  - destruct (trim_all H m l1 x sz l2 fs Ha) as (m' & fs' & Hrun & Ha' & Hf).
    exists m', [], fs'. split_and!; [by rewrite run_bind, run_ret|done|done|constructor].
  - destruct (trim_head H m l1 x sz l2 fs hd Ha) as (m' & fs' & Hrun & Ha' & Hf); [lia|done|].
    exists m', [Blk x hd Free], fs'. split_and!; [by rewrite run_bind, run_ret|done|done|].
    apply Forall_singleton. unfold b_end. simpl. split; [done|lia].
  - destruct (trim_tail H m l1 x sz l2 fs (x + 0 + adj) tl Ha) as (m' & fs' & Hrun & Ha' & Hf);
      [lia|done|lia|lia|done|].
    exists m', [Blk (x + 0 + adj) tl Free], fs'. split_and!; [done..|].
    apply Forall_singleton. unfold b_end. simpl. split; [done|lia].
  - destruct (trim_both H m l1 x sz l2 fs hd (x + hd + adj) tl Ha) as (m' & fs' & Hrun & Ha' & Hf);
      [lia|done|lia|done|lia|lia|done|].
    exists m', [Blk x hd Free; Blk (x + hd + adj) tl Free], fs'. split_and!; [done..|].
    repeat (constructor; [unfold b_end; simpl; split; [done|lia]|]). constructor.
Qed.

Lemma live_of_free mid : (∀ b, b ∈ mid → b_stat b = Free) → live_of mid = [].
Proof.
  induction mid as [|b mid IH]; intros Hf; [done|]. simpl. rewrite (Hf b) by left.
  apply IH. intros c Hc. apply Hf. by right.
Qed.

Lemma run_return_pages m l1 x sz l2 fs :
  arena H m (l1 ++ Blk x sz Free :: l2) fs →
  ∃ m' mid' fs', return_pages K x m = Ret tt m' ∧ arena H m' (l1 ++ mid' ++ l2) fs' ∧
  live_of mid' = [] ∧ Forall settled mid' ∧ frame H m m' (l1 ++ Blk x sz Free :: l2) ∧
  owns_sub H (l1 ++ mid' ++ l2) (l1 ++ Blk x sz Free :: l2).
Proof.
  intros Ha.
  destruct (arena_block H m _ fs (Blk x sz Free) Ha) as [[] (_ & Hs & _)].
  { apply elem_of_app. right. left. }
  simpl in *. unfold b_end in *. simpl in *. destruct (ko_page K HK) as (k & Hk & Hps).
  unfold return_pages, getpagesize. rewrite run_bind, run_ret. cbn beta iota zeta. rewrite Hps.
  rewrite run_bind, (run_load64 _ _ _ Hs). cbn beta iota.
  destruct (portion_spec (- x) k) as (Hh & Hh32 & Hhb); [by apply Z.divide_opp_r|done|].
  destruct (portion_spec (x + sz) k) as (Ht & Ht32 & Htb); [by apply Z.divide_add_r|done|].
  set (hd := extend_portion (Z.land (u64 (- x)) (u64 (2 ^ k - 1))) (2 ^ k)) in *.
  set (tl := extend_portion (Z.land (u64 (x + sz)) (u64 (2 ^ k - 1))) (2 ^ k)) in *.
  unfold _KLIBC_MALLOC_CHUNK_SIZE. rewrite (wrap_small 64 (hd + tl + 65536)) by lia.
  destruct (Z.leb_spec (hd + tl + 65536) sz) as [Hle|Hlt].
  - rewrite (wrap_small 64 (sz - hd - tl)) by lia.
    destruct (run_trim m l1 x sz l2 fs hd tl (sz - hd - tl) Ha Hh Hh32 Ht Ht32)
      as (m1 & mid' & fs' & Hrun & Ha1 & Hf & Hmid); [lia|lia|].
    rewrite Forall_forall in Hmid. clear Hs.
    pose proof (arena_focus H _ _ _ _ _ _ _ Ha) as [_ _ _ _ _ _ Hout _ _ Hlo Hhi].
    pose proof (Hout H ltac:(left)) as HoutH. unfold outside in HoutH.
    exists (unmap m1 (x + hd) (sz - hd - tl)), mid', fs'. split_and!.
    + by rewrite (run_seq _ _ _ _ _ _ Hrun).
    + apply arena_unmap; [done| |lia]. intros b Hb. rewrite !elem_of_app in Hb.
      destruct Hb as [Hb|[Hb|Hb]].
      * specialize (Hlo b Hb). lia.
      * destruct (Hmid b Hb) as (_ & _ & _ & ?). lia.
      * specialize (Hhi b Hb). lia.
    + apply live_of_free. intros b Hb. by apply Hmid.
    + apply Forall_forall. intros b Hb. unfold settled. by rewrite (proj1 (Hmid b Hb)).
    + intros a Hno. rewrite lookup_unmap, decide_True; [by apply Hf|].
      destruct (not_owns_main H l1 x sz Free l2 a (ar_ok _ _ _ _ Ha) ltac:(done) Hno) as [Hax _].
      unfold away in Hax. lia.
    + apply (owns_sub_splice H l1 [Blk x sz Free] mid' l2). intros a b Hb Ho.
      destruct (Hmid b Hb) as (E & ? & ? & _). exists (Blk x sz Free). split; [left|].
      unfold blk_owns in *. rewrite E in Ho. unfold b_end in *. simpl. lia.
  - rewrite run_ret. exists m, [Blk x sz Free], fs. split_and!; try done; [by repeat constructor|by intros a ?..].
Qed.

(** ** Allocation *)

Lemma blk_owns_range b a : blk_ok H b → blk_owns b a → b_addr b ≤ a < b_end b.
Proof.
  intros [] Ho. unfold blk_owns, b_end, ARENA_HEADER in *.
  destruct (b_stat b) as [|n|]; [lia|specialize (ok_used n eq_refl); lia|lia].
Qed.

Lemma owns_mapped m bs fs a : arena H m bs fs → owns (H, bs) a → is_Some (m !! a).
Proof.
  intros Ha [Ho|(b & Hb & Ho)].
  - simpl in Ho. replace a with (H + (a - H)) by lia. apply (ar_valid _ _ _ _ Ha). lia.
  - destruct (arena_block H m bs fs b Ha Hb) as [Hok (Hv & _)].
    pose proof (blk_owns_range b a Hok Ho). unfold b_end in *.
    replace a with (b_addr b + (a - b_addr b)) by lia. apply Hv. lia.
Qed.

Lemma unmapped_disjoint m p n q k :
  valid m p n → (∀ i, 0 ≤ i < k → m !! (q + i) = None) → 0 < n → 0 < k → p + n ≤ q ∨ q + k ≤ p.
Proof.
  intros Hv Hn Hn0 Hk0. destruct (Z.le_gt_cases p q).
  - destruct (decide (p + n ≤ q)); [by left|]. destruct (Hv (q - p)) as [b Hb]; [lia|].
    replace (p + (q - p)) with (q + 0) in Hb by lia. rewrite Hn in Hb by lia. done.
  - destruct (decide (q + k ≤ p)); [by right|]. destruct (Hv 0) as [b Hb]; [lia|].
    replace (p + 0) with (q + (p - q)) in Hb by lia. rewrite Hn in Hb by lia. done.
Qed.

(** A mapping that is new to the memory, with a header stored in it. *)
Lemma new_chunk m bs fs x sz :
  arena H m bs fs → (∀ i, 0 ≤ i < sz → m !! (x + i) = None) → 64 ≤ sz < 2 ^ 64 →
  let m0 := write_bytes m x (replicate (Z.to_nat sz) 0) in
  let m1 := put (put m0 (x + TYPE) ARENA_TYPE_FREE) (x + SIZE) sz in
  arena H m1 bs fs ∧ valid m0 x sz ∧ valid m1 x sz ∧ word m1 (x + SIZE) = Some sz ∧
  (∀ a, is_Some (m !! a) → m1 !! a = m !! a) ∧ (∀ a, a < x ∨ x + sz ≤ a → m1 !! a = m !! a).
Proof.
  intros Ha Hnone Hsz m0 m1.
  assert (∀ a, a < x ∨ x + sz ≤ a → m1 !! a = m !! a) as Hout.
  { intros a Hd. unfold m1, SIZE, TYPE. rewrite !lookup_put_out by lia.
    unfold m0. rewrite lookup_write_bytes_out; [done|]. rewrite length_replicate. lia. }
  assert (∀ a, is_Some (m !! a) → m1 !! a = m !! a) as Heq.
  { intros a [b Hb]. apply Hout. destruct (decide (a < x ∨ x + sz ≤ a)) as [Hd|Hd]; [done|].
    specialize (Hnone (a - x) ltac:(lia)). replace (x + (a - x)) with a in Hnone by lia. congruence. }
  assert (valid m0 x sz) as Hv0.
  { intros i Hi. unfold m0. rewrite lookup_write_bytes, length_replicate, decide_True by lia.
    apply lookup_lt_is_Some_2. rewrite length_replicate. lia. }
  split_and!; [|done|unfold m1; auto|unfold m1; apply word_put_eq; lia|done|done].
  apply (arena_agree H m); [done| |].
  - intros a Ho. apply Heq. by apply (owns_mapped m bs fs).
  - intros b Hb i Hi. destruct (arena_block H m bs fs b Ha Hb) as [_ (Hv & _)].
    rewrite Heq by (by apply Hv). by apply Hv.
Qed.

Lemma chunk_ok x sz st :
  0 < x → (32 | x) → (32 | sz) → 64 ≤ sz → x + sz ≤ 2 ^ 63 → (∀ n, st ≠ Used n) →
  (H + 48 ≤ x ∨ x + sz ≤ H) → blk_ok H (Blk x sz st).
Proof.
  intros. split; try done. simpl. intros n E. by destruct (H5 n).
Qed.

(** Mapping a chunk and linking it in. *)
Lemma grow m bs fs x sz :
  arena H m bs fs → Forall settled bs → 64 ≤ sz → (32 | sz) → k_mmap K m sz = Some x →
  ∃ m' l1 l2, bs = l1 ++ l2 ∧
  link_chunk H x sz (write_bytes m x (replicate (Z.to_nat sz) 0)) = Ret tt m' ∧
  arena H m' (l1 ++ Blk x sz Pending :: l2) fs ∧
  (∀ a, is_Some (m !! a) → ¬ owns (H, bs) a →
     m' !! a = m !! a ∧ ¬ owns (H, l1 ++ Blk x sz Pending :: l2) a).
Proof.
  intros Ha Hset Hsz H32 Hmap. destruct (ko_mmap K HK _ _ _ Hmap) as (Hx & Hpx & Hend & Hnone).
  destruct (new_chunk m bs fs x sz Ha Hnone) as (Ha1 & Hv0 & Hv1 & Hs1 & Heq & _); [lia|].
  set (m0 := write_bytes m x (replicate (Z.to_nat sz) 0)) in *.
  set (m1 := put (put m0 (x + TYPE) ARENA_TYPE_FREE) (x + SIZE) sz) in *.
  assert (∀ b, b ∈ bs → b_end b ≤ x ∨ x + sz ≤ b_addr b) as Hdis.
  { intros b Hb. destruct (arena_block H m bs fs b Ha Hb) as [[] (Hv & _)].
    apply (unmapped_disjoint m (b_addr b) (b_size b)); [done|done|lia|lia]. }
  assert (H + 48 ≤ x ∨ x + sz ≤ H) as HH.
  { apply (unmapped_disjoint m H 48); [apply (ar_valid _ _ _ _ Ha)|done|lia|lia]. }
  assert (32 | x) as Hx32.
  { destruct (ko_page K HK) as (k & Hk & Ep). rewrite Ep in Hpx. etrans; [|exact Hpx].
    exists (2 ^ (k - 5)). change 32 with (2 ^ 5). rewrite <-Z.pow_add_r by lia. f_equal. lia. }
  destruct (run_predecessor H m1 bs fs x Ha1 Hset) as (l1 & l2 & -> & Hpred & Hl1 & Hl2).
  { intros b Hb E. destruct (Hdis b Hb); [|lia].
    destruct (arena_block H m _ fs b Ha Hb) as [[] _]. unfold b_end in *. lia. }
  assert (∀ b, b ∈ l1 → b_end b ≤ x) as Hlo.
  { intros b Hb. assert (b ∈ l1 ++ l2) as Hb' by (apply elem_of_app; by left).
    specialize (Hl1 b Hb). destruct (Hdis b Hb'); lia. }
  assert (∀ b, b ∈ l2 → x + sz ≤ b_addr b) as Hhi.
  { intros b Hb. assert (b ∈ l1 ++ l2) as Hb' by (apply elem_of_app; by right).
    specialize (Hl2 b Hb). destruct (Hdis b Hb'); [|lia].
    destruct (arena_block H m _ fs b Ha Hb') as [[] _]. unfold b_end in *. lia. }
  pose proof (ar_main _ _ _ _ Ha1) as Hp. rewrite map_app, <-app_assoc in Hp.
  apply path_between in Hp as [Hpn _].
  destruct (arena_insert H m1 l1 l2 fs x sz _ _ Ha1 eq_refl eq_refl Hlo Hhi) as [Ha2 Hf2];
    [by apply chunk_ok|done|done|].
  pose proof (hdr_valid H m1 _ _ _ Ha1 (lastd_hdrs H l1 l2)) as (Vp & ? & ?).
  pose proof (hdr_valid H m1 _ _ _ Ha1 (headd_hdrs H l1 l2)) as (Vq & ? & ?).
  assert (outside x sz (lastd H (map b_addr l1))) as Hpo.
  { pose proof (arena_focus H _ _ _ _ _ _ _ Ha2) as [_ _ _ _ _ _ Hout _ _ _ _].
    apply Hout, lastd_hdrs. }
  remember (lastd H (map b_addr l1)) as p eqn:Ep. remember (headd H (map b_addr l2)) as q eqn:Eq.
  eexists _, l1, l2. split; [done|]. split_and!; [|exact Ha2|].
  - unfold link_chunk. offsets. do 2 astore. fold m1. clearbody m1. rewrite run_bind, Hpred. cbn beta iota.
    aload. do 3 astore. aload. astore. done.
  - intros a Hm Hno.
    assert (¬ owns (H, l1 ++ Blk x sz Pending :: l2) a) as Hno2.
    { intros [Ho|(b & Hb & Ho)]; [apply Hno; by left|]. simpl in Hb. apply elem_of_app in Hb.
      rewrite elem_of_cons in Hb. destruct Hb as [Hb|[->|Hb]].
      - apply Hno. right. exists b. simpl. rewrite elem_of_app. tauto.
      - unfold blk_owns, b_end in Ho. simpl in Ho. destruct Hm as [v Hv].
        specialize (Hnone (a - x) ltac:(lia)). replace (x + (a - x)) with a in Hnone by lia. congruence.
      - apply Hno. right. exists b. simpl. rewrite elem_of_app. tauto. }
    split; [|done]. rewrite Hf2 by done. by apply Heq.
Qed.

(** Mapped bytes the allocator does not own keep their values, and it does not
    come to own them. *)
Definition kept m bs m' bs' : Prop :=
  ∀ a, is_Some (m !! a) → ¬ owns (H, bs) a → m' !! a = m !! a ∧ ¬ owns (H, bs') a.

Lemma kept_frame m bs m' bs' : frame H m m' bs → owns_sub H bs' bs → kept m bs m' bs'.
Proof. intros Hf Ho a _ Hno. split; [by apply Hf|]. intros Ha. by apply Hno, Ho. Qed.

Lemma kept_trans m bs m1 bs1 m2 bs2 :
  kept m bs m1 bs1 → kept m1 bs1 m2 bs2 → kept m bs m2 bs2.
Proof.
  intros H1 H2 a Hm Hno. destruct (H1 a Hm Hno) as [E1 Hno1].
  destruct (H2 a) as [E2 Hno2]; [by rewrite E1|done|]. split; [congruence|done].
Qed.

(** The result of an allocation: a new live block of [n] bytes. *)
Definition allocated m bs m' (p n : Z) : Prop := ∃ bs' fs',
  0 < p ∧ arena H m' bs' fs' ∧ Forall settled bs' ∧ live_of bs' ≡ₚ (p, n) :: live_of bs ∧
  kept m bs m' bs' ∧ (∀ a, is_Some (m !! a) → ¬ owns (H, bs) a → away a p n).

Lemma alloc_in_block m l1 x sz l2 fs n :
  arena H m (l1 ++ Blk x sz Free :: l2) fs → Forall settled (l1 ++ l2) →
  0 < n ≤ 2 ^ 62 → block_size n ≤ sz →
  ∃ m', __malloc_from_block x (block_size n) m = Ret (x + ARENA_HEADER) m' ∧
  allocated m (l1 ++ Blk x sz Free :: l2) m' (x + ARENA_HEADER) n.
Proof.
  intros Ha Hset Hn Hsz. destruct (block_size_spec n Hn) as (H32 & Hb & Hnb).
  destruct (malloc_from_block H m l1 x sz l2 fs (block_size n) n)
    as (m' & mid' & fs' & Hrun & Ha' & Hlive & Hset' & Hf & Ho); [done|done|lia|lia|].
  destruct (arena_block H m _ fs (Blk x sz Free) Ha) as [[] _].
  { apply elem_of_app. right. left. }
  simpl in *. exists m'. split; [done|]. exists (l1 ++ mid' ++ l2), fs'.
  apply Forall_app in Hset as [? ?]. split_and!.
  - unfold ARENA_HEADER. lia.
  - done.
  - by rewrite !Forall_app.
  - rewrite !live_of_app, Hlive. simpl. by rewrite <-Permutation_middle.
  - by apply kept_frame.
  - intros a _ Hno.
    destruct (not_owns_main H l1 x sz Free l2 a (ar_ok _ _ _ _ Ha) ltac:(done) Hno) as [Hax _].
    unfold away, ARENA_HEADER in *. lia.
Qed.

Lemma kept_allocated m bs m1 bs1 m2 p n :
  kept m bs m1 bs1 → live_of bs1 = live_of bs → allocated m1 bs1 m2 p n → allocated m bs m2 p n.
Proof.
  intros Hk El (bs' & fs' & Hp & Ha & Hset & Hl & Hk' & Haw). exists bs', fs'.
  split_and!; [done..|by rewrite Hl, El|by apply (kept_trans m bs m1 bs1)|].
  intros a Hm Hno. destruct (Hk a Hm Hno) as [E Hno1]. apply Haw; [by rewrite E|done].
Qed.

Lemma run_malloc_orig m bs fs n :
  arena H m bs fs → Forall settled bs → 0 < n ≤ 2 ^ 62 →
  ∃ p m', malloc_impl_orig K H n m = Ret p m' ∧
  (p = NULL ∧ m' = m ∧ k_mmap K m (chunk_size (block_size n)) = None ∧
     (∀ b, b ∈ bs → b_stat b = Free → b_size b < block_size n) ∨
   allocated m bs m' p n).
Proof.
  intros Ha Hset Hn. unfold malloc_impl_orig. rewrite (proj2 (Z.eqb_neq n 0)) by lia.
  fold (block_size n). destruct (block_size_spec n Hn) as (H32 & Hb & _).
  destruct (run_first_fit H m bs fs (block_size n) Ha)
    as [(l1 & x & sz & l2 & -> & Hsz & Hff)|[Hff Hno]]; rewrite run_bind, Hff; cbn beta iota.
  - apply Forall_app in Hset as [Hs1 Hs2]. apply Forall_cons in Hs2 as [_ Hs2].
    destruct (alloc_in_block m l1 x sz l2 fs n Ha) as (m' & Hrun & Hal);
      [by apply Forall_app|done|done|].
    exists (x + ARENA_HEADER), m'. split; [done|by right].
  - fold (chunk_size (block_size n)). set (fsize := chunk_size (block_size n)).
    destruct (chunk_size_spec (block_size n)) as [Hf32 Hf]; [lia|]. fold fsize in Hf32, Hf.
    rewrite run_bind. unfold mmap. destruct (k_mmap K m fsize) as [x|] eqn:Hmap.
    2: { exists NULL, m. split; [done|by left]. }
    destruct (ko_mmap K HK _ _ _ Hmap) as (Hx & _ & Hend & _).
    rewrite (proj2 (Z.eqb_neq x MAP_FAILED)) by (unfold MAP_FAILED; lia).
    destruct (grow m bs fs x fsize Ha Hset) as (m1 & l1 & l2 & -> & Hgrow & Ha1 & Hk1);
      [lia|done|done|].
    destruct (free_block H m1 l1 x fsize l2 fs Ha1 Hset)
      as (m2 & l1' & y & ysz & l2' & fs2 & Hfree & Ha2 & Hy & Hyend & Hset2 & Hl2 & Hf2 & Ho2).
    destruct (alloc_in_block m2 l1' y ysz l2' fs2 n Ha2) as (m3 & Hrun & Hal);
      [done|done|lia|].
    exists (y + ARENA_HEADER), m3. split.
    + rewrite run_bind, Hgrow. cbn beta iota. rewrite run_bind, Hfree. done.
    + right. apply (kept_allocated _ _ m2 (l1' ++ Blk y ysz Free :: l2'));
        [|rewrite live_of_app in *; exact Hl2|done].
      apply (kept_trans _ _ m1 (l1 ++ Blk x fsize Pending :: l2)); [exact Hk1|by apply kept_frame].
Qed.

(** ** Release *)

(** A block in use may change its request, or be on its way out. *)
Lemma arena_retag m l1 x sz n st l2 fs :
  arena H m (l1 ++ Blk x sz (Used n) :: l2) fs →
  st = Pending ∨ (∃ n', st = Used n' ∧ 0 < n' ≤ sz - ARENA_HEADER) →
  arena H m (l1 ++ Blk x sz st :: l2) fs.
Proof.
  intros [Hpos Hv Hty Hok Hh Hs Hm Hf Hfs] Hst. rewrite Forall_app, Forall_cons in Hok, Hh.
  destruct Hok as (Hok1 & [] & Hok2), Hh as (Hh1 & (Hh3 & Hh4 & Hh5) & Hh2). split; try done.
  - rewrite Forall_app, Forall_cons. split_and!; [done| |done]. split; try done. simpl.
    intros k E. destruct Hst as [->|(n' & -> & Hn')]; [done|]. by injection E as <-.
  - rewrite Forall_app, Forall_cons. split_and!; try done.
    destruct Hst as [->|(n' & -> & _)]; by split_and!.
  - rewrite FOP_app in *. destruct Hs as (Hs1 & Hs2 & Hs3). split_and!; [done| |].
    + inversion Hs2 as [|? ? Hb Hs2']; subst. constructor; [|done].
      eapply Forall_impl; [exact Hb|]. intros c Hc. exact Hc.
    + intros b c Hb [->|Hc]%elem_of_cons; [|apply Hs3; [done|by right]].
      exact (Hs3 b (Blk x sz (Used n)) Hb ltac:(left)).
  - rewrite map_app in *. done.
  - rewrite free_addrs_app in *. destruct Hst as [->|(n' & -> & _)]; done.
Qed.

Lemma run_free_orig m l1 x sz n l2 fs :
  arena H m (l1 ++ Blk x sz (Used n) :: l2) fs → Forall settled (l1 ++ l2) →
  ∃ m' bs' fs', free_impl_orig K H (x + ARENA_HEADER) m = Ret tt m' ∧
  arena H m' bs' fs' ∧ Forall settled bs' ∧ live_of bs' = live_of (l1 ++ l2) ∧
  (∀ a, is_Some (m !! a) → ¬ owns (H, l1 ++ Blk x sz (Used n) :: l2) a →
     away a (x + ARENA_HEADER) n → m' !! a = m !! a ∧ ¬ owns (H, bs') a).
Proof.
  intros Ha Hset. destruct (arena_block H m _ fs (Blk x sz (Used n)) Ha) as [[] _].
  { apply elem_of_app. right. left. }
  simpl in *. unfold b_end in *. simpl in *.
  unfold free_impl_orig. rewrite (proj2 (Z.eqb_neq _ NULL)) by (unfold NULL, ARENA_HEADER; lia).
  replace (x + ARENA_HEADER - ARENA_HEADER) with x by lia. cbn zeta.
  destruct (free_block H m l1 x sz l2 fs (arena_retag _ _ _ _ _ _ _ _ Ha (or_introl eq_refl)) Hset)
    as (m1 & l1' & y & ysz & l2' & fs1 & Hrun1 & Ha1 & _ & _ & Hset1 & Hl1 & Hf1 & Ho1).
  rewrite run_bind, Hrun1. cbn beta iota.
  destruct (run_return_pages m1 l1' y ysz l2' fs1 Ha1)
    as (m2 & mid' & fs2 & Hrun2 & Ha2 & Hl2 & Hset2 & Hf2 & Ho2).
  exists m2, (l1' ++ mid' ++ l2'), fs2. split_and!; [done|done| | |].
  - apply Forall_app in Hset1 as [? ?]. by rewrite !Forall_app.
  - rewrite <-Hl1, !live_of_app, Hl2. done.
  - intros a Hm Hno Haw.
    assert (kept m (l1 ++ Blk x sz Pending :: l2) m2 (l1' ++ mid' ++ l2')) as Hk.
    { apply (kept_trans _ _ m1 (l1' ++ Blk y ysz Free :: l2')); by apply kept_frame. }
    apply Hk; [done|]. intros [Ho|(b & Hb & Ho)]; [apply Hno; by left|]. apply Hno. right.
    simpl in Hb |- *. apply elem_of_app in Hb. rewrite elem_of_cons in Hb.
    destruct Hb as [Hb|[->|Hb]]; [exists b|exists (Blk x sz (Used n))|exists b];
      rewrite elem_of_app, elem_of_cons; (split; [tauto|]); try done.
    unfold blk_owns, away, b_end in *. simpl in *. lia.
Qed.

(** ** The laws *)

Lemma live_block bs p n :
  (p, n) ∈ live_of bs → ∃ l1 sz l2, bs = l1 ++ Blk (p - ARENA_HEADER) sz (Used n) :: l2.
Proof.
  intros Hin. apply list_elem_of_omap in Hin as ([x sz st] & Hb & E). simpl in E.
  destruct st; simplify_eq. apply list_elem_of_split in Hb as (l1 & l2 & ->).
  exists l1, sz, l2. by replace (x + ARENA_HEADER - ARENA_HEADER) with x by lia.
Qed.

Lemma live_region bs m fs l1 x sz n l2 a :
  bs = l1 ++ Blk x sz (Used n) :: l2 → arena H m bs fs →
  x + ARENA_HEADER ≤ a < x + ARENA_HEADER + n → ¬ owns (H, bs) a.
Proof.
  intros -> Ha Hr Ho. pose proof (arena_focus H _ _ _ _ _ _ _ Ha) as [[] _ _ _ _ _ Hout _ _ Hlo Hhi].
  simpl in *. unfold b_end in *. simpl in *. specialize (ok_used n eq_refl).
  destruct Ho as [Ho|(b & Hb & Ho)].
  - simpl in Ho. specialize (Hout H ltac:(left)). unfold outside, ARENA_HEADER in *. lia.
  - simpl in Hb. pose proof (arena_block H m _ fs b Ha Hb) as [Hok _].
    apply (blk_owns_range b a Hok) in Ho as Hr'. apply elem_of_app in Hb. rewrite elem_of_cons in Hb.
    unfold ARENA_HEADER in *. destruct Hb as [Hb|[->|Hb]].
    + specialize (Hlo b Hb). unfold b_end in *. lia.
    + unfold blk_owns, b_end, ARENA_HEADER in Ho. simpl in Ho. lia.
    + specialize (Hhi b Hb). lia.
Qed.

Lemma live_disjoint bs :
  Forall (blk_ok H) bs → ForallOrdPairs before bs →
  ForallOrdPairs (λ u v : block, disjoint_ranges u.1 u.2 v.1 v.2) (live_of bs).
Proof.
  intros Hok Hs. induction Hs as [|b bs Hb Hs IH]; [constructor|].
  apply Forall_cons in Hok as [Hbok Hok]. simpl. destruct b as [x sz [|n|]]; simpl; auto.
  constructor; [|auto]. apply Forall_forall. intros [p k] Hin.
  apply live_block in Hin as (l1 & sz' & l2 & ->). rewrite Forall_forall in Hb.
  specialize (Hb (Blk (p - ARENA_HEADER) sz' (Used k)) ltac:(apply elem_of_app; right; left)).
  destruct Hbok. specialize (ok_used n eq_refl). unfold before, b_end, disjoint_ranges, ARENA_HEADER in *.
  simpl in *. lia.
Qed.

Definition arena_inv m bs (live : list block) : Prop := ∃ fs,
  arena H m bs fs ∧ Forall settled bs ∧ live_of bs ≡ₚ live.

Definition arena_in_use bs (q k : Z) : Prop := ∀ a, q ≤ a < q + k → ¬ owns (H, bs) a.
End heap.

(** The arena allocator over the byte memory. *)
Definition arena_allocator (K : kernel) (H : Z) : Allocator mem :=
  {| amem m := m; set_amem m _ := m;
     a_malloc := malloc_impl_orig K H; a_free := free_impl_orig K H |}.

Section laws.
Context (K : kernel) (H : Z) (HK : kernel_ok K).

Lemma arena_bytes m m' (bs' : list blk) q l :
  (∀ a, is_Some (m !! a) → q ≤ a < q + Z.of_nat (length l) → m' !! a = m !! a ∧ ¬ owns (H, bs') a) →
  bytes_at m q l → bytes_at m' q l ∧ arena_in_use H bs' q (Z.of_nat (length l)).
Proof.
  intros Hk Hl. assert (∀ a, q ≤ a < q + Z.of_nat (length l) → is_Some (m !! a)) as Hs.
  { intros a Ha. replace a with (q + (a - q)) by lia. apply (bytes_at_valid m q l Hl). lia. }
  split; [|intros a Ha; by apply Hk; [apply Hs|]].
  apply (bytes_at_ext m); [done|]. intros a Ha. by apply Hk; [apply Hs|].
Qed.

(** The arena allocator satisfies the laws of the interface. *)
Program Definition arena_laws : @AllocatorLaws mem (arena_allocator K H) :=
  {| max_request := 2 ^ 62; ghost := list blk;
     heap_inv := arena_inv H; in_use := arena_in_use H |}.
Next Obligation. done. Qed.
Next Obligation. done. Qed.
Next Obligation. done. Qed.
Next Obligation. intros g p n q k Hu H1 H2 a Ha. apply Hu. lia. Qed.
Next Obligation.
  intros s g live live' Hp (fs & Ha & Hset & Hl). exists fs. by rewrite Hl.
Qed.
Next Obligation.
  intros m bs live p n (fs & Ha & Hset & Hl) Hin. rewrite <-Hl in Hin.
  apply live_block in Hin as (l1 & sz & l2 & ->).
  destruct (arena_block H m _ fs (Blk (p - ARENA_HEADER) sz (Used n)) Ha) as [[] (Hv & _)].
  { apply elem_of_app. right. left. }
  simpl in *. specialize (ok_used n eq_refl). unfold ARENA_HEADER in *. split_and!.
  - apply (valid_sub m (p - 32) sz); [done|lia|lia].
  - intros a Hr. eapply (live_region H _ m fs l1 (p - 32) sz n l2); [done|done|].
    unfold ARENA_HEADER. lia.
  - lia.
  - unfold b_end in *. simpl in *. lia.
Qed.
Next Obligation.
  intros m bs live (fs & Ha & Hset & Hl). apply (disjoint_perm _ _ Hl).
  apply (live_disjoint H); apply Ha.
Qed.
Next Obligation.
  intros m bs live p l (fs & Ha & Hset & Hl) Hu Hv. exists fs. split_and!; [|done|done].
  apply (arena_agree H m); [done| |].
  - intros a Ho. apply lookup_write_bytes_out.
    destruct (decide (a < p ∨ p + Z.of_nat (length l) ≤ a)); [done|].
    exfalso. apply (Hu a); [lia|done].
  - intros b Hb. apply write_bytes_valid. by apply (arena_block H m bs fs b Ha Hb).
Qed.
Next Obligation.
  intros m bs live n (fs & Ha & Hset & Hl) Hn. destruct (decide (n = 0)) as [->|Hn0].
  { exists NULL, m, bs. split; [done|]. split; [by auto|]. left. split; [done|]. by exists fs. }
  destruct (run_malloc_orig K H HK m bs fs n Ha Hset) as (p & m' & Hrun & [(-> & -> & _)|Hal]); [lia|..].
  { exists NULL, m, bs. split; [done|]. split; [by auto|]. left. split; [done|]. by exists fs. }
  destruct Hal as (bs' & fs' & Hp & Ha' & Hset' & Hl' & Hk & Haw).
  exists p, m', bs'. split; [done|]. split.
  - intros q l _ Hu Hb. apply (arena_bytes m m' bs' q l); [|done]. intros a Hm Hr. apply Hk; [done|].
    by apply Hu.
  - right. split_and!; [unfold NULL; lia|exists fs'; split_and!; [done..|by rewrite Hl', Hl]|].
    intros q l Hne Hu Hb. unfold disjoint_ranges.
    assert (0 < Z.of_nat (length l)) by (destruct l; [done|simpl; lia]).
    destruct (decide (p + n ≤ q ∨ q + Z.of_nat (length l) ≤ p)); [done|]. exfalso.
    assert (∃ a, p ≤ a < p + n ∧ q ≤ a < q + Z.of_nat (length l)) as (a & Hr1 & Hr2)
      by (exists (Z.max p q); lia).
    destruct (Haw a); [|by apply Hu|lia|lia].
    replace a with (q + (a - q)) by lia. apply (bytes_at_valid m q l Hb). lia.
Qed.
Next Obligation. done. Qed.
Next Obligation.
  intros m bs live p n (fs & Ha & Hset & Hl).
  destruct (live_block bs p n) as (l1 & sz & l2 & ->); [rewrite Hl; left|].
  assert (Forall settled (l1 ++ l2)) as Hset'.
  { apply Forall_app in Hset as [? Hs2]. apply Forall_cons in Hs2 as [_ ?]. by apply Forall_app. }
  destruct (run_free_orig K H HK m l1 (p - ARENA_HEADER) sz n l2 fs Ha Hset')
    as (m' & bs' & fs' & Hrun & Ha' & Hset2 & Hl2 & Hk).
  rewrite Z.sub_add in Hrun, Hk.
  exists m', bs'. split; [done|]. split.
  - exists fs'. split_and!; [done..|]. rewrite Hl2. rewrite !live_of_app in *. simpl in Hl.
    rewrite Z.sub_add in Hl.
    rewrite <-Permutation_middle in Hl. by apply Permutation_cons_inv in Hl.
  - intros q l _ Hu Hb Hd.
    apply (arena_bytes m m' bs' q l); [|done]. intros a Hm Hr. apply Hk; [done|by apply Hu|].
    unfold away, disjoint_ranges in *. lia.
Qed.
End laws.

(** ** Memory only grows in an allocation *)

Section grows.

(** What is mapped stays mapped. *)
Definition grows {A} (c : C mem A) : Prop :=
  ∀ m x m' a, c m = Ret x m' → is_Some (m !! a) → is_Some (m' !! a).

Lemma grows_ret {A} (x : A) : grows (mret x).
Proof. intros m y m' a. by rewrite run_ret; intros [= _ <-]. Qed.

Lemma grows_bind {A B} (c : C mem A) (f : A → C mem B) :
  grows c → (∀ x, grows (f x)) → grows (c ≫= f).
Proof.
  intros Hc Hf m y m' a. rewrite run_bind. destruct (c m) as [x m1| |] eqn:E; [|done..].
  intros Hy Ha. apply (Hf x m1 y m' a Hy). by apply (Hc m x m1 a E).
Qed.

Lemma grows_load p : grows (load64 p).
Proof. intros m x m' a E. by apply load_le_same in E as ->. Qed.

Lemma grows_store8 p v : grows (store8 p v).
Proof.
  intros m [] m' a. unfold store8. destruct (m !! p); [|done]. intros [= <-] Ha.
  apply lookup_insert_is_Some'. by right.
Qed.

Lemma grows_store p v : grows (store64 p v).
Proof.
  unfold store64. generalize 8%nat as k. intros k.
  revert p v. induction k as [|k IH]; intros p v; cbn [store_le]; [apply grows_ret|].
  apply grows_bind; [apply grows_store8|]. intros _. apply IH.
Qed.

Lemma grows_loop {St R} fuel (body : St → C mem (St + R)) st :
  (∀ st, grows (body st)) → grows (loop fuel body st).
Proof.
  intros Hb. revert st. induction fuel as [|fuel IH]; intros st; cbn [loop]; [by intros m x m' a|].
  apply grows_bind; [done|]. intros [st'|x]; [apply IH|apply grows_ret].
Qed.

Lemma grows_scan_fuel {A} (c : nat → C mem A) : (∀ k, grows (c k)) → grows (scan_fuel c).
Proof. intros Hc m x m' a. unfold scan_fuel. apply Hc. Qed.

Lemma grows_if {A} (b : bool) (c d : C mem A) : grows c → grows d → grows (if b then c else d).
Proof. by destruct b. Qed.

Lemma grows_mmap K n : grows (mmap K n).
Proof.
  intros m x m' a. unfold mmap. destruct (k_mmap K m n); intros [= _ <-] Ha; [|done].
  rewrite lookup_write_bytes. case_decide; [|done]. apply lookup_lt_is_Some_2. lia.
Qed.
End grows.

Create HintDb grows.
#[local] Hint Resolve grows_ret grows_load grows_store grows_mmap : grows.

Ltac grow_step :=
  first [solve [auto with grows] | apply grows_bind; [|intros ?] | apply grows_if
        | apply grows_loop; intros ? | apply grows_scan_fuel; intros ?
        | match goal with |- context [match ?x with _ => _ end] => destruct x end ].

Lemma grows_from_block fp size : grows (__malloc_from_block fp size).
Proof.
  unfold __malloc_from_block, remove_from_free_chain. repeat grow_step.
Qed.

Lemma grows_malloc K H size : grows (malloc_impl_orig K H size).
Proof.
  pose proof grows_from_block.
  unfold malloc_impl_orig, first_fit, link_chunk, predecessor, __free_block, coalesce_prev,
    coalesce_next, free_before, free_after, remove_from_chains, remove_from_main_chain,
    remove_from_free_chain. repeat grow_step; auto.
Qed.

(** ** Reallocation *)

Section realloc.
Context (K : kernel) (H : Z) (HK : kernel_ok K).
Implicit Types (m : mem) (bs : list blk) (live : list block) (l : list Z).

(** The copy of an old block into a new one, and the release of the old. *)
Lemma move_block m1 bs1 live p n q sz k l :
  arena_inv H m1 bs1 ((q, sz) :: (p, n) :: live) →
  Z.of_nat (length l) = n → l ≠ [] → bytes_at m1 p l → valid m1 p k → 0 < k ≤ sz →
  ∃ m2 bs2, (memcpy q p k;; free_impl_orig K H p;; mret q) m1 = Ret q m2 ∧
  arena_inv H m2 bs2 ((q, sz) :: live) ∧ bytes_at m2 q (take (Z.to_nat k) l) ∧
  (∀ r t, t ≠ [] → arena_in_use H bs1 r (Z.of_nat (length t)) → bytes_at m1 r t →
     disjoint_ranges p n r (Z.of_nat (length t)) → disjoint_ranges q sz r (Z.of_nat (length t)) →
     bytes_at m2 r t ∧ arena_in_use H bs2 r (Z.of_nat (length t))).
Proof.
  intros Hinv Hn Hne Hl Hv Hk.
  pose (L := arena_laws K H HK).
  pose proof (@heap_inv_disjoint _ _ L m1 bs1 _ Hinv) as Hdis.
  inversion Hdis as [|? ? Hd _]; subst. apply Forall_cons in Hd as [Hd _]. simpl in Hd.
  destruct (@heap_inv_block _ _ L m1 bs1 _ q sz Hinv) as (Vq & Uq & _); [left|]. simpl in Vq, Uq.
  destruct (memcpy_prefix m1 q p l k) as (m2 & Hcpy & Hpre & Hout & Hval);
    [done|unfold disjoint_ranges in Hd; lia|lia|done|by apply (valid_le _ _ sz); [lia|]|].
  assert (arena_inv H m2 bs1 ((q, sz) :: (p, Z.of_nat (length l)) :: live)) as Hinv2.
  { destruct Hinv as (fs & Ha & Hset & Hlive). exists fs. split_and!; [|done|done].
    apply (arena_agree H m1); [done| |].
    - intros a Ho. apply Hout. destruct (decide (a < q ∨ q + k ≤ a)); [done|].
      exfalso. apply (Uq a); [lia|done].
    - intros b Hb. apply Hval. by apply (arena_block H m1 bs1 fs b Ha Hb). }
  pose proof (@heap_inv_perm _ _ L m2 bs1 _ ((p, Z.of_nat (length l)) :: (q, sz) :: live)
    (perm_swap _ _ _) Hinv2) as Hinv3.
  destruct (@free_ok _ _ L m2 bs1 _ p _ Hinv3) as (m3 & bs3 & Hrun & Hinv4 & Hkeep).
  simpl in Hrun, Hkeep.
  exists m3, bs3. split_and!; [|done| |].
  - rewrite run_bind, Hcpy. cbn beta iota. by rewrite run_bind, Hrun.
  - set (t := take (Z.to_nat k) l) in *.
    assert (Z.of_nat (length t) ≤ k) by (unfold t; rewrite length_take; lia).
    assert (t ≠ []).
    { unfold t. intros E. apply take_nil_inv in E as [E|E]; [lia|done]. }
    apply Hkeep; [done| |done|].
    + apply (@in_use_sub _ _ L bs1 q sz); [done|lia|simpl; lia].
    + unfold disjoint_ranges in *. lia.
  - intros r t Ht Hu Hb Hd1 Hd2. apply Hkeep; [done|done| |done].
    apply (bytes_at_ext m1); [done|]. intros a Ha. apply Hout. unfold disjoint_ranges in Hd2. lia.
Qed.
End realloc.
