(* ===== verification/ArenaMain.v ===== *)
(** * What the arena allocator guarantees

    The static head of the lists, the refinement of the abstract heap, the
    behaviour of each operation on the list of blocks, reallocation, and the
    request sizes that wrap; with a kernel to run them on. *)

From Stdlib Require Import List.
From stdpp Require Import base tactics numbers list gmap.
From S2P Require Import Prelude Memory Words MemFns StrFns Alloc HeapSpec.
From S2P Require Import Arena ArenaShape ArenaOps ArenaHeap.

Open Scope Z_scope.

(** ** The initial state *)

(** The initializer of [__malloc_head]. *)
Definition malloc_head_init (H : Z) : list Z :=
  words [ARENA_TYPE_HEAD; 0; H; H; H; H].

Section init.
Context (H : Z).
Implicit Types (m : mem).

Lemma arena_init m :
  0 < H → H + 48 ≤ 2 ^ 63 → arena H (write_bytes m H (malloc_head_init H)) [] [].
Proof.
  intros HH Hend. unfold malloc_head_init. set (vs := [ARENA_TYPE_HEAD; 0; H; H; H; H]).
  assert (Forall (λ v, 0 ≤ v < 2 ^ 64) vs) as Hvs.
  { unfold vs, ARENA_TYPE_HEAD. repeat constructor; lia. }
  assert (∀ i v, vs !! i = Some v → word (write_bytes m H (words vs)) (H + 8 * Z.of_nat i) = Some v) as Hw.
  { intros i v Hi. apply (words_lookup _ _ vs); [by apply write_bytes_at, words_is_byte|done|].
    by apply (Forall_lookup_1 _ _ _ _ Hvs Hi). }
  split; try done.
  - intros i Hi. rewrite lookup_write_bytes.
    change (length (words vs)) with 48%nat.
    rewrite decide_True by lia. apply lookup_lt_is_Some_2.
    change (length (words vs)) with 48%nat. lia.
  - exact (Hw 0%nat ARENA_TYPE_HEAD eq_refl).
  - constructor.
  - cbn [path map app]. split; [|done]. split; [exact (Hw 2%nat H eq_refl)|exact (Hw 3%nat H eq_refl)].
  - cbn [path app]. split; [|done]. split; [exact (Hw 4%nat H eq_refl)|exact (Hw 5%nat H eq_refl)].
Qed.
End init.

(** ** A kernel *)

(** The first page above every mapped address. *)
Definition top_page (m : mem) : Z :=
  (map_fold (λ a _ t, Z.max a t) 0 m / 4096 + 1) * 4096.

Definition sample_kernel : kernel :=
  {| k_mmap m n := if top_page m + n <=? 2 ^ 63 then Some (top_page m) else None;
     page_size := 4096 |}.

Lemma map_fold_max (m : mem) :
  0 ≤ map_fold (λ a _ t, Z.max a t) 0 m ∧
  ∀ a, is_Some (m !! a) → a ≤ map_fold (λ a _ t, Z.max a t) 0 m.
Proof.
  apply (map_fold_weak_ind (λ t m, 0 ≤ t ∧ ∀ a, is_Some (m !! a) → a ≤ t) (λ a _ t, Z.max a t)).
  - split; [done|]. intros a [b E]. by rewrite lookup_empty in E.
  - intros i x m' t _ [Ht IH]. split; [lia|]. intros a [->|Ha]%lookup_insert_is_Some'; [lia|].
    specialize (IH a Ha). lia.
Qed.

Lemma sample_kernel_ok : kernel_ok sample_kernel.
Proof.
  split; [by exists 12|]. intros m n p. simpl. destruct (Z.leb_spec (top_page m + n) (2 ^ 63)) as [Hle|]; [|done]. intros [= <-].
  destruct (map_fold_max m) as [H0 Hmax]. unfold top_page in *.
  set (t := map_fold _ 0 m) in *. pose proof (Z.div_mod t 4096 ltac:(lia)).
  pose proof (Z.mod_pos_bound t 4096 ltac:(lia)). split_and!; [lia|by eexists|done|].
  intros i Hi. apply eq_None_not_Some. intros Ha. specialize (Hmax _ Ha). lia.
Qed.

(** ** Reallocation *)

Section realloc.
Context (K : kernel) (H : Z) (HK : kernel_ok K).
Implicit Types (m : mem) (bs : list blk) (live : list block).

(** The header of a live block. *)
Lemma live_header m bs live p n :
  arena_inv H m bs ((p, n) :: live) →
  ∃ l1 sz l2, bs = l1 ++ Blk (p - ARENA_HEADER) sz (Used n) :: l2 ∧
  word m (p - ARENA_HEADER + SIZE) = Some sz ∧ valid m p (sz - ARENA_HEADER) ∧
  0 < n ≤ sz - ARENA_HEADER ∧ sz ≤ 2 ^ 63 ∧ ARENA_HEADER < p.
Proof.
  intros (fs & Ha & _ & Hl). destruct (live_block bs p n) as (l1 & sz & l2 & ->); [rewrite Hl; left|].
  exists l1, sz, l2. split; [done|].
  destruct (arena_block H m _ fs (Blk (p - ARENA_HEADER) sz (Used n)) Ha) as [[] (Hv & Hs & _)].
  { apply elem_of_app. right. left. }
  simpl in *. unfold b_end in *. simpl in *. split_and!; try done; try (by apply ok_used); try lia.
  apply (valid_sub m (p - ARENA_HEADER) sz); [done|unfold ARENA_HEADER; lia|lia].
Qed.

(** A copy to the null pointer. *)
Lemma memcpy_null m p k : m !! NULL = None → 0 < k → memcpy NULL p k m = UB.
Proof.
  intros Hm Hk. unfold memcpy, copy_up. rewrite run_bind, run_loop.
  rewrite (proj2 (Z.eqb_neq k 0)) by lia. rewrite run_bind. unfold loadc. rewrite run_bind.
  unfold load8. destruct (m !! p); [|done]. cbn beta iota. rewrite run_ret, run_bind.
  unfold store8. by rewrite Hm.
Qed.

Lemma in_use_live m bs live p (l : list Z) :
  arena_inv H m bs ((p, Z.of_nat (length l)) :: live) → arena_in_use H bs p (Z.of_nat (length l)).
Proof. intros Hinv. by apply (@heap_inv_block _ _ (arena_laws K H HK) m bs _ _ _ Hinv); left. Qed.

(** The block is good as it is: it now counts as a block of the new size. *)
Lemma run_realloc_stay m bs live p n n' sz :
  arena_inv H m bs ((p, n) :: live) → 0 < n' ≤ 2 ^ 61 →
  word m (p - ARENA_HEADER + SIZE) = Some sz →
  block_size n' ≤ sz → Z.shiftr sz 2 ≤ block_size n' →
  realloc_impl_orig K H p n' m = Ret p m ∧ ∃ bs', arena_inv H m bs' ((p, n') :: live).
Proof.
  intros Hinv Hn Hw Hle Hsh.
  destruct (live_header m bs live _ _ Hinv) as (l1 & sz' & l2 & -> & Hw' & Hv & Hlen & Hsz & Hp).
  rewrite Hw in Hw'. injection Hw' as <-. unfold ARENA_HEADER in Hp.
  destruct (block_size_spec n') as (_ & Hb & Hnb); [lia|]. split.
  - unfold realloc_impl_orig. rewrite (proj2 (Z.eqb_neq p NULL)) by (unfold NULL; lia).
    rewrite (proj2 (Z.eqb_neq n' 0)) by lia. fold (block_size n'). cbn zeta.
    rewrite run_bind, (run_load64 _ _ _ Hw). cbn beta iota.
    by rewrite (proj2 (Z.leb_le _ _) Hle), (proj2 (Z.leb_le _ _) Hsh).
  - destruct Hinv as (fs & Ha & Hset & Hl).
    exists (l1 ++ Blk (p - ARENA_HEADER) sz (Used n') :: l2), fs. split_and!.
    + apply (arena_retag H m l1 _ sz n); [done|]. right. exists n'. split; [done|lia].
    + rewrite Forall_app, Forall_cons in Hset |- *. destruct Hset as (? & _ & ?). by split_and!.
    + rewrite live_of_app in Hl |- *. simpl in Hl |- *. rewrite Z.sub_add in Hl |- *.
      rewrite <-Permutation_middle in Hl |- *. apply Permutation_cons_inv in Hl. by rewrite Hl.
Qed.

(** The block moves. *)
Lemma run_realloc_move m bs live p (l : list Z) n' sz :
  arena_inv H m bs ((p, Z.of_nat (length l)) :: live) → bytes_at m p l →
  0 < n' ≤ 2 ^ 61 → m !! NULL = None → word m (p - ARENA_HEADER + SIZE) = Some sz →
  ¬ (block_size n' ≤ sz ∧ Z.shiftr sz 2 ≤ block_size n') →
  (malloc_impl_orig K H (block_size n') m = Ret NULL m ∧ realloc_impl_orig K H p n' m = UB) ∨
  ∃ q m' bs', realloc_impl_orig K H p n' m = Ret q m' ∧
    arena_inv H m' bs' ((q, block_size n') :: live) ∧
    bytes_at m' q (take (Z.to_nat (block_size n')) l) ∧
    (∀ r t, t ≠ [] → arena_in_use H bs r (Z.of_nat (length t)) → bytes_at m r t →
       disjoint_ranges p (Z.of_nat (length l)) r (Z.of_nat (length t)) →
       bytes_at m' r t ∧ arena_in_use H bs' r (Z.of_nat (length t))).
Proof.
  intros Hinv Hl Hn Hnull Hw Hfit. pose (L := arena_laws K H HK).
  destruct (live_header m bs live _ _ Hinv) as (l1 & sz' & l2 & _ & Hw' & Hv & Hlen & Hsz & Hp).
  rewrite Hw in Hw'. injection Hw' as <-. unfold ARENA_HEADER in Hp, Hlen.
  destruct (block_size_spec n') as (_ & Hb & Hnb); [lia|].
  assert (l ≠ []) as Hne by (intros ->; simpl in Hlen; lia).
  unfold realloc_impl_orig. rewrite (proj2 (Z.eqb_neq p NULL)) by (unfold NULL; lia).
  rewrite (proj2 (Z.eqb_neq n' 0)) by lia. fold (block_size n'). cbn zeta.
  rewrite run_bind, (run_load64 _ _ _ Hw). cbn beta iota.
  replace ((block_size n' <=? sz) && (Z.shiftr sz 2 <=? block_size n')) with false.
  2: { symmetry. apply not_true_is_false. intros [?%Z.leb_le ?%Z.leb_le]%andb_true_iff.
    by apply Hfit. }
  rewrite (wrap_small 64) by (unfold ARENA_HEADER; lia).
  destruct (@malloc_ok _ _ L m bs _ (block_size n') Hinv) as (q & m1 & bs1 & Hrun & Hkeep & Hres);
    [change (0 ≤ block_size n' ≤ 2 ^ 62); unfold ARENA_HEADER in *; lia|]. simpl in Hrun, Hkeep, Hres. rewrite run_bind, Hrun. cbn beta iota.
  set (k := if block_size n' <? sz - ARENA_HEADER then block_size n' else sz - ARENA_HEADER).
  assert (0 < k ≤ block_size n') as Hk.
  { unfold k. destruct (Z.ltb_spec (block_size n') (sz - ARENA_HEADER)); unfold ARENA_HEADER in *; lia. }
  destruct Hres as [[-> _]|(Hq & Hinv1 & Hdis)].
  - left. destruct Hinv as (fs & Ha & Hset & _).
    destruct (run_malloc_orig K H HK m bs fs (block_size n') Ha Hset) as
      (q & m2 & Hrun2 & [(-> & -> & _)|(? & ? & Hpos & _)]); [unfold ARENA_HEADER in *; lia| |].
    + rewrite Hrun in Hrun2. injection Hrun2 as ->. split; [done|]. rewrite run_bind.
      by rewrite (memcpy_null m p k Hnull) by lia.
    + rewrite Hrun in Hrun2. injection Hrun2 as <- _. unfold NULL in Hpos. lia.
  - right. pose proof (in_use_live m bs live p l Hinv) as Hup.
    destruct (Hkeep p l Hne Hup Hl) as [Hl1 _].
    destruct (move_block K H HK m1 bs1 live p _ q (block_size n') k l Hinv1 eq_refl Hne Hl1)
      as (m2 & bs2 & Hmove & Hinv2 & Htake & Hkeep2); [|done|].
    { intros i Hi. apply (grows_malloc K H (block_size n') m q m1 _ Hrun), Hv.
      unfold k in Hi. destruct (Z.ltb_spec (block_size n') (sz - ARENA_HEADER)); lia. }
    exists q, m2, bs2. split_and!; [done|done| |].
    + unfold k in Htake. destruct (Z.ltb_spec (block_size n') (sz - ARENA_HEADER)); [done|].
      rewrite take_ge in Htake |- * by (unfold ARENA_HEADER in *; lia). done.
    + intros r t Ht Hu Hb' Hd. destruct (Hkeep r t Ht Hu Hb') as [Hb1 Hu1].
      apply Hkeep2; try done. by apply Hdis.
Qed.
End realloc.

(** ** Theorems *)

(** C1: the arena allocator refines the abstract heap.  From the initial
    [__malloc_head], with any kernel that maps fresh pages, every run of a client
    that keeps to the contract of the interface terminates without undefined
    behaviour, and what the client sees (the addresses returned, the bytes read)
    is a run of the abstract heap, whose live blocks are pairwise disjoint and
    whose bytes are those in memory. *)
Theorem arena_heap_refines K H m cl k :
  kernel_ok K → 0 < H → H + 48 ≤ 2 ^ 63 → well_behaved (2 ^ 62) cl empty_heap →
  ∃ tr m' h', @crun mem (arena_allocator K H) k cl [] (write_bytes m H (malloc_head_init H)) = Ret tr m' ∧
  atrace cl empty_heap h' tr ∧
  ForallOrdPairs (λ b c : block, disjoint_ranges b.1 b.2 c.1 c.2) (a_live h') ∧
  (∀ a v, a_data h' !! a = Some v → m' !! a = Some v).
Proof.
  intros HK HH Hend Hcl. pose (L := arena_laws K H HK).
  destruct (@client_refines mem _ L k cl (write_bytes m H (malloc_head_init H)) empty_heap empty_heap [])
    as (tr & m' & h' & Hrun & Ht & g & Hinv & Hd); [|by constructor|done|].
  - exists []. split; [|done]. exists []. split; [by apply arena_init|by repeat constructor].
  - exists tr, m', h'. split_and!; [done|done|by eapply (@heap_inv_disjoint _ _ L)|].
    intros a v Hv. by destruct (Hd a v Hv) as (_ & ? & _).
Qed.

Lemma arena_heap_refines_witness :
  ∃ tr m' h', @crun mem (arena_allocator sample_kernel 64) 4 sample_client []
    (write_bytes ∅ 64 (malloc_head_init 64)) = Ret tr m' ∧ atrace sample_client empty_heap h' tr.
Proof.
  destruct (arena_heap_refines sample_kernel 64 ∅ sample_client 4) as (tr & m' & h' & H1 & H2 & _).
  - exact sample_kernel_ok.
  - lia.
  - lia.
  - apply sample_client_ok. lia.
  - exact (ex_intro _ tr (ex_intro _ m' (ex_intro _ h' (conj H1 H2)))).
Defined.

(** C7: malloc on an arena with given live blocks, for a size between 1 and
    2^62: either NULL with the memory unchanged, and then no free block is large
    enough and the system has no memory to map; or a 32-aligned block disjoint
    from the live ones, with the invariant of the arena (headers, both chains,
    order of the blocks) for the larger set, and every byte in use unchanged. *)
Theorem arena_malloc_correct K H m bs live n :
  kernel_ok K → arena_inv H m bs live → 0 < n ≤ 2 ^ 62 →
  ∃ p m', malloc_impl_orig K H n m = Ret p m' ∧
  (p = NULL ∧ m' = m ∧ k_mmap K m (chunk_size (block_size n)) = None ∧
     (∀ b, b ∈ bs → b_stat b = Free → b_size b < block_size n) ∨
   ∃ bs', arena_inv H m' bs' ((p, n) :: live) ∧ (32 | p) ∧ 0 < p ∧
     Forall (λ b, disjoint_ranges p n b.1 b.2) live ∧
     (∀ q l, arena_in_use H bs q (Z.of_nat (length l)) → bytes_at m q l →
        bytes_at m' q l ∧ arena_in_use H bs' q (Z.of_nat (length l)))).
Proof.
  intros HK (fs & Ha & Hset & Hl) Hn.
  destruct (run_malloc_orig K H HK m bs fs n Ha Hset Hn) as (p & m' & Hrun & Hres).
  exists p, m'. split; [done|]. destruct Hres as [Hnull|(bs' & fs' & Hp & Ha' & Hset' & Hl' & Hk & _)];
    [by left|right]. exists bs'.
  assert (arena_inv H m' bs' ((p, n) :: live)) as Hinv by (exists fs'; by rewrite Hl', Hl).
  split_and!; [done| |done| |].
  - destruct (live_block bs' p n) as (l1 & sz & l2 & ->); [rewrite Hl'; left|].
    destruct (arena_block H m' _ fs' (Blk (p - ARENA_HEADER) sz (Used n)) Ha') as [[] _].
    { apply elem_of_app. right. left. }
    apply (Z.divide_add_cancel_r _ (- ARENA_HEADER)); [by exists (-1)|].
    by replace (- ARENA_HEADER + p) with (p - ARENA_HEADER) by lia.
  - pose proof (@heap_inv_disjoint _ _ (arena_laws K H HK) m' bs' _ Hinv) as Hd. by inversion Hd.
  - intros q l Hu Hb. apply (arena_bytes H m m' bs' q l); [|done]. intros a Hm Hr.
    by apply Hk, Hu.
Qed.

Definition sample_arena : mem := write_bytes ∅ 64 (malloc_head_init 64).

Lemma sample_arena_inv : arena_inv 64 sample_arena [] [].
Proof. exists []. split; [apply arena_init; lia|by repeat constructor]. Qed.

Lemma arena_malloc_correct_witness :
  ∃ p m' bs', malloc_impl_orig sample_kernel 64 100 sample_arena = Ret p m' ∧
    arena_inv 64 m' bs' [(p, 100)] ∧ (32 | p).
Proof.
  destruct (arena_malloc_correct sample_kernel 64 sample_arena [] [] 100)
    as (p & m' & Hrun & [(_ & _ & Hno & _)|(bs' & Hinv & H32 & _)]).
  - exact sample_kernel_ok.
  - exact sample_arena_inv.
  - lia.
  - exfalso. assert (k_mmap sample_kernel sample_arena (chunk_size (block_size 100)) = Some 4096) as E
      by (vm_compute; reflexivity). rewrite E in Hno. discriminate Hno.
  - exact (ex_intro _ p (ex_intro _ m' (ex_intro _ bs' (conj Hrun (conj Hinv H32))))).
Defined.

(** C6: free of a live block always succeeds: it never runs into undefined
    behaviour whatever the neighbours of the block are, the invariant of the
    arena holds for the remaining blocks (the block is merged with free
    neighbours, and whole pages may be unmapped), and every byte in use outside
    the block keeps its value. *)
Theorem arena_free_correct K H m bs live p n :
  kernel_ok K → arena_inv H m bs ((p, n) :: live) →
  ∃ m' bs', free_impl_orig K H p m = Ret tt m' ∧ arena_inv H m' bs' live ∧
  (∀ q l, l ≠ [] → arena_in_use H bs q (Z.of_nat (length l)) → bytes_at m q l →
     disjoint_ranges p n q (Z.of_nat (length l)) →
     bytes_at m' q l ∧ arena_in_use H bs' q (Z.of_nat (length l))).
Proof. intros HK Hinv. exact (@free_ok _ _ (arena_laws K H HK) m bs live p n Hinv). Qed.

(** An arena with one block: 160 bytes with the header, at the start of the first
    page the system maps. *)
Lemma sample_run :
  match malloc_impl_orig sample_kernel 64 100 sample_arena with
  | Ret p m => Some (p, m !! NULL, word m (p - ARENA_HEADER + SIZE))
  | _ => None
  end = Some (4128, None, Some 160).
Proof. by vm_compute. Qed.

Lemma sample_block :
  ∃ m bs, malloc_impl_orig sample_kernel 64 100 sample_arena = Ret 4128 m ∧
    arena_inv 64 m bs [(4128, 100)] ∧ m !! NULL = None ∧ word m 4104 = Some 160.
Proof.
  destruct sample_arena_inv as (fs & Ha & Hset & Hl).
  pose proof (run_malloc_orig sample_kernel 64 sample_kernel_ok sample_arena [] fs 100 Ha Hset) as Hok.
  pose proof sample_run as Hs.
  destruct Hok as (p & m & Hrun & Hres); [lia|]. rewrite Hrun in Hs. injection Hs as -> Hnull Hw.
  destruct Hres as [(Hz & _)|(bs & fs' & _ & Ha' & Hset' & Hl' & _)]; [discriminate Hz|].
  exists m, bs. split; [exact Hrun|]. split; [|exact (conj Hnull Hw)].
  exists fs'. exact (conj Ha' (conj Hset' Hl')).
Qed.

Lemma arena_free_correct_witness :
  ∃ m m' bs', malloc_impl_orig sample_kernel 64 100 sample_arena = Ret 4128 m ∧
    free_impl_orig sample_kernel 64 4128 m = Ret tt m' ∧ arena_inv 64 m' bs' [].
Proof.
  destruct sample_block as (m & bs & H1 & H2 & _).
  destruct (arena_free_correct sample_kernel 64 m bs [] 4128 100 sample_kernel_ok H2)
    as (m' & bs' & H3 & H4 & _).
  exact (ex_intro _ m (ex_intro _ m' (ex_intro _ bs' (conj H1 (conj H3 H4))))).
Defined.

(** C14: realloc of a live block to a size between 1 and 2^61.  If the block's
    size is at least the rounded size and at most four times it, the block stays
    where it is.  Otherwise a new block is allocated, holding the old contents cut
    at the rounded size, and the old one is released; every other byte in use is
    unchanged.  If that allocation fails, the result is not tested: the copy goes
    to the null pointer. *)
Theorem arena_realloc_correct K H m bs live p l n' :
  kernel_ok K → arena_inv H m bs ((p, Z.of_nat (length l)) :: live) → bytes_at m p l →
  0 < n' ≤ 2 ^ 61 → m !! NULL = None →
  ∃ sz, word m (p - ARENA_HEADER + SIZE) = Some sz ∧ n' ≤ block_size n' ∧
  (block_size n' ≤ sz ∧ Z.shiftr sz 2 ≤ block_size n' →
     realloc_impl_orig K H p n' m = Ret p m ∧ ∃ bs', arena_inv H m bs' ((p, n') :: live)) ∧
  (¬ (block_size n' ≤ sz ∧ Z.shiftr sz 2 ≤ block_size n') →
   (malloc_impl_orig K H (block_size n') m = Ret NULL m ∧ realloc_impl_orig K H p n' m = UB) ∨
   ∃ q m' bs', realloc_impl_orig K H p n' m = Ret q m' ∧
     arena_inv H m' bs' ((q, block_size n') :: live) ∧
     bytes_at m' q (take (Z.to_nat (block_size n')) l) ∧
     (∀ r t, t ≠ [] → arena_in_use H bs r (Z.of_nat (length t)) → bytes_at m r t →
        disjoint_ranges p (Z.of_nat (length l)) r (Z.of_nat (length t)) →
        bytes_at m' r t ∧ arena_in_use H bs' r (Z.of_nat (length t)))).
Proof.
  intros HK Hinv Hl Hn Hnull.
  destruct (live_header H m bs live _ _ Hinv) as (_ & sz & _ & _ & Hw & _).
  exists sz. destruct (block_size_spec n') as (_ & _ & Hnb); [lia|].
  split_and!; [done|unfold ARENA_HEADER in Hnb; lia| |].
  - intros [Hle Hsh]. by apply (run_realloc_stay K H m bs live p _ n' sz Hinv).
  - by apply (run_realloc_move K H HK m bs live p l n' sz).
Qed.

(** The block, filled by its owner. *)
Lemma sample_filled :
  ∃ m bs, arena_inv 64 m bs [(4128, 100)] ∧ m !! NULL = None ∧ word m 4104 = Some 160 ∧
    bytes_at m 4128 (replicate 100 7).
Proof.
  destruct sample_block as (m & bs & _ & Hinv & Hnull & Hw).
  exists (write_bytes m 4128 (replicate 100 7)), bs.
  destruct (@heap_inv_block _ _ (arena_laws _ 64 sample_kernel_ok) m bs [(4128, 100)] 4128 100 Hinv)
    as (Hv & Hu & _); [left|]. split_and!.
  - by apply (@heap_inv_write _ _ (arena_laws _ 64 sample_kernel_ok) m bs).
  - rewrite lookup_write_bytes_out; [exact Hnull|unfold NULL; lia].
  - rewrite word_write_out; [exact Hw|unfold disjoint_ranges; lia].
  - apply write_bytes_at. by apply Forall_replicate.
Qed.

Lemma arena_realloc_correct_witness :
  ∃ m, word m 4104 = Some 160 ∧ realloc_impl_orig sample_kernel 64 4128 120 m = Ret 4128 m.
Proof.
  destruct sample_filled as (m & bs & Hinv & Hnull & H160 & Hl).
  destruct (arena_realloc_correct sample_kernel 64 m bs [] 4128 (replicate 100 7) 120)
    as (sz & Hw & _ & Hstay & _).
  - exact sample_kernel_ok.
  - exact Hinv.
  - exact Hl.
  - lia.
  - exact Hnull.
  - exists m. split; [exact H160|]. apply Hstay.
    assert (Some sz = Some 160) as E by (rewrite <-Hw; exact H160). injection E as ->.
    split; by vm_compute.
Defined.

(** The header and the rounding are added in [size_t]: a request within 63 bytes
    of the top of the range is served as one for a block smaller than the two
    headers every block needs. *)
Lemma block_size_wraps n : 2 ^ 64 - 63 ≤ n < 2 ^ 64 → block_size n < 2 * ARENA_HEADER.
Proof.
  intros Hn. unfold block_size, ARENA_SIZE_MASK, ARENA_HEADER.
  assert (u64 (n + 2 * 32 - 1) = n + 63 - 2 ^ 64) as ->.
  { unfold wrap. rewrite <-(Z_mod_plus_full _ (-1)), Z.mod_small by lia. lia. }
  change (32 - 1) with (2 ^ 5 - 1). rewrite land_mask by lia.
  pose proof (Z.div_mod (n + 63 - 2 ^ 64) (2 ^ 5) ltac:(lia)).
  pose proof (Z.mod_pos_bound (n + 63 - 2 ^ 64) (2 ^ 5) ltac:(lia)). lia.
Qed.
