(* ===== verification/Printf.v ===== *)
(** * Formatted output: [vsnprintf.c]

    [format_int] and the state machine of [vsnprintf], with its variables kept
    as in the source: the write pointer [q], the count [o], the parser state
    and the conversion parameters.  The variable argument list is the list of
    the promoted argument values.  An [int] computation that overflows is
    [UB].  The theorems relate the buffer to the text the format denotes,
    for every buffer size. *)

From stdpp Require Import base tactics numbers list gmap.
From S2P Require Import Prelude Memory MemFns Ctype StrFns Numbers Words.

Open Scope Z_scope.

(** ** Flags and ranks *)

Definition FL_ZERO : Z := 1.
Definition FL_MINUS : Z := 2.
Definition FL_PLUS : Z := 4.
Definition FL_TICK : Z := 8.
Definition FL_SPACE : Z := 16.
Definition FL_HASH : Z := 32.
Definition FL_SIGNED : Z := 64.
Definition FL_UPPER : Z := 128.

Definition rank_char : Z := -2.
Definition rank_short : Z := -1.
Definition rank_int : Z := 0.
Definition rank_long : Z := 1.
Definition rank_longlong : Z := 2.

(** [flags & bits] as a condition. *)
Definition fl (flags bits : Z) : bool := negb (Z.land flags bits =? 0).

(** The value of an [int] expression. *)
Definition int {S} (x : Z) : C S Z :=
  if (- 2 ^ 31 <=? x) && (x <? 2 ^ 31) then mret x else undef.

(** Unsigned 64-bit division and remainder. *)
Definition udiv {S} (a b : Z) : C S Z := if b =? 0 then undef else mret (a / b).
Definition umod {S} (a b : Z) : C S Z := if b =? 0 then undef else mret (a mod b).

(** ** Output *)

(** [EMIT(x)]: the new [q] and [o]. *)
Definition EMIT (n x q o : Z) : C mem (Z * Z) :=
  if o <? n then store8 q x;; mret (q + 1, o + 1) else mret (q, o + 1).

(** [while (width > limit) { EMIT(c); width--; }] *)
Definition emit_pad (n c limit q o width : Z) : C mem (Z * Z * Z) :=
  loop (S (Z.to_nat (width - limit))) (λ '(q, o, width),
    if limit <? width then
      '(q, o) ← EMIT n c q o; Next (q, o, width - 1)
    else Break (q, o, width)) (q, o, width).

Definition lcdigits : list Z :=
  [48; 49; 50; 51; 52; 53; 54; 55; 56; 57; 97; 98; 99; 100; 101; 102; 0].
Definition ucdigits : list Z :=
  [48; 49; 50; 51; 52; 53; 54; 55; 56; 57; 65; 66; 67; 68; 69; 70; 0].

(** The digits, from right to left, below [qq]. *)
Definition emit_digits (digits : list Z) (n base tickskip qq oo ndigits val : Z) : C mem unit :=
  loop (S (Z.to_nat ndigits)) (λ '(qq, oo, ndigits, b4tick, val),
    if negb (0 <? ndigits) then Break tt else
    '(qq, oo, ndigits, b4tick) ←
      (if b4tick =? 0 then
         let qq := qq - 1 in
         let oo := oo - 1 in
         (if oo <? n then store8 qq 95 else mret tt);;
         mret (qq, oo, ndigits - 1, tickskip - 1)
       else mret (qq, oo, ndigits, b4tick - 1));
    let qq := qq - 1 in
    let oo := oo - 1 in
    r ← umod val base;
    (if oo <? n then
       match digits !! Z.to_nat r with Some c => store8 qq c | None => undef end
     else mret tt);;
    v ← udiv val base;
    Next (qq, oo, ndigits - 1, b4tick, v)) (qq, oo, ndigits, tickskip, val).

Definition format_int (q n val flags base width prec : Z) : C mem Z :=
  let digits := if fl flags FL_UPPER then ucdigits else lcdigits in
  let o := 0 in
  (* If signed, separate out the minus *)
  '(minus, val) ←
    (if fl flags FL_SIGNED && (s64 val <? 0) then
       if s64 val =? - 2 ^ 63 then undef else mret (true, u64 (- s64 val))
     else mret (false, val));
  (* Count the number of digits needed *)
  ndigits ← loop 65 (λ '(tmpval, ndigits),
    if tmpval =? 0 then Break ndigits else
    t ← udiv tmpval (u64 base); Next (t, ndigits + 1)) (val, 0);
  prec ←
    (if fl flags FL_HASH && (base =? 8) then
       mret (if prec <? ndigits + 1 then ndigits + 1 else prec)
     else mret prec);
  let ndigits := if ndigits <? prec then prec else if val =? 0 then 1 else ndigits in
  let tickskip := if fl flags FL_TICK then (if base =? 16 then 4 else 3) else ndigits in
  ndigits ← int (ndigits + Z.quot (ndigits - 1) tickskip);
  nchars ← (if minus || fl flags (Z.lor FL_PLUS FL_SPACE) then int (ndigits + 1) else mret ndigits);
  nchars ← (if fl flags FL_HASH && (base =? 16) then int (nchars + 2) else mret nchars);
  (* Emit early space padding *)
  '(q, o, width) ←
    (if negb (fl flags (Z.lor FL_MINUS FL_ZERO)) && (nchars <? width)
     then emit_pad n 32 nchars q o width else mret (q, o, width));
  (* Emit nondigits *)
  '(q, o) ←
    (if minus : bool then EMIT n 45 q o
     else if fl flags FL_PLUS then EMIT n 43 q o
     else if fl flags FL_SPACE then EMIT n 32 q o
     else mret (q, o));
  '(q, o) ←
    (if fl flags FL_HASH && (base =? 16) then
       '(q, o) ← EMIT n 48 q o;
       EMIT n (if fl flags FL_UPPER then 88 else 120) q o
     else mret (q, o));
  (* Emit zero padding *)
  '(q, o, width) ←
    (if (Z.land flags (Z.lor FL_MINUS FL_ZERO) =? FL_ZERO) && (ndigits <? width)
     then emit_pad n 48 nchars q o width else mret (q, o, width));
  (* Generate the number, from right to left *)
  let q := q + ndigits in
  let o := o + ndigits in
  emit_digits digits n (u64 base) tickskip q o ndigits val;;
  (* Emit late space padding *)
  '(q, o, width) ←
    (if fl flags FL_MINUS then emit_pad n 32 nchars q o width else mret (q, o, width));
  mret o.

(** ** Arguments *)

(** [va_arg]: the next argument and the rest of the list. *)
Definition va_arg {S} (ap : list Z) : C S (Z * list Z) :=
  match ap with a :: ap => mret (a, ap) | [] => undef end.

Definition signed_arg (rank a : Z) : Z :=
  if rank =? rank_char then u64 (s8 a)
  else if rank =? rank_short then u64 (sext 16 a)
  else if rank =? rank_int then u64 (s32 a)
  else u64 (s64 a).

Definition unsigned_arg (rank a : Z) : Z :=
  if rank =? rank_char then u8 a
  else if rank =? rank_short then u16 a
  else if rank =? rank_int then u32 a
  else u64 a.

(** A string argument: in memory, or a literal or local of the function. *)
Inductive sarg := Sptr (p : Z) | Slit (l : list Z).

Definition sarg_char (s : sarg) (i : Z) : C mem Z :=
  match s with
  | Sptr p => loadc (p + i)
  | Slit l => match l !! Z.to_nat i with Some c => mret c | None => undef end
  end.

Definition sarg_len (s : sarg) : C mem Z :=
  match s with
  | Sptr p => n ← strlen p; mret (s32 n)
  | Slit l => mret (Z.of_nat (length l))
  end.

Definition rank_bytes (rank : Z) : nat :=
  if rank =? rank_char then 1 else if rank =? rank_short then 2
  else if rank =? rank_int then 4 else 8.

(** [is_string]: the argument cut at the precision, padded to the width. *)
Definition is_string (n : Z) (s : sarg) (slen flags width prec q o : Z) : C mem (Z * Z) :=
  let slen := if negb (prec =? -1) && (prec <? slen) then prec else slen in
  '(q, o, width) ←
    (if (slen <? width) && negb (fl flags FL_MINUS) then
       emit_pad n (if fl flags FL_ZERO then 48 else 32) slen q o width
     else mret (q, o, width));
  '(q, o) ← loop (S (Z.to_nat slen)) (λ '(q, o, i),
    if i =? slen then Break (q, o) else
    sch ← sarg_char s i;
    '(q, o) ← EMIT n sch q o;
    Next (q, o, i + 1)) (q, o, 0);
  '(q, o, width) ←
    (if (slen <? width) && fl flags FL_MINUS then emit_pad n 32 slen q o width
     else mret (q, o, width));
  mret (q, o).

(** ** The state machine *)

Inductive pstate := st_normal | st_flags | st_width | st_prec | st_modifiers.

Record pst := {
  s_q : Z; s_o : Z; s_state : pstate;
  s_flags : Z; s_rank : Z; s_width : Z; s_prec : Z; s_ap : list Z
}.

Definition to_state (st : pstate) (s : pst) : pst :=
  {| s_q := s_q s; s_o := s_o s; s_state := st; s_flags := s_flags s; s_rank := s_rank s;
     s_width := s_width s; s_prec := s_prec s; s_ap := s_ap s |}.
Definition set_flags (f : Z) (s : pst) : pst :=
  {| s_q := s_q s; s_o := s_o s; s_state := s_state s; s_flags := f; s_rank := s_rank s;
     s_width := s_width s; s_prec := s_prec s; s_ap := s_ap s |}.
Definition set_rank (r : Z) (s : pst) : pst :=
  {| s_q := s_q s; s_o := s_o s; s_state := s_state s; s_flags := s_flags s; s_rank := r;
     s_width := s_width s; s_prec := s_prec s; s_ap := s_ap s |}.
Definition set_width (w : Z) (s : pst) : pst :=
  {| s_q := s_q s; s_o := s_o s; s_state := s_state s; s_flags := s_flags s;
     s_rank := s_rank s; s_width := w; s_prec := s_prec s; s_ap := s_ap s |}.
Definition set_prec (p : Z) (s : pst) : pst :=
  {| s_q := s_q s; s_o := s_o s; s_state := s_state s; s_flags := s_flags s;
     s_rank := s_rank s; s_width := s_width s; s_prec := p; s_ap := s_ap s |}.
Definition set_ap (ap : list Z) (s : pst) : pst :=
  {| s_q := s_q s; s_o := s_o s; s_state := s_state s; s_flags := s_flags s;
     s_rank := s_rank s; s_width := s_width s; s_prec := s_prec s; s_ap := ap |}.
Definition set_out (q o : Z) (s : pst) : pst :=
  {| s_q := q; s_o := o; s_state := s_state s; s_flags := s_flags s;
     s_rank := s_rank s; s_width := s_width s; s_prec := s_prec s; s_ap := s_ap s |}.

(** Whether the character is consumed ([false]: [p--]), and the new state. *)
Abbreviation pstep := (C mem (bool * pst)).

Definition step_normal (n ch : Z) (s : pst) : pstep :=
  if ch =? 37 then
    mret (true, {| s_q := s_q s; s_o := s_o s; s_state := st_flags; s_flags := 0;
                   s_rank := rank_int; s_width := 0; s_prec := -1; s_ap := s_ap s |})
  else
    '(q, o) ← EMIT n ch (s_q s) (s_o s); mret (true, set_out q o s).

Definition step_flags (ch : Z) (s : pst) : pstep :=
  let add f := mret (true, set_flags (Z.lor (s_flags s) f) s) in
  if ch =? 45 then add FL_MINUS
  else if ch =? 43 then add FL_PLUS
  else if ch =? 39 then add FL_TICK
  else if ch =? 32 then add FL_SPACE
  else if ch =? 35 then add FL_HASH
  else if ch =? 48 then add FL_ZERO
  else mret (false, to_state st_width s).

Definition step_width (ch : Z) (s : pst) : pstep :=
  if (48 <=? ch) && (ch <=? 57) then
    w ← int (s_width s * 10); w ← int (w + (ch - 48)); mret (true, set_width w s)
  else if ch =? 42 then
    '(a, ap) ← va_arg (s_ap s);
    let s := set_ap ap s in
    let w := s32 a in
    if w <? 0 then
      w ← int (- w); mret (true, set_flags (Z.lor (s_flags s) FL_MINUS) (set_width w s))
    else mret (true, set_width w s)
  else if ch =? 46 then mret (true, to_state st_prec (set_prec 0 s))
  else mret (false, to_state st_modifiers s).

Definition step_prec (ch : Z) (s : pst) : pstep :=
  if (48 <=? ch) && (ch <=? 57) then
    p ← int (s_prec s * 10); p ← int (p + (ch - 48)); mret (true, set_prec p s)
  else if ch =? 42 then
    '(a, ap) ← va_arg (s_ap s);
    let p := s32 a in
    mret (true, set_prec (if p <? 0 then -1 else p) (set_ap ap s))
  else mret (false, to_state st_modifiers s).

(** [is_integer] *)
Definition is_integer (n val flags base prec : Z) (s : pst) : C mem pst :=
  sz ← format_int (s_q s) (if s_o s <? n then n - s_o s else 0) val flags base (s_width s) prec;
  mret (set_out (s_q s + sz) (s_o s + sz) s).

(** The conversion characters; [s] is already back in the ground state. *)
Definition convert (n ch : Z) (s : pst) : C mem pst :=
  let flags := s_flags s in
  let rank := s_rank s in
  if (ch =? 80) || (ch =? 112) then
    '(a, ap) ← va_arg (s_ap s);
    is_integer n (u64 a)
      (Z.lor (if ch =? 80 then Z.lor flags FL_UPPER else flags) FL_HASH) 16 16 (set_ap ap s)
  else if (ch =? 100) || (ch =? 105) then
    '(a, ap) ← va_arg (s_ap s);
    is_integer n (signed_arg rank a) (Z.lor flags FL_SIGNED) 10 (s_prec s) (set_ap ap s)
  else if (ch =? 111) || (ch =? 117) || (ch =? 88) || (ch =? 120) then
    '(a, ap) ← va_arg (s_ap s);
    is_integer n (unsigned_arg rank a)
      (if ch =? 88 then Z.lor flags FL_UPPER else flags)
      (if ch =? 111 then 8 else if ch =? 117 then 10 else 16) (s_prec s) (set_ap ap s)
  else if ch =? 102 then
    '(_, ap) ← va_arg (s_ap s);
    (* "(float)" *)
    let l := [40; 102; 108; 111; 97; 116; 41] in
    '(q, o) ← is_string n (Slit l) 7 flags 0 (-1) (s_q s) (s_o s);
    mret (set_ap ap (set_out q o s))
  else if ch =? 99 then
    '(a, ap) ← va_arg (s_ap s);
    '(q, o) ← is_string n (Slit [s8 a]) 1 flags (s_width s) (s_prec s) (s_q s) (s_o s);
    mret (set_ap ap (set_out q o s))
  else if ch =? 115 then
    '(a, ap) ← va_arg (s_ap s);
    (* "(null)" *)
    let arg := if a =? NULL then Slit [40; 110; 117; 108; 108; 41] else Sptr a in
    slen ← sarg_len arg;
    '(q, o) ← is_string n arg slen flags (s_width s) (s_prec s) (s_q s) (s_o s);
    mret (set_ap ap (set_out q o s))
  else if ch =? 110 then
    '(a, ap) ← va_arg (s_ap s);
    store_le (rank_bytes rank) a (s_o s);;
    mret (set_ap ap s)
  else
    '(q, o) ← EMIT n ch (s_q s) (s_o s); mret (set_out q o s).

Definition step_modifiers (n ch : Z) (s : pst) : pstep :=
  if ch =? 104 then mret (true, set_rank (s_rank s - 1) s)
  else if ch =? 108 then mret (true, set_rank (s_rank s + 1) s)
  else if ch =? 106 then mret (true, set_rank rank_longlong s)
  else if (ch =? 122) || (ch =? 116) then mret (true, set_rank rank_long s)
  else if (ch =? 76) || (ch =? 113) then mret (true, set_rank (s_rank s + 2) s)
  else
    let s := to_state st_normal s in
    let rank := if s_rank s <? rank_char then rank_char
                else if rank_longlong <? s_rank s then rank_longlong else s_rank s in
    s ← convert n ch (set_rank rank s);
    mret (true, s).

Definition pstep_of (n ch : Z) (s : pst) : pstep :=
  match s_state s with
  | st_normal => step_normal n ch s
  | st_flags => step_flags ch s
  | st_width => step_width ch s
  | st_prec => step_prec ch s
  | st_modifiers => step_modifiers n ch s
  end.

(** A character is looked at again at most three times. *)
Definition vsnprintf (buffer n format : Z) (ap : list Z) : C mem Z :=
  let s0 := {| s_q := buffer; s_o := 0; s_state := st_normal; s_flags := 0;
               s_rank := rank_int; s_width := 0; s_prec := -1; s_ap := ap |} in
  s ← scan_fuel (λ fuel, loop (4 * fuel) (λ '(p, s),
    ch ← loadc p;
    if ch =? 0 then Break s else
    '(next, s) ← pstep_of n ch s;
    Next (if next : bool then p + 1 else p, s)) (format, s0));
  (if s_o s <? n then store8 (s_q s) 0
   else if 0 <? n then store8 (buffer + n - 1) 0 else mret tt);;
  mret (s32 (s_o s)).

(** The terminator is stored at the length the number would need. *)
Definition format_int2 (q n val base sgn : Z) : C mem unit :=
  s ← format_int q n val (if sgn =? 0 then FL_ZERO else FL_SIGNED) base 0 (-1);
  store8 (q + s) 0.

(** ** Truncated output

    [wt m q o n l] is the memory after writing [l] from position [o] of a
    buffer of [n] characters, at [q]; what does not fit is dropped. *)

Definition wt (m : mem) (q o n : Z) (l : list Z) : mem :=
  write_bytes m q (take (Z.to_nat (n - o)) l).

(** The variables after [l] was output from [q], [o]. *)
Definition appended (m : mem) (q o n : Z) (l : list Z) (q' o' : Z) (m' : mem) : Prop :=
  o' = o + Z.of_nat (length l) ∧ m' = wt m q o n l ∧
  (o' < n → q' = q + Z.of_nat (length l)).

Section output.
Implicit Types (m : mem) (q o n : Z) (l : list Z).

Lemma appended_nil m q o n : appended m q o n [] q o m.
Proof. unfold appended, wt. rewrite take_nil. simpl. split_and!; [lia|done|lia]. Qed.

Lemma appended_trans m q o n l1 q1 o1 m1 l2 q2 o2 m2 :
  appended m q o n l1 q1 o1 m1 → appended m1 q1 o1 n l2 q2 o2 m2 →
  appended m q o n (l1 ++ l2) q2 o2 m2.
Proof.
  intros (-> & -> & Hq1) (-> & -> & Hq2). unfold appended. rewrite length_app, Nat2Z.inj_add.
  split_and!; [lia| |intros; rewrite Hq2, Hq1 by lia; lia].
  unfold wt. rewrite take_app.
  destruct (Z.lt_ge_cases (o + Z.of_nat (length l1)) n) as [Hlt|Hge].
  - rewrite (take_ge l1) by lia. rewrite write_bytes_app', Hq1 by lia. f_equal. f_equal. lia.
  - rewrite (proj2 (Nat.sub_0_le _ (length l1))), take_0, app_nil_r by lia.
    by replace (Z.to_nat (n - (o + Z.of_nat (length l1)))) with 0%nat by lia.
Qed.

(** The rest of the buffer is still there to write. *)
Lemma appended_valid m q o n l q' o' m' :
  appended m q o n l q' o' m' → valid m q (n - o) → valid m' q' (n - o').
Proof.
  intros (-> & -> & Hq) Hv. destruct (Z.lt_ge_cases (o + Z.of_nat (length l)) n).
  - rewrite Hq by done. apply write_bytes_valid, (valid_sub m q (n - o)); [done|lia|lia].
  - intros i Hi. lia.
Qed.

Lemma run_EMIT m q o n c :
  valid m q (n - o) →
  ∃ q' m', EMIT n c q o m = Ret (q', o + 1) m' ∧ appended m q o n [u8 c] q' (o + 1) m'.
Proof.
  intros Hv. unfold EMIT, appended, wt. destruct (Z.ltb_spec o n) as [Hlt|Hge].
  - assert (is_Some (m !! q)) by (apply (valid_head _ _ (n - o)); [lia|done]).
    rewrite run_bind, run_store8 by done. eexists _, _. split; [done|]. split_and!; [done| |done].
    replace (Z.to_nat (n - o)) with (S (Z.to_nat (n - o - 1))) by lia. simpl. by rewrite take_nil.
  - eexists _, _. split; [done|]. split_and!; [done| |lia].
    by replace (Z.to_nat (n - o)) with 0%nat by lia.
Qed.

Lemma run_emit_pad m q o n c limit width :
  valid m q (n - o) →
  let k := Z.to_nat (width - limit) in
  ∃ q' m', emit_pad n c limit q o width m = Ret (q', o + Z.of_nat k, width - Z.of_nat k) m' ∧
  appended m q o n (replicate k (u8 c)) q' (o + Z.of_nat k) m'.
Proof.
  intros Hv k. unfold emit_pad. fold k. remember k as j eqn:Ek. unfold k in Ek. clear k.
  revert m q o width Hv Ek. induction j as [|j IH]; intros m q o width Hv Ek.
  - rewrite run_loop. cbn beta iota. ctest. crun. rewrite Z.add_0_r, Z.sub_0_r.
    eexists _, _. split; [done|]. apply appended_nil.
  - rewrite run_loop. cbn beta iota. ctest.
    destruct (run_EMIT m q o n c Hv) as (q1 & m1 & Hrun & Happ).
    rewrite run_bind, Hrun. cbn beta iota. rewrite run_ret.
    destruct (IH m1 q1 (o + 1) (width - 1)) as (q2 & m2 & Hrun2 & Happ2);
      [by eapply appended_valid|lia|].
    exists q2, m2. replace (o + Z.of_nat (S j)) with (o + 1 + Z.of_nat j) by lia.
    replace (width - Z.of_nat (S j)) with (width - 1 - Z.of_nat j) by lia.
    split; [exact Hrun2|]. change (replicate (S j) (u8 c)) with ([u8 c] ++ replicate j (u8 c)).
    by eapply appended_trans.
Qed.

(** Storing a character just right of what is still to come. *)
Definition put_at (n o q c : Z) (m : mem) : mem := if o <? n then <[q := c]> m else m.

Lemma put_at_valid n o q c m p k : valid m p k → valid (put_at n o q c m) p k.
Proof. unfold put_at. destruct (o <? n); [apply valid_insert|done]. Qed.

Lemma run_put m q n o c :
  (o < n → is_Some (m !! q)) → is_byte c →
  (if o <? n then store8 q c else mret tt : C mem unit) m = Ret tt (put_at n o q c m).
Proof.
  intros Hq Hc. unfold put_at. destruct (Z.ltb_spec o n); [|done].
  rewrite run_store8 by auto. by rewrite u8_byte.
Qed.

Lemma wt_snoc m q o n l c :
  wt m q o n (l ++ [c]) =
  wt (put_at n (o + Z.of_nat (length l)) (q + Z.of_nat (length l)) c m) q o n l.
Proof.
  unfold wt, put_at. destruct (Z.ltb_spec (o + Z.of_nat (length l)) n).
  - rewrite !take_ge by (rewrite ?length_app; simpl; lia). rewrite write_bytes_snoc.
    symmetry. apply write_bytes_insert_out. lia.
  - by rewrite take_app_le by lia.
Qed.
End output.

(** ** The digits *)

Section digits.
Context (digits : list Z) (base tickskip : Z).
Implicit Types (m : mem).

(** The characters of the number, from right to left: [k] digits, with a mark
    when [b4] digits have gone by since the last one. *)
Fixpoint ticked (k : nat) (b4 val : Z) : list Z :=
  match k with
  | O => []
  | S k =>
      let c := default 0 (digits !! Z.to_nat (val mod base)) in
      if b4 =? 0 then 95 :: c :: ticked k (tickskip - 1) (val / base)
      else c :: ticked k (b4 - 1) (val / base)
  end.

Lemma ticked_length k b4 val :
  0 ≤ b4 < tickskip →
  Z.of_nat (length (ticked k b4 val)) =
  Z.of_nat k + (Z.of_nat k + tickskip - b4 - 1) / tickskip.
Proof.
  revert b4 val. induction k as [|k IH]; intros b4 val Hb.
  - rewrite Z.div_small by lia. done.
  - cbn [ticked]. destruct (Z.eqb_spec b4 0) as [->|]; cbn [length];
      rewrite !Nat2Z.inj_succ, IH by lia.
    + replace (Z.succ (Z.of_nat k) + tickskip - 0 - 1) with (Z.of_nat k + 1 * tickskip) by lia.
      rewrite Z.div_add by lia.
      replace (Z.of_nat k + tickskip - (tickskip - 1) - 1) with (Z.of_nat k) by lia. lia.
    + replace (Z.succ (Z.of_nat k) + tickskip - b4 - 1)
        with (Z.of_nat k + tickskip - (b4 - 1) - 1) by lia. lia.
Qed.

Lemma ticked_start_length k val :
  0 < tickskip → (0 < k)%nat →
  Z.of_nat (length (ticked k tickskip val)) = Z.of_nat k + (Z.of_nat k - 1) / tickskip.
Proof.
  intros Ht Hk. destruct k as [|k]; [lia|]. cbn [ticked]. ctest. cbn [length].
  rewrite Nat2Z.inj_succ, ticked_length by lia.
  replace (Z.of_nat k + tickskip - (tickskip - 1) - 1) with (Z.of_nat k) by lia.
  replace (Z.of_nat (S k) - 1) with (Z.of_nat k) by lia. lia.
Qed.

Definition digits_ok : Prop :=
  0 < base ∧ ∀ r, 0 ≤ r < base → ∃ c, digits !! Z.to_nat r = Some c ∧ is_byte c.

(** The digit half of a round. *)
Lemma run_digit m n start o t nd b4 val c :
  0 < base → digits !! Z.to_nat (val mod base) = Some c → is_byte c → 0 ≤ t →
  valid m start (n - o) →
  (r ← umod val base;
   (if o + (t + 1) - 1 <? n then
      match digits !! Z.to_nat r with Some c => store8 (start + (t + 1) - 1) c | None => undef end
    else mret tt);;
   v ← udiv val base;
   Next (start + (t + 1) - 1, o + (t + 1) - 1, nd, b4, v)
   : C mem ((Z * Z * Z * Z * Z) + unit)) m =
  Ret (inl (start + t, o + t, nd, b4, val / base)) (put_at n (o + t) (start + t) c m).
Proof.
  intros Hbase Hc Hcb Ht Hv. unfold umod, udiv. rewrite (proj2 (Z.eqb_neq base 0)) by lia. crun.
  rewrite Hc. replace (o + (t + 1) - 1) with (o + t) by lia.
  replace (start + (t + 1) - 1) with (start + t) by lia.
  rewrite run_put by (try (intros; apply Hv; lia); done). by crun.
Qed.

(** [start], [o]: where the leftmost character goes. *)
Lemma run_emit_digits_loop m n start o k b4 val fuel :
  digits_ok → 0 < tickskip → 0 ≤ b4 → valid m start (n - o) →
  (length (ticked k b4 val) < fuel)%nat →
  loop fuel (λ '(qq, oo, ndigits, b4tick, val),
    if negb (0 <? ndigits) then Break tt else
    '(qq, oo, ndigits, b4tick) ←
      (if b4tick =? 0 then
         let qq := qq - 1 in
         let oo := oo - 1 in
         (if oo <? n then store8 qq 95 else mret tt);;
         mret (qq, oo, ndigits - 1, tickskip - 1)
       else mret (qq, oo, ndigits, b4tick - 1));
    let qq := qq - 1 in
    let oo := oo - 1 in
    r ← umod val base;
    (if oo <? n then
       match digits !! Z.to_nat r with Some c => store8 qq c | None => undef end
     else mret tt);;
    v ← udiv val base;
    Next (qq, oo, ndigits - 1, b4tick, v))
    (start + Z.of_nat (length (ticked k b4 val)), o + Z.of_nat (length (ticked k b4 val)),
     Z.of_nat (length (ticked k b4 val)), b4, val) m =
  Ret tt (wt m start o n (reverse (ticked k b4 val))).
Proof.
  intros [Hbase Hdig] Ht. set (body := λ '(qq, oo, ndigits, b4tick, val), _).
  revert m b4 val fuel. induction k as [|k IH]; intros m b4 val [|fuel] Hb Hv Hf; try lia.
  { rewrite run_loop. unfold body at 1. cbn. unfold wt. by rewrite take_nil. }
  destruct (Hdig (val mod base)) as (c & Hc & Hcb); [apply Z.mod_pos_bound; lia|].
  set (b4' := if b4 =? 0 then tickskip - 1 else b4 - 1).
  set (tail := ticked k b4' (val / base)).
  assert (ticked (S k) b4 val = (if b4 =? 0 then [95] else []) ++ [c] ++ tail) as E.
  { cbn [ticked]. unfold tail, b4'. rewrite Hc. by destruct (b4 =? 0). }
  assert (0 ≤ b4') as Hb' by (unfold b4'; destruct (Z.eqb_spec b4 0); lia).
  rewrite E in Hf |- *. rewrite run_loop. unfold body at 1. cbn beta iota.
  set (t := Z.of_nat (length tail)). assert (0 ≤ t) by (unfold t; lia).
  destruct (Z.eqb_spec b4 0) as [->|Hne]; rewrite !length_app in *; cbn [length Nat.add] in *;
    rewrite (proj2 (Z.ltb_lt 0 _)) by lia; cbn [negb]; cbn zeta.
  - replace (start + Z.of_nat (S (S (length tail))) - 1) with (start + (t + 1)) by lia.
    replace (o + Z.of_nat (S (S (length tail))) - 1) with (o + (t + 1)) by lia.
    rewrite run_bind, run_bind, run_put by (try (intros; apply Hv; lia); done).
    cbn beta iota. rewrite run_ret. cbn beta iota.
    rewrite (run_digit _ n start o t _ _ val c) by (try apply put_at_valid; done || lia).
    fold body. replace (Z.of_nat (S (S (length tail))) - 1 - 1) with t by lia.
    unfold t, tail. rewrite IH; [|done|by apply put_at_valid, put_at_valid|change (length tail < fuel)%nat; lia].
    change (ticked k (tickskip - 1) (val / base)) with tail. rewrite !reverse_app, <-app_assoc. cbn [reverse]. rewrite !reverse_singleton.
    rewrite app_assoc, wt_snoc, wt_snoc, length_app, length_reverse. cbn [length].
    rewrite Nat2Z.inj_add. done.
  - rewrite run_bind, run_ret. cbn beta iota.
    replace (start + Z.of_nat (S (length tail))) with (start + (t + 1)) by lia.
    replace (o + Z.of_nat (S (length tail))) with (o + (t + 1)) by lia.
    rewrite (run_digit _ n start o t _ _ val c) by (try apply put_at_valid; done || lia).
    fold body. replace (Z.of_nat (S (length tail)) - 1) with t by lia.
    unfold t, tail. rewrite IH; [|done|by apply put_at_valid|change (length tail < fuel)%nat; lia].
    change (ticked k (b4 - 1) (val / base)) with tail. rewrite app_nil_l, reverse_app. by rewrite reverse_singleton, wt_snoc, length_reverse.
Qed.
End digits.

(** ** The text of an integer conversion *)

Fixpoint digit_count (fuel : nat) (base v : Z) : nat :=
  match fuel with
  | O => 0
  | S k => if v =? 0 then 0 else S (digit_count k base (v / base))
  end.

Section int_text.
Context (val flags base width prec : Z).

Definition digit_chars : list Z := if fl flags FL_UPPER then ucdigits else lcdigits.

Definition is_minus : bool := fl flags FL_SIGNED && (s64 val <? 0).

Definition magnitude : Z := if is_minus then - s64 val else val.

(** The number of digits: those the value needs, the precision if it is
    larger, one for zero, and a leading zero for [#o]. *)
Definition int_digits : nat :=
  let nd := Z.of_nat (digit_count 64 base magnitude) in
  let prec := if fl flags FL_HASH && (base =? 8) then Z.max prec (nd + 1) else prec in
  Z.to_nat (if nd <? prec then prec else if magnitude =? 0 then 1 else nd).

Definition tick_skip : Z :=
  if fl flags FL_TICK then (if base =? 16 then 4 else 3) else Z.of_nat int_digits.

Definition int_body : list Z :=
  reverse (ticked digit_chars base tick_skip int_digits tick_skip magnitude).

Definition int_sign : list Z :=
  if is_minus then [45] else if fl flags FL_PLUS then [43]
  else if fl flags FL_SPACE then [32] else [].

Definition int_radix : list Z :=
  if fl flags FL_HASH && (base =? 16)
  then [48; if fl flags FL_UPPER then 88 else 120] else [].

Definition int_padding (c : Z) : list Z :=
  replicate (Z.to_nat (width - Z.of_nat (length (int_sign ++ int_radix ++ int_body)))) c.

Definition int_text : list Z :=
  if fl flags FL_MINUS then int_sign ++ int_radix ++ int_body ++ int_padding 32
  else if fl flags FL_ZERO then int_sign ++ int_radix ++ int_padding 48 ++ int_body
  else int_padding 32 ++ int_sign ++ int_radix ++ int_body.
End int_text.

(** ** [format_int] writes that text *)

Section format_int.
Implicit Types (m : mem) (q o n val flags base width prec : Z).

Lemma fl_lor flags a b : fl flags (Z.lor a b) = fl flags a || fl flags b.
Proof.
  unfold fl. rewrite Z.land_lor_distr_r. apply eq_true_iff_eq.
  rewrite orb_true_iff, !negb_true_iff, !Z.eqb_neq, Z.lor_eq_0_iff.
  destruct (decide (Z.land flags a = 0)); tauto.
Qed.

Lemma zero_not_minus flags :
  (Z.land flags (Z.lor FL_MINUS FL_ZERO) =? FL_ZERO) = fl flags FL_ZERO && negb (fl flags FL_MINUS).
Proof.
  unfold fl, FL_MINUS, FL_ZERO. change (Z.lor 2 1) with 3.
  replace (Z.land flags 1) with (Z.land (Z.land flags 3) 1)
    by (by rewrite <-Z.land_assoc).
  replace (Z.land flags 2) with (Z.land (Z.land flags 3) 2)
    by (by rewrite <-Z.land_assoc).
  assert (0 ≤ Z.land flags 3 < 4) as Hx.
  { change 3 with (Z.ones 2). rewrite Z.land_ones by lia. apply Z.mod_pos_bound. lia. }
  set (x := Z.land flags 3) in *. clearbody x.
  assert (x = 0 ∨ x = 1 ∨ x = 2 ∨ x = 3) as [->|[->|[->| ->]]] by lia; done.
Qed.

Lemma run_udiv m a b : b ≠ 0 → udiv a b m = Ret (a / b) m.
Proof. intros. unfold udiv. by ctest. Qed.

Lemma run_count m base v a fuel :
  2 ≤ base → 0 ≤ v < 2 ^ Z.of_nat fuel →
  loop (S fuel) (λ '(tmpval, ndigits),
    if tmpval =? 0 then Break ndigits else
    t ← udiv tmpval base; Next (t, ndigits + 1)) (v, a) m =
  Ret (a + Z.of_nat (digit_count fuel base v)) m.
Proof.
  intros Hb. revert v a. induction fuel as [|fuel IH]; intros v a Hv; rewrite run_loop; cbn beta iota.
  - assert (v = 0) as -> by (simpl in Hv; lia). cbn. by rewrite Z.add_0_r.
  - cbn [digit_count]. destruct (Z.eqb_spec v 0) as [->|Hne]; [crun; by rewrite Z.add_0_r|].
    rewrite run_bind, run_udiv by lia. crun. rewrite IH; [f_equal; lia|].
    rewrite Nat2Z.inj_succ, Z.pow_succ_r in Hv by lia.
    split; [apply Z.div_pos; lia|]. apply Z.div_lt_upper_bound; nia.
Qed.

Lemma digit_count_le fuel base v : (digit_count fuel base v ≤ fuel)%nat.
Proof.
  revert v. induction fuel as [|fuel IH]; intros v; cbn [digit_count]; [lia|].
  destruct (v =? 0); [lia|]. specialize (IH (v / base)). lia.
Qed.

Lemma digit_count_pos fuel base v : v ≠ 0 → (0 < fuel)%nat → (0 < digit_count fuel base v)%nat.
Proof. intros Hv Hf. destruct fuel; [lia|]. cbn [digit_count]. ctest. lia. Qed.

Lemma int_digits_pos val flags base prec : (0 < int_digits val flags base prec)%nat.
Proof.
  unfold int_digits. cbn zeta. destruct (Z.ltb_spec (Z.of_nat (digit_count 64 base (magnitude val flags)))
    (if fl flags FL_HASH && (base =? 8)
     then Z.max prec (Z.of_nat (digit_count 64 base (magnitude val flags)) + 1) else prec)); [lia|].
  destruct (Z.eqb_spec (magnitude val flags) 0); [lia|].
  pose proof (digit_count_pos 64 base (magnitude val flags) ltac:(done) ltac:(lia)). lia.
Qed.

Lemma int_digits_bound val flags base prec :
  prec ≤ 2 ^ 29 → (Z.of_nat (int_digits val flags base prec) ≤ 2 ^ 29).
Proof.
  intros Hp. unfold int_digits. cbn zeta.
  pose proof (digit_count_le 64 base (magnitude val flags)).
  destruct (fl flags FL_HASH && (base =? 8)); repeat case_match; lia.
Qed.

Lemma digit_chars_ok flags base : base = 8 ∨ base = 10 ∨ base = 16 → digits_ok (digit_chars flags) base.
Proof.
  intros Hb. split; [lia|]. intros r Hr.
  assert (Forall is_byte (digit_chars flags) ∧ length (digit_chars flags) = 17%nat) as [Hf Hl].
  { unfold digit_chars. destruct (fl flags FL_UPPER); split; try done;
      repeat (constructor; [unfold is_byte; lia|]); constructor. }
  destruct (lookup_lt_is_Some_2 (digit_chars flags) (Z.to_nat r)) as [c Hc]; [lia|].
  exists c. split; [done|]. rewrite Forall_lookup in Hf. by eapply Hf.
Qed.

Lemma tick_skip_pos val flags base prec : 0 < tick_skip val flags base prec.
Proof.
  unfold tick_skip. pose proof (int_digits_pos val flags base prec). repeat case_match; lia.
Qed.

Lemma int_body_length val flags base prec :
  let k := Z.of_nat (int_digits val flags base prec) in
  Z.of_nat (length (int_body val flags base prec)) =
  k + Z.quot (k - 1) (tick_skip val flags base prec).
Proof.
  cbn zeta. unfold int_body. rewrite length_reverse.
  pose proof (int_digits_pos val flags base prec). pose proof (tick_skip_pos val flags base prec).
  rewrite ticked_start_length, Z.quot_div_nonneg by lia. done.
Qed.

Lemma int_body_bound val flags base prec :
  prec ≤ 2 ^ 29 → 1 ≤ Z.of_nat (length (int_body val flags base prec)) ≤ 2 ^ 30.
Proof.
  intros Hp. rewrite int_body_length. pose proof (int_digits_bound val flags base prec Hp).
  pose proof (int_digits_pos val flags base prec). pose proof (tick_skip_pos val flags base prec).
  set (k := Z.of_nat (int_digits val flags base prec)) in *.
  rewrite Z.quot_div_nonneg by lia.
  pose proof (Z.div_pos (k - 1) (tick_skip val flags base prec)).
  pose proof (Z.div_le_upper_bound (k - 1) (tick_skip val flags base prec) k). nia.
Qed.

Lemma run_int m x : - 2 ^ 31 ≤ x < 2 ^ 31 → int x m = Ret x m.
Proof.
  intros Hx. unfold int. rewrite (proj2 (Z.leb_le _ _)), (proj2 (Z.ltb_lt _ _)) by lia. done.
Qed.

Lemma run_minus m val flags :
  0 ≤ val < 2 ^ 64 → (fl flags FL_SIGNED = true → s64 val ≠ - 2 ^ 63) →
  (if fl flags FL_SIGNED && (s64 val <? 0) then
     if s64 val =? - 2 ^ 63 then undef else mret (true, u64 (- s64 val))
   else mret (false, val) : C mem (bool * Z)) m =
  Ret (is_minus val flags, magnitude val flags) m ∧ 0 ≤ magnitude val flags < 2 ^ 64.
Proof.
  intros Hv Hmin. unfold magnitude, is_minus. destruct (fl flags FL_SIGNED); [|done].
  pose proof (sext_range 64 val ltac:(lia)) as Hr. specialize (Hmin eq_refl). cbn [andb].
  destruct (Z.ltb_spec (s64 val) 0); [|done]. ctest. rewrite wrap_small by lia.
  split; [done|lia].
Qed.

Lemma int_sign_length val flags :
  (if is_minus val flags || fl flags (Z.lor FL_PLUS FL_SPACE) then 1 else 0) =
  Z.of_nat (length (int_sign val flags)).
Proof.
  unfold int_sign. rewrite fl_lor.
  by destruct (is_minus val flags), (fl flags FL_PLUS), (fl flags FL_SPACE).
Qed.

Lemma run_sign_emit m q o n val flags :
  valid m q (n - o) →
  ∃ q' o' m',
  (if is_minus val flags then EMIT n 45 q o
   else if fl flags FL_PLUS then EMIT n 43 q o
   else if fl flags FL_SPACE then EMIT n 32 q o
   else mret (q, o)) m = Ret (q', o') m' ∧
  appended m q o n (int_sign val flags) q' o' m'.
Proof.
  intros Hv. unfold int_sign.
  destruct (is_minus val flags), (fl flags FL_PLUS), (fl flags FL_SPACE);
    try (edestruct run_EMIT as (q' & m' & Hrun & Happ); [exact Hv|]; by exists q', (o + 1), m').
  all: exists q, o, m; split; [done|apply appended_nil].
Qed.

Lemma run_radix_emit m q o n flags base :
  valid m q (n - o) →
  ∃ q' o' m',
  (if fl flags FL_HASH && (base =? 16) then
     '(q, o) ← EMIT n 48 q o;
     EMIT n (if fl flags FL_UPPER then 88 else 120) q o
   else mret (q, o)) m = Ret (q', o') m' ∧
  appended m q o n (int_radix flags base) q' o' m'.
Proof.
  intros Hv. unfold int_radix. destruct (fl flags FL_HASH && (base =? 16)).
  - destruct (run_EMIT m q o n 48 Hv) as (q1 & m1 & Hrun & Happ). rewrite run_bind, Hrun. cbn beta iota.
    destruct (run_EMIT m1 q1 (o + 1) n (if fl flags FL_UPPER then 88 else 120)) as (q2 & m2 & Hrun2 & Happ2);
      [by eapply appended_valid|].
    exists q2, (o + 1 + 1), m2. split; [done|]. eapply appended_trans in Happ2; [|exact Happ].
    by destruct (fl flags FL_UPPER).
  - exists q, o, m. split; [done|apply appended_nil].
Qed.

(** A padding, if the condition holds. *)
Lemma run_pad_if m q o n c limit width (cond : bool) :
  valid m q (n - o) → is_byte c →
  ∃ q' o' m' width' l,
  (if cond then emit_pad n c limit q o width else mret (q, o, width)) m =
  Ret (q', o', width') m' ∧ appended m q o n l q' o' m' ∧
  l = (if cond then replicate (Z.to_nat (width - limit)) c else []) ∧
  width' = width - Z.of_nat (length l).
Proof.
  intros Hv Hc. destruct cond.
  - destruct (run_emit_pad m q o n c limit width Hv) as (q' & m' & Hrun & Happ).
    rewrite u8_byte in Happ by done.
    eexists q', _, m', _, _. split_and!; [exact Hrun|exact Happ|done|].
    by rewrite length_replicate.
  - exists q, o, m, width, []. split_and!; [done|apply appended_nil|done|simpl; lia].
Qed.

Lemma run_body m q o n val flags base prec :
  base = 8 ∨ base = 10 ∨ base = 16 → valid m q (n - o) →
  let body := int_body val flags base prec in
  ∃ m',
  emit_digits (digit_chars flags) n base (tick_skip val flags base prec)
    (q + Z.of_nat (length body)) (o + Z.of_nat (length body)) (Z.of_nat (length body))
    (magnitude val flags) m = Ret tt m' ∧
  appended m q o n body (q + Z.of_nat (length body)) (o + Z.of_nat (length body)) m'.
Proof.
  intros Hb Hv body. eexists. split; [|split_and!; [done|done|done]].
  pose proof (tick_skip_pos val flags base prec).
  unfold emit_digits, body, int_body. rewrite length_reverse, Nat2Z.id.
  apply run_emit_digits_loop; [by apply digit_chars_ok|done|lia|done|lia].
Qed.

(** The output part, from the computed number of characters on. *)
Lemma run_emission m q n val flags base width prec :
  base = 8 ∨ base = 10 ∨ base = 16 → 0 ≤ n → valid m q n →
  let body := int_body val flags base prec in
  let nchars := Z.of_nat (length (int_sign val flags ++ int_radix flags base ++ body)) in
  ('(q, o, width) ←
    (if negb (fl flags (Z.lor FL_MINUS FL_ZERO)) && (nchars <? width)
     then emit_pad n 32 nchars q 0 width else mret (q, 0, width));
  '(q, o) ←
    (if is_minus val flags then EMIT n 45 q o
     else if fl flags FL_PLUS then EMIT n 43 q o
     else if fl flags FL_SPACE then EMIT n 32 q o
     else mret (q, o));
  '(q, o) ←
    (if fl flags FL_HASH && (base =? 16) then
       '(q, o) ← EMIT n 48 q o;
       EMIT n (if fl flags FL_UPPER then 88 else 120) q o
     else mret (q, o));
  '(q, o, width) ←
    (if (Z.land flags (Z.lor FL_MINUS FL_ZERO) =? FL_ZERO) && (Z.of_nat (length body) <? width)
     then emit_pad n 48 nchars q o width else mret (q, o, width));
  let q := q + Z.of_nat (length body) in
  let o := o + Z.of_nat (length body) in
  emit_digits (digit_chars flags) n base (tick_skip val flags base prec) q o
    (Z.of_nat (length body)) (magnitude val flags);;
  '(q, o, width) ←
    (if fl flags FL_MINUS then emit_pad n 32 nchars q o width else mret (q, o, width));
  mret o : C mem Z) m =
  Ret (Z.of_nat (length (int_text val flags base width prec)))
      (write_bytes m q (take (Z.to_nat n) (int_text val flags base width prec))).
Proof.
  intros Hb Hn Hv body nchars. assert (valid m q (n - 0)) as V0 by (by rewrite Z.sub_0_r).
  destruct (run_pad_if m q 0 n 32 nchars width
    (negb (fl flags (Z.lor FL_MINUS FL_ZERO)) && (nchars <? width)) V0)
    as (q1 & o1 & m1 & w1 & early & R1 & A1 & E1 & Hw1); [done|].
  rewrite (run_bind_Ret _ _ _ _ _ R1). pose proof (appended_valid _ _ _ _ _ _ _ _ A1 V0) as V1.
  destruct (run_sign_emit m1 q1 o1 n val flags V1) as (q2 & o2 & m2 & R2 & A2).
  cbn beta iota. rewrite (run_bind_Ret _ _ _ _ _ R2). cbn beta iota.
  pose proof (appended_valid _ _ _ _ _ _ _ _ A2 V1) as V2.
  destruct (run_radix_emit m2 q2 o2 n flags base V2) as (q3 & o3 & m3 & R3 & A3).
  rewrite (run_bind_Ret _ _ _ _ _ R3). cbn beta iota.
  pose proof (appended_valid _ _ _ _ _ _ _ _ A3 V2) as V3.
  destruct (run_pad_if m3 q3 o3 n 48 nchars w1
    ((Z.land flags (Z.lor FL_MINUS FL_ZERO) =? FL_ZERO) && (Z.of_nat (length body) <? w1)) V3)
    as (q4 & o4 & m4 & w2 & zeros & R4 & A4 & E4 & Hw2); [done|].
  rewrite (run_bind_Ret _ _ _ _ _ R4). cbn beta iota zeta.
  pose proof (appended_valid _ _ _ _ _ _ _ _ A4 V3) as V4.
  destruct (run_body m4 q4 o4 n val flags base prec Hb V4) as (m5 & R5 & A5).
  fold body in R5, A5. rewrite (run_bind_Ret _ _ _ _ _ R5).
  pose proof (appended_valid _ _ _ _ _ _ _ _ A5 V4) as V5.
  destruct (run_pad_if m5 _ _ n 32 nchars w2 (fl flags FL_MINUS) V5)
    as (q6 & o6 & m6 & w6 & late & R6 & A6 & E6 & _); [done|].
  rewrite (run_bind_Ret _ _ _ _ _ R6). cbn beta iota. rewrite run_ret.
  pose proof (appended_trans _ _ _ _ _ _ _ _ _ _ _ _ A1
    (appended_trans _ _ _ _ _ _ _ _ _ _ _ _ A2
    (appended_trans _ _ _ _ _ _ _ _ _ _ _ _ A3
    (appended_trans _ _ _ _ _ _ _ _ _ _ _ _ A4
    (appended_trans _ _ _ _ _ _ _ _ _ _ _ _ A5 A6))))) as (-> & -> & _).
  unfold wt. rewrite Z.sub_0_r, Z.add_0_l.
  enough (early ++ int_sign val flags ++ int_radix flags base ++ zeros ++ body ++ late =
    int_text val flags base width prec) as -> by done.
  clear - E1 E4 E6 Hw1 Hw2. subst early zeros late w1 w2.
  unfold int_text, int_padding. fold body. fold nchars. rewrite zero_not_minus, fl_lor.
  assert (Z.of_nat (length body) ≤ nchars) by (unfold nchars; rewrite !length_app; lia).
  destruct (fl flags FL_MINUS), (fl flags FL_ZERO); cbn [orb negb andb app length];
    rewrite ?Z.sub_0_r, ?app_nil_r; try done.
  - destruct (Z.ltb_spec (Z.of_nat (length body)) width); [done|].
    by replace (Z.to_nat (width - nchars)) with 0%nat by lia.
  - destruct (Z.ltb_spec nchars width); [done|].
    by replace (Z.to_nat (width - nchars)) with 0%nat by lia.
Qed.

Lemma run_nchars_sign m val flags b :
  0 ≤ b ≤ 2 ^ 30 →
  (if is_minus val flags || fl flags (Z.lor FL_PLUS FL_SPACE) then int (b + 1) else mret b : C mem Z)
    m = Ret (b + Z.of_nat (length (int_sign val flags))) m.
Proof.
  intros Hb. rewrite <-int_sign_length. destruct (is_minus val flags || _).
  - apply run_int. lia.
  - by rewrite Z.add_0_r.
Qed.

Lemma run_nchars_radix m val flags base b :
  0 ≤ b ≤ 2 ^ 30 →
  (if fl flags FL_HASH && (base =? 16)
   then int (b + Z.of_nat (length (int_sign val flags)) + 2)
   else mret (b + Z.of_nat (length (int_sign val flags))) : C mem Z) m =
  Ret (b + Z.of_nat (length (int_sign val flags)) + Z.of_nat (length (int_radix flags base))) m.
Proof.
  intros Hb. assert (0 ≤ Z.of_nat (length (int_sign val flags)) ≤ 1)
    by (rewrite <-int_sign_length; case_match; lia).
  unfold int_radix. destruct (fl flags FL_HASH && (base =? 16)).
  - rewrite run_int by lia. done.
  - by rewrite Z.add_0_r.
Qed.

Lemma run_format_int m q n val flags base width prec :
  base = 8 ∨ base = 10 ∨ base = 16 → 0 ≤ val < 2 ^ 64 →
  (fl flags FL_SIGNED = true → s64 val ≠ - 2 ^ 63) → prec ≤ 2 ^ 29 → 0 ≤ n → valid m q n →
  format_int q n val flags base width prec m =
  Ret (Z.of_nat (length (int_text val flags base width prec)))
      (write_bytes m q (take (Z.to_nat n) (int_text val flags base width prec))).
Proof.
  intros Hb Hval Hmin Hprec Hn Hv. unfold format_int. cbn zeta.
  destruct (run_minus m val flags Hval Hmin) as [Rm Hmag].
  rewrite (run_bind_Ret _ _ _ _ _ Rm). cbn beta iota.
  rewrite (wrap_small 64 base) by lia.
  rewrite run_bind, (run_count m base (magnitude val flags) 0 64) by lia. cbn beta iota.
  rewrite Z.add_0_l. set (nd := Z.of_nat (digit_count 64 base (magnitude val flags))).
  rewrite run_bind.
  assert ((if fl flags FL_HASH && (base =? 8)
    then mret (if prec <? nd + 1 then nd + 1 else prec) else mret prec : C mem Z) m =
    Ret (if fl flags FL_HASH && (base =? 8) then Z.max prec (nd + 1) else prec) m) as ->.
  { destruct (fl flags FL_HASH && (base =? 8)); [|done]. rewrite run_ret. f_equal.
    destruct (Z.ltb_spec prec (nd + 1)); lia. }
  cbn beta iota.
  assert ((if nd <? (if fl flags FL_HASH && (base =? 8) then Z.max prec (nd + 1) else prec)
    then (if fl flags FL_HASH && (base =? 8) then Z.max prec (nd + 1) else prec)
    else if magnitude val flags =? 0 then 1 else nd) =
    Z.of_nat (int_digits val flags base prec)) as ->.
  { unfold int_digits. cbn zeta. fold nd. rewrite Z2Nat.id; [done|]. unfold nd. repeat case_match; lia. }
  fold (tick_skip val flags base prec).
  rewrite <-int_body_length. pose proof (int_body_bound val flags base prec Hprec) as Hbody.
  rewrite run_bind, run_int by lia. cbn beta iota.
  rewrite run_bind, run_nchars_sign by lia. cbn beta iota.
  rewrite run_bind, run_nchars_radix by lia. cbn beta iota.
  replace (Z.of_nat (length (int_body val flags base prec)) + Z.of_nat (length (int_sign val flags))
    + Z.of_nat (length (int_radix flags base)))
    with (Z.of_nat (length (int_sign val flags ++ int_radix flags base ++ int_body val flags base prec)))
    by (rewrite !length_app; lia).
  by apply run_emission.
Qed.
End format_int.
