(* ===== verification/PrintfSpec.v ===== *)
(** * What a format denotes, and that [vsnprintf] writes it

    A format is a list of literal characters and directives; [render] is the
    text it denotes for given arguments, with the conversions that C leaves
    undefined excluded.  The state machine of [vsnprintf] is proved to parse
    the format and to write the text, cut at the size of the buffer. *)

From stdpp Require Import base tactics numbers list gmap.
From S2P Require Import Prelude Memory MemFns Ctype StrFns Numbers Printf.

Open Scope Z_scope.

(** ** Formats *)

(** A width or precision. *)
Inductive count := CNone | CLit (ds : list Z) | CStar.

Record directive := {
  d_flags : list Z;
  d_width : count;
  d_prec : option count;
  d_mods : list Z;
  d_conv : Z;
}.

Inductive item := Lit (c : Z) | Dir (d : directive).

Definition count_chars (c : count) : list Z :=
  match c with CNone => [] | CLit ds => ds | CStar => [42] end.

Definition prec_chars (pc : option count) : list Z :=
  match pc with None => [] | Some c => 46 :: count_chars c end.

Definition directive_chars (d : directive) : list Z :=
  37 :: d_flags d ++ count_chars (d_width d) ++
  prec_chars (d_prec d) ++ d_mods d ++ [d_conv d].

Definition item_chars (i : item) : list Z :=
  match i with Lit c => [c] | Dir d => directive_chars d end.

Definition format_chars (f : list item) : list Z := f ≫= item_chars.

Definition flag_chars : list Z := [45; 43; 39; 32; 35; 48].
Definition mod_chars : list Z := [104; 108; 106; 122; 116; 76; 113].
Definition conv_chars : list Z := [80; 112; 100; 105; 111; 117; 88; 120; 102; 99; 115; 37].

Definition wf_count (first : bool) (c : count) : Prop :=
  match c with
  | CLit ds => ds ≠ [] ∧ Forall (λ c, 48 ≤ c ≤ 57) ds ∧ digits_value 10 ds ≤ 2 ^ 29 ∧
               (first = true → head ds ≠ Some 48)
  | _ => True
  end.

Definition wf_item (i : item) : Prop :=
  match i with
  | Lit c => 0 < c < 256 ∧ c ≠ 37
  | Dir d => Forall (λ c, c ∈ flag_chars) (d_flags d) ∧ wf_count true (d_width d) ∧
             (match d_prec d with None => True | Some c => wf_count false c end) ∧
             Forall (λ c, c ∈ mod_chars) (d_mods d) ∧ d_conv d ∈ conv_chars
  end.

(** ** The text *)

Definition flag_bit (c : Z) : Z :=
  if c =? 45 then FL_MINUS else if c =? 43 then FL_PLUS else if c =? 39 then FL_TICK
  else if c =? 32 then FL_SPACE else if c =? 35 then FL_HASH else FL_ZERO.

Definition flag_bits (fs : list Z) : Z := foldl (λ f c, Z.lor f (flag_bit c)) 0 fs.

Definition mod_rank (r c : Z) : Z :=
  if c =? 104 then r - 1 else if c =? 108 then r + 1 else if c =? 106 then rank_longlong
  else if (c =? 122) || (c =? 116) then rank_long else r + 2.

Definition clamp_rank (r : Z) : Z :=
  if r <? rank_char then rank_char else if rank_longlong <? r then rank_longlong else r.

(** The width: its value, the flags it adds, the arguments left. *)
Definition eval_width (c : count) (flags : Z) (ap : list Z) : option (Z * Z * list Z) :=
  match c with
  | CNone => Some (0, flags, ap)
  | CLit ds => Some (digits_value 10 ds, flags, ap)
  | CStar =>
      match ap with
      | [] => None
      | a :: ap =>
          let w := s32 a in
          if w =? - 2 ^ 31 then None
          else if w <? 0 then Some (- w, Z.lor flags FL_MINUS, ap) else Some (w, flags, ap)
      end
  end.

Definition eval_prec (c : option count) (ap : list Z) : option (Z * list Z) :=
  match c with
  | None => Some (-1, ap)
  | Some CNone => Some (0, ap)
  | Some (CLit ds) => Some (digits_value 10 ds, ap)
  | Some CStar =>
      match ap with
      | [] => None
      | a :: ap => Some ((if s32 a <? 0 then -1 else s32 a), ap)
      end
  end.

(** The string cut at the precision and padded to the width. *)
Definition string_text (t : list Z) (flags width prec : Z) : list Z :=
  let t := if prec =? -1 then t else take (Z.to_nat prec) t in
  let k := Z.to_nat (width - Z.of_nat (length t)) in
  if fl flags FL_MINUS then t ++ replicate k 32
  else replicate k (if fl flags FL_ZERO then 48 else 32) ++ t.

(** The conversion's argument read, what it denotes; [str] are the strings in
    memory. *)
Definition conv_text (str : Z → option (list Z)) (conv flags rank width prec a : Z)
  : option (list Z) :=
  let int_conv val flags base prec :=
    if (fl flags FL_SIGNED && (s64 val =? - 2 ^ 63)) || (2 ^ 29 <? prec) then None
    else Some (int_text val flags base width prec) in
  if (conv =? 80) || (conv =? 112) then
    int_conv (u64 a) (Z.lor (if conv =? 80 then Z.lor flags FL_UPPER else flags) FL_HASH) 16 16
  else if (conv =? 100) || (conv =? 105) then
    int_conv (signed_arg rank a) (Z.lor flags FL_SIGNED) 10 prec
  else if conv =? 111 then int_conv (unsigned_arg rank a) flags 8 prec
  else if conv =? 117 then int_conv (unsigned_arg rank a) flags 10 prec
  else if conv =? 88 then int_conv (unsigned_arg rank a) (Z.lor flags FL_UPPER) 16 prec
  else if conv =? 120 then int_conv (unsigned_arg rank a) flags 16 prec
  else if conv =? 102 then Some [40; 102; 108; 111; 97; 116; 41]
  else if conv =? 99 then Some (string_text [u8 a] flags width prec)
  else if a =? NULL then Some (string_text [40; 110; 117; 108; 108; 41] flags width prec)
  else t ← str a; Some (string_text t flags width prec).

Definition directive_text (str : Z → option (list Z)) (d : directive) (ap : list Z)
  : option (list Z * list Z) :=
  '(width, flags, ap) ← eval_width (d_width d) (flag_bits (d_flags d)) ap;
  '(prec, ap) ← eval_prec (d_prec d) ap;
  if d_conv d =? 37 then Some ([37], ap) else
  match ap with
  | [] => None
  | a :: ap =>
      t ← conv_text str (d_conv d) flags (clamp_rank (foldl mod_rank rank_int (d_mods d)))
            width prec a;
      Some (t, ap)
  end.

Fixpoint render (str : Z → option (list Z)) (f : list item) (ap : list Z) : option (list Z) :=
  match f with
  | [] => Some []
  | Lit c :: f => t ← render str f ap; Some (c :: t)
  | Dir d :: f =>
      '(t, ap) ← directive_text str d ap;
      t' ← render str f ap;
      Some (t ++ t')
  end.

(** The strings the environment names are in memory, out of the buffer's way. *)
Definition strings_ok (m : mem) (buffer n : Z) (str : Z → option (list Z)) : Prop :=
  ∀ p t, str p = Some t →
  cstr m p t ∧ disjoint_ranges buffer n p (Z.of_nat (length t) + 1) ∧
  Z.of_nat (length t) < 2 ^ 31.

(** ** The string conversions *)

(** The memories agree outside the range. *)
Definition same_outside (q k : Z) (m m' : mem) : Prop :=
  ∀ a, a < q ∨ q + k ≤ a → m' !! a = m !! a.

(** [s] reads [t] from position [i] on, whatever is written in the range. *)
Definition sarg_reads (m : mem) (q k : Z) (s : sarg) (i : Z) (t : list Z) : Prop :=
  ∀ m' j c, same_outside q k m m' → t !! j = Some c →
  ∃ v, sarg_char s (i + Z.of_nat j) m' = Ret v m' ∧ u8 v = c.

Section strings.
Implicit Types (m : mem) (t : list Z).

Lemma same_outside_refl q k m : same_outside q k m m.
Proof. done. Qed.

Lemma same_outside_trans q k m m1 m2 :
  same_outside q k m m1 → same_outside q k m1 m2 → same_outside q k m m2.
Proof. intros H1 H2 a Ha. by rewrite H2, H1. Qed.

Lemma same_outside_empty q k m m' : k ≤ 0 → same_outside q k m m' → m' = m.
Proof. intros Hk H. apply map_eq. intros a. apply H. lia. Qed.

Lemma appended_outside m q o n l q' o' m' :
  appended m q o n l q' o' m' → same_outside q (n - o) m m'.
Proof.
  intros (_ & -> & _) a Ha. unfold wt. apply lookup_write_bytes_out.
  rewrite length_take. lia.
Qed.

(** The range left to write shrinks. *)
Lemma appended_inside m q o n l q' o' m' m2 :
  appended m q o n l q' o' m' → same_outside q' (n - o') m' m2 →
  same_outside q (n - o) m m2.
Proof.
  intros Happ H2. eapply same_outside_trans; [by eapply appended_outside|].
  destruct Happ as (-> & _ & Hq).
  destruct (Z.lt_ge_cases (o + Z.of_nat (length l)) n) as [Hlt|Hge].
  - rewrite Hq in H2 by done. intros a Ha. apply H2. lia.
  - apply same_outside_empty in H2 as ->; [done|lia].
Qed.

Lemma sarg_reads_step m q o n l q' o' m' s i c t :
  sarg_reads m q (n - o) s i (c :: t) → appended m q o n l q' o' m' →
  sarg_reads m' q' (n - o') s (i + 1) t.
Proof.
  intros H Happ m2 j d Hm2 Hj.
  destruct (H m2 (S j) d) as (v & Hv & Hd); [by eapply appended_inside|done|].
  exists v. split; [|done]. by replace (i + 1 + Z.of_nat j) with (i + Z.of_nat (S j)) by lia.
Qed.

Lemma run_string_loop m q o n s i t fuel :
  valid m q (n - o) → sarg_reads m q (n - o) s i t → (length t < fuel)%nat →
  ∃ q' o' m',
  loop fuel (λ '(q, o, j),
    if j =? i + Z.of_nat (length t) then Break (q, o) else
    sch ← sarg_char s j;
    '(q, o) ← EMIT n sch q o;
    Next (q, o, j + 1)) (q, o, i) m = Ret (q', o') m' ∧
  appended m q o n t q' o' m'.
Proof.
  revert m q o i fuel. induction t as [|c t IH]; intros m q o i [|fuel] Hv Hr Hf;
    try (simpl in Hf; lia); rewrite run_loop; cbn beta iota.
  { simpl. rewrite Z.add_0_r, Z.eqb_refl. exists q, o, m. split; [done|apply appended_nil]. }
  cbn [length] in *. ctest.
  destruct (Hr m 0%nat c) as (v & Hrun & Hc); [done|done|]. rewrite Z.add_0_r in Hrun.
  rewrite run_bind, Hrun. cbn beta iota.
  destruct (run_EMIT m q o n v Hv) as (q1 & m1 & Re & A1). rewrite Hc in A1.
  rewrite run_bind, Re. cbn beta iota. rewrite run_ret.
  destruct (IH m1 q1 (o + 1) (i + 1) fuel) as (q2 & o2 & m2 & R2 & A2);
    [by eapply appended_valid|by eapply sarg_reads_step|lia|].
  exists q2, o2, m2. split.
  - rewrite <-R2. by replace (i + Z.of_nat (S (length t))) with (i + 1 + Z.of_nat (length t)) by lia.
  - by apply (appended_trans _ _ _ _ [c] _ _ _ _ _ _ _ A1 A2).
Qed.

Lemma sarg_reads_pad m q o n l q' o' m' s i t :
  sarg_reads m q (n - o) s i t → appended m q o n l q' o' m' →
  sarg_reads m' q' (n - o') s i t.
Proof. intros H Happ m2 j c Hm2. apply H. by eapply appended_inside. Qed.

Lemma sarg_reads_take m q k s i t j :
  sarg_reads m q k s i t → sarg_reads m q k s i (take j t).
Proof.
  intros H m' x c Hm' Hx. apply lookup_take_Some in Hx as [Hx _]. by eapply H.
Qed.

Lemma run_is_string m q o n s t flags width prec :
  valid m q (n - o) → sarg_reads m q (n - o) s 0 t → -1 ≤ prec →
  ∃ q' o' m',
  is_string n s (Z.of_nat (length t)) flags width prec q o m = Ret (q', o') m' ∧
  appended m q o n (string_text t flags width prec) q' o' m'.
Proof.
  intros Hv Hr Hp. unfold is_string. cbn zeta.
  set (u := if prec =? -1 then t else take (Z.to_nat prec) t).
  assert ((if negb (prec =? -1) && (prec <? Z.of_nat (length t)) then prec
    else Z.of_nat (length t)) = Z.of_nat (length u)) as ->.
  { unfold u. destruct (Z.eqb_spec prec (-1)); [done|]. rewrite length_take. cbn [negb andb].
    destruct (Z.ltb_spec prec (Z.of_nat (length t))); lia. }
  assert (sarg_reads m q (n - o) s 0 u) as Hu
    by (unfold u; destruct (prec =? -1); [done|by apply sarg_reads_take]).
  destruct (run_pad_if m q o n (if fl flags FL_ZERO then 48 else 32) (Z.of_nat (length u)) width
    ((Z.of_nat (length u) <? width) && negb (fl flags FL_MINUS)) Hv)
    as (q1 & o1 & m1 & w1 & early & R1 & A1 & E1 & Hw1); [by destruct (fl flags FL_ZERO)|].
  rewrite (run_bind_Ret _ _ _ _ _ R1). cbn beta iota.
  pose proof (appended_valid _ _ _ _ _ _ _ _ A1 Hv) as V1.
  destruct (run_string_loop m1 q1 o1 n s 0 u (S (length u)) V1) as (q2 & o2 & m2 & R2 & A2);
    [by eapply sarg_reads_pad|lia|].
  rewrite Nat2Z.id. rewrite Z.add_0_l in R2. rewrite (run_bind_Ret _ _ _ _ _ R2). cbn beta iota.
  pose proof (appended_valid _ _ _ _ _ _ _ _ A2 V1) as V2.
  destruct (run_pad_if m2 q2 o2 n 32 (Z.of_nat (length u)) w1
    ((Z.of_nat (length u) <? w1) && fl flags FL_MINUS) V2)
    as (q3 & o3 & m3 & w3 & late & R3 & A3 & E3 & _); [done|].
  rewrite (run_bind_Ret _ _ _ _ _ R3). cbn beta iota. exists q3, o3, m3. split; [done|].
  pose proof (appended_trans _ _ _ _ _ _ _ _ _ _ _ _ A1
    (appended_trans _ _ _ _ _ _ _ _ _ _ _ _ A2 A3)) as A.
  enough (early ++ u ++ late = string_text t flags width prec) as <- by done.
  unfold string_text. fold u. subst early late w1. clear.
  destruct (fl flags FL_MINUS); rewrite ?andb_false_r, ?andb_true_r; cbn [app length negb].
  - rewrite Z.sub_0_r. destruct (Z.ltb_spec (Z.of_nat (length u)) width); [done|].
    by replace (Z.to_nat (width - Z.of_nat (length u))) with 0%nat by lia.
  - rewrite app_nil_r. destruct (Z.ltb_spec (Z.of_nat (length u)) width); [done|].
    by replace (Z.to_nat (width - Z.of_nat (length u))) with 0%nat by lia.
Qed.
End strings.

(** ** The conversions *)

Section convert.
Implicit Types (m : mem) (s : pst) (t : list Z).

(** The strings of the environment can be read while the rest of the buffer is
    written. *)
Definition strings_readable m q k (str : Z → option (list Z)) : Prop :=
  ∀ p t, str p = Some t →
  cstr m p t ∧ sarg_reads m q k (Sptr p) 0 t ∧ Z.of_nat (length t) < 2 ^ 31.

(** A conversion consumes an argument and outputs [t]. *)
Definition converts n m s ap t (r : outcome mem pst) : Prop :=
  ∃ q' o' m', r = Ret (set_ap ap (set_out q' o' s)) m' ∧
  appended m (s_q s) (s_o s) n t q' o' m'.

Lemma run_is_integer n m s ap val flags base prec :
  base = 8 ∨ base = 10 ∨ base = 16 → 0 ≤ val < 2 ^ 64 →
  (fl flags FL_SIGNED && (s64 val =? - 2 ^ 63)) || (2 ^ 29 <? prec) = false →
  valid m (s_q s) (n - s_o s) →
  converts n m s ap (int_text val flags base (s_width s) prec)
    (is_integer n val flags base prec (set_ap ap s) m).
Proof.
  intros Hb Hval Hok Hv. apply orb_false_iff in Hok as [Hmin Hp%Z.ltb_ge].
  unfold is_integer. cbn [set_ap s_q s_o s_width].
  set (n' := if s_o s <? n then n - s_o s else 0).
  assert (0 ≤ n' ∧ (n' ≤ n - s_o s ∨ n' = 0) ∧ Z.to_nat n' = Z.to_nat (n - s_o s)) as (Hn & Hle & En)
    by (unfold n'; destruct (Z.ltb_spec (s_o s) n); lia).
  rewrite run_bind, run_format_int; [|done|done| |lia|done|].
  - eexists _, _, _. split; [by destruct s|]. unfold appended, wt.
    cbn [set_ap s_q s_o s_width]. by rewrite En.
  - intros Hs E. rewrite Hs, (proj2 (Z.eqb_eq _ _) E) in Hmin. done.
  - intros i Hi. apply Hv. lia.
Qed.

Lemma run_string_conv n m s ap arg t flags width prec :
  valid m (s_q s) (n - s_o s) → sarg_reads m (s_q s) (n - s_o s) arg 0 t → -1 ≤ prec →
  converts n m s ap (string_text t flags width prec)
    (('(q, o) ← is_string n arg (Z.of_nat (length t)) flags width prec (s_q s) (s_o s);
      mret (set_ap ap (set_out q o s))) m).
Proof.
  intros Hv Hr Hp.
  destruct (run_is_string m (s_q s) (s_o s) n arg t flags width prec Hv Hr Hp)
    as (q' & o' & m' & Hrun & Happ).
  rewrite (run_bind_Ret _ _ _ _ _ Hrun). by exists q', o', m'.
Qed.

(** A literal reads itself. *)
Lemma sarg_reads_lit m q k l : sarg_reads m q k (Slit l) 0 (map u8 l).
Proof.
  intros m' j c _ Hj. rewrite list_lookup_fmap in Hj.
  apply fmap_Some in Hj as (v & Hv & ->). exists v. split; [|done].
  unfold sarg_char. by rewrite Z.add_0_l, Nat2Z.id, Hv.
Qed.

Lemma unsigned_arg_range rank a : 0 ≤ unsigned_arg rank a < 2 ^ 64.
Proof.
  unfold unsigned_arg. pose proof (wrap_range 8 a). pose proof (wrap_range 16 a).
  pose proof (wrap_range 32 a). pose proof (wrap_range 64 a). repeat case_match; lia.
Qed.

Lemma signed_arg_range rank a : 0 ≤ signed_arg rank a < 2 ^ 64.
Proof. unfold signed_arg. repeat case_match; by apply wrap_range. Qed.

Lemma run_convert str n m s a ap ch t :
  ch ∈ conv_chars → ch ≠ 37 → s_ap s = a :: ap → -1 ≤ s_prec s →
  valid m (s_q s) (n - s_o s) → strings_readable m (s_q s) (n - s_o s) str →
  conv_text str ch (s_flags s) (s_rank s) (s_width s) (s_prec s) a = Some t →
  converts n m s ap t (convert n ch s m).
Proof.
  intros Hch Hne Hap Hp Hv Hstr Ht. unfold convert, va_arg. rewrite Hap.
  unfold conv_chars in Hch. rewrite !elem_of_cons, elem_of_nil in Hch.
  destruct_or! Hch; try done; subst ch; unfold conv_text in Ht;
    cbn [Z.eqb Pos.eqb orb] in Ht |- *; cbn zeta in Ht |- *;
    rewrite run_bind, run_ret; cbn beta iota;
    try (destruct (_ || _) eqn:Hok in Ht; [done|injection Ht as <-];
         apply run_is_integer; [auto|by apply wrap_range || apply signed_arg_range ||
           apply unsigned_arg_range|done|done]).
  - injection Ht as <-. set (l := [40; 102; 108; 111; 97; 116; 41]).
    assert (string_text (map u8 l) (s_flags s) 0 (-1) = l) as E
      by (unfold string_text; by destruct (fl (s_flags s) FL_MINUS)).
    pose proof (run_string_conv n m s ap (Slit l) (map u8 l) (s_flags s) 0 (-1) Hv
      (sarg_reads_lit _ _ _ l) ltac:(lia)) as H. by rewrite E in H.
  - injection Ht as <-. rewrite <-(u8_s8 a).
    apply (run_string_conv n m s ap (Slit [s8 a]) (map u8 [s8 a]));
      [done|apply sarg_reads_lit|lia].
  - destruct (a =? NULL) eqn:Hnull.
    + injection Ht as <-. set (l := [40; 110; 117; 108; 108; 41]).
      apply (run_string_conv n m s ap (Slit l) (map u8 l)); [done|apply sarg_reads_lit|lia].
    + destruct (str a) as [u|] eqn:Hu; [|done]. injection Ht as <-.
      destruct (Hstr a u Hu) as (Hcs & Hread & Hlen). unfold sarg_len.
      rewrite run_bind, run_bind, (run_strlen m a u Hcs). cbn beta iota. rewrite run_ret.
      cbn beta iota. rewrite sext_small by lia. by apply run_string_conv.
Qed.
End convert.

(** ** The state machine *)

Section machine.
Context (n : Z).
Implicit Types (m : mem) (s : pst) (p : Z).

Definition machine : Z * pst → C mem (Z * pst + pst) := λ '(p, s),
  ch ← loadc p;
  if ch =? 0 then Break s else
  '(next, s) ← pstep_of n ch s;
  Next (if next : bool then p + 1 else p, s).

(** The loop gets from one state to another in [k] rounds. *)
Definition goes (k : nat) (a : Z * pst) m (b : Z * pst) m' : Prop :=
  ∀ f, loop (k + f) machine a m = loop f machine b m'.

Lemma goes_refl a m : goes 0 a m a m.
Proof. intros f. done. Qed.

Lemma goes_trans j k a m b m1 c m2 :
  goes j a m b m1 → goes k b m1 c m2 → goes (j + k) a m c m2.
Proof. intros H1 H2 f. by rewrite <-Nat.add_assoc, H1, H2. Qed.

Lemma goes_char p s m c (next : bool) s' m' :
  m !! p = Some c → 0 < c < 256 → pstep_of n (s8 c) s m = Ret (next, s') m' →
  goes 1 (p, s) m (if next then p + 1 else p, s') m'.
Proof.
  intros Hp Hc Hstep f. change (1 + f)%nat with (S f). rewrite run_loop. unfold machine at 1.
  rewrite run_bind, (run_loadc _ _ _ Hp). cbn beta iota.
  rewrite s8_const by (auto || lia). ctest. rewrite run_bind, Hstep. cbn beta iota.
  by rewrite run_ret.
Qed.

(** A character below 128 is its own [char]. *)
Lemma s8_ascii c : 0 < c < 128 → s8 c = c.
Proof. intros Hc. rewrite s8_byte by (unfold is_byte; lia). by ctest. Qed.

Lemma goes_ascii p s m c (next : bool) s' m' :
  m !! p = Some c → 0 < c < 128 → pstep_of n c s m = Ret (next, s') m' →
  goes 1 (p, s) m (if next then p + 1 else p, s') m'.
Proof. intros Hp Hc Hstep. eapply goes_char; [done|lia|]. by rewrite s8_ascii. Qed.

(** A run of characters consumed one by one. *)
Lemma goes_run (P : pst → Prop) (g : pst → Z → pst) cs p s m :
  (∀ c s, c ∈ cs → P s → 0 < c < 128 ∧ pstep_of n c s m = Ret (true, g s c) m ∧ P (g s c)) →
  P s → bytes_at m p cs →
  goes (length cs) (p, s) m (p + Z.of_nat (length cs), foldl g s cs) m.
Proof.
  revert p s. induction cs as [|c cs IH]; intros p s Hstep HP Hb; cbn [length foldl].
  { rewrite Z.add_0_r. apply goes_refl. }
  apply bytes_at_cons in Hb as (_ & Hp & Hb).
  destruct (Hstep c s ltac:(left) HP) as (Hc & Hrun & HP').
  change (S (length cs)) with (1 + length cs)%nat. eapply goes_trans.
  - by apply (goes_ascii p s m c true (g s c) m).
  - replace (p + Z.of_nat (1 + length cs)) with (p + 1 + Z.of_nat (length cs)) by lia.
    apply IH; [|done|done]. intros d s' Hd. apply Hstep. by right.
Qed.

Definition add_flag s c : pst := set_flags (Z.lor (s_flags s) (flag_bit c)) s.

Lemma goes_flags fs p s m :
  Forall (λ c, c ∈ flag_chars) fs → s_state s = st_flags → bytes_at m p fs →
  goes (length fs) (p, s) m (p + Z.of_nat (length fs), foldl add_flag s fs) m.
Proof.
  intros Hf Hs Hb. apply (goes_run (λ s, s_state s = st_flags)); [|done|done].
  intros c s' Hc Hs'. rewrite Forall_forall in Hf. specialize (Hf c Hc). unfold flag_chars in Hf.
  unfold pstep_of. rewrite Hs'.
  repeat (apply elem_of_cons in Hf as [->|Hf]; [split; [lia|]; by destruct s'|]).
  by apply elem_of_nil in Hf.
Qed.

Lemma foldl_add_flag fs s :
  foldl add_flag s fs =
  set_flags (foldl (λ f c, Z.lor f (flag_bit c)) (s_flags s) fs) s.
Proof.
  revert s. induction fs as [|c fs IH]; intros s; [by destruct s|]. cbn [foldl].
  rewrite IH. done.
Qed.

Definition add_mod s c : pst := set_rank (mod_rank (s_rank s) c) s.

Lemma goes_mods cs p s m :
  Forall (λ c, c ∈ mod_chars) cs → s_state s = st_modifiers → bytes_at m p cs →
  goes (length cs) (p, s) m (p + Z.of_nat (length cs), foldl add_mod s cs) m.
Proof.
  intros Hf Hs Hb. apply (goes_run (λ s, s_state s = st_modifiers)); [|done|done].
  intros c s' Hc Hs'. rewrite Forall_forall in Hf. specialize (Hf c Hc). unfold mod_chars in Hf.
  unfold pstep_of. rewrite Hs'.
  repeat (apply elem_of_cons in Hf as [->|Hf]; [split; [lia|]; by destruct s'|]).
  by apply elem_of_nil in Hf.
Qed.

Lemma foldl_add_mod cs s :
  foldl add_mod s cs = set_rank (foldl mod_rank (s_rank s) cs) s.
Proof.
  revert s. induction cs as [|c cs IH]; intros s; [by destruct s|]. cbn [foldl].
  rewrite IH. done.
Qed.

(** *** Widths and precisions *)

Abbreviation dec := (λ v c, v * 10 + digitval c).

Lemma digitval_dec c : 48 ≤ c ≤ 57 → digitval c = c - 48.
Proof.
  intros Hc. unfold digitval.
  by rewrite (proj2 (Z.leb_le 48 c)), (proj2 (Z.leb_le c 57)) by lia.
Qed.

Lemma dec_mono ds v : Forall (λ c, 48 ≤ c ≤ 57) ds → 0 ≤ v → v ≤ foldl dec v ds.
Proof.
  intros H. revert v. induction H as [|c ds Hc Hds IH]; intros v Hv; cbn [foldl]; [lia|].
  pose proof (digitval_dec c Hc). specialize (IH (v * 10 + digitval c)). lia.
Qed.

(** Decimal digits accumulate in a field, [get] and [set]. *)
Lemma goes_digits (st : pstate) (get : pst → Z) (set : Z → pst → pst) ds p s m :
  (∀ s c, s_state s = st → 48 ≤ c ≤ 57 → 0 ≤ get s → dec (get s) c ≤ 2 ^ 29 →
     pstep_of n c s m = Ret (true, set (dec (get s) c) s) m) →
  (∀ v s, get (set v s) = v ∧ s_state (set v s) = s_state s) →
  (∀ v w s, set v (set w s) = set v s) → (∀ s, set (get s) s = s) →
  s_state s = st → 0 ≤ get s → Forall (λ c, 48 ≤ c ≤ 57) ds → foldl dec (get s) ds ≤ 2 ^ 29 →
  bytes_at m p ds →
  goes (length ds) (p, s) m (p + Z.of_nat (length ds), set (foldl dec (get s) ds) s) m.
Proof.
  intros Hstep Hget Hset Hid Hs H0 Hds. revert p s Hs H0.
  induction Hds as [|c ds Hc Hds IH]; intros p s Hs H0 Hmax Hb; cbn [length foldl] in *.
  { rewrite Z.add_0_r, Hid. apply goes_refl. }
  apply bytes_at_cons in Hb as (_ & Hp & Hb). pose proof (digitval_dec c Hc) as Hd.
  pose proof (dec_mono ds (dec (get s) c) Hds ltac:(lia)) as Hm. cbn beta in Hm.
  change (S (length ds)) with (1 + length ds)%nat. eapply goes_trans.
  - apply (goes_ascii p s m c true (set (dec (get s) c) s) m); [done|lia|]. apply Hstep; [done|done|done|lia].
  - destruct (Hget (dec (get s) c) s) as [Eg Es].
    pose proof (IH (p + 1) (set (dec (get s) c) s)) as IH'. cbn beta in Eg, Es, IH'. rewrite Eg, Es, Hset in IH'.
    replace (p + Z.of_nat (1 + length ds)) with (p + 1 + Z.of_nat (length ds)) by lia.
    apply IH'; [done|lia|done|done].
Qed.

Lemma digit_test c : 48 ≤ c ≤ 57 → (48 <=? c) && (c <=? 57) = true.
Proof. intros. apply andb_true_iff. rewrite !Z.leb_le. lia. Qed.

Lemma goes_width_digits ds p s m :
  s_state s = st_width → 0 ≤ s_width s → Forall (λ c, 48 ≤ c ≤ 57) ds →
  foldl dec (s_width s) ds ≤ 2 ^ 29 → bytes_at m p ds →
  goes (length ds) (p, s) m (p + Z.of_nat (length ds), set_width (foldl dec (s_width s) ds) s) m.
Proof.
  apply (goes_digits st_width s_width set_width); [|done|done|by intros []].
  intros s' c Hs Hc H0 Hmax. unfold pstep_of, step_width. rewrite Hs, digit_test by done.
  rewrite digitval_dec in * by done.
  rewrite run_bind, run_int by lia. cbn beta iota. rewrite run_bind, run_int by lia. done.
Qed.

Lemma goes_prec_digits ds p s m :
  s_state s = st_prec → 0 ≤ s_prec s → Forall (λ c, 48 ≤ c ≤ 57) ds →
  foldl dec (s_prec s) ds ≤ 2 ^ 29 → bytes_at m p ds →
  goes (length ds) (p, s) m (p + Z.of_nat (length ds), set_prec (foldl dec (s_prec s) ds) s) m.
Proof.
  apply (goes_digits st_prec s_prec set_prec); [|done|done|by intros []].
  intros s' c Hs Hc H0 Hmax. unfold pstep_of, step_prec. rewrite Hs, digit_test by done.
  rewrite digitval_dec in * by done.
  rewrite run_bind, run_int by lia. cbn beta iota. rewrite run_bind, run_int by lia. done.
Qed.

(** The width of a directive. *)
Lemma goes_width c p s m w f ap :
  s_state s = st_width → s_width s = 0 → wf_count true c →
  eval_width c (s_flags s) (s_ap s) = Some (w, f, ap) → bytes_at m p (count_chars c) →
  goes (length (count_chars c)) (p, s) m
    (p + Z.of_nat (length (count_chars c)), set_width w (set_flags f (set_ap ap s))) m.
Proof.
  intros Hs H0 Hwf Hev Hb. destruct c as [|ds|]; cbn [count_chars] in *.
  - injection Hev as <- <- <-. cbn [length]. rewrite Z.add_0_r. destruct s; simpl in *; subst.
    apply goes_refl.
  - destruct Hwf as (_ & Hds & Hmax & _). injection Hev as <- <- <-.
    pose proof (goes_width_digits ds p s m Hs ltac:(lia) Hds) as H. rewrite H0 in H.
    specialize (H Hmax Hb). by destruct s.
  - destruct (s_ap s) as [|a ap'] eqn:Eap; [done|]. cbn [eval_width] in Hev.
    apply bytes_at_cons in Hb as (_ & Hp & _). cbn [length].
    apply (goes_ascii p s m 42 true); [done|lia|]. unfold pstep_of, step_width. rewrite Hs.
    cbn [Z.leb Z.compare Pos.compare Pos.compare_cont andb Z.eqb Pos.eqb].
    unfold va_arg. rewrite Eap, run_bind, run_ret. cbn beta iota zeta.
    pose proof (sext_range 32 a ltac:(lia)) as Hr.
    destruct (Z.eqb_spec (s32 a) (- 2 ^ 31)); [done|].
    destruct (Z.ltb_spec (s32 a) 0); injection Hev as <- <- <-.
    + rewrite run_bind, run_int by lia. by destruct s.
    + by destruct s.
Qed.

(** A character that only the last state reads moves the machine on. *)
Lemma late_char_ascii c : c ∈ mod_chars ++ conv_chars → 0 < c < 128.
Proof.
  intros Hc. unfold mod_chars, conv_chars in Hc. cbn [app] in Hc.
  repeat (apply elem_of_cons in Hc as [->|Hc]; [lia|]). by apply elem_of_nil in Hc.
Qed.

Lemma late_char_steps c s m :
  c ∈ mod_chars ++ conv_chars →
  step_flags c s m = Ret (false, to_state st_width s) m ∧
  step_width c s m = Ret (false, to_state st_modifiers s) m ∧
  step_prec c s m = Ret (false, to_state st_modifiers s) m.
Proof.
  intros Hc. unfold mod_chars, conv_chars in Hc. cbn [app] in Hc.
  repeat (apply elem_of_cons in Hc as [->|Hc]; [done|]). by apply elem_of_nil in Hc.
Qed.

Lemma goes_back p s m c st :
  m !! p = Some c → c ∈ mod_chars ++ conv_chars →
  st = st_width ∧ s_state s = st_flags ∨
  st = st_modifiers ∧ (s_state s = st_width ∨ s_state s = st_prec) →
  goes 1 (p, s) m (p, to_state st s) m.
Proof.
  intros Hp Hc Hst. destruct (late_char_steps c s m Hc) as (H1 & H2 & H3).
  apply (goes_ascii p s m c false); [done|by apply late_char_ascii|].
  unfold pstep_of. by destruct Hst as [[-> ->]|[-> [->| ->]]].
Qed.

Lemma goes_prec_count c p s m prec ap :
  s_state s = st_prec → s_prec s = 0 → wf_count false c →
  eval_prec (Some c) (s_ap s) = Some (prec, ap) → bytes_at m p (count_chars c) →
  goes (length (count_chars c)) (p, s) m
    (p + Z.of_nat (length (count_chars c)), set_prec prec (set_ap ap s)) m.
Proof.
  intros Hs H0 Hwf Hev Hb. destruct c as [|ds|]; cbn [count_chars] in *.
  - injection Hev as <- <-. cbn [length]. rewrite Z.add_0_r. destruct s; simpl in *; subst.
    apply goes_refl.
  - destruct Hwf as (_ & Hds & Hmax & _). injection Hev as <- <-.
    pose proof (goes_prec_digits ds p s m Hs ltac:(lia) Hds) as H. rewrite H0 in H.
    specialize (H Hmax Hb). by destruct s.
  - destruct (s_ap s) as [|a ap'] eqn:Eap; [done|]. cbn [eval_prec] in Hev.
    apply bytes_at_cons in Hb as (_ & Hp & _). cbn [length].
    apply (goes_ascii p s m 42 true); [done|lia|]. unfold pstep_of, step_prec. rewrite Hs.
    cbn [Z.leb Z.compare Pos.compare Pos.compare_cont andb Z.eqb Pos.eqb].
    unfold va_arg. rewrite Eap, run_bind, run_ret. cbn beta iota zeta.
    injection Hev as <- <-. by destruct s.
Qed.

Lemma goes_prec pc p s m c prec ap :
  s_state s = st_width → s_prec s = -1 →
  match pc with None => True | Some c => wf_count false c end →
  eval_prec pc (s_ap s) = Some (prec, ap) → bytes_at m p (prec_chars pc ++ [c]) →
  c ∈ mod_chars ++ conv_chars →
  goes (length (prec_chars pc) + 1) (p, s) m
    (p + Z.of_nat (length (prec_chars pc)),
     to_state st_modifiers (set_prec prec (set_ap ap s))) m.
Proof.
  intros Hs Hm1 Hwf Hev Hb Hc. apply bytes_at_app in Hb as [Hb1 Hb2].
  apply bytes_at_cons in Hb2 as (_ & Hb2 & _).
  destruct pc as [pc|]; cbn [prec_chars length] in *.
  - apply bytes_at_cons in Hb1 as (_ & Hp & Hb1).
    set (s1 := to_state st_prec (set_prec 0 s)).
    replace (S (length (count_chars pc)) + 1)%nat with (1 + (length (count_chars pc) + 1))%nat by lia.
    replace (p + Z.of_nat (S (length (count_chars pc))))
      with (p + 1 + Z.of_nat (length (count_chars pc))) in * by lia.
    apply (goes_trans _ _ _ _ (p + 1, s1) m).
    { apply (goes_ascii p s m 46 true); [done|lia|]. unfold pstep_of. by rewrite Hs. }
    eapply goes_trans.
    { by apply (goes_prec_count pc (p + 1) s1 m prec ap). }
    replace (to_state st_modifiers (set_prec prec (set_ap ap s)))
      with (to_state st_modifiers (set_prec prec (set_ap ap s1))) by (by destruct s).
    by apply (goes_back _ _ _ c); [..|right; auto].
  - injection Hev as <- <-. rewrite Z.add_0_r in *.
    replace (set_prec (-1) (set_ap (s_ap s) s)) with s by (destruct s; simpl in *; by subst).
    apply (goes_back _ _ _ c); [done|done|right; auto].
Qed.

(** *** Directives *)

Lemma not_flag_step c s m :
  c ∉ flag_chars → step_flags c s m = Ret (false, to_state st_width s) m.
Proof.
  intros Hc. unfold flag_chars in Hc. rewrite !not_elem_of_cons in Hc. unfold step_flags.
  destruct_and! Hc. by repeat ctest.
Qed.

Lemma late_char_not_flag c : c ∈ mod_chars ++ conv_chars → c ∉ flag_chars.
Proof.
  intros Hc Hf. unfold mod_chars, conv_chars, flag_chars in *. cbn [app] in Hc.
  repeat (apply elem_of_cons in Hc as [->|Hc]; [revert Hf; by_decide|]). by apply elem_of_nil in Hc.
Qed.

Lemma head_app (P : Z → Prop) l1 l2 :
  (∀ c, head l1 = Some c → P c) → (∃ c, head l2 = Some c ∧ P c) →
  ∃ c, head (l1 ++ l2) = Some c ∧ P c.
Proof. intros H1 H2. destruct l1 as [|c l1]; [done|]. exists c. auto. Qed.

(** The first character after the modifiers' start. *)
Lemma late_head d :
  Forall (λ c, c ∈ mod_chars) (d_mods d) → d_conv d ∈ conv_chars →
  ∃ c, head (d_mods d ++ [d_conv d]) = Some c ∧ c ∈ mod_chars ++ conv_chars.
Proof.
  intros Hm Hc. apply head_app.
  - intros c H. destruct (d_mods d) as [|x l]; [done|]. injection H as ->.
    apply Forall_cons in Hm as [Hm _]. apply elem_of_app. by left.
  - exists (d_conv d). split; [done|]. apply elem_of_app. by right.
Qed.

Lemma after_flags_head d :
  wf_item (Dir d) →
  ∃ c, head (count_chars (d_width d) ++ prec_chars (d_prec d) ++ d_mods d ++ [d_conv d]) = Some c ∧
  (0 < c < 128 ∧ c ∉ flag_chars).
Proof.
  intros (_ & Hw & _ & Hm & Hc). apply head_app; [|apply head_app].
  - intros c H. destruct (d_width d) as [|ds|]; [done| |injection H as <-; split; [lia|by_decide]].
    destruct Hw as (_ & Hds & _ & H48). cbn [count_chars] in H. specialize (H48 eq_refl).
    destruct ds as [|x ds]; [done|]. injection H as ->. apply Forall_cons in Hds as [Hx _].
    split; [lia|]. unfold flag_chars. rewrite !not_elem_of_cons. simpl in H48.
    split_and!; try lia; [congruence|apply not_elem_of_nil].
  - intros c H. destruct (d_prec d); [|done]. injection H as <-. split; [lia|by_decide].
  - destruct (late_head d Hm Hc) as (c & Hh & Hl). exists c.
    split_and!; [done|by apply late_char_ascii..|by apply late_char_not_flag].
Qed.

(** What a conversion does to the machine. *)
Definition outputs m s t ap s' m' : Prop :=
  s_state s' = st_normal ∧ s_ap s' = ap ∧ appended m (s_q s) (s_o s) n t (s_q s') (s_o s') m'.

Lemma step_conv c s m :
  c ∈ conv_chars →
  step_modifiers n c s m =
  (s' ← convert n c (set_rank (clamp_rank (s_rank s)) (to_state st_normal s));
   mret (true, s')) m.
Proof.
  intros Hc. unfold conv_chars in Hc.
  repeat (apply elem_of_cons in Hc as [->|Hc]; [done|]). by apply elem_of_nil in Hc.
Qed.

Lemma goes_conv str p s m c t ap a :
  m !! p = Some c → c ∈ conv_chars → s_state s = st_modifiers → -1 ≤ s_prec s →
  valid m (s_q s) (n - s_o s) → strings_readable m (s_q s) (n - s_o s) str →
  (c = 37 ∧ t = [37] ∧ ap = s_ap s) ∨
  (c ≠ 37 ∧ s_ap s = a :: ap ∧
   conv_text str c (s_flags s) (clamp_rank (s_rank s)) (s_width s) (s_prec s) a = Some t) →
  ∃ s' m', goes 1 (p, s) m (p + 1, s') m' ∧ outputs m s t ap s' m'.
Proof.
  intros Hp Hc Hs Hprec Hv Hstr Hcase.
  assert (0 < c < 128) by (apply late_char_ascii, elem_of_app; by right).
  set (s0 := set_rank (clamp_rank (s_rank s)) (to_state st_normal s)).
  assert (∃ q' o' m', convert n c s0 m = Ret (set_ap ap (set_out q' o' s0)) m' ∧
    appended m (s_q s) (s_o s) n t q' o' m') as (q' & o' & m' & Hrun & Happ).
  { destruct Hcase as [(-> & -> & ->)|(Hne & Hap & Ht)].
    - destruct (run_EMIT m (s_q s) (s_o s) n 37 Hv) as (q' & m' & Hrun & Happ).
      exists q', (s_o s + 1), m'. split; [|done].
      change (convert n 37 s0 m) with (('(q, o) ← EMIT n 37 (s_q s) (s_o s);
        mret (set_out q o s0)) m).
      by rewrite (run_bind_Ret _ _ _ _ _ Hrun).
    - by apply (run_convert str n m s0 a ap c t). }
  exists (set_ap ap (set_out q' o' s0)), m'. split; [|by split_and!].
  apply (goes_ascii p s m c true); [done|done|]. unfold pstep_of. rewrite Hs, step_conv by done.
  by rewrite (run_bind_Ret _ _ _ _ _ Hrun).
Qed.

Lemma eval_prec_range pc ap prec ap' :
  match pc with None => True | Some c => wf_count false c end →
  eval_prec pc ap = Some (prec, ap') → -1 ≤ prec.
Proof.
  intros Hwf H. destruct pc as [[|ds|]|]; simpl in H.
  - injection H as <- _. lia.
  - injection H as <- _. destruct Hwf as (_ & Hds & _).
    pose proof (dec_mono ds 0 Hds ltac:(lia)). unfold digits_value. lia.
  - destruct ap; [done|]. injection H as <- _. case_match; lia.
  - injection H as <- _. lia.
Qed.

Lemma bytes_at_head m p l c : bytes_at m p l → head l = Some c → m !! p = Some c.
Proof. intros Hb Hh. destruct l; [done|]. injection Hh as ->. by apply bytes_at_cons in Hb as (_ & ? & _). Qed.

(** The machine just after a percent sign. *)
Definition begun s : pst :=
  {| s_q := s_q s; s_o := s_o s; s_state := st_flags; s_flags := 0;
     s_rank := rank_int; s_width := 0; s_prec := -1; s_ap := s_ap s |}.

(** From the percent sign to the end of the flags. *)
Lemma goes_start d p s m :
  wf_item (Dir d) → s_state s = st_normal → bytes_at m p (directive_chars d) →
  goes (1 + (length (d_flags d) + 1)) (p, s) m
    (p + 1 + Z.of_nat (length (d_flags d)),
     to_state st_width (set_flags (flag_bits (d_flags d)) (begun s))) m.
Proof.
  intros Hwf Hs Hb. pose proof (after_flags_head d Hwf) as (c1 & Hh1 & Hc1 & Hnf).
  destruct Hwf as (Hfl & _). unfold directive_chars in Hb.
  apply bytes_at_cons in Hb as (_ & Hp & Hb). apply bytes_at_app in Hb as [Hb1 Hb].
  apply (goes_trans _ _ _ _ (p + 1, begun s) m).
  { apply (goes_ascii p s m 37 true); [done|lia|]. unfold pstep_of. by rewrite Hs. }
  eapply goes_trans; [by apply (goes_flags (d_flags d) (p + 1) (begun s) m)|].
  rewrite foldl_add_flag. apply (goes_ascii _ _ m c1 false);
    [by eapply bytes_at_head|done|]. by apply not_flag_step.
Qed.

Lemma goes_directive str d p s m t ap :
  wf_item (Dir d) → s_state s = st_normal → bytes_at m p (directive_chars d) →
  valid m (s_q s) (n - s_o s) → strings_readable m (s_q s) (n - s_o s) str →
  directive_text str d (s_ap s) = Some (t, ap) →
  ∃ s' m', goes (length (directive_chars d) + 2) (p, s) m
    (p + Z.of_nat (length (directive_chars d)), s') m' ∧ outputs m s t ap s' m'.
Proof.
  intros Hwf Hs Hb Hv Hstr Ht. pose proof (goes_start d p s m Hwf Hs Hb) as G1.
  destruct Hwf as (Hfl & Hw & Hpc & Hmods & Hconv).
  destruct (late_head d Hmods Hconv) as (c2 & Hh2 & Hc2). unfold directive_text in Ht.
  destruct (eval_width _ _ _) as [[[w f] ap1]|] eqn:Ew; [|done]. cbn in Ht.
  destruct (eval_prec _ _) as [[prec ap2]|] eqn:Ep; [|done]. cbn in Ht.
  unfold directive_chars in *. apply bytes_at_cons in Hb as (_ & _ & Hb).
  apply bytes_at_app in Hb as [_ Hb]. apply bytes_at_app in Hb as [Hb2 Hb].
  assert (bytes_at m (p + 1 + Z.of_nat (length (d_flags d)) +
    Z.of_nat (length (count_chars (d_width d)))) (prec_chars (d_prec d) ++ [c2])) as Hb3.
  { apply bytes_at_app in Hb as [H3 H4]. apply bytes_at_app. split; [done|].
    destruct (d_mods d ++ [d_conv d]) as [|x l]; [done|]. injection Hh2 as ->.
    apply bytes_at_cons in H4 as (? & ? & _). by apply bytes_at_cons. }
  apply bytes_at_app in Hb as [_ Hb]. apply bytes_at_app in Hb as [Hb4 Hb5].
  apply bytes_at_cons in Hb5 as (_ & Hb5 & _).
  pose proof (goes_width (d_width d) _
    (to_state st_width (set_flags (flag_bits (d_flags d)) (begun s))) m w f ap1
    eq_refl eq_refl Hw Ew Hb2) as G2.
  set (s4 := set_width w (set_flags f (set_ap ap1 _))) in G2.
  pose proof (goes_prec (d_prec d) _ s4 m c2 prec ap2 eq_refl eq_refl Hpc Ep Hb3 Hc2) as G3.
  set (s5 := to_state st_modifiers (set_prec prec (set_ap ap2 s4))) in G3.
  pose proof (goes_mods (d_mods d) _ s5 m Hmods eq_refl Hb4) as G4. rewrite foldl_add_mod in G4.
  set (s6 := set_rank (foldl mod_rank (s_rank s5) (d_mods d)) s5) in G4.
  pose proof (eval_prec_range _ _ _ _ Hpc Ep) as Hprec.
  assert (∃ a, (d_conv d = 37 ∧ t = [37] ∧ ap = s_ap s6) ∨
    (d_conv d ≠ 37 ∧ s_ap s6 = a :: ap ∧ conv_text str (d_conv d) (s_flags s6)
      (clamp_rank (s_rank s6)) (s_width s6) (s_prec s6) a = Some t)) as [a Hcase].
  { destruct (Z.eqb_spec (d_conv d) 37) as [E|E].
    - injection Ht as <- <-. exists 0. by left.
    - destruct ap2 as [|a ap2']; [done|]. cbn in Ht. exists a. right.
      destruct (conv_text _ _ _ _ _ _ _) eqn:Ec in Ht; [|done]. by injection Ht as -> ->. }
  destruct (goes_conv str _ s6 m (d_conv d) t ap a Hb5 Hconv eq_refl Hprec Hv Hstr Hcase)
    as (s' & m' & G5 & Hout). exists s', m'. split; [|done].
  pose proof (goes_trans _ _ _ _ _ _ _ _ G1 (goes_trans _ _ _ _ _ _ _ _ G2
    (goes_trans _ _ _ _ _ _ _ _ G3 (goes_trans _ _ _ _ _ _ _ _ G4 G5)))) as G.
  cbn [length]. rewrite !length_app. cbn [length].
  match type of G with goes ?k _ _ (?q, _) _ => match goal with |- goes ?k' _ _ (?q', _) _ =>
    replace k' with k by lia; replace q' with q by lia end end. exact G.
Qed.
End machine.

(** ** Whole formats *)

Section format.
Context (m0 : mem) (buffer n : Z) (str : Z → option (list Z)).
Hypothesis Hn : 0 ≤ n.
Hypothesis Hbuf : valid m0 buffer n.
Hypothesis Hstr : strings_ok m0 buffer n str.
Implicit Types (m : mem) (s : pst) (out : list Z).

(** The machine is in the ground state and [out] has been output. *)
Definition ground out s m : Prop :=
  s_state s = st_normal ∧ appended m0 buffer 0 n out (s_q s) (s_o s) m.

Lemma ground_outside out s m : ground out s m → same_outside buffer n m0 m.
Proof.
  intros [_ H]. apply appended_outside in H. by rewrite Z.sub_0_r in H.
Qed.

Lemma ground_valid out s m : ground out s m → valid m (s_q s) (n - s_o s).
Proof. intros [_ H]. eapply appended_valid; [exact H|]. by rewrite Z.sub_0_r. Qed.

Lemma outside_bytes m p l :
  same_outside buffer n m0 m → disjoint_ranges buffer n p (Z.of_nat (length l)) →
  bytes_at m0 p l → bytes_at m p l.
Proof.
  intros Hm Hd Hl. apply (bytes_at_ext m0); [done|]. intros a Ha. apply Hm.
  unfold disjoint_ranges in Hd. lia.
Qed.

Lemma ground_strings out s m :
  ground out s m → strings_readable m (s_q s) (n - s_o s) str.
Proof.
  intros Hg p t Ht. destruct (Hstr p t Ht) as (Hcs & Hd & Hlen).
  assert (∀ m', same_outside buffer n m0 m' → cstr m' p t) as Hany.
  { intros m' Hm'. apply (cstr_ext m0); [done|]. intros a Ha. apply Hm'.
    unfold disjoint_ranges in Hd. lia. }
  split_and!; [by eapply Hany, ground_outside| |done].
  intros m' j c Hm' Hj. destruct Hg as [_ Happ].
  pose proof (appended_inside _ _ _ _ _ _ _ _ _ Happ Hm') as Hm0. rewrite Z.sub_0_r in Hm0.
  apply Hany, cstr_bytes in Hm0. destruct Hm0 as [Hb Hl].
  exists (s8 c). unfold sarg_char. rewrite Z.add_0_l. rewrite (run_loadc _ _ c) by (by apply Hl).
  rewrite Forall_lookup in Hb. by rewrite u8_s8, u8_byte by (by eapply Hb).
Qed.

Lemma outputs_ground out s m t ap s' m' :
  ground out s m → outputs n m s t ap s' m' → ground (out ++ t) s' m' ∧ s_ap s' = ap.
Proof.
  intros [_ H1] (Hst & Hap & H2). split; [|done]. split; [done|]. by eapply appended_trans.
Qed.

Lemma goes_literal c p s m out :
  ground out s m → m !! p = Some c → 0 < c < 256 → c ≠ 37 →
  ∃ s' m', goes n 1 (p, s) m (p + 1, s') m' ∧ ground (out ++ [c]) s' m' ∧ s_ap s' = s_ap s.
Proof.
  intros Hg Hp Hc Hne.
  destruct (run_EMIT m (s_q s) (s_o s) n (s8 c) (ground_valid _ _ _ Hg)) as (q' & m' & Hrun & Happ).
  rewrite u8_s8, u8_byte in Happ by auto.
  exists (set_out q' (s_o s + 1) s), m'. destruct Hg as [Hst H0]. split_and!.
  - apply (goes_char n p s m c true); [done|done|]. unfold pstep_of, step_normal. rewrite Hst.
    rewrite s8_const by (auto || lia). ctest. by rewrite (run_bind_Ret _ _ _ _ _ Hrun).
  - split; [done|]. by eapply appended_trans.
  - done.
Qed.

Lemma goes_items f p s m out t :
  Forall wf_item f → ground out s m → bytes_at m0 p (format_chars f) →
  disjoint_ranges buffer n p (Z.of_nat (length (format_chars f))) →
  render str f (s_ap s) = Some t →
  ∃ k s' m', (k ≤ 3 * length (format_chars f))%nat ∧
  goes n k (p, s) m (p + Z.of_nat (length (format_chars f)), s') m' ∧ ground (out ++ t) s' m'.
Proof.
  intros Hwf. revert p s m out t. induction Hwf as [|i f Hi Hwf IH]; intros p s m out t Hg Hb Hd Ht.
  { injection Ht as <-. exists 0%nat, s, m. cbn [length]. rewrite Z.add_0_r, app_nil_r.
    split_and!; [lia|apply goes_refl|apply Hg]. }
  change (format_chars (i :: f)) with (item_chars i ++ format_chars f) in *.
  rewrite length_app, Nat2Z.inj_add in *. apply bytes_at_app in Hb as [Hbi Hbf].
  assert (bytes_at m p (item_chars i)) as Hbm.
  { apply outside_bytes; [by eapply ground_outside| |done]. unfold disjoint_ranges in *. lia. }
  assert (∃ k1 s1 m1 t1 t2, (k1 ≤ 3 * length (item_chars i))%nat ∧
    goes n k1 (p, s) m (p + Z.of_nat (length (item_chars i)), s1) m1 ∧
    ground (out ++ t1) s1 m1 ∧ render str f (s_ap s1) = Some t2 ∧ t = t1 ++ t2)
    as (k1 & s1 & m1 & t1 & t2 & Hk1 & G1 & Hg1 & Ht2 & ->).
  { destruct i as [c|d]; simpl in Ht.
    - destruct (render str f (s_ap s)) as [t2|] eqn:E; [|done]. injection Ht as <-.
      destruct Hi as [Hc Hne]. apply bytes_at_cons in Hbm as (_ & Hp & _).
      destruct (goes_literal c p s m out Hg Hp Hc Hne) as (s1 & m1 & G1 & Hg1 & Hap).
      exists 1%nat, s1, m1, [c], t2. rewrite Hap. split_and!; try done; simpl; lia.
    - destruct (directive_text str d (s_ap s)) as [[t1 ap]|] eqn:E; [|done]. cbn in Ht.
      destruct (render str f ap) as [t2|] eqn:E2; [|done]. injection Ht as <-.
      destruct (goes_directive n str d p s m t1 ap Hi (proj1 Hg) Hbm (ground_valid _ _ _ Hg)
        (ground_strings _ _ _ Hg) E) as (s1 & m1 & G1 & Hout).
      destruct (outputs_ground _ _ _ _ _ _ _ Hg Hout) as [Hg1 <-].
      exists (length (directive_chars d) + 2)%nat, s1, m1, t1, t2.
      split_and!; try done; simpl; lia. }
  destruct (IH _ s1 m1 (out ++ t1) t2 Hg1 Hbf) as (k2 & s2 & m2 & Hk2 & G2 & Hg2);
    [unfold disjoint_ranges in *; lia|done|].
  exists (k1 + k2)%nat, s2, m2. rewrite app_assoc. split_and!; [lia| |exact Hg2].
  rewrite Z.add_assoc. by eapply goes_trans.
Qed.

(** The final memory: the text cut at the buffer, and its terminator. *)
Definition buffer_after (out : list Z) : mem :=
  if bool_decide (n = 0) then m0 else write_bytes m0 buffer (take (Z.to_nat (n - 1)) out ++ [0]).

Lemma run_terminate out s m :
  ground out s m →
  (if s_o s <? n then store8 (s_q s) 0
   else if 0 <? n then store8 (buffer + n - 1) 0 else mret tt) m = Ret tt (buffer_after out).
Proof.
  intros [_ (Ho & -> & Hq)]. rewrite Z.add_0_l in Ho. unfold wt, buffer_after. rewrite Z.sub_0_r.
  assert (∀ i, 0 ≤ i < n → is_Some (write_bytes m0 buffer (take (Z.to_nat n) out) !! (buffer + i)))
    as Hval by (intros i Hi; by apply (write_bytes_valid _ _ _ _ _ Hbuf)).
  destruct (Z.ltb_spec (s_o s) n) as [Hlt|Hge].
  - rewrite Hq by done. rewrite run_store8 by (apply Hval; lia). rewrite bool_decide_eq_false_2 by lia.
    by rewrite !take_ge, write_bytes_snoc by lia.
  - destruct (Z.ltb_spec 0 n); [|].
    + rewrite run_store8 by (rewrite <-Z.add_sub_assoc; apply Hval; lia).
      rewrite bool_decide_eq_false_2, write_bytes_snoc, length_take by lia.
      rewrite Nat.min_l by lia. f_equal.
      replace (Z.to_nat n) with (S (Z.to_nat (n - 1))) by lia.
      destruct (lookup_lt_is_Some_2 out (Z.to_nat (n - 1))) as [c Hc]; [lia|].
      rewrite (take_S_r _ _ c), write_bytes_snoc, length_take, Nat.min_l by (done || lia).
      replace (buffer + Z.of_nat (Z.to_nat (n - 1))) with (buffer + n - 1) by lia.
      by rewrite insert_insert_eq.
    + rewrite bool_decide_eq_true_2 by lia. by replace (Z.to_nat n) with 0%nat by lia.
Qed.

Lemma run_vsnprintf f format ap out :
  Forall wf_item f → cstr m0 format (format_chars f) →
  disjoint_ranges buffer n format (Z.of_nat (length (format_chars f)) + 1) →
  render str f ap = Some out →
  vsnprintf buffer n format ap m0 = Ret (s32 (Z.of_nat (length out))) (buffer_after out).
Proof.
  intros Hwf Hf Hd Hr. unfold vsnprintf. cbn zeta.
  set (s0 := {| s_q := buffer; s_o := 0; s_state := st_normal; s_flags := 0; s_rank := rank_int;
    s_width := 0; s_prec := -1; s_ap := ap |}).
  destruct (goes_items f format s0 m0 [] out Hwf) as (k & s & m & Hk & G & Hg).
  { split; [done|]. apply appended_nil. }
  { by apply cstr_bytes. }
  { unfold disjoint_ranges in *. lia. }
  { done. }
  simpl app in Hg. apply cstr_size in Hf as Hsz.
  assert (m !! (format + Z.of_nat (length (format_chars f))) = Some 0) as Hnul.
  { rewrite (ground_outside _ _ _ Hg); [by apply cstr_nul|]. unfold disjoint_ranges in Hd. lia. }
  rewrite run_bind, run_scan_fuel. fold (machine n).
  replace (4 * S (size m0))%nat with (k + S (4 * S (size m0) - k - 1))%nat by lia.
  rewrite G, run_loop. unfold machine at 1. rewrite run_bind, (run_loadc _ _ _ Hnul).
  cbn beta iota. rewrite s8_nul. cbn iota. rewrite run_ret. cbn beta iota.
  rewrite (run_bind_Ret _ _ _ _ _ (run_terminate _ _ _ Hg)), run_ret.
  destruct Hg as [_ (-> & _)]. by rewrite Z.add_0_l.
Qed.
End format.

(** ** The digits denote the value *)

Section value.
Implicit Types (val flags base prec : Z).

(** The digits alone, from right to left. *)
Fixpoint plain (digits : list Z) (base : Z) (k : nat) (val : Z) : list Z :=
  match k with
  | O => []
  | S k => default 0 (digits !! Z.to_nat (val mod base)) :: plain digits base k (val / base)
  end.

Lemma digit_char flags base r :
  base = 8 ∨ base = 10 ∨ base = 16 → 0 ≤ r < base →
  let c := default 0 (digit_chars flags !! Z.to_nat r) in
  digitval c = r ∧ c ≠ 95 ∧ 0 < c < 128.
Proof.
  intros Hb Hr. assert (0 ≤ r < 16) as Hr' by lia. clear Hb Hr.
  set (test (l : list Z) (r : Z) := let c := default 0 (l !! Z.to_nat r) in
    (digitval c =? r) && negb (c =? 95) && (0 <? c) && (c <? 128)).
  assert (test (digit_chars flags) r = true) as H.
  { assert (forallb (test (digit_chars flags)) (seqZ 0 16) = true) as Hl
      by (unfold digit_chars; by destruct (fl flags FL_UPPER)).
    rewrite forallb_forall in Hl. apply Hl, list_elem_of_In, elem_of_seqZ. lia. }
  unfold test in H. cbn zeta in *.
  rewrite !andb_true_iff, negb_true_iff, Z.eqb_eq, Z.eqb_neq, !Z.ltb_lt in H. tauto.
Qed.

Lemma filter_ticked flags base ts k b4 val :
  base = 8 ∨ base = 10 ∨ base = 16 →
  filter (λ c, c ≠ 95) (ticked (digit_chars flags) base ts k b4 val) =
  plain (digit_chars flags) base k val.
Proof.
  intros Hb. revert b4 val. induction k as [|k IH]; intros b4 val; [done|]. cbn [ticked plain].
  destruct (digit_char flags base (val mod base) Hb) as (_ & Hc & _);
    [apply Z.mod_pos_bound; lia|].
  destruct (b4 =? 0).
  - rewrite filter_cons, decide_False, filter_cons, decide_True by (done || tauto). by rewrite IH.
  - rewrite filter_cons, decide_True by done. by rewrite IH.
Qed.

Lemma plain_length digits base k val : length (plain digits base k val) = k.
Proof. revert val. induction k as [|k IH]; intros val; [done|]. cbn [plain length]. by rewrite IH. Qed.

Lemma plain_value flags base k val :
  base = 8 ∨ base = 10 ∨ base = 16 → 0 ≤ val →
  digits_value base (reverse (plain (digit_chars flags) base k val)) = val mod base ^ Z.of_nat k ∧
  Forall (λ c, is_digit_of base c ∧ 0 < c < 128) (plain (digit_chars flags) base k val).
Proof.
  intros Hb. revert val. induction k as [|k IH]; intros val Hv; cbn [plain].
  { split; [|constructor]. by rewrite Z.mod_1_r. }
  destruct (digit_char flags base (val mod base) Hb) as (Hd & _ & Hc);
    [apply Z.mod_pos_bound; lia|].
  destruct (IH (val / base)) as [IH1 IH2]; [apply Z.div_pos; lia|]. split.
  - rewrite reverse_cons, digits_value_snoc, IH1, Hd.
    rewrite Nat2Z.inj_succ, Z.pow_succ_r, Z.rem_mul_r by lia. lia.
  - constructor; [|done]. unfold is_digit_of. rewrite Hd.
    pose proof (Z.mod_pos_bound val base). lia.
Qed.

Lemma digit_count_bound fuel base v :
  2 ≤ base → 0 ≤ v < 2 ^ Z.of_nat fuel → v < base ^ Z.of_nat (digit_count fuel base v).
Proof.
  intros Hb. revert v. induction fuel as [|fuel IH]; intros v Hv.
  { simpl in *. lia. }
  cbn [digit_count]. destruct (Z.eqb_spec v 0) as [->|Hne]; [simpl; lia|].
  rewrite Nat2Z.inj_succ, Z.pow_succ_r in Hv |- * by lia.
  assert (v / base < base ^ Z.of_nat (digit_count fuel base (v / base))) as H.
  { apply IH. split; [apply Z.div_pos; lia|]. apply Z.div_lt_upper_bound; nia. }
  pose proof (Z.div_mod v base ltac:(lia)). pose proof (Z.mod_pos_bound v base ltac:(lia)). nia.
Qed.

Lemma int_digits_enough val flags base prec :
  (digit_count 64 base (magnitude val flags) ≤ int_digits val flags base prec)%nat.
Proof.
  unfold int_digits. cbn zeta.
  set (nd := digit_count 64 base (magnitude val flags)).
  assert (magnitude val flags = 0 → nd = 0%nat) as Hz by (unfold nd; by intros ->).
  destruct (fl flags FL_HASH && (base =? 8)).
  - rewrite (proj2 (Z.ltb_lt _ _)) by lia. lia.
  - destruct (Z.ltb_spec (Z.of_nat nd) prec); [lia|].
    destruct (Z.eqb_spec (magnitude val flags) 0); [rewrite Hz by done|]; lia.
Qed.

Lemma int_body_value val flags base prec :
  base = 8 ∨ base = 10 ∨ base = 16 → 0 ≤ val < 2 ^ 64 →
  (fl flags FL_SIGNED = true → s64 val ≠ - 2 ^ 63) →
  let ds := filter (λ c, c ≠ 95) (int_body val flags base prec) in
  length ds = int_digits val flags base prec ∧
  Forall (λ c, is_digit_of base c ∧ 0 < c < 128) ds ∧
  digits_value base ds = magnitude val flags.
Proof.
  intros Hb Hval Hmin ds. destruct (run_minus ∅ val flags Hval Hmin) as [_ Hmag].
  assert (ds = reverse (plain (digit_chars flags) base (int_digits val flags base prec)
    (magnitude val flags))) as ->.
  { unfold ds, int_body. by rewrite filter_reverse, filter_ticked. }
  destruct (plain_value flags base (int_digits val flags base prec) (magnitude val flags) Hb)
    as [Hv Hf]; [lia|]. split_and!.
  - by rewrite length_reverse, plain_length.
  - by apply Forall_reverse.
  - rewrite Hv, Z.mod_small; [done|]. split; [lia|].
    eapply Z.lt_le_trans; [apply (digit_count_bound 64 base); [lia|done]|].
    apply Z.pow_le_mono_r; [lia|]. pose proof (int_digits_enough val flags base prec). lia.
Qed.
End value.

(** ** Theorems *)

(** C8: vsnprintf terminates on every well-formed format whose directives are
    defined, parses flags, width, precision, length modifiers and conversion of
    every directive, and leaves in the buffer the first n-1 characters of the
    text the format denotes, then a NUL, writing nowhere else and nothing at all
    when n is 0; the result is the length of the whole text. *)
Theorem vsnprintf_renders m buffer n str f format ap out :
  0 ≤ n → valid m buffer n → strings_ok m buffer n str →
  Forall wf_item f → cstr m format (format_chars f) →
  disjoint_ranges buffer n format (Z.of_nat (length (format_chars f)) + 1) →
  render str f ap = Some out → Z.of_nat (length out) < 2 ^ 31 →
  vsnprintf buffer n format ap m =
  Ret (Z.of_nat (length out))
      (if bool_decide (n = 0) then m
       else write_bytes m buffer (take (Z.to_nat (n - 1)) out ++ [0])).
Proof.
  intros Hn Hv Hs Hwf Hf Hd Hr Hlen.
  rewrite (run_vsnprintf m buffer n str Hn Hv Hs f format ap out) by done.
  rewrite sext_small by lia. done.
Qed.

(** The format "%-4d|%s" and its argument string "hi". *)
Definition sample_items : list item :=
  [Dir {| d_flags := [45]; d_width := CLit [52]; d_prec := None; d_mods := []; d_conv := 100 |};
   Lit 124;
   Dir {| d_flags := []; d_width := CNone; d_prec := None; d_mods := []; d_conv := 115 |}].

Definition sample_mem : mem :=
  write_bytes (write_bytes (write_bytes ∅ 100 (format_chars sample_items ++ [0])) 200 [104; 105; 0])
    300 (replicate 6 63).

Lemma vsnprintf_renders_witness :
  vsnprintf 300 6 100 [-7; 200] sample_mem =
  Ret 7 (write_bytes sample_mem 300 [45; 55; 32; 32; 124; 0]).
Proof.
  apply (vsnprintf_renders sample_mem 300 6 (λ p, if p =? 200 then Some [104; 105] else None)
    sample_items 100 [-7; 200] [45; 55; 32; 32; 124; 104; 105]).
  - lia.
  - by_decide.
  - intros p t Hp. destruct (Z.eqb_spec p 200) as [->|]; [|done]. injection Hp as <-.
    split_and!; [by_decide|by_decide|by vm_compute].
  - repeat constructor; simpl; try by_decide; by vm_compute.
  - by_decide.
  - by_decide.
  - by vm_compute.
  - by vm_compute.
Defined.

Lemma int_signed_value val flags base prec :
  base = 8 ∨ base = 10 ∨ base = 16 → 0 ≤ val < 2 ^ 64 →
  (fl flags FL_SIGNED = true → s64 val ≠ - 2 ^ 63) →
  let ds := filter (λ c, c ≠ 95) (int_body val flags base prec) in
  u64 (if bool_decide (int_sign val flags = [45])
       then - digits_value base ds else digits_value base ds) = val.
Proof.
  intros Hb Hval Hmin ds.
  destruct (int_body_value val flags base prec Hb Hval Hmin) as (_ & _ & H3). fold ds in H3.
  rewrite H3. unfold int_sign, magnitude. destruct (is_minus val flags) eqn:Em.
  - rewrite bool_decide_eq_true_2 by done. rewrite Z.opp_involutive. unfold wrap, sext.
    rewrite Zminus_mod_idemp_l. replace (val + 2 ^ (64 - 1) - 2 ^ (64 - 1)) with val by lia.
    by apply Z.mod_small.
  - rewrite bool_decide_eq_false_2 by (by destruct (fl flags FL_PLUS), (fl flags FL_SPACE)).
    by apply wrap_small.
Qed.

(** The digits of an integer conversion denote the value: with the
    thousands marks left out, the body is exactly the computed number of digits
    of the base, and read in that base it is the absolute value of the argument;
    the sign is there exactly for a negative argument of a signed conversion. *)
Theorem int_conversion_value val flags base prec :
  base = 8 ∨ base = 10 ∨ base = 16 → 0 ≤ val < 2 ^ 64 →
  (fl flags FL_SIGNED = true → s64 val ≠ - 2 ^ 63) →
  let ds := filter (λ c, c ≠ 95) (int_body val flags base prec) in
  length ds = int_digits val flags base prec ∧
  Forall (is_digit_of base) ds ∧
  u64 (if bool_decide (int_sign val flags = [45])
       then - digits_value base ds else digits_value base ds) = val.
Proof.
  intros Hb Hval Hmin ds.
  destruct (int_body_value val flags base prec Hb Hval Hmin) as (H1 & H2 & _). fold ds in H1, H2.
  split_and!; [done|by eapply Forall_impl; [exact H2|]; intros ? [? _]|].
  by apply int_signed_value.
Qed.

Lemma int_conversion_value_witness :
  digits_value 16 (filter (λ c, c ≠ 95) (int_body 305419896 FL_TICK 16 (-1))) = 305419896.
Proof.
  destruct (int_conversion_value 305419896 FL_TICK 16 (-1)) as (_ & _ & H).
  - auto.
  - lia.
  - done.
  - exact H.
Defined.

Section roundtrip.
Implicit Types (m : mem) (val flags base : Z).

Lemma ticked_no_mark digits base ts k b4 val :
  Z.of_nat k ≤ b4 → ticked digits base ts k b4 val = plain digits base k val.
Proof.
  revert b4 val. induction k as [|k IH]; intros b4 val Hk; [done|]. cbn [ticked plain].
  ctest. by rewrite IH by lia.
Qed.

(** The text without marks, width or prefix: a sign and the digits. *)
Definition plain_flags flags : Prop := flags = FL_SIGNED ∨ flags = FL_ZERO ∨ flags = 0.

Lemma int_text_plain val flags base :
  base = 8 ∨ base = 10 ∨ base = 16 → plain_flags flags →
  let ds := int_body val flags base (-1) in
  int_text val flags base 0 (-1) = int_sign val flags ++ ds ∧
  filter (λ c, c ≠ 95) ds = ds ∧ (0 < length ds ≤ 64)%nat ∧
  (int_sign val flags = [] ∨ int_sign val flags = [45]).
Proof.
  intros Hb Hf ds.
  assert (fl flags FL_TICK = false ∧ fl flags FL_HASH = false ∧ fl flags FL_MINUS = false ∧
    fl flags FL_PLUS = false ∧ fl flags FL_SPACE = false) as (Ht & Hh & Hm & Hp & Hs)
    by (by destruct Hf as [->|[->| ->]]).
  assert (ds = reverse (plain (digit_chars flags) base (int_digits val flags base (-1))
    (magnitude val flags))) as Ed.
  { unfold ds, int_body, tick_skip. rewrite Ht. by rewrite ticked_no_mark by lia. }
  assert (filter (λ c, c ≠ 95) ds = ds) as Efilter.
  { rewrite Ed at 2. unfold ds, int_body. by rewrite filter_reverse, filter_ticked. }
  assert (length ds = int_digits val flags base (-1)) as El
    by (by rewrite Ed, length_reverse, plain_length).
  split_and!; [|done| | |].
  - unfold int_text, int_padding, int_radix. rewrite Hm, Hh. fold ds. cbn [andb app].
    replace (Z.to_nat (0 - Z.of_nat (length (int_sign val flags ++ ds)))) with 0%nat by lia.
    by destruct (fl flags FL_ZERO).
  - rewrite El. apply int_digits_pos.
  - rewrite El. unfold int_digits. rewrite Hh. cbn [andb]. cbn zeta.
    pose proof (digit_count_le 64 base (magnitude val flags)).
    rewrite (proj2 (Z.ltb_ge _ (-1))) by lia. case_match; lia.
  - unfold int_sign. rewrite Hp, Hs. destruct (is_minus val flags); auto.
Qed.

Lemma plain_number_text base sgn ds :
  base = 8 ∨ base = 10 ∨ base = 16 → sgn = [] ∨ sgn = [45] → ds ≠ [] →
  Forall (λ c, is_digit_of base c ∧ 0 < c < 128) ds →
  number_text base base 0 [] sgn [] ds [].
Proof.
  intros Hb Hs Hne Hds. assert (Forall (is_digit_of base) ds) as Hd
    by (eapply Forall_impl; [exact Hds|]; by intros ? [? _]).
  split; try done; [destruct Hs as [->| ->]; auto| |].
  - intros _. destruct ds as [|c ds]; [done|]. simpl.
    apply Forall_cons in Hds as [[Hc1 Hc2] _].
    assert (is_digit_of 16 c) as Hc by (unfold is_digit_of in *; lia).
    intros H. unfold is_digit_of in Hc.
    assert (negb ((0 <=? digitval c) && (digitval c <? 16)) ||
      negb (table_space c || (c =? 43) || (c =? 45)) = true) as Ht.
    { apply (byte_forall (λ c, negb ((0 <=? digitval c) && (digitval c <? 16)) ||
        negb (table_space c || (c =? 43) || (c =? 45)))); [by vm_compute|].
      unfold is_byte. lia. }
    rewrite (proj2 (Z.leb_le _ _)), (proj2 (Z.ltb_lt _ _)) in Ht by lia. simpl in Ht.
    apply negb_true_iff in Ht. rewrite !orb_false_iff, !Z.eqb_neq in Ht. intuition congruence.
  - cbn [app]. rewrite app_nil_r. destruct (decide (base = 16)) as [->|].
    + apply radix_hex_plain. intros x s' ->. apply Forall_cons in Hds as [_ Hds].
      apply Forall_cons in Hds as [[Hx _] _].
      split; intros ->; vm_compute in Hx; destruct Hx; congruence.
    + apply radix_given; lia.
Qed.

(** Format_int2 followed by strntoumax is the identity: for a buffer of at
    least 66 bytes the number is written as a string with its terminator, and
    reading it back in the same base gives the value, with the end pointer at
    the terminator. *)
Theorem format_int2_roundtrip m q n val base sgn :
  base = 8 ∨ base = 10 ∨ base = 16 → 0 ≤ val < 2 ^ 64 → (sgn ≠ 0 → s64 val ≠ - 2 ^ 63) →
  66 ≤ n → valid m q n →
  ∃ t m', format_int2 q n val base sgn m = Ret tt m' ∧
  m' = write_bytes m q (t ++ [0]) ∧ (length t ≤ 65)%nat ∧ cstr m' q t ∧
  strntoumax q base ULONG_MAX m' = Ret (val, q + Z.of_nat (length t)) m'.
Proof.
  intros Hb Hval Hmin Hn Hv. unfold format_int2.
  set (flags := if sgn =? 0 then FL_ZERO else FL_SIGNED).
  assert (plain_flags flags) as Hpf
    by (unfold flags, plain_flags; destruct (sgn =? 0); auto).
  assert (fl flags FL_SIGNED = true → s64 val ≠ - 2 ^ 63) as Hmin'.
  { unfold flags. destruct (Z.eqb_spec sgn 0); [done|auto]. }
  destruct (int_text_plain val flags base Hb Hpf) as (Et & Ef & Hl & Hsg).
  destruct (int_body_value val flags base (-1) Hb Hval Hmin') as (_ & Hds & Hv2).
  pose proof (int_signed_value val flags base (-1) Hb Hval Hmin') as Hval2. cbn zeta in *.
  rewrite Ef in *. set (ds := int_body val flags base (-1)) in *.
  assert (length (int_sign val flags) ≤ 1)%nat by (destruct Hsg as [->| ->]; simpl; lia).
  set (t := int_sign val flags ++ ds) in *.
  assert (length t ≤ 65)%nat by (unfold t; rewrite length_app; lia).
  assert (Forall (λ b, 0 < b < 256) t) as Hbytes.
  { apply Forall_app. split; [destruct Hsg as [->| ->]; repeat constructor|].
    eapply Forall_impl; [exact Hds|]. intros c [_ ?]. lia. }
  exists t, (write_bytes m q (t ++ [0])). split_and!; [|done|done|by apply cstr_write|].
  - rewrite run_bind, run_format_int by (done || lia). rewrite Et. cbn beta iota.
    rewrite take_ge, write_bytes_snoc by lia. apply run_store8.
    apply (write_bytes_valid _ _ _ _ _ Hv). lia.
  - assert (cstr (write_bytes m q (t ++ [0])) q t) as Hc by (by apply cstr_write).
    rewrite (run_strntoumax _ _ _ base 0 [] (int_sign val flags) [] ds []).
    + cbn [app]. unfold number_value. by rewrite Hval2.
    + apply plain_number_text; [done|done| |done]. intros E. rewrite E in Hl. simpl in Hl. lia.
    + cbn [app]. rewrite app_nil_r. apply cstr_text_all; [done|]. fold t. unfold ULONG_MAX. lia.
Qed.

Lemma format_int2_roundtrip_witness :
  ∃ (t : list Z) m', format_int2 100 70 255 16 0 (write_bytes ∅ 100 (replicate 70 63)) = Ret tt m' ∧
  strntoumax 100 16 ULONG_MAX m' = Ret (255, 100 + Z.of_nat (length t)) m'.
Proof.
  destruct (format_int2_roundtrip (write_bytes ∅ 100 (replicate 70 63)) 100 70 255 16 0)
    as (t & m' & H1 & _ & _ & _ & H2).
  - auto.
  - lia.
  - lia.
  - lia.
  - by_decide.
  - exists t, m'. exact (conj H1 H2).
Defined.
End roundtrip.
