(* ===== verification/Scanf.v ===== *)
(** * Formatted input: [vsscanf.c]

    The state machine of [vsscanf] with its variables as in the source; the
    arguments are the pointers the values are stored through.  With
    [KLIBC_STREAMS_ORIG] undefined, as [poet.h] has it, the function fails an
    assertion at once ([None]); the machine is the code after it. *)

From stdpp Require Import base tactics numbers list gmap.
From S2P Require Import Prelude Memory MemFns Ctype StrFns Numbers Words Printf PrintfSpec.

Open Scope Z_scope.

Definition FL_SPLAT : Z := 1.
Definition FL_INV : Z := 2.
Definition FL_WIDTH : Z := 4.

Definition rank_ptr : Z := 2 ^ 31 - 1.
Definition UINT_MAX : Z := 2 ^ 32 - 1.

Inductive bail := bail_none | bail_eof | bail_err.

Inductive scan_state :=
  | sc_normal | sc_flags | sc_width | sc_modifiers
  | sc_match_init | sc_match | sc_match_range.

Definition skipspace (p : Z) : C mem Z :=
  scan_fuel (λ fuel, loop fuel (λ p,
    c ← loadc p;
    sp ← isspace (u8 c);
    if sp =? 0 then Break p else Next (p + 1)) p).

(** ** The match map *)

Definition set_bit (bitmap : list Z) (bit : Z) : list Z :=
  alter (λ w, u64 (Z.lor w (Z.shiftl 1 (bit mod 64)))) (Z.to_nat (bit / 64)) bitmap.

Definition test_bit (bitmap : list Z) (bit : Z) : Z :=
  Z.land (Z.shiftr (default 0 (bitmap !! Z.to_nat (bit / 64))) (bit mod 64)) 1.

(** ** The machine *)

Record sst := {
  c_q : Z; c_ap : list Z; c_state : scan_state;
  c_flags : Z; c_rank : Z; c_width : Z;
  c_sarg : Z; c_bail : bail; c_converted : Z;
  c_matchmap : list Z; c_matchinv : Z; c_range_start : Z;
}.

Definition with_q (q : Z) (s : sst) : sst :=
  {| c_q := q; c_ap := c_ap s; c_state := c_state s; c_flags := c_flags s; c_rank := c_rank s;
     c_width := c_width s; c_sarg := c_sarg s; c_bail := c_bail s; c_converted := c_converted s;
     c_matchmap := c_matchmap s; c_matchinv := c_matchinv s; c_range_start := c_range_start s |}.
Definition with_ap (ap : list Z) (s : sst) : sst :=
  {| c_q := c_q s; c_ap := ap; c_state := c_state s; c_flags := c_flags s; c_rank := c_rank s;
     c_width := c_width s; c_sarg := c_sarg s; c_bail := c_bail s; c_converted := c_converted s;
     c_matchmap := c_matchmap s; c_matchinv := c_matchinv s; c_range_start := c_range_start s |}.
Definition with_state (st : scan_state) (s : sst) : sst :=
  {| c_q := c_q s; c_ap := c_ap s; c_state := st; c_flags := c_flags s; c_rank := c_rank s;
     c_width := c_width s; c_sarg := c_sarg s; c_bail := c_bail s; c_converted := c_converted s;
     c_matchmap := c_matchmap s; c_matchinv := c_matchinv s; c_range_start := c_range_start s |}.
Definition with_flags (f : Z) (s : sst) : sst :=
  {| c_q := c_q s; c_ap := c_ap s; c_state := c_state s; c_flags := f; c_rank := c_rank s;
     c_width := c_width s; c_sarg := c_sarg s; c_bail := c_bail s; c_converted := c_converted s;
     c_matchmap := c_matchmap s; c_matchinv := c_matchinv s; c_range_start := c_range_start s |}.
Definition with_rank (r : Z) (s : sst) : sst :=
  {| c_q := c_q s; c_ap := c_ap s; c_state := c_state s; c_flags := c_flags s; c_rank := r;
     c_width := c_width s; c_sarg := c_sarg s; c_bail := c_bail s; c_converted := c_converted s;
     c_matchmap := c_matchmap s; c_matchinv := c_matchinv s; c_range_start := c_range_start s |}.
Definition with_width (w : Z) (s : sst) : sst :=
  {| c_q := c_q s; c_ap := c_ap s; c_state := c_state s; c_flags := c_flags s; c_rank := c_rank s;
     c_width := w; c_sarg := c_sarg s; c_bail := c_bail s; c_converted := c_converted s;
     c_matchmap := c_matchmap s; c_matchinv := c_matchinv s; c_range_start := c_range_start s |}.
Definition with_sarg (a : Z) (s : sst) : sst :=
  {| c_q := c_q s; c_ap := c_ap s; c_state := c_state s; c_flags := c_flags s; c_rank := c_rank s;
     c_width := c_width s; c_sarg := a; c_bail := c_bail s; c_converted := c_converted s;
     c_matchmap := c_matchmap s; c_matchinv := c_matchinv s; c_range_start := c_range_start s |}.
Definition with_bail (b : bail) (s : sst) : sst :=
  {| c_q := c_q s; c_ap := c_ap s; c_state := c_state s; c_flags := c_flags s; c_rank := c_rank s;
     c_width := c_width s; c_sarg := c_sarg s; c_bail := b; c_converted := c_converted s;
     c_matchmap := c_matchmap s; c_matchinv := c_matchinv s; c_range_start := c_range_start s |}.
Definition with_converted (n : Z) (s : sst) : sst :=
  {| c_q := c_q s; c_ap := c_ap s; c_state := c_state s; c_flags := c_flags s; c_rank := c_rank s;
     c_width := c_width s; c_sarg := c_sarg s; c_bail := c_bail s; c_converted := n;
     c_matchmap := c_matchmap s; c_matchinv := c_matchinv s; c_range_start := c_range_start s |}.
Definition with_match (bm : list Z) (inv : Z) (s : sst) : sst :=
  {| c_q := c_q s; c_ap := c_ap s; c_state := c_state s; c_flags := c_flags s; c_rank := c_rank s;
     c_width := c_width s; c_sarg := c_sarg s; c_bail := c_bail s; c_converted := c_converted s;
     c_matchmap := bm; c_matchinv := inv; c_range_start := c_range_start s |}.
Definition with_range_start (c : Z) (s : sst) : sst :=
  {| c_q := c_q s; c_ap := c_ap s; c_state := c_state s; c_flags := c_flags s; c_rank := c_rank s;
     c_width := c_width s; c_sarg := c_sarg s; c_bail := c_bail s; c_converted := c_converted s;
     c_matchmap := c_matchmap s; c_matchinv := c_matchinv s; c_range_start := c |}.

(** Whether the character is consumed ([false]: [p--]), and the new state. *)
Abbreviation sstep := (C mem (bool * sst)).

Definition scan_normal (ch : Z) (s : sst) : sstep :=
  if ch =? 37 then
    mret (true, with_state sc_flags (with_flags 0 (with_rank rank_int (with_width UINT_MAX s))))
  else
    sp ← isspace (u8 ch);
    if negb (sp =? 0) then
      q ← skipspace (c_q s); mret (true, with_q q s)
    else
      c ← loadc (c_q s);
      if c =? ch then mret (true, with_q (c_q s + 1) s)
      else mret (true, with_bail bail_err s).

Definition scan_flags (ch : Z) (s : sst) : sstep :=
  if ch =? 42 then mret (true, with_flags (Z.lor (c_flags s) FL_SPLAT) s)
  else if (48 <=? ch) && (ch <=? 57) then
    mret (true, with_width (u32 (ch - 48)) (with_state sc_width
                  (with_flags (Z.lor (c_flags s) FL_WIDTH) s)))
  else mret (false, with_state sc_modifiers s).

Definition scan_width (ch : Z) (s : sst) : sstep :=
  if (48 <=? ch) && (ch <=? 57) then
    mret (true, with_width (u32 (u32 (c_width s * 10) + (ch - 48))) s)
  else mret (false, with_state sc_modifiers s).

(** [set_integer]: the bytes of the object the next argument points to. *)
Definition scan_bytes (rank : Z) : nat := if rank =? rank_ptr then 8 else rank_bytes rank.

Definition set_integer (val rank : Z) (s : sst) : C mem sst :=
  if fl (c_flags s) FL_SPLAT then mret s else
  '(a, ap) ← va_arg (c_ap s);
  store_le (scan_bytes rank) a val;;
  mret (with_ap ap s).

(** [scan_int] *)
Definition scan_int (base rank : Z) (s : sst) : C mem sst :=
  q ← skipspace (c_q s);
  let s := with_q q s in
  c ← loadc q;
  if c =? 0 then mret (with_bail bail_eof s) else
  '(val, qq) ← strntoumax q base (c_width s);
  if qq =? q then mret (with_bail bail_err s) else
  let s := with_q qq s in
  let s := if fl (c_flags s) FL_SPLAT then s else with_converted (c_converted s + 1) s in
  set_integer val rank s.

(** [%c]: the loops [while (width--)]. *)
Definition scan_char (s : sst) : C mem sst :=
  let width := if fl (c_flags s) FL_WIDTH then c_width s else 1 in
  if fl (c_flags s) FL_SPLAT then
    b ← loop (S (Z.to_nat width)) (λ width,
      if width =? 0 then Break (c_bail s) else
      c ← loadc (c_q s);
      if c =? 0 then Break bail_eof else Next (width - 1)) width;
    mret (with_bail b s)
  else
    '(a, ap) ← va_arg (c_ap s);
    '(q, sarg, b) ← loop (S (Z.to_nat width)) (λ '(width, q, sarg),
      if width =? 0 then Break (q, sarg, c_bail s) else
      c ← loadc q;
      if c =? 0 then Break (q, sarg, bail_eof) else
      store8 sarg c;;
      Next (width - 1, q + 1, sarg + 1)) (width, c_q s, a);
    let s := with_bail b (with_sarg sarg (with_q q (with_ap ap s))) in
    mret (match b with bail_none => with_converted (c_converted s + 1) s | _ => s end).

(** [%s]; [uc] is 1 until a character is read. *)
Definition scan_string (s : sst) : C mem sst :=
  if fl (c_flags s) FL_SPLAT then
    '(q, uc) ← scan_fuel (λ fuel, loop fuel (λ '(width, q, uc),
      if width =? 0 then Break (q, uc) else
      c ← load8 q;
      if c =? 0 then Break (q, c) else
      sp ← isspace c;
      if negb (sp =? 0) then Break (q, c) else Next (u32 (width - 1), q + 1, c))
      (c_width s, c_q s, 1));
    let s := with_q q s in
    mret (if uc =? 0 then with_bail bail_eof s else s)
  else
    '(sarg, ap) ← va_arg (c_ap s);
    '(q, sp, uc) ← scan_fuel (λ fuel, loop fuel (λ '(width, q, sp, uc),
      if width =? 0 then Break (q, sp, uc) else
      c ← load8 q;
      if c =? 0 then Break (q, sp, c) else
      sp' ← isspace c;
      if negb (sp' =? 0) then Break (q, sp, c) else
      store8 sp c;;
      Next (u32 (width - 1), q + 1, sp + 1, c)) (c_width s, c_q s, sarg, 1));
    let s := with_sarg sarg (with_q q (with_ap ap s)) in
    s ← (if negb (sarg =? sp) then
           store8 sp 0;; mret (with_converted (c_converted s + 1) s)
         else mret s);
    mret (if uc =? 0 then with_bail bail_eof s else s).

Definition scan_convert (buffer ch : Z) (s : sst) : C mem sst :=
  if (ch =? 80) || (ch =? 112) then scan_int 0 rank_ptr s
  else if ch =? 105 then scan_int 0 (c_rank s) s
  else if ch =? 100 then scan_int 10 (c_rank s) s
  else if ch =? 111 then scan_int 8 (c_rank s) s
  else if ch =? 117 then scan_int 10 (c_rank s) s
  else if (ch =? 120) || (ch =? 88) then scan_int 16 (c_rank s) s
  else if ch =? 110 then set_integer (u64 (c_q s - buffer)) (c_rank s) s
  else if ch =? 99 then scan_char s
  else if ch =? 115 then scan_string s
  else if ch =? 91 then
    '(sarg, ap) ← (if fl (c_flags s) FL_SPLAT then mret (NULL, c_ap s) else va_arg (c_ap s));
    mret (with_match (replicate 4 0) 0 (with_state sc_match_init (with_sarg sarg (with_ap ap s))))
  else if ch =? 37 then
    c ← loadc (c_q s);
    mret (if c =? 37 then with_q (c_q s + 1) s else with_bail bail_err s)
  else mret (with_bail bail_err s).

Definition scan_modifiers (buffer ch : Z) (s : sst) : sstep :=
  if ch =? 104 then mret (true, with_rank (c_rank s - 1) s)
  else if ch =? 108 then mret (true, with_rank (c_rank s + 1) s)
  else if ch =? 106 then mret (true, with_rank rank_longlong s)
  else if (ch =? 122) || (ch =? 116) then mret (true, with_rank rank_long s)
  else if (ch =? 76) || (ch =? 113) then mret (true, with_rank rank_longlong s)
  else
    let s := with_state sc_normal s in
    let rank := if c_rank s <? rank_char then rank_char
                else if rank_longlong <? c_rank s then rank_longlong else c_rank s in
    s ← scan_convert buffer ch (with_rank rank s);
    mret (true, s).

(** [match_run]; the width is tested but never counted down. *)
Definition match_run (s : sst) : C mem sst :=
  '(q, sarg, uc) ← scan_fuel (λ fuel, loop fuel (λ '(q, sarg, uc),
    if c_width s =? 0 then Break (q, sarg, uc) else
    c ← load8 q;
    if c =? 0 then Break (q, sarg, c) else
    if Z.lxor (test_bit (c_matchmap s) c) (c_matchinv s) =? 0 then Break (q, sarg, c) else
    (if negb (sarg =? NULL) then store8 sarg c else mret tt);;
    Next (q + 1, if negb (sarg =? NULL) then sarg + 1 else sarg, c)) (c_q s, c_sarg s, 1));
  let moved := negb (q =? c_q s) in
  let s := with_sarg sarg (with_q q s) in
  s ← (if moved && negb (sarg =? NULL) then
         store8 sarg 0;; mret (with_converted (c_converted s + 1) s)
       else mret (with_bail bail_err s));
  mret (if uc =? 0 then with_bail bail_eof s else s).

Definition scan_match_init (ch : Z) (s : sst) : sstep :=
  if (ch =? 94) && negb (fl (c_flags s) FL_INV) then
    mret (true, with_match (c_matchmap s) 1 s)
  else
    mret (true, with_state sc_match (with_match (set_bit (c_matchmap s) (u8 ch)) (c_matchinv s) s)).

Definition scan_match (ch : Z) (s : sst) : sstep :=
  if ch =? 93 then s ← match_run s; mret (true, s)
  else if ch =? 45 then mret (true, with_state sc_match_range (with_range_start (u8 ch) s))
  else mret (true, with_match (set_bit (c_matchmap s) (u8 ch)) (c_matchinv s) s).

Definition scan_match_range (ch : Z) (s : sst) : sstep :=
  if ch =? 93 then
    s ← match_run (with_match (set_bit (c_matchmap s) 45) (c_matchinv s) s); mret (true, s)
  else
    let bm := foldl set_bit (c_matchmap s)
                (seqZ (c_range_start s) (u8 ch - c_range_start s)) in
    mret (true, with_state sc_match (with_match bm (c_matchinv s) s)).

Definition scan_step (buffer ch : Z) (s : sst) : sstep :=
  match c_state s with
  | sc_normal => scan_normal ch s
  | sc_flags => scan_flags ch s
  | sc_width => scan_width ch s
  | sc_modifiers => scan_modifiers buffer ch s
  | sc_match_init => scan_match_init ch s
  | sc_match => scan_match ch s
  | sc_match_range => scan_match_range ch s
  end.

Definition scan_start (buffer : Z) (ap : list Z) : sst :=
  {| c_q := buffer; c_ap := ap; c_state := sc_normal; c_flags := 0; c_rank := rank_int;
     c_width := UINT_MAX; c_sarg := NULL; c_bail := bail_none; c_converted := 0;
     c_matchmap := replicate 4 0; c_matchinv := 0; c_range_start := 0 |}.

Definition vsscanf (KLIBC_STREAMS_ORIG : bool) (buffer format : Z) (ap : list Z)
  : C mem (option Z) :=
  if negb KLIBC_STREAMS_ORIG then mret None else
  s ← scan_fuel (λ fuel, loop (4 * fuel) (λ '(p, s),
    ch ← loadc p;
    if ch =? 0 then Break s else
    match c_bail s with
    | bail_none =>
        '(next, s) ← scan_step buffer ch s;
        Next (if next : bool then p + 1 else p, s)
    | _ => Break s
    end) (format, scan_start buffer ap));
  mret (Some (match c_bail s with
              | bail_eof => if c_converted s =? 0 then -1 else c_converted s
              | _ => c_converted s
              end)).

(** ** Proofs *)

Section scan.
Implicit Types (m : mem) (s : sst) (p : Z).

Lemma run_skipspace m p ws t :
  cstr m p (ws ++ t) → Forall (λ c, table_space c = true) ws →
  stops (λ c, table_space c = true) t → skipspace p m = Ret (p + Z.of_nat (length ws)) m.
Proof.
  intros Hc Hws Hstop. unfold skipspace. rewrite run_scan_fuel.
  apply cstr_size in Hc as Hsz. rewrite length_app in Hsz.
  assert (length ws < S (size m))%nat as Hf by lia. clear Hsz.
  revert p Hc Hf. generalize (S (size m)) as fuel.
  induction Hws as [|c ws Hc Hws IH]; intros [|fuel] p Hs Hf; try (simpl in *; lia);
    rewrite run_loop; cbn beta iota; simpl app in Hs; cbn [length] in *.
  - rewrite Z.add_0_r. destruct t as [|b t].
    + apply cstr_nil in Hs. crun. change (u8 (s8 0)) with 0. by crun.
    + apply cstr_cons in Hs as (Hb & ? & _). crun. rewrite u8_s8, u8_byte by auto.
      rewrite run_isspace by lia. cbn beta iota. rewrite isspace_of_spec by lia. simpl in Hstop.
      destruct (table_space b); [done|]. by crun.
  - apply cstr_cons in Hs as (Hb & ? & Hs). crun. rewrite u8_s8, u8_byte by auto.
    rewrite run_isspace by lia. cbn beta iota. rewrite isspace_of_spec by lia. rewrite Hc.
    cbn [negb]. crun. rewrite IH by (done || lia). f_equal. lia.
Qed.

Lemma run_set_integer m s val rank a ap :
  fl (c_flags s) FL_SPLAT = false → c_ap s = a :: ap →
  valid m a (Z.of_nat (scan_bytes rank)) →
  set_integer val rank s m =
  Ret (with_ap ap s) (write_bytes m a (le_bytes (scan_bytes rank) val)).
Proof.
  intros Hsplat Hap Hv. unfold set_integer, va_arg. rewrite Hsplat, Hap.
  rewrite run_bind, run_ret. cbn beta iota. by rewrite run_bind, run_store_le.
Qed.

(** The input of an integer conversion. *)
Lemma run_scan_int m s base b k rank ws sgn pfx ds rest a ap :
  cstr m (c_q s) (ws ++ sgn ++ pfx ++ ds ++ rest) →
  number_text base b k ws sgn pfx ds rest → sgn ++ pfx ++ ds ≠ [] →
  Z.of_nat (length (ws ++ sgn ++ pfx ++ ds ++ rest)) ≤ c_width s →
  fl (c_flags s) FL_SPLAT = false → c_ap s = a :: ap →
  valid m a (Z.of_nat (scan_bytes rank)) →
  scan_int base rank s m =
  Ret (with_ap ap (with_converted (c_converted s + 1)
        (with_q (c_q s + Z.of_nat (length (ws ++ sgn ++ pfx ++ ds))) s)))
      (write_bytes m a (le_bytes (scan_bytes rank) (number_value b sgn ds))).
Proof.
  intros Hc Hnt Hne Hw Hsplat Hap Hv. unfold scan_int.
  assert (stops (λ c, table_space c = true) (sgn ++ pfx ++ ds ++ rest)) as Hstop.
  { destruct Hnt as [_ [->|[->| ->]] Hno _ _ _ _]; [|done..]. specialize (Hno eq_refl).
    simpl. destruct (pfx ++ ds ++ rest); simpl in *; tauto. }
  rewrite run_bind, (run_skipspace m _ ws (sgn ++ pfx ++ ds ++ rest)) by (done || apply Hnt). cbn beta iota zeta.
  apply cstr_app in Hc as (_ & _ & Hc). set (q := c_q s + Z.of_nat (length ws)) in *.
  assert (∃ c l, sgn ++ pfx ++ ds ++ rest = c :: l) as (c & l & El).
  { destruct sgn as [|x ?]; [|by eexists x, _]. destruct pfx as [|x ?]; [|by eexists x, _].
    destruct ds as [|x ?]; [done|by eexists x, _]. }
  assert (m !! q = Some c ∧ 0 < c < 256) as [Hq Hcb].
  { rewrite El in Hc. by apply cstr_cons in Hc as (? & ? & _). }
  rewrite run_bind, (run_loadc _ _ _ Hq). cbn beta iota. rewrite s8_zero by auto. ctest.
  rewrite run_bind, (run_strntoumax m q base b k [] sgn pfx ds rest).
  - cbn beta iota. cbn [app]. rewrite (proj2 (Z.eqb_neq _ q)).
    2: { destruct (sgn ++ pfx ++ ds); [done|]. cbn [length]. lia. }
    set (e := q + Z.of_nat (length (sgn ++ pfx ++ ds))).
    change (c_flags (with_q e (with_q q s))) with (c_flags s). rewrite Hsplat.
    rewrite (run_set_integer _ _ _ _ a ap) by done.
    replace (c_q s + Z.of_nat (length (ws ++ sgn ++ pfx ++ ds))) with e; [done|].
    unfold e, q. rewrite !length_app. lia.
  - destruct Hnt as [H1 H2 H3 H4 H5 H6 H7]. by split.
  - cbn [app]. apply cstr_text_all; [done|]. rewrite length_app in Hw.
    unfold with_q. cbn [c_width]. lia.
Qed.

Definition in_match_set (st : scan_state) : Prop :=
  st = sc_match_init ∨ st = sc_match ∨ st = sc_match_range.

Lemma match_run_state m s s' m' : match_run s m = Ret s' m' → c_state s' = c_state s.
Proof.
  unfold match_run. rewrite run_bind. destruct (scan_fuel _ m) as [[[q sarg] uc] m1| |]; [|done..].
  cbn zeta. rewrite run_bind.
  destruct (negb (q =? c_q s) && negb (sarg =? NULL)).
  - rewrite run_bind. destruct (store8 sarg 0 m1) as [[] m2| |]; [|done..]. rewrite run_ret.
    cbn beta iota. rewrite run_ret. intros [= <- _]. by destruct (uc =? 0).
  - rewrite run_ret. cbn beta iota. rewrite run_ret. intros [= <- _]. by destruct (uc =? 0).
Qed.

(** Once inside a [%[] directive the machine stays there: after the closing
    bracket the rest of the format is read as more of the set. *)
Lemma match_set_absorbing buffer ch s m next s' m' :
  in_match_set (c_state s) → scan_step buffer ch s m = Ret (next, s') m' →
  next = true ∧ in_match_set (c_state s').
Proof.
  assert (∀ s0, c_state s0 = c_state s → in_match_set (c_state s) →
    (s1 ← match_run s0; mret (true, s1)) m = Ret (next, s') m' →
    next = true ∧ in_match_set (c_state s')) as Hrun.
  { intros s0 E Hs. rewrite run_bind. destruct (match_run s0 m) as [s1 m1| |] eqn:H1; [|done..].
    rewrite run_ret. intros [= <- <- _]. apply match_run_state in H1. by rewrite H1, E. }
  intros Hs. unfold scan_step. destruct Hs as [E|[E|E]]; rewrite E.
  - unfold scan_match_init. destruct (_ && _); rewrite run_ret; intros [= <- <- _]; split; try done.
    + by left.
    + by right; left.
  - unfold scan_match. destruct (ch =? 93).
    + apply Hrun; [done|]. by right; left.
    + destruct (ch =? 45); rewrite run_ret; intros [= <- <- _]; split; try done; right; auto.
  - unfold scan_match_range. destruct (ch =? 93).
    + apply Hrun; [done|]. by right; right.
    + rewrite run_ret. intros [= <- <- _]. split; [done|]. by right; left.
Qed.
End scan.

(** ** Whole formats of one directive *)

Section directive.
Implicit Types (m : mem) (s : sst) (p : Z).

Definition scan_machine (buffer : Z) : Z * sst → C mem (Z * sst + sst) := λ '(p, s),
  ch ← loadc p;
  if ch =? 0 then Break s else
  match c_bail s with
  | bail_none =>
      '(next, s) ← scan_step buffer ch s;
      Next (if next : bool then p + 1 else p, s)
  | _ => Break s
  end.

Lemma scan_round buffer p s m c (next : bool) s' m' f :
  m !! p = Some c → 0 < c < 128 → c_bail s = bail_none →
  scan_step buffer c s m = Ret (next, s') m' →
  loop (S f) (scan_machine buffer) (p, s) m =
  loop f (scan_machine buffer) (if next then p + 1 else p, s') m'.
Proof.
  intros Hp Hc Hb Hstep. rewrite run_loop. unfold scan_machine at 1.
  rewrite run_bind, (run_loadc _ _ _ Hp). cbn beta iota.
  rewrite s8_ascii by lia. ctest. rewrite Hb, run_bind, Hstep. cbn beta iota. by rewrite run_ret.
Qed.

Lemma scan_end buffer p s m f :
  m !! p = Some 0 → loop (S f) (scan_machine buffer) (p, s) m = Ret s m.
Proof.
  intros Hp. rewrite run_loop. unfold scan_machine at 1.
  rewrite run_bind, (run_loadc _ _ _ Hp). cbn beta iota. by rewrite s8_nul.
Qed.

(** The conversions of integers and their base. *)
Definition scan_base (conv : Z) : option Z :=
  if conv =? 105 then Some 0 else if (conv =? 100) || (conv =? 117) then Some 10
  else if conv =? 111 then Some 8 else if (conv =? 120) || (conv =? 88) then Some 16 else None.

Lemma scan_base_chars conv base :
  scan_base conv = Some base → conv ∈ [105; 100; 117; 111; 120; 88].
Proof.
  unfold scan_base. rewrite !elem_of_cons. intros H.
  destruct (Z.eqb_spec conv 105); [tauto|]. destruct (Z.eqb_spec conv 100); [tauto|].
  destruct (Z.eqb_spec conv 117); [tauto|]. destruct (Z.eqb_spec conv 111); [tauto|].
  destruct (Z.eqb_spec conv 120); [tauto|]. destruct (Z.eqb_spec conv 88); [tauto|done].
Qed.

Lemma scan_conv_int buffer conv base s m :
  scan_base conv = Some base → c_rank s = rank_int →
  scan_modifiers buffer conv s m =
  (s' ← scan_int base rank_int (with_rank rank_int (with_state sc_normal s)); mret (true, s')) m.
Proof.
  intros Hb Hr. pose proof (scan_base_chars _ _ Hb) as Hc. rewrite !elem_of_cons, elem_of_nil in Hc.
  destruct_or! Hc; try done; subst conv; injection Hb as <-; unfold scan_modifiers;
    cbn [with_state c_rank]; by rewrite Hr.
Qed.

Lemma run_sscanf_int m buffer format conv base b k ws sgn pfx ds rest a ap :
  scan_base conv = Some base → cstr m format [37; conv] →
  cstr m buffer (ws ++ sgn ++ pfx ++ ds ++ rest) →
  number_text base b k ws sgn pfx ds rest → sgn ++ pfx ++ ds ≠ [] →
  Z.of_nat (length (ws ++ sgn ++ pfx ++ ds ++ rest)) ≤ UINT_MAX →
  valid m a 4 → disjoint_ranges a 4 format 3 →
  vsscanf true buffer format (a :: ap) m =
  Ret (Some 1) (write_bytes m a (le_bytes 4 (number_value b sgn ds))).
Proof.
  intros Hconv Hf Hin Hnt Hne Hw Hv Hd. unfold vsscanf. cbn [negb].
  apply cstr_size in Hf as Hsz. simpl in Hsz. apply cstr_nul in Hf as Hnul. simpl in Hnul.
  apply cstr_cons in Hf as (H0 & _ & Hf). apply cstr_cons in Hf as (H1 & Hcb & _).
  assert (0 < conv < 128) as Hc.
  { apply scan_base_chars in Hconv. rewrite !elem_of_cons, elem_of_nil in Hconv. lia. }
  rewrite run_bind, run_scan_fuel. fold (scan_machine buffer).
  replace (4 * S (size m))%nat with (S (S (S (S (4 * size m)))))%nat by lia.
  set (s0 := scan_start buffer (a :: ap)).
  rewrite (scan_round buffer format s0 m 37 true (with_state sc_flags s0) m) by (done || lia).
  rewrite (scan_round buffer (format + 1) _ m conv false (with_state sc_modifiers s0) m).
  2-4: done.
  2: { apply scan_base_chars in Hconv. rewrite !elem_of_cons, elem_of_nil in Hconv.
       by destruct_or! Hconv; try done; subst conv. }
  assert (scan_int base rank_int (with_rank rank_int (with_state sc_normal s0)) m =
    Ret (with_ap ap (with_converted 1
          (with_q (buffer + Z.of_nat (length (ws ++ sgn ++ pfx ++ ds))) s0)))
        (write_bytes m a (le_bytes 4 (number_value b sgn ds)))) as Hint
    by (by rewrite (run_scan_int m _ base b k rank_int ws sgn pfx ds rest a ap)).
  erewrite (scan_round buffer (format + 1) _ m conv true).
  2-4: done.
  2: { change (scan_step buffer conv (with_state sc_modifiers s0) m)
         with (scan_modifiers buffer conv (with_state sc_modifiers s0) m).
       rewrite (scan_conv_int buffer conv base) by done.
       rewrite run_bind. change (with_state sc_normal (with_state sc_modifiers s0))
         with (with_state sc_normal s0). rewrite Hint. reflexivity. }
  rewrite scan_end; [done|]. rewrite lookup_write_bytes_out.
  - by replace (format + 1 + 1) with (format + 2) by lia.
  - rewrite le_bytes_length. unfold disjoint_ranges in Hd. lia.
Qed.
End directive.

(** ** Theorems *)

(** C16: with the original streams (KLIBC_STREAMS_ORIG defined) sscanf of an integer
    directive reads the number at the front of the input (blanks, sign, radix prefix,
    digits, in the base of the conversion),
    stores its value modulo 2^32 through the argument and returns 1; it writes
    nothing else.  Without them, as poet.h leaves the switch, the call fails its
    assertion ([None]) on the same input, with the memory as it was. *)
Theorem sscanf_integer orig m buffer format conv base b k ws sgn pfx ds rest a ap :
  scan_base conv = Some base → cstr m format [37; conv] →
  cstr m buffer (ws ++ sgn ++ pfx ++ ds ++ rest) →
  number_text base b k ws sgn pfx ds rest → sgn ++ pfx ++ ds ≠ [] →
  Z.of_nat (length (ws ++ sgn ++ pfx ++ ds ++ rest)) ≤ UINT_MAX →
  valid m a 4 → disjoint_ranges a 4 format 3 →
  ∃ bytes, length bytes = 4%nat ∧ le_value bytes = u32 (signed_value b sgn ds) ∧
  vsscanf orig buffer format (a :: ap) m = if orig then Ret (Some 1) (write_bytes m a bytes) else Ret None m.
Proof.
  intros Hconv Hf Hin Hnt Hne Hw Hv Hd. eexists. split_and!;
    [apply (le_bytes_length 4 (number_value b sgn ds))|
    |destruct orig; [by apply (run_sscanf_int m buffer format conv base b k ws sgn pfx ds rest)|done]].
  rewrite le_value_bytes. change (256 ^ Z.of_nat 4) with (2 ^ 32).
  unfold number_value, signed_value, wrap. apply Z.mod_mod_divide. by exists (2 ^ 32).
Qed.

Lemma sscanf_integer_witness :
  let m := write_bytes (write_bytes (write_bytes ∅ 100 [32; 45; 52; 50; 0]) 200 [37; 100; 0])
             300 [0; 0; 0; 0] in
  ∃ bytes, length bytes = 4%nat ∧ le_value bytes = 2 ^ 32 - 42 ∧
  vsscanf true 100 200 [300] m = Ret (Some 1) (write_bytes m 300 bytes).
Proof.
  apply (sscanf_integer true _ 100 200 100 10 10 0 [32] [45] [] [52; 50] [] 300 []);
    [done|by_decide|by_decide| |done|by vm_compute|by_decide|by_decide].
  split; [by repeat constructor|auto|done|by constructor|done| |done].
  repeat constructor; vm_compute; congruence.
Defined.

(** The directive %d, in both formats. *)
Definition percent_d : item :=
  Dir {| d_flags := []; d_width := CNone; d_prec := None; d_mods := []; d_conv := 100 |}.

Lemma render_percent_d str v :
  - 2 ^ 31 ≤ v < 2 ^ 31 →
  render str [percent_d] [v] = Some (int_text (u64 v) FL_SIGNED 10 0 (-1)).
Proof.
  intros Hv.
  transitivity (t ← (if (s64 (u64 (s32 v)) =? - 2 ^ 63) || false then None
                else Some (int_text (u64 (s32 v)) FL_SIGNED 10 0 (-1))); Some (t ++ [])).
  { unfold render, percent_d, directive_text.
    cbn [d_flags d_width d_prec d_mods d_conv eval_width eval_prec flag_bits foldl mbind option_bind].
    change (100 =? 37) with false. cbn iota. unfold conv_text.
    change (100 =? 80) with false. change (100 =? 112) with false.
    change (100 =? 100) with true. cbn [orb]. cbn iota.
    change (Z.lor 0 FL_SIGNED) with FL_SIGNED. change (fl FL_SIGNED FL_SIGNED) with true.
    cbn [andb]. change (2 ^ 29 <? -1) with false.
    change (signed_arg (clamp_rank rank_int) v) with (u64 (s32 v)).
    by destruct (_ || _). }
  rewrite s64_u64, (sext_small 32 v), (sext_small 64 v) by lia.
  rewrite (proj2 (Z.eqb_neq v (- 2 ^ 63))) by lia. cbn. by rewrite app_nil_r.
Qed.

(** C15: printing an int with %d and scanning the result with %d gives the int
    back: vsnprintf leaves a string in the buffer from which vsscanf stores the
    same 32-bit value and reports one conversion when KLIBC_STREAMS_ORIG is defined.
    When it is not, as poet.h leaves it, the text is printed all the same and the
    call of vsscanf fails its assertion ([None]). *)
Theorem printf_scanf_roundtrip orig m buffer n format v a :
  - 2 ^ 31 ≤ v < 2 ^ 31 → 66 ≤ n → valid m buffer n → cstr m format [37; 100] →
  disjoint_ranges buffer n format 3 → valid m a 4 → disjoint_ranges a 4 format 3 →
  disjoint_ranges a 4 buffer n →
  ∃ len m1 bytes,
  vsnprintf buffer n format [v] m = Ret len m1 ∧ 0 < len < n ∧
  vsscanf orig buffer format [a] m1 = (if orig then Ret (Some 1) (write_bytes m1 a bytes) else Ret None m1) ∧
  length bytes = 4%nat ∧ s32 (le_value bytes) = v.
Proof.
  intros Hv Hn Hbuf Hf Hd Ha Hda Hab. set (val := u64 v).
  assert (s64 val = v) as Hs64 by (unfold val; rewrite s64_u64; apply sext_small; lia).
  assert (0 ≤ val < 2 ^ 64) as Hval by (by apply wrap_range).
  destruct (int_text_plain val FL_SIGNED 10) as (Et & Ef & Hl & Hsg); [auto|by left|].
  destruct (int_body_value val FL_SIGNED 10 (-1)) as (_ & Hds & _); [auto|done|lia|].
  pose proof (int_signed_value val FL_SIGNED 10 (-1) ltac:(auto) Hval ltac:(lia)) as Hval2.
  cbn zeta in *. rewrite Ef in *. set (ds := int_body val FL_SIGNED 10 (-1)) in *.
  set (sgn := int_sign val FL_SIGNED) in *. set (t := sgn ++ ds) in *.
  assert (length t ≤ 65)%nat
    by (unfold t; rewrite length_app; destruct Hsg as [->| ->]; simpl; lia).
  assert (0 < length t)%nat by (unfold t; rewrite length_app; lia).
  set (m1 := write_bytes m buffer (t ++ [0])).
  assert (Forall (λ b, 0 < b < 256) t) as Hbytes.
  { apply Forall_app. split; [destruct Hsg as [->| ->]; repeat constructor|].
    eapply Forall_impl; [exact Hds|]. intros c [_ ?]. lia. }
  exists (Z.of_nat (length t)), m1, (le_bytes 4 val). split_and!; try lia.
  - rewrite (run_vsnprintf m buffer n (λ _, None) ltac:(lia) Hbuf ltac:(done) [percent_d] format [v] t).
    + unfold buffer_after. rewrite bool_decide_eq_false_2, take_ge, sext_small by lia. done.
    + by repeat constructor.
    + done.
    + done.
    + rewrite render_percent_d by lia. by rewrite <-Et.
  - assert (cstr m1 buffer t) as Hc by (by apply cstr_write).
    assert (cstr m1 format [37; 100]) as Hf1.
    { apply cstr_frame; [done|]. rewrite length_app. cbn [length].
      unfold disjoint_ranges in *. lia. }
    destruct orig; [|done]. rewrite (run_sscanf_int m1 buffer format 100 10 10 0 [] sgn [] ds [] a []); try done.
    + unfold number_value. by rewrite Hval2.
    + cbn [app]. by rewrite app_nil_r.
    + apply plain_number_text; [auto|done| |done]. intros E. rewrite E in Hl. simpl in Hl. lia.
    + cbn [app]. intros E. unfold t in *. rewrite E in *. simpl in *. lia.
    + cbn [app]. rewrite app_nil_r. fold t. unfold UINT_MAX. lia.
    + by apply write_bytes_valid.
  - apply le_bytes_length.
  - rewrite le_value_bytes. change (256 ^ Z.of_nat 4) with (2 ^ 32). unfold sext.
    rewrite Zplus_mod_idemp_l. fold (s32 val). unfold val. rewrite s32_u64.
    apply sext_small; lia.
Qed.

Lemma printf_scanf_roundtrip_witness :
  let m := write_bytes (write_bytes (write_bytes ∅ 100 (replicate 70 63)) 200 [37; 100; 0])
             300 [0; 0; 0; 0] in
  ∃ len m1 bytes,
  vsnprintf 100 70 200 [-12345] m = Ret len m1 ∧
  vsscanf true 100 200 [300] m1 = Ret (Some 1) (write_bytes m1 300 bytes) ∧
  s32 (le_value bytes) = -12345.
Proof.
  destruct (printf_scanf_roundtrip true
    (write_bytes (write_bytes (write_bytes ∅ 100 (replicate 70 63)) 200 [37; 100; 0]) 300 [0; 0; 0; 0])
    100 70 200 (-12345) 300) as (len & m1 & bytes & H1 & _ & H2 & _ & H3);
    [lia|lia|by_decide|by_decide|by_decide|by_decide|by_decide|by_decide|].
  exact (ex_intro _ len (ex_intro _ m1 (ex_intro _ bytes (conj H1 (conj H2 H3))))).
Defined.
