(* ===== verification/Fnmatch.v ===== *)
(** * Pattern matching: [fnmatch.c]

    The recursive matcher on two strings in the byte memory, against a relation
    between a parsed pattern and a string.  Every recursive call moves one of the
    two pointers forward, so that a number of steps larger than both strings
    together is enough. *)

From stdpp Require Import base tactics numbers list gmap.
From S2P Require Import Prelude Memory StrFns.

Open Scope Z_scope.

(** ** The matcher *)

Definition FNM_PATHNAME : Z := 1.
Definition FNM_NOESCAPE : Z := 2.
Definition FNM_PERIOD : Z := 4.

(** Up to the end of the pattern or a closing bracket. *)
Definition skip_set (p : Z) : C mem Z :=
  scan_fuel (λ fuel, loop fuel (λ p,
    c ← loadc p;
    if (c =? 0) || (c =? 93) then Break p else Next (p + 1)) p).

(** The test of one member of a set, and the pointer after it. *)
Definition set_member (p s : Z) : C mem (bool * Z) :=
  d ← loadc (p + 1);
  if d =? 45 then
    cs ← loadc s;
    c ← loadc p;
    hit ← (if c <=? cs then e ← loadc (p + 2); mret (cs <=? e) else mret false);
    mret (hit, p + 3)
  else
    c ← loadc p;
    cs ← loadc s;
    mret (c =? cs, p + 1).

(** The loop over a set: the pointer after the set if the character is in it. *)
Definition match_set (p s : Z) (neg : bool) : C mem (option Z) :=
  scan_fuel (λ fuel, loop fuel (λ p,
    c ← loadc p;
    if (c =? 0) || (c =? 93) then Break None else
    '(hit, p) ← set_member p s;
    if xorb hit neg then
      p ← skip_set p;
      c ← loadc p;
      if c =? 93 then Break (Some (p + 1)) else Next p
    else Next p) p).

(** Past the stars. *)
Definition skip_stars (p : Z) : C mem Z :=
  scan_fuel (λ fuel, loop fuel (λ p,
    c ← loadc p;
    if c =? 42 then Next (p + 1) else Break p) p).

(** The character at [s] is [c]: looked at only if a flag is set. *)
Definition flagged (flags flag s c : Z) : C mem bool :=
  if Z.land flags flag =? 0 then mret false else x ← loadc s; mret (x =? c).

Fixpoint fnmatch_go (fuel : nat) (p s flags : Z) : C mem Z :=
  match fuel with
  | O => diverge
  | S fuel =>
      let both (c : Z) (p s : Z) flags :=
        x ← loadc p;
        if negb (x =? c) then mret 1 else
        r ← fnmatch_go fuel (p + 1) (s + 1) flags; mret (cbool (negb (r =? 0))) in
      slash ← flagged flags FNM_PATHNAME s 47;
      if slash : bool then both 47 p s flags else
      dot ← flagged flags FNM_PERIOD s 46;
      if dot : bool then both 46 p s flags else
      let flags := Z.land flags (Z.lnot FNM_PERIOD) in
      esc ← (if Z.land flags FNM_NOESCAPE =? 0 then c ← loadc p; mret (c =? 92) else mret false);
      if esc : bool then c ← loadc s; both c (p + 1) s flags else
      cs ← loadc s;
      if cs =? 0 then
        p ← skip_stars p;
        c ← loadc p;
        mret (cbool (negb (c =? 0)))
      else
      c ← loadc p;
      if c =? 91 then
        x ← loadc (p + 1);
        r ← (if x =? 33 then match_set (p + 2) s true else match_set (p + 1) s false);
        match r with
        | Some p => fnmatch_go fuel p (s + 1) flags
        | None => mret 1
        end
      else if c =? 42 then
        r ← fnmatch_go fuel p (s + 1) flags;
        if negb (r =? 0) then fnmatch_go fuel (p + 1) s flags else mret 0
      else if c =? 0 then
        mret (if cs =? 0 then 0 else 1)
      else if (c =? cs) || (c =? 63) then fnmatch_go fuel (p + 1) (s + 1) flags
      else mret 1
  end.

Definition fnmatch (p s flags : Z) : C mem Z :=
  λ m, fnmatch_go (S (2 * size m)) p s flags m.

(** ** Patterns *)

Inductive member := One (c : Z) | Range (a b : Z).

Inductive tok := Lit (c : Z) | Esc (c : Z) | Any | Star | Members (neg : bool) (items : list member).

#[export] Instance item_eq_dec : EqDecision member.
Proof. solve_decision. Defined.

#[export] Instance tok_eq_dec : EqDecision tok.
Proof. solve_decision. Defined.

Definition render_item (it : member) : list Z :=
  match it with One c => [c] | Range a b => [a; 45; b] end.

Definition render_tok (t : tok) : list Z :=
  match t with
  | Lit c => [c]
  | Esc c => [92; c]
  | Any => [63]
  | Star => [42]
  | Members neg items =>
      91 :: (if neg then [33] else []) ++ mjoin (map render_item items) ++ [93]
  end.

Definition pattern (ts : list tok) : list Z := mjoin (map render_tok ts).

(** POSIX: a set accepts a character that is one of its members or between the ends of
    one of its ranges, and a negated set one that is not. *)
Definition item_hit (c : Z) (it : member) : bool :=
  match it with
  | One a => a =? c
  | Range a b => (a <=? c) && (c <=? b)
  end.

Definition set_accepts (neg : bool) (items : list member) (c : Z) : bool :=
  xorb (existsb (item_hit c) items) neg.

Inductive glob : list tok → list Z → Prop :=
  | glob_nil : glob [] []
  | glob_lit c ts t : glob ts t → glob (Lit c :: ts) (c :: t)
  | glob_esc c ts t : glob ts t → glob (Esc c :: ts) (c :: t)
  | glob_any c ts t : glob ts t → glob (Any :: ts) (c :: t)
  | glob_star ts t : glob ts t → glob (Star :: ts) t
  | glob_more c ts t : glob (Star :: ts) t → glob (Star :: ts) (c :: t)
  | glob_set neg items c ts t :
      set_accepts neg items c = true → glob ts t → glob (Members neg items :: ts) (c :: t).

(** A member of a set is not one of the characters with a meaning there; the ends of a
    range are in order and both ASCII or neither, since the code compares signed
    characters. *)
Definition item_ok (it : member) : Prop :=
  match it with
  | One c => 0 < c < 256 ∧ c ≠ 93 ∧ c ≠ 45 ∧ c ≠ 91
  | Range a b => 0 < a < 256 ∧ a ≠ 93 ∧ a ≠ 45 ∧ 0 < b < 256 ∧ b ≠ 93 ∧ a ≤ b ∧ (b < 128 ∨ 128 ≤ a)
  end.

Definition not_bang (items : list member) : Prop :=
  match items with
  | One c :: _ | Range c _ :: _ => c ≠ 33
  | [] => True
  end.

(** The pattern reads back as it was meant, with escapes only where they exist; a set has
    a member, and a negated one only one, where the code agrees with POSIX. *)
Definition tok_ok (flags : Z) (t : tok) : Prop :=
  match t with
  | Lit c => 0 < c < 256 ∧ c ≠ 42 ∧ c ≠ 63 ∧ c ≠ 91 ∧ (flags = 0 → c ≠ 92)
  | Esc c => flags = 0 ∧ 0 < c < 256
  | Any | Star => True
  | Members neg items => Forall item_ok items ∧ (neg = false → not_bang items) ∧
      (if neg then length items = 1%nat else items ≠ [])
  end.

Lemma join_cons {A} (l : list A) ls : mjoin (l :: ls) = l ++ mjoin ls.
Proof. reflexivity. Qed.

(** ** Sets *)

(** What the loop over a set tests: some member is hit, and in a negated set that some
    member is not. *)
Definition code_accepts (neg : bool) (items : list member) (c : Z) : bool :=
  existsb (λ it, xorb (item_hit c it) neg) items.

Lemma code_accepts_set (neg : bool) items c : (if neg then length items = 1%nat else items ≠ []) →
  code_accepts neg items c = set_accepts neg items c.
Proof.
  unfold code_accepts, set_accepts. destruct neg.
  - destruct items as [|it [|]]; try done. intros _. cbn. by rewrite !orb_false_r.
  - intros _. rewrite xorb_false_r. induction items as [|it items IH]; [done|]. cbn. by rewrite IH, xorb_false_r.
Qed.

(** The comparison of signed characters. *)
Lemma s8_range a b c : 0 < a < 256 → 0 < b < 256 → is_byte c → a ≤ b → b < 128 ∨ 128 ≤ a →
  (s8 a <=? s8 c) && (s8 c <=? s8 b) = (a <=? c) && (c <=? b).
Proof.
  intros Ha Hb Hc Hle Hab. unfold is_byte in Hc.
  rewrite !s8_byte by (unfold is_byte; lia). apply eq_true_iff_eq. rewrite !andb_true_iff, !Z.leb_le.
  destruct (Z.ltb_spec a 128), (Z.ltb_spec b 128), (Z.ltb_spec c 128); lia.
Qed.

Section sets.
Implicit Types (m : mem) (p s : Z) (items : list member) (rest l : list Z).

Lemma run_skip_set m p l rest :
  cstr m p (l ++ 93 :: rest) → Forall (λ b, b ≠ 93) l →
  skip_set p m = Ret (p + Z.of_nat (length l)) m.
Proof.
  intros Hs Hl. unfold skip_set. rewrite run_scan_fuel.
  pose proof (cstr_size _ _ _ Hs) as Hsz. rewrite length_app in Hsz.
  assert (length l < S (size m))%nat as Hf by lia. clear Hsz. revert p Hs Hf.
  generalize (S (size m)) as fuel. induction Hl as [|b l Hb Hl IH]; intros [|fuel] p Hs Hf;
    try (simpl in Hf; lia); rewrite run_loop; cbn beta.
  - simpl app in Hs. apply cstr_cons in Hs as (H93 & _). crun. simpl. f_equal. lia.
  - simpl app in Hs. apply cstr_cons in Hs as (Hp & Hr & Hs). crun.
    rewrite s8_nonzero by done. rewrite (s8_const b 93) by (auto; lia).
    rewrite (proj2 (Z.eqb_neq b 93)) by done. cbn [orb]. crun.
    rewrite IH; [|done|simpl in Hf; lia]. f_equal. simpl length. lia.
Qed.

Lemma item_bytes items : Forall item_ok items → Forall (λ b, b ≠ 93) (mjoin (map render_item items)).
Proof.
  induction 1 as [|[c|a b] items Hi _ IH]; simpl in *; [done|..]; repeat constructor; try done; lia.
Qed.

Lemma items_next items rest :
  Forall item_ok items → ∃ x l, mjoin (map render_item items) ++ 93 :: rest = x :: l ∧ x ≠ 45.
Proof.
  destruct 1 as [|[c|a b] items Hi _]; simpl in *; eexists _, _; (split; [done|]); lia.
Qed.

Lemma run_set_member m p s c it items rest :
  item_ok it → Forall item_ok items → m !! s = Some c → is_byte c →
  cstr m p (render_item it ++ mjoin (map render_item items) ++ 93 :: rest) →
  set_member p s m = Ret (item_hit c it, p + Z.of_nat (length (render_item it))) m.
Proof.
  intros Hit Hok Hc Hcb Hp. unfold set_member. destruct it as [a|a b]; simpl app in Hp; simpl in Hit.
  - destruct (items_next items rest Hok) as (x & l & E & Hx). rewrite E in Hp.
    apply cstr_cons in Hp as (Ha & _ & Hp). apply cstr_cons in Hp as (Hx1 & Hxr & _). crun.
    rewrite (s8_const x 45) by (auto; lia). rewrite (proj2 (Z.eqb_neq x 45)) by done. crun.
    destruct Hit as (? & _). by rewrite s8_eqb by auto.
  - apply cstr_cons in Hp as (Ha & _ & Hp). apply cstr_cons in Hp as (H45 & _ & Hp).
    apply cstr_cons in Hp as (Hb & _ & _). replace (p + 1 + 1) with (p + 2) in Hb by lia. crun.
    change (s8 45 =? 45) with true. crun. unfold item_hit. rewrite <-s8_range by (done || lia). destruct (s8 a <=? s8 c) eqn:E; crun; rewrite ?E; crun; try done.
Qed.

Lemma render_item_length it : (0 < length (render_item it))%nat.
Proof. destruct it; simpl; lia. Qed.

Lemma run_match_set m p s c neg items rest :
  Forall item_ok items → m !! s = Some c → is_byte c →
  cstr m p (mjoin (map render_item items) ++ 93 :: rest) →
  match_set p s neg m =
  Ret (if code_accepts neg items c
       then Some (p + Z.of_nat (length (mjoin (map render_item items))) + 1) else None) m.
Proof.
  intros Hok Hc Hcb Hp. unfold match_set. rewrite run_scan_fuel.
  match goal with |- context [loop _ ?b _ _] => set (body := b) end.
  assert (length (mjoin (map render_item items)) < S (size m))%nat as Hf.
  { pose proof (cstr_size _ _ _ Hp) as Hsz. rewrite length_app in Hsz. lia. }
  revert p Hp Hf. generalize (S (size m)) as fuel.
  induction Hok as [|it items Hit Hok IH]; intros [|fuel] p Hp Hf; try (simpl in Hf; lia);
    rewrite run_loop; unfold body at 1; cbn beta.
  { simpl app in Hp. apply cstr_cons in Hp as (H93 & _). by crun. }
  cbn [map] in Hp, Hf |- *. rewrite join_cons in Hp, Hf |- *.
  rewrite <-app_assoc in Hp. pose proof (render_item_length it) as Hlen.
  assert (∃ x, m !! p = Some x ∧ 0 < x < 256 ∧ x ≠ 93) as (x & Hx & Hxr & Hx93).
  { destruct it as [a|a b]; simpl in Hit; simpl app in Hp; apply cstr_cons in Hp as (Ha & _);
      exists a; (split; [done|]); lia. }
  crun. rewrite s8_nonzero by done. rewrite (s8_const x 93) by (auto; lia).
  rewrite (proj2 (Z.eqb_neq x 93)) by done. cbn [orb]. crun.
  rewrite (run_set_member m p s c it items rest Hit Hok Hc Hcb Hp). cbn beta iota.
  apply cstr_app in Hp as (_ & _ & Hp). rewrite !length_app in *.
  cbn [code_accepts existsb]. fold (code_accepts neg items c).
  destruct (xorb (item_hit c it) neg); cbn [orb].
  - rewrite run_bind, (run_skip_set _ _ _ rest Hp) by (by apply item_bytes). cbn beta iota.
    apply cstr_app in Hp as (_ & _ & Hp). apply cstr_cons in Hp as (H93 & _). crun.
    change (s8 93 =? 93) with true. crun. do 2 f_equal. lia.
  - crun. rewrite IH; [|done|lia]. f_equal. destruct (code_accepts neg items c); [|done]. f_equal. lia.
Qed.
End sets.

(** ** Matching *)

Section matching.
Implicit Types (m : mem) (p s : Z) (ts : list tok) (t : list Z).

(** What is left of a step without the flags for slashes and periods. *)
Definition plain_step (fuel : nat) (flags p s : Z) : C mem Z :=
  esc ← (if flags =? 0 then c ← loadc p; mret (c =? 92) else mret false);
  if esc : bool then
    c ← loadc s; x ← loadc (p + 1);
    if negb (x =? c) then mret 1 else
    r ← fnmatch_go fuel (p + 1 + 1) (s + 1) flags; mret (cbool (negb (r =? 0)))
  else
  cs ← loadc s;
  if cs =? 0 then
    p ← skip_stars p;
    c ← loadc p;
    mret (cbool (negb (c =? 0)))
  else
  c ← loadc p;
  if c =? 91 then
    x ← loadc (p + 1);
    r ← (if x =? 33 then match_set (p + 2) s true else match_set (p + 1) s false);
    match r with
    | Some p => fnmatch_go fuel p (s + 1) flags
    | None => mret 1
    end
  else if c =? 42 then
    r ← fnmatch_go fuel p (s + 1) flags;
    if negb (r =? 0) then fnmatch_go fuel (p + 1) s flags else mret 0
  else if c =? 0 then
    mret (if cs =? 0 then 0 else 1)
  else if (c =? cs) || (c =? 63) then fnmatch_go fuel (p + 1) (s + 1) flags
  else mret 1.

Lemma go_step fuel flags p s m :
  flags = 0 ∨ flags = FNM_NOESCAPE →
  fnmatch_go (S fuel) p s flags m = plain_step fuel flags p s m.
Proof. by intros [-> | ->]. Qed.

Lemma render_cons x ts : pattern (x :: ts) = render_tok x ++ pattern ts.
Proof. reflexivity. Qed.

(** The first character of a pattern. *)
Definition first (ts : list tok) : Z :=
  match ts with
  | [] => 0
  | Lit c :: _ => c
  | Esc _ :: _ => 92
  | Any :: _ => 63
  | Star :: _ => 42
  | Members _ _ :: _ => 91
  end.

Lemma first_at m p flags ts :
  Forall (tok_ok flags) ts → cstr m p (pattern ts) → m !! p = Some (first ts) ∧ is_byte (first ts).
Proof.
  intros Hok Hp. destruct Hok as [|x ts Hx _]; [by apply cstr_nil in Hp|].
  rewrite render_cons in Hp. destruct x; simpl in Hp, Hx; apply cstr_cons in Hp as (Hp & Hr & _);
    (split; [done|simpl; auto]).
Qed.

(** At the end of the string only stars match. *)
Lemma run_skip_stars m p flags ts :
  Forall (tok_ok flags) ts → cstr m p (pattern ts) →
  ∃ q c, skip_stars p m = Ret q m ∧ m !! q = Some c ∧ is_byte c ∧ (c = 0 ↔ glob ts []).
Proof.
  intros Hok Hp. unfold skip_stars. rewrite run_scan_fuel.
  pose proof (cstr_size _ _ _ Hp) as Hsz.
  assert (length (pattern ts) < S (size m))%nat as Hf by lia. clear Hsz.
  revert p Hp Hf. generalize (S (size m)) as fuel.
  induction Hok as [|x ts Hx Hok IH]; intros [|fuel] p Hp Hf; try lia; rewrite run_loop; cbn beta.
  - apply cstr_nil in Hp. crun. change (s8 0 =? 42) with false. exists p, 0. crun.
    split_and!; [done|done|auto|]. split; [constructor|done].
  - destruct (first_at m p flags (x :: ts)) as [H1 Hb]; [by constructor|done|]. crun.
    rewrite s8_const by (done || lia). destruct (decide (x = Star)) as [->|Hne].
    + simpl first. change (42 =? 42) with true. crun. rewrite render_cons in Hp, Hf. simpl in Hp, Hf.
      apply cstr_cons in Hp as (_ & _ & Hp).
      destruct (IH fuel (p + 1) Hp) as (q & c & Hrun & Hq & Hc & Hg); [lia|].
      exists q, c. split_and!; [done..|]. rewrite Hg. split; [by constructor|by inversion 1].
    + rewrite (proj2 (Z.eqb_neq (first (x :: ts)) 42)).
      2: { destruct x; simpl in Hx |- *; try done; lia. }
      exists p, (first (x :: ts)). crun. split_and!; [done..|]. split.
      * destruct x; simpl in Hx |- *; try done; lia.
      * inversion 1; subst; done.
Qed.

Definition decides (r : Z) ts t : Prop := (r = 0 ∨ r = 1) ∧ (r = 0 ↔ glob ts t).

Lemma decides_ne (ts : list tok) (t : list Z) : ¬ glob ts t → decides 1 ts t.
Proof. intros Hn. split; [by right|]. by split. Qed.

Lemma decides_iff r ts t ts' t' : decides r ts t → (glob ts t ↔ glob ts' t') → decides r ts' t'.
Proof. intros [H1 H2] H. split; [done|]. by rewrite H2. Qed.

Lemma decides_cbool r ts t : decides r ts t → cbool (negb (r =? 0)) = r.
Proof. by intros [[-> | ->] _]. Qed.

(** The set at the front of a pattern. *)
Lemma run_set m p s c flags neg items ts :
  tok_ok flags (Members neg items) → m !! s = Some c → is_byte c →
  cstr m p (pattern (Members neg items :: ts)) →
  ∃ x q, m !! (p + 1) = Some x ∧ is_byte x ∧
  (if x =? 33 then match_set (p + 2) s true else match_set (p + 1) s false) m =
    Ret (if set_accepts neg items c then Some q else None) m ∧ cstr m q (pattern ts).
Proof.
  intros (Hok & Hbang & Hone) Hc Hcb Hp. rewrite <-code_accepts_set by done. rewrite render_cons in Hp. cbn [render_tok] in Hp.
  rewrite <-app_comm_cons in Hp. apply cstr_cons in Hp as (_ & _ & Hp).
  rewrite <-!app_assoc in Hp. simpl ([93] ++ _) in Hp.
  set (l := mjoin (map render_item items)) in *. destruct neg; simpl app in Hp.
  - apply cstr_cons in Hp as (H33 & _ & Hp). replace (p + 1 + 1) with (p + 2) in Hp by lia.
    exists 33, (p + 2 + Z.of_nat (length l) + 1). split_and!; [done|by_decide| |].
    + change (33 =? 33) with true. by apply (run_match_set m _ s c true items (pattern ts)).
    + apply cstr_app in Hp as (_ & _ & Hp). by apply cstr_cons in Hp as (_ & _ & ?).
  - specialize (Hbang eq_refl). pose proof Hp as Hset.
    assert (∃ x, m !! (p + 1) = Some x ∧ is_byte x ∧ x ≠ 33) as (x & Hx & Hxb & Hx33).
    { destruct Hok as [|it items Hit _]; [|destruct it]; subst l; simpl in Hp, Hbang;
        apply cstr_cons in Hp as (? & ? & _); eexists; split_and!; eauto. }
    exists x, (p + 1 + Z.of_nat (length l) + 1). split_and!; [done|done| |].
    + rewrite (proj2 (Z.eqb_neq x 33)) by done.
      by apply (run_match_set m _ s c false items (pattern ts)).
    + apply cstr_app in Hset as (_ & _ & Hset). by apply cstr_cons in Hset as (_ & _ & ?).
Qed.

(** What a call returns for smaller arguments. *)
Definition go_upto (fuel : nat) flags m : Prop := ∀ ts t p s,
  Forall (tok_ok flags) ts → cstr m p (pattern ts) → cstr m s t →
  (length (pattern ts) + length t < fuel)%nat →
  ∃ r, fnmatch_go fuel p s flags m = Ret r m ∧ decides r ts t.

Definition escaped ts : bool := match ts with Esc _ :: _ => true | _ => false end.

Lemma run_escaped flags m ts p :
  flags = 0 ∨ flags = FNM_NOESCAPE → Forall (tok_ok flags) ts → cstr m p (pattern ts) →
  (if flags =? 0 then c ← loadc p; mret (c =? 92) else mret false) m = Ret (escaped ts) m.
Proof.
  intros Hfl Hok Hp. destruct (first_at m p flags ts Hok Hp) as [H1 Hb1].
  destruct Hfl as [-> | ->]; [|destruct Hok as [|[] ts Hx _]; try done; by destruct Hx as [? _]].
  change (0 =? 0) with true. cbn iota. crun. rewrite s8_const by (done || lia). f_equal.
  destruct Hok as [|x ts Hx _]; [done|]. destruct x; simpl in Hx |- *; try done.
  apply Z.eqb_neq. by apply Hx.
Qed.

(** The end of the string. *)
Lemma go_end flags fuel m ts p s :
  flags = 0 ∨ flags = FNM_NOESCAPE → Forall (tok_ok flags) ts →
  cstr m p (pattern ts) → cstr m s [] →
  ∃ r, plain_step fuel flags p s m = Ret r m ∧ decides r ts [].
Proof.
  intros Hfl Hok Hp Hs. unfold plain_step. rewrite run_bind, (run_escaped flags m ts p Hfl Hok Hp).
  cbn beta iota. apply cstr_nil in Hs. destruct (escaped ts) eqn:E.
  - destruct ts as [|[|x| | |] ts]; try done. rewrite render_cons in Hp. simpl in Hp.
    apply cstr_cons in Hp as (_ & _ & Hp). apply cstr_cons in Hp as (Hx & Hxr & _). crun.
    rewrite (s8_eqb x 0) by auto. rewrite (proj2 (Z.eqb_neq x 0)) by lia. exists 1. split; [done|].
    apply decides_ne. by inversion 1.
  - destruct (run_skip_stars m p flags ts Hok Hp) as (q & e & Hrun & Hq & He & Hg).
    crun. rewrite Hrun. crun. rewrite s8_zero by done. exists (cbool (negb (e =? 0))).
    split; [done|]. unfold decides. rewrite <-Hg. destruct (Z.eqb_spec e 0); simpl; split; auto; lia.
Qed.

(** A character against the front of the pattern. *)
Lemma go_char flags fuel m x ts c t p s :
  flags = 0 ∨ flags = FNM_NOESCAPE → go_upto fuel flags m → Forall (tok_ok flags) (x :: ts) →
  cstr m p (pattern (x :: ts)) → cstr m s (c :: t) →
  (length (pattern (x :: ts)) + length (c :: t) < S fuel)%nat →
  ∃ r, plain_step fuel flags p s m = Ret r m ∧ decides r (x :: ts) (c :: t).
Proof.
  intros Hfl IH Hok Hp Hs Hf. unfold plain_step.
  rewrite run_bind, (run_escaped flags m _ p Hfl Hok Hp). cbn beta iota.
  destruct (first_at m p flags _ Hok Hp) as [H1 Hb1]. pose proof Hp as Hp0.
  apply cstr_cons in Hs as (Hc & Hcr & Hs') . apply Forall_cons in Hok as [Hx Hok].
  rewrite render_cons, length_app in Hf. rewrite render_cons in Hp.
  destruct x as [x|x| | |neg items]; cbn [escaped first] in *; simpl in Hx, Hf; cbn iota; crun;
    rewrite ?s8_nonzero by done; rewrite ?s8_const by (done || lia); crun.
  - simpl in Hp. apply cstr_cons in Hp as (_ & _ & Hp).
    destruct Hx as (Hx & H42 & H63 & H91 & _). rewrite ?s8_const by (auto || lia).
    rewrite (proj2 (Z.eqb_neq x 91)), (proj2 (Z.eqb_neq x 42)), (proj2 (Z.eqb_neq x 0)) by lia.
    rewrite (s8_const x 63), (proj2 (Z.eqb_neq x 63)), s8_eqb by (auto || lia). rewrite orb_false_r.
    destruct (Z.eqb_spec x c) as [->|Hne].
    + destruct (IH ts t (p + 1) (s + 1)) as (r & Hr & Hd); [done..|lia|]. exists r. split; [done|].
      apply (decides_iff _ _ _ _ _ Hd). split; [by constructor|by inversion 1].
    + exists 1. split; [done|]. apply decides_ne. by inversion 1.
  - simpl in Hp. apply cstr_cons in Hp as (_ & _ & Hp). apply cstr_cons in Hp as (Hx1 & Hxr & Hp). crun.
    rewrite s8_eqb by auto. destruct (Z.eqb_spec x c) as [->|Hne]; cbn [negb].
    + destruct (IH ts t (p + 1 + 1) (s + 1)) as (r & Hr & Hd); [done..|lia|]. exists r. crun. rewrite Hr.
      crun. rewrite (decides_cbool _ _ _ Hd). split; [done|].
      apply (decides_iff _ _ _ _ _ Hd). split; [by constructor|by inversion 1].
    + exists 1. split; [done|]. apply decides_ne. by inversion 1.
  - change (s8 63) with 63. change (63 =? 91) with false. change (63 =? 42) with false. change (63 =? 0) with false.
    change (63 =? 63) with true. rewrite orb_true_r. simpl in Hp. apply cstr_cons in Hp as (_ & _ & Hp).
    destruct (IH ts t (p + 1) (s + 1)) as (r & Hr & Hd); [done..|lia|]. exists r. split; [done|].
    apply (decides_iff _ _ _ _ _ Hd). split; [by constructor|by inversion 1].
  - change (s8 42) with 42. change (42 =? 91) with false. change (42 =? 42) with true. simpl in Hp.
    apply cstr_cons in Hp as (_ & _ & Hp). crun.
    destruct (IH (Star :: ts) t p (s + 1)) as (r & Hr & Hd); [by constructor|done|done| |].
    { rewrite render_cons, length_app. simpl. lia. }
    crun. rewrite ?Hr. crun. destruct Hd as [[-> | ->] Hd]; cbn [negb Z.eqb].
    + exists 0. split; [done|]. split; [by left|]. split; [|done]. intros _. apply glob_more. by apply Hd.
    + destruct (IH ts (c :: t) (p + 1) s) as (r & Hr2 & Hd2); [done..| |simpl; lia|].
      { by apply cstr_cons. }
      exists r. split; [done|]. apply (decides_iff _ _ _ _ _ Hd2). split; [by constructor|].
      inversion 1; subst; [done|]. destruct Hd as [_ Hd]. by specialize (Hd ltac:(done)).
  - change (s8 91 =? 91) with true. crun.
    destruct (run_set m p s c flags neg items ts Hx Hc ltac:(auto) Hp0) as (y & q & Hy & Hyb & Hrun & Hq).
    crun. rewrite (s8_const y 33) by (done || lia). rewrite Hrun. crun.
    destruct (set_accepts neg items c) eqn:Eacc.
    + destruct (IH ts t q (s + 1)) as (r & Hr & Hd); [done..|lia|]. exists r. split; [done|].
      apply (decides_iff _ _ _ _ _ Hd). split; [by constructor|by inversion 1].
    + exists 1. split; [done|]. apply decides_ne. inversion 1. congruence.
Qed.

Lemma go_ok flags fuel m : flags = 0 ∨ flags = FNM_NOESCAPE → go_upto fuel flags m.
Proof.
  intros Hfl. induction fuel as [|fuel IH]; intros ts t p s Hok Hp Hs Hf; [lia|].
  rewrite go_step by done. destruct t as [|c t]; [by apply go_end|].
  destruct ts as [|x ts]; [|by apply go_char].
  unfold plain_step. rewrite run_bind, (run_escaped flags m [] p Hfl Hok Hp). cbn beta iota.
  apply cstr_nil in Hp. apply cstr_cons in Hs as (Hc & Hcr & _). cbn [escaped]. crun.
  rewrite s8_nonzero by done. crun. exists 1. split; [done|]. apply decides_ne. by inversion 1.
Qed.
End matching.

(** ** Theorems *)

(** C17: with the flags 0 or FNM_NOESCAPE, fnmatch terminates on every well-formed pattern
    and string, changes nothing, and returns 0 exactly when the string matches the
    pattern as POSIX has it: literal and escaped characters, question marks, stars that
    stand for any sequence, sets of members and ranges, and negated sets of one member
    or range.  (A negated set of more accepts what it should not: [fnmatch_negated_set].) *)
Theorem fnmatch_glob m p s ts t flags :
  flags = 0 ∨ flags = FNM_NOESCAPE → Forall (tok_ok flags) ts →
  cstr m p (pattern ts) → cstr m s t →
  ∃ r, fnmatch p s flags m = Ret r m ∧ (r = 0 ∨ r = 1) ∧ (r = 0 ↔ glob ts t).
Proof.
  intros Hfl Hok Hp Hs. unfold fnmatch. apply go_ok; [done..|].
  apply cstr_size in Hp. apply cstr_size in Hs. lia.
Qed.

(** The pattern [a*[x-z]?[!b]] and the string [abcy?c]. *)
Definition sample_pattern : list tok := [Lit 97; Star; Members false [Range 120 122]; Any; Members true [One 98]].
Definition sample_strings : mem :=
  write_bytes (write_bytes ∅ 100 (pattern sample_pattern ++ [0])) 200 [97; 98; 99; 121; 63; 99; 0].

Lemma fnmatch_glob_witness :
  fnmatch 100 200 0 sample_strings = Ret 0 sample_strings ∧
  glob sample_pattern [97; 98; 99; 121; 63; 99].
Proof.
  destruct (fnmatch_glob sample_strings 100 200 sample_pattern [97; 98; 99; 121; 63; 99] 0)
    as (r & Hr & _ & Hg).
  - left. reflexivity.
  - unfold sample_pattern. apply Forall_cons; split; [simpl; lia|]. apply Forall_cons; split; [done|].
    apply Forall_cons; split; [split; [by constructor; [simpl; lia|]|done]|]. apply Forall_cons; split; [done|].
    apply Forall_singleton. split; [by constructor; [simpl; lia|]|done].
  - by_decide.
  - by_decide.
  - assert (fnmatch 100 200 0 sample_strings = Ret 0 sample_strings) as E by (vm_compute; reflexivity).
    rewrite E in Hr. injection Hr as <-. split; [exact E|]. apply Hg. reflexivity.
Defined.

(** *** Where the code departs from the patterns' meaning *)

Definition two_strings (p s : list Z) : mem :=
  write_bytes (write_bytes ∅ 100 (p ++ [0])) 200 (s ++ [0]).

(** A negated set of two characters accepts both of them. *)
Lemma fnmatch_negated_set :
  let m := two_strings [91; 33; 97; 98; 93] [98] in fnmatch 100 200 0 m = Ret 0 m.
Proof. by vm_compute. Qed.

(** With [FNM_PATHNAME] a star cannot end in front of a slash: a slash in the
    string is only compared with a slash in the pattern. *)
Lemma fnmatch_star_slash :
  let m := two_strings [42; 47; 98] [97; 47; 98] in
  fnmatch 100 200 FNM_PATHNAME m = Ret 1 m ∧ fnmatch 100 200 0 m = Ret 0 m.
Proof. split; by vm_compute. Qed.

(** A pattern that ends in a backslash, or inside a range, is read past its end. *)
Lemma fnmatch_overread :
  fnmatch 100 200 0 (two_strings [92] []) = UB ∧
  fnmatch 100 200 0 (two_strings [91; 97; 45] [120]) = UB.
Proof. split; by vm_compute. Qed.
