(* ===== verification/Getopt.v ===== *)
(** * Command-line options: [getopt.c], [getopt_long.c]

    The globals of the interface and the private state form the record
    [optstate]; arguments and option strings are in the byte memory.  The
    specification reads the arguments as lists of characters. *)

From stdpp Require Import base tactics numbers list gmap.
From S2P Require Import Prelude Memory Words MemFns StrFns.

Open Scope Z_scope.

(** ** State *)

Record optstate := {
  o_mem : mem;
  optarg : Z; optind : Z; opterr : Z; optopt : Z;
  optptr : Z; last_optstring : Z; last_argv : Z;
}.

Definition set_mem (m : mem) (s : optstate) : optstate :=
  {| o_mem := m; optarg := optarg s; optind := optind s; opterr := opterr s; optopt := optopt s;
     optptr := optptr s; last_optstring := last_optstring s; last_argv := last_argv s |}.
Definition set_optarg (v : Z) (s : optstate) : optstate :=
  {| o_mem := o_mem s; optarg := v; optind := optind s; opterr := opterr s; optopt := optopt s;
     optptr := optptr s; last_optstring := last_optstring s; last_argv := last_argv s |}.
Definition set_optind (v : Z) (s : optstate) : optstate :=
  {| o_mem := o_mem s; optarg := optarg s; optind := v; opterr := opterr s; optopt := optopt s;
     optptr := optptr s; last_optstring := last_optstring s; last_argv := last_argv s |}.
Definition set_optopt (v : Z) (s : optstate) : optstate :=
  {| o_mem := o_mem s; optarg := optarg s; optind := optind s; opterr := opterr s; optopt := v;
     optptr := optptr s; last_optstring := last_optstring s; last_argv := last_argv s |}.
Definition set_optptr (v : Z) (s : optstate) : optstate :=
  {| o_mem := o_mem s; optarg := optarg s; optind := optind s; opterr := opterr s; optopt := optopt s;
     optptr := v; last_optstring := last_optstring s; last_argv := last_argv s |}.

(** A computation on the memory. *)
Definition in_mem {A} (c : C mem A) : C optstate A := zoom o_mem set_mem c.

Definition skip (n : Z) : C optstate unit := modify (λ s, set_optind (optind s + n) s).

(** ** [getopt] *)

Definition restart (argv optstring : Z) (s : optstate) : optstate :=
  {| o_mem := o_mem s; optarg := optarg s; optind := 1; opterr := opterr s; optopt := optopt s;
     optptr := NULL; last_optstring := optstring; last_argv := argv |}.

(** Start over when the query is a new one. *)
Definition reinit (argc argv optstring : Z) : C optstate unit := modify (λ s,
  if negb (optstring =? last_optstring s) || negb (argv =? last_argv s) ||
     (optind s <? 1) || (argc <? optind s)
  then restart argv optstring s else s).

(** The option argument: the rest of this argument, or the next one. *)
Definition option_argument (argv optstring opt : Z) : C optstate Z :=
  s ← get;
  d ← in_mem (loadc (optptr s));
  if negb (d =? 0) then
    modify (set_optarg (optptr s));;
    skip 1;;
    mret opt
  else
    a ← in_mem (load64 (argv + 8 * (optind s + 1)));
    if negb (a =? NULL) then
      modify (set_optarg a);;
      skip 2;;
      mret opt
    else
      skip 1;;
      c ← in_mem (loadc optstring);
      mret (if c =? 58 then 58 else 63).

(** The next argument, if this one is used up. *)
Definition next_if_end : C optstate unit :=
  s ← get;
  d ← in_mem (loadc (optptr s));
  if d =? 0 then skip 1 else mret tt.

Definition short_option (argv optstring carg : Z) : C optstate Z :=
  s ← get;
  n ← in_mem (strlen carg);
  (if n <? u64 (optptr s - carg) then modify (set_optptr (carg + 1)) else mret tt);;
  s ← get;
  opt ← in_mem (loadc (optptr s));
  modify (set_optptr (optptr s + 1));;
  osptr ← (if opt =? 58 then mret NULL else in_mem (strchr optstring opt));
  if negb (osptr =? NULL) then
    c ← in_mem (loadc (osptr + 1));
    if c =? 58 then option_argument argv optstring opt
    else next_if_end;; mret opt
  else
    modify (set_optopt opt);;
    next_if_end;;
    mret 63.

(** [!carg || carg[0] != '-' || !carg[1]] *)
Definition not_option (carg : Z) : C mem bool :=
  if carg =? NULL then mret true else
  c0 ← loadc carg;
  if negb (c0 =? 45) then mret true else
  c1 ← loadc (carg + 1);
  mret (c1 =? 0).

Definition getopt (argc argv optstring : Z) : C optstate Z :=
  reinit argc argv optstring;;
  s ← get;
  carg ← in_mem (load64 (argv + 8 * optind s));
  stop ← in_mem (not_option carg);
  if stop : bool then mret (-1) else
  c1 ← in_mem (loadc (carg + 1));
  last ← in_mem (if c1 =? 45 then c2 ← loadc (carg + 2); mret (c2 =? 0) else mret false);
  if last : bool then skip 1;; mret (-1) else
  short_option argv optstring carg.

(** ** [getopt_long] *)

(** The fields of [struct option]. *)
Definition OPT_NAME : Z := 0.
Definition OPT_HAS_ARG : Z := 8.
Definition OPT_FLAG : Z := 16.
Definition OPT_VAL : Z := 24.
Definition SIZEOF_OPTION : Z := 32.

Definition load_int (p : Z) : C mem Z := v ← load_le 4 p; mret (s32 v).
Definition store_int (p v : Z) : C mem unit := store_le 4 p v.

Definition option_matches (arg_str opt_name : Z) : C mem Z :=
  r ← scan_fuel (λ fuel, loop fuel (λ '(arg_str, opt_name),
    c ← loadc arg_str;
    if (c =? 0) || (c =? 61) then Break (Some (arg_str, opt_name)) else
    d ← loadc opt_name;
    if negb (c =? d) then Break None else
    Next (arg_str + 1, opt_name + 1)) (arg_str, opt_name));
  match r with
  | None => mret NULL
  | Some (arg_str, opt_name) =>
      d ← loadc opt_name;
      if negb (d =? 0) then mret NULL else mret arg_str
  end.

(** The first long option that matches, and where its name ends in the argument. *)
Definition find_long (longopts arg : Z) : C mem (option (Z * Z)) :=
  scan_fuel (λ fuel, loop fuel (λ lo,
    name ← load64 (lo + OPT_NAME);
    if name =? NULL then Break None else
    e ← option_matches arg name;
    if negb (e =? NULL) then Break (Some (lo, e)) else Next (lo + SIZEOF_OPTION)) longopts).

(** The value of a long option: its flag is set, or it is returned. *)
Definition long_value (lo : Z) : C mem Z :=
  flag ← load64 (lo + OPT_FLAG);
  val ← load_int (lo + OPT_VAL);
  if negb (flag =? NULL) then store_int flag val;; mret 0 else mret val.

(** The argument of a long option; [false] is an error. *)
Definition long_argument (argv lo opt_end : Z) : C optstate bool :=
  c ← in_mem (loadc opt_end);
  has_arg ← in_mem (load_int (lo + OPT_HAS_ARG));
  if c =? 61 then
    if negb (has_arg =? 0) then modify (set_optarg (opt_end + 1));; mret true
    else mret false
  else if has_arg =? 1 then
    s ← get;
    a ← in_mem (load64 (argv + 8 * optind s));
    modify (set_optarg a);;
    if a =? NULL then mret false else skip 1;; mret true
  else mret true.

Definition getopt_long (argc argv optstring longopts longindex : Z) : C optstate Z :=
  reinit argc argv optstring;;
  s ← get;
  carg ← in_mem (load64 (argv + 8 * optind s));
  stop ← in_mem (not_option carg);
  if stop : bool then mret (-1) else
  c1 ← in_mem (loadc (carg + 1));
  if c1 =? 45 then
    skip 1;;
    c2 ← in_mem (loadc (carg + 2));
    if c2 =? 0 then mret (-1) else
    r ← in_mem (find_long longopts (carg + 2));
    match r with
    | None => mret 63
    | Some (lo, opt_end) =>
        (if negb (longindex =? NULL)
         then in_mem (store_int longindex ((lo - longopts) / SIZEOF_OPTION)) else mret tt);;
        ok ← long_argument argv lo opt_end;
        if ok : bool then in_mem (long_value lo) else mret 63
    end
  else short_option argv optstring carg.

(** ** What the options of a command line are *)

Inductive event :=
  | Opt (c : Z) (arg : option (list Z))
  | Missing (c : Z)
  | Unknown (c : Z)
  | End.

#[export] Instance event_eq_dec : EqDecision event.
Proof. solve_decision. Defined.

(** Whether the character is an option, and takes an argument. *)
Definition takes_arg (optstr : list Z) (c : Z) : option bool :=
  if c =? 58 then None else
  '(i, _) ← list_find (λ b, b = c) optstr;
  Some (bool_decide (optstr !! S i = Some 58)).

(** What is left to read: the rest of a group of options, and the arguments. *)
Definition pos : Type := list Z * list (list Z).

Definition spec_char (optstr : list Z) (c : Z) (cs : list Z) (rest : list (list Z)) : event * pos :=
  match takes_arg optstr c with
  | None => (Unknown c, (cs, rest))
  | Some false => (Opt c None, (cs, rest))
  | Some true =>
      match cs, rest with
      | _ :: _, _ => (Opt c (Some cs), ([], rest))
      | [], a :: rest' => (Opt c (Some a), ([], rest'))
      | [], [] => (Missing c, ([], []))
      end
  end.

Definition spec_step (optstr : list Z) (st : pos) : event * pos :=
  match st with
  | (c :: cs, rest) => spec_char optstr c cs rest
  | ([], args) =>
      match args with
      | (x :: c :: cs) :: rest =>
          if negb (x =? 45) then (End, ([], args)) else
          if bool_decide (c = 45 ∧ cs = []) then (End, ([], rest)) else
          spec_char optstr c cs rest
      | _ => (End, ([], args))
      end
  end.

Definition measure (st : pos) : nat :=
  (length st.1 + sum_list_with (λ a, S (length a)) st.2)%nat.

(** The events of a command line, up to the first argument that is no option, and
    the operands from there. *)
Fixpoint parse (fuel : nat) (optstr : list Z) (st : pos) : list event * list (list Z) :=
  match fuel with
  | O => ([], [])
  | S fuel =>
      let '(e, st') := spec_step optstr st in
      match e with
      | End => ([End], st'.2)
      | _ => let '(es, ops) := parse fuel optstr st' in (e :: es, ops)
      end
  end.

Definition options (optstr : list Z) (args : list (list Z)) : list event * list (list Z) :=
  parse (S (measure ([], args))) optstr ([], args).

(** ** The specification ends *)

Section spec.
Implicit Types (optstr cs : list Z) (rest : list (list Z)) (st : pos) (e : event).

Lemma spec_char_measure optstr c cs rest e st :
  spec_char optstr c cs rest = (e, st) → (measure st < measure (c :: cs, rest))%nat.
Proof.
  unfold spec_char, measure. destruct (takes_arg optstr c) as [[]|].
  - destruct cs as [|d cs]; [destruct rest as [|a rest]|]; intros [= <- <-]; simpl; lia.
  - intros [= <- <-]. simpl. lia.
  - intros [= <- <-]. simpl. lia.
Qed.

Lemma spec_step_measure optstr st e st' :
  spec_step optstr st = (e, st') → e = End ∨ (measure st' < measure st)%nat.
Proof.
  destruct st as [[|c cs] rest]; simpl; [|intros E; right; by eapply spec_char_measure].
  destruct rest as [|[|x [|c cs]] rest]; [intros [= <- <-]; by left..|].
  destruct (x =? 45); simpl; [|intros [= <- <-]; by left].
  case_bool_decide; [intros [= <- <-]; by left|]. intros E. right.
  apply spec_char_measure in E. unfold measure in *. simpl in *. lia.
Qed.

Lemma parse_more fuel fuel' optstr st :
  (measure st < fuel)%nat → (fuel ≤ fuel')%nat → parse fuel' optstr st = parse fuel optstr st.
Proof.
  revert fuel' st. induction fuel as [|fuel IH]; intros [|fuel'] st Hm Hle; try lia. simpl.
  destruct (spec_step optstr st) as [e st'] eqn:E. apply spec_step_measure in E as [->|E]; [done|].
  destruct e; try done; rewrite (IH fuel') by lia; done.
Qed.
End spec.

(** ** [getopt] follows the specification *)

Section sim.
Context (m : mem) (argv optstring : Z) (optstr : list Z) (args : list (list Z)) (ptrs : list Z).
Implicit Types (s : optstate) (a cs : list Z) (rest : list (list Z)) (st : pos).

(** The command line in memory: the vector of pointers with its null pointer, and
    the strings, which do not overlap. *)
Record cmdline : Prop := {
  cl_optstr : cstr m optstring optstr ∧ 0 < optstring;
  cl_length : length ptrs = length args ∧ (0 < length args)%nat;
  cl_ptr i p : ptrs !! i = Some p → word m (argv + 8 * Z.of_nat i) = Some p;
  cl_null : word m (argv + 8 * Z.of_nat (length args)) = Some NULL;
  cl_arg i p a : ptrs !! i = Some p → args !! i = Some a →
    cstr m p a ∧ 0 < p ∧ p + Z.of_nat (length a) < 2 ^ 63;
  cl_disjoint i j p q a b : i ≠ j → ptrs !! i = Some p → args !! i = Some a →
    ptrs !! j = Some q → args !! j = Some b →
    disjoint_ranges p (Z.of_nat (length a) + 1) q (Z.of_nat (length b) + 1);
}.

Context (Hcl : cmdline).

(** The pointer of the private state is left over from an earlier argument. *)
Definition stale (q : Z) (i : nat) : Prop :=
  q = NULL ∨ ∃ j p a, (j < i)%nat ∧ ptrs !! j = Some p ∧ args !! j = Some a ∧
    p ≤ q ≤ p + Z.of_nat (length a).

Definition at_pos s st : Prop :=
  o_mem s = m ∧ last_optstring s = optstring ∧ last_argv s = argv ∧
  ∃ i, optind s = Z.of_nat i ∧ (1 ≤ i ≤ length args)%nat ∧
  match st.1 with
  | [] => st.2 = drop i args ∧ stale (optptr s) i
  | _ => ∃ p a k, ptrs !! i = Some p ∧ args !! i = Some a ∧ a !! 0%nat = Some 45 ∧ (2 ≤ k)%nat ∧
           optptr s = p + Z.of_nat k ∧ st.1 = drop k a ∧ st.2 = drop (S i) args
  end.

(** What the caller sees of an event. *)
Definition observed (e : event) (r : Z) s : Prop :=
  match e with
  | Opt c None => r = s8 c
  | Opt c (Some b) => r = s8 c ∧ cstr m (optarg s) b
  | Missing _ => r = if bool_decide (optstr !! 0%nat = Some 58) then 58 else 63
  | Unknown c => r = 63 ∧ optopt s = s8 c
  | End => r = -1
  end.

Lemma run_in_mem {A} (c : C mem A) s x :
  o_mem s = m → c m = Ret x m → in_mem c s = Ret x s.
Proof. intros E H. unfold in_mem, zoom. rewrite E, H, <-E. by destruct s. Qed.

Lemma ptr_of i a : args !! i = Some a → ∃ p, ptrs !! i = Some p.
Proof.
  intros Ha. apply lookup_lt_Some in Ha. apply lookup_lt_is_Some_2.
  destruct Hcl as [_ [E _] _ _ _ _]. lia.
Qed.

Lemma stale_reset q i p a :
  stale q i → ptrs !! i = Some p → args !! i = Some a → Z.of_nat (length a) < u64 (q - p).
Proof.
  intros Hst Hp Ha. destruct (cl_arg Hcl i p a Hp Ha) as (_ & Hpos & Hend).
  destruct Hst as [->|(j & p' & a' & Hj & Hp' & Ha' & Hq)].
  - unfold NULL, wrap. rewrite <-(Z_mod_plus_full _ 1), Z.mod_small by lia. lia.
  - destruct (cl_arg Hcl j p' a' Hp' Ha') as (_ & Hpos' & Hend').
    destruct (cl_disjoint Hcl j i p' p a' a ltac:(lia) Hp' Ha' Hp Ha) as [Hd|Hd].
    + unfold wrap. rewrite <-(Z_mod_plus_full _ 1), Z.mod_small by lia. lia.
    + rewrite wrap_small by lia. lia.
Qed.

Lemma drop_lookup_cons {A} (l : list A) k x l' :
  drop k l = x :: l' → l !! k = Some x ∧ drop (S k) l = l'.
Proof.
  intros E. pose proof (lookup_drop l k 0) as H. rewrite E, Nat.add_0_r in H. split; [done|].
  replace (S k) with (k + 1)%nat by lia. by rewrite <-drop_drop, E.
Qed.

(** The character after one of a string. *)
Lemma next_char p a k c cs :
  cstr m p a → drop k a = c :: cs →
  m !! (p + Z.of_nat k) = Some c ∧ 0 < c < 256 ∧
  m !! (p + Z.of_nat k + 1) = Some (hd 0 cs) ∧ is_byte (hd 0 cs) ∧ (hd 0 cs = 0 ↔ cs = []) ∧
  cstr m (p + Z.of_nat k + 1) cs.
Proof.
  intros Hs E. pose proof (take_drop k a) as Hk. rewrite E in Hk. rewrite <-Hk in Hs.
  assert (length (take k a) = k) as Hlen.
  { rewrite length_take. apply drop_lookup_cons in E as [E _]. apply lookup_lt_Some in E. lia. }
  apply cstr_app in Hs as (_ & _ & Hs). rewrite Hlen in Hs. apply cstr_cons in Hs as (Hc & Hr & Hs).
  split_and!; [done|lia|lia| | | |done].
  - destruct cs; [by apply cstr_nil in Hs|by apply cstr_cons in Hs as (? & _)].
  - destruct cs; [auto|apply cstr_cons in Hs as (_ & ? & _)]. simpl. auto.
  - destruct cs as [|d cs]; [done|apply cstr_cons in Hs as (_ & ? & _)]. simpl. split; [lia|done].
Qed.

(** An option character of the argument [i] has just been read. *)
Definition inside s (i : nat) (p : Z) a (k : nat) : Prop :=
  o_mem s = m ∧ last_optstring s = optstring ∧ last_argv s = argv ∧
  optind s = Z.of_nat i ∧ (1 ≤ i)%nat ∧ ptrs !! i = Some p ∧ args !! i = Some a ∧
  a !! 0%nat = Some 45 ∧ (1 ≤ k)%nat ∧ optptr s = p + Z.of_nat k + 1.

(** Moving on to the next argument. *)
Lemma inside_skip s i p a k c cs :
  inside s i p a k → drop k a = c :: cs →
  at_pos (set_optind (optind s + 1) s) ([], drop (S i) args).
Proof.
  intros (Hm & Ho & Hv & Hi & H1 & Hp & Ha & H0 & Hk & Hq) E.
  assert (k < length a)%nat by (apply drop_lookup_cons in E as [E _]; by apply lookup_lt_Some in E).
  pose proof (lookup_lt_Some _ _ _ Ha). split_and!; [done..|]. exists (S i). simpl.
  split_and!; [lia|lia|lia|done|]. right. exists i, p, a. split_and!; [lia|done|done|lia|lia].
Qed.

Lemma run_next_if_end s i p a k c cs :
  inside s i p a k → drop k a = c :: cs →
  ∃ s', next_if_end s = Ret tt s' ∧ at_pos s' (cs, drop (S i) args) ∧ optopt s' = optopt s.
Proof.
  intros Hin E. pose proof Hin as (Hm & Ho & Hv & Hi & H1 & Hp & Ha & H0 & Hk & Hq).
  destruct (cl_arg Hcl i p a Hp Ha) as (Hs & _).
  destruct (next_char p a k c cs Hs E) as (_ & _ & Hn & Hnb & Hn0 & _).
  unfold next_if_end. rewrite run_bind. unfold get. cbn beta iota. rewrite Hq.
  rewrite run_bind, (run_in_mem _ s _ Hm (run_loadc _ _ _ Hn)). cbn beta iota.
  rewrite s8_zero by done. destruct (Z.eqb_spec (hd 0 cs) 0) as [Ez|Ez].
  - apply Hn0 in Ez as ->. eexists. split; [done|]. split; [|done].
    by apply (inside_skip s i p a k c []).
  - exists s. split; [done|]. split; [|done]. split_and!; [done..|].
    destruct cs as [|d cs]; [done|]. exists i.
    pose proof (lookup_lt_Some _ _ _ Ha). split_and!; [done|lia|lia|]. cbn [fst snd].
    exists p, a, (S k). apply drop_lookup_cons in E as [_ E]. split_and!; try done; lia.
Qed.

Lemma run_option_argument s i p a k c cs :
  inside s i p a k → drop k a = c :: cs →
  ∃ r s', option_argument argv optstring (s8 c) s = Ret r s' ∧
  match cs, drop (S i) args with
  | _ :: _, rest => observed (Opt c (Some cs)) r s' ∧ at_pos s' ([], rest)
  | [], b :: rest => observed (Opt c (Some b)) r s' ∧ at_pos s' ([], rest)
  | [], [] => observed (Missing c) r s' ∧ at_pos s' ([], [])
  end.
Proof.
  intros Hin E. pose proof Hin as (Hm & Ho & Hv & Hi & H1 & Hp & Ha & H0 & Hk & Hq).
  destruct (cl_arg Hcl i p a Hp Ha) as (Hs & _).
  destruct (next_char p a k c cs Hs E) as (_ & _ & Hn & Hnb & Hn0 & Hcs).
  unfold option_argument. rewrite run_bind. unfold get. cbn beta iota. rewrite Hq.
  rewrite run_bind, (run_in_mem _ s _ Hm (run_loadc _ _ _ Hn)). cbn beta iota.
  rewrite s8_zero by done. destruct cs as [|d cs].
  2: { rewrite (proj2 (Z.eqb_neq _ 0)) by (by rewrite Hn0). cbn [negb]. unfold skip, modify.
    crun. eexists _, _. split; [done|]. split; [done|].
    exact (inside_skip (set_optarg (p + Z.of_nat k + 1) s) i p a k c _ Hin E). }
  cbn [hd]. change (0 =? 0) with true. cbn [negb].
  destruct (drop (S i) args) as [|b rest] eqn:Edrop.
  - assert (length args = S i) as Hlen.
    { apply lookup_lt_Some in Ha. apply (f_equal length) in Edrop. rewrite length_drop in Edrop.
      simpl in Edrop. lia. }
    pose proof (cl_null Hcl) as Hw. rewrite Hlen in Hw.
    replace (Z.of_nat (S i)) with (optind s + 1) in Hw by lia.
    rewrite run_bind, (run_in_mem _ s _ Hm (run_load64 _ _ _ Hw)). cbn beta iota.
    change (NULL =? NULL) with true. cbn [negb]. destruct (cl_optstr Hcl) as [Hos _].
    assert (∃ x, m !! optstring = Some x ∧ is_byte x ∧ (x = 58 ↔ optstr !! 0%nat = Some 58)) as (x & Hx & Hxb & Hx58).
    { destruct optstr as [|x os]; [apply cstr_nil in Hos; exists 0|apply cstr_cons in Hos as (? & ? & _); exists x];
        (split_and!; [done|auto|]); simpl; naive_solver. }
    unfold skip, modify. crun. eexists _, _. split; [|split].
    + erewrite run_in_mem; [done|exact Hm|by apply run_loadc].
    + simpl. rewrite s8_const by (done || lia). destruct (Z.eqb_spec x 58) as [Ex|Ex].
      * rewrite bool_decide_eq_true_2 by tauto. done.
      * rewrite bool_decide_eq_false_2 by tauto. done.
    + rewrite <-Edrop. exact (inside_skip s i p a k c _ Hin E).
  - apply drop_lookup_cons in Edrop as [Hb Edrop]. destruct (ptr_of _ _ Hb) as [q Hq'].
    pose proof (cl_ptr Hcl _ _ Hq') as Hw. replace (Z.of_nat (S i)) with (optind s + 1) in Hw by lia.
    destruct (cl_arg Hcl _ q b Hq' Hb) as (Hbs & Hpos & _).
    rewrite run_bind, (run_in_mem _ s _ Hm (run_load64 _ _ _ Hw)). cbn beta iota.
    rewrite (proj2 (Z.eqb_neq q NULL)) by (unfold NULL; lia). cbn [negb]. unfold skip, modify. crun.
    eexists _, _. split; [done|]. split; [done|]. split_and!; [done..|]. exists (S (S i)). simpl.
    pose proof (lookup_lt_Some _ _ _ Hb). split_and!; [lia|lia|lia|done|].
    right. exists i, p, a. apply drop_lookup_cons in E as [E _]. apply lookup_lt_Some in E.
    split_and!; [lia|done|done|lia|lia].
Qed.

(** The search of the option string. *)
Lemma run_find_opt c :
  0 < c < 256 →
  ∃ os, (if s8 c =? 58 then mret NULL else strchr optstring (s8 c)) m = Ret os m ∧
  match takes_arg optstr c with
  | None => os = NULL
  | Some b => os ≠ NULL ∧ ∃ x, m !! (os + 1) = Some x ∧ is_byte x ∧ (x =? 58) = b
  end.
Proof.
  intros Hc. destruct (cl_optstr Hcl) as [Hos Hpos]. unfold takes_arg.
  rewrite s8_const by (auto || lia). destruct (Z.eqb_spec c 58) as [|Hne]; [by exists NULL|].
  rewrite (run_strchr m optstring optstr _ Hos), u8_s8, u8_byte by auto. eexists. split; [done|].
  destruct (list_find (λ b, b = c) optstr) as [[i x]|] eqn:E.
  - rewrite (list_find_app_l _ _ _ _ _ E). cbn. apply list_find_Some in E as (Hi & -> & _).
    split; [unfold NULL; lia|].
    destruct (optstr !! S i) as [y|] eqn:Ey.
    + destruct (cstr_lookup _ _ _ _ _ Hos Ey) as [Hy Hyb]. exists y.
      replace (optstring + Z.of_nat i + 1) with (optstring + Z.of_nat (S i)) by lia.
      split_and!; [done|auto|]. destruct (Z.eqb_spec y 58) as [->|Hy58].
      * by rewrite bool_decide_eq_true_2.
      * by rewrite bool_decide_eq_false_2 by congruence.
    + pose proof (cstr_nul _ _ _ Hos) as Hn. apply lookup_ge_None in Ey. apply lookup_lt_Some in Hi.
      exists 0. replace (optstring + Z.of_nat i + 1) with (optstring + Z.of_nat (length optstr)) by lia.
      split_and!; [done|auto|]. by rewrite bool_decide_eq_false_2.
  - cbn. rewrite list_find_app_r by done. simpl. rewrite decide_False by lia. done.
Qed.

Lemma run_short_option s i p a k c cs :
  o_mem s = m → last_optstring s = optstring → last_argv s = argv → optind s = Z.of_nat i →
  (1 ≤ i)%nat → ptrs !! i = Some p → args !! i = Some a → a !! 0%nat = Some 45 →
  drop k a = c :: cs → (1 ≤ k)%nat →
  optptr s = p + Z.of_nat k ∨ (k = 1%nat ∧ stale (optptr s) i) →
  ∃ r s', short_option argv optstring p s = Ret r s' ∧
  observed (spec_char optstr c cs (drop (S i) args)).1 r s' ∧
  at_pos s' (spec_char optstr c cs (drop (S i) args)).2.
Proof.
  intros Hm Ho Hv Hi H1 Hp Ha H0 E Hk Hptr.
  destruct (cl_arg Hcl i p a Hp Ha) as (Hs & Hpos & Hend).
  destruct (next_char p a k c cs Hs E) as (Hc & Hcr & _).
  assert (k < length a)%nat as Hlt by (apply drop_lookup_cons in E as [E' _]; by apply lookup_lt_Some in E').
  unfold short_option, get. rewrite run_bind. cbn beta iota.
  rewrite run_bind, (run_in_mem _ s _ Hm (run_strlen _ _ _ Hs)). cbn beta iota.
  set (s1 := set_optptr (p + Z.of_nat k) s).
  assert ((if Z.of_nat (length a) <? u64 (optptr s - p) then modify (set_optptr (p + 1)) else mret tt) s
    = Ret tt s1) as Hset.
  { destruct Hptr as [Hq|[-> Hst]].
    - rewrite Hq, wrap_small, (proj2 (Z.ltb_ge _ _)) by lia. unfold s1. rewrite <-Hq. by destruct s.
    - by rewrite (proj2 (Z.ltb_lt _ _) (stale_reset _ _ _ _ Hst Hp Ha)). }
  rewrite run_bind, Hset. cbn beta iota. rewrite run_bind. cbn beta iota.
  rewrite run_bind. cbn [optptr s1 set_optptr].
  rewrite (run_in_mem (loadc (p + Z.of_nat k)) s1 (s8 c) Hm (run_loadc _ _ _ Hc)). cbn beta iota.
  rewrite run_bind, run_modify. cbn beta iota.
  set (s2 := set_optptr (p + Z.of_nat k + 1) s1).
  assert (inside s2 i p a k) as Hin by (by split_and!).
  destruct (run_find_opt c Hcr) as (os & Hfind & Hos).
  assert ((if s8 c =? 58 then mret NULL else in_mem (strchr optstring (s8 c))) s2 = Ret os s2) as Hf2.
  { destruct (s8 c =? 58); [by injection Hfind as ->|]. by apply (run_in_mem _ s2 _ Hm). }
  rewrite run_bind, Hf2. cbn beta iota. unfold spec_char.
  destruct (takes_arg optstr c) as [b|].
  - destruct Hos as (Hnn & x & Hx & Hxb & Hb). rewrite (proj2 (Z.eqb_neq os NULL)) by done. cbn [negb].
    rewrite run_bind, (run_in_mem _ s2 _ Hm (run_loadc _ _ _ Hx)). cbn beta iota.
    rewrite s8_const, Hb by (done || lia). destruct b.
    + destruct (run_option_argument s2 i p a k c cs Hin E) as (r & s' & Hrun & Hres).
      exists r, s'. split; [done|]. destruct cs as [|d cs], (drop (S i) args); done.
    + destruct (run_next_if_end s2 i p a k c cs Hin E) as (s' & Hrun & Hat & _).
      exists (s8 c), s'. rewrite run_bind, Hrun. split_and!; done.
  - subst os. change (NULL =? NULL) with true. cbn [negb]. rewrite run_bind, run_modify.
    cbn beta iota.
    destruct (run_next_if_end (set_optopt (s8 c) s2) i p a k c cs Hin E) as (s' & Hrun & Hat & Hopt).
    exists 63, s'. rewrite run_bind, Hrun. split_and!; done.
Qed.

(** The tests on the front of an argument. *)
Lemma run_not_option p a :
  cstr m p a → 0 < p →
  not_option p m = Ret (match a with x :: _ :: _ => negb (x =? 45) | _ => true end) m.
Proof.
  intros Hs Hp. unfold not_option. rewrite (proj2 (Z.eqb_neq p NULL)) by (unfold NULL; lia).
  destruct a as [|x [|c cs]].
  - apply cstr_nil in Hs. by crun.
  - apply cstr_cons in Hs as (Hx & Hxr & Hn%cstr_nil). crun. rewrite s8_const by (auto || lia).
    destruct (x =? 45); cbn [negb]; by crun.
  - apply cstr_cons in Hs as (Hx & Hxr & Hs). apply cstr_cons in Hs as (Hc & Hcr & _). crun.
    rewrite s8_const by (auto || lia). destruct (x =? 45); crun; [|done].
    cbn [negb]. crun. by rewrite s8_nonzero.
Qed.

Lemma run_last p x c cs :
  cstr m p (x :: c :: cs) →
  (if s8 c =? 45 then c2 ← loadc (p + 2); mret (c2 =? 0) else mret false) m
  = Ret (bool_decide (c = 45 ∧ cs = [])) m.
Proof.
  intros Hs. destruct (next_char p (x :: c :: cs) 1 c cs Hs eq_refl) as (_ & Hc & Hn & Hnb & Hn0 & _).
  replace (p + Z.of_nat 1 + 1) with (p + 2) in Hn by lia. rewrite s8_const by (auto || lia).
  destruct (Z.eqb_spec c 45) as [->|Hne]; crun.
  - rewrite s8_zero by done. f_equal. destruct (Z.eqb_spec (hd 0 cs) 0) as [E|E].
    + apply Hn0 in E as ->. by rewrite bool_decide_eq_true_2.
    + rewrite bool_decide_eq_false_2; [done|]. intros [_ ->]. by apply E.
  - by rewrite bool_decide_eq_false_2 by tauto.
Qed.

(** The part of a call after the tests for a new query. *)
Definition resume : C optstate Z :=
  s ← get;
  carg ← in_mem (load64 (argv + 8 * optind s));
  stop ← in_mem (not_option carg);
  if stop : bool then mret (-1) else
  c1 ← in_mem (loadc (carg + 1));
  last ← in_mem (if c1 =? 45 then c2 ← loadc (carg + 2); mret (c2 =? 0) else mret false);
  if last : bool then skip 1;; mret (-1) else
  short_option argv optstring carg.

Lemma resume_at s st :
  at_pos s st →
  getopt (Z.of_nat (length args)) argv optstring s = resume s.
Proof.
  intros (Hm & Ho & Hv & i & Hi & H1 & _). unfold getopt, reinit. rewrite run_bind, run_modify.
  rewrite Ho, Hv, Hi, !Z.eqb_refl. cbn [negb orb].
  by rewrite (proj2 (Z.ltb_ge (Z.of_nat i) 1)), (proj2 (Z.ltb_ge _ (Z.of_nat i))) by lia.
Qed.

(** An argument with a dash and a character. *)
Lemma resume_dash s i p c cs :
  o_mem s = m → optind s = Z.of_nat i → ptrs !! i = Some p → args !! i = Some (45 :: c :: cs) →
  resume s = if bool_decide (c = 45 ∧ cs = []) then Ret (-1) (set_optind (optind s + 1) s)
             else short_option argv optstring p s.
Proof.
  intros Hm Hi Hp Ha. destruct (cl_arg Hcl i p _ Hp Ha) as (Hs & Hpos & _).
  unfold resume. rewrite run_bind, run_get. cbn beta iota. rewrite run_bind, Hi.
  rewrite (run_in_mem _ s _ Hm (run_load64 _ _ _ (cl_ptr Hcl i p Hp))). cbn beta iota.
  rewrite run_bind, (run_in_mem _ s _ Hm (run_not_option _ _ Hs Hpos)). cbn beta iota.
  change (negb (45 =? 45)) with false. cbn iota. pose proof Hs as Hs0.
  apply cstr_cons in Hs0 as (_ & _ & Hs0). apply cstr_cons in Hs0 as (Hc & Hcr & _).
  rewrite run_bind, (run_in_mem _ s _ Hm (run_loadc _ _ _ Hc)). cbn beta iota.
  rewrite run_bind, (run_in_mem _ s _ Hm (run_last _ _ _ _ Hs)). cbn beta iota.
  case_bool_decide; [|done]. unfold skip. by rewrite run_bind, run_modify, Hi.
Qed.

(** Anything else ends the options. *)
Lemma resume_stop s i :
  o_mem s = m → optind s = Z.of_nat i → (i ≤ length args)%nat →
  match args !! i with Some (x :: _ :: _) => x ≠ 45 | _ => True end → resume s = Ret (-1) s.
Proof.
  intros Hm Hi Hle Ha. unfold resume. rewrite run_bind, run_get. cbn beta iota. rewrite run_bind, Hi.
  destruct (args !! i) as [a|] eqn:E.
  - destruct (ptr_of _ _ E) as [p Hp]. destruct (cl_arg Hcl i p _ Hp E) as (Hs & Hpos & _).
    rewrite (run_in_mem _ s _ Hm (run_load64 _ _ _ (cl_ptr Hcl i p Hp))). cbn beta iota.
    rewrite run_bind, (run_in_mem _ s _ Hm (run_not_option _ _ Hs Hpos)). cbn beta iota.
    destruct a as [|x [|c cs]]; [done..|]. by rewrite (proj2 (Z.eqb_neq x 45)).
  - apply lookup_ge_None in E. pose proof (cl_null Hcl) as Hw.
    replace (length args) with i in Hw by lia.
    rewrite (run_in_mem _ s _ Hm (run_load64 _ _ _ Hw)). cbn beta iota.
    rewrite run_bind. by rewrite (run_in_mem (not_option NULL) s true Hm).
Qed.

(** One call is one step of the specification. *)
Lemma run_getopt s st :
  at_pos s st →
  ∃ r s', getopt (Z.of_nat (length args)) argv optstring s = Ret r s' ∧
  observed (spec_step optstr st).1 r s' ∧ at_pos s' (spec_step optstr st).2.
Proof.
  intros Hat. rewrite (resume_at s st Hat). pose proof Hat as (Hm & Ho & Hv & i & Hi & H1 & Hst).
  destruct st as [[|c cs] rest]; cbn [fst snd] in Hst.
  - destruct Hst as [-> Hst]. destruct (drop i args) as [|a rest] eqn:E.
    { exists (-1), s. split; [|by split].
      apply (resume_stop s i Hm Hi ltac:(lia)). apply (f_equal length) in E. rewrite length_drop in E.
      by rewrite lookup_ge_None_2 by (simpl in E; lia). }
    pose proof E as E0. apply drop_lookup_cons in E as [Ha Edrop].
    destruct a as [|x [|c cs]].
    1,2: exists (-1), s; (split; [apply (resume_stop s i Hm Hi ltac:(lia)); by rewrite Ha|by split]).
    simpl spec_step. destruct (Z.eqb_spec x 45) as [->|Hx]; cbn [negb].
    2: { exists (-1), s. split; [apply (resume_stop s i Hm Hi ltac:(lia)); by rewrite Ha|by split]. }
    destruct (ptr_of _ _ Ha) as [p Hp]. rewrite (resume_dash s i p c cs Hm Hi Hp Ha).
    case_bool_decide as Hlast.
    + eexists _, _. split; [done|]. split; [done|]. split_and!; [done..|]. exists (S i). simpl.
      pose proof (lookup_lt_Some _ _ _ Ha). split_and!; [lia|lia|lia|done|].
      destruct Hst as [?|(j & q & b & Hj & ?)]; [by left|right]. exists j, q, b. split; [lia|done].
    + rewrite <-Edrop. eapply (run_short_option s i p _ 1 c cs); try done; [lia|by right].
  - destruct Hst as (p & a & k & Hp & Ha & H0 & Hk & Hq & Ecl & ->).
    assert (∃ y ys, a = 45 :: y :: ys ∧ ys ≠ []) as (y & ys & -> & Hys).
    { apply (f_equal length) in Ecl. rewrite length_drop in Ecl.
      destruct a as [|x [|y [|z ys]]]; simpl in H0, Ecl; try (exfalso; lia).
      injection H0 as ->. by eexists _, _. }
    rewrite (resume_dash s i p y ys Hm Hi Hp Ha), bool_decide_eq_false_2 by tauto.
    eapply (run_short_option s i p _ k c cs); try done; [lia|lia|by left].
Qed.

Lemma fresh_start s :
  o_mem s = m → last_argv s ≠ argv ∨ last_optstring s ≠ optstring →
  ∃ s0, at_pos s0 ([], drop 1 args) ∧
  getopt (Z.of_nat (length args)) argv optstring s = getopt (Z.of_nat (length args)) argv optstring s0.
Proof.
  intros Hm Hfresh. exists (restart argv optstring s).
  assert (at_pos (restart argv optstring s) ([], drop 1 args)) as Hat.
  { split_and!; [done..|]. exists 1%nat. destruct Hcl as [_ [_ Hlen] _ _ _ _].
    split_and!; [done|lia|lia|]. cbn. split; [done|by left]. }
  split; [done|]. rewrite (resume_at _ _ Hat). unfold getopt, reinit. rewrite run_bind, run_modify.
  replace (negb (optstring =? _) || _ || _ || _) with true; [done|].
  symmetry. destruct Hfresh as [Hne|Hne]; apply not_eq_sym, Z.eqb_neq in Hne; rewrite Hne;
    cbn [negb orb]; [by rewrite orb_true_r|done].
Qed.

End sim.

(** *** Running through a command line *)

(** The results of a number of calls, with the globals after each. *)
Fixpoint getopt_calls (n : nat) (argc argv optstring : Z) : C optstate (list (Z * optstate)) :=
  match n with
  | O => mret []
  | S n =>
      r ← getopt argc argv optstring;
      s ← get;
      rs ← getopt_calls n argc argv optstring;
      mret ((r, s) :: rs)
  end.

Section calls.
Context (m : mem) (argv optstring : Z) (optstr : list Z) (args : list (list Z)) (ptrs : list Z).
Context (Hcl : cmdline m argv optstring optstr args ptrs).
Implicit Types (s : optstate) (st : pos).

Lemma spec_end st st' : spec_step optstr st = (End, st') → st'.1 = [].
Proof.
  destruct st as [[|c cs] rest]; simpl; unfold spec_char.
  - destruct rest as [|[|x [|c cs]] rest]; [by intros [= <-]..|].
    destruct (negb (x =? 45)); [by intros [= <-]|]. case_bool_decide; [by intros [= <-]|].
    destruct (takes_arg optstr c) as [[]|]; [destruct cs; [destruct rest|]|..]; by intros [=].
  - destruct (takes_arg optstr c) as [[]|]; [destruct cs; [destruct rest|]|..]; by intros [=].
Qed.

Lemma at_pos_operands s rest :
  at_pos m argv optstring args ptrs s ([], rest) → drop (Z.to_nat (optind s)) args = rest.
Proof. intros (_ & _ & _ & i & Hi & _ & E & _). simpl in E. by rewrite Hi, Nat2Z.id, E. Qed.

Lemma run_calls fuel s st :
  at_pos m argv optstring args ptrs s st → (measure st < fuel)%nat →
  ∃ rs s', getopt_calls (length (parse fuel optstr st).1) (Z.of_nat (length args)) argv optstring s
    = Ret rs s' ∧
  Forall2 (λ e c, observed m optstr e c.1 c.2) (parse fuel optstr st).1 rs ∧
  last (parse fuel optstr st).1 = Some End ∧
  drop (Z.to_nat (optind s')) args = (parse fuel optstr st).2.
Proof.
  revert s st. induction fuel as [|fuel IH]; intros s st Hat Hf; [lia|]. simpl.
  destruct (run_getopt m argv optstring optstr args ptrs Hcl s st Hat) as (r & s1 & Hrun & Hobs & Hat1).
  destruct (spec_step optstr st) as [e st'] eqn:E. cbn [fst snd] in Hobs, Hat1.
  destruct (decide (e = End)) as [->|He].
  - exists [(r, s1)], s1. cbn [fst snd length]. split_and!.
    + simpl. rewrite run_bind, Hrun. done.
    + by constructor.
    + done.
    + apply spec_end in E. destruct st' as [cl rest]. simpl in E. subst cl. by apply at_pos_operands.
  - apply spec_step_measure in E as [?|E]; [done|].
    destruct (IH s1 st' Hat1 ltac:(lia)) as (rs & s' & Hruns & Hall & Hlast & Hops).
    destruct (parse fuel optstr st') as [es ops]. cbn [fst snd] in *.
    replace (match e with End => _ | _ => _ end) with (e :: es, ops) by (by destruct e).
    exists ((r, s1) :: rs), s'. cbn [fst snd length getopt_calls]. split_and!.
    + rewrite run_bind, Hrun. cbn beta iota. rewrite run_bind, run_get. cbn beta iota.
      rewrite run_bind, Hruns. done.
    + by constructor.
    + by destruct es.
    + done.
Qed.
End calls.

(** ** Long options *)

Record longopt := { l_name : list Z; l_has_arg : Z; l_flag : Z; l_val : Z }.

Definition option_at (m : mem) (p : Z) (o : longopt) : Prop := ∃ np,
  word m (p + OPT_NAME) = Some np ∧ 0 < np ∧ cstr m np (l_name o) ∧
  load_int (p + OPT_HAS_ARG) m = Ret (l_has_arg o) m ∧ word m (p + OPT_FLAG) = Some (l_flag o) ∧
  load_int (p + OPT_VAL) m = Ret (l_val o) m.

(** The table of long options, up to the entry without a name. *)
Fixpoint table (m : mem) (p : Z) (lops : list longopt) : Prop :=
  match lops with
  | [] => word m (p + OPT_NAME) = Some NULL
  | o :: lops => option_at m p o ∧ table m (p + SIZEOF_OPTION) lops
  end.

(** The name in an argument: up to the equals sign. *)
Fixpoint key (a : list Z) : list Z :=
  match a with [] => [] | b :: a => if b =? 61 then [] else b :: key a end.

Section long.
Implicit Types (m : mem) (a b : list Z) (o : longopt) (lops : list longopt).

Lemma run_option_matches m p q a b :
  cstr m p a → cstr m q b →
  option_matches p q m = Ret (if bool_decide (key a = b) then p + Z.of_nat (length b) else NULL) m.
Proof.
  intros Ha Hb. unfold option_matches. rewrite run_bind, run_scan_fuel.
  assert (length a < S (size m))%nat as Hf by (apply cstr_size in Ha; lia).
  revert p q b Ha Hb Hf. generalize (S (size m)) as fuel.
  induction a as [|c a IH]; intros [|fuel] p q b Ha Hb Hf; try (simpl in Hf; lia); rewrite run_loop.
  - apply cstr_nil in Ha. crun. destruct b as [|d b].
    + apply cstr_nil in Hb. crun. rewrite bool_decide_eq_true_2 by done. simpl. crun. by rewrite Z.add_0_r.
    + apply cstr_cons in Hb as (Hd & Hr & _). crun. rewrite bool_decide_eq_false_2 by done. simpl. crun. by rewrite s8_nonzero.
  - apply cstr_cons in Ha as (Hc & Hr & Ha). crun. rewrite s8_nonzero by done. cbn [key orb].
    rewrite s8_const by (auto || lia). destruct (Z.eqb_spec c 61) as [->|Hne]; crun.
    + destruct b as [|d b].
      * apply cstr_nil in Hb. crun. rewrite bool_decide_eq_true_2 by done. simpl. crun. by rewrite Z.add_0_r.
      * apply cstr_cons in Hb as (Hd & Hdr & _). crun. rewrite bool_decide_eq_false_2 by done. simpl. crun. by rewrite s8_nonzero.
    + destruct b as [|d b].
      * apply cstr_nil in Hb. crun. rewrite (s8_eqb c 0), (proj2 (Z.eqb_neq c 0)) by (auto || lia). cbn [negb].
        crun. by rewrite bool_decide_eq_false_2.
      * apply cstr_cons in Hb as (Hd & Hdr & Hb). crun. rewrite s8_eqb by auto.
        destruct (Z.eqb_spec c d) as [->|Hcd]; cbn [negb]; crun.
        -- rewrite (IH fuel _ _ b Ha Hb) by (simpl in Hf; lia).
           destruct (decide (key a = b)) as [E|E].
           ++ rewrite !bool_decide_eq_true_2 by congruence. f_equal. simpl length. lia.
           ++ by rewrite !bool_decide_eq_false_2 by congruence.
        -- by rewrite bool_decide_eq_false_2 by congruence.
Qed.

Lemma word_mapped m p v : word m p = Some v → is_Some (m !! p).
Proof.
  unfold word, load64. cbn [load_le]. rewrite run_bind. unfold load8. destruct (m !! p); [by eexists|done].
Qed.

Lemma table_size m p lops : table m p lops → (length lops ≤ size m)%nat.
Proof.
  intros Ht. set (l := (λ i, p + SIZEOF_OPTION * Z.of_nat i) <$> seq 0 (length lops)).
  assert (list_to_set l ⊆@{gset Z} dom m) as Hsub.
  { intros x Hx. apply elem_of_list_to_set, list_elem_of_fmap in Hx as (i & -> & Hi).
    apply elem_of_dom. apply elem_of_seq in Hi. clear l. revert p i Ht Hi.
    induction lops as [|o lops IH]; intros p i Ht Hi; [simpl in Hi; lia|].
    destruct Ht as [(np & Hw & _) Ht]. destruct i as [|i].
    - apply word_mapped in Hw. unfold OPT_NAME in Hw. by replace (p + SIZEOF_OPTION * Z.of_nat 0) with (p + 0) by lia.
    - replace (p + SIZEOF_OPTION * Z.of_nat (S i)) with (p + SIZEOF_OPTION + SIZEOF_OPTION * Z.of_nat i) by lia.
      apply IH; [done|]. simpl in Hi. lia. }
  apply subseteq_size in Hsub. rewrite size_list_to_set, size_dom in Hsub.
  - unfold l in Hsub. by rewrite length_fmap, length_seq in Hsub.
  - apply NoDup_fmap_2; [|apply NoDup_seq]. intros i j E. unfold SIZEOF_OPTION in E. lia.
Qed.

(** The search of the table. *)
Lemma run_find_long m p lops arg a :
  table m p lops → cstr m arg a → 0 < arg →
  find_long p arg m =
  Ret ((λ x : nat * longopt, (p + SIZEOF_OPTION * Z.of_nat x.1, arg + Z.of_nat (length (key a))))
         <$> list_find (λ o, key a = l_name o) lops) m.
Proof.
  intros Ht Ha Hpos. unfold find_long. rewrite run_scan_fuel.
  assert (length lops < S (size m))%nat as Hf by (apply table_size in Ht; lia).
  revert p Ht Hf. generalize (S (size m)) as fuel.
  induction lops as [|o lops IH]; intros [|fuel] p Ht Hf; try (simpl in Hf; lia); rewrite run_loop; cbn beta.
  - simpl in Ht. rewrite run_bind, (run_load64 _ _ _ Ht). by crun.
  - destruct Ht as [(np & Hn & Hnp & Hname & _) Ht]. rewrite run_bind, (run_load64 _ _ _ Hn). cbn beta iota.
    rewrite (proj2 (Z.eqb_neq np NULL)) by (unfold NULL; lia).
    rewrite run_bind, (run_option_matches m arg np a _ Ha Hname). cbn beta iota. cbn [list_find].
    destruct (decide (key a = l_name o)) as [E|E].
    + rewrite bool_decide_eq_true_2 by done. rewrite (proj2 (Z.eqb_neq _ NULL)) by (unfold NULL; lia).
      cbn [negb]. crun. rewrite <-E. simpl. do 3 f_equal. lia.
    + rewrite bool_decide_eq_false_2 by done. change (NULL =? NULL) with true. cbn [negb]. crun.
      rewrite (IH fuel _ Ht) by (simpl in Hf; lia).
      destruct (list_find _ lops) as [[i o']|]; simpl; [|done]. do 3 f_equal. lia.
Qed.

Lemma key_prefix a : ∃ t, a = key a ++ t ∧ (t = [] ∨ ∃ u, t = 61 :: u).
Proof.
  induction a as [|b a (t & E & Ht)]; [exists []; by auto|]. simpl. destruct (Z.eqb_spec b 61) as [->|].
  - exists (61 :: a). split; [done|]. right. by exists a.
  - exists t. simpl. by rewrite <-E.
Qed.

(** The value of an option reaches the caller through its flag or the result. *)
Definition delivered m o (r : Z) (m' : mem) : Prop :=
  if l_flag o =? NULL then r = l_val o ∧ m' = m
  else r = 0 ∧ m' = write_bytes m (l_flag o) (le_bytes 4 (l_val o)).

Lemma run_long_value m p o :
  option_at m p o → (l_flag o ≠ NULL → valid m (l_flag o) 4) →
  ∃ r m', long_value p m = Ret r m' ∧ delivered m o r m'.
Proof.
  intros (np & _ & _ & _ & _ & Hflag & Hval) Hv. unfold long_value, delivered.
  rewrite run_bind, (run_load64 _ _ _ Hflag). cbn beta iota. rewrite run_bind, Hval. cbn beta iota.
  destruct (Z.eqb_spec (l_flag o) NULL) as [E|E]; cbn [negb]; [by eexists _, _|].
  eexists _, _. split; [|done]. unfold store_int. rewrite run_bind, run_store_le by (by apply Hv). done.
Qed.

Lemma table_lookup m p lops j o :
  table m p lops → lops !! j = Some o → option_at m (p + SIZEOF_OPTION * Z.of_nat j) o.
Proof.
  revert p j. induction lops as [|o' lops IH]; intros p [|j] Ht Hj; simplify_eq/=;
    destruct Ht as [Ho Ht].
  - by replace (p + SIZEOF_OPTION * Z.of_nat 0) with p by lia.
  - replace (p + SIZEOF_OPTION * Z.of_nat (S j)) with (p + SIZEOF_OPTION + SIZEOF_OPTION * Z.of_nat j) by lia.
    by apply IH.
Qed.
End long.

Section long_call.
Context (m : mem) (argv optstring : Z) (optstr : list Z) (args : list (list Z)) (ptrs : list Z).
Context (Hcl : cmdline m argv optstring optstr args ptrs).
Implicit Types (s : optstate).

(** What a long option found in the table leads to. *)
Definition long_outcome (o : longopt) (a : list Z) (i : nat) (r : Z) s : Prop :=
  if bool_decide (key a = a) then
    if l_has_arg o =? 1 then
      match args !! S i with
      | Some b => cstr m (optarg s) b ∧ optind s = Z.of_nat i + 2 ∧ delivered m o r (o_mem s)
      | None => r = 63 ∧ optarg s = NULL ∧ optind s = Z.of_nat i + 1
      end
    else optind s = Z.of_nat i + 1 ∧ delivered m o r (o_mem s)
  else
    if l_has_arg o =? 0 then r = 63 ∧ optind s = Z.of_nat i + 1
    else cstr m (optarg s) (drop (S (length (key a))) a) ∧ optind s = Z.of_nat i + 1 ∧
         delivered m o r (o_mem s).

Lemma run_long_argument s i lo o q a :
  o_mem s = m → optind s = Z.of_nat i + 1 → (i < length args)%nat → option_at m lo o →
  (l_flag o ≠ NULL → valid m (l_flag o) 4) → cstr m q a →
  ∃ r s', (ok ← long_argument argv lo (q + Z.of_nat (length (key a)));
           if ok : bool then in_mem (long_value lo) else mret 63) s = Ret r s' ∧
  long_outcome o a i r s'.
Proof.
  intros Hm Hi Hlt Ho Hv Hq. destruct (run_long_value m lo o Ho Hv) as (r & m' & Hval & Hdel).
  pose proof Ho as (np & _ & _ & _ & Harg & _).
  assert (∀ s, o_mem s = m → in_mem (long_value lo) s = Ret r (set_mem m' s)) as Hlv.
  { intros s1 E. unfold in_mem, zoom. by rewrite E, Hval. }
  destruct (key_prefix a) as (t & E & Ht). pose proof Hq as Hq0. rewrite E in Hq0.
  apply cstr_app in Hq0 as (_ & _ & Hend). unfold long_argument, long_outcome.
  destruct Ht as [->|[u ->]].
  - rewrite app_nil_r in E. rewrite bool_decide_eq_true_2 by done. apply cstr_nil in Hend.
    rewrite run_bind, run_bind, (run_in_mem m _ s _ Hm (run_loadc _ _ _ Hend)). cbn beta iota.
    rewrite run_bind, (run_in_mem m _ s _ Hm Harg). cbn beta iota. change (s8 0 =? 61) with false. cbn iota.
    destruct (Z.eqb_spec (l_has_arg o) 1) as [E1|E1].
    2: { rewrite run_ret. cbn beta iota. rewrite Hlv by done. by eexists _, _. }
    rewrite run_bind, run_get. cbn beta iota. rewrite Hi.
    replace (Z.of_nat i + 1) with (Z.of_nat (S i)) by lia. destruct (args !! S i) as [b|] eqn:Eb.
    + destruct (ptr_of m argv optstring optstr args ptrs Hcl _ _ Eb) as [q' Hq'].
      destruct (cl_arg _ _ _ _ _ _ Hcl _ _ _ Hq' Eb) as (Hb & Hpos & _).
      rewrite run_bind, (run_in_mem m _ s _ Hm (run_load64 _ _ _ (cl_ptr _ _ _ _ _ _ Hcl _ _ Hq'))).
      cbn beta iota. rewrite run_bind, run_modify. cbn beta iota.
      rewrite (proj2 (Z.eqb_neq q' NULL)) by (unfold NULL; lia). unfold skip. rewrite run_bind, run_modify.
      cbn beta iota. rewrite run_ret. cbn beta iota. rewrite Hlv by done. eexists _, _. split; [done|].
      simpl. split_and!; [done|lia|done].
    + apply lookup_ge_None in Eb. pose proof (cl_null _ _ _ _ _ _ Hcl) as Hw.
      replace (length args) with (S i) in Hw by lia.
      rewrite run_bind, (run_in_mem m _ s _ Hm (run_load64 _ _ _ Hw)). cbn beta iota.
      rewrite run_bind, run_modify. cbn beta iota. change (NULL =? NULL) with true. cbn iota.
      rewrite run_ret. eexists _, _. split; [done|]. simpl. split_and!; [done|done|lia].
  - rewrite bool_decide_eq_false_2.
    2: { intros Ek. rewrite Ek in E. apply (f_equal length) in E. rewrite length_app in E. simpl in E. lia. }
    apply cstr_cons in Hend as (Heq & _ & Hu).
    rewrite run_bind, run_bind, (run_in_mem m _ s _ Hm (run_loadc _ _ _ Heq)). cbn beta iota.
    rewrite run_bind, (run_in_mem m _ s _ Hm Harg). cbn beta iota. change (s8 61 =? 61) with true. cbn iota.
    destruct (Z.eqb_spec (l_has_arg o) 0) as [E0|E0]; cbn [negb].
    + rewrite run_ret. cbn beta iota. by eexists _, _.
    + rewrite run_bind, run_modify. cbn beta iota. rewrite run_ret. cbn beta iota. rewrite Hlv by done.
      eexists _, _. split; [done|]. simpl. split_and!; [|done|done].
      assert (drop (S (length (key a))) a = u) as ->; [|done].
      rewrite E at 2. rewrite drop_app_ge by lia.
      by replace (S (length (key a)) - length (key a))%nat with 1%nat by lia.
Qed.

(** The call of [getopt_long] on an argument with two dashes and a name. *)
Lemma run_getopt_long s i a longopts lops :
  o_mem s = m → last_optstring s = optstring → last_argv s = argv →
  optind s = Z.of_nat i → (1 ≤ i)%nat → args !! i = Some (45 :: 45 :: a) → a ≠ [] →
  table m longopts lops → (∀ o, o ∈ lops → l_flag o ≠ NULL → valid m (l_flag o) 4) →
  ∃ r s', getopt_long (Z.of_nat (length args)) argv optstring longopts NULL s = Ret r s' ∧
  match list_find (λ o, key a = l_name o) lops with
  | None => r = 63 ∧ s' = set_optind (Z.of_nat i + 1) s
  | Some (_, o) => long_outcome o a i r s'
  end.
Proof.
  intros Hm Ho Hv Hi H1 Ha Hne Ht Hflags. pose proof (lookup_lt_Some _ _ _ Ha) as Hlt.
  destruct (ptr_of m argv optstring optstr args ptrs Hcl _ _ Ha) as [p Hp].
  destruct (cl_arg _ _ _ _ _ _ Hcl _ _ _ Hp Ha) as (Hs & Hpos & _).
  unfold getopt_long, reinit. rewrite run_bind, run_modify, Ho, Hv, Hi, !Z.eqb_refl. cbn [negb orb].
  rewrite (proj2 (Z.ltb_ge (Z.of_nat i) 1)), (proj2 (Z.ltb_ge _ (Z.of_nat i))) by lia. cbn [orb].
  cbn beta iota. rewrite run_bind, run_get. cbn beta iota. rewrite Hi.
  rewrite run_bind, (run_in_mem m _ s _ Hm (run_load64 _ _ _ (cl_ptr _ _ _ _ _ _ Hcl _ _ Hp))). cbn beta iota.
  rewrite run_bind, (run_in_mem m _ s _ Hm (run_not_option m _ _ Hs Hpos)). cbn beta iota.
  change (negb (45 =? 45)) with false. cbn iota.
  apply cstr_cons in Hs as (_ & _ & Hs). apply cstr_cons in Hs as (H45 & _ & Hs).
  replace (p + 1 + 1) with (p + 2) in Hs by lia.
  rewrite run_bind, (run_in_mem m _ s _ Hm (run_loadc _ _ _ H45)). cbn beta iota.
  change (s8 45 =? 45) with true. cbn iota. unfold skip. rewrite run_bind, run_modify, Hi. cbn beta iota.
  set (s1 := set_optind (Z.of_nat i + 1) s).
  assert (∃ c, m !! (p + 2) = Some c ∧ 0 < c < 256) as (c & Hc & Hcr).
  { destruct a as [|c a]; [done|]. apply cstr_cons in Hs as (? & ? & _). by exists c. }
  rewrite run_bind, (run_in_mem m _ s1 _ Hm (run_loadc _ _ _ Hc)). cbn beta iota.
  rewrite s8_nonzero by done.
  rewrite run_bind, (run_in_mem m _ s1 _ Hm (run_find_long m longopts lops (p + 2) a Ht Hs ltac:(lia))).
  cbn beta iota. destruct (list_find _ lops) as [[j o]|] eqn:E; simpl; [|by eexists _, _].
  change (NULL =? NULL) with true. cbn [negb]. rewrite run_bind, run_ret. cbn beta iota.
  apply list_find_Some in E as (Hj & _ & _).
  apply (run_long_argument s1 i _ o (p + 2) a); try done.
  - by apply (table_lookup m longopts lops).
  - apply Hflags. by apply list_elem_of_lookup_2 in Hj.
Qed.
End long_call.

(** ** Theorems *)

(** C18: calling getopt over and over on a command line (a vector of strings that
    do not overlap) returns exactly the options of the specification in order:
    each option of a group on its own, with the rest of the argument or the next
    argument as its value, an unknown option in [optopt], a missing value
    reported as the option string asks; then it returns -1, after at most one
    call per character, with [optind] at the first operand. *)
Theorem getopt_parses m argv optstring optstr args ptrs s :
  cmdline m argv optstring optstr args ptrs → o_mem s = m →
  last_argv s ≠ argv ∨ last_optstring s ≠ optstring →
  let '(es, operands) := options optstr (drop 1 args) in
  ∃ rs s', getopt_calls (length es) (Z.of_nat (length args)) argv optstring s = Ret rs s' ∧
  Forall2 (λ e c, observed m optstr e c.1 c.2) es rs ∧ last es = Some End ∧
  drop (Z.to_nat (optind s')) args = operands.
Proof.
  intros Hcl Hm Hfresh. destruct (options optstr (drop 1 args)) as [es ops] eqn:E.
  destruct (fresh_start m argv optstring optstr args ptrs Hcl s Hm Hfresh) as (s0 & Hat & Eq).
  destruct (run_calls m argv optstring optstr args ptrs Hcl _ s0 _ Hat (Nat.lt_succ_diag_r _))
    as (rs & s' & Hrun & Hall & Hlast & Hops).
  unfold options in E. rewrite E in *. cbn [fst snd] in *. exists rs, s'. split_and!; try done.
  destruct es as [|e es]; [done|]. cbn [length getopt_calls] in Hrun |- *.
  rewrite run_bind in Hrun |- *. by rewrite Eq.
Qed.

(** The command line [p -ab -o f x] with the option string [abo:]. *)
Definition sample_args : list (list Z) := [[112]; [45; 97; 98]; [45; 111]; [102]; [120]].
Definition sample_ptrs : list Z := [400; 410; 420; 430; 440].
Definition sample_optstr : list Z := [97; 98; 111; 58].
Definition sample_argv : mem :=
  foldr (λ '(p, a) m, write_bytes m p (a ++ [0]))
    (write_bytes (write_bytes ∅ 100 (words (sample_ptrs ++ [0]))) 300 (sample_optstr ++ [0]))
    (zip sample_ptrs sample_args).

Definition sample_state : optstate :=
  {| o_mem := sample_argv; optarg := 0; optind := 0; opterr := 0; optopt := 0;
     optptr := 0; last_optstring := 0; last_argv := 0 |}.

Ltac five i := destruct i as [|[|[|[|[|i]]]]]; simplify_eq/=.

Lemma sample_cmdline : cmdline sample_argv 100 300 sample_optstr sample_args sample_ptrs.
Proof.
  split.
  - split; [by_decide|lia].
  - simpl. lia.
  - intros i p Hi. five i; by vm_compute.
  - by vm_compute.
  - intros i p a Hp Ha. five i; (split; [by_decide|]); simpl; lia.
  - intros i j p q a b Hne Hp Ha Hq Hb. five i; five j; unfold disjoint_ranges; simpl; lia.
Qed.

Lemma getopt_parses_witness :
  options sample_optstr (drop 1 sample_args) =
    ([Opt 97 None; Opt 98 None; Opt 111 (Some [102]); End], [[120]]) ∧
  ∃ rs s', getopt_calls 4 5 100 300 sample_state = Ret rs s' ∧ optind s' = 4.
Proof.
  split; [vm_compute; reflexivity|].
  pose proof (getopt_parses sample_argv 100 300 sample_optstr sample_args sample_ptrs sample_state
    sample_cmdline eq_refl (or_introl (λ E : 0 = 100, ltac:(discriminate E)))) as H.
  change (options sample_optstr (drop 1 sample_args)) with
    ([Opt 97 None; Opt 98 None; Opt 111 (Some [102]); End], [[120]]) in H.
  destruct H as (rs & s' & Hrun & _ & _ & _). exists rs, s'. split; [exact Hrun|].
  assert (match getopt_calls 4 5 100 300 sample_state with Ret _ s => optind s | _ => 0 end = 4) as E
    by (vm_compute; reflexivity).
  change (Z.of_nat (length sample_args)) with 5 in Hrun. cbn [length] in Hrun.
  rewrite Hrun in E. exact E.
Defined.

(** Getopt_long on an argument with two dashes and a name looks the name, up
    to an equals sign, up in the table.  An unknown name gives a question mark;
    otherwise the option of the first entry with that name is delivered, through
    its flag or as the result, with the text after the equals sign or the next
    argument in [optarg] as the entry asks, and a question mark where an argument
    is missing or not allowed; [optind] moves past what was used. *)
Theorem getopt_long_option m argv optstring optstr args ptrs s i a longopts lops :
  cmdline m argv optstring optstr args ptrs →
  o_mem s = m → last_optstring s = optstring → last_argv s = argv →
  optind s = Z.of_nat i → (1 ≤ i)%nat → args !! i = Some (45 :: 45 :: a) → a ≠ [] →
  table m longopts lops → (∀ o, o ∈ lops → l_flag o ≠ NULL → valid m (l_flag o) 4) →
  ∃ r s', getopt_long (Z.of_nat (length args)) argv optstring longopts NULL s = Ret r s' ∧
  match list_find (λ o, key a = l_name o) lops with
  | None => r = 63 ∧ s' = set_optind (Z.of_nat i + 1) s
  | Some (_, o) => long_outcome m args o a i r s'
  end.
Proof. intros Hcl. by apply (run_getopt_long m argv optstring optstr args ptrs). Qed.

(** The command line [p --out f] with the table of one option. *)
Definition long_args : list (list Z) := [[112]; [45; 45; 111; 117; 116]; [102]].
Definition long_ptrs : list Z := [400; 410; 420].
Definition long_opts : list longopt := [{| l_name := [111; 117; 116]; l_has_arg := 1; l_flag := 0; l_val := 7 |}].
Definition long_mem : mem :=
  foldr (λ '(p, a) m, write_bytes m p (a ++ [0]))
    (write_bytes (write_bytes (write_bytes ∅ 100 (words (long_ptrs ++ [0]))) 300 [0])
       500 (words [600; 1; 0; 7; 0]))
    (zip (600 :: long_ptrs) ([111; 117; 116] :: long_args)).

Definition long_state : optstate :=
  {| o_mem := long_mem; optarg := 0; optind := 1; opterr := 0; optopt := 0;
     optptr := 0; last_optstring := 300; last_argv := 100 |}.

Lemma long_cmdline : cmdline long_mem 100 300 [] long_args long_ptrs.
Proof.
  split.
  - split; [by_decide|lia].
  - simpl. lia.
  - intros i p Hi. five i; by vm_compute.
  - by vm_compute.
  - intros i p a Hp Ha. five i; (split; [by_decide|]); simpl; lia.
  - intros i j p q a b Hne Hp Ha Hq Hb. five i; five j; unfold disjoint_ranges; simpl; lia.
Qed.

Lemma long_table : table long_mem 500 long_opts.
Proof.
  split; [|by vm_compute]. exists 600. split_and!; [by vm_compute|lia|by_decide|by vm_compute..].
Qed.

Lemma getopt_long_option_witness :
  ∃ s', getopt_long 3 100 300 500 0 long_state = Ret 7 s' ∧ optind s' = 3 ∧ optarg s' = 420.
Proof.
  destruct (getopt_long_option long_mem 100 300 [] long_args long_ptrs long_state 1 [111; 117; 116]
    500 long_opts) as (r & s' & Hrun & _).
  - exact long_cmdline.
  - reflexivity.
  - reflexivity.
  - reflexivity.
  - reflexivity.
  - lia.
  - reflexivity.
  - discriminate.
  - exact long_table.
  - intros o Ho Hf. apply list_elem_of_singleton in Ho. subst o. exfalso. apply Hf. reflexivity.
  - change (Z.of_nat (length long_args)) with 3 in Hrun.
    assert (match getopt_long 3 100 300 500 0 long_state with
            | Ret r s => (r, optind s, optarg s) | _ => (0, 0, 0) end = (7, 3, 420)) as E
      by (vm_compute; reflexivity).
    unfold NULL in Hrun. rewrite Hrun in E. injection E as -> E1 E2.
    exists s'. exact (conj Hrun (conj E1 E2)).
Defined.

(** On every other argument [getopt_long] is [getopt]. *)
Lemma getopt_long_agrees m argv optstring optstr args ptrs s st longopts longindex i a :
  cmdline m argv optstring optstr args ptrs → at_pos m argv optstring args ptrs s st →
  optind s = Z.of_nat i → args !! i = Some a → a !! 1%nat ≠ Some 45 →
  getopt_long (Z.of_nat (length args)) argv optstring longopts longindex s =
  getopt (Z.of_nat (length args)) argv optstring s.
Proof.
  intros Hcl Hat Hi Ha H45. pose proof Hat as (Hm & Ho & Hv & i' & Hi' & Hle & _).
  assert (i' = i) as -> by lia.
  destruct (ptr_of m argv optstring optstr args ptrs Hcl _ _ Ha) as [p Hp].
  destruct (cl_arg _ _ _ _ _ _ Hcl _ _ _ Hp Ha) as (Hs & Hpos & _).
  unfold getopt_long, getopt, reinit. rewrite !run_bind, !run_modify, Ho, Hv, Hi, !Z.eqb_refl. cbn [negb orb].
  rewrite (proj2 (Z.ltb_ge (Z.of_nat i) 1)), (proj2 (Z.ltb_ge _ (Z.of_nat i))) by lia. cbn [orb].
  cbn beta iota. rewrite !run_bind, !run_get. cbn beta iota. rewrite Hi.
  rewrite !run_bind, (run_in_mem m _ s _ Hm (run_load64 _ _ _ (cl_ptr _ _ _ _ _ _ Hcl _ _ Hp))). cbn beta iota.
  rewrite !run_bind, (run_in_mem m _ s _ Hm (run_not_option m _ _ Hs Hpos)). cbn beta iota.
  destruct a as [|x [|c a]]; [done..|]. destruct (negb (x =? 45)); [done|].
  apply cstr_cons in Hs as (_ & _ & Hs). apply cstr_cons in Hs as (Hc & Hcr & _).
  rewrite !run_bind, (run_in_mem m _ s _ Hm (run_loadc _ _ _ Hc)). cbn beta iota.
  rewrite s8_const by (auto || lia). rewrite (proj2 (Z.eqb_neq c 45)); [|intros ->; by apply H45].
  rewrite run_bind. by rewrite (run_in_mem m (mret false) s false Hm).
Qed.

(** When two arguments are the same string, the saved pointer is taken for one
    into the new argument: its terminator is looked up as an option, found at the
    end of the option string, and the character after that is read. *)
Lemma getopt_shared_argument :
  let m := write_bytes (write_bytes (write_bytes ∅ 100 (words [410; 410; 410; 0]))
             300 [97; 0]) 410 [45; 97; 0] in
  getopt_calls 2 3 100 300 (set_mem m sample_state) = UB.
Proof. by vm_compute. Qed.
