(* ===== verification/Env.v ===== *)
(** * The environment: [getenv.c], [setenv.c], [putenv.c], [unsetenv.c],
    [clearenv.c], [__put_env.c], [nullenv.c]

    The environment is a vector of pointers to strings in memory, ended by a null
    pointer; the globals are [environ] and the two of [__put_env.c].  The
    operations allocate through the interface of [Alloc] and are proved against
    its laws, so that they hold for both allocators. *)

From Stdlib Require Import List.
From stdpp Require Import base tactics numbers list gmap.
From S2P Require Import Prelude Memory Words MemFns StrFns Alloc StaticHeap.

Open Scope Z_scope.

Definition EINVAL : Z := 22.

(** ** State *)

Record envstate (S : Type) := {
  e_heap : S;
  environ : Z;
  __environ_size : Z;
  __environ_alloc : Z;
  errno : Z;
}.
Arguments e_heap {S}.
Arguments environ {S}.
Arguments __environ_size {S}.
Arguments __environ_alloc {S}.
Arguments errno {S}.

Section env.
Context {S : Type} `{Allocator S}.
(** The reallocation of the heap, and the address of [__null_environ]. *)
Context (realloc : Z → Z → C S Z) (__null_environ : Z).
Implicit Types (e : envstate S).

Definition set_heap (s : S) e : envstate S :=
  {| e_heap := s; environ := environ e; __environ_size := __environ_size e;
     __environ_alloc := __environ_alloc e; errno := errno e |}.
Definition set_environ (v : Z) e : envstate S :=
  {| e_heap := e_heap e; environ := v; __environ_size := __environ_size e;
     __environ_alloc := __environ_alloc e; errno := errno e |}.
Definition set_size (v : Z) e : envstate S :=
  {| e_heap := e_heap e; environ := environ e; __environ_size := v;
     __environ_alloc := __environ_alloc e; errno := errno e |}.
Definition set_alloc (v : Z) e : envstate S :=
  {| e_heap := e_heap e; environ := environ e; __environ_size := __environ_size e;
     __environ_alloc := v; errno := errno e |}.
Definition set_errno (v : Z) e : envstate S :=
  {| e_heap := e_heap e; environ := environ e; __environ_size := __environ_size e;
     __environ_alloc := __environ_alloc e; errno := v |}.

(** Heap operations and memory accesses. *)
Definition heap_op {A} (c : C S A) : C (envstate S) A := zoom e_heap set_heap c.
Definition emem {A} (c : C mem A) : C (envstate S) A := heap_op (on_mem c).

(** ** Lookup *)

Definition getenv (name : Z) : C (envstate S) Z :=
  n ← emem (strlen name);
  let len := s32 n in
  e ← get;
  if environ e =? NULL then mret NULL else
  emem (scan_fuel (λ fuel, loop fuel (λ p,
    q ← load64 p;
    if q =? NULL then Break NULL else
    d ← strncmp name q (u64 len);
    hit ← (if d =? 0 then c ← loadc (q + len); mret (c =? 61) else mret false);
    if hit : bool then Break (q + (len + 1)) else Next (p + 8)) (environ e))).

(** ** Change *)

(** The search of [__put_env]: the place of an entry that starts with the first
    [len] characters of [str], or the end and the number of entries with it. *)
Definition put_search (env str len : Z) : C mem (Z + Z * Z) :=
  scan_fuel (λ fuel, loop fuel (λ '(p, n),
    q ← load64 p;
    if q =? NULL then Break (inr (p, n)) else
    d ← strncmp q str len;
    if d =? 0 then Break (inl p) else Next (p + 8, u64 (n + 1))) (env, 1)).

(** The array for one more entry. *)
Definition grow_environ (n : Z) : C (envstate S) Z :=
  e ← get;
  if negb (__environ_alloc e =? NULL) then
    newenv ← heap_op (realloc (__environ_alloc e) (u64 (u64 (__environ_size e * 2) * 8)));
    if newenv =? NULL then mret NULL else
    modify (λ e, set_size (u64 (__environ_size e * 2)) e);;
    mret newenv
  else
    let newsize := u64 (n + 32) in
    newenv ← heap_op (a_malloc (u64 (newsize * 8)));
    if newenv =? NULL then mret NULL else
    emem (memcpy newenv (environ e) (u64 (n * 8)));;
    modify (set_size newsize);;
    mret newenv.

Definition __put_env (str len overwrite : Z) : C (envstate S) Z :=
  e ← get;
  (** [null_environ] is a null pointer *)
  (if environ e =? NULL then modify (set_environ NULL) else mret tt);;
  e ← get;
  r ← emem (put_search (environ e) str len);
  match r with
  | inl p =>
      (if overwrite =? 0 then heap_op (a_free str) else emem (store64 p str));;
      mret 0
  | inr (p, n) =>
      (if negb (__environ_alloc e =? NULL) && negb (environ e =? __environ_alloc e)
       then heap_op (a_free (__environ_alloc e));; modify (set_alloc NULL)
       else mret tt);;
      if n <? __environ_size e then
        emem (store64 (p + 8) NULL);;
        emem (store64 p str);;
        mret 0
      else
        newenv ← grow_environ n;
        if newenv =? NULL then mret (-1) else
        emem (store64 (newenv + 8 * (n - 1)) str);;
        emem (store64 (newenv + 8 * n) NULL);;
        modify (set_environ newenv);;
        mret 0
  end.

(** The length of a name, unless it is not one: null, empty, or with an equals
    sign in it. *)
Definition name_length (name : Z) : C mem (option Z) :=
  if name =? NULL then mret None else
  c ← loadc name;
  if c =? 0 then mret None else
  scan_fuel (λ fuel, loop fuel (λ '(z, l1),
    c ← loadc z;
    if c =? 0 then Break (Some l1) else
    if c =? 61 then Break None else
    Next (z + 1, u64 (l1 + 1))) (name, 0)).

Definition setenv (name val overwrite : Z) : C (envstate S) Z :=
  r ← emem (name_length name);
  match r with
  | None => modify (set_errno EINVAL);; mret (-1)
  | Some l1 =>
      l2 ← emem (strlen val);
      s ← heap_op (a_malloc (u64 (l1 + l2 + 2)));
      if s =? NULL then mret (-1) else
      emem (memcpy s name l1);;
      emem (store8 (s + l1) 61);;
      emem (memcpy (s + l1 + 1) val (u64 (l2 + 1)));;
      __put_env s (u64 (l1 + 1)) overwrite
  end.

(** The last equals sign. *)
Definition last_equals (str : Z) : C mem Z :=
  scan_fuel (λ fuel, loop fuel (λ '(z, e),
    c ← loadc z;
    if c =? 0 then Break e else Next (z + 1, if c =? 61 then z else e)) (str, NULL)).

Definition putenv (str : Z) : C (envstate S) Z :=
  if str =? NULL then modify (set_errno EINVAL);; mret (-1) else
  e ← emem (last_equals str);
  if e =? NULL then modify (set_errno EINVAL);; mret (-1) else
  s ← heap_op (strdup str);
  if s =? NULL then mret (-1) else
  __put_env s (u64 (e - str)) 1.

(** The place of the entry for a name, or the end. *)
Definition find_entry (env name len : Z) : C mem Z :=
  scan_fuel (λ fuel, loop fuel (λ p,
    q ← load64 p;
    if q =? NULL then Break p else
    d ← strncmp name q len;
    hit ← (if d =? 0 then c ← loadc (q + len); mret (c =? 61) else mret false);
    if hit : bool then Break p else Next (p + 8)) env).

(** The entries from [p] on move down by one. *)
Definition shift_down (p : Z) : C mem unit :=
  scan_fuel (λ fuel, loop fuel (λ p,
    q ← load64 p;
    if q =? NULL then Break tt else
    v ← load64 (p + 8);
    store64 p v;;
    Next (p + 8)) p).

Definition unsetenv (name : Z) : C (envstate S) Z :=
  r ← emem (name_length name);
  match r with
  | None => modify (set_errno EINVAL);; mret (-1)
  | Some len =>
      e ← get;
      if environ e =? NULL then mret 0 else
      p ← emem (find_entry (environ e) name len);
      emem (shift_down p);;
      mret 0
  end.

Definition clearenv : C (envstate S) Z :=
  modify (set_environ __null_environ);; mret 0.
End env.

(** ** Searches *)

Section searches.
Implicit Types (m : mem) (ptrs : list Z) (es : list (list Z)) (nm t x : list Z).

(** The vector of pointers at [p], with its null pointer. *)
Definition arr m (p : Z) ptrs : Prop :=
  bytes_at m p (words (ptrs ++ [NULL])) ∧ Forall (λ q, 0 < q < 2 ^ 64) ptrs.

Lemma arr_nil m p : arr m p [] → word m p = Some NULL.
Proof. intros [H _]. apply word_of_bytes; [unfold NULL; lia|exact H]. Qed.

Lemma arr_cons m p q ptrs :
  arr m p (q :: ptrs) → word m p = Some q ∧ 0 < q < 2 ^ 64 ∧ arr m (p + 8) ptrs.
Proof.
  intros [H Hq]. apply Forall_cons in Hq as [Hq Hps]. change ((q :: ptrs) ++ [NULL]) with (q :: ptrs ++ [NULL]) in H.
  rewrite words_cons in H. apply bytes_at_app in H as [H1 H2]. rewrite le_bytes_length in H2.
  split; [apply word_of_bytes; [lia|done]|]. split; [lia|by split].
Qed.

Lemma arr_valid_any m p ptrs : arr m p ptrs → valid m p 8.
Proof.
  intros [H _]. apply bytes_at_valid in H. eapply valid_le; [|exact H].
  rewrite words_length, length_app. simpl. lia.
Qed.

Lemma arr_drop m p ptrs i :
  arr m p ptrs → (i ≤ length ptrs)%nat → arr m (p + 8 * Z.of_nat i) (drop i ptrs).
Proof.
  intros [Hb Hq] Hi. split; [|by apply Forall_drop].
  rewrite <-(take_drop i ptrs), <-app_assoc, words_app in Hb. apply bytes_at_app in Hb as [_ Hb].
  rewrite words_length, length_take, Nat.min_l in Hb by lia.
  by replace (p + 8 * Z.of_nat i) with (p + Z.of_nat (8 * i)) by lia.
Qed.

Lemma arr_size m p ptrs : arr m p ptrs → (length ptrs < size m)%nat.
Proof.
  intros [H _]. apply bytes_at_size in H. rewrite words_length, length_app in H. simpl in H. lia.
Qed.

(** Comparing a key with the front of a string. *)
Lemma prefix_cmp t x k :
  Forall (λ b, 0 < b < 256) t → Forall (λ b, 0 < b < 256) x → (k ≤ length t)%nat →
  bytes_cmp (take k (t ++ [0])) (take k (x ++ [0])) = 0 ↔ take k t `prefix_of` x.
Proof.
  intros Ht. revert k x. induction Ht as [|a t Ha Ht IH]; intros [|k] x Hx Hk; simpl in *; try lia.
  - split; [intros _; by exists x|done].
  - split; [intros _; by exists x|done].
  - destruct Hx as [|b x Hb Hx]; simpl.
    + destruct (Z.eqb_spec (a - 0) 0); [lia|]. split; [lia|]. intros [l E]. done.
    + destruct (Z.eqb_spec (a - b) 0).
      * rewrite IH by (done || lia). assert (a = b) as -> by lia. split.
        -- by apply prefix_cons.
        -- by apply prefix_cons_inv_2.
      * split; [lia|]. intros E. apply prefix_cons_inv_1 in E. lia.
Qed.

Lemma run_key_prefix m p q t x k :
  cstr m p t → cstr m q x → 0 ≤ k ≤ Z.of_nat (length t) →
  ∃ d, strncmp p q k m = Ret d m ∧ (d =? 0) = bool_decide (take (Z.to_nat k) t `prefix_of` x).
Proof.
  intros Hp Hq Hk. rewrite (run_strncmp m p q t x k) by (done || lia). eexists. split; [done|].
  pose proof (prefix_cmp t x (Z.to_nat k) (proj2 Hp) (proj2 Hq) ltac:(lia)) as Hc.
  destruct (Z.eqb_spec (bytes_cmp (take (Z.to_nat k) (t ++ [0])) (take (Z.to_nat k) (x ++ [0]))) 0) as [E|E].
  - symmetry. apply bool_decide_eq_true_2. by apply Hc.
  - symmetry. apply bool_decide_eq_false_2. by rewrite <-Hc.
Qed.

Lemma run_key_prefix_sym m p q t x k :
  cstr m p t → cstr m q x → 0 ≤ k ≤ Z.of_nat (length t) →
  ∃ d, strncmp q p k m = Ret d m ∧ (d =? 0) = bool_decide (take (Z.to_nat k) t `prefix_of` x).
Proof.
  intros Hp Hq Hk. destruct (run_key_prefix m p q t x k Hp Hq Hk) as (d & Hd & E). rewrite <-E.
  rewrite (run_strncmp m p q t x k) in Hd by (done || lia). injection Hd as <-.
  rewrite (run_strncmp m q p x t k) by (done || lia). eexists. split; [done|].
  rewrite (bytes_cmp_swap (take _ (t ++ [0]))). apply eq_true_iff_eq. rewrite !Z.eqb_eq. lia.
Qed.

(** The test of [getenv] and [unsetenv] on one entry. *)
Lemma run_entry_test m p q nm x :
  cstr m p nm → cstr m q x →
  ∃ d, strncmp p q (Z.of_nat (length nm)) m = Ret d m ∧
  (if d =? 0 then c ← loadc (q + Z.of_nat (length nm)); mret (c =? 61) else mret false) m =
  Ret (bool_decide ((nm ++ [61]) `prefix_of` x)) m.
Proof.
  intros Hp Hq. destruct (run_key_prefix m p q nm x (Z.of_nat (length nm)) Hp Hq ltac:(lia)) as (d & Hd & E).
  exists d. split; [done|]. rewrite Nat2Z.id, firstn_all in E. rewrite E.
  case_bool_decide as Hpre.
  - destruct Hpre as [r ->]. apply cstr_app in Hq as (_ & _ & Hr).
    destruct r as [|b r].
    + apply cstr_nil in Hr. crun. rewrite bool_decide_eq_false_2; [done|].
      rewrite app_nil_r. intros Hp'. apply prefix_length in Hp'. rewrite length_app in Hp'. simpl in Hp'. lia.
    + apply cstr_cons in Hr as (Hb & Hbr & _). crun. rewrite s8_const by (auto || lia). f_equal.
      destruct (Z.eqb_spec b 61) as [->|Hne].
      * rewrite bool_decide_eq_true_2; [done|]. exists r. by rewrite <-app_assoc.
      * rewrite bool_decide_eq_false_2; [done|]. intros Hp'. apply prefix_app_inv in Hp'.
        by apply prefix_cons_inv_1 in Hp'.
  - rewrite run_ret, bool_decide_eq_false_2; [done|]. intros Hp'. apply Hpre.
    by eapply prefix_app_l.
Qed.

Definition has_key (key : list Z) (x : list Z) : Prop := key `prefix_of` x.

#[global] Instance has_key_dec key x : Decision (has_key key x).
Proof. unfold has_key. apply _. Defined.

(** The entry of a name. *)
Definition entry_of nm es : option (nat * list Z) := list_find (has_key (nm ++ [61])) es.

Lemma run_put_search m p ptrs es str t k :
  arr m p ptrs → Forall2 (cstr m) ptrs es → cstr m str t → 0 ≤ k ≤ Z.of_nat (length t) →
  Z.of_nat (length es) < 2 ^ 63 →
  put_search p str k m =
  Ret (match list_find (has_key (take (Z.to_nat k) t)) es with
       | Some (i, _) => inl (p + 8 * Z.of_nat i)
       | None => inr (p + 8 * Z.of_nat (length es), 1 + Z.of_nat (length es))
       end) m.
Proof.
  intros Ha Hs Ht Hk Hes. unfold put_search. rewrite run_scan_fuel.
  assert (length ptrs < S (size m))%nat as Hf by (apply arr_size in Ha; lia).
  assert (∀ fuel n p, arr m p ptrs → (length ptrs < fuel)%nat → 0 ≤ n → n + Z.of_nat (length es) < 2 ^ 64 →
    loop fuel (λ '(p, n),
      q ← load64 p;
      if q =? NULL then Break (inr (p, n)) else
      d ← strncmp q str k;
      if d =? 0 then Break (inl p) else Next (p + 8, u64 (n + 1))) (p, n) m =
    Ret (match list_find (has_key (take (Z.to_nat k) t)) es with
         | Some (i, _) => inl (p + 8 * Z.of_nat i)
         | None => inr (p + 8 * Z.of_nat (length es), n + Z.of_nat (length es))
         end) m) as Hloop; [|by apply Hloop; [..|lia|lia]].
  clear p Ha Hf Hes. induction Hs as [|q x ptrs es Hq Hs IH]; intros [|fuel] n p Ha Hf Hn Hmax;
    try (simpl in Hf; lia); rewrite run_loop; cbn beta iota.
  - apply arr_nil in Ha. rewrite run_bind, (run_load64 _ _ _ Ha). crun. simpl. do 3 f_equal; lia.
  - apply arr_cons in Ha as (Hw & Hqr & Ha). rewrite run_bind, (run_load64 _ _ _ Hw). cbn beta iota.
    rewrite (proj2 (Z.eqb_neq q NULL)) by (unfold NULL; lia).
    destruct (run_key_prefix_sym m str q t x k Ht Hq Hk) as (d & Hd & E).
    rewrite run_bind, Hd. cbn beta iota. rewrite E. cbn [list_find].
    simpl length in Hmax.
    destruct (decide (has_key (take (Z.to_nat k) t) x)) as [Hkey|Hkey].
    + rewrite bool_decide_eq_true_2 by done. crun. do 2 f_equal. lia.
    + rewrite bool_decide_eq_false_2 by done. crun. rewrite wrap_small by lia.
      rewrite IH; [|done|simpl in Hf; lia|lia|lia].
      destruct (list_find _ es) as [[i y]|]; simpl; [do 2 f_equal; lia|do 3 f_equal; lia].
Qed.

Lemma run_find_entry m p ptrs es name nm :
  arr m p ptrs → Forall2 (cstr m) ptrs es → cstr m name nm →
  find_entry p name (Z.of_nat (length nm)) m =
  Ret (p + 8 * Z.of_nat (match entry_of nm es with Some (i, _) => i | None => length es end)) m.
Proof.
  intros Ha Hs Hn. unfold find_entry, entry_of. rewrite run_scan_fuel.
  assert (length ptrs < S (size m))%nat as Hf by (apply arr_size in Ha; lia).
  revert p Ha Hf. generalize (S (size m)) as fuel.
  induction Hs as [|q x ptrs es Hq Hs IH]; intros [|fuel] p Ha Hf; try (simpl in Hf; lia);
    rewrite run_loop; cbn beta iota.
  - apply arr_nil in Ha. rewrite run_bind, (run_load64 _ _ _ Ha). crun. simpl. f_equal. lia.
  - apply arr_cons in Ha as (Hw & Hqr & Ha). rewrite run_bind, (run_load64 _ _ _ Hw). cbn beta iota.
    rewrite (proj2 (Z.eqb_neq q NULL)) by (unfold NULL; lia).
    destruct (run_entry_test m name q nm x Hn Hq) as (d & Hd & Htest).
    rewrite run_bind, Hd. cbn beta iota. rewrite run_bind, Htest. cbn beta iota. cbn [list_find].
    fold (has_key (nm ++ [61]) x). destruct (decide (has_key (nm ++ [61]) x)) as [Hkey|Hkey].
    + rewrite bool_decide_eq_true_2 by done. crun. f_equal. lia.
    + rewrite bool_decide_eq_false_2 by done. crun. rewrite IH; [|done|simpl in Hf; lia].
      destruct (list_find _ es) as [[i y]|]; simpl; f_equal; lia.
Qed.

(** *** Values *)

Fixpoint find_value nm es : option (list Z) :=
  match es with
  | [] => None
  | x :: es => if decide (has_key (nm ++ [61]) x) then Some (drop (S (length nm)) x) else find_value nm es
  end.

(** The entries after [t] is put under a key. *)
Fixpoint put_entry (key t : list Z) (overwrite : Z) es : list (list Z) :=
  match es with
  | [] => [t]
  | x :: es =>
      if decide (has_key key x) then (if overwrite =? 0 then x else t) :: es
      else x :: put_entry key t overwrite es
  end.

Lemma put_entry_find key t ow es :
  put_entry key t ow es =
  match list_find (has_key key) es with
  | Some (i, _) => if ow =? 0 then es else <[i := t]> es
  | None => es ++ [t]
  end.
Proof.
  induction es as [|x es IH]; [done|]. cbn [put_entry list_find].
  destruct (decide (has_key key x)); [by destruct (ow =? 0)|]. rewrite IH.
  destruct (list_find (has_key key) es) as [[i y]|]; simpl; [|done]. by destruct (ow =? 0).
Qed.

(** A key with its equals sign determines the name. *)
Lemma key_inj nm nm' x :
  61 ∉ nm → 61 ∉ nm' → has_key (nm ++ [61]) x → has_key (nm' ++ [61]) x → nm = nm'.
Proof.
  unfold has_key. revert nm' x. induction nm as [|a nm IH]; intros [|b nm'] x Ha Hb [r E] [r' E'].
  - done.
  - simpl in E, E'. subst x. simplify_eq. destruct Hb. left.
  - simpl in E, E'. subst x. simplify_eq. destruct Ha. left.
  - simpl in E, E'. subst x. injection E' as <- E'. f_equal.
    apply (IH nm' ((nm ++ [61]) ++ r)).
    + intros Hin. apply Ha. by right.
    + intros Hin. apply Hb. by right.
    + by exists r.
    + by exists r'.
Qed.

Lemma has_own_key nm v : has_key (nm ++ [61]) (nm ++ 61 :: v).
Proof. exists v. by rewrite <-app_assoc. Qed.

Lemma own_value nm v : drop (S (length nm)) (nm ++ 61 :: v) = v.
Proof. rewrite drop_app_ge by lia. by replace (S (length nm) - length nm)%nat with 1%nat by lia. Qed.

Lemma find_put_same nm v ow es :
  find_value nm (put_entry (nm ++ [61]) (nm ++ 61 :: v) ow es) =
  Some (if ow =? 0 then default v (find_value nm es) else v).
Proof.
  pose proof (has_own_key nm v). pose proof (own_value nm v) as Hv.
  induction es as [|x es IH]; simpl.
  - rewrite decide_True, Hv by done. by destruct (ow =? 0).
  - destruct (decide (has_key (nm ++ [61]) x)) as [Hx|Hx]; simpl.
    + destruct (ow =? 0); rewrite decide_True by done; [done|by rewrite Hv].
    + by rewrite decide_False by done.
Qed.

Lemma find_put_other nm nm' v ow es :
  61 ∉ nm → 61 ∉ nm' → nm' ≠ nm →
  find_value nm' (put_entry (nm ++ [61]) (nm ++ 61 :: v) ow es) = find_value nm' es.
Proof.
  intros H1 H2 Hne.
  assert (∀ x, has_key (nm ++ [61]) x → ¬ has_key (nm' ++ [61]) x) as Hk.
  { intros x Hx Hx'. apply Hne. by apply (key_inj nm' nm x). }
  pose proof (Hk _ (has_own_key nm v)) as Ht.
  induction es as [|x es IH]; simpl; [by rewrite decide_False|].
  destruct (decide (has_key (nm ++ [61]) x)) as [Hx|Hx]; simpl; [|by rewrite IH].
  rewrite (decide_False (P := has_key (nm' ++ [61]) x)) by auto.
  by destruct (ow =? 0); rewrite decide_False by auto.
Qed.

(** The entries without the first one of a name. *)
Fixpoint remove_entry nm es : list (list Z) :=
  match es with
  | [] => []
  | x :: es => if decide (has_key (nm ++ [61]) x) then es else x :: remove_entry nm es
  end.

Lemma remove_entry_find nm es :
  remove_entry nm es = match entry_of nm es with Some (i, _) => delete i es | None => es end.
Proof.
  unfold entry_of. induction es as [|x es IH]; [done|]. cbn [remove_entry list_find].
  destruct (decide (has_key (nm ++ [61]) x)); [done|]. rewrite IH.
  by destruct (list_find _ es) as [[i y]|].
Qed.

Lemma find_remove_other nm nm' es :
  61 ∉ nm → 61 ∉ nm' → nm' ≠ nm → find_value nm' (remove_entry nm es) = find_value nm' es.
Proof.
  intros H1 H2 Hne. induction es as [|x es IH]; [done|]. cbn [remove_entry find_value].
  destruct (decide (has_key (nm ++ [61]) x)) as [Hx|Hx].
  - rewrite decide_False; [done|]. intros Hx'. apply Hne. by apply (key_inj nm' nm x).
  - cbn [find_value]. by rewrite IH.
Qed.

(** A name occurs once. *)
Definition once nm es : Prop := ∀ i j x y, es !! i = Some x → es !! j = Some y →
  has_key (nm ++ [61]) x → has_key (nm ++ [61]) y → i = j.

Lemma find_remove_same nm es : once nm es → find_value nm (remove_entry nm es) = None.
Proof.
  intros Ho. induction es as [|x es IH]; [done|]. cbn [remove_entry].
  destruct (decide (has_key (nm ++ [61]) x)) as [Hx|Hx].
  - assert (∀ j y, es !! j = Some y → ¬ has_key (nm ++ [61]) y) as Hno.
    { intros j y Hj Hy. by specialize (Ho 0%nat (S j) x y eq_refl Hj Hx Hy). }
    clear - Hno. induction es as [|y es IH]; [done|]. cbn [find_value].
    rewrite decide_False by (by apply (Hno 0%nat)). apply IH. intros j z Hj. by apply (Hno (S j)).
  - cbn [find_value]. rewrite decide_False by done. apply IH. intros i j y z Hi Hj Hy Hz.
    specialize (Ho (S i) (S j) y z Hi Hj Hy Hz). lia.
Qed.

(** [r] points into one of the strings, with room for [v]. *)
Definition within (ptrs : list Z) es (r : Z) (v : list Z) : Prop :=
  ∃ i q x, ptrs !! i = Some q ∧ es !! i = Some x ∧
    q ≤ r ∧ r + Z.of_nat (length v) ≤ q + Z.of_nat (length x).

(** The loop of [getenv]. *)
Lemma run_getenv_loop m p ptrs es name nm :
  arr m p ptrs → Forall2 (cstr m) ptrs es → cstr m name nm →
  ∃ r, (∀ fuel, (length ptrs < fuel)%nat → loop fuel (λ p,
    q ← load64 p;
    if q =? NULL then Break NULL else
    d ← strncmp name q (Z.of_nat (length nm));
    hit ← (if d =? 0 then c ← loadc (q + Z.of_nat (length nm)); mret (c =? 61) else mret false);
    if hit : bool then Break (q + (Z.of_nat (length nm) + 1)) else Next (p + 8)) p m = Ret r m) ∧
  match find_value nm es with Some v => r ≠ NULL ∧ cstr m r v ∧ within ptrs es r v | None => r = NULL end.
Proof.
  intros Ha Hs Hn. revert p Ha. induction Hs as [|q x ptrs es Hq Hs IH]; intros p Ha.
  - apply arr_nil in Ha. exists NULL. split; [|done]. intros [|fuel] Hf; [lia|]. rewrite run_loop.
    rewrite run_bind, (run_load64 _ _ _ Ha). by crun.
  - apply arr_cons in Ha as (Hw & Hqr & Ha).
    destruct (run_entry_test m name q nm x Hn Hq) as (d & Hd & Htest).
    destruct (IH _ Ha) as (r & Hr & Hv). simpl find_value.
    destruct (decide (has_key (nm ++ [61]) x)) as [Hkey|Hkey].
    + exists (q + (Z.of_nat (length nm) + 1)). split.
      * intros [|fuel] Hf; [lia|]. rewrite run_loop, run_bind, (run_load64 _ _ _ Hw). cbn beta iota.
        rewrite (proj2 (Z.eqb_neq q NULL)) by (unfold NULL; lia).
        rewrite run_bind, Hd. cbn beta iota. rewrite run_bind, Htest. cbn beta iota.
        by rewrite bool_decide_eq_true_2.
      * split; [unfold NULL; lia|]. destruct Hkey as [v ->]. apply cstr_app in Hq as (_ & _ & Hq).
        rewrite length_app in Hq. simpl in Hq. rewrite drop_app_ge by (rewrite length_app; simpl; lia).
        rewrite length_app. simpl. replace (S (length nm) - (length nm + 1))%nat with 0%nat by lia.
        replace (q + (Z.of_nat (length nm) + 1)) with (q + Z.of_nat (length nm + 1)) by lia.
        split; [done|]. eexists 0%nat, q, _. split_and!; [done..|lia|]. rewrite drop_0, !length_app. simpl. lia.
    + exists r. split; [|destruct (find_value nm es); [|done];
        destruct Hv as (? & ? & i & ?); split_and!; [done..|by exists (S i)]]. intros [|fuel] Hf; [lia|]. rewrite run_loop, run_bind, (run_load64 _ _ _ Hw).
      cbn beta iota. rewrite (proj2 (Z.eqb_neq q NULL)) by (unfold NULL; lia).
      rewrite run_bind, Hd. cbn beta iota. rewrite run_bind, Htest. cbn beta iota.
      rewrite bool_decide_eq_false_2 by done. rewrite run_ret. apply Hr. simpl in Hf. lia.
Qed.

Lemma run_name_loop m z l k fuel :
  cstr m z l → 0 ≤ k → k + Z.of_nat (length l) < 2 ^ 64 → (length l < fuel)%nat →
  loop fuel (λ '(z, l1),
    c ← loadc z;
    if c =? 0 then Break (Some l1) else
    if c =? 61 then Break None else
    Next (z + 1, u64 (l1 + 1))) (z, k) m =
  Ret (if decide (61 ∈ l) then None else Some (k + Z.of_nat (length l))) m.
Proof.
  revert z k fuel. induction l as [|c l IH]; intros z k [|fuel] Hz Hk Hmax Hf; try (simpl in Hf; lia);
    rewrite run_loop; cbn beta iota.
  - apply cstr_nil in Hz. crun. rewrite decide_False by (by intros ?%elem_of_nil). simpl. do 2 f_equal. lia.
  - apply cstr_cons in Hz as (Hc & Hcr & Hz). simpl length in Hmax. crun.
    rewrite s8_nonzero, s8_const by (auto || lia). destruct (Z.eqb_spec c 61) as [->|Hne]; crun.
    + by rewrite decide_True by left.
    + rewrite wrap_small, IH by (done || (simpl in Hf; lia) || lia).
      destruct (decide (61 ∈ l)).
      * by rewrite decide_True by (by right).
      * rewrite decide_False by (intros [?|?]%elem_of_cons; [lia|done]). do 2 f_equal. simpl. lia.
Qed.

Lemma run_name_length m name nm :
  cstr m name nm → 0 < name → Z.of_nat (length nm) < 2 ^ 64 →
  name_length name m = Ret (if decide (nm = [] ∨ 61 ∈ nm) then None else Some (Z.of_nat (length nm))) m.
Proof.
  intros Hn Hpos Hlen. unfold name_length. rewrite (proj2 (Z.eqb_neq name NULL)) by (unfold NULL; lia).
  destruct nm as [|c nm].
  { apply cstr_nil in Hn. crun. by rewrite decide_True by auto. }
  pose proof Hn as Hn0. apply cstr_cons in Hn0 as (Hc & Hcr & _). crun. rewrite s8_nonzero by done. crun.
  rewrite (run_name_loop m name (c :: nm) 0) by (done || lia || (apply cstr_size in Hn; lia)).
  destruct (decide (61 ∈ c :: nm)); [by rewrite decide_True by auto|].
  rewrite decide_False by naive_solver. done.
Qed.

(** Moving the entries down. *)
Lemma run_shift_loop m p q ptrs fuel :
  arr m p (q :: ptrs) → (length ptrs + 1 < fuel)%nat →
  loop fuel (λ p,
    q ← load64 p;
    if q =? NULL then Break tt else
    v ← load64 (p + 8);
    store64 p v;;
    Next (p + 8)) p m = Ret tt (write_bytes m p (words (ptrs ++ [NULL]))).
Proof.
  revert m p q fuel. induction ptrs as [|r ptrs IH]; intros m p q [|fuel] Ha Hf; try lia;
    rewrite run_loop; cbn beta; pose proof (arr_valid_any m p _ Ha) as Hv;
    apply arr_cons in Ha as (Hw & Hqr & Ha); rewrite run_bind, (run_load64 _ _ _ Hw); cbn beta iota;
    rewrite (proj2 (Z.eqb_neq q NULL)) by (unfold NULL; lia).
  - apply arr_nil in Ha. rewrite run_bind, (run_load64 _ _ _ Ha). cbn beta iota.
    rewrite run_bind, run_store64 by done. cbn beta iota. rewrite run_ret.
    destruct fuel as [|fuel]; [simpl in Hf; lia|]. rewrite run_loop, run_bind.
    rewrite (run_load64 _ _ NULL); [done|]. rewrite word_put_ne by lia. done.
  - pose proof Ha as Ha0. apply arr_cons in Ha0 as (Hr & Hrr & _).
    rewrite run_bind, (run_load64 _ _ _ Hr). cbn beta iota.
    rewrite run_bind, run_store64 by done. cbn beta iota. rewrite run_ret.
    rewrite (IH _ _ r fuel); [|split; [|apply Ha]|simpl in Hf; lia].
    + change ((r :: ptrs) ++ [NULL]) with (r :: ptrs ++ [NULL]). rewrite words_cons.
      unfold put. by rewrite write_bytes_app', le_bytes_length.
    + apply write_bytes_frame; [apply Ha|]. unfold disjoint_ranges. rewrite le_bytes_length. lia.
Qed.
End searches.

(** ** The environment and the heap *)

Section state.
Context {S : Type} `{AllocatorLaws S}.
Implicit Types (e : envstate S) (s : S) (g : ghost) (live : list block).
Implicit Types (ptrs : list Z) (es : list (list Z)) (x t : list Z).

Abbreviation mem_of e := (amem (e_heap e)).

(** The size of the vector, in entries. *)
Definition capacity e (n : nat) : Z := Z.max (__environ_size e) (Z.of_nat n + 1).

(** The entries are [es], at the addresses [ptrs]. *)
Record env_at e g live ptrs es : Prop := {
  ea_heap : heap_inv (e_heap e) g live;
  ea_alloc : __environ_alloc e = NULL;
  ea_pos : 0 < environ e;
  ea_arr : arr (mem_of e) (environ e) ptrs;
  ea_use : in_use g (environ e) (8 * (Z.of_nat (length ptrs) + 1));
  ea_strs : Forall2 (λ q x, cstr (mem_of e) q x ∧ in_use g q (Z.of_nat (length x) + 1) ∧
    disjoint_ranges (environ e) (8 * capacity e (length ptrs)) q (Z.of_nat (length x) + 1)) ptrs es;
  ea_size : __environ_size e = 0 ∨
    (Z.of_nat (length ptrs) + 1 ≤ __environ_size e ∧ (environ e, 8 * __environ_size e) ∈ live);
}.

Lemma run_heap_op {A} (c : C S A) e a s' :
  c (e_heap e) = Ret a s' → heap_op c e = Ret a (set_heap s' e).
Proof. intros E. unfold heap_op, zoom. by rewrite E. Qed.

Lemma set_heap_id e : set_heap (e_heap e) e = e.
Proof. by destruct e. Qed.

Lemma run_emem {A} (c : C mem A) e a m' :
  c (mem_of e) = Ret a m' → emem c e = Ret a (set_heap (set_amem m' (e_heap e)) e).
Proof. intros E. by apply run_heap_op, run_on_mem. Qed.

Lemma run_emem_read {A} (c : C mem A) e a :
  c (mem_of e) = Ret a (mem_of e) → emem c e = Ret a e.
Proof. intros E. unfold emem. rewrite (run_heap_op _ e a (e_heap e)), set_heap_id; [done|]. by apply run_on_mem_read. Qed.

Lemma strs_cstr e g live ptrs es : env_at e g live ptrs es → Forall2 (cstr (mem_of e)) ptrs es.
Proof. intros He. eapply Forall2_impl; [apply He|]. by intros ? ? [? _]. Qed.

Lemma strs_length e g live ptrs es : env_at e g live ptrs es → length ptrs = length es.
Proof. intros He. eapply Forall2_length. apply He. Qed.

Lemma arr_bytes_length ptrs : Z.of_nat (length (words (ptrs ++ [NULL]))) = 8 * (Z.of_nat (length ptrs) + 1).
Proof. rewrite words_length, length_app. simpl. lia. Qed.

Lemma cstr_bytes_length x : Z.of_nat (length (x ++ [0])) = Z.of_nat (length x) + 1.
Proof. rewrite length_app. simpl. lia. Qed.

(** A heap operation that keeps the bytes in use keeps the environment; [P] is
    where it does. *)
Lemma env_transfer e g live ptrs es s' g' live' (P : Z → Z → Prop) :
  env_at e g live ptrs es → heap_inv s' g' live' →
  (__environ_size e ≠ 0 → (environ e, 8 * __environ_size e) ∈ live') →
  (∀ q l, l ≠ [] → in_use g q (Z.of_nat (length l)) → bytes_at (mem_of e) q l →
     P q (Z.of_nat (length l)) → bytes_at (amem s') q l ∧ in_use g' q (Z.of_nat (length l))) →
  P (environ e) (8 * (Z.of_nat (length ptrs) + 1)) →
  Forall2 (λ q x, P q (Z.of_nat (length x) + 1)) ptrs es →
  env_at (set_heap s' e) g' live' ptrs es.
Proof.
  intros [Hh Ha Hp [Harr Hps] Hu Hs Hsz] Hinv Hlive Hk Pa Ps.
  destruct (Hk (environ e) (words (ptrs ++ [NULL]))) as [Hb1 Hu1];
    [by destruct ptrs|by rewrite arr_bytes_length|done|by rewrite arr_bytes_length|].
  rewrite arr_bytes_length in Hu1. split; try done.
  - apply Forall2_same_length_lookup in Hs as [Hlen Hs].
    apply Forall2_same_length_lookup. split; [done|]. intros i q x Hq Hx.
    destruct (Hs i q x Hq Hx) as ([Hc Hnz] & Huse & Hd).
    pose proof (Forall2_lookup_lr _ _ _ _ _ _ Ps Hq Hx) as HP. simpl in HP.
    destruct (Hk q (x ++ [0])) as [Hb2 Hu2]; [by destruct x|by rewrite cstr_bytes_length|done|by rewrite cstr_bytes_length|].
    rewrite cstr_bytes_length in Hu2. split; [by split|]. by split.
  - simpl. destruct (decide (__environ_size e = 0)) as [?|Hne]; [by left|right].
    destruct Hsz as [?|[? _]]; [done|]. split; [done|by apply Hlive].
Qed.

(** A string of the heap that is not an entry yet. *)
Record new_str e g live ptrs es p t : Prop := {
  ns_env : env_at e g ((p, Z.of_nat (length t) + 1) :: live) ptrs es;
  ns_str : cstr (mem_of e) p t;
  ns_vec : disjoint_ranges (environ e) (8 * capacity e (length ptrs)) p (Z.of_nat (length t) + 1);
  ns_apart : Forall2 (λ q x, disjoint_ranges p (Z.of_nat (length t) + 1) q (Z.of_nat (length x) + 1)) ptrs es;
}.

Lemma ns_addr e g live ptrs es p t :
  new_str e g live ptrs es p t → 0 < p < 2 ^ 64 ∧ in_use g p (Z.of_nat (length t) + 1).
Proof.
  intros [Henv _ _ _]. destruct (heap_inv_block _ _ _ p (Z.of_nat (length t) + 1) (ea_heap _ _ _ _ _ Henv)) as (_ & ? & ?);
    [left|]. done.
Qed.

(** Filling a new block with a string gives one. *)
Lemma new_str_fill e g live ptrs es s1 g1 p t :
  env_at e g live ptrs es → fresh_block (e_heap e) g s1 g1 live p (Z.of_nat (length t) + 1) →
  Forall (λ b, 0 < b < 256) t →
  new_str (set_heap (set_amem (write_bytes (amem s1) p (t ++ [0])) s1) e) g1 live ptrs es p t.
Proof.
  intros He (Hp & Hinv & Hv & Hu & Hkeep) Ht. set (l := t ++ [0]).
  assert (Z.of_nat (length l) = Z.of_nat (length t) + 1) as Hl by apply cstr_bytes_length.
  rewrite <-Hl in *.
  assert (env_at (set_heap (set_amem (write_bytes (amem s1) p l) s1) e) g1
    ((p, Z.of_nat (length l)) :: live) ptrs es) as He1.
  { apply (env_transfer e g live ptrs es _ g1 _ (λ _ _, True)); [done| | | |done|].
    - by apply heap_inv_write.
    - intros Hne. right. destruct (ea_size _ _ _ _ _ He) as [?|[_ ?]]; done.
    - intros q k Hne Huse Hb _. destruct (Hkeep q k Hne Huse Hb) as (Hb1 & Hu1 & Hd).
      rewrite amem_set. split; [by apply write_bytes_frame|done].
    - apply Forall2_same_length_lookup. split; [by eapply strs_length|done]. }
  destruct He as [Hh Ha Hpos [Harr Hps] Huse Hs Hsz].
  assert (∀ q x, cstr (mem_of e) q x → in_use g q (Z.of_nat (length x) + 1) →
    disjoint_ranges p (Z.of_nat (length l)) q (Z.of_nat (length x) + 1)) as Hdis.
  { intros q x [Hq _] Hux. rewrite <-cstr_bytes_length in *.
    by destruct (Hkeep q (x ++ [0])) as (_ & _ & ?); [by destruct x|..]. }
  split.
  - by rewrite <-Hl.
  - simpl. rewrite amem_set. by apply cstr_write.
  - simpl. unfold capacity. simpl. rewrite <-Hl. destruct Hsz as [Hz|[Hle Hin]].
    + rewrite Hz, Z.max_r by lia. rewrite <-arr_bytes_length in *.
      destruct (Hkeep (environ e) (words (ptrs ++ [NULL]))) as (_ & _ & Hd); [by destruct ptrs|done|done|].
      unfold disjoint_ranges in *. lia.
    + rewrite Z.max_l by lia. pose proof (heap_inv_disjoint _ _ _ Hinv) as Hd. inversion Hd as [|? ? Hd1 _]; subst.
      rewrite Forall_forall in Hd1. specialize (Hd1 _ Hin). unfold disjoint_ranges in *. simpl in Hd1. lia.
  - rewrite <-Hl. eapply Forall2_impl; [exact Hs|]. intros q x (Hq & Hux & _). by apply Hdis.
Qed.

(** Storing in the vector. *)
Lemma env_vec_write e g live ptrs es ptrs' es' a l :
  env_at e g live ptrs es → environ e ≤ a →
  a + Z.of_nat (length l) ≤ environ e + 8 * capacity e (length ptrs) →
  in_use g a (Z.of_nat (length l)) → valid (mem_of e) a (Z.of_nat (length l)) →
  in_use g (environ e) (8 * (Z.of_nat (length ptrs') + 1)) →
  capacity e (length ptrs') ≤ capacity e (length ptrs) →
  arr (write_bytes (mem_of e) a l) (environ e) ptrs' →
  Forall2 (λ q x, cstr (mem_of e) q x ∧ in_use g q (Z.of_nat (length x) + 1) ∧
    disjoint_ranges (environ e) (8 * capacity e (length ptrs)) q (Z.of_nat (length x) + 1)) ptrs' es' →
  env_at (set_heap (set_amem (write_bytes (mem_of e) a l) (e_heap e)) e) g live ptrs' es'.
Proof.
  intros [Hh Ha Hp Harr Hu Hs Hsz] Hlo Hhi Hua Hva Hu' Hcap Harr' Hs'. split; try done.
  - by apply heap_inv_write.
  - simpl. by rewrite amem_set.
  - eapply Forall2_impl; [exact Hs'|]. intros q x (Hq & Hux & Hd). simpl. rewrite amem_set.
    split_and!; [|done|unfold disjoint_ranges, capacity in *; simpl; lia].
    apply cstr_frame; [done|]. unfold disjoint_ranges in *. lia.
  - destruct Hsz as [?|[Hle Hin]]; [by left|right]. split; [|done]. simpl. unfold capacity in Hcap. lia.
Qed.

Lemma env_room e g live ptrs es :
  env_at e g live ptrs es → __environ_size e ≠ 0 →
  in_use g (environ e) (8 * __environ_size e) ∧ valid (mem_of e) (environ e) (8 * __environ_size e).
Proof.
  intros He Hne. destruct (ea_size _ _ _ _ _ He) as [?|[_ Hin]]; [done|].
  by destruct (heap_inv_block _ _ _ _ _ (ea_heap _ _ _ _ _ He) Hin) as (? & ? & _).
Qed.

Lemma arr_valid m p ptrs : arr m p ptrs → valid m p (8 * (Z.of_nat (length ptrs) + 1)).
Proof. intros [Ha _]. rewrite <-arr_bytes_length. by apply bytes_at_valid. Qed.

Lemma Forall2_insert_both {A B} (P : A → B → Prop) l k i a b :
  Forall2 P l k → P a b → Forall2 P (<[i:=a]> l) (<[i:=b]> k).
Proof. apply Forall2_insert. Qed.

(** An entry is replaced. *)
Lemma env_replace e g live ptrs es p t i :
  new_str e g live ptrs es p t → (i < length ptrs)%nat →
  ∃ e', emem (store64 (environ e + 8 * Z.of_nat i) p) e = Ret tt e' ∧
  env_at e' g ((p, Z.of_nat (length t) + 1) :: live) (<[i := p]> ptrs) (<[i := t]> es).
Proof.
  intros Hn Hi. destruct (ns_addr _ _ _ _ _ _ _ Hn) as [Hpr Hup]. destruct Hn as [He Hstr Hvec Hap].
  pose proof (arr_valid _ _ _ (ea_arr _ _ _ _ _ He)) as Hv.
  eexists. split; [apply run_emem, run_store64; by eapply valid_sub; [exact Hv|lia|lia]|].
  apply (env_vec_write e g _ ptrs es); rewrite ?le_bytes_length, ?length_insert; try done.
  - lia.
  - unfold capacity. lia.
  - eapply in_use_sub; [apply He|lia|lia].
  - by eapply valid_sub; [exact Hv|lia|lia].
  - apply He.
  - destruct (ea_arr _ _ _ _ _ He) as [Hb Hps]. split.
    + rewrite <-insert_app_l by done. apply words_put; [done|]. rewrite length_app. lia.
    + by apply Forall_insert.
  - apply Forall2_insert_both; [apply He|done].
Qed.

(** An entry is added where there is room. *)
Lemma env_append e g live ptrs es p t :
  new_str e g live ptrs es p t → Z.of_nat (length ptrs) + 1 < __environ_size e →
  ∃ e', (emem (store64 (environ e + 8 * Z.of_nat (length ptrs) + 8) NULL);;
         emem (store64 (environ e + 8 * Z.of_nat (length ptrs)) p)) e = Ret tt e' ∧
  env_at e' g ((p, Z.of_nat (length t) + 1) :: live) (ptrs ++ [p]) (es ++ [t]).
Proof.
  intros Hn Hroom. destruct (ns_addr _ _ _ _ _ _ _ Hn) as [Hpr Hup]. destruct Hn as [He Hstr Hvec Hap].
  destruct (env_room _ _ _ _ _ He ltac:(lia)) as [Huv Hv]. set (n := length ptrs) in *.
  set (m := mem_of e) in *. set (a := environ e + 8 * Z.of_nat n) in *.
  assert (∀ e1, mem_of e1 = put m (a + 8) NULL → valid (mem_of e1) a 8) as Hv1.
  { intros e1 ->. apply put_valid. eapply valid_sub; [exact Hv|lia|lia]. }
  eexists. split.
  { rewrite run_bind, (run_emem _ e tt (put m (a + 8) NULL)).
    2: { apply run_store64. eapply valid_sub; [exact Hv|lia|lia]. }
    cbn beta iota. apply run_emem, run_store64, Hv1. simpl. by rewrite amem_set. }
  cbn [e_heap set_heap]. rewrite amem_set, set_amem_set.
  assert (put (put m (a + 8) NULL) a p = write_bytes m a (words [p; NULL])) as Em.
  { unfold put. rewrite words_cons, write_bytes_app', le_bytes_length. unfold words. cbn [map].
    change (mjoin [le_bytes 8 NULL]) with (le_bytes 8 NULL ++ []). rewrite app_nil_r.
    rewrite write_bytes_comm; [done|]. unfold disjoint_ranges. rewrite !le_bytes_length. lia. }
  rewrite Em. change (set_heap ?s (set_heap ?s' e)) with (set_heap s e).
  apply (env_vec_write e g _ ptrs es); rewrite ?words_length, ?length_app; simpl length; fold n; fold m; try done.
  - lia.
  - unfold capacity. lia.
  - eapply in_use_sub; [exact Huv|lia|lia].
  - eapply valid_sub; [exact Hv|lia|lia].
  - eapply in_use_sub; [exact Huv|lia|lia].
  - unfold capacity. lia.
  - destruct (ea_arr _ _ _ _ _ He) as [Hb Hps]. split; [|apply Forall_app; by auto].
    rewrite <-app_assoc, words_app, words_app in *. apply bytes_at_app in Hb as [Hb _].
    apply bytes_at_app. rewrite words_length. fold n. split.
    + apply write_bytes_frame; [done|]. unfold disjoint_ranges. rewrite !words_length. simpl. lia.
    + replace (environ e + Z.of_nat (8 * n)) with a by lia.
      rewrite <-words_app. apply write_bytes_at, words_is_byte.
  - apply Forall2_app; [apply He|by constructor].
Qed.

(** *** A larger vector *)

(** The state while a new block is being filled. *)
Definition filling s1 g1 live (a sz : Z) s : Prop :=
  heap_inv s g1 live ∧ valid (amem s) a sz ∧
  ∀ y, y < a ∨ a + sz ≤ y → amem s !! y = amem s1 !! y.

Lemma filling_write s1 g1 live a sz s q l :
  filling s1 g1 live a sz s → in_use g1 a sz → a ≤ q → q + Z.of_nat (length l) ≤ a + sz →
  filling s1 g1 live a sz (set_amem (write_bytes (amem s) q l) s).
Proof.
  intros (Hinv & Hv & Hout) Hu Hlo Hhi. split_and!.
  - apply heap_inv_write; [done|by eapply in_use_sub|by eapply valid_sub].
  - rewrite amem_set. by apply write_bytes_valid.
  - intros x Hx. rewrite amem_set, lookup_write_bytes_out by lia. by apply Hout.
Qed.

(** The environment with its entries in the new vector. *)
Lemma env_moved e g live ptrs es p t s1 g1 a k s :
  new_str e g live ptrs es p t → Z.of_nat (length ptrs) + 2 ≤ k →
  fresh_block (e_heap e) g s1 g1 ((p, Z.of_nat (length t) + 1) :: live) a (8 * k) →
  filling s1 g1 ((a, 8 * k) :: (p, Z.of_nat (length t) + 1) :: live) a (8 * k) s →
  bytes_at (amem s) a (words (ptrs ++ [p; NULL])) →
  env_at (set_environ a (set_size k (set_heap s e))) g1
    ((a, 8 * k) :: (p, Z.of_nat (length t) + 1) :: live) (ptrs ++ [p]) (es ++ [t]).
Proof.
  intros Hn Hk (Ha & Hinv & Hv & Hu & Hkeep) (Hinv' & Hv' & Hout) Hb.
  destruct (ns_addr _ _ _ _ _ _ _ Hn) as [Hpr Hup]. destruct Hn as [He Hstr Hvec Hap].
  destruct (heap_inv_block _ _ _ a (8 * k) Hinv) as (_ & _ & Har); [left|].
  assert (∀ q x, cstr (mem_of e) q x → in_use g q (Z.of_nat (length x) + 1) →
    cstr (amem s) q x ∧ in_use g1 q (Z.of_nat (length x) + 1) ∧
    disjoint_ranges a (8 * k) q (Z.of_nat (length x) + 1)) as Hstrs.
  { intros q x [Hq Hx] Hux. rewrite <-cstr_bytes_length in *.
    destruct (Hkeep q (x ++ [0])) as (Hq1 & Hu1 & Hd); [by destruct x|done|done|].
    split_and!; [|done|done]. split; [|done]. apply (bytes_at_ext (amem s1)); [done|].
    intros y Hy. apply Hout. unfold disjoint_ranges in Hd. lia. }
  split; simpl.
  - done.
  - apply He.
  - lia.
  - split; [by rewrite <-app_assoc|]. apply Forall_app. split; [apply He|by apply Forall_singleton].
  - eapply in_use_sub; [exact Hu|lia|]. rewrite length_app. simpl. lia.
  - assert (capacity (set_environ a (set_size k (set_heap s e))) (length (ptrs ++ [p])) = k) as ->.
    { unfold capacity. simpl. rewrite length_app. simpl. lia. }
    apply Forall2_app; [|constructor; [|done]].
    + eapply Forall2_impl; [apply He|]. intros q x (Hq & Hux & _). by apply Hstrs.
    + by apply Hstrs.
  - right. rewrite length_app. simpl. split; [lia|left].
Qed.

Lemma filling_start s g s1 g1 live a sz :
  fresh_block s g s1 g1 live a sz → filling s1 g1 ((a, sz) :: live) a sz s1.
Proof. intros (_ & Hinv & Hv & _). by split_and!. Qed.

Lemma env_grow realloc e g live ptrs es p t :
  new_str e g live ptrs es p t →
  8 * (Z.of_nat (length ptrs) + 33) ≤ max_request → 8 * (Z.of_nat (length ptrs) + 33) < 2 ^ 64 →
  ∃ r e' g' live' ptrs',
  (newenv ← grow_environ realloc (1 + Z.of_nat (length ptrs));
   if newenv =? NULL then mret (-1) else
   emem (store64 (newenv + 8 * (1 + Z.of_nat (length ptrs) - 1)) p);;
   emem (store64 (newenv + 8 * (1 + Z.of_nat (length ptrs))) NULL);;
   modify (set_environ newenv);;
   mret 0) e = Ret r e' ∧
  (r = -1 ∧ env_at e' g' live' ptrs' es ∨ r = 0 ∧ env_at e' g' live' ptrs' (es ++ [t])).
Proof.
  intros Hn Hmax H64. pose proof (ns_env _ _ _ _ _ _ _ Hn) as He. set (n := length ptrs) in *.
  unfold grow_environ. rewrite run_bind, run_bind, run_get. cbn beta iota.
  rewrite (ea_alloc _ _ _ _ _ He). change (NULL =? NULL) with true. cbn [negb].
  rewrite !(wrap_small 64) by lia. set (k := 1 + Z.of_nat n + 32). replace (k * 8) with (8 * k) by lia.
  set (L := (p, Z.of_nat (length t) + 1) :: live) in *.
  destruct (run_malloc_fresh (e_heap e) g L (8 * k) (ea_heap _ _ _ _ _ He))
    as (a & s1 & Hrun & [[-> Hf]|[g1 Hf]]); [lia|..].
  - rewrite run_bind, (run_heap_op _ _ _ _ Hrun). cbn beta iota. change (NULL =? NULL) with true. cbn iota.
    destruct (Hf []) as (g' & [[_ Hinv]|[? _]] & Hkeep); [|done].
    exists (-1), (set_heap s1 e), g', L, ptrs. split; [done|]. left. split; [done|].
    apply (env_transfer e g L ptrs es s1 g' L (λ _ _, True)); try done.
    + intros Hne. by destruct (ea_size _ _ _ _ _ He) as [?|[_ ?]].
    + intros q l Hl Hu Hb _. by apply Hkeep.
    + apply Forall2_same_length_lookup. split; [by eapply strs_length|done].
  - pose proof Hf as (Ha & _ & _ & Hua & _).
    pose proof (filling_start _ _ _ _ _ _ _ Hf) as F0.
    destruct (ea_arr _ _ _ _ _ He) as [Hb Hps]. pose proof (ea_use _ _ _ _ _ He) as Huse. fold n in Huse.
    pose proof (run_memcpy_fresh _ g s1 g1 L a (8 * k) (environ e) (words (ptrs ++ [NULL])) Hf) as Hcpy.
    rewrite arr_bytes_length in Hcpy. fold n in Hcpy. specialize (Hcpy ltac:(lia) Huse Hb).
    set (W := words (ptrs ++ [NULL])) in *. set (s2 := set_amem (write_bytes (amem s1) a W) s1) in *.
    assert (Z.of_nat (length W) = 8 * (Z.of_nat n + 1)) as HW by apply arr_bytes_length.
    assert (filling s1 g1 ((a, 8 * k) :: L) a (8 * k) s2) as F2 by (apply filling_write; [done|done|lia|lia]).
    assert (bytes_at (amem s2) a W) as B2.
    { unfold s2. rewrite amem_set. apply write_bytes_at, words_is_byte. }
    set (s3 := set_amem (put (amem s2) (a + 8 * Z.of_nat n) p) s2).
    assert (filling s1 g1 ((a, 8 * k) :: L) a (8 * k) s3) as F3.
    { apply filling_write; [done|done|lia|]. rewrite le_bytes_length. lia. }
    assert (bytes_at (amem s3) a (words (ptrs ++ [p]))) as B3.
    { unfold s3. rewrite amem_set. replace (ptrs ++ [p]) with (<[n := p]> (ptrs ++ [NULL])).
      - apply words_put; [done|]. rewrite length_app. simpl. lia.
      - replace n with (length ptrs + 0)%nat by lia. by rewrite insert_app_r. }
    set (s4 := set_amem (put (amem s3) (a + 8 * (Z.of_nat n + 1)) NULL) s3).
    assert (filling s1 g1 ((a, 8 * k) :: L) a (8 * k) s4) as F4.
    { apply filling_write; [done|done|lia|]. rewrite le_bytes_length. lia. }
    assert (bytes_at (amem s4) a (words (ptrs ++ [p; NULL]))) as B4.
    { unfold s4. rewrite amem_set. change (ptrs ++ [p; NULL]) with (ptrs ++ ([p] ++ [NULL])).
      rewrite app_assoc. replace (Z.of_nat n + 1) with (Z.of_nat (length (ptrs ++ [p]))).
      - by apply words_snoc.
      - rewrite length_app. simpl. lia. }
    exists 0, (set_environ a (set_size k (set_heap s4 e))), g1, ((a, 8 * k) :: L), (ptrs ++ [p]).
    split; [|right; split; [done|by apply (env_moved e g live ptrs es p t s1 g1 a k s4); [|fold n; lia|..]]].
    rewrite run_bind, (run_heap_op _ _ _ _ Hrun). cbn beta iota.
    rewrite (proj2 (Z.eqb_neq a NULL)) by done.
    replace ((1 + Z.of_nat n) * 8) with (8 * (Z.of_nat n + 1)) by lia.
    rewrite run_bind. unfold emem at 1. rewrite (run_heap_op _ (set_heap s1 e) a s2 Hcpy). cbn beta iota.
    rewrite run_bind, run_modify. cbn beta iota. rewrite run_ret. cbn beta iota.
    rewrite (proj2 (Z.eqb_neq a NULL)) by done.
    replace (1 + Z.of_nat n - 1) with (Z.of_nat n) by lia. replace (1 + Z.of_nat n) with (Z.of_nat n + 1) by lia.
    rewrite run_bind, (run_emem _ _ tt (put (amem s2) (a + 8 * Z.of_nat n) p)).
    2: { apply run_store64. eapply valid_sub; [apply F2|lia|lia]. }
    cbn beta iota. rewrite run_bind, (run_emem _ _ tt (put (amem s3) (a + 8 * (Z.of_nat n + 1)) NULL)).
    2: { apply run_store64. eapply valid_sub; [apply F3|lia|lia]. }
    cbn beta iota. by rewrite run_bind, run_modify.
Qed.

(** *** [__put_env] *)

(** The string is not needed. *)
Lemma env_drop e g live ptrs es p t :
  new_str e g live ptrs es p t →
  ∃ e' g', heap_op (a_free p) e = Ret tt e' ∧ env_at e' g' live ptrs es.
Proof.
  intros [He Hstr Hvec Hap]. set (n := Z.of_nat (length t) + 1) in *.
  destruct (free_ok _ _ _ _ _ (ea_heap _ _ _ _ _ He)) as (s' & g' & Hrun & Hinv & Hkeep).
  exists (set_heap s' e), g'. split; [by apply run_heap_op|].
  apply (env_transfer e g ((p, n) :: live) ptrs es s' g' live (λ q k, disjoint_ranges p n q k)); try done.
  - intros Hne. destruct (ea_size _ _ _ _ _ He) as [?|[Hle Hin]]; [done|].
    apply elem_of_cons in Hin as [E|?]; [|done]. injection E as E1 E2. exfalso.
    unfold disjoint_ranges, capacity in Hvec. rewrite E1 in Hvec. lia.
  - unfold disjoint_ranges, capacity in *. lia.
Qed.

Lemma run_put_env realloc e g live ptrs es p t k ow :
  new_str e g live ptrs es p t → 0 ≤ k ≤ Z.of_nat (length t) →
  8 * (Z.of_nat (length es) + 33) ≤ max_request → 8 * (Z.of_nat (length es) + 33) < 2 ^ 64 →
  ∃ r e' g' live' ptrs', __put_env realloc p k ow e = Ret r e' ∧
  (r = -1 ∧ env_at e' g' live' ptrs' es ∨
   r = 0 ∧ env_at e' g' live' ptrs' (put_entry (take (Z.to_nat k) t) t ow es)).
Proof.
  intros Hn Hk Hmax H64. pose proof (ns_env _ _ _ _ _ _ _ Hn) as He.
  pose proof (strs_length _ _ _ _ _ He) as Hlen. pose proof (ea_pos _ _ _ _ _ He) as Hpos.
  unfold __put_env. rewrite put_entry_find, run_bind, run_get. cbn beta iota.
  rewrite (proj2 (Z.eqb_neq (environ e) NULL)) by (unfold NULL; lia).
  rewrite run_bind, run_ret. cbn beta iota. rewrite run_bind, run_get. cbn beta iota.
  pose proof (run_put_search (mem_of e) (environ e) ptrs es p t k (ea_arr _ _ _ _ _ He)
    (strs_cstr _ _ _ _ _ He) (ns_str _ _ _ _ _ _ _ Hn) Hk ltac:(lia)) as Hsearch.
  rewrite run_bind, (run_emem_read _ _ _ Hsearch). cbn beta iota.
  destruct (list_find (has_key (take (Z.to_nat k) t)) es) as [[i x]|] eqn:Ef.
  - apply list_find_Some in Ef as (Hi & _ & _). apply lookup_lt_Some in Hi.
    destruct (Z.eqb_spec ow 0) as [->|Hne].
    + destruct (env_drop _ _ _ _ _ _ _ Hn) as (e' & g' & Hrun & He'). rewrite run_bind, Hrun.
      exists 0, e', g', live, ptrs. split; [done|]. by right.
    + destruct (env_replace _ _ _ _ _ _ _ i Hn ltac:(lia)) as (e' & Hrun & He'). rewrite run_bind, Hrun.
      eexists 0, e', g, _, _. split; [done|]. right. split; [done|exact He'].
  - rewrite (ea_alloc _ _ _ _ _ He). change (NULL =? NULL) with true. cbn [negb andb].
    rewrite run_bind, run_ret. cbn beta iota. rewrite <-Hlen in *.
    destruct (Z.ltb_spec (1 + Z.of_nat (length ptrs)) (__environ_size e)) as [Hroom|Hfull].
    + destruct (env_append _ _ _ _ _ _ _ Hn ltac:(lia)) as (e' & Hrun & He').
      exists 0, e', g. eexists _, _. split; [|right; split; [done|exact He']].
      by rewrite (run_seq _ _ _ _ _ _ Hrun).
    + apply (env_grow realloc e g live ptrs es p t Hn Hmax H64).
Qed.

(** *** The interface functions *)

Lemma run_getenv_within e g live ptrs es name nm :
  env_at e g live ptrs es → cstr (mem_of e) name nm → Z.of_nat (length nm) < 2 ^ 31 →
  ∃ r, getenv name e = Ret r e ∧
  match find_value nm es with
  | Some v => r ≠ NULL ∧ cstr (mem_of e) r v ∧ within ptrs es r v
  | None => r = NULL
  end.
Proof.
  intros He Hn Hlen. destruct (run_getenv_loop (mem_of e) (environ e) ptrs es name nm
    (ea_arr _ _ _ _ _ He) (strs_cstr _ _ _ _ _ He) Hn) as (r & Hr & Hv).
  exists r. split; [|done]. unfold getenv.
  rewrite run_bind, (run_emem_read _ _ _ (run_strlen _ _ _ Hn)). cbn beta iota zeta.
  rewrite sext_small, wrap_small by lia. rewrite run_bind, run_get. cbn beta iota.
  pose proof (ea_pos _ _ _ _ _ He). rewrite (proj2 (Z.eqb_neq (environ e) NULL)) by (unfold NULL; lia).
  apply run_emem_read. rewrite run_scan_fuel. apply Hr.
  pose proof (arr_size _ _ _ (ea_arr _ _ _ _ _ He)). lia.
Qed.

Lemma run_getenv e g live ptrs es name nm :
  env_at e g live ptrs es → cstr (mem_of e) name nm → Z.of_nat (length nm) < 2 ^ 31 →
  ∃ r, getenv name e = Ret r e ∧
  match find_value nm es with Some v => r ≠ NULL ∧ cstr (mem_of e) r v | None => r = NULL end.
Proof.
  intros He Hn Hlen. destruct (run_getenv_within _ _ _ _ _ _ _ He Hn Hlen) as (r & Hr & Hv).
  exists r. split; [done|]. destruct (find_value nm es); [|done]. by destruct Hv as (? & ? & _).
Qed.

(** The text of an entry, in its block. *)
Lemma run_entry_text e g live s1 g1 p name nm val v :
  fresh_block (e_heap e) g s1 g1 live p (Z.of_nat (length nm) + Z.of_nat (length v) + 2) →
  cstr (mem_of e) name nm → in_use g name (Z.of_nat (length nm)) →
  cstr (mem_of e) val v → in_use g val (Z.of_nat (length v) + 1) →
  (emem (memcpy p name (Z.of_nat (length nm)));;
   emem (store8 (p + Z.of_nat (length nm)) 61);;
   emem (memcpy (p + Z.of_nat (length nm) + 1) val (Z.of_nat (length v) + 1))) (set_heap s1 e) =
  Ret (p + Z.of_nat (length nm) + 1)
    (set_heap (set_amem (write_bytes (amem s1) p ((nm ++ 61 :: v) ++ [0])) s1) e).
Proof.
  intros Hf Hn Hun Hv Huv. pose proof Hf as (_ & _ & Hval & _ & Hkeep).
  pose proof (run_memcpy_fresh _ g s1 g1 live p _ name nm Hf ltac:(lia) Hun (cstr_bytes _ _ _ Hn)) as Hc1.
  rewrite run_bind. unfold emem at 1. rewrite (run_heap_op _ (set_heap s1 e) p _ Hc1). cbn beta iota.
  assert (is_Some (write_bytes (amem s1) p nm !! (p + Z.of_nat (length nm)))) as Hlast.
  { apply (write_bytes_valid _ _ _ _ _ Hval). lia. }
  rewrite run_bind, (run_emem _ _ tt (write_bytes (amem s1) p (nm ++ [61]))).
  2: { cbn [e_heap set_heap]. rewrite amem_set, write_bytes_snoc. by apply run_store8. }
  cbn beta iota. cbn [e_heap set_heap]. rewrite set_amem_set.
  destruct Hv as [Hv Hvnz]. rewrite <-cstr_bytes_length in *.
  destruct (Hkeep val (v ++ [0])) as (Hv1 & _ & Hd); [by destruct v|done|done|].
  rewrite (run_emem _ _ (p + Z.of_nat (length nm) + 1) (write_bytes (amem s1) p ((nm ++ 61 :: v) ++ [0]))).
  - cbn [e_heap set_heap]. by rewrite set_amem_set.
  - cbn [e_heap set_heap]. rewrite amem_set, run_memcpy.
    + f_equal. change (nm ++ 61 :: v) with (nm ++ [61] ++ v). rewrite !app_assoc, <-app_assoc.
      rewrite (write_bytes_app' _ _ (nm ++ [61])), length_app. simpl. f_equal. lia.
    + apply write_bytes_frame; [done|]. unfold disjoint_ranges in *. rewrite !length_app in *. simpl in *. lia.
    + apply write_bytes_valid. eapply valid_sub; [exact Hval|lia|]. rewrite length_app. simpl. lia.
    + unfold disjoint_ranges in Hd. rewrite !length_app in *. simpl in *. lia.
Qed.

Lemma entry_length nm v :
  Z.of_nat (length (nm ++ 61 :: v)) + 1 = Z.of_nat (length nm) + Z.of_nat (length v) + 2.
Proof. rewrite length_app. simpl. lia. Qed.

(** Sizes that do not overflow, for an environment and a new entry. *)
Definition fits es (n : Z) : Prop :=
  8 * (Z.of_nat (length es) + 33) ≤ max_request ∧ 8 * (Z.of_nat (length es) + 33) < 2 ^ 64 ∧
  n ≤ max_request ∧ n < 2 ^ 63.

Lemma env_null e g live ptrs es s1 l :
  env_at e g live ptrs es → fresh_copy (e_heap e) g s1 live NULL l →
  ∃ g', env_at (set_heap s1 e) g' live ptrs es.
Proof.
  intros He (g' & [[_ Hinv]|[? _]] & Hkeep); [|done]. exists g'.
  apply (env_transfer e g live ptrs es s1 g' live (λ _ _, True)); try done.
  - intros Hne. by destruct (ea_size _ _ _ _ _ He) as [?|[_ ?]].
  - intros q k Hk Hu Hb _. by apply Hkeep.
  - apply Forall2_same_length_lookup. split; [by eapply strs_length|done].
Qed.

Lemma run_setenv realloc e g live ptrs es name nm val v ow :
  env_at e g live ptrs es → 0 < name → cstr (mem_of e) name nm → in_use g name (Z.of_nat (length nm)) →
  cstr (mem_of e) val v → in_use g val (Z.of_nat (length v) + 1) →
  nm ≠ [] → 61 ∉ nm → fits es (Z.of_nat (length nm) + Z.of_nat (length v) + 2) →
  ∃ r e' g' live' ptrs', setenv realloc name val ow e = Ret r e' ∧
  (r = -1 ∧ env_at e' g' live' ptrs' es ∨
   r = 0 ∧ env_at e' g' live' ptrs' (put_entry (nm ++ [61]) (nm ++ 61 :: v) ow es)).
Proof.
  intros He Hpos Hn Hun Hv Huv Hne H61 (Hf1 & Hf2 & Hf3 & Hf4). unfold setenv.
  pose proof (run_name_length _ _ _ Hn Hpos ltac:(lia)) as Hnl.
  rewrite decide_False in Hnl by tauto. rewrite run_bind, (run_emem_read _ _ _ Hnl). cbn beta iota.
  rewrite run_bind, (run_emem_read _ _ _ (run_strlen _ _ _ Hv)). cbn beta iota.
  rewrite !(wrap_small 64) by lia.
  destruct (run_malloc_fresh (e_heap e) g live (Z.of_nat (length nm) + Z.of_nat (length v) + 2)
    (ea_heap _ _ _ _ _ He)) as (p & s1 & Hrun & [[-> Hnull]|[g1 Hf]]); [lia|..];
    rewrite run_bind, (run_heap_op _ _ _ _ Hrun); cbn beta iota.
  - change (NULL =? NULL) with true. cbn iota. destruct (env_null _ _ _ _ _ _ [] He (Hnull [])) as [g' He'].
    exists (-1), (set_heap s1 e), g', live, ptrs. split; [done|]. by left.
  - rewrite (proj2 (Z.eqb_neq p NULL)) by apply Hf.
    pose proof (run_entry_text e g live s1 g1 p name nm val v Hf Hn Hun Hv Huv) as Htext.
    rewrite <-entry_length in Hf.
    pose proof (new_str_fill e g live ptrs es s1 g1 p (nm ++ 61 :: v) He Hf) as Hnew.
    assert (take (length nm + 1) (nm ++ 61 :: v) = nm ++ [61]) as Ekey.
    { rewrite take_app_ge by lia. by replace (length nm + 1 - length nm)%nat with 1%nat by lia. }
    destruct (run_put_env realloc _ g1 live ptrs es p (nm ++ 61 :: v) (Z.of_nat (length nm) + 1) ow
      (Hnew ltac:(apply Forall_app; split; [apply Hn|constructor; [lia|apply Hv]])))
      as (r & e' & g' & live' & ptrs' & Hput & Hres); [rewrite length_app; simpl; lia|done|done|].
    exists r, e', g', live', ptrs'. split.
    + rewrite run_bind in Htext |- *. destruct (emem (memcpy p name _) _) as [a2 e2| |]; [|done..].
      rewrite run_bind in Htext |- *. destruct (emem (store8 _ 61) e2) as [a3 e3| |]; [|done..].
      rewrite run_bind, Htext. exact Hput.
    + replace (Z.to_nat (Z.of_nat (length nm) + 1)) with (length nm + 1)%nat in Hres by lia.
      by rewrite Ekey in Hres.
Qed.

(** An entry is taken out. *)
Lemma env_remove e g live ptrs es i :
  env_at e g live ptrs es → (i < length ptrs)%nat →
  ∃ e', emem (shift_down (environ e + 8 * Z.of_nat i)) e = Ret tt e' ∧
  env_at e' g live (delete i ptrs) (delete i es).
Proof.
  intros He Hi. pose proof (ea_arr _ _ _ _ _ He) as Ha. pose proof (arr_valid _ _ _ Ha) as Hv.
  pose proof (arr_drop _ _ _ i Ha ltac:(lia)) as Hd. pose proof (arr_size _ _ _ Ha) as Hsz.
  destruct (drop i ptrs) as [|q rest] eqn:Ed.
  { apply (f_equal length) in Ed. rewrite length_drop in Ed. simpl in Ed. lia. }
  assert (length rest = length ptrs - (i + 1))%nat as Hrest.
  { apply (f_equal length) in Ed. rewrite length_drop in Ed. simpl in Ed. lia. }
  assert (delete i ptrs = take i ptrs ++ rest) as Edel.
  { rewrite delete_take_drop. f_equal. replace (Datatypes.S i) with (i + 1)%nat by lia. by rewrite <-drop_drop, Ed. }
  eexists. split.
  { apply run_emem. unfold shift_down. rewrite run_scan_fuel. apply (run_shift_loop _ _ q rest); [done|lia]. }
  assert (length (delete i ptrs) = length ptrs - 1)%nat as Hlen.
  { rewrite Edel, length_app, length_take. lia. }
  apply (env_vec_write e g live ptrs es); rewrite ?words_length, ?length_app; simpl length; try done.
  - lia.
  - unfold capacity. lia.
  - eapply in_use_sub; [apply He|lia|lia].
  - eapply valid_sub; [exact Hv|lia|lia].
  - eapply in_use_sub; [apply He|lia|lia].
  - unfold capacity. lia.
  - destruct Ha as [Hb Hps]. split.
    + rewrite Edel, <-app_assoc, (words_app (take i ptrs)). rewrite <-(take_drop i ptrs), <-app_assoc, words_app in Hb.
      apply bytes_at_app in Hb as [Hb _]. apply bytes_at_app. rewrite words_length, length_take, Nat.min_l by lia.
      replace (environ e + Z.of_nat (8 * i)) with (environ e + 8 * Z.of_nat i) by lia. split.
      * apply write_bytes_frame; [done|]. unfold disjoint_ranges.
        rewrite !words_length, length_app, length_take. simpl. lia.
      * apply write_bytes_at, words_is_byte.
    + by apply Forall_delete.
  - apply Forall2_delete. apply He.
Qed.

Lemma run_unsetenv e g live ptrs es name nm :
  env_at e g live ptrs es → 0 < name → cstr (mem_of e) name nm → nm ≠ [] → 61 ∉ nm →
  Z.of_nat (length nm) < 2 ^ 64 →
  ∃ e' ptrs', unsetenv name e = Ret 0 e' ∧ env_at e' g live ptrs' (remove_entry nm es).
Proof.
  intros He Hpos Hn Hne H61 Hlen. unfold unsetenv.
  pose proof (run_name_length _ _ _ Hn Hpos Hlen) as Hnl. rewrite decide_False in Hnl by tauto.
  rewrite run_bind, (run_emem_read _ _ _ Hnl). cbn beta iota. rewrite run_bind, run_get. cbn beta iota.
  pose proof (ea_pos _ _ _ _ _ He). rewrite (proj2 (Z.eqb_neq (environ e) NULL)) by (unfold NULL; lia).
  rewrite run_bind, (run_emem_read _ _ _ (run_find_entry _ _ _ _ _ _ (ea_arr _ _ _ _ _ He)
    (strs_cstr _ _ _ _ _ He) Hn)). cbn beta iota.
  pose proof (strs_length _ _ _ _ _ He) as Hl. rewrite remove_entry_find.
  destruct (entry_of nm es) as [[i x]|] eqn:Ef.
  - apply list_find_Some in Ef as (Hi & _ & _). apply lookup_lt_Some in Hi.
    destruct (env_remove e g live ptrs es i He ltac:(lia)) as (e' & Hrun & He').
    rewrite run_bind, Hrun. by exists e', (delete i ptrs).
  - pose proof (arr_drop _ _ _ (length ptrs) (ea_arr _ _ _ _ _ He) ltac:(lia)) as Hd.
    rewrite drop_all in Hd. apply arr_nil in Hd. rewrite <-Hl. exists e, ptrs. split; [|done].
    rewrite run_bind, (run_emem_read _ _ tt); [done|]. unfold shift_down.
    rewrite run_scan_fuel, run_loop, run_bind, (run_load64 _ _ _ Hd). by crun.
Qed.
End state.

(** ** Theorems *)

(** C19: setenv of a well-formed name either fails with the environment unchanged
    or succeeds, and then getenv of that name returns the new value (the old one
    if there was one and overwriting was not asked for), while every other name
    keeps its value; the vector, its strings and the heap stay consistent, for
    any allocator that satisfies the interface. *)
Theorem setenv_getenv {S} `{AllocatorLaws S} (realloc : Z → Z → C S Z) (e : envstate S) g live ptrs es
    name nm val v ow :
  env_at e g live ptrs es → 0 < name → cstr (amem (e_heap e)) name nm →
  in_use g name (Z.of_nat (length nm)) →
  cstr (amem (e_heap e)) val v → in_use g val (Z.of_nat (length v) + 1) →
  nm ≠ [] → 61 ∉ nm → fits es (Z.of_nat (length nm) + Z.of_nat (length v) + 2) →
  ∃ r e' g' live' ptrs' es', setenv realloc name val ow e = Ret r e' ∧ env_at e' g' live' ptrs' es' ∧
  (r = -1 ∧ es' = es ∨
   r = 0 ∧ (∀ name' nm', 61 ∉ nm' → cstr (amem (e_heap e')) name' nm' → Z.of_nat (length nm') < 2 ^ 31 →
     ∃ p, getenv name' e' = Ret p e' ∧
     match (if decide (nm' = nm) then Some (if ow =? 0 then default v (find_value nm es) else v)
            else find_value nm' es) with
     | Some w => p ≠ NULL ∧ cstr (amem (e_heap e')) p w
     | None => p = NULL
     end)).
Proof.
  intros He Hpos Hn Hun Hv Huv Hne H61 Hfit.
  destruct (run_setenv realloc e g live ptrs es name nm val v ow He Hpos Hn Hun Hv Huv Hne H61 Hfit)
    as (r & e' & g' & live' & ptrs' & Hrun & [[-> He']|[-> He']]).
  - exists (-1), e', g', live', ptrs', es. split_and!; [done..|]. by left.
  - eexists 0, e', g', live', ptrs', _. split_and!; [done..|]. right. split; [done|].
    intros name' nm' H61' Hn' Hlen.
    destruct (run_getenv e' g' live' ptrs' _ name' nm' He' Hn' Hlen) as (p & Hp & Hval).
    exists p. split; [done|]. destruct (decide (nm' = nm)) as [->|Hnm].
    + by rewrite find_put_same in Hval.
    + by rewrite find_put_other in Hval.
Qed.

(** The environment [A=1] beside the static heap, and the strings [B] and [x]. *)
Definition env_mem : mem :=
  write_bytes (write_bytes (write_bytes (write_bytes zero_heap 100 (words [200; 0])) 200 [65; 61; 49; 0])
    300 [66; 0]) 310 [120; 0].

Definition env_heap : static_heap := {| heap := 4096; heapcnt := 32; heap_mem := env_mem |}.

Definition sample_env : envstate static_heap :=
  {| e_heap := env_heap; environ := 100; __environ_size := 0; __environ_alloc := 0; errno := 0 |}.

Lemma env_mem_strings :
  bytes_at env_mem 100 (words [200; 0]) ∧ cstr env_mem 200 [65; 61; 49] ∧
  cstr env_mem 300 [66] ∧ cstr env_mem 310 [120].
Proof.
  unfold env_mem. split_and!.
  - peel.
  - split; [peel|by_decide].
  - split; [peel|by_decide].
  - split; [peel|by_decide].
Qed.

Lemma sample_env_at : env_at sample_env (4096, 32) [(4096, 20)] [200] [[65; 61; 49]].
Proof.
  destruct env_mem_strings as (H1 & H2 & _).
  pose proof sample_heap_inv as (Hh & Hc & Ha & Hv & Hin & Hd).
  split.
  - split; [|reflexivity]. split; [exact Hh|]. split; [exact Hc|]. split; [exact Ha|].
    split; [|exact (conj Hin Hd)]. by repeat apply write_bytes_valid.
  - reflexivity.
  - simpl. lia.
  - split; [exact H1|by_decide].
  - simpl. unfold static_in_use, disjoint_ranges, KLIBC_MALLOC_STATIC_SIZE. simpl. lia.
  - constructor; [|constructor]. split; [exact H2|].
    simpl. unfold static_in_use, disjoint_ranges, capacity, KLIBC_MALLOC_STATIC_SIZE. simpl. lia.
  - by left.
Qed.

Lemma setenv_getenv_witness :
  ∃ r e', setenv realloc 300 310 1 sample_env = Ret r e' ∧
    (r = -1 ∨ r = 0 ∧ ∀ name', cstr (amem (e_heap e')) name' [65] →
       ∃ p, getenv name' e' = Ret p e' ∧ cstr (amem (e_heap e')) p [49]).
Proof.
  destruct env_mem_strings as (_ & _ & H3 & H4).
  destruct (@setenv_getenv static_heap _ static_laws realloc sample_env (4096, 32) [(4096, 20)] [200] [[65; 61; 49]]
    300 [66] 310 [120] 1) as (r & e' & g' & live' & ptrs' & es' & Hrun & _ & Hres).
  - exact sample_env_at.
  - lia.
  - exact H3.
  - simpl. unfold static_in_use, disjoint_ranges, KLIBC_MALLOC_STATIC_SIZE. simpl. lia.
  - exact H4.
  - simpl. unfold static_in_use, disjoint_ranges, KLIBC_MALLOC_STATIC_SIZE. simpl. lia.
  - discriminate.
  - by_decide.
  - unfold fits. simpl. unfold KLIBC_MALLOC_STATIC_SIZE. lia.
  - exists r, e'. split; [exact Hrun|]. destruct Hres as [[-> _]|[-> Hget]]; [left; reflexivity|right].
    split; [reflexivity|]. intros name' Hname.
    destruct (Hget name' [65]) as (p & Hp & Hv); [by_decide|exact Hname|simpl; lia|].
    exists p. split; [exact Hp|]. exact (proj2 Hv).
Defined.

(** Unsetenv of a well-formed name always succeeds: getenv no longer finds the
    name if it was there once, every other name keeps its value, and the vector,
    its strings and the heap stay consistent. *)
Theorem unsetenv_removes {S} `{AllocatorLaws S} (e : envstate S) g live ptrs es name nm :
  env_at e g live ptrs es → 0 < name → cstr (amem (e_heap e)) name nm → nm ≠ [] → 61 ∉ nm →
  Z.of_nat (length nm) < 2 ^ 31 →
  ∃ e' ptrs', unsetenv name e = Ret 0 e' ∧ env_at e' g live ptrs' (remove_entry nm es) ∧
  ∀ name' nm', 61 ∉ nm' → cstr (amem (e_heap e')) name' nm' → Z.of_nat (length nm') < 2 ^ 31 →
    (nm' = nm → once nm es) →
    ∃ p, getenv name' e' = Ret p e' ∧
    match (if decide (nm' = nm) then None else find_value nm' es) with
    | Some w => p ≠ NULL ∧ cstr (amem (e_heap e')) p w
    | None => p = NULL
    end.
Proof.
  intros He Hpos Hn Hne H61 Hlen.
  destruct (run_unsetenv e g live ptrs es name nm He Hpos Hn Hne H61 ltac:(lia)) as (e' & ptrs' & Hrun & He').
  exists e', ptrs'. split_and!; [done..|]. intros name' nm' H61' Hn' Hlen' Honce.
  destruct (run_getenv e' g live ptrs' _ name' nm' He' Hn' Hlen') as (p & Hp & Hval).
  exists p. split; [done|]. destruct (decide (nm' = nm)) as [->|Hnm].
  - by rewrite find_remove_same in Hval by auto.
  - by rewrite find_remove_other in Hval.
Qed.

Definition unset_env : envstate static_heap :=
  set_heap {| heap := 4096; heapcnt := 32; heap_mem := write_bytes env_mem 320 [65; 0] |} sample_env.

Lemma unset_env_at : env_at unset_env (4096, 32) [(4096, 20)] [200] [[65; 61; 49]].
Proof.
  destruct env_mem_strings as (H1 & H2 & _). pose proof sample_env_at as [[(Hh & Hc & Ha & Hv & Hin & Hd) _] _ _ _ _ _ _].
  split.
  - split; [|reflexivity]. split; [exact Hh|]. split; [exact Hc|]. split; [exact Ha|].
    split; [|exact (conj Hin Hd)]. by apply write_bytes_valid.
  - reflexivity.
  - simpl. lia.
  - split; [|by_decide]. apply write_bytes_frame; [exact H1|by_decide].
  - simpl. unfold static_in_use, disjoint_ranges, KLIBC_MALLOC_STATIC_SIZE. simpl. lia.
  - constructor; [|constructor]. split; [apply cstr_frame; [exact H2|by_decide]|].
    simpl. unfold static_in_use, disjoint_ranges, capacity, KLIBC_MALLOC_STATIC_SIZE. simpl. lia.
  - by left.
Qed.

Lemma unsetenv_removes_witness :
  ∃ e', unsetenv 320 unset_env = Ret 0 e' ∧
    ∀ name', cstr (amem (e_heap e')) name' [65] → getenv name' e' = Ret NULL e'.
Proof.
  destruct (@unsetenv_removes static_heap _ static_laws unset_env (4096, 32) [(4096, 20)] [200] [[65; 61; 49]] 320 [65])
    as (e' & ptrs' & Hrun & _ & Hget).
  - exact unset_env_at.
  - lia.
  - apply (cstr_write env_mem 320 [65]). by_decide.
  - discriminate.
  - by_decide.
  - simpl. lia.
  - exists e'. split; [exact Hrun|]. intros name' Hname.
    destruct (Hget name' [65]) as (p & Hp & Hv); [by_decide|exact Hname|simpl; lia| |].
    + intros _ [|i] [|j] x y Hi Hj _ _; [reflexivity|discriminate Hj|discriminate Hi|discriminate Hi].
    + replace NULL with p by exact Hv. exact Hp.
Defined.

(** *** Where the code departs from the interface *)

(** A heap with room for one short string. *)
Definition small_env (size env : Z) : envstate static_heap :=
  {| e_heap := {| heap := 4096; heapcnt := 0;
       heap_mem := write_bytes (write_bytes (write_bytes (write_bytes (write_bytes ∅ 4096 (replicate 16 0))
         100 (words [200; 0])) 200 [65; 66; 61; 50; 0]) 300 [65; 61; 49; 0]) 400 (words [0]) |};
     environ := env; __environ_size := size; __environ_alloc := 0; errno := 0 |}.

(** The key of [putenv] has no equals sign: [A=1] replaces the entry of [AB]. *)
Lemma putenv_prefix :
  match putenv realloc 300 (small_env 0 100) with
  | Ret r e => Some (r, word (heap_mem (e_heap e)) 100,
                     bool_decide (cstr (heap_mem (e_heap e)) 4096 [65; 61; 49]))
  | _ => None
  end = Some (0, Some 4096, true).
Proof. by vm_compute. Qed.

(** After [clearenv] the recorded size is that of the vector before: the next new
    entry is stored after the end of [__null_environ], at 400. *)
Lemma clearenv_then_setenv :
  (clearenv 400;; putenv realloc 300) (small_env 33 100) = UB.
Proof. by vm_compute. Qed.

(** Without an environment [__put_env] reads through a null pointer. *)
Lemma putenv_no_environ : putenv realloc 300 (small_env 0 NULL) = UB.
Proof. by vm_compute. Qed.
