(* ===== verification/Stdio.v ===== *)
(** * Streams: the files of [stdio], [fgets.c], [fputs.c], [fputc.c], [puts.c],
    [putchar.c], [fread2.c], [fwrite2.c]

    Both variants of the streams, the buffered original and the simple one the
    configuration selects, over the heap of [Alloc] and a kernel given as a record
    of system calls.  A [FILE] is a record at its address; its buffer is in the
    byte memory.  Loops that retry an interrupted system call take their fuel from
    the section; the theorems say how much is enough. *)

From Stdlib Require Import List.
From stdpp Require Import base tactics numbers list gmap.
From S2P Require Import Prelude Memory Words MemFns StrFns Alloc.

Open Scope Z_scope.

(** ** Data *)

Definition EOF : Z := -1.
Definition EINTR : Z := 4.
Definition EAGAIN : Z := 11.
Definition ENOMEM : Z := 12.
Definition SEEK_SET : Z := 0.
Definition SEEK_CUR : Z := 1.

Definition O_RDONLY : Z := 0.
Definition O_WRONLY : Z := 1.
Definition O_RDWR : Z := 2.
Definition O_CREAT : Z := 64.
Definition O_EXCL : Z := 128.
Definition O_TRUNC : Z := 512.
Definition O_APPEND : Z := 1024.
Definition O_CLOEXEC : Z := 524288.

Definition BUFSIZ : Z := Z.shiftr 65536 2.
Definition _IO_UNGET_SLOP : Z := 32.

Inductive _IO_bufmode := _IONBF | _IOLBF | _IOFBF.

Record _IO_file_pvt := {
  _IO_fileno : Z; _IO_eof : bool; _IO_error : bool;
  f_prev : Z; f_next : Z;
  f_buf : Z; f_data : Z;
  ibytes : Z; obytes : Z; bufsiz : Z;
  bufmode : _IO_bufmode;
}.

(** [sizeof (struct _IO_file)] and [sizeof (struct _IO_file_pvt)] *)
Definition SIZEOF_FILE : Z := 8.
Definition SIZEOF_FILE_PVT : Z := 56.

Section fields.
Implicit Types f : _IO_file_pvt.

Definition set_eof (v : bool) f :=
  {| _IO_fileno := _IO_fileno f; _IO_eof := v; _IO_error := _IO_error f; f_prev := f_prev f; f_next := f_next f;
     f_buf := f_buf f; f_data := f_data f; ibytes := ibytes f; obytes := obytes f; bufsiz := bufsiz f;
     bufmode := bufmode f |}.
Definition set_error (v : bool) f :=
  {| _IO_fileno := _IO_fileno f; _IO_eof := _IO_eof f; _IO_error := v; f_prev := f_prev f; f_next := f_next f;
     f_buf := f_buf f; f_data := f_data f; ibytes := ibytes f; obytes := obytes f; bufsiz := bufsiz f;
     bufmode := bufmode f |}.
Definition set_prev (v : Z) f :=
  {| _IO_fileno := _IO_fileno f; _IO_eof := _IO_eof f; _IO_error := _IO_error f; f_prev := v; f_next := f_next f;
     f_buf := f_buf f; f_data := f_data f; ibytes := ibytes f; obytes := obytes f; bufsiz := bufsiz f;
     bufmode := bufmode f |}.
Definition set_next (v : Z) f :=
  {| _IO_fileno := _IO_fileno f; _IO_eof := _IO_eof f; _IO_error := _IO_error f; f_prev := f_prev f; f_next := v;
     f_buf := f_buf f; f_data := f_data f; ibytes := ibytes f; obytes := obytes f; bufsiz := bufsiz f;
     bufmode := bufmode f |}.
Definition set_input (d n : Z) f :=
  {| _IO_fileno := _IO_fileno f; _IO_eof := _IO_eof f; _IO_error := _IO_error f; f_prev := f_prev f; f_next := f_next f;
     f_buf := f_buf f; f_data := d; ibytes := n; obytes := obytes f; bufsiz := bufsiz f;
     bufmode := bufmode f |}.
Definition set_obytes (v : Z) f :=
  {| _IO_fileno := _IO_fileno f; _IO_eof := _IO_eof f; _IO_error := _IO_error f; f_prev := f_prev f; f_next := f_next f;
     f_buf := f_buf f; f_data := f_data f; ibytes := ibytes f; obytes := v; bufsiz := bufsiz f;
     bufmode := bufmode f |}.
Definition set_bufmode (v : _IO_bufmode) f :=
  {| _IO_fileno := _IO_fileno f; _IO_eof := _IO_eof f; _IO_error := _IO_error f; f_prev := f_prev f; f_next := f_next f;
     f_buf := f_buf f; f_data := f_data f; ibytes := ibytes f; obytes := obytes f; bufsiz := bufsiz f;
     bufmode := v |}.
End fields.

(** The system calls: a result, the error number if it is -1, and the kernel
    after the call. *)
Record syscalls (K : Type) := {
  sys_write : Z → list Z → K → Z * Z * K;
  sys_read : Z → Z → K → Z * Z * list Z * K;
  sys_lseek : Z → Z → Z → K → Z * Z * K;
  sys_open : list Z → Z → K → Z * Z * K;
  sys_close : Z → K → Z * Z * K;
}.
Arguments sys_write {K}.
Arguments sys_read {K}.
Arguments sys_lseek {K}.
Arguments sys_open {K}.
Arguments sys_close {K}.

Record io (S K : Type) := {
  io_heap : S;
  io_files : gmap Z _IO_file_pvt;
  io_kernel : K;
  io_errno : Z;
  stdin : Z; stdout : Z; stderr : Z;
}.
Arguments io_heap {S K}.
Arguments io_files {S K}.
Arguments io_kernel {S K}.
Arguments io_errno {S K}.
Arguments stdin {S K}.
Arguments stdout {S K}.
Arguments stderr {S K}.

Section stdio.
Context {S K : Type} `{Allocator S}.
Context (sys : syscalls K) (fuel : nat).
(** [KLIBC_STREAMS_ORIG] is defined; the address of [__stdio_headnode]; the
    address of the [char] that [fgetc] and [fputc] have on the stack. *)
Context (KLIBC_STREAMS_ORIG : bool) (__stdio_headnode ch : Z).
Implicit Types s : io S K.

Definition set_io_heap (h : S) s : io S K :=
  {| io_heap := h; io_files := io_files s; io_kernel := io_kernel s; io_errno := io_errno s;
     stdin := stdin s; stdout := stdout s; stderr := stderr s |}.
Definition set_files (fs : gmap Z _IO_file_pvt) s : io S K :=
  {| io_heap := io_heap s; io_files := fs; io_kernel := io_kernel s; io_errno := io_errno s;
     stdin := stdin s; stdout := stdout s; stderr := stderr s |}.
Definition set_io_errno (v : Z) s : io S K :=
  {| io_heap := io_heap s; io_files := io_files s; io_kernel := io_kernel s; io_errno := v;
     stdin := stdin s; stdout := stdout s; stderr := stderr s |}.
Definition set_std (i o e : Z) s : io S K :=
  {| io_heap := io_heap s; io_files := io_files s; io_kernel := io_kernel s; io_errno := io_errno s;
     stdin := i; stdout := o; stderr := e |}.

(** After a system call: the kernel, and [errno] if it failed. *)
Definition set_call (rv e : Z) (k : K) s : io S K :=
  {| io_heap := io_heap s; io_files := io_files s; io_kernel := k;
     io_errno := if rv =? -1 then e else io_errno s;
     stdin := stdin s; stdout := stdout s; stderr := stderr s |}.

Definition in_heap {A} (c : C S A) : C (io S K) A := zoom io_heap set_io_heap c.
Definition iomem {A} (c : C mem A) : C (io S K) A := in_heap (on_mem c).

(** The stream at an address. *)
Definition file (f : Z) : C (io S K) _IO_file_pvt := λ s,
  match io_files s !! f with Some x => Ret x s | None => UB end.
Definition update (f : Z) (g : _IO_file_pvt → _IO_file_pvt) : C (io S K) unit := λ s,
  match io_files s !! f with
  | Some x => Ret tt (set_files (<[f := g x]> (io_files s)) s)
  | None => UB
  end.

(** ** System calls on memory *)

Fixpoint load_bytes (n : nat) (p : Z) : C mem (list Z) :=
  match n with
  | O => mret []
  | Datatypes.S n => b ← load8 p; l ← load_bytes n (p + 1); mret (b :: l)
  end.

Fixpoint store_bytes (p : Z) (l : list Z) : C mem unit :=
  match l with
  | [] => mret tt
  | b :: l => store8 p b;; store_bytes (p + 1) l
  end.

Definition write (fd p n : Z) : C (io S K) Z :=
  l ← iomem (load_bytes (Z.to_nat n) p);
  s ← get;
  let '(rv, e, k) := sys_write sys fd l (io_kernel s) in
  modify (set_call rv e k);;
  mret rv.

Definition read (fd p n : Z) : C (io S K) Z :=
  s ← get;
  let '(rv, e, l, k) := sys_read sys fd n (io_kernel s) in
  modify (set_call rv e k);;
  iomem (store_bytes p l);;
  mret rv.

Definition lseek (fd off whence : Z) : C (io S K) Z :=
  s ← get;
  let '(rv, e, k) := sys_lseek sys fd off whence (io_kernel s) in
  modify (set_call rv e k);;
  mret rv.

Definition close (fd : Z) : C (io S K) Z :=
  s ← get;
  let '(rv, e, k) := sys_close sys fd (io_kernel s) in
  modify (set_call rv e k);;
  mret rv.

(** The call was interrupted: try again. *)
Definition again s : bool := (io_errno s =? EINTR) || (io_errno s =? EAGAIN).

(** ** Output *)

(** One round of the loop of [__fflush]. *)
Definition flush_round (f p : Z) : C (io S K) (Z + Z) :=
  F ← file f;
  if obytes F =? 0 then Break 0 else
  rv ← write (_IO_fileno F) p (obytes F);
  s ← get;
  if rv =? -1 then
    if again s then Next p else update f (set_error true);; Break EOF
  else if rv =? 0 then update f (set_eof true);; Break EOF
  else update f (set_obytes (u32 (obytes F - rv)));; Next (p + rv).

Definition __fflush (f : Z) : C (io S K) Z :=
  F ← file f;
  loop fuel (flush_round f) (f_buf F).

(** The loop of [fflush(NULL)] over the list of streams. *)
Definition flush_all : C (io S K) Z :=
  h ← file __stdio_headnode;
  s ← get;
  loop (Datatypes.S (size (io_files s))) (λ '(f, err),
    if f =? __stdio_headnode then Break err else
    F ← file f;
    err ← (if negb (obytes F =? 0) then e ← __fflush f; mret (Z.lor err e) else mret err);
    F ← file f;
    Next (f_next F, err)) (f_next h, 0).

Definition fflush (f : Z) : C (io S K) Z :=
  if KLIBC_STREAMS_ORIG then
    if negb (f =? NULL) then __fflush f else flush_all
  else mret 0.

(** One round of the loop of [fwrite_noflush]. *)
Definition fwrite_round (f : Z) : Z * Z * Z → C (io S K) (Z * Z * Z + Z) := λ '(p, count, bytes),
  if count =? 0 then Break bytes else
  F ← file f;
  bad ← (if negb (ibytes F =? 0) || (bufsiz F <=? obytes F)
         then r ← __fflush f; mret (negb (r =? 0)) else mret false);
  if bad : bool then Break bytes else
  F ← file f;
  if (obytes F =? 0) && (bufsiz F <=? count) then
    rv ← write (_IO_fileno F) p count;
    s ← get;
    if rv =? -1 then
      if again s then Next (p, count, bytes) else update f (set_error true);; Break bytes
    else if rv =? 0 then update f (set_eof true);; Break bytes
    else Next (p + rv, u64 (count - rv), u64 (bytes + rv))
  else
    let nb := u32 (bufsiz F - obytes F) in
    let nb := if count <? nb then count else nb in
    if negb (nb =? 0) then
      iomem (memcpy (f_buf F + obytes F) p nb);;
      update f (set_obytes (u32 (obytes F + nb)));;
      Next (p + nb, u64 (count - nb), u64 (bytes + nb))
    else Next (p, count, bytes).

Definition fwrite_noflush (buf count f : Z) : C (io S K) Z :=
  loop fuel (fwrite_round f) (buf, count, 0).

Definition _fwrite_simple (buf count f : Z) : C (io S K) Z :=
  F ← file f;
  rv ← write (_IO_fileno F) buf count;
  mret (u64 rv).

Definition _fwrite_orig (buf count f : Z) : C (io S K) Z :=
  F ← file f;
  pf_len ← match bufmode F with
           | _IOFBF => mret 0
           | _IOLBF => q ← iomem (memrchr buf 10 count); mret (if negb (q =? NULL) then q - buf + 1 else 0)
           | _IONBF => mret count
           end;
  r ← (if negb (pf_len =? 0) then
         bytes ← fwrite_noflush buf pf_len f;
         e ← __fflush f;
         mret (bytes, negb (e =? 0) || negb (bytes =? pf_len))
       else mret (0, false));
  let '(bytes, stop) := r in
  if stop : bool then mret bytes else
  let pu_len := u64 (count - pf_len) in
  if negb (pu_len =? 0) then
    more ← fwrite_noflush (buf + bytes) pu_len f;
    mret (u64 (bytes + more))
  else mret bytes.

Definition _fwrite (buf count f : Z) : C (io S K) Z :=
  if KLIBC_STREAMS_ORIG then _fwrite_orig buf count f else _fwrite_simple buf count f.

(** ** Input *)

Definition _fread_simple (buf count f : Z) : C (io S K) Z :=
  F ← file f;
  rv ← read (_IO_fileno F) buf count;
  let ret := u64 rv in
  if ret =? 2 ^ 64 - 1 then update f (set_error true);; mret 0 else
  (if ret =? 0 then update f (set_eof true) else mret tt);;
  mret ret.

(** One round of the two loops: a read when the buffer is empty, a copy when it is
    not. *)
Definition fread_round (f : Z) : Z * Z * Z → C (io S K) (Z * Z * Z + Z) := λ '(p, count, bytes),
  if count =? 0 then Break bytes else
  F ← file f;
  if ibytes F =? 0 then
    let bypass := bufsiz F <=? count in
    let rdptr := if bypass then p else f_buf F + _IO_UNGET_SLOP in
    let nb := if bypass then count else bufsiz F in
    rv ← read (_IO_fileno F) rdptr nb;
    s ← get;
    if rv =? -1 then
      if again s then Next (p, count, bytes) else update f (set_error true);; Break bytes
    else if rv =? 0 then update f (set_eof true);; Break bytes
    else if bypass then Next (p + rv, u64 (count - rv), u64 (bytes + rv))
    else update f (set_input rdptr (u32 rv));; Next (p, count, bytes)
  else
    let nb := if count <? ibytes F then count else ibytes F in
    iomem (memcpy p (f_data F) nb);;
    update f (set_input (f_data F + nb) (u32 (ibytes F - nb)));;
    Next (p + nb, u64 (count - nb), u64 (bytes + nb)).

Definition _fread_orig (buf count f : Z) : C (io S K) Z :=
  if count =? 0 then mret 0 else
  F ← file f;
  (if negb (obytes F =? 0) then __fflush f;; mret tt else mret tt);;
  loop fuel (fread_round f) (buf, count, 0).

Definition _fread (buf count f : Z) : C (io S K) Z :=
  if KLIBC_STREAMS_ORIG then _fread_orig buf count f else _fread_simple buf count f.

(** [_fread(&ch, 1, file) == 1 ? ch : EOF] *)
Definition fgetc_simple (f : Z) : C (io S K) Z :=
  r ← _fread ch 1 f;
  if r =? 1 then iomem (load8 ch) else mret EOF.

Definition fgetc_orig (f : Z) : C (io S K) Z :=
  F ← file f;
  if negb (ibytes F =? 0) then
    update f (set_input (f_data F + 1) (ibytes F - 1));;
    iomem (load8 (f_data F))
  else
    r ← _fread ch 1 f;
    if r =? 1 then iomem (load8 ch) else mret EOF.

Definition fgetc (f : Z) : C (io S K) Z :=
  if KLIBC_STREAMS_ORIG then fgetc_orig f else fgetc_simple f.

Definition ungetc_orig (c f : Z) : C (io S K) Z :=
  F ← file f;
  if negb (obytes F =? 0) || (f_data F <=? f_buf F) then mret EOF else
  iomem (store8 (f_data F - 1) c);;
  update f (set_input (f_data F - 1) (u32 (ibytes F + 1)));;
  mret c.

(** The simple variant fails its assertion. *)
Definition ungetc (c f : Z) : C (io S K) Z :=
  if KLIBC_STREAMS_ORIG then ungetc_orig c f else undef.

(** ** Position *)

Definition fseek_simple (f where_ whence : Z) : C (io S K) Z :=
  F ← file f;
  rv ← lseek (_IO_fileno F) where_ whence;
  mret (s32 rv).

Definition fseek_orig (f where_ whence : Z) : C (io S K) Z :=
  F ← file f;
  bad ← (if negb (obytes F =? 0) then r ← __fflush f; mret (negb (r =? 0)) else mret false);
  if bad : bool then mret (-1) else
  F ← file f;
  let where_ := if whence =? SEEK_CUR then where_ - ibytes F else where_ in
  rv ← lseek (_IO_fileno F) where_ whence;
  if 0 <=? rv then
    update f (λ F, set_input (f_data F) 0 (set_eof false F));; mret 0
  else
    update f (set_error true);; mret (-1).

Definition fseek (f where_ whence : Z) : C (io S K) Z :=
  if KLIBC_STREAMS_ORIG then fseek_orig f where_ whence else fseek_simple f where_ whence.

Definition ftell (f : Z) : C (io S K) Z :=
  F ← file f;
  pos ← lseek (_IO_fileno F) 0 SEEK_CUR;
  if KLIBC_STREAMS_ORIG then
    mret (if 0 <=? pos then pos + (s32 (obytes F) - s32 (ibytes F)) else pos)
  else mret pos.

Definition rewind (f : Z) : C (io S K) unit :=
  r ← fseek f 0 SEEK_SET;
  if r =? 0 then update f (set_error false) else mret tt.

Definition feof (f : Z) : C (io S K) Z := F ← file f; mret (cbool (_IO_eof F)).
Definition ferror (f : Z) : C (io S K) Z := F ← file f; mret (cbool (_IO_error F)).
Definition fileno (f : Z) : C (io S K) Z := F ← file f; mret (_IO_fileno F).

(** ** Opening and closing *)

Definition __parse_open_mode (mode : Z) : C mem Z :=
  '(rwflags, crflags, eflags) ← scan_fuel (λ fuel, loop fuel (λ '(mode, rwflags, crflags, eflags),
    c ← loadc mode;
    if c =? 0 then Break (rwflags, crflags, eflags) else
    let mode := mode + 1 in
    if c =? 114 then Next (mode, O_RDONLY, 0, eflags) else
    if c =? 119 then Next (mode, O_WRONLY, Z.lor O_CREAT O_TRUNC, eflags) else
    if c =? 97 then Next (mode, O_WRONLY, Z.lor O_CREAT O_APPEND, eflags) else
    if c =? 101 then Next (mode, rwflags, crflags, Z.lor eflags O_CLOEXEC) else
    if c =? 120 then Next (mode, rwflags, crflags, Z.lor eflags O_EXCL) else
    if c =? 43 then Next (mode, O_RDWR, crflags, eflags) else
    Next (mode, rwflags, crflags, eflags)) (mode, O_RDONLY, 0, 0));
  mret (Z.lor (Z.lor rwflags crflags) eflags).

Definition bufoffs : Z :=
  Z.land (SIZEOF_FILE_PVT + 4 * 8 - 1) (u64 (Z.lnot (4 * 8 - 1))).

(** With [KLIBC_ISATTY_EASY]. *)
Definition isatty (fd : Z) : bool := (0 <=? fd) && (fd <=? 2).

Definition new_file (fd p : Z) (tty : bool) (next : Z) : _IO_file_pvt :=
  {| _IO_fileno := fd; _IO_eof := false; _IO_error := false; f_prev := __stdio_headnode; f_next := next;
     f_buf := p + bufoffs; f_data := p + bufoffs; ibytes := 0; obytes := 0; bufsiz := BUFSIZ;
     bufmode := if tty then _IOLBF else _IOFBF |}.

Definition fdopen_orig (fd mode : Z) : C (io S K) Z :=
  f ← in_heap (zalloc (bufoffs + BUFSIZ + _IO_UNGET_SLOP));
  if f =? NULL then modify (set_io_errno ENOMEM);; mret NULL else
  h ← file __stdio_headnode;
  modify (λ s, set_files (<[f := new_file fd f (isatty fd) (f_next h)]> (io_files s)) s);;
  update (f_next h) (set_prev f);;
  update __stdio_headnode (set_next f);;
  mret f.

(** Only the descriptor is set; the rest is what the heap holds, kept as the
    argument [junk]. *)
Definition fdopen_simple (junk : _IO_file_pvt) (fd mode : Z) : C (io S K) Z :=
  f ← in_heap (a_malloc SIZEOF_FILE);
  if f =? NULL then modify (set_io_errno ENOMEM);; mret 0 else
  modify (λ s, set_files (<[f :=
    {| _IO_fileno := fd; _IO_eof := _IO_eof junk; _IO_error := _IO_error junk; f_prev := f_prev junk;
       f_next := f_next junk; f_buf := f_buf junk; f_data := f_data junk; ibytes := ibytes junk;
       obytes := obytes junk; bufsiz := bufsiz junk; bufmode := bufmode junk |}]> (io_files s)) s);;
  mret f.

Definition fdopen (junk : _IO_file_pvt) (fd mode : Z) : C (io S K) Z :=
  if KLIBC_STREAMS_ORIG then fdopen_orig fd mode else fdopen_simple junk fd mode.

Definition fopen (junk : _IO_file_pvt) (path mode : Z) : C (io S K) Z :=
  flags ← iomem (__parse_open_mode mode);
  n ← iomem (strlen path);
  l ← iomem (load_bytes (Z.to_nat n) path);
  s ← get;
  let '(fd, e, k) := sys_open sys l flags (io_kernel s) in
  modify (set_call fd e k);;
  if fd <? 0 then mret NULL else
  f ← fdopen junk fd mode;
  (if f =? NULL then
     s ← get;
     close fd;;
     modify (set_io_errno (io_errno s))
   else mret tt);;
  mret f.

Definition fclose_simple (f : Z) : C (io S K) Z :=
  F ← file f;
  close (_IO_fileno F).

Definition fclose_orig (f : Z) : C (io S K) Z :=
  fflush f;;
  F ← file f;
  rv ← close (_IO_fileno F);
  update (f_next F) (set_prev (f_prev F));;
  F ← file f;
  update (f_prev F) (set_next (f_next F));;
  modify (λ s, set_files (delete f (io_files s)) s);;
  in_heap (a_free f);;
  mret rv.

Definition fclose (f : Z) : C (io S K) Z :=
  if KLIBC_STREAMS_ORIG then fclose_orig f else fclose_simple f.

Definition __libc_init_stdio (junk : _IO_file_pvt) : C (io S K) unit :=
  i ← fdopen junk 0 NULL;
  o ← fdopen junk 1 NULL;
  e ← fdopen junk 2 NULL;
  modify (set_std i o e);;
  update e (set_bufmode _IONBF).

(** ** Characters and lines *)

Definition fputc (c f : Z) : C (io S K) Z :=
  iomem (store8 ch c);;
  r ← _fwrite ch 1 f;
  if r =? 1 then iomem (load8 ch) else mret EOF.

Definition putchar (c : Z) : C (io S K) Z := s ← get; fputc c (stdout s).

(** The count is converted to [int]. *)
Definition fputs (str f : Z) : C (io S K) Z :=
  n ← iomem (strlen str);
  r ← _fwrite str n f;
  mret (s32 r).

(** [newline] is the address of the string constant. *)
Definition puts (newline str : Z) : C (io S K) Z :=
  s ← get;
  r ← fputs str (stdout s);
  if r <? 0 then mret (-1) else
  r ← _fwrite newline 1 (stdout s);
  mret (s32 r).

Definition fgets (str n f : Z) : C (io S K) Z :=
  r ← loop (Datatypes.S (Z.to_nat n)) (λ '(p, n),
    if negb (1 <? n) then Break (str, p, n) else
    c ← fgetc f;
    if c =? EOF then Break (NULL, p, n) else
    iomem (store8 p c);;
    if c =? 10 then Break (str, p + 1, n - 1) else Next (p + 1, n - 1)) (str, n);
  let '(str, p, n) := r in
  (if negb (n =? 0) then iomem (store8 p 0) else mret tt);;
  mret str.

Definition fread (ptr size_ nmemb f : Z) : C (io S K) Z :=
  r ← _fread ptr (u64 (size_ * nmemb)) f;
  if size_ =? 0 then undef else mret (r / size_).

Definition fwrite (ptr size_ nmemb f : Z) : C (io S K) Z :=
  r ← _fwrite ptr (u64 (size_ * nmemb)) f;
  if size_ =? 0 then undef else mret (r / size_).
End stdio.
