(* ===== verification/StdioSpec.v ===== *)
(** * What the buffered streams guarantee

    The documented behaviour of the system calls as a record of laws, and the
    buffered streams proved against it: output is delivered in order whatever the
    kernel accepts at a time, input is returned in order whatever it hands out at
    a time. *)

From Stdlib Require Import List.
From stdpp Require Import base tactics numbers list gmap.
From S2P Require Import Prelude Memory Words MemFns StrFns Alloc StaticHeap Stdio.

Open Scope Z_scope.

(** ** The kernel *)

(** [out fd] is what has been written to a descriptor and [inp fd] what is left to
    read; [budget] bounds the number of interrupted calls to come. *)
Record syscalls_ok {K : Type} (sys : syscalls K) (out inp : Z → K → list Z) (budget : K → nat) : Prop := {
  ok_write fd l k rv e k' :
    sys_write sys fd l k = (rv, e, k') →
    (∀ d, inp d k' = inp d k) ∧ (∀ d, d ≠ fd → out d k' = out d k) ∧
    (rv = -1 ∧ out fd k' = out fd k ∧ (e = EINTR ∨ e = EAGAIN → (budget k' < budget k)%nat) ∨
     0 ≤ rv ≤ Z.of_nat (length l) ∧ out fd k' = out fd k ++ take (Z.to_nat rv) l ∧
     (budget k' ≤ budget k)%nat);
  ok_read fd n k rv e l k' :
    0 ≤ n → sys_read sys fd n k = (rv, e, l, k') →
    (∀ d, out d k' = out d k) ∧ (∀ d, d ≠ fd → inp d k' = inp d k) ∧
    (rv = -1 ∧ l = [] ∧ inp fd k' = inp fd k ∧ (e = EINTR ∨ e = EAGAIN → (budget k' < budget k)%nat) ∨
     0 ≤ rv ≤ n ∧ Z.of_nat (length l) = rv ∧ inp fd k = l ++ inp fd k' ∧ Forall is_byte l ∧
     (budget k' ≤ budget k)%nat ∧ (rv = 0 → 0 < n → inp fd k = []));
  ok_close fd k rv e k' :
    sys_close sys fd k = (rv, e, k') →
    (∀ d, out d k' = out d k) ∧ (∀ d, d ≠ fd → inp d k' = inp d k) ∧ (budget k' ≤ budget k)%nat;
}.

(** A kernel whose calls fail by interruption only, and whose writes make
    progress. *)
Definition reliable {K} (sys : syscalls K) : Prop :=
  (∀ fd l k rv e k', sys_write sys fd l k = (rv, e, k') →
     (rv = -1 → e = EINTR ∨ e = EAGAIN) ∧ (l ≠ [] → rv ≠ 0)) ∧
  (∀ fd n k rv e l k', sys_read sys fd n k = (rv, e, l, k') → rv = -1 → e = EINTR ∨ e = EAGAIN).

Lemma heap_inv_put {S} `{AllocatorLaws S} (s : S) g live p v :
  heap_inv s g live → in_use g p 8 → valid (amem s) p 8 → heap_inv (set_amem (put (amem s) p v) s) g live.
Proof. intros Hs Hu Hv. apply heap_inv_write; [done|..]; by rewrite le_bytes_length. Qed.

Section stdio.
Context {S K : Type} `{AllocatorLaws S}.
Context (sys : syscalls K) (fuel : nat).
Context (out inp : Z → K → list Z) (budget : K → nat).
Context (Hsys : syscalls_ok sys out inp budget).
Implicit Types (s : io S K) (F : _IO_file_pvt) (l pend : list Z) (m : mem).

Abbreviation memory s := (amem (io_heap s)).

(** From [k] to [k'] the kernel got the bytes [w] on [fd] and nothing else. *)
Definition sent (fd : Z) (k k' : K) (w : list Z) : Prop :=
  (∀ d, inp d k' = inp d k) ∧ (∀ d, d ≠ fd → out d k' = out d k) ∧
  out fd k' = out fd k ++ w ∧ (budget k' ≤ budget k)%nat.

Lemma sent_refl fd k : sent fd k k [].
Proof. unfold sent. rewrite app_nil_r. naive_solver. Qed.

Lemma sent_trans fd k1 k2 k3 w w' : sent fd k1 k2 w → sent fd k2 k3 w' → sent fd k1 k3 (w ++ w').
Proof.
  intros (Hi & Ho & Hw & Hb) (Hi' & Ho' & Hw' & Hb'). split_and!; [| | |lia].
  - intros d. by rewrite Hi', Hi.
  - intros d Hd. by rewrite Ho', Ho.
  - by rewrite Hw', Hw, app_assoc.
Qed.

(** ** Running *)

Lemma run_file s f F : io_files s !! f = Some F → file f s = Ret F s.
Proof. intros E. unfold file. by rewrite E. Qed.

Lemma run_update s f F g :
  io_files s !! f = Some F → update f g s = Ret tt (set_files (<[f := g F]> (io_files s)) s).
Proof. intros E. unfold update. by rewrite E. Qed.

Lemma run_iomem {A} (c : C mem A) s a m' :
  c (memory s) = Ret a m' → iomem c s = Ret a (set_io_heap (set_amem m' (io_heap s)) s).
Proof. intros E. unfold iomem, in_heap, zoom. by rewrite (run_on_mem c _ a m' E). Qed.

Lemma run_iomem_read {A} (c : C mem A) s a : c (memory s) = Ret a (memory s) → iomem c s = Ret a s.
Proof. intros E. rewrite (run_iomem c s a _ E), set_amem_id. by destruct s. Qed.

Lemma run_load_bytes m p l : bytes_at m p l → load_bytes (length l) p m = Ret l m.
Proof.
  revert p. induction l as [|b l IH]; intros p Hl; [done|]. apply bytes_at_cons in Hl as (_ & Hp & Hl).
  simpl. crun. by rewrite (IH _ Hl).
Qed.

Lemma run_store_bytes m p l :
  Forall is_byte l → valid m p (Z.of_nat (length l)) → store_bytes p l m = Ret tt (write_bytes m p l).
Proof.
  intros Hl. revert m p. induction Hl as [|b l Hb Hl IH]; intros m p Hv; [done|]. simpl store_bytes.
  pose proof (valid_head m p (Z.of_nat (length (b :: l))) ltac:(cbn [length]; lia) Hv) as Hp. apply valid_tail in Hv.
  rewrite run_bind, run_store8 by done. cbn beta iota. rewrite u8_byte by done.
  rewrite IH, <-write_bytes_cons'; [done|]. apply valid_insert.
  simpl length in Hv. by replace (Z.of_nat (length l)) with (Z.of_nat (Datatypes.S (length l)) - 1) by lia.
Qed.

(** The state with another kernel, error number and stream. *)
Definition at_file s (f : Z) (k : K) (e : Z) F : io S K :=
  {| io_heap := io_heap s; io_files := <[f := F]> (io_files s); io_kernel := k; io_errno := e;
     stdin := stdin s; stdout := stdout s; stderr := stderr s |}.

Lemma at_file_id s f F : io_files s !! f = Some F → at_file s f (io_kernel s) (io_errno s) F = s.
Proof. intros E. unfold at_file. rewrite insert_id by done. by destruct s. Qed.

Lemma at_file_at s f k e F k' e' F' : at_file (at_file s f k e F) f k' e' F' = at_file s f k' e' F'.
Proof. unfold at_file. simpl. by rewrite insert_insert_eq. Qed.

Lemma lookup_at_file s f k e F : io_files (at_file s f k e F) !! f = Some F.
Proof. apply lookup_insert_eq. Qed.

Lemma update_at_file s f k e F g : update f g (at_file s f k e F) = Ret tt (at_file s f k e (g F)).
Proof. rewrite (run_update _ f F) by apply lookup_at_file. unfold set_files, at_file. simpl. by rewrite insert_insert_eq. Qed.

(** A write of bytes that are in memory. *)
Lemma run_write s f F p l :
  io_files s !! f = Some F → bytes_at (memory s) p l →
  ∃ rv e k, write sys (_IO_fileno F) p (Z.of_nat (length l)) s = Ret rv (at_file s f k e F) ∧
  sys_write sys (_IO_fileno F) l (io_kernel s) = (rv, (if rv =? -1 then e else (sys_write sys (_IO_fileno F) l (io_kernel s)).1.2), k).
Proof.
  intros HF Hl. unfold write. rewrite Nat2Z.id.
  rewrite run_bind, (run_iomem_read _ _ _ (run_load_bytes _ _ _ Hl)). cbn beta iota.
  rewrite run_bind, run_get. cbn beta iota.
  destruct (sys_write sys (_IO_fileno F) l (io_kernel s)) as [[rv e] k] eqn:E.
  exists rv, (if rv =? -1 then e else io_errno s), k. rewrite run_bind, run_modify. split.
  - rewrite run_ret. f_equal. unfold set_call, at_file. by rewrite insert_id.
  - simpl. by destruct (rv =? -1).
Qed.

(** What a write of pending bytes does, by its result. *)
Lemma write_cases s f F p l :
  io_files s !! f = Some F → bytes_at (memory s) p l → reliable sys → l ≠ [] →
  ∃ rv e k, write sys (_IO_fileno F) p (Z.of_nat (length l)) s = Ret rv (at_file s f k e F) ∧
  (rv = -1 ∧ again (at_file s f k e F) = true ∧ sent (_IO_fileno F) (io_kernel s) k [] ∧
     (budget k < budget (io_kernel s))%nat ∨
   0 < rv ≤ Z.of_nat (length l) ∧ sent (_IO_fileno F) (io_kernel s) k (take (Z.to_nat rv) l)).
Proof.
  intros HF Hl [Hrel _] Hne. destruct (run_write s f F p l HF Hl) as (rv & e & k & Hrun & Hk).
  exists rv, e, k. split; [done|]. destruct (Hrel _ _ _ _ _ _ Hk) as [Hr1 Hr2].
  destruct (ok_write _ _ _ _ Hsys _ _ _ _ _ _ Hk) as (Hinp & Hoth & [(-> & Ho & Hb)|(Hrv & Ho & Hb)]).
  - left. specialize (Hr1 eq_refl). simpl in Hr1, Hb. specialize (Hb Hr1).
    split_and!; [done| | |done].
    + unfold again. simpl. by destruct Hr1 as [-> | ->].
    + unfold sent. rewrite app_nil_r. split_and!; [done..|lia].
  - right. specialize (Hr2 Hne). split; [lia|done].
Qed.

(** ** Flushing *)

Lemma set_obytes_set a b F : set_obytes a (set_obytes b F) = set_obytes a F.
Proof. reflexivity. Qed.

Lemma set_obytes_id F : set_obytes (obytes F) F = F.
Proof. by destruct F. Qed.

Lemma bytes_at_advance m p l (n : Z) :
  bytes_at m p l → 0 ≤ n ≤ Z.of_nat (length l) → bytes_at m (p + n) (drop (Z.to_nat n) l).
Proof.
  intros Hl Hn. rewrite <-(take_drop (Z.to_nat n) l) in Hl. apply bytes_at_app in Hl as [_ Hl].
  rewrite length_take, Nat.min_l, Z2Nat.id in Hl by lia. done.
Qed.

(** What is left in the buffer when a flush starts or goes on. *)
Lemma run_flush_loop n s f F p pend :
  reliable sys → io_files s !! f = Some F → bytes_at (memory s) p pend →
  obytes F = Z.of_nat (length pend) → Z.of_nat (length pend) < 2 ^ 32 →
  (length pend + budget (io_kernel s) < n)%nat →
  ∃ k e, loop n (flush_round sys f) p s = Ret 0 (at_file s f k e (set_obytes 0 F)) ∧
  sent (_IO_fileno F) (io_kernel s) k pend.
Proof.
  intros Hrel. revert s F p pend. induction n as [|n IH]; intros s F p pend HF Hp Ho Hmax Hn; [lia|].
  rewrite run_loop. unfold flush_round at 1. rewrite run_bind, (run_file s f F HF). cbn beta iota.
  destruct (Z.eqb_spec (obytes F) 0) as [Hz|Hnz].
  { destruct pend; [|simpl in Ho; lia]. exists (io_kernel s), (io_errno s). split; [|apply sent_refl].
    rewrite run_ret. f_equal. rewrite <-Hz, set_obytes_id. symmetry. by apply at_file_id. }
  rewrite Ho. assert (pend ≠ []) as Hne by (intros ->; done).
  destruct (write_cases s f F p pend HF Hp Hrel Hne) as (rv & e & k & Hrun & Hcase).
  rewrite run_bind, Hrun. cbn beta iota. rewrite run_bind, run_get. cbn beta iota.
  destruct Hcase as [(-> & Hag & Hs & Hb)|(Hrv & Hs)].
  - change (-1 =? -1) with true. cbn iota. rewrite Hag, run_ret.
    destruct (IH (at_file s f k e F) F p pend) as (k' & e' & Hl & Hs');
      [apply lookup_at_file|done|done|done|simpl; lia|].
    exists k', e'. rewrite Hl, at_file_at. split; [done|exact (sent_trans _ _ _ _ _ _ Hs Hs')].
  - rewrite (proj2 (Z.eqb_neq rv (-1))), (proj2 (Z.eqb_neq rv 0)) by lia.
    rewrite run_bind, update_at_file. cbn beta iota. rewrite run_ret, wrap_small by lia.
    pose proof (length_drop pend (Z.to_nat rv)) as Hlen.
    destruct (IH (at_file s f k e (set_obytes (Z.of_nat (length pend) - rv) F))
      (set_obytes (Z.of_nat (length pend) - rv) F) (p + rv) (drop (Z.to_nat rv) pend)) as (k' & e' & Hl & Hs');
      [apply lookup_at_file|apply bytes_at_advance; [done|lia]|simpl; lia|lia| |].
    { destruct Hs as (_ & _ & _ & Hs). simpl. lia. }
    exists k', e'. rewrite Hl, at_file_at, set_obytes_set. split; [done|].
    rewrite <-(take_drop (Z.to_nat rv) pend). exact (sent_trans _ _ _ _ _ _ Hs Hs').
Qed.

Lemma run_fflush s f F pend :
  reliable sys → io_files s !! f = Some F → bytes_at (memory s) (f_buf F) pend →
  obytes F = Z.of_nat (length pend) → Z.of_nat (length pend) < 2 ^ 32 →
  (length pend + budget (io_kernel s) < fuel)%nat →
  ∃ k e, __fflush sys fuel f s = Ret 0 (at_file s f k e (set_obytes 0 F)) ∧
  sent (_IO_fileno F) (io_kernel s) k pend.
Proof.
  intros Hrel HF Hp Ho Hmax Hn. unfold __fflush. rewrite run_bind, (run_file s f F HF). cbn beta iota.
  by apply run_flush_loop.
Qed.

(** ** Writing *)

(** A stream in output mode, with [pend] in its buffer. *)
Record out_stream (m : mem) F pend : Prop := {
  os_ibytes : ibytes F = 0;
  os_bufsiz : 0 < bufsiz F < 2 ^ 31;
  os_obytes : obytes F = Z.of_nat (length pend);
  os_full : Z.of_nat (length pend) ≤ bufsiz F;
  os_pend : bytes_at m (f_buf F) pend;
  os_valid : valid m (f_buf F) (bufsiz F);
}.

Definition outside (F : _IO_file_pvt) (p n : Z) : Prop := disjoint_ranges p n (f_buf F) (bufsiz F).

(** [m'] differs from [m] in the buffer of the stream only. *)
Definition buffer_only F m m' : Prop :=
  ∀ a, a < f_buf F ∨ f_buf F + bufsiz F ≤ a → m' !! a = m !! a.

(** The state with another kernel, error number, stream and memory. *)
Definition at_buf s (f : Z) (k : K) (e : Z) (m : mem) F : io S K :=
  at_file (set_io_heap (set_amem m (io_heap s)) s) f k e F.

Lemma at_buf_at s f k e m F k' e' m' F' : at_buf (at_buf s f k e m F) f k' e' m' F' = at_buf s f k' e' m' F'.
Proof. unfold at_buf, at_file. simpl. by rewrite insert_insert_eq, set_amem_set. Qed.

Lemma at_file_buf s f k e F : at_file s f k e F = at_buf s f k e (memory s) F.
Proof. unfold at_buf, at_file. simpl. by rewrite set_amem_id. Qed.

Lemma memory_at_buf s f k e m F : memory (at_buf s f k e m F) = m.
Proof. apply amem_set. Qed.

Lemma at_buf_id s f F : io_files s !! f = Some F → at_buf s f (io_kernel s) (io_errno s) (memory s) F = s.
Proof. intros HF. by rewrite <-at_file_buf, at_file_id. Qed.

Lemma buffer_only_bytes F m m' p d :
  buffer_only F m m' → outside F p (Z.of_nat (length d)) → bytes_at m p d → bytes_at m' p d.
Proof. intros Hm Ho Hd. apply (bytes_at_ext m); [done|]. intros a Ha. apply Hm. unfold outside, disjoint_ranges in Ho. lia. Qed.

Lemma out_stream_flushed m F pend : out_stream m F pend → out_stream m (set_obytes 0 F) [].
Proof. intros []. constructor; simpl in *; try done; lia. Qed.

(** The flush at the head of a round leaves room in the buffer. *)
Lemma run_make_room s f F pend :
  reliable sys → io_files s !! f = Some F → out_stream (memory s) F pend →
  (Z.to_nat (bufsiz F) + budget (io_kernel s) < fuel)%nat →
  ∃ k e w pend',
    (if negb (ibytes F =? 0) || (bufsiz F <=? obytes F)
     then r ← __fflush sys fuel f; mret (negb (r =? 0)) else mret false) s =
    Ret false (at_file s f k e (set_obytes (Z.of_nat (length pend')) F)) ∧
    sent (_IO_fileno F) (io_kernel s) k w ∧ w ++ pend' = pend ∧
    out_stream (memory s) (set_obytes (Z.of_nat (length pend')) F) pend' ∧ Z.of_nat (length pend') < bufsiz F.
Proof.
  intros Hrel HF Hos Hfuel. pose proof Hos as [Hi Hb Ho Hf Hp Hv]. rewrite Hi, Ho. simpl.
  destruct (Z.leb_spec (bufsiz F) (Z.of_nat (length pend))).
  - destruct (run_fflush s f F pend) as (k & e & Hrun & Hs); [done..|lia|lia|].
    exists k, e, pend, []. rewrite run_bind, Hrun. split_and!; [done|done|by rewrite app_nil_r| |simpl; lia].
    exact (out_stream_flushed _ _ _ Hos).
  - exists (io_kernel s), (io_errno s), [], pend.
    rewrite <-Ho, set_obytes_id. split_and!; [|apply sent_refl|done|done|lia].
    rewrite run_ret. by rewrite at_file_id.
Qed.

(** What one round does with the bytes [d] that are left: [t] of them go, out or
    into the buffer. *)
Definition wrote s f F d pend (c : C (io S K) (Z * Z * Z + Z)) (p b : Z) : Prop :=
  ∃ k e m w pend' t d', d = t ++ d' ∧
    c s = Ret (inl (p + Z.of_nat (length t), Z.of_nat (length d'), b + Z.of_nat (length t)))
              (at_buf s f k e m (set_obytes (Z.of_nat (length pend')) F)) ∧
    sent (_IO_fileno F) (io_kernel s) k w ∧ w ++ pend' = pend ++ t ∧
    out_stream m (set_obytes (Z.of_nat (length pend')) F) pend' ∧ buffer_only F (memory s) m ∧
    (length d' + budget k < length d + budget (io_kernel s))%nat.

(** The copy into the buffer. *)
Lemma out_stream_append m F pend t :
  out_stream m F pend → Forall is_byte t → Z.of_nat (length pend + length t) ≤ bufsiz F →
  out_stream (write_bytes m (f_buf F + Z.of_nat (length pend)) t)
    (set_obytes (Z.of_nat (length (pend ++ t))) F) (pend ++ t) ∧
  buffer_only F m (write_bytes m (f_buf F + Z.of_nat (length pend)) t).
Proof.
  intros [Hi Hb Ho Hf Hp Hv] Ht Hle. split; [constructor; simpl; try done|].
  - rewrite length_app. lia.
  - apply bytes_at_app. split; [|by apply write_bytes_at]. apply write_bytes_frame; [done|]. right. lia.
  - by apply write_bytes_valid.
  - intros a Ha. apply lookup_write_bytes_out. lia.
Qed.

(** The rest of a round, with room in the buffer. *)
Definition fwrite_body (f p count bytes : Z) : C (io S K) (Z * Z * Z + Z) :=
  F ← file f;
  if (obytes F =? 0) && (bufsiz F <=? count) then
    rv ← write sys (_IO_fileno F) p count;
    s ← get;
    if rv =? -1 then
      if again s then Next (p, count, bytes) else update f (set_error true);; Break bytes
    else if rv =? 0 then update f (set_eof true);; Break bytes
    else Next (p + rv, u64 (count - rv), u64 (bytes + rv))
  else
    let nb := u32 (bufsiz F - obytes F) in
    let nb := if count <? nb then count else nb in
    if negb (nb =? 0) then
      iomem (memcpy (f_buf F + obytes F) p nb);;
      update f (set_obytes (u32 (obytes F + nb)));;
      Next (p + nb, u64 (count - nb), u64 (bytes + nb))
    else Next (p, count, bytes).

Lemma run_fwrite_direct s f F p d b pend :
  reliable sys → io_files s !! f = Some F → out_stream (memory s) F pend → d ≠ [] →
  bytes_at (memory s) p d → 0 ≤ b → b + Z.of_nat (length d) < 2 ^ 64 →
  obytes F = 0 → bufsiz F ≤ Z.of_nat (length d) →
  wrote s f F d pend (fwrite_body f p (Z.of_nat (length d)) b) p b.
Proof.
  intros Hrel HF Hos Hne Hd Hb0 Hb Ho Hle. unfold fwrite_body, wrote.
  rewrite run_bind, (run_file s f F HF). cbn beta iota. rewrite Ho, (proj2 (Z.leb_le _ _) Hle). change ((0 =? 0) && true) with true. cbn iota.
  destruct (write_cases s f F p d HF Hd Hrel Hne) as (rv & e & k & Hrun & Hcase).
  assert (pend = []) as -> by (apply length_zero_iff_nil; destruct Hos; lia).
  rewrite run_bind, Hrun. cbn beta iota. rewrite run_bind, run_get. cbn beta iota. rewrite !at_file_buf.
  assert (F = set_obytes (Z.of_nat (length (@nil Z))) F) as HF0 by (rewrite <-(set_obytes_id F) at 1; by rewrite Ho).
  destruct Hcase as [(-> & Hag & Hs & Hbud)|(Hrv & Hs)].
  - exists k, e, (memory s), [], [], [], d. change (-1 =? -1) with true. cbn iota.
    rewrite at_file_buf in Hag. rewrite Hag, <-HF0. simpl. rewrite !Z.add_0_r. split_and!; try done. lia.
  - exists k, e, (memory s), (take (Z.to_nat rv) d), [], (take (Z.to_nat rv) d), (drop (Z.to_nat rv) d).
    rewrite (proj2 (Z.eqb_neq rv (-1))), (proj2 (Z.eqb_neq rv 0)), !wrap_small by lia.
    rewrite <-HF0, length_take, length_drop, app_nil_r, Nat2Z.inj_sub, Nat.min_l, Z2Nat.id by lia.
    destruct Hs as (? & ? & ? & ?). split_and!; try done; [by rewrite take_drop|lia].
Qed.

Lemma run_fwrite_copy s f F p d b pend :
  io_files s !! f = Some F → out_stream (memory s) F pend → d ≠ [] →
  bytes_at (memory s) p d → outside F p (Z.of_nat (length d)) → 0 ≤ b → b + Z.of_nat (length d) < 2 ^ 64 →
  Z.of_nat (length pend) < bufsiz F → (obytes F =? 0) && (bufsiz F <=? Z.of_nat (length d)) = false →
  wrote s f F d pend (fwrite_body f p (Z.of_nat (length d)) b) p b.
Proof.
  intros HF Hos Hne Hd Hout Hb0 Hb Hroom Hcase. unfold fwrite_body, wrote.
  rewrite run_bind, (run_file s f F HF). cbn beta iota. rewrite Hcase. pose proof Hos as [_ Hbs Ho _ _ Hv].
  rewrite Ho, wrap_small by lia. assert (0 < length d)%nat by (destruct d; [done|simpl; lia]).
  set (n := Z.min (Z.of_nat (length d)) (bufsiz F - Z.of_nat (length pend))).
  replace (if Z.of_nat (length d) <? _ then _ else _) with n by (case_match eqn:E; lia).
  pose proof (length_take d (Z.to_nat n)) as Hlt. rewrite Nat.min_l in Hlt by lia.
  pose proof (length_drop d (Z.to_nat n)) as Hld.
  rewrite (proj2 (Z.eqb_neq n 0)) by lia. cbn [negb].
  rewrite <-(take_drop (Z.to_nat n) d) in Hd. apply bytes_at_app in Hd as [Hd _].
  assert (Z.of_nat (length (take (Z.to_nat n) d)) = n) as Hn by lia.
  assert (memcpy (f_buf F + Z.of_nat (length pend)) p n (memory s) =
    Ret (f_buf F + Z.of_nat (length pend)) (write_bytes (memory s) (f_buf F + Z.of_nat (length pend)) (take (Z.to_nat n) d))) as Hcpy.
  { rewrite <-Hn at 1. apply run_memcpy; [done| |].
    - apply (valid_sub (memory s) (f_buf F) (bufsiz F)); [done|lia|lia].
    - unfold outside, disjoint_ranges in Hout. lia. }
  rewrite run_bind, (run_iomem _ _ _ _ Hcpy). cbn beta iota.
  destruct (out_stream_append _ F pend (take (Z.to_nat n) d) Hos) as [Hos' Hbuf];
    [by eapply bytes_at_is_byte|lia|].
  exists (io_kernel s), (io_errno s), (write_bytes (memory s) (f_buf F + Z.of_nat (length pend)) (take (Z.to_nat n) d)),
    [], (pend ++ take (Z.to_nat n) d), (take (Z.to_nat n) d), (drop (Z.to_nat n) d).
  split_and!; [by rewrite take_drop| |apply sent_refl|done|done|done|lia].
  rewrite run_bind, (run_update _ f F) by done. cbn beta iota. rewrite run_ret, !wrap_small by lia.
  rewrite length_app, Hlt, Hld, Nat2Z.inj_add, Nat2Z.inj_sub, Z2Nat.id by lia. done.
Qed.

Lemma run_fwrite_body s f F p d b pend :
  reliable sys → io_files s !! f = Some F → out_stream (memory s) F pend → d ≠ [] →
  bytes_at (memory s) p d → outside F p (Z.of_nat (length d)) → 0 ≤ b → b + Z.of_nat (length d) < 2 ^ 64 →
  Z.of_nat (length pend) < bufsiz F →
  wrote s f F d pend (fwrite_body f p (Z.of_nat (length d)) b) p b.
Proof.
  intros. destruct ((obytes F =? 0) && (bufsiz F <=? Z.of_nat (length d))) eqn:E.
  - apply andb_prop in E as [?%Z.eqb_eq ?%Z.leb_le]. by apply run_fwrite_direct.
  - by apply run_fwrite_copy.
Qed.

Lemma run_fwrite_round s f F p d b pend :
  reliable sys → io_files s !! f = Some F → out_stream (memory s) F pend → d ≠ [] →
  bytes_at (memory s) p d → outside F p (Z.of_nat (length d)) → 0 ≤ b → b + Z.of_nat (length d) < 2 ^ 64 →
  (Z.to_nat (bufsiz F) + budget (io_kernel s) < fuel)%nat →
  wrote s f F d pend (fwrite_round sys fuel f (p, Z.of_nat (length d), b)) p b.
Proof.
  intros Hrel HF Hos Hne Hd Hout Hb0 Hb Hfuel.
  destruct (run_make_room s f F pend Hrel HF Hos Hfuel) as (k & e & w & pend1 & Hrun & Hs & Hw & Hos1 & Hroom).
  pose proof (run_fwrite_body _ f _ p d b pend1 Hrel (lookup_at_file s f k e (set_obytes (Z.of_nat (length pend1)) F)) Hos1
    Hne Hd Hout Hb0 Hb Hroom) as (k' & e' & m & w' & pend' & t & d' & -> & Hbody & Hs' & Hw' & Hos' & Hbuf & Hlt).
  exists k', e', m, (w ++ w'), pend', t, d'. split_and!; [done| |exact (sent_trans _ _ _ _ _ _ Hs Hs')| |done|done|].
  - unfold fwrite_round. rewrite (proj2 (Z.eqb_neq _ 0)) by (destruct t, d'; simpl in *; done || lia).
    rewrite run_bind, (run_file s f F HF). cbn beta iota. rewrite run_bind, Hrun. cbn beta iota.
    refine (eq_trans Hbody _). by rewrite at_file_buf, at_buf_at.
  - by rewrite <-app_assoc, Hw', app_assoc, Hw.
  - destruct Hs as (_ & _ & _ & Hs). simpl in Hlt. lia.
Qed.

(** The loop stores or sends all of [d]. *)
Lemma run_fwrite_loop n s f F p d b pend :
  reliable sys → io_files s !! f = Some F → out_stream (memory s) F pend →
  bytes_at (memory s) p d → outside F p (Z.of_nat (length d)) → 0 ≤ b → b + Z.of_nat (length d) < 2 ^ 64 →
  (length d + budget (io_kernel s) < n)%nat → (Z.to_nat (bufsiz F) + budget (io_kernel s) < fuel)%nat →
  ∃ k e m w pend', loop n (fwrite_round sys fuel f) (p, Z.of_nat (length d), b) s =
    Ret (b + Z.of_nat (length d)) (at_buf s f k e m (set_obytes (Z.of_nat (length pend')) F)) ∧
  sent (_IO_fileno F) (io_kernel s) k w ∧ w ++ pend' = pend ++ d ∧
  out_stream m (set_obytes (Z.of_nat (length pend')) F) pend' ∧ buffer_only F (memory s) m.
Proof.
  intros Hrel. revert s F p d b pend. induction n as [|n IH]; intros s F p d b pend HF Hos Hd Hout Hb0 Hb Hn Hfuel; [lia|].
  rewrite run_loop. destruct (decide (d = [])) as [->|Hne].
  { exists (io_kernel s), (io_errno s), (memory s), [], pend. rewrite <-(os_obytes _ _ _ Hos), set_obytes_id, at_buf_id by done.
    rewrite Z.add_0_r, app_nil_r. split_and!; [done|apply sent_refl|done|done|done]. }
  destruct (run_fwrite_round s f F p d b pend Hrel HF Hos Hne Hd Hout Hb0 Hb Hfuel)
    as (k & e & m & w & pend1 & t & d' & -> & Hrun & Hs & Hw & Hos1 & Hbuf & Hlt).
  rewrite Hrun. rewrite length_app in *. apply bytes_at_app in Hd as [_ Hd].
  set (s1 := at_buf s f k e m (set_obytes (Z.of_nat (length pend1)) F)).
  assert (memory s1 = m) as Hm by apply memory_at_buf. unfold outside, disjoint_ranges in Hout.
  assert (outside F (p + Z.of_nat (length t)) (Z.of_nat (length d'))) as Hout' by (unfold outside, disjoint_ranges; lia).
  pose proof Hs as (_ & _ & _ & Hle).
  destruct (IH s1 (set_obytes (Z.of_nat (length pend1)) F) (p + Z.of_nat (length t)) d' (b + Z.of_nat (length t)) pend1)
    as (k' & e' & m' & w' & pend' & Hl & Hs' & Hw' & Hos' & Hbuf'); rewrite ?Hm; try done; try (simpl; lia).
  { apply lookup_at_file. }
  { exact (buffer_only_bytes F _ _ _ _ Hbuf Hout' Hd). }
  exists k', e', m', (w ++ w'), pend'. split_and!; [|exact (sent_trans _ _ _ _ _ _ Hs Hs')| |done|].
  - rewrite Hl. unfold s1. rewrite at_buf_at. f_equal. lia.
  - by rewrite <-app_assoc, Hw', !app_assoc, Hw.
  - intros a Ha. rewrite Hm in Hbuf'. by rewrite (Hbuf' a Ha), (Hbuf a Ha).
Qed.

(** *** Whole writes *)

(** From [s] to [s'], the stream at [f] took [d]: what went out and what is now
    pending is what was pending and [d], and no memory but the buffer changed. *)
Definition took s s' f F pend pend' d : Prop :=
  ∃ k e m w, s' = at_buf s f k e m (set_obytes (Z.of_nat (length pend')) F) ∧
  sent (_IO_fileno F) (io_kernel s) k w ∧ w ++ pend' = pend ++ d ∧
  out_stream m (set_obytes (Z.of_nat (length pend')) F) pend' ∧ buffer_only F (memory s) m.

Lemma took_nil s f F pend :
  io_files s !! f = Some F → out_stream (memory s) F pend → took s s f F pend pend [].
Proof.
  intros HF Hos. exists (io_kernel s), (io_errno s), (memory s), [].
  rewrite <-(os_obytes _ _ _ Hos), set_obytes_id, at_buf_id, app_nil_r by done.
  split_and!; [done|apply sent_refl|done|done|done].
Qed.

Lemma took_state s s' f F pend pend' d :
  took s s' f F pend pend' d →
  io_files s' !! f = Some (set_obytes (Z.of_nat (length pend')) F) ∧
  out_stream (memory s') (set_obytes (Z.of_nat (length pend')) F) pend' ∧ buffer_only F (memory s) (memory s') ∧
  (budget (io_kernel s') ≤ budget (io_kernel s))%nat.
Proof.
  intros (k & e & m & w & -> & Hs & _ & Hos & Hbuf). split; [apply lookup_at_file|].
  rewrite memory_at_buf. split_and!; [done|done|apply Hs].
Qed.

Lemma took_app s s1 s2 f F pend pend1 pend2 d1 d2 :
  took s s1 f F pend pend1 d1 → took s1 s2 f (set_obytes (Z.of_nat (length pend1)) F) pend1 pend2 d2 →
  took s s2 f F pend pend2 (d1 ++ d2).
Proof.
  intros (k & e & m & w & -> & Hs & Hw & Hos & Hbuf) (k2 & e2 & m2 & w2 & -> & Hs2 & Hw2 & Hos2 & Hbuf2).
  exists k2, e2, m2, (w ++ w2). rewrite at_buf_at. split_and!; [done|exact (sent_trans _ _ _ _ _ _ Hs Hs2)| |done|].
  - by rewrite <-app_assoc, Hw2, !app_assoc, Hw.
  - rewrite memory_at_buf in Hbuf2. intros x Hx. by rewrite (Hbuf2 x Hx), (Hbuf x Hx).
Qed.

Lemma run_fwrite_noflush s f F p d pend :
  reliable sys → io_files s !! f = Some F → out_stream (memory s) F pend →
  bytes_at (memory s) p d → outside F p (Z.of_nat (length d)) → Z.of_nat (length d) < 2 ^ 64 →
  (length d + Z.to_nat (bufsiz F) + budget (io_kernel s) < fuel)%nat →
  ∃ s' pend', fwrite_noflush sys fuel p (Z.of_nat (length d)) f s = Ret (Z.of_nat (length d)) s' ∧
  took s s' f F pend pend' d.
Proof.
  intros. destruct (run_fwrite_loop fuel s f F p d 0 pend) as (k & e & m & w & pend' & Hrun & Hrest); [done..|lia|lia|].
  eexists _, pend'. split; [exact Hrun|]. by exists k, e, m, w.
Qed.

Lemma run_fflush_stream s f F pend :
  reliable sys → io_files s !! f = Some F → out_stream (memory s) F pend →
  (Z.to_nat (bufsiz F) + budget (io_kernel s) < fuel)%nat →
  ∃ s', __fflush sys fuel f s = Ret 0 s' ∧ took s s' f F pend [] [].
Proof.
  intros Hrel HF Hos Hfuel. pose proof Hos as [_ ? ? ? ? _].
  destruct (run_fflush s f F pend) as (k & e & Hrun & Hs); [done..|lia|lia|].
  eexists. split; [exact Hrun|]. exists k, e, (memory s), pend. rewrite at_file_buf.
  split_and!; [done|done|done|exact (out_stream_flushed _ _ _ Hos)|done].
Qed.

(** The length of the part to be flushed. *)
Definition flush_len F (buf count : Z) : C (io S K) Z :=
  match bufmode F with
  | _IOFBF => mret 0
  | _IOLBF => q ← iomem (memrchr buf 10 count); mret (if negb (q =? NULL) then q - buf + 1 else 0)
  | _IONBF => mret count
  end.

Lemma run_flush_len s F p d :
  bytes_at (memory s) p d → 0 < p →
  ∃ d1 d2, d = d1 ++ d2 ∧ flush_len F p (Z.of_nat (length d)) s = Ret (Z.of_nat (length d1)) s ∧
  match bufmode F with _IONBF => d2 = [] | _IOLBF => 10 ∉ d2 | _IOFBF => d1 = [] end.
Proof.
  intros Hd Hp. unfold flush_len. destruct (bufmode F).
  - exists d, []. by rewrite app_nil_r.
  - rewrite run_bind, (run_iomem_read _ _ _ (run_memrchr _ p 10 d Hd)). cbn beta iota. change (u8 10) with 10.
    destruct (list_find (λ b, b = 10) (reverse d)) as [[i x]|] eqn:E.
    + apply list_find_Some in E as (Hi & -> & Hlt). pose proof (lookup_lt_Some _ _ _ Hi) as Hi'.
      rewrite length_reverse in Hi'. exists (take (length d - i) d), (drop (length d - i) d).
      split; [by rewrite take_drop|]. split.
      * rewrite length_take, run_ret, (proj2 (Z.eqb_neq _ NULL)) by (unfold NULL; lia). cbn [negb]. f_equal. lia.
      * intros (j & Hj)%list_elem_of_lookup. rewrite lookup_drop in Hj. pose proof (lookup_lt_Some _ _ _ Hj) as Hjl.
        apply (Hlt (i - 1 - j)%nat 10); [|lia|done]. rewrite reverse_lookup_Some.
        split; [rewrite <-Hj; f_equal; lia|lia].
    + exists [], d. split_and!; [done|done|]. apply list_find_None in E. rewrite Forall_forall in E.
      intros Hin. by apply (E 10); [apply elem_of_reverse|].
  - by exists [], d.
Qed.

(** The flushed part. *)
Lemma run_flush_part s f F p d pend :
  reliable sys → io_files s !! f = Some F → out_stream (memory s) F pend →
  bytes_at (memory s) p d → outside F p (Z.of_nat (length d)) → Z.of_nat (length d) < 2 ^ 64 →
  (length d + Z.to_nat (bufsiz F) + budget (io_kernel s) < fuel)%nat →
  ∃ s' pend', (if negb (Z.of_nat (length d) =? 0) then
         bytes ← fwrite_noflush sys fuel p (Z.of_nat (length d)) f;
         e ← __fflush sys fuel f;
         mret (bytes, negb (e =? 0) || negb (bytes =? Z.of_nat (length d)))
       else mret (0, false)) s = Ret (Z.of_nat (length d), false) s' ∧
  took s s' f F pend pend' d ∧ (d ≠ [] → pend' = []) ∧ (d = [] → pend' = pend).
Proof.
  intros Hrel HF Hos Hd Hout Hlen Hfuel. destruct (decide (d = [])) as [->|Hne].
  { exists s, pend. split_and!; [done|by apply took_nil|done|done]. }
  rewrite (proj2 (Z.eqb_neq _ 0)) by (destruct d; simpl; done || lia). cbn [negb].
  destruct (run_fwrite_noflush s f F p d pend) as (s1 & pend1 & Hrun & Ht1); [done..|].
  rewrite run_bind, Hrun. cbn beta iota. destruct (took_state _ _ _ _ _ _ _ Ht1) as (HF1 & Hos1 & _ & Hb1).
  destruct (run_fflush_stream s1 f _ pend1 Hrel HF1 Hos1) as (s2 & Hrun2 & Ht2); [simpl; lia|].
  exists s2, []. rewrite run_bind, Hrun2. cbn beta iota. rewrite run_ret, !Z.eqb_refl. split_and!; [done| |done|by intros ->].
  rewrite <-(app_nil_r d). exact (took_app _ _ _ _ _ _ _ _ _ _ Ht1 Ht2).
Qed.

(** What the buffering mode lets stay in the buffer. *)
Definition kept F pend (d pend' : list Z) : Prop :=
  match bufmode F with
  | _IONBF => d ≠ [] → pend' = []
  | _IOLBF => 10 ∉ pend → 10 ∉ pend'
  | _IOFBF => True
  end.

Lemma run_fwrite_orig s f F p d pend :
  reliable sys → io_files s !! f = Some F → out_stream (memory s) F pend → 0 < p →
  bytes_at (memory s) p d → outside F p (Z.of_nat (length d)) → Z.of_nat (length d) < 2 ^ 64 →
  (length d + Z.to_nat (bufsiz F) + budget (io_kernel s) < fuel)%nat →
  ∃ s' pend', _fwrite_orig sys fuel p (Z.of_nat (length d)) f s = Ret (Z.of_nat (length d)) s' ∧
  took s s' f F pend pend' d ∧ kept F pend d pend'.
Proof.
  intros Hrel HF Hos Hp Hd Hout Hlen Hfuel. unfold _fwrite_orig. rewrite run_bind, (run_file s f F HF). cbn beta iota.
  destruct (run_flush_len s F p d Hd Hp) as (d1 & d2 & -> & Hpf & Hmode). rewrite run_bind.
  change (match bufmode F with _IOFBF => _ | _ => _ end) with (flush_len F p (Z.of_nat (length (d1 ++ d2)))) at 1.
  rewrite Hpf. cbn beta iota. rewrite length_app in *. apply bytes_at_app in Hd as [Hd1 Hd2].
  unfold outside, disjoint_ranges in Hout.
  destruct (run_flush_part s f F p d1 pend) as (s1 & pend1 & Hrun1 & Ht1 & Hd1ne & Hd1e);
    [done..|unfold outside, disjoint_ranges; lia|lia|lia|].
  rewrite run_bind, Hrun1. cbn beta iota. destruct (took_state _ _ _ _ _ _ _ Ht1) as (HF1 & Hos1 & Hbuf1 & Hb1).
  replace (Z.of_nat (length d1 + length d2) - Z.of_nat (length d1)) with (Z.of_nat (length d2)) by lia.
  rewrite wrap_small by lia. destruct (decide (d2 = [])) as [->|Hne2].
  { exists s1, pend1. rewrite app_nil_r, Nat.add_0_r. split_and!; [done|done|]. unfold kept. destruct (bufmode F); [done| |done].
    destruct (decide (d1 = [])) as [->|Hne]; [by rewrite Hd1e|rewrite Hd1ne by done; set_solver]. }
  rewrite (proj2 (Z.eqb_neq _ 0)) by (destruct d2; simpl; done || lia). cbn [negb].
  assert (outside F (p + Z.of_nat (length d1)) (Z.of_nat (length d2))) as Hout2 by (unfold outside, disjoint_ranges; lia).
  destruct (run_fwrite_noflush s1 f _ (p + Z.of_nat (length d1)) d2 pend1 Hrel HF1 Hos1) as (s2 & pend2 & Hrun2 & Ht2);
    [by apply (buffer_only_bytes F (memory s))|done|lia|simpl; lia|].
  exists s2, pend2. rewrite run_bind, Hrun2. cbn beta iota. rewrite run_ret, wrap_small by lia.
  split_and!; [f_equal; lia|exact (took_app _ _ _ _ _ _ _ _ _ _ Ht1 Ht2)|].
  unfold kept. destruct (bufmode F); [done| |done]. intros Hpend. destruct Ht2 as (_ & _ & _ & w & _ & _ & Hw & _).
  assert (10 ∉ pend1) by (destruct (decide (d1 = [])) as [->|Hne]; [by rewrite Hd1e|rewrite Hd1ne by done; set_solver]).
  intros Hin. assert (10 ∈ pend1 ++ d2) by (rewrite <-Hw; set_solver). set_solver.
Qed.

(** ** Reading *)

(** From [k] to [k'] the kernel handed out the bytes [l] of [fd] and nothing else. *)
Definition got (fd : Z) (k k' : K) (l : list Z) : Prop :=
  (∀ d, out d k' = out d k) ∧ (∀ d, d ≠ fd → inp d k' = inp d k) ∧
  inp fd k = l ++ inp fd k' ∧ (budget k' ≤ budget k)%nat.

Lemma got_trans fd k1 k2 k3 l l' : got fd k1 k2 l → got fd k2 k3 l' → got fd k1 k3 (l ++ l').
Proof.
  intros (Ho & Hi & Hl & Hb) (Ho' & Hi' & Hl' & Hb'). split_and!; [| | |lia].
  - intros d. by rewrite Ho', Ho.
  - intros d Hd. by rewrite Hi', Hi.
  - by rewrite Hl, Hl', app_assoc.
Qed.

(** A stream in input mode, with [u] in its buffer. *)
Record in_stream (m : mem) F (u : list Z) : Prop := {
  is_obytes : obytes F = 0;
  is_bufsiz : 0 < bufsiz F < 2 ^ 31;
  is_ibytes : ibytes F = Z.of_nat (length u);
  is_data : bytes_at m (f_data F) u;
  is_inside : f_buf F ≤ f_data F ∧ f_data F + Z.of_nat (length u) ≤ f_buf F + bufsiz F + _IO_UNGET_SLOP;
  is_valid : valid m (f_buf F) (bufsiz F + _IO_UNGET_SLOP);
}.

Definition outside_input F (p n : Z) : Prop :=
  disjoint_ranges p n (f_buf F) (bufsiz F + _IO_UNGET_SLOP).

(** [m'] differs from [m] in the buffer of the stream and the [n] bytes at [p]. *)
Definition input_only F (p n : Z) m m' : Prop :=
  (∀ a, (a < p ∨ p + n ≤ a) → (a < f_buf F ∨ f_buf F + bufsiz F + _IO_UNGET_SLOP ≤ a) → m' !! a = m !! a) ∧
  ∀ q k, valid m q k → valid m' q k.

(** The stream with another input position. *)
Definition same_stream F F' : Prop :=
  _IO_fileno F' = _IO_fileno F ∧ _IO_error F' = _IO_error F ∧ f_buf F' = f_buf F ∧ bufsiz F' = bufsiz F ∧
  f_prev F' = f_prev F ∧ f_next F' = f_next F ∧ bufmode F' = bufmode F.

Lemma run_read s f F p n :
  io_files s !! f = Some F → valid (memory s) p n → 0 < n → reliable sys →
  ∃ rv e k l, read sys (_IO_fileno F) p n s = Ret rv (at_buf s f k e (write_bytes (memory s) p l) F) ∧
  got (_IO_fileno F) (io_kernel s) k l ∧ Forall is_byte l ∧ Z.of_nat (length l) ≤ n ∧
  (rv = -1 ∧ l = [] ∧ (e = EINTR ∨ e = EAGAIN) ∧ (budget k < budget (io_kernel s))%nat ∨
   rv = 0 ∧ l = [] ∧ inp (_IO_fileno F) (io_kernel s) = [] ∨
   0 < rv ∧ rv = Z.of_nat (length l)).
Proof.
  intros HF Hv Hn [_ Hrel]. unfold read. rewrite run_bind, run_get. cbn beta iota.
  destruct (sys_read sys (_IO_fileno F) n (io_kernel s)) as [[[rv e] l] k] eqn:E. specialize (Hrel _ _ _ _ _ _ _ E).
  exists rv, (if rv =? -1 then e else io_errno s), k, l.
  destruct (ok_read _ _ _ _ Hsys _ _ _ _ _ _ _ (Z.lt_le_incl _ _ Hn) E) as (Ho & Hi & Hcase).
  assert (Forall is_byte l ∧ Z.of_nat (length l) ≤ n) as [Hbl Hle].
  { destruct Hcase as [(_ & -> & _)|(? & ? & _ & ? & _)]; [split; [done|simpl; lia]|split; [done|lia]]. }
  split_and!; [|split_and!; [done|done|..]|done|done|].
  - rewrite run_bind, run_modify. cbn beta iota. rewrite run_bind, (run_iomem _ _ tt (write_bytes (memory s) p l)).
    + rewrite run_ret. f_equal. unfold at_buf, at_file, set_call, set_io_heap. simpl. by rewrite insert_id.
    + apply run_store_bytes; [done|]. by apply (valid_le _ _ n).
  - destruct Hcase as [(_ & -> & ? & _)|(_ & _ & ? & _)]; done.
  - destruct Hcase as [(-> & _ & _ & Hb)|(_ & _ & _ & _ & Hb & _)]; [|done]. specialize (Hb (Hrel eq_refl)). lia.
  - destruct Hcase as [(-> & -> & _ & Hb)|(Hrv & Hl & _ & _ & _ & Hz)]; [left; split_and!; by auto|right].
    destruct (decide (rv = 0)) as [->|]; [left|right; lia].
    split_and!; [done|by apply length_zero_iff_nil; lia|by apply Hz].
Qed.

Lemma set_input_id F : set_input (f_data F) (ibytes F) F = F.
Proof. by destruct F. Qed.

(** What a round that goes on does: [t] of the [c] bytes wanted reach [p]. *)
Definition fetched s f F u (p b : Z) (c : nat) (r : C (io S K) (Z * Z * Z + Z)) : Prop :=
  ∃ k e m x i l t u',
    r s = Ret (inl (p + Z.of_nat (length t), Z.of_nat (c - length t), b + Z.of_nat (length t)))
              (at_buf s f k e m (set_input x i F)) ∧
    got (_IO_fileno F) (io_kernel s) k l ∧ t ++ u' = u ++ l ∧ (length t ≤ c)%nat ∧ bytes_at m p t ∧
    in_stream m (set_input x i F) u' ∧ input_only F p (Z.of_nat (length t)) (memory s) m ∧
    (2 * (c - length t) + (if decide (u' = []) then 1 else 0) + budget k <
     2 * c + (if decide (u = []) then 1 else 0) + budget (io_kernel s))%nat.

Lemma input_only_write F p n q l m :
  (q = p ∧ Z.of_nat (length l) ≤ n) ∨ (f_buf F ≤ q ∧ q + Z.of_nat (length l) ≤ f_buf F + bufsiz F + _IO_UNGET_SLOP) →
  input_only F p n m (write_bytes m q l).
Proof.
  intros Hq. split; [|intros; by apply write_bytes_valid].
  intros a Ha Hb. apply lookup_write_bytes_out. lia.
Qed.

Lemma in_stream_frame m F u p l :
  in_stream m F u → outside_input F p (Z.of_nat (length l)) → in_stream (write_bytes m p l) F u.
Proof.
  intros [Ho Hb Hi Hd Hin Hv] Hout. unfold outside_input, disjoint_ranges in Hout.
  constructor; [done|done|done| |done|by apply write_bytes_valid].
  apply write_bytes_frame; [done|]. unfold disjoint_ranges. lia.
Qed.

(** A round on a buffer that is not empty. *)
Lemma run_fread_copy s f F u p b (c : nat) :
  io_files s !! f = Some F → in_stream (memory s) F u → u ≠ [] → (0 < c)%nat →
  valid (memory s) p (Z.of_nat c) → outside_input F p (Z.of_nat c) → 0 ≤ b → b + Z.of_nat c < 2 ^ 64 →
  fetched s f F u p b c (fread_round sys f (p, Z.of_nat c, b)).
Proof.
  intros HF His Hu Hc Hv Hout Hb0 Hb. unfold fread_round, fetched. rewrite (proj2 (Z.eqb_neq (Z.of_nat c) 0)) by lia.
  rewrite run_bind, (run_file s f F HF). cbn beta iota. pose proof His as [Ho Hbs Hi Hd Hin Hvb].
  assert (0 < length u)%nat by (destruct u; [done|simpl; lia]). unfold _IO_UNGET_SLOP in *.
  rewrite Hi, (proj2 (Z.eqb_neq _ 0)) by lia. set (n := Nat.min c (length u)).
  replace (if Z.of_nat c <? _ then _ else _) with (Z.of_nat n) by (case_match eqn:E; lia).
  pose proof (length_take u n) as Hlt. rewrite Nat.min_l in Hlt by lia. pose proof (length_drop u n) as Hld.
  pose proof Hd as Hall. rewrite <-(take_drop n u) in Hd. apply bytes_at_app in Hd as [Hd1 Hd2].
  rewrite Hlt in Hd2. unfold outside_input, disjoint_ranges, _IO_UNGET_SLOP in Hout.
  set (m := write_bytes (memory s) p (take n u)).
  assert (memcpy p (f_data F) (Z.of_nat n) (memory s) = Ret p m) as Hcpy.
  { rewrite <-Hlt. apply run_memcpy; [done| |lia]. apply (valid_le _ _ (Z.of_nat c)); [lia|done]. }
  rewrite run_bind, (run_iomem _ _ _ _ Hcpy). cbn beta iota.
  rewrite run_bind, (run_update _ f F) by done. cbn beta iota. rewrite run_ret, !wrap_small by lia.
  exists (io_kernel s), (io_errno s), m, (f_data F + Z.of_nat n), (Z.of_nat (length u) - Z.of_nat n), [], (take n u), (drop n u).
  rewrite Hlt. split_and!.
  - rewrite Nat2Z.inj_sub by lia. done.
  - done.
  - by rewrite take_drop, app_nil_r.
  - lia.
  - apply write_bytes_at. by eapply bytes_at_is_byte.
  - apply in_stream_frame; [|unfold outside_input, disjoint_ranges, _IO_UNGET_SLOP; simpl; lia].
    constructor; simpl; unfold _IO_UNGET_SLOP; try done; lia.
  - apply input_only_write. lia.
  - case_decide; case_decide; subst; simpl; try done; lia.
Qed.

(** A round on an empty buffer: it goes on, or the input is at its end. *)
Lemma run_fread_read s f F p b (c : nat) :
  reliable sys → io_files s !! f = Some F → in_stream (memory s) F [] → (0 < c)%nat →
  valid (memory s) p (Z.of_nat c) → outside_input F p (Z.of_nat c) → 0 ≤ b → b + Z.of_nat c < 2 ^ 64 →
  fetched s f F [] p b c (fread_round sys f (p, Z.of_nat c, b)) ∨
  ∃ k e, fread_round sys f (p, Z.of_nat c, b) s = Ret (inr b) (at_buf s f k e (memory s) (set_eof true F)) ∧
  got (_IO_fileno F) (io_kernel s) k [] ∧ inp (_IO_fileno F) (io_kernel s) = [].
Proof.
  intros Hrel HF His Hc Hv Hout Hb0 Hb. unfold fread_round, fetched. rewrite (proj2 (Z.eqb_neq (Z.of_nat c) 0)) by lia.
  rewrite !run_bind, !(run_file s f F HF). cbn beta iota. pose proof His as [Ho Hbs Hi Hd Hin Hvb]. simpl in Hi.
  rewrite Hi. change (Z.of_nat 0 =? 0) with true. cbn beta iota zeta. unfold _IO_UNGET_SLOP in *. rewrite !run_bind.
  set (bypass := bufsiz F <=? Z.of_nat c). set (q := if bypass then p else f_buf F + 32).
  set (n := if bypass then Z.of_nat c else bufsiz F).
  destruct (run_read s f F q n HF) as (rv & e & k & l & Hrun & Hgot & Hbl & Hle & Hcase);
    [subst q n; destruct bypass; [done|apply (valid_sub (memory s) (f_buf F) (bufsiz F + 32)); [done|lia|lia]]
    |subst n; destruct bypass; lia|done|].
  rewrite Hrun. cbn beta iota. rewrite !run_bind, !run_get. cbn beta iota.
  destruct Hcase as [(-> & -> & He & Hbud)|[(-> & -> & Hend)|(Hrv & ->)]].
  - left. exists k, e, (memory s), (f_data F), (ibytes F), [], [], []. rewrite set_input_id, Nat.sub_0_r, !Z.add_0_r.
    change (-1 =? -1) with true. cbn iota.
    assert (again (at_buf s f k e (write_bytes (memory s) q []) F) = true) as -> by (unfold again; simpl; by destruct He as [-> | ->]).
    split_and!; [done|done|done|simpl; lia|apply bytes_at_nil|done| |simpl; lia]. by apply (input_only_write F p 0 p []); left.
  - right. exists k, e. change (0 =? -1) with false. change (0 =? 0) with true. cbn iota.
    split; [|done]. unfold at_buf. by rewrite run_bind, update_at_file.
  - left. rewrite (proj2 (Z.eqb_neq _ (-1))), (proj2 (Z.eqb_neq _ 0)) by lia.
    unfold outside_input, disjoint_ranges, _IO_UNGET_SLOP in Hout.
    exists k, e, (write_bytes (memory s) q l). destruct bypass eqn:E; subst q n.
    + exists (f_data F), (ibytes F), l, l, []. rewrite set_input_id, !wrap_small, Nat2Z.inj_sub by lia.
      split_and!; [done|done|by rewrite app_nil_r|lia|by apply write_bytes_at| | |].
      * apply in_stream_frame; [done|]. unfold outside_input, disjoint_ranges, _IO_UNGET_SLOP. lia.
      * apply input_only_write. lia.
      * destruct Hgot as (_ & _ & _ & Hbud). simpl. lia.
    + exists (f_buf F + 32), (Z.of_nat (length l)), l, [], l. unfold at_buf. rewrite run_bind, update_at_file. cbn beta iota.
      rewrite run_ret, wrap_small, Nat.sub_0_r, !Z.add_0_r by lia.
      split_and!; [done|done|done|simpl; lia|apply bytes_at_nil| | |].
      * constructor; simpl; unfold _IO_UNGET_SLOP; try done; [by apply write_bytes_at|lia|by apply write_bytes_valid].
      * apply input_only_write. unfold _IO_UNGET_SLOP. lia.
      * destruct Hgot as (_ & _ & _ & Hbud). rewrite decide_False by (destruct l; simpl in *; done || lia). simpl. lia.
Qed.

(** [c] bytes were wanted of what was there, [u] and what the kernel had; [r] of
    them were read to [p]. *)
Definition read_up_to s s' f F u (p : Z) (c : nat) r : Prop :=
  ∃ k e m F' u' l, s' = at_buf s f k e m F' ∧ same_stream F F' ∧
  got (_IO_fileno F) (io_kernel s) k l ∧ r ++ u' = u ++ l ∧ bytes_at m p r ∧ in_stream m F' u' ∧
  input_only F p (Z.of_nat c) (memory s) m ∧
  ((length r = c ∧ _IO_eof F' = _IO_eof F) ∨
   (length r < c)%nat ∧ _IO_eof F' = true ∧ u' = [] ∧ inp (_IO_fileno F) k = []).

Lemma same_stream_refl F x i : same_stream F (set_input x i F).
Proof. by repeat split. Qed.

Lemma input_only_bytes F p n m m' q l :
  input_only F p n m m' → bytes_at m q l → disjoint_ranges q (Z.of_nat (length l)) p n →
  outside_input F q (Z.of_nat (length l)) → bytes_at m' q l.
Proof.
  intros [Hm _] Hl Hd Ho. apply (bytes_at_ext m); [done|]. intros a Ha. unfold outside_input, disjoint_ranges in *.
  apply Hm; lia.
Qed.

Lemma read_step s s' f F u p (c : nat) k e m x i l t u' r :
  got (_IO_fileno F) (io_kernel s) k l → t ++ u' = u ++ l → (length t ≤ c)%nat → bytes_at m p t →
  input_only F p (Z.of_nat (length t)) (memory s) m → outside_input F p (Z.of_nat c) →
  read_up_to (at_buf s f k e m (set_input x i F)) s' f (set_input x i F) u' (p + Z.of_nat (length t)) (c - length t) r →
  read_up_to s s' f F u p c (t ++ r).
Proof.
  intros Hgot Htu Htc Ht Hm Hout (k' & e' & m' & F' & u'' & l' & -> & Hsame & Hgot' & Hr & Hrp & His & Hm' & Heof).
  simpl in Hgot'. rewrite memory_at_buf in Hm'. unfold outside_input, disjoint_ranges in Hout.
  exists k', e', m', F', u'', (l ++ l'). split_and!.
  - by rewrite at_buf_at.
  - exact Hsame.
  - by eapply got_trans.
  - by rewrite <-app_assoc, Hr, !app_assoc, Htu.
  - apply bytes_at_app. split; [|done]. apply (input_only_bytes _ _ _ _ _ _ _ Hm' Ht); unfold outside_input, disjoint_ranges; simpl; lia.
  - done.
  - destruct Hm as [Hm Hv], Hm' as [Hm' Hv']. split; [|by auto]. intros a Ha Hb. rewrite Hm', Hm; [done|lia|done|simpl; lia|done].
  - rewrite length_app. simpl in Heof. destruct Heof as [[? ?]|(? & ? & ? & ?)]; [left|right]; split_and!; done || lia.
Qed.

Lemma run_fread_loop n s f F u p b (c : nat) :
  reliable sys → io_files s !! f = Some F → in_stream (memory s) F u →
  valid (memory s) p (Z.of_nat c) → outside_input F p (Z.of_nat c) → 0 ≤ b → b + Z.of_nat c < 2 ^ 64 →
  (2 * c + (if decide (u = []) then 1 else 0) + budget (io_kernel s) < n)%nat →
  ∃ r s', loop n (fread_round sys f) (p, Z.of_nat c, b) s = Ret (b + Z.of_nat (length r)) s' ∧
  read_up_to s s' f F u p c r.
Proof.
  intros Hrel. revert s F u p b c. induction n as [|n IH]; intros s F u p b c HF His Hv Hout Hb0 Hb Hn; [lia|].
  rewrite run_loop. destruct (decide (c = 0%nat)) as [->|Hc].
  { exists [], s. rewrite Z.add_0_r. split; [done|].
    exists (io_kernel s), (io_errno s), (memory s), F, u, []. rewrite at_buf_id, app_nil_r by done.
    split_and!; [done|done|done|done|apply bytes_at_nil|done|done|by left]. }
  assert (fetched s f F u p b c (fread_round sys f (p, Z.of_nat c, b)) ∨
    u = [] ∧ ∃ k e, fread_round sys f (p, Z.of_nat c, b) s = Ret (inr b) (at_buf s f k e (memory s) (set_eof true F)) ∧
    got (_IO_fileno F) (io_kernel s) k [] ∧ inp (_IO_fileno F) (io_kernel s) = []) as [Hf|(-> & k & e & Hrun & Hgot & Hend)].
  { destruct (decide (u = [])) as [->|Hne].
    - destruct (run_fread_read s f F p b c) as [?|?]; [done|done|done|lia|done|done|done|done|by left|by right].
    - left. apply run_fread_copy; by done || lia. }
  - destruct Hf as (k & e & m & x & i & l & t & u' & Hrun & Hgot & Htu & Htc & Ht & His' & Hm & Hlt).
    rewrite Hrun. pose proof Hm as [_ Hvm]. unfold outside_input, disjoint_ranges in Hout.
    destruct (IH (at_buf s f k e m (set_input x i F)) (set_input x i F) u' (p + Z.of_nat (length t)) (b + Z.of_nat (length t)) (c - length t)%nat)
      as (r & s' & Hl & Hr).
    + apply lookup_at_file.
    + by rewrite memory_at_buf.
    + rewrite memory_at_buf. apply Hvm, (valid_sub _ p (Z.of_nat c)); [done|lia|lia].
    + unfold outside_input, disjoint_ranges. simpl. lia.
    + lia.
    + lia.
    + simpl in *. lia.
    + exists (t ++ r), s'. rewrite Hl, length_app. split; [f_equal; lia|]. by eapply read_step.
  - exists [], (at_buf s f k e (memory s) (set_eof true F)). rewrite Hrun. split; [by rewrite Z.add_0_r|].
    exists k, e, (memory s), (set_eof true F), [], []. pose proof Hgot as (_ & _ & Hk & _). rewrite Hend in Hk.
    split_and!; [done|done|done|done|apply bytes_at_nil|by destruct His|done|]. right. split_and!; [simpl; lia|done|done|done].
Qed.

Lemma read_up_to_take s s' f F u p c r :
  read_up_to s s' f F u p c r → r = take c (u ++ inp (_IO_fileno F) (io_kernel s)).
Proof.
  intros (k & e & m & F' & u' & l & _ & _ & (_ & _ & Hk & _) & Hr & _ & _ & _ & Hlen).
  rewrite Hk, app_assoc, <-Hr, <-app_assoc. destruct Hlen as [[<- _]|(? & _ & -> & ->)].
  - by rewrite take_app_length.
  - rewrite app_nil_r, take_ge by lia. done.
Qed.

(** ** The properties *)

(** On a buffered stream and a kernel that accepts any part of a write or
    interrupts it, _fwrite takes all its bytes: what went out and what is now
    pending is, in order, what was pending and the new bytes; nothing stays
    pending on an unbuffered stream and no newline does on a line-buffered one;
    only the stream, its buffer and its descriptor's output change. *)
Theorem fwrite_in_order s f F p d pend :
  reliable sys → io_files s !! f = Some F → out_stream (memory s) F pend → 0 < p →
  bytes_at (memory s) p d → outside F p (Z.of_nat (length d)) → Z.of_nat (length d) < 2 ^ 64 →
  (length d + Z.to_nat (bufsiz F) + budget (io_kernel s) < fuel)%nat →
  ∃ s' pend' w, _fwrite sys fuel true p (Z.of_nat (length d)) f s = Ret (Z.of_nat (length d)) s' ∧
  io_files s' = <[f := set_obytes (Z.of_nat (length pend')) F]> (io_files s) ∧
  out_stream (memory s') (set_obytes (Z.of_nat (length pend')) F) pend' ∧
  sent (_IO_fileno F) (io_kernel s) (io_kernel s') w ∧ w ++ pend' = pend ++ d ∧
  match bufmode F with
  | _IONBF => d ≠ [] → pend' = []
  | _IOLBF => 10 ∉ pend → 10 ∉ pend'
  | _IOFBF => True
  end ∧
  ∀ a, a < f_buf F ∨ f_buf F + bufsiz F ≤ a → memory s' !! a = memory s !! a.
Proof.
  intros Hrel HF Hos Hp Hd Hout Hlen Hfuel.
  destruct (run_fwrite_orig s f F p d pend) as (s' & pend' & Hrun & (k & e & m & w & -> & Hs & Hw & Hos' & Hbuf) & Hk); [done..|].
  eexists _, pend', w. rewrite memory_at_buf. by split_and!.
Qed.

(** A client: writes one after the other, then a flush. *)
Fixpoint fwrite_each (f : Z) (ws : list (Z * list Z)) : C (io S K) unit :=
  match ws with
  | [] => mret tt
  | (p, d) :: ws => _fwrite sys fuel true p (Z.of_nat (length d)) f;; fwrite_each f ws
  end.

(** The bytes [d] are at [p], where a stream can take them from. *)
Definition source_ok s F (w : Z * list Z) : Prop :=
  0 < w.1 ∧ bytes_at (memory s) w.1 w.2 ∧ outside F w.1 (Z.of_nat (length w.2)) ∧
  Z.of_nat (length w.2) < 2 ^ 64 ∧ (length w.2 + Z.to_nat (bufsiz F) + budget (io_kernel s) < fuel)%nat.

Lemma run_fwrite_each s f F pend ws :
  reliable sys → io_files s !! f = Some F → out_stream (memory s) F pend → Forall (source_ok s F) ws →
  ∃ s' pend', fwrite_each f ws s = Ret tt s' ∧ took s s' f F pend pend' (mjoin (ws.*2)).
Proof.
  intros Hrel. revert s F pend. induction ws as [|[p d] ws IH]; intros s F pend HF Hos Hws.
  { exists s, pend. split; [done|by apply took_nil]. }
  apply Forall_cons in Hws as [(Hp & Hd & Hout & Hlen & Hfuel) Hws]. simpl in *.
  destruct (run_fwrite_orig s f F p d pend) as (s1 & pend1 & Hrun & Ht1 & _); [done..|].
  destruct (took_state _ _ _ _ _ _ _ Ht1) as (HF1 & Hos1 & Hbuf1 & Hb1).
  destruct (IH s1 _ pend1 HF1 Hos1) as (s2 & pend2 & Hrun2 & Ht2).
  { eapply Forall_impl; [exact Hws|]. intros [q x] (? & ? & ? & ? & ?). simpl in *.
    split_and!; simpl; [done|by apply (buffer_only_bytes F (memory s))|done|done|lia]. }
  exists s2, pend2. rewrite run_bind, Hrun. split; [exact Hrun2|exact (took_app _ _ _ _ _ _ _ _ _ _ Ht1 Ht2)].
Qed.

(** C20: any sequence of writes to a buffered stream followed by fflush puts on the
    descriptor exactly what was pending and then the bytes written, in order and
    once each, however the kernel splits or interrupts the writes, and leaves the
    stream empty. *)
Theorem fwrite_fflush_delivers s f F pend ws :
  reliable sys → f ≠ NULL → io_files s !! f = Some F → out_stream (memory s) F pend → Forall (source_ok s F) ws →
  (Z.to_nat (bufsiz F) + budget (io_kernel s) < fuel)%nat → ∀ head,
  ∃ s', (fwrite_each f ws;; fflush sys fuel true head f) s = Ret 0 s' ∧
  out (_IO_fileno F) (io_kernel s') = out (_IO_fileno F) (io_kernel s) ++ pend ++ mjoin (ws.*2) ∧
  (∀ fd, fd ≠ _IO_fileno F → out fd (io_kernel s') = out fd (io_kernel s)) ∧
  io_files s' = <[f := set_obytes 0 F]> (io_files s) ∧ out_stream (memory s') (set_obytes 0 F) [].
Proof.
  intros Hrel Hf HF Hos Hws Hfuel head. destruct (run_fwrite_each s f F pend ws) as (s1 & pend1 & Hrun & Ht1); [done..|].
  destruct (took_state _ _ _ _ _ _ _ Ht1) as (HF1 & Hos1 & _ & Hb1).
  destruct (run_fflush_stream s1 f _ pend1 Hrel HF1 Hos1) as (s2 & Hrun2 & Ht2); [simpl; lia|].
  destruct (took_app _ _ _ _ _ _ _ _ _ _ Ht1 Ht2) as (k & e & m & w & -> & (_ & Ho & Hs & _) & Hw & Hos2 & _).
  eexists. rewrite run_bind, Hrun. cbn beta iota. unfold fflush. rewrite (proj2 (Z.eqb_neq f NULL)) by done.
  split; [exact Hrun2|]. rewrite memory_at_buf. simpl. rewrite app_nil_r in Hw.
  split_and!; [|done|done|done]. by rewrite Hs, Hw, app_nil_r.
Qed.

(** C21: on a buffered stream _fread of c bytes returns the bytes left in the buffer
    followed by those of the descriptor, up to c of them, however the kernel splits
    or interrupts the reads: what is left in the buffer and on the descriptor is the
    rest, the end-of-file flag is set exactly if fewer than c were there, and no
    other memory changes. *)
Theorem fread_in_order s f F u p (c : nat) :
  reliable sys → io_files s !! f = Some F → in_stream (memory s) F u →
  valid (memory s) p (Z.of_nat c) → outside_input F p (Z.of_nat c) → Z.of_nat c < 2 ^ 64 →
  (2 * c + 1 + budget (io_kernel s) < fuel)%nat →
  let avail := u ++ inp (_IO_fileno F) (io_kernel s) in
  ∃ s' F' u', _fread sys fuel true p (Z.of_nat c) f s = Ret (Z.of_nat (length (take c avail))) s' ∧
  bytes_at (memory s') p (take c avail) ∧ io_files s' = <[f := F']> (io_files s) ∧ in_stream (memory s') F' u' ∧
  u' ++ inp (_IO_fileno F) (io_kernel s') = drop c avail ∧
  _IO_eof F' = _IO_eof F || bool_decide (length avail < c)%nat ∧ _IO_error F' = _IO_error F ∧
  ∀ a, a < p ∨ p + Z.of_nat c ≤ a → a < f_buf F ∨ f_buf F + bufsiz F + _IO_UNGET_SLOP ≤ a →
    memory s' !! a = memory s !! a.
Proof.
  intros Hrel HF His Hv Hout Hc Hfuel avail.
  destruct (run_fread_loop fuel s f F u p 0 c) as (r & s' & Hrun & Hr); [done..|lia|case_decide; lia|].
  pose proof (read_up_to_take _ _ _ _ _ _ _ _ Hr) as Htake. fold avail in Htake. rewrite <-Htake.
  destruct Hr as (k & e & m & F' & u' & l & -> & (Hsame & Herr & _) & (_ & _ & Hk & _) & Hru & Hrp & His' & [Hm _] & Hlen).
  exists (at_buf s f k e m F'), F', u'. rewrite memory_at_buf.
  assert (avail = r ++ u' ++ inp (_IO_fileno F) k) as Havail by (unfold avail; by rewrite Hk, app_assoc, <-Hru, <-app_assoc).
  split_and!; [|done|done|done| | |done|done].
  - unfold _fread, _fread_orig. destruct (Z.eqb_spec (Z.of_nat c) 0) as [Hz|Hnz].
    + destruct c; [|lia]. destruct fuel; [lia|]. rewrite run_loop in Hrun. exact Hrun.
    + rewrite run_bind, (run_file s f F HF). cbn beta iota. rewrite (is_obytes _ _ _ His). exact Hrun.
  - change (io_kernel _) with k. rewrite Havail. destruct Hlen as [[<- _]|(? & _ & -> & ->)]; [by rewrite drop_app_length|].
    rewrite !app_nil_r, drop_ge by lia. done.
  - destruct Hlen as [[Hl ->]|(Hl & -> & -> & Hend)]; rewrite Havail.
    + rewrite bool_decide_false, orb_false_r; [done|]. rewrite length_app. lia.
    + rewrite Hend, !app_nil_r, bool_decide_true, orb_true_r by lia. done.
Qed.
End stdio.

(** ** A kernel *)

(** Descriptors with their output and input, and how much each call to come
    handles: 0 is an interruption, and an exhausted script handles everything. *)
Record script_kernel := { sk_out : gmap Z (list Z); sk_in : gmap Z (list Z); sk_script : list nat }.

(** The kernel takes up to [n] of the bytes. *)
Definition script_accept (fd : Z) (l : list Z) (k : script_kernel) (n : nat) (rest : list nat) : Z * Z * script_kernel :=
  (Z.of_nat (length (take n l)), 0,
   {| sk_out := <[fd := default [] (sk_out k !! fd) ++ take n l]> (sk_out k); sk_in := sk_in k; sk_script := rest |}).

Definition script_write (fd : Z) (l : list Z) (k : script_kernel) : Z * Z * script_kernel :=
  match sk_script k with
  | [] => script_accept fd l k (length l) []
  | O :: rest => (-1, EINTR, {| sk_out := sk_out k; sk_in := sk_in k; sk_script := rest |})
  | n :: rest => script_accept fd l k n rest
  end.

Definition script_out (fd : Z) (k : script_kernel) : list Z := default [] (sk_out k !! fd).

Definition script_inp (fd : Z) (k : script_kernel) : list Z := u8 <$> default [] (sk_in k !! fd).

(** The kernel hands out up to [c] bytes. *)
Definition script_hand (fd : Z) (k : script_kernel) (c : nat) (rest : list nat) : Z * Z * list Z * script_kernel :=
  (Z.of_nat (length (take c (script_inp fd k))), 0, take c (script_inp fd k),
   {| sk_out := sk_out k; sk_in := <[fd := drop c (default [] (sk_in k !! fd))]> (sk_in k); sk_script := rest |}).

Definition script_read (fd n : Z) (k : script_kernel) : Z * Z * list Z * script_kernel :=
  match sk_script k with
  | [] => script_hand fd k (Z.to_nat n) []
  | O :: rest => (-1, EAGAIN, [], {| sk_out := sk_out k; sk_in := sk_in k; sk_script := rest |})
  | c :: rest => script_hand fd k (Nat.min c (Z.to_nat n)) rest
  end.

Definition script_sys : syscalls script_kernel :=
  {| sys_write := script_write; sys_read := script_read;
     sys_lseek := λ _ _ _ k, (-1, 29, k); sys_open := λ _ _ k, (-1, 2, k); sys_close := λ _ k, (0, 0, k) |}.

Lemma script_accept_cases fd l k n rest :
  (l ≠ [] → 0 < n)%nat → (length rest ≤ length (sk_script k))%nat →
  ∃ rv k', script_accept fd l k n rest = (rv, 0, k') ∧ sk_in k' = sk_in k ∧
  (length (sk_script k') ≤ length (sk_script k))%nat ∧ 0 ≤ rv ≤ Z.of_nat (length l) ∧ (l ≠ [] → rv ≠ 0) ∧
  sk_out k' = <[fd := script_out fd k ++ take (Z.to_nat rv) l]> (sk_out k).
Proof.
  intros Hn Hrest. unfold script_accept. eexists _, _. split; [done|]. cbn [sk_in sk_out sk_script].
  rewrite Nat2Z.id, length_take. split_and!; [done|done|lia|lia| |].
  - intros Hl. specialize (Hn Hl). destruct l; [done|cbn [length]; lia].
  - f_equal. unfold script_out. f_equal. rewrite <-take_take. f_equal. by rewrite firstn_all.
Qed.

Lemma script_write_cases fd l k rv e k' :
  script_write fd l k = (rv, e, k') →
  sk_in k' = sk_in k ∧ (length (sk_script k') ≤ length (sk_script k))%nat ∧
  (rv = -1 ∧ e = EINTR ∧ sk_out k' = sk_out k ∧ (length (sk_script k') < length (sk_script k))%nat ∨
   0 ≤ rv ≤ Z.of_nat (length l) ∧ (l ≠ [] → rv ≠ 0) ∧
   sk_out k' = <[fd := script_out fd k ++ take (Z.to_nat rv) l]> (sk_out k)).
Proof.
  unfold script_write. destruct (sk_script k) as [|[|n] rest] eqn:E.
  - destruct (script_accept_cases fd l k (length l) []) as (rv' & k1 & -> & Hc);
      [destruct l; simpl; [done|lia]|simpl; lia|]. rewrite E in Hc. intros [= <- <- <-]. naive_solver.
  - intros [= <- <- <-]. simpl. split_and!; [done|lia|left]. split_and!; [done|done|done|lia].
  - destruct (script_accept_cases fd l k (S n) rest) as (rv' & k1 & -> & Hc); [lia|rewrite E; simpl; lia|].
    rewrite E in Hc. intros [= <- <- <-]. naive_solver.
Qed.

Lemma script_read_cases fd n k rv e l k' :
  0 ≤ n → script_read fd n k = (rv, e, l, k') →
  sk_out k' = sk_out k ∧ (length (sk_script k') ≤ length (sk_script k))%nat ∧
  (rv = -1 ∧ e = EAGAIN ∧ l = [] ∧ sk_in k' = sk_in k ∧ (length (sk_script k') < length (sk_script k))%nat ∨
   ∃ c, (c ≤ Z.to_nat n)%nat ∧ (0 < n → (0 < c)%nat) ∧ l = take c (script_inp fd k) ∧ rv = Z.of_nat (length l) ∧
   sk_in k' = <[fd := drop c (default [] (sk_in k !! fd))]> (sk_in k)).
Proof.
  intros Hn. unfold script_read. destruct (sk_script k) as [|[|c] rest].
  - intros [= <- <- <- <-]. split_and!; [done|simpl; lia|right]. exists (Z.to_nat n). split_and!; done || lia.
  - intros [= <- <- <- <-]. simpl. split_and!; [done|lia|left]. split_and!; [done..|lia].
  - set (c' := Nat.min (S c) (Z.to_nat n)). assert ((c' ≤ Z.to_nat n)%nat ∧ (0 < n → (0 < c')%nat)) as [? ?] by (subst c'; lia).
    clearbody c'. intros [= <- <- <- <-]. simpl. split_and!; [done|lia|right]. exists c'. split_and!; done || lia.
Qed.

Lemma script_ok : syscalls_ok script_sys script_out script_inp (λ k, length (sk_script k)).
Proof.
  split.
  - intros fd l k rv e k' Hw. destruct (script_write_cases fd l k rv e k' Hw) as (Hi & Hb & Hc).
    unfold script_out, script_inp. rewrite Hi. destruct Hc as [(-> & -> & -> & Hlt)|(Hrv & _ & ->)]; split_and!; try done.
    + by left.
    + intros d Hd. by rewrite lookup_insert_ne.
    + right. by rewrite lookup_insert_eq.
  - intros fd n k rv e l k' Hn Hr. destruct (script_read_cases fd n k rv e l k' Hn Hr) as (Ho & Hb & Hc).
    unfold script_out. rewrite Ho. destruct Hc as [(-> & -> & -> & Hi & Hlt)|(c & Hcn & Hc0 & -> & -> & Hi)];
      unfold script_inp; rewrite Hi; split_and!; try done.
    + by left.
    + intros d Hd. by rewrite lookup_insert_ne.
    + right. rewrite lookup_insert_eq. simpl. rewrite length_take. split_and!; try lia; try done.
      * by rewrite fmap_drop, take_drop.
      * apply Forall_take, Forall_fmap, Forall_true. intros x. apply u8_is_byte.
      * intros Hz Hpos. apply length_zero_iff_nil. lia.
  - intros fd k rv e k' Hc. simpl in Hc. by simplify_eq.
Qed.

Lemma script_reliable : reliable script_sys.
Proof.
  split.
  - intros fd l k rv e k' Hw. destruct (script_write_cases fd l k rv e k' Hw) as (_ & _ & [(-> & -> & _)|(? & ? & _)]);
      split; try done; [by left|lia].
  - intros fd n k rv e l k' Hr ->. unfold sys_read, script_sys, script_read in Hr.
    destruct (sk_script k) as [|[|c] rest]; unfold script_hand in Hr; [|by right; simplify_eq|];
      apply (f_equal (λ r, r.1.1.1)) in Hr; cbn [fst] in Hr; lia.
Qed.

(** *** A stream with a buffer of four bytes *)

Definition demo_file (mode : _IO_bufmode) (fd i o : Z) : _IO_file_pvt :=
  {| _IO_fileno := fd; _IO_eof := false; _IO_error := false; f_prev := 0; f_next := 0;
     f_buf := 1000; f_data := 1032; ibytes := i; obytes := o; bufsiz := 4; bufmode := mode |}.

(** "hi\nyou" at 100, the buffer at 1000 with "ab" at its start and "xy" at its
    input position. *)
Definition demo_mem : mem :=
  write_bytes (write_bytes (write_bytes (write_bytes ∅ 1000 (replicate 36 0)) 1000 [97; 98]) 1032 [120; 121])
    100 [104; 105; 10; 121; 111; 117].

Definition demo_io (F : _IO_file_pvt) (script : list nat) : io static_heap script_kernel :=
  {| io_heap := {| heap := 4096; heapcnt := 0; heap_mem := demo_mem |}; io_files := {[ 5000 := F ]};
     io_kernel := {| sk_out := ∅; sk_in := {[ 0 := [113; 114; 115; 116; 117; 118; 119] ]}; sk_script := script |};
     io_errno := 0; stdin := 0; stdout := 0; stderr := 0 |}.

Lemma demo_out_stream mode : out_stream demo_mem (demo_file mode 1 0 2) [97; 98].
Proof. by split; try (simpl; lia); by_decide. Qed.

Lemma demo_in_stream : in_stream demo_mem (demo_file _IOFBF 0 2 0) [120; 121].
Proof. by split; unfold _IO_UNGET_SLOP; simpl; try lia; by_decide. Qed.

Lemma fwrite_in_order_witness :
  ∃ s' pend' w, _fwrite script_sys 100 true 100 6 5000 (demo_io (demo_file _IOLBF 1 0 2) [1; 0; 2]%nat) = Ret 6 s' ∧
  script_out 1 (io_kernel s') = w ∧ w ++ pend' = [97; 98; 104; 105; 10; 121; 111; 117] ∧ 10 ∉ pend'.
Proof.
  destruct (@fwrite_in_order static_heap script_kernel _ static_laws script_sys 100 script_out script_inp _ script_ok
    (demo_io (demo_file _IOLBF 1 0 2) [1; 0; 2]%nat) 5000 (demo_file _IOLBF 1 0 2) 100 [104; 105; 10; 121; 111; 117] [97; 98])
    as (s' & pend' & w & Hrun & _ & _ & (_ & _ & Hs & _) & Hw & Hk & _).
  - exact script_reliable.
  - reflexivity.
  - exact (demo_out_stream _IOLBF).
  - lia.
  - by_decide.
  - left. simpl. lia.
  - simpl. lia.
  - simpl. lia.
  - exists s', pend', w. split; [exact Hrun|]. split; [exact Hs|]. split; [exact Hw|]. apply Hk. by_decide.
Defined.

Lemma fwrite_fflush_delivers_witness :
  ∃ s', (fwrite_each script_sys 100 5000 [(100, [104; 105; 10]); (103, [121; 111; 117])];;
         fflush script_sys 100 true 0 5000) (demo_io (demo_file _IOFBF 1 0 2) [1; 0; 2]%nat) = Ret 0 s' ∧
  script_out 1 (io_kernel s') = [97; 98; 104; 105; 10; 121; 111; 117].
Proof.
  destruct (@fwrite_fflush_delivers static_heap script_kernel _ static_laws script_sys 100 script_out script_inp _ script_ok
    (demo_io (demo_file _IOFBF 1 0 2) [1; 0; 2]%nat) 5000 (demo_file _IOFBF 1 0 2) [97; 98]
    [(100, [104; 105; 10]); (103, [121; 111; 117])]) with (head := 0) as (s' & Hrun & Hs & _).
  - exact script_reliable.
  - discriminate.
  - reflexivity.
  - exact (demo_out_stream _IOFBF).
  - apply Forall_cons; split; [|apply Forall_cons; split; [|exact (Forall_nil_2 _)]];
      (split; [simpl; lia|split; [by_decide|split; [left; simpl; lia|split; simpl; lia]]]).
  - simpl. lia.
  - exact (ex_intro _ s' (conj Hrun Hs)).
Defined.

Lemma fread_in_order_witness :
  ∃ s', _fread script_sys 100 true 100 5 5000 (demo_io (demo_file _IOFBF 0 2 0) [0; 1; 2]%nat) = Ret 5 s' ∧
  bytes_at (amem (io_heap s')) 100 [120; 121; 113; 114; 115].
Proof.
  destruct (@fread_in_order static_heap script_kernel _ static_laws script_sys 100 script_out script_inp _ script_ok
    (demo_io (demo_file _IOFBF 0 2 0) [0; 1; 2]%nat) 5000 (demo_file _IOFBF 0 2 0) [120; 121] 100 5)
    as (s' & F' & u' & Hrun & Hb & _).
  - exact script_reliable.
  - reflexivity.
  - exact demo_in_stream.
  - by_decide.
  - left. unfold _IO_UNGET_SLOP. simpl. lia.
  - simpl. lia.
  - simpl. lia.
  - exact (ex_intro _ s' (conj Hrun Hb)).
Defined.

(** *** Pushing back *)

Section unget.
Context {S K : Type} `{AllocatorLaws S} (sys : syscalls K) (fuel : nat).

(** A byte pushed back on a stream that has room before its input is the next one
    read, and reading it leaves the stream as it was. *)
Lemma ungetc_fgetc (ch c f : Z) (s : io S K) F u :
  io_files s !! f = Some F → in_stream (amem (io_heap s)) F u → f_buf F < f_data F → is_byte c →
  ∃ s', ungetc true c f s = Ret c s' ∧ ∃ s'', fgetc sys fuel true ch f s' = Ret c s'' ∧
  io_files s'' = io_files s ∧ amem (io_heap s'') = <[f_data F - 1 := c]> (amem (io_heap s)).
Proof.
  intros HF [Ho Hb Hi Hd Hin Hv] Hroom Hc. unfold ungetc, ungetc_orig. rewrite run_bind, (run_file s f F HF). cbn beta iota.
  rewrite Ho, (proj2 (Z.leb_gt _ _)) by lia. change (negb (0 =? 0) || false) with false. cbn iota.
  rewrite run_bind, (run_iomem _ _ tt (<[f_data F - 1 := c]> (amem (io_heap s)))).
  2: { rewrite run_store8, u8_byte by done || (replace (f_data F - 1) with (f_buf F + (f_data F - 1 - f_buf F)) by lia;
         apply Hv; unfold _IO_UNGET_SLOP in *; lia). done. }
  cbn beta iota. rewrite run_bind, (run_update _ f F) by done. cbn beta iota. eexists. split; [done|].
  unfold _IO_UNGET_SLOP in *.
  unfold fgetc, fgetc_orig. rewrite run_bind. unfold file. cbn [set_files set_io_heap io_files]. rewrite lookup_insert_eq. cbn beta iota.
  cbn [ibytes set_input f_data]. rewrite Hi, wrap_small by lia. rewrite (proj2 (Z.eqb_neq _ 0)) by lia. cbn [negb].
  rewrite run_bind, (run_update _ f (set_input (f_data F - 1) (Z.of_nat (length u) + 1) F)) by apply lookup_insert_eq.
  cbn beta iota. eexists. split; [apply run_iomem_read, run_load8; simpl; rewrite amem_set; apply lookup_insert_eq|].
  split; [|simpl; by rewrite amem_set]. simpl. rewrite insert_insert_eq.
  replace (set_input _ _ _) with F; [by apply insert_id|]. destruct F; simpl in *. unfold set_input. simpl. f_equal; lia.
Qed.
End unget.

(** *** Where the code departs from its purpose *)

(** A kernel whose second write fails with [EIO]: what has been written, and how
    many calls. *)
Definition failing_sys : syscalls (list Z * nat) :=
  {| sys_write := λ _ l k, match k.2 with
       | O => (1, 0, (k.1 ++ take 1 l, 1%nat))
       | S O => (-1, 5, (k.1, 2%nat))
       | _ => (Z.of_nat (length l), 0, (k.1 ++ l, k.2))
       end;
     sys_read := λ _ _ k, (0, 0, [], k); sys_lseek := λ _ _ _ k, (-1, 29, k); sys_open := λ _ _ k, (-1, 2, k);
     sys_close := λ _ k, (0, 0, k) |}.

Definition failing_io : io static_heap (list Z * nat) :=
  {| io_heap := {| heap := 4096; heapcnt := 0; heap_mem := demo_mem |};
     io_files := {[ 5000 := demo_file _IOFBF 1 0 2 ]}; io_kernel := ([], O);
     io_errno := 0; stdin := 0; stdout := 0; stderr := 0 |}.

(** [__fflush] forgets how far it got: a flush that fails after a partial write
    leaves the count of what is left but not its place, and the next one sends the
    start of the buffer again: "aa" for "ab". *)
Lemma fflush_resends :
  match (r1 ← __fflush failing_sys 10 5000; r2 ← __fflush failing_sys 10 5000; mret (r1, r2)) failing_io with
  | Ret r s => Some (r, (io_kernel s).1)
  | _ => None
  end = Some ((EOF, 0), [97; 97]).
Proof. by vm_compute. Qed.
