(* ===== verification/Format.v ===== *)
(** * The printf family: [vfprintf.c], [vprintf.c], [fprintf.c], [printf.c],
    [snprintf.c], [sprintf.c], [vsprintf.c], [vasprintf.c], [asprintf.c],
    [sscanf.c], [strerror.c], [perror.c]

    The wrappers that put [vsnprintf] in front of the streams or of the allocator.
    A variadic function and the version that takes a [va_list] are the same
    function here: the argument list is a list of words in both.  A local array is
    at an address given as an argument. *)

From Stdlib Require Import List.
From stdpp Require Import base tactics numbers list gmap.
From S2P Require Import Prelude Memory Words MemFns StrFns Numbers Alloc StaticHeap Printf PrintfSpec Scanf Stdio StdioSpec.

Open Scope Z_scope.

Definition BUFFER_SIZE : Z := 32768.

(** ** Strings *)

Definition snprintf (buffer n format : Z) (ap : list Z) : C mem Z := vsnprintf buffer n format ap.

Definition vsprintf (buffer format : Z) (ap : list Z) : C mem Z := vsnprintf buffer ULONG_MAX format ap.

Definition sprintf (buffer format : Z) (ap : list Z) : C mem Z := vsnprintf buffer ULONG_MAX format ap.

Definition sscanf (KLIBC_STREAMS_ORIG : bool) (str format : Z) (ap : list Z) : C mem (option Z) :=
  vsscanf KLIBC_STREAMS_ORIG str format ap.

(** ** Allocated strings *)

Section alloc.
Context {S : Type} `{Allocator S}.

(** [bytes] is an [int], converted to [size_t] at the calls. *)
Definition vasprintf (bufp format : Z) (ap : list Z) : C S Z :=
  n ← on_mem (vsnprintf NULL 0 format ap);
  let bytes := s32 (n + 1) in
  p ← a_malloc (u64 bytes);
  on_mem (store64 bufp p);;
  if p =? NULL then mret (-1) else
  on_mem (vsnprintf p (u64 bytes) format ap).

Definition asprintf (bufp format : Z) (ap : list Z) : C S Z := vasprintf bufp format ap.
End alloc.

(** ** Error messages *)

(** The digits of [e] below [p], from right to left. *)
Definition error_digits (p e : Z) : C mem Z :=
  loop 11 (λ '(p, e),
    let p := p - 1 in
    store8 p (e mod 10 + 48);;
    let e := e / 10 in
    if e =? 0 then Break p else Next (p, e)) (p, e).

(** [sys_errlist] is generated: it is the argument [errlist], the addresses of the
    messages; [message] and [numbuf] are the addresses of the two arrays. *)
Definition strerror (errlist : Z → option Z) (message numbuf errnum : Z) : C mem Z :=
  let e := u32 errnum in
  match errlist e with
  | Some msg => mret msg
  | None =>
      let p := numbuf + 32 - 1 in
      store8 p 0;;
      p ← error_digits p e;
      memcpy (message + 6) p (numbuf + 32 - p);;
      mret message
  end.

(** ** Streams *)

Section streams.
Context {S K : Type} `{Allocator S}.
Context (sys : syscalls K) (fuel : nat) (KLIBC_STREAMS_ORIG : bool).

(** [buffer] is the address of the local array. *)
Definition vfprintf (buffer file format : Z) (ap : list Z) : C (io S K) Z :=
  rv ← iomem (vsnprintf buffer BUFFER_SIZE format ap);
  if rv <? 0 then mret rv else
  let rv := if BUFFER_SIZE - 1 <? rv then BUFFER_SIZE - 1 else rv in
  r ← _fwrite sys fuel KLIBC_STREAMS_ORIG buffer (u64 rv) file;
  mret (s32 r).

Definition fprintf (buffer file format : Z) (ap : list Z) : C (io S K) Z := vfprintf buffer file format ap.

Definition vprintf (buffer format : Z) (ap : list Z) : C (io S K) Z :=
  s ← get; vfprintf buffer (stdout s) format ap.

Definition printf (buffer format : Z) (ap : list Z) : C (io S K) Z :=
  s ← get; vfprintf buffer (stdout s) format ap.

(** [sep] and [newline] are the addresses of the two string constants. *)
Definition perror (errlist : Z → option Z) (message numbuf sep newline str : Z) : C (io S K) unit :=
  s ← get;
  let e := io_errno s in
  fputs sys fuel KLIBC_STREAMS_ORIG str (stderr s);;
  fputs sys fuel KLIBC_STREAMS_ORIG sep (stderr s);;
  msg ← iomem (strerror errlist message numbuf e);
  fputs sys fuel KLIBC_STREAMS_ORIG msg (stderr s);;
  fputs sys fuel KLIBC_STREAMS_ORIG newline (stderr s);;
  mret tt.
End streams.

(** ** The text of a format is made of bytes *)

Section bytes.
Implicit Types (flags base width prec val : Z).

Lemma default_byte (l : list Z) (i : nat) : Forall is_byte l → is_byte (default 0 (l !! i)).
Proof.
  intros Hl. destruct (l !! i) as [c|] eqn:E; simpl; [|unfold is_byte; lia].
  by eapply (Forall_lookup_1 _ _ _ _ Hl).
Qed.

Lemma ticked_bytes digits base tickskip k b4 val :
  Forall is_byte digits → Forall is_byte (ticked digits base tickskip k b4 val).
Proof.
  intros Hd. revert b4 val. induction k as [|k IH]; intros b4 val; simpl; [done|].
  case_match; repeat (apply Forall_cons; split); try by apply IH || apply default_byte. unfold is_byte. lia.
Qed.

Lemma digit_chars_bytes flags : Forall is_byte (digit_chars flags).
Proof. unfold digit_chars. case_match; by_decide. Qed.

Lemma int_text_bytes val flags base width prec : Forall is_byte (int_text val flags base width prec).
Proof.
  assert (Forall is_byte (int_sign val flags)) by (unfold int_sign; repeat case_match; by_decide).
  assert (Forall is_byte (int_radix flags base)) by (unfold int_radix; repeat case_match; by_decide).
  assert (Forall is_byte (int_body val flags base prec))
    by (apply Forall_reverse, ticked_bytes, digit_chars_bytes).
  unfold int_text, int_padding.
  repeat case_match; rewrite !Forall_app; split_and!; try done; apply Forall_replicate; unfold is_byte; lia.
Qed.

Lemma string_text_bytes t flags width prec : Forall is_byte t → Forall is_byte (string_text t flags width prec).
Proof.
  intros Ht. unfold string_text.
  assert (Forall is_byte (if prec =? -1 then t else take (Z.to_nat prec) t)) by (case_match; [done|by apply Forall_take]).
  repeat case_match; rewrite !Forall_app; split; try done; apply Forall_replicate; unfold is_byte; lia.
Qed.

Lemma conv_text_bytes str conv flags rank width prec a t :
  (∀ p t, str p = Some t → Forall is_byte t) →
  conv_text str conv flags rank width prec a = Some t → Forall is_byte t.
Proof.
  intros Hstr Ht. unfold conv_text in Ht.
  repeat (case_match; simplify_eq; auto using int_text_bytes; try by_decide).
  - apply string_text_bytes. repeat constructor; apply u8_is_byte.
  - apply string_text_bytes. by_decide.
  - apply bind_Some in Ht as (u & Hu & Ht). simplify_eq. apply string_text_bytes. by eapply Hstr.
Qed.

Lemma render_bytes str f ap out :
  (∀ p t, str p = Some t → Forall is_byte t) → Forall wf_item f →
  render str f ap = Some out → Forall is_byte out.
Proof.
  intros Hstr Hf. revert ap out. induction Hf as [|[c|d] f Hi Hf IH]; intros ap out Hr; simpl in Hr.
  - by simplify_eq.
  - apply bind_Some in Hr as (t & Ht & Hr). simplify_eq. constructor; [simpl in Hi; unfold is_byte; lia|by eapply IH].
  - apply bind_Some in Hr as ([t ap'] & Ht & Hr). apply bind_Some in Hr as (t' & Ht' & Hr). simplify_eq.
    apply Forall_app. split; [|by eapply IH]. unfold directive_text in Ht.
    apply bind_Some in Ht as ([[w fl] ap1] & _ & Ht). apply bind_Some in Ht as ([pr ap2] & _ & Ht).
    case_match; simplify_eq; [by_decide|]. case_match; simplify_eq.
    apply bind_Some in Ht as (t2 & Ht2 & Ht). simplify_eq. by eapply conv_text_bytes.
Qed.
End bytes.

(** ** Running *)

Lemma run_snprintf m buffer n str f format ap out :
  0 ≤ n → valid m buffer n → strings_ok m buffer n str →
  Forall wf_item f → cstr m format (format_chars f) →
  disjoint_ranges buffer n format (Z.of_nat (length (format_chars f)) + 1) →
  render str f ap = Some out → Z.of_nat (length out) < 2 ^ 31 →
  vsnprintf buffer n format ap m =
  Ret (Z.of_nat (length out))
      (if bool_decide (n = 0) then m else write_bytes m buffer (take (Z.to_nat (n - 1)) out ++ [0])).
Proof.
  intros Hn Hv Hs Hwf Hf Hd Hr Hlen.
  rewrite (run_vsnprintf m buffer n str Hn Hv Hs f format ap out), sext_small by done || lia. done.
Qed.

Lemma strings_bytes m buffer n str : strings_ok m buffer n str → ∀ p t, str p = Some t → Forall is_byte t.
Proof. intros Hs p t Ht. destruct (Hs p t Ht) as (Hc & _). by eapply bytes_at_is_byte, cstr_bytes. Qed.

(** *** On streams *)

Section vfprintf.
Context {S K : Type} `{AllocatorLaws S}.
Context (sys : syscalls K) (fuel : nat).
Context (out inp : Z → K → list Z) (budget : K → nat).
Context (Hsys : syscalls_ok sys out inp budget).
Implicit Types (s : io S K) (F : _IO_file_pvt) (pend t : list Z).

(** A write elsewhere leaves the stream as it is. *)
Lemma out_stream_write m F pend p l :
  out_stream m F pend → outside F p (Z.of_nat (length l)) → out_stream (write_bytes m p l) F pend.
Proof.
  intros [Hi Hb Ho Hf Hp Hv] Hd. constructor; [done|done|done|done| |by apply write_bytes_valid].
  apply write_bytes_frame; [done|]. unfold outside, disjoint_ranges in *. lia.
Qed.

(** C22: fprintf renders its format and puts the text, cut at 32767 characters, on the
    stream: what went out and what is pending is what was pending and the text, in
    order, the result is the number of characters, and only the stream, its buffer
    and the local array change. *)
Theorem fprintf_prints s file F pend buffer str f format ap text :
  let t := take (Z.to_nat (BUFFER_SIZE - 1)) text in
  reliable sys → io_files s !! file = Some F → out_stream (amem (io_heap s)) F pend →
  0 < buffer → valid (amem (io_heap s)) buffer BUFFER_SIZE → outside F buffer BUFFER_SIZE →
  strings_ok (amem (io_heap s)) buffer BUFFER_SIZE str →
  Forall wf_item f → cstr (amem (io_heap s)) format (format_chars f) →
  disjoint_ranges buffer BUFFER_SIZE format (Z.of_nat (length (format_chars f)) + 1) →
  render str f ap = Some text → Z.of_nat (length text) < 2 ^ 31 →
  (Z.to_nat BUFFER_SIZE + Z.to_nat (bufsiz F) + budget (io_kernel s) < fuel)%nat →
  ∃ s' pend' w, fprintf sys fuel true buffer file format ap s = Ret (Z.of_nat (length t)) s' ∧
  io_files s' = <[file := set_obytes (Z.of_nat (length pend')) F]> (io_files s) ∧
  out_stream (amem (io_heap s')) (set_obytes (Z.of_nat (length pend')) F) pend' ∧
  sent out inp budget (_IO_fileno F) (io_kernel s) (io_kernel s') w ∧ w ++ pend' = pend ++ t ∧
  kept F pend t pend' ∧
  ∀ a, a < f_buf F ∨ f_buf F + bufsiz F ≤ a → a < buffer ∨ buffer + BUFFER_SIZE ≤ a →
    amem (io_heap s') !! a = amem (io_heap s) !! a.
Proof.
  intros t Hrel HF Hos Hpos Hv Hout Hstr Hwf Hfmt Hdis Hren Hlen Hfuel. unfold BUFFER_SIZE in *.
  assert (Z.of_nat (length t) = Z.min 32767 (Z.of_nat (length text))) as Hlt by (subst t; rewrite length_take; lia).
  pose proof (run_snprintf _ buffer 32768 str f format ap text ltac:(lia) Hv Hstr Hwf Hfmt Hdis Hren Hlen) as Hrun.
  change (if bool_decide (32768 = 0) then _ else _) with (write_bytes (amem (io_heap s)) buffer (t ++ [0])) in Hrun.
  set (s1 := set_io_heap (set_amem (write_bytes (amem (io_heap s)) buffer (t ++ [0])) (io_heap s)) s).
  assert (amem (io_heap s1) = write_bytes (amem (io_heap s)) buffer (t ++ [0])) as Hm1 by apply amem_set.
  assert (Forall is_byte t) as Hbt by (apply Forall_take; eapply render_bytes; [by eapply strings_bytes|done|done]).
  assert (outside F buffer (Z.of_nat (length (t ++ [0])))) as Hout1
    by (rewrite length_app; simpl; unfold outside, disjoint_ranges in *; lia).
  destruct (run_fwrite_orig sys fuel out inp budget Hsys s1 file F buffer t pend Hrel HF)
    as (s' & pend' & Hw & (k & e & m & w & -> & Hs & Hwp & Hos' & Hbuf) & Hk).
  - rewrite Hm1. by apply out_stream_write.
  - done.
  - rewrite Hm1. apply (bytes_at_app _ _ t [0]), write_bytes_at, Forall_app. split; [done|by_decide].
  - unfold outside, disjoint_ranges in *. lia.
  - lia.
  - simpl. lia.
  - exists (at_buf s1 file k e m (set_obytes (Z.of_nat (length pend')) F)), pend', w.
    rewrite memory_at_buf. split_and!; [|done|done|done|done|done|].
    + unfold fprintf, vfprintf, BUFFER_SIZE. rewrite run_bind, (run_iomem _ _ _ _ Hrun). cbn beta iota.
      rewrite (proj2 (Z.ltb_ge _ 0)) by lia. fold s1.
      replace (if 32768 - 1 <? _ then _ else _) with (Z.of_nat (length t)) by (case_match eqn:E; lia).
      rewrite wrap_small by lia. unfold _fwrite. rewrite run_bind, Hw. cbn beta iota. by rewrite run_ret, sext_small by lia.
    + intros a Ha Hb. rewrite (Hbuf a Ha), Hm1. apply lookup_write_bytes_out. rewrite length_app. simpl. lia.
Qed.
End vfprintf.

(** *** In allocated memory *)

Section asprintf.
Context {S : Type} `{AllocatorLaws S}.
Implicit Types (s : S) (live : list block).

(** The strings are in memory that is in use. *)
Definition strings_in_use s g (str : Z → option (list Z)) : Prop :=
  ∀ p t, str p = Some t →
  cstr (amem s) p t ∧ in_use g p (Z.of_nat (length t) + 1) ∧ Z.of_nat (length t) < 2 ^ 31.

(** Memory in use, and apart from a range, keeps its contents. *)
Definition keeps s g s' (g' : ghost) (p n : Z) : Prop :=
  ∀ q l, l ≠ [] → in_use g q (Z.of_nat (length l)) → disjoint_ranges p n q (Z.of_nat (length l)) →
  bytes_at (amem s) q l → bytes_at (amem s') q l ∧ in_use g' q (Z.of_nat (length l)).

Lemma cstr_in_use s g s' g' p n q t :
  keeps s g s' g' p n → cstr (amem s) q t → in_use g q (Z.of_nat (length t) + 1) →
  disjoint_ranges p n q (Z.of_nat (length t) + 1) → cstr (amem s') q t.
Proof.
  intros Hk Hc Hu Hd. pose proof (length_app t [0]) as Hl. simpl in Hl.
  destruct (Hk q (t ++ [0])) as [Hb _]; [by destruct t| | |apply Hc|by split; [|apply Hc]];
    rewrite Hl; replace (Z.of_nat (length t + 1)) with (Z.of_nat (length t) + 1) by lia; done.
Qed.

(** The allocation and the store of its result. *)
Lemma run_malloc_store s g live n bufp (b8 : list Z) :
  heap_inv s g live → 0 ≤ n ≤ max_request → in_use g bufp 8 → bytes_at (amem s) bufp b8 → length b8 = 8%nat →
  ∃ p s2 g', (p ← a_malloc n; on_mem (store64 bufp p);; mret p) s = Ret p s2 ∧
  keeps s g s2 g' bufp 8 ∧ word (amem s2) bufp = Some p ∧ in_use g' bufp 8 ∧
  (p = NULL ∧ heap_inv s2 g' live ∨
   p ≠ NULL ∧ heap_inv s2 g' ((p, n) :: live) ∧ valid (amem s2) p n ∧ in_use g' p n ∧
   (∀ q l, l ≠ [] → in_use g q (Z.of_nat (length l)) → bytes_at (amem s) q l →
      disjoint_ranges p n q (Z.of_nat (length l)))).
Proof.
  intros Hs Hn Hu Hb Hl8. destruct (malloc_ok s g live n Hs Hn) as (p & s1 & g' & Hrun & Hkeep & Hcase).
  assert (b8 ≠ []) as Hne by (by destruct b8). assert (Z.of_nat (length b8) = 8) as Hl by lia.
  destruct (Hkeep bufp b8 Hne ltac:(by rewrite Hl) Hb) as [Hb1 Hu1]. rewrite Hl in Hu1.
  assert (valid (amem s1) bufp 8) as Hv1 by (rewrite <-Hl; by apply bytes_at_valid).
  assert (0 ≤ p < 2 ^ 64) as Hp.
  { destruct Hcase as [[-> _]|(_ & Hs1 & _)]; [unfold NULL; lia|].
    destruct (heap_inv_block s1 g' _ p n Hs1) as (_ & _ & ?); [left|]. lia. }
  exists p, (set_amem (put (amem s1) bufp p) s1), g'. rewrite amem_set. split_and!.
  - rewrite run_bind, Hrun. cbn beta iota. by rewrite run_bind, (run_on_mem _ _ _ _ (run_store64 _ _ p Hv1)).
  - intros q l Hl' Hq Hd Hbl. rewrite amem_set. destruct (Hkeep q l Hl' Hq Hbl) as [? ?]. split; [|done].
    apply write_bytes_frame; [done|]. by rewrite le_bytes_length.
  - by apply word_put_eq.
  - done.
  - destruct Hcase as [[-> Hs1]|(Hpn & Hs1 & Hd)]; [left; split; [done|by apply heap_inv_put]|right].
    destruct (heap_inv_block s1 g' _ p n Hs1) as (Hv & Hup & _); [left|].
    split_and!; [done|by apply heap_inv_put|by apply put_valid|done|done].
Qed.

(** C23: asprintf allocates a block of exactly the size of the rendered text and its
    terminator, leaves the text in it and its address in the caller's variable, and
    returns the length of the text; when the allocation fails it returns -1 and stores
    NULL; all other memory in use keeps its contents. *)
Theorem asprintf_allocates s g live bufp (b8 : list Z) str f format ap text :
  heap_inv s g live → strings_in_use s g str → Forall wf_item f →
  cstr (amem s) format (format_chars f) → in_use g format (Z.of_nat (length (format_chars f)) + 1) →
  0 ≤ format → (∀ p t, str p = Some t → 0 ≤ p) →
  in_use g bufp 8 → bytes_at (amem s) bufp b8 → length b8 = 8%nat →
  disjoint_ranges bufp 8 format (Z.of_nat (length (format_chars f)) + 1) →
  (∀ p t, str p = Some t → disjoint_ranges bufp 8 p (Z.of_nat (length t) + 1)) →
  render str f ap = Some text → Z.of_nat (length text) + 1 < 2 ^ 31 → Z.of_nat (length text) + 1 ≤ max_request →
  ∃ r p s' g', asprintf bufp format ap s = Ret r s' ∧ keeps s g s' g' bufp 8 ∧ word (amem s') bufp = Some p ∧
  (r = -1 ∧ p = NULL ∧ heap_inv s' g' live ∨
   r = Z.of_nat (length text) ∧ p ≠ NULL ∧ heap_inv s' g' ((p, Z.of_nat (length text) + 1) :: live) ∧
   bytes_at (amem s') p (text ++ [0])).
Proof.
  intros Hs Hstr Hwf Hf Hfu Hf0 Hp0 Hbu Hb8 Hl8 Hdf Hds Hr Hmax Hreq. unfold asprintf, vasprintf.
  set (n := Z.of_nat (length text) + 1) in *.
  assert (strings_ok (amem s) NULL 0 str) as Hok0.
  { intros p t Ht. destruct (Hstr p t Ht) as (? & _ & ?). split_and!; [done| |done]. left. unfold NULL.
    specialize (Hp0 p t Ht). lia. }
  pose proof (run_snprintf (amem s) NULL 0 str f format ap text ltac:(lia) ltac:(intros i Hi; lia) Hok0 Hwf Hf
    ltac:(left; unfold NULL; lia) Hr ltac:(lia)) as Hlen0.
  rewrite run_bind, (run_on_mem_read _ _ _ Hlen0). cbn beta iota. fold n. rewrite sext_small, wrap_small by lia.
  destruct (run_malloc_store s g live n bufp b8 Hs) as (p & s2 & g' & Hrun & Hkeep & Hw & Hbu' & Hcase);
    [lia|done|done|done|].
  rewrite run_bind in Hrun. rewrite run_bind. destruct (a_malloc n s) as [p' s1| |] eqn:E; [|done..].
  rewrite run_bind in Hrun |- *. destruct (on_mem (store64 bufp p') s1) as [[] s2'| |]; [|done..].
  rewrite run_ret in Hrun. injection Hrun as -> ->.
  destruct Hcase as [[-> Hs2]|(Hp & Hs2 & Hv & Hup & Hd)].
  { rewrite Z.eqb_refl. exists (-1), NULL, s2, g'. split_and!; [done|done|done|by left]. }
  rewrite (proj2 (Z.eqb_neq p NULL)) by done.
  assert (∀ q t, cstr (amem s) q t → in_use g q (Z.of_nat (length t) + 1) →
    disjoint_ranges bufp 8 q (Z.of_nat (length t) + 1) →
    cstr (amem s2) q t ∧ disjoint_ranges p n q (Z.of_nat (length t) + 1)) as Hstrs.
  { intros q t Hc Hu Hdq. split; [by eapply cstr_in_use|]. pose proof (length_app t [0]) as Hl. simpl in Hl.
    replace (Z.of_nat (length t) + 1) with (Z.of_nat (length (t ++ [0]))) in * by lia.
    apply Hd; [by destruct t|done|apply Hc]. }
  assert (strings_ok (amem s2) p n str) as Hok2.
  { intros q t Ht. destruct (Hstr q t Ht) as (Hc & Hu & ?). destruct (Hstrs q t Hc Hu (Hds q t Ht)). done. }
  destruct (Hstrs format (format_chars f) Hf Hfu Hdf) as [Hf2 Hdf2].
  pose proof (run_snprintf (amem s2) p n str f format ap text ltac:(lia) Hv Hok2 Hwf Hf2 Hdf2 Hr ltac:(lia)) as Hrun2.
  rewrite bool_decide_false, take_ge in Hrun2 by lia.
  assert (Z.of_nat (length (text ++ [0])) = n) as Hln by (rewrite length_app; simpl; lia).
  rewrite (run_on_mem _ _ _ _ Hrun2). eexists _, p, _, g'. split; [done|]. rewrite amem_set. split_and!.
  - intros q l Hl Hq Hdq Hbl. rewrite amem_set. destruct (Hkeep q l Hl Hq Hdq Hbl) as [? ?]. split; [|done].
    apply write_bytes_frame; [done|]. rewrite Hln. by apply Hd.
  - rewrite word_write_out; [done|]. rewrite Hln. replace 8 with (Z.of_nat (length b8)) in Hbu |- * by lia.
    apply Hd; [by destruct b8|done|done].
  - right. split_and!; [done|done| |].
    + apply heap_inv_write; [done|by rewrite Hln|by rewrite Hln].
    + apply write_bytes_at, Forall_app. split; [|by_decide]. eapply render_bytes; [by eapply strings_bytes|done|done].
Qed.
End asprintf.

(** *** Error numbers *)

(** The decimal digits of a number of at most [k] digits. *)
Fixpoint dec_digits (k : nat) (e : Z) : list Z :=
  match k with
  | O => []
  | Datatypes.S k => (if e / 10 =? 0 then [] else dec_digits k (e / 10)) ++ [e mod 10 + 48]
  end.

Lemma dec_digits_length k e : (length (dec_digits k e) ≤ k)%nat.
Proof.
  revert e. induction k as [|k IH]; intros e; simpl; [done|]. rewrite length_app. simpl.
  case_match; simpl; [lia|]. specialize (IH (e / 10)). lia.
Qed.

Lemma dec_digits_range k e : Forall (λ c, 48 ≤ c ≤ 57) (dec_digits k e).
Proof.
  revert e. induction k as [|k IH]; intros e; cbn [dec_digits]; [done|]. apply Forall_app. split.
  - by case_match.
  - repeat constructor; pose proof (Z.mod_pos_bound e 10); lia.
Qed.

Lemma dec_digits_value k e : (0 < k)%nat → 0 ≤ e < 10 ^ Z.of_nat k → digits_value 10 (dec_digits k e) = e.
Proof.
  revert e. induction k as [|k IH]; intros e Hk He; [lia|]. cbn [dec_digits]. rewrite digits_value_snoc.
  pose proof (Z.mod_pos_bound e 10 ltac:(lia)). pose proof (Z.div_mod e 10 ltac:(lia)).
  rewrite digitval_dec by lia.
  destruct (Z.eqb_spec (e / 10) 0) as [Hz|Hz]; [change (digits_value 10 []) with 0; lia|].
  destruct k; [simpl in He; assert (e / 10 = 0) by (apply Z.div_small; lia); lia|].
  rewrite IH; [lia|lia|]. rewrite Nat2Z.inj_succ, Z.pow_succ_r in He by lia. split; [apply Z.div_pos; lia|].
  apply Z.div_lt_upper_bound; lia.
Qed.

Lemma run_error_digits k fuel m p e :
  (0 < k ≤ fuel)%nat → 0 ≤ e < 10 ^ Z.of_nat k → valid m (p - Z.of_nat k) (Z.of_nat k) →
  loop fuel (λ '(p, e),
    let p := p - 1 in
    store8 p (e mod 10 + 48);;
    let e := e / 10 in
    if e =? 0 then Break p else Next (p, e)) (p, e) m =
  let ds := dec_digits k e in
  Ret (p - Z.of_nat (length ds)) (write_bytes m (p - Z.of_nat (length ds)) ds).
Proof.
  revert fuel m p e. induction k as [|k IH]; intros [|fuel] m p e Hk He Hv; try lia. rewrite run_loop. cbn beta iota zeta.
  pose proof (Z.mod_pos_bound e 10 ltac:(lia)) as Hmod.
  assert (is_Some (m !! (p - 1))) as Hp
    by (replace (p - 1) with (p - Z.of_nat (Datatypes.S k) + Z.of_nat k) by lia; apply Hv; lia).
  assert (is_byte (e mod 10 + 48)) by (unfold is_byte; lia).
  rewrite run_bind, run_store8, u8_byte by done.
  cbn beta iota. cbn [dec_digits]. destruct (Z.eqb_spec (e / 10) 0) as [Hz|Hz].
  { rewrite run_ret. simpl. done. }
  rewrite run_ret. destruct k as [|k]; [simpl in He; assert (e / 10 = 0) by (apply Z.div_small; lia); lia|].
  rewrite IH.
  - cbv zeta. set (ds := dec_digits (Datatypes.S k) (e / 10)). rewrite length_app.
    replace (p - Z.of_nat (length ds + length [e mod 10 + 48])) with (p - 1 - Z.of_nat (length ds)) by (cbn [length]; lia).
    f_equal. rewrite write_bytes_app. simpl. do 3 f_equal. lia.
  - lia.
  - rewrite Nat2Z.inj_succ, Z.pow_succ_r in He by lia. split; [apply Z.div_pos; lia|]. apply Z.div_lt_upper_bound; lia.
  - apply valid_insert. apply (valid_sub m (p - Z.of_nat (Datatypes.S (Datatypes.S k))) (Z.of_nat (Datatypes.S (Datatypes.S k)))); [done|lia|lia].
Qed.

(** An error number without a message: the array holds "error " and the number in
    decimal. *)
Lemma strerror_number errlist m message numbuf errnum :
  errlist (u32 errnum) = None → valid m numbuf 32 → valid m message 32 → bytes_at m message [101; 114; 114; 111; 114; 32] →
  disjoint_ranges message 32 numbuf 32 →
  ∃ m' ds, strerror errlist message numbuf errnum m = Ret message m' ∧
  cstr m' message ([101; 114; 114; 111; 114; 32] ++ ds) ∧
  Forall (λ c, 48 ≤ c ≤ 57) ds ∧ digits_value 10 ds = u32 errnum ∧
  ∀ a, (a < message ∨ message + 32 ≤ a) → (a < numbuf ∨ numbuf + 32 ≤ a) → m' !! a = m !! a.
Proof.
  intros He Hvn Hvm Hmsg Hd. unfold strerror. rewrite He. pose proof (wrap_range 32 errnum ltac:(lia)) as Hr.
  set (e := u32 errnum) in *. set (ds := dec_digits 10 e).
  assert (length ds ≤ 10)%nat as Hlen by apply dec_digits_length.
  pose proof (dec_digits_range 10 e : Forall _ ds) as Hds.
  assert (is_Some (m !! (numbuf + 31))) by (apply Hvn; lia).
  replace (numbuf + 32 - 1) with (numbuf + 31) by lia. rewrite run_bind, run_store8 by done. cbn beta iota. change (u8 0) with 0.
  set (m1 := <[numbuf + 31 := 0]> m).
  assert (valid m1 (numbuf + 31 - Z.of_nat 10) (Z.of_nat 10)) as Hv1
    by (apply valid_insert, (valid_sub m numbuf 32); [done|lia|lia]).
  pose proof (run_error_digits 10 11 m1 (numbuf + 31) e ltac:(lia) ltac:(simpl; lia) Hv1) as Hrun.
  change (error_digits (numbuf + 31) e m1 = let ds := dec_digits 10 e in
    Ret (numbuf + 31 - Z.of_nat (length ds)) (write_bytes m1 (numbuf + 31 - Z.of_nat (length ds)) ds)) in Hrun.
  rewrite run_bind, Hrun. cbv zeta. fold ds. set (p := numbuf + 31 - Z.of_nat (length ds)). set (m2 := write_bytes m1 p ds).
  assert (Forall is_byte (ds ++ [0])) as Hb.
  { apply Forall_app. split; [|by_decide]. eapply Forall_impl; [exact Hds|]. unfold is_byte. simpl. lia. }
  assert (bytes_at m2 p (ds ++ [0])) as Hp.
  { apply Forall_app in Hb as [Hb _]. apply bytes_at_app. split; [by apply write_bytes_at|]. apply bytes_at_cons.
    split_and!; [unfold is_byte; lia| |apply bytes_at_nil]. unfold m2. rewrite lookup_write_bytes_out by (unfold p; lia).
    unfold m1, p. replace (numbuf + 31 - _ + _) with (numbuf + 31) by lia. apply lookup_insert_eq. }
  assert (numbuf + 32 - p = Z.of_nat (length (ds ++ [0]))) as Hn by (rewrite length_app; simpl; unfold p; lia).
  cbn beta iota. rewrite Hn, run_bind, (run_memcpy m2 (message + 6) p (ds ++ [0])); [|done| |].
  2: { rewrite <-Hn. apply write_bytes_valid, valid_insert, (valid_sub m message 32); [done|lia|unfold p; lia]. }
  2: { unfold disjoint_ranges in Hd. unfold p in *. lia. }
  cbn beta iota. rewrite run_ret. eexists _, ds. split; [done|]. split_and!.
  - split.
    + rewrite <-app_assoc. apply bytes_at_app. split; [|by apply write_bytes_at].
      apply write_bytes_frame; [|right; simpl; lia].
      apply (bytes_at_ext m); [done|]. intros a Ha. simpl in Ha. unfold disjoint_ranges in Hd. unfold m2.
      rewrite lookup_write_bytes_out by (unfold p; lia). apply lookup_insert_ne. lia.
    + apply Forall_app. split; [by_decide|]. eapply Forall_impl; [exact Hds|]. simpl. lia.
  - done.
  - apply dec_digits_value; [lia|simpl; lia].
  - intros a Ha Ha'. unfold m2, m1. rewrite !lookup_write_bytes_out by (rewrite <-?Hn; unfold p; lia).
    apply lookup_insert_ne. lia.
Qed.

(** ** Witnesses *)

(** The format "%-4d|%s" at 100, "hi" at 200, a variable at 250, a stream buffer with
    "ab" at 1000, beside the static heap. *)
Definition print_mem : mem :=
  write_bytes (write_bytes (write_bytes (write_bytes zero_heap 100 (format_chars sample_items ++ [0]))
    200 [104; 105; 0]) 250 (le_bytes 8 0)) 1000 [97; 98; 0; 0].

Definition print_str (p : Z) : option (list Z) := if p =? 200 then Some [104; 105] else None.

Definition print_heap : static_heap := {| heap := 4096; heapcnt := 32; heap_mem := print_mem |}.

Definition print_io : io static_heap script_kernel :=
  {| io_heap := print_heap; io_files := {[ 5000 := demo_file _IOFBF 1 0 2 ]};
     io_kernel := {| sk_out := ∅; sk_in := ∅; sk_script := [2; 0; 1]%nat |};
     io_errno := 0; stdin := 0; stdout := 5000; stderr := 0 |}.

Lemma print_mem_contents :
  cstr print_mem 100 (format_chars sample_items) ∧ cstr print_mem 200 [104; 105] ∧
  bytes_at print_mem 250 (le_bytes 8 0) ∧ bytes_at print_mem 1000 [97; 98; 0; 0].
Proof. unfold print_mem. split_and!; [split; [peel|by_decide]|split; [peel|by_decide]|peel|peel]. Qed.

Lemma print_str_inv p t : print_str p = Some t → p = 200 ∧ t = [104; 105].
Proof. unfold print_str. destruct (Z.eqb_spec p 200); [|done]. by intros [= <-]. Qed.

Lemma print_mem_zeros p k :
  4096 ≤ p → p + Z.of_nat k ≤ 4096 + KLIBC_MALLOC_STATIC_SIZE → valid print_mem p (Z.of_nat k).
Proof.
  intros Hp Hk. repeat apply write_bytes_valid. rewrite <-(length_replicate k 0).
  by apply bytes_at_valid, zero_heap_bytes.
Qed.

Lemma print_heap_inv : static_inv print_heap [(4096, 20)].
Proof.
  pose proof sample_heap_inv as (Hh & Hc & Ha & Hv & Hin & Hd).
  split; [exact Hh|]. split; [exact Hc|]. split; [exact Ha|]. split; [|exact (conj Hin Hd)]. by repeat apply write_bytes_valid.
Qed.

Lemma fprintf_prints_witness :
  ∃ s' pend' w, fprintf script_sys (Z.to_nat 40000) true 20000 5000 100 [-7; 200] print_io = Ret 7 s' ∧
  script_out 1 (io_kernel s') = w ∧ w ++ pend' = [97; 98; 45; 55; 32; 32; 124; 104; 105].
Proof.
  destruct print_mem_contents as (Hf & Hs & _ & Hb).
  destruct (@fprintf_prints static_heap script_kernel _ static_laws script_sys (Z.to_nat 40000) script_out script_inp _ script_ok
    print_io 5000 (demo_file _IOFBF 1 0 2) [97; 98] 20000 print_str sample_items 100 [-7; 200] [45; 55; 32; 32; 124; 104; 105])
    as (s' & pend' & w & Hrun & _ & _ & (_ & _ & Hsent & _) & Hw & _).
  - exact script_reliable.
  - reflexivity.
  - split; [reflexivity|simpl; lia|reflexivity|simpl; lia| |].
    + apply (bytes_at_app _ _ [97; 98] [0; 0]). exact Hb.
    + exact (bytes_at_valid _ _ _ Hb).
  - lia.
  - apply (print_mem_zeros 20000 (Z.to_nat 32768)); [lia|]. rewrite Z2Nat.id by lia. unfold KLIBC_MALLOC_STATIC_SIZE. lia.
  - right. simpl. lia.
  - intros p t (-> & ->)%print_str_inv. split; [exact Hs|]. split; [right; simpl; lia|simpl; lia].
  - repeat constructor; simpl; try by_decide; by vm_compute.
  - exact Hf.
  - right. simpl. lia.
  - reflexivity.
  - simpl. lia.
  - unfold BUFFER_SIZE. simpl bufsiz. change (length (sk_script (io_kernel print_io))) with 3%nat. lia.
  - exists s', pend', w. split; [exact Hrun|]. split; [exact Hsent|exact Hw].
Defined.

Lemma asprintf_allocates_witness :
  ∃ r p s', asprintf 250 100 [-7; 200] print_heap = Ret r s' ∧ word (heap_mem s') 250 = Some p ∧
  (r = -1 ∧ p = NULL ∨ r = 7 ∧ bytes_at (heap_mem s') p [45; 55; 32; 32; 124; 104; 105; 0]).
Proof.
  destruct print_mem_contents as (Hf & Hs & Hv & _).
  destruct (@asprintf_allocates static_heap _ static_laws print_heap (4096, 32) [(4096, 20)] 250 (le_bytes 8 0) print_str
    sample_items 100 [-7; 200] [45; 55; 32; 32; 124; 104; 105]) as (r & p & s' & g' & Hrun & _ & Hw & Hcase).
  - split; [exact print_heap_inv|reflexivity].
  - intros p t (-> & ->)%print_str_inv. split; [exact Hs|]. split; [|simpl; lia].
    simpl. unfold static_in_use, disjoint_ranges, KLIBC_MALLOC_STATIC_SIZE. simpl. lia.
  - repeat constructor; simpl; try by_decide; by vm_compute.
  - exact Hf.
  - simpl. unfold static_in_use, disjoint_ranges, KLIBC_MALLOC_STATIC_SIZE. simpl. lia.
  - lia.
  - intros p t (-> & ->)%print_str_inv. lia.
  - simpl. unfold static_in_use, disjoint_ranges, KLIBC_MALLOC_STATIC_SIZE. simpl. lia.
  - exact Hv.
  - reflexivity.
  - right. simpl. lia.
  - intros p t (-> & ->)%print_str_inv. right. simpl. lia.
  - reflexivity.
  - simpl. lia.
  - simpl. unfold KLIBC_MALLOC_STATIC_SIZE. lia.
  - exists r, p, s'. split; [exact Hrun|]. split; [exact Hw|].
    destruct Hcase as [(-> & -> & _)|(-> & _ & _ & Hb)]; [left|right]; split; try reflexivity. exact Hb.
Defined.
