(* ===== verification/StdioList.v ===== *)
(** * The list of open streams

    Every stream that [fdopen] makes is in a ring of records that starts and ends at
    [__stdio_headnode].  The file shows that opening and closing keep the ring and
    the heap consistent, and that [fflush(NULL)] empties every stream of it. *)

From Stdlib Require Import List.
From stdpp Require Import base tactics numbers list gmap.
From S2P Require Import Prelude Memory Words MemFns StrFns Alloc StaticHeap Stdio StdioSpec.

Open Scope Z_scope.

(** ** The ring *)

Section ring.
Implicit Types (files : gmap Z _IO_file_pvt) (a b f x y : Z) (fs l r : list Z).

Definition next files x : option Z := f_next <$> files !! x.
Definition prev files x : option Z := f_prev <$> files !! x.

(** From [a] over [fs] to [b], and back. *)
Fixpoint linked files a fs b : Prop :=
  match fs with
  | [] => next files a = Some b ∧ prev files b = Some a
  | x :: fs => (next files a = Some x ∧ prev files x = Some a) ∧ linked files x fs b
  end.

Definition ring head files fs : Prop := linked files head fs head ∧ NoDup (head :: fs).

Lemma linked_app files a l x r b : linked files a (l ++ x :: r) b ↔ linked files a l x ∧ linked files x r b.
Proof. revert a. induction l as [|y l IH]; intros a; simpl; [tauto|]. rewrite IH. tauto. Qed.

Lemma linked_frame files files' a fs b :
  (∀ x, x ∈ a :: fs → next files' x = next files x) → (∀ x, x ∈ fs ++ [b] → prev files' x = prev files x) →
  linked files a fs b → linked files' a fs b.
Proof.
  revert a. induction fs as [|y fs IH]; intros a Hn Hp; simpl.
  - rewrite Hn, Hp by set_solver. done.
  - rewrite Hn, Hp by set_solver. intros [? ?]. split; [done|]. apply IH; [set_solver|set_solver|done].
Qed.

(** The head of a path given another predecessor. *)
Lemma relink files files' a a' fs b :
  linked files a fs b → next files' a' = next files a → prev files' (hd b fs) = Some a' →
  (∀ x, x ∈ fs → next files' x = next files x) → (∀ x, x ∈ tail (fs ++ [b]) → prev files' x = prev files x) →
  linked files' a' fs b.
Proof.
  destruct fs as [|y fs]; simpl.
  - intros [Hn _] -> Hp _ _. done.
  - intros [[Hn _] Hl] -> Hp Hn' Hp'. split; [done|]. by apply (linked_frame files).
Qed.

Lemma ring_insert head files files' fs f :
  ring head files fs → f ∉ head :: fs →
  next files' head = Some f → next files' f = next files head → prev files' f = Some head →
  prev files' (hd head fs) = Some f →
  (∀ x, x ∈ fs → next files' x = next files x) →
  (∀ x, x ∈ tail (fs ++ [head]) → prev files' x = prev files x) →
  ring head files' (f :: fs).
Proof.
  intros [Hl Hnd] Hf H1 H2 H3 H4 H5 H6. split.
  - split; [done|]. by apply (relink files files' head).
  - apply NoDup_cons in Hnd as [? ?]. rewrite !NoDup_cons. set_solver.
Qed.

Lemma hd_in (d : Z) l : hd d l ∈ d :: l.
Proof. destruct l; set_solver. Qed.

(** The path without one of its streams. *)
Lemma ring_remove head files files' l f r y n :
  ring head files (l ++ f :: r) → prev files f = Some y → next files f = Some n →
  next files' y = Some n → prev files' n = Some y →
  (∀ x, x ≠ y → x ≠ f → next files' x = next files x) → (∀ x, x ≠ n → x ≠ f → prev files' x = prev files x) →
  ring head files' (l ++ r).
Proof.
  intros [Hl Hnd] Hy Hn H1 H2 H3 H4. apply linked_app in Hl as [Hl Hr].
  apply NoDup_cons in Hnd as [Hh Hnd]. apply NoDup_app in Hnd as (Hndl & Hlr & Hnd).
  apply NoDup_cons in Hnd as [Hfr Hndr]. rewrite not_elem_of_app, not_elem_of_cons in Hh. destruct Hh as (Hhl & Hhf & Hhr).
  assert (f ∉ l) as Hfl by (intros Hf; apply (Hlr f Hf); by left).
  assert (∀ x, x ∈ l → x ∉ r) as Hlr' by (intros x Hx Hxr; apply (Hlr x Hx); by right). clear Hlr.
  split; [|apply NoDup_cons; split; [rewrite not_elem_of_app; done|by apply NoDup_app]].
  assert (n = hd head r) as ->.
  { destruct r as [|z r]; simpl in Hr; [destruct Hr as [Hr _]|destruct Hr as [[Hr _] _]]; by rewrite Hn in Hr; simplify_eq. }
  assert (linked files' y r head) as Hr'.
  { assert ((y = head ∨ y ∈ l) ∧ y ≠ f) as [Hyin Hyf].
    { destruct l as [|z l _] using rev_ind.
      - destruct Hl as [_ Hl]. rewrite Hy in Hl. simplify_eq. by split; [left|].
      - apply linked_app in Hl as [_ [_ Hl]]. rewrite Hy in Hl. simplify_eq.
        assert (z ∈ l ++ [z]) by (apply elem_of_app; right; by left). split; [by right|]. by intros ->. }
    apply (relink files files' f); [done|by rewrite H1, Hn|done| |].
    - intros x Hx. apply H3; [|by intros ->]. intros ->. destruct Hyin as [->|Hyl]; [done|by apply (Hlr' y)].
    - intros x Hx. destruct r as [|z r]; simpl in *; [by apply elem_of_nil in Hx|].
      apply NoDup_cons in Hndr as [Hz _]. apply elem_of_app in Hx as [Hx| ->%list_elem_of_singleton].
      + apply H4; [by intros ->|]. intros ->. apply Hfr. by right.
      + apply H4; [|done]. intros ->. apply Hhr. by left. }
  destruct l as [|z l _] using rev_ind.
  { destruct Hl as [_ Hl]. rewrite Hy in Hl. by simplify_eq. }
  apply linked_app in Hl as [Hl [_ Hz]]. rewrite Hy in Hz. simplify_eq.
  rewrite <-app_assoc. apply linked_app. split; [|done]. apply NoDup_app in Hndl as (_ & Hzl & _).
  assert (∀ x, x ∈ l → x ∈ l ++ [z]) as Hin by (intros x Hx; apply elem_of_app; by left).
  apply (linked_frame files); [..|done].
  - intros x [->|Hx]%elem_of_cons; apply H3.
    + intros ->. apply Hhl, elem_of_app. right. by left.
    + done.
    + intros ->. apply (Hzl z Hx). by left.
    + intros ->. by apply Hfl, Hin.
  - intros x Hx. apply H4; [|by intros ->]. intros ->. destruct r as [|w r]; simpl in Hx; [done|].
    apply (Hlr' w Hx). by left.
Qed.
End ring.

(** *** Updates of the links *)

Section updates.
Implicit Types (files : gmap Z _IO_file_pvt) (F : _IO_file_pvt) (a x v : Z).

(** A stream without its links. *)
Definition strip F : _IO_file_pvt := set_prev 0 (set_next 0 F).

Definition stripped files x : option _IO_file_pvt := strip <$> files !! x.

Lemma alter_field {A} (g : _IO_file_pvt → _IO_file_pvt) (h : _IO_file_pvt → A) files a x :
  (∀ F, h (g F) = h F) → h <$> alter g a files !! x = h <$> files !! x.
Proof.
  intros E. destruct (decide (a = x)) as [->|]; [|by rewrite lookup_alter_ne].
  rewrite lookup_alter_eq. destruct (files !! x); simpl; [by rewrite E|done].
Qed.

Lemma next_alter_prev files a v x : next (alter (set_prev v) a files) x = next files x.
Proof. by apply alter_field. Qed.

Lemma prev_alter_next files a v x : prev (alter (set_next v) a files) x = prev files x.
Proof. by apply alter_field. Qed.

Lemma stripped_alter_prev files a v x : stripped (alter (set_prev v) a files) x = stripped files x.
Proof. by apply alter_field. Qed.

Lemma stripped_alter_next files a v x : stripped (alter (set_next v) a files) x = stripped files x.
Proof. by apply alter_field. Qed.

Lemma next_alter_next files a v x :
  is_Some (files !! a) → next (alter (set_next v) a files) x = if decide (x = a) then Some v else next files x.
Proof.
  intros [F HF]. unfold next. case_decide as Hx; [|by rewrite lookup_alter_ne].
  subst. by rewrite lookup_alter_eq, HF.
Qed.

Lemma prev_alter_prev files a v x :
  is_Some (files !! a) → prev (alter (set_prev v) a files) x = if decide (x = a) then Some v else prev files x.
Proof.
  intros [F HF]. unfold prev. case_decide as Hx; [|by rewrite lookup_alter_ne].
  subst. by rewrite lookup_alter_eq, HF.
Qed.

Lemma next_is_Some files x y : next files x = Some y → is_Some (files !! x).
Proof. unfold next. by destruct (files !! x). Qed.

Lemma prev_is_Some files x y : prev files x = Some y → is_Some (files !! x).
Proof. unfold prev. by destruct (files !! x). Qed.

Lemma ring_is_Some head files fs x : ring head files fs → x ∈ head :: fs → is_Some (files !! x).
Proof.
  intros [Hl _]. revert Hl. generalize head at 1 3. induction fs as [|y fs IH]; intros a Hl Hx.
  - apply elem_of_cons in Hx as [->|Hx]; [|by apply elem_of_nil in Hx]. destruct Hl as [Hn _]. by eapply next_is_Some.
  - destruct Hl as [[Hn _] Hl]. apply elem_of_cons in Hx as [->|Hx]; [by eapply next_is_Some|]. by eapply IH.
Qed.

Lemma ring_next head files fs : ring head files fs → next files head = Some (hd head fs) ∧ prev files (hd head fs) = Some head.
Proof. intros [Hl _]. destruct fs; simpl in Hl; tauto. Qed.
End updates.

Section streams.
Context {S K : Type} `{AllocatorLaws S}.
Context (sys : syscalls K) (fuel : nat) (head : Z).
Context (out inp : Z → K → list Z) (budget : K → nat).
Context (Hsys : syscalls_ok sys out inp budget).
Implicit Types (s : io S K) (F : _IO_file_pvt) (fs : list Z) (pends : list (list Z)) (files : gmap Z _IO_file_pvt).

Abbreviation memory s := (amem (io_heap s)).
Abbreviation sent := (sent out inp budget).

(** ** Flushing all streams *)

Definition at_files s (k : K) (e : Z) files : io S K :=
  {| io_heap := io_heap s; io_files := files; io_kernel := k; io_errno := e;
     stdin := stdin s; stdout := stdout s; stderr := stderr s |}.

Lemma at_files_id s : at_files s (io_kernel s) (io_errno s) (io_files s) = s.
Proof. by destruct s. Qed.

(** [pend] is what the stream holds for its descriptor. *)
Definition holds m files f pend : Prop :=
  ∃ F, files !! f = Some F ∧ bytes_at m (f_buf F) pend ∧ obytes F = Z.of_nat (length pend) ∧
  Z.of_nat (length pend) < 2 ^ 32.

(** The streams with their output gone. *)
Definition flushed fs files : gmap Z _IO_file_pvt := foldr (λ f, alter (set_obytes 0) f) files fs.

(** What the streams of the list hold for the descriptor [d], in the order of the
    list. *)
Fixpoint held files d fs pends : list Z :=
  match fs, pends with
  | f :: fs, pend :: pends =>
      (if bool_decide (_IO_fileno <$> files !! f = Some d) then pend else []) ++ held files d fs pends
  | _, _ => []
  end.

(** From [k] to [k'], what the streams held went to their descriptors. *)
Definition sent_all files k k' fs pends : Prop :=
  (∀ d, inp d k' = inp d k) ∧ (∀ d, out d k' = out d k ++ held files d fs pends) ∧ (budget k' ≤ budget k)%nat.

Lemma held_ext files files' d fs pends :
  (∀ f, f ∈ fs → _IO_fileno <$> files' !! f = _IO_fileno <$> files !! f) → held files' d fs pends = held files d fs pends.
Proof.
  revert pends. induction fs as [|f fs IH]; intros pends E; [done|]. destruct pends as [|pend pends]; [done|].
  simpl. rewrite (E f) by (by left). f_equal. apply IH. intros x Hx. apply E. by right.
Qed.

Lemma flushed_alter f fs files :
  f ∉ fs → flushed fs (alter (set_obytes 0) f files) = alter (set_obytes 0) f (flushed fs files).
Proof.
  induction fs as [|x fs IH]; intros Hf; [done|]. simpl. rewrite not_elem_of_cons in Hf. destruct Hf as [Hx Hf].
  rewrite IH by done. by apply alter_alter_ne.
Qed.

Lemma holds_other m files f g G pend : f ≠ g → holds m files f pend → holds m (<[g := G]> files) f pend.
Proof. intros Hfg (F & HF & Hrest). exists F. by rewrite lookup_insert_ne. Qed.

(** One stream of the list. *)
Lemma run_flush_one s f err pend :
  reliable sys → holds (memory s) (io_files s) f pend → (length pend + budget (io_kernel s) < fuel)%nat →
  ∃ F k e, io_files s !! f = Some F ∧
  (if negb (obytes F =? 0) then e ← __fflush sys fuel f; mret (Z.lor err e) else mret err) s =
    Ret err (at_files s k e (alter (set_obytes 0) f (io_files s))) ∧
  sent (_IO_fileno F) (io_kernel s) k pend.
Proof.
  intros Hrel (F & HF & Hb & Ho & Hmax) Hfuel. exists F. destruct (Z.eqb_spec (obytes F) 0) as [Hz|Hz]; cbn [negb].
  - exists (io_kernel s), (io_errno s). split_and!; [done| |].
    + rewrite run_ret. f_equal. rewrite <-(at_files_id s) at 1. f_equal. apply map_eq. intros x.
      destruct (decide (f = x)) as [->|]; [|by rewrite lookup_alter_ne].
      rewrite lookup_alter_eq, HF. simpl. by rewrite <-Hz, set_obytes_id.
    + destruct pend; [|simpl in Ho; lia]. apply sent_refl.
  - destruct (run_fflush sys fuel out inp budget Hsys s f F pend Hrel HF Hb Ho Hmax Hfuel) as (k & e & Hrun & Hs).
    exists k, e. split_and!; [done| |done]. rewrite run_bind, Hrun. cbn beta iota. rewrite run_ret, Z.lor_0_r.
    unfold at_file, at_files. do 2 f_equal. apply map_eq. intros x. destruct (decide (f = x)) as [->|].
    + by rewrite lookup_insert_eq, lookup_alter_eq, HF.
    + by rewrite lookup_insert_ne, lookup_alter_ne.
Qed.

(** The list from a stream on, up to the head. *)
Fixpoint upto files fs : Prop :=
  match fs with
  | [] => True
  | f :: fs => f ≠ head ∧ next files f = Some (hd head fs) ∧ upto files fs
  end.

Lemma upto_ext files files' fs : (∀ f, f ∈ fs → next files' f = next files f) → upto files fs → upto files' fs.
Proof.
  induction fs as [|f fs IH]; intros E; [done|]. intros (? & ? & ?). split_and!; [done|by rewrite E by (by left)|].
  apply IH; [|done]. intros x Hx. apply E. by right.
Qed.

Lemma next_alter files f g : next (alter (set_obytes 0) f files) g = next files g.
Proof.
  unfold next. destruct (decide (f = g)) as [->|]; [|by rewrite lookup_alter_ne].
  rewrite lookup_alter_eq. by destruct (files !! g).
Qed.

Definition flush_body : Z * Z → C (io S K) (Z * Z + Z) := λ '(f, err),
  if f =? head then Break err else
  F ← file f;
  err ← (if negb (obytes F =? 0) then e ← __fflush sys fuel f; mret (Z.lor err e) else mret err);
  F ← file f;
  Next (f_next F, err).

Lemma run_flush_list n s fs pends err :
  reliable sys → upto (io_files s) fs → NoDup fs → Forall2 (holds (memory s) (io_files s)) fs pends →
  Forall (λ pend, length pend + budget (io_kernel s) < fuel)%nat pends → (length fs < n)%nat →
  ∃ k e, loop n flush_body (hd head fs, err) s = Ret err (at_files s k e (flushed fs (io_files s))) ∧
  sent_all (io_files s) (io_kernel s) k fs pends.
Proof.
  intros Hrel. revert n s pends. induction fs as [|f fs IH]; intros [|n] s pends Hup Hnd Hh Hfuel Hn; try (simpl in Hn; lia).
  { inversion Hh; subst. exists (io_kernel s), (io_errno s). rewrite run_loop. simpl hd. unfold flush_body at 1.
    rewrite Z.eqb_refl, run_ret. split; [by rewrite at_files_id|]. split_and!; [done| |done]. intros d. by rewrite app_nil_r. }
  destruct pends as [|pend pends]; inversion Hh as [|? ? ? ? Hf Hh']; subst. destruct Hup as (Hfh & Hnext & Hup).
  apply NoDup_cons in Hnd as [Hfs Hnd]. apply Forall_cons in Hfuel as [Hfu Hfuel].
  destruct (run_flush_one s f err pend Hrel Hf Hfu) as (F & k & e & HF & Hrun & (Hi & Ho & Hs & Hb)).
  set (s1 := at_files s k e (alter (set_obytes 0) f (io_files s))) in *.
  destruct (IH n s1 pends) as (k' & e' & Hl & (Hi' & Ho' & Hb')).
  - apply (upto_ext (io_files s)); [intros x _; apply next_alter|done].
  - done.
  - eapply Forall2_impl_elem; [exact Hh'|]. intros g p Hg (G & HG & Hrest). exists G. split; [|exact Hrest].
    simpl. rewrite lookup_alter_ne; [done|]. by intros ->.
  - eapply Forall_impl; [exact Hfuel|]. simpl. lia.
  - simpl in Hn. lia.
  - exists k', e'. rewrite run_loop. simpl hd. unfold flush_body at 1. rewrite (proj2 (Z.eqb_neq f head)) by done.
    rewrite run_bind, (run_file s f F HF). cbn beta iota. rewrite run_bind, Hrun. cbn beta iota.
    rewrite run_bind, (run_file s1 f (set_obytes 0 F)) by (simpl; by rewrite lookup_alter_eq, HF). cbn beta iota.
    rewrite run_ret. simpl f_next. unfold next in Hnext. rewrite HF in Hnext. simpl in Hnext. injection Hnext as ->.
    split; [rewrite Hl; simpl; by rewrite flushed_alter|].
    assert (∀ d, held (io_files s1) d fs pends = held (io_files s) d fs pends) as Hheld.
    { intros d. apply held_ext. intros x Hx. simpl. rewrite lookup_alter_ne; [done|]. by intros ->. }
    simpl in Hi', Hb'. split_and!; [intros d; by rewrite Hi', Hi| |lia]. intros d. rewrite Ho', Hheld. simpl. rewrite HF. simpl.
    destruct (decide (_IO_fileno F = d)) as [<-|Hd].
    + by rewrite bool_decide_true, Hs, app_assoc by done.
    + rewrite bool_decide_false by congruence. by rewrite Ho by congruence.
Qed.

(** ** Opening and closing *)

Definition STREAM_SIZE : Z := bufoffs + BUFSIZ + _IO_UNGET_SLOP.

(** What a stream is in the middle of. *)
Inductive direction := Out (pend : list Z) | In (u : list Z).

Definition stream_at m F (d : direction) : Prop :=
  match d with Out pend => out_stream m F pend | In u => in_stream m F u end.

Definition contents (d : direction) : list Z := match d with Out pend => pend | In u => u end.

(** What it holds for its descriptor. *)
Definition to_send (d : direction) : list Z := match d with Out pend => pend | In _ => [] end.

Implicit Types (d : direction) (ds : list (Z * direction)).

(** The stream at [f] of the block of memory it was made in. *)
Definition stream_of m files (x : Z * direction) : Prop :=
  ∃ F, files !! x.1 = Some F ∧ f_buf F = x.1 + bufoffs ∧ bufsiz F = BUFSIZ ∧ stream_at m F x.2.

Definition stream_blocks ds : list block := (λ f, (f, STREAM_SIZE)) <$> ds.*1.

(** The open streams in memory, one block each. *)
Record streams_mem (h : S) files (g : ghost) live ds : Prop := {
  so_heap : heap_inv h g (stream_blocks ds ++ live);
  so_head : in_use g head SIZEOF_FILE_PVT;
  so_node : ∃ l, Z.of_nat (length l) = SIZEOF_FILE_PVT ∧ bytes_at (amem h) head l;
  so_apart : Forall (λ f, disjoint_ranges f STREAM_SIZE head SIZEOF_FILE_PVT) (ds.*1);
  so_streams : Forall (stream_of (amem h) files) ds;
}.

Definition streams_ok s (g : ghost) live ds : Prop :=
  ring head (io_files s) (ds.*1) ∧ streams_mem (io_heap s) (io_files s) g live ds.

Lemma stream_at_strip m F F' d : strip F = strip F' → stream_at m F d → stream_at m F' d.
Proof.
  intros E. assert (∀ F, stream_at m (strip F) d ↔ stream_at m F d) as Hs
    by (intros G; destruct d; split; intros []; constructor; done).
  rewrite <-(Hs F), E, Hs. done.
Qed.

Lemma stream_of_strip m files files' x : stripped files' x.1 = stripped files x.1 → stream_of m files x → stream_of m files' x.
Proof.
  unfold stripped. intros E (F & HF & Hb & Hz & Hs). rewrite HF in E. simpl in E. apply fmap_Some in E as (F' & HF' & E).
  exists F'. split_and!; [done| | |by eapply stream_at_strip].
  - transitivity (f_buf (strip F')); [done|]. rewrite <-E. exact Hb.
  - transitivity (bufsiz (strip F')); [done|]. rewrite <-E. exact Hz.
Qed.

(** The bytes a stream has in its buffer are in its block. *)
Lemma stream_bytes m files x :
  stream_of m files x →
  ∃ q, bytes_at m q (contents x.2) ∧ x.1 ≤ q ∧ q + Z.of_nat (length (contents x.2)) ≤ x.1 + STREAM_SIZE.
Proof.
  destruct x as [f d]. intros (F & _ & Hb & Hz & Hs). simpl in *. unfold STREAM_SIZE. change bufoffs with 64 in *.
  destruct d as [pend|u]; destruct Hs; simpl.
  - exists (f_buf F). unfold _IO_UNGET_SLOP. split_and!; [done|lia|lia].
  - exists (f_data F). split_and!; [done|lia|lia].
Qed.

(** A memory that keeps those bytes and the block keeps the stream. *)
Lemma stream_of_memory m m' files x :
  stream_of m files x → valid m' x.1 STREAM_SIZE →
  (∀ q l, x.1 ≤ q → q + Z.of_nat (length l) ≤ x.1 + STREAM_SIZE → bytes_at m q l → bytes_at m' q l) →
  stream_of m' files x.
Proof.
  destruct x as [f d]. intros (F & HF & Hb & Hz & Hs) Hv Hkeep. exists F. split_and!; [done..|].
  simpl in *. unfold STREAM_SIZE in *. change bufoffs with 64 in *. unfold _IO_UNGET_SLOP in *. destruct d as [pend|u].
  - destruct Hs as [? ? ? ? Hp _]. constructor; try done.
    + apply Hkeep; [lia|lia|done].
    + apply (valid_sub m' f (64 + BUFSIZ + 32)); [done|lia|lia].
  - destruct Hs as [? ? ? Hd ? _]. unfold _IO_UNGET_SLOP in *. constructor; unfold _IO_UNGET_SLOP; try done.
    + apply Hkeep; [lia|lia|done].
    + apply (valid_sub m' f (64 + BUFSIZ + 32)); [done|lia|lia].
Qed.

Lemma run_update_alter s f g :
  is_Some (io_files s !! f) → update f g s = Ret tt (set_files (alter g f (io_files s)) s).
Proof.
  intros [F HF]. rewrite (run_update s f F g HF). do 2 f_equal. apply map_eq. intros x.
  destruct (decide (f = x)) as [->|]; [by rewrite lookup_insert_eq, lookup_alter_eq, HF|].
  by rewrite lookup_insert_ne, lookup_alter_ne.
Qed.

Lemma stream_block_in x ds live : x ∈ ds → (x.1, STREAM_SIZE) ∈ stream_blocks ds ++ live.
Proof. intros Hx. apply elem_of_app. left. by apply (list_elem_of_fmap_2 (λ f, (f, STREAM_SIZE))), list_elem_of_fmap_2. Qed.

(** A change of the heap that keeps the blocks of the streams keeps the streams. *)
Lemma streams_transfer h files g live ds h' g' live' :
  streams_mem h files g live ds → heap_inv h' g' (stream_blocks ds ++ live') →
  (∀ p n q l, (p, n) ∈ (head, SIZEOF_FILE_PVT) :: stream_blocks ds → p ≤ q → q + Z.of_nat (length l) ≤ p + n →
     l ≠ [] → in_use g q (Z.of_nat (length l)) → bytes_at (amem h) q l →
     bytes_at (amem h') q l ∧ in_use g' q (Z.of_nat (length l))) →
  streams_mem h' files g' live' ds.
Proof.
  intros [Hh Hu (l & Hl & Hb) Ha Hs] Hh' Hkeep.
  destruct (Hkeep head SIZEOF_FILE_PVT head l) as [Hb' Hu']; [by left|lia|lia|by intros ->|by rewrite Hl|done|]. rewrite Hl in Hu'.
  constructor; [done|done|by exists l|done|]. apply Forall_forall. intros x Hx.
  rewrite Forall_forall in Hs. pose proof (stream_block_in x ds) as Hin.
  destruct (heap_inv_block _ _ _ _ _ Hh (Hin live Hx)) as (_ & Hux & _).
  destruct (heap_inv_block _ _ _ _ _ Hh' (Hin live' Hx)) as (Hvx & _ & _).
  apply (stream_of_memory (amem h)); [by apply Hs|done|]. intros q k Hq1 Hq2 Hk.
  destruct (decide (k = [])) as [->|Hne]; [apply bytes_at_nil|].
  apply (Hkeep x.1 STREAM_SIZE q k); [|done|done|done| |done].
  - right. specialize (Hin [] Hx). by rewrite app_nil_r in Hin.
  - by apply (in_use_sub g x.1 STREAM_SIZE).
Qed.

Lemma streams_files h files files' g live ds :
  (∀ x, x ∈ ds.*1 → stripped files' x = stripped files x) → streams_mem h files g live ds → streams_mem h files' g live ds.
Proof.
  intros E [Hh Hu Hb Ha Hs]. constructor; [done..|]. apply Forall_forall. intros x Hx. rewrite Forall_forall in Hs.
  apply (stream_of_strip _ files); [|by apply Hs]. apply E. by apply list_elem_of_fmap_2.
Qed.

(** Without one of the streams, whose block is a live one. *)
Lemma streams_drop h files g live l x r :
  streams_mem h files g live (l ++ x :: r) → streams_mem h files g ((x.1, STREAM_SIZE) :: live) (l ++ r).
Proof.
  intros [Hh Hu Hb Ha Hs]. rewrite fmap_app in Ha. simpl in Ha. constructor; [|done|done| |].
  - eapply heap_inv_perm; [|exact Hh]. unfold stream_blocks. rewrite !fmap_app, fmap_cons. simpl.
    rewrite <-!app_assoc. simpl. rewrite <-!Permutation_middle. done.
  - rewrite fmap_app. rewrite Forall_app, Forall_cons in Ha. rewrite Forall_app. tauto.
  - rewrite Forall_app, Forall_cons in Hs. rewrite Forall_app. tauto.
Qed.

Lemma new_stream m fd p tty n :
  bytes_at m p (replicate (Z.to_nat STREAM_SIZE) 0) →
  stream_at m (new_file head fd p tty n) (Out []) ∧ stream_at m (new_file head fd p tty n) (In []).
Proof.
  intros Hb. apply bytes_at_valid in Hb. rewrite length_replicate, Z2Nat.id in Hb by (by vm_compute).
  assert (valid m (p + bufoffs) (BUFSIZ + _IO_UNGET_SLOP)) as Hv.
  { apply (valid_sub m p STREAM_SIZE); [done|change bufoffs with 64; lia|]. unfold STREAM_SIZE. lia. }
  split; constructor; simpl; try done; try (unfold BUFSIZ; simpl; lia); try apply bytes_at_nil.
  - apply (valid_le _ _ (BUFSIZ + _IO_UNGET_SLOP)); [unfold _IO_UNGET_SLOP; lia|done].
  - unfold _IO_UNGET_SLOP. change BUFSIZ with 16384. lia.
Qed.

(** Linking a new stream into the list. *)
Lemma run_link s f F fs :
  ring head (io_files s) fs → f ∉ head :: fs → f_prev F = head → f_next F = hd head fs →
  ∃ files, (update (hd head fs) (set_prev f);; update head (set_next f)) (set_files (<[f := F]> (io_files s)) s) =
    Ret tt (set_files files s) ∧
  ring head files (f :: fs) ∧ files !! f = Some F ∧ ∀ x, x ≠ f → stripped files x = stripped (io_files s) x.
Proof.
  intros Hr Hf Hp Hn. pose proof (hd_in head fs) as Hhd. set (n := hd head fs) in *.
  assert (f ≠ n ∧ f ≠ head) as [Hfn Hfh] by (split; intros ->; [done|]; apply Hf; by left).
  set (f1 := <[f := F]> (io_files s)). set (f2 := alter (set_prev f) n f1).
  assert (is_Some (f1 !! n)) as H1 by (unfold f1; rewrite lookup_insert_ne by done; by eapply ring_is_Some).
  assert (is_Some (f2 !! head)) as H2.
  { unfold f2. destruct (decide (n = head)) as [->|]; [rewrite lookup_alter_eq; destruct H1 as [? ->]; by eexists|].
    rewrite lookup_alter_ne by done. unfold f1. rewrite lookup_insert_ne by done. eapply ring_is_Some; [done|by left]. }
  exists (alter (set_next f) head f2). split; [|split; [|split]].
  - rewrite run_bind, run_update_alter by done. cbn beta iota. by rewrite run_update_alter.
  - assert (∀ x, x ≠ f → next f1 x = next (io_files s) x ∧ prev f1 x = prev (io_files s) x) as Hf1
      by (intros x Hx; unfold next, prev, f1; by rewrite lookup_insert_ne).
    assert (next f1 f = Some n ∧ prev f1 f = Some head) as [Hn1 Hp1]
      by (unfold next, prev, f1; rewrite lookup_insert_eq; simpl; by rewrite Hn, Hp).
    pose proof Hr as [_ Hnd]. apply NoDup_cons in Hnd as [Hhfs Hnd].
    apply (ring_insert head (io_files s) _ fs f Hr Hf).
    + by rewrite next_alter_next, decide_True.
    + rewrite next_alter_next, decide_False by done. unfold f2. rewrite next_alter_prev, Hn1. symmetry. apply (ring_next _ _ _ Hr).
    + rewrite prev_alter_next. unfold f2. by rewrite prev_alter_prev, decide_False.
    + rewrite prev_alter_next. unfold f2. by rewrite prev_alter_prev, decide_True.
    + intros x Hx. assert (x ≠ f ∧ x ≠ head) as [? ?] by (split; intros ->; [apply Hf; by right|done]).
      rewrite next_alter_next, decide_False by done. unfold f2. rewrite next_alter_prev. by apply Hf1.
    + intros x Hx. assert (x ≠ n ∧ x ≠ f) as [? ?].
      { subst n. destruct fs as [|y fs]; simpl in *; [by apply elem_of_nil in Hx|]. apply NoDup_cons in Hnd as [Hy _].
        apply elem_of_app in Hx as [Hx| ->%list_elem_of_singleton].
        - split; intros ->; [done|]. apply Hf. right. by right.
        - split; [|done]. intros ->. apply Hhfs. by left. }
      rewrite prev_alter_next. unfold f2. rewrite prev_alter_prev, decide_False by done. by apply Hf1.
  - rewrite lookup_alter_ne by done. unfold f2. rewrite lookup_alter_ne by done. apply lookup_insert_eq.
  - intros x Hx. rewrite stripped_alter_next. unfold f2. rewrite stripped_alter_prev. unfold stripped, f1. by rewrite lookup_insert_ne.
Qed.

(** A block just allocated is none of the streams. *)
Lemma fresh_stream h files g live ds f h' g' :
  streams_mem h files g live ds → fresh_block h g h' g' (stream_blocks ds ++ live) f STREAM_SIZE →
  disjoint_ranges f STREAM_SIZE head SIZEOF_FILE_PVT ∧ f ∉ head :: ds.*1.
Proof.
  intros [_ Hu (l & Hl & Hb) _ _] (_ & Hh' & _ & _ & Hkeep).
  assert (disjoint_ranges f STREAM_SIZE head SIZEOF_FILE_PVT) as Hfh.
  { rewrite <-Hl. apply Hkeep; [by intros ->|by rewrite Hl|done]. }
  split; [done|]. change SIZEOF_FILE_PVT with 56 in Hfh. change STREAM_SIZE with 16480 in Hfh.
  intros [->|Hin]%elem_of_cons; [unfold disjoint_ranges in Hfh; lia|].
  pose proof (heap_inv_disjoint _ _ _ Hh') as Hd. inversion Hd as [|? ? Hd1 _]; subst. rewrite Forall_forall in Hd1.
  pose proof (list_elem_of_fmap_2 (λ f, (f, STREAM_SIZE)) _ f Hin) as Hin'.
  specialize (Hd1 (f, STREAM_SIZE) (proj2 (elem_of_app _ _ _) (or_introl Hin'))).
  unfold disjoint_ranges in Hd1. simpl in Hd1. change STREAM_SIZE with 16480 in Hd1. lia.
Qed.

Lemma run_fdopen s g live ds fd mode :
  streams_ok s g live ds → STREAM_SIZE ≤ max_request →
  ∃ f s' g', fdopen_orig head fd mode s = Ret f s' ∧
  (∀ q l, l ≠ [] → in_use g q (Z.of_nat (length l)) → bytes_at (memory s) q l →
     bytes_at (memory s') q l ∧ in_use g' q (Z.of_nat (length l))) ∧
  (f = NULL ∧ io_errno s' = ENOMEM ∧ streams_ok s' g' live ds ∨
   f ≠ NULL ∧ streams_ok s' g' live ((f, Out []) :: ds) ∧
   ∃ F, io_files s' !! f = Some F ∧ _IO_fileno F = fd ∧ stream_at (memory s') F (In []) ∧
   (bufmode F = _IOLBF ↔ 0 ≤ fd ≤ 2)).
Proof.
  intros [Hr Hok] Hmax. pose proof Hok as [Hh Hu (l & Hl & Hb) Ha Hs]. unfold fdopen_orig.
  fold STREAM_SIZE. assert (0 ≤ STREAM_SIZE) by (by vm_compute).
  destruct (run_zalloc_fresh (io_heap s) g _ STREAM_SIZE Hh ltac:(lia)) as (f & h & Hrun & Hcase).
  assert (in_heap (zalloc STREAM_SIZE) s = Ret f (set_io_heap h s)) as Hz by (unfold in_heap, zoom; by rewrite Hrun).
  rewrite run_bind, Hz. cbn beta iota. destruct Hcase as [[-> Hf]|(g' & Hf & Hzero)].
  { rewrite Z.eqb_refl. rewrite run_bind, run_modify. cbn beta iota. rewrite run_ret.
    destruct (Hf []) as (g' & [[_ Hh']|(Hne & _)] & Hkeep); [|done].
    eexists NULL, _, g'. split; [done|]. split; [done|]. left. split_and!; [done|done|]. split; [exact Hr|].
    apply (streams_transfer (io_heap s) _ g live); [done|done|]. intros p n q k _ _ _. apply Hkeep. }
  pose proof Hf as (Hfn & Hh' & Hv & Hfu & Hkeep). rewrite (proj2 (Z.eqb_neq f NULL)) by done.
  assert (∀ q l, l ≠ [] → in_use g q (Z.of_nat (length l)) → bytes_at (memory s) q l →
     bytes_at (amem h) q l ∧ in_use g' q (Z.of_nat (length l))) as Hkeep' by (intros q k Hk Hq Hbk; destruct (Hkeep q k Hk Hq Hbk) as (? & ? & _); by split).
  destruct (fresh_stream (io_heap s) _ g live ds f h g' Hok Hf) as [Hfh Hfresh].
  destruct (ring_is_Some _ _ _ head Hr ltac:(by left)) as [Hd HHd].
  assert (f_next Hd = hd head (ds.*1)) as Hnx.
  { destruct (ring_next _ _ _ Hr) as [Hn _]. unfold next in Hn. rewrite HHd in Hn. by injection Hn. }
  rewrite run_bind, (run_file (set_io_heap h s) head Hd) by done. cbn beta iota. rewrite run_bind, run_modify. cbn beta iota.
  rewrite Hnx. set (F := new_file head fd f (isatty fd) (hd head (ds.*1))).
  destruct (run_link (set_io_heap h s) f F (ds.*1) Hr Hfresh eq_refl eq_refl) as (files & Hlink & Hring & HF & Hstrip).
  exists f, (set_files files (set_io_heap h s)), g'. split_and!; [|done|].
  { rewrite run_bind in Hlink. rewrite run_bind.
    destruct (update (hd head ds.*1) (set_prev f) _) as [[] s1| |]; [|done..]. by rewrite run_bind, Hlink. }
  right. destruct (new_stream (amem h) fd f (isatty fd) (hd head (ds.*1)) Hzero) as [Hout Hin].
  assert (heap_inv h g' (stream_blocks ds ++ (f, STREAM_SIZE) :: live)) as Hh2
    by (eapply heap_inv_perm; [apply Permutation_middle|exact Hh']).
  assert (streams_mem h files g' ((f, STREAM_SIZE) :: live) ds) as [_ Hu' Hb' Ha' Hs'].
  { apply (streams_files h (io_files s)).
    - intros x Hx. apply Hstrip. intros ->. apply Hfresh. by right.
    - apply (streams_transfer (io_heap s) _ g live); [done|done|]. intros p n q k _ _ _. apply Hkeep'. }
  split_and!; [done| |].
  - split; [done|]. constructor; simpl; [done|done|done|by constructor|]. apply Forall_cons. split; [by exists F|done].
  - exists F. split_and!; [done|done|done|]. simpl. unfold isatty. destruct (Z.leb_spec 0 fd), (Z.leb_spec fd 2); simpl; split; done || lia.
Qed.

(** C24: fdopen of a buffered stream keeps the list of streams a ring over the open
    streams, the heap consistent with one block per stream, and every open stream
    as it was: it returns NULL with ENOMEM, or a new stream at the front of the list
    with an empty buffer of its own, its descriptor set, line buffered exactly on a
    terminal; memory in use keeps its contents. *)
Theorem fdopen_keeps_streams s g live ds fd mode :
  streams_ok s g live ds → STREAM_SIZE ≤ max_request →
  ∃ f s' g', fdopen_orig head fd mode s = Ret f s' ∧
  (∀ q l, l ≠ [] → in_use g q (Z.of_nat (length l)) → bytes_at (memory s) q l →
     bytes_at (memory s') q l ∧ in_use g' q (Z.of_nat (length l))) ∧
  (f = NULL ∧ io_errno s' = ENOMEM ∧ streams_ok s' g' live ds ∨
   f ≠ NULL ∧ streams_ok s' g' live ((f, Out []) :: ds) ∧
   ∃ F, io_files s' !! f = Some F ∧ _IO_fileno F = fd ∧ stream_at (memory s') F (In []) ∧
   (bufmode F = _IOLBF ↔ 0 ≤ fd ≤ 2)).
Proof. apply run_fdopen. Qed.

Lemma ring_neighbours files l f r :
  ring head files (l ++ f :: r) →
  ∃ y n, prev files f = Some y ∧ next files f = Some n ∧ y ∈ head :: l ++ r ∧ n ∈ head :: l ++ r ∧ f ∉ head :: l ++ r.
Proof.
  intros [Hl Hnd]. apply linked_app in Hl as [Hl Hr].
  exists (List.last l head), (hd head r). split_and!.
  - destruct l as [|z l _] using rev_ind; [apply Hl|]. apply linked_app in Hl as [_ [_ Hl]]. by rewrite last_last.
  - destruct r; simpl in Hr; tauto.
  - destruct l as [|z l _] using rev_ind; [by left|]. rewrite last_last. right. rewrite !elem_of_app. left. right. by left.
  - destruct r as [|z r]; [by left|]. simpl. right. apply elem_of_app. right. by left.
  - rewrite <-(Permutation_middle l r f) in Hnd. apply NoDup_cons in Hnd as [Hh Hnd]. apply NoDup_cons in Hnd as [Hf _].
    intros [->|Hin]%elem_of_cons; [|done]. apply Hh. by left.
Qed.

(** Taking a stream out of the list. *)
Lemma run_unlink s l f r F :
  ring head (io_files s) (l ++ f :: r) → io_files s !! f = Some F →
  ∃ files, (update (f_next F) (set_prev (f_prev F));; F ← file f; update (f_prev F) (set_next (f_next F));;
            modify (λ s, set_files (delete f (io_files s)) s)) s = Ret tt (set_files files s) ∧
  ring head files (l ++ r) ∧ ∀ x, x ≠ f → stripped files x = stripped (io_files s) x.
Proof.
  intros Hr HF. destruct (ring_neighbours _ _ _ _ Hr) as (y & n & Hy & Hn & Hyin & Hnin & Hf).
  assert (f_prev F = y ∧ f_next F = n) as [Hpy Hnn] by (unfold prev, next in Hy, Hn; rewrite HF in Hy, Hn; simpl in *; split; congruence).
  assert (∀ x, x ∈ head :: l ++ r → is_Some (io_files s !! x) ∧ x ≠ f) as Hin.
  { intros x Hx. split; [|by intros ->]. eapply ring_is_Some; [exact Hr|]. rewrite elem_of_cons, elem_of_app in *.
    rewrite elem_of_cons. tauto. }
  destruct (Hin y Hyin) as [HSy Hyf], (Hin n Hnin) as [HSn Hnf].
  set (f1 := alter (set_prev y) n (io_files s)). set (f2 := alter (set_next n) y f1).
  assert (is_Some (f1 !! y)) as HS1.
  { unfold f1. destruct (decide (n = y)) as [->|]; [rewrite lookup_alter_eq; destruct HSy as [? ->]; by eexists|].
    by rewrite lookup_alter_ne. }
  exists (delete f f2). split; [|split].
  - rewrite run_bind, Hpy, Hnn, run_update_alter by done. cbn beta iota.
    rewrite run_bind, (run_file _ f F) by (simpl; by rewrite lookup_alter_ne). cbn beta iota.
    rewrite run_bind, Hpy, Hnn, run_update_alter by done. cbn beta iota. by rewrite run_modify.
  - assert (∀ x, x ≠ f → next (delete f f2) x = next f2 x ∧ prev (delete f f2) x = prev f2 x) as Hdel
      by (intros x Hx; unfold next, prev; by rewrite lookup_delete_ne).
    apply (ring_remove head (io_files s) _ l f r y n Hr Hy Hn).
    + rewrite (proj1 (Hdel y Hyf)). unfold f2. by rewrite next_alter_next, decide_True.
    + rewrite (proj2 (Hdel n Hnf)). unfold f2, f1. by rewrite prev_alter_next, prev_alter_prev, decide_True.
    + intros x Hx Hxf. rewrite (proj1 (Hdel x Hxf)). unfold f2, f1. by rewrite next_alter_next, decide_False, next_alter_prev.
    + intros x Hx Hxf. rewrite (proj2 (Hdel x Hxf)). unfold f2, f1. by rewrite prev_alter_next, prev_alter_prev, decide_False.
  - intros x Hx. unfold stripped at 1. rewrite lookup_delete_ne by done. fold (stripped f2 x). unfold f2, f1.
    by rewrite stripped_alter_next, stripped_alter_prev.
Qed.

(** What the stream holds, when it is flushed. *)
Lemma stream_holds m files x :
  stream_of m files x → ∃ F, files !! x.1 = Some F ∧ bytes_at m (f_buf F) (to_send x.2) ∧
  obytes F = Z.of_nat (length (to_send x.2)) ∧ Z.of_nat (length (to_send x.2)) ≤ BUFSIZ.
Proof.
  destruct x as [f d]. intros (F & HF & Hb & Hz & Hs). exists F. destruct d as [pend|u]; destruct Hs; simpl; split_and!; try done.
  - by rewrite <-Hz.
Qed.

Lemma ring_files files files' fs :
  (∀ x, next files' x = next files x) → (∀ x, prev files' x = prev files x) → ring head files fs → ring head files' fs.
Proof. intros Hn Hp [Hl Hnd]. split; [|done]. by apply (linked_frame files). Qed.

(** The list and the memory after the stream was flushed. *)
Lemma flushed_stream s f F :
  io_files s !! f = Some F → ∀ fs, ring head (io_files s) fs → ring head (<[f := set_obytes 0 F]> (io_files s)) fs.
Proof.
  intros HF fs. apply ring_files; intros x; unfold next, prev;
    (destruct (decide (f = x)) as [->|]; [by rewrite lookup_insert_eq, HF|by rewrite lookup_insert_ne]).
Qed.

(** Releasing the block of a stream leaves the others. *)
Lemma run_free_stream h files g live l f d r :
  streams_mem h files g live (l ++ (f, d) :: r) →
  f ≠ NULL ∧ ∃ h' g', a_free f h = Ret tt h' ∧ streams_mem h' files g' live (l ++ r).
Proof.
  intros Hok. pose proof (so_heap _ _ _ _ _ Hok) as Hh. destruct (heap_inv_block _ _ _ f STREAM_SIZE Hh) as (_ & _ & Hpos).
  { apply (stream_block_in (f, d)). apply elem_of_app. right. by left. }
  split; [unfold NULL; lia|]. pose proof (streams_drop _ _ _ _ _ _ _ Hok) as Hdrop. cbn [fst] in Hdrop.
  assert (heap_inv h g ((f, STREAM_SIZE) :: stream_blocks (l ++ r) ++ live)) as Hh1
    by (eapply heap_inv_perm; [symmetry; apply Permutation_middle|exact (so_heap _ _ _ _ _ Hdrop)]).
  destruct (free_ok h g _ f STREAM_SIZE Hh1) as (h' & g' & Hfree & Hh' & Hkeep). exists h', g'. split; [done|].
  apply (streams_transfer h _ g ((f, STREAM_SIZE) :: live)); [done|done|].
  intros p n q b Hin Hq1 Hq2 Hb0 Hu Hbq. apply Hkeep; [done|done|done|].
  assert (disjoint_ranges f STREAM_SIZE p n) as Hd; [|unfold disjoint_ranges in *; lia].
  apply elem_of_cons in Hin as [[= -> ->]|Hin].
  - pose proof (so_apart _ _ _ _ _ Hok) as Ha. rewrite fmap_app, fmap_cons, Forall_app, Forall_cons in Ha. tauto.
  - pose proof (heap_inv_disjoint _ _ _ Hh1) as Hd. inversion Hd as [|? ? Hd1 _]; subst.
    rewrite Forall_forall in Hd1. apply (Hd1 (p, n)), elem_of_app. by left.
Qed.

(** C25: fclose of a buffered stream sends what is pending on it to its descriptor,
    takes the stream out of the list and releases its block: the rest of the list
    stays a ring, the other streams keep their contents, nothing else is written,
    and the result is that of the close. *)
Theorem fclose_keeps_streams s g live l f d r :
  reliable sys → streams_ok s g live (l ++ (f, d) :: r) →
  (Z.to_nat BUFSIZ + budget (io_kernel s) < fuel)%nat →
  ∃ F rv s' g', io_files s !! f = Some F ∧ fclose_orig sys fuel true head f s = Ret rv s' ∧
  streams_ok s' g' live (l ++ r) ∧
  out (_IO_fileno F) (io_kernel s') = out (_IO_fileno F) (io_kernel s) ++ to_send d ∧
  (∀ x, x ≠ _IO_fileno F → out x (io_kernel s') = out x (io_kernel s) ∧ inp x (io_kernel s') = inp x (io_kernel s)) ∧
  ∃ k e, (rv, e, io_kernel s') = sys_close sys (_IO_fileno F) k.
Proof.
  intros Hrel [Hr Hok] Hfuel. rewrite fmap_app, fmap_cons in Hr. cbn [fst] in Hr.
  pose proof (so_streams _ _ _ _ _ Hok) as Hstr. rewrite Forall_app, Forall_cons in Hstr. destruct Hstr as (_ & Hf & _).
  destruct (stream_holds _ _ _ Hf) as (F & HF & Hb & Ho & Hmax). cbn [fst snd] in HF, Hb, Ho, Hmax.
  assert (Z.of_nat (length (to_send d)) ≤ 16384) as Hlen by exact Hmax.
  destruct (run_fflush sys fuel out inp budget Hsys s f F (to_send d) Hrel HF Hb Ho) as (k & e & Hrun & (Hsi & Hso & Hss & _));
    [lia|change (Z.to_nat BUFSIZ) with (Z.to_nat 16384) in Hfuel; lia|].
  set (s1 := at_file s f k e (set_obytes 0 F)) in *.
  destruct (sys_close sys (_IO_fileno F) k) as [[rv ce] k2] eqn:Ec.
  destruct (ok_close _ _ _ _ Hsys _ _ _ _ _ Ec) as (Hco & Hci & _).
  set (s2 := set_call rv ce k2 s1).
  assert (ring head (io_files s2) (l.*1 ++ f :: r.*1)) as Hr2 by (by apply flushed_stream).
  assert (io_files s2 !! f = Some (set_obytes 0 F)) as HF2 by exact (lookup_at_file s f k e (set_obytes 0 F)).
  destruct (run_unlink s2 (l.*1) f (r.*1) _ Hr2 HF2) as (files & Hun & Hring & Hstrip).
  destruct (run_free_stream _ _ _ _ _ _ _ _ Hok) as (Hpos & h' & g' & Hfree & Hmem).
  exists F, rv, (set_io_heap h' (set_files files s2)), g'. split_and!; [done| | | | |by exists k, ce].
  - unfold fclose_orig, fflush. rewrite (proj2 (Z.eqb_neq f NULL)) by done. cbn [negb].
    rewrite run_bind, Hrun. cbn beta iota. rewrite run_bind, (run_file s1 f (set_obytes 0 F)) by apply lookup_at_file. cbn beta iota.
    unfold close. rewrite run_bind, run_bind, run_get. cbn beta iota. change (_IO_fileno (set_obytes 0 F)) with (_IO_fileno F).
    change (io_kernel s1) with k. rewrite Ec, run_bind, run_modify. cbn beta iota. rewrite run_ret. fold s2.
    rewrite run_bind in Hun. rewrite run_bind. destruct (update _ _ s2) as [[] s3| |]; [|done..].
    rewrite run_bind in Hun. rewrite run_bind. destruct (file f s3) as [F3 s4| |]; [|done..].
    rewrite run_bind in Hun. rewrite run_bind. destruct (update _ _ s4) as [[] s5| |]; [|done..].
    rewrite run_bind, Hun. cbn beta iota. unfold in_heap, zoom. rewrite run_bind. simpl io_heap. by rewrite Hfree.
  - split; [simpl; by rewrite fmap_app|]. apply (streams_files h' (io_files s)); [|done]. intros x Hx. assert (x ≠ f) as Hxf.
    { destruct (ring_neighbours _ _ _ _ Hr) as (_ & _ & _ & _ & _ & _ & Hni). intros ->. apply Hni. right. by rewrite <-fmap_app. }
    simpl. rewrite Hstrip by done. unfold stripped. simpl. by rewrite lookup_insert_ne.
  - simpl. by rewrite Hco, Hss.
  - intros x Hx. simpl. by rewrite Hco, Hci, Hso, Hsi.
Qed.

(** ** All streams *)

Lemma ring_upto files fs : ring head files fs → upto files fs.
Proof.
  intros [Hl Hnd]. apply NoDup_cons in Hnd as [Hh _]. revert Hl. generalize head at 1 as a.
  induction fs as [|f fs IH]; intros a Hl; [done|]. destruct Hl as [_ Hl]. rewrite not_elem_of_cons in Hh.
  split_and!; [naive_solver| |eapply IH; [naive_solver|exact Hl]]. destruct fs; simpl in Hl; tauto.
Qed.

Lemma flushed_field {A} (h : _IO_file_pvt → A) files fs x :
  (∀ F, h (set_obytes 0 F) = h F) → h <$> flushed fs files !! x = h <$> files !! x.
Proof. intros E. induction fs as [|f fs IH]; [done|]. simpl. by rewrite alter_field. Qed.

Lemma lookup_flushed files fs f F : files !! f = Some F → f ∈ fs → flushed fs files !! f = Some (set_obytes 0 F).
Proof.
  intros HF. induction fs as [|g fs IH]; intros Hin; [by apply elem_of_nil in Hin|]. simpl.
  destruct (decide (g = f)) as [->|].
  - rewrite lookup_alter_eq. destruct (decide (f ∈ fs)) as [Hf|Hf]; [by rewrite IH|].
    replace (flushed fs files !! f) with (Some F); [done|]. rewrite <-HF. clear -Hf.
    induction fs as [|x fs IH]; [done|]. rewrite not_elem_of_cons in Hf. simpl. rewrite lookup_alter_ne by naive_solver. naive_solver.
  - rewrite lookup_alter_ne by done. apply IH. apply elem_of_cons in Hin as [->|]; done.
Qed.

Definition flushed_dir (x : Z * direction) : Z * direction := (x.1, match x.2 with Out _ => Out [] | In u => In u end).

Lemma stream_of_flushed m files fs x : x.1 ∈ fs → stream_of m files x → stream_of m (flushed fs files) (flushed_dir x).
Proof.
  intros Hx (F & HF & Hb & Hz & Hs). exists (set_obytes 0 F). split_and!; [by apply lookup_flushed|done|done|].
  destruct x as [f [pend|u]]; simpl in *; [by eapply out_stream_flushed|].
  rewrite <-(is_obytes _ _ _ Hs), set_obytes_id. done.
Qed.

Lemma ring_size files fs : ring head files fs → (length fs < Datatypes.S (size files))%nat.
Proof.
  intros Hr. pose proof Hr as [_ Hnd]. apply NoDup_cons in Hnd as [_ Hnd].
  assert (list_to_set fs ⊆@{gset Z} dom files) as Hsub.
  { intros x Hx%elem_of_list_to_set. apply elem_of_dom. eapply ring_is_Some; [exact Hr|by right]. }
  apply subseteq_size in Hsub. rewrite size_list_to_set, size_dom in Hsub by done. lia.
Qed.

Lemma run_fflush_all s g live ds :
  reliable sys → streams_ok s g live ds → (Z.to_nat BUFSIZ + budget (io_kernel s) < fuel)%nat →
  ∃ k e, fflush sys fuel true head NULL s = Ret 0 (at_files s k e (flushed (ds.*1) (io_files s))) ∧
  sent_all (io_files s) (io_kernel s) k (ds.*1) (to_send <$> ds.*2) ∧
  streams_ok (at_files s k e (flushed (ds.*1) (io_files s))) g live (flushed_dir <$> ds).
Proof.
  intros Hrel [Hr Hok] Hfuel. pose proof (so_streams _ _ _ _ _ Hok) as Hs. rewrite Forall_forall in Hs.
  pose proof (ring_size _ _ Hr) as Hsz. pose proof Hr as [_ Hnd]. apply NoDup_cons in Hnd as [_ Hnd].
  destruct (run_flush_list (Datatypes.S (size (io_files s))) s (ds.*1) (to_send <$> ds.*2) 0 Hrel (ring_upto _ _ Hr) Hnd)
    as (k & e & Hrun & Hsent); [..|done|].
  - rewrite <-list_fmap_compose. apply Forall2_fmap, Forall_Forall2_diag, Forall_forall. intros x Hx.
    destruct (stream_holds _ _ _ (Hs x Hx)) as (F & HF & Hb & Ho & Hm). exists F. split_and!; [done..|].
    eapply Z.le_lt_trans; [exact Hm|by vm_compute].
  - rewrite <-list_fmap_compose. apply Forall_fmap, Forall_forall. intros x Hx. simpl.
    destruct (stream_holds _ _ _ (Hs x Hx)) as (F & _ & _ & _ & Hm). lia.
  - exists k, e. split; [|split; [done|]].
    + unfold fflush. change (negb (NULL =? NULL)) with false. cbn iota. unfold flush_all.
      destruct (ring_is_Some _ _ _ head Hr ltac:(by left)) as [Hd HHd]. rewrite run_bind, (run_file s head Hd HHd). cbn beta iota.
      rewrite run_bind, run_get. cbn beta iota.
      destruct (ring_next _ _ _ Hr) as [Hn _]. unfold next in Hn. rewrite HHd in Hn. injection Hn as ->. exact Hrun.
    + assert ((flushed_dir <$> ds).*1 = ds.*1) as Hfst by (rewrite <-list_fmap_compose; by apply list_fmap_ext).
      split.
      * rewrite Hfst. apply (ring_files (io_files s)); [intros x; by apply flushed_field..|done].
      * destruct Hok as [Hh Hu Hb Ha _]. constructor; simpl; [|done|done|by rewrite Hfst|].
        { unfold stream_blocks. by rewrite Hfst. }
        apply Forall_fmap, Forall_forall. intros x Hx. apply stream_of_flushed; [by apply list_elem_of_fmap_2|by apply Hs].
Qed.
End streams.

(** ** Witnesses *)

(** The head of the list at 100, a stream with "ab" pending in the block at 4128, and
    the list of handlers at 200, beside the static heap. *)
Definition node (fd p n b d o : Z) : _IO_file_pvt :=
  {| _IO_fileno := fd; _IO_eof := false; _IO_error := false; f_prev := p; f_next := n; f_buf := b; f_data := d;
     ibytes := 0; obytes := o; bufsiz := BUFSIZ; bufmode := _IOFBF |}.

Definition list_mem : mem :=
  write_bytes (write_bytes (write_bytes zero_heap 100 (replicate 56 0)) 200 (words [7000; 5; 0])) 4192 [97; 98].

Definition empty_list : io static_heap script_kernel :=
  {| io_heap := {| heap := 4096; heapcnt := 32; heap_mem := list_mem |}; io_files := {[ 100 := node 0 100 100 0 0 0 ]};
     io_kernel := {| sk_out := ∅; sk_in := ∅; sk_script := [1; 0; 3]%nat |}; io_errno := 0; stdin := 0; stdout := 0; stderr := 0 |}.

Definition one_stream : io static_heap script_kernel :=
  {| io_heap := {| heap := 4096; heapcnt := 16512; heap_mem := list_mem |};
     io_files := <[ 4128 := node 1 100 100 4192 4192 2 ]> {[ 100 := node 0 4128 4128 0 0 0 ]};
     io_kernel := {| sk_out := ∅; sk_in := ∅; sk_script := [1; 0; 3]%nat |}; io_errno := 0; stdin := 0; stdout := 0; stderr := 0 |}.

Lemma list_mem_contents : bytes_at list_mem 100 (replicate 56 0) ∧ bytes_at list_mem 200 (words [7000; 5; 0]) ∧ bytes_at list_mem 4192 [97; 98].
Proof. unfold list_mem. split_and!; peel. Qed.

Lemma list_mem_valid p n : 4096 ≤ p → p + n ≤ 4096 + KLIBC_MALLOC_STATIC_SIZE → valid list_mem p n.
Proof.
  intros Hp Hn. repeat apply write_bytes_valid. pose proof sample_heap_inv as (_ & _ & _ & Hv & _).
  apply (valid_sub _ 4096 KLIBC_MALLOC_STATIC_SIZE); [exact Hv|lia|lia].
Qed.

Ltac head_node :=
  constructor; [| |exists (replicate 56 0); split; [reflexivity|exact (proj1 list_mem_contents)]| |].

Lemma empty_list_ok : streams_ok 100 empty_list (4096, 32) [(4096, 20)] [].
Proof.
  split.
  - split; [split; reflexivity|]. by_decide.
  - head_node; [| |constructor|constructor].
    + split; [|reflexivity]. split; [simpl; lia|]. split; [by vm_compute|]. split; [by exists 2|].
      split; [apply list_mem_valid; simpl; lia|]. split; [|repeat constructor].
      apply Forall_cons; split; [simpl; lia|constructor].
    + simpl. unfold static_in_use, disjoint_ranges, SIZEOF_FILE_PVT, KLIBC_MALLOC_STATIC_SIZE. simpl. lia.
Qed.

Lemma one_stream_ok : streams_ok 100 one_stream (4096, 16512) [(4096, 20)] [(4128, Out [97; 98])].
Proof.
  split.
  - split; [|by_decide]. split; [split; reflexivity|split; reflexivity].
  - head_node.
    + split; [|reflexivity]. split; [simpl; lia|]. split; [by vm_compute|]. split; [by exists 1032|].
      split; [apply list_mem_valid; simpl; lia|].
      change (stream_blocks [(4128, Out [97; 98])] ++ [(4096, 20)]) with [(4128, 16480); (4096, 20)]. split.
      * apply Forall_cons; split; [simpl; lia|]. apply Forall_cons; split; [simpl; lia|constructor].
      * constructor; [|constructor; [constructor|constructor]]. apply Forall_cons; split; [|constructor].
        unfold disjoint_ranges. simpl. lia.
    + simpl. unfold static_in_use, disjoint_ranges, SIZEOF_FILE_PVT, KLIBC_MALLOC_STATIC_SIZE. simpl. lia.
    + apply Forall_cons; split; [|constructor]. right. change STREAM_SIZE with 16480. unfold SIZEOF_FILE_PVT. simpl. lia.
    + apply Forall_cons; split; [|constructor]. exists (node 1 100 100 4192 4192 2). split_and!; [reflexivity|reflexivity|reflexivity|].
      constructor; [reflexivity|by vm_compute|reflexivity|by vm_compute|exact (proj2 (proj2 list_mem_contents))|].
      apply list_mem_valid; [simpl; lia|]. change (bufsiz (node 1 100 100 4192 4192 2)) with 16384.
      unfold KLIBC_MALLOC_STATIC_SIZE. simpl. lia.
Qed.

Lemma fdopen_keeps_streams_witness :
  ∃ f s' g', fdopen_orig 100 1 0 empty_list = Ret f s' ∧
  (f = NULL ∨ f ≠ NULL ∧ streams_ok 100 s' g' [(4096, 20)] [(f, Out [])]).
Proof.
  destruct (@fdopen_keeps_streams static_heap script_kernel _ static_laws 100 empty_list (4096, 32) [(4096, 20)] [] 1 0 empty_list_ok)
    as (f & s' & g' & Hrun & _ & Hcase).
  - change STREAM_SIZE with 16480. simpl. unfold KLIBC_MALLOC_STATIC_SIZE. lia.
  - exists f, s', g'. split; [exact Hrun|]. destruct Hcase as [[Hf _]|(Hf & Hok & _)]; [left; exact Hf|right; exact (conj Hf Hok)].
Defined.

Lemma fclose_keeps_streams_witness :
  ∃ s' g', fclose_orig script_sys (Z.to_nat 20000) true 100 4128 one_stream = Ret 0 s' ∧
  streams_ok 100 s' g' [(4096, 20)] [] ∧ script_out 1 (io_kernel s') = [97; 98].
Proof.
  destruct (@fclose_keeps_streams static_heap script_kernel _ static_laws script_sys (Z.to_nat 20000) 100 script_out script_inp _ script_ok
    one_stream (4096, 16512) [(4096, 20)] [] 4128 (Out [97; 98]) [] script_reliable one_stream_ok)
    as (F & rv & s' & g' & HF & Hrun & Hok & Ho & _ & k & e & Hc).
  - change BUFSIZ with 16384. simpl length. lia.
  - exists s', g'. simpl in Hc. injection Hc as -> _ _. split; [exact Hrun|]. split; [exact Hok|].
    simpl in HF. rewrite lookup_insert_eq in HF. injection HF as <-. exact Ho.
Defined.
