(* ===== verification/Process.v ===== *)
(** * The end of a process: [onexit.c], [atexit.c], [atexit.h], [exit.c]

    The handlers are a linked list of blocks in the heap; [exit] calls them, the
    last registered first, and then flushes every open stream.  The handlers are
    code of the program: they are given by the argument [call]. *)

From Stdlib Require Import List.
From stdpp Require Import base tactics numbers list gmap.
From S2P Require Import Prelude Memory Words MemFns StrFns Alloc StaticHeap Stdio StdioSpec StdioList.

Open Scope Z_scope.

(** ** The code *)

(** [struct atexit] *)
Definition AT_FCTN : Z := 0.
Definition AT_ARG : Z := 8.
Definition AT_NEXT : Z := 16.
Definition SIZEOF_ATEXIT : Z := 24.

Record proc (S K : Type) := { p_io : io S K; __atexit_list : Z }.
Arguments p_io {S K}.
Arguments __atexit_list {S K}.

Section exit.
Context {S K : Type} `{Allocator S}.
Context (sys : syscalls K) (fuel : nat) (KLIBC_STREAMS_ORIG KLIBC_ATEXIT_CALLBACKS : bool) (__stdio_headnode : Z).
(** What calling the function at an address with the two arguments does. *)
Context (call : Z → Z → Z → C (proc S K) unit).
Implicit Types x : proc S K.

Definition set_p_io (s : io S K) x : proc S K := {| p_io := s; __atexit_list := __atexit_list x |}.
Definition set_list (p : Z) x : proc S K := {| p_io := p_io x; __atexit_list := p |}.

Definition in_io {A} (c : C (io S K) A) : C (proc S K) A := zoom p_io set_p_io c.

Definition on_exit (fctn arg : Z) : C (proc S K) Z :=
  p ← in_io (in_heap (a_malloc SIZEOF_ATEXIT));
  if p =? NULL then mret (-1) else
  in_io (iomem (store64 (p + AT_FCTN) fctn));;
  in_io (iomem (store64 (p + AT_ARG) arg));;
  x ← get;
  in_io (iomem (store64 (p + AT_NEXT) (__atexit_list x)));;
  modify (set_list p);;
  mret 0.

Definition atexit (fctn : Z) : C (proc S K) Z := on_exit fctn NULL.

(** The handlers from [ap] on. *)
Definition call_handlers (rv ap : Z) : C (proc S K) unit :=
  loop fuel (λ ap,
    if ap =? NULL then Break tt else
    f ← in_io (iomem (load64 (ap + AT_FCTN)));
    a ← in_io (iomem (load64 (ap + AT_ARG)));
    call f rv a;;
    n ← in_io (iomem (load64 (ap + AT_NEXT)));
    Next n) ap.

(** The status the process ends with. *)
Definition exit (rv : Z) : C (proc S K) Z :=
  (if KLIBC_ATEXIT_CALLBACKS then x ← get; call_handlers rv (__atexit_list x) else mret tt);;
  in_io (fflush sys fuel KLIBC_STREAMS_ORIG __stdio_headnode NULL);;
  mret rv.
End exit.

(** ** The list of handlers *)

Section proofs.
Context {S K : Type} `{AllocatorLaws S}.
Context (sys : syscalls K) (fuel : nat) (head : Z).
Context (call : Z → Z → Z → C (proc S K) unit).
Implicit Types (x : proc S K) (ps : list Z) (hs : list (Z * Z)) (live : list block).

Abbreviation heap_of x := (io_heap (p_io x)).
Abbreviation memory x := (amem (heap_of x)).

(** The blocks [ps] from [p] on hold the handlers [hs] and their arguments. *)
Fixpoint handlers (m : mem) (p : Z) ps hs : Prop :=
  match ps, hs with
  | [], [] => p = NULL
  | q :: ps, (f, a) :: hs =>
      p = q ∧ 0 < q < 2 ^ 64 ∧ 0 ≤ f < 2 ^ 64 ∧ 0 ≤ a < 2 ^ 64 ∧
      bytes_at m q (words [f; a; hd NULL ps]) ∧ handlers m (hd NULL ps) ps hs
  | _, _ => False
  end.

Record exit_ok x (g : ghost) live ps hs : Prop := {
  eo_list : handlers (memory x) (__atexit_list x) ps hs;
  eo_heap : heap_inv (heap_of x) g (((λ p, (p, SIZEOF_ATEXIT)) <$> ps) ++ live);
}.

Lemma handlers_head m p ps hs : handlers m p ps hs → p = hd NULL ps.
Proof. destruct ps, hs as [|[f a] hs]; simpl; try done. by intros [-> _]. Qed.

Lemma handlers_addr m p ps hs : handlers m p ps hs → 0 ≤ p < 2 ^ 64.
Proof. destruct ps, hs as [|[f a] hs]; simpl; try done; [intros ->; unfold NULL; lia|]. intros (-> & ? & _). lia. Qed.

(** A memory that keeps the blocks keeps the list. *)
Lemma handlers_memory m m' p ps hs :
  handlers m p ps hs → (∀ q l, q ∈ ps → Z.of_nat (length l) = SIZEOF_ATEXIT → bytes_at m q l → bytes_at m' q l) →
  handlers m' p ps hs.
Proof.
  revert p hs. induction ps as [|q ps IH]; intros p [|[f a] hs]; try done. simpl. intros (-> & ? & ? & ? & Hb & Hl) Hm.
  do 4 (split; [done|]). split; [by apply Hm; [left|by rewrite words_length|]|].
  apply IH; [done|]. intros r l Hr. apply Hm. by right.
Qed.

(** The words of a block. *)
Lemma handler_words m q f a n :
  0 ≤ f < 2 ^ 64 → 0 ≤ a < 2 ^ 64 → 0 ≤ n < 2 ^ 64 → bytes_at m q (words [f; a; n]) →
  word m (q + AT_FCTN) = Some f ∧ word m (q + AT_ARG) = Some a ∧ word m (q + AT_NEXT) = Some n.
Proof.
  intros Hf Ha Hn Hb. pose proof (words_lookup m q [f; a; n]) as Hw. split_and!.
  - exact (Hw 0%nat f Hb eq_refl Hf).
  - exact (Hw 1%nat a Hb eq_refl Ha).
  - exact (Hw 2%nat n Hb eq_refl Hn).
Qed.

Lemma run_in_io {A} (c : C (io S K) A) x a s : c (p_io x) = Ret a s → in_io c x = Ret a (set_p_io s x).
Proof. intros E. unfold in_io, zoom. by rewrite E. Qed.

Lemma run_in_io_read {A} (c : C (io S K) A) x a : c (p_io x) = Ret a (p_io x) → in_io c x = Ret a x.
Proof. intros E. rewrite (run_in_io c x a _ E). by destruct x. Qed.

(** The stores that fill a new block. *)
Lemma fill_words m q f a n :
  bytes_at (put (put (put m (q + AT_FCTN) f) (q + AT_ARG) a) (q + AT_NEXT) n) q (words [f; a; n]) ∧
  ∀ y, y < q ∨ q + SIZEOF_ATEXIT ≤ y → put (put (put m (q + AT_FCTN) f) (q + AT_ARG) a) (q + AT_NEXT) n !! y = m !! y.
Proof.
  unfold AT_FCTN, AT_ARG, AT_NEXT, SIZEOF_ATEXIT. split.
  - pose proof (words_snoc m q [] f (bytes_at_nil _ _)) as H1.
    pose proof (words_snoc _ q [f] a H1) as H2. exact (words_snoc _ q [f; a] n H2).
  - intros y Hy. rewrite !lookup_put_out by lia. done.
Qed.

(** The state with another memory. *)
Definition with_mem (m : mem) x : proc S K := set_p_io (set_io_heap (set_amem m (heap_of x)) (p_io x)) x.

Lemma memory_with m x : memory (with_mem m x) = m.
Proof. apply amem_set. Qed.

Lemma with_mem_with m m' x : with_mem m (with_mem m' x) = with_mem m x.
Proof. unfold with_mem, set_p_io, set_io_heap. simpl. by rewrite set_amem_set. Qed.

Lemma run_pstore x p v : valid (memory x) p 8 → in_io (iomem (store64 p v)) x = Ret tt (with_mem (put (memory x) p v) x).
Proof. intros Hv. by apply run_in_io, run_iomem, run_store64. Qed.

Lemma run_pload x p v : word (memory x) p = Some v → in_io (iomem (load64 p)) x = Ret v x.
Proof. intros Hv. by apply run_in_io_read, run_iomem_read, run_load64. Qed.

Lemma heap_with_put x g live p v :
  heap_inv (heap_of x) g live → in_use g p 8 → valid (memory x) p 8 → heap_inv (heap_of (with_mem (put (memory x) p v) x)) g live.
Proof. apply heap_inv_put. Qed.

(** The block filled and made the head of the list. *)
Lemma run_register x g live p fctn arg :
  heap_inv (heap_of x) g ((p, SIZEOF_ATEXIT) :: live) →
  ∃ m, (in_io (iomem (store64 (p + AT_FCTN) fctn));; in_io (iomem (store64 (p + AT_ARG) arg));;
        x ← get; in_io (iomem (store64 (p + AT_NEXT) (__atexit_list x)));; modify (set_list p);; mret 0) x =
    Ret 0 (set_list p (with_mem m x)) ∧
  heap_inv (heap_of (with_mem m x)) g ((p, SIZEOF_ATEXIT) :: live) ∧
  bytes_at m p (words [fctn; arg; __atexit_list x]) ∧
  ∀ q l, disjoint_ranges p SIZEOF_ATEXIT q (Z.of_nat (length l)) → bytes_at (memory x) q l → bytes_at m q l.
Proof.
  intros Hh. destruct (heap_inv_block _ _ _ p SIZEOF_ATEXIT Hh) as (Hv & Hu & _); [by left|].
  set (m1 := put (memory x) (p + AT_FCTN) fctn). set (m2 := put m1 (p + AT_ARG) arg).
  exists (put m2 (p + AT_NEXT) (__atexit_list x)). set (m3 := put m2 (p + AT_NEXT) (__atexit_list x)).
  destruct (fill_words (memory x) p fctn arg (__atexit_list x)) as [Hb Hout]. fold m1 in Hb, Hout. fold m2 in Hb, Hout. fold m3 in Hb, Hout.
  assert (∀ o, o = AT_FCTN ∨ o = AT_ARG ∨ o = AT_NEXT → valid (memory x) (p + o) 8 ∧ in_use g (p + o) 8) as Hvo.
  { intros o Ho. split; [apply (valid_sub _ p SIZEOF_ATEXIT)|apply (in_use_sub _ p SIZEOF_ATEXIT)]; try done;
      unfold AT_FCTN, AT_ARG, AT_NEXT, SIZEOF_ATEXIT in *; lia. }
  destruct (Hvo AT_FCTN) as [V1 U1]; [by left|]. destruct (Hvo AT_ARG) as [V2 U2]; [by right; left|].
  destruct (Hvo AT_NEXT) as [V3 U3]; [by right; right|].
  assert (valid m1 (p + AT_ARG) 8) as V2' by (by apply put_valid).
  assert (valid m2 (p + AT_NEXT) 8) as V3' by (by do 2 apply put_valid). split_and!; [| |done|].
  - rewrite run_bind, run_pstore by done. cbn beta iota. fold m1.
    rewrite run_bind, run_pstore by (by rewrite memory_with). cbn beta iota. rewrite memory_with, with_mem_with. fold m2.
    rewrite run_bind, run_get. cbn beta iota. change (__atexit_list (with_mem m2 x)) with (__atexit_list x).
    rewrite run_bind, run_pstore by (by rewrite memory_with). cbn beta iota. rewrite memory_with, with_mem_with. fold m3.
    by rewrite run_bind, run_modify.
  - pose proof (heap_with_put x g _ (p + AT_FCTN) fctn Hh U1 V1) as H1. fold m1 in H1.
    pose proof (heap_with_put _ g _ (p + AT_ARG) arg H1 U2 ltac:(by rewrite memory_with)) as H2.
    rewrite memory_with, with_mem_with in H2. fold m2 in H2.
    pose proof (heap_with_put _ g _ (p + AT_NEXT) (__atexit_list x) H2 U3 ltac:(by rewrite memory_with)) as H3.
    by rewrite memory_with, with_mem_with in H3.
  - intros q l Hd Hl. apply (bytes_at_ext (memory x)); [done|]. intros y Hy. apply Hout. unfold disjoint_ranges in Hd. lia.
Qed.

(** On_exit either returns -1 and leaves the list of handlers as it was, or
    returns 0 and puts the handler and its argument, in a block of its own, in front
    of the list; the heap stays consistent and memory in use keeps its contents. *)
Theorem on_exit_registers x g live ps hs fctn arg :
  exit_ok x g live ps hs → SIZEOF_ATEXIT ≤ max_request → 0 ≤ fctn < 2 ^ 64 → 0 ≤ arg < 2 ^ 64 →
  ∃ r x' g', on_exit fctn arg x = Ret r x' ∧
  (∀ q l, l ≠ [] → in_use g q (Z.of_nat (length l)) → bytes_at (memory x) q l →
     bytes_at (memory x') q l ∧ in_use g' q (Z.of_nat (length l))) ∧
  (r = -1 ∧ exit_ok x' g' live ps hs ∨ r = 0 ∧ ∃ p, exit_ok x' g' live (p :: ps) ((fctn, arg) :: hs)).
Proof.
  intros [Hl Hh] Hmax Hf Ha. unfold on_exit.
  destruct (malloc_ok (heap_of x) g _ SIZEOF_ATEXIT Hh) as (p & h & g' & Hrun & Hkeep & Hcase);
    [unfold SIZEOF_ATEXIT in *; lia|].
  assert (in_io (in_heap (a_malloc SIZEOF_ATEXIT)) x = Ret p (set_p_io (set_io_heap h (p_io x)) x)) as Hm
    by (apply run_in_io; unfold in_heap, zoom; by rewrite Hrun).
  rewrite run_bind, Hm. cbn beta iota.
  assert (∀ q l, q ∈ ps → Z.of_nat (length l) = SIZEOF_ATEXIT → bytes_at (memory x) q l → bytes_at (amem h) q l) as Hkeepl.
  { intros q l Hq Hll Hb. apply Hkeep; [by intros ->| |done]. rewrite Hll.
    destruct (heap_inv_block _ _ _ q SIZEOF_ATEXIT Hh) as (_ & ? & _); [|done]. apply elem_of_app. left.
    by apply (list_elem_of_fmap_2 (λ p, (p, SIZEOF_ATEXIT))). }
  destruct Hcase as [[-> Hh']|(Hp & Hh' & Hdis)].
  { rewrite Z.eqb_refl, run_ret. eexists (-1), _, g'. split; [done|]. split; [done|]. left. split; [done|].
    split; [|done]. by apply (handlers_memory (memory x)). }
  rewrite (proj2 (Z.eqb_neq p NULL)) by done.
  destruct (heap_inv_block _ _ _ p SIZEOF_ATEXIT Hh') as (_ & _ & Hpos); [by left|].
  set (x1 := set_p_io (set_io_heap h (p_io x)) x).
  destruct (run_register x1 g' _ p fctn arg Hh') as (m & Hreg & Hh2 & Hb & Hout).
  exists 0, (set_list p (with_mem m x1)), g'. split; [exact Hreg|].
  change (memory (set_list p (with_mem m x1))) with (memory (with_mem m x1)). rewrite memory_with. split.
  - intros q l Hne Hq Hbl. destruct (Hkeep q l Hne Hq Hbl) as [Hbl' Hq']. split; [|done]. by apply Hout; [apply Hdis|].
  - right. split; [done|]. exists p. split; [|exact Hh2].
    change (memory (set_list p (with_mem m x1))) with (memory (with_mem m x1)). rewrite memory_with.
    do 4 (split; [done|]). rewrite <-(handlers_head _ _ _ _ Hl). split; [exact Hb|].
    apply (handlers_memory (amem h)); [by apply (handlers_memory (memory x))|].
    intros q l Hq Hll Hbl. apply Hout; [|done]. rewrite Hll.
    pose proof (heap_inv_disjoint _ _ _ Hh') as Hd. inversion Hd as [|? ? Hd1 _]; subst. rewrite Forall_forall in Hd1.
    pose proof (list_elem_of_fmap_2 (λ p, (p, SIZEOF_ATEXIT)) _ q Hq) as Hin.
    exact (Hd1 (q, SIZEOF_ATEXIT) (proj2 (elem_of_app _ _ _) (or_introl Hin))).
Qed.

(** The handlers registered one after the other, with the results of the calls, and those
    of them that were accepted. *)
Fixpoint register hs : C (proc S K) (list Z) :=
  match hs with
  | [] => mret []
  | (f, a) :: hs => r ← on_exit f a; rs ← register hs; mret (r :: rs)
  end.

Definition registered hs (rs : list Z) : list (Z * Z) := (filter (λ p, snd p = 0) (zip hs rs)).*1.

Definition handler_args (h : Z * Z) : Prop := 0 ≤ fst h < 2 ^ 64 ∧ 0 ≤ snd h < 2 ^ 64.

(** The list holds the accepted handlers, the last one first. *)
Lemma run_registrations x g live ps hs regs :
  exit_ok x g live ps hs → SIZEOF_ATEXIT ≤ max_request → Forall handler_args regs →
  ∃ rs x' g' ps', register regs x = Ret rs x' ∧ length rs = length regs ∧ Forall (λ r, r = 0 ∨ r = -1) rs ∧
  exit_ok x' g' live ps' (rev (registered regs rs) ++ hs).
Proof.
  intros Hok Hmax Hregs. revert x g ps hs Hok. induction Hregs as [|[f a] regs [Hf Ha] _ IH]; intros x g ps hs Hok.
  { exists [], x, g, ps. by split_and!. }
  destruct (on_exit_registers x g live ps hs f a Hok Hmax Hf Ha) as (r & x1 & g1 & Hrun & _ & Hcase).
  assert (∃ ps1 hs1, exit_ok x1 g1 live ps1 hs1 ∧ (r = 0 ∨ r = -1) ∧ hs1 = (if decide (r = 0) then [(f, a)] else []) ++ hs) as (ps1 & hs1 & Hok1 & Hr & Ehs).
  { destruct Hcase as [[-> Hok1]|[-> [p Hok1]]]; [exists ps, hs|exists (p :: ps), ((f, a) :: hs)]; (split; [done|]; split; [|done]); [by right|by left]. }
  destruct (IH x1 g1 ps1 hs1 Hok1) as (rs & x' & g' & ps' & Hrest & Hlen & Hrs & Hok').
  exists (r :: rs), x', g', ps'. cbn [register]. rewrite run_bind, Hrun. cbn beta iota. rewrite run_bind, Hrest. cbn beta iota.
  split; [done|]. split; [simpl; by rewrite Hlen|]. split; [by constructor|].
  unfold registered in *. cbn [zip_with]. rewrite filter_cons. cbn [snd]. rewrite Ehs in Hok'.
  destruct (decide (r = 0)); [|done]. cbn [fmap list_fmap fst rev]. by rewrite <-app_assoc.
Qed.

(** ** The calls *)

(** The handlers called one after the other. *)
Fixpoint run_handlers (rv : Z) hs : C (proc S K) unit :=
  match hs with
  | [] => mret tt
  | (f, a) :: hs => call f rv a;; run_handlers rv hs
  end.

Lemma run_handlers_snoc rv hs f a x x1 x2 :
  run_handlers rv hs x = Ret tt x1 → call f rv a x1 = Ret tt x2 → run_handlers rv (hs ++ [(f, a)]) x = Ret tt x2.
Proof.
  revert x. induction hs as [|[f' a'] hs IH]; intros x Hr Hc; simpl in *.
  - injection Hr as <-. by rewrite run_bind, Hc.
  - rewrite run_bind in Hr |- *. destruct (call f' rv a' x) as [[] y| |]; [|done..]. by apply IH.
Qed.

(** The list from one of its blocks on. *)
Lemma handlers_suffix m p ps hs ps1 hs1 ps2 hs2 :
  handlers m p ps hs → ps = ps1 ++ ps2 → hs = hs1 ++ hs2 → length ps1 = length hs1 → handlers m (hd NULL ps2) ps2 hs2.
Proof.
  revert p ps hs hs1. induction ps1 as [|q ps1 IH]; intros p ps hs [|[f a] hs1] Hl -> -> Hlen; try done.
  - pose proof (handlers_head _ _ _ _ Hl) as ->. done.
  - simpl in Hl. destruct Hl as (_ & _ & _ & _ & _ & Hl). eapply IH; [exact Hl|done|done|by injection Hlen].
Qed.

(** A handler returns and leaves the list alone. *)
Definition well_behaved_calls rv x p ps hs : Prop :=
  ∀ l f a r x1, hs = l ++ (f, a) :: r → run_handlers rv l x = Ret tt x1 → handlers (memory x1) p ps hs →
  ∃ x2, call f rv a x1 = Ret tt x2 ∧ handlers (memory x2) p ps hs.

Lemma run_call_loop rv x p ps hs n ps1 hs1 ps2 hs2 x1 :
  well_behaved_calls rv x p ps hs → ps = ps1 ++ ps2 → hs = hs1 ++ hs2 → length ps1 = length hs1 →
  run_handlers rv hs1 x = Ret tt x1 → handlers (memory x1) p ps hs → (length hs2 < n)%nat →
  ∃ x2, loop n (λ ap,
    if ap =? NULL then Break tt else
    f ← in_io (iomem (load64 (ap + AT_FCTN)));
    a ← in_io (iomem (load64 (ap + AT_ARG)));
    call f rv a;;
    n ← in_io (iomem (load64 (ap + AT_NEXT)));
    Next n) (hd NULL ps2) x1 = Ret tt x2 ∧ run_handlers rv hs x = Ret tt x2.
Proof.
  intros Hcall -> -> Hlen Hrun Hl. pose proof (handlers_suffix _ _ _ _ ps1 hs1 ps2 hs2 Hl eq_refl eq_refl Hlen) as Hs.
  revert n ps1 hs1 hs2 x1 Hcall Hlen Hrun Hl Hs.
  induction ps2 as [|q ps2 IH]; intros [|n] ps1 hs1 [|[f a] hs2] x1 Hcall Hlen Hrun Hl Hs Hn; try (simpl in Hn; lia); try done.
  { exists x1. rewrite run_loop. by rewrite app_nil_r in *. }
  simpl in Hs. destruct Hs as (_ & Hq & Hf & Ha & Hb & Hs).
  destruct (handler_words _ _ _ _ _ Hf Ha (handlers_addr _ _ _ _ Hs) Hb) as (W1 & W2 & _).
  destruct (Hcall hs1 f a hs2 x1 eq_refl Hrun Hl) as (x2 & Hc & Hl2).
  pose proof (handlers_suffix _ _ _ _ ps1 hs1 (q :: ps2) ((f, a) :: hs2) Hl2 eq_refl eq_refl Hlen) as Hs2.
  simpl in Hs2. destruct Hs2 as (_ & _ & _ & _ & Hb2 & Hs2).
  destruct (handler_words _ _ _ _ _ Hf Ha (handlers_addr _ _ _ _ Hs2) Hb2) as (_ & _ & W3).
  rewrite run_loop. cbn beta. cbn [hd]. rewrite (proj2 (Z.eqb_neq q NULL)) by (unfold NULL; lia).
  rewrite run_bind, (run_pload _ _ _ W1). cbn beta iota. rewrite run_bind, (run_pload _ _ _ W2). cbn beta iota.
  rewrite run_bind, Hc. cbn beta iota. rewrite run_bind, (run_pload _ _ _ W3). cbn beta iota. rewrite run_ret.
  assert (hs1 ++ (f, a) :: hs2 = (hs1 ++ [(f, a)]) ++ hs2) as Ehs by (by rewrite <-app_assoc).
  assert (ps1 ++ q :: ps2 = (ps1 ++ [q]) ++ ps2) as Eps by (by rewrite <-app_assoc).
  rewrite Ehs, Eps in *. apply (IH n (ps1 ++ [q]) (hs1 ++ [(f, a)]) hs2 x2); [done| |by eapply run_handlers_snoc|done|done|simpl in Hn; lia].
  rewrite !length_app. simpl. lia.
Qed.

Section flush.
Context (out inp : Z → K → list Z) (budget : K → nat).
Context (Hsys : syscalls_ok sys out inp budget).

Lemma run_exit_handlers (callbacks : bool) x rv ps hs :
  handlers (memory x) (__atexit_list x) ps hs → well_behaved_calls rv x (__atexit_list x) ps hs → (length hs < fuel)%nat →
  ∃ x1, run_handlers rv (if callbacks then hs else []) x = Ret tt x1 ∧
  (if callbacks then x ← get; call_handlers fuel call rv (__atexit_list x) else mret tt) x = Ret tt x1.
Proof.
  intros Hl Hcall Hn. destruct callbacks; [|by exists x].
  destruct (run_call_loop rv x (__atexit_list x) ps hs fuel [] [] ps hs x Hcall eq_refl eq_refl eq_refl eq_refl Hl Hn) as (x1 & Hloop & Hrun).
  exists x1. split; [done|]. rewrite run_bind, run_get. cbn beta iota. unfold call_handlers. by rewrite (handlers_head _ _ _ _ Hl), Hloop.
Qed.

Lemma length_registered regs rs : (length (registered regs rs) ≤ length regs)%nat.
Proof.
  unfold registered. rewrite length_fmap. etrans; [apply length_filter|]. rewrite length_zip. lia.
Qed.

(** C26: after any handlers are registered with on_exit (some may be refused for want of
    memory), exit calls those accepted, each once and the last registered first, with
    the status and the argument it was registered with, when KLIBC_ATEXIT_CALLBACKS is
    defined, and none of them when it is not.  Then, when KLIBC_STREAMS_ORIG is defined,
    it delivers what is pending on every open stream to its descriptor, in the order of
    the list of streams; when it is not, nothing is buffered and nothing happens.  It
    ends with the status given.  (poet.h defines neither.) *)
Theorem exit_runs_and_flushes (orig callbacks : bool) x0 g0 live0 regs rv :
  exit_ok x0 g0 live0 [] [] → SIZEOF_ATEXIT ≤ max_request → Forall handler_args regs → (length regs < fuel)%nat →
  ∃ rs x, register regs x0 = Ret rs x ∧ length rs = length regs ∧ Forall (λ r, r = 0 ∨ r = -1) rs ∧
  let hs := rev (registered regs rs) in
  ((∀ ps, handlers (memory x) (__atexit_list x) ps hs → well_behaved_calls rv x (__atexit_list x) ps hs) →
   ∃ x1, run_handlers rv (if callbacks then hs else []) x = Ret tt x1 ∧
   if orig then
     ∀ g live ds, reliable sys → streams_ok head (p_io x1) g live ds →
       (Z.to_nat BUFSIZ + budget (io_kernel (p_io x1)) < fuel)%nat →
     ∃ x', exit sys fuel orig callbacks head call rv x = Ret rv x' ∧
     (∀ fd, out fd (io_kernel (p_io x')) =
        out fd (io_kernel (p_io x1)) ++ held (io_files (p_io x1)) fd (ds.*1) (to_send <$> ds.*2)) ∧
     streams_ok head (p_io x') g live (flushed_dir <$> ds)
   else exit sys fuel orig callbacks head call rv x = Ret rv x1).
Proof.
  intros Hok Hmax Hregs Hn. destruct (run_registrations x0 g0 live0 [] [] regs Hok Hmax Hregs) as (rs & x & g1 & ps & Hreg & Hlen & Hrs & [Hl _]).
  exists rs, x. do 3 (split; [done|]). intros hs Hcall. rewrite app_nil_r in Hl. fold hs in Hl.
  destruct (run_exit_handlers callbacks x rv ps hs Hl (Hcall ps Hl)) as (x1 & Hrun & Hh).
  { subst hs. rewrite length_rev. pose proof (length_registered regs rs). lia. }
  exists x1. split; [done|]. destruct orig.
  - intros g live ds Hrel Hsok Hfuel.
    destruct (run_fflush_all sys fuel head out inp budget Hsys (p_io x1) g live ds Hrel Hsok Hfuel) as (k & e & Hflush & (_ & Hs & _) & Hok').
    exists (set_p_io (at_files (p_io x1) k e (flushed (ds.*1) (io_files (p_io x1)))) x1).
    split; [|split; [exact Hs|exact Hok']]. unfold exit. rewrite run_bind, Hh. cbn beta iota.
    by rewrite run_bind, (run_in_io _ _ _ _ Hflush).
  - unfold exit. rewrite run_bind, Hh. cbn beta iota. rewrite run_bind, (run_in_io_read _ _ 0); done.
Qed.
End flush.
End proofs.

(** ** Witnesses *)

Definition demo_proc (s : io static_heap script_kernel) : proc static_heap script_kernel :=
  {| p_io := s; __atexit_list := 200 |}.

Definition demo_call (f rv a : Z) : C (proc static_heap script_kernel) unit :=
  modify (λ x, set_p_io (set_io_errno (f + rv + a) (p_io x)) x).

Lemma on_exit_registers_witness :
  ∃ r x' g', on_exit 9000 3 (set_list 0 (demo_proc empty_list)) = Ret r x' ∧
  (r = -1 ∨ ∃ p, exit_ok x' g' [(4096, 20)] [p] [(9000, 3)]).
Proof.
  destruct (@on_exit_registers static_heap script_kernel _ static_laws (set_list 0 (demo_proc empty_list)) (4096, 32) [(4096, 20)] [] [] 9000 3)
    as (r & x' & g' & Hrun & _ & Hcase).
  - split; [reflexivity|]. exact (so_heap _ _ _ _ _ _ (proj2 empty_list_ok)).
  - unfold SIZEOF_ATEXIT. simpl. unfold KLIBC_MALLOC_STATIC_SIZE. lia.
  - lia.
  - lia.
  - exists r, x', g'. split; [exact Hrun|]. destruct Hcase as [[Hr _]|[_ Hp]]; [left; exact Hr|right; exact Hp].
Defined.

(** Two handlers registered and run with the simple streams; and the flush of a stream
    with the original ones. *)
Lemma exit_runs_and_flushes_witness :
  (∃ rs x x1, register [(7000, 5); (9000, 3)] (set_list 0 (demo_proc empty_list)) = Ret rs x ∧ length rs = 2%nat ∧
   run_handlers demo_call 1 (rev (registered [(7000, 5); (9000, 3)] rs)) x = Ret tt x1 ∧
   exit script_sys (Z.to_nat 20000) false true 100 demo_call 1 x = Ret 1 x1) ∧
  ∃ x', exit script_sys (Z.to_nat 20000) true true 100 demo_call 1 (set_list 0 (demo_proc one_stream)) = Ret 1 x' ∧
  script_out 1 (io_kernel (p_io x')) = [97; 98].
Proof.
  split.
  - destruct (@exit_runs_and_flushes static_heap script_kernel _ static_laws script_sys (Z.to_nat 20000) 100 demo_call
      script_out script_inp _ script_ok false true (set_list 0 (demo_proc empty_list)) (4096, 32) [(4096, 20)] [(7000, 5); (9000, 3)] 1)
      as (rs & x & Hreg & Hlen & _ & Hexit).
    + split; [reflexivity|]. exact (so_heap _ _ _ _ _ _ (proj2 empty_list_ok)).
    + unfold SIZEOF_ATEXIT. simpl. unfold KLIBC_MALLOC_STATIC_SIZE. lia.
    + repeat constructor; simpl; lia.
    + simpl length. lia.
    + destruct Hexit as (x1 & Hrun & Hx); [intros ps _ l f a r x1 _ _ Hl; by exists (set_p_io (set_io_errno (f + 1 + a) (p_io x1)) x1)|].
      by exists rs, x, x1.
  - destruct (@exit_runs_and_flushes static_heap script_kernel _ static_laws script_sys (Z.to_nat 20000) 100 demo_call
      script_out script_inp _ script_ok true true (set_list 0 (demo_proc one_stream)) (4096, 16512) (stream_blocks [(4128, Out [97; 98])] ++ [(4096, 20)]) [] 1)
      as (rs & x & Hreg & _ & _ & Hexit).
    + split; [reflexivity|]. exact (so_heap _ _ _ _ _ _ (proj2 one_stream_ok)).
    + unfold SIZEOF_ATEXIT. simpl. unfold KLIBC_MALLOC_STATIC_SIZE. lia.
    + constructor.
    + simpl length. lia.
    + injection Hreg as <- <-. destruct Hexit as (x1 & Hrun & Hflush); [intros ps _ l f a r x1 El; by destruct l|].
      injection Hrun as <-. destruct (Hflush (4096, 16512) [(4096, 20)] [(4128, Out [97; 98])]) as (x' & Hx & Hout & _).
      * exact script_reliable.
      * exact one_stream_ok.
      * change BUFSIZ with 16384. simpl length. lia.
      * exists x'. split; [exact Hx|]. specialize (Hout 1). refine (eq_trans Hout _). reflexivity.
Defined.
