(* ===== verification/Exec.v ===== *)
(** * Program execution: [execvpe.c], [exec_l.c], [execl.c], [execle.c],
    [execlp.c], [execlpe.c], [execv.c], [execvp.c]

    [execvpe] looks for a program along the search path of the environment; the
    functions of [exec_l.c] gather their arguments into a vector first.  The system
    call is a parameter: what it does with a path and the two vectors, in a state of
    the kernel.  The local arrays and the string constants of the functions are
    arguments, the addresses at which they are.

    [execvpe_searches]: the programs tried are the joined elements of the path, in
    order, up to the first that is executed or fails for good.  [execlp_gathers]:
    the vector of the variadic functions holds their arguments and a null pointer. *)

From Stdlib Require Import List.
From stdpp Require Import base tactics numbers list gmap.
From S2P Require Import Prelude Memory Words MemFns StrFns Tokens Alloc StaticHeap Env Printf Stdio StdioSpec.

Open Scope Z_scope.

(** ** The code *)

Definition PATH_MAX : Z := 4096.
(** ["/bin:/usr/bin:."] *)
Definition DEFAULT_PATH : list Z := [47; 98; 105; 110; 58; 47; 117; 115; 114; 47; 98; 105; 110; 58; 46].

Definition ENOENT : Z := 2.
Definition E2BIG : Z := 7.
Definition ENOEXEC : Z := 8.
Definition ENOMEM : Z := 12.
Definition ETXTBSY : Z := 26.

Record execstate (S K : Type) := { x_env : envstate S; x_kernel : K }.
Arguments x_env {S K}.
Arguments x_kernel {S K}.

(** A call that succeeds does not return: the image of the process is replaced. *)
Inductive exec_result : Type :=
  | Replaced (path : list Z) (argv envp : Z)
  | Returned (rv : Z).

Section exec.
Context {S K : Type} `{Allocator S}.
(** The error of the system call, or [None] when the program runs. *)
Context (sys_execve : list Z → Z → Z → K → option Z * K).
Context (fuel : nat).
(** The addresses of the strings [PATH] and [DEFAULT_PATH]. *)
Context (PATH default_path : Z).
Implicit Types x : execstate S K.

Definition set_x_env (e : envstate S) x : execstate S K := {| x_env := e; x_kernel := x_kernel x |}.
Definition set_x_kernel (k : K) x : execstate S K := {| x_env := x_env x; x_kernel := k |}.

Definition in_env {A} (c : C (envstate S) A) : C (execstate S K) A := zoom x_env set_x_env c.
Definition xmem {A} (c : C mem A) : C (execstate S K) A := in_env (emem c).

(** The kernel reads the path up to its terminator. *)
Definition execve (path argv envp : Z) : C (execstate S K) exec_result :=
  n ← xmem (strlen path);
  t ← xmem (load_bytes (Z.to_nat n) path);
  x ← get;
  let '(r, k) := sys_execve t argv envp (x_kernel x) in
  modify (set_x_kernel k);;
  match r with
  | None => mret (Replaced t argv envp)
  | Some e => modify (λ x, set_x_env (set_errno e (x_env x)) x);; mret (Returned (-1))
  end.

(** The candidate of the element of [prefixlen] bytes at [searchpath], in [path];
    [false] when it is too long. *)
Definition join_path (path file filelen searchpath prefixlen : Z) : C mem bool :=
  dir ← (if prefixlen =? 0 then mret true else c ← loadc (searchpath + (prefixlen - 1)); mret (c =? 47));
  if dir : bool then
    let totallen := u64 (prefixlen + filelen) in
    if PATH_MAX <=? totallen then mret false else
    memcpy path searchpath prefixlen;;
    memcpy (path + prefixlen) file filelen;;
    store8 (path + totallen) 0;;
    mret true
  else
    let totallen := u64 (prefixlen + filelen + 1) in
    if PATH_MAX <=? totallen then mret false else
    memcpy path searchpath prefixlen;;
    store8 (path + prefixlen) 47;;
    memcpy (path + prefixlen + 1) file filelen;;
    store8 (path + totallen) 0;;
    mret true.

(** One round of the search.  A [continue] goes to the condition of the loop,
    and leaves [searchpath] as it is. *)
Definition exec_round (path file filelen argv envp searchpath : Z) : C (execstate S K) (Z + exec_result) :=
  esp ← xmem (strchr searchpath 58);
  prefixlen ← (if esp =? NULL then xmem (strlen searchpath) else mret (esp - searchpath));
  ok ← xmem (join_path path file filelen searchpath prefixlen);
  if ok : bool then
    r ← execve path argv envp;
    match r with
    | Replaced _ _ _ => Break r
    | Returned _ =>
        x ← get;
        let errno := errno (x_env x) in
        if (errno =? E2BIG) || (errno =? ENOEXEC) || (errno =? ENOMEM) || (errno =? ETXTBSY)
        then Break (Returned (-1))
        else if esp =? NULL then Break (Returned (-1)) else Next (esp + 1)
    end
  else if esp =? NULL then Break (Returned (-1)) else Next searchpath.

Definition execvpe (path file argv envp : Z) : C (execstate S K) exec_result :=
  slash ← xmem (strchr file 47);
  if negb (slash =? NULL) then execve file argv envp else
  filelen ← xmem (strlen file);
  p ← in_env (getenv PATH);
  let searchpath := if p =? NULL then default_path else p in
  modify (λ x, set_x_env (set_errno ENOENT (x_env x)) x);;
  loop fuel (exec_round path file filelen argv envp) searchpath.

Definition execv (path argv : Z) : C (execstate S K) exec_result :=
  x ← get; execve path argv (environ (x_env x)).

Definition execvp (buf path argv : Z) : C (execstate S K) exec_result :=
  x ← get; execvpe buf path argv (environ (x_env x)).

(** Counting the arguments up to the null pointer, from [argc]. *)
Fixpoint count_args (ap : list Z) (argc : Z) : C (execstate S K) Z :=
  match ap with
  | [] => undef
  | arg :: ap => if arg =? NULL then mret (argc + 1) else count_args ap (argc + 1)
  end.

(** Copying them to the array; the rest of the arguments. *)
Fixpoint copy_args (ap : list Z) (argp : Z) : C (execstate S K) (list Z) :=
  match ap with
  | [] => undef
  | arg :: ap => xmem (store64 argp arg);; if arg =? NULL then mret ap else copy_args ap (argp + 8)
  end.

(** The common body; [alloca] gives the array of a size. *)
Definition exec_l (EXEC_P EXEC_E : bool) (alloca : Z → Z) (buf path arg0 : Z) (ap : list Z) :
  C (execstate S K) exec_result :=
  argc ← count_args ap 1;
  let argv := alloca (u64 (s32 argc * 8)) in
  if argv =? NULL then mret (Returned (-1)) else
  xmem (store64 argv arg0);;
  ap ← copy_args ap (argv + 8);
  envp ← (if EXEC_E then '(p, _) ← va_arg ap; mret p else x ← get; mret (environ (x_env x)));
  if EXEC_P then execvpe buf path argv envp else execve path argv envp.

Definition execl := exec_l false false.
Definition execle := exec_l false true.
Definition execlp := exec_l true false.
Definition execlpe := exec_l true true.
End exec.

(** ** The search *)

(** A directory of the path and the name of the file. *)
Definition join (dir f : list Z) : list Z :=
  if decide (dir = [] ∨ last dir = Some 47) then dir ++ f else dir ++ 47 :: f.

(** The programs [f] may mean, with the search path [v]. *)
Definition candidates (v f : list Z) : list (list Z) :=
  if decide (47 ∈ f) then [f] else (λ dir, join dir f) <$> fields [58] v.

(** The errors that end the search. *)
Definition fatal (e : Z) : bool := (e =? E2BIG) || (e =? ENOEXEC) || (e =? ENOMEM) || (e =? ETXTBSY).

(** Trying them in order: the one that runs, the last error, and the kernel. *)
Fixpoint try_each {K} (sys_execve : list Z → Z → Z → K → option Z * K) (argv envp : Z)
    (cs : list (list Z)) (err : Z) (k : K) : option (list Z) * Z * K :=
  match cs with
  | [] => (None, err, k)
  | c :: cs =>
      match sys_execve c argv envp k with
      | (None, k) => (Some c, err, k)
      | (Some e, k) => if fatal e then (None, e, k) else try_each sys_execve argv envp cs e k
      end
  end.

Definition exec_outcome (argv envp : Z) (o : option (list Z)) : exec_result :=
  match o with Some c => Replaced c argv envp | None => Returned (-1) end.

(** ** One candidate *)

Section join.
Implicit Types (m : mem) (d f : list Z).

Lemma join_dir_test m sp d :
  bytes_at m sp d →
  (if Z.of_nat (length d) =? 0 then mret true
   else c ← loadc (sp + (Z.of_nat (length d) - 1)); mret (c =? 47)) m =
  Ret (bool_decide (d = [] ∨ last d = Some 47)) m.
Proof.
  intros Hd. destruct d as [|b d _] using rev_ind; [done|].
  rewrite (proj2 (Z.eqb_neq _ 0)) by (rewrite length_app; simpl; lia).
  pose proof (bytes_at_is_byte _ _ _ Hd) as Hb. apply Forall_app in Hb as [_ Hb]. apply Forall_cons in Hb as [Hb _].
  apply bytes_at_app in Hd as [_ Hd]. apply bytes_at_cons in Hd as (_ & Hd & _).
  rewrite length_app. simpl length. replace (sp + (Z.of_nat (length d + 1) - 1)) with (sp + Z.of_nat (length d)) by lia.
  rewrite run_bind, (run_loadc _ _ _ Hd), run_ret, s8_const by (done || lia). f_equal.
  rewrite last_snoc. apply eq_bool_prop_intro. rewrite Is_true_true, Is_true_true, Z.eqb_eq, bool_decide_eq_true.
  split; [intros ->; by right|]. intros [Hnil|[=]]; [by destruct d|done].
Qed.

Lemma run_join_path m path file f sp d :
  bytes_at m sp d → cstr m file f → valid m path PATH_MAX →
  disjoint_ranges sp (Z.of_nat (length d)) path PATH_MAX →
  disjoint_ranges file (Z.of_nat (length f) + 1) path PATH_MAX →
  Z.of_nat (length (join d f)) < PATH_MAX →
  join_path path file (Z.of_nat (length f)) sp (Z.of_nat (length d)) m =
  Ret true (write_bytes m path (join d f ++ [0])).
Proof.
  intros Hd Hf Hv Dd Df Hlen. unfold join_path. rewrite run_bind, (join_dir_test _ _ _ Hd). cbn beta iota.
  assert (bytes_at m file f) as Hfb by (by apply cstr_bytes).
  unfold join, PATH_MAX, disjoint_ranges in *.
  destruct (decide _) as [Hs|Hs]; [rewrite bool_decide_eq_true_2 by done|rewrite bool_decide_eq_false_2 by done];
    rewrite length_app in Hlen; simpl length in Hlen; cbv zeta.
  - rewrite wrap_small by lia. rewrite (proj2 (Z.leb_gt _ _)) by lia.
    rewrite run_bind, (run_memcpy m path sp d) by (done || lia || eapply valid_le, Hv; lia). cbn beta iota.
    rewrite run_bind, (run_memcpy _ (path + Z.of_nat (length d)) file f); cycle 1.
    { apply write_bytes_frame; [done|unfold disjoint_ranges; lia]. }
    { apply write_bytes_valid, (valid_sub _ _ _ _ _ Hv); lia. }
    { lia. }
    cbn beta iota. rewrite run_bind, run_store8; cycle 1.
    { apply (valid_head _ _ 1); [lia|]. do 2 apply write_bytes_valid. apply (valid_sub _ _ _ _ _ Hv); lia. }
    cbn beta iota. rewrite run_ret. f_equal. change (u8 0) with 0.
    rewrite <-write_bytes_app'. rewrite write_bytes_snoc, length_app. do 2 f_equal. lia.
  - rewrite wrap_small by lia. rewrite (proj2 (Z.leb_gt _ _)) by lia.
    rewrite run_bind, (run_memcpy m path sp d) by (done || lia || eapply valid_le, Hv; lia). cbn beta iota.
    rewrite run_bind, run_store8; cycle 1.
    { apply (valid_head _ _ 1); [lia|]. apply write_bytes_valid. apply (valid_sub _ _ _ _ _ Hv); lia. }
    cbn beta iota. change (u8 47) with 47. rewrite <-write_bytes_snoc.
    rewrite run_bind, (run_memcpy _ (path + Z.of_nat (length d) + 1) file f); cycle 1.
    { apply write_bytes_frame; [done|]. unfold disjoint_ranges. rewrite length_app. simpl. lia. }
    { apply write_bytes_valid, (valid_sub _ _ _ _ _ Hv); lia. }
    { lia. }
    cbn beta iota. rewrite run_bind, run_store8; cycle 1.
    { apply (valid_head _ _ 1); [lia|]. do 2 apply write_bytes_valid. apply (valid_sub _ _ _ _ _ Hv); lia. }
    cbn beta iota. rewrite run_ret. f_equal. change (u8 0) with 0.
    replace (path + Z.of_nat (length d) + 1) with (path + Z.of_nat (length (d ++ [47]))) by (rewrite length_app; simpl; lia).
    rewrite <-write_bytes_app', <-(assoc_L app). simpl app. rewrite write_bytes_snoc, length_app. simpl length.
    do 2 f_equal. lia.
Qed.

(** A candidate that does not fit is not built. *)
Lemma run_join_long m path file f sp d :
  bytes_at m sp d → PATH_MAX ≤ Z.of_nat (length (join d f)) < 2 ^ 64 →
  join_path path file (Z.of_nat (length f)) sp (Z.of_nat (length d)) m = Ret false m.
Proof.
  intros Hd Hlen. unfold join_path. rewrite run_bind, (join_dir_test _ _ _ Hd). cbn beta iota.
  unfold join in Hlen.
  destruct (decide _) as [Hs|Hs]; [rewrite bool_decide_eq_true_2 by done|rewrite bool_decide_eq_false_2 by done];
    rewrite length_app in Hlen; simpl length in Hlen; cbv zeta;
    rewrite wrap_small by lia; by rewrite (proj2 (Z.leb_le _ _)) by lia.
Qed.
End join.

(** ** The loop *)

Section search.
Context {S K : Type} `{AllocatorLaws S}.
Context (sys_execve : list Z → Z → Z → K → option Z * K) (argv envp : Z).
Implicit Types (x : execstate S K) (m : mem) (v f w : list Z).

(** [x] with another memory, error number and kernel. *)
Definition xst x m (err : Z) (k : K) : execstate S K :=
  {| x_env := set_errno err (set_heap (set_amem m (e_heap (x_env x))) (x_env x)); x_kernel := k |}.

Lemma xst_id x : x = xst x (amem (e_heap (x_env x))) (errno (x_env x)) (x_kernel x).
Proof. destruct x as [[h ? ? ? ?] k]. unfold xst, set_errno, set_heap. simpl. by rewrite set_amem_id. Qed.

Lemma run_xmem {A} (c : C mem A) x m err k a m' : c m = Ret a m' → xmem c (xst x m err k) = Ret a (xst x m' err k).
Proof.
  intros E. unfold xmem, in_env, zoom, emem, heap_op, zoom, on_mem, zoom. simpl.
  rewrite amem_set, E. by rewrite set_amem_set.
Qed.

Lemma run_xmem_read {A} (c : C mem A) x a :
  c (amem (e_heap (x_env x))) = Ret a (amem (e_heap (x_env x))) → xmem c x = Ret a x.
Proof. intros E. pose proof (run_xmem c x _ (errno (x_env x)) (x_kernel x) _ _ E) as Hrun. by rewrite <-!xst_id in Hrun. Qed.

Lemma run_execve x m err k p t :
  cstr m p t →
  execve sys_execve p argv envp (xst x m err k) =
  match sys_execve t argv envp k with
  | (None, k') => Ret (Replaced t argv envp) (xst x m err k')
  | (Some e, k') => Ret (Returned (-1)) (xst x m e k')
  end.
Proof.
  intros Hp. unfold execve. rewrite run_bind, (run_xmem _ _ _ _ _ _ _ (run_strlen _ _ _ Hp)). cbn beta iota.
  rewrite Nat2Z.id, run_bind, (run_xmem _ _ _ _ _ _ _ (run_load_bytes _ _ _ (cstr_bytes _ _ _ Hp))). cbn beta iota.
  rewrite run_bind, run_get. cbn beta iota. change (x_kernel (xst x m err k)) with k.
  by destruct (sys_execve t argv envp k) as [[e|] k'].
Qed.

Lemma strchr_hit m p w c r :
  cstr m p (w ++ c :: r) → c ∉ w → 0 < c < 256 → strchr p c m = Ret (p + Z.of_nat (length w)) m.
Proof.
  intros Hp Hw Hc. rewrite (run_strchr _ _ _ _ Hp), u8_byte by (unfold is_byte; lia).
  rewrite <-(assoc_L app). simpl app.
  assert (list_find (λ b, b = c) (w ++ c :: r ++ [0]) = Some (length w, c)) as ->; [|done].
  apply list_find_Some. split_and!; [|done|].
  - by rewrite lookup_app_r, Nat.sub_diag by lia.
  - intros j y Hj Hlt ->. rewrite lookup_app_l in Hj by lia. by apply Hw, (list_elem_of_lookup_2 _ j).
Qed.

Lemma strchr_miss m p v c : cstr m p v → c ∉ v → 0 < c < 256 → strchr p c m = Ret NULL m.
Proof.
  intros Hp Hv Hc. rewrite (run_strchr _ _ _ _ Hp), u8_byte by (unfold is_byte; lia).
  assert (list_find (λ b, b = c) (v ++ [0]) = None) as ->; [|done].
  apply list_find_None, Forall_app. split; [|by constructor; [lia|]].
  apply Forall_forall. by intros b Hb ->.
Qed.

(** The memory is as at the start but for the array [path]. *)
Definition scratch (path : Z) m m' : Prop :=
  valid m' path PATH_MAX ∧ ∀ a, a < path ∨ path + PATH_MAX ≤ a → m' !! a = m !! a.

Lemma scratch_cstr path m m' p v :
  scratch path m m' → cstr m p v → disjoint_ranges p (Z.of_nat (length v) + 1) path PATH_MAX → cstr m' p v.
Proof. intros [_ Hout] Hp Hd. apply (cstr_ext m); [done|]. intros a Ha. apply Hout. unfold disjoint_ranges in Hd. lia. Qed.

Lemma scratch_write path m m' l :
  scratch path m m' → Z.of_nat (length l) ≤ PATH_MAX → scratch path m (write_bytes m' path l).
Proof.
  intros [Hv Hout] Hl. split; [by apply write_bytes_valid|]. intros a Ha.
  rewrite lookup_write_bytes_out by lia. by apply Hout.
Qed.

Context (path file : Z) (f : list Z) (m : mem).
Hypothesis (Hfile : cstr m file f).
Hypothesis (Dfile : disjoint_ranges file (Z.of_nat (length f) + 1) path PATH_MAX).

(** The part of a round that tries the element [w]; [esp] is what follows it. *)
Lemma run_exec_round x m' err k sp v w esp :
  scratch path m m' → cstr m sp v → w `prefix_of` v →
  disjoint_ranges sp (Z.of_nat (length v) + 1) path PATH_MAX →
  Forall (λ b, 0 < b < 256) (join w f) → Z.of_nat (length (join w f)) < PATH_MAX →
  strchr sp 58 m' = Ret esp m' →
  (if esp =? NULL then Z.of_nat (length v) else esp - sp) = Z.of_nat (length w) →
  ∃ m'', scratch path m m'' ∧
  exec_round sys_execve path file (Z.of_nat (length f)) argv envp sp (xst x m' err k) =
  match sys_execve (join w f) argv envp k with
  | (None, k') => Ret (inr (Replaced (join w f) argv envp)) (xst x m'' err k')
  | (Some e, k') => Ret (if fatal e || (esp =? NULL) then inr (Returned (-1)) else inl (esp + 1)) (xst x m'' e k')
  end.
Proof.
  intros Hs Hv [r ->] Hd Hj Hlen Hesp Hw. assert (cstr m' sp (w ++ r)) as Hv' by (by eapply scratch_cstr).
  assert (cstr m' file f) as Hf' by (by eapply scratch_cstr).
  apply cstr_app in Hv' as Hw'. destruct Hw' as (Hw' & _).
  exists (write_bytes m' path (join w f ++ [0])). split.
  { apply scratch_write; [done|]. rewrite length_app. simpl. lia. }
  unfold exec_round. rewrite run_bind, (run_xmem _ _ _ _ _ _ _ Hesp). cbn beta iota.
  assert ((if esp =? NULL then xmem (strlen sp) else mret (esp - sp)) (xst x m' err k) =
    Ret (Z.of_nat (length w)) (xst x m' err k)) as Hpre.
  { destruct (esp =? NULL); [|by rewrite Hw]. rewrite <-Hw. apply run_xmem. by apply run_strlen. }
  rewrite run_bind, Hpre. cbn beta iota.
  rewrite length_app in Hd. unfold disjoint_ranges in Hd.
  rewrite run_bind, (run_xmem _ _ _ _ _ _ _ (run_join_path m' path file f sp w Hw' Hf' (proj1 Hs)
    ltac:(unfold disjoint_ranges; lia) Dfile Hlen)). cbn beta iota.
  rewrite run_bind, (run_execve _ _ _ _ path (join w f)) by (by apply cstr_write).
  destruct (sys_execve (join w f) argv envp k) as [[e|] k']; [|done].
  cbn beta iota. rewrite run_bind, run_get. cbn beta iota zeta.
  change (errno (x_env (xst x (write_bytes m' path (join w f ++ [0])) e k'))) with e.
  unfold fatal. by destruct (_ || (e =? ETXTBSY)), (esp =? NULL).
Qed.

Lemma join_chars w : Forall (λ b, 0 < b < 256) w → Forall (λ b, 0 < b < 256) (join w f).
Proof.
  intros Hw. pose proof (proj2 Hfile) as Hf.
  unfold join. case_decide; apply Forall_app; split; try done. by constructor.
Qed.

Lemma run_search v :
  ∀ fuel x m' err k sp, scratch path m m' → cstr m sp v → 0 < sp →
  disjoint_ranges sp (Z.of_nat (length v) + 1) path PATH_MAX →
  Forall (λ w, Z.of_nat (length (join w f)) < PATH_MAX) (fields [58] v) →
  Z.of_nat (length (fields [58] v)) ≤ Z.of_nat fuel →
  ∃ m'', scratch path m m'' ∧
  let '(o, err', k') := try_each sys_execve argv envp ((λ w, join w f) <$> fields [58] v) err k in
  loop fuel (exec_round sys_execve path file (Z.of_nat (length f)) argv envp) sp (xst x m' err k) =
  Ret (exec_outcome argv envp o) (xst x m'' err' k').
Proof.
  intros fuel. revert v. induction fuel as [|fuel IH]; intros v x m' err k sp Hs Hv Hpos Hd Hlen Hfuel.
  { pose proof (fields_nonempty [58] v). destruct (fields [58] v); [done|simpl in Hfuel; lia]. }
  assert (cstr m' sp v) as Hv' by (by eapply scratch_cstr).
  destruct (split_delim [58] v) as [Hnone|(w & c & r & -> & Hw & ->%list_elem_of_singleton)].
  - rewrite (fields_none _ _ Hnone) in *. apply Forall_cons in Hlen as [Hlen _].
    destruct (run_exec_round x m' err k sp v v NULL Hs Hv ltac:(done) Hd (join_chars _ (proj2 Hv)) Hlen) as (m'' & Hs'' & Hrun).
    { apply (strchr_miss _ _ v); [done| |lia]. intros H58. rewrite Forall_forall in Hnone. by apply (Hnone _ H58), list_elem_of_singleton. }
    { done. }
    exists m''. split; [done|]. rewrite run_loop, Hrun. cbn [try_each fmap list_fmap].
    destruct (sys_execve (join v f) argv envp k) as [[e|] k']; [|done].
    change (NULL =? NULL) with true. rewrite orb_true_r. by destruct (fatal e).
  - rewrite (fields_some _ w 58 r Hw) in * by set_solver. apply Forall_cons in Hlen as [Hlen Hlens].
    assert (58 ∉ w) as H58 by (intros H58; rewrite Forall_forall in Hw; by apply (Hw _ H58), list_elem_of_singleton).
    apply cstr_app in Hv as Hr. destruct Hr as (_ & Hwc & Hr). apply cstr_cons in Hr as (_ & _ & Hr).
    destruct (run_exec_round x m' err k sp (w ++ 58 :: r) w (sp + Z.of_nat (length w)) Hs Hv
      ltac:(by apply prefix_app_r) Hd (join_chars _ Hwc) Hlen (strchr_hit _ _ _ _ _ Hv' H58 ltac:(lia)))
      as (m'' & Hs'' & Hrun).
    { rewrite (proj2 (Z.eqb_neq _ _)) by (unfold NULL; lia). lia. }
    rewrite run_loop, Hrun. cbn [try_each fmap list_fmap].
    destruct (sys_execve (join w f) argv envp k) as [[e|] k']; [|by exists m''].
    rewrite (proj2 (Z.eqb_neq _ NULL)) by (unfold NULL; lia). rewrite orb_false_r.
    destruct (fatal e); [by exists m''|]. rewrite length_app in Hd. unfold disjoint_ranges in Hd.
    simpl length in Hd, Hfuel.
    apply (IH r x m'' e k' (sp + Z.of_nat (length w) + 1)); [done|done|lia| |done|lia].
    unfold disjoint_ranges. lia.
Qed.
End search.

(** ** Properties *)

Section properties.
Context {S K : Type} `{AllocatorLaws S}.
Context (sys_execve : list Z → Z → Z → K → option Z * K).
Implicit Types (x : execstate S K) (m : mem) (v f w : list Z) (ptrs : list Z) (es : list (list Z)).

Abbreviation xmem_of x := (amem (e_heap (x_env x))).

(** [PATH] *)
Definition path_name : list Z := [80; 65; 84; 72].

(** The search path, at the address [execvpe] finds for it. *)
Lemma run_searchpath x g live ptrs es PATH default_path path :
  env_at (x_env x) g live ptrs es → cstr (xmem_of x) PATH path_name →
  cstr (xmem_of x) default_path DEFAULT_PATH → 0 < default_path →
  disjoint_ranges default_path 16 path PATH_MAX →
  (∀ i q t, ptrs !! i = Some q → es !! i = Some t →
     disjoint_ranges q (Z.of_nat (length t) + 1) path PATH_MAX) →
  let v := default DEFAULT_PATH (find_value path_name es) in
  ∃ p, getenv PATH (x_env x) = Ret p (x_env x) ∧
  let sp := if p =? NULL then default_path else p in
  cstr (xmem_of x) sp v ∧ 0 < sp ∧ disjoint_ranges sp (Z.of_nat (length v) + 1) path PATH_MAX.
Proof.
  intros He HP HD Hpos DD Denv v.
  destruct (run_getenv_within _ _ _ _ _ _ _ He HP ltac:(done)) as (p & Hp & Hv). exists p. split; [done|].
  unfold v. destruct (find_value path_name es) as [u|]; [|by subst p].
  destruct Hv as (Hne & Hu & i & q & t & Hq & Ht & Hle & Hend). rewrite (proj2 (Z.eqb_neq _ _)) by done.
  specialize (Denv i q t Hq Ht). unfold disjoint_ranges in *. simpl. split_and!; [done| |lia].
  pose proof (proj2 (ea_arr _ _ _ _ _ He)) as Hr. rewrite Forall_forall in Hr.
  specialize (Hr q ltac:(by eapply list_elem_of_lookup_2)). lia.
Qed.

(** C27: with [PATH] in the environment, or the default path without it, [execvpe]
    tries the programs the name may mean: the name itself when it has a slash,
    otherwise its join with each element of the path, in their order, empty
    elements and those that end in a slash joined without another one.  It stops
    at the first that runs, or at the first error that is not about finding the
    program, or at the end of the path with the last error, and it writes only in
    its local array.  One round for each element of the path is enough, provided that
    every join is shorter than PATH_MAX: after a longer one the code does not go on
    ([execvpe_long_element]). *)
Theorem execvpe_searches fuel x g live ptrs es PATH default_path path file f argv envp :
  let m := xmem_of x in
  let v := default DEFAULT_PATH (find_value path_name es) in
  env_at (x_env x) g live ptrs es → cstr m PATH path_name →
  cstr m default_path DEFAULT_PATH → 0 < default_path → cstr m file f → 0 < file → valid m path PATH_MAX →
  disjoint_ranges default_path 16 path PATH_MAX →
  disjoint_ranges file (Z.of_nat (length f) + 1) path PATH_MAX →
  (∀ i q t, ptrs !! i = Some q → es !! i = Some t →
     disjoint_ranges q (Z.of_nat (length t) + 1) path PATH_MAX) →
  (47 ∉ f → Forall (λ c, Z.of_nat (length c) < PATH_MAX) (candidates v f)) →
  (length (candidates v f) ≤ fuel)%nat →
  ∃ m', scratch path m m' ∧
  let err := if decide (47 ∈ f) then errno (x_env x) else ENOENT in
  let '(o, err', k) := try_each sys_execve argv envp (candidates v f) err (x_kernel x) in
  execvpe sys_execve fuel PATH default_path path file argv envp x =
  Ret (exec_outcome argv envp o) (xst x m' err' k).
Proof.
  intros m v He HP HD Dpos Hf Fpos Hpath DD Df Denv Hlen Hfuel.
  assert (scratch path m m) as Hs by done.
  unfold execvpe, candidates in *. destruct (decide (47 ∈ f)) as [H47|H47].
  - exists m. split; [done|]. cbn [try_each].
    destruct (split_delim [47] f) as [Hno|(w & c & r & -> & Hw & ->%list_elem_of_singleton)].
    { rewrite Forall_forall in Hno. destruct (Hno _ H47). by apply list_elem_of_singleton. }
    assert (47 ∉ w) as Hw47 by (intros H47'; rewrite Forall_forall in Hw; by apply (Hw _ H47'), list_elem_of_singleton).
    rewrite run_bind, (run_xmem_read _ _ _ (strchr_hit _ _ _ _ _ Hf Hw47 ltac:(lia))).
    cbn beta iota. rewrite (proj2 (Z.eqb_neq _ _)) by (unfold NULL; lia). cbn [negb].
    pose proof (run_execve sys_execve argv envp x m (errno (x_env x)) (x_kernel x) file _ Hf) as Hrun.
    unfold m in Hrun at 1. rewrite <-xst_id in Hrun. rewrite Hrun.
    destruct (sys_execve _ argv envp (x_kernel x)) as [[e|] k]; [|done]. by destruct (fatal e).
  - destruct (run_searchpath x g live ptrs es PATH default_path path He HP HD Dpos DD Denv) as (p & Hp & Hv & Hvpos & Dv).
    rewrite length_fmap in Hfuel. specialize (Hlen H47). rewrite Forall_fmap in Hlen.
    destruct (run_search sys_execve argv envp path file f m Hf Df v fuel x m ENOENT (x_kernel x) _
      Hs Hv Hvpos Dv Hlen ltac:(lia)) as (m' & Hs' & Hrun).
    exists m'. split; [done|]. destruct (try_each _ _ _ _ _ _) as [[o err'] k'].
    rewrite run_bind, (run_xmem_read _ _ _ (strchr_miss _ _ _ _ Hf H47 ltac:(lia))).
    cbn beta iota. change (negb (NULL =? NULL)) with false. cbn iota.
    rewrite run_bind, (run_xmem_read _ _ _ (run_strlen _ _ _ Hf)). cbn beta iota.
    rewrite run_bind. unfold in_env, zoom. rewrite Hp. cbn beta iota zeta. rewrite run_bind, run_modify. cbn beta iota.
    rewrite <-Hrun. f_equal. unfold xst, set_x_env, set_errno, set_heap, m. simpl. by rewrite set_amem_id.
Qed.

(** An element of the path that makes too long a name, with another one after it,
    is tried again and again: [continue] does not advance. *)
Lemma execvpe_long_element fuel x path file f argv envp sp w r :
  cstr (xmem_of x) sp (w ++ 58 :: r) → 58 ∉ w → 0 < sp →
  PATH_MAX ≤ Z.of_nat (length (join w f)) < 2 ^ 64 →
  loop fuel (exec_round sys_execve path file (Z.of_nat (length f)) argv envp) sp x = OOF.
Proof.
  intros Hsp Hw Hpos Hlen. induction fuel as [|fuel IH]; [done|]. rewrite run_loop. unfold exec_round at 1.
  rewrite run_bind, (run_xmem_read _ _ _ (strchr_hit _ _ _ _ _ Hsp Hw ltac:(lia))). cbn beta iota.
  rewrite (proj2 (Z.eqb_neq (sp + _) NULL)) by (unfold NULL; lia). rewrite run_bind, run_ret. cbn beta iota.
  replace (sp + Z.of_nat (length w) - sp) with (Z.of_nat (length w)) by lia.
  apply cstr_app in Hsp as (Hb & _). rewrite run_bind, (run_xmem_read _ _ _ (run_join_long _ path file f _ _ Hb Hlen)).
  exact IH.
Qed.

(** The loops over the arguments. *)
Lemma run_count_args x args rest argc :
  NULL ∉ args → count_args (args ++ NULL :: rest) argc x = Ret (argc + Z.of_nat (length args) + 1) x.
Proof.
  revert argc. induction args as [|a args IH]; intros argc Ha; [simpl; by rewrite run_ret, Z.add_0_r|].
  apply not_elem_of_cons in Ha as [Hne Ha]. simpl. rewrite (proj2 (Z.eqb_neq _ _)) by done.
  rewrite IH by done. f_equal. lia.
Qed.

Lemma run_copy_args x m err k args rest argp :
  NULL ∉ args → valid m argp (8 * (Z.of_nat (length args) + 1)) →
  copy_args (args ++ NULL :: rest) argp (xst x m err k) =
  Ret rest (xst x (write_bytes m argp (words (args ++ [NULL]))) err k).
Proof.
  revert m argp. induction args as [|a args IH]; intros m argp Ha Hv.
  - cbn [copy_args app].
    rewrite run_bind, (run_xmem _ _ _ _ _ _ _ (run_store64 _ _ _ ltac:(eapply valid_le, Hv; simpl; lia))).
    cbn beta iota. by rewrite (words_cons NULL []), app_nil_r.
  - apply not_elem_of_cons in Ha as [Hne Ha]. simpl length in Hv. cbn [copy_args app].
    rewrite run_bind, (run_xmem _ _ _ _ _ _ _ (run_store64 _ _ _ ltac:(eapply valid_le, Hv; lia))).
    cbn beta iota. rewrite (proj2 (Z.eqb_neq _ _)) by done.
    rewrite IH; [|done|apply put_valid, (valid_sub _ _ _ _ _ Hv); lia].
    by rewrite words_cons, write_bytes_app', le_bytes_length.
Qed.

(** Execl, execle, execlp and execlpe gather their arguments into a vector on
    the stack, the first argument, the others in order and a null pointer, and
    run the program with it and with the environment: the pointer after the null
    argument for the functions with an [e] in their name, [environ] for the
    others; those with a [p] search the path. *)
Theorem execl_gathers fuel (EXEC_P EXEC_E : bool) x PATH default_path alloca buf path arg0 args rest envp :
  let m := xmem_of x in
  let n := Z.of_nat (length args) + 2 in
  let argv := alloca (8 * n) in
  NULL ∉ args → n < 2 ^ 31 → argv ≠ NULL → valid m argv (8 * n) →
  envp = (if EXEC_E then hd 0 rest else environ (x_env x)) → (EXEC_E = true → rest ≠ []) →
  exec_l sys_execve fuel PATH default_path EXEC_P EXEC_E alloca buf path arg0 (args ++ NULL :: rest) x =
  (if EXEC_P then execvpe sys_execve fuel PATH default_path buf path argv envp else execve sys_execve path argv envp)
    (xst x (write_bytes m argv (words (arg0 :: args ++ [NULL]))) (errno (x_env x)) (x_kernel x)).
Proof.
  intros m n argv Ha Hn Hne Hv -> Hrest. unfold exec_l. rewrite run_bind, (run_count_args _ _ _ _ Ha). cbn beta iota zeta.
  rewrite sext_small, wrap_small by lia. replace ((1 + Z.of_nat (length args) + 1) * 8) with (8 * n) by lia.
  fold argv. rewrite (proj2 (Z.eqb_neq _ _)) by done.
  rewrite (xst_id x) at 1. rewrite run_bind, (run_xmem _ _ _ _ _ _ _ (run_store64 _ _ _ ltac:(eapply valid_le, Hv; lia))).
  cbn beta iota. rewrite run_bind, run_copy_args; [|done|apply put_valid, (valid_sub _ _ _ _ _ Hv); lia].
  cbn beta iota. rewrite words_cons, write_bytes_app', le_bytes_length. change (Z.of_nat 8) with 8.
  destruct EXEC_E; [|by rewrite run_bind, run_bind, run_get, run_ret].
  destruct rest as [|e rest]; [by destruct Hrest|]. done.
Qed.
End properties.

(** ** Witnesses *)

(** The environment [PATH=a:b/] beside the static heap, and the program [x]. *)
Definition exec_mem : mem :=
  write_bytes (write_bytes (write_bytes (write_bytes (write_bytes zero_heap 100 (words [200; 0]))
    200 [80; 65; 84; 72; 61; 97; 58; 98; 47; 0]) 300 (path_name ++ [0])) 310 (DEFAULT_PATH ++ [0])) 340 [120; 0].

Definition exec_env : envstate static_heap :=
  {| e_heap := {| heap := 4096; heapcnt := 32; heap_mem := exec_mem |};
     environ := 100; __environ_size := 0; __environ_alloc := 0; errno := 0 |}.

(** A kernel that has the program [b/x] only, and keeps the paths it was asked for. *)
Definition demo_execve (t : list Z) (argv envp : Z) (log : list (list Z)) : option Z * list (list Z) :=
  (if decide (t = [98; 47; 120]) then None else Some ENOENT, log ++ [t]).

Definition exec_demo : execstate static_heap (list (list Z)) := {| x_env := exec_env; x_kernel := [] |}.

Lemma exec_mem_strings :
  bytes_at exec_mem 100 (words [200; 0]) ∧ cstr exec_mem 200 [80; 65; 84; 72; 61; 97; 58; 98; 47] ∧
  cstr exec_mem 300 path_name ∧ cstr exec_mem 310 DEFAULT_PATH ∧ cstr exec_mem 340 [120].
Proof. unfold exec_mem. split_and!; [peel|split; [peel|by_decide]..]. Qed.

Lemma exec_env_at : env_at exec_env (4096, 32) [(4096, 20)] [200] [[80; 65; 84; 72; 61; 97; 58; 98; 47]].
Proof.
  destruct exec_mem_strings as (H1 & H2 & _).
  pose proof sample_heap_inv as (Hh & Hc & Ha & Hv & Hin & Hd).
  split.
  - split; [|reflexivity]. split; [exact Hh|]. split; [exact Hc|]. split; [exact Ha|].
    split; [|exact (conj Hin Hd)]. by repeat apply write_bytes_valid.
  - reflexivity.
  - simpl. lia.
  - split; [exact H1|by_decide].
  - simpl. unfold static_in_use, disjoint_ranges, KLIBC_MALLOC_STATIC_SIZE. simpl. lia.
  - constructor; [|constructor]. split; [exact H2|].
    simpl. unfold static_in_use, disjoint_ranges, capacity, KLIBC_MALLOC_STATIC_SIZE. simpl. lia.
  - by left.
Qed.

Lemma exec_zeros p k :
  4096 ≤ p → p + Z.of_nat k ≤ 4096 + KLIBC_MALLOC_STATIC_SIZE → valid exec_mem p (Z.of_nat k).
Proof.
  intros Hp Hk. repeat apply write_bytes_valid. rewrite <-(length_replicate k 0).
  by apply bytes_at_valid, zero_heap_bytes.
Qed.

Lemma execvpe_searches_witness :
  ∃ x', execvpe demo_execve 2 300 310 8192 340 7 9 exec_demo = Ret (Replaced [98; 47; 120] 7 9) x' ∧
  x_kernel x' = [[97; 47; 120]; [98; 47; 120]].
Proof.
  destruct exec_mem_strings as (_ & _ & H3 & H4 & H5).
  destruct (@execvpe_searches static_heap _ _ static_laws demo_execve 2 exec_demo (4096, 32) [(4096, 20)] [200]
    [[80; 65; 84; 72; 61; 97; 58; 98; 47]] 300 310 8192 340 [120] 7 9) as (m' & _ & Hrun).
  - exact exec_env_at.
  - exact H3.
  - exact H4.
  - lia.
  - exact H5.
  - lia.
  - apply (exec_zeros 8192 (Z.to_nat 4096)); [lia|]. rewrite Z2Nat.id by lia. unfold KLIBC_MALLOC_STATIC_SIZE. lia.
  - left. lia.
  - left. simpl. lia.
  - intros [|i] q t; [|discriminate]. intros [= <-] [= <-]. left. simpl. lia.
  - intros _. by_decide.
  - by vm_compute.
  - eexists. split; [exact Hrun|]. reflexivity.
Defined.

Lemma execl_gathers_witness :
  execle demo_execve 2 300 310 (λ _, 8192) 0 340 11 [12; 0; 13] exec_demo =
  Ret (Returned (-1))
    (xst exec_demo (write_bytes exec_mem 8192 (words [11; 12; 0])) ENOENT [[120]]).
Proof.
  destruct exec_mem_strings as (_ & _ & _ & _ & H5).
  transitivity (execve demo_execve 340 8192 13 (xst exec_demo (write_bytes exec_mem 8192 (words [11; 12; 0])) 0 [])).
  - apply (@execl_gathers static_heap _ _ static_laws demo_execve 2 false true exec_demo 300 310 (λ _, 8192) 0 340 11 [12] [13] 13);
      [by_decide|simpl; lia|discriminate| |reflexivity|discriminate].
    apply (exec_zeros 8192 24); [lia|]. unfold KLIBC_MALLOC_STATIC_SIZE. lia.
  - apply (@run_execve static_heap _ _ static_laws demo_execve 8192 13 exec_demo _ 0 [] 340 [120]).
    apply cstr_frame; [exact H5|right; simpl; lia].
Defined.
