(* ===== verification/Inet.v ===== *)
(** * Network addresses: [inet_aton.c], [inet_addr.c], [inet_ntoa.c],
    [inet_ntop.c], [inet_pton.c], [bindresvport.c]

    The text form of addresses, over [sscanf] and [snprintf], and the choice of a
    reserved port.  [inet_roundtrip]: the text of an address reads back as the
    address.  [inet_ntop_text]: the text of both families, and when it is cut.
    [bindresvport_tries]: every reserved port is tried once.

    The calls of the kernel are parameters; the local variables and the string
    constants are arguments, the addresses at which they are. *)

From Stdlib Require Import List.
From stdpp Require Import base tactics numbers list gmap.
From S2P Require Import Prelude Memory Words MemFns Ctype Numbers Printf PrintfSpec Scanf Stdio StdioSpec Format.

Open Scope Z_scope.

(** ** The code *)

Definition AF_INET : Z := 2.
Definition AF_INET6 : Z := 10.
Definition INADDR_NONE : Z := 2 ^ 32 - 1.
Definition ENOSPC : Z := 28.
Definition EPFNOSUPPORT : Z := 96.
Definition EAFNOSUPPORT : Z := 97.

Definition START_PORT : Z := 768.
Definition END_PORT : Z := 1024.
Definition NUM_PORTS : Z := END_PORT - START_PORT.

(** The memory, [errno], the static variable of [bindresvport], the kernel. *)
Record net (K : Type) := { n_mem : mem; n_errno : Z; port : Z; n_kernel : K }.
Arguments n_mem {K}.
Arguments n_errno {K}.
Arguments port {K}.
Arguments n_kernel {K}.

(** A 16-bit value in network order, on a little-endian machine. *)
Definition htons (x : Z) : Z := Z.lor (Z.shiftl (Z.land x 255) 8) (Z.shiftr (u16 x) 8).
Definition ntohs (x : Z) : Z := htons x.

(** [struct sockaddr_in] *)
Definition SIN_FAMILY : Z := 0.
Definition SIN_PORT : Z := 2.
Definition SIZEOF_SOCKADDR_IN : Z := 16.

(** The arguments of [inet_ntop] and [inet_ntoa]: the bytes of the address. *)
Definition load_quad (cp : Z) : C mem (list Z) :=
  b0 ← load8 cp; b1 ← load8 (cp + 1); b2 ← load8 (cp + 2); b3 ← load8 (cp + 3);
  mret [b0; b1; b2; b3].

(** The members of [s6_addr16], in the order of the host. *)
Fixpoint load_hextets (n : nat) (cp : Z) : C mem (list Z) :=
  match n with
  | O => mret []
  | S n => x ← load_le 2 cp; l ← load_hextets n (cp + 2); mret (ntohs x :: l)
  end.

Section inet.
(** Whether the streams are the original ones, on which [sscanf] depends; the
    addresses of the formats. *)
Context (KLIBC_STREAMS_ORIG : bool) (fmt_hhu fmt_u fmt_x : Z).

(** [None] when the assertion of [vsscanf] fails; [a] is the local union. *)
Definition inet_aton (a str addr : Z) : C mem (option Z) :=
  r ← sscanf KLIBC_STREAMS_ORIG str fmt_hhu [a; a + 1; a + 2; a + 3];
  match r with
  | None => mret None
  | Some n =>
      if n =? 4 then
        l ← load_le 4 a;
        store_le 4 addr l;;
        mret (Some 1)
      else mret (Some 0)
  end.

Definition inet_addr (a addr str : Z) : C mem (option Z) :=
  r ← inet_aton a str addr;
  match r with
  | None => mret None
  | Some rv => if rv =? 0 then mret (Some INADDR_NONE) else l ← load_le 4 addr; mret (Some l)
  end.

(** [addr] is the argument, passed by value and stored at [cp]. *)
Definition inet_ntoa (name cp addr : Z) : C mem Z :=
  store_le 4 cp addr;;
  l ← load_quad cp;
  sprintf name fmt_u l;;
  mret name.

Context {K : Type}.
Implicit Types x : net K.

Definition set_n_mem (m : mem) x : net K :=
  {| n_mem := m; n_errno := n_errno x; port := port x; n_kernel := n_kernel x |}.
Definition set_n_errno (e : Z) x : net K :=
  {| n_mem := n_mem x; n_errno := e; port := port x; n_kernel := n_kernel x |}.
Definition set_port (p : Z) x : net K :=
  {| n_mem := n_mem x; n_errno := n_errno x; port := p; n_kernel := n_kernel x |}.
Definition set_n_kernel (k : K) x : net K :=
  {| n_mem := n_mem x; n_errno := n_errno x; port := port x; n_kernel := k |}.

Definition nmem {A} (c : C mem A) : C (net K) A := zoom n_mem set_n_mem c.

Definition inet_ntop (af cp buf len : Z) : C (net K) Z :=
  xlen ← (if af =? AF_INET then
            nmem (l ← load_quad cp; r ← snprintf buf len fmt_u l; mret (Some (u64 r)))
          else if af =? AF_INET6 then
            nmem (l ← load_hextets 8 cp; r ← snprintf buf len fmt_x l; mret (Some (u64 r)))
          else mret None);
  match xlen with
  | None => modify (set_n_errno EAFNOSUPPORT);; mret NULL
  | Some xlen =>
      if len <? xlen then modify (set_n_errno ENOSPC);; mret NULL else mret buf
  end.

Definition hexval (ch : Z) : Z :=
  if (48 <=? ch) && (ch <=? 57) then ch - 48
  else if (65 <=? ch) && (ch <=? 70) then ch - 65 + 10
  else if (97 <=? ch) && (ch <=? 102) then ch - 97 + 10
  else -1.

(** The first loop of the sixth family: the colons, or nothing at another
    character.  It reads [dst]. *)
Definition count_colons (dst : Z) : C mem (option (Z * Z)) :=
  scan_fuel (λ fuel, loop fuel (λ '(p, colons, dcolons),
    c ← loadc p;
    if c =? 0 then Break (Some (colons, dcolons)) else
    if c =? 58 then
      d ← loadc (p + 1);
      Next (p + 1, colons + 1, if d =? 58 then dcolons + 1 else dcolons)
    else
      x ← isxdigit c;
      if x =? 0 then Break None else Next (p + 1, colons, dcolons)) (dst, 0, 0)).

(** The second one, into the halfwords at [d]. *)
Definition store_hextets (d colons dst : Z) : C mem unit :=
  scan_fuel (λ fuel, loop fuel (λ '(p, i),
    c ← loadc p;
    if c =? 0 then Break tt else
    if c =? 58 then
      c1 ← loadc (p + 1);
      Next (p + 1, if c1 =? 58 then i + (8 - colons) else i + 1)
    else
      x ← load_le 2 (d + 2 * i);
      store_le 2 (d + 2 * i) (htons (Z.shiftl (ntohs x) 4 + hexval c));;
      Next (p + 1, i)) (dst, 0)).

Definition inet_pton (a af src dst : Z) : C (net K) (option Z) :=
  if af =? AF_INET then nmem (inet_aton a src dst)
  else if af =? AF_INET6 then
    nmem (
      n ← count_colons dst;
      match n with
      | None => mret (Some 0)
      | Some (colons, dcolons) =>
          if (7 <? colons) || (1 <? dcolons) || ((dcolons =? 0) && negb (colons =? 7))
          then mret (Some 0)
          else memset dst 0 16;; store_hextets dst colons dst;; mret (Some 1)
      end)
  else modify (set_n_errno EAFNOSUPPORT);; mret (Some (-1)).

(** The kernel: the result of bind for a descriptor and an address, with the error
    number, and the process number. *)
Context (sys_bind : Z → list Z → K → Z * Z * K) (getpid : K → Z).

Definition bind (sd sin n : Z) : C (net K) Z :=
  l ← nmem (load_bytes (Z.to_nat n) sin);
  x ← get;
  let '(rv, e, k) := sys_bind sd l (n_kernel x) in
  modify (set_n_kernel k);;
  (if rv =? -1 then modify (set_n_errno e) else mret tt);;
  mret rv.

(** One round of the loop over the ports; [i] counts them. *)
Definition port_round (sd sin : Z) : Z * Z → C (net K) (Z * Z + Z) := λ '(i, ret),
  if negb (i <? NUM_PORTS) then Break ret else
  x ← get;
  (if port x =? END_PORT then modify (set_port START_PORT) else mret tt);;
  x ← get;
  nmem (store_le 2 (sin + SIN_PORT) (htons (port x)));;
  ret ← bind sd sin SIZEOF_SOCKADDR_IN;
  if negb (ret =? -1) then Break ret else
  modify (λ x, set_port (sext 16 (port x + 1)) x);;
  Next (i + 1, ret).

Definition bindresvport (me sd sin : Z) : C (net K) Z :=
  sin ← (if sin =? NULL then
           nmem (memset me 0 SIZEOF_SOCKADDR_IN);;
           nmem (store_le 2 (me + SIN_FAMILY) AF_INET);;
           mret (Some me)
         else
           f ← nmem (load_le 2 (sin + SIN_FAMILY));
           if f =? AF_INET then mret (Some sin)
           else modify (set_n_errno EPFNOSUPPORT);; mret None);
  match sin with
  | None => mret (-1)
  | Some sin =>
      x ← get;
      (if port x =? 0 then
         modify (set_port (sext 16 (START_PORT + Z.rem (getpid (n_kernel x)) NUM_PORTS)))
       else mret tt);;
      loop (Z.to_nat NUM_PORTS + 1) (port_round sd sin) (0, 0)
  end.
End inet.

(** ** Texts of addresses *)

(** The texts with a separator between them. *)
Fixpoint sep_text (sep : Z) (ts : list (list Z)) : list Z :=
  match ts with
  | [] => []
  | t :: ts => t ++ match ts with [] => [] | _ => sep :: sep_text sep ts end
  end.

(** A directive without flags, width or precision, and a format of [n] of them. *)
Definition percent (conv : Z) : item :=
  Dir {| d_flags := []; d_width := CNone; d_prec := None; d_mods := []; d_conv := conv |}.

Fixpoint sep_format (sep conv : Z) (n : nat) : list item :=
  match n with
  | O => []
  | S n => percent conv :: match n with O => [] | _ => Lit sep :: sep_format sep conv n end
  end.

(** A number without a sign in a base. *)
Definition num_text (base v : Z) : list Z := int_text v 0 base 0 (-1).

(** The numbers an address is written as: bytes, or halfwords in network order. *)
Fixpoint hextets (l : list Z) : list Z :=
  match l with b0 :: b1 :: l => 256 * b0 + b1 :: hextets l | _ => [] end.

Definition addr_text (af : Z) (l : list Z) : list Z :=
  if af =? AF_INET then sep_text 46 (num_text 10 <$> l) else sep_text 58 (num_text 16 <$> hextets l).

Section text.
Implicit Types (m : mem) (l : list Z).

Lemma num_text_digits base v :
  base = 10 ∨ base = 16 → 0 ≤ v < 2 ^ 64 →
  let ds := num_text base v in
  (0 < length ds ≤ 64)%nat ∧ Forall (λ c, is_digit_of base c ∧ 0 < c < 128) ds ∧ digits_value base ds = v.
Proof.
  intros Hb Hv ds. destruct (int_text_plain v 0 base) as (Et & Ef & Hl & _); [lia|by right; right|].
  destruct (int_body_value v 0 base (-1)) as (_ & Hds & Hval); [lia|done|done|]. cbn zeta in *.
  rewrite Ef in Hds, Hval. unfold ds, num_text. by rewrite Et.
Qed.

Lemma render_unsigned str conv base v f ap :
  conv = 117 ∧ base = 10 ∨ conv = 120 ∧ base = 16 → 0 ≤ v < 2 ^ 32 →
  render str (percent conv :: f) (v :: ap) = (t ← render str f ap; Some (num_text base v ++ t)).
Proof.
  intros Hc Hv. unfold num_text. cbn [render percent].
  assert (directive_text str {| d_flags := []; d_width := CNone; d_prec := None; d_mods := []; d_conv := conv |} (v :: ap) =
    Some (int_text (u32 v) 0 base 0 (-1), ap)) as -> by (by destruct Hc as [[-> ->]|[-> ->]]).
  by rewrite wrap_small by lia.
Qed.

Lemma render_sep str sep conv base l :
  conv = 117 ∧ base = 10 ∨ conv = 120 ∧ base = 16 → Forall (λ v, 0 ≤ v < 2 ^ 32) l →
  render str (sep_format sep conv (length l)) l = Some (sep_text sep (num_text base <$> l)).
Proof.
  intros Hc Hl. induction Hl as [|v l Hv Hl IH]; [done|]. cbn [length sep_format].
  rewrite (render_unsigned _ _ _ _ _ _ Hc Hv). destruct l as [|w l]; [done|]. cbn [length] in *.
  cbn [render]. rewrite IH. done.
Qed.

Lemma sep_format_wf sep conv n :
  0 < sep < 256 → sep ≠ 37 → conv ∈ conv_chars → Forall wf_item (sep_format sep conv n).
Proof.
  intros Hs H37 Hc. induction n as [|n IH]; [constructor|]. cbn [sep_format].
  constructor; [cbn; split_and!; [constructor|done|done|constructor|done]|].
  destruct n; [constructor|]. by constructor.
Qed.

Lemma sep_text_length sep base l :
  base = 10 ∨ base = 16 → Forall (λ v, 0 ≤ v < 2 ^ 32) l →
  (length (sep_text sep (num_text base <$> l)) ≤ 65 * length l)%nat.
Proof.
  intros Hb Hl. induction Hl as [|v l Hv Hl IH]; [done|]. cbn [fmap list_fmap sep_text].
  destruct (num_text_digits base v Hb ltac:(lia)) as (Hlen & _). rewrite length_app.
  destruct l as [|w l]; [cbn [fmap list_fmap length]; lia|]. cbn [fmap list_fmap length] in *. lia.
Qed.

Lemma run_load_quad m cp b0 b1 b2 b3 :
  bytes_at m cp [b0; b1; b2; b3] → load_quad cp m = Ret [b0; b1; b2; b3] m.
Proof.
  intros H. apply bytes_at_cons in H as (_ & H0 & H). apply bytes_at_cons in H as (_ & H1 & H).
  apply bytes_at_cons in H as (_ & H2 & H). apply bytes_at_cons in H as (_ & H3 & _). unfold load_quad.
  replace (cp + 1 + 1) with (cp + 2) in * by lia. replace (cp + 2 + 1) with (cp + 3) in * by lia.
  by crun.
Qed.


Lemma htons_bytes b0 b1 : is_byte b0 → is_byte b1 → htons (b0 + 256 * b1) = 256 * b0 + b1.
Proof.
  intros H0 H1. apply Z.eqb_eq.
  apply (byte_forall (λ b1, htons (b0 + 256 * b1) =? 256 * b0 + b1)); [|done].
  apply (byte_forall (λ b0, forallb (λ b1, htons (b0 + 256 * b1) =? 256 * b0 + b1) (seqZ 0 256))); [by vm_compute|done].
Qed.

Lemma run_load_hextets m n cp l :
  bytes_at m cp l → length l = (2 * n)%nat → load_hextets n cp m = Ret (hextets l) m.
Proof.
  revert cp l. induction n as [|n IH]; intros cp l Hl Hlen; [by destruct l|].
  destruct l as [|b0 [|b1 l]]; simpl in Hlen; try lia. apply (bytes_at_app _ _ [b0; b1] l) in Hl as [Hb Hl].
  pose proof (bytes_at_is_byte _ _ _ Hb) as Hbytes. apply Forall_cons in Hbytes as [H0 Hbytes].
  apply Forall_cons in Hbytes as [H1 _]. cbn [load_hextets hextets].
  change 2%nat with (length [b0; b1]). rewrite run_bind, (run_load_le m cp [b0; b1] Hb). cbn beta iota.
  rewrite run_bind, (IH (cp + 2) l Hl) by lia. cbn beta iota. unfold ntohs. cbn [le_value].
  rewrite Z.mul_0_r, Z.add_0_r. by rewrite htons_bytes.
Qed.

Lemma hextets_range l : Forall is_byte l → Forall (λ v, 0 ≤ v < 2 ^ 16) (hextets l).
Proof.
  intros H. remember (length l) as n eqn:E. revert l E H.
  induction (lt_wf n) as [n _ IH]. intros [|b0 [|b1 l]] E Hl; [constructor..|]. simpl in E.
  apply Forall_cons in Hl as [H0 Hl]. apply Forall_cons in Hl as [H1 Hl]. unfold is_byte in *. cbn [hextets].
  constructor; [lia|]. apply (IH (length l)); [lia|done|done].
Qed.

Lemma hextets_length l n : length l = (2 * n)%nat → length (hextets l) = n.
Proof.
  revert l. induction n as [|n IH]; intros [|b0 [|b1 l]] H; simpl in H; try lia; [done|].
  cbn [hextets length]. rewrite IH; lia.
Qed.
End text.

(** ** From an address to its text *)

Section ntop.
Context {K : Type}.
Implicit Types (x : net K) (m : mem) (l : list Z).

Lemma run_nmem {A} (c : C mem A) x a m' : c (n_mem x) = Ret a m' → nmem c x = Ret a (set_n_mem m' x).
Proof. intros E. unfold nmem, zoom. by rewrite E. Qed.

(** The text of an address in the buffer, cut at its size. *)
Definition text_in (m : mem) (buf len : Z) (t : list Z) : mem :=
  if bool_decide (len = 0) then m else write_bytes m buf (take (Z.to_nat (len - 1)) t ++ [0]).

Lemma run_address m sep conv base l fmt buf len :
  conv = 117 ∧ base = 10 ∧ sep = 46 ∨ conv = 120 ∧ base = 16 ∧ sep = 58 →
  Forall (λ v, 0 ≤ v < 2 ^ 32) l → (length l ≤ 8)%nat →
  cstr m fmt (format_chars (sep_format sep conv (length l))) →
  0 ≤ len → valid m buf len →
  disjoint_ranges buf len fmt (Z.of_nat (length (format_chars (sep_format sep conv (length l)))) + 1) →
  let t := sep_text sep (num_text base <$> l) in
  snprintf buf len fmt l m = Ret (Z.of_nat (length t)) (text_in m buf len t) ∧ Z.of_nat (length t) < 2 ^ 31.
Proof.
  intros Hc Hl Hn Hf Hlen Hv Hd t.
  assert (Z.of_nat (length t) < 2 ^ 31) as Ht.
  { unfold t. pose proof (sep_text_length sep base l ltac:(lia) Hl). lia. }
  split; [|done]. unfold snprintf, text_in.
  rewrite (run_snprintf m buf len (λ _, None) (sep_format sep conv (length l)) fmt l t); try done.
  - apply sep_format_wf; [lia|lia|]. unfold conv_chars. by destruct Hc as [(-> & _)|(-> & _)]; by_decide.
  - apply render_sep; [tauto|done].
Qed.

(** ["%u.%u.%u.%u"] and ["%x:%x:%x:%x:%x:%x:%x:%x"] *)
Definition u_chars : list Z := format_chars (sep_format 46 117 4).
Definition x_chars : list Z := format_chars (sep_format 58 120 8).

Lemma run_inet_ntop x af fmt_u fmt_x cp l buf len :
  let m := n_mem x in
  let t := addr_text af l in
  let x' := set_n_mem (text_in m buf len t) x in
  af = AF_INET ∧ length l = 4%nat ∨ af = AF_INET6 ∧ length l = 16%nat → bytes_at m cp l →
  cstr m fmt_u u_chars → cstr m fmt_x x_chars → 0 ≤ len → valid m buf len →
  disjoint_ranges buf len fmt_u 12 → disjoint_ranges buf len fmt_x 24 →
  inet_ntop fmt_u fmt_x af cp buf len x =
  if len <? Z.of_nat (length t) then Ret NULL (set_n_errno ENOSPC x') else Ret buf x'.
Proof.
  intros m t x' Haf Hl Hu Hx Hlen Hv Du Dx. unfold inet_ntop. pose proof (bytes_at_is_byte _ _ _ Hl) as Hb.
  destruct Haf as [[-> E]|[-> E]].
  - change (AF_INET =? AF_INET) with true. cbn iota.
    assert (load_quad cp m = Ret l m) as Hload by (destruct l as [|? [|? [|? [|? []]]]]; try done; by apply run_load_quad).
    destruct (run_address m 46 117 10 l fmt_u buf len) as [Hrun Ht]; [tauto| |lia| |done|done| |].
    { eapply Forall_impl; [exact Hb|]. unfold is_byte. lia. }
    { by rewrite E. }
    { by rewrite E. }
    change (sep_text 46 (num_text 10 <$> l)) with t in Hrun, Ht. rewrite run_bind, (run_nmem _ x (Some (Z.of_nat (length t))) (text_in m buf len t)).
    + cbn beta iota. by destruct (len <? Z.of_nat (length t)).
    + rewrite run_bind. fold m. rewrite Hload, run_bind, Hrun, run_ret. by rewrite wrap_small by lia.
  - change (AF_INET6 =? AF_INET) with false. change (AF_INET6 =? AF_INET6) with true. cbn iota.
    assert (length (hextets l) = 8%nat) as E8 by (by apply hextets_length).
    destruct (run_address m 58 120 16 (hextets l) fmt_x buf len) as [Hrun Ht]; [tauto| |lia| |done|done| |].
    { eapply Forall_impl; [apply (hextets_range _ Hb)|]. simpl. lia. }
    { by rewrite E8. }
    { by rewrite E8. }
    change (sep_text 58 (num_text 16 <$> hextets l)) with t in Hrun, Ht. rewrite run_bind, (run_nmem _ x (Some (Z.of_nat (length t))) (text_in m buf len t)).
    + cbn beta iota. by destruct (len <? Z.of_nat (length t)).
    + rewrite run_bind. fold m. rewrite (run_load_hextets _ 8 _ _ Hl E), run_bind, Hrun, run_ret. by rewrite wrap_small by lia.
Qed.

(** Inet_ntop of an address of either family writes its text, decimal bytes
    with dots or hexadecimal halfwords in network order with colons, cut at the
    size of the buffer and terminated.  It returns the buffer, or NULL with
    ENOSPC when the text is longer than the size.  A text of exactly the size is
    cut and the buffer is still returned. *)
Theorem inet_ntop_text x af fmt_u fmt_x cp l buf len :
  let m := n_mem x in
  let t := addr_text af l in
  let x' := set_n_mem (text_in m buf len t) x in
  af = AF_INET ∧ length l = 4%nat ∨ af = AF_INET6 ∧ length l = 16%nat → bytes_at m cp l →
  cstr m fmt_u u_chars → cstr m fmt_x x_chars → 0 ≤ len → valid m buf len →
  disjoint_ranges buf len fmt_u 12 → disjoint_ranges buf len fmt_x 24 →
  inet_ntop fmt_u fmt_x af cp buf len x =
  if len <? Z.of_nat (length t) then Ret NULL (set_n_errno ENOSPC x') else Ret buf x'.
Proof. apply run_inet_ntop. Qed.
End ntop.

(** An IPv4 address of 7 characters in a buffer of 7: the text is cut. *)
Example ntop_cut : text_in ∅ 10 7 (addr_text AF_INET [1; 2; 3; 4]) = write_bytes ∅ 10 [49; 46; 50; 46; 51; 46; 0].
Proof. by vm_compute. Qed.

(** ** From a text to its address *)

(** ["%hhu.%hhu.%hhu.%hhu"], for [n] numbers. *)
Fixpoint hhu_chars (n : nat) : list Z :=
  match n with
  | O => []
  | S n => [37; 104; 104; 117] ++ match n with O => [] | _ => 46 :: hhu_chars n end
  end.

Section aton.
Implicit Types (m : mem) (s : sst) (p : Z) (l ds rest : list Z).

(** Between directives. *)
Record at_normal s (q : Z) (ap : list Z) (n : Z) : Prop := {
  an_q : c_q s = q; an_ap : c_ap s = ap; an_state : c_state s = sc_normal;
  an_bail : c_bail s = bail_none; an_converted : c_converted s = n;
}.

Lemma decimal_text ds rest :
  ds ≠ [] → Forall (λ c, is_digit_of 10 c ∧ 0 < c < 128) ds → stops (is_digit_of 10) rest →
  number_text 10 10 0 [] [] [] ds rest.
Proof.
  intros Hne Hds Hrest. destruct (plain_number_text 10 [] ds) as [H1 H2 H3 H4 H5 H6 H7]; [lia|by left|done|done|].
  split; try done.
  - intros _. specialize (H3 eq_refl). by destruct ds.
  - apply radix_given; lia.
Qed.

(** One [%hhu]. *)
Lemma scan_hhu buffer p s m q a ap n ds rest :
  at_normal s q (a :: ap) n → bytes_at m p [37; 104; 104; 117] → cstr m q (ds ++ rest) →
  ds ≠ [] → Forall (λ c, is_digit_of 10 c ∧ 0 < c < 128) ds → stops (is_digit_of 10) rest →
  Z.of_nat (length (ds ++ rest)) ≤ UINT_MAX → is_Some (m !! a) →
  ∃ s', at_normal s' (q + Z.of_nat (length ds)) ap (n + 1) ∧
  ∀ f, loop (5 + f) (scan_machine buffer) (p, s) m =
       loop f (scan_machine buffer) (p + 4, s') (<[a := u8 (digits_value 10 ds)]> m).
Proof.
  intros [Hq Hap Hst Hb Hn] Hp Hc Hne Hds Hrest Hlen Ha.
  apply bytes_at_cons in Hp as (_ & P0 & Hp). apply bytes_at_cons in Hp as (_ & P1 & Hp).
  apply bytes_at_cons in Hp as (_ & P2 & Hp). apply bytes_at_cons in Hp as (_ & P3 & _).
  set (s1 := with_state sc_flags (with_flags 0 (with_rank rank_int (with_width UINT_MAX s)))).
  set (s2 := with_rank (rank_int - 1 - 1) (with_rank (rank_int - 1) (with_state sc_modifiers s1))).
  set (s3 := with_rank rank_char (with_state sc_normal s2)).
  assert (scan_int 10 rank_char s3 m =
    Ret (with_ap ap (with_converted (n + 1) (with_q (q + Z.of_nat (length ds)) s3)))
        (write_bytes m a (le_bytes 1 (number_value 10 [] ds)))) as Hint.
  { rewrite (run_scan_int m s3 10 10 0 rank_char [] [] [] ds rest a ap).
    - change (c_converted s3) with (c_converted s). change (c_q s3) with (c_q s). by rewrite Hn, Hq.
    - change (c_q s3) with (c_q s). by rewrite Hq.
    - by apply decimal_text.
    - done.
    - exact Hlen.
    - done.
    - exact Hap.
    - intros i Hi. change (Z.of_nat (scan_bytes rank_char)) with 1 in Hi. by replace (a + i) with a by lia. }
  eexists. split; [|intros f].
  2: { change (5 + f)%nat with (S (S (S (S (S f))))).
       erewrite (scan_round buffer p s m 37 true s1 m _ P0 ltac:(lia) Hb).
       2: { unfold scan_step. by rewrite Hst. }
       rewrite (scan_round buffer (p + 1) s1 m 104 false (with_state sc_modifiers s1) m _ P1 ltac:(lia) Hb) by done.
       rewrite (scan_round buffer (p + 1) (with_state sc_modifiers s1) m 104 true
         (with_rank (rank_int - 1) (with_state sc_modifiers s1)) m _ P1 ltac:(lia) Hb) by done.
       rewrite (scan_round buffer (p + 1 + 1) (with_rank (rank_int - 1) (with_state sc_modifiers s1)) m 104 true
         s2 m _ P2 ltac:(lia) Hb) by done.
       erewrite (scan_round buffer (p + 1 + 1 + 1) s2 m 117 true _ _ _ P3 ltac:(lia) Hb).
       2: { change (scan_step buffer 117 s2 m) with ((s ← scan_int 10 rank_char s3; mret (true, s)) m).
            rewrite run_bind, Hint. reflexivity. }
       replace (p + 1 + 1 + 1 + 1) with (p + 4) by lia.
       change (le_bytes 1 (number_value 10 [] ds)) with [number_value 10 [] ds mod 256].
       replace (number_value 10 [] ds mod 256) with (u8 (digits_value 10 ds)); [reflexivity|].
       unfold number_value, wrap. cbn [bool_decide]. rewrite bool_decide_eq_false_2 by done.
       symmetry. apply Z.mod_mod_divide. by exists (2 ^ 56). }
  by split.
Qed.

(** The dot between two. *)
Lemma scan_dot buffer p s m q ap n :
  at_normal s q ap n → m !! p = Some 46 → m !! q = Some 46 →
  ∃ s', at_normal s' (q + 1) ap n ∧
  ∀ f, loop (S f) (scan_machine buffer) (p, s) m = loop f (scan_machine buffer) (p + 1, s') m.
Proof.
  intros [Hq Hap Hst Hb Hn] Hp Hd. exists (with_q (q + 1) s). split; [by split|]. intros f.
  rewrite (scan_round buffer p s m 46 true (with_q (q + 1) s) m _ Hp ltac:(lia) Hb); [done|].
  unfold scan_step. rewrite Hst. unfold scan_normal. change (46 =? 37) with false. cbn iota.
  rewrite run_bind, run_isspace by (change (u8 46) with 46; lia). cbn beta iota.
  change (isspace_of (u8 46)) with 0. cbn [negb Z.eqb]. rewrite Hq.
  rewrite run_bind, (run_loadc _ _ _ Hd). cbn beta iota. by rewrite s8_ascii by lia.
Qed.

Lemma dec_facts v : is_byte v →
  num_text 10 v ≠ [] ∧ Forall (λ c, is_digit_of 10 c ∧ 0 < c < 128) (num_text 10 v) ∧ digits_value 10 (num_text 10 v) = v.
Proof.
  intros Hv. destruct (num_text_digits 10 v ltac:(lia) ltac:(unfold is_byte in Hv; lia)) as (Hl & Hd & Hval).
  split_and!; [|done|done]. intros E. rewrite E in Hl. simpl in Hl. lia.
Qed.

(** The addresses of consecutive bytes. *)
Fixpoint byte_addrs (a : Z) (n : nat) : list Z :=
  match n with O => [] | S n => a :: byte_addrs (a + 1) n end.

(** The whole format. *)
Lemma scan_quads buffer l :
  ∀ p s m q a n, Forall is_byte l → l ≠ [] → at_normal s q (byte_addrs a (length l)) n →
  cstr m p (hhu_chars (length l)) → cstr m q (sep_text 46 (num_text 10 <$> l)) → valid m a (Z.of_nat (length l)) →
  disjoint_ranges a (Z.of_nat (length l)) p (Z.of_nat (length (hhu_chars (length l))) + 1) →
  disjoint_ranges a (Z.of_nat (length l)) q (Z.of_nat (length (sep_text 46 (num_text 10 <$> l))) + 1) →
  Z.of_nat (length (sep_text 46 (num_text 10 <$> l))) ≤ UINT_MAX →
  ∃ s', c_converted s' = n + Z.of_nat (length l) ∧ c_bail s' = bail_none ∧
  ∀ f, (6 * length l ≤ f)%nat → loop f (scan_machine buffer) (p, s) m = Ret s' (write_bytes m a l).
Proof.
  induction l as [|v l IH]; [done|]. intros p s m q a n Hl _ Hs Hp Hq Ha Dp Dq Hlen.
  apply Forall_cons in Hl as [Hv Hl]. destruct (dec_facts v Hv) as (Hne & Hds & Hval).
  set (ds := num_text 10 v) in *. set (T := sep_text 46 (num_text 10 <$> l)) in *. set (k := length l) in *.
  set (H := hhu_chars k) in *.
  set (rest := match l with [] => [] | _ => 46 :: T end). set (fmt := match l with [] => [] | _ => 46 :: H end).
  assert (sep_text 46 (num_text 10 <$> v :: l) = ds ++ rest) as ET by (by destruct l).
  assert (hhu_chars (length (v :: l)) = [37; 104; 104; 117] ++ fmt) as EH by (by destruct l).
  assert (length (v :: l) = S k) as Ek by done. clearbody ds.
  rewrite ET, EH, Ek in *. cbn [byte_addrs] in Hs.
  apply cstr_app in Hp as (Hp4 & _ & Hp'). change (Z.of_nat (length [37; 104; 104; 117])) with 4 in Hp'.
  assert (is_Some (m !! a)) as Ha0 by (eapply valid_head; [|exact Ha]; lia).
  assert (stops (is_digit_of 10) rest) as Hrest.
  { unfold rest. destruct l; [done|]. cbn [stops]. intros [H1 H2]. by vm_compute in H1. }
  destruct (scan_hhu buffer p s m q a (byte_addrs (a + 1) k) n ds rest Hs Hp4 Hq Hne Hds Hrest Hlen Ha0)
    as (s1 & Hs1 & Hrun1).
  rewrite Hval, u8_byte in Hrun1 by done. set (m1 := <[a := v]> m) in *.
  assert (∀ b, b ≠ a → m1 !! b = m !! b) as Hout by (intros b Hb; unfold m1; by rewrite lookup_insert_ne).
  rewrite length_app in Dp, Dq, Hlen. cbn [length] in Dp. unfold disjoint_ranges in Dp, Dq.
  apply cstr_app in Hq as (_ & _ & Hq').
  destruct (decide (l = [])) as [->|Hl0].
  - exists s1. split_and!; [rewrite (an_converted _ _ _ _ Hs1); done|apply Hs1|]. intros f Hf.
    replace f with (5 + S (f - 6))%nat by (unfold k in Hf; simpl in Hf; lia). rewrite Hrun1, scan_end; [done|].
    rewrite Hout by lia. by apply cstr_nil in Hp'.
  - assert (rest = 46 :: T) as Er by (by destruct l). assert (fmt = 46 :: H) as Ef by (by destruct l).
    rewrite Er, Ef in *. cbn [length] in *. apply cstr_cons in Hp' as (Hdot & _ & Hp').
    apply cstr_cons in Hq' as (Hdot' & _ & Hq').
    assert (0 < length ds)%nat by (destruct ds; [done|simpl; lia]).
    destruct (scan_dot buffer (p + 4) s1 m1 (q + Z.of_nat (length ds)) (byte_addrs (a + 1) k) (n + 1) Hs1)
      as (s2 & Hs2 & Hrun2); [rewrite Hout by lia; done..|].
    destruct (IH (p + 4 + 1) s2 m1 (q + Z.of_nat (length ds) + 1) (a + 1) (n + 1) Hl Hl0 Hs2)
      as (s3 & Hn3 & Hb3 & Hrun3).
    + apply (cstr_ext m); [done|]. intros b Hb. apply Hout. lia.
    + apply (cstr_ext m); [done|]. intros b Hb. apply Hout. lia.
    + apply valid_insert. apply (valid_sub _ _ _ _ _ Ha); lia.
    + unfold disjoint_ranges. lia.
    + unfold disjoint_ranges. lia.
    + lia.
    + exists s3. split_and!; [rewrite Hn3; lia|done|]. intros f Hf.
      replace f with (5 + S (f - 6))%nat by lia. rewrite Hrun1, Hrun2, Hrun3 by lia.
      unfold m1. by rewrite <-write_bytes_cons'.
Qed.

Lemma le_bytes_value l : Forall is_byte l → le_bytes (length l) (le_value l) = l.
Proof.
  induction 1 as [|b l Hb Hl IH]; [done|]. cbn [length le_bytes le_value]. unfold is_byte in Hb.
  assert (u8 (b + 256 * le_value l) = b) as ->
    by (unfold wrap; change (2 ^ 8) with 256; rewrite Z.mul_comm, Z_mod_plus_full; by apply Z.mod_small).
  assert ((b + 256 * le_value l) / 256 = le_value l) as -> by (rewrite Z.mul_comm, Z_div_plus_full, Z.div_small; lia).
  by rewrite IH.
Qed.

(** A dotted text of four bytes. *)
Lemma run_inet_aton m fmt a str addr l :
  Forall is_byte l → length l = 4%nat → cstr m fmt (hhu_chars 4) → cstr m str (addr_text AF_INET l) →
  valid m a 4 → valid m addr 4 → disjoint_ranges a 4 fmt 20 →
  disjoint_ranges a 4 str (Z.of_nat (length (addr_text AF_INET l)) + 1) →
  inet_aton true fmt a str addr m = Ret (Some 1) (write_bytes (write_bytes m a l) addr l).
Proof.
  intros Hb Hl Hf Hs Ha Haddr Df Ds. unfold inet_aton, sscanf.
  assert (vsscanf true str fmt [a; a + 1; a + 2; a + 3] m = Ret (Some 4) (write_bytes m a l)) as Hscan.
  { destruct (scan_quads str l fmt (scan_start str [a; a + 1; a + 2; a + 3]) m str a 0 Hb)
      as (s' & Hn & Hbail & Hrun).
    - by destruct l.
    - rewrite Hl. split; try done. cbn [byte_addrs]. simpl. do 2 f_equal. f_equal; [lia|]. f_equal. lia.
    - by rewrite Hl.
    - done.
    - by rewrite Hl.
    - by rewrite Hl.
    - by rewrite Hl.
    - pose proof (sep_text_length 46 10 l ltac:(lia)) as Hlen. rewrite Hl in Hlen. unfold UINT_MAX.
      assert (Forall (λ v, 0 ≤ v < 2 ^ 32) l) as H32 by (eapply Forall_impl; [exact Hb|]; unfold is_byte; lia).
      specialize (Hlen H32). lia.
    - unfold vsscanf. cbn [negb]. rewrite run_bind, run_scan_fuel. fold (scan_machine str).
      apply cstr_size in Hf. change (length (hhu_chars 4)) with 19%nat in Hf.
      rewrite Hrun by (rewrite Hl; lia). cbn beta iota. rewrite Hbail, Hn, Hl. done. }
  rewrite run_bind, Hscan. cbn beta iota. change (4 =? 4) with true. cbn iota.
  assert (bytes_at (write_bytes m a l) a l) as Hal by (by apply write_bytes_at).
  rewrite run_bind. rewrite <-Hl at 1. rewrite (run_load_le _ _ _ Hal). cbn beta iota.
  rewrite run_bind, (run_store_le _ addr _ 4) by (by apply write_bytes_valid). cbn beta iota.
  rewrite <-Hl at 1. by rewrite le_bytes_value.
Qed.
End aton.

(** ** The round trip *)

Lemma dec_short v : is_byte v → (length (num_text 10 v) ≤ 3)%nat.
Proof.
  intros Hv. apply Nat.leb_le. apply (byte_forall (λ v, (length (num_text 10 v) <=? 3)%nat)); [by vm_compute|done].
Qed.

Lemma ipv4_short l : Forall is_byte l → length l = 4%nat → (length (addr_text AF_INET l) ≤ 15)%nat.
Proof.
  intros Hb Hl. destruct l as [|b0 [|b1 [|b2 [|b3 []]]]]; try done.
  repeat (apply Forall_cons in Hb as [?%dec_short Hb]). unfold addr_text.
  change (AF_INET =? AF_INET) with true. cbn [fmap list_fmap sep_text]. repeat rewrite ?length_app, ?length_cons.
  rewrite length_nil. lia.
Qed.

Lemma addr_text_chars l : Forall is_byte l → Forall (λ b, 0 < b < 256) (addr_text AF_INET l).
Proof.
  intros Hb. unfold addr_text. change (AF_INET =? AF_INET) with true. cbn iota.
  induction Hb as [|v l Hv Hl IH]; [constructor|]. cbn [fmap list_fmap sep_text].
  destruct (dec_facts v Hv) as (_ & Hd & _). apply Forall_app. split.
  - eapply Forall_impl; [exact Hd|]. intros c [_ ?]. lia.
  - destruct (num_text 10 <$> l) eqn:E; [constructor|]. rewrite <-E in *. by constructor.
Qed.

(** C28: inet_ntop and inet_pton are inverse on IPv4 addresses: for a buffer of at
    least 16 bytes inet_ntop returns the buffer with the dotted text, and
    inet_pton of that text returns 1 and stores the four bytes of the address,
    for each of the 2^32 addresses, when KLIBC_STREAMS_ORIG is defined.  When it is not,
    as poet.h leaves it, the text is the same and the sscanf of inet_pton fails its
    assertion ([None]). *)
Theorem inet_roundtrip {K} orig (x : net K) fmt_hhu fmt_u fmt_x cp l buf len a dst :
  let m := n_mem x in
  length l = 4%nat → bytes_at m cp l → 16 ≤ len →
  cstr m fmt_hhu (hhu_chars 4) → cstr m fmt_u u_chars → cstr m fmt_x x_chars →
  valid m buf len → disjoint_ranges buf len fmt_u 12 → disjoint_ranges buf len fmt_x 24 →
  disjoint_ranges buf len fmt_hhu 20 → disjoint_ranges a 4 fmt_hhu 20 →
  valid m a 4 → valid m dst 4 → disjoint_ranges a 4 buf len →
  ∃ x1 x2, inet_ntop fmt_u fmt_x AF_INET cp buf len x = Ret buf x1 ∧ cstr (n_mem x1) buf (addr_text AF_INET l) ∧
  inet_pton orig fmt_hhu a AF_INET buf dst x1 = (if orig then Ret (Some 1) x2 else Ret None x1) ∧ bytes_at (n_mem x2) dst l.
Proof.
  intros m Hl Hcp Hlen Hhhu Hu Hx Hv Du Dx Dh Da Hva Hvd Dab.
  pose proof (bytes_at_is_byte _ _ _ Hcp) as Hb. pose proof (ipv4_short l Hb Hl) as H15.
  set (t := addr_text AF_INET l) in *. set (m1 := write_bytes m buf (t ++ [0])).
  assert (text_in m buf len t = m1) as Et.
  { unfold text_in. rewrite bool_decide_eq_false_2 by lia. by rewrite take_ge by lia. }
  assert (cstr m1 buf t) as Ht by (by apply cstr_write, addr_text_chars).
  exists (set_n_mem m1 x), (set_n_mem (write_bytes (write_bytes m1 a l) dst l) (set_n_mem m1 x)). split_and!.
  - rewrite (run_inet_ntop x AF_INET fmt_u fmt_x cp l buf len) by (done || lia || by left).
    fold t m. rewrite (proj2 (Z.ltb_ge _ _)) by lia. by rewrite Et.
  - done.
  - unfold inet_pton. change (AF_INET =? AF_INET) with true. cbn iota. destruct orig; [apply run_nmem|reflexivity]. change (n_mem (set_n_mem m1 x)) with m1.
    unfold disjoint_ranges in *.
    apply run_inet_aton; [done|done| |done|by apply write_bytes_valid|by apply write_bytes_valid|done|fold t; unfold disjoint_ranges; lia].
    apply cstr_frame; [done|]. unfold disjoint_ranges. rewrite length_app. change (length (hhu_chars 4)) with 19%nat. simpl. lia.
  - by apply write_bytes_at.
Qed.

(** The loops of inet_pton for AF_INET6 read the destination instead of the
    source: with a destination that starts with a NUL, as after memset, every
    address is rejected. *)
Lemma inet_pton_reads_dst {K} (x : net K) orig fmt a src dst :
  n_mem x !! dst = Some 0 → inet_pton orig fmt a AF_INET6 src dst x = Ret (Some 0) x.
Proof.
  intros H0. unfold inet_pton. change (AF_INET6 =? AF_INET) with false. change (AF_INET6 =? AF_INET6) with true. cbn iota.
  assert (count_colons dst (n_mem x) = Ret (Some (0, 0)) (n_mem x)) as Hc.
  { unfold count_colons. rewrite run_scan_fuel, run_loop. by crun. }
  rewrite (run_nmem _ x (Some 0) (n_mem x)); [by destruct x|]. by rewrite run_bind, Hc.
Qed.

(** ** Reserved ports *)

Section ports.
Context {K : Type}.
Context (sys_bind : Z → list Z → K → Z * Z * K) (getpid : K → Z).
Implicit Types (x : net K) (l : list Z).

(** The reserved port [s] stands for, the ports after the last being the first ones
    again; [n] ports from [s] on, and all of them. *)
Definition reserved (s : Z) : Z := START_PORT + (s - START_PORT) mod NUM_PORTS.

Definition next_ports (s : Z) (n : nat) : list Z := (λ i, reserved (s + i)) <$> seqZ 0 (Z.of_nat n).

Definition ports_from (s : Z) : list Z := next_ports s (Z.to_nat NUM_PORTS).

(** The address with a port, in network order. *)
Definition with_port l (p : Z) : list Z := take 2 l ++ [p / 256; p mod 256] ++ drop 4 l.

(** Binding to the first of the ports that is free: the result, the last error,
    the kernel, and the port. *)
Fixpoint try_ports (sd : Z) l (ps : list Z) (last e : Z) (k : K) : Z * Z * K * Z :=
  match ps with
  | [] => (-1, e, k, last)
  | p :: ps =>
      let '(rv, e', k) := sys_bind sd (with_port l p) k in
      if rv =? -1 then try_ports sd l ps p e' k else (rv, e, k, p)
  end.

(** Each reserved port is there once. *)
Lemma ports_from_all s : START_PORT ≤ s ≤ END_PORT → ports_from s ≡ₚ seqZ START_PORT NUM_PORTS.
Proof.
  intros Hs. unfold START_PORT, END_PORT in Hs.
  assert (forallb (λ d, bool_decide (ports_from (768 + d) ≡ₚ seqZ START_PORT NUM_PORTS)) (seqZ 0 257) = true) as H
    by (by vm_compute).
  rewrite forallb_forall in H. specialize (H (s - 768)). rewrite bool_decide_eq_true in H.
  replace (768 + (s - 768)) with s in H by lia. apply H, list_elem_of_In, elem_of_seqZ. lia.
Qed.

Definition port_bytes (p : Z) : list Z := [p / 256; p mod 256].

Lemma htons_port p : 0 ≤ p < 2 ^ 16 → le_bytes 2 (htons p) = port_bytes p.
Proof.
  intros Hp. assert (is_byte (p mod 256)) as H0 by (apply Z.mod_pos_bound; lia).
  assert (is_byte (p / 256)) as H1 by (split; [apply Z.div_pos; lia|apply Z.div_lt_upper_bound; lia]).
  rewrite (Z.div_mod p 256) at 1 by lia. rewrite Z.add_comm, htons_bytes by done.
  replace (256 * (p mod 256) + p / 256) with (le_value (port_bytes p)) by (simpl; lia).
  apply (le_bytes_value (port_bytes p)). constructor; [done|]. by constructor.
Qed.

Lemma port_in_place m sin l p :
  bytes_at m sin l → length l = 16%nat → Forall is_byte (port_bytes p) →
  bytes_at (write_bytes m (sin + SIN_PORT) (port_bytes p)) sin (with_port l p).
Proof.
  intros Hl E Hp. unfold with_port. fold (port_bytes p).
  rewrite <-(take_drop 2 l), bytes_at_app in Hl. destruct Hl as [H1 H2].
  assert (drop 2 l = take 2 (drop 2 l) ++ drop 4 l) as E2 by (by rewrite <-(take_drop 2 (drop 2 l)), drop_drop at 1).
  rewrite E2, bytes_at_app in H2. destruct H2 as [_ H3].
  rewrite !length_take, length_drop, E in H3. rewrite !bytes_at_app, length_take, E.
  change (Z.of_nat (2 `min` 16)) with SIN_PORT in *. change (Z.of_nat (2 `min` (16 - 2))) with 2 in H3.
  change (Z.of_nat (length (port_bytes p))) with 2.
  split_and!.
  - apply write_bytes_frame; [done|]. unfold disjoint_ranges, SIN_PORT. rewrite length_take, E. simpl. lia.
  - by apply write_bytes_at.
  - apply write_bytes_frame; [done|]. unfold disjoint_ranges, SIN_PORT. rewrite length_drop, E. simpl. lia.
Qed.

(** The state after a port has been tried. *)
Definition tried x (sin p : Z) (e : Z) (k : K) : net K :=
  {| n_mem := write_bytes (n_mem x) (sin + SIN_PORT) (port_bytes p); n_errno := e; port := p; n_kernel := k |}.

Lemma reserved_range s : START_PORT ≤ reserved s < END_PORT.
Proof. unfold reserved. pose proof (Z.mod_pos_bound (s - START_PORT) NUM_PORTS eq_refl). unfold NUM_PORTS, START_PORT, END_PORT in *. lia. Qed.

Lemma reserved_here s : START_PORT ≤ s ≤ END_PORT → reserved s = if s =? END_PORT then START_PORT else s.
Proof.
  unfold reserved, NUM_PORTS, START_PORT, END_PORT. intros Hs. destruct (Z.eqb_spec s 1024) as [->|]; [done|].
  rewrite Z.mod_small; lia.
Qed.

Lemma run_port_round sd sin i ret x l :
  0 ≤ i < NUM_PORTS → bytes_at (n_mem x) sin l → length l = 16%nat → START_PORT ≤ port x ≤ END_PORT →
  let p := reserved (port x) in
  port_round sys_bind sd sin (i, ret) x =
  let '(rv, e, k) := sys_bind sd (with_port l p) (n_kernel x) in
  if rv =? -1 then Ret (inl (i + 1, -1)) (set_port (p + 1) (tried x sin p e k))
  else Ret (inr rv) (tried x sin p (n_errno x) k).
Proof.
  intros Hi Hl E Hs p. pose proof (reserved_range (port x)) as Hp. fold p in Hp.
  assert (Forall is_byte (port_bytes p)) as Hpb.
  { unfold port_bytes, is_byte, START_PORT, END_PORT in *.
    repeat constructor; [apply Z.div_pos; lia|apply Z.div_lt_upper_bound; lia|apply Z.mod_pos_bound; lia..]. }
  unfold port_round. rewrite (proj2 (Z.ltb_lt _ _)) by lia. cbn [negb].
  rewrite run_bind, run_get. cbn beta iota.
  assert ((if port x =? END_PORT then modify (set_port START_PORT) else mret tt) x = Ret tt (set_port p x)) as Hset.
  { unfold p. rewrite reserved_here by done. destruct (port x =? END_PORT); [done|]. by destruct x. }
  rewrite run_bind, Hset. cbn beta iota. rewrite run_bind, run_get. cbn beta iota.
  change (port (set_port p x)) with p.
  rewrite run_bind, (run_nmem _ (set_port p x) tt (write_bytes (n_mem x) (sin + SIN_PORT) (port_bytes p))); cycle 1.
  { rewrite run_store_le; [|].
    - by rewrite htons_port by (unfold START_PORT, END_PORT in *; lia).
    - apply (valid_sub _ sin 16); [|unfold SIN_PORT; simpl; lia..]. change 16 with (Z.of_nat 16). rewrite <-E. by apply bytes_at_valid. }
  cbn beta iota. unfold bind. rewrite run_bind, run_bind.
  set (x1 := set_n_mem _ (set_port p x)).
  rewrite (run_nmem _ x1 (with_port l p) (n_mem x1)); cycle 1.
  { assert (length (with_port l p) = 16%nat) as E16.
    { unfold with_port. rewrite !length_app, length_take, length_drop, E. done. }
    change (Z.to_nat SIZEOF_SOCKADDR_IN) with 16%nat. rewrite <-E16 at 1. apply run_load_bytes. by apply port_in_place. }
  cbn beta iota. rewrite run_bind, run_get. cbn beta iota.
  change (n_kernel (set_n_mem (n_mem x1) x1)) with (n_kernel x).
  destruct (sys_bind sd (with_port l p) (n_kernel x)) as [[rv e] k] eqn:Eb.
  rewrite run_bind, run_modify. cbn beta iota. destruct (Z.eqb_spec rv (-1)) as [->|Hne].
  - rewrite run_bind, run_modify. cbn beta iota. rewrite run_ret. cbn beta iota. change (negb (-1 =? -1)) with false.
    cbn iota. rewrite run_bind, run_modify. cbn beta iota. rewrite run_ret. unfold set_port, set_n_errno, set_n_kernel, tried. simpl.
    rewrite sext_small by (unfold START_PORT, END_PORT in *; lia). done.
  - rewrite run_bind, run_ret. cbn beta iota. rewrite run_ret. cbn beta iota.
    by rewrite (proj2 (Z.eqb_neq _ _)) by done.
Qed.

Lemma with_port_twice l p q : (4 ≤ length l)%nat → with_port (with_port l p) q = with_port l q.
Proof. destruct l as [|b0 [|b1 [|b2 [|b3 l]]]]; simpl; try lia. done. Qed.

Lemma try_ports_with sd l p ps last e k :
  (4 ≤ length l)%nat → try_ports sd (with_port l p) ps last e k = try_ports sd l ps last e k.
Proof.
  intros Hl. revert last e k. induction ps as [|q ps IH]; intros last e k; [done|]. cbn [try_ports].
  rewrite with_port_twice by done. destruct (sys_bind sd (with_port l q) k) as [[rv e'] k'].
  destruct (rv =? -1); [apply IH|done].
Qed.

Lemma next_ports_cons s n : next_ports s (S n) = reserved s :: next_ports (reserved s + 1) n.
Proof.
  unfold next_ports. rewrite seqZ_cons by lia. cbn [fmap list_fmap]. rewrite Z.add_0_r. f_equal.
  replace (Z.pred (Z.of_nat (S n))) with (Z.of_nat n) by lia.
  change (Z.succ 0) with (1 + 0). rewrite <-fmap_add_seqZ, <-list_fmap_compose. apply list_fmap_ext.
  intros _ i _. unfold compose, reserved, NUM_PORTS, START_PORT, END_PORT. f_equal.
  replace (768 + (s - 768) mod (1024 - 768) + 1 + i - 768) with ((s - 768) mod (1024 - 768) + (1 + i)) by lia.
  rewrite Zplus_mod_idemp_l. f_equal. lia.
Qed.

Lemma run_ports sd sin n :
  ∀ l x i ret last, i = NUM_PORTS - Z.of_nat (S n) → 0 ≤ i → bytes_at (n_mem x) sin l → length l = 16%nat →
  START_PORT ≤ port x ≤ END_PORT →
  let '(rv, e, k, q) := try_ports sd l (next_ports (port x) (S n)) last (n_errno x) (n_kernel x) in
  loop (S (S n)) (port_round sys_bind sd sin) (i, ret) x =
  Ret rv (set_port (if rv =? -1 then q + 1 else q) (tried x sin q e k)).
Proof.
  induction n as [|n IH]; intros l x i ret last Hi H0 Hl E Hs; rewrite next_ports_cons; cbn [try_ports];
    rewrite run_loop, (run_port_round sd sin i ret x l) by (done || lia); cbn zeta;
    pose proof (reserved_range (port x)) as Hr; set (p := reserved (port x)) in *;
    destruct (sys_bind sd (with_port l p) (n_kernel x)) as [[rv e] k] eqn:Eb;
    destruct (Z.eqb_spec rv (-1)) as [->|Hne].
  - change (next_ports (p + 1) 0) with (@nil Z). cbn [try_ports]. rewrite run_loop. unfold port_round.
    by rewrite (proj2 (Z.ltb_ge _ _)) by lia.
  - by rewrite (proj2 (Z.eqb_neq _ _)).
  - set (x1 := set_port (p + 1) (tried x sin p e k)).
    assert (bytes_at (n_mem x1) sin (with_port l p)) as Hl1.
    { apply port_in_place; [done|done|]. unfold port_bytes, is_byte, START_PORT, END_PORT in *.
      repeat constructor; [apply Z.div_pos; lia|apply Z.div_lt_upper_bound; lia|apply Z.mod_pos_bound; lia..]. }
    specialize (IH _ x1 (i + 1) (-1) p ltac:(lia) ltac:(lia) Hl1).
    rewrite try_ports_with in IH by lia. change (port x1) with (p + 1) in IH.
    change (n_errno x1) with e in IH. change (n_kernel x1) with k in IH.
    destruct (try_ports sd l (next_ports (p + 1) (S n)) p e k) as [[[rv' e'] k'] q'].
    rewrite IH; [|unfold with_port; rewrite !length_app, length_take, length_drop, E; done|unfold START_PORT, END_PORT in *; lia].
    unfold x1, tried, set_port. cbn [n_mem n_errno port n_kernel]. by rewrite write_bytes_overwrite.
  - by rewrite (proj2 (Z.eqb_neq _ _)).
Qed.

(** The port the search starts at. *)
Definition first_port x : Z :=
  if port x =? 0 then START_PORT + Z.rem (getpid (n_kernel x)) NUM_PORTS else port x.

(** Bindresvport tries the reserved ports, each of them once, from the one it
    keeps (or one that depends on the process number) upwards and around, until
    the kernel accepts one; the address and the kept port are then that port.  If
    none is accepted it returns -1 with the error of the last one. *)
Theorem bindresvport_tries x me sd sin l :
  sin ≠ NULL → bytes_at (n_mem x) sin l → length l = 16%nat → take 2 l = [2; 0] →
  port x = 0 ∨ START_PORT ≤ port x ≤ END_PORT → 0 ≤ getpid (n_kernel x) →
  let s := first_port x in
  let '(rv, e, k, q) := try_ports sd l (ports_from s) 0 (n_errno x) (n_kernel x) in
  ports_from s ≡ₚ seqZ START_PORT NUM_PORTS ∧
  bindresvport sys_bind getpid me sd sin x =
  Ret rv (set_port (if rv =? -1 then q + 1 else q) (tried x sin q e k)).
Proof.
  intros Hsin Hl E Hf Hport Hpid s.
  assert (START_PORT ≤ s ≤ END_PORT) as Hs.
  { unfold s, first_port, NUM_PORTS, START_PORT, END_PORT in *.
    pose proof (Z.rem_bound_pos (getpid (n_kernel x)) (1024 - 768) ltac:(lia) ltac:(lia)).
    destruct (Z.eqb_spec (port x) 0); lia. }
  set (x1 := set_port s x).
  pose proof (run_ports sd sin 255 l x1 0 0 0 eq_refl ltac:(lia) Hl E Hs) as Hrun.
  change (next_ports (port x1) 256) with (ports_from s) in Hrun.
  change (n_errno x1) with (n_errno x) in Hrun. change (n_kernel x1) with (n_kernel x) in Hrun.
  destruct (try_ports sd l (ports_from s) 0 (n_errno x) (n_kernel x)) as [[[rv e] k] q]. split.
  - by apply ports_from_all.
  - unfold bindresvport. rewrite (proj2 (Z.eqb_neq _ _)) by done.
    assert (nmem (load_le 2 (sin + SIN_FAMILY)) x = Ret AF_INET x) as Hfam.
    { rewrite (run_nmem _ x AF_INET (n_mem x)); [by destruct x|]. unfold SIN_FAMILY. rewrite Z.add_0_r.
      rewrite <-(take_drop 2 l), Hf, bytes_at_app in Hl. exact (run_load_le _ _ [2; 0] (proj1 Hl)). }
    rewrite run_bind, run_bind, Hfam. cbn beta iota. change (AF_INET =? AF_INET) with true. cbn iota.
    rewrite run_ret. cbn beta iota. rewrite run_bind, run_get. cbn beta iota.
    assert ((if port x =? 0 then modify (set_port (sext 16 (START_PORT + Z.rem (getpid (n_kernel x)) NUM_PORTS)))
             else mret tt) x = Ret tt x1) as Hset.
    { unfold x1, s, first_port in *. destruct (port x =? 0); [|by destruct x].
      rewrite run_modify, sext_small; [done|lia|]. unfold START_PORT, END_PORT in *. lia. }
    rewrite run_bind, Hset. cbn beta iota. exact Hrun.
Qed.
End ports.

(** ** Witnesses *)

(** The formats at 100, 150 and 200, the address 10.0.2.255 at 300, a buffer at
    400, the local union at 500, the destination at 510, a socket address at 600. *)
Definition net_mem : mem :=
  write_bytes (write_bytes (write_bytes (write_bytes (write_bytes (write_bytes (write_bytes ∅
    100 (hhu_chars 4 ++ [0])) 150 (u_chars ++ [0])) 200 (x_chars ++ [0])) 300 [10; 0; 2; 255])
    400 (replicate 16 63)) 500 (replicate 14 63)) 600 ([2; 0] ++ replicate 14 0).

(** A kernel that has the port 770 free only, and counts the calls. *)
Definition demo_bind (sd : Z) (l : list Z) (k : Z) : Z * Z * Z :=
  if bool_decide (take 2 (drop 2 l) = port_bytes 770) then (0, 0, k + 1) else (-1, 98, k + 1).

Definition demo_net : net Z := {| n_mem := net_mem; n_errno := 0; port := 0; n_kernel := 0 |}.

Lemma inet_ntop_text_witness :
  inet_ntop 150 200 AF_INET 300 400 10 demo_net =
    Ret 400 (set_n_mem (write_bytes net_mem 400 [49; 48; 46; 48; 46; 50; 46; 50; 53; 0]) demo_net) ∧
  inet_ntop 150 200 AF_INET 300 400 9 demo_net =
    Ret NULL (set_n_errno ENOSPC (set_n_mem (write_bytes net_mem 400 [49; 48; 46; 48; 46; 50; 46; 50; 0]) demo_net)).
Proof.
  split.
  - refine (eq_trans (inet_ntop_text demo_net AF_INET 150 200 300 [10; 0; 2; 255] 400 10 _ _ _ _ _ _ _ _) _);
      [left; split; reflexivity|by_decide|by_decide|by_decide|lia|by_decide|right; lia|right; lia|reflexivity].
  - refine (eq_trans (inet_ntop_text demo_net AF_INET 150 200 300 [10; 0; 2; 255] 400 9 _ _ _ _ _ _ _ _) _);
      [left; split; reflexivity|by_decide|by_decide|by_decide|lia|by_decide|right; lia|right; lia|reflexivity].
Defined.

Lemma inet_roundtrip_witness :
  ∃ x1 x2, inet_ntop 150 200 AF_INET 300 400 16 demo_net = Ret 400 x1 ∧
  inet_pton true 100 500 AF_INET 400 510 x1 = Ret (Some 1) x2 ∧ bytes_at (n_mem x2) 510 [10; 0; 2; 255].
Proof.
  destruct (inet_roundtrip true demo_net 100 150 200 300 [10; 0; 2; 255] 400 16 500 510)
    as (x1 & x2 & H1 & _ & H2 & H3);
    [reflexivity|by_decide|lia|by_decide|by_decide|by_decide|by_decide|right; lia|right; lia|right; lia|right; lia
    |by_decide|by_decide|right; lia|].
  exists x1, x2. exact (conj H1 (conj H2 H3)).
Defined.

Lemma bindresvport_tries_witness :
  ∃ x', bindresvport demo_bind (λ _, 257) 0 3 600 demo_net = Ret 0 x' ∧ port x' = 770 ∧ n_kernel x' = 2.
Proof.
  destruct (bindresvport_tries demo_bind (λ _, 257) demo_net 0 3 600 ([2; 0] ++ replicate 14 0))
    as [_ Hrun]; [discriminate|by_decide|reflexivity|reflexivity|left; reflexivity|simpl; lia|].
  eexists. split; [exact Hrun|]. split; reflexivity.
Defined.
