(* ===== verification/Lines.v ===== *)
(** * Reading lines: what [fgetc] and [fgets] take from a buffered stream

    The functions are in [Stdio]; here they are related to the text a stream has
    yet to deliver, the bytes in its buffer and those of its descriptor.
    [fgets_line]: fgets takes a line of it, or loses the last one when the text
    ends without a newline. *)

From Stdlib Require Import List.
From stdpp Require Import base tactics numbers list gmap.
From S2P Require Import Prelude Memory Words MemFns StrFns Alloc StaticHeap Stdio StdioSpec.

Open Scope Z_scope.

(** ** The text to come *)

Section reader.
Context {S K : Type} `{AllocatorLaws S}.
Context (sys : syscalls K) (fuel : nat).
Context (out inp : Z → K → list Z) (budget : K → nat).
Context (Hsys : syscalls_ok sys out inp budget).
Implicit Types (s : io S K) (m : mem) (t : list Z).

Abbreviation memory s := (amem (io_heap s)).

(** The stream [f], with the buffer of [siz] bytes at [buf], has the text [t] to
    deliver, with at most [B] interruptions. *)
Definition reader s (f buf siz : Z) (B : nat) t : Prop :=
  ∃ F u, io_files s !! f = Some F ∧ in_stream (memory s) F u ∧ f_buf F = buf ∧ bufsiz F = siz ∧
  u ++ inp (_IO_fileno F) (io_kernel s) = t ∧ (budget (io_kernel s) ≤ B)%nat.

(** Nothing but [errno], the kernel, the stream, its buffer and the addresses [W]
    changes. *)
Definition reads_only s s' (f buf siz : Z) (W : Z → Prop) : Prop :=
  (∀ a, ¬ W a → (a < buf ∨ buf + siz + _IO_UNGET_SLOP ≤ a) → memory s' !! a = memory s !! a) ∧
  (∀ q k, valid (memory s) q k → valid (memory s') q k) ∧
  (∀ g, g ≠ f → io_files s' !! g = io_files s !! g).

Lemma reads_only_refl s f buf siz W : reads_only s s f buf siz W.
Proof. by split_and!. Qed.

Lemma reads_only_trans s1 s2 s3 f buf siz W :
  reads_only s1 s2 f buf siz W → reads_only s2 s3 f buf siz W → reads_only s1 s3 f buf siz W.
Proof.
  intros (Hm & Hv & Hf) (Hm' & Hv' & Hf'). split_and!; [|by auto|].
  - intros a Ha Hb. by rewrite Hm', Hm.
  - intros g Hg. by rewrite Hf', Hf.
Qed.

Lemma reads_only_weaken s s' f buf siz (W W' : Z → Prop) :
  reads_only s s' f buf siz W → (∀ a, W a → W' a) → reads_only s s' f buf siz W'.
Proof. intros (Hm & Hv & Hf) HW. split_and!; [|done|done]. intros a Ha Hb. apply Hm; auto. Qed.

Lemma reads_only_bytes s s' f buf siz W p l :
  reads_only s s' f buf siz W → bytes_at (memory s) p l →
  disjoint_ranges p (Z.of_nat (length l)) buf (siz + _IO_UNGET_SLOP) →
  (∀ a, p ≤ a < p + Z.of_nat (length l) → ¬ W a) → bytes_at (memory s') p l.
Proof.
  intros (Hm & _) Hl Hd HW. apply (bytes_at_ext (memory s)); [done|]. intros a Ha. unfold disjoint_ranges in Hd.
  apply Hm; [by apply HW|lia].
Qed.

(** A store outside of the buffer. *)
Lemma reader_write s f buf siz B t p l :
  reader s f buf siz B t → disjoint_ranges p (Z.of_nat (length l)) buf (siz + _IO_UNGET_SLOP) →
  reader (set_io_heap (set_amem (write_bytes (memory s) p l) (io_heap s)) s) f buf siz B t.
Proof.
  intros (F & u & HF & His & Eb & Es & Ht & HB) Hd. exists F, u. split_and!; try done.
  simpl. rewrite amem_set. rewrite <-Eb, <-Es in Hd. by apply (in_stream_frame _ _ _ p l).
Qed.

Lemma reader_ext s f buf siz B t m' :
  reader s f buf siz B t → (∀ a, buf ≤ a < buf + siz + _IO_UNGET_SLOP → m' !! a = memory s !! a) →
  reader (set_io_heap (set_amem m' (io_heap s)) s) f buf siz B t.
Proof.
  intros (F & u & HF & His & Eb & Es & Ht & HB) Hm. exists F, u. split_and!; try done.
  simpl. rewrite amem_set. destruct His as [H1 H2 H3 H4 [H5 H6] H7]. rewrite <-Eb, <-Es in Hm. split; try done.
  - apply (bytes_at_ext (memory s)); [done|]. intros a Ha. apply Hm. lia.
  - intros i Hi. rewrite Hm by lia. by apply H7.
Qed.

Lemma reads_only_write s f buf siz p l :
  reads_only s (set_io_heap (set_amem (write_bytes (memory s) p l) (io_heap s)) s) f buf siz
    (λ a, p ≤ a < p + Z.of_nat (length l)).
Proof.
  split_and!; simpl; [|intros q k Hv; rewrite amem_set; by apply write_bytes_valid|done].
  intros a Ha _. rewrite amem_set. apply lookup_write_bytes_out. lia.
Qed.

(** ** [fgetc] *)

Lemma run_fgetc s f buf siz B t ch :
  reliable sys → reader s f buf siz B t → valid (memory s) ch 1 →
  disjoint_ranges ch 1 buf (siz + _IO_UNGET_SLOP) → (3 + B < fuel)%nat →
  ∃ s', fgetc sys fuel true ch f s = Ret (hd EOF t) s' ∧ reader s' f buf siz B (tail t) ∧
  reads_only s s' f buf siz (λ a, a = ch) ∧ Forall is_byte (take 1 t).
Proof.
  intros Hrel (F & u & HF & His & Eb & Es & Ht & HB) Hch Hd Hfuel. unfold fgetc, fgetc_orig.
  rewrite run_bind, (run_file s f F HF). cbn beta iota. rewrite (is_ibytes _ _ _ His).
  destruct u as [|c u].
  - change (negb (Z.of_nat (length []) =? 0)) with false. cbn iota.
    destruct (run_fread_loop sys out inp budget Hsys fuel s f F [] ch 0 1 Hrel HF His Hch) as (r & s' & Hrun & Hr).
    { unfold outside_input. by rewrite Eb, Es. }
    { lia. }
    { lia. }
    { case_decide; [lia|done]. }
    pose proof (read_up_to_take _ _ _ _ _ _ _ _ _ _ _ Hr) as Htake. simpl in Ht, Htake. rewrite Ht in Htake.
    destruct Hr as (k & e & m & F' & u' & l & -> & (Efd & _ & Eb' & Es' & _) & (_ & _ & Hk & Hbud) & Hru & Hrp & His' & Hm & Hlen).
    assert (_fread sys fuel true ch 1 f s = Ret (Z.of_nat (length r)) (at_buf s f k e m F')) as Hread.
    { unfold _fread, _fread_orig. change (1 =? 0) with false. cbn iota. rewrite run_bind, (run_file s f F HF). cbn beta iota. by rewrite (is_obytes _ _ _ His). }
    assert (reader (at_buf s f k e m F') f buf siz B (tail t)) as Hnew.
    { exists F', u'. rewrite memory_at_buf. split_and!; [apply lookup_at_file|done|congruence|congruence| |simpl; lia].
      rewrite Efd. change (io_kernel (at_buf s f k e m F')) with k. rewrite <-Ht, Hk.
      simpl in Hru. rewrite <-Hru, <-app_assoc.
      destruct Hlen as [[Hl _]|(Hl & _ & -> & ->)]; [by destruct r as [|? []]|by destruct r; [|simpl in Hl; lia]]. }
    assert (reads_only s (at_buf s f k e m F') f buf siz (λ a, a = ch)) as Honly.
    { destruct Hm as [Hm Hv]. rewrite Eb, Es in Hm. split_and!.
      - intros a Ha Hb. rewrite memory_at_buf. apply Hm; [lia|done].
      - intros q n Hq. rewrite memory_at_buf. by apply Hv.
      - intros g Hg. simpl. by rewrite lookup_insert_ne. }
    exists (at_buf s f k e m F'). split_and!; [|done|done|].
    + rewrite run_bind, Hread. cbn beta iota. rewrite Htake. destruct t as [|c t]; [done|].
      change (Z.of_nat (length (take 1 (c :: t))) =? 1) with true. cbn iota.
      apply run_iomem_read. rewrite memory_at_buf. apply run_load8. rewrite Htake in Hrp.
      by apply bytes_at_cons in Hrp as (_ & ? & _).
    + rewrite <-Htake. by apply bytes_at_is_byte in Hrp.
  - rewrite (proj2 (Z.eqb_neq _ 0)) by (simpl; lia). cbn [negb]. subst t.
    pose proof (is_data _ _ _ His) as Hdata. apply bytes_at_cons in Hdata as (Hc & Hc0 & Hdata).
    exists (at_file s f (io_kernel s) (io_errno s) (set_input (f_data F + 1) (Z.of_nat (length (c :: u)) - 1) F)).
    pose proof (at_file_id s f F HF) as Eid. split_and!.
    + rewrite run_bind. rewrite <-Eid at 1. rewrite update_at_file. cbn beta iota.
      apply run_iomem_read. by apply run_load8.
    + exists (set_input (f_data F + 1) (Z.of_nat (length (c :: u)) - 1) F), u.
      split_and!; [apply lookup_at_file| |done|done|done|done].
      destruct His as [H1 H2 H3 H4 [H5 H6] H7]. cbn [length] in *. split; try done; simpl; lia.
    + split_and!; [done|done|]. intros g Hg. simpl. by rewrite lookup_insert_ne.
    + simpl. constructor; [done|constructor].
Qed.

(** ** [fgets] *)

(** The line of at most [k] bytes at the front of a text, with its newline. *)
Fixpoint take_line (k : nat) t : list Z :=
  match k, t with
  | Datatypes.S k, c :: t => if c =? 10 then [c] else c :: take_line k t
  | _, _ => []
  end.

(** The text ended before the line was complete. *)
Fixpoint cut_short (k : nat) t : bool :=
  match k, t with
  | Datatypes.S k, c :: t => if c =? 10 then false else cut_short k t
  | Datatypes.S _, [] => true
  | O, _ => false
  end.

Lemma take_line_length k t : (length (take_line k t) ≤ k)%nat.
Proof. revert t. induction k as [|k IH]; intros [|c t]; simpl; try lia. destruct (c =? 10); simpl; [lia|]. specialize (IH t). lia. Qed.

Definition fgets_body (ch f str : Z) : Z * Z → C (io S K) (Z * Z + Z * Z * Z) := λ '(p, n),
  if negb (1 <? n) then Break (str, p, n) else
  c ← fgetc sys fuel true ch f;
  if c =? EOF then Break (NULL, p, n) else
  iomem (store8 p c);;
  if c =? 10 then Break (str, p + 1, n - 1) else Next (p + 1, n - 1).

Lemma run_fgets_loop f buf siz B ch str k :
  reliable sys → disjoint_ranges ch 1 buf (siz + _IO_UNGET_SLOP) → (3 + B < fuel)%nat →
  ∀ s p t, reader s f buf siz B t → valid (memory s) ch 1 → valid (memory s) p (Z.of_nat k) →
  disjoint_ranges p (Z.of_nat k) buf (siz + _IO_UNGET_SLOP) → disjoint_ranges p (Z.of_nat k) ch 1 →
  let l := take_line k t in
  ∃ s', loop (Datatypes.S k) (fgets_body ch f str) (p, Z.of_nat k + 1) s =
    Ret (if cut_short k t then NULL else str, p + Z.of_nat (length l), Z.of_nat k + 1 - Z.of_nat (length l)) s' ∧
  bytes_at (memory s') p l ∧ reader s' f buf siz B (drop (length l) t) ∧
  reads_only s s' f buf siz (λ a, a = ch ∨ p ≤ a < p + Z.of_nat k).
Proof.
  intros Hrel Dch Hfuel. unfold disjoint_ranges.
  induction k as [|k IH]; intros s p t Hr Hch Hv Db Dc; rewrite run_loop; unfold fgets_body at 1.
  - exists s. simpl. rewrite Z.add_0_r. split_and!; [done|apply bytes_at_nil|by rewrite drop_0|apply reads_only_refl].
  - rewrite (proj2 (Z.ltb_lt 1 _)) by lia. cbn [negb].
    destruct (run_fgetc s f buf siz B t ch Hrel Hr Hch Dch Hfuel) as (s1 & Hrun1 & Hr1 & Honly1 & Hbyte).
    rewrite run_bind, Hrun1. cbn beta iota. destruct t as [|c t].
    + change (hd EOF [] =? EOF) with true. cbn iota. exists s1. simpl. rewrite Z.add_0_r, Z.sub_0_r.
      split_and!; [done|apply bytes_at_nil|done|]. eapply reads_only_weaken; [exact Honly1|]. intros a ->. by left.
    + simpl take in Hbyte. apply Forall_cons in Hbyte as [Hc _]. cbn [hd tail] in *.
      rewrite (proj2 (Z.eqb_neq c EOF)) by (unfold is_byte, EOF in *; lia).
      assert (is_Some (memory s1 !! p)) as Hp.
      { apply (valid_head _ _ 1); [lia|]. apply Honly1. eapply valid_le, Hv. lia. }
      rewrite run_bind, (run_iomem _ _ _ _ (run_store8 _ _ _ Hp)). cbn beta iota. rewrite u8_byte by done.
      change (<[p := c]> (memory s1)) with (write_bytes (memory s1) p [c]).
      set (s2 := set_io_heap _ s1).
      assert (reader s2 f buf siz B t) as Hr2.
      { apply reader_write; [done|]. unfold disjoint_ranges. simpl. lia. }
      assert (reads_only s s2 f buf siz (λ a, a = ch ∨ p ≤ a < p + Z.of_nat (Datatypes.S k))) as Honly2.
      { eapply reads_only_trans; [eapply reads_only_weaken; [exact Honly1|intros a ->; by left]|].
        eapply reads_only_weaken; [apply reads_only_write|]. intros a Ha. simpl in Ha. right. lia. }
      assert (bytes_at (memory s2) p [c]) as Hc2.
      { unfold s2. simpl. rewrite amem_set. apply (write_bytes_at _ p [c]). by constructor. }
      cbn [take_line cut_short]. destruct (c =? 10).
      * exists s2. cbn [length]. rewrite run_ret. cbn [drop]. rewrite drop_0.
        split_and!; [do 2 f_equal; lia|done|done|done].
      * rewrite run_ret. replace (Z.of_nat (Datatypes.S k) + 1 - 1) with (Z.of_nat k + 1) by lia.
        destruct (IH s2 (p + 1) t Hr2) as (s3 & Hrun3 & Hl3 & Hr3 & Honly3).
        { by apply Honly2. }
        { apply Honly2. apply (valid_sub _ _ _ _ _ Hv); lia. }
        { lia. }
        { lia. }
        exists s3. rewrite Hrun3. cbn [length drop]. split_and!; [do 2 f_equal; [f_equal|]; lia| |done|].
        -- apply bytes_at_cons. split_and!; [done| |done]. destruct Honly3 as (Hm3 & _).
           rewrite Hm3 by lia. by apply bytes_at_cons in Hc2 as (_ & ? & _).
        -- eapply reads_only_trans; [exact Honly2|]. eapply reads_only_weaken; [exact Honly3|]. intros a Ha. cbn beta in *. lia.
Qed.

Lemma run_fgets s f buf siz B t ch str n :
  reliable sys → reader s f buf siz B t → 1 ≤ n →
  valid (memory s) ch 1 → valid (memory s) str n →
  disjoint_ranges ch 1 buf (siz + _IO_UNGET_SLOP) → disjoint_ranges str n buf (siz + _IO_UNGET_SLOP) →
  disjoint_ranges str n ch 1 → (3 + B < fuel)%nat →
  let l := take_line (Z.to_nat (n - 1)) t in
  ∃ s', fgets sys fuel true ch str n f s = Ret (if cut_short (Z.to_nat (n - 1)) t then NULL else str) s' ∧
  bytes_at (memory s') str (l ++ [0]) ∧ reader s' f buf siz B (drop (length l) t) ∧
  reads_only s s' f buf siz (λ a, a = ch ∨ str ≤ a < str + n).
Proof.
  intros Hrel Hr Hn Hch Hv Dch Ds Dc Hfuel l. unfold fgets. fold (fgets_body ch f str).
  set (k := Z.to_nat (n - 1)) in *. replace (Z.to_nat n) with (Datatypes.S k) by lia.
  replace n with (Z.of_nat k + 1) by lia. unfold disjoint_ranges in Ds, Dc.
  destruct (run_fgets_loop f buf siz B ch str k Hrel Dch Hfuel s str t Hr Hch) as (s1 & Hrun & Hl & Hr1 & Honly).
  { eapply valid_le, Hv. lia. }
  { unfold disjoint_ranges. lia. }
  { unfold disjoint_ranges. lia. }
  fold l in Hrun, Hl, Hr1. pose proof (take_line_length k t) as Hlen. fold l in Hlen.
  assert (loop (Datatypes.S (Datatypes.S k)) (fgets_body ch f str) (str, Z.of_nat k + 1) s =
    Ret (if cut_short k t then NULL else str, str + Z.of_nat (length l), Z.of_nat k + 1 - Z.of_nat (length l)) s1) as Hrun2.
  { eapply loop_more; [|exact Hrun]; lia. }
  set (s2 := set_io_heap (set_amem (write_bytes (memory s1) (str + Z.of_nat (length l)) [0]) (io_heap s1)) s1).
  exists s2. split_and!.
  - rewrite run_bind, Hrun2. cbn beta iota zeta. rewrite (proj2 (Z.eqb_neq _ 0)) by lia. cbn [negb].
    rewrite run_bind, (run_iomem _ _ tt (write_bytes (memory s1) (str + Z.of_nat (length l)) [0])); [done|].
    apply run_store8. apply (valid_head _ _ 1); [lia|]. apply Honly. apply (valid_sub _ _ _ _ _ Hv); lia.
  - unfold s2. simpl. rewrite amem_set. apply bytes_at_app. split.
    + apply (write_bytes_frame _ _ [0]); [done|]. unfold disjoint_ranges. simpl. lia.
    + apply (write_bytes_at _ _ [0]). by repeat constructor.
  - apply reader_write; [done|]. unfold disjoint_ranges. simpl. lia.
  - eapply reads_only_trans; [eapply reads_only_weaken; [exact Honly|intros a Ha; cbn beta in *; lia]|].
    eapply reads_only_weaken; [apply reads_only_write|]. intros a Ha. simpl in Ha. right. lia.
Qed.

(** Fgets of a buffer of n bytes takes the next line of a buffered stream,
    with its newline, up to n-1 bytes of it, however the kernel splits or
    interrupts the reads; it stores the line with a terminator and leaves the rest
    of the text in the stream.  It returns the buffer; but when the text ends
    before a newline or the size is reached it returns NULL, also if there were
    bytes, which are then lost to the caller. *)
Theorem fgets_line s f buf siz B t ch str n :
  reliable sys → reader s f buf siz B t → 1 ≤ n →
  valid (memory s) ch 1 → valid (memory s) str n →
  disjoint_ranges ch 1 buf (siz + _IO_UNGET_SLOP) → disjoint_ranges str n buf (siz + _IO_UNGET_SLOP) →
  disjoint_ranges str n ch 1 → (3 + B < fuel)%nat →
  let l := take_line (Z.to_nat (n - 1)) t in
  ∃ s', fgets sys fuel true ch str n f s = Ret (if cut_short (Z.to_nat (n - 1)) t then NULL else str) s' ∧
  bytes_at (memory s') str (l ++ [0]) ∧ reader s' f buf siz B (drop (length l) t) ∧
  reads_only s s' f buf siz (λ a, a = ch ∨ str ≤ a < str + n).
Proof. apply run_fgets. Qed.
End reader.

(** ** Witness *)

(** The stream of [StdioSpec] has "xy" in its buffer; the kernel has "z", a newline
    and "w", and gives one byte, an interruption and then the rest. *)
Definition lines_kernel : script_kernel :=
  {| sk_out := ∅; sk_in := {[ 0 := [122; 10; 119] ]}; sk_script := [1; 0; 1]%nat |}.

Definition lines_mem : mem := write_bytes demo_mem 3000 (replicate 12 63).

Definition lines_io : io static_heap script_kernel :=
  {| io_heap := {| heap := 4096; heapcnt := 0; heap_mem := lines_mem |};
     io_files := {[ 5000 := demo_file _IOFBF 0 2 0 ]}; io_kernel := lines_kernel;
     io_errno := 0; stdin := 5000; stdout := 0; stderr := 0 |}.

Lemma fgets_line_witness :
  ∃ s', fgets script_sys 100 true 3000 3001 10 5000 lines_io = Ret 3001 s' ∧
  bytes_at (heap_mem (io_heap s')) 3001 [120; 121; 122; 10; 0].
Proof.
  destruct (@fgets_line static_heap script_kernel _ static_laws script_sys 100 script_out script_inp _ script_ok
    lines_io 5000 1000 4 3 [120; 121; 122; 10; 119] 3000 3001 10) as (s' & Hrun & Hb & _).
  - exact script_reliable.
  - exists (demo_file _IOFBF 0 2 0), [120; 121]. split; [reflexivity|]. split; [|split; [reflexivity|split; [reflexivity|split; [reflexivity|simpl; lia]]]].
    split; unfold _IO_UNGET_SLOP; simpl; try lia; by_decide.
  - lia.
  - by_decide.
  - by_decide.
  - right. unfold _IO_UNGET_SLOP. lia.
  - right. unfold _IO_UNGET_SLOP. lia.
  - right. lia.
  - lia.
  - exists s'. split; [exact Hrun|exact Hb].
Defined.
