(* ===== verification/Mntent.v ===== *)
(** * The mount table: [getmntent.c], [setmntent.c], [endmntent.c]

    An entry is a line of a stream, cut into tokens in place; the record points
    into the line.  [getmntent_r_entry] composes the stream ([Lines]), the
    tokenizer ([Tokens]) and the number parser ([Numbers]): comments and blank
    lines are skipped, and the fields of the next line are those of the record. *)

From Stdlib Require Import List.
From stdpp Require Import base tactics numbers list gmap.
From S2P Require Import Prelude Memory Words MemFns Ctype StrFns Tokens Numbers Alloc StaticHeap Printf PrintfSpec Stdio StdioSpec Format Lines.

Open Scope Z_scope.

(** ** The code *)

Definition BUFLEN : Z := 1024.

(** [struct mntent] *)
Definition MNT_FSNAME : Z := 0.
Definition MNT_DIR : Z := 8.
Definition MNT_TYPE : Z := 16.
Definition MNT_OPTS : Z := 24.
Definition MNT_FREQ : Z := 32.
Definition MNT_PASSNO : Z := 36.
Definition SIZEOF_MNTENT : Z := 40.

(** A token stored in a member of the record; it and the saved pointer. *)
Definition mnt_field (sarg sep holder p : Z) : C mem (Z * Z) :=
  '(t, holder) ← strtok_r sarg sep holder;
  store64 p t;;
  mret (t, holder).

(** The options, which may be missing: the empty string then. *)
Definition mnt_options (sep empty holder p : Z) : C mem Z :=
  '(_, holder) ← mnt_field NULL sep holder p;
  opts ← load64 p;
  (if opts =? NULL then store64 p empty else mret tt);;
  mret holder.

(** A number of the entry, 0 when it is missing. *)
Definition mnt_number (sep holder p : Z) : C mem Z :=
  '(line, holder) ← strtok_r NULL sep holder;
  v ← (if line =? NULL then mret 0 else atoi line);
  store_le 4 p v;;
  mret holder.

(** The fields of the line at [buf].  After the second token the first one is
    tested again; [sep] and [empty] are the string constants. *)
Definition mnt_parse (sep empty mntbuf buf : Z) : C mem Z :=
  '(_, saveptr) ← mnt_field buf sep NULL (mntbuf + MNT_FSNAME);
  fsname ← load64 (mntbuf + MNT_FSNAME);
  if fsname =? NULL then mret NULL else
  '(_, saveptr) ← mnt_field NULL sep saveptr (mntbuf + MNT_DIR);
  fsname ← load64 (mntbuf + MNT_FSNAME);
  if fsname =? NULL then mret NULL else
  '(_, saveptr) ← mnt_field NULL sep saveptr (mntbuf + MNT_TYPE);
  type ← load64 (mntbuf + MNT_TYPE);
  if type =? NULL then mret NULL else
  saveptr ← mnt_options sep empty saveptr (mntbuf + MNT_OPTS);
  saveptr ← mnt_number sep saveptr (mntbuf + MNT_FREQ);
  _ ← mnt_number sep saveptr (mntbuf + MNT_PASSNO);
  mret mntbuf.

Section mntent.
Context {S K : Type} `{Allocator S}.
Context (sys : syscalls K) (fuel : nat) (KLIBC_STREAMS_ORIG : bool) (__stdio_headnode ch : Z).

(** The next line that is neither empty nor a comment. *)
Definition mnt_line (fp buf buflen : Z) : C (io S K) Z :=
  loop fuel (λ _ : unit,
    line ← fgets sys fuel KLIBC_STREAMS_ORIG ch buf buflen fp;
    if line =? NULL then Break line else
    c ← iomem (loadc buf);
    if (c =? 35) || (c =? 10) then Next tt else Break line) tt.

Definition getmntent_r (sep empty fp mntbuf buf buflen : Z) : C (io S K) Z :=
  if (fp =? NULL) || (mntbuf =? NULL) || (buf =? NULL) then mret NULL else
  line ← mnt_line fp buf buflen;
  if line =? NULL then mret NULL else
  iomem (mnt_parse sep empty mntbuf buf).

(** [mntbuf] is the static record; the arguments before it are those of [perror]
    and the string constants. *)
Definition getmntent (errlist : Z → option Z) (message numbuf colon newline str_malloc : Z)
    (sep empty mntbuf fp : Z) : C (io S K) Z :=
  buf ← in_heap (a_malloc BUFLEN);
  (if buf =? NULL
   then perror sys fuel KLIBC_STREAMS_ORIG errlist message numbuf colon newline str_malloc else mret tt);;
  getmntent_r sep empty fp mntbuf buf BUFLEN.

Definition setmntent (junk : _IO_file_pvt) (filename type : Z) : C (io S K) Z :=
  fopen sys KLIBC_STREAMS_ORIG __stdio_headnode junk filename type.

Definition endmntent (fp : Z) : C (io S K) Z :=
  (if negb (fp =? NULL) then fclose sys fuel KLIBC_STREAMS_ORIG __stdio_headnode fp;; mret tt else mret tt);;
  mret 1.
End mntent.

(** ** Lines and tokens *)

(** [" \t\n"] *)
Definition mnt_seps : list Z := [32; 9; 10].

Lemma fields_snoc d t c : c ∈ d → fields d (t ++ [c]) = fields d t ++ [[]].
Proof.
  intros Hc. induction t as [|b t IH]; simpl; [by rewrite decide_True|].
  rewrite IH. case_decide; [done|]. pose proof (fields_nonempty d t). by destruct (fields d t).
Qed.

Lemma tokens_snoc d t c : c ∈ d → tokens d (t ++ [c]) = tokens d t.
Proof.
  intros Hc. unfold tokens. rewrite fields_snoc by done. rewrite filter_app, filter_cons_False by (intros []; done).
  apply app_nil_r.
Qed.

Lemma take_line_whole k c t :
  10 ∉ c → (length c < k)%nat → take_line k (c ++ 10 :: t) = c ++ [10] ∧ cut_short k (c ++ 10 :: t) = false.
Proof.
  intros Hc. revert k. induction c as [|b c IH]; intros [|k] Hk; try (simpl in Hk; lia); [done|].
  apply not_elem_of_cons in Hc as [Hb Hc]. simpl. rewrite (proj2 (Z.eqb_neq b 10)) by lia.
  simpl in Hk. destruct (IH Hc k ltac:(lia)) as [-> ->]. done.
Qed.

(** ** The fields *)

Section parse.
Implicit Types (m : mem) (w : list Z) (ws : list (list Z)).
Context (sep : Z).

(** From [m] to [m'] only the addresses from [lo] to [hi] and the [n] at [p] changed. *)
Definition changes (lo hi p n : Z) m m' : Prop :=
  (∀ a, (a < lo ∨ hi ≤ a) → (a < p ∨ p + n ≤ a) → m' !! a = m !! a) ∧
  ∀ q k, disjoint_ranges q k lo (hi - lo) → valid m q k → valid m' q k.

Lemma run_mnt_field m lo hi h ws sarg holder p :
  more_tokens m mnt_seps lo hi h ws → cstr m sep mnt_seps → disjoint_ranges lo (hi - lo + 1) sep 4 →
  h = (if sarg =? NULL then holder else sarg) → valid m p 8 → hi < 2 ^ 64 →
  disjoint_ranges p 8 lo (hi - lo + 1) →
  ∃ t h' lo' m', mnt_field sarg sep holder p m = Ret (t, h') m' ∧ changes lo hi p 8 m m' ∧ lo ≤ lo' ∧
  word m' p = Some t ∧
  match ws with
  | [] => t = NULL ∧ more_tokens m' mnt_seps lo' hi h' []
  | w :: ws' => 0 < t ∧ lo ≤ t ∧ t + Z.of_nat (length w) < lo' ∧ t + Z.of_nat (length w) ≤ hi ∧
                cstr m' t w ∧ more_tokens m' mnt_seps lo' hi h' ws'
  end.
Proof.
  intros Hmore Hsep Dsep Hh Hp H64 Dp.
  destruct (run_next_token m sep mnt_seps lo hi h ws sarg holder Hmore Hsep Dsep Hh)
    as (t & h' & lo' & m1 & Hrun & Hframe & Hle & Hws).
  assert (∀ q k, disjoint_ranges q k lo (hi - lo) → valid m q k → valid m1 q k) as Hv1.
  { intros q k Hq Hv i Hi. unfold disjoint_ranges in Hq. rewrite Hframe by lia. by apply Hv. }
  assert (0 ≤ t < 2 ^ 64) as Ht by (destruct ws; [destruct Hws as [-> _]; unfold NULL|]; lia).
  unfold disjoint_ranges in Dp. exists t, h', lo', (put m1 p t). split_and!.
  - unfold mnt_field. rewrite run_bind, Hrun. cbn beta iota.
    rewrite run_bind, run_store64; [done|]. apply Hv1; [unfold disjoint_ranges; lia|done].
  - split; [|intros q k Hq Hv; by apply put_valid, Hv1]. intros a Ha Hb. rewrite lookup_put_out by lia. by apply Hframe.
  - done.
  - by apply word_put_eq.
  - assert (∀ a, lo ≤ a ≤ hi → put m1 p t !! a = m1 !! a) as Hput by (intros a Ha; apply lookup_put_out; lia).
    destruct ws as [|w ws]; destruct_and! Hws; split_and!; try done.
    + by eapply more_tokens_ext.
    + apply (cstr_ext m1); [done|]. intros a Ha. apply Hput. lia.
    + eapply more_tokens_ext; [done| |exact Hput]. done.
Qed.

(** A number of the table: decimal digits that fit an [int]. *)
Definition mnt_digits w : Prop :=
  w ≠ [] ∧ Forall (λ c, is_digit_of 10 c ∧ 0 < c < 128) w ∧ digits_value 10 w < 2 ^ 31.

Definition mnt_value (o : option (list Z)) : Z := default 0 (digits_value 10 <$> o).

Lemma run_mnt_atoi m t w : cstr m t w → mnt_digits w → Z.of_nat (length w) < 2 ^ 64 → atoi t m = Ret (digits_value 10 w) m.
Proof.
  intros Hw (Hne & Hds & Hlt) Hlen.
  assert (0 ≤ digits_value 10 w) as H0.
  { eapply digits_value_bound; [lia|]. eapply Forall_impl; [exact Hds|]. by intros c [? _]. }
  apply (strtol_exact m t 10 10 0 [] [] [] w []); [by rewrite app_nil_r|rewrite app_nil_r; simpl; unfold ULONG_MAX; lia| |done|].
  - apply (plain_number_text 10 [] w); [lia|by left|done|done].
  - unfold signed_value. rewrite bool_decide_eq_false_2 by done. lia.
Qed.

Lemma run_mnt_number m lo hi h ws p :
  more_tokens m mnt_seps lo hi h ws → cstr m sep mnt_seps → disjoint_ranges lo (hi - lo + 1) sep 4 →
  valid m p 4 → 0 ≤ lo → hi < 2 ^ 64 → disjoint_ranges p 4 lo (hi - lo + 1) →
  (∀ w, head ws = Some w → mnt_digits w) →
  ∃ h' lo' m', mnt_number sep h p m = Ret h' m' ∧ changes lo hi p 4 m m' ∧ lo ≤ lo' ∧
  bytes_at m' p (le_bytes 4 (mnt_value (head ws))) ∧ more_tokens m' mnt_seps lo' hi h' (tail ws).
Proof.
  intros Hmore Hsep Dsep Hp H0 H64 Dp Hnum.
  destruct (run_next_token m sep mnt_seps lo hi h ws NULL h Hmore Hsep Dsep eq_refl)
    as (t & h' & lo' & m1 & Hrun & Hframe & Hle & Hws).
  assert (∀ q k, disjoint_ranges q k lo (hi - lo) → valid m q k → valid m1 q k) as Hv1.
  { intros q k Hq Hv i Hi. unfold disjoint_ranges in Hq. rewrite Hframe by lia. by apply Hv. }
  unfold disjoint_ranges in Dp. set (v := mnt_value (head ws)).
  assert ((if t =? NULL then mret 0 else atoi t) m1 = Ret v m1) as Hatoi.
  { destruct ws as [|w ws]; [by destruct Hws as [-> _]|]. destruct Hws as (Hpos & Hlo & _ & Hend & Hw & _).
    rewrite (proj2 (Z.eqb_neq _ _)) by (unfold NULL; lia). apply run_mnt_atoi; [done|by apply Hnum|lia]. }
  exists h', lo', (write_bytes m1 p (le_bytes 4 v)). split_and!.
  - unfold mnt_number. rewrite run_bind, Hrun. cbn beta iota. rewrite run_bind, Hatoi. cbn beta iota.
    rewrite run_bind, run_store_le; [done|]. apply Hv1; [unfold disjoint_ranges; lia|done].
  - split; [|intros q k Hq Hv; by apply write_bytes_valid, Hv1]. intros a Ha Hb.
    rewrite lookup_write_bytes_out by (rewrite le_bytes_length; lia). by apply Hframe.
  - done.
  - apply write_bytes_at, le_bytes_is_byte.
  - eapply (more_tokens_ext m1 _ _ lo); [|done|].
    + destruct ws as [|w ws]; by destruct_and! Hws.
    + intros a Ha. apply lookup_write_bytes_out. rewrite le_bytes_length. lia.
Qed.

(** A member of the record points to a string. *)
Definition field_at m (p : Z) w : Prop := ∃ t, word m p = Some t ∧ 0 < t ∧ cstr m t w.

(** The record at [p]. *)
Record entry_at m (p : Z) (fsname dir type opts : list Z) (freq passno : Z) : Prop := {
  mnt_fsname : field_at m (p + MNT_FSNAME) fsname;
  mnt_dir : field_at m (p + MNT_DIR) dir;
  mnt_type : field_at m (p + MNT_TYPE) type;
  mnt_opts : field_at m (p + MNT_OPTS) opts;
  mnt_freq : bytes_at m (p + MNT_FREQ) (le_bytes 4 freq);
  mnt_passno : bytes_at m (p + MNT_PASSNO) (le_bytes 4 passno);
}.

(** The rest of the work: the numbers after the options. *)
Lemma run_mnt_numbers m lo hi h ws q :
  more_tokens m mnt_seps lo hi h ws → cstr m sep mnt_seps → disjoint_ranges lo (hi - lo + 1) sep 4 →
  valid m (q + MNT_FREQ) 8 → 0 ≤ lo → hi < 2 ^ 64 → disjoint_ranges q 40 lo (hi - lo + 1) →
  disjoint_ranges q 40 sep 4 →
  (∀ i w, (i < 2)%nat → ws !! i = Some w → mnt_digits w) →
  ∃ m', (saveptr ← mnt_number sep h (q + MNT_FREQ);
         _ ← mnt_number sep saveptr (q + MNT_PASSNO);
         mret q) m = Ret q m' ∧ changes lo hi (q + MNT_FREQ) 8 m m' ∧
  bytes_at m' (q + MNT_FREQ) (le_bytes 4 (mnt_value (ws !! 0%nat))) ∧
  bytes_at m' (q + MNT_PASSNO) (le_bytes 4 (mnt_value (ws !! 1%nat))).
Proof.
  intros Hmore Hsep Dsep Hv H0 H64 Dq Dqs Hnum. unfold MNT_FREQ, MNT_PASSNO, disjoint_ranges in *.
  destruct (run_mnt_number m lo hi h ws (q + 32) Hmore Hsep Dsep) as (h1 & lo1 & m1 & Hrun1 & [Hc1 Hv1] & Hle1 & Hb1 & Hmore1).
  { eapply valid_le, Hv. lia. }
  { done. }
  { done. }
  { unfold disjoint_ranges. lia. }
  { intros w Hw. apply (Hnum 0%nat); [lia|]. by destruct ws. }
  assert (cstr m1 sep mnt_seps) as Hsep1.
  { apply (cstr_ext m); [done|]. intros a Ha. simpl in Ha. apply Hc1; lia. }
  destruct (run_mnt_number m1 lo1 hi h1 (tail ws) (q + 36) Hmore1 Hsep1) as (h2 & lo2 & m2 & Hrun2 & [Hc2 Hv2] & Hle2 & Hb2 & _).
  { unfold disjoint_ranges. lia. }
  { apply Hv1; [unfold disjoint_ranges; lia|]. apply (valid_sub _ _ _ _ _ Hv); lia. }
  { lia. }
  { done. }
  { unfold disjoint_ranges. lia. }
  { intros w Hw. apply (Hnum 1%nat); [lia|]. by destruct ws as [|? []]. }
  exists m2. split_and!.
  - rewrite run_bind, Hrun1. cbn beta iota. by rewrite run_bind, Hrun2.
  - split.
    + intros a Ha Hb. rewrite Hc2, Hc1 by lia. done.
    + intros p k Hp Hpv. unfold disjoint_ranges in Hp. apply Hv2; [unfold disjoint_ranges; lia|]. apply Hv1; [done|done].
  - apply (bytes_at_ext m1); [by destruct ws|]. intros a Ha. rewrite le_bytes_length in Ha. apply Hc2; lia.
  - by destruct ws as [|? []].
Qed.

Lemma field_keep m m' p w lo hi q n t0 :
  changes lo hi q n m m' → word m p = Some t0 → 0 < t0 → cstr m t0 w →
  t0 + Z.of_nat (length w) < lo ∨ hi ≤ t0 → t0 + Z.of_nat (length w) < q ∨ q + n ≤ t0 →
  p + 8 ≤ lo ∨ hi ≤ p → p + 8 ≤ q ∨ q + n ≤ p → field_at m' p w.
Proof.
  intros [Hc _] Hp Hpos Hw Ht Htq Dp Dq. exists t0. split_and!; [|done|].
  - rewrite <-Hp. apply word_ext. intros a Ha. apply Hc; lia.
  - apply (cstr_ext m); [done|]. intros a Ha. apply Hc; lia.
Qed.

Lemma changes_trans lo hi q n lo' q' n' lo0 q0 n0 m1 m2 m3 :
  changes lo hi q n m1 m2 → changes lo' hi q' n' m2 m3 → lo0 ≤ lo → lo0 ≤ lo' →
  q0 ≤ q → q + n ≤ q0 + n0 → q0 ≤ q' → q' + n' ≤ q0 + n0 → changes lo0 hi q0 n0 m1 m3.
Proof.
  intros [Hc Hv] [Hc' Hv'] ? ? ? ? ? ?. split.
  - intros a Ha Hb. rewrite Hc', Hc by lia. done.
  - intros p k Hp Hpv. unfold disjoint_ranges in Hp. apply Hv'; [unfold disjoint_ranges; lia|].
    apply Hv; [unfold disjoint_ranges; lia|done].
Qed.

(** The line is at [buf] up to [hi], the record at [q]. *)
Context (q buf hi : Z).
Hypothesis (Dbs : disjoint_ranges buf (hi - buf + 1) sep 4).
Hypothesis (Dbq : disjoint_ranges q 40 buf (hi - buf + 1)).
Hypothesis (Dqs : disjoint_ranges q 40 sep 4).
Hypothesis (Hbuf : 0 < buf).
Hypothesis (Hhi : hi < 2 ^ 64).

Record ready m (lo h : Z) ws : Prop := {
  rd_more : more_tokens m mnt_seps lo hi h ws;
  rd_sep : cstr m sep mnt_seps;
  rd_valid : valid m q 40;
  rd_lo : buf ≤ lo;
}.

(** A token in the line, stored at [p]. *)
Definition token_in m (p lo lo' : Z) w : Prop :=
  ∃ t, word m p = Some t ∧ lo ≤ t ∧ t + Z.of_nat (length w) < lo' ∧ t + Z.of_nat (length w) ≤ hi ∧ cstr m t w.

Lemma run_ready_field m lo h ws sarg holder off :
  ready m lo h ws → h = (if sarg =? NULL then holder else sarg) → 0 ≤ off → off + 8 ≤ 40 →
  ∃ t h' lo' m', mnt_field sarg sep holder (q + off) m = Ret (t, h') m' ∧ changes lo hi (q + off) 8 m m' ∧
  lo ≤ lo' ∧ word m' (q + off) = Some t ∧ ready m' lo' h' (tail ws) ∧
  match ws with [] => t = NULL | w :: _ => t ≠ NULL ∧ token_in m' (q + off) lo lo' w end.
Proof.
  intros [Hmore Hsep Hv Hlo] Hh Hoff Hoff'. unfold disjoint_ranges in Dbs, Dbq, Dqs.
  destruct (run_mnt_field m lo hi h ws sarg holder (q + off) Hmore Hsep) as (t & h' & lo' & m' & Hrun & Hc & Hle & Hw & Hws).
  { unfold disjoint_ranges. lia. }
  { done. }
  { apply (valid_sub _ _ _ _ _ Hv); lia. }
  { done. }
  { unfold disjoint_ranges. lia. }
  exists t, h', lo', m'. split_and!; [done|done|done|done| |].
  - split; [destruct ws; by destruct_and! Hws| | |lia].
    + apply (cstr_ext m); [done|]. intros a Ha. simpl in Ha. apply Hc; lia.
    + apply Hc; [unfold disjoint_ranges; lia|done].
  - destruct ws as [|w ws]; [by destruct Hws|]. destruct Hws as (? & ? & ? & ? & ? & _).
    split; [unfold NULL; lia|]. by exists t.
Qed.

(** The token stays where it is. *)
Lemma token_keep m m' off lo lo' w lo2 off2 n2 :
  token_in m (q + off) lo lo' w → buf ≤ lo → lo' ≤ lo2 → changes lo2 hi (q + off2) n2 m m' →
  0 ≤ off → 0 ≤ n2 → off + 8 ≤ off2 → off2 + n2 ≤ 40 → token_in m' (q + off) lo lo' w.
Proof.
  intros (t & Hp & Ht & Hend & Hend' & Hw) Hlo Hle [Hc _] H0 Hn2 Hoff H40. unfold disjoint_ranges in *.
  exists t. split_and!; [|done|done|done|].
  - rewrite <-Hp. apply word_ext. intros a Ha. apply Hc; lia.
  - apply (cstr_ext m); [done|]. intros a Ha. apply Hc; lia.
Qed.

Lemma token_field m p lo lo' w : token_in m p lo lo' w → buf ≤ lo → field_at m p w.
Proof. intros (t & Hp & Ht & _ & _ & Hw) Hlo. exists t. split_and!; [done|lia|done]. Qed.

Context (empty : Z).
Hypothesis (Dqe : disjoint_ranges q 40 empty 1).
Hypothesis (Dbe : disjoint_ranges buf (hi - buf + 1) empty 1).
Hypothesis (Hempty : 0 < empty < 2 ^ 64).

(** The options: a token or the empty string. *)
Lemma run_opts m lo h ws :
  ready m lo h ws → m !! empty = Some 0 →
  ∃ h' lo' m', mnt_options sep empty h (q + MNT_OPTS) m = Ret h' m' ∧ changes lo hi (q + MNT_OPTS) 8 m m' ∧ ready m' lo' h' (tail ws) ∧ lo ≤ lo' ∧
  ∃ t, word m' (q + MNT_OPTS) = Some t ∧ 0 < t ∧ cstr m' t (default [] (head ws)) ∧
    (t = empty ∧ head ws = None ∨ buf ≤ t ∧ t + Z.of_nat (length (default [] (head ws))) < lo' ∧
     t + Z.of_nat (length (default [] (head ws))) ≤ hi).
Proof.
  intros Hr He. unfold disjoint_ranges in *.
  destruct (run_ready_field m lo h ws NULL h MNT_OPTS Hr eq_refl ltac:(done) ltac:(done))
    as (t & h' & lo' & m1 & Hrun & Hc & Hle & Hw & Hr1 & Hws).
  pose proof (rd_lo _ _ _ _ Hr) as Hlo. destruct ws as [|w ws].
  - subst t. set (m2 := put m1 (q + MNT_OPTS) empty). unfold MNT_OPTS in *.
    assert (valid m1 (q + 24) 8) as Hv1 by (apply (valid_sub _ _ _ _ _ (rd_valid _ _ _ _ Hr1)); lia).
    assert (∀ a, (a < q + 24 ∨ q + 32 ≤ a) → m2 !! a = m1 !! a) as Hput by (intros a Ha; apply lookup_put_out; lia).
    exists h', lo', m2. split_and!.
    + unfold mnt_options. rewrite run_bind, Hrun. cbn beta iota. rewrite run_bind, (run_load64 _ _ _ Hw). cbn beta iota.
      change (NULL =? NULL) with true. cbn iota. by rewrite run_bind, run_store64.
    + destruct Hc as [Hc Hcv]. split; [|intros p k Hp Hpv; by apply put_valid, Hcv]. intros a Ha Hb. rewrite Hput, Hc by lia. done.
    + destruct Hr1 as [Hmore1 Hsep1 Hvq Hlo1]. split; [|..|done].
      * eapply (more_tokens_ext m1 _ _ lo'); [exact Hmore1|done|]. intros a Ha. apply Hput. lia.
      * apply (cstr_ext m1); [done|]. intros a Ha. simpl in Ha. apply Hput. lia.
      * by apply put_valid.
    + done.
    + exists empty. split_and!; [apply word_put_eq; lia|lia| |by left].
      apply cstr_nil. rewrite Hput by lia. destruct Hc as [Hc _]. by rewrite Hc by lia.
  - destruct Hws as (Hne & t' & Ht' & Hlot & Hend & Hend' & Hcw). rewrite Ht' in Hw. injection Hw as ->.
    exists h', lo', m1. split_and!; [|done|done|done|].
    + unfold mnt_options. rewrite run_bind, Hrun. cbn beta iota. rewrite run_bind, (run_load64 _ _ _ Ht'). cbn beta iota.
      by rewrite (proj2 (Z.eqb_neq _ _)) by done.
    + exists t. simpl. split_and!; [done|lia|done|]. right. lia.
Qed.

(** Three tokens at least. *)
Lemma run_mnt_parse m w1 w2 w3 ws :
  ready m buf buf (w1 :: w2 :: w3 :: ws) → m !! empty = Some 0 →
  (∀ i w, (1 ≤ i < 3)%nat → ws !! i = Some w → mnt_digits w) →
  ∃ m', mnt_parse sep empty q buf m = Ret q m' ∧ changes buf hi q 40 m m' ∧
  entry_at m' q w1 w2 w3 (default [] (ws !! 0%nat)) (mnt_value (ws !! 1%nat)) (mnt_value (ws !! 2%nat)).
Proof.
  intros Hr He Hnum. unfold mnt_parse. pose proof Dbq as Dbq'. pose proof Dqe as Dqe'. pose proof Dbe as Dbe'.
  unfold disjoint_ranges in Dbq', Dqe', Dbe'.
  destruct (run_ready_field m buf buf _ buf NULL MNT_FSNAME Hr) as (t1 & h1 & lo1 & m1 & Hrun1 & Hc1 & Hle1 & Hw1 & Hr1 & Hne1 & Hk1);
    [by destruct (buf =? NULL) eqn:E; [apply Z.eqb_eq in E; unfold NULL in E; lia|]|done|done|].
  rewrite run_bind, Hrun1. cbn beta iota. rewrite run_bind, (run_load64 _ _ _ Hw1). cbn beta iota.
  rewrite (proj2 (Z.eqb_neq t1 NULL)) by done. cbn [tail] in Hr1.
  destruct (run_ready_field m1 lo1 h1 _ NULL h1 MNT_DIR Hr1 eq_refl) as (t2 & h2 & lo2 & m2 & Hrun2 & Hc2 & Hle2 & Hw2 & Hr2 & Hne2 & Hk2);
    [done|done|].
  rewrite run_bind, Hrun2. cbn beta iota.
  assert (word m2 (q + MNT_FSNAME) = Some t1) as Hw1'.
  { rewrite <-Hw1. apply word_ext. intros a Ha. pose proof (rd_lo _ _ _ _ Hr1). unfold MNT_FSNAME, MNT_DIR in *. apply Hc2; lia. }
  rewrite run_bind, (run_load64 _ _ _ Hw1'). cbn beta iota. rewrite (proj2 (Z.eqb_neq t1 NULL)) by done. cbn [tail] in Hr2.
  destruct (run_ready_field m2 lo2 h2 _ NULL h2 MNT_TYPE Hr2 eq_refl) as (t3 & h3 & lo3 & m3 & Hrun3 & Hc3 & Hle3 & Hw3 & Hr3 & Hne3 & Hk3);
    [done|done|].
  rewrite run_bind, Hrun3. cbn beta iota. rewrite run_bind, (run_load64 _ _ _ Hw3). cbn beta iota.
  rewrite (proj2 (Z.eqb_neq t3 NULL)) by done. cbn [tail] in Hr3.
  assert (buf ≤ lo3) as Hlo3 by (pose proof (rd_lo _ _ _ _ Hr3); lia).
  assert (m3 !! empty = Some 0) as He3.
  { destruct Hc1 as [Hc1 _], Hc2 as [Hc2 _], Hc3 as [Hc3 _]. unfold MNT_FSNAME, MNT_DIR, MNT_TYPE in *.
    rewrite Hc3, Hc2, Hc1 by lia. done. }
  destruct (run_opts m3 lo3 h3 ws Hr3 He3) as (h4 & lo4 & m4 & Hrun4 & Hc4 & Hr4 & Hle4 & t4 & Hw4 & Hpos4 & Ht4 & Hin4).
  rewrite run_bind, Hrun4. cbn beta iota. destruct Hr4 as [Hmore4 Hsep4 Hv4 Hlo4].
  destruct (run_mnt_numbers m4 lo4 hi h4 (tail ws) q Hmore4 Hsep4) as (m5 & Hrun5 & Hc5 & Hfreq & Hpass).
  { pose proof Dbs as Dbs'. unfold disjoint_ranges in *. lia. }
  { unfold MNT_FREQ. apply (valid_sub _ _ _ _ _ Hv4); lia. }
  { lia. }
  { done. }
  { unfold disjoint_ranges. lia. }
  { done. }
  { intros i w Hi Hw. apply (Hnum (S i)); [lia|]. by rewrite <-Hw, lookup_tail. }
  unfold MNT_FSNAME, MNT_DIR, MNT_TYPE, MNT_OPTS, MNT_FREQ in *.
  pose proof (changes_trans lo3 hi (q + 24) 8 lo4 (q + 32) 8 lo3 (q + 24) 16 _ _ _ Hc4 Hc5) as C35.
  pose proof (changes_trans lo2 hi (q + 16) 8 lo3 (q + 24) 16 lo2 (q + 16) 24 _ _ _ Hc3 (C35 ltac:(lia) ltac:(lia) ltac:(lia) ltac:(lia) ltac:(lia) ltac:(lia))) as C25.
  pose proof (changes_trans lo1 hi (q + 8) 8 lo2 (q + 16) 24 lo1 (q + 8) 32 _ _ _ Hc2 (C25 ltac:(lia) ltac:(lia) ltac:(lia) ltac:(lia) ltac:(lia) ltac:(lia))) as C15.
  exists m5. split_and!; [done| |].
  - apply (changes_trans buf hi (q + 0) 8 lo1 (q + 8) 32 buf q 40 _ _ _ Hc1); [apply C15|..]; lia.
  - pose proof (rd_lo _ _ _ _ Hr1). pose proof (rd_lo _ _ _ _ Hr2). split.
    + apply (token_field _ _ buf lo1); [|lia]. apply (token_keep m1 _ 0 buf lo1 w1 lo1 8 32 Hk1); try lia. apply C15; lia.
    + apply (token_field _ _ lo1 lo2); [|lia]. apply (token_keep m2 _ 8 lo1 lo2 w2 lo2 16 24 Hk2); try lia. apply C25; lia.
    + apply (token_field _ _ lo2 lo3); [|lia]. apply (token_keep m3 _ 16 lo2 lo3 w3 lo3 24 16 Hk3); try lia. apply C35; lia.
    + destruct Hc5 as [Hc5 _]. exists t4. rewrite <-head_lookup. split_and!; [|done|].
      * rewrite <-Hw4. apply word_ext. intros a Ha. apply Hc5; lia.
      * apply (cstr_ext m4); [done|]. intros a Ha. destruct Hin4 as [[-> E]|?]; [rewrite E in Ha; simpl in Ha|]; apply Hc5; lia.
    + by rewrite <-lookup_tail.
    + by rewrite <-lookup_tail.
Qed.

(** With less than three there is no entry. *)
Lemma run_mnt_parse_short m ws :
  ready m buf buf ws → (length ws < 3)%nat →
  ∃ m', mnt_parse sep empty q buf m = Ret NULL m' ∧ changes buf hi q 40 m m'.
Proof.
  intros Hr Hlen. unfold mnt_parse. pose proof Dbq as Dbq'. unfold disjoint_ranges in Dbq'.
  destruct (run_ready_field m buf buf _ buf NULL MNT_FSNAME Hr) as (t1 & h1 & lo1 & m1 & Hrun1 & Hc1 & Hle1 & Hw1 & Hr1 & Ht1);
    [by destruct (buf =? NULL) eqn:E; [apply Z.eqb_eq in E; unfold NULL in E; lia|]|done|done|].
  rewrite run_bind, Hrun1. cbn beta iota. rewrite run_bind, (run_load64 _ _ _ Hw1). cbn beta iota.
  assert (∀ lo off n m2, changes lo hi (q + off) n m1 m2 → buf ≤ lo → 0 ≤ off → off + n ≤ 40 → changes buf hi q 40 m m2) as Hall.
  { intros lo off n m2 Hc ? ? ?. unfold MNT_FSNAME in Hc1. eapply changes_trans; [exact Hc1|exact Hc|lia..]. }
  destruct ws as [|w1 ws].
  { subst t1. exists m1. split; [done|]. apply (Hall buf 0 0); [by split; [|auto]|lia..]. }
  destruct Ht1 as [Hne1 _]. cbn [tail] in Hr1.
  rewrite (proj2 (Z.eqb_neq t1 NULL)) by done.
  destruct (run_ready_field m1 lo1 h1 _ NULL h1 MNT_DIR Hr1 eq_refl) as (t2 & h2 & lo2 & m2 & Hrun2 & Hc2 & Hle2 & Hw2 & Hr2 & Ht2);
    [done|done|].
  rewrite run_bind, Hrun2. cbn beta iota.
  assert (word m2 (q + MNT_FSNAME) = Some t1) as Hw1'.
  { rewrite <-Hw1. apply word_ext. intros a Ha. pose proof (rd_lo _ _ _ _ Hr1). unfold MNT_FSNAME, MNT_DIR in *. apply Hc2; lia. }
  rewrite run_bind, (run_load64 _ _ _ Hw1'). cbn beta iota. rewrite (proj2 (Z.eqb_neq t1 NULL)) by done.
  destruct (run_ready_field m2 lo2 h2 _ NULL h2 MNT_TYPE Hr2 eq_refl) as (t3 & h3 & lo3 & m3 & Hrun3 & Hc3 & Hle3 & Hw3 & Hr3 & Ht3);
    [done|done|].
  rewrite run_bind, Hrun3. cbn beta iota. rewrite run_bind, (run_load64 _ _ _ Hw3). cbn beta iota.
  assert (t3 = NULL) as -> by (by destruct ws as [|? [|? ?]]; simpl in Hlen; [| |lia]).
  exists m3. split; [done|]. pose proof (rd_lo _ _ _ _ Hr1). pose proof (rd_lo _ _ _ _ Hr2). unfold MNT_DIR, MNT_TYPE in *.
  apply (Hall lo1 8 16); [|lia..]. eapply changes_trans; [exact Hc2|exact Hc3|lia..].
Qed.
End parse.

(** ** The lines *)

Section lines.
Context {S K : Type} `{AllocatorLaws S}.
Context (sys : syscalls K) (fuel : nat).
Context (out inp : Z → K → list Z) (budget : K → nat).
Context (Hsys : syscalls_ok sys out inp budget).
Implicit Types (s : io S K) (c t : list Z).

Abbreviation memory s := (amem (io_heap s)).

(** A line that is skipped: blank or a comment, shorter than the buffer. *)
Definition skipped_line (buflen : Z) c : Prop :=
  (10 ∉ c) ∧ (c = [] ∨ head c = Some 35) ∧ Z.of_nat (length c) + 1 < buflen.

(** A line that is an entry. *)
Definition entry_line (buflen : Z) c : Prop :=
  Forall (λ b, 0 < b < 256) c ∧ (10 ∉ c) ∧ c ≠ [] ∧ head c ≠ Some 35 ∧ Z.of_nat (length c) + 1 < buflen.

Definition table_text (skips : list (list Z)) c t : list Z := foldr (λ k t, k ++ 10 :: t) (c ++ 10 :: t) skips.

Context (fp sbuf siz : Z) (B : nat) (ch buf buflen : Z).
Hypothesis (Hrel : reliable sys).
Hypothesis (Dch : disjoint_ranges ch 1 sbuf (siz + _IO_UNGET_SLOP)).
Hypothesis (Dbuf : disjoint_ranges buf buflen sbuf (siz + _IO_UNGET_SLOP)).
Hypothesis (Dbc : disjoint_ranges buf buflen ch 1).
Hypothesis (Hfuel : (3 + B < fuel)%nat).
Hypothesis (Hbuf : 0 < buf).

Lemma run_mnt_fgets s c t :
  reader inp budget s fp sbuf siz B (c ++ 10 :: t) → valid (memory s) ch 1 → valid (memory s) buf buflen →
  10 ∉ c → Z.of_nat (length c) + 1 < buflen →
  ∃ s', fgets sys fuel true ch buf buflen fp s = Ret buf s' ∧ bytes_at (memory s') buf (c ++ [10; 0]) ∧
  reader inp budget s' fp sbuf siz B t ∧ reads_only s s' fp sbuf siz (λ a, a = ch ∨ buf ≤ a < buf + buflen).
Proof.
  intros Hr Hch Hv H10 Hlen.
  destruct (run_fgets sys fuel out inp budget Hsys s fp sbuf siz B (c ++ 10 :: t) ch buf buflen Hrel Hr ltac:(lia) Hch Hv Dch Dbuf Dbc Hfuel)
    as (s' & Hrun & Hb & Hr' & Honly).
  destruct (take_line_whole (Z.to_nat (buflen - 1)) c t H10 ltac:(lia)) as [El Ec]. rewrite El, Ec in *.
  rewrite <-app_assoc in Hb. exists s'. split_and!; [done|done| |done].
  rewrite length_app in Hr'. change (c ++ 10 :: t) with (c ++ [10] ++ t) in Hr'. rewrite app_assoc in Hr'.
  by rewrite <-length_app, drop_app_length in Hr'.
Qed.

Lemma run_mnt_line skips c t :
  Forall (skipped_line buflen) skips → entry_line buflen c →
  ∀ n s, reader inp budget s fp sbuf siz B (table_text skips c t) → valid (memory s) ch 1 → valid (memory s) buf buflen →
  (length skips < n)%nat →
  ∃ s', loop n (λ _ : unit,
    line ← fgets sys fuel true ch buf buflen fp;
    if line =? NULL then Break line else
    c ← iomem (loadc buf);
    if (c =? 35) || (c =? 10) then Next tt else Break line) tt s = Ret buf s' ∧
  bytes_at (memory s') buf (c ++ [10; 0]) ∧ reader inp budget s' fp sbuf siz B t ∧
  reads_only s s' fp sbuf siz (λ a, a = ch ∨ buf ≤ a < buf + buflen).
Proof.
  intros Hskips Hc. induction Hskips as [|k skips Hk Hskips IH]; intros [|n] s Hr Hch Hv Hn; try (simpl in Hn; lia); rewrite run_loop.
  - destruct Hc as (Hcb & H10 & Hne & H35 & Hlen). destruct (run_mnt_fgets s c t Hr Hch Hv H10 Hlen) as (s1 & Hrun & Hb & Hr1 & Honly).
    rewrite run_bind, Hrun. cbn beta iota. rewrite (proj2 (Z.eqb_neq _ _)) by (unfold NULL; lia).
    destruct c as [|b c]; [done|]. apply bytes_at_cons in Hb as Hb'. destruct Hb' as (Hbb & Hb0 & _).
    rewrite run_bind, (run_iomem_read _ _ _ (run_loadc _ _ _ Hb0)). cbn beta iota.
    rewrite !s8_const by (done || lia). apply not_elem_of_cons in H10 as [H10 _].
    assert (b ≠ 35) by (by intros ->). rewrite (proj2 (Z.eqb_neq b 35)), (proj2 (Z.eqb_neq b 10)) by lia. by exists s1.
  - destruct Hk as (H10 & Hhd & Hlen). destruct (run_mnt_fgets s k _ Hr Hch Hv H10 Hlen) as (s1 & Hrun & Hb & Hr1 & Honly).
    rewrite run_bind, Hrun. cbn beta iota. rewrite (proj2 (Z.eqb_neq _ _)) by (unfold NULL; lia).
    assert (∃ b, memory s1 !! buf = Some b ∧ (b = 35 ∨ b = 10)) as (b & Hb0 & Hcase).
    { destruct k as [|b k]; simpl in Hb; apply bytes_at_cons in Hb as (_ & Hb0 & _); [by exists 10; auto|].
      exists b. split; [done|]. destruct Hhd as [|[= ->]]; [done|by left]. }
    rewrite run_bind, (run_iomem_read _ _ _ (run_loadc _ _ _ Hb0)). cbn beta iota.
    assert ((s8 b =? 35) || (s8 b =? 10) = true) as -> by (by destruct Hcase as [->| ->]).
    rewrite run_ret. destruct (IH n s1 Hr1) as (s2 & Hrun2 & Hb2 & Hr2 & Honly2); [by apply Honly|by apply Honly|simpl in Hn; lia|].
    exists s2. split_and!; [done|done|done|]. by eapply reads_only_trans.
Qed.

(** Getmntent_r skips the blank lines and comments of a buffered stream and takes
    the next line.  With three tokens at least it returns the record, whose members
    point to the tokens in the buffer, the fourth being the options, or the empty
    string without it, and the fifth and sixth the two numbers, or 0; otherwise it
    returns NULL.  The stream goes on after that line, however the kernel splits or
    interrupts the reads. *)
Theorem getmntent_r_entry s skips line t mntbuf sep empty :
  fp ≠ NULL → mntbuf ≠ NULL → 0 < empty < 2 ^ 64 → buf + buflen < 2 ^ 64 →
  Forall (skipped_line buflen) skips → entry_line buflen line → (length skips < fuel)%nat →
  reader inp budget s fp sbuf siz B (table_text skips line t) →
  valid (memory s) ch 1 → valid (memory s) buf buflen → valid (memory s) mntbuf 40 →
  cstr (memory s) sep mnt_seps → memory s !! empty = Some 0 →
  disjoint_ranges buf buflen sep 4 → disjoint_ranges mntbuf 40 buf buflen → disjoint_ranges mntbuf 40 sep 4 →
  disjoint_ranges mntbuf 40 empty 1 → disjoint_ranges buf buflen empty 1 →
  disjoint_ranges sep 4 ch 1 → empty ≠ ch →
  disjoint_ranges sep 4 sbuf (siz + _IO_UNGET_SLOP) → disjoint_ranges empty 1 sbuf (siz + _IO_UNGET_SLOP) →
  disjoint_ranges mntbuf 40 sbuf (siz + _IO_UNGET_SLOP) →
  (∀ i w, (4 ≤ i < 6)%nat → tokens mnt_seps line !! i = Some w → mnt_digits w) →
  ∃ r s', getmntent_r sys fuel true ch sep empty fp mntbuf buf buflen s = Ret r s' ∧
  reader inp budget s' fp sbuf siz B t ∧
  match tokens mnt_seps line with
  | fsname :: dir :: type :: ws =>
      r = mntbuf ∧ entry_at (memory s') mntbuf fsname dir type (default [] (ws !! 0%nat))
        (mnt_value (ws !! 1%nat)) (mnt_value (ws !! 2%nat))
  | _ => r = NULL
  end.
Proof.
  intros Hfp Hq Hemp H64 Hskips Hline Hn Hr Hch Hv Hvq Hsep He Dbs Dqb Dqs Dqe Dbe Dsc Hec Dss Des Dqb' Hnum.
  destruct (run_mnt_line skips line t Hskips Hline fuel s Hr Hch Hv Hn) as (s1 & Hrun & Hb & Hr1 & Honly).
  destruct Hline as (Hlb & _ & _ & _ & Hlen). set (hi := buf + Z.of_nat (length line) + 1).
  assert (hi < buf + buflen) as Hhi by (unfold hi; lia). destruct Honly as (Hm1 & Hvm1 & _).
  assert (ready sep mntbuf buf hi (memory s1) buf buf (tokens mnt_seps line)) as Hready.
  { split; [|..|lia].
    - right. exists (line ++ [10]). rewrite length_app. cbn [length].
      split_and!; [done|lia|unfold hi; lia| |by rewrite tokens_snoc by (unfold mnt_seps; by_decide)].
      split; [by rewrite <-app_assoc|]. apply Forall_app. split; [done|]. by repeat constructor.
    - apply (cstr_ext (memory s)); [done|]. intros a Ha. change (Z.of_nat (length mnt_seps)) with 3 in Ha.
      unfold disjoint_ranges in Dbs, Dsc, Dss. apply Hm1; lia.
    - by apply Hvm1. }
  assert (memory s1 !! empty = Some 0) as He1 by (unfold disjoint_ranges in Dbe, Des; rewrite Hm1 by lia; done).
  assert (∀ r m', mnt_parse sep empty mntbuf buf (memory s1) = Ret r m' → changes buf hi mntbuf 40 (memory s1) m' →
    getmntent_r sys fuel true ch sep empty fp mntbuf buf buflen s = Ret r (set_io_heap (set_amem m' (io_heap s1)) s1) ∧
    reader inp budget (set_io_heap (set_amem m' (io_heap s1)) s1) fp sbuf siz B t) as Hdone.
  { intros r m' Hp [Hc _]. split.
    - unfold getmntent_r. rewrite (proj2 (Z.eqb_neq fp NULL)), (proj2 (Z.eqb_neq mntbuf NULL)), (proj2 (Z.eqb_neq buf NULL)) by (done || unfold NULL; lia).
      cbn [orb]. unfold mnt_line. rewrite run_bind, Hrun. cbn beta iota. rewrite (proj2 (Z.eqb_neq buf NULL)) by (unfold NULL; lia).
      by apply run_iomem.
    - apply reader_ext; [done|]. intros a Ha. unfold disjoint_ranges in Dbuf, Dqb'. apply Hc; lia. }
  assert (disjoint_ranges buf (hi - buf + 1) sep 4) as Dbs' by (unfold disjoint_ranges in Dbs |- *; lia).
  assert (disjoint_ranges mntbuf 40 buf (hi - buf + 1)) as Dqb1 by (unfold disjoint_ranges in Dqb |- *; lia).
  assert (disjoint_ranges buf (hi - buf + 1) empty 1) as Dbe' by (unfold disjoint_ranges in Dbe |- *; lia).
  assert (hi < 2 ^ 64) as Hhi64 by lia.
  destruct (tokens mnt_seps line) as [|w1 [|w2 [|w3 ws]]] eqn:Et.
  4: { destruct (run_mnt_parse sep mntbuf buf hi Dbs' Dqb1 Dqs Hbuf Hhi64 empty Dqe Dbe' Hemp (memory s1) w1 w2 w3 ws Hready He1)
         as (m' & Hp & Hc & Hentry).
       { intros i w Hi Hw. apply (Hnum (3 + i)%nat); [lia|]. done. }
       destruct (Hdone _ _ Hp Hc) as [Hget Hr2]. eexists _, _. split_and!; [exact Hget|done|done|].
       cbn [io_heap set_io_heap]. by rewrite amem_set. }
  all: edestruct (run_mnt_parse_short sep mntbuf buf hi Dbs' Dqb1 Dqs Hbuf Hhi64 empty) as (m' & Hp & Hc);
    [exact Hready|simpl; lia|]; destruct (Hdone _ _ Hp Hc) as [Hget Hr2]; by eexists _, _.
Qed.
End lines.

(** ** Witness *)

(** The table "#c", "/ m t r 7" and "z", read through the buffer of four bytes. *)
Definition mnt_kernel : script_kernel :=
  {| sk_out := ∅; sk_in := {[ 0 := [35; 99; 10; 47; 32; 109; 32; 116; 32; 114; 32; 55; 10; 122] ]};
     sk_script := [1; 0; 3]%nat |}.

Definition mnt_mem : mem :=
  write_bytes (write_bytes (write_bytes (write_bytes (write_bytes demo_mem 3000 [63]) 3010 (replicate 20 63))
    3100 (replicate 40 63)) 3200 (mnt_seps ++ [0])) 3210 [0].

Definition mnt_io : io static_heap script_kernel :=
  {| io_heap := {| heap := 4096; heapcnt := 0; heap_mem := mnt_mem |};
     io_files := {[ 5000 := demo_file _IOFBF 0 0 0 ]}; io_kernel := mnt_kernel;
     io_errno := 0; stdin := 5000; stdout := 0; stderr := 0 |}.

Lemma getmntent_r_entry_witness :
  ∃ s', getmntent_r script_sys 100 true 3000 3200 3210 5000 3100 3010 20 mnt_io = Ret 3100 s' ∧
  entry_at (heap_mem (io_heap s')) 3100 [47] [109] [116] [114] 7 0.
Proof.
  destruct (@getmntent_r_entry static_heap script_kernel _ static_laws script_sys 100 script_out script_inp _ script_ok
    5000 1000 4 3 3000 3010 20) with (s := mnt_io) (skips := [[35; 99]]) (line := [47; 32; 109; 32; 116; 32; 114; 32; 55])
      (t := [122]) (mntbuf := 3100) (sep := 3200) (empty := 3210) as (r & s' & Hrun & _ & -> & Hentry).
  - exact script_reliable.
  - right. unfold _IO_UNGET_SLOP. lia.
  - right. unfold _IO_UNGET_SLOP. lia.
  - right. lia.
  - lia.
  - lia.
  - discriminate.
  - discriminate.
  - lia.
  - lia.
  - constructor; [|constructor]. split; [by_decide|]. split; [right; reflexivity|simpl; lia].
  - split; [by_decide|]. split; [by_decide|]. split; [discriminate|]. split; [discriminate|simpl; lia].
  - simpl. lia.
  - exists (demo_file _IOFBF 0 0 0), []. split; [reflexivity|].
    split; [|split; [reflexivity|split; [reflexivity|split; [reflexivity|simpl; lia]]]].
    split; unfold _IO_UNGET_SLOP; simpl; try lia; by_decide.
  - by_decide.
  - by_decide.
  - by_decide.
  - by_decide.
  - reflexivity.
  - left. lia.
  - right. lia.
  - left. lia.
  - left. lia.
  - left. lia.
  - right. lia.
  - discriminate.
  - right. unfold _IO_UNGET_SLOP. lia.
  - right. unfold _IO_UNGET_SLOP. lia.
  - right. unfold _IO_UNGET_SLOP. lia.
  - intros i w [Hi1 Hi2] Hw. assert (i = 4 ∨ i = 5)%nat as [-> | ->] by lia; [|discriminate Hw].
    injection Hw as <-. split; [discriminate|]. split; [|vm_compute; reflexivity].
    constructor; [|constructor]. split; [vm_compute; split; congruence|lia].
  - exists s'. split; [exact Hrun|exact Hentry].
Defined.
