(* ===== verification/Dirent.v ===== *)
(** * Directories: [readdir.c], [scandir.c], [alphasort.c], [dirent.h]

    A directory stream is a block of the heap that holds a descriptor; [scandir]
    copies the records it reads into blocks and sorts the pointers to them.
    [readdir] is a parameter: the sources leave its body out and take it for a call
    of the kernel.  [opendir_closedir]: the life of a directory stream.
    [scandir_overruns]: the array of [scandir] is too small from the third record
    on. *)

From Stdlib Require Import List.
From stdpp Require Import base tactics numbers list gmap.
From S2P Require Import Prelude Memory Words MemFns StrFns Sort Alloc StaticHeap Env Stdio StdioSpec Exec.

Open Scope Z_scope.

(** ** The code *)

Definition O_DIRECTORY : Z := 65536.
Definition O_RDONLY : Z := 0.

(** [struct dirent] and [struct _IO_dir] *)
Definition D_NAME : Z := 19.
Definition SIZEOF_DIRENT : Z := 280.
Definition DIR_FD : Z := 0.
Definition SIZEOF_DIR : Z := 24 + BUFSIZ / SIZEOF_DIRENT * SIZEOF_DIRENT.

(** The arguments point to the pointers to the records. *)
Definition alphasort (a b : Z) : C mem Z :=
  p ← load64 a;
  q ← load64 b;
  strcmp (p + D_NAME) (q + D_NAME).

Section dirent.
Context {S K : Type} `{Allocator S}.
Context (sys : syscalls K) (fuel : nat).
Context (realloc : Z → Z → C S Z).
(** The next record of a directory stream, or NULL. *)
Context (readdir : Z → C (io S K) Z).

Definition fdopendir (fd : Z) : C (io S K) Z :=
  dp ← in_heap (zalloc SIZEOF_DIR);
  if dp =? NULL then mret NULL else
  iomem (store_le 4 (dp + DIR_FD) fd);;
  mret dp.

Definition opendir (name : Z) : C (io S K) Z :=
  n ← iomem (strlen name);
  l ← iomem (load_bytes (Z.to_nat n) name);
  s ← get;
  let '(fd, e, k) := sys_open sys l (Z.lor O_DIRECTORY O_RDONLY) (io_kernel s) in
  modify (set_call fd e k);;
  if fd <? 0 then mret NULL else
  dp ← fdopendir fd;
  (if dp =? NULL then
     s ← get;
     close sys fd;;
     modify (set_io_errno (io_errno s))
   else mret tt);;
  mret dp.

Definition dirfd (dir : Z) : C (io S K) Z :=
  v ← iomem (load_le 4 (dir + DIR_FD)); mret (s32 v).

Definition closedir (dir : Z) : C (io S K) Z :=
  fd ← dirfd dir;
  rv ← close sys fd;
  in_heap (a_free dir);;
  mret rv.

(** The array made longer when it is full: the array and its new size, or nothing. *)
Definition extend (nl count allocated : Z) : C (io S K) (option (Z * Z)) :=
  if count =? allocated then
    let allocated := if allocated =? 0 then 15 else u64 (allocated * 2) in
    next_nl ← in_heap (realloc nl allocated);
    mret (if next_nl =? NULL then None else Some (next_nl, allocated))
  else mret (Some (nl, allocated)).

(** The records that pass the filter: the array, their number and whether the
    memory sufficed. *)
Definition collect (filter : option (Z → C (io S K) Z)) (dir : Z) : C (io S K) (Z * Z * bool) :=
  loop fuel (λ '(nl, count, allocated),
    dirent ← readdir dir;
    if dirent =? NULL then Break (nl, count, true) else
    keep ← (match filter with None => mret 1 | Some filter => filter dirent end);
    if keep =? 0 then Next (nl, count, allocated) else
    copy ← in_heap (a_malloc SIZEOF_DIRENT);
    if copy =? NULL then Break (nl, count, false) else
    iomem (memcpy copy dirent SIZEOF_DIRENT);;
    r ← extend nl count allocated;
    match r with
    | None => in_heap (a_free copy);; Break (nl, count, false)
    | Some (nl, allocated) =>
        iomem (store64 (nl + 8 * count) copy);;
        Next (nl, count + 1, allocated)
    end) (NULL, 0, 0).

(** [cleanup_fail]: the copies and the array are given back. *)
Definition free_copies (nl count : Z) : C (io S K) unit :=
  loop (Datatypes.S (Z.to_nat count)) (λ count,
    if count =? 0 then Break tt else
    d ← iomem (load64 (nl + 8 * (count - 1)));
    in_heap (a_free d);;
    Next (count - 1)) count;;
  in_heap (a_free nl).

Definition scandir (dirp namelist : Z) (filter : option (Z → C (io S K) Z)) (compar : Z → Z → C mem Z) :
  C (io S K) Z :=
  dir ← opendir dirp;
  if dir =? NULL then mret (-1) else
  '(nl, count, ok) ← collect filter dir;
  if ok : bool then
    iomem (qsort compar nl count 8);;
    closedir dir;;
    iomem (store64 namelist nl);;
    mret (s32 count)
  else
    free_copies nl count;;
    closedir dir;;
    modify (set_io_errno ENOMEM);;
    mret (-1).
End dirent.

(** ** The life of a directory stream *)

Section proofs.
Context {S K : Type} `{AllocatorLaws S}.
Context (sys : syscalls K).
Implicit Types (s : io S K) (g : ghost) (live : list block).

(** The heap of [s] after a call. *)
Lemma run_heap {A} (c : C S A) s a h : c (io_heap s) = Ret a h → in_heap c s = Ret a (set_io_heap h s).
Proof. intros E. unfold in_heap, zoom. by rewrite E. Qed.

Lemma run_fdopendir s g live fd :
  heap_inv (io_heap s) g live → SIZEOF_DIR ≤ max_request →
  ∃ p h, fdopendir fd s = Ret p (set_io_heap h s) ∧
  (p = NULL ∧ (∃ g', heap_inv h g' live) ∨
   p ≠ NULL ∧ (∃ g', heap_inv h g' ((p, SIZEOF_DIR) :: live)) ∧
   bytes_at (amem h) p (le_bytes 4 fd ++ replicate (Z.to_nat (SIZEOF_DIR - 4)) 0)).
Proof.
  intros Hs Hmax. unfold fdopendir.
  destruct (run_zalloc_fresh (io_heap s) g live SIZEOF_DIR Hs) as (p & h & Hrun & Hcase); [by split; [vm_compute|]|].
  rewrite run_bind, (run_heap _ _ _ _ Hrun). cbn beta iota.
  destruct Hcase as [[-> Hf]|(g' & (Hne & Hinv & Hv & Hu & _) & Hz)].
  - exists NULL, h. split; [done|]. left. split; [done|]. destruct (Hf []) as (g' & [[_ Hi]|[? _]] & _); [by exists g'|done].
  - rewrite (proj2 (Z.eqb_neq _ _)) by done. unfold DIR_FD. rewrite Z.add_0_r.
    assert (valid (amem h) p 4) as Hv4 by (eapply valid_le, Hv; by vm_compute).
    rewrite run_bind, (run_iomem _ _ tt (write_bytes (amem h) p (le_bytes 4 fd))) by (by apply run_store_le).
    cbn beta iota. exists p, (set_amem (write_bytes (amem h) p (le_bytes 4 fd)) h). split; [done|]. right. split; [done|]. split.
    + exists g'. apply heap_inv_write; [done| |by rewrite le_bytes_length].
      eapply in_use_sub; [exact Hu|lia|]. rewrite le_bytes_length. by apply Z.add_le_mono_l; vm_compute.
    + rewrite amem_set. apply bytes_at_app. split; [apply write_bytes_at, le_bytes_is_byte|].
      rewrite le_bytes_length. apply write_bytes_frame.
      * replace (Z.to_nat SIZEOF_DIR) with (4 + Z.to_nat (SIZEOF_DIR - 4))%nat in Hz by reflexivity.
        rewrite replicate_add in Hz. by apply bytes_at_app in Hz as [_ Hz].
      * left. rewrite le_bytes_length. lia.
Qed.

(** Opendir of a name the kernel opens returns a fresh block with the descriptor
    and a zeroed rest, and closedir of it closes that descriptor and gives the block
    back, with the result of the kernel; when there is no memory opendir closes the
    descriptor again, keeps the error number and returns NULL; when the kernel does
    not open the name it returns NULL with the error of the kernel.  In no case is a
    descriptor or a block left behind. *)
Theorem opendir_closedir s g live name nm fd e k rv e' k' :
  heap_inv (io_heap s) g live → SIZEOF_DIR ≤ max_request → cstr (amem (io_heap s)) name nm →
  sys_open sys nm O_DIRECTORY (io_kernel s) = (fd, e, k) → fd < 2 ^ 31 →
  sys_close sys fd k = (rv, e', k') →
  (fd < 0 ∧ opendir sys name s = Ret NULL (set_call fd e k s)) ∨
  0 ≤ fd ∧ ∃ p s', opendir sys name s = Ret p s' ∧ io_errno s' = io_errno s ∧
  (p = NULL ∧ (∃ g', heap_inv (io_heap s') g' live) ∧ io_kernel s' = k' ∨
   p ≠ NULL ∧ (∃ g', heap_inv (io_heap s') g' ((p, SIZEOF_DIR) :: live)) ∧ io_kernel s' = k ∧
   dirfd p s' = Ret fd s' ∧
   ∃ s'', closedir sys p s' = Ret rv s'' ∧ io_kernel s'' = k' ∧ ∃ g'', heap_inv (io_heap s'') g'' live).
Proof.
  intros Hs Hmax Hnm Ho Hfd Hc.
  unfold opendir. rewrite run_bind, (run_iomem_read _ _ _ (run_strlen _ _ _ Hnm)). cbn beta iota.
  rewrite Nat2Z.id, run_bind, (run_iomem_read _ _ _ (run_load_bytes _ _ _ (cstr_bytes _ _ _ Hnm))). cbn beta iota.
  rewrite run_bind, run_get. cbn beta iota. change (Z.lor O_DIRECTORY O_RDONLY) with O_DIRECTORY. rewrite Ho.
  rewrite run_bind, run_modify. cbn beta iota. destruct (Z.ltb_spec fd 0) as [Hneg|Hpos]; [by left|right].
  split; [done|]. set (s1 := set_call fd e k s).
  destruct (run_fdopendir s1 g live fd Hs Hmax) as (p & h & Hrun & Hcase).
  rewrite run_bind, Hrun. cbn beta iota. set (s2 := set_io_heap h s1).
  assert (io_errno s2 = io_errno s) as Herr by (simpl; by rewrite (proj2 (Z.eqb_neq fd (-1))) by lia).
  assert (∀ s0, io_kernel s0 = k → close sys fd s0 = Ret rv (set_call rv e' k' s0)) as Hclose.
  { intros s0 E. unfold close. rewrite run_bind, run_get. cbn beta iota. by rewrite E, Hc. }
  destruct Hcase as [[-> [g' Hinv]]|(Hne & [g' Hinv] & Hb)].
  - exists NULL, (set_io_errno (io_errno s2) (set_call rv e' k' s2)). split_and!; [|done|left; by eauto].
    rewrite run_bind. change (NULL =? NULL) with true. cbn iota. rewrite run_bind, run_get. cbn beta iota.
    by rewrite run_bind, Hclose.
  - rewrite (proj2 (Z.eqb_neq _ _)) by done. exists p, s2. split_and!; [done|done|]. right.
    assert (dirfd p s2 = Ret fd s2) as Hdir.
    { unfold dirfd, DIR_FD. rewrite Z.add_0_r. apply bytes_at_app in Hb as [Hb _].
      rewrite run_bind, (run_iomem_read _ _ (le_value (le_bytes 4 fd))); [|exact (run_load_le _ _ _ Hb)].
      cbn beta iota. rewrite run_ret, le_value_bytes. change (256 ^ Z.of_nat 4) with (2 ^ 32).
      rewrite Z.mod_small, sext_small by lia. done. }
    split_and!; [done|by exists g'|done|done|].
    destruct (free_ok h g' live p SIZEOF_DIR Hinv) as (h' & g'' & Hfree & Hinv' & _).
    eexists. split_and!.
    + unfold closedir. rewrite run_bind, Hdir. cbn beta iota. rewrite run_bind, Hclose by done. cbn beta iota.
      rewrite run_bind, (run_heap _ _ tt h') by exact Hfree. reflexivity.
    + done.
    + by exists g''.
Qed.
End proofs.

(** ** Witness *)

(** A kernel that counts the open descriptors. *)
Definition dir_sys : syscalls Z :=
  {| sys_write := λ fd l k, (-1, 0, k); sys_read := λ fd n k, (-1, 0, [], k); sys_lseek := λ fd off wh k, (-1, 0, k);
     sys_open := λ l flags k, (3, 0, k + 1); sys_close := λ fd k, (0, 0, k - 1) |}.

Definition dir_io : io static_heap Z :=
  {| io_heap := env_heap; io_files := ∅; io_kernel := 0; io_errno := 7; stdin := 0; stdout := 0; stderr := 0 |}.

Lemma opendir_closedir_witness :
  ∃ p s', opendir dir_sys 300 dir_io = Ret p s' ∧
  (p = NULL ∧ io_kernel s' = 0 ∨
   p ≠ NULL ∧ io_kernel s' = 1 ∧ ∃ s'', closedir dir_sys p s' = Ret 0 s'' ∧ io_kernel s'' = 0).
Proof.
  destruct env_mem_strings as (_ & _ & H3 & _).
  destruct (@opendir_closedir static_heap Z _ static_laws dir_sys dir_io (4096, 32) [(4096, 20)] 300 [66] 3 0 1 0 0 0)
    as [[H _]|(_ & p & s' & Hrun & _ & Hcase)].
  - exact (ea_heap _ _ _ _ _ sample_env_at).
  - by vm_compute.
  - exact H3.
  - reflexivity.
  - lia.
  - reflexivity.
  - exfalso. lia.
  - exists p, s'. split; [exact Hrun|]. destruct Hcase as [(Hp & _ & Hk)|(Hp & _ & Hk & _ & s'' & Hcl & Hk' & _)];
      [left; exact (conj Hp Hk)|right; split; [exact Hp|split; [exact Hk|exists s''; exact (conj Hcl Hk')]]].
Defined.

(** ** The array of [scandir] *)

(** A directory of three records, the kernel giving their addresses in turn. *)
Definition next_record (_ : Z) : C (io static_heap (list Z)) Z :=
  s ← get;
  match io_kernel s with
  | [] => mret NULL
  | r :: rs => modify (set_call 0 0 rs);; mret r
  end.

Definition record_bytes (ino c : Z) : list Z := le_bytes 8 ino ++ replicate 11 0 ++ [c] ++ replicate 260 0.

Definition scan_io : io static_heap (list Z) :=
  {| io_heap := {| heap := 4096; heapcnt := 0; heap_mem :=
       write_bytes (write_bytes (write_bytes ∅ 100 [46; 0; 0; 0; 0; 0; 0; 0; 0; 0]) 1000
         (record_bytes 1 97 ++ record_bytes 2 98 ++ record_bytes 3 99)) 4096 (replicate (Z.to_nat 17600) 0) |};
     io_files := ∅; io_kernel := [1000; 1280; 1560]; io_errno := 0; stdin := 0; stdout := 0; stderr := 0 |}.

Definition list_sys : syscalls (list Z) :=
  {| sys_write := λ fd l k, (-1, 0, k); sys_read := λ fd n k, (-1, 0, [], k); sys_lseek := λ fd off wh k, (-1, 0, k);
     sys_open := λ l flags k, (3, 0, k); sys_close := λ fd k, (0, 0, k) |}.

(** The number of records and the second record's [d_ino] as scandir leaves it. *)
Definition scan_result : option (Z * option Z) :=
  match scandir list_sys 10 realloc next_record 100 102 None alphasort scan_io with
  | Ret n s =>
      let m := heap_mem (io_heap s) in
      nl ← word m 102; d ← word m (nl + 8); Some (n, word m d)
  | _ => None
  end.

(** [realloc] is given the number of elements where it wants bytes: the array of 15
    bytes holds one pointer, and the third one is stored over the inode of the second
    record, which was 2. *)
Lemma scandir_overruns : scan_result = Some (3, Some 20960).
Proof. by vm_compute. Qed.
