(* ===== verification/Signals.v ===== *)
(** * Signals and time: [signal.h], [__signal.c], [bsd_signal.c], [sysv_signal.c],
    [raise.c], [abort.c], [system.c], [sleep.c], [usleep.c]

    The functions are sequences of calls of the kernel.  The kernel is a parameter,
    the record [sigcalls], with its documented effect on the signal actions and the
    signal mask of the process as the laws [sigcalls_ok].

    [sigset_sets]: the words of [sigset_t] are sets of signals.  [system_restores]:
    system leaves actions and mask as they were when it could fork, and as it set
    them when it could not.  [usleep_sleeps]: usleep sleeps for the time asked for,
    whatever signals interrupt it. *)

From Stdlib Require Import List.
From stdpp Require Import base tactics numbers list gmap sets.
From S2P Require Import Prelude Memory.

Open Scope Z_scope.

(** ** Sets of signals: one word of 64 bits *)

Definition LONG_BIT : Z := 64.

Definition sigemptyset : Z := 0.
Definition sigfillset : Z := u64 (Z.lnot 0).

(** The word of the array that [__signum / LONG_BIT] selects is the only one for the
    signals 1 to 64. *)
Definition sigaddset (set signum : Z) : Z := Z.lor set (u64 (Z.shiftl 1 ((signum - 1) mod LONG_BIT))).
Definition sigdelset (set signum : Z) : Z := Z.land set (u64 (Z.lnot (u64 (Z.shiftl 1 ((signum - 1) mod LONG_BIT))))).
Definition sigismember (set signum : Z) : Z := Z.land (Z.shiftr set ((signum - 1) mod LONG_BIT)) 1.

(** ** Actions and calls *)

Definition SIGINT : Z := 2.
Definition SIGQUIT : Z := 3.
Definition SIGABRT : Z := 6.
Definition SIGCHLD : Z := 17.
Definition SIG_IGN : Z := 1.
Definition SIG_ERR : Z := -1.
Definition SIG_BLOCK : Z := 0.
Definition SIG_UNBLOCK : Z := 1.
Definition SIG_SETMASK : Z := 2.
Definition SA_RESTART : Z := 268435456.
Definition SA_RESETHAND : Z := 2147483648.

Record sigact := { sa_handler : Z; sa_flags : Z; sa_mask : Z }.

(** What the kernel does for each call: the result, the values it stores, its state. *)
Record sigcalls (K : Type) := {
  k_sigaction : Z → sigact → K → Z * sigact * K;
  k_sigprocmask : Z → Z → K → Z * Z * K;
  k_getpid : K → Z;
  k_kill : Z → Z → K → Z * K;
  k_fork : K → Z * K;
  k_waitpid : Z → K → Z * Z * K;
  k_execve : list (list Z) → Z → K → bool * K;
}.
Arguments k_sigaction {K}.
Arguments k_sigprocmask {K}.
Arguments k_getpid {K}.
Arguments k_kill {K}.
Arguments k_fork {K}.
Arguments k_waitpid {K}.
Arguments k_execve {K}.

(** How [system] ends: in the parent with a status, in the child that became the
    shell, or in the child that could not. *)
Inductive system_result :=
  | Parent (rv : Z)
  | Shell (argv : list (list Z))
  | Exited (status : Z).

(** ["/bin/sh"] and ["-c"] *)
Definition bin_sh : list Z := [47; 98; 105; 110; 47; 115; 104].
Definition dash_c : list Z := [45; 99].

Section calls.
Context {K : Type} (sys : sigcalls K).

Definition sigaction (sig : Z) (act : sigact) : C K (Z * sigact) :=
  k ← get;
  let '(rv, old, k) := k_sigaction sys sig act k in
  put k;; mret (rv, old).

Definition sigprocmask (how set : Z) : C K (Z * Z) :=
  k ← get;
  let '(rv, old, k) := k_sigprocmask sys how set k in
  put k;; mret (rv, old).

Definition __signal (signum handler flags : Z) : C K Z :=
  let sa := {| sa_handler := handler; sa_flags := flags; sa_mask := sigemptyset |} in
  '(rv, sa) ← sigaction signum sa;
  mret (if negb (rv =? 0) then SIG_ERR else sa_handler sa).

Definition sysv_signal (signum handler : Z) : C K Z := __signal signum handler SA_RESETHAND.
Definition bsd_signal (signum handler : Z) : C K Z := __signal signum handler SA_RESTART.

Definition raise (signal : Z) : C K Z :=
  k ← get;
  let '(rv, k) := k_kill sys (k_getpid sys k) signal k in
  put k;; mret rv.

(** The status the process exits with if the signal did not end it. *)
Definition abort : C K Z :=
  let set := sigaddset sigemptyset SIGABRT in
  _ ← sigprocmask SIG_UNBLOCK set;
  _ ← raise SIGABRT;
  mret 255.

(** [status] is the uninitialised variable of the function. *)
Definition system (environ status : Z) (string : list Z) : C K system_result :=
  let ignore := {| sa_handler := SIG_IGN; sa_flags := 0; sa_mask := sigemptyset |} in
  '(_, old_int) ← sigaction SIGINT ignore;
  '(_, old_quit) ← sigaction SIGQUIT ignore;
  let masked := sigaddset sigemptyset SIGCHLD in
  '(_, oldmask) ← sigprocmask SIG_BLOCK masked;
  k ← get;
  let '(pid, k) := k_fork sys k in
  put k;;
  if pid <? 0 then mret (Parent (-1))
  else if pid =? 0 then
    _ ← sigaction SIGINT old_int;
    _ ← sigaction SIGQUIT old_quit;
    _ ← sigprocmask SIG_SETMASK oldmask;
    let argv := [bin_sh; dash_c; string] in
    k ← get;
    let '(ok, k) := k_execve sys argv environ k in
    put k;;
    mret (if ok : bool then Shell argv else Exited 127)
  else
    k ← get;
    let '(rv, st, k) := k_waitpid sys pid k in
    put k;;
    let status := if rv <? 0 then status else st in
    _ ← sigaction SIGINT old_int;
    _ ← sigaction SIGQUIT old_quit;
    _ ← sigprocmask SIG_SETMASK oldmask;
    mret (Parent status).
End calls.

(** *** Sleeping *)

(** [EINTR] is an interruption. *)
Definition SLEEP_EINTR : Z := 4.

Section sleep.
Context {K : Type}.
(** [nanosleep] of a time: the result, the error number, the time left, the kernel. *)
Context (nanosleep : Z * Z → K → Z * Z * (Z * Z) * K).
Context (fuel : nat).

Definition sleep (seconds : Z) : C K Z :=
  k ← get;
  let '(rv, errno, rem, k) := nanosleep (seconds, 0) k in
  put k;;
  mret (if rv =? 0 then 0 else if errno =? SLEEP_EINTR then u32 (fst rem) else u32 (-1)).

Definition usleep (usec : Z) : C K unit :=
  let ts := (usec / 1000000, (usec mod 1000000) * 1000) in
  loop fuel (λ ts,
    k ← get;
    let '(rv, errno, rem, k) := nanosleep ts k in
    put k;;
    if (rv =? -1) && (errno =? SLEEP_EINTR) then Next rem else Break tt) ts.
End sleep.

(** ** Sets *)

(** The signals of a word. *)
Definition signals (set : Z) : gset Z := list_to_set (filter (λ n, Z.testbit set (n - 1) = true) (seqZ 1 64)).

Lemma elem_signals set n : n ∈ signals set ↔ 1 ≤ n ≤ 64 ∧ Z.testbit set (n - 1) = true.
Proof.
  unfold signals. rewrite elem_of_list_to_set, list_elem_of_filter, elem_of_seqZ. intuition lia.
Qed.

Lemma testbit_u64 x i : 0 ≤ i < 64 → Z.testbit (u64 x) i = Z.testbit x i.
Proof. intros Hi. unfold wrap. by rewrite Z.mod_pow2_bits_low by lia. Qed.

Lemma signal_bit n i : 1 ≤ n ≤ 64 → 0 ≤ i < 64 →
  Z.testbit (u64 (Z.shiftl 1 ((n - 1) mod LONG_BIT))) i = bool_decide (i = n - 1).
Proof.
  intros Hn Hi. rewrite testbit_u64 by lia. unfold LONG_BIT. rewrite Z.mod_small by lia.
  rewrite Z.shiftl_1_l, Z.pow2_bits_eqb by lia. apply eq_bool_prop_intro.
  rewrite !Is_true_true, Z.eqb_eq, bool_decide_eq_true. lia.
Qed.

(** The words of sigset_t are sets of the signals 1 to 64: sigemptyset is the empty
    set, sigfillset all of them, sigaddset and sigdelset add and remove exactly one
    signal, sigismember is membership. *)
Theorem sigset_sets set n :
  1 ≤ n ≤ 64 →
  signals sigemptyset = ∅ ∧ signals sigfillset = list_to_set (seqZ 1 64) ∧
  signals (sigaddset set n) = {[ n ]} ∪ signals set ∧ signals (sigdelset set n) = signals set ∖ {[ n ]} ∧
  sigismember set n = cbool (bool_decide (n ∈ signals set)).
Proof.
  intros Hn. split_and!; [by vm_compute|by vm_compute|..].
  - apply set_eq. intros a. rewrite elem_of_union, elem_of_singleton, !elem_signals. unfold sigaddset.
    destruct (decide (1 ≤ a ≤ 64)) as [Ha|Ha]; [|lia].
    rewrite Z.lor_spec, signal_bit, orb_true_iff, bool_decide_eq_true by lia.
    split; [intros [_ [?|?]]; [by right|left; lia]|]. intros [->|[_ ?]]; split; try lia; by auto.
  - apply set_eq. intros a. rewrite elem_of_difference, elem_of_singleton, !elem_signals. unfold sigdelset.
    destruct (decide (1 ≤ a ≤ 64)) as [Ha|Ha]; [|lia].
    rewrite Z.land_spec, testbit_u64, Z.lnot_spec, signal_bit, andb_true_iff, negb_true_iff, bool_decide_eq_false by lia.
    split; intros [? ?]; split_and!; try tauto; lia.
  - unfold sigismember, LONG_BIT. rewrite Z.mod_small by lia. change 1 with (Z.ones 1) at 2.
    rewrite Z.land_ones, Z.shiftr_div_pow2 by lia. rewrite (bool_decide_ext _ (Z.testbit set (n - 1) = true)).
    + rewrite <-Z.testbit_spec' by lia. by destruct (Z.testbit set (n - 1)).
    + rewrite elem_signals. split; [by intros [_ ?]|]. by split.
Qed.

Lemma sigset_sets_witness : signals (sigaddset sigemptyset SIGCHLD) = {[ 17 ]}.
Proof.
  destruct (sigset_sets sigemptyset SIGCHLD) as (H0 & _ & H1 & _); [unfold SIGCHLD; lia|].
  rewrite H1, H0. by rewrite union_empty_r_L.
Defined.

(** ** The shell *)

(** The bits of SIGKILL and SIGSTOP, which no mask has. *)
Definition unmaskable : Z := Z.lor (Z.shiftl 1 8) (Z.shiftl 1 18).

(** The effect of the calls on the actions and the mask of the process. *)
Record sigcalls_ok {K} (sys : sigcalls K) (disp : Z → K → sigact) (mask : K → Z) : Prop := {
  ok_mask k : Z.ldiff (mask k) unmaskable = mask k;
  ok_sigaction sig act k rv old k' :
    k_sigaction sys sig act k = (rv, old, k') → sig = SIGINT ∨ sig = SIGQUIT →
    rv = 0 ∧ old = disp sig k ∧ disp sig k' = act ∧ (∀ s, s ≠ sig → disp s k' = disp s k) ∧ mask k' = mask k;
  ok_sigprocmask how set k rv old k' :
    k_sigprocmask sys how set k = (rv, old, k') →
    old = mask k ∧ (∀ s, disp s k' = disp s k) ∧
    (how = SIG_BLOCK → mask k' = Z.ldiff (Z.lor (mask k) set) unmaskable) ∧
    (how = SIG_SETMASK → mask k' = Z.ldiff set unmaskable);
  ok_fork k pid k' : k_fork sys k = (pid, k') → (∀ s, disp s k' = disp s k) ∧ mask k' = mask k;
  ok_waitpid pid k rv st k' : k_waitpid sys pid k = (rv, st, k') → (∀ s, disp s k' = disp s k) ∧ mask k' = mask k;
  ok_execve argv env k ok k' : k_execve sys argv env k = (ok, k') → (∀ s, disp s k' = disp s k) ∧ mask k' = mask k;
}.

Section system.
Context {K : Type} (sys : sigcalls K) (disp : Z → K → sigact) (mask : K → Z).
Context (Hok : sigcalls_ok sys disp mask).

Definition ignoring : sigact := {| sa_handler := SIG_IGN; sa_flags := 0; sa_mask := sigemptyset |}.

(** The signal state of [k']: as in [k] but for the two actions and the mask. *)
Definition sigstate (k k' : K) (int quit : sigact) (msk : Z) : Prop :=
  disp SIGINT k' = int ∧ disp SIGQUIT k' = quit ∧
  (∀ s, s ≠ SIGINT → s ≠ SIGQUIT → disp s k' = disp s k) ∧ mask k' = msk.

Lemma run_sigaction_int k k0 act int quit msk :
  sigstate k k0 int quit msk →
  ∃ k1, sigaction sys SIGINT act k0 = Ret (0, int) k1 ∧ sigstate k k1 act quit msk.
Proof.
  intros (Hi & Hq & Ho & Hm). unfold sigaction. rewrite run_bind, run_get. cbn beta iota.
  destruct (k_sigaction sys SIGINT act k0) as [[rv old] k1] eqn:E.
  destruct (ok_sigaction _ _ _ Hok _ _ _ _ _ _ E (or_introl eq_refl)) as (-> & -> & Hd & Hs & Hmk).
  exists k1. rewrite Hi. split; [done|]. split_and!; [done|by rewrite Hs|intros s Hs1 Hs2; rewrite Hs by done; by apply Ho|by rewrite Hmk].
Qed.

Lemma run_sigaction_quit k k0 act int quit msk :
  sigstate k k0 int quit msk →
  ∃ k1, sigaction sys SIGQUIT act k0 = Ret (0, quit) k1 ∧ sigstate k k1 int act msk.
Proof.
  intros (Hi & Hq & Ho & Hm). unfold sigaction. rewrite run_bind, run_get. cbn beta iota.
  destruct (k_sigaction sys SIGQUIT act k0) as [[rv old] k1] eqn:E.
  destruct (ok_sigaction _ _ _ Hok _ _ _ _ _ _ E (or_intror eq_refl)) as (-> & -> & Hd & Hs & Hmk).
  exists k1. rewrite Hq. split; [done|]. split_and!; [by rewrite Hs|done|intros s Hs1 Hs2; rewrite Hs by done; by apply Ho|by rewrite Hmk].
Qed.

Lemma run_sigprocmask k k0 how set int quit msk :
  sigstate k k0 int quit msk →
  ∃ rv k1, sigprocmask sys how set k0 = Ret (rv, msk) k1 ∧
  (how = SIG_BLOCK → sigstate k k1 int quit (Z.ldiff (Z.lor msk set) unmaskable)) ∧
  (how = SIG_SETMASK → sigstate k k1 int quit (Z.ldiff set unmaskable)).
Proof.
  intros (Hi & Hq & Ho & Hm). unfold sigprocmask. rewrite run_bind, run_get. cbn beta iota.
  destruct (k_sigprocmask sys how set k0) as [[rv old] k1] eqn:E.
  destruct (ok_sigprocmask _ _ _ Hok _ _ _ _ _ _ E) as (-> & Hd & Hb & Hs). exists rv, k1. rewrite Hm in *.
  split; [done|]. split; intros Hhow; split_and!; try (by rewrite Hd); try (intros s ? ?; rewrite Hd; by apply Ho); by auto.
Qed.

(** Restoring what was saved. *)
Lemma run_restore k k0 int quit msk :
  sigstate k k0 int quit msk →
  ∃ k1, (∀ A (f : C K A), (_ ← sigaction sys SIGINT (disp SIGINT k);
         _ ← sigaction sys SIGQUIT (disp SIGQUIT k);
         _ ← sigprocmask sys SIG_SETMASK (mask k);
         f) k0 = f k1) ∧ (∀ s, disp s k1 = disp s k) ∧ mask k1 = mask k.
Proof.
  intros H0. destruct (run_sigaction_int k k0 (disp SIGINT k) _ _ _ H0) as (k1 & Hr1 & H1).
  destruct (run_sigaction_quit k k1 (disp SIGQUIT k) _ _ _ H1) as (k2 & Hr2 & H2).
  destruct (run_sigprocmask k k2 SIG_SETMASK (mask k) _ _ _ H2) as (rv & k3 & Hr3 & _ & H3).
  specialize (H3 eq_refl). rewrite (ok_mask _ _ _ Hok) in H3. destruct H3 as (Hi & Hq & Ho & Hm). exists k3. split_and!; [| |done].
  - intros A f. rewrite run_bind, Hr1. cbn beta iota. rewrite run_bind, Hr2. cbn beta iota. by rewrite run_bind, Hr3.
  - intros s. destruct (decide (s = SIGINT)) as [->|]; [done|]. destruct (decide (s = SIGQUIT)) as [->|]; [done|]. by apply Ho.
Qed.

Lemma sigstate_same k k0 k1 int quit msk :
  sigstate k k0 int quit msk → (∀ s, disp s k1 = disp s k0) ∧ mask k1 = mask k0 → sigstate k k1 int quit msk.
Proof. intros (Hi & Hq & Ho & Hm) [Hd Hmk]. split_and!; [by rewrite Hd|by rewrite Hd|intros s ? ?; rewrite Hd; by apply Ho|by rewrite Hmk]. Qed.

Lemma chld_masked set : SIGCHLD ∈ signals (Z.ldiff (Z.lor set (sigaddset sigemptyset SIGCHLD)) unmaskable).
Proof.
  rewrite elem_signals. split; [unfold SIGCHLD; lia|]. rewrite Z.ldiff_spec, Z.lor_spec.
  change (Z.testbit (sigaddset sigemptyset SIGCHLD) (SIGCHLD - 1)) with true.
  change (Z.testbit unmaskable (SIGCHLD - 1)) with false. by rewrite orb_true_r.
Qed.

(** C36: system ignores SIGINT and SIGQUIT and blocks SIGCHLD while it waits.  If it
    can fork, both processes have the actions and the mask of the caller again, the
    child before it runs the shell on the string, the parent when it returns the
    status of the child.  If it cannot fork it returns -1 and leaves SIGINT and
    SIGQUIT ignored and SIGCHLD blocked. *)
Theorem system_restores environ status string k :
  ∃ k3, sigstate k k3 ignoring ignoring (Z.ldiff (Z.lor (mask k) (sigaddset sigemptyset SIGCHLD)) unmaskable) ∧
  ∃ r k', system sys environ status string k = Ret r k' ∧
  let '(pid, k4) := k_fork sys k3 in
  if pid <? 0 then
    r = Parent (-1) ∧ disp SIGINT k' = ignoring ∧ disp SIGQUIT k' = ignoring ∧ SIGCHLD ∈ signals (mask k')
  else
    (∀ s, disp s k' = disp s k) ∧ mask k' = mask k ∧
    if pid =? 0 then r = Shell [bin_sh; dash_c; string] ∨ r = Exited 127
    else let '(rv, st, _) := k_waitpid sys pid k4 in r = Parent (if rv <? 0 then status else st).
Proof.
  assert (sigstate k k (disp SIGINT k) (disp SIGQUIT k) (mask k)) as H0 by done.
  destruct (run_sigaction_int k k ignoring _ _ _ H0) as (k1 & Hr1 & H1).
  destruct (run_sigaction_quit k k1 ignoring _ _ _ H1) as (k2 & Hr2 & H2).
  destruct (run_sigprocmask k k2 SIG_BLOCK (sigaddset sigemptyset SIGCHLD) _ _ _ H2) as (rv3 & k3 & Hr3 & H3 & _).
  specialize (H3 eq_refl). exists k3. split; [done|]. unfold system. fold ignoring.
  rewrite run_bind, Hr1. cbn beta iota. rewrite run_bind, Hr2. cbn beta iota zeta. rewrite run_bind, Hr3. cbn beta iota.
  rewrite run_bind, run_get. cbn beta iota. destruct (k_fork sys k3) as [pid k4] eqn:Ef.
  pose proof (sigstate_same _ _ _ _ _ _ H3 (ok_fork _ _ _ Hok _ _ _ Ef)) as H4. rewrite run_bind. cbn [put].
  destruct (pid <? 0).
  { exists (Parent (-1)), k4. destruct H4 as (Hi & Hq & _ & Hm). split_and!; [done..|]. rewrite Hm. apply chld_masked. }
  destruct (pid =? 0).
  - destruct (run_restore _ _ _ _ _ H4) as (k5 & Hr5 & Hd5 & Hm5). rewrite Hr5, run_bind, run_get. cbn beta iota.
    destruct (k_execve sys [bin_sh; dash_c; string] environ k5) as [ok k6] eqn:Ee.
    destruct (ok_execve _ _ _ Hok _ _ _ _ _ Ee) as [Hd6 Hm6]. eexists _, k6. split; [reflexivity|].
    split_and!; [intros s; by rewrite Hd6|by rewrite Hm6|]. destruct ok; auto.
  - rewrite run_bind, run_get. cbn beta iota. destruct (k_waitpid sys pid k4) as [[rv st] k5] eqn:Ew.
    pose proof (sigstate_same _ _ _ _ _ _ H4 (ok_waitpid _ _ _ Hok _ _ _ _ _ Ew)) as H5.
    destruct (run_restore _ _ _ _ _ H5) as (k6 & Hr6 & Hd6 & Hm6). rewrite run_bind. cbn [put]. rewrite Hr6.
    by eexists _, k6.
Qed.
End system.

(** ** Time *)

(** The nanoseconds of a time. *)
Definition nanos (ts : Z * Z) : Z := fst ts * 1000000000 + snd ts.

(** The process has slept for [slept], and will be interrupted at most [budget] times
    more. *)
Record nanosleep_ok {K} (nanosleep : Z * Z → K → Z * Z * (Z * Z) * K) (slept : K → Z) (budget : K → nat) : Prop := {
  ok_nanosleep ts k rv e rem k' :
    nanosleep ts k = (rv, e, rem, k') → 0 ≤ fst ts → 0 ≤ snd ts < 1000000000 →
    rv = 0 ∧ slept k' = slept k + nanos ts ∨
    rv = -1 ∧ e = SLEEP_EINTR ∧ 0 ≤ fst rem ∧ 0 ≤ snd rem < 1000000000 ∧
      slept k' = slept k + (nanos ts - nanos rem) ∧ (budget k' < budget k)%nat;
}.

Section time.
Context {K : Type} (nanosleep : Z * Z → K → Z * Z * (Z * Z) * K) (slept : K → Z) (budget : K → nat).
Context (Hok : nanosleep_ok nanosleep slept budget).

(** Usleep returns, and the process has then slept for exactly the microseconds
    asked for, however often signals interrupt it: each interruption goes on with the
    time that is left. *)
Theorem usleep_sleeps fuel usec k :
  0 ≤ usec < 2 ^ 64 → (budget k < fuel)%nat →
  ∃ k', usleep nanosleep fuel usec k = Ret tt k' ∧ slept k' = slept k + usec * 1000.
Proof.
  intros Hu Hf. unfold usleep. set (ts := (usec / 1000000, usec mod 1000000 * 1000)).
  assert (nanos ts = usec * 1000) as Hts.
  { unfold nanos, ts. cbn [fst snd]. pose proof (Z.div_mod usec 1000000). lia. }
  assert (0 ≤ fst ts ∧ 0 ≤ snd ts < 1000000000) as [H1 H2].
  { unfold ts. cbn [fst snd]. pose proof (Z.mod_pos_bound usec 1000000). split; [apply Z.div_pos; lia|lia]. }
  rewrite <-Hts. clearbody ts. clear Hts Hu. revert ts k H1 H2 Hf.
  induction fuel as [|fuel IH]; intros ts k H1 H2 Hf; [lia|]. rewrite run_loop, run_bind, run_get. cbn beta iota.
  destruct (nanosleep ts k) as [[[rv e] rem] k1] eqn:E. rewrite run_bind. cbn [put].
  destruct (ok_nanosleep _ _ _ Hok _ _ _ _ _ _ E H1 H2) as [[-> Hs]|(-> & -> & Hr1 & Hr2 & Hs & Hb)].
  - exists k1. by split.
  - change ((-1 =? -1) && (SLEEP_EINTR =? SLEEP_EINTR)) with true.
    destruct (IH rem k1 Hr1 Hr2 ltac:(lia)) as (k' & Hrun & Hs'). exists k'. split; [done|]. lia.
Qed.
End time.

(** ** Witnesses *)

(** A kernel with the two actions, the mask and the number of forks left. *)
Record sigproc := { sp_disp : gmap Z sigact; sp_mask : Z; sp_forks : nat }.

Definition default_act : sigact := {| sa_handler := 0; sa_flags := 0; sa_mask := 0 |}.
Definition sp_act (s : Z) (k : sigproc) : sigact := default default_act (sp_disp k !! s).
Definition sp_maskof (k : sigproc) : Z := Z.ldiff (sp_mask k) unmaskable.

Definition demo_sigcalls : sigcalls sigproc :=
  {| k_sigaction := λ sig act k, (0, sp_act sig k,
       {| sp_disp := <[sig := act]> (sp_disp k); sp_mask := sp_mask k; sp_forks := sp_forks k |});
     k_sigprocmask := λ how set k, (0, sp_maskof k,
       {| sp_disp := sp_disp k; sp_forks := sp_forks k;
          sp_mask := if how =? SIG_BLOCK then Z.lor (sp_maskof k) set
                     else if how =? SIG_SETMASK then set else Z.ldiff (sp_maskof k) set |});
     k_getpid := λ _, 7; k_kill := λ _ _ k, (0, k);
     k_fork := λ k, match sp_forks k with
       | O => (-1, k)
       | S n => (9, {| sp_disp := sp_disp k; sp_mask := sp_mask k; sp_forks := n |})
       end;
     k_waitpid := λ pid k, (pid, 256, k);
     k_execve := λ _ _ k, (true, k) |}.

Lemma demo_sigcalls_ok : sigcalls_ok demo_sigcalls sp_act sp_maskof.
Proof.
  split.
  - intros k. unfold sp_maskof. apply Z.bits_inj'. intros i Hi. rewrite !Z.ldiff_spec. by destruct (Z.testbit _ i), (Z.testbit _ i).
  - intros sig act k rv old k' [= <- <- <-] _. unfold sp_act. simpl. split_and!; [done|done|by rewrite lookup_insert_eq| |done].
    intros s Hs. by rewrite lookup_insert_ne.
  - intros how set k rv old k' [= <- <- <-]. split_and!; [done|done| |]; by intros ->.
  - intros k pid k'. simpl. destruct (sp_forks k); intros [= <- <-]; done.
  - intros pid k rv st k' [= <- <- <-]. done.
  - intros argv env k ok k' [= <- <-]. done.
Qed.

Lemma system_restores_witness :
  ∃ r k', system demo_sigcalls 0 0 [108; 115] {| sp_disp := ∅; sp_mask := 5; sp_forks := 1 |} = Ret r k' ∧
  (r = Parent (-1) ∨ (∀ s, sp_act s k' = default_act) ∧ sp_maskof k' = 5).
Proof.
  destruct (system_restores demo_sigcalls sp_act sp_maskof demo_sigcalls_ok 0 0 [108; 115]
    {| sp_disp := ∅; sp_mask := 5; sp_forks := 1 |}) as (k3 & _ & r & k' & Hrun & Hres).
  exists r, k'. split; [exact Hrun|]. destruct (k_fork demo_sigcalls k3) as [pid k4]. destruct (pid <? 0).
  - left. exact (proj1 Hres).
  - right. destruct Hres as (Hd & Hm & _). split; [|exact Hm]. intros s. rewrite Hd. unfold sp_act. simpl. rewrite lookup_empty. reflexivity.
Defined.

(** On this kernel, with a fork left and without one. *)
Example system_forks : ∃ k', system demo_sigcalls 0 0 [108; 115] {| sp_disp := ∅; sp_mask := 5; sp_forks := 1 |} = Ret (Parent 256) k' ∧
  sp_act SIGINT k' = default_act.
Proof. eexists. split; [vm_compute; reflexivity|reflexivity]. Qed.

Example system_no_fork : ∃ k', system demo_sigcalls 0 0 [108; 115] {| sp_disp := ∅; sp_mask := 5; sp_forks := 0 |} = Ret (Parent (-1)) k' ∧
  sp_act SIGINT k' = ignoring ∧ sp_maskof k' = 65541.
Proof. eexists. split; [vm_compute; reflexivity|split; reflexivity]. Qed.

(** A clock that is interrupted half-way through each sleep, as often as it says. *)
Definition demo_nanosleep (ts : Z * Z) (k : Z * nat) : Z * Z * (Z * Z) * (Z * nat) :=
  match snd k with
  | O => (0, 0, ts, (fst k + nanos ts, O))
  | S n =>
      let rem := (fst ts / 2, snd ts) in
      (-1, SLEEP_EINTR, rem, (fst k + (nanos ts - nanos rem), n))
  end.

Lemma demo_nanosleep_ok : nanosleep_ok demo_nanosleep fst snd.
Proof.
  split. intros ts [t n] rv e rem k' E H1 H2. unfold demo_nanosleep in E. cbn [fst snd] in E. destruct n as [|n].
  - injection E as <- <- <- <-. left. by split.
  - injection E as <- <- <- <-. right. cbn [fst snd]. split_and!; [done|done|apply Z.div_pos; lia|lia|lia|done|lia].
Qed.

Lemma usleep_sleeps_witness :
  ∃ k', usleep demo_nanosleep 4 5000001 (0, 3%nat) = Ret tt k' ∧ fst k' = 0 + 5000001 * 1000.
Proof.
  apply (usleep_sleeps demo_nanosleep fst snd demo_nanosleep_ok 4 5000001 (0, 3%nat)); [lia|simpl; lia].
Defined.
