(* ===== verification/Adler.v ===== *)
(** * The Adler-32 checksum: [zlib/adler32.c]

    The checksum of a text is two sums modulo 65521, the sum of its bytes and the sum
    of those partial sums.  The code adds up to [NMAX] bytes before it reduces, 16 at a
    time.  [adler32_sums]: it computes the two sums for every text, with no overflow
    even where unsigned long has 32 bits.  [adler32_combine_joins]: the checksum of two
    texts joined, from the checksums of the two; a sum that is 0 is left as 65521.

    The width of unsigned long and the choice of the reduction by subtractions
    ([NO_DIVIDE]) are parameters. *)

From Stdlib Require Import List.
From stdpp Require Import base tactics numbers list gmap.
From S2P Require Import Prelude Memory.

Open Scope Z_scope.

(** ** The code *)

Definition BASE : Z := 65521.
Definition NMAX : Z := 5552.

Section code.
Context (w : Z) (NO_DIVIDE : bool).

(** [if (a >= (BASE << k)) a -= (BASE << k)] *)
Definition sub_base (a k : Z) : Z := if Z.shiftl BASE k <=? a then a - Z.shiftl BASE k else a.

Definition MOD (a : Z) : Z :=
  if NO_DIVIDE then fold_left sub_base [16; 15; 14; 13; 12; 11; 10; 9; 8; 7; 6; 5; 4; 3; 2; 1; 0] a
  else a mod BASE.

Definition MOD4 (a : Z) : Z :=
  if NO_DIVIDE then fold_left sub_base [4; 3; 2; 1; 0] a else a mod BASE.

(** The variables [adler] and [sum2]. *)
Abbreviation sums := (Z * Z)%type.

Definition DO1 (buf i : Z) (s : sums) : C mem sums :=
  let '(adler, sum2) := s in
  b ← load8 (buf + i);
  let adler := wrap w (adler + b) in
  let sum2 := wrap w (sum2 + adler) in
  mret (adler, sum2).

Definition DO2 (buf i : Z) (s : sums) : C mem sums := s ← DO1 buf i s; DO1 buf (i + 1) s.
Definition DO4 (buf i : Z) (s : sums) : C mem sums := s ← DO2 buf i s; DO2 buf (i + 2) s.
Definition DO8 (buf i : Z) (s : sums) : C mem sums := s ← DO4 buf i s; DO4 buf (i + 4) s.
Definition DO16 (buf : Z) (s : sums) : C mem sums := s ← DO8 buf 0 s; DO8 buf 8 s.

(** [while (len--)]: byte by byte *)
Definition sum_bytes (len buf : Z) (s : sums) : C mem sums :=
  loop (S (Z.to_nat len)) (λ '(len, buf, s),
    if len =? 0 then Break s else
    s ← DO1 buf 0 s;
    Next (len - 1, buf + 1, s)) (len, buf, s).

(** [NMAX / 16] rounds of sixteen bytes *)
Definition sum_block (buf : Z) (s : sums) : C mem (Z * sums) :=
  loop (Z.to_nat (NMAX / 16)) (λ '(n, buf, s),
    s ← DO16 buf s;
    let buf := buf + 16 in
    let n := n - 1 in
    if n =? 0 then Break (buf, s) else Next (n, buf, s)) (NMAX / 16, buf, s).

Definition sum_blocks (len buf : Z) (s : sums) : C mem (Z * Z * sums) :=
  loop (S (Z.to_nat len)) (λ '(len, buf, s),
    if len <? NMAX then Break (len, buf, s) else
    let len := len - NMAX in
    '(buf, (adler, sum2)) ← sum_block buf s;
    Next (len, buf, (MOD adler, MOD sum2))) (len, buf, s).

(** The sixteens of what remains *)
Definition sum_sixteens (len buf : Z) (s : sums) : C mem (Z * Z * sums) :=
  loop (S (Z.to_nat len)) (λ '(len, buf, s),
    if len <? 16 then Break (len, buf, s) else
    s ← DO16 buf s;
    Next (len - 16, buf + 16, s)) (len, buf, s).

Definition recombine (s : sums) : Z := Z.lor (fst s) (wrap w (Z.shiftl (snd s) 16)).

Definition adler32 (adler buf len : Z) : C mem Z :=
  let sum2 := Z.land (Z.shiftr adler 16) 65535 in
  let adler := Z.land adler 65535 in
  if len =? 1 then
    b ← load8 buf;
    let adler := wrap w (adler + b) in
    let adler := if BASE <=? adler then adler - BASE else adler in
    let sum2 := wrap w (sum2 + adler) in
    let sum2 := if BASE <=? sum2 then sum2 - BASE else sum2 in
    mret (recombine (adler, sum2))
  else if buf =? NULL then mret 1
  else if len <? 16 then
    '(adler, sum2) ← sum_bytes len buf (adler, sum2);
    let adler := if BASE <=? adler then adler - BASE else adler in
    mret (recombine (adler, MOD4 sum2))
  else
    '(len, buf, s) ← sum_blocks len buf (adler, sum2);
    if len =? 0 then mret (recombine s) else
    '(len, buf, s) ← sum_sixteens len buf s;
    '(adler, sum2) ← sum_bytes len buf s;
    mret (recombine (MOD adler, MOD sum2)).

Definition adler32_combine (adler1 adler2 len2 : Z) : Z :=
  let rem := wrap 32 (wrap w len2 mod BASE) in
  let sum1 := Z.land adler1 65535 in
  let sum2 := wrap w (rem * sum1) in
  let sum2 := MOD sum2 in
  let sum1 := wrap w (sum1 + (Z.land adler2 65535 + BASE - 1)) in
  let sum2 := wrap w (sum2 + (Z.land (Z.shiftr adler1 16) 65535 + Z.land (Z.shiftr adler2 16) 65535 + BASE - rem)) in
  let sum1 := if BASE <? sum1 then sum1 - BASE else sum1 in
  let sum1 := if BASE <? sum1 then sum1 - BASE else sum1 in
  let sum2 := if Z.shiftl BASE 1 <? sum2 then sum2 - Z.shiftl BASE 1 else sum2 in
  let sum2 := if BASE <? sum2 then sum2 - BASE else sum2 in
  recombine (sum1, sum2).
End code.

(** ** The two sums *)

(** The sums of a text, exact, from those so far. *)
Definition add_byte (s : Z * Z) (b : Z) : Z * Z := (fst s + b, snd s + (fst s + b)).
Definition exact_sums (s : Z * Z) (l : list Z) : Z * Z := fold_left add_byte l s.

(** Reduced modulo [BASE], and as a checksum. *)
Definition reduce (s : Z * Z) : Z * Z := (fst s mod BASE, snd s mod BASE).
Definition checksum (s : Z * Z) : Z := fst s + 65536 * snd s.

(** The checksum of a text as RFC 1950 defines it. *)
Definition adler (l : list Z) : Z := checksum (reduce (exact_sums (1, 0) l)).

Lemma exact_sums_app s l l' : exact_sums s (l ++ l') = exact_sums (exact_sums s l) l'.
Proof. apply fold_left_app. Qed.

Lemma exact_sums_eq s l :
  exact_sums s l = (fst s + fst (exact_sums (0, 0) l), snd s + fst s * Z.of_nat (length l) + snd (exact_sums (0, 0) l)).
Proof.
  unfold exact_sums. revert s. induction l as [|b l IH]; intros [a s]; cbn [fold_left length].
  { simpl. f_equal; lia. }
  rewrite IH, (IH (add_byte (0, 0) b)). unfold add_byte. cbn [fst snd]. f_equal; lia.
Qed.

Lemma exact_sums_bound l :
  Forall is_byte l → 0 ≤ fst (exact_sums (0, 0) l) ≤ 255 * Z.of_nat (length l) ∧
  0 ≤ 2 * snd (exact_sums (0, 0) l) ≤ 255 * (Z.of_nat (length l) * (Z.of_nat (length l) + 1)).
Proof.
  induction 1 as [|b l Hb Hl IH]; [simpl; lia|].
  change (exact_sums (0, 0) (b :: l)) with (exact_sums (add_byte (0, 0) b) l). rewrite exact_sums_eq.
  unfold add_byte. cbn [fst snd length]. unfold is_byte in Hb. nia.
Qed.

Lemma reduce_sums s l : reduce (exact_sums (reduce s) l) = reduce (exact_sums s l).
Proof.
  rewrite (exact_sums_eq (reduce s)), (exact_sums_eq s). unfold reduce at 1 3. cbn [fst snd].
  generalize (fst (exact_sums (0, 0) l)) (snd (exact_sums (0, 0) l)) (Z.of_nat (length l)). intros x y n.
  unfold reduce. cbn [fst snd]. assert (BASE ≠ 0) as HB by done. generalize dependent BASE. intros B HB. f_equal.
  - apply Z.add_mod_idemp_l, HB.
  - rewrite <-Z.add_assoc, Z.add_mod_idemp_l by exact HB. rewrite <-(Z.add_mod_idemp_r (snd s)) by exact HB.
    rewrite <-(Z.add_mod_idemp_l (_ * _)), Z.mul_mod_idemp_l, Z.add_mod_idemp_l, Z.add_mod_idemp_r by exact HB.
    f_equal. apply Z.add_assoc.
Qed.

Lemma reduce_reduce s : reduce (reduce s) = reduce s.
Proof. apply (reduce_sums s []). Qed.

Lemma reduce_range s : 0 ≤ fst (reduce s) < BASE ∧ 0 ≤ snd (reduce s) < BASE.
Proof. unfold reduce. cbn [fst snd]. split; apply Z.mod_pos_bound; unfold BASE; lia. Qed.

(** ** Reductions *)

Lemma sub_base_mod a k : 0 ≤ k → 0 ≤ a < Z.shiftl BASE (k + 1) →
  sub_base a k mod BASE = a mod BASE ∧ 0 ≤ sub_base a k < Z.shiftl BASE k.
Proof.
  intros Hk. unfold sub_base. rewrite !Z.shiftl_mul_pow2, Z.pow_add_r by lia. intros Ha.
  destruct (Z.leb_spec (BASE * 2 ^ k) a) as [H|H]; split; try lia.
  rewrite <-(Z_mod_plus_full (a - BASE * 2 ^ k) (2 ^ k)). f_equal. lia.
Qed.

(** Subtractions of the multiples from [2^k] down reduce what is below the next one. *)
Lemma sub_bases k a : 0 ≤ a < Z.shiftl BASE (Z.of_nat (S k)) →
  fold_left sub_base (rev (map Z.of_nat (seq 0 (S k)))) a = a mod BASE.
Proof.
  revert a. induction k as [|k IH]; intros a Ha.
  - cbn [seq map rev app fold_left]. destruct (sub_base_mod a 0) as [H1 H2]; [lia|done|].
    change (Z.of_nat 0) with 0. rewrite <-H1, Z.mod_small; [done|]. by rewrite Z.shiftl_0_r in H2.
  - rewrite seq_S, map_app, rev_app_distr. cbn [map rev app fold_left].
    destruct (sub_base_mod a (Z.of_nat (S k))) as [H1 H2]; [lia|by rewrite Nat2Z.inj_succ in Ha|].
    rewrite Nat.add_0_l, IH by done. done.
Qed.

Lemma MOD_mod nd a : 0 ≤ a < 2 ^ 32 → MOD nd a = a mod BASE.
Proof. intros Ha. unfold MOD. destruct nd; [|done]. apply (sub_bases 16). split; [lia|]. change (Z.shiftl BASE (Z.of_nat 17)) with (131072 * BASE). unfold BASE. lia. Qed.

Lemma MOD4_mod nd a : 0 ≤ a < 32 * BASE → MOD4 nd a = a mod BASE.
Proof. intros Ha. unfold MOD4. destruct nd; [|done]. apply (sub_bases 4). change (Z.shiftl BASE (Z.of_nat 5)) with (32 * BASE). lia. Qed.

(** ** Running the sums *)

Section run.
Context (w : Z) (Hw : 32 ≤ w) (nd : bool).
Implicit Types (m : mem) (l : list Z) (s : Z * Z).

(** The sums as the code has them, wrapped. *)
Definition wrap_sums s : Z * Z := (wrap w (fst s), wrap w (snd s)).

Lemma wrap_sums_small s : 0 ≤ fst s < 2 ^ 32 → 0 ≤ snd s < 2 ^ 32 → wrap_sums s = s.
Proof.
  intros H1 H2. pose proof (Z.pow_le_mono_r 2 32 w ltac:(lia) Hw). unfold wrap_sums. destruct s as [a s]. cbn [fst snd] in *.
  by rewrite !wrap_small by lia.
Qed.

Lemma run_DO1 m buf i s b :
  m !! (buf + i) = Some b → DO1 w buf i (wrap_sums s) m = Ret (wrap_sums (exact_sums s [b])) m.
Proof.
  intros Hb. unfold DO1, wrap_sums. rewrite run_bind, (run_load8 _ _ b) by done. cbn beta iota. rewrite run_ret.
  unfold exact_sums, add_byte. cbn [fold_left fst snd]. unfold wrap. assert (2 ^ w ≠ 0) as Hn by lia.
  rewrite Z.add_mod_idemp_l, Z.add_mod_idemp_l, Z.add_mod_idemp_r by done. done.
Qed.

(** Twice a step on [n] bytes is a step on [n + n]. *)
Lemma run_twice (f : Z → Z → Z * Z → C mem (Z * Z)) (n : nat) m :
  (∀ buf i s l, length l = n → bytes_at m (buf + i) l → f buf i (wrap_sums s) m = Ret (wrap_sums (exact_sums s l)) m) →
  ∀ buf i s l, length l = (n + n)%nat → bytes_at m (buf + i) l →
  (s' ← f buf i (wrap_sums s); f buf (i + Z.of_nat n) s') m = Ret (wrap_sums (exact_sums s l)) m.
Proof.
  intros Hf buf i s l Hl Hm. rewrite <-(take_drop n l) in Hm |- *. apply bytes_at_app in Hm as [H1 H2].
  assert (length (take n l) = n) as Hn by (rewrite length_take; lia). rewrite Hn in H2.
  rewrite run_bind, (Hf _ _ _ (take n l)) by done. cbn beta iota.
  rewrite (Hf _ _ _ (drop n l)); [by rewrite exact_sums_app|rewrite length_drop; lia|]. by rewrite Z.add_assoc.
Qed.

Lemma run_DO16 m buf s l :
  length l = 16%nat → bytes_at m buf l → DO16 w buf (wrap_sums s) m = Ret (wrap_sums (exact_sums s l)) m.
Proof.
  intros Hl Hm. apply (run_twice (DO8 w) 8 m); [|done|by rewrite Z.add_0_r].
  clear buf s l Hl Hm. apply (run_twice (DO4 w) 4 m). apply (run_twice (DO2 w) 2 m). apply (run_twice (DO1 w) 1 m).
  intros buf i s [|b [|? ?]] Hl Hm; try done. apply bytes_at_cons in Hm as (_ & Hb & _). by apply run_DO1.
Qed.

Lemma run_sum_bytes m buf s l :
  bytes_at m buf l →
  sum_bytes w (Z.of_nat (length l)) buf (wrap_sums s) m = Ret (wrap_sums (exact_sums s l)) m.
Proof.
  unfold sum_bytes. rewrite Nat2Z.id. revert buf s. induction l as [|b l IH]; intros buf s Hm; [by rewrite run_loop|].
  apply bytes_at_cons in Hm as (Hb & Hl & Hm). cbn [length]. cround.
  rewrite (run_DO1 _ _ _ _ b) by (by rewrite Z.add_0_r). cbn beta iota.
  replace (Z.of_nat (S (length l)) - 1) with (Z.of_nat (length l)) by lia. crun. by apply IH.
Qed.

(** [k] rounds of sixteen bytes, and then what follows. *)
Lemma run_sum_block_rounds k m buf s l :
  length l = (16 * S k)%nat → bytes_at m buf l →
  loop (S k) (λ '(n, buf, s),
    s ← DO16 w buf s;
    let buf := buf + 16 in
    let n := n - 1 in
    if n =? 0 then Break (buf, s) else Next (n, buf, s)) (Z.of_nat (S k), buf, wrap_sums s) m
  = Ret (buf + Z.of_nat (length l), wrap_sums (exact_sums s l)) m.
Proof.
  revert buf s l. induction k as [|k IH]; intros buf s l Hl Hm.
  - rewrite run_loop. cbn beta iota. rewrite run_bind, (run_DO16 _ _ _ l) by done. cbn beta iota zeta.
    rewrite Hl. done.
  - rewrite <-(take_drop 16 l) in Hm. apply bytes_at_app in Hm as [H1 H2].
    assert (length (take 16 l) = 16%nat) as Hn by (rewrite length_take; lia). rewrite Hn in H2.
    rewrite run_loop. cbn beta iota. rewrite run_bind, (run_DO16 _ _ _ (take 16 l)) by done. cbn beta iota zeta.
    replace (Z.of_nat (S (S k)) - 1 =? 0) with false by (symmetry; apply Z.eqb_neq; lia). rewrite run_ret. cbn beta iota.
    replace (Z.of_nat (S (S k)) - 1) with (Z.of_nat (S k)) by lia.
    rewrite (IH _ _ (drop 16 l)); [|rewrite length_drop; lia|done].
    rewrite <-exact_sums_app, take_drop. f_equal. f_equal. rewrite length_drop. lia.
Qed.

Lemma run_sum_sixteens m buf s l :
  bytes_at m buf l →
  ∃ l1 l2, l = l1 ++ l2 ∧ (length l2 < 16)%nat ∧
  sum_sixteens w (Z.of_nat (length l)) buf (wrap_sums s) m =
  Ret (Z.of_nat (length l2), buf + Z.of_nat (length l1), wrap_sums (exact_sums s l1)) m.
Proof.
  unfold sum_sixteens. rewrite Nat2Z.id. assert ((length l < S (length l))%nat) as Hf by lia.
  revert Hf. generalize (S (length l)) as fuel. intros fuel. revert buf s l.
  induction fuel as [|fuel IH]; intros buf s l Hf Hm; [lia|]. rewrite run_loop. cbn beta iota.
  destruct (Z.ltb_spec (Z.of_nat (length l)) 16) as [Hl|Hl].
  { exists [], l. split_and!; [done|lia|]. rewrite run_ret. cbn [length]. by rewrite Z.add_0_r. }
  rewrite <-(take_drop 16 l) in Hm. apply bytes_at_app in Hm as [H1 H2].
  assert (length (take 16 l) = 16%nat) as Hn by (rewrite length_take; lia). rewrite Hn in H2.
  rewrite run_bind, (run_DO16 _ _ _ (take 16 l)) by done. cbn beta iota. rewrite run_ret.
  assert (length (drop 16 l) = (length l - 16)%nat) as Hd by apply length_drop.
  replace (Z.of_nat (length l) - 16) with (Z.of_nat (length (drop 16 l))) by lia.
  destruct (IH (buf + 16) (exact_sums s (take 16 l)) (drop 16 l)) as (l1 & l2 & E & Hl2 & Hrun); [lia|done|].
  exists (take 16 l ++ l1), l2. rewrite <-app_assoc, <-E, take_drop. split_and!; [done|done|]. rewrite Hrun.
  rewrite exact_sums_app, length_app, Hn. f_equal. f_equal. f_equal. lia.
Qed.

(** What one block leaves fits in 32 bits. *)
Lemma block_bound s l :
  Forall is_byte l → Z.of_nat (length l) ≤ NMAX → 0 ≤ fst s < BASE → 0 ≤ snd s < BASE →
  0 ≤ fst (exact_sums s l) < 2 ^ 32 ∧ 0 ≤ snd (exact_sums s l) < 2 ^ 32.
Proof.
  intros Hl Hn Ha Hs. rewrite exact_sums_eq. cbn [fst snd]. destruct (exact_sums_bound l Hl) as [H1 H2].
  unfold BASE, NMAX in *. change (2 ^ 32) with 4294967296. nia.
Qed.

Lemma run_block_reduce s l :
  Forall is_byte l → Z.of_nat (length l) ≤ NMAX → 0 ≤ fst s < BASE → 0 ≤ snd s < BASE →
  (MOD nd (fst (wrap_sums (exact_sums s l))), MOD nd (snd (wrap_sums (exact_sums s l)))) = reduce (exact_sums s l).
Proof.
  intros Hl Hn Ha Hs. destruct (block_bound s l Hl Hn Ha Hs) as [H1 H2]. rewrite wrap_sums_small by done.
  by rewrite !MOD_mod by done.
Qed.

Lemma BASE_32 : BASE < 2 ^ 32.
Proof. done. Qed.

Lemma run_sum_blocks m buf s l :
  bytes_at m buf l → 0 ≤ fst s < BASE → 0 ≤ snd s < BASE →
  ∃ l1 l2 s', l = l1 ++ l2 ∧ (Z.of_nat (length l2) < NMAX) ∧ reduce (exact_sums s l1) = s' ∧
  sum_blocks w nd (Z.of_nat (length l)) buf s m = Ret (Z.of_nat (length l2), buf + Z.of_nat (length l1), s') m.
Proof.
  unfold sum_blocks. rewrite Nat2Z.id. assert ((length l < S (length l))%nat) as Hf by lia.
  revert Hf. generalize (S (length l)) as fuel. intros fuel. revert buf s l.
  induction fuel as [|fuel IH]; intros buf s l Hf Hm Ha Hs; [lia|]. rewrite run_loop. cbn beta iota.
  destruct (Z.ltb_spec (Z.of_nat (length l)) NMAX) as [Hl|Hl].
  { exists [], l, s. destruct s as [a s]. unfold reduce. cbn [fst snd] in *. cbn [exact_sums fold_left fst snd length].
    rewrite !Z.mod_small, Z.add_0_r by done. by split_and!. }
  set (k := Z.to_nat NMAX). assert (Z.of_nat k = NMAX) as Hk by done. clearbody k.
  rewrite <-(take_drop k l) in Hm. apply bytes_at_app in Hm as [H1 H2].
  assert (length (take k l) = k) as Hn by (rewrite length_take; lia). rewrite Hn in H2. pose proof BASE_32.
  assert (sum_block w buf s m = Ret (buf + NMAX, wrap_sums (exact_sums s (take k l))) m) as Hrun.
  { rewrite <-(wrap_sums_small s) at 1 by lia. rewrite <-Hk, <-Hn at 1.
    apply (run_sum_block_rounds 346); [|done]. rewrite Hn. apply Nat2Z.inj. rewrite Hk. done. }
  rewrite run_bind, Hrun. destruct (wrap_sums (exact_sums s (take k l))) as [a' s'] eqn:Ew. cbn beta iota. rewrite run_ret.
  pose proof (run_block_reduce s (take k l) (bytes_at_is_byte _ _ _ H1) ltac:(lia) Ha Hs) as Hred.
  rewrite Ew in Hred. cbn [fst snd] in Hred. rewrite Hred.
  assert (length (drop k l) = (length l - k)%nat) as Hd by apply length_drop.
  replace (Z.of_nat (length l) - NMAX) with (Z.of_nat (length (drop k l))) by lia.
  destruct (reduce_range (exact_sums s (take k l))) as [Hr1 Hr2]. rewrite Hk in H2. unfold NMAX in Hk.
  destruct (IH (buf + NMAX) (reduce (exact_sums s (take k l))) (drop k l)) as (l1 & l2 & s2 & E & Hl2 & Hs2 & Hrun2); [unfold NMAX in Hl; lia|done..|].
  exists (take k l ++ l1), l2, s2. rewrite <-app_assoc, <-E, take_drop. split_and!; [done|done| |].
  - by rewrite exact_sums_app, <-reduce_sums.
  - rewrite Hrun2. rewrite length_app, Hn. do 3 f_equal. unfold NMAX. lia.
Qed.
End run.

(** ** Properties *)

Lemma checksum_halves a s : 0 ≤ a < BASE → 0 ≤ s < BASE →
  Z.land (checksum (a, s)) 65535 = a ∧ Z.land (Z.shiftr (checksum (a, s)) 16) 65535 = s.
Proof.
  intros Ha Hs. change 65535 with (Z.ones 16). rewrite !Z.land_ones, Z.shiftr_div_pow2 by lia. unfold checksum, BASE in *. cbn [fst snd].
  change (2 ^ 16) with 65536. rewrite (Z.mul_comm 65536), Z_mod_plus_full, Z_div_plus_full by lia.
  rewrite (Z.div_small a), Z.add_0_l, !Z.mod_small by lia. done.
Qed.

Lemma recombine_checksum w s : 32 ≤ w → 0 ≤ fst s < 65536 → 0 ≤ snd s < 65536 → recombine w s = checksum s.
Proof.
  intros Hw Ha Hs. unfold recombine, checksum. pose proof (Z.pow_le_mono_r 2 32 w ltac:(lia) Hw).
  rewrite Z.shiftl_mul_pow2, wrap_small by lia. change (2 ^ 16) with 65536. rewrite (Z.mul_comm 65536), <-Z.add_lor_land.
  assert (Z.land (fst s) (snd s * 65536) = 0) as ->; [|lia]. change 65536 with (2 ^ 16) in *. apply Z.bits_inj'. intros i Hi.
  rewrite Z.land_spec, Z.bits_0. destruct (decide (i < 16)) as [Hlt|Hge].
  - rewrite Z.mul_pow2_bits_low by lia. by rewrite andb_false_r.
  - rewrite <-(Z.mod_small (fst s) (2 ^ 16)), Z.mod_pow2_bits_high by lia. done.
Qed.

Lemma reduce_one s b : 0 ≤ fst s < BASE → 0 ≤ snd s < BASE → is_byte b →
  let a' := if BASE <=? fst s + b then fst s + b - BASE else fst s + b in
  let s' := if BASE <=? snd s + a' then snd s + a' - BASE else snd s + a' in
  (a', s') = reduce (exact_sums s [b]) ∧ 0 ≤ snd s + a' < 2 ^ 32.
Proof.
  intros Ha Hs Hb a' s'. assert (a' = (fst s + b) mod BASE ∧ 0 ≤ a' < BASE) as [Ea Ha'].
  { subst a'. unfold is_byte, BASE in *. destruct (Z.leb_spec 65521 (fst s + b)) as [H|H].
    - split; [|lia]. rewrite <-(Z_mod_plus_full _ (-1)), Z.mod_small; lia.
    - split; [|lia]. rewrite Z.mod_small; lia. }
  clearbody a'. split; [|unfold BASE in *; lia].
  unfold exact_sums, add_byte, reduce. cbn [fold_left fst snd]. f_equal; [done|].
  rewrite <-Z.add_mod_idemp_r by done. rewrite <-Ea. subst s'. unfold BASE in *.
  destruct (Z.leb_spec 65521 (snd s + a')) as [H|H].
  - rewrite <-(Z_mod_plus_full _ (-1)), Z.mod_small; lia.
  - rewrite Z.mod_small; lia.
Qed.

(** Fewer than sixteen bytes add less than [BASE] to the first sum. *)
Lemma reduce_few s l : Forall is_byte l → (length l < 16)%nat → 0 ≤ fst s < BASE → 0 ≤ snd s < BASE →
  let t := exact_sums s l in
  (if BASE <=? fst t then fst t - BASE else fst t) = fst (reduce t) ∧ 0 ≤ snd t < 32 * BASE ∧ 0 ≤ fst t < 2 * BASE.
Proof.
  intros Hl Hn Ha Hs t. subst t. rewrite exact_sums_eq. destruct (exact_sums_bound l Hl) as [H1 H2].
  unfold reduce. cbn [fst snd]. set (x := fst (exact_sums (0, 0) l)) in *. set (y := snd (exact_sums (0, 0) l)) in *. clearbody x y.
  set (n := Z.of_nat (length l)) in *. assert (0 ≤ n ≤ 15) as Hn' by lia. clearbody n. unfold BASE in *.
  split_and!; [|nia..]. destruct (Z.leb_spec 65521 (fst s + x)) as [H|H].
  - rewrite <-(Z_mod_plus_full _ (-1)), Z.mod_small; lia.
  - rewrite Z.mod_small; lia.
Qed.

Lemma checksum_recombine w s : 32 ≤ w → recombine w (reduce s) = checksum (reduce s).
Proof. intros Hw. destruct (reduce_range s) as [H1 H2]. unfold BASE in *. apply recombine_checksum; lia. Qed.

Section adler32.
Context (w : Z) (Hw : 32 ≤ w) (nd : bool).

(** The checksum goes on from the sums it is given. *)
Lemma run_adler32 m buf l s :
  bytes_at m buf l → buf ≠ NULL → 0 ≤ fst s < BASE → 0 ≤ snd s < BASE →
  adler32 w nd (checksum s) buf (Z.of_nat (length l)) m = Ret (checksum (reduce (exact_sums s l))) m.
Proof.
  intros Hm Hbuf Ha Hs. destruct s as [a s]. cbn [fst snd] in Ha, Hs. unfold adler32.
  destruct (checksum_halves a s Ha Hs) as [-> ->]. pose proof BASE_32 as HB.
  assert (wrap_sums w (a, s) = (a, s)) as Hws by (apply wrap_sums_small; [done|simpl; lia..]).
  destruct (Z.eqb_spec (Z.of_nat (length l)) 1) as [H1|H1].
  { destruct l as [|b [|? ?]]; try (simpl in H1; lia). apply bytes_at_cons in Hm as (Hb & Hl & _).
    rewrite run_bind, (run_load8 _ _ b) by done. cbn beta iota zeta. pose proof (Z.pow_le_mono_r 2 32 w ltac:(lia) Hw).
    rewrite (wrap_small w (a + b)) by (unfold is_byte, BASE in *; lia).
    destruct (reduce_one (a, s) b Ha Hs Hb) as [E Hr]. cbn [fst snd] in E, Hr.
    rewrite wrap_small by lia. rewrite E, checksum_recombine by done. done. }
  rewrite (proj2 (Z.eqb_neq buf NULL)) by done. destruct (Z.ltb_spec (Z.of_nat (length l)) 16) as [H2|H2].
  { pose proof (run_sum_bytes w Hw m buf (a, s) l Hm) as Hr. rewrite Hws in Hr. rewrite run_bind, Hr. pose proof (bytes_at_is_byte _ _ _ Hm) as Hl.
    destruct (reduce_few (a, s) l Hl ltac:(lia) Ha Hs) as (E & H3 & H4). set (t := exact_sums (a, s) l) in *. clearbody t.
    rewrite (wrap_sums_small w Hw t) by (unfold BASE in *; lia). destruct t as [a' s']. cbn [fst snd] in *.
    rewrite run_ret, E, MOD4_mod by done. change (fst (reduce (a', s')), s' mod BASE) with (reduce (a', s')). by rewrite checksum_recombine. }
  destruct (run_sum_blocks w Hw nd m buf (a, s) l Hm Ha Hs) as (l1 & l2 & t & -> & Hl2 & Ht & Hrun).
  rewrite run_bind, Hrun. cbn beta iota. apply bytes_at_app in Hm as [Hm1 Hm2]. rewrite exact_sums_app, <-reduce_sums, Ht.
  assert (0 ≤ fst t < BASE ∧ 0 ≤ snd t < BASE) as [Ht1 Ht2] by (subst t; apply reduce_range).
  destruct (Z.eqb_spec (Z.of_nat (length l2)) 0) as [H3|H3].
  { destruct l2; [|simpl in H3; lia]. rewrite run_ret. change (exact_sums t []) with t.
    rewrite <-Ht, checksum_recombine by done. by rewrite (reduce_reduce (exact_sums (a, s) l1)). }
  rewrite <-(wrap_sums_small w Hw t), run_bind by lia.
  destruct (run_sum_sixteens w Hw m (buf + Z.of_nat (length l1)) t l2 Hm2) as (l3 & l4 & E4 & Hl4 & Hrun4). rewrite Hrun4. cbn beta iota.
  pose proof Hm2 as Hm3. rewrite E4 in Hm3. apply bytes_at_app in Hm3 as [_ Hm4].
  rewrite run_bind, (run_sum_bytes w Hw) by done. rewrite <-exact_sums_app, <-E4.
  pose proof (run_block_reduce w Hw nd t l2 (bytes_at_is_byte _ _ _ Hm2) ltac:(lia) Ht1 Ht2) as Hred.
  destruct (wrap_sums w (exact_sums t l2)) as [a' s']. cbn [fst snd] in Hred. rewrite run_ret, Hred, checksum_recombine by done.
  by rewrite wrap_sums_small by lia.
Qed.

(** C39: given the checksum of a text and the bytes that follow it, adler32 returns the
    checksum of the whole, for every text, with unsigned long of 32 bits as of 64 and
    whichever way it reduces; given no buffer it returns the checksum of the empty
    text. *)
Theorem adler32_sums m buf l0 l :
  bytes_at m buf l → buf ≠ NULL → Z.of_nat (length l) < 2 ^ 32 →
  adler32 w nd (adler l0) buf (Z.of_nat (length l)) m = Ret (adler (l0 ++ l)) m ∧
  (∀ a n, n ≠ 1 → adler32 w nd a NULL n m = Ret (adler []) m).
Proof.
  intros Hm Hbuf _. destruct (reduce_range (exact_sums (1, 0) l0)) as [H1 H2]. split.
  - unfold adler at 1. rewrite run_adler32 by done. by rewrite reduce_sums, <-exact_sums_app.
  - intros a n Hn. unfold adler32. by rewrite (proj2 (Z.eqb_neq n 1)) by done.
Qed.
End adler32.

(** ** Joining *)

(** The residue of [x] from 1 to [BASE] instead of from 0. *)
Definition up (x : Z) : Z := if x mod BASE =? 0 then BASE else x mod BASE.

Lemma up_eq x k y : x = y + k * BASE → 0 < y ≤ BASE → up x = y.
Proof.
  intros -> Hy. unfold up. rewrite Z_mod_plus_full. destruct (decide (y = BASE)) as [->|Hne].
  - by rewrite Z_mod_same_full.
  - rewrite Z.mod_small by lia. by rewrite (proj2 (Z.eqb_neq y 0)) by lia.
Qed.

Lemma up_fold x : 0 < x < 4 * BASE →
  let y := if Z.shiftl BASE 1 <? x then x - Z.shiftl BASE 1 else x in
  (if BASE <? y then y - BASE else y) = up x.
Proof.
  intros Hx. change (Z.shiftl BASE 1) with (2 * BASE). cbv zeta.
  destruct (Z.ltb_spec (2 * BASE) x) as [H|H]; destruct (Z.ltb_spec BASE (if 2 * BASE <? x then x - 2 * BASE else x)) as [H'|H'];
    rewrite ?(proj2 (Z.ltb_lt (2 * BASE) x)), ?(proj2 (Z.ltb_ge (2 * BASE) x)) in H' by lia.
  - rewrite (proj2 (Z.ltb_lt _ _)) by lia. symmetry. apply (up_eq _ 3); lia.
  - rewrite (proj2 (Z.ltb_ge _ _)) by lia. symmetry. apply (up_eq _ 2); lia.
  - rewrite (proj2 (Z.ltb_lt _ _)) by lia. symmetry. apply (up_eq _ 1); lia.
  - rewrite (proj2 (Z.ltb_ge _ _)) by lia. symmetry. apply (up_eq _ 0); lia.
Qed.

Lemma up_fold2 x : 0 < x ≤ 3 * BASE →
  let y := if BASE <? x then x - BASE else x in
  (if BASE <? y then y - BASE else y) = up x.
Proof.
  intros Hx. cbv zeta. destruct (Z.ltb_spec BASE x) as [H|H].
  - destruct (Z.ltb_spec BASE (x - BASE)) as [H'|H']; symmetry; [apply (up_eq _ 2)|apply (up_eq _ 1)]; lia.
  - rewrite (proj2 (Z.ltb_ge _ _)) by lia. symmetry. apply (up_eq _ 0); lia.
Qed.

Lemma up_mod x y : x mod BASE = y mod BASE → up x = up y.
Proof. unfold up. by intros ->. Qed.

Lemma up_range x : 0 < up x ≤ BASE.
Proof.
  unfold up. pose proof (Z.mod_pos_bound x BASE ltac:(done)). destruct (Z.eqb_spec (x mod BASE) 0); [|lia]. unfold BASE. lia.
Qed.

(** The sums of two texts joined. *)
Lemma exact_sums_join l1 l2 :
  let '(a1, s1) := exact_sums (1, 0) l1 in
  let '(a2, s2) := exact_sums (1, 0) l2 in
  exact_sums (1, 0) (l1 ++ l2) = (a1 + a2 - 1, s1 + s2 + (a1 - 1) * Z.of_nat (length l2)).
Proof.
  rewrite exact_sums_app, (exact_sums_eq (1, 0) l2), (exact_sums_eq (exact_sums (1, 0) l1) l2).
  destruct (exact_sums (1, 0) l1) as [a1 s1]. cbn [fst snd]. f_equal; lia.
Qed.

Section combine.
Context (w : Z) (Hw : 32 ≤ w) (nd : bool).

Lemma combine_residues a1 s1 a2 s2 n :
  0 ≤ a1 < BASE → 0 ≤ s1 < BASE → 0 ≤ a2 < BASE → 0 ≤ s2 < BASE → 0 ≤ n < 2 ^ w →
  adler32_combine w nd (checksum (a1, s1)) (checksum (a2, s2)) n =
  checksum (up (a1 + a2 - 1), up (s1 + s2 + (a1 - 1) * n)).
Proof.
  intros Ha1 Hs1 Ha2 Hs2 Hn. unfold adler32_combine.
  destruct (checksum_halves a1 s1 Ha1 Hs1) as [-> ->], (checksum_halves a2 s2 Ha2 Hs2) as [-> ->].
  pose proof (Z.pow_le_mono_r 2 32 w ltac:(lia) Hw) as Hp. change (2 ^ 32) with 4294967296 in Hp.
  rewrite (wrap_small w n) by done. pose proof (Z.mod_pos_bound n BASE ltac:(done)) as Hr.
  rewrite (wrap_small 32 (n mod BASE)) by (unfold BASE in *; lia). set (r := n mod BASE) in *.
  assert (0 ≤ r * a1 < 4294967296) as Hra by (unfold BASE in *; nia).
  rewrite (wrap_small w (r * a1)), MOD_mod by lia. pose proof (Z.mod_pos_bound (r * a1) BASE ltac:(done)) as Hm.
  rewrite !wrap_small by (unfold BASE in *; lia). cbv zeta. rewrite up_fold2, up_fold by (unfold BASE in *; lia). pose proof up_range as Hup.
  rewrite recombine_checksum; [|done|cbn [fst snd]; match goal with |- context [up ?x] => pose proof (Hup x) end; unfold BASE in *; lia..].
  f_equal. f_equal; apply up_mod.
  - rewrite <-(Z_mod_plus_full (a1 + a2 - 1) 1). f_equal. ring.
  - rewrite <-Z.add_mod_idemp_l, Z.mod_mod, Z.add_mod_idemp_l by done. subst r. rewrite (Z.mod_eq n) by done.
    rewrite <-(Z_mod_plus_full (s1 + s2 + (a1 - 1) * n) (1 - (a1 - 1) * (n / BASE))). f_equal. ring.
Qed.

Lemma up_residue x : up x = x mod BASE ↔ x mod BASE ≠ 0.
Proof. unfold up. destruct (Z.eqb_spec (x mod BASE) 0) as [->|]; [|done]. done. Qed.

(** Adler32_combine of the checksums of two texts and the length of the second is
    the checksum of the texts joined, but that each of its sums which is 0 modulo
    65521 is given as 65521; it is the checksum itself exactly when neither is 0. *)
Theorem adler32_combine_joins l1 l2 :
  Z.of_nat (length l2) < 2 ^ (w - 1) →
  let '(a, s) := exact_sums (1, 0) (l1 ++ l2) in
  adler32_combine w nd (adler l1) (adler l2) (Z.of_nat (length l2)) = checksum (up a, up s) ∧
  (adler32_combine w nd (adler l1) (adler l2) (Z.of_nat (length l2)) = adler (l1 ++ l2) ↔ a mod BASE ≠ 0 ∧ s mod BASE ≠ 0).
Proof.
  intros Hlen. unfold adler. pose proof (exact_sums_join l1 l2) as Hj.
  destruct (exact_sums (1, 0) l1) as [a1 s1], (exact_sums (1, 0) l2) as [a2 s2], (exact_sums (1, 0) (l1 ++ l2)) as [a s].
  assert (0 ≤ Z.of_nat (length l2) < 2 ^ w) as Hn.
  { split; [lia|]. replace w with (w - 1 + 1) by lia. rewrite Z.pow_add_r by lia. lia. }
  destruct (reduce_range (a1, s1)) as [H1 H2], (reduce_range (a2, s2)) as [H3 H4]. unfold reduce in *. cbn [fst snd] in *.
  rewrite combine_residues by done. injection Hj as -> ->.
  set (n := Z.of_nat (length l2)) in *. assert (up (a1 mod BASE + a2 mod BASE - 1) = up (a1 + a2 - 1)) as ->.
  { apply up_mod. rewrite (Z.mod_eq a1), (Z.mod_eq a2) by done.
    rewrite <-(Z_mod_plus_full (a1 + a2 - 1) (- (a1 / BASE) - a2 / BASE)). f_equal. ring. }
  assert (up (s1 mod BASE + s2 mod BASE + (a1 mod BASE - 1) * n) = up (s1 + s2 + (a1 - 1) * n)) as ->.
  { apply up_mod. rewrite (Z.mod_eq s1), (Z.mod_eq s2), (Z.mod_eq a1) by done.
    rewrite <-(Z_mod_plus_full (s1 + s2 + (a1 - 1) * n) (- (s1 / BASE) - s2 / BASE - a1 / BASE * n)). f_equal. ring. }
  split; [done|]. rewrite <-!up_residue. pose proof (up_range (a1 + a2 - 1)).
  pose proof (Z.mod_pos_bound (a1 + a2 - 1) BASE ltac:(done)). unfold checksum. cbn [fst snd]. unfold BASE in *. lia.
Qed.
End combine.

(** ** Witnesses *)

Definition demo_text : list Z := repeat 255 (Z.to_nat 5600) ++ [1; 2; 3].
Definition demo_mem : mem := write_bytes ∅ 4096 demo_text.

Lemma adler32_sums_witness :
  adler32 32 true (adler [65; 66]) 4096 5603 demo_mem = Ret (adler ([65; 66] ++ demo_text)) demo_mem.
Proof.
  refine (proj1 (adler32_sums 32 _ true demo_mem 4096 [65; 66] demo_text _ _ _)); [lia| |done|by vm_compute].
  apply bytes_atb_spec. vm_compute. reflexivity.
Defined.

(** On ["Wikipedia"]. *)
Example adler_example : adler [87; 105; 107; 105; 112; 101; 100; 105; 97] = 0x11e60398.
Proof. reflexivity. Qed.

Lemma adler32_combine_joins_witness :
  adler32_combine 64 false (adler [87; 105; 107; 105]) (adler [112; 101; 100; 105; 97]) 5 =
  adler [87; 105; 107; 105; 112; 101; 100; 105; 97].
Proof.
  pose proof (adler32_combine_joins 64 ltac:(lia) false [87; 105; 107; 105] [112; 101; 100; 105; 97] eq_refl) as [_ H].
  apply H. vm_compute. split; discriminate.
Defined.

(** A sum that is 0: the joined checksum is not the one of the joined text. *)
Example adler32_combine_zero :
  adler32_combine 64 false (adler (repeat 255 256)) (adler [240]) 1 = 0x0800fff1 ∧
  adler (repeat 255 256 ++ [240]) = 0x08000000.
Proof. split; vm_compute; reflexivity. Qed.
