(* ===== verification/Crc.v ===== *)
(** * The CRC-32 checksum: [zlib/crc32.c]

    The checksum is a shift register of 32 bits over the bits of the text.  The code
    reads tables of 256 words, a byte at a time or, with [BYFOUR], four bytes at a time,
    with a byte-reversed register on machines that store the high byte first.
    [crc32_bits]: every variant computes the shift register, bit by bit.
    [crc_tables_made]: the tables of crc32.h are those [make_crc_table] generates.
    [crc32_combine_joins]: the checksum of two texts joined, from the checksums of the
    two, by matrices over the field of two elements that are squared repeatedly. *)

From Stdlib Require Import List.
From stdpp Require Import base tactics numbers list gmap.
From S2P Require Import Prelude Memory Words CrcTable.

Open Scope Z_scope.

(** ** The tables *)

Definition REV (w : Z) : Z :=
  Z.shiftr w 24 + Z.land (Z.shiftr w 8) 0xff00 + Z.shiftl (Z.land w 0xff00) 8 + Z.shiftl (Z.land w 0xff) 24.

(** The exponents of the polynomial, but 32. *)
Definition poly_terms : list Z := [0; 1; 2; 4; 5; 7; 8; 10; 11; 12; 16; 22; 23; 26].

(** One bit through the register. *)
Definition shift_bit (poly c : Z) : Z :=
  if Z.land c 1 =? 0 then Z.shiftr c 1 else Z.lxor poly (Z.shiftr c 1).

(** The tables as the first call of [make_crc_table] leaves them. *)
Definition make_crc_table : list (list Z) :=
  let poly := fold_left (λ poly p, Z.lor poly (Z.shiftl 1 (31 - p))) poly_terms 0 in
  let table0 := map (λ n, Nat.iter 8 (shift_bit poly) n) (seqZ 0 256) in
  let next := λ c, Z.lxor (nth (Z.to_nat (Z.land c 0xff)) table0 0) (Z.shiftr c 8) in
  let table := λ k, map (Nat.iter k next) table0 in
  [table0; table 1%nat; table 2%nat; table 3%nat;
   map REV table0; map REV (table 1%nat); map REV (table 2%nat); map REV (table 3%nat)].

(** [crc_table[k][i]] *)
Definition crc_entry {S} (k : nat) (i : Z) : C S Z :=
  match crc_table !! k with Some l => elem l i | None => undef end.

(** ** The checksum *)

(** The word of four bytes at [p]. *)
Definition load32 (little : bool) (p : Z) : C mem Z :=
  if little then load_le 4 p else
  b0 ← load8 p; b1 ← load8 (p + 1); b2 ← load8 (p + 2); b3 ← load8 (p + 3);
  mret (le_value [b3; b2; b1; b0]).

(** One byte, the register as it is. *)
Definition crc_byte_lit (c buf : Z) : C mem Z :=
  b ← load8 buf;
  t ← crc_entry 0 (Z.land (Z.lxor c b) 0xff);
  mret (u32 (Z.lxor t (Z.shiftr c 8))).

(** One byte, the register reversed. *)
Definition crc_byte_big (c buf : Z) : C mem Z :=
  b ← load8 buf;
  t ← crc_entry 4 (Z.lxor (Z.shiftr c 24) b);
  mret (u32 (Z.lxor t (u32 (Z.shiftl c 8)))).

Abbreviation reg := (Z * Z)%type.

(** The register and [buf4], which the step leaves behind the word. *)
Definition DOLIT4 (s : reg) : C mem reg :=
  let '(c, buf4) := s in
  w ← load32 true buf4;
  let buf4 := buf4 + 4 in
  let c := Z.lxor c w in
  t3 ← crc_entry 3 (Z.land c 0xff);
  t2 ← crc_entry 2 (Z.land (Z.shiftr c 8) 0xff);
  t1 ← crc_entry 1 (Z.land (Z.shiftr c 16) 0xff);
  t0 ← crc_entry 0 (Z.shiftr c 24);
  mret (u32 (Z.lxor (Z.lxor (Z.lxor t3 t2) t1) t0), buf4).

(** Here [buf4] is one word before the next. *)
Definition DOBIG4 (s : reg) : C mem reg :=
  let '(c, buf4) := s in
  let buf4 := buf4 + 4 in
  w ← load32 false buf4;
  let c := Z.lxor c w in
  t4 ← crc_entry 4 (Z.land c 0xff);
  t5 ← crc_entry 5 (Z.land (Z.shiftr c 8) 0xff);
  t6 ← crc_entry 6 (Z.land (Z.shiftr c 16) 0xff);
  t7 ← crc_entry 7 (Z.shiftr c 24);
  mret (u32 (Z.lxor (Z.lxor (Z.lxor t4 t5) t6) t7), buf4).

(** [DOLIT32], [DOBIG32]: the step eight times. *)
Definition eight {A} (step : A → C mem A) (s : A) : C mem A :=
  s ← step s; s ← step s; s ← step s; s ← step s; s ← step s; s ← step s; s ← step s; step s.

(** [while (len && ((ptrdiff_t)buf & 3))] *)
Definition crc_align (byte : Z → Z → C mem Z) (c buf len : Z) : C mem (Z * Z * Z) :=
  loop (S (Z.to_nat len)) (λ '(c, buf, len),
    if negb (len =? 0) && negb (Z.land buf 3 =? 0) then
      c ← byte c buf;
      Next (c, buf + 1, len - 1)
    else Break (c, buf, len)) (c, buf, len).

(** [while (len >= n)] *)
Definition crc_while {A} (n : Z) (step : A → C mem A) (s : A) (len : Z) : C mem (A * Z) :=
  loop (S (Z.to_nat len)) (λ '(s, len),
    if n <=? len then s ← step s; Next (s, len - n) else Break (s, len)) (s, len).

(** [if (len) do ... while (--len)] *)
Definition crc_rest (byte : Z → Z → C mem Z) (c buf len : Z) : C mem Z :=
  if len =? 0 then mret c else
  loop (Z.to_nat len) (λ '(c, buf, len),
    c ← byte c buf;
    let len := len - 1 in
    if len =? 0 then Break c else Next (c, buf + 1, len)) (c, buf, len).

Definition crc32_little (crc buf len : Z) : C mem Z :=
  let c := u32 crc in
  let c := u32 (Z.lnot c) in
  '(c, buf, len) ← crc_align crc_byte_lit c buf len;
  let buf4 := buf in
  '(s, len) ← crc_while 32 (eight DOLIT4) (c, buf4) len;
  '(s, len) ← crc_while 4 DOLIT4 s len;
  let '(c, buf) := s in
  c ← crc_rest crc_byte_lit c buf len;
  mret (u32 (Z.lnot c)).

Definition crc32_big (crc buf len : Z) : C mem Z :=
  let c := REV (u32 crc) in
  let c := u32 (Z.lnot c) in
  '(c, buf, len) ← crc_align crc_byte_big c buf len;
  let buf4 := buf - 4 in
  '(s, len) ← crc_while 32 (eight DOBIG4) (c, buf4) len;
  '(s, len) ← crc_while 4 DOBIG4 s len;
  let '(c, buf4) := s in
  let buf := buf4 + 4 in
  c ← crc_rest crc_byte_big c buf len;
  let c := u32 (Z.lnot c) in
  mret (REV c).

(** [DO1] of the bytewise variant: the register is an unsigned long. *)
Definition crc_DO1 (s : reg) : C mem reg :=
  let '(crc, buf) := s in
  b ← load8 buf;
  t ← crc_entry 0 (Z.land (Z.lxor (s32 crc) b) 0xff);
  mret (Z.lxor t (Z.shiftr crc 8), buf + 1).

(** The last bytes, one by one. *)
Definition crc_last (s : reg) (len : Z) : C mem reg :=
  if len =? 0 then mret s else
  loop (Z.to_nat len) (λ '(s, len),
    s ← crc_DO1 s;
    let len := len - 1 in
    if len =? 0 then Break s else Next (s, len)) (s, len).

(** [little] is the byte order of the machine. *)
Definition crc32 (BYFOUR little : bool) (crc buf len : Z) : C mem Z :=
  if buf =? NULL then mret 0 else
  if BYFOUR then (if little then crc32_little crc buf len else crc32_big crc buf len) else
  let crc := Z.lxor crc 0xffffffff in
  '(s, len) ← crc_while 8 (eight crc_DO1) (crc, buf) len;
  '(crc, _) ← crc_last s len;
  mret (Z.lxor crc 0xffffffff).

(** ** Joining checksums *)

Definition GF2_DIM : Z := 32.

(** [mat] is an array, [i] the place the pointer has moved to. *)
Definition gf2_matrix_times {S} (mat : list Z) (vec : Z) : C S Z :=
  loop 65 (λ '(sum, vec, i),
    if vec =? 0 then Break sum else
    sum ← (if Z.land vec 1 =? 0 then mret sum else v ← elem mat i; mret (Z.lxor sum v));
    Next (sum, Z.shiftr vec 1, i + 1)) (0, vec, 0).

(** The array [square] afterwards. *)
Definition gf2_matrix_square {S} (square mat : list Z) : C S (list Z) :=
  loop (Datatypes.S (Z.to_nat GF2_DIM)) (λ '(square, n),
    if n <? GF2_DIM then
      x ← elem mat n;
      v ← gf2_matrix_times mat x;
      Next (<[Z.to_nat n := v]> square, n + 1)
    else Break square) (square, 0).

(** The operator for one zero bit, in the array [odd]. *)
Definition one_zero_bit (odd : list Z) : list Z :=
  fst (fold_left (λ '(odd, row) n, (<[n := row]> odd, Z.shiftl row 1)) (seq 1 31) (<[O := 0xedb88320]> odd, 1)).

(** The body of the loop over the bits of [len2], two bits at a time. *)
Definition combine_round {S} (st : Z * Z * list Z * list Z) : C S ((Z * Z * list Z * list Z) + Z) :=
  let '(crc1, len2, even, odd) := st in
  even ← gf2_matrix_square even odd;
  crc1 ← (if Z.land len2 1 =? 0 then mret crc1 else gf2_matrix_times even crc1);
  let len2 := Z.shiftr len2 1 in
  if len2 =? 0 then Break crc1 else
  odd ← gf2_matrix_square odd even;
  crc1 ← (if Z.land len2 1 =? 0 then mret crc1 else gf2_matrix_times odd crc1);
  let len2 := Z.shiftr len2 1 in
  if len2 =? 0 then Break crc1 else Next (crc1, len2, even, odd).

(** [even] and [odd] are the local arrays, not initialised. *)
Definition crc32_combine {S} (fuel : nat) (even odd : list Z) (crc1 crc2 len2 : Z) : C S Z :=
  if len2 =? 0 then mret crc1 else
  let odd := one_zero_bit odd in
  even ← gf2_matrix_square even odd;
  odd ← gf2_matrix_square odd even;
  crc1 ← loop fuel combine_round (crc1, len2, even, odd);
  mret (Z.lxor crc1 crc2).

(** ** The shift register *)

(** The polynomial, the lowest power in the highest bit. *)
Definition POLY : Z := 0xedb88320.

(** [n] zero bits through the register. *)
Definition zeros (n : nat) (c : Z) : Z := Nat.iter n (shift_bit POLY) c.

(** A byte is added to the register and shifted through. *)
Definition crc_step (c b : Z) : Z := zeros 8 (Z.lxor c b).
Definition crc_steps (c : Z) (l : list Z) : Z := fold_left crc_step l c.

(** The checksum of a text. *)
Definition crc (l : list Z) : Z := Z.lxor (crc_steps 0xffffffff l) 0xffffffff.

Lemma shift_bit_odd p c : shift_bit p c = if Z.odd c then Z.lxor p (Z.shiftr c 1) else Z.shiftr c 1.
Proof.
  unfold shift_bit. change 1 with (Z.ones 1) at 1. rewrite Z.land_ones by lia. change (2 ^ 1) with 2. rewrite Zmod_odd.
  by destruct (Z.odd c).
Qed.

Lemma shift_bit_lxor p a b : shift_bit p (Z.lxor a b) = Z.lxor (shift_bit p a) (shift_bit p b).
Proof.
  rewrite !shift_bit_odd. rewrite <-!Z.bit0_odd, Z.lxor_spec, Z.shiftr_lxor.
  destruct (Z.testbit a 0), (Z.testbit b 0); cbn [xorb]; rewrite ?(Z.lxor_assoc p), ?Z.lxor_assoc; try done.
  - rewrite <-(Z.lxor_assoc (Z.shiftr a 1) p), (Z.lxor_comm (Z.shiftr a 1) p), Z.lxor_assoc.
    by rewrite <-(Z.lxor_assoc p p), Z.lxor_nilpotent, Z.lxor_0_l.
  - by rewrite <-(Z.lxor_assoc (Z.shiftr a 1) p), (Z.lxor_comm (Z.shiftr a 1) p), Z.lxor_assoc.
Qed.

Lemma zeros_S n c : zeros (S n) c = shift_bit POLY (zeros n c).
Proof. reflexivity. Qed.

Lemma zeros_lxor n a b : zeros n (Z.lxor a b) = Z.lxor (zeros n a) (zeros n b).
Proof. induction n as [|n IH]; [done|]. by rewrite !zeros_S, IH, shift_bit_lxor. Qed.

Lemma zeros_0 n : zeros n 0 = 0.
Proof. induction n as [|n IH]; [done|]. by rewrite zeros_S, IH. Qed.

Lemma zeros_add n k c : zeros (n + k) c = zeros n (zeros k c).
Proof. unfold zeros. by rewrite Nat.iter_add. Qed.

(** Zero bits in front fall out again. *)
Lemma zeros_shiftl n y : zeros n (Z.shiftl y (Z.of_nat n)) = y.
Proof.
  revert y. induction n as [|n IH]; intros y; [by rewrite Z.shiftl_0_r|].
  replace (S n) with (n + 1)%nat by lia. rewrite zeros_add. rewrite Nat2Z.inj_add, Z.shiftl_mul_pow2, Z.pow_add_r by lia.
  change (2 ^ Z.of_nat 1) with 2. rewrite Z.mul_assoc. change (zeros 1 ?x) with (shift_bit POLY x).
  rewrite shift_bit_odd, Z.odd_mul, andb_false_r, Z.shiftr_div_pow2 by lia. change (2 ^ 1) with 2. rewrite Z.div_mul by lia.
  rewrite <-Z.shiftl_mul_pow2 by lia. apply IH.
Qed.

Lemma zeros_shiftl_more n k y : zeros (n + k) (Z.shiftl y (Z.of_nat k)) = zeros n y.
Proof. by rewrite zeros_add, zeros_shiftl. Qed.

(** *** Words *)

Lemma bits_bound n x : 0 ≤ n → (∀ i, n ≤ i → Z.testbit x i = false) → 0 ≤ x < 2 ^ n.
Proof.
  intros Hn Hx. assert (x = x mod 2 ^ n) as ->; [|apply Z.mod_pos_bound; lia]. apply Z.bits_inj'. intros i Hi.
  destruct (decide (i < n)) as [H|H]; [by rewrite Z.mod_pow2_bits_low by lia|].
  rewrite Z.mod_pow2_bits_high by lia. apply Hx. lia.
Qed.

Lemma bound_bits n x i : 0 ≤ x < 2 ^ n → n ≤ i → 0 ≤ n → Z.testbit x i = false.
Proof. intros Hx Hi Hn. rewrite <-(Z.mod_small x (2 ^ n)) by done. apply Z.mod_pow2_bits_high. lia. Qed.

Lemma lxor_bound n a b : 0 ≤ n → 0 ≤ a < 2 ^ n → 0 ≤ b < 2 ^ n → 0 ≤ Z.lxor a b < 2 ^ n.
Proof. intros Hn Ha Hb. apply bits_bound; [done|]. intros i Hi. by rewrite Z.lxor_spec, (bound_bits n a), (bound_bits n b). Qed.

Lemma shift_bit_bound c : 0 ≤ c < 2 ^ 32 → 0 ≤ shift_bit POLY c < 2 ^ 32.
Proof.
  intros Hc. rewrite shift_bit_odd. assert (0 ≤ Z.shiftr c 1 < 2 ^ 32) as Hs.
  { rewrite Z.shiftr_div_pow2 by lia. change (2 ^ 1) with 2. split; [apply Z.div_pos; lia|]. apply Z.div_lt_upper_bound; lia. }
  destruct (Z.odd c); [|done]. apply lxor_bound; [lia|by vm_compute|done].
Qed.

Lemma zeros_bound n c : 0 ≤ c < 2 ^ 32 → 0 ≤ zeros n c < 2 ^ 32.
Proof. intros Hc. induction n as [|n IH]; [done|]. rewrite zeros_S. by apply shift_bit_bound. Qed.

Lemma u32_lnot c : 0 ≤ c < 2 ^ 32 → u32 (Z.lnot c) = Z.lxor c 0xffffffff.
Proof.
  intros Hc. unfold wrap. rewrite <-Z.land_ones by lia. change 0xffffffff with (Z.ones 32). apply Z.bits_inj'. intros i Hi.
  rewrite Z.land_spec, Z.lnot_spec, Z.lxor_spec, Z.testbit_ones_nonneg by lia.
  destruct (Z.ltb_spec i 32) as [H|H]; [by destruct (Z.testbit c i)|]. by rewrite (bound_bits 32 c), andb_false_r by lia.
Qed.

(** The low byte and the rest. *)
Lemma split_byte c : c = Z.lxor (Z.land c 0xff) (Z.shiftl (Z.shiftr c 8) 8).
Proof.
  change 0xff with (Z.ones 8). apply Z.bits_inj'. intros i Hi. rewrite Z.lxor_spec, Z.land_spec, Z.testbit_ones_nonneg, Z.shiftl_spec by lia.
  destruct (Z.ltb_spec i 8) as [H|H].
  - rewrite (Z.testbit_neg_r _ (i - 8)) by lia. by rewrite andb_true_r, xorb_false_r.
  - rewrite Z.shiftr_spec, andb_false_r, xorb_false_l by lia. f_equal. lia.
Qed.

Lemma byte_lxor_add b v : is_byte b → b + 256 * v = Z.lxor b (Z.shiftl v 8).
Proof.
  intros Hb. unfold is_byte in Hb. rewrite Z.shiftl_mul_pow2 by lia. change (2 ^ 8) with 256.
  rewrite (Z.mul_comm 256). rewrite <-Z.add_nocarry_lxor; [done|]. change 256 with (2 ^ 8) in *.
  apply Z.bits_inj'. intros i Hi. rewrite Z.land_spec, Z.bits_0. destruct (decide (i < 8)) as [H|H].
  - rewrite Z.mul_pow2_bits_low by lia. by rewrite andb_false_r.
  - by rewrite (bound_bits 8 b) by lia.
Qed.

(** The bytes of a text are one long word, low byte first, that is added and then
    shifted through. *)
Lemma crc_steps_zeros l c : Forall is_byte l → crc_steps c l = zeros (8 * length l) (Z.lxor c (le_value l)).
Proof.
  intros Hl. revert c. induction Hl as [|b l Hb Hl IH]; intros c; [by rewrite Z.lxor_0_r|].
  change (crc_steps c (b :: l)) with (crc_steps (crc_step c b) l). rewrite IH. unfold crc_step.
  rewrite <-(zeros_shiftl 8 (le_value l)) at 1. rewrite <-zeros_lxor, <-zeros_add.
  cbn [length le_value]. rewrite byte_lxor_add by done. rewrite Z.lxor_assoc. f_equal. lia.
Qed.

Lemma crc_steps_lxor l c d : Forall is_byte l → crc_steps (Z.lxor c d) l = Z.lxor (crc_steps c l) (zeros (8 * length l) d).
Proof.
  intros Hl. rewrite !crc_steps_zeros by done. rewrite <-zeros_lxor. f_equal. rewrite !Z.lxor_assoc. f_equal. apply Z.lxor_comm.
Qed.

Lemma crc_steps_app c l l' : crc_steps c (l ++ l') = crc_steps (crc_steps c l) l'.
Proof. apply fold_left_app. Qed.

Lemma byte_32 b : is_byte b → 0 ≤ b < 2 ^ 32.
Proof. unfold is_byte. lia. Qed.

Lemma crc_steps_bound l c : Forall is_byte l → 0 ≤ c < 2 ^ 32 → 0 ≤ crc_steps c l < 2 ^ 32.
Proof.
  intros Hl. revert c. induction Hl as [|b l Hb Hl IH]; intros c Hc; [done|]. apply IH, zeros_bound, lxor_bound; [lia|done|].
  by apply byte_32.
Qed.

(** *** The tables *)

(** The tables of crc32.h are those [make_crc_table] generates. *)
Lemma crc_tables_made : crc_table = make_crc_table.
Proof. vm_compute. reflexivity. Qed.

(** Entry [i] of table [k] is [i] shifted through by [k + 1] bytes of zeros; the second
    four tables are the first four reversed. *)
Definition entry_ok (k : nat) (i : Z) : bool :=
  bool_decide (crc_table !! k ≫= (λ l : list Z, l !! Z.to_nat i) = Some (zeros (8 * S k) i)) &&
  bool_decide (crc_table !! (4 + k)%nat ≫= (λ l : list Z, l !! Z.to_nat i) = Some (REV (zeros (8 * S k) i))).

Lemma entries_ok : forallb (λ k, forallb (entry_ok k) (seqZ 0 256)) (seq 0 4) = true.
Proof. vm_compute. reflexivity. Qed.

Lemma run_crc_entry {S} k i (s : S) : (k < 4)%nat → is_byte i →
  crc_entry k i s = Ret (zeros (8 * Datatypes.S k) i) s ∧ crc_entry (4 + k) i s = Ret (REV (zeros (8 * Datatypes.S k) i)) s.
Proof.
  intros Hk Hi. pose proof entries_ok as H. rewrite forallb_forall in H. specialize (H k). rewrite in_seq in H.
  specialize (H ltac:(lia)). cbv beta in H. rewrite forallb_forall in H. specialize (H i). unfold entry_ok in H. unfold is_byte in Hi.
  rewrite andb_true_iff, !bool_decide_eq_true in H. destruct H as [H1 H2]; [apply list_elem_of_In, elem_of_seqZ; lia|].
  unfold crc_entry, elem. rewrite (proj2 (Z.ltb_ge i 0)) by lia.
  destruct (crc_table !! k) as [l|]; [|done]. destruct (crc_table !! (4 + k)%nat) as [l'|]; [|done].
  cbn in H1, H2. change (mbind (M:=option)) with (@option_bind) in *. cbn [option_bind] in *. by rewrite H1, H2.
Qed.

Lemma run_crc_entry_big {S} k i (s : S) : (4 ≤ k < 8)%nat → is_byte i →
  crc_entry k i s = Ret (REV (zeros (8 * (k - 3)) i)) s.
Proof.
  intros Hk Hi. destruct (run_crc_entry (k - 4) i s ltac:(lia) Hi) as [_ H]. replace (4 + (k - 4))%nat with k in H by lia.
  by replace (Datatypes.S (k - 4)) with (k - 3)%nat in H by lia.
Qed.

Lemma land_byte x : is_byte (Z.land x 0xff).
Proof. change 0xff with (Z.ones 8). rewrite Z.land_ones by lia. apply (u8_is_byte x). Qed.

Lemma shiftr_byte x : 0 ≤ x < 2 ^ 32 → is_byte (Z.shiftr x 24).
Proof.
  intros Hx. rewrite Z.shiftr_div_pow2 by lia. unfold is_byte. split; [apply Z.div_pos; lia|]. apply Z.div_lt_upper_bound; lia.
Qed.

Lemma byte_shiftr b : is_byte b → Z.shiftr b 8 = 0.
Proof. intros Hb. rewrite Z.shiftr_div_pow2 by lia. by apply Z.div_small. Qed.

(** A byte through the register, with the first table. *)
Lemma crc_step_table c b : is_byte b → crc_step c b = Z.lxor (zeros 8 (Z.land (Z.lxor c b) 0xff)) (Z.shiftr c 8).
Proof.
  intros Hb. unfold crc_step. rewrite (split_byte (Z.lxor c b)) at 1. rewrite zeros_lxor, (zeros_shiftl 8). f_equal.
  by rewrite Z.shiftr_lxor, (byte_shiftr b), Z.lxor_0_r.
Qed.

(** Four bytes through the register, with four tables. *)
Lemma zeros_tables x : 0 ≤ x < 2 ^ 32 →
  Z.lxor (Z.lxor (Z.lxor (zeros 32 (Z.land x 0xff)) (zeros 24 (Z.land (Z.shiftr x 8) 0xff)))
    (zeros 16 (Z.land (Z.shiftr x 16) 0xff))) (zeros 8 (Z.shiftr x 24)) = zeros 32 x.
Proof.
  intros Hx. rewrite (split_byte x) at 5. rewrite zeros_lxor, (zeros_shiftl_more 24 8), !Z.lxor_assoc. f_equal.
  rewrite (split_byte (Z.shiftr x 8)) at 2. rewrite zeros_lxor, (zeros_shiftl_more 16 8), Z.shiftr_shiftr by lia. f_equal.
  rewrite (split_byte (Z.shiftr x (8 + 8))) at 1. rewrite zeros_lxor, (zeros_shiftl_more 8 8), Z.shiftr_shiftr by lia. done.
Qed.

(** *** The reversed register *)

Lemma land_lxor a b c : Z.land (Z.lxor a b) c = Z.lxor (Z.land a c) (Z.land b c).
Proof.
  apply Z.bits_inj'. intros i _. rewrite !Z.lxor_spec, !Z.land_spec, Z.lxor_spec.
  by destruct (Z.testbit a i), (Z.testbit b i), (Z.testbit c i).
Qed.

Lemma lxor_rev a b c d : Z.lxor (Z.lxor (Z.lxor a b) c) d = Z.lxor (Z.lxor (Z.lxor d c) b) a.
Proof.
  apply Z.bits_inj'. intros i _. rewrite !Z.lxor_spec.
  by destruct (Z.testbit a i), (Z.testbit b i), (Z.testbit c i), (Z.testbit d i).
Qed.

(** The four bytes of a word. *)
Definition bytes4 (x : Z) : list Z :=
  [Z.land x 0xff; Z.land (Z.shiftr x 8) 0xff; Z.land (Z.shiftr x 16) 0xff; Z.shiftr x 24].

Lemma bytes4_lxor x y : bytes4 (Z.lxor x y) = zip_with Z.lxor (bytes4 x) (bytes4 y).
Proof. unfold bytes4. cbn [zip_with]. by rewrite !Z.shiftr_lxor, !land_lxor. Qed.

Lemma bytes4_is_byte x : 0 ≤ x < 2 ^ 32 → Forall is_byte (bytes4 x).
Proof. intros Hx. unfold bytes4. repeat constructor; try apply land_byte; by apply shiftr_byte. Qed.

Lemma bytes4_div x : bytes4 x = [x mod 256; x / 256 mod 256; x / 65536 mod 256; x / 16777216].
Proof. unfold bytes4. change 0xff with (Z.ones 8). by rewrite !Z.land_ones, !Z.shiftr_div_pow2 by lia. Qed.

Lemma le_value_bytes4 x : le_value (bytes4 x) = x.
Proof.
  rewrite bytes4_div. cbn [le_value]. change 16777216 with (256 * (256 * 256)). change 65536 with (256 * 256).
  rewrite <-!Z.div_div by lia.
  pose proof (Z.div_mod x 256 ltac:(lia)). pose proof (Z.div_mod (x / 256) 256 ltac:(lia)). pose proof (Z.div_mod (x / 256 / 256) 256 ltac:(lia)). lia.
Qed.

Lemma bytes4_le_value b0 b1 b2 b3 :
  is_byte b0 → is_byte b1 → is_byte b2 → bytes4 (le_value [b0; b1; b2; b3]) = [b0; b1; b2; b3].
Proof.
  unfold is_byte. intros H0 H1 H2. rewrite bytes4_div. cbn [le_value]. rewrite Z.mul_0_r, Z.add_0_r.
  repeat f_equal; Z.div_mod_to_equations; lia.
Qed.

Lemma REV_bytes x : REV x = le_value (rev (bytes4 x)).
Proof.
  assert (∀ y, Z.land y 0xff00 = 256 * (y / 256 mod 256)) as Hff.
  { intros y. change (256 * (y / 256 mod 256)) with (256 * (y / 2 ^ 8 mod 2 ^ 8)). rewrite <-Z.land_ones, <-Z.shiftr_div_pow2 by lia.
    rewrite Z.mul_comm. change 256 with (2 ^ 8). rewrite <-Z.shiftl_mul_pow2, Z.shiftl_land by lia. change (Z.shiftl (Z.ones 8) 8) with 0xff00.
    apply Z.bits_inj'. intros i Hi. rewrite !Z.land_spec. change 0xff00 with (Z.shiftl (Z.ones 8) 8).
    rewrite !Z.shiftl_spec by lia. destruct (decide (i < 8)) as [H|H].
    - rewrite (Z.testbit_neg_r _ (i - 8)) by lia. by rewrite !andb_false_r.
    - rewrite Z.shiftr_spec by lia. do 2 f_equal. lia. }
  rewrite bytes4_div. unfold REV. rewrite !Hff, !Z.shiftr_div_pow2, !Z.shiftl_mul_pow2 by lia. change 0xff with (Z.ones 8).
  rewrite Z.land_ones by lia. change (2 ^ 8) with 256. change (2 ^ 24) with 16777216. rewrite Z.div_div by lia. change (256 * 256) with 65536.
  cbn [rev app le_value]. lia.
Qed.

Lemma REV_rev b0 b1 b2 b3 : is_byte b0 → is_byte b1 → is_byte b2 →
  REV (le_value [b0; b1; b2; b3]) = le_value [b3; b2; b1; b0].
Proof. intros H0 H1 H2. rewrite REV_bytes, bytes4_le_value by done. done. Qed.

Lemma le_value_lxor l l' : Forall is_byte l → Forall is_byte l' → length l = length l' →
  le_value (zip_with Z.lxor l l') = Z.lxor (le_value l) (le_value l').
Proof.
  intros Hl. revert l'. induction Hl as [|a l Ha Hl IH]; intros [|b l'] Hl' Hn; [done|done|done|].
  apply Forall_cons in Hl' as [Hb Hl']. cbn [zip_with le_value]. rewrite IH by (done || (simpl in Hn; lia)).
  assert (is_byte (Z.lxor a b)) as Hab by (apply (lxor_bound 8); [lia|done..]).
  rewrite !byte_lxor_add by done. rewrite Z.shiftl_lxor, !Z.lxor_assoc. f_equal.
  rewrite <-!Z.lxor_assoc, (Z.lxor_comm b). done.
Qed.

Lemma REV_lxor x y : 0 ≤ x < 2 ^ 32 → 0 ≤ y < 2 ^ 32 → REV (Z.lxor x y) = Z.lxor (REV x) (REV y).
Proof.
  intros Hx Hy. rewrite !REV_bytes, bytes4_lxor. rewrite <-le_value_lxor; [|by apply Forall_rev, bytes4_is_byte..|done]. done.
Qed.

Lemma bytes4_REV x : 0 ≤ x < 2 ^ 32 → bytes4 (REV x) = rev (bytes4 x).
Proof.
  intros Hx. rewrite REV_bytes. pose proof (bytes4_is_byte x Hx) as Hb. unfold bytes4 in *. cbn [rev app].
  rewrite !Forall_cons in Hb. apply bytes4_le_value; tauto.
Qed.

Lemma le_value_bound l : Forall is_byte l → 0 ≤ le_value l < 256 ^ Z.of_nat (length l).
Proof.
  induction 1 as [|b l Hb Hl IH]; [done|]. cbn [length le_value]. rewrite Nat2Z.inj_succ, Z.pow_succ_r by lia. unfold is_byte in Hb. lia.
Qed.

Lemma REV_bound x : 0 ≤ x < 2 ^ 32 → 0 ≤ REV x < 2 ^ 32.
Proof. intros Hx. rewrite REV_bytes. apply (le_value_bound (rev (bytes4 x))). by apply Forall_rev, bytes4_is_byte. Qed.

Lemma REV_REV x : 0 ≤ x < 2 ^ 32 → REV (REV x) = x.
Proof. intros Hx. rewrite REV_bytes, bytes4_REV, rev_involutive by done. apply le_value_bytes4. Qed.

(** Shifting the reversed register. *)
Lemma REV_shiftl x : 0 ≤ x < 2 ^ 32 → u32 (Z.shiftl (REV x) 8) = REV (Z.shiftr x 8).
Proof.
  intros Hx. rewrite !REV_bytes. pose proof (bytes4_is_byte x Hx) as Hb. rewrite !bytes4_div in *.
  rewrite Z.shiftr_div_pow2, !Z.div_div by lia. change (2 ^ 8 * 256) with 65536. change (2 ^ 8 * 65536) with 16777216.
  change (2 ^ 8 * 16777216) with (2 ^ 32). rewrite (Z.div_small x (2 ^ 32)) by done. change (2 ^ 8) with 256.
  rewrite !Forall_cons in Hb. destruct Hb as (H0 & H1 & H2 & H3 & _). rewrite (Z.mod_small (x / 16777216)) by exact H3.
  revert H0 H1 H2 H3. generalize (x mod 256) (x / 256 mod 256) (x / 65536 mod 256) (x / 16777216). intros b0 b1 b2 b3.
  unfold is_byte. intros H0 H1 H2 H3. cbn [rev app le_value]. rewrite Z.shiftl_mul_pow2 by lia. unfold wrap.
  change (2 ^ 32) with 4294967296. change (2 ^ 8) with 256. Z.div_mod_to_equations. lia.
Qed.

(** ** Running the loops *)

Section loops.
Context (m : mem).
Implicit Types (l : list Z) (c p : Z).

Definition is_reg c : Prop := 0 ≤ c < 2 ^ 32.

(** [step] takes the register [c] over [n] bytes; [st c p] is its state at [p]. *)
Definition steps {A} (n : nat) (st : Z → Z → A) (step : A → C mem A) : Prop :=
  ∀ c p l, length l = n → bytes_at m p l → is_reg c →
  step (st c p) m = Ret (st (crc_steps c l) (p + Z.of_nat n)) m.

Lemma bytes_at_split p l (n : nat) : (n ≤ length l)%nat → bytes_at m p l →
  length (take n l) = n ∧ length (drop n l) = (length l - n)%nat ∧ bytes_at m p (take n l) ∧ bytes_at m (p + Z.of_nat n) (drop n l).
Proof.
  intros Hn Hm. rewrite <-(take_drop n l) in Hm. apply bytes_at_app in Hm as [H1 H2].
  rewrite length_take_le in H2 by done. rewrite length_take_le, length_drop by done. done.
Qed.

Lemma crc_steps_reg p l c : bytes_at m p l → is_reg c → is_reg (crc_steps c l).
Proof. intros Hm Hc. apply crc_steps_bound; [|done]. by eapply bytes_at_is_byte. Qed.

(** A step, and the rest of the bytes. *)
Lemma run_step {A} n (st : Z → Z → A) step c p l :
  steps n st step → (n ≤ length l)%nat → bytes_at m p l → is_reg c →
  step (st c p) m = Ret (st (crc_steps c (take n l)) (p + Z.of_nat n)) m ∧
  bytes_at m (p + Z.of_nat n) (drop n l) ∧ is_reg (crc_steps c (take n l)) ∧ length (drop n l) = (length l - n)%nat.
Proof.
  intros Hs Hn Hm Hc. destruct (bytes_at_split p l n Hn Hm) as (H1 & H2 & H3 & H4).
  rewrite (Hs c p (take n l)) by done. split_and!; [done|done| |done]. by eapply crc_steps_reg.
Qed.

Lemma eight_steps {A} n (st : Z → Z → A) step : steps n st step → steps (8 * n) st (eight step).
Proof.
  intros Hs c p l Hl Hm Hc. unfold eight.
  assert (∀ k (f : A → C mem A) c p l, length l = (S k * n)%nat → bytes_at m p l → is_reg c →
    (∀ c p l, length l = (k * n)%nat → bytes_at m p l → is_reg c → f (st c p) m = Ret (st (crc_steps c l) (p + Z.of_nat (k * n))) m) →
    (step (st c p) ≫= f) m = Ret (st (crc_steps c l) (p + Z.of_nat (S k * n))) m) as Hone.
  { clear c p l Hl Hm Hc. intros k f c p l Hl Hm Hc Hf.
    destruct (run_step n st step c p l Hs ltac:(lia) Hm Hc) as (E & H1 & H2 & H3). rewrite run_bind, E.
    rewrite (Hf _ _ (drop n l)); [|lia|done|done]. rewrite <-crc_steps_app, take_drop. do 2 f_equal. lia. }
  apply (Hone 7%nat); [lia|done|done|]. clear c p l Hl Hm Hc. intros c p l Hl Hm Hc.
  apply (Hone 6%nat); [lia|done|done|]. clear c p l Hl Hm Hc. intros c p l Hl Hm Hc.
  apply (Hone 5%nat); [lia|done|done|]. clear c p l Hl Hm Hc. intros c p l Hl Hm Hc.
  apply (Hone 4%nat); [lia|done|done|]. clear c p l Hl Hm Hc. intros c p l Hl Hm Hc.
  apply (Hone 3%nat); [lia|done|done|]. clear c p l Hl Hm Hc. intros c p l Hl Hm Hc.
  apply (Hone 2%nat); [lia|done|done|]. clear c p l Hl Hm Hc. intros c p l Hl Hm Hc.
  apply (Hone 1%nat); [lia|done|done|]. clear c p l Hl Hm Hc. intros c p l Hl Hm Hc.
  rewrite Nat.mul_1_l in *. by apply Hs.
Qed.

Lemma run_crc_while {A} n (st : Z → Z → A) step c p l :
  steps n st step → (0 < n)%nat → bytes_at m p l → is_reg c →
  ∃ l1 l2, l = l1 ++ l2 ∧ (length l2 < n)%nat ∧
  crc_while (Z.of_nat n) step (st c p) (Z.of_nat (length l)) m =
  Ret (st (crc_steps c l1) (p + Z.of_nat (length l1)), Z.of_nat (length l2)) m.
Proof.
  intros Hs Hn. unfold crc_while. rewrite Nat2Z.id. assert ((length l < S (length l))%nat) as Hf by lia.
  revert Hf. generalize (S (length l)) as fuel. intros fuel. revert c p l.
  induction fuel as [|fuel IH]; intros c p l Hf Hm Hc; [lia|]. rewrite run_loop. cbn beta iota.
  destruct (Z.leb_spec (Z.of_nat n) (Z.of_nat (length l))) as [Hl|Hl].
  - destruct (run_step n st step c p l Hs ltac:(lia) Hm Hc) as (E & H1 & H2 & H3).
    rewrite run_bind, E, run_ret. cbn beta iota.
    destruct (IH (crc_steps c (take n l)) (p + Z.of_nat n) (drop n l)) as (l1 & l2 & El & Hl2 & Hrun); [lia|done|done|].
    exists (take n l ++ l1), l2. rewrite <-app_assoc, <-El, take_drop. split_and!; [done|done|].
    replace (Z.of_nat (length l) - Z.of_nat n) with (Z.of_nat (length (drop n l))) by lia. rewrite Hrun.
    rewrite <-crc_steps_app, length_app, length_take_le by lia. do 3 f_equal. lia.
  - exists [], l. split_and!; [done|lia|]. rewrite run_ret. cbn [length crc_steps fold_left]. by rewrite Z.add_0_r.
Qed.

(** [byte] takes the register over one byte. *)
Definition bytewise (enc : Z → Z) (byte : Z → Z → C mem Z) : Prop :=
  ∀ c p b, is_byte b → m !! p = Some b → is_reg c → byte (enc c) p m = Ret (enc (crc_step c b)) m.

Lemma run_byte enc byte c p b l :
  bytewise enc byte → bytes_at m p (b :: l) → is_reg c →
  byte (enc c) p m = Ret (enc (crc_step c b)) m ∧ bytes_at m (p + 1) l ∧ is_reg (crc_step c b).
Proof.
  intros Hb Hm Hc. pose proof Hm as Hm'. apply bytes_at_cons in Hm' as (H1 & H2 & H3). rewrite (Hb c p b) by done.
  split_and!; [done|done|]. apply zeros_bound, lxor_bound; [lia|done|]. by apply byte_32.
Qed.

Lemma run_crc_align enc byte c p l :
  bytewise enc byte → bytes_at m p l → is_reg c →
  ∃ l1 l2, l = l1 ++ l2 ∧
  crc_align byte (enc c) p (Z.of_nat (length l)) m =
  Ret (enc (crc_steps c l1), p + Z.of_nat (length l1), Z.of_nat (length l2)) m.
Proof.
  intros Hb. unfold crc_align. rewrite Nat2Z.id. revert c p. induction l as [|b l IH]; intros c p Hm Hc.
  { exists [], []. rewrite run_loop. split; [done|]. cbn. by rewrite Z.add_0_r. }
  rewrite run_loop. cbn beta iota. destruct (negb _ && negb (Z.land p 3 =? 0)).
  - destruct (run_byte enc byte c p b l Hb Hm Hc) as (E & H1 & H2).
    rewrite run_bind, E, run_ret. cbn beta iota. destruct (IH (crc_step c b) (p + 1) H1 H2) as (l1 & l2 & -> & Hrun).
    exists (b :: l1), l2. split; [done|]. cbn [length].
    replace (Z.of_nat (S (length (l1 ++ l2))) - 1) with (Z.of_nat (length (l1 ++ l2))) by lia. rewrite Hrun. do 3 f_equal. lia.
  - exists [], (b :: l). split; [done|]. rewrite run_ret. cbn [length crc_steps fold_left]. by rewrite Z.add_0_r.
Qed.

Lemma run_crc_rest enc byte c p l :
  bytewise enc byte → bytes_at m p l → is_reg c →
  crc_rest byte (enc c) p (Z.of_nat (length l)) m = Ret (enc (crc_steps c l)) m.
Proof.
  intros Hb Hm Hc. unfold crc_rest. destruct l as [|b l]; [done|]. rewrite Nat2Z.id. cbn [length].
  rewrite (proj2 (Z.eqb_neq (Z.of_nat (S (length l))) 0)) by lia. revert c p b Hm Hc. induction l as [|b' l IH]; intros c p b Hm Hc.
  - rewrite run_loop. cbn beta iota. destruct (run_byte enc byte c p b [] Hb Hm Hc) as (E & _). by rewrite run_bind, E.
  - rewrite run_loop. cbn beta iota. destruct (run_byte enc byte c p b (b' :: l) Hb Hm Hc) as (E & H1 & H2).
    rewrite run_bind, E. cbv zeta. cbn [length].
    rewrite (proj2 (Z.eqb_neq (Z.of_nat (S (S (length l))) - 1) 0)) by lia. rewrite run_ret. cbn beta iota.
    replace (Z.of_nat (S (S (length l))) - 1) with (Z.of_nat (S (length l))) by lia. exact (IH _ _ _ H1 H2).
Qed.
End loops.

(** ** The variants *)

Section variants.
Context (m : mem).

Lemma u32_reg c : is_reg c → u32 c = c.
Proof. intros Hc. by apply wrap_small. Qed.

Lemma crc_step_reg c b : is_byte b → is_reg c → is_reg (crc_step c b).
Proof. intros Hb Hc. apply zeros_bound, lxor_bound; [lia|done|]. by apply byte_32. Qed.

Lemma byte_lit_bytewise : bytewise m id crc_byte_lit.
Proof.
  intros c p b Hb Hm Hc. unfold id, crc_byte_lit. rewrite run_bind, (run_load8 _ _ b) by done. cbn beta iota.
  destruct (run_crc_entry 0 (Z.land (Z.lxor c b) 0xff) m ltac:(lia) (land_byte _)) as [E _].
  rewrite run_bind, E. cbn beta iota. rewrite run_ret. change (8 * 1)%nat with 8%nat. rewrite <-crc_step_table by done.
  by rewrite u32_reg by (by apply crc_step_reg).
Qed.

Lemma byte_big_bytewise : bytewise m REV crc_byte_big.
Proof.
  intros c p b Hb Hm Hc. unfold crc_byte_big. rewrite run_bind, (run_load8 _ _ b) by done. cbn beta iota.
  pose proof (bytes4_REV c Hc) as Hrev. unfold bytes4 in Hrev. injection Hrev as _ _ _ ->.
  assert (Z.lxor (Z.land c 0xff) b = Z.land (Z.lxor c b) 0xff) as ->.
  { rewrite land_lxor. f_equal. symmetry. change 0xff with (Z.ones 8). rewrite Z.land_ones by lia. by apply u8_byte. }
  rewrite run_bind, (run_crc_entry_big 4) by (lia || apply land_byte). cbn beta iota. rewrite run_ret. change (8 * (4 - 3))%nat with 8%nat.
  assert (is_reg (zeros 8 (Z.land (Z.lxor c b) 0xff))) as H1 by apply zeros_bound, byte_32, land_byte.
  assert (is_reg (Z.shiftr c 8)) as H2.
  { rewrite Z.shiftr_div_pow2 by lia. split; [apply Z.div_pos; [apply Hc|lia]|]. apply Z.div_lt_upper_bound; [lia|]. destruct Hc. lia. }
  rewrite REV_shiftl, <-REV_lxor, <-crc_step_table by done.
  rewrite u32_reg; [done|]. by apply REV_bound, crc_step_reg.
Qed.

Lemma DO1_steps : steps m 1 (λ c p, (c, p)) crc_DO1.
Proof.
  intros c p l Hl Hm Hc. destruct l as [|b [|? ?]]; try done. apply bytes_at_cons in Hm as (Hb & Hp & _).
  unfold crc_DO1. rewrite run_bind, (run_load8 _ _ b) by done. cbn beta iota.
  assert (Z.land (Z.lxor (s32 c) b) 0xff = Z.land (Z.lxor c b) 0xff) as ->.
  { rewrite !land_lxor. f_equal. change 0xff with (Z.ones 8). rewrite !Z.land_ones by lia. unfold sext.
    change (2 ^ (32 - 1)) with 2147483648. change (2 ^ 32) with 4294967296. change (2 ^ 8) with 256. Z.div_mod_to_equations. lia. }
  destruct (run_crc_entry 0 (Z.land (Z.lxor c b) 0xff) m ltac:(lia) (land_byte _)) as [E _].
  rewrite run_bind, E. cbn beta iota. rewrite run_ret. change (8 * 1)%nat with 8%nat. by rewrite <-crc_step_table.
Qed.

(** The word a step of four bytes reads. *)
Lemma four_bytes c l : length l = 4%nat → Forall is_byte l → is_reg c →
  crc_steps c l = zeros 32 (Z.lxor c (le_value l)) ∧ is_reg (Z.lxor c (le_value l)) ∧ is_reg (le_value l).
Proof.
  intros Hl Hb Hc. assert (is_reg (le_value l)) as Hr by (pose proof (le_value_bound l Hb) as H; by rewrite Hl in H).
  split_and!; [|by apply lxor_bound|done]. by rewrite crc_steps_zeros, Hl by done.
Qed.

Lemma DOLIT4_steps : steps m 4 (λ c p, (c, p)) DOLIT4.
Proof.
  intros c p l Hl Hm Hc. unfold DOLIT4, load32. pose proof (bytes_at_is_byte _ _ _ Hm) as Hb.
  rewrite run_bind. rewrite <-Hl at 1. rewrite run_load_le by done. cbn beta iota zeta.
  destruct (four_bytes c l Hl Hb Hc) as (-> & Hx & _). set (x := Z.lxor c (le_value l)) in *.
  rewrite run_bind, (proj1 (run_crc_entry 3 (Z.land x 0xff) m ltac:(lia) (land_byte _))). cbn beta iota.
  rewrite run_bind, (proj1 (run_crc_entry 2 (Z.land (Z.shiftr x 8) 0xff) m ltac:(lia) (land_byte _))). cbn beta iota.
  rewrite run_bind, (proj1 (run_crc_entry 1 (Z.land (Z.shiftr x 16) 0xff) m ltac:(lia) (land_byte _))). cbn beta iota.
  rewrite run_bind, (proj1 (run_crc_entry 0 (Z.shiftr x 24) m ltac:(lia) (shiftr_byte _ Hx))). cbn beta iota. rewrite run_ret.
  change (8 * 4)%nat with 32%nat. change (8 * 3)%nat with 24%nat. change (8 * 2)%nat with 16%nat. change (8 * 1)%nat with 8%nat.
  rewrite zeros_tables by done. rewrite u32_reg; [done|]. by apply zeros_bound.
Qed.

Lemma DOBIG4_steps : steps m 4 (λ c p, (REV c, p - 4)) DOBIG4.
Proof.
  intros c p l Hl Hm Hc. unfold DOBIG4. pose proof (bytes_at_is_byte _ _ _ Hm) as Hb. cbv zeta.
  replace (p - 4 + 4) with p by lia. destruct (four_bytes c l Hl Hb Hc) as (-> & Hx & Hv).
  assert (load32 false p m = Ret (REV (le_value l)) m) as Hload.
  { destruct l as [|b0 [|b1 [|b2 [|b3 [|? ?]]]]]; try done. rewrite !Forall_cons in Hb. rewrite REV_rev by tauto.
    rewrite !bytes_at_cons in Hm. destruct Hm as (_ & H0 & _ & H1 & _ & H2 & _ & H3 & _). unfold load32.
    rewrite run_bind, (run_load8 _ _ b0) by done. cbn beta iota. rewrite run_bind, (run_load8 _ _ b1) by done. cbn beta iota.
    rewrite run_bind, (run_load8 _ _ b2) by (by replace (p + 2) with (p + 1 + 1) by lia). cbn beta iota.
    rewrite run_bind, (run_load8 _ _ b3) by (by replace (p + 3) with (p + 1 + 1 + 1) by lia). done. }
  rewrite run_bind, Hload. cbn beta iota. rewrite <-REV_lxor by done. set (x := Z.lxor c (le_value l)) in *.
  pose proof (bytes4_REV x Hx) as Hrev. unfold bytes4 in Hrev. cbn [rev app] in Hrev. injection Hrev as E0 E1 E2 E3. rewrite E0, E1, E2, E3.
  rewrite run_bind, (run_crc_entry_big 4 (Z.shiftr x 24) m ltac:(lia) (shiftr_byte _ Hx)). cbn beta iota.
  rewrite run_bind, (run_crc_entry_big 5 (Z.land (Z.shiftr x 16) 0xff) m ltac:(lia) (land_byte _)). cbn beta iota.
  rewrite run_bind, (run_crc_entry_big 6 (Z.land (Z.shiftr x 8) 0xff) m ltac:(lia) (land_byte _)). cbn beta iota.
  rewrite run_bind, (run_crc_entry_big 7 (Z.land x 0xff) m ltac:(lia) (land_byte _)). cbn beta iota. rewrite run_ret.
  cbn [Nat.sub].
  change (8 * 4)%nat with 32%nat. change (8 * 3)%nat with 24%nat. change (8 * 2)%nat with 16%nat. change (8 * 1)%nat with 8%nat.
  assert (∀ n y, is_byte y → is_reg (zeros n y)) as Hz by (intros; by apply zeros_bound, byte_32).
  pose proof (land_byte x). pose proof (shiftr_byte x Hx). pose proof (land_byte (Z.shiftr x 8)). pose proof (land_byte (Z.shiftr x 16)).
  rewrite <-!REV_lxor by (repeat (apply lxor_bound; [lia| |]); by apply Hz).
  rewrite <-(zeros_tables x Hx). rewrite u32_reg.
  - do 2 f_equal; [f_equal|lia]. apply lxor_rev.
  - apply REV_bound. repeat (apply lxor_bound; [lia| |]); by apply Hz.
Qed.
End variants.

(** ** The checksum *)

Lemma ones_reg : is_reg 0xffffffff.
Proof. by vm_compute. Qed.

Lemma crc_reg l : Forall is_byte l → is_reg (crc l).
Proof. intros Hl. apply lxor_bound; [lia| |apply ones_reg]. apply crc_steps_bound; [done|apply ones_reg]. Qed.

(** The loops one after the other, for either order of bytes: the register is [enc] of
    its value, the pointer to words [lo] of the address. *)
Lemma run_by_four {B} m enc byte (lo hi : Z → Z) step (f : Z → C mem B) c p l :
  bytewise m enc byte → steps m 4 (λ c p, (enc c, lo p)) step → (∀ p, hi (lo p) = p) → bytes_at m p l → is_reg c →
  ('(c, buf, len) ← crc_align byte (enc c) p (Z.of_nat (length l));
   '(s, len) ← crc_while 32 (eight step) (c, lo buf) len;
   '(s, len) ← crc_while 4 step s len;
   let '(c, buf4) := s in
   c ← crc_rest byte c (hi buf4) len;
   f c) m = f (enc (crc_steps c l)) m.
Proof.
  intros Hb Hs Hhi Hm Hc. set (st := λ c p : Z, (enc c, lo p)) in *.
  destruct (run_crc_align m enc byte c p l Hb Hm Hc) as (l1 & l2 & -> & Hr1). rewrite run_bind, Hr1. cbn beta iota zeta.
  apply bytes_at_app in Hm as [Hm1 Hm2]. pose proof (crc_steps_reg _ _ _ _ Hm1 Hc) as Hc1.
  destruct (run_crc_while m (8 * 4) st (eight step) _ _ l2 (eight_steps _ _ _ _ Hs) ltac:(lia) Hm2 Hc1) as (l3 & l4 & -> & _ & Hr2).
  rewrite run_bind. change 32 with (Z.of_nat (8 * 4)). unfold st in Hr2. rewrite Hr2. cbn beta iota zeta.
  apply bytes_at_app in Hm2 as [Hm3 Hm4]. pose proof (crc_steps_reg _ _ _ _ Hm3 Hc1) as Hc2.
  destruct (run_crc_while m 4 st step _ _ l4 Hs ltac:(lia) Hm4 Hc2) as (l5 & l6 & -> & _ & Hr3).
  rewrite run_bind. change 4 with (Z.of_nat 4). unfold st in Hr3. rewrite Hr3. cbn beta iota zeta.
  apply bytes_at_app in Hm4 as [Hm5 Hm6]. pose proof (crc_steps_reg _ _ _ _ Hm5 Hc2) as Hc3.
  rewrite Hhi, run_bind, (run_crc_rest m enc byte _ _ l6 Hb Hm6 Hc3). by rewrite !crc_steps_app.
Qed.

Lemma run_crc_last m c p l :
  bytes_at m p l → is_reg c →
  crc_last (c, p) (Z.of_nat (length l)) m = Ret (crc_steps c l, p + Z.of_nat (length l)) m.
Proof.
  intros Hm Hc. unfold crc_last. destruct l as [|b l]; [by rewrite Z.add_0_r|]. rewrite Nat2Z.id. cbn [length].
  rewrite (proj2 (Z.eqb_neq (Z.of_nat (S (length l))) 0)) by lia. revert c p b Hm Hc. induction l as [|b' l IH]; intros c p b Hm Hc.
  - rewrite run_loop. cbn beta iota. by rewrite run_bind, (DO1_steps m c p [b]).
  - rewrite run_loop. cbn beta iota.
    destruct (run_step m 1 (λ c p, (c, p)) crc_DO1 c p (b :: b' :: l) (DO1_steps m) ltac:(simpl; lia) Hm Hc) as (E & H1 & H2 & _).
    rewrite run_bind, E. cbn beta iota zeta. cbn [length].
    rewrite (proj2 (Z.eqb_neq (Z.of_nat (S (S (length l))) - 1) 0)) by lia. rewrite run_ret. cbn beta iota.
    replace (Z.of_nat (S (S (length l))) - 1) with (Z.of_nat (S (length l))) by lia. rewrite (IH _ _ b' H1 H2).
    do 2 f_equal. lia.
Qed.

(** The checksum goes on from the one it is given. *)
Lemma run_crc32 BYFOUR little m buf l c :
  bytes_at m buf l → buf ≠ NULL → is_reg c →
  crc32 BYFOUR little c buf (Z.of_nat (length l)) m = Ret (Z.lxor (crc_steps (Z.lxor c 0xffffffff) l) 0xffffffff) m.
Proof.
  intros Hm Hbuf Hc. unfold crc32. rewrite (proj2 (Z.eqb_neq buf NULL)) by done.
  assert (is_reg (Z.lxor c 0xffffffff)) as Hc' by (apply lxor_bound; [lia|done|apply ones_reg]).
  pose proof (crc_steps_reg _ _ _ _ Hm Hc') as Hc2. destruct BYFOUR; [destruct little|].
  - unfold crc32_little. rewrite (u32_reg c), u32_lnot by done.
    pose proof (run_by_four m id crc_byte_lit id id DOLIT4 (λ c, mret (u32 (Z.lnot c))) _ buf l
      (byte_lit_bytewise m) (DOLIT4_steps m) ltac:(done) Hm Hc') as E.
    etrans; [exact E|]. unfold id. by rewrite run_ret, u32_lnot.
  - unfold crc32_big. rewrite (u32_reg c) by done. rewrite u32_lnot by (by apply REV_bound).
    change 0xffffffff with (REV 0xffffffff) at 1. rewrite <-REV_lxor by (done || apply ones_reg).
    pose proof (run_by_four m REV crc_byte_big (λ p, p - 4) (λ p, p + 4) DOBIG4 (λ c, mret (REV (u32 (Z.lnot c)))) _ buf l
      (byte_big_bytewise m) (DOBIG4_steps m) ltac:(intros; cbv beta; lia) Hm Hc') as E.
    etrans; [exact E|]. set (x := crc_steps _ l) in *. rewrite run_ret, u32_lnot by (by apply REV_bound).
    change (Z.lxor (REV x) 0xffffffff) with (Z.lxor (REV x) (REV 0xffffffff)). rewrite <-REV_lxor by (done || apply ones_reg).
    rewrite REV_REV; [done|]. apply lxor_bound; [lia|done|apply ones_reg].
  - destruct (run_crc_while m (8 * 1) (λ c p, (c, p)) (eight crc_DO1) _ _ l (eight_steps _ _ _ _ (DO1_steps m)) ltac:(lia) Hm Hc')
      as (l1 & l2 & -> & _ & Hr1).
    rewrite run_bind. change 8 with (Z.of_nat (8 * 1)). rewrite Hr1. cbn beta iota. apply bytes_at_app in Hm as [Hm1 Hm2].
    rewrite run_bind, (run_crc_last m _ _ l2 Hm2) by (by eapply crc_steps_reg). by rewrite crc_steps_app.
Qed.

(** C37: given the checksum of a text and the bytes that follow it, crc32 returns the
    checksum of the whole, the one of a shift register taken bit by bit, in every
    variant: byte by byte, four bytes at a time, and four bytes at a time with the
    register reversed; given no buffer it returns the checksum of the empty text. *)
Theorem crc32_bits BYFOUR little m buf l0 l :
  Forall is_byte l0 → bytes_at m buf l → buf ≠ NULL → Z.of_nat (length l) < 2 ^ 32 →
  crc32 BYFOUR little (crc l0) buf (Z.of_nat (length l)) m = Ret (crc (l0 ++ l)) m ∧
  (∀ c n, crc32 BYFOUR little c NULL n m = Ret (crc []) m).
Proof.
  intros Hl0 Hm Hbuf _. split; [|done]. rewrite run_crc32; [|done|done|by apply crc_reg]. unfold crc.
  by rewrite Z.lxor_assoc, Z.lxor_nilpotent, Z.lxor_0_r, crc_steps_app.
Qed.

(** ** Joining *)

Section combine.
Context {S : Type}.
Implicit Types (s : S) (mat : list Z).

(** [mat] is the matrix of [n] zero bits. *)
Definition matrix_of (n : nat) mat : Prop :=
  length mat = 32%nat ∧ ∀ i, (i < 32)%nat → mat !! i = Some (zeros n (2 ^ Z.of_nat i)).

Lemma matrix_elem n mat i s : matrix_of n mat → 0 ≤ i < 32 → elem mat i s = Ret (zeros n (2 ^ i)) s.
Proof.
  intros [_ Hm] Hi. unfold elem. rewrite (proj2 (Z.ltb_ge i 0)), Hm by lia. by rewrite Z2Nat.id by lia.
Qed.

(** The low bit and the rest. *)
Lemma split_bit v : v = Z.lxor (Z.land v 1) (Z.shiftl (Z.shiftr v 1) 1).
Proof.
  change 1 with (Z.ones 1) at 1. apply Z.bits_inj'. intros i Hi.
  rewrite Z.lxor_spec, Z.land_spec, Z.testbit_ones_nonneg, Z.shiftl_spec by lia. destruct (Z.ltb_spec i 1) as [H|H].
  - rewrite (Z.testbit_neg_r _ (i - 1)) by lia. by rewrite andb_true_r, xorb_false_r.
  - rewrite Z.shiftr_spec, andb_false_r, xorb_false_l by lia. f_equal. lia.
Qed.

Lemma land_1 v : Z.land v 1 = 0 ∨ Z.land v 1 = 1.
Proof. assert (Z.land v 1 = v mod 2) as -> by exact (Z.land_ones v 1 ltac:(lia)). pose proof (Z.mod_pos_bound v 2). lia. Qed.

Lemma gf2_rounds n mat fuel sum vec k s :
  matrix_of n mat → 0 ≤ vec < 2 ^ Z.of_nat k → (k ≤ 32)%nat → (k < fuel)%nat →
  loop fuel (λ '(sum, vec, i),
    if vec =? 0 then Break sum else
    sum ← (if Z.land vec 1 =? 0 then mret sum else v ← elem mat i; mret (Z.lxor sum v));
    Next (sum, Z.shiftr vec 1, i + 1)) (sum, vec, 32 - Z.of_nat k) s =
  Ret (Z.lxor sum (zeros n (Z.shiftl vec (32 - Z.of_nat k)))) s.
Proof.
  intros Hm. revert fuel sum vec. induction k as [|k IH]; intros fuel sum vec Hv Hk Hf; (destruct fuel as [|fuel]; [lia|]); rewrite run_loop; cbn beta iota.
  { assert (vec = 0) as -> by (change (2 ^ Z.of_nat 0) with 1 in Hv; lia). by rewrite Z.shiftl_0_l, zeros_0, Z.lxor_0_r. }
  destruct (Z.eqb_spec vec 0) as [->|Hne]; [by rewrite Z.shiftl_0_l, zeros_0, Z.lxor_0_r|].
  set (i := 32 - Z.of_nat (Datatypes.S k)). assert (0 ≤ i < 32) as Hi by lia. assert (i + 1 = 32 - Z.of_nat k) as Hi1 by lia.
  assert (0 ≤ Z.shiftr vec 1 < 2 ^ Z.of_nat k) as Hv1.
  { rewrite Nat2Z.inj_succ, Z.pow_succ_r in Hv by lia. rewrite Z.shiftr_div_pow2 by lia. change (2 ^ 1) with 2.
    split; [apply Z.div_pos; lia|]. apply Z.div_lt_upper_bound; lia. }
  assert (Z.shiftl vec i = Z.lxor (Z.shiftl (Z.land vec 1) i) (Z.shiftl (Z.shiftr vec 1) (i + 1))) as ->.
  { rewrite (split_bit vec) at 1. by rewrite Z.shiftl_lxor, Z.shiftl_shiftl, (Z.add_comm 1) by lia. }
  rewrite zeros_lxor, <-Z.lxor_assoc. destruct (land_1 vec) as [->| ->]; cbn [Z.eqb Pos.eqb].
  - rewrite run_bind, run_ret. cbn beta iota. rewrite run_ret. cbn beta iota. rewrite Hi1, IH by (done || lia).
    by rewrite Z.shiftl_0_l, zeros_0, Z.lxor_0_r.
  - rewrite run_bind, run_bind, (matrix_elem n mat) by done. cbn beta iota. rewrite run_ret. cbn beta iota. rewrite run_ret. cbn beta iota.
    rewrite Hi1, IH by (done || lia). by rewrite Z.shiftl_1_l.
Qed.

Lemma run_gf2_matrix_times n mat vec s :
  matrix_of n mat → is_reg vec → gf2_matrix_times mat vec s = Ret (zeros n vec) s.
Proof.
  intros Hm Hv. unfold gf2_matrix_times. etrans; [exact (gf2_rounds n mat 65 0 vec 32 s Hm Hv ltac:(lia) ltac:(lia))|].
  by rewrite Z.shiftl_0_r, Z.lxor_0_l.
Qed.

Lemma pow_reg i : 0 ≤ i < 32 → is_reg (2 ^ i).
Proof. intros Hi. split; [lia|]. apply Z.pow_lt_mono_r; lia. Qed.

Lemma run_gf2_matrix_square n mat square s :
  matrix_of n mat → length square = 32%nat →
  ∃ square', gf2_matrix_square square mat s = Ret square' s ∧ matrix_of (n + n) square'.
Proof.
  intros Hm Hl. unfold gf2_matrix_square. change GF2_DIM with 32. change (Datatypes.S (Z.to_nat 32)) with 33%nat.
  assert (∀ k square, (k ≤ 32)%nat → length square = 32%nat →
    (∀ i, (i < 32 - k)%nat → square !! i = Some (zeros (n + n) (2 ^ Z.of_nat i))) →
    ∀ fuel, (k < fuel)%nat → ∃ square', loop fuel (λ '(square, n),
      if n <? 32 then x ← elem mat n; v ← gf2_matrix_times mat x; Next (<[Z.to_nat n := v]> square, n + 1)
      else Break square) (square, 32 - Z.of_nat k) s = Ret square' s ∧ matrix_of (n + n) square') as H.
  { clear square Hl. induction k as [|k IH]; intros square Hk Hl Hsq fuel Hf; (destruct fuel as [|fuel]; [lia|]); rewrite run_loop; cbn beta iota.
    { exists square. split; [done|]. split; [done|]. intros i Hi. apply Hsq. lia. }
    rewrite (proj2 (Z.ltb_lt _ 32)) by lia. set (i := 32 - Z.of_nat (Datatypes.S k)). assert (0 ≤ i < 32) as Hi by lia.
    rewrite run_bind, (matrix_elem n mat) by done. cbn beta iota.
    rewrite run_bind, (run_gf2_matrix_times n mat) by (done || by apply zeros_bound, pow_reg). cbn beta iota. rewrite run_ret. cbn beta iota.
    replace (i + 1) with (32 - Z.of_nat k) by lia. apply IH; [lia|by rewrite length_insert| |lia]. intros j Hj.
    destruct (decide (j = Z.to_nat i)) as [->|Hne].
    - rewrite list_lookup_insert_eq by lia. by rewrite zeros_add, Z2Nat.id by lia.
    - rewrite list_lookup_insert_ne by done. apply Hsq. lia. }
  apply (H 32%nat square); [lia|done|lia|lia].
Qed.

(** The first matrix is that of one zero bit, whatever the array held. *)
Lemma one_zero_bit_matrix odd : length odd = 32%nat → matrix_of 1 (one_zero_bit odd).
Proof.
  intros Hl. do 32 (destruct odd as [|? odd]; [done|]). destruct odd; [|done]. split; [done|]. intros i Hi.
  do 32 (destruct i as [|i]; [reflexivity|]). lia.
Qed.

(** [k] bytes of zeros, by the bits of [k]. *)
Lemma combine_rounds fuel h crc1 len2 even odd s :
  matrix_of h odd → length even = 32%nat → is_reg crc1 → 0 < len2 < 4 ^ Z.of_nat fuel →
  loop fuel combine_round (crc1, len2, even, odd) s
  = Ret (zeros (2 * h * Z.to_nat len2) crc1) s.
Proof.
  revert h crc1 len2 even odd. induction fuel as [|fuel IH]; intros h crc1 len2 even odd Hodd Heven Hc Hlen.
  { change (4 ^ Z.of_nat 0) with 1 in Hlen. lia. }
  rewrite run_loop. unfold combine_round at 1. cbn beta iota.
  assert (∀ k mat crc len, matrix_of k mat → is_reg crc → 0 ≤ len →
    (if Z.land len 1 =? 0 then mret crc else gf2_matrix_times mat crc) s = Ret (zeros (k * Z.to_nat (len mod 2)) crc) s ∧
    len = len mod 2 + 2 * Z.shiftr len 1 ∧ 0 ≤ len mod 2 < 2 ∧ 0 ≤ Z.shiftr len 1) as Hbit.
  { intros k mat crc len Hm Hcr Hle. rewrite Z.shiftr_div_pow2 by lia. change (2 ^ 1) with 2.
    pose proof (Z.mod_pos_bound len 2 ltac:(lia)). pose proof (Z.div_mod len 2 ltac:(lia)). pose proof (Z.div_pos len 2 ltac:(lia) ltac:(lia)).
    split_and!; [|lia..]. assert (Z.land len 1 = len mod 2) as -> by exact (Z.land_ones len 1 ltac:(lia)).
    destruct (decide (len mod 2 = 0)) as [->|]; [by rewrite Nat.mul_0_r|]. assert (len mod 2 = 1) as -> by lia.
    change (1 =? 0) with false. cbn iota. rewrite (run_gf2_matrix_times k mat crc s Hm Hcr). by rewrite Nat.mul_1_r. }
  destruct (run_gf2_matrix_square h odd even s Hodd Heven) as (even' & Hr1 & Heven'). rewrite run_bind, Hr1. cbn beta iota.
  destruct (Hbit (h + h)%nat even' crc1 len2 Heven' Hc ltac:(lia)) as (Hr2 & E1 & Hb1 & Hl1). rewrite run_bind, Hr2. cbn beta iota zeta.
  set (c1 := zeros _ crc1) in *. assert (is_reg c1) as Hc1 by (by apply zeros_bound).
  destruct (Z.eqb_spec (Z.shiftr len2 1) 0) as [E0|E0].
  { rewrite run_ret. subst c1. do 2 f_equal. lia. }
  destruct Heven' as [Heven'l Heven'm]. destruct (run_gf2_matrix_square (h + h) even' odd s (conj Heven'l Heven'm) (proj1 Hodd)) as (odd' & Hr3 & Hodd').
  rewrite run_bind, Hr3. cbn beta iota. set (len3 := Z.shiftr len2 1) in *.
  destruct (Hbit (h + h + (h + h))%nat odd' c1 len3 Hodd' Hc1 ltac:(lia)) as (Hr4 & E2 & Hb2 & Hl2). rewrite run_bind, Hr4. cbn beta iota zeta.
  set (c2 := zeros _ c1) in *. assert (is_reg c2) as Hc2 by (by apply zeros_bound).
  assert (zeros (2 * (h + h + (h + h)) * Z.to_nat (Z.shiftr len3 1)) c2 = zeros (2 * h * Z.to_nat len2) crc1) as Hz.
  { subst c2 c1. rewrite <-!zeros_add. f_equal. nia. }
  destruct (Z.eqb_spec (Z.shiftr len3 1) 0) as [E3|E3].
  - rewrite run_ret. rewrite <-Hz, E3, Nat.mul_0_r. done.
  - rewrite run_ret. cbn beta iota. rewrite (IH (h + h + (h + h))%nat) by
      (done || (rewrite Nat2Z.inj_succ, Z.pow_succ_r in Hlen by lia; lia)). by rewrite Hz.
Qed.

Lemma crc_join l1 l2 : Forall is_byte l2 → crc (l1 ++ l2) = Z.lxor (zeros (8 * length l2) (crc l1)) (crc l2).
Proof.
  intros Hl. unfold crc at 1. rewrite crc_steps_app.
  assert (crc_steps 0xffffffff l1 = Z.lxor 0xffffffff (crc l1)) as ->.
  { unfold crc. by rewrite (Z.lxor_comm (crc_steps _ _)), <-Z.lxor_assoc, Z.lxor_nilpotent, Z.lxor_0_l. }
  rewrite crc_steps_lxor by done. unfold crc at 2. rewrite (Z.lxor_comm (crc_steps _ l2) (zeros _ _)). by rewrite Z.lxor_assoc.
Qed.

(** C38: crc32_combine of the checksums of two texts and the length of the second
    terminates and is the checksum of the texts joined. *)
Theorem crc32_combine_joins fuel even odd l1 l2 s :
  length even = 32%nat → length odd = 32%nat → Forall is_byte l1 → Forall is_byte l2 →
  Z.of_nat (length l2) < 4 ^ Z.of_nat fuel →
  crc32_combine fuel even odd (crc l1) (crc l2) (Z.of_nat (length l2)) s = Ret (crc (l1 ++ l2)) s.
Proof.
  intros He Ho Hl1 Hl2 Hf. unfold crc32_combine. destruct (Z.eqb_spec (Z.of_nat (length l2)) 0) as [E|E].
  { destruct l2; [|simpl in E; lia]. by rewrite app_nil_r. }
  destruct (run_gf2_matrix_square 1 (one_zero_bit odd) even s (one_zero_bit_matrix odd Ho) He) as (even' & Hr1 & Hm1). rewrite run_bind, Hr1. cbn beta iota.
  assert (length (one_zero_bit odd) = 32%nat) as Ho' by (by apply one_zero_bit_matrix).
  destruct (run_gf2_matrix_square 2 even' (one_zero_bit odd) s Hm1 Ho') as (odd' & Hr2 & Hm2). rewrite run_bind, Hr2. cbn beta iota.
  rewrite run_bind, (combine_rounds fuel 4) by (done || apply Hm1 || by apply crc_reg || lia). cbn beta iota.
  rewrite run_ret, Nat2Z.id, crc_join by done. done.
Qed.
End combine.

(** A negative length is never used up. *)
Lemma crc32_combine_negative fuel even odd crc1 crc2 :
  length even = 32%nat → length odd = 32%nat → is_reg crc1 →
  crc32_combine fuel even odd crc1 crc2 (-1) tt = OOF.
Proof.
  intros He Ho Hc. unfold crc32_combine. cbn [Z.eqb].
  destruct (run_gf2_matrix_square 1 (one_zero_bit odd) even tt (one_zero_bit_matrix odd Ho) He) as (even' & Hr1 & Hm1). rewrite run_bind, Hr1. cbn beta iota.
  assert (length (one_zero_bit odd) = 32%nat) as Ho' by (by apply one_zero_bit_matrix).
  destruct (run_gf2_matrix_square 2 even' (one_zero_bit odd) tt Hm1 Ho') as (odd' & Hr2 & Hm2). rewrite run_bind, Hr2. cbn beta iota.
  rewrite run_bind. enough (loop fuel combine_round (crc1, -1, even', odd') tt = OOF) as -> by done.
  destruct Hm1 as [He' _]. clear Hr1 Hr2 He Ho Ho' odd even. change (2 + 2)%nat with 4%nat in Hm2. revert Hm2. generalize 4%nat as h.
  revert crc1 even' odd' Hc He'. induction fuel as [|fuel IH]; intros crc1 even odd Hc He h Ho; [done|].
  rewrite run_loop. unfold combine_round at 1. cbn beta iota. destruct (run_gf2_matrix_square h odd even tt Ho He) as (even' & Hr1 & Hm1). rewrite run_bind, Hr1. cbn beta iota.
  change (Z.land (-1) 1 =? 0) with false. cbn iota. rewrite run_bind, (run_gf2_matrix_times _ _ _ _ Hm1 Hc). cbn beta iota zeta.
  change (Z.shiftr (-1) 1) with (-1). change (-1 =? 0) with false. cbn iota.
  destruct (run_gf2_matrix_square _ even' odd tt Hm1 (proj1 Ho)) as (odd' & Hr2 & Hm2). rewrite run_bind, Hr2. cbn beta iota.
  change (Z.land (-1) 1 =? 0) with false. cbn iota. rewrite run_bind, (run_gf2_matrix_times _ _ _ _ Hm2) by (by apply zeros_bound). cbn beta iota zeta.
  change (Z.shiftr (-1) 1) with (-1). change (-1 =? 0) with false. cbn iota. rewrite run_ret. cbn beta iota.
  eapply IH; [by apply zeros_bound, zeros_bound|apply Hm1|done].
Qed.

(** ** Witnesses *)

(** ["123456789"], the usual test of a CRC. *)
Definition digits : list Z := [49; 50; 51; 52; 53; 54; 55; 56; 57].

Example crc_digits : crc digits = 0xcbf43926.
Proof. reflexivity. Qed.

Lemma crc32_bits_witness :
  crc32 true false (crc [48]) 4097 9 (write_bytes ∅ 4097 digits) = Ret (crc ([48] ++ digits)) (write_bytes ∅ 4097 digits).
Proof.
  refine (proj1 (crc32_bits true false (write_bytes ∅ 4097 digits) 4097 [48] digits _ _ _ _)); [|apply bytes_atb_spec; vm_compute; reflexivity|done|by vm_compute].
  by_decide.
Defined.

Lemma crc32_combine_joins_witness :
  crc32_combine 3 (replicate 32 7) (replicate 32 9) (crc [48; 48]) (crc digits) 9 tt = Ret (crc ([48; 48] ++ digits)) tt.
Proof.
  apply (crc32_combine_joins 3 (replicate 32 7) (replicate 32 9) [48; 48] digits tt); [done|done|by_decide|by_decide|by vm_compute].
Defined.
