(* ===== verification/Inftrees.v ===== *)
(** * Decoding tables of prefix codes: [zlib/inftrees.c], [zlib/inftrees.h]

    [inflate_table] builds, from the lengths of the code words of a canonical prefix
    code, the tables by which the decompressor finds a symbol from the next bits of its
    input: a root table, and sub-tables for the longer code words.  The arrays of the
    caller are lists; the table is a map from offsets to entries with room for [size]
    entries, and a store outside of it is undefined.  This file has the code and what
    its parts compute; [InftreesSpec] shows that the tables decode. *)

From Stdlib Require Import List.
From stdpp Require Import base tactics numbers list gmap.
From S2P Require Import Prelude.

Open Scope Z_scope.

Definition MAXBITS : Z := 15.
Definition ENOUGH : Z := 2048.
Definition MAXD : Z := 592.

Record code := Code { op : Z; bits : Z; val : Z }.

Inductive codetype := CODES | LENS | DISTS.

Definition is_LENS (type : codetype) : bool := match type with LENS => true | _ => false end.
Definition is_CODES (type : codetype) : bool := match type with CODES => true | _ => false end.

Definition lbase : list Z :=
  [3; 4; 5; 6; 7; 8; 9; 10; 11; 13; 15; 17; 19; 23; 27; 31;
   35; 43; 51; 59; 67; 83; 99; 115; 131; 163; 195; 227; 258; 0; 0].
Definition lext : list Z :=
  [16; 16; 16; 16; 16; 16; 16; 16; 17; 17; 17; 17; 18; 18; 18; 18;
   19; 19; 19; 19; 20; 20; 20; 20; 21; 21; 21; 21; 16; 201; 196].
Definition dbase : list Z :=
  [1; 2; 3; 4; 5; 7; 9; 13; 17; 25; 33; 49; 65; 97; 129; 193;
   257; 385; 513; 769; 1025; 1537; 2049; 3073; 4097; 6145;
   8193; 12289; 16385; 24577; 0; 0].
Definition dext : list Z :=
  [16; 16; 16; 16; 17; 17; 18; 18; 19; 19; 20; 20; 21; 21; 22; 22;
   23; 23; 24; 24; 25; 25; 26; 26; 27; 27;
   28; 28; 29; 29; 64; 64].

(** ** Counting and sorting the lengths *)

Section lengths.
Context {S : Type}.

(** [count[len]], the number of code words of each length *)
Definition count_lengths (lens : list Z) (codes : Z) : C S (list Z) :=
  loop (Datatypes.S (Z.to_nat codes)) (λ '(sym, count),
    if sym <? codes then
      len ← elem lens sym;
      n ← elem count len;
      count ← upd count len (u16 (n + 1));
      Next (sym + 1, count)
    else Break count) (0, replicate (Z.to_nat (MAXBITS + 1)) 0).

Definition find_max (count : list Z) : C S Z :=
  loop (Z.to_nat (MAXBITS + 1)) (λ max,
    if 1 <=? max then
      n ← elem count max;
      if n =? 0 then Next (max - 1) else Break max
    else Break max) MAXBITS.

Definition find_min (count : list Z) : C S Z :=
  loop (Z.to_nat (MAXBITS + 1)) (λ min,
    if min <=? MAXBITS then
      n ← elem count min;
      if n =? 0 then Next (min + 1) else Break min
    else Break min) 1.

(** The code words still available, or nothing when there are too few. *)
Definition check_left (count : list Z) : C S (option Z) :=
  loop (Z.to_nat (MAXBITS + 1)) (λ '(len, lft),
    if len <=? MAXBITS then
      n ← elem count len;
      let lft := Z.shiftl lft 1 - n in
      if lft <? 0 then Break None else Next (len + 1, lft)
    else Break (Some lft)) (1, 1).

(** [offs[len]]; [offs[0]] is not set. *)
Definition offsets (count : list Z) : C S (list Z) :=
  loop (Z.to_nat (MAXBITS + 1)) (λ '(len, offs),
    if len <? MAXBITS then
      o ← elem offs len;
      n ← elem count len;
      offs ← upd offs (len + 1) (u16 (o + n));
      Next (len + 1, offs)
    else Break offs) (1, replicate (Z.to_nat (MAXBITS + 1)) 0).

(** The symbols by length, into [work]. *)
Definition sort_symbols (lens : list Z) (codes : Z) (offs work : list Z) : C S (list Z) :=
  loop (Datatypes.S (Z.to_nat codes)) (λ '(sym, offs, work),
    if sym <? codes then
      len ← elem lens sym;
      if len =? 0 then Next (sym + 1, offs, work) else
      o ← elem offs len;
      work ← upd work o (u16 sym);
      offs ← upd offs len (u16 (o + 1));
      Next (sym + 1, offs, work)
    else Break work) (0, offs, work).

(** ** Entries *)

(** The entry for a symbol, with [b] bits. *)
Definition make_entry (type : codetype) (work : list Z) (w b : Z) : C S code :=
  let '(base, extra, shift, fin) :=
    match type with
    | CODES => (work, work, 0, 19)
    | LENS => (lbase, lext, 257, 256)
    | DISTS => (dbase, dext, 0, -1)
    end in
  if w <? fin then mret (Code 0 (u8 b) w)
  else if fin <? w then
    e ← elem extra (w - shift);
    v ← elem base (w - shift);
    mret (Code (u8 e) (u8 b) v)
  else mret (Code (32 + 64) (u8 b) 0).

(** [while (huff & incr) incr >>= 1], from an [incr] of at most 32 bits *)
Fixpoint skip_ones (fuel : nat) (huff incr : Z) : Z :=
  match fuel with
  | O => incr
  | Datatypes.S fuel => if Z.land huff incr =? 0 then incr else skip_ones fuel huff (Z.shiftr incr 1)
  end.

(** The code word after [huff], incremented from its high end. *)
Definition next_huff (huff len : Z) : Z :=
  let incr := skip_ones 32 huff (u32 (Z.shiftl 1 (len - 1))) in
  if incr =? 0 then 0 else Z.land huff (incr - 1) + incr.

(** The index bits of a sub-table for the code words from one of length [len] on. *)
Definition sub_bits (count : list Z) (max len drop : Z) : C S Z :=
  let curr := len - drop in
  loop (Z.to_nat (MAXBITS + 1)) (λ '(curr, lft),
    if curr + drop <? max then
      n ← elem count (curr + drop);
      let lft := lft - n in
      if lft <=? 0 then Break curr else Next (curr + 1, Z.shiftl lft 1)
    else Break curr) (curr, Z.shiftl 1 curr).
End lengths.

(** ** The tables *)

Section table.
Context (size : Z).

Abbreviation tab := (gmap Z code).

Definition put_entry (i : Z) (e : code) : C tab unit := λ t,
  if (0 <=? i) && (i <? size) then Ret tt (<[i := e]> t) else UB.

Definition get_entry (i : Z) : C tab code := λ t,
  match t !! i with Some e => Ret e t | None => UB end.

(** [do ... while (fill != 0)] *)
Definition replicate_entry (at_ incr fill : Z) (this : code) : C tab unit :=
  loop (Z.to_nat fill) (λ fill,
    let fill := u32 (fill - incr) in
    put_entry (at_ + fill) this;;
    if fill =? 0 then Break tt else Next fill) fill.

(** The variables of the loop over the code words. *)
Record building := Building {
  b_count : list Z; b_huff : Z; b_sym : Z; b_len : Z;
  b_next : Z; b_curr : Z; b_drop : Z; b_low : Z; b_used : Z }.

(** One code word: its entries, the next code word, and a sub-table if that needs one.
    The loop ends by itself or with a result of the function. *)
Definition build_step (type : codetype) (lens work : list Z) (root mask max : Z) (s : building)
  : C tab (building + (Z + building)) :=
  let '(Building count huff sym len next curr drop low used) := s in
  w ← elem work sym;
  this ← make_entry type work w (len - drop);
  let fill := u32 (Z.shiftl 1 curr) in
  replicate_entry (next + Z.shiftr huff drop) (u32 (Z.shiftl 1 (len - drop))) fill this;;
  let huff := next_huff huff len in
  let sym := sym + 1 in
  n ← elem count len;
  count ← upd count len (u16 (n - 1));
  if (u16 (n - 1) =? 0) && (len =? max) then
    Break (inr (Building count huff sym len next curr drop low used))
  else
  len ← (if u16 (n - 1) =? 0 then w ← elem work sym; elem lens w else mret len);
  if (root <? len) && negb (Z.land huff mask =? low) then
    let drop := if drop =? 0 then root else drop in
    let next := next + fill in
    curr ← sub_bits count max len drop;
    let used := u32 (used + Z.shiftl 1 curr) in
    if is_LENS type && (ENOUGH - MAXD <=? used) then Break (inl 1) else
    let low := Z.land huff mask in
    put_entry low (Code (u8 curr) (u8 root) (u16 next));;
    Next (Building count huff sym len next curr drop low used)
  else Next (Building count huff sym len next curr drop low used).

(** The entries an incomplete code leaves. *)
Definition fill_rest (root mask : Z) (s : building) : C tab unit :=
  loop (Z.to_nat (2 ^ MAXBITS + 1)) (λ '(huff, drop, len, next, this),
    if huff =? 0 then Break tt else
    let '(drop, len, next, this) :=
      if negb (drop =? 0) && negb (Z.land huff mask =? b_low s)
      then (0, root, 0, Code 64 (u8 root) 0)
      else (drop, len, next, this) in
    put_entry (next + Z.shiftr huff drop) this;;
    Next (next_huff huff len, drop, len, next, this))
  (b_huff s, b_drop s, b_len s, b_next s, Code 64 (u8 (b_len s - b_drop s)) 0).

(** The result, the entries [*table] moves by, and [*bits] and [work] afterwards. *)
Definition inflate_table (type : codetype) (lens : list Z) (codes root : Z) (work : list Z)
  : C tab (Z * Z * Z * list Z) :=
  let request := root in
  count ← count_lengths lens codes;
  max ← find_max count;
  let root := if max <? root then max else root in
  if max =? 0 then
    let this := Code 64 1 0 in
    put_entry 0 this;;
    put_entry 1 this;;
    mret (0, 2, 1, work)
  else
  min ← find_min count;
  let root := if root <? min then min else root in
  lft ← check_left count;
  match lft with
  | None => mret (-1, 0, request, work)
  | Some lft =>
      if (0 <? lft) && (is_CODES type || negb (max =? 1)) then mret (-1, 0, request, work) else
      offs ← offsets count;
      work ← sort_symbols lens codes offs work;
      let used := u32 (Z.shiftl 1 root) in
      let mask := used - 1 in
      if is_LENS type && (ENOUGH - MAXD <=? used) then mret (1, 0, request, work) else
      r ← loop (Datatypes.S (Z.to_nat codes)) (build_step type lens work root mask max)
        (Building count 0 0 min 0 root 0 (u32 (-1)) used);
      match r with
      | inl ret => mret (ret, 0, request, work)
      | inr s =>
          fill_rest root mask s;;
          mret (0, b_used s, root, work)
      end
  end.
End table.
