(* ===== verification/InftreesSpec.v ===== *)
(** * Decoding tables decode

    A code word of a canonical prefix code is sent with its first bit lowest.  Read the
    other way round, as a number of [MAXBITS] bits, the code words of the code are
    intervals that follow each other in the order of their lengths, each as long as the
    power of two its length leaves: this is how the invariant of the loop of
    [inflate_table] is stated, with [rev] between the two readings. *)

From Stdlib Require Import List.
From stdpp Require Import base tactics numbers list gmap.
From S2P Require Import Prelude Inftrees.

Open Scope Z_scope.

(** ** Reversed words *)

(** The [n] low bits of [p] in reverse. *)
Fixpoint rev_bits (n : nat) (p : Z) : Z :=
  match n with
  | O => 0
  | S n => p mod 2 * 2 ^ Z.of_nat n + rev_bits n (p / 2)
  end.

Lemma rev_bits_range n p : 0 ≤ rev_bits n p < 2 ^ Z.of_nat n.
Proof.
  revert p. induction n as [|n IH]; intros p; [done|]. cbn [rev_bits]. rewrite Nat2Z.inj_succ, Z.pow_succ_r by lia.
  pose proof (IH (p / 2)). pose proof (Z.mod_pos_bound p 2 ltac:(lia)). nia.
Qed.

Lemma testbit_high_low a b n i : 0 ≤ n → 0 ≤ b < 2 ^ n → 0 ≤ i →
  Z.testbit (a * 2 ^ n + b) i = if i <? n then Z.testbit b i else Z.testbit a (i - n).
Proof.
  intros Hn Hb Hi. destruct (Z.ltb_spec i n) as [H|H].
  - rewrite <-(Z.mod_pow2_bits_low _ n) by lia. by rewrite Z.add_comm, Z_mod_plus_full, Z.mod_small.
  - replace i with (i - n + n) at 1 by lia. rewrite <-Z.div_pow2_bits by lia.
    by rewrite Z.add_comm, Z_div_plus, Z.div_small, Z.add_0_l by lia.
Qed.

Lemma rev_bits_testbit n p i : 0 ≤ i →
  Z.testbit (rev_bits n p) i = if i <? Z.of_nat n then Z.testbit p (Z.of_nat n - 1 - i) else false.
Proof.
  revert p i. induction n as [|n IH]; intros p i Hi.
  { rewrite (proj2 (Z.ltb_ge i _)) by lia. apply Z.bits_0. }
  cbn [rev_bits]. rewrite testbit_high_low by (lia || apply rev_bits_range).
  destruct (Z.ltb_spec i (Z.of_nat n)) as [H|H].
  - rewrite IH, (proj2 (Z.ltb_lt i (Z.of_nat n))), (proj2 (Z.ltb_lt i (Z.of_nat (S n)))) by lia.
    rewrite (Z.div_pow2_bits p 1) by lia. f_equal. lia.
  - destruct (decide (i = Z.of_nat n)) as [->|Hne].
    + rewrite (proj2 (Z.ltb_lt _ _)) by lia. replace (Z.of_nat (S n) - 1 - Z.of_nat n) with 0 by lia.
      rewrite Z.sub_diag, <-Z.bit0_mod. by destruct (Z.testbit p 0).
    + rewrite (proj2 (Z.ltb_ge _ _)) by lia. apply Z.bits_above_log2; pose proof (Z.mod_pos_bound p 2 ltac:(lia)); [lia|].
      assert (p mod 2 = 0 ∨ p mod 2 = 1) as [-> | ->] by lia; simpl; lia.
Qed.

Lemma rev_bits_rev n p : rev_bits n (rev_bits n p) = p mod 2 ^ Z.of_nat n.
Proof.
  apply Z.bits_inj'. intros i Hi. rewrite rev_bits_testbit by lia. destruct (Z.ltb_spec i (Z.of_nat n)) as [H|H].
  - rewrite rev_bits_testbit, (proj2 (Z.ltb_lt _ _)), Z.mod_pow2_bits_low by lia. f_equal. lia.
  - by rewrite Z.mod_pow2_bits_high by lia.
Qed.

(** The low bits of a reversed word are the high bits of the word. *)
Lemma rev_bits_mod n p l : 0 ≤ l ≤ Z.of_nat n →
  rev_bits n p mod 2 ^ l = rev_bits n (p / 2 ^ (Z.of_nat n - l) * 2 ^ (Z.of_nat n - l)).
Proof.
  intros Hl. apply Z.bits_inj'. intros i Hi. rewrite rev_bits_testbit by lia. destruct (decide (i < l)) as [H|H].
  - rewrite Z.mod_pow2_bits_low, rev_bits_testbit, (proj2 (Z.ltb_lt _ _)) by lia.
    rewrite Z.mul_pow2_bits, Z.div_pow2_bits by lia. f_equal. lia.
  - rewrite Z.mod_pow2_bits_high by lia. destruct (Z.ltb_spec i (Z.of_nat n)) as [H'|H']; [|done].
    by rewrite Z.mul_pow2_bits_low by lia.
Qed.

(** A word of [l] bits with zeros after it is reversed as if they were not there. *)
Lemma rev_bits_shift n l c : (l ≤ n)%nat → rev_bits n (c * 2 ^ (Z.of_nat n - Z.of_nat l)) = rev_bits l c.
Proof.
  intros Hl. apply Z.bits_inj'. intros i Hi. rewrite !rev_bits_testbit by lia. destruct (Z.ltb_spec i (Z.of_nat l)) as [H|H].
  - rewrite (proj2 (Z.ltb_lt _ _)), Z.mul_pow2_bits by lia. f_equal. lia.
  - destruct (Z.ltb_spec i (Z.of_nat n)) as [H'|H']; [|done]. by rewrite Z.mul_pow2_bits_low by lia.
Qed.

(** *** Words of [MAXBITS] bits *)

Abbreviation rev15 := (rev_bits 15).

Lemma rev15_range p : 0 ≤ rev15 p < 2 ^ 15.
Proof. apply (rev_bits_range 15). Qed.

Lemma rev15_rev15 p : 0 ≤ p < 2 ^ 15 → rev15 (rev15 p) = p.
Proof. intros Hp. rewrite rev_bits_rev. by apply Z.mod_small. Qed.

(** An aligned position, and the words of its interval. *)
Definition aligned (l p : Z) : Prop := p mod 2 ^ (15 - l) = 0.

Lemma rev15_mod x l : 0 ≤ l ≤ 15 → rev15 (x mod 2 ^ l) = rev15 x / 2 ^ (15 - l) * 2 ^ (15 - l).
Proof.
  intros Hl. apply Z.bits_inj'. intros i Hi. rewrite rev_bits_testbit by lia. change (Z.of_nat 15) with 15.
  destruct (decide (i < 15 - l)) as [H|H].
  - rewrite Z.mul_pow2_bits_low by lia. rewrite (proj2 (Z.ltb_lt _ _)), Z.mod_pow2_bits_high by lia. done.
  - rewrite Z.mul_pow2_bits, Z.div_pow2_bits, rev_bits_testbit by lia. change (Z.of_nat 15) with 15.
    replace (i - (15 - l) + (15 - l)) with i by lia. destruct (Z.ltb_spec i 15) as [H'|H']; [|done].
    rewrite Z.mod_pow2_bits_low by lia. done.
Qed.

(** A word starts with the code word at [p] exactly if it is in the interval there. *)
Lemma starts_interval x l p : 0 ≤ l ≤ 15 → 0 ≤ p < 2 ^ 15 → aligned l p →
  x mod 2 ^ l = rev15 p ↔ p ≤ rev15 x < p + 2 ^ (15 - l).
Proof.
  intros Hl Hp Ha. unfold aligned in Ha. set (B := 2 ^ (15 - l)) in *. assert (0 < B) as HB by (apply Z.pow_pos_nonneg; lia).
  assert (p = p / B * B) as Ep by (pose proof (Z.div_mod p B ltac:(lia)); lia).
  transitivity (rev15 (x mod 2 ^ l) = p).
  - split; [intros ->; by apply rev15_rev15|]. intros <-. symmetry. apply rev15_rev15.
    pose proof (Z.mod_pos_bound x (2 ^ l) ltac:(lia)). pose proof (Z.pow_le_mono_r 2 l 15 ltac:(lia) ltac:(lia)). lia.
  - rewrite rev15_mod by done. fold B. pose proof (Z.div_mod (rev15 x) B ltac:(lia)). pose proof (Z.mod_pos_bound (rev15 x) B ltac:(lia)).
    split; [intros; lia|]. intros Hr. rewrite Ep in Hr. assert (rev15 x / B = p / B) as ->; [|lia]. nia.
Qed.

Lemma land_pow2 h n : 0 ≤ n → Z.land h (2 ^ n) = if Z.testbit h n then 2 ^ n else 0.
Proof.
  intros Hn. apply Z.bits_inj'. intros i Hi. rewrite Z.land_spec, Z.pow2_bits_eqb by lia.
  destruct (Z.eqb_spec n i) as [->|Hne].
  - destruct (Z.testbit h i); [by rewrite Z.pow2_bits_true by lia|]. by rewrite Z.bits_0.
  - rewrite andb_false_r. destruct (Z.testbit h n); [|by rewrite Z.bits_0]. by rewrite Z.pow2_bits_false by lia.
Qed.

(** Incrementing a reversed code word of length [n] from its high end is incrementing
    the code word: the ones skipped are the ones a carry turns to zeros. *)
Lemma skip_ones_next n fuel h q :
  (n ≤ fuel)%nat → 0 ≤ h → h mod 2 ^ Z.of_nat n = rev_bits n q →
  let incr := skip_ones fuel h (2 ^ Z.of_nat n / 2) in
  (if incr =? 0 then 0 else Z.land h (incr - 1) + incr) = rev_bits n (q + 1).
Proof.
  revert fuel q. induction n as [|n IH]; intros fuel q Hf Hh E; cbv zeta.
  { change (2 ^ Z.of_nat 0 / 2) with 0. destruct fuel; cbn [skip_ones]; by rewrite ?Z.land_0_r. }
  destruct fuel as [|fuel]; [lia|]. rewrite Nat2Z.inj_succ, Z.pow_succ_r in * by lia.
  rewrite (Z.mul_comm 2), Z.div_mul by lia. cbn [skip_ones rev_bits] in *. set (P := 2 ^ Z.of_nat n) in *.
  assert (0 < P) as HP by (apply Z.pow_pos_nonneg; lia). pose proof (rev_bits_range n (q / 2)) as Hr. fold P in Hr.
  pose proof (Z.mod_pos_bound q 2 ltac:(lia)) as Hq. pose proof (Z.div_mod q 2 ltac:(lia)) as Eq.
  assert (h = (2 * (h / (2 * P)) + q mod 2) * P + rev_bits n (q / 2)) as Eh by (pose proof (Z.div_mod h (2 * P) ltac:(lia)); lia).
  assert (h mod P = rev_bits n (q / 2)) as E'.
  { symmetry. apply (Z.mod_unique_pos _ _ (2 * (h / (2 * P)) + q mod 2)); lia. }
  assert (Z.testbit h (Z.of_nat n) = (q mod 2 =? 1)) as Eb.
  { rewrite Eh. unfold P. rewrite testbit_high_low, Z.ltb_irrefl, Z.sub_diag by (lia || apply rev_bits_range).
    rewrite Z.bit0_odd, Z.odd_add_mul_2 || rewrite Z.bit0_odd, Z.add_comm, Z.odd_add_mul_2.
    assert (q mod 2 = 0 ∨ q mod 2 = 1) as [-> | ->] by lia; done. }
  assert (Z.land h P = if q mod 2 =? 1 then P else 0) as -> by (rewrite <-Eb; apply land_pow2; lia). destruct (Z.eqb_spec (q mod 2) 1) as [H1|H1].
  - rewrite (proj2 (Z.eqb_neq P 0)) by lia. rewrite Z.shiftr_div_pow2 by lia. change (2 ^ 1) with 2.
    pose proof (IH fuel (q / 2) ltac:(lia) Hh E') as IH'. cbv zeta in IH'. fold P in IH'. rewrite IH'.
    replace ((q + 1) / 2) with (q / 2 + 1) by (apply (Z.div_unique_pos _ _ _ 0); lia).
    replace ((q + 1) mod 2) with 0 by (apply (Z.mod_unique_pos _ _ (q / 2 + 1)); lia). lia.
  - rewrite Z.eqb_refl, (proj2 (Z.eqb_neq P 0)) by lia. assert (q mod 2 = 0) as H0 by lia.
    replace ((q + 1) / 2) with (q / 2) by (apply (Z.div_unique_pos _ _ _ 1); lia).
    replace ((q + 1) mod 2) with 1 by (apply (Z.mod_unique_pos _ _ (q / 2)); lia).
    replace (P - 1) with (Z.ones (Z.of_nat n)) by (rewrite Z.ones_equiv; unfold P; lia). rewrite Z.land_ones by lia. fold P. lia.
Qed.

Lemma run_next_huff l p : 1 ≤ l ≤ 15 → 0 ≤ p < 2 ^ 15 → aligned l p →
  next_huff (rev15 p) l = rev15 (p + 2 ^ (15 - l)).
Proof.
  intros Hl Hp Ha. unfold aligned in Ha. set (B := 2 ^ (15 - l)) in *. assert (0 < B) as HB by (apply Z.pow_pos_nonneg; lia).
  assert (p = p / B * B) as Ep by (pose proof (Z.div_mod p B ltac:(lia)); lia).
  assert (∀ q, rev15 (q * B) = rev_bits (Z.to_nat l) q) as Hs.
  { intros q. rewrite <-(rev_bits_shift 15 (Z.to_nat l)) by lia. f_equal. f_equal. unfold B. f_equal. lia. }
  replace (p + B) with ((p / B + 1) * B) by lia. rewrite Ep at 1. rewrite !Hs. unfold next_huff.
  pose proof (rev_bits_range (Z.to_nat l) (p / B)) as Hr.
  pose proof (skip_ones_next (Z.to_nat l) 32 (rev_bits (Z.to_nat l) (p / B)) (p / B) ltac:(lia) ltac:(lia) (Z.mod_small _ _ Hr)) as H.
  cbv zeta in H. rewrite Z2Nat.id in H by lia. rewrite <-H. rewrite Z.shiftl_1_l, wrap_small.
  - replace (2 ^ l / 2) with (2 ^ (l - 1)); [done|]. replace l with (l - 1 + 1) at 2 by lia. rewrite Z.pow_add_r, Z.div_mul by lia. done.
  - split; [lia|]. apply Z.pow_lt_mono_r; lia.
Qed.

(** ** Sorted lengths *)

(** The room the code words of the lengths [ls] take, of [2^15]. *)
Fixpoint weight (ls : list Z) : Z :=
  match ls with
  | [] => 0
  | l :: ls => 2 ^ (15 - l) + weight ls
  end.

Definition length_ok (l : Z) : Prop := 1 ≤ l ≤ 15.

Lemma weight_app ls ls' : weight (ls ++ ls') = weight ls + weight ls'.
Proof. induction ls as [|l ls IH]; [done|]. cbn [app weight]. lia. Qed.

Lemma pow_pos_15 l : length_ok l → 0 < 2 ^ (15 - l).
Proof. unfold length_ok. intros. apply Z.pow_pos_nonneg; lia. Qed.

Lemma weight_nonneg ls : Forall length_ok ls → 0 ≤ weight ls.
Proof. induction 1 as [|l ls Hl _ IH]; [done|]. cbn [weight]. pose proof (pow_pos_15 l Hl). lia. Qed.

(** The room of the code words of at most [m] bits, of [2^m]. *)
Fixpoint room (m : Z) (ls : list Z) : Z :=
  match ls with
  | [] => 0
  | l :: ls => (if l <=? m then 2 ^ (m - l) else 0) + room m ls
  end.

Definition occurrences (l : Z) (ls : list Z) : nat := length (filter (λ x, x = l) ls).

Lemma occurrences_cons l x ls : occurrences l (x :: ls) = ((if decide (x = l) then 1 else 0) + occurrences l ls)%nat.
Proof. unfold occurrences. rewrite filter_cons. by destruct (decide (x = l)). Qed.

Lemma occurrences_elem l' (xs : list Z) : (0 < occurrences l' xs)%nat → ∃ j, xs !! j = Some l'.
Proof.
  intros H. unfold occurrences in H. destruct (filter (λ x, x = l') xs) as [|y ys] eqn:E; [simpl in H; lia|].
  assert (y ∈ filter (λ x, x = l') xs) as Hy by (rewrite E; constructor).
  apply list_elem_of_filter in Hy as [-> Hy]. by apply list_elem_of_lookup_1 in Hy.
Qed.

Lemma occurrences_pos l' (xs : list Z) j : xs !! j = Some l' → (0 < occurrences l' xs)%nat.
Proof.
  intros H. apply list_elem_of_lookup_2 in H. unfold occurrences.
  destruct (filter (λ x, x = l') xs) as [|y ys] eqn:E; [|simpl; lia]. exfalso.
  assert (l' ∈ filter (λ x, x = l') xs) as Hy by (by apply list_elem_of_filter). rewrite E in Hy. by apply elem_of_nil in Hy.
Qed.

Lemma room_succ m ls : room (m + 1) ls = 2 * room m ls + Z.of_nat (occurrences (m + 1) ls).
Proof.
  induction ls as [|l ls IH]; [done|]. rewrite occurrences_cons. cbn [room]. rewrite IH.
  destruct (decide (l = m + 1)) as [->|Hne].
  - rewrite (proj2 (Z.leb_le (m + 1) (m + 1))), (proj2 (Z.leb_gt (m + 1) m)), Z.sub_diag by lia. lia.
  - destruct (Z.leb_spec l m) as [H|H].
    + rewrite (proj2 (Z.leb_le l (m + 1))) by lia. replace (m + 1 - l) with (m - l + 1) by lia. rewrite Z.pow_add_r by lia. lia.
    + rewrite (proj2 (Z.leb_gt l (m + 1))) by lia. lia.
Qed.

Lemma room_small m ls : Forall (λ l, m < l) ls → room m ls = 0.
Proof. induction 1 as [|l ls Hl _ IH]; [done|]. cbn [room]. rewrite IH, (proj2 (Z.leb_gt l m)) by lia. done. Qed.

Lemma room_app m ls ls' : room m (ls ++ ls') = room m ls + room m ls'.
Proof. induction ls as [|l ls IH]; [done|]. cbn [app room]. lia. Qed.

Lemma room_weight m ls : Forall length_ok ls → m ≤ 15 → room m ls * 2 ^ (15 - m) ≤ weight ls.
Proof.
  intros Hls Hm. induction Hls as [|l ls Hl Hls IH]; [cbn; lia|]. cbn [room weight]. pose proof (pow_pos_15 l Hl).
  destruct (Z.leb_spec l m) as [H'|H']; [|lia]. assert (2 ^ (15 - l) = 2 ^ (m - l) * 2 ^ (15 - m)); [|lia].
  rewrite <-Z.pow_add_r by lia. f_equal. lia.
Qed.

Lemma room_15 ls : Forall length_ok ls → room 15 ls = weight ls.
Proof. induction 1 as [|l ls Hl _ IH]; [done|]. unfold length_ok in Hl. cbn [room weight]. rewrite (proj2 (Z.leb_le l 15)) by lia. lia. Qed.

Lemma room_nonneg m ls : 0 ≤ room m ls.
Proof. induction ls as [|l ls IH]; [done|]. cbn [room]. destruct (l <=? m); [|lia]. pose proof (Z.pow_nonneg 2 (m - l) ltac:(lia)). lia. Qed.

(** Code words of at most [m] bits take the room of all. *)
Lemma weight_room m ls : Forall length_ok ls → Forall (λ l, l ≤ m) ls → m ≤ 15 → weight ls = room m ls * 2 ^ (15 - m).
Proof.
  intros Hls Hm Hm15. induction Hls as [|l ls Hl Hls IH]; [done|]. apply Forall_cons in Hm as [Hlm Hm]. cbn [room weight].
  rewrite (IH Hm), (proj2 (Z.leb_le l m)) by done. rewrite Z.mul_add_distr_r, <-Z.pow_add_r by lia. do 2 f_equal. lia.
Qed.

(** Where the lengths reach [m] first, if they do. *)
Lemma first_at_least m (ls : list Z) :
  ∃ n, Forall (λ l, l < m) (take n ls) ∧ (n = length ls ∨ ∃ l, ls !! n = Some l ∧ m ≤ l).
Proof.
  induction ls as [|l ls (n & Hn & Hw)]; [exists 0%nat; split; [constructor|by left]|]. destruct (decide (l < m)) as [Hlt|Hge].
  - exists (S n). split; [by constructor|]. destruct Hw as [->|Hw]; [by left|by right].
  - exists 0%nat. split; [constructor|]. right. exists l. split; [done|lia].
Qed.

(** The sum of [f] below [n]. *)
Fixpoint sum_below (f : Z → Z) (n : nat) : Z :=
  match n with O => 0 | Datatypes.S n => sum_below f n + f (Z.of_nat n) end.

Lemma sum_below_flat f n m : (n ≤ m)%nat → (∀ b, Z.of_nat n ≤ b < Z.of_nat m → f b = 0) → sum_below f m = sum_below f n.
Proof.
  intros Hnm Hz. induction Hnm as [|m Hnm IH]; [done|]. cbn [sum_below]. rewrite IH, Hz by (lia || (intros; apply Hz; lia)). lia.
Qed.

Lemma sum_below_mono f n m : (n ≤ m)%nat → (∀ b, 0 ≤ f b) → sum_below f n ≤ sum_below f m.
Proof. intros Hnm Hf. induction Hnm as [|m Hnm IH]; [done|]. cbn [sum_below]. pose proof (Hf (Z.of_nat m)). lia. Qed.

Lemma sum_below_zero f n : (∀ b, 0 ≤ b < Z.of_nat n → f b = 0) → sum_below f n = 0.
Proof. intros Hz. apply (sum_below_flat f 0 n); [lia|]. intros b Hb. apply Hz. lia. Qed.

Lemma sum_below_step f b : 0 ≤ b → sum_below f (Z.to_nat (b + 1)) = sum_below f (Z.to_nat b) + f b.
Proof. intros Hb. replace (Z.to_nat (b + 1)) with (Datatypes.S (Z.to_nat b)) by lia. cbn [sum_below]. by rewrite Z2Nat.id. Qed.

(** *** The bits of a sub-table *)

(** [count] has the number of code words of each length. *)
Definition counts (ls count : list Z) : Prop :=
  length count = 16%nat ∧ ∀ l, length_ok l → count !! Z.to_nat l = Some (Z.of_nat (occurrences l ls)).

Lemma run_sub_bits {S} count ls max len drop (s : S) :
  counts ls count → Forall (λ l, len ≤ l) ls → length_ok len → drop < len ≤ max → max ≤ 15 →
  ∃ m, sub_bits count max len drop s = Ret (m - drop) s ∧ len ≤ m ≤ max ∧ (m = max ∨ 2 ^ (m - drop) ≤ room m ls) ∧
    (m = len ∨ room (m - 1) ls < 2 ^ (m - 1 - drop)).
Proof.
  intros [_ Hc] Hls Hlen Hd Hmax. unfold sub_bits, length_ok in *.
  assert (∀ fuel m, len ≤ m ≤ max → max - m < Z.of_nat fuel → m = len ∨ room (m - 1) ls < 2 ^ (m - 1 - drop) →
    ∃ m', loop fuel (λ '(curr, lft),
      if curr + drop <? max then
        n ← elem count (curr + drop);
        let lft := lft - n in
        if lft <=? 0 then Break curr else Next (curr + 1, Z.shiftl lft 1)
      else Break curr) (m - drop, 2 ^ (m - drop) - 2 * room (m - 1) ls) s = Ret (m' - drop) s ∧
    m ≤ m' ≤ max ∧ (m' = max ∨ 2 ^ (m' - drop) ≤ room m' ls) ∧ (m' = len ∨ room (m' - 1) ls < 2 ^ (m' - 1 - drop))) as H.
  { induction fuel as [|fuel IH]; intros m Hm Hf Hmin; [lia|]. rewrite run_loop. cbn beta iota. replace (m - drop + drop) with m by lia.
    destruct (Z.ltb_spec m max) as [Hlt|Hge]; [|exists m; split; [done|]; split; [lia|]; split; [lia|done]].
    rewrite run_bind, (run_elem _ _ (Z.of_nat (occurrences m ls))) by (lia || apply Hc; lia). cbn beta iota zeta.
    pose proof (room_succ (m - 1) ls) as Hr. replace (m - 1 + 1) with m in Hr by lia.
    replace (2 ^ (m - drop) - 2 * room (m - 1) ls - Z.of_nat (occurrences m ls)) with (2 ^ (m - drop) - room m ls) by lia.
    destruct (Z.leb_spec (2 ^ (m - drop) - room m ls) 0) as [H0|H0].
    { exists m. split; [done|]. split; [lia|]. split; [right; lia|done]. }
    rewrite run_ret. cbn beta iota. destruct (IH (m + 1) ltac:(lia) ltac:(lia)) as (m' & Hrun & Hm' & Hres).
    { right. replace (m + 1 - 1) with m by lia. lia. }
    exists m'. split; [|split; [lia|done]].
    rewrite <-Hrun. f_equal. f_equal; [lia|]. rewrite Z.shiftl_mul_pow2 by lia. replace (m + 1 - drop) with (m - drop + 1) by lia.
    rewrite Z.pow_add_r by lia. replace (m + 1 - 1) with m by lia. lia. }
  destruct (H (Z.to_nat (MAXBITS + 1)) len ltac:(lia) ltac:(unfold MAXBITS; lia) ltac:(by left)) as (m & Hrun & Hm & Hres). exists m. split; [|done].
  rewrite <-Hrun, Z.shiftl_1_l. rewrite room_small, Z.mul_0_r, Z.sub_0_r; [done|].
  apply (Forall_impl _ _ _ Hls). intros. lia.
Qed.

(** *** Replicated entries *)

Lemma run_put_entry size i e (t : gmap Z code) : 0 ≤ i < size → put_entry size i e t = Ret tt (<[i := e]> t).
Proof. intros Hi. unfold put_entry. by rewrite (proj2 (Z.leb_le 0 i)), (proj2 (Z.ltb_lt i size)) by lia. Qed.

(** [n] entries, [incr] apart. *)
Lemma run_replicate_entry size at_ incr n this (t : gmap Z code) :
  0 ≤ at_ → 0 < incr → (0 < n)%nat → incr * Z.of_nat n < 2 ^ 32 → at_ + incr * (Z.of_nat n - 1) < size →
  ∃ t', replicate_entry size at_ incr (incr * Z.of_nat n) this t = Ret tt t' ∧
  (∀ k, 0 ≤ k < Z.of_nat n → t' !! (at_ + incr * k) = Some this) ∧
  (∀ i, (∀ k, 0 ≤ k < Z.of_nat n → i ≠ at_ + incr * k) → t' !! i = t !! i).
Proof.
  intros Hat Hincr Hn Hw Hs. unfold replicate_entry. assert ((n ≤ Z.to_nat (incr * Z.of_nat n))%nat) as Hfuel by nia.
  revert Hfuel. generalize (Z.to_nat (incr * Z.of_nat n)) as fuel. intros fuel. revert n fuel t Hn Hw Hs.
  induction n as [|n IH]; intros fuel t Hn Hw Hs Hfuel; [lia|]. destruct fuel as [|fuel]; [lia|]. rewrite run_loop. cbn beta iota zeta.
  replace (incr * Z.of_nat (S n) - incr) with (incr * Z.of_nat n) by lia. rewrite wrap_small by lia.
  rewrite run_bind, run_put_entry by lia. cbn beta iota. destruct n as [|n].
  - change (Z.of_nat 0) with 0. rewrite Z.mul_0_r, Z.eqb_refl, run_ret. cbn beta iota. eexists. split; [done|]. split.
    + intros k Hk. replace k with 0 by lia. rewrite Z.mul_0_r. by rewrite lookup_insert_eq.
    + intros i Hi. specialize (Hi 0 ltac:(lia)). rewrite lookup_insert_ne; [done|]. lia.
  - rewrite (proj2 (Z.eqb_neq _ 0)) by nia. rewrite run_ret. cbn beta iota.
    destruct (IH fuel (<[at_ + incr * Z.of_nat (S n) := this]> t)) as (t' & Hrun & H1 & H2); [lia..|nia|lia|]. exists t'. split; [done|]. split.
    + intros k Hk. destruct (decide (k = Z.of_nat (S n))) as [->|]; [|apply H1; lia].
      rewrite H2; [by rewrite lookup_insert_eq|]. intros k Hk'. nia.
    + intros i Hi. rewrite H2 by (intros k Hk; apply Hi; lia). rewrite lookup_insert_ne; [done|]. specialize (Hi (Z.of_nat (S n))). lia.
Qed.

(** ** Positions of the code words *)

Section positions.
Context (ls : list Z).
Hypothesis Hok : Forall length_ok ls.
Hypothesis Hsorted : ∀ i j a b, (i ≤ j)%nat → ls !! i = Some a → ls !! j = Some b → a ≤ b.
Hypothesis Hfit : weight ls ≤ 2 ^ 15.

(** Where the interval of code word [k] starts. *)
Definition pos (k : nat) : Z := weight (take k ls).

Lemma lens_ok k l : ls !! k = Some l → length_ok l.
Proof. intros Hk. rewrite Forall_lookup in Hok. by apply (Hok k). Qed.

Lemma pos_S k l : ls !! k = Some l → pos (S k) = pos k + 2 ^ (15 - l).
Proof. intros Hk. unfold pos. erewrite take_S_r by done. rewrite weight_app. cbn [weight]. lia. Qed.

Lemma pos_le i j : (i ≤ j)%nat → pos i ≤ pos j.
Proof.
  intros Hij. unfold pos. rewrite <-(take_drop i (take j ls)). rewrite take_take, Nat.min_l by done. rewrite weight_app.
  pose proof (weight_nonneg (drop i (take j ls)) ltac:(by apply Forall_drop, Forall_take)). lia.
Qed.

Lemma pos_nonneg k : 0 ≤ pos k.
Proof. apply (pos_le 0 k). lia. Qed.

Lemma pos_weight k : pos k ≤ weight ls.
Proof.
  unfold pos. rewrite <-(take_drop k ls) at 2. rewrite weight_app. pose proof (weight_nonneg (drop k ls) ltac:(by apply Forall_drop)). lia.
Qed.

Lemma pos_bound k l : ls !! k = Some l → 0 ≤ pos k < 2 ^ 15.
Proof.
  intros Hk. pose proof (pos_nonneg k). pose proof (pos_weight (S k)). rewrite (pos_S k l) in * by done.
  pose proof (pow_pos_15 l (lens_ok k l Hk)). lia.
Qed.

Lemma pow_divide a b : 1 ≤ a ≤ b → b ≤ 15 → (2 ^ (15 - b) | 2 ^ (15 - a)).
Proof. intros H1 H2. exists (2 ^ (b - a)). rewrite <-Z.pow_add_r by lia. f_equal. lia. Qed.

(** Every code word starts at a multiple of its room. *)
Lemma pos_aligned k m : length_ok m → (∀ j l, (j < k)%nat → ls !! j = Some l → l ≤ m) → aligned m (pos k).
Proof.
  intros Hm. unfold aligned. induction k as [|k IH]; intros Hk; [by rewrite Z.mod_0_l by (apply Z.pow_nonzero; unfold length_ok in Hm; lia)|].
  destruct (ls !! k) as [l|] eqn:El.
  - rewrite (pos_S k l) by done. pose proof (lens_ok k l El) as Hl. pose proof (Hk k l ltac:(lia) El) as Hlm. unfold length_ok in *.
    apply Z.mod_divide; [apply Z.pow_nonzero; lia|]. apply Z.divide_add_r; [|apply pow_divide; lia].
    apply Z.mod_divide; [apply Z.pow_nonzero; lia|]. apply IH. intros j l' Hj. apply Hk. lia.
  - unfold pos in *. rewrite take_ge by (apply lookup_ge_None in El; lia). rewrite <-(take_ge ls k) by (by apply lookup_ge_None in El).
    apply IH. intros j l Hj. apply Hk. lia.
Qed.

Lemma pos_aligned_at k l : ls !! k = Some l → aligned l (pos k).
Proof. intros Hk. apply pos_aligned; [by eapply lens_ok|]. intros j l' Hj El'. by apply (Hsorted j k l' l); [lia|..]. Qed.

(** *** Blocks: the positions with the same [root] first bits *)

Section blocks.
Context (root : Z) (Hroot : 1 ≤ root ≤ 15).

Definition block (p : Z) : Z := p / 2 ^ (15 - root).

Lemma block_pow : 0 < 2 ^ (15 - root).
Proof. apply Z.pow_pos_nonneg; lia. Qed.

(** The root index of a word tells the block it is in. *)
Lemma index_block x y : x mod 2 ^ root = y mod 2 ^ root ↔ block (rev15 x) = block (rev15 y).
Proof.
  pose proof block_pow as HB. unfold block. split; intros H.
  - assert (rev15 (x mod 2 ^ root) = rev15 (y mod 2 ^ root)) as H' by (by rewrite H). rewrite !rev15_mod in H' by lia. nia.
  - assert (∀ z, 0 ≤ z mod 2 ^ root < 2 ^ 15) as Hz.
    { intros z. pose proof (Z.mod_pos_bound z (2 ^ root) ltac:(lia)). pose proof (Z.pow_le_mono_r 2 root 15 ltac:(lia) ltac:(lia)). lia. }
    rewrite <-(rev15_rev15 (x mod 2 ^ root)), <-(rev15_rev15 (y mod 2 ^ root)) by apply Hz. by rewrite !rev15_mod, H by lia.
Qed.

Lemma index_block_pos x p : 0 ≤ p < 2 ^ 15 → x mod 2 ^ root = rev15 p mod 2 ^ root ↔ block (rev15 x) = block p.
Proof. intros Hp. by rewrite index_block, rev15_rev15 by done. Qed.

(** After a code word longer than [root] the next position is in the same block or at
    the start of the next. *)
Lemma block_step k l : ls !! k = Some l → root ≤ l →
  block (pos (S k)) = block (pos k) ∨ pos (S k) = (block (pos k) + 1) * 2 ^ (15 - root) ∧ block (pos (S k)) = block (pos k) + 1.
Proof.
  intros Hk Hl. pose proof (pos_aligned_at k l Hk) as Ha. pose proof (lens_ok k l Hk) as Hlo. pose proof (pow_pos_15 l Hlo) as Hp.
  rewrite (pos_S k l Hk). unfold aligned, block, length_ok in *. set (P := 2 ^ (15 - l)) in *. pose proof block_pow as HB.
  assert (2 ^ (15 - root) = 2 ^ (l - root) * P) as EB by (unfold P; rewrite <-Z.pow_add_r by lia; f_equal; lia).
  set (B := 2 ^ (15 - root)) in *. set (b := pos k / B). pose proof (Z.div_mod (pos k) B ltac:(lia)) as Ed. fold b in Ed.
  pose proof (Z.mod_pos_bound (pos k) B HB) as Hm. set (r := pos k mod B) in *.
  assert (r = r / P * P) as Er.
  { assert (r mod P = 0); [|pose proof (Z.div_mod r P ltac:(lia)); lia]. rewrite <-Ha, Ed, EB.
    replace (2 ^ (l - root) * P * b + r) with (r + 2 ^ (l - root) * b * P) by ring. by rewrite Z_mod_plus_full. }
  destruct (decide (r + P < B)) as [H|H].
  - left. symmetry. apply (Z.div_unique_pos _ _ _ (r + P)); lia.
  - right. assert (r + P = B) as E.
    { assert (r / P < 2 ^ (l - root)); nia. }
    split; [lia|]. symmetry. apply (Z.div_unique_pos _ _ _ 0); lia.
Qed.

(** The block of a code word is at most the next when a shorter one precedes it. *)
Lemma block_start k l : ls !! k = Some l → l ≤ root → pos (S k) = block (pos (S k)) * 2 ^ (15 - root).
Proof.
  intros Hk Hl. assert (aligned root (pos (S k))) as Ha.
  { apply pos_aligned; [unfold length_ok; lia|]. intros j l' Hj El'. pose proof (Hsorted j k l' l ltac:(lia) El' Hk). lia. }
  unfold aligned, block in *. pose proof (Z.div_mod (pos (S k)) (2 ^ (15 - root)) ltac:(pose proof block_pow; lia)). lia.
Qed.

(** All the code words of a block fit in a sub-table that either has the bits of the
    longest code word or is filled by those of at most [m] bits. *)
Lemma block_fits k m b max :
  (∀ j l, ls !! j = Some l → l ≤ max) → root < m ≤ max → max ≤ 15 → pos k = b * 2 ^ (15 - root) →
  m = max ∨ 2 ^ (m - root) ≤ room m (drop k ls) →
  ∀ j l, (k ≤ j)%nat → ls !! j = Some l → block (pos j) = b → l ≤ m.
Proof.
  intros Hmax Hm Hmax15 Hb [->|Hr] j l Hj El Hbl; [by eapply Hmax|]. destruct (decide (l ≤ m)) as [|Hlm]; [done|]. exfalso.
  assert (drop k ls = drop k (take j ls) ++ drop j ls) as E.
  { rewrite <-(take_drop j ls) at 1. rewrite drop_app_le; [done|]. rewrite length_take_le; [done|]. apply lookup_lt_Some in El. lia. }
  assert (room m (drop j ls) = 0) as H0.
  { apply room_small. apply Forall_lookup. intros i a Ha. rewrite lookup_drop in Ha.
    pose proof (Hsorted j (j + i) l a ltac:(lia) El Ha). lia. }
  rewrite E, room_app, H0, Z.add_0_r in Hr.
  pose proof (room_weight m (drop k (take j ls)) ltac:(by apply Forall_drop, Forall_take) ltac:(lia)) as Hw.
  assert (pos j = pos k + weight (drop k (take j ls))) as Epos.
  { unfold pos. rewrite <-(take_drop k (take j ls)) at 1. rewrite weight_app, take_take, Nat.min_l by done. done. }
  assert (2 ^ (15 - root) = 2 ^ (m - root) * 2 ^ (15 - m)) as EB by (rewrite <-Z.pow_add_r by lia; f_equal; lia).
  assert (pos k + 2 ^ (15 - root) ≤ pos j) as Hge.
  { rewrite Epos, EB. pose proof (Z.pow_pos_nonneg 2 (15 - m) ltac:(lia) ltac:(lia)). nia. }
  unfold block in Hbl. pose proof (Z.div_mod (pos j) (2 ^ (15 - root)) ltac:(pose proof block_pow; lia)).
  pose proof (Z.mod_pos_bound (pos j) _ block_pow). rewrite Hbl in *. lia.
Qed.

(** Of a complete code, the block has a code word of as many bits as [m], when those of
    fewer do not fill it. *)
Lemma block_exact k len m b max :
  weight ls = 2 ^ 15 → (∀ j l, ls !! j = Some l → l ≤ max) → root < m ≤ max → max ≤ 15 →
  ls !! k = Some len → pos k = b * 2 ^ (15 - root) → m = max ∨ 2 ^ (m - root) ≤ room m (drop k ls) →
  m = len ∨ room (m - 1) (drop k ls) < 2 ^ (m - 1 - root) →
  ∃ j, (k ≤ j)%nat ∧ ls !! j = Some m ∧ block (pos j) = b.
Proof.
  intros Hfull Hmax Hm Hm15 Hk Hb Hfits Hmin. pose proof block_pow as HB. pose proof (pos_bound k len Hk) as Hp.
  destruct Hmin as [->|Hmin].
  { exists k. split_and!; [done|done|]. unfold block. rewrite Hb. apply Z.div_mul. lia. }
  destruct (first_at_least m (drop k ls)) as (n & Hlt & Hn).
  assert (Forall length_ok (take n (drop k ls))) as Hok' by (by apply Forall_take, Forall_drop).
  assert (weight (take n (drop k ls)) < 2 ^ (15 - root)) as Hw.
  { rewrite (weight_room (m - 1)) by (done || lia || (apply (Forall_impl _ _ _ Hlt); intros; lia)).
    rewrite <-(take_drop n (drop k ls)), room_app in Hmin. pose proof (room_nonneg (m - 1) (drop n (drop k ls))).
    replace (15 - root) with ((m - 1 - root) + (15 - (m - 1))) by lia. rewrite Z.pow_add_r by lia.
    apply Z.mul_lt_mono_pos_r; [apply Z.pow_pos_nonneg; lia|lia]. }
  assert (pos (k + n) = pos k + weight (take n (drop k ls))) as Epos.
  { unfold pos. rewrite <-(take_drop k (take (k + n) ls)), take_take, Nat.min_l, weight_app by lia. f_equal. f_equal.
    rewrite <-take_drop_commute. done. }
  pose proof (weight_nonneg _ Hok').
  assert (∃ l, ls !! (k + n)%nat = Some l ∧ m ≤ l) as (l & Hl & Hml).
  { destruct Hn as [Hn|(l & Hl & Hml)]; [|rewrite lookup_drop in Hl; by exists l].
    exfalso. rewrite length_drop in Hn. assert (pos (k + n) = 2 ^ 15) as E by (unfold pos; rewrite take_ge by (apply lookup_lt_Some in Hk; lia); done).
    assert (2 ^ 15 = 2 ^ root * 2 ^ (15 - root)) as E15 by (rewrite <-Z.pow_add_r by lia; f_equal; lia).
    rewrite Epos, Hb, E15 in E. rewrite Hb, E15 in Hp. assert (b < 2 ^ root) by (apply (Z.mul_lt_mono_pos_r (2 ^ (15 - root))); lia). nia. }
  assert (block (pos (k + n)) = b) as Hbl by (unfold block; symmetry; apply (Z.div_unique_pos _ _ _ (weight (take n (drop k ls)))); lia).
  exists (k + n)%nat. split; [lia|]. split; [|done]. pose proof (block_fits k m b max Hmax Hm Hm15 Hb Hfits (k + n) l ltac:(lia) Hl Hbl).
  replace m with l by lia. done.
Qed.
End blocks.
End positions.
