(* ===== verification/InftreesLoop.v ===== *)
(** * Decoding tables: the loop over the code words

    The invariant of the loop of [inflate_table]: when code word [k] is next, every word
    whose position is before that of [k] is found in the tables, either in the root
    table or, by a link from there, in a sub-table below the space in use; the sub-table
    being filled has room for all code words of its block. *)

From Stdlib Require Import List.
From stdpp Require Import base tactics numbers list gmap.
From S2P Require Import Prelude Inftrees InftreesSpec.

Open Scope Z_scope.

(** ** Slots *)

(** In a table of [c] bits that skips the first [d] bits of a word, the slots of the
    words that start with the code word [huff] are [2^(l-d)] apart. *)
Lemma slots d c l huff x : 0 ≤ d ≤ l → l ≤ d + c → 0 ≤ huff < 2 ^ l → x mod 2 ^ d = huff mod 2 ^ d →
  x mod 2 ^ l = huff ↔ ∃ m, 0 ≤ m < 2 ^ (d + c - l) ∧ x mod 2 ^ (d + c) / 2 ^ d = huff / 2 ^ d + 2 ^ (l - d) * m.
Proof.
  intros Hd Hl Hh Hx. set (D := 2 ^ d) in *. set (E := 2 ^ (l - d)). set (M := 2 ^ (d + c - l)).
  assert (0 < D ∧ 0 < E ∧ 0 < M) as (HD & HE & HM) by (split_and!; apply Z.pow_pos_nonneg; lia).
  assert (2 ^ l = D * E) as El by (unfold D, E; rewrite <-Z.pow_add_r by lia; f_equal; lia).
  assert (2 ^ (d + c) = D * E * M) as Edc by (rewrite <-El; unfold M; rewrite <-Z.pow_add_r by lia; f_equal; lia).
  rewrite El, Edc in *. pose proof (Z.mod_pos_bound x (D * E * M) ltac:(nia)) as Hr.
  assert (x mod (D * E) = x mod (D * E * M) mod (D * E)) as E1.
  { rewrite (Z.mod_eq x (D * E * M)) by nia. rewrite <-(Z_mod_plus_full x (- (M * (x / (D * E * M))))). f_equal. ring. }
  assert (x mod D = x mod (D * E * M) mod D) as E2.
  { rewrite (Z.mod_eq x (D * E * M)) by nia. rewrite <-(Z_mod_plus_full x (- (E * M * (x / (D * E * M))))). f_equal. ring. }
  rewrite E1. rewrite E2 in Hx. set (r := x mod (D * E * M)) in *. clearbody r.
  pose proof (Z.div_mod r D ltac:(lia)) as Er. pose proof (Z.div_mod huff D ltac:(lia)) as Eh.
  pose proof (Z.mod_pos_bound r D HD). pose proof (Z.mod_pos_bound huff D HD). split.
  - intros H'. exists (r / (D * E)). split.
    + split; [apply Z.div_pos; nia|]. apply Z.div_lt_upper_bound; nia.
    + pose proof (Z.div_mod r (D * E) ltac:(nia)) as Er'. rewrite H' in Er'.
      symmetry. apply (Z.div_unique_pos _ _ _ (r mod D)); [lia|]. nia.
  - intros (m & Hm & Em). symmetry. apply (Z.mod_unique_pos _ _ m); [lia|]. nia.
Qed.

Lemma slot_bound d c x : 0 ≤ d → 0 ≤ c → 0 ≤ x mod 2 ^ (d + c) / 2 ^ d < 2 ^ c.
Proof.
  intros Hd Hc. pose proof (Z.pow_pos_nonneg 2 d ltac:(lia) Hd). pose proof (Z.mod_pos_bound x (2 ^ (d + c)) ltac:(apply Z.pow_pos_nonneg; lia)) as H'.
  split; [apply Z.div_pos; lia|]. apply Z.div_lt_upper_bound; [lia|]. rewrite <-Z.pow_add_r by lia. lia.
Qed.

(** The entries of a code word, in a table at [next]. *)
Lemma run_word_entries size next d c l huff this (t : gmap Z code) :
  0 ≤ next → 0 ≤ d ≤ l → l ≤ d + c → c < 32 → 0 ≤ huff < 2 ^ l → next + 2 ^ c ≤ size →
  ∃ t', replicate_entry size (next + Z.shiftr huff d) (u32 (Z.shiftl 1 (l - d))) (u32 (Z.shiftl 1 c)) this t = Ret tt t' ∧
  (∀ x, x mod 2 ^ d = huff mod 2 ^ d →
    t' !! (next + x mod 2 ^ (d + c) / 2 ^ d) = if decide (x mod 2 ^ l = huff) then Some this else t !! (next + x mod 2 ^ (d + c) / 2 ^ d)) ∧
  (∀ i, i < next ∨ next + 2 ^ c ≤ i → t' !! i = t !! i).
Proof.
  intros Hn Hd Hl Hc Hh Hs. rewrite !Z.shiftl_1_l, Z.shiftr_div_pow2 by lia.
  assert (∀ e, 0 ≤ e ≤ c → 0 < 2 ^ e < 2 ^ 32) as Hp.
  { intros e He. split; [apply Z.pow_pos_nonneg; lia|]. apply Z.pow_lt_mono_r; lia. }
  rewrite !wrap_small by (pose proof (Hp (l - d)); pose proof (Hp c); lia).
  assert (2 ^ c = 2 ^ (l - d) * Z.of_nat (Z.to_nat (2 ^ (d + c - l)))) as Ec.
  { rewrite Z2Nat.id by (pose proof (Z.pow_nonneg 2 (d + c - l)); lia). rewrite <-Z.pow_add_r by lia. f_equal. lia. }
  pose proof (Z.pow_pos_nonneg 2 (d + c - l) ltac:(lia) ltac:(lia)) as HM. pose proof (Hp (l - d) ltac:(lia)) as HE. pose proof (Hp c ltac:(lia)) as HC.
  assert (0 ≤ huff / 2 ^ d < 2 ^ (l - d)) as Hq.
  { pose proof (Z.pow_pos_nonneg 2 d ltac:(lia) ltac:(lia)). split; [apply Z.div_pos; lia|]. apply Z.div_lt_upper_bound; [lia|].
    rewrite <-Z.pow_add_r by lia. replace (d + (l - d)) with l by lia. lia. }
  rewrite Ec. destruct (run_replicate_entry size (next + huff / 2 ^ d) (2 ^ (l - d)) (Z.to_nat (2 ^ (d + c - l))) this t)
    as (t' & Hrun & H1 & H2); [lia|lia|lia|lia|lia|]. rewrite Z2Nat.id in * by lia. exists t'. split; [done|]. split.
  - intros x Hx. pose proof (slots d c l huff x Hd Hl Hh Hx) as Hsl. destruct (decide (x mod 2 ^ l = huff)) as [E|E].
    + apply Hsl in E as (m & Hm & ->). rewrite Z.add_assoc. by apply H1.
    + apply H2. intros m Hm Em. apply E, Hsl. exists m. split; [done|]. lia.
  - intros i Hi. apply H2. intros m Hm ->. nia.
Qed.

(** ** The loop *)

Section loop.
Context (type : codetype) (size : Z) (lens work : list Z).
(** The lengths of the code words in order, and what their entries say. *)
Context (ls : list Z) (ops vals : nat → Z).
Context (root max : Z).

Hypothesis Hok : Forall length_ok ls.
Hypothesis Hsorted : ∀ i j a b, (i ≤ j)%nat → ls !! i = Some a → ls !! j = Some b → a ≤ b.
Hypothesis Hfit : weight ls ≤ 2 ^ 15.
Hypothesis HN : Z.of_nat (length ls) < 2 ^ 16.
Hypothesis Hwork : ∀ k l, ls !! k = Some l → ∃ w, work !! k = Some w ∧ 0 ≤ w ∧ lens !! Z.to_nat w = Some l ∧
  ∀ b (t : gmap Z code), make_entry type work w b t = Ret (Code (ops k) (u8 b) (vals k)) t.
Hypothesis Hmax : ∀ k, S k = length ls → ls !! k = Some max.
Hypothesis Hroot : 1 ≤ root ≤ max.
Hypothesis Hsize : (if is_LENS type then ENOUGH - MAXD else 2 ^ 16) ≤ size.

Abbreviation pos := (pos ls).
Abbreviation block := (block root).

(** The code is complete, or has no code words longer than the root table's; and the
    space of the sub-table of a block: none without longer code words, or the bits of
    the longest. *)
Context (sub : Z → Z).
Hypothesis Hfull : weight ls = 2 ^ 15 ∨ max ≤ root.
Hypothesis Hsub0 : ∀ b, 0 ≤ sub b.
Hypothesis Hsub_none : ∀ b, (∀ k l, ls !! k = Some l → root < l → block (pos k) ≠ b) → sub b = 0.
Hypothesis Hsub_some : ∀ k m, ls !! k = Some m → root < m →
  (∀ j l, ls !! j = Some l → root < l → block (pos j) = block (pos k) → l ≤ m) → sub (block (pos k)) = 2 ^ (m - root).

(** The space taken with the sub-tables of the first [b] blocks, and that of all. *)
Definition space_of (b : Z) : Z := 2 ^ root + sum_below sub (Z.to_nat b).
Definition space : Z := space_of (2 ^ root).

Definition space_small (used : Z) : Prop := is_LENS type && (ENOUGH - MAXD <=? used) = false.

Lemma max_ok k l : ls !! k = Some l → l ≤ max ∧ max ≤ 15.
Proof.
  intros Hk. pose proof (lookup_lt_Some _ _ _ Hk) as Hlt. destruct (length ls) as [|n] eqn:En; [lia|].
  pose proof (Hmax n eq_refl) as Hn. split; [apply (Hsorted k n); [lia|done..]|]. apply (lens_ok ls Hok n max Hn).
Qed.

(** The word [x] finds code word [k] in the tables, whose sub-tables end before [U]. *)
Definition found (t : gmap Z code) (U x : Z) (k : nat) (l : Z) : Prop :=
  (l ≤ root ∧ t !! (x mod 2 ^ root) = Some (Code (ops k) l (vals k))) ∨
  (root < l ∧ ∃ c n, 1 ≤ c ∧ l ≤ root + c ≤ 15 ∧ 2 ^ root ≤ n ∧ n + 2 ^ c ≤ U ∧
    t !! (x mod 2 ^ root) = Some (Code c root n) ∧
    t !! (n + x mod 2 ^ (root + c) / 2 ^ root) = Some (Code (ops k) (l - root) (vals k))).

(** Every word before the position of code word [k] is found. *)
Definition decoded (t : gmap Z code) (k : nat) (U : Z → Z) : Prop :=
  ∀ x, rev15 x < pos k →
  ∃ j l, ls !! j = Some l ∧ pos j ≤ rev15 x < pos j + 2 ^ (15 - l) ∧ found t (U x) x j l.

(** The end of the sub-tables a word may use. *)
Definition limit (low used next x : Z) : Z := if x mod 2 ^ root =? low then used else next.

(** Where the next entries go: still the root table, or a sub-table. *)
Definition in_root (l next curr drop low used : Z) : Prop :=
  drop = 0 ∧ next = 0 ∧ curr = root ∧ low = 2 ^ 32 - 1 ∧ used = 2 ^ root ∧ l ≤ root.

Definition in_sub (t : gmap Z code) (k : nat) (l next curr drop low used : Z) : Prop :=
  drop = root ∧ root < l ∧ low = rev15 (pos k) mod 2 ^ root ∧ 2 ^ root ≤ next ∧ used = next + 2 ^ curr ∧
  1 ≤ curr ∧ root + curr ≤ max ∧ t !! low = Some (Code curr root next) ∧
  ∀ j l', (k ≤ j)%nat → ls !! j = Some l' → block (pos j) = block (pos k) → l' ≤ root + curr.

(** Entries outside of the space in use are not touched. *)
Definition framed (t0 t : gmap Z code) (used : Z) : Prop := ∀ i, i < 0 ∨ used ≤ i → t !! i = t0 !! i.

Definition space_ok (k : nat) (used : Z) : Prop :=
  2 ^ root ≤ used ≤ size ∧ used ≤ 2 ^ root + (block (pos k) + 1) * 2 ^ (15 - root).

Record inv (t0 t : gmap Z code) (k : nat) (count : list Z) (l next curr drop low used : Z) : Prop := {
  inv_len : ls !! k = Some l;
  inv_counts : counts (list.drop k ls) count;
  inv_space : space_ok k used;
  inv_frame : framed t0 t used;
  inv_decoded : decoded t k (limit low used next);
  inv_where : in_root l next curr drop low used ∨ in_sub t k l next curr drop low used;
  inv_used : used = space_of (block (pos k) + 1) ∧ space_small used;
}.

Lemma root_15 k l : ls !! k = Some l → 1 ≤ root ≤ 15.
Proof. intros Hk. pose proof (max_ok k l Hk). lia. Qed.

Lemma pow_root_16 : root ≤ 15 → 0 < 2 ^ root ≤ 2 ^ 15.
Proof. intros H. split; [apply Z.pow_pos_nonneg; lia|]. apply Z.pow_le_mono_r; lia. Qed.

(** The reversed code word has no more bits than its length. *)
Lemma huff_range k l : ls !! k = Some l → 0 ≤ rev15 (pos k) < 2 ^ l.
Proof.
  intros Hk. pose proof (lens_ok ls Hok k l Hk) as Hl. unfold length_ok in Hl. pose proof (pos_bound ls Hok Hfit k l Hk) as Hp.
  assert (rev15 (pos k) mod 2 ^ l = rev15 (pos k)) as E.
  { apply starts_interval; [lia|done|by apply pos_aligned_at|]. rewrite rev15_rev15 by done. pose proof (pow_pos_15 l ltac:(unfold length_ok; lia)). lia. }
  rewrite <-E. apply Z.mod_pos_bound. apply Z.pow_pos_nonneg; lia.
Qed.

Lemma starts_word k l x : ls !! k = Some l → x mod 2 ^ l = rev15 (pos k) ↔ pos k ≤ rev15 x < pos k + 2 ^ (15 - l).
Proof.
  intros Hk. pose proof (lens_ok ls Hok k l Hk) as Hl. unfold length_ok in Hl.
  apply starts_interval; [lia|by eapply pos_bound|by apply pos_aligned_at].
Qed.
(** *** The entries of one code word *)

(** The bits the current table skips and those it is indexed by. *)
Lemma inv_bounds t0 t k count l next curr drop low used :
  inv t0 t k count l next curr drop low used →
  0 ≤ next ∧ 0 ≤ drop ≤ l ∧ l ≤ drop + curr ∧ drop + curr ≤ 15 ∧ next + 2 ^ curr = used ∧ used ≤ size.
Proof.
  intros [Hk _ [Hsp _] _ _ Hw _]. pose proof (root_15 k l Hk) as Hr. pose proof (lens_ok ls Hok k l Hk) as Hl. pose proof (max_ok k l Hk).
  pose proof (pow_root_16 ltac:(lia)). unfold length_ok in Hl.
  destruct Hw as [(-> & -> & -> & _ & -> & Hlr)|(-> & Hlr & _ & Hn & -> & Hc & Hcm & _ & Hfits)].
  - split_and!; lia.
  - pose proof (Hfits k l ltac:(lia) Hk eq_refl). split_and!; lia.
Qed.

Lemma step_entries t0 t k count l next curr drop low used this :
  inv t0 t k count l next curr drop low used → this = Code (ops k) (l - drop) (vals k) →
  ∃ t1, replicate_entry size (next + Z.shiftr (rev15 (pos k)) drop) (u32 (Z.shiftl 1 (l - drop))) (u32 (Z.shiftl 1 curr)) this t = Ret tt t1 ∧
  framed t0 t1 used ∧ decoded t1 (S k) (limit low used next) ∧
  (in_root l next curr drop low used ∨ in_sub t1 k l next curr drop low used).
Proof.
  intros Hinv ->. pose proof (inv_bounds _ _ _ _ _ _ _ _ _ _ Hinv) as (Hn & Hd & Hl & Hdc & Hu & Hus).
  destruct Hinv as [Hk _ [Hsp _] Hfr Hdec Hwh _]. pose proof (huff_range k l Hk) as Hh. pose proof (root_15 k l Hk) as Hr.
  pose proof (pow_root_16 ltac:(lia)) as Hr2.
  destruct (run_word_entries size next drop curr l (rev15 (pos k)) (Code (ops k) (l - drop) (vals k)) t) as (t1 & Hrun & H1 & H2); [lia..|].
  exists t1. split; [done|]. split; [intros i Hi; rewrite H2 by lia; by apply Hfr|]. split.
  - intros x Hx. rewrite (pos_S ls k l Hk) in Hx. destruct (decide (rev15 x < pos k)) as [Hlt|Hge].
    + destruct (Hdec x Hlt) as (j & l' & Hj & Hpos & Hf). exists j, l'. split_and!; [done|lia|lia|].
      assert (x mod 2 ^ l ≠ rev15 (pos k)) as Hne by (rewrite (starts_word k l x Hk); lia).
      destruct Hwh as [(-> & -> & -> & -> & -> & Hlr)|(-> & Hlr & -> & Hnr & _ & Hc & Hcm & Hlink & _)].
      * destruct Hf as [[Hl' Hf]|(_ & c & n & _ & _ & Hn' & Hlim & _)].
        -- left. split; [done|]. pose proof (H1 x) as H1x. rewrite decide_False in H1x by done. change (2 ^ 0) with 1 in H1x.
           rewrite Z.div_1_r, !Z.add_0_l in H1x. rewrite H1x; [done|by rewrite !Z.mod_1_r].
        -- exfalso. unfold limit in Hlim. pose proof (Z.mod_pos_bound x (2 ^ root) ltac:(lia)).
           rewrite (proj2 (Z.eqb_neq _ _)) in Hlim by lia. pose proof (Z.pow_nonneg 2 c). lia.
      * pose proof (Z.mod_pos_bound x (2 ^ root) ltac:(lia)) as Hxr. destruct Hf as [[Hl' Hf]|(Hl' & c & n & Hc1 & Hc2 & Hn' & Hlim & Hf1 & Hf2)].
        -- left. split; [done|]. by rewrite H2 by lia.
        -- right. split; [done|]. exists c, n. split_and!; [done|lia|lia|done|done|by rewrite H2 by lia|].
           unfold limit in Hlim. destruct (Z.eqb_spec (x mod 2 ^ root) (rev15 (pos k) mod 2 ^ root)) as [E|E].
           ++ rewrite E, Hlink in Hf1. injection Hf1 as <- <-. rewrite H1 by done. by rewrite decide_False.
           ++ pose proof (slot_bound root c x ltac:(lia) ltac:(lia)). by rewrite H2 by lia.
    + assert (x mod 2 ^ l = rev15 (pos k)) as Ex by (rewrite (starts_word k l x Hk); lia).
      exists k, l. split_and!; [done|lia|lia|]. pose proof (H1 x) as H1x. rewrite decide_True in H1x by done.
      destruct Hwh as [(-> & -> & -> & -> & -> & Hlr)|(-> & Hlr & -> & Hnr & Hu' & Hc & Hcm & Hlink & _)].
      * left. split; [done|]. change (2 ^ 0) with 1 in H1x. rewrite Z.div_1_r, !Z.add_0_l, Z.sub_0_r in H1x. apply H1x. by rewrite !Z.mod_1_r.
      * assert (x mod 2 ^ root = rev15 (pos k) mod 2 ^ root) as E.
        { rewrite <-Ex. symmetry. apply Z.mod_mod_divide. exists (2 ^ (l - root)). rewrite <-Z.pow_add_r by lia. f_equal. lia. }
        right. split; [done|]. exists curr, next. pose proof (Z.mod_pos_bound x (2 ^ root) ltac:(lia)).
        split_and!; [done|lia|lia|done| |by rewrite H2, E by lia|by apply H1x].
        unfold limit. rewrite E, Z.eqb_refl. lia.
  - destruct Hwh as [Hwh|(-> & Hlr & -> & Hnr & Hu' & Hc & Hcm & Hlink & Hfits)]; [by left|]. right. split_and!; try done.
    pose proof (Z.mod_pos_bound (rev15 (pos k)) (2 ^ root) ltac:(lia)). by rewrite H2 by lia.
Qed.
(** *** The next code word *)

Lemma step_count k l count : ls !! k = Some l → counts (list.drop k ls) count →
  let n := Z.of_nat (occurrences l (list.drop k ls)) in
  count !! Z.to_nat l = Some n ∧ u16 (n - 1) = Z.of_nat (occurrences l (list.drop (S k) ls)) ∧
  counts (list.drop (S k) ls) (<[Z.to_nat l := u16 (n - 1)]> count) ∧ 0 ≤ l < Z.of_nat (length count).
Proof.
  intros Hk [Hlen Hc] n. pose proof (lens_ok ls Hok k l Hk) as Hl. pose proof (drop_S ls l k Hk) as Ed. unfold length_ok in Hl.
  assert (n = 1 + Z.of_nat (occurrences l (list.drop (S k) ls))) as En.
  { subst n. rewrite Ed, occurrences_cons, decide_True by done. lia. }
  assert ((occurrences l (list.drop (S k) ls) ≤ length ls)%nat) as Hle.
  { unfold occurrences. etrans; [apply length_filter|]. rewrite length_drop. lia. }
  assert (u16 (n - 1) = Z.of_nat (occurrences l (list.drop (S k) ls))) as Eu by (rewrite En, wrap_small; lia).
  split_and!; [by apply Hc|done| |lia|lia]. split; [by rewrite length_insert|]. intros l' Hl'. unfold length_ok in Hl'. destruct (decide (l' = l)) as [->|Hne].
  - rewrite list_lookup_insert_eq by lia. by rewrite Eu.
  - rewrite list_lookup_insert_ne by lia. rewrite (Hc l') by done. rewrite Ed, occurrences_cons, decide_False by done. done.
Qed.

(** The loop ends after the last code word, and only there. *)
Lemma step_last k l : ls !! k = Some l →
  (occurrences l (list.drop (S k) ls) = 0%nat ∧ l = max) ↔ S k = length ls.
Proof.
  intros Hk. split.
  - intros [Ho ->]. pose proof (lookup_lt_Some _ _ _ Hk). destruct (decide (S k = length ls)) as [|Hne]; [done|].
    destruct (lookup_lt_is_Some_2 ls (S k) ltac:(lia)) as [l' Hl']. pose proof (Hsorted k (S k) max l' ltac:(lia) Hk Hl').
    pose proof (max_ok (S k) l' Hl'). assert (l' = max) as -> by lia.
    pose proof (occurrences_pos max (list.drop (S k) ls) 0) as Hp. rewrite lookup_drop, Nat.add_0_r in Hp. specialize (Hp Hl'). lia.
  - intros E. split; [rewrite drop_ge by lia; done|]. pose proof (Hmax k E). congruence.
Qed.

(** The length of the next code word. *)
Lemma step_len k l l' (t : gmap Z code) : ls !! k = Some l → ls !! S k = Some l' →
  (if Z.of_nat (occurrences l (list.drop (S k) ls)) =? 0
   then w ← elem work (Z.of_nat k + 1); elem lens w else mret l) t = Ret l' t.
Proof.
  intros Hk Hk'. destruct (Z.eqb_spec (Z.of_nat (occurrences l (list.drop (S k) ls))) 0) as [E|E].
  - destruct (Hwork (S k) l' Hk') as (w & Hw & Hw0 & Hlw & _). rewrite run_bind, (run_elem work _ w); [|lia|by replace (Z.to_nat (Z.of_nat k + 1)) with (S k) by lia].
    cbn beta iota. by apply run_elem.
  - rewrite run_ret. f_equal. destruct (occurrences_elem l (list.drop (S k) ls) ltac:(lia)) as [j Hj]. rewrite lookup_drop in Hj.
    pose proof (Hsorted k (S k) l l' ltac:(lia) Hk Hk'). pose proof (Hsorted (S k) (S k + j) l' l ltac:(lia) Hk' Hj). lia.
Qed.

(** *** The space of the blocks *)

Lemma block_mono i j : 1 ≤ root ≤ 15 → (i ≤ j)%nat → block (pos i) ≤ block (pos j).
Proof. intros Hr Hij. apply Z.div_le_mono; [by apply block_pow|]. by apply pos_le. Qed.

(** The blocks before the end of a code word of the root table have no sub-tables. *)
Lemma space_root k l : ls !! k = Some l → l ≤ root →
  space_of (block (pos (S k))) = 2 ^ root ∧ block (pos k) + 1 ≤ block (pos (S k)).
Proof.
  intros Hk Hl. pose proof (root_15 k l Hk) as Hr. pose proof (block_pow root Hr) as HB. pose proof (lens_ok ls Hok k l Hk) as Hlo. unfold length_ok in Hlo.
  split.
  - unfold space_of. rewrite sum_below_zero; [lia|]. intros b Hb. apply Hsub_none. intros j l' Hj Hl' E.
    assert (S k ≤ j)%nat as Hkj.
    { destruct (decide (j ≤ k)%nat); [|lia]. pose proof (Hsorted j k l' l ltac:(lia) Hj Hk). lia. }
    pose proof (block_mono (S k) j Hr Hkj). pose proof (Z.div_pos (pos (S k)) _ (pos_nonneg ls Hok (S k)) HB). unfold InftreesSpec.block in *. lia.
  - rewrite (pos_S ls k l Hk). unfold InftreesSpec.block. assert (2 ^ (15 - root) ≤ 2 ^ (15 - l)) by (apply Z.pow_le_mono_r; lia).
    rewrite <-(Z.div_add (pos k) 1) by lia. apply Z.div_le_mono; lia.
Qed.

Lemma space_root_at k l : ls !! k = Some l → l ≤ root → space_of (block (pos k) + 1) = 2 ^ root.
Proof.
  intros Hk Hl. destruct (space_root k l Hk Hl) as [E Hle]. pose proof (root_15 k l Hk) as Hr. pose proof (block_pow root Hr) as HB.
  pose proof (Z.div_pos (pos k) _ (pos_nonneg ls Hok k) HB) as H0. unfold space_of, InftreesSpec.block in *.
  pose proof (sum_below_mono sub (Z.to_nat (pos k / 2 ^ (15 - root) + 1)) (Z.to_nat (pos (S k) / 2 ^ (15 - root))) ltac:(lia) Hsub0).
  pose proof (sum_below_mono sub 0 (Z.to_nat (pos k / 2 ^ (15 - root) + 1)) ltac:(lia) Hsub0) as H1. cbn [sum_below] in H1. lia.
Qed.

Lemma block_range k l : ls !! k = Some l → 0 ≤ block (pos k) < 2 ^ root.
Proof.
  intros Hk. pose proof (root_15 k l Hk) as Hr. pose proof (block_pow root Hr) as HB. pose proof (pos_bound ls Hok Hfit k l Hk) as Hp.
  unfold InftreesSpec.block. split; [apply Z.div_pos; lia|]. apply Z.div_lt_upper_bound; [lia|]. rewrite <-Z.pow_add_r by lia.
  replace (15 - root + root) with 15 by lia. lia.
Qed.

Lemma space_le k l : ls !! k = Some l → space_of (block (pos k) + 1) ≤ space.
Proof.
  intros Hk. pose proof (block_range k l Hk). unfold space, space_of. apply Zplus_le_compat_l, sum_below_mono; [lia|done].
Qed.

(** After the last code word no block needs space. *)
Lemma space_last k l : ls !! k = Some l → S k = length ls → space_of (block (pos k) + 1) = space.
Proof.
  intros Hk Hlast. pose proof (root_15 k l Hk) as Hr. pose proof (block_range k l Hk) as Hb. unfold space, space_of. f_equal. symmetry.
  apply sum_below_flat; [lia|]. intros b Hb'. apply Hsub_none. intros j l' Hj _ E. pose proof (lookup_lt_Some _ _ _ Hj).
  pose proof (block_mono j k Hr ltac:(lia)). lia.
Qed.

(** *** A new sub-table *)

Lemma decoded_link t k low used next low' e :
  decoded t k (limit low used next) → 1 ≤ root ≤ 15 → next ≤ used →
  pos k = block (pos k) * 2 ^ (15 - root) → 0 ≤ pos k < 2 ^ 15 → low' = rev15 (pos k) mod 2 ^ root →
  ∀ used', decoded (<[low' := e]> t) k (limit low' used' used).
Proof.
  intros Hdec Hr Hnu Hp Hpr -> used' x Hx. destruct (Hdec x Hx) as (j & l & Hj & Hpos & Hf). exists j, l. split_and!; [done|lia|lia|].
  pose proof (block_pow root ltac:(lia)) as HB. pose proof (pow_root_16 ltac:(lia)).
  assert (x mod 2 ^ root ≠ rev15 (pos k) mod 2 ^ root) as Hne.
  { rewrite index_block_pos by (done || lia). intros E. unfold InftreesSpec.block in E, Hp. pose proof (Z.div_mod (rev15 x) (2 ^ (15 - root)) ltac:(lia)).
    pose proof (Z.mod_pos_bound (rev15 x) _ HB). rewrite E in *. lia. }
  pose proof (Z.mod_pos_bound (rev15 (pos k)) (2 ^ root) ltac:(lia)).
  destruct Hf as [[Hl Hf]|(Hl & c & n & Hc1 & Hc2 & Hn & Hlim & Hf1 & Hf2)].
  - left. split; [done|]. by rewrite lookup_insert_ne.
  - right. split; [done|]. exists c, n. pose proof (slot_bound root c x ltac:(lia) ltac:(lia)).
    split_and!; [done|lia|lia|done| |by rewrite lookup_insert_ne|by rewrite lookup_insert_ne by lia].
    unfold limit in *. rewrite (proj2 (Z.eqb_neq _ _)) by done. destruct (_ =? low); lia.
Qed.
(** The space a sub-table takes. *)
Lemma space_step k l used c : ls !! k = Some l → 1 ≤ c ≤ 15 - root →
  2 ^ root ≤ used ≤ 2 ^ root + block (pos k) * 2 ^ (15 - root) →
  0 ≤ used < 2 ^ 16 ∧ u32 (used + Z.shiftl 1 c) = used + 2 ^ c ∧
  (is_LENS type && (ENOUGH - MAXD <=? used + 2 ^ c) = false → space_ok k (used + 2 ^ c)).
Proof.
  intros Hk Hc Hu. pose proof (root_15 k l Hk) as Hr. pose proof (pow_root_16 ltac:(lia)) as Hr2. pose proof (block_pow root ltac:(lia)) as HB.
  pose proof (pos_bound ls Hok Hfit k l Hk) as Hp.
  assert (2 ^ 1 ≤ 2 ^ c ≤ 2 ^ (15 - root)) as Hc2 by (split; apply Z.pow_le_mono_r; lia). change (2 ^ 1) with 2 in Hc2.
  assert ((block (pos k) + 1) * 2 ^ (15 - root) ≤ 2 ^ 15) as Hb.
  { replace (2 ^ 15) with (2 ^ root * 2 ^ (15 - root)) by (rewrite <-Z.pow_add_r by lia; f_equal; lia).
    apply Z.mul_le_mono_nonneg_r; [lia|]. unfold InftreesSpec.block. assert (pos k / 2 ^ (15 - root) < 2 ^ root); [|lia].
    apply Z.div_lt_upper_bound; [lia|]. rewrite <-Z.pow_add_r by lia. replace (15 - root + root) with 15 by lia. lia. }
  change (2 ^ 16) with 65536. change (2 ^ 15) with 32768 in *. rewrite Z.shiftl_1_l.
  split; [lia|]. split; [rewrite wrap_small; [done|]; change (2 ^ 32) with 4294967296; lia|]. intros Hs. unfold space_ok.
  split; [split; [lia|]|lia]. destruct (is_LENS type); [|change (2 ^ 16) with 65536 in Hsize; lia].
  cbn [andb] in Hs. apply Z.leb_gt in Hs. lia.
Qed.

(** The state at the next code word, with a new sub-table. *)
Lemma step_new_sub t0 t k l' count low used next :
  framed t0 t used → decoded t k (limit low used next) → next ≤ used →
  ls !! k = Some l' → root < l' → counts (list.drop k ls) count →
  pos k = block (pos k) * 2 ^ (15 - root) → 2 ^ root ≤ used ≤ 2 ^ root + block (pos k) * 2 ^ (15 - root) →
  used = space_of (block (pos k)) →
  ∃ c, sub_bits count max l' root t = Ret c t ∧ u32 (used + Z.shiftl 1 c) = used + 2 ^ c ∧ used + 2 ^ c = space_of (block (pos k) + 1) ∧
  (is_LENS type && (ENOUGH - MAXD <=? used + 2 ^ c) = false →
   let low' := rev15 (pos k) mod 2 ^ root in
   put_entry size low' (Code (u8 c) (u8 root) (u16 used)) t = Ret tt (<[low' := Code c root used]> t) ∧
   inv t0 (<[low' := Code c root used]> t) k count l' used c root low' (used + 2 ^ c)).
Proof.
  intros Hfr Hdec Hnu Hk Hl' Hcn Hp Hu Husp. pose proof (max_ok k l' Hk) as Hm. pose proof (root_15 k l' Hk) as Hr. pose proof (pow_root_16 ltac:(lia)).
  pose proof (lens_ok ls Hok k l' Hk) as Hlo. pose proof (pos_bound ls Hok Hfit k l' Hk) as Hpb.
  destruct (run_sub_bits count (list.drop k ls) max l' root t) as (m & Hrun & Hmr & Hroom & Hmin); [done| |done|lia|lia|].
  { apply Forall_lookup. intros i a Ha. rewrite lookup_drop in Ha. apply (Hsorted k (k + i) l' a); [lia|done..]. }
  exists (m - root). destruct (space_step k l' used (m - root) Hk ltac:(lia) Hu) as (Hu16 & Hu32 & Hsp).
  assert (∀ j a, (k ≤ j)%nat → ls !! j = Some a → block (pos j) = block (pos k) → a ≤ m) as Hbf.
  { apply (block_fits ls Hok Hsorted root ltac:(lia) k m (block (pos k)) max); [|lia|lia|done|done].
    intros i b Hi. apply (max_ok i b Hi). }
  assert (used + 2 ^ (m - root) = space_of (block (pos k) + 1)) as Enew.
  { unfold space_of. pose proof (block_range k l' Hk). rewrite sum_below_step by lia. rewrite Husp. unfold space_of.
    destruct Hfull as [Hfull'|]; [|lia]. destruct (block_exact ls Hok Hsorted Hfit root ltac:(lia) k l' m (block (pos k)) max) as (j & Hkj & Hj & Hbj);
      [done|intros i b Hi; apply (max_ok i b Hi)|lia|lia|done|done|done|done|].
    rewrite <-Hbj, (Hsub_some j m Hj) by (lia || (intros i a Hi _ Hbi; destruct (decide (k ≤ i)%nat); [apply (Hbf i); congruence|];
      pose proof (Hsorted i k a l' ltac:(lia) Hi Hk); lia)). lia. }
  split_and!; [done|done|done|]. intros Hs. specialize (Hsp Hs). cbv zeta. pose proof (Z.mod_pos_bound (rev15 (pos k)) (2 ^ root) ltac:(lia)) as Hlow.
  pose proof (Z.pow_pos_nonneg 2 (m - root) ltac:(lia) ltac:(lia)). destruct Hsp as [Hsp1 Hsp2].
  rewrite !wrap_small by (lia || (change (2 ^ 8) with 256; lia)). split; [apply run_put_entry; lia|]. split; [done|done|done| | | |by split].
  - intros i Hi. rewrite lookup_insert_ne by lia. apply Hfr. lia.
  - by apply (decoded_link t k low used next).
  - right. split_and!; [done|done|done|lia|done|lia|lia|by rewrite lookup_insert_eq|]. intros j a Hj Ha Hb.
    replace (root + (m - root)) with m by lia.
    by apply (Hbf j).
Qed.

(** *** One round of the loop *)

(** What the loop leaves. *)
Definition finished (t0 t : gmap Z code) (s : building) : Prop :=
  b_huff s = rev15 (pos (length ls)) ∧ b_len s = max ∧ (b_drop s = 0 ∧ b_next s = 0 ∧ b_used s = 2 ^ root ∨ root < max) ∧
  space_ok (pred (length ls)) (b_used s) ∧ framed t0 t (b_used s) ∧ decoded t (length ls) (λ _, b_used s) ∧
  b_used s = space ∧ space_small space.

Lemma decoded_mono t k U U' : decoded t k U → (∀ x, U x ≤ U' x) → decoded t k U'.
Proof.
  intros Hd HU x Hx. destruct (Hd x Hx) as (j & l & Hj & Hp & Hf). exists j, l. split_and!; [done|lia|lia|].
  destruct Hf as [Hf|(Hl & c & n & H1 & H2 & H3 & H4 & H5 & H6)]; [by left|]. right. split; [done|]. exists c, n. specialize (HU x).
  split_and!; try done; lia.
Qed.

Lemma land_root x : 1 ≤ root ≤ 15 → Z.land x (u32 (Z.shiftl 1 root) - 1) = x mod 2 ^ root.
Proof.
  intros Hr. rewrite Z.shiftl_1_l, wrap_small by (split; [apply Z.pow_nonneg; lia|apply Z.pow_lt_mono_r; lia]).
  replace (2 ^ root - 1) with (Z.ones root) by (rewrite Z.ones_equiv; lia). apply Z.land_ones. lia.
Qed.

(** The block the next code word is in, when it needs a sub-table of its own. *)
Lemma step_block t k l l' next curr drop low used :
  ls !! k = Some l → ls !! S k = Some l' → root < l' → space_ok k used →
  in_root l next curr drop low used ∨ in_sub t k l next curr drop low used →
  rev15 (pos (S k)) mod 2 ^ root ≠ low →
  pos (S k) = block (pos (S k)) * 2 ^ (15 - root) ∧ 2 ^ root ≤ used ≤ 2 ^ root + block (pos (S k)) * 2 ^ (15 - root).
Proof.
  intros Hk Hk' Hl' [Hs1 Hs2] Hwh Hne. pose proof (root_15 k l Hk) as Hr. pose proof (block_pow root ltac:(lia)) as HB.
  pose proof (pos_bound ls Hok Hfit k l Hk). pose proof (pos_bound ls Hok Hfit (S k) l' Hk').
  destruct Hwh as [(_ & _ & _ & _ & -> & Hlr)|(_ & Hlr & -> & _)].
  - split; [by apply (block_start ls Hok Hsorted root ltac:(lia) k l)|]. pose proof (Z.div_pos (pos (S k)) _ ltac:(lia) HB). unfold InftreesSpec.block. nia.
  - destruct (block_step ls Hok Hsorted root ltac:(lia) k l Hk ltac:(lia)) as [E|[E1 E2]].
    + exfalso. apply Hne. apply index_block_pos; [lia|lia|]. by rewrite rev15_rev15.
    + split; [by rewrite E2|]. rewrite E2. lia.
Qed.

(** The space in use at the next code word, when it needs a sub-table of its own and
    when it does not. *)
Lemma space_next t k l l' next curr drop low used :
  ls !! k = Some l → ls !! S k = Some l' → used = space_of (block (pos k) + 1) →
  in_root l next curr drop low used ∨ in_sub t k l next curr drop low used →
  rev15 (pos (S k)) mod 2 ^ root ≠ low → used = space_of (block (pos (S k))).
Proof.
  intros Hk Hk' Hus Hwh Hne. pose proof (root_15 k l Hk) as Hr. pose proof (pos_bound ls Hok Hfit k l Hk). pose proof (pos_bound ls Hok Hfit (S k) l' Hk').
  destruct Hwh as [(_ & _ & _ & _ & -> & Hlr)|(_ & Hlr & -> & _)]; [by rewrite (proj1 (space_root k l Hk Hlr))|].
  destruct (block_step ls Hok Hsorted root ltac:(lia) k l Hk ltac:(lia)) as [E|[_ E2]]; [|by rewrite E2].
  exfalso. apply Hne. apply index_block_pos; [lia|lia|]. by rewrite rev15_rev15.
Qed.

Lemma space_stay t k l l' next curr drop low used :
  ls !! k = Some l → ls !! S k = Some l' → used = space_of (block (pos k) + 1) →
  in_root l next curr drop low used ∨ in_sub t k l next curr drop low used →
  (root <? l') && negb (rev15 (pos (S k)) mod 2 ^ root =? low) = false → used = space_of (block (pos (S k)) + 1).
Proof.
  intros Hk Hk' Hus Hwh Hno. pose proof (root_15 k l Hk) as Hr. pose proof (pos_bound ls Hok Hfit k l Hk) as Hpb. pose proof (pos_bound ls Hok Hfit (S k) l' Hk') as Hpb'.
  rewrite andb_false_iff, negb_false_iff, Z.ltb_ge, Z.eqb_eq in Hno.
  destruct Hwh as [(_ & _ & _ & -> & -> & Hlr)|(_ & Hlr & -> & _)].
  - destruct Hno as [Hl'|E]; [by rewrite (space_root_at (S k) l' Hk' Hl')|]. exfalso.
    pose proof (Z.mod_pos_bound (rev15 (pos (S k))) (2 ^ root) ltac:(apply Z.pow_pos_nonneg; lia)).
    pose proof (pow_root_16 ltac:(lia)). change (2 ^ 15) with 32768 in *. change (2 ^ 32) with 4294967296 in *. lia.
  - pose proof (Hsorted k (S k) l l' ltac:(lia) Hk Hk'). destruct Hno as [|E]; [lia|].
    rewrite (index_block_pos root ltac:(lia) (rev15 (pos (S k))) (pos k) Hpb), rev15_rev15 in E by done. by rewrite E.
Qed.

Lemma run_build_step t0 t k count l next curr drop low used :
  inv t0 t k count l next curr drop low used →
  ∃ r t', build_step size type lens work root (u32 (Z.shiftl 1 root) - 1) max
    (Building count (rev15 (pos k)) (Z.of_nat k) l next curr drop low used) t = Ret r t' ∧
  match r with
  | inl s' => ∃ count' l' next' curr' drop' low' used',
      s' = Building count' (rev15 (pos (S k))) (Z.of_nat (S k)) l' next' curr' drop' low' used' ∧
      inv t0 t' (S k) count' l' next' curr' drop' low' used'
  | inr (inl ret) => ret = 1 ∧ type = LENS ∧ ENOUGH - MAXD ≤ space
  | inr (inr s') => finished t0 t' s'
  end.
Proof.
  intros Hinv. pose proof (inv_len _ _ _ _ _ _ _ _ _ _ Hinv) as Hk. destruct (Hwork k l Hk) as (w & Hw & _ & _ & Hent).
  pose proof (lens_ok ls Hok k l Hk) as Hlo. pose proof (root_15 k l Hk) as Hr. pose proof (inv_bounds _ _ _ _ _ _ _ _ _ _ Hinv) as (Hn & Hd & Hl & Hdc & Hu & _).
  unfold length_ok in Hlo. unfold build_step. rewrite run_bind, (run_elem work _ w) by (lia || by rewrite Nat2Z.id). cbn beta iota.
  rewrite run_bind, Hent. cbn beta iota zeta. rewrite (wrap_small 8 (l - drop)) by (change (2 ^ 8) with 256; lia).
  destruct (step_entries t0 t k count l next curr drop low used _ Hinv eq_refl) as (t1 & Hrep & Hfr & Hdec & Hwh).
  rewrite run_bind, Hrep. cbn beta iota. rewrite (run_next_huff l (pos k)) by (done || by eapply pos_bound || by apply pos_aligned_at).
  rewrite <-(pos_S ls k l Hk). destruct (step_count k l count Hk (inv_counts _ _ _ _ _ _ _ _ _ _ Hinv)) as (Hcl & Eu & Hcnt & Hlr).
  rewrite run_bind, (run_elem count _ _) by (done || lia). cbn beta iota. rewrite run_bind, run_upd by done. cbn beta iota. rewrite Eu in *.
  pose proof (inv_space _ _ _ _ _ _ _ _ _ _ Hinv) as Hsp. pose proof (inv_used _ _ _ _ _ _ _ _ _ _ Hinv) as [Hus Husm]. pose proof (step_last k l Hk) as Hlast.
  assert (next ≤ used) as Hnu by (pose proof (Z.pow_nonneg 2 curr); lia).
  destruct ((Z.of_nat (occurrences l (list.drop (S k) ls)) =? 0) && (l =? max)) eqn:Eend.
  - rewrite andb_true_iff, !Z.eqb_eq in Eend. destruct Eend as [E0 E1]. destruct Hlast as [Hlast _]. specialize (Hlast ltac:(split; [lia|done])).
    eexists _, t1. split; [reflexivity|]. pose proof (space_last k l Hk Hlast) as Hspl.
    split_and!; cbn; [by rewrite Hlast|done| |by rewrite <-Hlast|done| |congruence|by rewrite <-Hspl, <-Hus].
    + destruct Hwh as [(-> & -> & _ & _ & -> & _)|(_ & Hx & _)]; [by left|]. right. lia.
    + rewrite <-Hlast. apply (decoded_mono _ _ _ _ Hdec). intros x. unfold limit. destruct (_ =? low); lia.
  - assert (S k ≠ length ls) as Hne.
    { intros E. apply Hlast in E as [E0 ->]. rewrite E0, (Z.eqb_refl max) in Eend. discriminate Eend. }
    destruct (lookup_lt_is_Some_2 ls (S k)) as [l' Hk']; [apply lookup_lt_Some in Hk; lia|].
    rewrite run_bind, (step_len k l l' t1 Hk Hk'). cbn beta iota. rewrite land_root by lia. rewrite (Z.shiftl_1_l curr), wrap_small by (split; [apply Z.pow_nonneg; lia|apply Z.pow_lt_mono_r; lia]).
    replace (Z.of_nat k + 1) with (Z.of_nat (S k)) by lia. rewrite Hu.
    destruct ((root <? l') && negb (rev15 (pos (S k)) mod 2 ^ root =? low)) eqn:Enew.
    + rewrite andb_true_iff, negb_true_iff, Z.ltb_lt, Z.eqb_neq in Enew. destruct Enew as [Hl' Hlow].
      destruct (step_block t1 k l l' next curr drop low used Hk Hk' Hl' Hsp Hwh Hlow) as [Hb1 Hb2].
      assert ((if drop =? 0 then root else drop) = root) as ->.
      { destruct Hwh as [(-> & _)|(-> & _)]; [done|]. by destruct (root =? 0). }
      assert (used = space_of (block (pos (S k)))) as Hus' by (by apply (space_next t1 k l l' next curr drop low used)).
      destruct (step_new_sub t0 t1 (S k) l' _ low used next Hfr Hdec Hnu Hk' Hl' Hcnt Hb1 Hb2 Hus') as (c & Hsub & Hu32 & Hsum & Hnew).
      rewrite run_bind, Hsub. cbn beta iota zeta. rewrite Hu32. destruct (is_LENS type && (ENOUGH - MAXD <=? used + 2 ^ c)) eqn:Es.
      * eexists _, t1. split; [reflexivity|]. cbn. rewrite andb_true_iff, Z.leb_le, Hsum in Es. destruct Es as [Es Hes]. pose proof (space_le (S k) l' Hk'). split; [done|]. split; [by destruct type|lia].
      * destruct (Hnew eq_refl) as [Hput Hinv']. rewrite run_bind, Hput. cbn beta iota. eexists _, _. split; [reflexivity|].
        cbn. eexists _, _, _, _, _, _, _. split; [reflexivity|done].
    + eexists _, t1. split; [reflexivity|]. cbn. eexists _, _, _, _, _, _, _. split; [reflexivity|].
      pose proof (pos_le ls Hok k (S k) ltac:(lia)) as Hpl. pose proof (block_pow root ltac:(lia)) as HB.
      assert (block (pos k) ≤ block (pos (S k))) as Hbl by (apply Z.div_le_mono; lia).
      split; [done|done|destruct Hsp; split; [lia|nia]|done|done| |split; [|done]; by apply (space_stay t1 k l l' next curr drop low used)].
      rewrite andb_false_iff, negb_false_iff, Z.ltb_ge, Z.eqb_eq in Enew. pose proof (pos_bound ls Hok Hfit k l Hk) as Hpb. pose proof (pos_bound ls Hok Hfit (S k) l' Hk') as Hpb'.
      destruct Hwh as [(-> & -> & -> & -> & -> & Hx)|(-> & Hx & -> & Hn' & -> & Hc1 & Hc2 & Hlink & Hfits)].
      * left. split_and!; try done. destruct Enew as [|E]; [done|]. pose proof (Z.mod_pos_bound (rev15 (pos (S k))) (2 ^ root) ltac:(apply Z.pow_pos_nonneg; lia)).
        pose proof (pow_root_16 ltac:(lia)). change (2 ^ 15) with 32768 in *. change (2 ^ 32) with 4294967296 in *. lia.
      * right. pose proof (Hsorted k (S k) l l' ltac:(lia) Hk Hk'). destruct Enew as [|E]; [lia|].
        split_and!; try done; try lia. intros j a Hj Ha Hb. apply (Hfits j a); [lia|done|]. rewrite Hb.
        rewrite (index_block_pos root ltac:(lia) (rev15 (pos (S k))) (pos k) Hpb) in E. by rewrite rev15_rev15 in E by done.
Qed.
(** *** The whole loop *)

Lemma run_build_loop t0 fuel t k count l next curr drop low used :
  inv t0 t k count l next curr drop low used → (length ls - k ≤ fuel)%nat →
  ∃ r t', loop fuel (build_step size type lens work root (u32 (Z.shiftl 1 root) - 1) max)
    (Building count (rev15 (pos k)) (Z.of_nat k) l next curr drop low used) t = Ret r t' ∧
  match r with
  | inl ret => ret = 1 ∧ type = LENS ∧ ENOUGH - MAXD ≤ space
  | inr s' => finished t0 t' s'
  end.
Proof.
  revert t k count l next curr drop low used. induction fuel as [|fuel IH]; intros t k count l next curr drop low used Hinv Hf.
  { pose proof (inv_len _ _ _ _ _ _ _ _ _ _ Hinv) as Hk. apply lookup_lt_Some in Hk. lia. }
  rewrite run_loop. destruct (run_build_step t0 t k count l next curr drop low used Hinv) as (r & t' & Hrun & Hr).
  rewrite Hrun. destruct r as [s'|r]; [|by exists r, t'].
  destruct Hr as (count' & l' & next' & curr' & drop' & low' & used' & -> & Hinv'). apply (IH t' (S k)); [done|]. lia.
Qed.

(** The loop from its start. *)
Lemma run_build t0 count min :
  ls !! 0%nat = Some min → min ≤ root → counts ls count → is_LENS type && (ENOUGH - MAXD <=? 2 ^ root) = false →
  ∀ fuel, (length ls ≤ fuel)%nat →
  ∃ r t', loop fuel (build_step size type lens work root (u32 (Z.shiftl 1 root) - 1) max)
    (Building count 0 0 min 0 root 0 (u32 (-1)) (2 ^ root)) t0 = Ret r t' ∧
  match r with
  | inl ret => ret = 1 ∧ type = LENS ∧ ENOUGH - MAXD ≤ space
  | inr s' => finished t0 t' s'
  end.
Proof.
  intros H0 Hmin Hc Hs fuel Hf. pose proof (root_15 0 min H0) as Hr. pose proof (pow_root_16 ltac:(lia)) as Hr2.
  apply (run_build_loop t0 fuel t0 0 count min 0 root 0 (u32 (-1)) (2 ^ root)); [|lia].
  split; [done|done| |done| | |split; [by rewrite (space_root_at 0 min H0 Hmin)|done]].
  - split; [split; [lia|]|].
    + destruct (is_LENS type); [|change (2 ^ 16) with 65536 in Hsize; change (2 ^ 15) with 32768 in Hr2; lia]. cbn [andb] in Hs. apply Z.leb_gt in Hs. lia.
    + pose proof (block_pow root ltac:(lia)). pose proof (Z.div_pos (pos 0) _ (pos_nonneg ls Hok 0) H). unfold InftreesSpec.block. nia.
  - intros x Hx. pose proof (rev15_range x). change (pos 0) with 0 in Hx. lia.
  - left. by split_and!.
Qed.
End loop.
