(* ===== verification/InftreesMain.v ===== *)
(** * Decoding tables: counting, sorting, and the properties

    [inflate_table_decodes]: for a complete code every word that starts with the code
    word of a symbol, as RFC 1951 assigns it, finds the symbol and the length of its code
    word, and the space of the tables is what the code needs.  [inflate_table_rejects]: the
    lengths that give no code, and only those, are refused, and nothing is written. *)

From Stdlib Require Import List.
From stdpp Require Import base tactics numbers list gmap.
From S2P Require Import Prelude Inftrees InftreesSpec InftreesLoop.

Open Scope Z_scope.

(** ** Decoding, as inflate does *)

(** [BITS(n)]: the low bits of the input *)
Definition BITS (hold n : Z) : Z := Z.land hold (u32 (Z.shiftl 1 n) - 1).

(** What an entry says ([op] and [val]), and the bits it takes in all. *)
Definition decode (t : gmap Z code) (root hold : Z) : option (Z * Z * Z) :=
  this ← t !! BITS hold root;
  if negb (op this =? 0) && (Z.land (op this) 0xf0 =? 0) then
    let last := this in
    this ← t !! (val last + Z.shiftr (BITS hold (bits last + op last)) (bits last));
    mret (op this, val this, bits last + bits this)
  else mret (op this, val this, bits this).

Lemma BITS_mod x n : 0 ≤ n < 32 → BITS x n = x mod 2 ^ n.
Proof.
  intros Hn. unfold BITS. rewrite Z.shiftl_1_l, wrap_small by (split; [apply Z.pow_nonneg; lia|apply Z.pow_lt_mono_r; lia]).
  replace (2 ^ n - 1) with (Z.ones n) by (rewrite Z.ones_equiv; lia). apply Z.land_ones. lia.
Qed.

(** ** The code *)

(** The lengths of the symbols that have a code word. *)
Definition used_lengths (lens : list Z) : list Z := filter (λ l, l ≠ 0) lens.

(** RFC 1951, 3.2.2: the first code word of each length, and the code words of the
    symbols of a length in order. *)
Fixpoint first_code (lens : list Z) (l : nat) : Z :=
  match l with
  | O => 0
  | S l' => (first_code lens l' + (if decide (l' = 0%nat) then 0 else Z.of_nat (occurrences (Z.of_nat l') lens))) * 2
  end.

Definition codeword (lens : list Z) (s : nat) (l : Z) : Z :=
  first_code lens (Z.to_nat l) + Z.of_nat (occurrences l (take s lens)).

(** The space of the tables: the bits the root table is indexed by, which are those asked
    for but no more than the longest and no fewer than the shortest code word has; the
    lengths of the longer code words that start with the bits [p]; and the entries of the
    sub-table for those, indexed by the rest of the longest. *)
Definition max_length (lens : list Z) : Z := foldr Z.max 0 (used_lengths lens).
Definition min_length (lens : list Z) : Z := foldr Z.min MAXBITS (used_lengths lens).
Definition root_bits (lens : list Z) (root : Z) : Z := Z.max (min_length lens) (Z.min root (max_length lens)).

Definition sub_lengths (lens : list Z) (root p : Z) : list Z :=
  (filter (λ '(s, l), root < l ∧ codeword lens s l / 2 ^ (l - root) = p) (imap pair lens)).*2.

Definition sub_size (lens : list Z) (root p : Z) : Z :=
  let m := foldr Z.max 0 (sub_lengths lens root p) in if m =? 0 then 0 else 2 ^ (m - root).

Definition decoding_space (lens : list Z) (root : Z) : Z := 2 ^ root + sum_below (sub_size lens root) (Z.to_nat (2 ^ root)).

Lemma foldr_max xs m : m ∈ xs → (∀ x, x ∈ xs → x ≤ m) → 0 ≤ m → foldr Z.max 0 xs = m.
Proof.
  intros Hm Hle H0. assert (foldr Z.max 0 xs ≤ m) as H1.
  { clear Hm. induction xs as [|x xs IH]; [done|]. cbn. pose proof (Hle x ltac:(left)). specialize (IH ltac:(intros y Hy; apply Hle; by right)). lia. }
  assert (m ≤ foldr Z.max 0 xs) as H2; [|lia]. clear Hle H1. induction Hm as [|m x xs Hm IH]; cbn; lia.
Qed.

Lemma foldr_min xs m b : m ∈ xs → (∀ x, x ∈ xs → m ≤ x) → m ≤ b → foldr Z.min b xs = m.
Proof.
  intros Hm Hle H0. assert (m ≤ foldr Z.min b xs) as H1.
  { clear Hm. induction xs as [|x xs IH]; [done|]. cbn. pose proof (Hle x ltac:(left)). specialize (IH ltac:(intros y Hy; apply Hle; by right)). lia. }
  assert (foldr Z.min b xs ≤ m) as H2; [|lia]. clear Hle H1. induction Hm as [|m x xs Hm IH]; cbn; lia.
Qed.

Lemma elem_sub_lengths lens root p l :
  l ∈ sub_lengths lens root p ↔ root < l ∧ ∃ s, lens !! s = Some l ∧ codeword lens s l / 2 ^ (l - root) = p.
Proof.
  unfold sub_lengths. rewrite list_elem_of_fmap. split.
  - intros ([s l'] & -> & Hel). apply list_elem_of_filter in Hel as [[Hl Hc] Hel]. cbn. split; [done|].
    exists s. split; [|done]. apply elem_of_lookup_imap in Hel as (i & x & E & Hi). by injection E as -> ->.
  - intros (Hl & s & Hs & Hc). exists (s, l). split; [done|]. apply list_elem_of_filter. split; [done|].
    apply elem_of_lookup_imap. by exists s, l.
Qed.

Lemma sub_size_nonneg lens root p : 0 ≤ sub_size lens root p.
Proof. unfold sub_size. destruct (_ =? 0); [done|]. apply Z.pow_nonneg. lia. Qed.

(** What the entry of a symbol says. *)
Definition symbol_entry (type : codetype) (w : Z) : Z * Z :=
  match type with
  | CODES => (0, w)
  | LENS => if w <? 256 then (0, w) else if w =? 256 then (96, 0) else (nth (Z.to_nat (w - 257)) lext 0, nth (Z.to_nat (w - 257)) lbase 0)
  | DISTS => (nth (Z.to_nat w) dext 0, nth (Z.to_nat w) dbase 0)
  end.

(** The symbols each alphabet has. *)
Definition alphabet (type : codetype) : Z := match type with CODES => 19 | LENS => 288 | DISTS => 32 end.

Lemma symbol_ops type w : 0 ≤ w < alphabet type → fst (symbol_entry type w) = 0 ∨ Z.land (fst (symbol_entry type w)) 0xf0 ≠ 0.
Proof.
  intros Hw. assert (forallb (λ w, (fst (symbol_entry type w) =? 0) || negb (Z.land (fst (symbol_entry type w)) 0xf0 =? 0)) (seqZ 0 (alphabet type)) = true) as H
    by (destruct type; vm_compute; reflexivity).
  rewrite forallb_forall in H. specialize (H w ltac:(apply list_elem_of_In, elem_of_seqZ; lia)).
  apply orb_true_iff in H as [H|H]; [left; by apply Z.eqb_eq|right; by apply Z.eqb_neq, negb_true_iff].
Qed.

Lemma run_make_entry {S} type work w b (s : S) : 0 ≤ w < alphabet type →
  make_entry type work w b s = Ret (Code (fst (symbol_entry type w)) (u8 b) (snd (symbol_entry type w))) s.
Proof.
  intros Hw. destruct type; unfold make_entry, alphabet, symbol_entry in *.
  - by rewrite (proj2 (Z.ltb_lt w 19)) by lia.
  - destruct (Z.ltb_spec w 256) as [H|H]; [done|]. destruct (Z.eqb_spec w 256) as [->|Hne]; [done|].
    rewrite (proj2 (Z.ltb_lt 256 w)) by lia. assert (∃ k, (k < 31)%nat ∧ w - 257 = Z.of_nat k) as (k & Hk & ->) by (exists (Z.to_nat (w - 257)); lia).
    do 31 (destruct k as [|k]; [reflexivity|]). lia.
  - rewrite (proj2 (Z.ltb_ge w (-1))), (proj2 (Z.ltb_lt (-1) w)), Z.sub_0_r by lia.
    assert (∃ k, (k < 32)%nat ∧ w = Z.of_nat k) as (k & Hk & ->) by (exists (Z.to_nat w); lia).
    do 32 (destruct k as [|k]; [reflexivity|]). lia.
Qed.

(** ** Counting *)

Section lens.
Context (lens : list Z).
Hypothesis Hlens : Forall (λ l, 0 ≤ l ≤ 15) lens.
Hypothesis Hsmall : Z.of_nat (length lens) < 2 ^ 16.

Lemma lens_range i l : lens !! i = Some l → 0 ≤ l ≤ 15.
Proof. intros Hi. rewrite Forall_lookup in Hlens. by apply (Hlens i). Qed.

Lemma occurrences_app l xs ys : occurrences l (xs ++ ys) = (occurrences l xs + occurrences l ys)%nat.
Proof. unfold occurrences. by rewrite filter_app, length_app. Qed.

Lemma occurrences_take i l x : lens !! i = Some x →
  occurrences l (take (S i) lens) = (occurrences l (take i lens) + (if decide (x = l) then 1 else 0))%nat.
Proof. intros Hi. erewrite take_S_r by done. rewrite occurrences_app, occurrences_cons. change (occurrences l []) with 0%nat. lia. Qed.

Lemma occurrences_le l i : (occurrences l (take i lens) ≤ i)%nat.
Proof. unfold occurrences. etrans; [apply length_filter|]. rewrite length_take. lia. Qed.

(** The counts of a prefix. *)
Definition counted (i : nat) (count : list Z) : Prop :=
  length count = 16%nat ∧ ∀ l, 0 ≤ l ≤ 15 → count !! Z.to_nat l = Some (Z.of_nat (occurrences l (take i lens))).

Lemma run_count_lengths {S} (s : S) : ∃ count, count_lengths lens (Z.of_nat (length lens)) s = Ret count s ∧ counted (length lens) count.
Proof.
  unfold count_lengths. rewrite Nat2Z.id.
  assert (∀ k i count fuel, (i + k = length lens)%nat → counted i count → (k < fuel)%nat →
    ∃ count', loop fuel (λ '(sym, count),
      if sym <? Z.of_nat (length lens) then
        len ← elem lens sym; n ← elem count len; count ← upd count len (u16 (n + 1)); Next (sym + 1, count)
      else Break count) (Z.of_nat i, count) s = Ret count' s ∧ counted (length lens) count') as H.
  { induction k as [|k IH]; intros i count fuel Hi Hc Hf; (destruct fuel as [|fuel]; [lia|]); rewrite run_loop; cbn beta iota.
    { rewrite (proj2 (Z.ltb_ge _ _)) by lia. exists count. split; [done|]. by replace (length lens) with i by lia. }
    rewrite (proj2 (Z.ltb_lt _ _)) by lia. destruct (lookup_lt_is_Some_2 lens i ltac:(lia)) as [l Hl]. pose proof (lens_range i l Hl) as Hr.
    rewrite run_bind, (run_elem lens _ l) by (lia || by rewrite Nat2Z.id). cbn beta iota. destruct Hc as [Hlen Hc].
    rewrite run_bind, (run_elem count l (Z.of_nat (occurrences l (take i lens)))) by (lia || by apply Hc). cbn beta iota. rewrite run_bind, run_upd by lia. cbn beta iota.
    rewrite run_ret. cbn beta iota. replace (Z.of_nat i + 1) with (Z.of_nat (Datatypes.S i)) by lia. apply IH; [lia| |lia].
    split; [by rewrite length_insert|]. intros l' Hl'. rewrite (occurrences_take i l' l Hl). pose proof (occurrences_le l i).
    destruct (decide (l = l')) as [->|Hne].
    - rewrite list_lookup_insert_eq by lia. f_equal. rewrite wrap_small by lia. lia.
    - rewrite list_lookup_insert_ne by lia. rewrite Hc by done. f_equal. lia. }
  apply (H (length lens) 0%nat); [lia| |lia]. split; [done|]. intros l Hl. change (take 0 lens) with (@nil Z).
  rewrite lookup_replicate_2 by (unfold MAXBITS; lia). done.
Qed.
(** ** The longest and the shortest code word, and the words left *)

Abbreviation used := (used_lengths lens).
Abbreviation occ := (λ l : Z, Z.of_nat (occurrences l lens)).

Lemma used_ok : Forall length_ok used.
Proof.
  apply Forall_forall. intros l Hl. apply list_elem_of_filter in Hl as [Hl0 Hl]. rewrite Forall_forall in Hlens.
  specialize (Hlens l Hl). unfold length_ok. lia.
Qed.

Lemma used_occurrences l : l ≠ 0 → occurrences l used = occurrences l lens.
Proof.
  intros Hl. unfold used_lengths. clear Hlens Hsmall. induction lens as [|x xs IH]; [done|]. rewrite filter_cons, occurrences_cons.
  destruct (decide (x ≠ 0)) as [Hx|Hx]; [by rewrite occurrences_cons, IH|]. rewrite IH. destruct (decide (x = l)) as [->|]; [|done]. by destruct Hx.
Qed.

Context (count : list Z).
Hypothesis Hcount : counted (length lens) count.

Lemma run_count_at {S} l (s : S) : 0 ≤ l ≤ 15 → elem count l s = Ret (occ l) s.
Proof. intros Hl. destruct Hcount as [_ Hc]. apply run_elem; [lia|]. rewrite Hc, take_ge by done. done. Qed.

Lemma run_find_max {S} (s : S) : ∃ max, find_max count s = Ret max s ∧ 0 ≤ max ≤ 15 ∧
  (∀ l, max < l ≤ 15 → occurrences l lens = 0%nat) ∧ (max ≠ 0 → occurrences max lens ≠ 0%nat).
Proof.
  unfold find_max. assert (∀ k max, (k = Z.to_nat max)%nat → 0 ≤ max ≤ 15 → (∀ l, max < l ≤ 15 → occurrences l lens = 0%nat) →
    ∀ fuel, (k < fuel)%nat → ∃ max', loop fuel (λ max,
      if 1 <=? max then n ← elem count max; if n =? 0 then Next (max - 1) else Break max else Break max) max s = Ret max' s ∧
    0 ≤ max' ≤ 15 ∧ (∀ l, max' < l ≤ 15 → occurrences l lens = 0%nat) ∧ (max' ≠ 0 → occurrences max' lens ≠ 0%nat)) as H.
  { induction k as [|k IH]; intros max Hk Hm Hz fuel Hf; (destruct fuel as [|fuel]; [lia|]); rewrite run_loop; cbn beta iota.
    { rewrite (proj2 (Z.leb_gt 1 max)) by lia. exists max. split_and!; [done|lia|lia|done|lia]. }
    rewrite (proj2 (Z.leb_le 1 max)) by lia. rewrite run_bind, run_count_at by lia. cbn beta iota.
    destruct (Z.eqb_spec (Z.of_nat (occurrences max lens)) 0) as [E|E]; rewrite run_ret; cbn beta iota.
    - apply (IH (max - 1)); [lia|lia| |lia]. intros l Hl. destruct (decide (l = max)) as [->|]; [lia|]. apply Hz. lia.
    - exists max. split_and!; [done|lia|lia|done|lia]. }
  apply (H 15%nat MAXBITS); [done|unfold MAXBITS; lia|unfold MAXBITS; lia|unfold MAXBITS; lia].
Qed.

Lemma run_find_min {S} max (s : S) : 1 ≤ max ≤ 15 → occurrences max lens ≠ 0%nat →
  ∃ min, find_min count s = Ret min s ∧ 1 ≤ min ≤ max ∧
  (∀ l, 1 ≤ l < min → occurrences l lens = 0%nat) ∧ occurrences min lens ≠ 0%nat.
Proof.
  intros Hmax Homax. unfold find_min. assert (∀ k min, (k = Z.to_nat (max - min))%nat → 1 ≤ min ≤ max → (∀ l, 1 ≤ l < min → occurrences l lens = 0%nat) →
    ∀ fuel, (k < fuel)%nat → ∃ min', loop fuel (λ min,
      if min <=? MAXBITS then n ← elem count min; if n =? 0 then Next (min + 1) else Break min else Break min) min s = Ret min' s ∧
    1 ≤ min' ≤ max ∧ (∀ l, 1 ≤ l < min' → occurrences l lens = 0%nat) ∧ occurrences min' lens ≠ 0%nat) as H.
  { unfold MAXBITS. induction k as [|k IH]; intros min Hk Hm Hz fuel Hf; (destruct fuel as [|fuel]; [lia|]); rewrite run_loop; cbn beta iota;
      rewrite (proj2 (Z.leb_le min 15)) by lia; rewrite run_bind, run_count_at by lia; cbn beta iota;
      destruct (Z.eqb_spec (Z.of_nat (occurrences min lens)) 0) as [E|E]; rewrite run_ret; cbn beta iota.
    - exfalso. replace min with max in E by lia. lia.
    - exists min. split_and!; [done|lia|lia|done|lia].
    - apply (IH (min + 1)); [lia| | |lia].
      + assert (min ≠ max); [|lia]. intros ->. lia.
      + intros l Hl. destruct (decide (l = min)) as [->|]; [lia|]. apply Hz. lia.
    - exists min. split_and!; [done|lia|lia|done|lia]. }
  apply (H (Z.to_nat (max - 1)) 1); [done|lia|lia|unfold MAXBITS; lia].
Qed.

Lemma run_check_left {S} (s : S) :
  check_left count s = Ret (if weight used <=? 2 ^ 15 then Some (2 ^ 15 - weight used) else None) s.
Proof.
  unfold check_left. assert (∀ k l, (k = Z.to_nat (16 - l))%nat → 1 ≤ l ≤ 16 → room (l - 1) used ≤ 2 ^ (l - 1) → ∀ fuel, (k < fuel)%nat →
    loop fuel (λ '(len, lft),
      if len <=? MAXBITS then
        n ← elem count len;
        let lft := Z.shiftl lft 1 - n in
        if lft <? 0 then Break None else Next (len + 1, lft)
      else Break (Some lft)) (l, 2 ^ (l - 1) - room (l - 1) used) s =
    Ret (if weight used <=? 2 ^ 15 then Some (2 ^ 15 - weight used) else None) s) as H.
  { unfold MAXBITS. pose proof used_ok as Hu. induction k as [|k IH]; intros l Hk Hl Hr fuel Hf; (destruct fuel as [|fuel]; [lia|]); rewrite run_loop; cbn beta iota.
    { rewrite (proj2 (Z.leb_gt l 15)), run_ret by lia. replace (l - 1) with 15 in * by lia. rewrite room_15 in * by done.
      by rewrite (proj2 (Z.leb_le _ _)). }
    rewrite (proj2 (Z.leb_le l 15)) by lia. rewrite run_bind, run_count_at by lia. cbn beta iota zeta.
    pose proof (room_succ (l - 1) used) as Hs. replace (l - 1 + 1) with l in Hs by lia. rewrite used_occurrences in Hs by lia.
    assert (Z.shiftl (2 ^ (l - 1) - room (l - 1) used) 1 - Z.of_nat (occurrences l lens) = 2 ^ l - room l used) as ->.
    { rewrite Z.shiftl_mul_pow2 by lia. replace (2 ^ l) with (2 ^ (l - 1) * 2 ^ 1) by (rewrite <-Z.pow_add_r by lia; f_equal; lia). lia. }
    pose proof (room_weight l used Hu ltac:(lia)) as Hw.
    destruct (Z.ltb_spec (2 ^ l - room l used) 0) as [Hneg|Hpos]; rewrite run_ret; cbn beta iota.
    - rewrite (proj2 (Z.leb_gt _ _)); [done|]. replace (2 ^ 15) with (2 ^ l * 2 ^ (15 - l)) by (rewrite <-Z.pow_add_r by lia; f_equal; lia).
      pose proof (Z.pow_pos_nonneg 2 (15 - l) ltac:(lia) ltac:(lia)). nia.
    - pose proof (IH (l + 1) ltac:(lia) ltac:(lia)) as IH'. replace (l + 1 - 1) with l in IH' by lia. apply IH'; lia. }
  pose proof (H 15%nat 1 eq_refl ltac:(lia)) as H1. change (1 - 1) with 0 in H1. rewrite room_small in H1.
  - apply H1; [lia|]. unfold MAXBITS. lia.
  - apply (Forall_impl _ _ _ used_ok). unfold length_ok. lia.
Qed.
(** ** Sorting *)

(** The code words shorter than [l]. *)
Definition start (l : Z) : nat := length (filter (λ x, x < l) used).

Lemma start_1 : start 1 = 0%nat.
Proof.
  unfold start. pose proof used_ok as Hu. induction Hu as [|x xs Hx Hu IH]; [done|]. unfold length_ok in Hx.
  rewrite filter_cons, decide_False by lia. done.
Qed.

Lemma start_S l : l ≠ 0 → start (l + 1) = (start l + occurrences l lens)%nat.
Proof.
  intros Hl. rewrite <-used_occurrences by done. unfold start, occurrences. induction used as [|x xs IH]; [done|]. rewrite !filter_cons.
  destruct (decide (x < l + 1)), (decide (x < l)), (decide (x = l)); simpl; lia.
Qed.

Lemma start_mono l l' : l ≤ l' → (start l ≤ start l')%nat.
Proof.
  intros H. unfold start. induction used as [|x xs IH]; [done|]. rewrite !filter_cons.
  destruct (decide (x < l)), (decide (x < l')); simpl; lia.
Qed.

Lemma start_le l : (start l ≤ length lens)%nat.
Proof. unfold start, used_lengths. etrans; [apply length_filter|]. apply length_filter. Qed.

Lemma run_offsets {S} (s : S) :
  ∃ offs, offsets count s = Ret offs s ∧ length offs = 16%nat ∧ ∀ l, length_ok l → offs !! Z.to_nat l = Some (Z.of_nat (start l)).
Proof.
  unfold offsets, MAXBITS. assert (∀ k len offs, (k = Z.to_nat (15 - len))%nat → 1 ≤ len ≤ 15 → length offs = 16%nat →
    (∀ l, 1 ≤ l ≤ len → offs !! Z.to_nat l = Some (Z.of_nat (start l))) → ∀ fuel, (k < fuel)%nat →
    ∃ offs', loop fuel (λ '(len, offs),
      if len <? 15 then o ← elem offs len; n ← elem count len; offs ← upd offs (len + 1) (u16 (o + n)); Next (len + 1, offs)
      else Break offs) (len, offs) s = Ret offs' s ∧ length offs' = 16%nat ∧
    ∀ l, length_ok l → offs' !! Z.to_nat l = Some (Z.of_nat (start l))) as H.
  { induction k as [|k IH]; intros len offs Hk Hlen Hl Ho fuel Hf; (destruct fuel as [|fuel]; [lia|]); rewrite run_loop; cbn beta iota.
    { rewrite (proj2 (Z.ltb_ge len 15)) by lia. exists offs. split_and!; [done|done|]. intros l Hl'. unfold length_ok in Hl'. apply Ho. lia. }
    rewrite (proj2 (Z.ltb_lt len 15)) by lia. rewrite run_bind, (run_elem offs len (Z.of_nat (start len))) by (lia || apply Ho; lia). cbn beta iota.
    rewrite run_bind, run_count_at by lia. cbn beta iota. rewrite run_bind, run_upd by lia. cbn beta iota. rewrite run_ret. cbn beta iota.
    apply IH; [lia|lia|by rewrite length_insert| |lia]. intros l Hl'. destruct (decide (l = len + 1)) as [->|Hne].
    - rewrite list_lookup_insert_eq by lia. f_equal. rewrite start_S by lia. pose proof (start_le (len + 1)) as Hle. rewrite start_S in Hle by lia.
      rewrite wrap_small by lia. lia.
    - rewrite list_lookup_insert_ne by lia. apply Ho. lia. }
  apply (H 14%nat 1); [done|lia|done| |lia]. intros l Hl. replace l with 1 by lia. rewrite start_1. done.
Qed.

(** The symbols below [i] with a code word of length [l]. *)
Definition symbols (l : Z) (i : nat) : list nat := filter (λ s, lens !! s = Some l) (seq 0 i).

Lemma symbols_S l i x : lens !! i = Some x → symbols l (S i) = symbols l i ++ (if decide (x = l) then [i] else []).
Proof.
  intros Hi. unfold symbols. rewrite seq_S, filter_app. f_equal. rewrite filter_cons, filter_nil. cbn [Nat.add]. rewrite Hi.
  destruct (decide (Some x = Some l)), (decide (x = l)); congruence.
Qed.

Lemma symbols_length l i : (i ≤ length lens)%nat → length (symbols l i) = occurrences l (take i lens).
Proof.
  induction i as [|i IH]; intros Hi; [done|]. destruct (lookup_lt_is_Some_2 lens i ltac:(lia)) as [x Hx].
  rewrite (symbols_S l i x Hx), (occurrences_take i l x Hx), length_app, IH by lia. by destruct (decide (x = l)).
Qed.

Lemma symbols_le l i : (i ≤ length lens)%nat → (length (symbols l i) ≤ occurrences l lens)%nat.
Proof.
  intros Hi. rewrite symbols_length by done. rewrite <-(take_drop i lens) at 2. rewrite occurrences_app. lia.
Qed.

(** The places of two symbols differ. *)
Lemma places_differ l j l' j' i : (i ≤ length lens)%nat → length_ok l → length_ok l' →
  (j < length (symbols l i))%nat → (j' < occurrences l' lens)%nat → l ≠ l' → (start l + j ≠ start l' + j')%nat.
Proof.
  intros Hi Hl Hl' Hj Hj' Hne. unfold length_ok in *. pose proof (symbols_le l i Hi).
  pose proof (start_S l ltac:(lia)). pose proof (start_S l' ltac:(lia)).
  destruct (decide (l < l')); [pose proof (start_mono (l + 1) l' ltac:(lia))|pose proof (start_mono (l' + 1) l ltac:(lia))]; lia.
Qed.

(** [work] has the symbols below [i] in their places. *)
Definition placed (i : nat) (work : list Z) : Prop :=
  ∀ l j s, length_ok l → symbols l i !! j = Some s → work !! (start l + j)%nat = Some (Z.of_nat s).

Lemma run_sort_symbols {S} offs work (s : S) :
  length offs = 16%nat → (∀ l, length_ok l → offs !! Z.to_nat l = Some (Z.of_nat (start l))) → (length lens ≤ length work)%nat →
  ∃ work', sort_symbols lens (Z.of_nat (length lens)) offs work s = Ret work' s ∧ placed (length lens) work'.
Proof.
  intros Hol Ho Hw. unfold sort_symbols. rewrite Nat2Z.id.
  assert (∀ k i offs work fuel, (i + k = length lens)%nat → length offs = 16%nat → (length lens ≤ length work)%nat →
    (∀ l, length_ok l → offs !! Z.to_nat l = Some (Z.of_nat (start l + length (symbols l i)))) → placed i work → (k < fuel)%nat →
    ∃ work', loop fuel (λ '(sym, offs, work),
      if sym <? Z.of_nat (length lens) then
        len ← elem lens sym;
        if len =? 0 then Next (sym + 1, offs, work) else
        o ← elem offs len; work ← upd work o (u16 sym); offs ← upd offs len (u16 (o + 1)); Next (sym + 1, offs, work)
      else Break work) (Z.of_nat i, offs, work) s = Ret work' s ∧ placed (length lens) work') as H.
  { clear offs work Hol Ho Hw. induction k as [|k IH]; intros i offs work fuel Hi Hol Hw Ho Hp Hf; (destruct fuel as [|fuel]; [lia|]); rewrite run_loop; cbn beta iota.
    { rewrite (proj2 (Z.ltb_ge _ _)) by lia. exists work. split; [done|]. by replace (length lens) with i by lia. }
    rewrite (proj2 (Z.ltb_lt _ _)) by lia. destruct (lookup_lt_is_Some_2 lens i ltac:(lia)) as [x Hx]. pose proof (lens_range i x Hx) as Hr.
    rewrite run_bind, (run_elem lens _ x) by (lia || by rewrite Nat2Z.id). cbn beta iota.
    replace (Z.of_nat i + 1) with (Z.of_nat (Datatypes.S i)) by lia. destruct (Z.eqb_spec x 0) as [->|Hx0].
    { rewrite run_ret. cbn beta iota. apply IH; [lia|done|done| | |lia].
      - intros l Hl. rewrite (symbols_S l i 0 Hx), decide_False, app_nil_r by (unfold length_ok in Hl; lia). by apply Ho.
      - intros l j s' Hl. rewrite (symbols_S l i 0 Hx), decide_False, app_nil_r by (unfold length_ok in Hl; lia). by apply Hp. }
    assert (length_ok x) as Hxo by (unfold length_ok; lia). pose proof (symbols_S x i x Hx) as Hsx. rewrite decide_True in Hsx by done.
    pose proof (symbols_le x (Datatypes.S i) ltac:(lia)) as Hle. rewrite Hsx, length_app in Hle. cbn [length] in Hle.
    pose proof (start_S x Hx0) as Hst. pose proof (start_le (x + 1)) as Hsl.
    rewrite run_bind, (run_elem offs x _ _ ltac:(lia) (Ho x Hxo)). cbn beta iota.
    rewrite run_bind, run_upd by lia. cbn beta iota. rewrite run_bind, run_upd by lia. cbn beta iota. rewrite run_ret. cbn beta iota.
    rewrite !wrap_small by lia. rewrite Nat2Z.id. apply IH; [lia|by rewrite length_insert|by rewrite length_insert| | |lia].
    - intros l Hl. pose proof Hl as Hl2. unfold length_ok in Hl2. rewrite (symbols_S l i x Hx), length_app. destruct (decide (x = l)) as [->|Hne].
      + rewrite list_lookup_insert_eq by lia. f_equal. cbn [length]. lia.
      + rewrite list_lookup_insert_ne by lia. rewrite Ho by done. f_equal. cbn [length]. lia.
    - intros l j s' Hl Hj. rewrite (symbols_S l i x Hx) in Hj. apply lookup_app_Some in Hj as [Hj|[Hge Hj]].
      + rewrite list_lookup_insert_ne; [by apply Hp|]. apply lookup_lt_Some in Hj. destruct (decide (l = x)) as [->|Hne]; [lia|].
        apply not_eq_sym, (places_differ l j x _ i); [lia|done|done|done|lia|done].
      + destruct (decide (x = l)) as [->|]; [|done]. apply list_lookup_singleton_Some in Hj as [Hj <-].
        rewrite <-(list_lookup_insert_eq work (start l + length (symbols l i)) (Z.of_nat i)) by lia. f_equal. lia. }
  apply (H (length lens) 0%nat); [lia|done|done| |done|lia]. intros l Hl. rewrite Ho by done. f_equal. cbn. lia.
Qed.
(** *** The symbols in order, and their lengths *)

Fixpoint order (m : nat) : list nat :=
  match m with
  | O => []
  | S m => order m ++ symbols (Z.of_nat (S m)) (length lens)
  end.

Fixpoint sorted_lengths (m : nat) : list Z :=
  match m with
  | O => []
  | S m => sorted_lengths m ++ replicate (occurrences (Z.of_nat (S m)) lens) (Z.of_nat (S m))
  end.

Lemma symbols_all l : length (symbols l (length lens)) = occurrences l lens.
Proof. rewrite symbols_length, take_ge by lia. done. Qed.

Lemma symbols_lookup l i j s : symbols l i !! j = Some s → lens !! s = Some l.
Proof. intros H. apply list_elem_of_lookup_2 in H. by apply list_elem_of_filter in H as [H _]. Qed.

Lemma order_length m : length (order m) = start (Z.of_nat m + 1) ∧ length (sorted_lengths m) = start (Z.of_nat m + 1).
Proof.
  induction m as [|m [IH1 IH2]]; [split; symmetry; exact start_1|]. cbn [order sorted_lengths]. rewrite !length_app, length_replicate, symbols_all, IH1, IH2.
  replace (Z.of_nat m + 1) with (Z.of_nat (S m)) by lia. rewrite start_S by lia. done.
Qed.

(** The symbol in each place. *)
Lemma order_lookup m k s : order m !! k = Some s →
  ∃ l j, 1 ≤ l ≤ Z.of_nat m ∧ symbols l (length lens) !! j = Some s ∧ k = (start l + j)%nat ∧ sorted_lengths m !! k = Some l.
Proof.
  revert k s. induction m as [|m IH]; intros k s Hk; [done|]. cbn [order sorted_lengths] in *. destruct (order_length m) as [Ho Hs].
  apply lookup_app_Some in Hk as [Hk|[Hge Hk]].
  - destruct (IH k s Hk) as (l & j & Hl & Hj & -> & Hsl). exists l, j. split_and!; [lia|lia|done|done|]. by apply lookup_app_l_Some.
  - exists (Z.of_nat (S m)), (k - length (order m))%nat. rewrite Ho in *. replace (Z.of_nat m + 1) with (Z.of_nat (S m)) in * by lia.
    split_and!; [lia|lia|done|lia|]. rewrite lookup_app_r by lia. rewrite Hs. apply lookup_replicate_2.
    apply lookup_lt_Some in Hk. by rewrite symbols_all in Hk.
Qed.

Lemma order_place m l j s : 1 ≤ l ≤ Z.of_nat m → symbols l (length lens) !! j = Some s → order m !! (start l + j)%nat = Some s.
Proof.
  induction m as [|m IH]; intros Hl Hj; [lia|]. cbn [order]. destruct (order_length m) as [Ho _].
  destruct (decide (l = Z.of_nat (S m))) as [->|Hne].
  - rewrite lookup_app_r by (rewrite Ho; replace (Z.of_nat m + 1) with (Z.of_nat (S m)) by lia; lia). rewrite <-Hj. f_equal. rewrite Ho.
    replace (Z.of_nat m + 1) with (Z.of_nat (S m)) by lia. lia.
  - apply lookup_app_l_Some. apply IH; [lia|done].
Qed.

Abbreviation ls := (sorted_lengths 15).

Lemma order_ls k l : ls !! k = Some l → ∃ s j, order 15 !! k = Some s ∧ lens !! s = Some l ∧ length_ok l ∧ k = (start l + j)%nat ∧ symbols l (length lens) !! j = Some s.
Proof.
  intros Hk. destruct (order_length 15) as [Ho Hs]. destruct (lookup_lt_is_Some_2 (order 15) k) as [s Hs']; [apply lookup_lt_Some in Hk; lia|].
  destruct (order_lookup 15 k s Hs') as (l' & j & Hl' & Hj & -> & Hsl). rewrite Hk in Hsl. injection Hsl as <-.
  exists s, j. split_and!; [done|by eapply symbols_lookup|unfold length_ok; lia|done|done].
Qed.

Lemma ls_ok : Forall length_ok ls.
Proof. apply Forall_lookup. intros k l Hk. by destruct (order_ls k l Hk) as (s & j & _ & _ & Hl & _). Qed.

Lemma ls_sorted i j a b : (i ≤ j)%nat → ls !! i = Some a → ls !! j = Some b → a ≤ b.
Proof.
  intros Hij Ha Hb. destruct (order_ls i a Ha) as (s & p & _ & _ & Hla & -> & Hp), (order_ls j b Hb) as (s' & q & _ & _ & Hlb & -> & Hq).
  destruct (decide (a ≤ b)) as [|Hgt]; [done|]. exfalso. unfold length_ok in *.
  pose proof (start_S b ltac:(lia)). pose proof (start_mono (b + 1) a ltac:(lia)). apply lookup_lt_Some in Hq. rewrite symbols_all in Hq. lia.
Qed.

Lemma occurrences_replicate l n l' : occurrences l (replicate n l') = if decide (l = l') then n else 0%nat.
Proof.
  induction n as [|n IH]; [by destruct (decide _)|]. cbn [replicate]. rewrite occurrences_cons, IH.
  destruct (decide (l' = l)), (decide (l = l')); congruence || lia.
Qed.

Lemma sorted_occurrences m l : 1 ≤ l → occurrences l (sorted_lengths m) = if decide (l ≤ Z.of_nat m) then occurrences l lens else 0%nat.
Proof.
  intros Hl. induction m as [|m IH]; [by rewrite decide_False by lia|]. cbn [sorted_lengths]. rewrite occurrences_app, IH, occurrences_replicate.
  destruct (decide (l = Z.of_nat (S m))) as [->|]; [rewrite decide_False, decide_True by lia; lia|].
  destruct (decide (l ≤ Z.of_nat m)); [rewrite decide_True by lia|rewrite decide_False by lia]; lia.
Qed.

Lemma weight_replicate n l : weight (replicate n l) = Z.of_nat n * 2 ^ (15 - l).
Proof. induction n as [|n IH]; [done|]. cbn [replicate weight]. rewrite IH. lia. Qed.

Lemma sorted_weight m : (m ≤ 15)%nat → weight (sorted_lengths m) = room (Z.of_nat m) used * 2 ^ (15 - Z.of_nat m).
Proof.
  induction m as [|m IH]; intros Hm.
  { rewrite room_small; [done|]. apply (Forall_impl _ _ _ used_ok). unfold length_ok. lia. }
  cbn [sorted_lengths]. rewrite weight_app, weight_replicate, IH by lia. pose proof (room_succ (Z.of_nat m) used) as Hr.
  rewrite used_occurrences in Hr by lia. replace (Z.of_nat m + 1) with (Z.of_nat (S m)) in Hr by lia. rewrite Hr.
  replace (2 ^ (15 - Z.of_nat m)) with (2 * 2 ^ (15 - Z.of_nat (S m))); [lia|]. rewrite <-Z.pow_succ_r by lia. f_equal. lia.
Qed.

Lemma ls_weight : weight ls = weight used.
Proof. rewrite sorted_weight by lia. change (Z.of_nat 15) with 15. rewrite room_15 by apply used_ok. rewrite Z.sub_diag. lia. Qed.

Lemma first_code_room m : first_code lens (S m) = 2 * room (Z.of_nat m) used.
Proof.
  induction m as [|m IH].
  { cbn. rewrite room_small; [done|]. apply (Forall_impl _ _ _ used_ok). unfold length_ok. lia. }
  assert (first_code lens (S (S m)) = (first_code lens (S m) + Z.of_nat (occurrences (Z.of_nat (S m)) lens)) * 2) as ->.
  { transitivity ((first_code lens (S m) + (if decide (S m = 0%nat) then 0 else Z.of_nat (occurrences (Z.of_nat (S m)) lens))) * 2); [reflexivity|].
    by rewrite decide_False by lia. }
  rewrite IH. pose proof (room_succ (Z.of_nat m) used) as Hr. rewrite used_occurrences in Hr by lia. replace (Z.of_nat m + 1) with (Z.of_nat (S m)) in Hr by lia. lia.
Qed.

(** The position of a symbol is its code word with zeros after it. *)
Lemma pos_codeword l j : length_ok l → (j ≤ occurrences l lens)%nat →
  pos ls (start l + j) = (first_code lens (Z.to_nat l) + Z.of_nat j) * 2 ^ (15 - l).
Proof.
  intros Hl Hj. unfold length_ok in Hl. assert (∃ m, Z.to_nat l = S m ∧ (m < 15)%nat) as (m & Em & Hm) by (exists (Z.to_nat l - 1)%nat; lia).
  assert (∀ k, (k ≤ 15)%nat → ∃ rest, ls = sorted_lengths k ++ rest) as Hpre.
  { intros k Hk. replace 15%nat with (k + (15 - k))%nat by lia. generalize (15 - k)%nat as d. induction d as [|d [rest IH]].
    - exists []. by rewrite Nat.add_0_r, app_nil_r.
    - rewrite Nat.add_succ_r. cbn [sorted_lengths]. rewrite IH. eexists. by rewrite <-app_assoc. }
  destruct (Hpre (S m) ltac:(lia)) as [rest E]. unfold pos. rewrite E. cbn [sorted_lengths]. rewrite <-app_assoc.
  replace (Z.of_nat (S m)) with l by lia. destruct (order_length m) as [_ Hs]. replace (Z.of_nat m + 1) with l in Hs by lia.
  rewrite take_app_ge by lia. rewrite Hs. replace (start l + j - start l)%nat with j by lia.
  rewrite take_app_le by (rewrite length_replicate; lia). rewrite take_replicate, Nat.min_l by lia.
  rewrite weight_app, weight_replicate, sorted_weight, Em, first_code_room by lia.
  replace (2 ^ (15 - Z.of_nat m)) with (2 * 2 ^ (15 - l)); [lia|]. rewrite <-Z.pow_succ_r by lia. f_equal. lia.
Qed.
(** A symbol is among those of its length after the ones before it. *)
Lemma symbols_at s l : lens !! s = Some l → symbols l (length lens) !! occurrences l (take s lens) = Some s.
Proof.
  intros Hs. pose proof (lookup_lt_Some _ _ _ Hs) as Hlt. assert (symbols l (length lens) = symbols l (S s) ++ filter (λ s, lens !! s = Some l) (seq (S s) (length lens - S s))) as ->.
  { unfold symbols. rewrite <-filter_app, <-seq_app. f_equal. f_equal. lia. }
  rewrite (symbols_S l s l Hs), decide_True, <-app_assoc by done. rewrite lookup_app_r by (rewrite symbols_length by lia; lia).
  rewrite symbols_length, Nat.sub_diag by lia. done.
Qed.

Lemma ls_lookup_occurrences k l : ls !! k = Some l → occurrences l lens ≠ 0%nat.
Proof.
  intros Hk. destruct (order_ls k l Hk) as (s & j & _ & Hs & _). apply list_elem_of_lookup_2 in Hs.
  apply list_elem_of_lookup_1 in Hs as [i Hi]. pose proof (occurrences_pos l lens i Hi). lia.
Qed.

Lemma occurrences_ls l : length_ok l → occurrences l lens ≠ 0%nat → ∃ k, ls !! k = Some l.
Proof.
  intros Hl Ho. apply occurrences_elem. rewrite sorted_occurrences, decide_True by (unfold length_ok in Hl; lia). lia.
Qed.

Lemma ls_last max k : (∀ l, max < l ≤ 15 → occurrences l lens = 0%nat) → length_ok max → occurrences max lens ≠ 0%nat →
  S k = length ls → ls !! k = Some max.
Proof.
  intros Hz Hm Ho Hk. destruct (lookup_lt_is_Some_2 ls k ltac:(lia)) as [l Hl]. destruct (occurrences_ls max Hm Ho) as [i Hi].
  pose proof (ls_sorted i k max l ltac:(apply lookup_lt_Some in Hi; lia) Hi Hl). pose proof (lens_ok ls ls_ok k l Hl) as Hlo.
  destruct (decide (max < l)) as [Hlt|]; [|by replace max with l by lia]. pose proof (ls_lookup_occurrences k l Hl).
  specialize (Hz l). unfold length_ok in Hlo. lia.
Qed.

Lemma ls_first min : (∀ l, 1 ≤ l < min → occurrences l lens = 0%nat) → length_ok min → occurrences min lens ≠ 0%nat → ls !! 0%nat = Some min.
Proof.
  intros Hz Hm Ho. destruct (occurrences_ls min Hm Ho) as [i Hi]. destruct (lookup_lt_is_Some_2 ls 0) as [l Hl]; [apply lookup_lt_Some in Hi; lia|].
  pose proof (ls_sorted 0 i l min ltac:(lia) Hl Hi). pose proof (lens_ok ls ls_ok 0 l Hl) as Hlo.
  destruct (decide (l < min)) as [Hlt|]; [|by replace min with l by lia]. pose proof (ls_lookup_occurrences 0 l Hl). unfold length_ok in Hlo. specialize (Hz l). lia.
Qed.

Lemma ls_length : (length ls ≤ length lens)%nat.
Proof. destruct (order_length 15) as [_ ->]. apply start_le. Qed.

Lemma ls_counts : counts ls count.
Proof.
  destruct Hcount as [Hl Hc]. split; [done|]. intros l Hlo. unfold length_ok in Hlo. rewrite Hc, take_ge by lia.
  by rewrite sorted_occurrences, decide_True by lia.
Qed.

Lemma symbols_index l j s : symbols l (length lens) !! j = Some s → j = occurrences l (take s lens).
Proof.
  intros Hj. pose proof (symbols_lookup _ _ _ _ Hj) as Hs. pose proof (symbols_at s l Hs) as Hj'.
  apply (NoDup_lookup (symbols l (length lens)) _ _ s); [|done..]. apply NoDup_filter, NoDup_seq.
Qed.

(** *** The space of the sub-tables, by the positions *)

Lemma ls_codeword k l : ls !! k = Some l → ∃ s, lens !! s = Some l ∧ pos ls k = codeword lens s l * 2 ^ (15 - l).
Proof.
  intros Hk. destruct (order_ls k l Hk) as (s & j & _ & Hs & Hlo & -> & Hj). exists s. split; [done|]. pose proof (symbols_index l j s Hj) as Ej.
  assert ((j ≤ occurrences l lens)%nat) by (apply lookup_lt_Some in Hj; rewrite symbols_all in Hj; lia).
  rewrite (pos_codeword l j Hlo) by done. unfold codeword. by rewrite <-Ej.
Qed.

Lemma codeword_ls s l : lens !! s = Some l → l ≠ 0 → ∃ k, ls !! k = Some l ∧ pos ls k = codeword lens s l * 2 ^ (15 - l).
Proof.
  intros Hs Hl0. pose proof (lens_range s l Hs) as Hl. assert (length_ok l) as Hlo by (unfold length_ok; lia).
  pose proof (symbols_at s l Hs) as Hj. set (j := occurrences l (take s lens)) in *. exists (start l + j)%nat.
  pose proof (order_place 15 l j s ltac:(lia) Hj) as Hor. split.
  - destruct (order_lookup 15 _ s Hor) as (l' & j' & _ & Hj' & _ & Hsl). rewrite Hsl. f_equal. pose proof (symbols_lookup _ _ _ _ Hj'). congruence.
  - rewrite (pos_codeword l j Hlo) by (apply lookup_lt_Some in Hj; rewrite symbols_all in Hj; lia). done.
Qed.

Lemma block_codeword root w l : root < l ≤ 15 → block root (w * 2 ^ (15 - l)) = w / 2 ^ (l - root).
Proof.
  intros Hl. unfold block. replace (15 - root) with (l - root + (15 - l)) by lia. rewrite Z.pow_add_r by lia.
  apply Z.div_mul_cancel_r; apply Z.pow_nonzero; lia.
Qed.

Lemma sub_size_none root b : 1 ≤ root → (∀ k l, ls !! k = Some l → root < l → block root (pos ls k) ≠ b) → sub_size lens root b = 0.
Proof.
  intros Hr Hno. unfold sub_size. destruct (sub_lengths lens root b) as [|l xs] eqn:E; [done|]. exfalso.
  assert (l ∈ sub_lengths lens root b) as Hl by (rewrite E; left). apply elem_sub_lengths in Hl as (Hl & s & Hs & Hc).
  destruct (codeword_ls s l Hs ltac:(lia)) as (k & Hk & Hp). pose proof (lens_range s l Hs). apply (Hno k l Hk Hl). rewrite Hp. by rewrite block_codeword by lia.
Qed.

Lemma sub_size_some root k m : 1 ≤ root → ls !! k = Some m → root < m →
  (∀ j l, ls !! j = Some l → root < l → block root (pos ls j) = block root (pos ls k) → l ≤ m) →
  sub_size lens root (block root (pos ls k)) = 2 ^ (m - root).
Proof.
  intros Hr Hk Hm Hmax. destruct (ls_codeword k m Hk) as (s & Hs & Hp). pose proof (lens_range s m Hs).
  unfold sub_size. rewrite (foldr_max _ m); [by rewrite (proj2 (Z.eqb_neq m 0)) by lia| | |lia].
  - apply elem_sub_lengths. split; [done|]. exists s. split; [done|]. rewrite Hp. by rewrite block_codeword by lia.
  - intros l Hl. apply elem_sub_lengths in Hl as (Hl & s' & Hs' & Hc). destruct (codeword_ls s' l Hs' ltac:(lia)) as (j & Hj & Hpj).
    pose proof (lens_range s' l Hs'). apply (Hmax j l Hj Hl). rewrite Hpj, block_codeword by lia. done.
Qed.

Lemma used_elem l : l ∈ used ↔ l ≠ 0 ∧ occurrences l lens ≠ 0%nat.
Proof.
  unfold used_lengths. rewrite list_elem_of_filter. split.
  - intros [Hl Hel]. split; [done|]. apply list_elem_of_lookup_1 in Hel as [i Hi]. pose proof (occurrences_pos l lens i Hi). lia.
  - intros [Hl Ho]. split; [done|]. destruct (occurrences_elem l lens ltac:(lia)) as [j Hj]. by apply list_elem_of_lookup_2 in Hj.
Qed.

(** The shortest and the longest code word. *)
Lemma max_length_is max : (∀ l, max < l ≤ 15 → occurrences l lens = 0%nat) → length_ok max → occurrences max lens ≠ 0%nat → max_length lens = max.
Proof.
  intros Hz Hm Ho. unfold length_ok in Hm. apply foldr_max; [apply used_elem; split; [lia|done]| |lia].
  intros l Hl. pose proof (proj1 (Forall_forall _ _) used_ok l Hl) as Hlo. unfold length_ok in Hlo. apply used_elem in Hl as [_ Hl].
  destruct (decide (l ≤ max)); [done|]. specialize (Hz l). lia.
Qed.

Lemma min_length_is min : (∀ l, 1 ≤ l < min → occurrences l lens = 0%nat) → length_ok min → occurrences min lens ≠ 0%nat → min_length lens = min.
Proof.
  intros Hz Hm Ho. unfold length_ok in Hm. apply foldr_min; [apply used_elem; split; [lia|done]| |unfold MAXBITS; lia].
  intros l Hl. pose proof (proj1 (Forall_forall _ _) used_ok l Hl) as Hlo. unfold length_ok in Hlo. apply used_elem in Hl as [_ Hl].
  destruct (decide (min ≤ l)); [done|]. specialize (Hz l). lia.
Qed.

(** The entries of the symbols in order. *)
Definition nth_symbol (k : nat) : Z := Z.of_nat (nth k (order 15) 0%nat).

Lemma ls_work type work k l : placed (length lens) work → Z.of_nat (length lens) ≤ alphabet type → ls !! k = Some l →
  ∃ w, work !! k = Some w ∧ 0 ≤ w ∧ lens !! Z.to_nat w = Some l ∧
  ∀ b (t : gmap Z code), make_entry type work w b t =
    Ret (Code (fst (symbol_entry type (nth_symbol k))) (u8 b) (snd (symbol_entry type (nth_symbol k)))) t.
Proof.
  intros Hp Ha Hk. destruct (order_ls k l Hk) as (s & j & Hs & Hsl & Hlo & -> & Hj). exists (Z.of_nat s).
  pose proof (lookup_lt_Some _ _ _ Hsl). split_and!; [by eapply Hp|lia|by rewrite Nat2Z.id|]. intros b t.
  unfold nth_symbol. rewrite (nth_lookup_Some _ _ _ _ Hs). apply run_make_entry. lia.
Qed.
End lens.

(** ** Finding a symbol is decoding it *)

Lemma decode_found ops vals root t U x k l :
  found ops vals root t U x k l → 1 ≤ root ≤ 15 → ops k = 0 ∨ Z.land (ops k) 0xf0 ≠ 0 →
  decode t root x = Some (ops k, vals k, l).
Proof.
  intros Hf Hr Hop. unfold decode. rewrite BITS_mod by lia.
  destruct Hf as [[Hl Hf]|(Hl & c & n & Hc1 & Hc2 & Hn & _ & Hf1 & Hf2)].
  - rewrite Hf. cbn. destruct Hop as [->|Hop]; [done|]. rewrite (proj2 (Z.eqb_neq (Z.land _ _) 0)) by done. by rewrite andb_false_r.
  - rewrite Hf1. cbn. rewrite (proj2 (Z.eqb_neq c 0)) by lia. assert (Z.land c 0xf0 = 0) as ->.
    { assert (∃ i, (1 ≤ i ≤ 15)%nat ∧ c = Z.of_nat i) as (i & Hi & ->) by (exists (Z.to_nat c); lia).
      do 16 (destruct i as [|i]; [done|]). lia. }
    cbn. rewrite BITS_mod, Z.shiftr_div_pow2 by lia. rewrite Hf2. cbn. do 2 f_equal. lia.
Qed.

(** ** The whole function *)

Section whole.
Context (type : codetype) (size : Z) (lens work : list Z) (root : Z).
Hypothesis Hlens : Forall (λ l, 0 ≤ l ≤ 15) lens.
Hypothesis Halpha : Z.of_nat (length lens) ≤ alphabet type.
Hypothesis Hwork : (length lens ≤ length work)%nat.
Hypothesis Hsize : (if is_LENS type then ENOUGH - MAXD else 2 ^ 16) ≤ size.

Abbreviation ls := (sorted_lengths lens 15).
Abbreviation ops := (λ k, fst (symbol_entry type (nth_symbol lens k))).
Abbreviation vals := (λ k, snd (symbol_entry type (nth_symbol lens k))).

Lemma lens_small : Z.of_nat (length lens) < 2 ^ 16.
Proof. unfold alphabet in Halpha. change (2 ^ 16) with 65536. destruct type; lia. Qed.

Lemma no_words max : (∀ l, max < l ≤ 15 → occurrences l lens = 0%nat) → max = 0 → weight (used_lengths lens) = 0.
Proof.
  intros Hz ->. rewrite <-ls_weight by done. destruct ls as [|l xs] eqn:E; [done|]. exfalso.
  assert (ls !! 0%nat = Some l) as H0 by (by rewrite E). pose proof (ls_lookup_occurrences lens Hlens 0 l H0).
  pose proof (lens_ok _ (ls_ok lens Hlens) 0 l H0) as Hl. unfold length_ok in Hl. specialize (Hz l). lia.
Qed.

(** Tables are made of a complete code, and of a single code word of one bit but for
    CODES. *)
Definition accepted (max : Z) : Prop :=
  weight (used_lengths lens) = 2 ^ 15 ∨ weight (used_lengths lens) < 2 ^ 15 ∧ is_CODES type = false ∧ max = 1.

Lemma run_accepted t max :
  (∀ l, max < l ≤ 15 → occurrences l lens = 0%nat) → length_ok max → occurrences max lens ≠ 0%nat → accepted max →
  let root' := root_bits lens root in
  (type = LENS ∧ ENOUGH - MAXD ≤ decoding_space lens root' ∧
   ∃ work' t', inflate_table size type lens (Z.of_nat (length lens)) root work t = Ret (1, 0, root, work') t') ∨
  ∃ work' s t1, 1 ≤ root' ≤ max ∧ finished type size ls ops vals root' max (sub_size lens root') t t1 s ∧
  inflate_table size type lens (Z.of_nat (length lens)) root work t =
    (fill_rest size root' (u32 (Z.shiftl 1 root') - 1) s;; mret (0, b_used s, root', work')) t1.
Proof.
  intros Hz Hm Ho Hacc root'. unfold inflate_table. destruct (run_count_lengths lens Hlens lens_small t) as (count & Hr1 & Hc).
  rewrite run_bind, Hr1. cbn beta iota. destruct (run_find_max lens count Hc t) as (max' & Hr2 & Hm' & Hz' & Ho').
  assert (max' = max) as ->.
  { unfold length_ok in Hm. destruct (decide (max' < max)); [specialize (Hz' max); lia|]. destruct (decide (max < max')); [|lia].
    specialize (Hz max' ltac:(lia)). specialize (Ho' ltac:(lia)). lia. }
  rewrite run_bind, Hr2. cbn beta iota zeta. pose proof Hm as Hm2. unfold length_ok in Hm2. rewrite (proj2 (Z.eqb_neq max 0)) by lia.
  destruct (run_find_min lens count Hc max t ltac:(lia) Ho) as (min & Hr3 & Hmin & Hzmin & Homin). rewrite run_bind, Hr3. cbn beta iota.
  assert (length_ok min) as Hmin2 by (unfold length_ok; lia).
  pose proof (max_length_is lens Hlens max Hz Hm Ho) as Emax. pose proof (min_length_is lens Hlens min Hzmin Hmin2 Homin) as Emin.
  assert (1 ≤ root' ∧ min ≤ root' ≤ max) as [Hr1' Hr'] by (subst root'; unfold root_bits; rewrite Emax, Emin; lia).
  match goal with |- context [if ?a <? min then min else ?a] => assert ((if a <? min then min else a) = root') as -> end.
  { subst root'. unfold root_bits. rewrite Emax, Emin. destruct (Z.ltb_spec max root), (Z.ltb_spec root min), (Z.ltb_spec max min); lia. }
  assert (weight ls = 2 ^ 15 ∨ max ≤ root') as Hfull by (rewrite ls_weight by done; destruct Hacc as [|(_ & _ & ->)]; [by left|right; lia]).
  rewrite run_bind, (run_check_left lens Hlens count Hc). cbn beta iota.
  assert (weight (used_lengths lens) ≤ 2 ^ 15) as Hw by (destruct Hacc; lia). rewrite (proj2 (Z.leb_le _ _)) by done.
  assert ((0 <? 2 ^ 15 - weight (used_lengths lens)) && (is_CODES type || negb (max =? 1)) = false) as ->.
  { destruct Hacc as [->|(_ & -> & ->)]; [done|]. by rewrite andb_false_r. }
  destruct (run_offsets lens Hlens lens_small count Hc t) as (offs & Hr4 & Hol & Hof). rewrite run_bind, Hr4. cbn beta iota.
  destruct (run_sort_symbols lens Hlens lens_small offs work t Hol Hof Hwork) as (work' & Hr5 & Hpl). rewrite run_bind, Hr5. cbn beta iota.
  rewrite Z.shiftl_1_l. assert (u32 (2 ^ root') = 2 ^ root') as Eu by (apply wrap_small; split; [apply Z.pow_nonneg; lia|apply Z.pow_lt_mono_r; lia]). rewrite Eu.
  destruct (is_LENS type && (ENOUGH - MAXD <=? 2 ^ root')) eqn:Es.
  { left. rewrite andb_true_iff, Z.leb_le in Es. destruct Es as [Es1 Es2]. split; [by destruct type|]. split; [|by exists work', t].
    unfold decoding_space. pose proof (sum_below_mono (sub_size lens root') 0 (Z.to_nat (2 ^ root')) ltac:(lia) (sub_size_nonneg lens root')) as H0. cbn [sum_below] in H0. lia. }
  destruct (run_build type size lens work' ls ops vals root' max (ls_ok lens Hlens) (ls_sorted lens Hlens) ltac:(by rewrite ls_weight)
    ltac:(pose proof (ls_length lens Hlens); pose proof lens_small; lia) (λ k l, ls_work lens Hlens type work' k l Hpl Halpha)
    (λ k, ls_last lens Hlens max k Hz Hm Ho) ltac:(lia) Hsize (sub_size lens root') Hfull (sub_size_nonneg lens root')
    (λ b, sub_size_none lens Hlens root' b Hr1') (λ k m, sub_size_some lens Hlens root' k m Hr1') t count min
    (ls_first lens Hlens min Hzmin ltac:(unfold length_ok; lia) Homin) ltac:(lia) (ls_counts lens count Hc) Es (S (Z.to_nat (Z.of_nat (length lens)))))
    as (r & t' & Hrun & Hr); [rewrite Nat2Z.id; pose proof (ls_length lens Hlens); lia|].
  rewrite Z.shiftl_1_l, Eu in Hrun. rewrite run_bind, Hrun. destruct r as [ret|s].
  - destruct Hr as (-> & Ht & Hspace). left. split; [done|]. split; [done|]. by exists work', t'.
  - right. exists work', s, t'. split; [lia|]. by split.
Qed.

(** The symbol whose code word a word starts with is found. *)
Lemma found_symbol root' t U s l x :
  weight (used_lengths lens) ≤ 2 ^ 15 → decoded ls ops vals root' t (length ls) U →
  lens !! s = Some l → l ≠ 0 → x mod 2 ^ l = rev_bits (Z.to_nat l) (codeword lens s l) →
  ∃ k, nth_symbol lens k = Z.of_nat s ∧ found ops vals root' t (U x) x k l.
Proof.
  intros Hw Hdec Hs Hl0 Hx. pose proof (lens_range lens Hlens s l Hs) as Hl. assert (length_ok l) as Hlo by (unfold length_ok; lia).
  pose proof (symbols_at lens s l Hs) as Hj. set (j := occurrences l (take s lens)) in *.
  pose proof (order_place lens Hlens 15 l j s ltac:(lia) Hj) as Hor. set (k := (start lens l + j)%nat) in *.
  assert (ls !! k = Some l) as Hk.
  { destruct (order_lookup lens Hlens 15 k s Hor) as (l' & j' & _ & Hj' & _ & Hsl). rewrite Hsl. f_equal.
    pose proof (symbols_lookup _ _ _ _ _ Hj'). congruence. }
  assert ((j ≤ occurrences l lens)%nat) as Hjle by (apply lookup_lt_Some in Hj; rewrite symbols_all in Hj; lia).
  pose proof (pos_codeword lens Hlens l j Hlo Hjle) as Hpos. fold k in Hpos.
  assert (rev15 (pos ls k) = rev_bits (Z.to_nat l) (codeword lens s l)) as Hrev.
  { rewrite Hpos. rewrite <-(rev_bits_shift 15 (Z.to_nat l)) by lia. f_equal. unfold codeword. fold j. f_equal. f_equal. lia. }
  rewrite <-Hrev in Hx. assert (weight ls ≤ 2 ^ 15) as Hwl by (by rewrite ls_weight).
  apply (starts_word ls (ls_ok lens Hlens) (ls_sorted lens Hlens) Hwl k l x Hk) in Hx.
  pose proof (pos_S ls k l Hk) as HS. pose proof (pos_le ls (ls_ok lens Hlens)) as Hple.
  destruct (Hdec x) as (i & li & Hi & Hpi & Hf).
  { pose proof (Hple (S k) (length ls) ltac:(apply lookup_lt_Some in Hk; lia)). lia. }
  pose proof (pos_S ls i li Hi) as HSi. assert (i = k) as ->.
  { destruct (decide (i < k)%nat); [pose proof (Hple (S i) k ltac:(lia)); lia|].
    destruct (decide (k < i)%nat); [pose proof (Hple (S k) i ltac:(lia)); lia|]. lia. }
  rewrite Hk in Hi. injection Hi as <-. exists k. split; [|done]. unfold nth_symbol. by rewrite (nth_lookup_Some _ _ _ _ Hor).
Qed.

(** The symbol of a word, from the words found. *)
Lemma decoded_symbol root' t U s l x :
  weight (used_lengths lens) ≤ 2 ^ 15 → decoded ls ops vals root' t (length ls) U → 1 ≤ root' ≤ 15 →
  lens !! s = Some l → l ≠ 0 → x mod 2 ^ l = rev_bits (Z.to_nat l) (codeword lens s l) →
  decode t root' x = Some (symbol_entry type (Z.of_nat s), l).
Proof.
  intros Hw Hdec Hr Hs Hl0 Hx. destruct (found_symbol root' t U s l x Hw Hdec Hs Hl0 Hx) as (k & Es & Hf).
  pose proof (lookup_lt_Some _ _ _ Hs). rewrite (decode_found _ _ _ _ _ _ _ _ Hf Hr); cbv beta; rewrite Es.
  - by destruct (symbol_entry type (Z.of_nat s)).
  - apply symbol_ops. lia.
Qed.

(** A code that has code words has a longest one. *)
Lemma longest : weight (used_lengths lens) ≠ 0 →
  ∃ max, (∀ l, max < l ≤ 15 → occurrences l lens = 0%nat) ∧ length_ok max ∧ occurrences max lens ≠ 0%nat.
Proof.
  intros Hw. destruct (run_count_lengths lens Hlens lens_small tt) as (count & _ & Hc).
  destruct (run_find_max lens count Hc tt) as (max & _ & Hm & Hz & Ho). exists max.
  assert (max ≠ 0) as Hne by (intros ->; by apply Hw, (no_words 0)). split_and!; [done|unfold length_ok; lia|by apply Ho].
Qed.

(** No code word is left over by a complete code. *)
Lemma fill_nothing root' mask s (t1 : gmap Z code) : b_huff s = 0 → fill_rest size root' mask s t1 = Ret tt t1.
Proof.
  intros H0. unfold fill_rest. replace (Z.to_nat (2 ^ MAXBITS + 1)) with (S (Z.to_nat (2 ^ MAXBITS))) by (unfold MAXBITS; lia).
  rewrite H0. by rewrite run_loop.
Qed.

(** C13: for a complete code inflate_table computes the space of its tables exactly: the
    root table, indexed by the bits asked for but between the shortest and the longest
    code word, and for every root index that longer code words start with a sub-table for
    the rest of the longest.  For LENS it returns 1 when that reaches ENOUGH - MAXD
    entries.  Otherwise it returns 0, that space and the bits of the root table, stores
    nothing outside of the space, and the tables decode: every word that starts with the
    code word RFC 1951 gives a symbol, first bit lowest, leads to the entry of the symbol
    and takes the length of its code word, and every word leads to some symbol. *)
Theorem inflate_table_decodes t :
  weight (used_lengths lens) = 2 ^ 15 →
  let root' := root_bits lens root in
  let space := decoding_space lens root' in
  ∃ work' t',
  if is_LENS type && (ENOUGH - MAXD <=? space)
  then inflate_table size type lens (Z.of_nat (length lens)) root work t = Ret (1, 0, root, work') t'
  else inflate_table size type lens (Z.of_nat (length lens)) root work t = Ret (0, space, root', work') t' ∧
   space ≤ size ∧ (∀ i, i < 0 ∨ space ≤ i → t' !! i = t !! i) ∧
   (∀ s l x, lens !! s = Some l → l ≠ 0 → x mod 2 ^ l = rev_bits (Z.to_nat l) (codeword lens s l) →
     decode t' root' x = Some (symbol_entry type (Z.of_nat s), l)) ∧
   (∀ x, ∃ s l, lens !! s = Some l ∧ l ≠ 0 ∧ decode t' root' x = Some (symbol_entry type (Z.of_nat s), l)).
Proof.
  intros Hw root' space. destruct longest as (max & Hz & Hm & Ho); [by rewrite Hw|].
  destruct (run_accepted t max Hz Hm Ho (or_introl Hw)) as [(Ht & Hsp & work' & t' & Hrun)|(work' & s & t1 & Hr & Hfin & Hrun)].
  { exists work', t'. assert (is_LENS type && (ENOUGH - MAXD <=? space) = true) as -> by (rewrite Ht; by apply Z.leb_le). done. }
  fold root' in Hr, Hfin, Hrun. destruct Hfin as (Hh & _ & _ & [Hsp _] & Hfr & Hdec & Hus & Hsm). change (InftreesLoop.space _ _) with space in Hus, Hsm.
  rewrite Hus in *. unfold length_ok in Hm. unfold space_small in Hsm. exists work', t1. rewrite Hsm.
  assert (pos ls (length ls) = 2 ^ 15) as Hpos by (unfold pos; rewrite take_ge, ls_weight by (done || lia); done).
  rewrite Hpos in Hh. rewrite Hrun. split.
  { rewrite run_bind, fill_nothing by (by rewrite Hh). done. }
  split; [lia|]. split; [done|]. split.
  { intros s' l x Hs Hl Hx. apply (decoded_symbol root' t1 (λ _, space) s' l x); [lia|done|lia|done..]. }
  intros x. destruct (Hdec x) as (k & l & Hk & _ & Hf); [rewrite Hpos; apply rev15_range|].
  destruct (order_ls lens Hlens k l Hk) as (s' & j & Hs' & Hsl & Hlo & _). exists s', l. split; [done|]. split; [unfold length_ok in Hlo; lia|].
  assert (nth_symbol lens k = Z.of_nat s') as Es by (unfold nth_symbol; by rewrite (nth_lookup_Some _ _ _ _ Hs')).
  pose proof (lookup_lt_Some _ _ _ Hsl). rewrite (decode_found _ _ _ _ _ _ _ _ Hf ltac:(lia)); cbv beta; rewrite Es.
  - by destruct (symbol_entry type (Z.of_nat s')).
  - apply symbol_ops. lia.
Qed.

(** ** The sets of lengths that are no code *)

(** The claims about a return value that is known. *)
Ltac close_returns :=
  split_and!; try done; try tauto; try (intros; exfalso; lia); try (split; intros; exfalso; (lia || tauto)).

(** Too many code words; or too few, and there is one of more than a bit or the code is
    the one for code lengths. *)
Definition refused : Prop :=
  2 ^ 15 < weight (used_lengths lens) ∨
  0 < weight (used_lengths lens) < 2 ^ 15 ∧ (type = CODES ∨ ∃ s l, lens !! s = Some l ∧ 1 < l).

Lemma run_refused t : refused → inflate_table size type lens (Z.of_nat (length lens)) root work t = Ret (-1, 0, root, work) t.
Proof.
  intros Hbad. unfold refused in Hbad. unfold inflate_table. destruct (run_count_lengths lens Hlens lens_small t) as (count & Hr1 & Hc).
  rewrite !run_bind, Hr1. cbn beta iota. destruct (run_find_max lens count Hc t) as (max & Hr2 & Hm & Hz & Ho).
  rewrite !run_bind, Hr2. cbn beta iota zeta. assert (max ≠ 0) as Hne by (intros ->; pose proof (no_words 0 Hz eq_refl); lia). rewrite (proj2 (Z.eqb_neq max 0)) by done.
  destruct (run_find_min lens count Hc max t ltac:(lia) (Ho Hne)) as (min & Hr3 & _). rewrite run_bind, Hr3. cbn beta iota.
  rewrite run_bind, (run_check_left lens Hlens count Hc). cbn beta iota. destruct Hbad as [Hover|[Hunder Hwhy]].
  { by rewrite (proj2 (Z.leb_gt _ _)). }
  rewrite (proj2 (Z.leb_le _ _)), (proj2 (Z.ltb_lt 0 _)) by lia. assert (is_CODES type || negb (max =? 1) = true) as ->; [|done].
  destruct Hwhy as [->|(s & l & Hs & Hl)]; [done|]. rewrite (proj2 (Z.eqb_neq max 1)); [by rewrite orb_true_r|]. intros ->.
  pose proof (lens_range lens Hlens s l Hs). pose proof (occurrences_pos l lens s Hs). specialize (Hz l ltac:(lia)). lia.
Qed.

(** With no code word at all, a table of two entries that mark an error. *)
Lemma run_no_words t : weight (used_lengths lens) = 0 →
  inflate_table size type lens (Z.of_nat (length lens)) root work t =
  Ret (0, 2, 1, work) (<[1 := Code 64 1 0]> (<[0 := Code 64 1 0]> t)).
Proof.
  intros Hw0. unfold inflate_table. destruct (run_count_lengths lens Hlens lens_small t) as (count & Hr1 & Hc).
  rewrite !run_bind, Hr1. cbn beta iota. destruct (run_find_max lens count Hc t) as (max & Hr2 & Hm & Hz & Ho).
  rewrite !run_bind, Hr2. cbn beta iota zeta.
  assert (2 ≤ size) as Hs2 by (unfold ENOUGH, MAXD in Hsize; change (2 ^ 16) with 65536 in Hsize; destruct (is_LENS type); lia).
  assert (max = 0) as ->.
  { destruct (decide (max = 0)) as [|Hne]; [done|]. exfalso. specialize (Ho Hne). destruct (occurrences_ls lens max ltac:(unfold length_ok; lia) Ho) as [k Hk].
    pose proof (pos_S ls k max Hk). pose proof (pos_nonneg ls (ls_ok lens Hlens) k). pose proof (pos_weight ls (ls_ok lens Hlens) (S k)).
    rewrite ls_weight in * by done. pose proof (pow_pos_15 max ltac:(unfold length_ok; lia)). lia. }
  cbn [Z.eqb]. rewrite run_bind, run_put_entry by lia. cbn beta iota. rewrite run_bind, run_put_entry by lia. done.
Qed.

(** One code word of one bit needs a root table of two entries. *)
Lemma single_space root1 : used_lengths lens = [1] → root_bits lens root1 = 1 ∧ decoding_space lens 1 = 2.
Proof.
  intros Hu. split; [unfold root_bits, min_length, max_length; rewrite Hu; cbn; unfold MAXBITS; lia|].
  unfold decoding_space. rewrite sum_below_zero; [done|]. intros b _. unfold sub_size.
  destruct (sub_lengths lens 1 b) as [|l xs] eqn:E; [done|]. exfalso. assert (l ∈ sub_lengths lens 1 b) as Hl by (rewrite E; left).
  apply elem_sub_lengths in Hl as (Hl & s & Hs & _). assert (l ∈ used_lengths lens) as Hel.
  { apply list_elem_of_filter. split; [lia|]. by apply list_elem_of_lookup_2 in Hs. }
  rewrite Hu in Hel. apply list_elem_of_singleton in Hel. lia.
Qed.

(** Lengths that are few but not refused are one code word of one bit. *)
Lemma few_words : 0 < weight (used_lengths lens) < 2 ^ 15 → ¬ refused → used_lengths lens = [1] ∧ type ≠ CODES.
Proof.
  intros Hw Hno. split; [|intros ->; apply Hno; right; split; [lia|by left]].
  assert (Forall (λ l, l = 1) (used_lengths lens)) as Hall.
  { apply Forall_forall. intros l Hl. unfold used_lengths in Hl. apply list_elem_of_filter in Hl as [Hl0 Hl].
    apply list_elem_of_lookup_1 in Hl as [s Hs]. pose proof (lens_range lens Hlens s l Hs). destruct (decide (1 < l)); [|lia].
    exfalso. apply Hno. right. split; [lia|]. right. by exists s, l. }
  pose proof (used_ok lens Hlens) as Hok. destruct (used_lengths lens) as [|a [|b xs]]; [cbn in Hw; lia|by apply Forall_singleton in Hall as ->|].
  exfalso. rewrite !Forall_cons in Hall, Hok. destruct Hall as (-> & -> & _), Hok as (_ & _ & Hok). pose proof (weight_nonneg xs Hok).
  cbn [weight] in Hw. change (2 ^ (15 - 1)) with 16384 in Hw. change (2 ^ 15) with 32768 in Hw. lia.
Qed.

(** A code of one code word of one bit, which inflate_table takes but for CODES: the bit
    0 leads to its symbol, the bit 1 to the mark of an error. *)
Lemma inflate_table_single t s :
  used_lengths lens = [1] → type ≠ CODES → lens !! s = Some 1 →
  ∃ work' t', inflate_table size type lens (Z.of_nat (length lens)) root work t = Ret (0, 2, 1, work') t' ∧
  ∀ x, decode t' 1 x = Some (if x mod 2 =? 0 then (symbol_entry type (Z.of_nat s), 1) else (64, 0, 1)).
Proof.
  intros Hu Ht Hs. destruct longest as (max & Hz & Hm & Ho); [by rewrite Hu|]. pose proof Hm as Hm2. unfold length_ok in Hm2.
  assert (max = 1) as ->.
  { rewrite <-used_occurrences in Ho by lia. rewrite Hu, occurrences_cons in Ho. change (occurrences max []) with 0%nat in Ho. by destruct (decide (1 = max)). }
  assert (weight (used_lengths lens) = 16384) as Hw by (by rewrite Hu).
  destruct (single_space root Hu) as [Er Esp].
  destruct (run_accepted t 1 Hz Hm Ho) as [(_ & Hbig & _)|(work' & b & t1 & Hr & Hfin & Hrun)].
  { right. split_and!; [rewrite Hw; lia|by destruct type|done]. }
  { exfalso. rewrite Er, Esp in Hbig. unfold ENOUGH, MAXD in Hbig. lia. }
  rewrite Er in *. destruct Hfin as (Hh & Hlen & Hdr & [Hsp Hsp2] & Hfr & Hdec & _).
  assert (ls = [1]) as Els.
  { destruct (occurrences_ls lens 1 Hm Ho) as [k Hk]. assert (length ls = 1%nat) as Hl1.
    { destruct (order_length lens Hlens 15) as [_ ->]. unfold start. by rewrite Hu. }
    destruct ls as [|a [|? ?]] eqn:E; try done. destruct k; [|done]. by injection Hk as ->. }
  rewrite Els in Hh, Hdec, Hsp2. change (rev15 (pos [1] (length [1]))) with 1 in Hh.
  destruct Hdr as [(Hd0 & Hn0 & Hub)|]; [|lia]. change (2 ^ 1) with 2 in *.
  exists work', (<[1 := Code 64 1 0]> t1). split.
  { rewrite Hrun, run_bind. unfold fill_rest. rewrite Hh, Hd0, Hn0, Hlen.
    replace (Z.to_nat (2 ^ MAXBITS + 1)) with (S (S (Z.to_nat (2 ^ MAXBITS - 1)))) by (unfold MAXBITS; lia).
    rewrite run_loop. change (1 =? 0) with false. cbn [Z.eqb negb andb]. cbv beta iota. rewrite run_bind. change (0 + Z.shiftr 1 0) with 1. rewrite run_put_entry by lia.
    cbn beta iota. rewrite run_ret. cbn beta iota. change (next_huff 1 1) with 0. change (u8 (1 - 0)) with 1. rewrite run_loop. cbn beta iota. change (0 =? 0) with true. cbn iota. rewrite run_ret, Hub. done. }
  intros x. pose proof (Z.mod_pos_bound x 2 ltac:(lia)) as Hx. unfold decode. rewrite BITS_mod by lia. change (2 ^ 1) with 2.
  destruct (Z.eqb_spec (x mod 2) 0) as [E|E].
  - assert (decode t1 1 x = Some (symbol_entry type (Z.of_nat s), 1)) as Hdx.
    { apply (decoded_symbol 1 t1 (λ _, b_used b) s 1 x); [lia|by rewrite Els|lia|done|done|]. change (2 ^ 1) with 2. rewrite E.
      unfold codeword. change (first_code lens (Z.to_nat 1)) with 0.
      assert (occurrences 1 (take s lens) = 0%nat) as ->; [|done]. pose proof (occurrences_app 1 (take s lens) (drop s lens)) as Ha.
      rewrite take_drop, (drop_S lens 1 s Hs), occurrences_cons, decide_True in Ha by done. rewrite <-used_occurrences, Hu in Ha by lia.
      change (occurrences 1 [1]) with 1%nat in Ha. lia. }
    unfold decode in Hdx. rewrite BITS_mod in Hdx by lia. change (2 ^ 1) with 2 in Hdx. rewrite E in *. rewrite lookup_insert_ne by done.
    destruct (t1 !! 0) as [e|] eqn:E0; [|done]. destruct (Hdec x) as (k & l & Hk & _ & Hf).
    { change (pos [1] (length [1])) with 16384. assert (rev15 x / 16384 * 16384 = 0); [|pose proof (Z.div_mod (rev15 x) 16384 ltac:(lia)); pose proof (Z.mod_pos_bound (rev15 x) 16384); lia].
      pose proof (rev15_mod x 1 ltac:(lia)) as Hm1. change (2 ^ 1) with 2 in Hm1. rewrite E in Hm1. symmetry. exact Hm1. }
    destruct k; [|done]. injection Hk as <-. destruct Hf as [[_ Hf]|[Hlt _]]; [|lia]. change (2 ^ 1) with 2 in Hf. rewrite E, E0 in Hf. injection Hf as ->.
    cbn in Hdx |- *. destruct (negb _ && _) eqn:Eop; [|done]. exfalso. rewrite andb_true_iff, negb_true_iff, Z.eqb_neq, Z.eqb_eq in Eop.
    destruct (order_ls lens Hlens 0 1 ltac:(by rewrite Els)) as (s' & j & Hs' & Hsl & _). pose proof (lookup_lt_Some _ _ _ Hsl).
    unfold nth_symbol in Eop. rewrite (nth_lookup_Some _ _ _ _ Hs') in Eop. destruct (symbol_ops type (Z.of_nat s') ltac:(lia)); tauto.
  - assert (x mod 2 = 1) as -> by lia. rewrite lookup_insert_eq. done.
Qed.

Lemma refused_dec : refused ∨ ¬ refused.
Proof.
  unfold refused. destruct (decide (Exists (λ l, 1 < l) lens)) as [H|H].
  - apply Exists_exists in H as (l & Hl & Hl1). apply list_elem_of_lookup_1 in Hl as [s Hs].
    assert (∃ s l, lens !! s = Some l ∧ 1 < l) by (by exists s, l). destruct (decide (weight (used_lengths lens) = 0)), (decide (weight (used_lengths lens) = 2 ^ 15)); 
      pose proof (weight_nonneg _ (used_ok lens Hlens)); [right; lia..|]. left. destruct (decide (2 ^ 15 < weight (used_lengths lens))); [by left|right; split; [lia|by right]].
  - assert (¬ ∃ s l, lens !! s = Some l ∧ 1 < l).
    { intros (s & l & Hs & Hl). apply H, Exists_exists. exists l. split; [by apply list_elem_of_lookup_2 in Hs|done]. }
    destruct (decide (2 ^ 15 < weight (used_lengths lens))); [by left; left|]. destruct type eqn:E; try (right; intros [|[_ [|]]]; done).
    destruct (decide (0 < weight (used_lengths lens) < 2 ^ 15)); [left; right; by split; [|left]|]. right. intros [|[]]; done.
Qed.

Lemma single_symbol : used_lengths lens = [1] → ∃ s, lens !! s = Some 1.
Proof.
  intros Hu. assert (1 ∈ used_lengths lens) as Hel by (rewrite Hu; left). apply list_elem_of_filter in Hel as [_ Hel].
  by apply list_elem_of_lookup_1 in Hel.
Qed.

(** C40: inflate_table always returns, and -1 exactly for the lengths that are no code: too
    many code words, or too few when there is one of more than a bit or the code is the
    one for code lengths; then nothing is stored and *bits stays.  It returns 1 exactly
    for a complete code of LENS whose tables need ENOUGH - MAXD entries or more, and 0
    for all the rest: other complete codes, a single code word of one bit where that is
    allowed (a table of two entries), and no code words at all (two entries that mark an
    error). *)
Theorem inflate_table_rejects t :
  ∃ ret used root' work' t', inflate_table size type lens (Z.of_nat (length lens)) root work t = Ret (ret, used, root', work') t' ∧
  (ret = -1 ↔ refused) ∧
  (ret = 1 ↔ type = LENS ∧ weight (used_lengths lens) = 2 ^ 15 ∧ ENOUGH - MAXD ≤ decoding_space lens (root_bits lens root)) ∧
  (ret = -1 ∨ ret = 0 ∨ ret = 1) ∧
  (ret = -1 → used = 0 ∧ root' = root ∧ work' = work ∧ t' = t) ∧
  (0 < weight (used_lengths lens) < 2 ^ 15 → ret = 0 → used = 2 ∧ root' = 1) ∧
  (weight (used_lengths lens) = 0 → used = 2 ∧ root' = 1 ∧ work' = work ∧ t' = <[1 := Code 64 1 0]> (<[0 := Code 64 1 0]> t)).
Proof.
  pose proof (weight_nonneg _ (used_ok lens Hlens)) as Hw0. set (w := weight (used_lengths lens)) in *.
  assert (refused → w ≠ 0 ∧ w ≠ 2 ^ 15) as Hrw by (unfold refused; fold w; change (2 ^ 15) with 32768; lia).
  destruct refused_dec as [Href|Hno].
  { exists (-1), 0, root, work, t. specialize (Hrw Href). split; [by apply run_refused|]. close_returns. }
  destruct (decide (w = 2 ^ 15)) as [Ew|Ew].
  { destruct longest as (max & Hz & Hm & Ho); [fold w; rewrite Ew; done|].
    destruct (run_accepted t max Hz Hm Ho (or_introl Ew)) as [(Ht & Hsp & work' & t' & Hrun)|(work' & s & t1 & Hr & Hfin & Hrun)].
    { exists 1, 0, root, work', t'. split; [done|]. close_returns. }
    destruct Hfin as (Hh & _ & _ & _ & _ & _ & Hus & Hsm). change (InftreesLoop.space _ _) with (decoding_space lens (root_bits lens root)) in Hus, Hsm.
    unfold space_small in Hsm. rewrite andb_false_iff, Z.leb_gt in Hsm. exists 0, (b_used s), (root_bits lens root), work', t1. split.
    { rewrite Hrun, run_bind, fill_nothing; [done|]. unfold pos in Hh. rewrite take_ge, ls_weight in Hh by (done || lia). fold w in Hh. rewrite Hh, Ew. done. }
    assert (¬ (type = LENS ∧ w = 2 ^ 15 ∧ ENOUGH - MAXD ≤ decoding_space lens (root_bits lens root))) by (intros (-> & _ & Hbig); cbn in Hsm; destruct Hsm; [done|lia]).
    close_returns. }
  destruct (decide (w = 0)) as [E0|E0].
  { exists 0, 2, 1, work, (<[1 := Code 64 1 0]> (<[0 := Code 64 1 0]> t)). split; [by apply run_no_words|]. close_returns. }
  destruct few_words as [Hu Ht]; [fold w; unfold refused in Hno; fold w in Hno; lia|done|].
  destruct (single_symbol Hu) as [s Hs]. destruct (inflate_table_single t s Hu Ht Hs) as (work' & t' & Hrun & _).
  exists 0, 2, 1, work', t'. split; [done|]. close_returns.
Qed.
End whole.

(** ** Witnesses *)

(** A code for six distances, the longest of five bits, with root tables of two. *)
Definition six_lengths : list Z := [1; 2; 3; 4; 5; 5].

Lemma inflate_table_decodes_witness :
  ∃ work' t', inflate_table 65536 DISTS six_lengths 6 2 (replicate 6 0) ∅ = Ret (0, 12, 2, work') t' ∧
  decode t' 2 (rev_bits 5 (codeword six_lengths 5 5)) = Some (17, 7, 5).
Proof.
  destruct (inflate_table_decodes DISTS 65536 six_lengths (replicate 6 0) 2) with (t := ∅ : gmap Z code)
    as (work' & t' & Hrun & _ & _ & Hdec & _); [by_decide|by vm_compute|simpl; lia|simpl; lia|reflexivity|].
  change (root_bits six_lengths 2) with 2 in Hrun, Hdec. replace (decoding_space six_lengths 2) with 12 in Hrun by (by vm_compute).
  exists work', t'. split; [exact Hrun|]. exact (Hdec 5%nat 5 (rev_bits 5 (codeword six_lengths 5 5)) eq_refl ltac:(lia) eq_refl).
Defined.

Lemma inflate_table_rejects_witness :
  (∃ used root' work' t', inflate_table 65536 CODES [1; 1; 1] 3 7 [0; 0; 0] ∅ = Ret (-1, used, root', work') t') ∧
  (∃ used root' work' t', inflate_table 65536 CODES [1] 1 7 [0] ∅ = Ret (-1, used, root', work') t') ∧
  (∃ used root' work' t', inflate_table 65536 DISTS [1] 1 7 [0] ∅ = Ret (0, used, root', work') t').
Proof.
  split; [|split].
  - destruct (inflate_table_rejects CODES 65536 [1; 1; 1] [0; 0; 0] 7 ltac:(by_decide) ltac:(by vm_compute) ltac:(simpl; lia) ltac:(simpl; lia) ∅)
      as (ret & used & root' & work' & t' & Hrun & Href & _). rewrite (proj2 Href) in Hrun by (left; by vm_compute). by exists used, root', work', t'.
  - destruct (inflate_table_rejects CODES 65536 [1] [0] 7 ltac:(by_decide) ltac:(by vm_compute) ltac:(simpl; lia) ltac:(simpl; lia) ∅)
      as (ret & used & root' & work' & t' & Hrun & Href & _). rewrite (proj2 Href) in Hrun by (right; split; [by vm_compute|by left]). by exists used, root', work', t'.
  - destruct (inflate_table_rejects DISTS 65536 [1] [0] 7 ltac:(by_decide) ltac:(by vm_compute) ltac:(simpl; lia) ltac:(simpl; lia) ∅)
      as (ret & used & root' & work' & t' & Hrun & Href & H1 & [-> | [-> | ->]] & _); [|by exists used, root', work', t'|destruct (proj1 H1 eq_refl); discriminate].
    destruct (proj1 Href eq_refl) as [H|[_ [H|(s & l & Hs & Hl)]]]; [by vm_compute in H|done|].
    destruct s as [|s]; [injection Hs as <-; lia|done].
Defined.
