(* ===== verification/Trees.v ===== *)
(** * The encoder of the compressor: [zlib/trees.c]

    The bit writer ([send_bits], [bi_flush], [bi_windup]), the blocks ([compress_block],
    [copy_block], [_tr_stored_block], [_tr_align], [_tr_flush_block]), the construction
    of the Huffman trees ([build_tree], [gen_bitlen], [gen_codes]), their transmission
    ([scan_tree], [send_tree], [send_all_trees]) and the buffer of symbols ([_tr_tally]).

    The pending output lies in the byte memory and shares it with the buffer of symbols,
    as in the source: the arrays [d_buf] and [l_buf] are the upper part of [pending_buf].
    The arrays of [deflate_state] are lists; an access outside of one is undefined.
    The fields that are set once ([pending_buf], [d_buf], [l_buf], [lit_bufsize], [level],
    [strategy]) are arguments. *)

From stdpp Require Import base tactics numbers list gmap.
From S2P Require Import Prelude Memory Words TreesTables.

Open Scope Z_scope.

Definition LENGTH_CODES : Z := 29.
Definition LITERALS : Z := 256.
Definition L_CODES : Z := LITERALS + 1 + LENGTH_CODES.
Definition D_CODES : Z := 30.
Definition BL_CODES : Z := 19.
Definition HEAP_SIZE : Z := 2 * L_CODES + 1.
Definition MAX_BITS : Z := 15.
Definition MAX_BL_BITS : Z := 7.
Definition END_BLOCK : Z := 256.
Definition REP_3_6 : Z := 16.
Definition REPZ_3_10 : Z := 17.
Definition REPZ_11_138 : Z := 18.
Definition Buf_size : Z := 8 * 2.
Definition SMALLEST : Z := 1.
Definition STORED_BLOCK : Z := 0.
Definition STATIC_TREES : Z := 1.
Definition DYN_TREES : Z := 2.
Definition Z_FIXED : Z := 4.
Definition Z_BINARY : Z := 0.
Definition Z_TEXT : Z := 1.
Definition Z_UNKNOWN : Z := 2.

Definition extra_lbits : list Z :=
  [0;0;0;0;0;0;0;0;1;1;1;1;2;2;2;2;3;3;3;3;4;4;4;4;5;5;5;5;0].
Definition extra_dbits : list Z :=
  [0;0;0;0;1;1;2;2;3;3;4;4;5;5;6;6;7;7;8;8;9;9;10;10;11;11;12;12;13;13].
Definition extra_blbits : list Z :=
  [0;0;0;0;0;0;0;0;0;0;0;0;0;0;0;0;2;3;7].
Definition bl_order : list Z :=
  [16;17;18;0;8;7;9;6;10;5;11;4;12;3;13;2;14;1;15].

(** The code of a distance less one. *)
Definition d_code {S} (dist : Z) : C S Z :=
  if dist <? 256 then elem _dist_code dist else elem _dist_code (256 + Z.shiftr dist 7).

(** ** The bit writer *)

Record writer := Writer {
  w_mem : mem; w_pending : Z; w_bi_buf : Z; w_bi_valid : Z; w_last_eob_len : Z }.

Definition set_mem (m : mem) (w : writer) : writer :=
  Writer m (w_pending w) (w_bi_buf w) (w_bi_valid w) (w_last_eob_len w).
Definition set_pending (p : Z) (w : writer) : writer :=
  Writer (w_mem w) p (w_bi_buf w) (w_bi_valid w) (w_last_eob_len w).
Definition set_bits (buf valid : Z) (w : writer) : writer :=
  Writer (w_mem w) (w_pending w) buf valid (w_last_eob_len w).
Definition set_last_eob_len (n : Z) (w : writer) : writer :=
  Writer (w_mem w) (w_pending w) (w_bi_buf w) (w_bi_valid w) n.

Definition wmem {A} (c : C mem A) : C writer A := zoom w_mem set_mem c.

(** [v << k] of an [int] that is not negative *)
Definition shl_int {S} (v k : Z) : C S Z :=
  if 2 ^ 31 <=? Z.shiftl v k then undef else mret (Z.shiftl v k).

Section writer.
Context (pending_buf : Z).

Definition put_byte (c : Z) : C writer unit :=
  w ← get;
  wmem (store8 (pending_buf + w_pending w) c);;
  modify (λ w, set_pending (u32 (w_pending w + 1)) w).

Definition put_short (v : Z) : C writer unit :=
  put_byte (u8 (Z.land v 0xff));;
  put_byte (u8 (Z.shiftr (u16 v) 8)).

Definition send_bits (value len : Z) : C writer unit :=
  w ← get;
  shifted ← shl_int value (w_bi_valid w);
  let buf := u16 (Z.lor (w_bi_buf w) shifted) in
  if Buf_size - len <? w_bi_valid w then
    put_short buf;;
    modify (set_bits (Z.shiftr (u16 value) (Buf_size - w_bi_valid w)) (w_bi_valid w + len - Buf_size))
  else modify (set_bits buf (w_bi_valid w + len)).

Definition send_code (c : Z) (tree : list ct_data) : C writer unit :=
  e ← elem tree c;
  send_bits (fc e) (dl e).

Definition bi_flush : C writer unit :=
  w ← get;
  if w_bi_valid w =? 16 then
    put_short (w_bi_buf w);;
    modify (set_bits 0 0)
  else if 8 <=? w_bi_valid w then
    put_byte (u8 (w_bi_buf w));;
    modify (set_bits (Z.shiftr (w_bi_buf w) 8) (w_bi_valid w - 8))
  else mret tt.

Definition bi_windup : C writer unit :=
  w ← get;
  (if 8 <? w_bi_valid w then put_short (w_bi_buf w)
   else if 0 <? w_bi_valid w then put_byte (u8 (w_bi_buf w))
   else mret tt);;
  modify (set_bits 0 0).

Definition copy_block (buf len : Z) (header : bool) : C writer unit :=
  bi_windup;;
  modify (set_last_eob_len 8);;
  (if header then put_short (u16 len);; put_short (u16 (- len - 1)) else mret tt);;
  loop (S (Z.to_nat len)) (λ '(buf, len),
    if len =? 0 then Break tt else
    c ← wmem (load8 buf);
    put_byte c;;
    Next (buf + 1, len - 1)) (buf, len).

Definition _tr_stored_block (buf stored_len eof : Z) : C writer unit :=
  send_bits (Z.shiftl STORED_BLOCK 1 + eof) 3;;
  copy_block buf (u32 stored_len) true.

Definition _tr_align : C writer unit :=
  send_bits (Z.shiftl STATIC_TREES 1) 3;;
  send_code END_BLOCK static_ltree;;
  bi_flush;;
  w ← get;
  (if 1 + w_last_eob_len w + 10 - w_bi_valid w <? 9 then
     send_bits (Z.shiftl STATIC_TREES 1) 3;;
     send_code END_BLOCK static_ltree;;
     bi_flush
   else mret tt);;
  modify (set_last_eob_len 7).

(** ** The symbols of a block *)

(** A length, less 3, and a distance. *)
Definition send_match (ltree dtree : list ct_data) (dist lc : Z) : C writer unit :=
  code ← elem _length_code lc;
  send_code (code + LITERALS + 1) ltree;;
  extra ← elem extra_lbits code;
  (if extra =? 0 then mret tt else
   base ← elem base_length code;
   send_bits (lc - base) extra);;
  let dist := dist - 1 in
  code ← d_code dist;
  send_code code dtree;;
  extra ← elem extra_dbits code;
  if extra =? 0 then mret tt else
  base ← elem base_dist code;
  send_bits (u32 (dist - base)) extra.

Section symbols.
Context (d_buf l_buf : Z).

(** One pass of the loop: a literal, or a length and a distance. *)
Definition compress_symbol (ltree dtree : list ct_data) (lx : Z) : C writer unit :=
  dist ← wmem (load_le 2 (d_buf + 2 * lx));
  lc ← wmem (load8 (l_buf + lx));
  if dist =? 0 then send_code lc ltree else send_match ltree dtree dist lc.

Definition compress_block (last_lit : Z) (ltree dtree : list ct_data) : C writer unit :=
  (if last_lit =? 0 then mret tt else
   loop (Z.to_nat last_lit) (λ lx,
     compress_symbol ltree dtree lx;;
     let lx := lx + 1 in
     if lx <? last_lit then Next lx else Break tt) 0);;
  send_code END_BLOCK ltree;;
  e ← elem ltree END_BLOCK;
  modify (set_last_eob_len (dl e)).
End symbols.

(** ** Sending the trees *)

(** The counters of [scan_tree] and [send_tree] at the next symbol. *)
Definition next_counts (curlen nextlen : Z) : Z * Z :=
  if nextlen =? 0 then (138, 3) else if curlen =? nextlen then (6, 3) else (7, 4).

(** [do { send_code(s, curlen, s->bl_tree); } while (--count != 0)] *)
Definition send_repeated (bl_tree : list ct_data) (curlen count : Z) : C writer unit :=
  loop (Z.to_nat count) (λ count,
    send_code curlen bl_tree;;
    if count - 1 =? 0 then Break tt else Next (count - 1)) count.

Definition send_tree (bl_tree tree : list ct_data) (max_code : Z) : C writer unit :=
  first ← elem tree 0;
  let '(max_count, min_count) := if dl first =? 0 then (138, 3) else (7, 4) in
  loop (Z.to_nat (max_code + 2)) (λ '(n, prevlen, nextlen, count, max_count, min_count),
    if max_code <? n then Break tt else
    let curlen := nextlen in
    e ← elem tree (n + 1);
    let nextlen := dl e in
    let count := count + 1 in
    if (count <? max_count) && (curlen =? nextlen) then
      Next (n + 1, prevlen, nextlen, count, max_count, min_count)
    else
    (if count <? min_count then send_repeated bl_tree curlen count
     else if negb (curlen =? 0) then
       (if negb (curlen =? prevlen) then send_code curlen bl_tree else mret tt);;
       let count := if negb (curlen =? prevlen) then count - 1 else count in
       send_code REP_3_6 bl_tree;; send_bits (count - 3) 2
     else if count <=? 10 then
       send_code REPZ_3_10 bl_tree;; send_bits (count - 3) 3
     else
       send_code REPZ_11_138 bl_tree;; send_bits (count - 11) 7);;
    let '(max_count, min_count) := next_counts curlen nextlen in
    Next (n + 1, curlen, nextlen, 0, max_count, min_count))
  (0, -1, dl first, 0, max_count, min_count).

Definition send_all_trees (ltree dtree bl_tree : list ct_data) (lcodes dcodes blcodes : Z) : C writer unit :=
  send_bits (lcodes - 257) 5;;
  send_bits (dcodes - 1) 5;;
  send_bits (blcodes - 4) 4;;
  loop (S (Z.to_nat blcodes)) (λ rank,
    if rank <? blcodes then
      o ← elem bl_order rank;
      e ← elem bl_tree o;
      send_bits (dl e) 3;;
      Next (rank + 1)
    else Break tt) 0;;
  send_tree bl_tree ltree (lcodes - 1);;
  send_tree bl_tree dtree (dcodes - 1).
End writer.

(** ** Code words from lengths *)

Section codes.
Context {S : Type}.

Definition bi_reverse (code len : Z) : C S Z :=
  loop (Datatypes.S (Z.to_nat len)) (λ '(code, len, res),
    let res := Z.lor res (Z.land code 1) in
    let code := Z.shiftr code 1 in
    let res := u32 (Z.shiftl res 1) in
    let len := len - 1 in
    if 0 <? len then Next (code, len, res) else Break (Z.shiftr res 1)) (code, len, 0).

(** [next_code], from the number of code words of each length *)
Definition first_codes (bl_count : list Z) : C S (list Z) :=
  loop (Datatypes.S (Z.to_nat MAX_BITS)) (λ '(bits, code, next_code),
    if bits <=? MAX_BITS then
      n ← elem bl_count (bits - 1);
      let code := u16 (Z.shiftl (code + n) 1) in
      next_code ← upd next_code bits code;
      Next (bits + 1, code, next_code)
    else Break next_code) (1, 0, replicate (Z.to_nat (MAX_BITS + 1)) 0).

Definition gen_codes (tree : list ct_data) (max_code : Z) (bl_count : list Z) : C S (list ct_data) :=
  next_code ← first_codes bl_count;
  loop (Z.to_nat (max_code + 2)) (λ '(n, next_code, tree),
    if n <=? max_code then
      e ← elem tree n;
      let len := dl e in
      if len =? 0 then Next (n + 1, next_code, tree) else
      c ← elem next_code len;
      next_code ← upd next_code len (u16 (c + 1));
      r ← bi_reverse c len;
      tree ← upd tree n (Ct (u16 r) len);
      Next (n + 1, next_code, tree)
    else Break tree) (0, next_code, tree).

(** ** The tables, as they are generated *)

(** [for (n = 0; n < (1<<extra); n++) code_of[at++] = code], which returns [at] *)
Definition fill_codes (at_ extra code : Z) (code_of : list Z) : C S (Z * list Z) :=
  loop (Datatypes.S (Z.to_nat (Z.shiftl 1 extra))) (λ '(n, at_, code_of),
    if n <? Z.shiftl 1 extra then
      code_of ← upd code_of at_ (u8 code);
      Next (n + 1, at_ + 1, code_of)
    else Break (at_, code_of)) (0, at_, code_of).

(** A run of codes from [code] to [last]: where each starts, in [bases], and the codes of
    what lies between, from [shift] on; positions are in units of [2^unit]. *)
Definition fill_run (extras : list Z) (unit shift code last at_ : Z) (bases code_of : list Z)
  : C S (Z * list Z * list Z) :=
  loop (Datatypes.S (Z.to_nat (last - code))) (λ '(code, at_, bases, code_of),
    if code <? last then
      bases ← upd bases code (Z.shiftl at_ unit);
      extra ← elem extras code;
      r ← fill_codes (shift + at_) (extra - unit) code code_of;
      Next (code + 1, r.1 - shift, bases, r.2)
    else Break (at_, bases, code_of)) (code, at_, bases, code_of).

(** [while (n <= last) tree[n++].Len = len, bl_count[len]++] *)
Definition fill_lengths (n last len : Z) (tree : list ct_data) (bl_count : list Z)
  : C S (Z * list ct_data * list Z) :=
  loop (Datatypes.S (Z.to_nat (last + 1 - n))) (λ '(n, tree, bl_count),
    if n <=? last then
      e ← elem tree n;
      tree ← upd tree n (Ct (fc e) len);
      c ← elem bl_count len;
      bl_count ← upd bl_count len (u16 (c + 1));
      Next (n + 1, tree, bl_count)
    else Break (n, tree, bl_count)) (n, tree, bl_count).

Definition static_dist_tree (tree : list ct_data) : C S (list ct_data) :=
  loop (Datatypes.S (Z.to_nat D_CODES)) (λ '(n, tree),
    if n <? D_CODES then
      c ← bi_reverse n 5;
      tree ← upd tree n (Ct (u16 c) 5);
      Next (n + 1, tree)
    else Break tree) (0, tree).

(** The static trees, the codes of distances and lengths, and where the codes start;
    static arrays start as zeros. *)
Definition tr_static_init : C S (list ct_data * list ct_data * list Z * list Z * list Z * list Z) :=
  let zeros n := replicate (Z.to_nat n) 0 in
  r ← fill_run extra_lbits 0 0 0 (LENGTH_CODES - 1) 0 (zeros LENGTH_CODES) (zeros 256);
  let '(length, base_length, length_code) := r in
  length_code ← upd length_code (length - 1) (u8 (LENGTH_CODES - 1));
  r ← fill_run extra_dbits 0 0 0 16 0 (zeros D_CODES) (zeros 512);
  let '(dist, base_dist, dist_code) := r in
  r ← fill_run extra_dbits 7 256 16 D_CODES (Z.shiftr dist 7) base_dist dist_code;
  let '(_, base_dist, dist_code) := r in
  let ltree := replicate (Z.to_nat (L_CODES + 2)) (Ct 0 0) in
  r ← fill_lengths 0 143 8 ltree (zeros (MAX_BITS + 1));
  let '(n, ltree, bl_count) := r in
  r ← fill_lengths n 255 9 ltree bl_count;
  let '(n, ltree, bl_count) := r in
  r ← fill_lengths n 279 7 ltree bl_count;
  let '(n, ltree, bl_count) := r in
  r ← fill_lengths n 287 8 ltree bl_count;
  let '(_, ltree, bl_count) := r in
  ltree ← gen_codes ltree (L_CODES + 1) bl_count;
  dtree ← static_dist_tree (replicate (Z.to_nat D_CODES) (Ct 0 0));
  mret (ltree, dtree, dist_code, length_code, base_length, base_dist).
End codes.

(** ** Huffman trees *)

(** The arrays every tree is built with, and the lengths of the block in bits. *)
Record work := Work {
  heap : list Z; heap_len : Z; heap_max : Z; depth : list Z;
  bl_count : list Z; opt_len : Z; static_len : Z }.

Definition set_heap (h : list Z) (w : work) : work :=
  Work h (heap_len w) (heap_max w) (depth w) (bl_count w) (opt_len w) (static_len w).
Definition set_heap_len (n : Z) (w : work) : work :=
  Work (heap w) n (heap_max w) (depth w) (bl_count w) (opt_len w) (static_len w).
Definition set_heap_max (n : Z) (w : work) : work :=
  Work (heap w) (heap_len w) n (depth w) (bl_count w) (opt_len w) (static_len w).
Definition set_depth (d : list Z) (w : work) : work :=
  Work (heap w) (heap_len w) (heap_max w) d (bl_count w) (opt_len w) (static_len w).
Definition set_bl_count (b : list Z) (w : work) : work :=
  Work (heap w) (heap_len w) (heap_max w) (depth w) b (opt_len w) (static_len w).
Definition set_lens (o s : Z) (w : work) : work :=
  Work (heap w) (heap_len w) (heap_max w) (depth w) (bl_count w) o s.

(** A tree under construction: the members of [tree_desc] and the arrays. *)
Record builder := Builder { h_tree : list ct_data; h_max_code : Z; h_work : work }.

Definition set_tree (t : list ct_data) (b : builder) : builder := Builder t (h_max_code b) (h_work b).
Definition set_max_code (n : Z) (b : builder) : builder := Builder (h_tree b) n (h_work b).
Definition set_work (f : work → work) (b : builder) : builder := Builder (h_tree b) (h_max_code b) (f (h_work b)).

Record static_tree_desc := StaticDesc {
  static_tree : option (list ct_data); extra_bits : list Z;
  extra_base : Z; elems : Z; max_length : Z }.

Definition static_l_desc : static_tree_desc :=
  StaticDesc (Some static_ltree) extra_lbits (LITERALS + 1) L_CODES MAX_BITS.
Definition static_d_desc : static_tree_desc :=
  StaticDesc (Some static_dtree) extra_dbits 0 D_CODES MAX_BITS.
Definition static_bl_desc : static_tree_desc :=
  StaticDesc None extra_blbits 0 BL_CODES MAX_BL_BITS.

(** Accesses to the arrays. *)
Definition node_at (n : Z) : C builder ct_data := b ← get; elem (h_tree b) n.
Definition set_node (n : Z) (f : ct_data → ct_data) : C builder unit :=
  b ← get; e ← elem (h_tree b) n; t ← upd (h_tree b) n (f e); modify (set_tree t).
Definition set_Freq (n v : Z) : C builder unit := set_node n (λ e, Ct (u16 v) (dl e)).
Definition set_Len (n v : Z) : C builder unit := set_node n (λ e, Ct (fc e) (u16 v)).
Definition heap_at (i : Z) : C builder Z := b ← get; elem (heap (h_work b)) i.
Definition put_heap (i v : Z) : C builder unit :=
  b ← get; h ← upd (heap (h_work b)) i v; modify (set_work (set_heap h)).
Definition depth_at (n : Z) : C builder Z := b ← get; elem (depth (h_work b)) n.
Definition put_depth (n v : Z) : C builder unit :=
  b ← get; d ← upd (depth (h_work b)) n (u8 v); modify (set_work (set_depth d)).
Definition count_at (bits : Z) : C builder Z := b ← get; elem (bl_count (h_work b)) bits.
Definition add_count (bits v : Z) : C builder unit :=
  b ← get; c ← elem (bl_count (h_work b)) bits; l ← upd (bl_count (h_work b)) bits (u16 (c + v));
  modify (set_work (set_bl_count l)).
(** Add to [opt_len] and to [static_len], of type [ulg]. *)
Definition add_lens (o s : Z) : C builder unit :=
  modify (set_work (λ w, set_lens (u64 (opt_len w + o)) (u64 (static_len w + s)) w)).
Definition len_of_heap : C builder Z := b ← get; mret (heap_len (h_work b)).
Definition max_of_heap : C builder Z := b ← get; mret (heap_max (h_work b)).

Definition smaller (n m : Z) : C builder bool :=
  a ← node_at n;
  b ← node_at m;
  if fc a <? fc b then mret true
  else if fc a =? fc b then
    da ← depth_at n;
    db ← depth_at m;
    mret (da <=? db)
  else mret false.

Definition pqdownheap (k : Z) : C builder unit :=
  v ← heap_at k;
  k ← loop (Z.to_nat HEAP_SIZE) (λ '(k, j),
    len ← len_of_heap;
    if j <=? len then
      right ← (if j <? len then
                 r ← heap_at (j + 1);
                 l ← heap_at j;
                 smaller r l
               else mret false);
      let j := if right : bool then j + 1 else j in
      son ← heap_at j;
      small ← smaller v son;
      if small : bool then Break k else
      put_heap k son;;
      Next (j, Z.shiftl j 1)
    else Break k) (k, Z.shiftl k 1);
  put_heap k v.

Definition pqremove : C builder Z :=
  top ← heap_at SMALLEST;
  len ← len_of_heap;
  last ← heap_at len;
  put_heap SMALLEST last;;
  modify (set_work (set_heap_len (len - 1)));;
  pqdownheap SMALLEST;;
  mret top.

(** [s->heap[--(s->heap_max)] = n] *)
Definition push_max (n : Z) : C builder unit :=
  m ← max_of_heap;
  modify (set_work (set_heap_max (m - 1)));;
  put_heap (m - 1) n.

(** The lengths by depth: the number that are too long. *)
Definition tree_lengths (desc : static_tree_desc) (first : Z) : C builder Z :=
  loop (Datatypes.S (Z.to_nat (HEAP_SIZE - first))) (λ '(h, overflow),
    if h <? HEAP_SIZE then
      n ← heap_at h;
      e ← node_at n;
      dad ← node_at (dl e);
      let bits := dl dad + 1 in
      let '(bits, overflow) :=
        if max_length desc <? bits then (max_length desc, overflow + 1) else (bits, overflow) in
      set_Len n bits;;
      b ← get;
      if h_max_code b <? n then Next (h + 1, overflow) else
      add_count bits 1;;
      xbits ← (if extra_base desc <=? n then elem (extra_bits desc) (n - extra_base desc) else mret 0);
      e ← node_at n;
      let f := fc e in
      add_lens (f * (bits + xbits)) 0;;
      (match static_tree desc with
       | Some stree => s ← elem stree n; add_lens 0 (f * (dl s + xbits))
       | None => mret tt
       end);;
      Next (h + 1, overflow)
    else Break overflow) (first, 0).

(** [bits = max_length-1; while (s->bl_count[bits] == 0) bits--] *)
Definition find_bits (max_length : Z) : C builder Z :=
  loop (Datatypes.S (Z.to_nat max_length)) (λ bits,
    c ← count_at bits;
    if c =? 0 then Next (bits - 1) else Break bits) (max_length - 1).

Definition fix_overflow (max_length overflow : Z) : C builder unit :=
  loop (Z.to_nat overflow) (λ overflow,
    bits ← find_bits max_length;
    add_count bits (-1);;
    add_count (bits + 1) 2;;
    add_count max_length (-1);;
    let overflow := overflow - 2 in
    if 0 <? overflow then Next overflow else Break tt) overflow.

(** The lengths again, from [bl_count]. *)
Definition redo_lengths (max_length : Z) : C builder unit :=
  _ ← loop (Datatypes.S (Z.to_nat max_length)) (λ '(bits, h),
    if bits =? 0 then Break tt else
    n ← count_at bits;
    h ← loop (Z.to_nat (HEAP_SIZE + 1)) (λ '(n, h),
      if n =? 0 then Break h else
      let h := h - 1 in
      m ← heap_at h;
      b ← get;
      if h_max_code b <? m then Next (n, h) else
      e ← node_at m;
      (if dl e =? bits then mret tt
       else add_lens ((bits - dl e) * fc e) 0;; set_Len m bits);;
      Next (n - 1, h)) (n, h);
    Next (bits - 1, h)) (max_length, HEAP_SIZE);
  mret tt.

Definition gen_bitlen (desc : static_tree_desc) : C builder unit :=
  modify (set_work (set_bl_count (replicate (Z.to_nat (MAX_BITS + 1)) 0)));;
  m ← max_of_heap;
  root ← heap_at m;
  set_Len root 0;;
  overflow ← tree_lengths desc (m + 1);
  if overflow =? 0 then mret tt else
  fix_overflow (max_length desc) overflow;;
  redo_lengths (max_length desc).

(** The symbols of the tree into the heap; returns [max_code]. *)
Definition load_heap (elems : Z) : C builder Z :=
  modify (set_work (λ w, set_heap_len 0 (set_heap_max HEAP_SIZE w)));;
  loop (Datatypes.S (Z.to_nat elems)) (λ '(n, max_code),
    if n <? elems then
      e ← node_at n;
      if negb (fc e =? 0) then
        len ← len_of_heap;
        modify (set_work (set_heap_len (len + 1)));;
        put_heap (len + 1) n;;
        put_depth n 0;;
        Next (n + 1, n)
      else
        set_Len n 0;;
        Next (n + 1, max_code)
    else Break max_code) (0, -1).

(** At least two symbols. *)
Definition force_two (stree : option (list ct_data)) (max_code : Z) : C builder Z :=
  loop 3 (λ max_code,
    len ← len_of_heap;
    if len <? 2 then
      let '(node, max_code) := if max_code <? 2 then (max_code + 1, max_code + 1) else (0, max_code) in
      modify (set_work (set_heap_len (len + 1)));;
      put_heap (len + 1) node;;
      set_Freq node 1;;
      put_depth node 0;;
      add_lens (-1) 0;;
      (match stree with
       | Some stree => e ← elem stree node; add_lens 0 (- dl e)
       | None => mret tt
       end);;
      Next max_code
    else Break max_code) max_code.

(** The two least nodes become the sons of a new one, [node]. *)
Definition combine (node : Z) : C builder unit :=
  n ← pqremove;
  m ← heap_at SMALLEST;
  push_max n;;
  push_max m;;
  en ← node_at n;
  em ← node_at m;
  set_Freq node (fc en + fc em);;
  dn ← depth_at n;
  dm ← depth_at m;
  put_depth node ((if dm <=? dn then dn else dm) + 1);;
  set_Len m node;;
  set_Len n node;;
  put_heap SMALLEST node;;
  pqdownheap SMALLEST.

Definition build_tree (desc : static_tree_desc) : C builder unit :=
  max_code ← load_heap (elems desc);
  max_code ← force_two (static_tree desc) max_code;
  modify (set_max_code max_code);;
  len ← len_of_heap;
  loop (Datatypes.S (Z.to_nat len)) (λ n,
    if 1 <=? n then pqdownheap n;; Next (n - 1) else Break tt) (len / 2);;
  loop (Z.to_nat (len + 1)) (λ node,
    combine node;;
    len ← len_of_heap;
    if 2 <=? len then Next (node + 1) else Break tt) (elems desc);;
  top ← heap_at SMALLEST;
  push_max top;;
  gen_bitlen desc;;
  b ← get;
  t ← gen_codes (h_tree b) max_code (bl_count (h_work b));
  modify (set_tree t).

(** ** The trees of a block *)

(** [guard]: the tree after the end mark; the frequencies of the length codes. *)
Definition scan_tree {S} (tree : list ct_data) (max_code : Z) (bl_tree : list ct_data)
  : C S (list ct_data * list ct_data) :=
  let add (l : list ct_data) (i n : Z) : C S (list ct_data) :=
    e ← elem l i; upd l i (Ct (u16 (fc e + n)) (dl e)) in
  first ← elem tree 0;
  let '(max_count, min_count) := if dl first =? 0 then (138, 3) else (7, 4) in
  guard ← elem tree (max_code + 1);
  tree ← upd tree (max_code + 1) (Ct (fc guard) 0xffff);
  bl_tree ← loop (Z.to_nat (max_code + 2)) (λ '(n, prevlen, nextlen, count, max_count, min_count, bl_tree),
    if max_code <? n then Break bl_tree else
    let curlen := nextlen in
    e ← elem tree (n + 1);
    let nextlen := dl e in
    let count := count + 1 in
    if (count <? max_count) && (curlen =? nextlen) then
      Next (n + 1, prevlen, nextlen, count, max_count, min_count, bl_tree)
    else
    bl_tree ← (if count <? min_count then add bl_tree curlen count
     else if negb (curlen =? 0) then
       bl_tree ← (if negb (curlen =? prevlen) then add bl_tree curlen 1 else mret bl_tree);
       add bl_tree REP_3_6 1
     else if count <=? 10 then add bl_tree REPZ_3_10 1
     else add bl_tree REPZ_11_138 1);
    let '(max_count, min_count) := next_counts curlen nextlen in
    Next (n + 1, curlen, nextlen, 0, max_count, min_count, bl_tree))
  (0, -1, dl first, 0, max_count, min_count, bl_tree);
  mret (tree, bl_tree).

(** What [trees.c] uses of [deflate_state]. *)
Record deflate_state := Deflate {
  d_writer : writer;
  dyn_ltree : list ct_data; l_max_code : Z;
  dyn_dtree : list ct_data; d_max_code : Z;
  bl_tree : list ct_data; bl_max_code : Z;
  d_work : work;
  last_lit : Z; matches : Z; data_type : Z }.

Definition set_writer (w : writer) (s : deflate_state) : deflate_state :=
  Deflate w (dyn_ltree s) (l_max_code s) (dyn_dtree s) (d_max_code s) (bl_tree s) (bl_max_code s)
    (d_work s) (last_lit s) (matches s) (data_type s).
Definition set_trees (l d bl : list ct_data) (s : deflate_state) : deflate_state :=
  Deflate (d_writer s) l (l_max_code s) d (d_max_code s) bl (bl_max_code s)
    (d_work s) (last_lit s) (matches s) (data_type s).
Definition set_symbols (lit m : Z) (s : deflate_state) : deflate_state :=
  Deflate (d_writer s) (dyn_ltree s) (l_max_code s) (dyn_dtree s) (d_max_code s) (bl_tree s) (bl_max_code s)
    (d_work s) lit m (data_type s).
Definition set_d_work (w : work) (s : deflate_state) : deflate_state :=
  Deflate (d_writer s) (dyn_ltree s) (l_max_code s) (dyn_dtree s) (d_max_code s) (bl_tree s) (bl_max_code s)
    w (last_lit s) (matches s) (data_type s).
Definition set_type (t : Z) (s : deflate_state) : deflate_state :=
  Deflate (d_writer s) (dyn_ltree s) (l_max_code s) (dyn_dtree s) (d_max_code s) (bl_tree s) (bl_max_code s)
    (d_work s) (last_lit s) (matches s) t.

(** The descriptors [l_desc], [d_desc] and [bl_desc]. *)
Definition with_l {A} : C builder A → C deflate_state A :=
  zoom (λ s, Builder (dyn_ltree s) (l_max_code s) (d_work s))
    (λ b s, Deflate (d_writer s) (h_tree b) (h_max_code b) (dyn_dtree s) (d_max_code s) (bl_tree s) (bl_max_code s)
       (h_work b) (last_lit s) (matches s) (data_type s)).
Definition with_d {A} : C builder A → C deflate_state A :=
  zoom (λ s, Builder (dyn_dtree s) (d_max_code s) (d_work s))
    (λ b s, Deflate (d_writer s) (dyn_ltree s) (l_max_code s) (h_tree b) (h_max_code b) (bl_tree s) (bl_max_code s)
       (h_work b) (last_lit s) (matches s) (data_type s)).
Definition with_bl {A} : C builder A → C deflate_state A :=
  zoom (λ s, Builder (bl_tree s) (bl_max_code s) (d_work s))
    (λ b s, Deflate (d_writer s) (dyn_ltree s) (l_max_code s) (dyn_dtree s) (d_max_code s) (h_tree b) (h_max_code b)
       (h_work b) (last_lit s) (matches s) (data_type s)).
Definition writing {A} : C writer A → C deflate_state A := zoom d_writer set_writer.

(** [for (n = 0; n < codes; n++) tree[n].Freq = 0] *)
Definition clear_freqs {S} (codes : Z) (tree : list ct_data) : C S (list ct_data) :=
  loop (Datatypes.S (Z.to_nat codes)) (λ '(n, tree),
    if n <? codes then
      e ← elem tree n;
      tree ← upd tree n (Ct 0 (dl e));
      Next (n + 1, tree)
    else Break tree) (0, tree).

Definition init_block : C deflate_state unit :=
  s ← get;
  l ← clear_freqs L_CODES (dyn_ltree s);
  d ← clear_freqs D_CODES (dyn_dtree s);
  bl ← clear_freqs BL_CODES (bl_tree s);
  e ← elem l END_BLOCK;
  l ← upd l END_BLOCK (Ct 1 (dl e));
  modify (λ s, set_symbols 0 0 (set_d_work (set_lens 0 0 (d_work s)) (set_trees l d bl s))).

Definition _tr_init : C deflate_state unit :=
  _ ← tr_static_init;
  modify (λ s, set_writer (set_last_eob_len 8 (set_bits 0 0 (d_writer s))) s);;
  init_block.

Definition build_bl_tree : C deflate_state Z :=
  s ← get;
  r ← scan_tree (dyn_ltree s) (l_max_code s) (bl_tree s);
  let '(l, bl) := r in
  r ← scan_tree (dyn_dtree s) (d_max_code s) bl;
  let '(d, bl) := r in
  modify (set_trees l d bl);;
  with_bl (build_tree static_bl_desc);;
  s ← get;
  max_blindex ← loop (Z.to_nat BL_CODES) (λ max_blindex,
    if 3 <=? max_blindex then
      o ← elem bl_order max_blindex;
      e ← elem (bl_tree s) o;
      if negb (dl e =? 0) then Break max_blindex else Next (max_blindex - 1)
    else Break max_blindex) (BL_CODES - 1);
  modify (λ s, set_d_work (set_lens (u64 (opt_len (d_work s) + 3 * (max_blindex + 1) + 5 + 5 + 4)) (static_len (d_work s)) (d_work s)) s);;
  mret max_blindex.

(** [for (n = n; n < limit; n++) if (s->dyn_ltree[n].Freq != 0) break], which returns [n] *)
Definition first_used {S} (tree : list ct_data) (n limit : Z) : C S Z :=
  loop (Datatypes.S (Z.to_nat limit)) (λ n,
    if n <? limit then
      e ← elem tree n;
      if negb (fc e =? 0) then Break n else Next (n + 1)
    else Break n) n.

Definition set_data_type : C deflate_state unit :=
  s ← get;
  n ← first_used (dyn_ltree s) 0 9;
  n ← (if n =? 9 then first_used (dyn_ltree s) 14 32 else mret n);
  modify (set_type (if n =? 32 then Z_TEXT else Z_BINARY)).

Section block.
Context (pending_buf d_buf l_buf lit_bufsize level strategy : Z).

(** [tree[n].Freq++] *)
Definition count_symbol {S} (tree : list ct_data) (n : Z) : C S (list ct_data) :=
  e ← elem tree n; upd tree n (Ct (u16 (fc e + 1)) (dl e)).

Definition _tr_tally (dist lc : Z) : C deflate_state Z :=
  s ← get;
  writing (wmem (store_le 2 (d_buf + 2 * last_lit s) (u16 dist)));;
  writing (wmem (store8 (l_buf + last_lit s) lc));;
  (if dist =? 0 then
     l ← count_symbol (dyn_ltree s) lc;
     modify (λ s, set_symbols (u32 (last_lit s + 1)) (matches s) (set_trees l (dyn_dtree s) (bl_tree s) s))
   else
     let dist := dist - 1 in
     code ← elem _length_code lc;
     l ← count_symbol (dyn_ltree s) (code + LITERALS + 1);
     code ← d_code dist;
     d ← count_symbol (dyn_dtree s) code;
     modify (λ s, set_symbols (u32 (last_lit s + 1)) (u32 (matches s + 1)) (set_trees l d (bl_tree s) s)));;
  s ← get;
  mret (cbool (last_lit s =? lit_bufsize - 1)).

(** The trees, the index of the last length code to send, and the lengths in bytes. *)
Definition block_lengths (stored_len : Z) : C deflate_state (Z * Z * Z) :=
  if 0 <? level then
    s ← get;
    (if (0 <? stored_len) && (data_type s =? Z_UNKNOWN) then set_data_type else mret tt);;
    with_l (build_tree static_l_desc);;
    with_d (build_tree static_d_desc);;
    max_blindex ← build_bl_tree;
    s ← get;
    let opt_lenb := Z.shiftr (u64 (opt_len (d_work s) + 3 + 7)) 3 in
    let static_lenb := Z.shiftr (u64 (static_len (d_work s) + 3 + 7)) 3 in
    mret (max_blindex, if static_lenb <=? opt_lenb then static_lenb else opt_lenb, static_lenb)
  else mret (0, u64 (stored_len + 5), u64 (stored_len + 5)).

Definition _tr_flush_block (buf stored_len eof : Z) : C deflate_state unit :=
  r ← block_lengths stored_len;
  let '(max_blindex, opt_lenb, static_lenb) := r in
  s ← get;
  (if (u64 (stored_len + 4) <=? opt_lenb) && negb (buf =? NULL) then
     writing (_tr_stored_block pending_buf buf stored_len eof)
   else if (strategy =? Z_FIXED) || (static_lenb =? opt_lenb) then
     writing (send_bits pending_buf (Z.shiftl STATIC_TREES 1 + eof) 3);;
     writing (compress_block pending_buf d_buf l_buf (last_lit s) static_ltree static_dtree)
   else
     writing (send_bits pending_buf (Z.shiftl DYN_TREES 1 + eof) 3);;
     writing (send_all_trees pending_buf (dyn_ltree s) (dyn_dtree s) (bl_tree s)
       (l_max_code s + 1) (d_max_code s + 1) (max_blindex + 1));;
     writing (compress_block pending_buf d_buf l_buf (last_lit s) (dyn_ltree s) (dyn_dtree s)));;
  init_block;;
  if eof =? 0 then mret tt else writing (bi_windup pending_buf).
End block.
