(* ===== verification/Bitstream.v ===== *)
(** * Streams of bits

    A sequence of fields, each a value on a number of bits, is the number that has the
    first field in its lowest bits, as DEFLATE packs them.  The writer of [trees.c] and the
    readers of [inflate.c] and [inffast.c] are both related to such numbers. *)

From stdpp Require Import base tactics numbers list gmap.
From S2P Require Import Prelude Memory Words.

Open Scope Z_scope.

Abbreviation field := (Z * Z)%type.

Fixpoint pack (fs : list field) : Z :=
  match fs with [] => 0 | f :: fs => fst f + 2 ^ snd f * pack fs end.

Fixpoint width (fs : list field) : Z :=
  match fs with [] => 0 | f :: fs => snd f + width fs end.

Definition field_ok (f : field) : Prop := 0 ≤ snd f ∧ 0 ≤ fst f < 2 ^ snd f.

Section pack.
Implicit Types (f : field) (fs : list field).

Lemma width_nonneg fs : Forall field_ok fs → 0 ≤ width fs.
Proof. induction 1 as [|f fs [H _] _ IH]; cbn [width]; lia. Qed.

Lemma width_app fs fs' : width (fs ++ fs') = width fs + width fs'.
Proof. induction fs as [|f fs IH]; cbn [width app]; lia. Qed.

Lemma pack_app fs fs' : Forall field_ok fs → pack (fs ++ fs') = pack fs + 2 ^ width fs * pack fs'.
Proof.
  induction 1 as [|f fs [H _] Hfs IH]; cbn [pack width app]; [by rewrite Z.mul_1_l|].
  rewrite IH, Z.pow_add_r by (done || by apply width_nonneg). ring.
Qed.

Lemma pack_range fs : Forall field_ok fs → 0 ≤ pack fs < 2 ^ width fs.
Proof.
  induction 1 as [|f fs [H1 H2] Hfs IH]; cbn [pack width]; [done|].
  rewrite Z.pow_add_r by (done || by apply width_nonneg). nia.
Qed.
End pack.

(** ** Little-endian bytes *)

Section bytes.
Implicit Types l : list Z.

Lemma le_value_range l : Forall is_byte l → 0 ≤ le_value l < 2 ^ (8 * Z.of_nat (length l)).
Proof.
  induction 1 as [|b l [H1 H2] _ IH]; cbn [le_value length]; [done|].
  replace (8 * Z.of_nat (S (length l))) with (8 + 8 * Z.of_nat (length l)) by lia.
  rewrite Z.pow_add_r by lia. change (2 ^ 8) with 256. nia.
Qed.

Lemma le_value_app l l' : le_value (l ++ l') = le_value l + 2 ^ (8 * Z.of_nat (length l)) * le_value l'.
Proof.
  induction l as [|b l IH]; cbn [le_value length app]; [by rewrite Z.mul_1_l|]. rewrite IH.
  replace (8 * Z.of_nat (S (length l))) with (8 + 8 * Z.of_nat (length l)) by lia.
  rewrite Z.pow_add_r by lia. change (2 ^ 8) with 256. ring.
Qed.
End bytes.

(** ** Reading: the front of a number *)

(** [X] begins with the fields. *)
Definition begins (X : Z) (fs : list field) : Prop := X mod 2 ^ width fs = pack fs.

Section begins.
Implicit Types (f : field) (fs : list field).

Lemma begins_nil X : begins X [].
Proof. unfold begins. cbn. apply Z.mod_1_r. Qed.

Lemma begins_cons X f fs : field_ok f → Forall field_ok fs →
  begins X (f :: fs) ↔ X mod 2 ^ snd f = fst f ∧ begins (X / 2 ^ snd f) fs.
Proof.
  intros [H1 H2] Hfs. unfold begins. cbn [pack width]. pose proof (width_nonneg fs Hfs).
  assert (0 < 2 ^ snd f) by (by apply Z.pow_pos_nonneg). assert (0 < 2 ^ width fs) by (by apply Z.pow_pos_nonneg).
  rewrite Z.pow_add_r, Z.rem_mul_r by lia.
  pose proof (Z.mod_pos_bound X (2 ^ snd f) ltac:(lia)). split; [|intros [-> ->]; done].
  intros E. destruct (Z.div_mod_unique (2 ^ snd f) (X / 2 ^ snd f mod 2 ^ width fs) (pack fs) (X mod 2 ^ snd f) (fst f)); [lia..|done].
Qed.

Lemma begins_app X fs fs' : Forall field_ok fs → Forall field_ok fs' →
  begins X (fs ++ fs') ↔ begins X fs ∧ begins (X / 2 ^ width fs) fs'.
Proof.
  intros Hfs Hfs'. revert X. induction Hfs as [|f fs Hf Hfs IH]; intros X.
  - cbn [app width]. rewrite Z.div_1_r. pose proof (begins_nil X). tauto.
  - cbn [app width]. rewrite !begins_cons, IH by (done || by apply Forall_app). destruct Hf as [Hf _].
    pose proof (width_nonneg fs Hfs). rewrite Z.div_div, <-Z.pow_add_r by (lia || apply Z.pow_pos_nonneg; lia). tauto.
Qed.

Lemma pow_pos n : 0 ≤ n → 0 < 2 ^ n.
Proof. intros. by apply Z.pow_pos_nonneg. Qed.

Lemma mod_mod_pow X a b : 0 ≤ a ≤ b → (X mod 2 ^ b) mod 2 ^ a = X mod 2 ^ a.
Proof.
  intros H. pose proof (pow_pos a ltac:(lia)). pose proof (pow_pos (b - a) ltac:(lia)).
  replace (2 ^ b) with (2 ^ a * 2 ^ (b - a)) by (rewrite <-Z.pow_add_r by lia; f_equal; lia).
  rewrite Z.rem_mul_r, Z.mul_comm, Z_mod_plus_full, Z.mod_mod; lia.
Qed.

Lemma div_mod_pow X a b : 0 ≤ a ≤ b → (X mod 2 ^ b) / 2 ^ a = (X / 2 ^ a) mod 2 ^ (b - a).
Proof.
  intros H. pose proof (pow_pos a ltac:(lia)). pose proof (pow_pos (b - a) ltac:(lia)).
  replace (2 ^ b) with (2 ^ a * 2 ^ (b - a)) by (rewrite <-Z.pow_add_r by lia; f_equal; lia).
  rewrite Z.rem_mul_r, Z.mul_comm, Z.div_add by lia.
  rewrite Z.div_small by (apply Z.mod_pos_bound; lia). lia.
Qed.
End begins.

(** ** Bytes as fields *)

Definition byte_fields (bs : list Z) : list field := (λ b, (b, 8)) <$> bs.

Lemma byte_fields_ok bs : Forall is_byte bs → Forall field_ok (byte_fields bs).
Proof. intros H. apply Forall_fmap. eapply Forall_impl; [done|]. intros b Hb. by split. Qed.

Lemma byte_fields_width bs : width (byte_fields bs) = 8 * Z.of_nat (length bs).
Proof. induction bs as [|b bs IH]; cbn [byte_fields fmap list_fmap width length snd] in *; [done|]. fold (byte_fields bs). lia. Qed.

(** Bytes at the front of the input. *)
Lemma begins_bytes bs : Forall is_byte bs → ∀ l, Forall is_byte l → (length bs ≤ length l)%nat →
  begins (le_value l) (byte_fields bs) → ∃ l', l = bs ++ l'.
Proof.
  induction 1 as [|b bs Hb Hbs IH]; intros l Hl Hlen H; [by exists l|]. destruct l as [|b' l]; [cbn in Hlen; lia|].
  inversion Hl as [|? ? Hb' Hl']; subst. apply begins_cons in H as [H1 H2]; [|done|by apply byte_fields_ok]. cbn [fst snd le_value] in *.
  change (2 ^ 8) with 256 in *. unfold is_byte in Hb'. rewrite Z.mul_comm, Z_mod_plus_full, Z.mod_small in H1 by lia. subst b'.
  rewrite Z.mul_comm, Z.div_add, (Z.div_small b), Z.add_0_l in H2 by lia. destruct (IH l Hl' ltac:(cbn in Hlen; lia) H2) as [l' ->]. by exists l'.
Qed.
