(* ===== verification/TreesBits.v ===== *)
(** * The bit writer of the compressor

    What has been written since some point is a sequence of fields: the bytes put into the
    pending output since and the bits still in [bi_buf] are its packing ([wrote]).  Each
    operation of the writer adds its fields, as long as there is room for them. *)

From stdpp Require Import base tactics numbers list gmap.
From S2P Require Import Prelude Memory Words TreesTables Trees Bitstream.

Open Scope Z_scope.

Section writer.
Context (pb : Z) (m0 : mem) (p0 R : Z).
Hypothesis Hroom : valid m0 (pb + p0) R.
Hypothesis Hp0 : 0 ≤ p0 ∧ p0 + R < 2 ^ 32.
Implicit Types (w : writer) (fs : list field) (l : list Z).

(** The bytes [l] have been put. *)
Definition pending_is (w : writer) (l : list Z) : Prop :=
  w_mem w = write_bytes m0 (pb + p0) l ∧ Forall is_byte l ∧ w_pending w = p0 + Z.of_nat (length l).

Definition wrote (w : writer) (fs : list field) : Prop := ∃ l,
  Forall field_ok fs ∧ pending_is w l ∧ 0 ≤ w_bi_valid w ≤ 16 ∧ 0 ≤ w_bi_buf w < 2 ^ w_bi_valid w ∧
  le_value l + 2 ^ (8 * Z.of_nat (length l)) * w_bi_buf w = pack fs ∧
  8 * Z.of_nat (length l) + w_bi_valid w = width fs.

(** The writer after putting bytes. *)
Definition with_bytes (l : list Z) (w : writer) : writer :=
  Writer (write_bytes m0 (pb + p0) l) (p0 + Z.of_nat (length l)) (w_bi_buf w) (w_bi_valid w) (w_last_eob_len w).

Lemma run_put_byte w l c : pending_is w l → Z.of_nat (length l) < R →
  put_byte pb c w = Ret tt (with_bytes (l ++ [u8 c]) w) ∧ pending_is (with_bytes (l ++ [u8 c]) w) (l ++ [u8 c]).
Proof.
  intros (Hm & Hl & Hp) HR. unfold put_byte. rewrite run_bind, run_get. cbn beta iota.
  assert (is_Some (w_mem w !! (pb + w_pending w))) as Hv.
  { rewrite Hm, Hp. destruct (write_bytes_valid m0 (pb + p0) l (pb + p0) R Hroom (Z.of_nat (length l)) ltac:(lia)) as [b Hb].
    exists b. rewrite <-Hb. f_equal. lia. }
  split; [|split_and!; [done|apply Forall_app_2; [done|]; constructor; [apply u8_is_byte|done]|done]].
  rewrite run_bind. unfold wmem, zoom. rewrite run_store8 by done. cbn beta iota. rewrite run_modify.
  unfold with_bytes. destruct w as [m p buf v e]. cbn in *. subst. unfold set_pending, set_mem. cbn.
  rewrite write_bytes_snoc, length_app. cbn [length]. do 2 f_equal; [f_equal; lia|]. rewrite wrap_small by lia. lia.
Qed.

Lemma run_put_short w l v : pending_is w l → Z.of_nat (length l) + 1 < R → 0 ≤ v < 2 ^ 16 →
  put_short pb v w = Ret tt (with_bytes (l ++ [v mod 256; v / 256]) w) ∧
  pending_is (with_bytes (l ++ [v mod 256; v / 256]) w) (l ++ [v mod 256; v / 256]).
Proof.
  intros Hw HR Hv. unfold put_short. destruct (run_put_byte w l (u8 (Z.land v 255)) Hw ltac:(lia)) as [E1 Hw1].
  rewrite run_bind, E1. cbn beta iota. clear E1. rewrite (wrap_small 16) by done.
  destruct (run_put_byte _ _ (u8 (Z.shiftr v 8)) Hw1) as [E2 Hw2]; [rewrite length_app; cbn; lia|].
  rewrite E2. clear E2. rewrite !wrap_wrap in * by lia. rewrite <-app_assoc in Hw2 |- *. cbn [app] in Hw2 |- *.
  assert (u8 (Z.land v 255) = v mod 256) as E3.
  { change 255 with (Z.ones 8). rewrite Z.land_ones by lia. unfold wrap. by rewrite Z.mod_mod. }
  assert (u8 (Z.shiftr v 8) = v / 256) as E4.
  { rewrite Z.shiftr_div_pow2 by lia. change (2 ^ 8) with 256. rewrite wrap_small; [done|]. change (2 ^ 8) with 256.
    split; [apply Z.div_pos; lia|apply Z.div_lt_upper_bound; lia]. }
  rewrite E3, E4 in *. split; [|done]. f_equal.
Qed.

(** [a | b << n], when [a] has at most [n] bits *)
Lemma lor_shift a b n : 0 ≤ n → 0 ≤ a < 2 ^ n → Z.lor a (Z.shiftl b n) = a + 2 ^ n * b.
Proof.
  intros Hn Ha. rewrite Z.shiftl_mul_pow2 by done. rewrite Z.mul_comm. apply Z.bits_inj'. intros i Hi. rewrite Z.lor_spec.
  rewrite (Z.mul_comm (2 ^ n)), Z.add_comm.
  assert (Z.testbit a i = if i <? n then Z.testbit a i else false) as Ea.
  { destruct (Z.ltb_spec i n); [done|]. destruct (decide (a = 0)) as [->|]; [apply Z.bits_0|].
    apply Z.bits_above_log2; [lia|]. apply Z.lt_le_trans with n; [|done]. apply Z.log2_lt_pow2; lia. }
  rewrite Ea. destruct (Z.ltb_spec i n) as [H|H].
  - rewrite Z.mul_pow2_bits_low by done. rewrite orb_false_r.
    rewrite <-(Z.mod_pow2_bits_low (b * 2 ^ n + a) n i) by done. rewrite Z.add_comm, Z_mod_plus_full.
    by rewrite Z.mod_pow2_bits_low.
  - cbn [orb]. rewrite Z.mul_pow2_bits by done. replace i with (i - n + n) at 2 by lia.
    rewrite <-Z.div_pow2_bits by lia. rewrite Z.add_comm, Z.div_add by (apply Z.pow_nonzero; lia).
    by rewrite Z.div_small.
Qed.

Lemma run_send_bits w fs v n : wrote w fs → field_ok (v, n) → n ≤ 15 → width fs + n ≤ 8 * R →
  ∃ w', send_bits pb v n w = Ret tt w' ∧ wrote w' (fs ++ [(v, n)]) ∧ w_last_eob_len w' = w_last_eob_len w.
Proof.
  intros (l & Hfs & Hp & Hval & Hbuf & Hpack & Hwid) Hf Hn15 HR. pose proof Hf as [Hn Hv]. cbn [fst snd] in *.
  unfold send_bits. rewrite run_bind, run_get. cbn beta iota.
  set (k := w_bi_valid w) in *. set (b := w_bi_buf w) in *.
  assert (v < 2 ^ 15) by (apply Z.lt_le_trans with (2 ^ n); [lia|apply Z.pow_le_mono_r; lia]).
  assert (Z.shiftl v k = v * 2 ^ k) as Es by (apply Z.shiftl_mul_pow2; lia).
  assert (v * 2 ^ k < 2 ^ 31).
  { change (2 ^ 31) with (2 ^ 15 * 2 ^ 16). pose proof (Z.pow_le_mono_r 2 k 16 ltac:(lia) ltac:(lia)). nia. }
  unfold shl_int. rewrite Es, (proj2 (Z.leb_gt _ _)) by lia. rewrite run_bind, run_ret. cbn beta iota. rewrite <-Es.
  rewrite lor_shift by lia. change Buf_size with 16. pose proof (Z.pow_pos_nonneg 2 k ltac:(lia) ltac:(lia)).
  assert (Forall field_ok (fs ++ [(v, n)])) as Hfs' by (apply Forall_app_2; [done|by constructor]).
  assert (pack (fs ++ [(v, n)]) = le_value l + 2 ^ (8 * Z.of_nat (length l)) * (b + 2 ^ k * v)) as Epack.
  { rewrite pack_app, <-Hpack, <-Hwid, Z.pow_add_r by (done || lia). cbn [pack fst snd]. ring. }
  destruct (Z.ltb_spec (16 - n) k) as [Hflush|Hkeep].
  - pose proof (wrap_range 16 (b + 2 ^ k * v) ltac:(lia)).
    destruct (run_put_short w l (u16 (b + 2 ^ k * v)) Hp ltac:(lia) ltac:(done)) as [E Hp'].
    rewrite run_bind, E. cbn beta iota. rewrite run_modify. eexists. split; [done|]. split; [|done].
    exists (l ++ [u16 (b + 2 ^ k * v) mod 256; u16 (b + 2 ^ k * v) / 256]). rewrite length_app. cbn [length].
    destruct Hp' as (Hm' & Hl' & Hpd). unfold set_bits. cbn.
    assert (Z.shiftr (u16 v) (16 - k) = v / 2 ^ (16 - k)) as Er.
    { rewrite wrap_small by lia. apply Z.shiftr_div_pow2. lia. }
    rewrite Er. split; [done|]. split; [split_and!; [done|done|rewrite length_app; cbn; lia]|]. split; [lia|].
    assert (2 ^ n = 2 ^ (k + n - 16) * 2 ^ (16 - k)) as E2 by (rewrite <-Z.pow_add_r by lia; f_equal; lia).
    pose proof (Z.pow_pos_nonneg 2 (16 - k) ltac:(lia) ltac:(lia)).
    split.
    { split; [apply Z.div_pos; lia|]. apply Z.div_lt_upper_bound; [lia|]. rewrite Z.mul_comm, <-E2. lia. }
    split; [|rewrite width_app; cbn [width snd]; lia]. rewrite Epack, le_value_app. cbn [le_value].
    assert ((b + 2 ^ k * v) / 2 ^ 16 = v / 2 ^ (16 - k)) as Ed.
    { replace (2 ^ 16) with (2 ^ k * 2 ^ (16 - k)) by (rewrite <-Z.pow_add_r by lia; f_equal; lia).
      rewrite <-Z.div_div, (Z.mul_comm (2 ^ k)), Z.div_add, (Z.div_small b) by lia. done. }
    rewrite <-Ed. pose proof (Z.div_mod (b + 2 ^ k * v) (2 ^ 16) ltac:(lia)) as Edm.
    pose proof (Z.div_mod (u16 (b + 2 ^ k * v)) 256 ltac:(lia)) as Ew. unfold wrap in Ew |- *.
    replace (8 * Z.of_nat (length l + 2)) with (8 * Z.of_nat (length l) + 16) by lia. rewrite Z.pow_add_r by lia. nia.
  - assert (b + 2 ^ k * v < 2 ^ (k + n)) by (rewrite Z.pow_add_r by lia; nia).
    assert (2 ^ (k + n) ≤ 2 ^ 16) by (apply Z.pow_le_mono_r; lia).
    rewrite wrap_small by nia. rewrite run_modify. eexists. split; [done|]. split; [|done].
    destruct Hp as (Hm & Hl & Hpd). exists l. cbn. split; [done|]. split; [done|]. split; [lia|]. split; [nia|].
    split; [by rewrite Epack|rewrite width_app; cbn [width snd]; lia].
Qed.

(** ** On a byte boundary *)

(** The bits to the next byte. *)
Definition pad (n : Z) : Z := (- n) mod 8.

Lemma run_bi_windup w fs : wrote w fs → width fs + pad (width fs) ≤ 8 * R →
  ∃ w', bi_windup pb w = Ret tt w' ∧ wrote w' (fs ++ [(0, pad (width fs))]) ∧ w_bi_valid w' = 0 ∧ w_last_eob_len w' = w_last_eob_len w.
Proof.
  intros (l & Hfs & Hp & Hval & Hbuf & Hpack & Hwid) HR. unfold bi_windup. rewrite run_bind, run_get. cbn beta iota.
  set (k := w_bi_valid w) in *. set (b := w_bi_buf w) in *.
  assert (field_ok (0, pad (width fs))) as Hf.
  { unfold pad. pose proof (Z.mod_pos_bound (- width fs) 8 ltac:(lia)). split; cbn [fst snd]; [lia|]. split; [lia|]. apply pow_pos. lia. }
  assert (Forall field_ok (fs ++ [(0, pad (width fs))])) as Hfs' by (apply Forall_app_2; [done|by constructor]).
  assert (pack (fs ++ [(0, pad (width fs))]) = le_value l + 2 ^ (8 * Z.of_nat (length l)) * b) as Epack.
  { rewrite pack_app, <-Hpack by done. cbn [pack fst snd]. ring. }
  assert (∀ r, 0 ≤ r → k = 8 * r ∨ 8 * (r - 1) < k < 8 * r → pad (width fs) = 8 * r - k) as Hpad.
  { intros r Hr Hk. unfold pad. rewrite <-Hwid. replace (- (8 * Z.of_nat (length l) + k)) with (8 * r - k + (- (Z.of_nat (length l) + r)) * 8) by lia.
    rewrite Z_mod_plus_full. apply Z.mod_small. lia. }
  assert (∃ l', (if 8 <? k then put_short pb b else if 0 <? k then put_byte pb (u8 b) else mret tt) w = Ret tt (with_bytes (l ++ l') w) ∧
    pending_is (with_bytes (l ++ l') w) (l ++ l') ∧ le_value l' = b ∧ 8 * Z.of_nat (length l') = k + pad (width fs)) as (l' & E & Hp' & El & Ek).
  { destruct (Z.ltb_spec 8 k) as [H8|H8].
    - pose proof (Hpad 2 ltac:(lia) ltac:(lia)) as Epad. assert (b < 2 ^ 16) by (apply Z.lt_le_trans with (2 ^ k); [lia|apply Z.pow_le_mono_r; lia]).
      destruct (run_put_short w l b Hp ltac:(lia) ltac:(lia)) as [E Hp']. exists [b mod 256; b / 256]. split; [done|]. split; [done|].
      split; [cbn [le_value]; pose proof (Z.div_mod b 256 ltac:(lia)); lia|cbn [length]; lia].
    - destruct (Z.ltb_spec 0 k) as [H0|H0].
      + pose proof (Hpad 1 ltac:(lia) ltac:(lia)) as Epad. assert (b < 2 ^ 8) by (apply Z.lt_le_trans with (2 ^ k); [lia|apply Z.pow_le_mono_r; lia]).
        destruct (run_put_byte w l (u8 b) Hp ltac:(lia)) as [E Hp']. rewrite wrap_wrap, (wrap_small 8 b) in * by lia. exists [b]. split; [done|]. split; [done|].
        split; [cbn [le_value]; lia|cbn [length]; lia].
      + pose proof (Hpad 0 ltac:(lia) ltac:(lia)) as Epad. exists []. rewrite app_nil_r. assert (k = 0) as Ek by lia. rewrite Ek in Hbuf. change (2 ^ 0) with 1 in Hbuf.
        destruct Hp as (Hm & Hl & Hpd). split; [|split; [by split_and!|split; [cbn; lia|cbn; lia]]]. rewrite run_ret. f_equal. unfold with_bytes. rewrite <-Hm, <-Hpd. by destruct w. }
  rewrite run_bind, E. cbn beta iota. rewrite run_modify. eexists. split; [done|]. split; [|done]. exists (l ++ l').
  split; [done|]. split; [done|]. cbn. split; [lia|]. split; [lia|]. rewrite length_app, le_value_app, El, Epack, width_app. cbn [width snd]. lia.
Qed.

(** Whole bytes, when no bits are waiting. *)
Lemma wrote_bytes w fs l' f : wrote w fs → w_bi_valid w = 0 → field_ok f → Forall is_byte l' → le_value l' = fst f → 8 * Z.of_nat (length l') = snd f →
  ∀ l, pending_is w l → wrote (with_bytes (l ++ l') w) (fs ++ [f]).
Proof.
  intros (l0 & Hfs & Hp0' & _ & Hb & Hpack & Hwid) Hv Hf Hl' Ev En l Hp. rewrite Hv in *. change (2 ^ 0) with 1 in Hb.
  assert (length l = length l0) as Elen by (destruct Hp0' as (_ & _ & E1), Hp as (_ & _ & E2); lia).
  assert (l = l0) as ->.
  { destruct Hp0' as (E0 & B0 & _), Hp as (E1 & B1 & _). apply (bytes_at_inj (w_mem w) (pb + p0)); [rewrite E1; by apply write_bytes_at|rewrite E0; by apply write_bytes_at|done]. }
  exists (l0 ++ l'). split; [apply Forall_app_2; [done|by constructor]|]. split.
  { destruct Hp as (E1 & B1 & E2). split; [done|]. split; [by apply Forall_app_2|done]. }
  cbn. rewrite Hv. split; [lia|]. split; [cbn; lia|]. rewrite length_app, le_value_app, pack_app, width_app, <-Hpack, <-Hwid, Ev by done. cbn [pack width].
  rewrite Z.add_0_r. replace (w_bi_buf w) with 0 by lia. split; [ring|lia].
Qed.

Lemma run_put_byte_wrote w fs c : wrote w fs → w_bi_valid w = 0 → is_byte c → width fs + 8 ≤ 8 * R →
  ∃ w', put_byte pb c w = Ret tt w' ∧ wrote w' (fs ++ [(c, 8)]) ∧ w_bi_valid w' = 0 ∧ w_last_eob_len w' = w_last_eob_len w.
Proof.
  intros Hw Hv Hc HR. pose proof Hw as (l & _ & Hp & _ & _ & _ & Hwid). destruct (run_put_byte w l c Hp ltac:(lia)) as [E _].
  rewrite (u8_byte c Hc) in E. eexists. split; [done|]. split; [|done]. apply (wrote_bytes w fs [c]); try done; [by constructor|cbn; lia].
Qed.

Lemma run_put_short_wrote w fs v : wrote w fs → w_bi_valid w = 0 → 0 ≤ v < 2 ^ 16 → width fs + 16 ≤ 8 * R →
  ∃ w', put_short pb v w = Ret tt w' ∧ wrote w' (fs ++ [(v, 16)]) ∧ w_bi_valid w' = 0 ∧ w_last_eob_len w' = w_last_eob_len w.
Proof.
  intros Hw Hv Hc HR. pose proof Hw as (l & _ & Hp & _ & _ & _ & Hwid). destruct (run_put_short w l v Hp ltac:(lia) Hc) as [E (_ & Hb & _)].
  apply Forall_app in Hb as [_ Hb]. eexists. split; [done|]. split; [|done]. apply (wrote_bytes w fs [v mod 256; v / 256]); try done.
  cbn [le_value fst]. pose proof (Z.div_mod v 256 ltac:(lia)). lia.
Qed.
End writer.
