(* ===== verification/TreesBlock.v ===== *)
(** * The symbols of a block

    [compress_block] reads the symbols [_tr_tally] has buffered and sends the code words
    and extra bits of each, while the pending output grows towards the buffer it shares
    the memory with.  [run_compress_block]: as long as the output stays behind the symbols
    still to be read, it writes the fields of the symbols and of the end of the block. *)

From stdpp Require Import base tactics numbers list gmap.
From S2P Require Import Prelude Memory Words TreesTables Trees Bitstream TreesBits Inftrees InftreesMain.

Open Scope Z_scope.

(** ** Symbols and their fields *)

(** A buffered symbol: a distance, 0 for a literal, and a byte or a length less 3. *)
Abbreviation buffered_symbol := (Z * Z)%type.

Definition tree_field (tree : list ct_data) (s : Z) : field :=
  let e := nth (Z.to_nat s) tree (Ct 0 0) in (fc e, dl e).

(** Extra bits: nothing is sent when there are none. *)
Definition extra_field (v n : Z) : field := if n =? 0 then (0, 0) else (v, n).

(** The symbol for a length less 3, and its extra bits. *)
Definition length_part (c : Z) : Z * field :=
  let k := nth (Z.to_nat c) _length_code 0 in
  (k + 257, extra_field (c - nth (Z.to_nat k) base_length 0) (nth (Z.to_nat k) extra_lbits 0)).

(** The symbol for a distance less 1, and its extra bits. *)
Definition dist_part (d : Z) : Z * field :=
  let k := nth (Z.to_nat (if d <? 256 then d else 256 + d / 128)) _dist_code 0 in
  (k, extra_field (d - nth (Z.to_nat k) base_dist 0) (nth (Z.to_nat k) extra_dbits 0)).

Definition symbol_fields (ltree dtree : list ct_data) (x : buffered_symbol) : list field :=
  let '(d, c) := x in
  if d =? 0 then [tree_field ltree c] else
  [tree_field ltree (fst (length_part c)); snd (length_part c);
   tree_field dtree (fst (dist_part (d - 1))); snd (dist_part (d - 1))].

Definition symbols_fields (ltree dtree : list ct_data) (xs : list buffered_symbol) : list field :=
  mjoin (symbol_fields ltree dtree <$> xs).

Definition symbol_ok (x : buffered_symbol) : Prop := 0 ≤ fst x ≤ 32768 ∧ is_byte (snd x).

(** *** The parts, from the tables *)

Definition part_ok (type : codetype) (least alphabet bits value : Z) (p : Z * field) : bool :=
  let '(s, (v, n)) := p in
  (least <=? s) && (s <? alphabet) && (0 <=? n) && (n <=? bits) && (0 <=? v) && (v <? 2 ^ n) &&
  (let '(o, b) := symbol_entry type s in (o =? 16 + n) && (b + v =? value)).

(** [f] holds from [a] on, [n] times. *)
Fixpoint all_from (f : Z → bool) (n : nat) (a : Z) : bool :=
  match n with O => true | S n => f a && all_from f n (a + 1) end.

Lemma all_from_spec f n a i : all_from f n a = true → a ≤ i < a + Z.of_nat n → f i = true.
Proof.
  revert a. induction n as [|n IH]; intros a H Hi; [lia|]. cbn [all_from] in H. apply andb_true_iff in H as [H1 H2].
  destruct (decide (i = a)) as [->|]; [done|]. apply (IH (a + 1)); [done|lia].
Qed.

Lemma length_parts c : is_byte c → part_ok LENS 257 286 5 (c + 3) (length_part c) = true.
Proof.
  intros [H1 H2]. apply (all_from_spec (λ c, part_ok LENS 257 286 5 (c + 3) (length_part c)) 256 0); [|lia].
  vm_compute. reflexivity.
Qed.

Lemma dist_parts d : 0 ≤ d < 32768 → part_ok DISTS 0 30 13 (d + 1) (dist_part d) = true.
Proof.
  intros Hd. apply (all_from_spec (λ d, part_ok DISTS 0 30 13 (d + 1) (dist_part d)) (Z.to_nat 32768) 0); [|lia].
  vm_compute. reflexivity.
Qed.

(** What the tables of the compressor and those of the decompressor agree on. *)
Lemma part_ok_spec type least alphabet bits value p : part_ok type least alphabet bits value p = true →
  least ≤ fst p < alphabet ∧ field_ok (snd p) ∧ snd (snd p) ≤ bits ∧
  symbol_entry type (fst p) = (16 + snd (snd p), value - fst (snd p)).
Proof.
  unfold part_ok, field_ok. destruct p as [s [v n]]. destruct (symbol_entry type s) as [o b] eqn:E.
  rewrite !andb_true_iff, !Z.leb_le, !Z.ltb_lt, !Z.eqb_eq. cbn [fst snd]. intros. rewrite E. split_and!; try lia. f_equal; lia.
Qed.

(** ** Sending *)

Section block.
Context (pb : Z) (m0 : mem) (p0 R : Z).
Hypothesis Hroom : valid m0 (pb + p0) R.
Hypothesis Hp0 : 0 ≤ p0 ∧ p0 + R < 2 ^ 32.
Context (db lb : Z) (ltree dtree : list ct_data) (xs : list buffered_symbol).

(** The symbols are in the buffer. *)
Hypothesis Hbuf : ∀ k d c, xs !! k = Some (d, c) →
  symbol_ok (d, c) ∧ bytes_at m0 (db + 2 * Z.of_nat k) (le_bytes 2 d) ∧ m0 !! (lb + Z.of_nat k) = Some c.

(** A tree the symbol can be sent with. *)
Definition sendable (tree : list ct_data) (s : Z) : Prop :=
  0 ≤ s < Z.of_nat (length tree) ∧ field_ok (tree_field tree s) ∧ dl (nth (Z.to_nat s) tree (Ct 0 0)) ≤ 15.

Definition symbol_sendable (x : buffered_symbol) : Prop :=
  let '(d, c) := x in
  if d =? 0 then sendable ltree c
  else sendable ltree (fst (length_part c)) ∧ sendable dtree (fst (dist_part (d - 1))).

Abbreviation wrote := (wrote pb m0 p0).

Lemma run_send_code tree s w fs : sendable tree s → wrote w fs → width fs + snd (tree_field tree s) ≤ 8 * R →
  ∃ w', send_code pb s tree w = Ret tt w' ∧ wrote w' (fs ++ [tree_field tree s]) ∧ w_last_eob_len w' = w_last_eob_len w.
Proof.
  intros (Hs & Hf & Hd) Hw HR. unfold send_code. rewrite run_bind, (run_elem_nth _ _ (Ct 0 0)) by done. cbn beta iota.
  unfold tree_field in *. cbn [fst snd] in *. by apply (run_send_bits pb m0 p0 R).
Qed.

(** Extra bits, after the test whether there are any. *)
Lemma run_send_extra v n (c : C writer unit) w fs :
  (n ≠ 0 → ∀ w, c w = send_bits pb v n w) → field_ok (extra_field v n) → snd (extra_field v n) ≤ 15 →
  wrote w fs → width fs + snd (extra_field v n) ≤ 8 * R →
  ∃ w', (if n =? 0 then mret tt else c) w = Ret tt w' ∧ wrote w' (fs ++ [extra_field v n]) ∧ w_last_eob_len w' = w_last_eob_len w.
Proof.
  intros Hc Hf Hn Hw HR. unfold extra_field in *. destruct (Z.eqb_spec n 0) as [->|Hn0].
  - exists w. split; [done|]. split; [|done]. destruct Hw as (l & Hfs & Hp & Hv & Hb & E1 & E2).
    exists l. split; [apply Forall_app_2; [done|by constructor]|]. do 3 (split; [done|]).
    rewrite pack_app, width_app, E1, E2 by done. cbn. lia.
  - rewrite Hc by done. by apply (run_send_bits pb m0 p0 R).
Qed.

(** The bytes put do not exceed the fields written. *)
Lemma wrote_frame w fs a : wrote w fs → width fs ≤ 8 * (a - (pb + p0)) → ∀ a', a ≤ a' → w_mem w !! a' = m0 !! a'.
Proof.
  intros (l & _ & (Hm & _) & Hv & _ & _ & Hw) Ha a' Ha'. rewrite Hm. apply lookup_write_bytes_out. lia.
Qed.

Lemma run_send_match d c w fs : 1 ≤ d ≤ 32768 → is_byte c → symbol_sendable (d, c) → wrote w fs →
  width fs + width (symbol_fields ltree dtree (d, c)) ≤ 8 * R →
  ∃ w', send_match pb ltree dtree d c w = Ret tt w' ∧
    wrote w' (fs ++ symbol_fields ltree dtree (d, c)) ∧ w_last_eob_len w' = w_last_eob_len w.
Proof.
  intros Hd Hc Hsend Hw HR. cbn [symbol_sendable symbol_fields] in *. rewrite (proj2 (Z.eqb_neq d 0)) in * by lia.
  destruct Hsend as [Hs1 Hs2]. destruct (part_ok_spec _ _ _ _ _ _ (length_parts c Hc)) as (Hk1 & Hf1 & Hb1 & _).
  destruct (part_ok_spec _ _ _ _ _ _ (dist_parts (d - 1) ltac:(lia))) as (Hk2 & Hf2 & Hb2 & _).
  cbn [width] in HR. pose proof (proj1 Hf1). pose proof (proj1 Hf2). pose proof (proj1 (proj1 (proj2 Hs1))). pose proof (proj1 (proj1 (proj2 Hs2))).
  unfold send_match, length_part, dist_part, is_byte in *. cbn [fst snd] in *.
  rewrite run_bind, (run_elem_nth _ _ 0) by (change (length _length_code) with 256%nat; lia). cbn beta iota.
  set (k1 := nth (Z.to_nat c) _length_code 0) in *. rewrite <-Z.add_assoc. change (LITERALS + 1) with 257.
  destruct (run_send_code ltree (k1 + 257) w fs Hs1 Hw) as (w1 & E1 & Hw1 & L1); [lia|]. rewrite run_bind, E1. cbn beta iota.
  rewrite run_bind, (run_elem_nth extra_lbits k1 0) by (change (length extra_lbits) with 29%nat; lia). cbn beta iota.
  set (n1 := nth (Z.to_nat k1) extra_lbits 0) in *.
  destruct (run_send_extra (c - nth (Z.to_nat k1) base_length 0) n1 (base ← elem base_length k1; send_bits pb (c - base) n1) w1
    (fs ++ [tree_field ltree (k1 + 257)])) as (w2 & E2 & Hw2 & L2); [|done|..].
  { intros _ w'. by rewrite run_bind, (run_elem_nth _ _ 0) by (change (length base_length) with 29%nat; lia). }
  { lia. }
  { done. }
  { rewrite width_app. cbn [width]. lia. }
  rewrite run_bind, E2. cbn beta iota.
  set (i2 := if d - 1 <? 256 then d - 1 else 256 + (d - 1) / 128) in *.
  assert (∀ w : writer, d_code (d - 1) w = Ret (nth (Z.to_nat i2) _dist_code 0) w) as Ed.
  { intros w'. unfold d_code, i2. rewrite Z.shiftr_div_pow2 by lia. change (2 ^ 7) with 128.
    pose proof (Z.div_lt_upper_bound (d - 1) 128 256 ltac:(lia) ltac:(lia)). pose proof (Z.div_pos (d - 1) 128 ltac:(lia) ltac:(lia)).
    destruct (Z.ltb_spec (d - 1) 256); apply run_elem_nth; change (length _dist_code) with 512%nat; lia. }
  rewrite run_bind, Ed. cbn beta iota. set (k2 := nth (Z.to_nat i2) _dist_code 0) in *.
  destruct (run_send_code dtree k2 w2 _ Hs2 Hw2) as (w3 & E3 & Hw3 & L3); [rewrite !width_app; cbn [width]; lia|].
  rewrite run_bind, E3. cbn beta iota.
  rewrite run_bind, (run_elem_nth extra_dbits k2 0) by (change (length extra_dbits) with 30%nat; lia). cbn beta iota.
  set (n2 := nth (Z.to_nat k2) extra_dbits 0) in *.
  edestruct (run_send_extra (d - 1 - nth (Z.to_nat k2) base_dist 0) n2 (base ← elem base_dist k2; send_bits pb (u32 (d - 1 - base)) n2) w3) as (w4 & E4 & Hw4 & L4); [|done|lia|exact Hw3|rewrite !width_app; cbn [width]; lia|].
  { intros Hn w'. rewrite run_bind, (run_elem_nth _ _ 0) by (change (length base_dist) with 30%nat; lia). cbn beta iota. f_equal.
    unfold extra_field in Hf2, Hb2. rewrite (proj2 (Z.eqb_neq n2 0)) in Hf2, Hb2 by done. destruct Hf2 as [_ Hf2]. cbn [fst snd] in *.
    apply wrap_small. split; [lia|]. apply Z.lt_le_trans with (2 ^ n2); [lia|]. apply Z.pow_le_mono_r; lia. }
  exists w4. split; [done|]. rewrite <-!app_assoc in Hw4. cbn [app] in Hw4. split; [done|congruence].
Qed.

Lemma run_compress_symbol k d c w fs : xs !! k = Some (d, c) → symbol_sendable (d, c) → wrote w fs →
  width fs + width (symbol_fields ltree dtree (d, c)) ≤ 8 * R →
  width fs ≤ 8 * (db + 2 * Z.of_nat k - (pb + p0)) → width fs ≤ 8 * (lb + Z.of_nat k - (pb + p0)) →
  ∃ w', compress_symbol pb db lb ltree dtree (Z.of_nat k) w = Ret tt w' ∧
    wrote w' (fs ++ symbol_fields ltree dtree (d, c)) ∧ w_last_eob_len w' = w_last_eob_len w.
Proof.
  intros Hk Hsend Hw HR Hd Hl. destruct (Hbuf k d c Hk) as ([Hdr Hc] & Hmd & Hmc). cbn [fst snd] in *.
  pose proof (wrote_frame w fs _ Hw Hd) as Fd. pose proof (wrote_frame w fs _ Hw Hl) as Fl.
  assert (load_le 2 (db + 2 * Z.of_nat k) (w_mem w) = Ret d (w_mem w)) as E1.
  { change 2%nat with (length (le_bytes 2 d)). rewrite (run_load_le _ _ (le_bytes 2 d)).
    - rewrite le_value_bytes, Z.mod_small by (cbn; lia). done.
    - apply (bytes_at_ext m0); [done|]. intros a Ha. apply Fd. lia. }
  unfold compress_symbol, wmem. rewrite run_bind. unfold zoom at 1. rewrite E1. cbn beta iota.
  replace (set_mem (w_mem w) w) with w by (by destruct w). rewrite run_bind. unfold zoom at 1.
  rewrite (run_load8 _ _ c) by (rewrite Fl; [done|lia]). cbn beta iota. replace (set_mem (w_mem w) w) with w by (by destruct w).
  destruct (Z.eqb_spec d 0) as [->|Hd0]; [|apply run_send_match; [lia|done..]].
  cbn [symbol_sendable symbol_fields width] in *. change (0 =? 0) with true in *. cbn beta iota in *. cbn [width] in HR. apply run_send_code; [done|done|lia].
Qed.

(** The output stays behind the symbols that are still to be read. *)
Definition behind (fs : list field) : Prop := ∀ k, (k < length xs)%nat →
  width fs + width (symbols_fields ltree dtree (take k xs)) ≤ 8 * (db + 2 * Z.of_nat k - (pb + p0)) ∧
  width fs + width (symbols_fields ltree dtree (take k xs)) ≤ 8 * (lb + Z.of_nat k - (pb + p0)).

(** The fields of a block: its symbols and its end. *)
Definition block_fields : list field := symbols_fields ltree dtree xs ++ [tree_field ltree END_BLOCK].

Lemma symbols_fields_S k x : xs !! k = Some x →
  symbols_fields ltree dtree (take (S k) xs) = symbols_fields ltree dtree (take k xs) ++ symbol_fields ltree dtree x.
Proof.
  intros Hx. unfold symbols_fields. rewrite (take_S_r _ _ _ Hx), fmap_app, join_app. cbn. by rewrite app_nil_r.
Qed.

Lemma symbol_fields_ok x : symbol_ok x → symbol_sendable x → Forall field_ok (symbol_fields ltree dtree x).
Proof.
  destruct x as [d c]. intros [Hd Hc] Hs. cbn [fst snd symbol_sendable symbol_fields] in *. destruct (Z.eqb_spec d 0) as [->|Hd0].
  { constructor; [apply Hs|done]. }
  destruct Hs as [Hs1 Hs2]. destruct (part_ok_spec _ _ _ _ _ _ (length_parts c Hc)) as (_ & Hf1 & _).
  destruct (part_ok_spec _ _ _ _ _ _ (dist_parts (d - 1) ltac:(lia))) as (_ & Hf2 & _).
  rewrite !Forall_cons. split; [apply Hs1|]. split; [done|]. split; [apply Hs2|]. split; [done|constructor].
Qed.

Lemma symbols_fields_ok ys : Forall symbol_ok ys → Forall symbol_sendable ys → Forall field_ok (symbols_fields ltree dtree ys).
Proof.
  intros Ho Hs. unfold symbols_fields. induction Ho as [|y ys Hy _ IH]; [constructor|]. cbn. inversion Hs; subst.
  apply Forall_app_2; [by apply symbol_fields_ok|by apply IH].
Qed.

Hypothesis Hsend : Forall symbol_sendable xs.
Hypothesis Hend : sendable ltree END_BLOCK.

Lemma symbols_ok : Forall symbol_ok xs.
Proof. apply Forall_lookup_2. intros k [d c] Hk. apply (Hbuf k d c Hk). Qed.

Lemma symbols_fields_le k : width (symbols_fields ltree dtree (take k xs)) ≤ width (symbols_fields ltree dtree xs).
Proof.
  rewrite <-(take_drop k xs) at 2. unfold symbols_fields. rewrite fmap_app, join_app, width_app.
  enough (0 ≤ width (mjoin (symbol_fields ltree dtree <$> drop k xs))) by lia. apply width_nonneg.
  apply symbols_fields_ok; apply Forall_drop; [apply symbols_ok|done].
Qed.

Lemma run_symbols fs w : wrote w fs → behind fs → width fs + width (symbols_fields ltree dtree xs) ≤ 8 * R →
  ∀ n k wk, (n + k = length xs)%nat → (0 < n)%nat →
    wrote wk (fs ++ symbols_fields ltree dtree (take k xs)) ∧ w_last_eob_len wk = w_last_eob_len w →
  ∃ w', loop n (λ lx,
     compress_symbol pb db lb ltree dtree lx;;
     let lx := lx + 1 in
     if lx <? Z.of_nat (length xs) then Next lx else Break tt) (Z.of_nat k) wk = Ret tt w' ∧
    wrote w' (fs ++ symbols_fields ltree dtree xs) ∧ w_last_eob_len w' = w_last_eob_len w.
Proof.
  intros Hw Hb HR. induction n as [|n IH]; intros k wk Hn Hpos [Hk Hl]; [lia|].
  destruct (lookup_lt_is_Some_2 xs k) as [[d c] Hx]; [lia|].
  destruct (run_compress_symbol k d c wk (fs ++ symbols_fields ltree dtree (take k xs)) Hx) as (w1 & E & Hw1 & Hl1); [by apply (Forall_lookup_1 _ _ _ _ Hsend Hx)|exact Hk|..].
  { pose proof (symbols_fields_le (S k)). rewrite (symbols_fields_S k _ Hx), width_app in *. lia. }
  1-2: destruct (Hb k); [lia|]; rewrite width_app; lia.
  rewrite <-app_assoc, <-(symbols_fields_S k _ Hx) in Hw1. rewrite run_loop, run_bind, E. cbn beta iota zeta.
  replace (Z.of_nat k + 1) with (Z.of_nat (S k)) by lia. destruct (decide (n = 0%nat)) as [->|Hn0].
  - rewrite (proj2 (Z.ltb_ge _ _)) by lia. cbn. exists w1. rewrite take_ge in Hw1 by lia. split; [done|]. split; [done|congruence].
  - rewrite (proj2 (Z.ltb_lt _ _)) by lia. rewrite run_ret. apply IH; [lia|lia|]. split; [done|congruence].
Qed.

(** [compress_block] writes the fields of the block and leaves the length of its end. *)
Lemma run_compress_block fs w : wrote w fs → behind fs → width fs + width block_fields ≤ 8 * R →
  ∃ w', compress_block pb db lb (Z.of_nat (length xs)) ltree dtree w = Ret tt w' ∧ wrote w' (fs ++ block_fields) ∧
    w_last_eob_len w' = snd (tree_field ltree END_BLOCK).
Proof.
  intros Hw Hb HR. unfold compress_block, block_fields in *. rewrite width_app in HR. cbn [width] in HR.
  pose proof (proj1 (proj1 (proj2 Hend))).
  assert (∃ w1, (if Z.of_nat (length xs) =? 0 then mret tt else
     loop (Z.to_nat (Z.of_nat (length xs))) (λ lx,
       compress_symbol pb db lb ltree dtree lx;;
       let lx := lx + 1 in
       if lx <? Z.of_nat (length xs) then Next lx else Break tt) 0) w = Ret tt w1 ∧
    wrote w1 (fs ++ symbols_fields ltree dtree xs)) as (w1 & E1 & Hw1).
  { destruct (Z.eqb_spec (Z.of_nat (length xs)) 0) as [Hz|Hz].
    - exists w. destruct xs; [|done]. by rewrite app_nil_r.
    - rewrite Nat2Z.id. destruct (run_symbols fs w Hw Hb ltac:(lia) (length xs) 0 w) as (w1 & E1 & Hw1 & _); [lia|lia|by rewrite app_nil_r|].
      by exists w1. }
  rewrite (run_bind_Ret _ _ _ _ _ E1).
  destruct (run_send_code ltree END_BLOCK w1 (fs ++ symbols_fields ltree dtree xs) Hend Hw1) as (w2 & E2 & Hw2 & _); [rewrite width_app; lia|].
  rewrite run_bind, E2. cbn beta iota. rewrite run_bind, (run_elem_nth _ _ (Ct 0 0)) by apply Hend. cbn beta iota.
  rewrite run_modify. eexists. split; [done|]. rewrite <-app_assoc in Hw2. split; [|done].
  destruct Hw2 as (l & Hfs & (Hm & Hl & Hpd) & Hrest). exists l. split; [done|]. split; [by split_and!|exact Hrest].
Qed.
End block.

(** ** Stored blocks *)

Section stored.
Context (pb : Z) (m0 : mem) (p0 R : Z).
Hypothesis Hroom : valid m0 (pb + p0) R.
Hypothesis Hp0 : 0 ≤ p0 ∧ p0 + R < 2 ^ 32.
Abbreviation wrote := (wrote pb m0 p0).

(** The bytes of [buf] that are copied are not where the output goes. *)
Definition source (buf : Z) (bs : list Z) : Prop :=
  bytes_at m0 buf bs ∧ disjoint_ranges buf (Z.of_nat (length bs)) (pb + p0) R.

Lemma source_load w fs buf b bs : wrote w fs → width fs ≤ 8 * R → source buf (b :: bs) → load8 buf (w_mem w) = Ret b (w_mem w).
Proof.
  intros (l & _ & (Hm & _) & Hv & _ & _ & Hw) HR [Hb Hd]. apply run_load8. rewrite Hm. apply bytes_at_cons in Hb as (_ & Hb & _).
  rewrite <-Hb. apply lookup_write_bytes_out. unfold disjoint_ranges in Hd. cbn [length] in Hd. lia.
Qed.

Lemma source_tail buf b bs : source buf (b :: bs) → is_byte b ∧ source (buf + 1) bs.
Proof.
  intros [Hb Hd]. apply bytes_at_cons in Hb as (Hb & _ & Hbs). split; [done|]. split; [done|]. unfold disjoint_ranges in *. cbn [length] in Hd. lia.
Qed.

Lemma run_stored_bytes : ∀ bs buf w fs, source buf bs → wrote w fs → w_bi_valid w = 0 → width fs + 8 * Z.of_nat (length bs) ≤ 8 * R →
  ∃ w', loop (S (length bs)) (λ '(buf, len),
      if len =? 0 then Break tt else
      c ← wmem (load8 buf);
      put_byte pb c;;
      Next (buf + 1, len - 1)) (buf, Z.of_nat (length bs)) w = Ret tt w' ∧
    wrote w' (fs ++ byte_fields bs) ∧ w_bi_valid w' = 0 ∧ w_last_eob_len w' = w_last_eob_len w.
Proof.
  induction bs as [|b bs IH]; intros buf w fs Hs Hw Hv HR; rewrite run_loop.
  - exists w. by rewrite app_nil_r.
  - cbn [length] in *. rewrite (proj2 (Z.eqb_neq _ 0)) by lia. rewrite run_bind. unfold wmem, zoom.
    rewrite (source_load w fs buf b bs Hw ltac:(lia) Hs). cbn beta iota. replace (set_mem (w_mem w) w) with w by (by destruct w).
    destruct (source_tail _ _ _ Hs) as [Hb Hs'].
    destruct (run_put_byte_wrote pb m0 p0 R Hroom Hp0 w fs b Hw Hv Hb ltac:(lia)) as (w1 & E1 & Hw1 & Hv1 & L1). rewrite run_bind, E1. cbn beta iota. rewrite run_ret.
    replace (Z.of_nat (S (length bs)) - 1) with (Z.of_nat (length bs)) by lia.
    destruct (IH (buf + 1) w1 _ Hs' Hw1 Hv1) as (w2 & E2 & Hw2 & Hv2 & L2); [rewrite width_app; cbn [width snd]; lia|].
    exists w2. split; [done|]. rewrite <-app_assoc in Hw2. split; [done|]. split; [done|congruence].
Qed.

(** The fields of a stored block that begins after [n] bits. *)
Definition stored_fields (eof n : Z) (bs : list Z) : list field :=
  [(eof, 3); (0, pad (n + 3)); (Z.of_nat (length bs), 16); (2 ^ 16 - 1 - Z.of_nat (length bs), 16)] ++ byte_fields bs.

Lemma run_stored_block buf bs eof w fs : source buf bs → Z.of_nat (length bs) < 2 ^ 16 → 0 ≤ eof ≤ 1 → wrote w fs →
  width fs + width (stored_fields eof (width fs) bs) ≤ 8 * R →
  ∃ w', _tr_stored_block pb buf (Z.of_nat (length bs)) eof w = Ret tt w' ∧ wrote w' (fs ++ stored_fields eof (width fs) bs) ∧
    w_bi_valid w' = 0 ∧ w_last_eob_len w' = 8.
Proof.
  intros Hs Hlen He Hw HR. unfold stored_fields in *. rewrite width_app, byte_fields_width in HR. cbn [width snd] in HR.
  assert (0 ≤ pad (width fs + 3) < 8) by (apply Z.mod_pos_bound; lia).
  unfold _tr_stored_block. change (Z.shiftl STORED_BLOCK 1 + eof) with (0 + eof). rewrite Z.add_0_l.
  destruct (run_send_bits pb m0 p0 R Hroom Hp0 w fs eof 3 Hw ltac:(split; cbn; lia) ltac:(lia) ltac:(lia)) as (w1 & E1 & Hw1 & L1). rewrite run_bind, E1. cbn beta iota.
  unfold copy_block. rewrite (wrap_small 32) by lia.
  destruct (run_bi_windup pb m0 p0 R Hroom Hp0 w1 _ Hw1) as (w2 & E2 & Hw2 & Hv2 & L2); [rewrite width_app; cbn [width snd]; rewrite Z.add_0_r; lia|].
  rewrite run_bind, E2. cbn beta iota. rewrite run_bind, run_modify. cbn beta iota. rewrite width_app in Hw2. cbn [width snd] in Hw2. rewrite Z.add_0_r in Hw2.
  set (w3 := set_last_eob_len 8 w2). assert (wrote w3 ((fs ++ [(eof, 3)]) ++ [(0, pad (width fs + 3))])) as Hw3.
  { destruct Hw2 as (l & Hfs & (Hm & Hl & Hp) & Hrest). exists l. split; [done|]. split; [by split_and!|exact Hrest]. }
  rewrite (wrap_small 16 (Z.of_nat _)) by lia.
  destruct (run_put_short_wrote pb m0 p0 R Hroom Hp0 w3 _ (Z.of_nat (length bs)) Hw3 Hv2 ltac:(lia)) as (w4 & E4 & Hw4 & Hv4 & L4); [rewrite !width_app; cbn [width snd]; lia|].
  assert (u16 (- Z.of_nat (length bs) - 1) = 2 ^ 16 - 1 - Z.of_nat (length bs)) as ->.
  { unfold wrap. rewrite <-(Z_mod_plus_full _ 1), Z.mod_small; lia. }
  destruct (run_put_short_wrote pb m0 p0 R Hroom Hp0 w4 _ (2 ^ 16 - 1 - Z.of_nat (length bs)) Hw4 Hv4 ltac:(lia)) as (w5 & E5 & Hw5 & Hv5 & L5); [rewrite !width_app; cbn [width snd]; lia|].
  rewrite run_bind, run_bind, E4. cbn beta iota. rewrite E5. cbn beta iota. rewrite Nat2Z.id.
  destruct (run_stored_bytes bs buf w5 _ Hs Hw5 Hv5) as (w6 & E6 & Hw6 & Hv6 & L6); [rewrite !width_app; cbn [width snd]; lia|].
  exists w6. split; [done|]. rewrite <-!app_assoc in Hw6. cbn [app] in Hw6. split; [done|]. split; [done|]. rewrite L6, L5, L4. done.
Qed.
End stored.

(** ** When the output overtakes the symbols *)

(** The memory as [deflateInit2_] lays it out for [lit_bufsize] 128: [pending_buf], with
    [d_buf] at its second quarter and [l_buf] at its last. *)
Definition overlay (base : Z) (xs : list buffered_symbol) : mem :=
  write_bytes (write_bytes (write_bytes ∅ base (replicate 512 0)) (base + 128) (mjoin ((λ x, le_bytes 2 (fst x)) <$> xs)))
    (base + 384) (snd <$> xs).

(** A buffer full of matches of length 203 and distance 32767: with the fixed trees each
    takes 31 bits, more than the 16 of its distance in [d_buf].  The block fits the pending
    output, all of its symbols are valid, yet its code words reach distances that are still
    to be read: [compress_block] reads code words as distances, beyond its tables. *)
Lemma compress_block_overtakes :
  let xs := replicate 127 (32767, 200) in
  Forall symbol_ok xs ∧ Forall (symbol_sendable static_ltree static_dtree) xs ∧
  3 + width (block_fields static_ltree static_dtree xs) ≤ 8 * 512 ∧
  (send_bits 1000 (Z.shiftl STATIC_TREES 1 + 1) 3;; compress_block 1000 1128 1384 127 static_ltree static_dtree)
    (Writer (overlay 1000 xs) 0 0 0 8) = UB.
Proof.
  cbv zeta. split; [apply Forall_replicate; done|]. split; [|split; [vm_compute; done|vm_compute; reflexivity]].
  apply Forall_replicate. split; (split; [vm_compute; done|]); split; vm_compute; done.
Qed.
