(* ===== verification/Inflate.v ===== *)
(** * The decompressor: [zlib/inflate.c], [zlib/inflate.h], [zlib/inffast.c]

    [inflate] is a state machine that can stop anywhere for want of input or of space for
    output and go on in the next call.  Its cases are definitions of their own; [inflate]
    runs them until one leaves.  [inflate_fast] decodes while there is plenty of both.

    The input, the output and the window are in the byte memory.  The decoding tables are
    in the array [codes] of the state or are the fixed ones, and a pointer to one is a
    [table].  The structure [z_stream] of the caller, its [internal_state] and the local
    variables of [inflate] are records.  [zalloc] is a parameter: an allocator the caller
    chooses.  A case of the machine that falls through to the next one sets the mode to
    that one and goes round the loop. *)

From stdpp Require Import base tactics numbers list gmap.
From S2P Require Import Prelude Memory Words MemFns Adler Crc Inftrees InftreesMain InfFixed.

Open Scope Z_scope.

Definition Z_OK : Z := 0.
Definition Z_STREAM_END : Z := 1.
Definition Z_NEED_DICT : Z := 2.
Definition Z_STREAM_ERROR : Z := -2.
Definition Z_DATA_ERROR : Z := -3.
Definition Z_MEM_ERROR : Z := -4.
Definition Z_BUF_ERROR : Z := -5.
Definition Z_FINISH : Z := 4.
Definition Z_BLOCK : Z := 5.
Definition Z_DEFLATED : Z := 8.

Inductive inflate_mode :=
  | HEAD | FLAGS | TIME | OS | EXLEN | EXTRA | NAME | COMMENT | HCRC | DICTID | DICT
  | TYPE | TYPEDO | STORED | COPY | TABLE | LENLENS | CODELENS
  | LEN | LENEXT | DIST | DISTEXT | MATCH | LIT
  | CHECK | LENGTH | DONE | BAD | MEM | SYNC.

#[export] Instance inflate_mode_eq_dec : EqDecision inflate_mode.
Proof. solve_decision. Defined.

(** [state->mode < CHECK] *)
Definition before_CHECK (m : inflate_mode) : bool :=
  match m with CHECK | LENGTH | DONE | BAD | MEM | SYNC => false | _ => true end.

(** The texts [strm->msg] points to. *)
Inductive message :=
  | incorrect_header_check | unknown_compression_method | invalid_window_size
  | unknown_header_flags_set | header_crc_mismatch | invalid_block_type
  | invalid_stored_block_lengths | too_many_length_or_distance_symbols
  | invalid_code_lengths_set | invalid_bit_length_repeat | invalid_literal_lengths_set
  | invalid_distances_set | invalid_literal_length_code | invalid_distance_code
  | invalid_distance_too_far_back | incorrect_data_check | incorrect_length_check
  | stream_error | buffer_error.

(** What the caller wants to know of a gzip header; [g_extra], [g_name] and [g_comment]
    point to space for [g_extra_max], [g_name_max] and [g_comm_max] bytes. *)
Record gz_header := GzHeader {
  g_text : Z; g_time : Z; g_xflags : Z; g_os : Z; g_extra : Z; g_extra_len : Z; g_extra_max : Z;
  g_name : Z; g_name_max : Z; g_comment : Z; g_comm_max : Z; g_hcrc : Z; g_done : Z }.

(** A pointer to a decoding table: an offset in [codes], or the fixed tables. *)
Inductive table := InCodes (off : Z) | LenFix | DistFix.

(** The state kept between calls. *)
Record inflate_state := IState {
  i_mode : inflate_mode; i_last : Z; i_wrap : Z; i_havedict : Z; i_flags : Z; i_dmax : Z;
  i_check : Z; i_total : Z; i_head : option gz_header; i_wbits : Z; i_wsize : Z; i_whave : Z;
  i_write : Z; i_window : Z; i_hold : Z; i_bits : Z; i_length : Z; i_offset : Z; i_extra : Z;
  i_lencode : table; i_distcode : table; i_lenbits : Z; i_distbits : Z; i_ncode : Z; i_nlen : Z;
  i_ndist : Z; i_have : Z; i_next : Z; i_lens : list Z; i_work : list Z; i_codes : gmap Z code }.

(** The stream. *)
Record z_stream := ZStream {
  s_next_in : Z; s_avail_in : Z; s_total_in : Z; s_next_out : Z; s_avail_out : Z; s_total_out : Z;
  s_msg : option message; s_adler : Z; s_data_type : Z }.

(** The local variables of [inflate]: input, output, bits, and what there was of them. *)
Record regs := Regs {
  r_next : Z; r_have : Z; r_put : Z; r_left : Z; r_hold : Z; r_bits : Z; r_in : Z; r_out : Z }.

Record inflating := Inflating {
  f_mem : mem; f_strm : z_stream; f_state : inflate_state; f_regs : regs }.

Definition set_g_text (v : Z) (h : gz_header) : gz_header :=
  GzHeader v (g_time h) (g_xflags h) (g_os h) (g_extra h) (g_extra_len h) (g_extra_max h) (g_name h) (g_name_max h) (g_comment h) (g_comm_max h) (g_hcrc h) (g_done h).
Definition set_g_time (v : Z) (h : gz_header) : gz_header :=
  GzHeader (g_text h) v (g_xflags h) (g_os h) (g_extra h) (g_extra_len h) (g_extra_max h) (g_name h) (g_name_max h) (g_comment h) (g_comm_max h) (g_hcrc h) (g_done h).
Definition set_g_xflags (v : Z) (h : gz_header) : gz_header :=
  GzHeader (g_text h) (g_time h) v (g_os h) (g_extra h) (g_extra_len h) (g_extra_max h) (g_name h) (g_name_max h) (g_comment h) (g_comm_max h) (g_hcrc h) (g_done h).
Definition set_g_os (v : Z) (h : gz_header) : gz_header :=
  GzHeader (g_text h) (g_time h) (g_xflags h) v (g_extra h) (g_extra_len h) (g_extra_max h) (g_name h) (g_name_max h) (g_comment h) (g_comm_max h) (g_hcrc h) (g_done h).
Definition set_g_extra (v : Z) (h : gz_header) : gz_header :=
  GzHeader (g_text h) (g_time h) (g_xflags h) (g_os h) v (g_extra_len h) (g_extra_max h) (g_name h) (g_name_max h) (g_comment h) (g_comm_max h) (g_hcrc h) (g_done h).
Definition set_g_extra_len (v : Z) (h : gz_header) : gz_header :=
  GzHeader (g_text h) (g_time h) (g_xflags h) (g_os h) (g_extra h) v (g_extra_max h) (g_name h) (g_name_max h) (g_comment h) (g_comm_max h) (g_hcrc h) (g_done h).
Definition set_g_extra_max (v : Z) (h : gz_header) : gz_header :=
  GzHeader (g_text h) (g_time h) (g_xflags h) (g_os h) (g_extra h) (g_extra_len h) v (g_name h) (g_name_max h) (g_comment h) (g_comm_max h) (g_hcrc h) (g_done h).
Definition set_g_name (v : Z) (h : gz_header) : gz_header :=
  GzHeader (g_text h) (g_time h) (g_xflags h) (g_os h) (g_extra h) (g_extra_len h) (g_extra_max h) v (g_name_max h) (g_comment h) (g_comm_max h) (g_hcrc h) (g_done h).
Definition set_g_name_max (v : Z) (h : gz_header) : gz_header :=
  GzHeader (g_text h) (g_time h) (g_xflags h) (g_os h) (g_extra h) (g_extra_len h) (g_extra_max h) (g_name h) v (g_comment h) (g_comm_max h) (g_hcrc h) (g_done h).
Definition set_g_comment (v : Z) (h : gz_header) : gz_header :=
  GzHeader (g_text h) (g_time h) (g_xflags h) (g_os h) (g_extra h) (g_extra_len h) (g_extra_max h) (g_name h) (g_name_max h) v (g_comm_max h) (g_hcrc h) (g_done h).
Definition set_g_comm_max (v : Z) (h : gz_header) : gz_header :=
  GzHeader (g_text h) (g_time h) (g_xflags h) (g_os h) (g_extra h) (g_extra_len h) (g_extra_max h) (g_name h) (g_name_max h) (g_comment h) v (g_hcrc h) (g_done h).
Definition set_g_hcrc (v : Z) (h : gz_header) : gz_header :=
  GzHeader (g_text h) (g_time h) (g_xflags h) (g_os h) (g_extra h) (g_extra_len h) (g_extra_max h) (g_name h) (g_name_max h) (g_comment h) (g_comm_max h) v (g_done h).
Definition set_g_done (v : Z) (h : gz_header) : gz_header :=
  GzHeader (g_text h) (g_time h) (g_xflags h) (g_os h) (g_extra h) (g_extra_len h) (g_extra_max h) (g_name h) (g_name_max h) (g_comment h) (g_comm_max h) (g_hcrc h) v.

Definition set_i_mode (v : inflate_mode) (s : inflate_state) : inflate_state :=
  IState v (i_last s) (i_wrap s) (i_havedict s) (i_flags s) (i_dmax s) (i_check s) (i_total s) (i_head s) (i_wbits s) (i_wsize s) (i_whave s) (i_write s) (i_window s) (i_hold s) (i_bits s) (i_length s) (i_offset s) (i_extra s) (i_lencode s) (i_distcode s) (i_lenbits s) (i_distbits s) (i_ncode s) (i_nlen s) (i_ndist s) (i_have s) (i_next s) (i_lens s) (i_work s) (i_codes s).
Definition set_i_last (v : Z) (s : inflate_state) : inflate_state :=
  IState (i_mode s) v (i_wrap s) (i_havedict s) (i_flags s) (i_dmax s) (i_check s) (i_total s) (i_head s) (i_wbits s) (i_wsize s) (i_whave s) (i_write s) (i_window s) (i_hold s) (i_bits s) (i_length s) (i_offset s) (i_extra s) (i_lencode s) (i_distcode s) (i_lenbits s) (i_distbits s) (i_ncode s) (i_nlen s) (i_ndist s) (i_have s) (i_next s) (i_lens s) (i_work s) (i_codes s).
Definition set_i_wrap (v : Z) (s : inflate_state) : inflate_state :=
  IState (i_mode s) (i_last s) v (i_havedict s) (i_flags s) (i_dmax s) (i_check s) (i_total s) (i_head s) (i_wbits s) (i_wsize s) (i_whave s) (i_write s) (i_window s) (i_hold s) (i_bits s) (i_length s) (i_offset s) (i_extra s) (i_lencode s) (i_distcode s) (i_lenbits s) (i_distbits s) (i_ncode s) (i_nlen s) (i_ndist s) (i_have s) (i_next s) (i_lens s) (i_work s) (i_codes s).
Definition set_i_havedict (v : Z) (s : inflate_state) : inflate_state :=
  IState (i_mode s) (i_last s) (i_wrap s) v (i_flags s) (i_dmax s) (i_check s) (i_total s) (i_head s) (i_wbits s) (i_wsize s) (i_whave s) (i_write s) (i_window s) (i_hold s) (i_bits s) (i_length s) (i_offset s) (i_extra s) (i_lencode s) (i_distcode s) (i_lenbits s) (i_distbits s) (i_ncode s) (i_nlen s) (i_ndist s) (i_have s) (i_next s) (i_lens s) (i_work s) (i_codes s).
Definition set_i_flags (v : Z) (s : inflate_state) : inflate_state :=
  IState (i_mode s) (i_last s) (i_wrap s) (i_havedict s) v (i_dmax s) (i_check s) (i_total s) (i_head s) (i_wbits s) (i_wsize s) (i_whave s) (i_write s) (i_window s) (i_hold s) (i_bits s) (i_length s) (i_offset s) (i_extra s) (i_lencode s) (i_distcode s) (i_lenbits s) (i_distbits s) (i_ncode s) (i_nlen s) (i_ndist s) (i_have s) (i_next s) (i_lens s) (i_work s) (i_codes s).
Definition set_i_dmax (v : Z) (s : inflate_state) : inflate_state :=
  IState (i_mode s) (i_last s) (i_wrap s) (i_havedict s) (i_flags s) v (i_check s) (i_total s) (i_head s) (i_wbits s) (i_wsize s) (i_whave s) (i_write s) (i_window s) (i_hold s) (i_bits s) (i_length s) (i_offset s) (i_extra s) (i_lencode s) (i_distcode s) (i_lenbits s) (i_distbits s) (i_ncode s) (i_nlen s) (i_ndist s) (i_have s) (i_next s) (i_lens s) (i_work s) (i_codes s).
Definition set_i_check (v : Z) (s : inflate_state) : inflate_state :=
  IState (i_mode s) (i_last s) (i_wrap s) (i_havedict s) (i_flags s) (i_dmax s) v (i_total s) (i_head s) (i_wbits s) (i_wsize s) (i_whave s) (i_write s) (i_window s) (i_hold s) (i_bits s) (i_length s) (i_offset s) (i_extra s) (i_lencode s) (i_distcode s) (i_lenbits s) (i_distbits s) (i_ncode s) (i_nlen s) (i_ndist s) (i_have s) (i_next s) (i_lens s) (i_work s) (i_codes s).
Definition set_i_total (v : Z) (s : inflate_state) : inflate_state :=
  IState (i_mode s) (i_last s) (i_wrap s) (i_havedict s) (i_flags s) (i_dmax s) (i_check s) v (i_head s) (i_wbits s) (i_wsize s) (i_whave s) (i_write s) (i_window s) (i_hold s) (i_bits s) (i_length s) (i_offset s) (i_extra s) (i_lencode s) (i_distcode s) (i_lenbits s) (i_distbits s) (i_ncode s) (i_nlen s) (i_ndist s) (i_have s) (i_next s) (i_lens s) (i_work s) (i_codes s).
Definition set_i_head (v : option gz_header) (s : inflate_state) : inflate_state :=
  IState (i_mode s) (i_last s) (i_wrap s) (i_havedict s) (i_flags s) (i_dmax s) (i_check s) (i_total s) v (i_wbits s) (i_wsize s) (i_whave s) (i_write s) (i_window s) (i_hold s) (i_bits s) (i_length s) (i_offset s) (i_extra s) (i_lencode s) (i_distcode s) (i_lenbits s) (i_distbits s) (i_ncode s) (i_nlen s) (i_ndist s) (i_have s) (i_next s) (i_lens s) (i_work s) (i_codes s).
Definition set_i_wbits (v : Z) (s : inflate_state) : inflate_state :=
  IState (i_mode s) (i_last s) (i_wrap s) (i_havedict s) (i_flags s) (i_dmax s) (i_check s) (i_total s) (i_head s) v (i_wsize s) (i_whave s) (i_write s) (i_window s) (i_hold s) (i_bits s) (i_length s) (i_offset s) (i_extra s) (i_lencode s) (i_distcode s) (i_lenbits s) (i_distbits s) (i_ncode s) (i_nlen s) (i_ndist s) (i_have s) (i_next s) (i_lens s) (i_work s) (i_codes s).
Definition set_i_wsize (v : Z) (s : inflate_state) : inflate_state :=
  IState (i_mode s) (i_last s) (i_wrap s) (i_havedict s) (i_flags s) (i_dmax s) (i_check s) (i_total s) (i_head s) (i_wbits s) v (i_whave s) (i_write s) (i_window s) (i_hold s) (i_bits s) (i_length s) (i_offset s) (i_extra s) (i_lencode s) (i_distcode s) (i_lenbits s) (i_distbits s) (i_ncode s) (i_nlen s) (i_ndist s) (i_have s) (i_next s) (i_lens s) (i_work s) (i_codes s).
Definition set_i_whave (v : Z) (s : inflate_state) : inflate_state :=
  IState (i_mode s) (i_last s) (i_wrap s) (i_havedict s) (i_flags s) (i_dmax s) (i_check s) (i_total s) (i_head s) (i_wbits s) (i_wsize s) v (i_write s) (i_window s) (i_hold s) (i_bits s) (i_length s) (i_offset s) (i_extra s) (i_lencode s) (i_distcode s) (i_lenbits s) (i_distbits s) (i_ncode s) (i_nlen s) (i_ndist s) (i_have s) (i_next s) (i_lens s) (i_work s) (i_codes s).
Definition set_i_write (v : Z) (s : inflate_state) : inflate_state :=
  IState (i_mode s) (i_last s) (i_wrap s) (i_havedict s) (i_flags s) (i_dmax s) (i_check s) (i_total s) (i_head s) (i_wbits s) (i_wsize s) (i_whave s) v (i_window s) (i_hold s) (i_bits s) (i_length s) (i_offset s) (i_extra s) (i_lencode s) (i_distcode s) (i_lenbits s) (i_distbits s) (i_ncode s) (i_nlen s) (i_ndist s) (i_have s) (i_next s) (i_lens s) (i_work s) (i_codes s).
Definition set_i_window (v : Z) (s : inflate_state) : inflate_state :=
  IState (i_mode s) (i_last s) (i_wrap s) (i_havedict s) (i_flags s) (i_dmax s) (i_check s) (i_total s) (i_head s) (i_wbits s) (i_wsize s) (i_whave s) (i_write s) v (i_hold s) (i_bits s) (i_length s) (i_offset s) (i_extra s) (i_lencode s) (i_distcode s) (i_lenbits s) (i_distbits s) (i_ncode s) (i_nlen s) (i_ndist s) (i_have s) (i_next s) (i_lens s) (i_work s) (i_codes s).
Definition set_i_hold (v : Z) (s : inflate_state) : inflate_state :=
  IState (i_mode s) (i_last s) (i_wrap s) (i_havedict s) (i_flags s) (i_dmax s) (i_check s) (i_total s) (i_head s) (i_wbits s) (i_wsize s) (i_whave s) (i_write s) (i_window s) v (i_bits s) (i_length s) (i_offset s) (i_extra s) (i_lencode s) (i_distcode s) (i_lenbits s) (i_distbits s) (i_ncode s) (i_nlen s) (i_ndist s) (i_have s) (i_next s) (i_lens s) (i_work s) (i_codes s).
Definition set_i_bits (v : Z) (s : inflate_state) : inflate_state :=
  IState (i_mode s) (i_last s) (i_wrap s) (i_havedict s) (i_flags s) (i_dmax s) (i_check s) (i_total s) (i_head s) (i_wbits s) (i_wsize s) (i_whave s) (i_write s) (i_window s) (i_hold s) v (i_length s) (i_offset s) (i_extra s) (i_lencode s) (i_distcode s) (i_lenbits s) (i_distbits s) (i_ncode s) (i_nlen s) (i_ndist s) (i_have s) (i_next s) (i_lens s) (i_work s) (i_codes s).
Definition set_i_length (v : Z) (s : inflate_state) : inflate_state :=
  IState (i_mode s) (i_last s) (i_wrap s) (i_havedict s) (i_flags s) (i_dmax s) (i_check s) (i_total s) (i_head s) (i_wbits s) (i_wsize s) (i_whave s) (i_write s) (i_window s) (i_hold s) (i_bits s) v (i_offset s) (i_extra s) (i_lencode s) (i_distcode s) (i_lenbits s) (i_distbits s) (i_ncode s) (i_nlen s) (i_ndist s) (i_have s) (i_next s) (i_lens s) (i_work s) (i_codes s).
Definition set_i_offset (v : Z) (s : inflate_state) : inflate_state :=
  IState (i_mode s) (i_last s) (i_wrap s) (i_havedict s) (i_flags s) (i_dmax s) (i_check s) (i_total s) (i_head s) (i_wbits s) (i_wsize s) (i_whave s) (i_write s) (i_window s) (i_hold s) (i_bits s) (i_length s) v (i_extra s) (i_lencode s) (i_distcode s) (i_lenbits s) (i_distbits s) (i_ncode s) (i_nlen s) (i_ndist s) (i_have s) (i_next s) (i_lens s) (i_work s) (i_codes s).
Definition set_i_extra (v : Z) (s : inflate_state) : inflate_state :=
  IState (i_mode s) (i_last s) (i_wrap s) (i_havedict s) (i_flags s) (i_dmax s) (i_check s) (i_total s) (i_head s) (i_wbits s) (i_wsize s) (i_whave s) (i_write s) (i_window s) (i_hold s) (i_bits s) (i_length s) (i_offset s) v (i_lencode s) (i_distcode s) (i_lenbits s) (i_distbits s) (i_ncode s) (i_nlen s) (i_ndist s) (i_have s) (i_next s) (i_lens s) (i_work s) (i_codes s).
Definition set_i_lencode (v : table) (s : inflate_state) : inflate_state :=
  IState (i_mode s) (i_last s) (i_wrap s) (i_havedict s) (i_flags s) (i_dmax s) (i_check s) (i_total s) (i_head s) (i_wbits s) (i_wsize s) (i_whave s) (i_write s) (i_window s) (i_hold s) (i_bits s) (i_length s) (i_offset s) (i_extra s) v (i_distcode s) (i_lenbits s) (i_distbits s) (i_ncode s) (i_nlen s) (i_ndist s) (i_have s) (i_next s) (i_lens s) (i_work s) (i_codes s).
Definition set_i_distcode (v : table) (s : inflate_state) : inflate_state :=
  IState (i_mode s) (i_last s) (i_wrap s) (i_havedict s) (i_flags s) (i_dmax s) (i_check s) (i_total s) (i_head s) (i_wbits s) (i_wsize s) (i_whave s) (i_write s) (i_window s) (i_hold s) (i_bits s) (i_length s) (i_offset s) (i_extra s) (i_lencode s) v (i_lenbits s) (i_distbits s) (i_ncode s) (i_nlen s) (i_ndist s) (i_have s) (i_next s) (i_lens s) (i_work s) (i_codes s).
Definition set_i_lenbits (v : Z) (s : inflate_state) : inflate_state :=
  IState (i_mode s) (i_last s) (i_wrap s) (i_havedict s) (i_flags s) (i_dmax s) (i_check s) (i_total s) (i_head s) (i_wbits s) (i_wsize s) (i_whave s) (i_write s) (i_window s) (i_hold s) (i_bits s) (i_length s) (i_offset s) (i_extra s) (i_lencode s) (i_distcode s) v (i_distbits s) (i_ncode s) (i_nlen s) (i_ndist s) (i_have s) (i_next s) (i_lens s) (i_work s) (i_codes s).
Definition set_i_distbits (v : Z) (s : inflate_state) : inflate_state :=
  IState (i_mode s) (i_last s) (i_wrap s) (i_havedict s) (i_flags s) (i_dmax s) (i_check s) (i_total s) (i_head s) (i_wbits s) (i_wsize s) (i_whave s) (i_write s) (i_window s) (i_hold s) (i_bits s) (i_length s) (i_offset s) (i_extra s) (i_lencode s) (i_distcode s) (i_lenbits s) v (i_ncode s) (i_nlen s) (i_ndist s) (i_have s) (i_next s) (i_lens s) (i_work s) (i_codes s).
Definition set_i_ncode (v : Z) (s : inflate_state) : inflate_state :=
  IState (i_mode s) (i_last s) (i_wrap s) (i_havedict s) (i_flags s) (i_dmax s) (i_check s) (i_total s) (i_head s) (i_wbits s) (i_wsize s) (i_whave s) (i_write s) (i_window s) (i_hold s) (i_bits s) (i_length s) (i_offset s) (i_extra s) (i_lencode s) (i_distcode s) (i_lenbits s) (i_distbits s) v (i_nlen s) (i_ndist s) (i_have s) (i_next s) (i_lens s) (i_work s) (i_codes s).
Definition set_i_nlen (v : Z) (s : inflate_state) : inflate_state :=
  IState (i_mode s) (i_last s) (i_wrap s) (i_havedict s) (i_flags s) (i_dmax s) (i_check s) (i_total s) (i_head s) (i_wbits s) (i_wsize s) (i_whave s) (i_write s) (i_window s) (i_hold s) (i_bits s) (i_length s) (i_offset s) (i_extra s) (i_lencode s) (i_distcode s) (i_lenbits s) (i_distbits s) (i_ncode s) v (i_ndist s) (i_have s) (i_next s) (i_lens s) (i_work s) (i_codes s).
Definition set_i_ndist (v : Z) (s : inflate_state) : inflate_state :=
  IState (i_mode s) (i_last s) (i_wrap s) (i_havedict s) (i_flags s) (i_dmax s) (i_check s) (i_total s) (i_head s) (i_wbits s) (i_wsize s) (i_whave s) (i_write s) (i_window s) (i_hold s) (i_bits s) (i_length s) (i_offset s) (i_extra s) (i_lencode s) (i_distcode s) (i_lenbits s) (i_distbits s) (i_ncode s) (i_nlen s) v (i_have s) (i_next s) (i_lens s) (i_work s) (i_codes s).
Definition set_i_have (v : Z) (s : inflate_state) : inflate_state :=
  IState (i_mode s) (i_last s) (i_wrap s) (i_havedict s) (i_flags s) (i_dmax s) (i_check s) (i_total s) (i_head s) (i_wbits s) (i_wsize s) (i_whave s) (i_write s) (i_window s) (i_hold s) (i_bits s) (i_length s) (i_offset s) (i_extra s) (i_lencode s) (i_distcode s) (i_lenbits s) (i_distbits s) (i_ncode s) (i_nlen s) (i_ndist s) v (i_next s) (i_lens s) (i_work s) (i_codes s).
Definition set_i_next (v : Z) (s : inflate_state) : inflate_state :=
  IState (i_mode s) (i_last s) (i_wrap s) (i_havedict s) (i_flags s) (i_dmax s) (i_check s) (i_total s) (i_head s) (i_wbits s) (i_wsize s) (i_whave s) (i_write s) (i_window s) (i_hold s) (i_bits s) (i_length s) (i_offset s) (i_extra s) (i_lencode s) (i_distcode s) (i_lenbits s) (i_distbits s) (i_ncode s) (i_nlen s) (i_ndist s) (i_have s) v (i_lens s) (i_work s) (i_codes s).
Definition set_i_lens (v : list Z) (s : inflate_state) : inflate_state :=
  IState (i_mode s) (i_last s) (i_wrap s) (i_havedict s) (i_flags s) (i_dmax s) (i_check s) (i_total s) (i_head s) (i_wbits s) (i_wsize s) (i_whave s) (i_write s) (i_window s) (i_hold s) (i_bits s) (i_length s) (i_offset s) (i_extra s) (i_lencode s) (i_distcode s) (i_lenbits s) (i_distbits s) (i_ncode s) (i_nlen s) (i_ndist s) (i_have s) (i_next s) v (i_work s) (i_codes s).
Definition set_i_work (v : list Z) (s : inflate_state) : inflate_state :=
  IState (i_mode s) (i_last s) (i_wrap s) (i_havedict s) (i_flags s) (i_dmax s) (i_check s) (i_total s) (i_head s) (i_wbits s) (i_wsize s) (i_whave s) (i_write s) (i_window s) (i_hold s) (i_bits s) (i_length s) (i_offset s) (i_extra s) (i_lencode s) (i_distcode s) (i_lenbits s) (i_distbits s) (i_ncode s) (i_nlen s) (i_ndist s) (i_have s) (i_next s) (i_lens s) v (i_codes s).
Definition set_i_codes (v : gmap Z code) (s : inflate_state) : inflate_state :=
  IState (i_mode s) (i_last s) (i_wrap s) (i_havedict s) (i_flags s) (i_dmax s) (i_check s) (i_total s) (i_head s) (i_wbits s) (i_wsize s) (i_whave s) (i_write s) (i_window s) (i_hold s) (i_bits s) (i_length s) (i_offset s) (i_extra s) (i_lencode s) (i_distcode s) (i_lenbits s) (i_distbits s) (i_ncode s) (i_nlen s) (i_ndist s) (i_have s) (i_next s) (i_lens s) (i_work s) v.

Definition set_s_next_in (v : Z) (z : z_stream) : z_stream :=
  ZStream v (s_avail_in z) (s_total_in z) (s_next_out z) (s_avail_out z) (s_total_out z) (s_msg z) (s_adler z) (s_data_type z).
Definition set_s_avail_in (v : Z) (z : z_stream) : z_stream :=
  ZStream (s_next_in z) v (s_total_in z) (s_next_out z) (s_avail_out z) (s_total_out z) (s_msg z) (s_adler z) (s_data_type z).
Definition set_s_total_in (v : Z) (z : z_stream) : z_stream :=
  ZStream (s_next_in z) (s_avail_in z) v (s_next_out z) (s_avail_out z) (s_total_out z) (s_msg z) (s_adler z) (s_data_type z).
Definition set_s_next_out (v : Z) (z : z_stream) : z_stream :=
  ZStream (s_next_in z) (s_avail_in z) (s_total_in z) v (s_avail_out z) (s_total_out z) (s_msg z) (s_adler z) (s_data_type z).
Definition set_s_avail_out (v : Z) (z : z_stream) : z_stream :=
  ZStream (s_next_in z) (s_avail_in z) (s_total_in z) (s_next_out z) v (s_total_out z) (s_msg z) (s_adler z) (s_data_type z).
Definition set_s_total_out (v : Z) (z : z_stream) : z_stream :=
  ZStream (s_next_in z) (s_avail_in z) (s_total_in z) (s_next_out z) (s_avail_out z) v (s_msg z) (s_adler z) (s_data_type z).
Definition set_s_msg (v : option message) (z : z_stream) : z_stream :=
  ZStream (s_next_in z) (s_avail_in z) (s_total_in z) (s_next_out z) (s_avail_out z) (s_total_out z) v (s_adler z) (s_data_type z).
Definition set_s_adler (v : Z) (z : z_stream) : z_stream :=
  ZStream (s_next_in z) (s_avail_in z) (s_total_in z) (s_next_out z) (s_avail_out z) (s_total_out z) (s_msg z) v (s_data_type z).
Definition set_s_data_type (v : Z) (z : z_stream) : z_stream :=
  ZStream (s_next_in z) (s_avail_in z) (s_total_in z) (s_next_out z) (s_avail_out z) (s_total_out z) (s_msg z) (s_adler z) v.

Definition set_r_next (v : Z) (r : regs) : regs :=
  Regs v (r_have r) (r_put r) (r_left r) (r_hold r) (r_bits r) (r_in r) (r_out r).
Definition set_r_have (v : Z) (r : regs) : regs :=
  Regs (r_next r) v (r_put r) (r_left r) (r_hold r) (r_bits r) (r_in r) (r_out r).
Definition set_r_put (v : Z) (r : regs) : regs :=
  Regs (r_next r) (r_have r) v (r_left r) (r_hold r) (r_bits r) (r_in r) (r_out r).
Definition set_r_left (v : Z) (r : regs) : regs :=
  Regs (r_next r) (r_have r) (r_put r) v (r_hold r) (r_bits r) (r_in r) (r_out r).
Definition set_r_hold (v : Z) (r : regs) : regs :=
  Regs (r_next r) (r_have r) (r_put r) (r_left r) v (r_bits r) (r_in r) (r_out r).
Definition set_r_bits (v : Z) (r : regs) : regs :=
  Regs (r_next r) (r_have r) (r_put r) (r_left r) (r_hold r) v (r_in r) (r_out r).
Definition set_r_in (v : Z) (r : regs) : regs :=
  Regs (r_next r) (r_have r) (r_put r) (r_left r) (r_hold r) (r_bits r) v (r_out r).
Definition set_r_out (v : Z) (r : regs) : regs :=
  Regs (r_next r) (r_have r) (r_put r) (r_left r) (r_hold r) (r_bits r) (r_in r) v.

Definition set_f_mem (v : mem) (i : inflating) : inflating :=
  Inflating v (f_strm i) (f_state i) (f_regs i).
Definition set_f_strm (v : z_stream) (i : inflating) : inflating :=
  Inflating (f_mem i) v (f_state i) (f_regs i).
Definition set_f_state (v : inflate_state) (i : inflating) : inflating :=
  Inflating (f_mem i) (f_strm i) v (f_regs i).
Definition set_f_regs (v : regs) (i : inflating) : inflating :=
  Inflating (f_mem i) (f_strm i) (f_state i) v.

(** ** Tables *)

(** The entry [t[i]]. *)
Definition entry (codes : gmap Z code) (t : table) (i : Z) : option code :=
  match t with
  | InCodes off => codes !! (off + i)
  | LenFix => if i <? 0 then None else lenfix !! Z.to_nat i
  | DistFix => if i <? 0 then None else distfix !! Z.to_nat i
  end.

Definition read_entry {S} (f : Z → option code) (i : Z) : C S code :=
  match f i with Some e => mret e | None => undef end.

(** [(1U << n) - 1] *)
Definition low_mask {S} (n : Z) : C S Z := if 32 <=? n then undef else mret (2 ^ n - 1).

(** ** [inflate_fast] *)

(** The registers of [inflate_fast]: pointers before the next byte of the input and of
    the output, and the bits. *)
Record fast := Fast { q_in : Z; q_out : Z; q_hold : Z; q_bits : Z }.

(** [hold += (unsigned long)(PUP(in)) << bits; bits += 8] *)
Definition pull (q : fast) : C mem fast :=
  b ← load8 (q_in q + 1);
  mret (Fast (q_in q + 1) (q_out q) (u64 (q_hold q + Z.shiftl b (q_bits q))) (u32 (q_bits q + 8))).

(** [if (bits < 15)] ... *)
Definition pull_two (q : fast) : C mem fast :=
  if q_bits q <? 15 then q ← pull q; pull q else mret q.

(** [hold >>= n; bits -= n] *)
Definition drop_bits (n : Z) (q : fast) : fast :=
  Fast (q_in q) (q_out q) (Z.shiftr (q_hold q) n) (u32 (q_bits q - n)).

(** From [dolen] or [dodist] on: the entry of a symbol, at the second level of the table
    if the first says so. *)
Definition fast_code (f : Z → option code) (is_dist : bool) (mask : Z) (q : fast) : C mem (code * fast) :=
  this ← read_entry f (Z.land (q_hold q) mask);
  loop 16 (λ '(this, q),
    let q := drop_bits (bits this) q in
    if (is_dist || negb (op this =? 0)) && (Z.land (op this) 16 =? 0) && (Z.land (op this) 64 =? 0) then
      mask ← low_mask (op this);
      this ← read_entry f (val this + Z.land (q_hold q) mask);
      Next (this, q)
    else Break (this, q)) (this, q).

(** The extra bits of a length, and of a distance. *)
Definition fast_len_extra (len op : Z) (q : fast) : C mem (Z * fast) :=
  if op =? 0 then mret (len, q) else
  q ← (if q_bits q <? op then pull q else mret q);
  mret (u32 (len + Z.land (u32 (q_hold q)) (2 ^ op - 1)), drop_bits op q).

Definition fast_dist_extra (dist op : Z) (q : fast) : C mem (Z * fast) :=
  q ← (if q_bits q <? op then
         q ← pull q;
         if q_bits q <? op then pull q else mret q
       else mret q);
  mret (u32 (dist + Z.land (u32 (q_hold q)) (2 ^ op - 1)), drop_bits op q).

(** [PUP(out) = PUP(from)] *)
Definition copy_one (out from : Z) : C mem unit :=
  b ← load8 (from + 1);
  store8 (out + 1) b.

(** [do PUP(out) = PUP(from); while (--op)], which leaves [out] and [from] *)
Definition copy_some (op out from : Z) : C mem (Z * Z) :=
  loop (Z.to_nat op) (λ '(op, out, from),
    copy_one out from;;
    let op := op - 1 in
    if op =? 0 then Break (out + 1, from + 1) else Next (op, out + 1, from + 1)) (op, out, from).

Definition copy_three (out from : Z) : C mem unit :=
  copy_one out from;;
  copy_one (out + 1) (from + 1);;
  copy_one (out + 2) (from + 2).

(** The rest of a match of less than three bytes; the new [out]. *)
Definition copy_rest (len out from : Z) : C mem Z :=
  if len =? 0 then mret out else
  copy_one out from;;
  if 1 <? len then copy_one (out + 1) (from + 1);; mret (out + 2) else mret (out + 1).

(** The loop after a part from the window. *)
Definition copy_while (len out from : Z) : C mem Z :=
  '(len, out, from) ← loop (S (Z.to_nat len)) (λ '(len, out, from),
    if 2 <? len then
      copy_three out from;;
      Next (len - 3, out + 3, from + 3)
    else Break (len, out, from)) (len, out, from);
  copy_rest len out from.

(** The loop of a match in the output, whose length is at least three. *)
Definition copy_direct (len out from : Z) : C mem Z :=
  '(len, out, from) ← loop (S (Z.to_nat len)) (λ '(len, out, from),
    copy_three out from;;
    let len := u32 (len - 3) in
    if 2 <? len then Next (len, out + 3, from + 3) else Break (len, out + 3, from + 3)) (len, out, from);
  copy_rest len out from.

(** A match that starts in the window, [op] bytes before its end: what is left of the
    length, and the place to copy it to and from. *)
Definition copy_window (s : inflate_state) (op len dist out : Z) : C mem (Z * Z * Z) :=
  let from := i_window s - 1 in
  if i_write s =? 0 then
    let from := from + (i_wsize s - op) in
    if op <? len then
      '(out, _) ← copy_some op out from;
      mret (len - op, out, out - dist)
    else mret (len, out, from)
  else if i_write s <? op then
    let from := from + (i_wsize s + i_write s - op) in
    let op := op - i_write s in
    if op <? len then
      let len := len - op in
      '(out, _) ← copy_some op out from;
      let from := i_window s - 1 in
      if i_write s <? len then
        let op := i_write s in
        '(out, _) ← copy_some op out from;
        mret (len - op, out, out - dist)
      else mret (len, out, from)
    else mret (len, out, from)
  else
    let from := from + (i_write s - op) in
    if op <? len then
      '(out, _) ← copy_some op out from;
      mret (len - op, out, out - dist)
    else mret (len, out, from).

(** A match: the new [out], or nothing when the distance is too far. *)
Definition fast_match (s : inflate_state) (beg len dist out : Z) : C mem (option Z) :=
  let op := u32 (out - beg) in
  if op <? dist then
    let op := dist - op in
    if i_whave s <? op then mret None else
    '(len, out, from) ← copy_window s op len dist out;
    out ← copy_while len out from;
    mret (Some out)
  else
    out ← copy_direct len out (out - dist);
    mret (Some out).

(** One literal or match; the mode and message it ends with, if it ends the loop. *)
Definition fast_step (s : inflate_state) (beg : Z) (q : fast) : C mem (fast * option (inflate_mode * option message)) :=
  let lcode := entry (i_codes s) (i_lencode s) in
  let dcode := entry (i_codes s) (i_distcode s) in
  q ← pull_two q;
  '(this, q) ← fast_code lcode false (u32 (Z.shiftl 1 (i_lenbits s)) - 1) q;
  if op this =? 0 then
    store8 (q_out q + 1) (val this);;
    mret (Fast (q_in q) (q_out q + 1) (q_hold q) (q_bits q), None)
  else if negb (Z.land (op this) 16 =? 0) then
    '(len, q) ← fast_len_extra (val this) (Z.land (op this) 15) q;
    q ← pull_two q;
    '(this, q) ← fast_code dcode true (u32 (Z.shiftl 1 (i_distbits s)) - 1) q;
    if negb (Z.land (op this) 16 =? 0) then
      '(dist, q) ← fast_dist_extra (val this) (Z.land (op this) 15) q;
      r ← fast_match s beg len dist (q_out q);
      match r with
      | None => mret (q, Some (BAD, Some invalid_distance_too_far_back))
      | Some out => mret (Fast (q_in q) out (q_hold q) (q_bits q), None)
      end
    else mret (q, Some (BAD, Some invalid_distance_code))
  else if negb (Z.land (op this) 32 =? 0) then mret (q, Some (TYPE, None))
  else mret (q, Some (BAD, Some invalid_literal_length_code)).

(** The bytes that are not used are given back, and the state is updated. *)
Definition fast_return (last fin : Z) (q : fast) (e : option (inflate_mode * option message)) : C inflating unit :=
  let len := Z.shiftr (q_bits q) 3 in
  let inp := q_in q - len in
  let bits := u32 (q_bits q - Z.shiftl len 3) in
  let hold := Z.land (q_hold q) (u32 (Z.shiftl 1 bits) - 1) in
  modify (λ i,
    let z := set_s_next_in (inp + 1) (set_s_next_out (q_out q + 1)
      (set_s_avail_in (u32 (if inp <? last then 5 + (last - inp) else 5 - (inp - last)))
      (set_s_avail_out (u32 (if q_out q <? fin then 257 + (fin - q_out q) else 257 - (q_out q - fin)))
      (match e with Some (_, Some msg) => set_s_msg (Some msg) (f_strm i) | _ => f_strm i end)))) in
    let s := set_i_hold hold (set_i_bits bits
      (match e with Some (m, _) => set_i_mode m (f_state i) | None => f_state i end)) in
    set_f_strm z (set_f_state s i)).

(** [start] is the space for output when [inflate] was called. *)
Definition inflate_fast (start : Z) : C inflating unit :=
  i ← get;
  let z := f_strm i in
  let s := f_state i in
  let inp := s_next_in z - 1 in
  let last := inp + (s_avail_in z - 5) in
  let out := s_next_out z - 1 in
  let beg := out - (start - s_avail_out z) in
  let fin := out + (s_avail_out z - 257) in
  '(q, e) ← zoom f_mem set_f_mem (loop (S (Z.to_nat (s_avail_in z + s_avail_out z))) (λ q,
        '(q, e) ← fast_step s beg q;
        match e with
        | Some _ => Break (q, e)
        | None => if (q_in q <? last) && (q_out q <? fin) then Next q else Break (q, None)
        end) (Fast inp out (i_hold s) (i_bits s)));
  fast_return last fin q e.

(** ** [inflate] *)

(** How a case ends: back to the switch, to [inf_leave] with a value of [ret], or out. *)
Inductive turn := Again | Leave (ret : Z) | Return (ret : Z).

Abbreviation machine := (C inflating).

Definition inmem {A} : C mem A → machine A := zoom f_mem set_f_mem.
Definition on_strm (f : z_stream → z_stream) : machine unit := modify (λ i, set_f_strm (f (f_strm i)) i).
Definition on_state (f : inflate_state → inflate_state) : machine unit := modify (λ i, set_f_state (f (f_state i)) i).
Definition on_regs (f : regs → regs) : machine unit := modify (λ i, set_f_regs (f (f_regs i)) i).
Definition the_state : machine inflate_state := i ← get; mret (f_state i).
Definition the_regs : machine regs := i ← get; mret (f_regs i).
Definition goto_mode (m : inflate_mode) : machine turn := on_state (set_i_mode m);; mret Again.
Definition bad (msg : message) : machine turn := on_strm (set_s_msg (Some msg));; goto_mode BAD.
(** [if (state->head != Z_NULL)] *)
Definition on_head (f : gz_header → gz_header) : machine unit :=
  on_state (λ s, set_i_head (f <$> i_head s) s).

(** [PULLBYTE()], [NEEDBITS(n)] and the others; [k] is what follows. *)
Definition PULLBYTE (k : machine turn) : machine turn :=
  r ← the_regs;
  if r_have r =? 0 then mret (Leave Z_OK) else
  b ← inmem (load8 (r_next r));
  on_regs (λ r, set_r_have (r_have r - 1) (set_r_next (r_next r + 1)
    (set_r_hold (u64 (r_hold r + Z.shiftl b (r_bits r))) (set_r_bits (u32 (r_bits r + 8)) r))));;
  k.

Fixpoint pull_while (fuel : nat) (n : Z) (k : machine turn) : machine turn :=
  match fuel with
  | O => diverge
  | S fuel => r ← the_regs; if r_bits r <? n then PULLBYTE (pull_while fuel n k) else k
  end.

Definition NEEDBITS (n : Z) (k : machine turn) : machine turn := pull_while (S (Z.to_nat n)) n k.

Definition DROPBITS (n : Z) : machine unit :=
  on_regs (λ r, set_r_hold (Z.shiftr (r_hold r) n) (set_r_bits (u32 (r_bits r - n)) r)).
Definition INITBITS : machine unit := on_regs (λ r, set_r_hold 0 (set_r_bits 0 r)).
Definition BYTEBITS : machine unit := r ← the_regs; DROPBITS (Z.land (r_bits r) 7).
Definition the_bits (n : Z) : machine Z := r ← the_regs; mret (BITS (r_hold r) n).

Definition REVERSE (q : Z) : Z :=
  Z.land (Z.shiftr q 24) 0xff + Z.land (Z.shiftr q 8) 0xff00 +
  Z.shiftl (Z.land q 0xff00) 8 + Z.shiftl (Z.land q 0xff) 24.

Definition LOAD : machine unit :=
  modify (λ i, let z := f_strm i in let s := f_state i in let r := f_regs i in
    set_f_regs (Regs (s_next_in z) (s_avail_in z) (s_next_out z) (s_avail_out z) (i_hold s) (i_bits s) (r_in r) (r_out r)) i).
Definition RESTORE : machine unit :=
  modify (λ i, let r := f_regs i in
    set_f_strm (set_s_next_out (r_put r) (set_s_avail_out (r_left r) (set_s_next_in (r_next r) (set_s_avail_in (r_have r) (f_strm i)))))
    (set_f_state (set_i_hold (r_hold r) (set_i_bits (r_bits r) (f_state i))) i)).

(** The checksums, on the machine: [hbuf] is the local buffer of [inflate]. *)
Section inflate.
Context (BYFOUR little NO_DIVIDE : bool) (hbuf : Z) (zalloc : Z → Z → C mem Z) (flush : Z).

Definition crc (check buf len : Z) : machine Z := inmem (crc32 BYFOUR little check buf len).
Definition adler (check buf len : Z) : machine Z := inmem (adler32 64 NO_DIVIDE check buf len).

(** [CRC2] and [CRC4] *)
Definition CRCn (n : nat) (word : Z) : machine unit :=
  s ← the_state;
  inmem (store_le n hbuf word);;
  c ← crc (i_check s) hbuf (Z.of_nat n);
  on_state (set_i_check c).
(** [if (state->flags & 0x0200)] *)
Definition header_crc (c : machine unit) : machine unit :=
  s ← the_state; if Z.land (i_flags s) 0x0200 =? 0 then mret tt else c.

Definition UPDATE (check buf len : Z) : machine Z :=
  s ← the_state; if i_flags s =? 0 then adler check buf len else crc check buf len.

(** *** The header *)

Definition case_HEAD : machine turn :=
  s ← the_state;
  if i_wrap s =? 0 then goto_mode TYPEDO else
  NEEDBITS 16 (
    r ← the_regs;
    if negb (Z.land (i_wrap s) 2 =? 0) && (r_hold r =? 0x8b1f) then
      c ← crc 0 NULL 0;
      on_state (set_i_check c);;
      CRCn 2 (r_hold r);;
      INITBITS;;
      goto_mode FLAGS
    else
    on_state (set_i_flags 0);;
    on_head (set_g_done (-1));;
    if (Z.land (i_wrap s) 1 =? 0)
       || negb ((u32 (Z.shiftl (BITS (r_hold r) 8) 8) + Z.shiftr (r_hold r) 8) mod 31 =? 0)
    then bad incorrect_header_check else
    if negb (BITS (r_hold r) 4 =? Z_DEFLATED) then bad unknown_compression_method else
    DROPBITS 4;;
    r ← the_regs;
    let len := BITS (r_hold r) 4 + 8 in
    if i_wbits s <? len then bad invalid_window_size else
    on_state (set_i_dmax (2 ^ len));;
    a ← adler 0 NULL 0;
    on_state (set_i_check a);;
    on_strm (set_s_adler a);;
    INITBITS;;
    goto_mode (if Z.land (r_hold r) 0x200 =? 0 then TYPE else DICTID)).

Definition case_FLAGS : machine turn :=
  NEEDBITS 16 (
    r ← the_regs;
    let flags := s32 (r_hold r) in
    on_state (set_i_flags flags);;
    if negb (Z.land flags 0xff =? Z_DEFLATED) then bad unknown_compression_method else
    if negb (Z.land flags 0xe000 =? 0) then bad unknown_header_flags_set else
    on_head (set_g_text (Z.land (Z.shiftr (r_hold r) 8) 1));;
    header_crc (CRCn 2 (r_hold r));;
    INITBITS;;
    goto_mode TIME).

Definition case_TIME : machine turn :=
  NEEDBITS 32 (
    r ← the_regs;
    on_head (set_g_time (r_hold r));;
    header_crc (CRCn 4 (r_hold r));;
    INITBITS;;
    goto_mode OS).

Definition case_OS : machine turn :=
  NEEDBITS 16 (
    r ← the_regs;
    on_head (λ h, set_g_xflags (Z.land (r_hold r) 0xff) (set_g_os (s32 (Z.shiftr (r_hold r) 8)) h));;
    header_crc (CRCn 2 (r_hold r));;
    INITBITS;;
    goto_mode EXLEN).

Definition case_EXLEN : machine turn :=
  s ← the_state;
  if Z.land (i_flags s) 0x0400 =? 0 then
    on_head (set_g_extra NULL);;
    goto_mode EXTRA
  else
  NEEDBITS 16 (
    r ← the_regs;
    on_state (set_i_length (u32 (r_hold r)));;
    on_head (set_g_extra_len (u32 (r_hold r)));;
    header_crc (CRCn 2 (r_hold r));;
    INITBITS;;
    goto_mode EXTRA).

(** The bytes of the extra field the caller wants. *)
Definition save_extra (s : inflate_state) (next copy : Z) : machine unit :=
  match i_head s with
  | Some h =>
      if g_extra h =? NULL then mret tt else
      let len := u32 (g_extra_len h - i_length s) in
      _ ← inmem (memcpy (g_extra h + len) next
        (if g_extra_max h <? u32 (len + copy) then u32 (g_extra_max h - len) else copy));
      mret tt
  | None => mret tt
  end.

Definition skip_input (copy : Z) : machine unit :=
  on_regs (λ r, set_r_have (r_have r - copy) (set_r_next (r_next r + copy) r)).

Definition case_EXTRA : machine turn :=
  s ← the_state;
  left ← (if Z.land (i_flags s) 0x0400 =? 0 then mret 0 else
    r ← the_regs;
    let copy := if r_have r <? i_length s then r_have r else i_length s in
    (if copy =? 0 then mret tt else
     save_extra s (r_next r) copy;;
     header_crc (c ← crc (i_check s) (r_next r) copy; on_state (set_i_check c));;
     skip_input copy;;
     on_state (set_i_length (i_length s - copy)));;
    s ← the_state;
    mret (i_length s));
  if negb (left =? 0) then mret (Leave Z_OK) else
  on_state (set_i_length 0);;
  goto_mode NAME.

(** The bytes of a text, up to its end or that of the input, saved while there is room:
    the last byte and the number of bytes.  [at_] and [max] are the space of the caller. *)
Definition save_text (at_ max : Z) (r : regs) : machine (Z * Z) :=
  loop (S (Z.to_nat (r_have r))) (λ copy,
    len ← inmem (load8 (r_next r + copy));
    let copy := copy + 1 in
    s ← the_state;
    (if (at_ =? NULL) || (max <=? i_length s) then mret tt else
     inmem (store8 (at_ + i_length s) len);;
     on_state (set_i_length (u32 (i_length s + 1))));;
    if negb (len =? 0) && (copy <? r_have r) then Next copy else Break (len, copy)) 0.

(** [NAME] and [COMMENT]: the flag of the text, its place, what follows *)
Definition case_text (flag : Z) (place : gz_header → Z * Z) (none : gz_header → gz_header) (k : machine turn) : machine turn :=
  s ← the_state;
  if Z.land (i_flags s) flag =? 0 then on_head none;; k else
  r ← the_regs;
  if r_have r =? 0 then mret (Leave Z_OK) else
  let '(at_, max) := match i_head s with Some h => place h | None => (NULL, 0) end in
  '(len, copy) ← save_text at_ max r;
  s ← the_state;
  header_crc (c ← crc (i_check s) (r_next r) copy; on_state (set_i_check c));;
  skip_input copy;;
  if negb (len =? 0) then mret (Leave Z_OK) else k.

Definition case_NAME : machine turn :=
  case_text 0x0800 (λ h, (g_name h, g_name_max h)) (set_g_name NULL)
    (on_state (set_i_length 0);; goto_mode COMMENT).

Definition case_COMMENT : machine turn :=
  case_text 0x1000 (λ h, (g_comment h, g_comm_max h)) (set_g_comment NULL) (goto_mode HCRC).

Definition end_HCRC : machine turn :=
  s ← the_state;
  on_head (λ h, set_g_hcrc (Z.land (Z.shiftr (i_flags s) 9) 1) (set_g_done 1 h));;
  c ← crc 0 NULL 0;
  on_state (set_i_check c);;
  on_strm (set_s_adler c);;
  goto_mode TYPE.

Definition case_HCRC : machine turn :=
  s ← the_state;
  if Z.land (i_flags s) 0x0200 =? 0 then end_HCRC else
  NEEDBITS 16 (
    r ← the_regs;
    if negb (r_hold r =? Z.land (i_check s) 0xffff) then bad header_crc_mismatch else
    INITBITS;;
    end_HCRC).

Definition case_DICTID : machine turn :=
  NEEDBITS 32 (
    r ← the_regs;
    on_state (set_i_check (REVERSE (r_hold r)));;
    on_strm (set_s_adler (REVERSE (r_hold r)));;
    INITBITS;;
    goto_mode DICT).

Definition case_DICT : machine turn :=
  s ← the_state;
  if i_havedict s =? 0 then RESTORE;; mret (Return Z_NEED_DICT) else
  a ← adler 0 NULL 0;
  on_state (set_i_check a);;
  on_strm (set_s_adler a);;
  goto_mode TYPE.

(** *** Blocks *)

Definition fixedtables : machine unit :=
  on_state (λ s, set_i_lencode LenFix (set_i_lenbits 9 (set_i_distcode DistFix (set_i_distbits 5 s)))).

Definition case_TYPEDO : machine turn :=
  s ← the_state;
  if negb (i_last s =? 0) then
    BYTEBITS;;
    goto_mode CHECK
  else
  NEEDBITS 3 (
    last ← the_bits 1;
    on_state (set_i_last last);;
    DROPBITS 1;;
    type ← the_bits 2;
    (if type =? 0 then goto_mode STORED
     else if type =? 1 then fixedtables;; goto_mode LEN
     else if type =? 2 then goto_mode TABLE
     else bad invalid_block_type);;
    DROPBITS 2;;
    mret Again).

Definition case_TYPE : machine turn :=
  if flush =? Z_BLOCK then mret (Leave Z_OK) else case_TYPEDO.

Definition case_STORED : machine turn :=
  BYTEBITS;;
  NEEDBITS 32 (
    r ← the_regs;
    if negb (Z.land (r_hold r) 0xffff =? Z.lxor (Z.shiftr (r_hold r) 16) 0xffff) then bad invalid_stored_block_lengths else
    on_state (set_i_length (Z.land (u32 (r_hold r)) 0xffff));;
    INITBITS;;
    goto_mode COPY).

Definition case_COPY : machine turn :=
  s ← the_state;
  let copy := i_length s in
  if copy =? 0 then goto_mode TYPE else
  r ← the_regs;
  let copy := if r_have r <? copy then r_have r else copy in
  let copy := if r_left r <? copy then r_left r else copy in
  if copy =? 0 then mret (Leave Z_OK) else
  _ ← inmem (memcpy (r_put r) (r_next r) copy);
  skip_input copy;;
  on_regs (λ r, set_r_left (r_left r - copy) (set_r_put (r_put r + copy) r));;
  on_state (set_i_length (i_length s - copy));;
  mret Again.

(** *** The codes of a block *)

Definition order : list Z := [16; 17; 18; 0; 8; 7; 9; 6; 10; 5; 11; 4; 12; 3; 13; 2; 14; 1; 15].

Definition case_TABLE : machine turn :=
  NEEDBITS 14 (
    nlen ← the_bits 5; on_state (set_i_nlen (nlen + 257));;
    DROPBITS 5;;
    ndist ← the_bits 5; on_state (set_i_ndist (ndist + 1));;
    DROPBITS 5;;
    ncode ← the_bits 4; on_state (set_i_ncode (ncode + 4));;
    DROPBITS 4;;
    if (286 <? nlen + 257) || (30 <? ndist + 1) then bad too_many_length_or_distance_symbols else
    on_state (set_i_have 0);;
    goto_mode LENLENS).

(** [state->lens[i] = v], and [lens[have++]] *)
Definition put_len (i v : Z) : machine unit :=
  s ← the_state;
  l ← upd (i_lens s) i (u16 v);
  on_state (set_i_lens l).
Definition next_have : machine Z :=
  s ← the_state;
  on_state (set_i_have (i_have s + 1));;
  mret (i_have s).

(** [inflate_table] on the tables from [state->next] on: where they end and their index
    bits *)
Definition build_table (type : codetype) (lens : list Z) (codes root : Z) : machine (Z * Z) :=
  s ← the_state;
  let off := i_next s in
  match inflate_table (ENOUGH - off) type lens codes root (i_work s) (kmap (λ i, i - off) (i_codes s)) with
  | Ret (ret, used, root, work) t =>
      on_state (λ s, set_i_next (off + used) (set_i_work work (set_i_codes (kmap (λ i, i + off) t) s)));;
      mret (ret, root)
  | UB => undef
  | OOF => diverge
  end.

(** [while (state->have < 19) state->lens[order[state->have++]] = 0], the code for the
    code lengths, and its errors *)
Definition code_lengths_code : machine turn :=
  loop 20 (λ _ : unit,
    s ← the_state;
    if i_have s <? 19 then
      h ← next_have;
      o ← elem order h;
      put_len o 0;;
      Next tt
    else Break tt) tt;;
  on_state (λ s, set_i_next 0 (set_i_lencode (InCodes 0) s));;
  s ← the_state;
  '(ret, root) ← build_table CODES (i_lens s) 19 7;
  on_state (set_i_lenbits root);;
  if negb (ret =? 0) then bad invalid_code_lengths_set else
  on_state (set_i_have 0);;
  goto_mode CODELENS.

Fixpoint read_lenlens (fuel : nat) : machine turn :=
  match fuel with
  | O => diverge
  | S fuel =>
      s ← the_state;
      if i_have s <? i_ncode s then
        NEEDBITS 3 (
          v ← the_bits 3;
          h ← next_have;
          o ← elem order h;
          put_len o v;;
          DROPBITS 3;;
          read_lenlens fuel)
      else code_lengths_code
  end.

Definition case_LENLENS : machine turn := read_lenlens 20.

(** The code tables of the block, once the lengths are there. *)
Definition build_codes : machine turn :=
  on_state (λ s, set_i_next 0 (set_i_lencode (InCodes 0) s));;
  s ← the_state;
  '(ret, root) ← build_table LENS (i_lens s) (i_nlen s) 9;
  on_state (set_i_lenbits root);;
  if negb (ret =? 0) then bad invalid_literal_lengths_set else
  s ← the_state;
  on_state (λ s, set_i_distcode (InCodes (i_next s)) s);;
  '(ret, root) ← build_table DISTS (drop (Z.to_nat (i_nlen s)) (i_lens s)) (i_ndist s) 6;
  on_state (set_i_distbits root);;
  if negb (ret =? 0) then bad invalid_distances_set else
  goto_mode LEN.

(** [for (;;) { this = table[BITS(n)]; if (this.bits <= bits) break; PULLBYTE(); }], with
    [shift] and [at_] for the second level *)
Fixpoint find_code (fuel : nat) (t : inflate_state → table) (at_ n shift : Z) (k : code → machine turn) : machine turn :=
  match fuel with
  | O => diverge
  | S fuel =>
      s ← the_state;
      r ← the_regs;
      this ← read_entry (entry (i_codes s) (t s)) (at_ + Z.shiftr (BITS (r_hold r) n) shift);
      if shift + bits this <=? r_bits r then k this else PULLBYTE (find_code fuel t at_ n shift k)
  end.

(** More bytes than the longest code word has. *)
Definition code_fuel : nat := 64.

(** [while (copy--) state->lens[state->have++] = len] *)
Definition repeat_len (copy len : Z) : machine unit :=
  loop (S (Z.to_nat copy)) (λ copy,
    if copy =? 0 then Break tt else
    h ← next_have;
    put_len h len;;
    Next (copy - 1)) copy.

(** A repetition: the extra bits, the least count and the length to repeat, or an error. *)
Definition read_repeat (this : code) (extra least : Z) (len : machine (option Z)) (k : machine turn) : machine turn :=
  NEEDBITS (bits this + extra) (
    DROPBITS (bits this);;
    l ← len;
    match l with
    | None => bad invalid_bit_length_repeat
    | Some len =>
        v ← the_bits extra;
        DROPBITS extra;;
        let copy := least + v in
        s ← the_state;
        if i_nlen s + i_ndist s <? i_have s + copy then bad invalid_bit_length_repeat else
        repeat_len copy len;;
        k
    end).

Definition previous_len : machine (option Z) :=
  s ← the_state;
  if i_have s =? 0 then mret None else
  l ← elem (i_lens s) (i_have s - 1);
  mret (Some l).

Fixpoint read_codelens (fuel : nat) : machine turn :=
  match fuel with
  | O => diverge
  | S fuel =>
      s ← the_state;
      if i_have s <? i_nlen s + i_ndist s then
        find_code code_fuel i_lencode 0 (i_lenbits s) 0 (λ this,
          if val this <? 16 then
            NEEDBITS (bits this) (
              DROPBITS (bits this);;
              h ← next_have;
              put_len h (val this);;
              read_codelens fuel)
          else if val this =? 16 then read_repeat this 2 3 previous_len (read_codelens fuel)
          else if val this =? 17 then read_repeat this 3 3 (mret (Some 0)) (read_codelens fuel)
          else read_repeat this 7 11 (mret (Some 0)) (read_codelens fuel))
      else build_codes
  end.

(** At most 320 lengths. *)
Definition case_CODELENS : machine turn := read_codelens 321.

(** *** Literals and matches *)

(** The symbol at the front of the input by the table [t]; [two] says which entries lead
    to the second level.  The bits of the symbol are dropped. *)
Definition find_symbol (t : inflate_state → table) (n : inflate_state → Z) (two : code → bool) (k : code → machine turn) : machine turn :=
  s ← the_state;
  find_code code_fuel t 0 (n s) 0 (λ this,
    if two this then
      let last := this in
      find_code code_fuel t (val last) (bits last + op last) (bits last) (λ this,
        DROPBITS (bits last);;
        DROPBITS (bits this);;
        k this)
    else
      DROPBITS (bits this);;
      k this).

Definition case_LEN : machine turn :=
  r ← the_regs;
  if (6 <=? r_have r) && (258 <=? r_left r) then
    RESTORE;;
    inflate_fast (r_out r);;
    LOAD;;
    mret Again
  else
  find_symbol i_lencode i_lenbits (λ this, negb (op this =? 0) && (Z.land (op this) 0xf0 =? 0)) (λ this,
    on_state (set_i_length (val this));;
    if op this =? 0 then goto_mode LIT
    else if negb (Z.land (op this) 32 =? 0) then goto_mode TYPE
    else if negb (Z.land (op this) 64 =? 0) then bad invalid_literal_length_code
    else
      on_state (set_i_extra (Z.land (op this) 15));;
      goto_mode LENEXT).

Definition case_LENEXT : machine turn :=
  s ← the_state;
  if i_extra s =? 0 then goto_mode DIST else
  NEEDBITS (i_extra s) (
    v ← the_bits (i_extra s);
    on_state (set_i_length (u32 (i_length s + v)));;
    DROPBITS (i_extra s);;
    goto_mode DIST).

Definition case_DIST : machine turn :=
  find_symbol i_distcode i_distbits (λ this, Z.land (op this) 0xf0 =? 0) (λ this,
    if negb (Z.land (op this) 64 =? 0) then bad invalid_distance_code
    else
      on_state (λ s, set_i_offset (val this) (set_i_extra (Z.land (op this) 15) s));;
      goto_mode DISTEXT).

Definition check_distance : machine turn :=
  s ← the_state;
  r ← the_regs;
  if u32 (i_whave s + r_out r - r_left r) <? i_offset s then bad invalid_distance_too_far_back
  else goto_mode MATCH.

Definition case_DISTEXT : machine turn :=
  s ← the_state;
  if i_extra s =? 0 then check_distance else
  NEEDBITS (i_extra s) (
    v ← the_bits (i_extra s);
    on_state (set_i_offset (u32 (i_offset s + v)));;
    DROPBITS (i_extra s);;
    check_distance).

(** [do *put++ = *from++; while (--copy)] *)
Definition copy_match (put from copy : Z) : C mem unit :=
  loop (Z.to_nat copy) (λ '(put, from, copy),
    b ← load8 from;
    store8 put b;;
    if copy - 1 =? 0 then Break tt else Next (put + 1, from + 1, copy - 1)) (put, from, copy).

(** Where a match is copied from, and how much at a time. *)
Definition match_source (s : inflate_state) (r : regs) : Z * Z :=
  let copy := r_out r - r_left r in
  if copy <? i_offset s then
    let copy := i_offset s - copy in
    let '(copy, from) :=
      if i_write s <? copy then (copy - i_write s, i_window s + (i_wsize s - (copy - i_write s)))
      else (copy, i_window s + (i_write s - copy)) in
    (from, if i_length s <? copy then i_length s else copy)
  else (r_put r - i_offset s, i_length s).

Definition case_MATCH : machine turn :=
  s ← the_state;
  r ← the_regs;
  if r_left r =? 0 then mret (Leave Z_OK) else
  let '(from, copy) := match_source s r in
  let copy := if r_left r <? copy then r_left r else copy in
  inmem (copy_match (r_put r) from copy);;
  on_regs (λ r, set_r_left (r_left r - copy) (set_r_put (r_put r + copy) r));;
  on_state (set_i_length (i_length s - copy));;
  if i_length s - copy =? 0 then goto_mode LEN else mret Again.

Definition case_LIT : machine turn :=
  s ← the_state;
  r ← the_regs;
  if r_left r =? 0 then mret (Leave Z_OK) else
  inmem (store8 (r_put r) (u8 (i_length s)));;
  on_regs (λ r, set_r_put (r_put r + 1) (set_r_left (r_left r - 1) r));;
  goto_mode LEN.

(** *** The trailer *)

Definition case_CHECK : machine turn :=
  s ← the_state;
  if i_wrap s =? 0 then goto_mode LENGTH else
  NEEDBITS 32 (
    r ← the_regs;
    let out := r_out r - r_left r in
    on_strm (λ z, set_s_total_out (u64 (s_total_out z + out)) z);;
    on_state (λ s, set_i_total (u64 (i_total s + out)) s);;
    (if out =? 0 then mret tt else
     s ← the_state;
     c ← UPDATE (i_check s) (r_put r - out) out;
     on_state (set_i_check c);;
     on_strm (set_s_adler c));;
    on_regs (set_r_out (r_left r));;
    s ← the_state;
    if negb ((if i_flags s =? 0 then REVERSE (r_hold r) else r_hold r) =? i_check s) then bad incorrect_data_check else
    INITBITS;;
    goto_mode LENGTH).

Definition case_LENGTH : machine turn :=
  s ← the_state;
  if (i_wrap s =? 0) || (i_flags s =? 0) then goto_mode DONE else
  NEEDBITS 32 (
    r ← the_regs;
    s ← the_state;
    if negb (r_hold r =? Z.land (i_total s) 0xffffffff) then bad incorrect_length_check else
    INITBITS;;
    goto_mode DONE).

Definition step : machine turn :=
  s ← the_state;
  match i_mode s with
  | HEAD => case_HEAD
  | FLAGS => case_FLAGS
  | TIME => case_TIME
  | OS => case_OS
  | EXLEN => case_EXLEN
  | EXTRA => case_EXTRA
  | NAME => case_NAME
  | COMMENT => case_COMMENT
  | HCRC => case_HCRC
  | DICTID => case_DICTID
  | DICT => case_DICT
  | TYPE => case_TYPE
  | TYPEDO => case_TYPEDO
  | STORED => case_STORED
  | COPY => case_COPY
  | TABLE => case_TABLE
  | LENLENS => case_LENLENS
  | CODELENS => case_CODELENS
  | LEN => case_LEN
  | LENEXT => case_LENEXT
  | DIST => case_DIST
  | DISTEXT => case_DISTEXT
  | MATCH => case_MATCH
  | LIT => case_LIT
  | CHECK => case_CHECK
  | LENGTH => case_LENGTH
  | DONE => mret (Leave Z_STREAM_END)
  | BAD => mret (Leave Z_DATA_ERROR)
  | MEM => mret (Return Z_MEM_ERROR)
  | SYNC => mret (Return Z_STREAM_ERROR)
  end.

(** *** The window *)

(** Returns 1 when there is no memory. *)
Definition updatewindow (out : Z) : machine Z :=
  s ← the_state;
  (if i_window s =? NULL then
     w ← inmem (zalloc (2 ^ i_wbits s) 1);
     on_state (set_i_window w)
   else mret tt);;
  s ← the_state;
  if i_window s =? NULL then mret 1 else
  (if i_wsize s =? 0 then on_state (λ s, set_i_wsize (2 ^ i_wbits s) (set_i_write 0 (set_i_whave 0 s))) else mret tt);;
  s ← the_state;
  i ← get;
  let z := f_strm i in
  let copy := out - s_avail_out z in
  (if i_wsize s <=? copy then
     _ ← inmem (memcpy (i_window s) (s_next_out z - i_wsize s) (i_wsize s));
     on_state (λ s, set_i_write 0 (set_i_whave (i_wsize s) s))
   else
     let dist := i_wsize s - i_write s in
     let dist := if copy <? dist then copy else dist in
     _ ← inmem (memcpy (i_window s + i_write s) (s_next_out z - copy) dist);
     let copy := copy - dist in
     if negb (copy =? 0) then
       _ ← inmem (memcpy (i_window s) (s_next_out z - copy) copy);
       on_state (λ s, set_i_write copy (set_i_whave (i_wsize s) s))
     else
       on_state (λ s,
         let w := i_write s + dist in
         set_i_write (if w =? i_wsize s then 0 else w)
           (if i_whave s <? i_wsize s then set_i_whave (i_whave s + dist) s else s)));;
  mret 0.

(** [inf_leave] *)
Definition inf_leave (ret : Z) : machine Z :=
  RESTORE;;
  r ← the_regs;
  s ← the_state;
  i ← get;
  full ← (if negb (i_wsize s =? 0) || (before_CHECK (i_mode s) && negb (r_out r =? s_avail_out (f_strm i)))
          then updatewindow (r_out r) else mret 0);
  if negb (full =? 0) then
    on_state (set_i_mode MEM);;
    mret Z_MEM_ERROR
  else
  i ← get;
  let z := f_strm i in
  let inn := r_in r - s_avail_in z in
  let out := r_out r - s_avail_out z in
  on_strm (λ z, set_s_total_in (u64 (s_total_in z + inn)) (set_s_total_out (u64 (s_total_out z + out)) z));;
  on_state (λ s, set_i_total (u64 (i_total s + out)) s);;
  s ← the_state;
  (if (i_wrap s =? 0) || (out =? 0) then mret tt else
   c ← UPDATE (i_check s) (s_next_out z - out) out;
   on_state (set_i_check c);;
   on_strm (set_s_adler c));;
  s ← the_state;
  on_strm (set_s_data_type (i_bits s + (if i_last s =? 0 then 0 else 64) +
    (match i_mode s with TYPE => 128 | _ => 0 end)));;
  mret (if (((inn =? 0) && (out =? 0)) || (flush =? Z_FINISH)) && (ret =? Z_OK) then Z_BUF_ERROR else ret).

Definition run (fuel : nat) : machine turn :=
  loop fuel (λ _ : unit,
    t ← step;
    match t with Again => Next tt | t => Break t end) tt.

(** [strm] and [strm->state] are not null.  [fuel] bounds the turns of the machine. *)
Definition inflate (fuel : nat) : machine Z :=
  i ← get;
  let z := f_strm i in
  if (s_next_out z =? NULL) || ((s_next_in z =? NULL) && negb (s_avail_in z =? 0)) then mret Z_STREAM_ERROR else
  (match i_mode (f_state i) with TYPE => on_state (set_i_mode TYPEDO) | _ => mret tt end);;
  LOAD;;
  on_regs (λ r, set_r_in (r_have r) (set_r_out (r_left r) r));;
  t ← run fuel;
  match t with
  | Again => diverge
  | Leave ret => inf_leave ret
  | Return ret => mret ret
  end.

(** ** The other entry points *)

Definition inflateReset : machine Z :=
  on_strm (λ z, set_s_total_in 0 (set_s_total_out 0 (set_s_msg None (set_s_adler 1 z))));;
  on_state (λ s, set_i_total 0 (set_i_mode HEAD (set_i_last 0 (set_i_havedict 0 (set_i_dmax 32768
    (set_i_head None (set_i_wsize 0 (set_i_whave 0 (set_i_write 0 (set_i_hold 0 (set_i_bits 0
    (set_i_lencode (InCodes 0) (set_i_distcode (InCodes 0) (set_i_next 0 s))))))))))))));;
  mret Z_OK.

Definition inflatePrime (bits value : Z) : machine Z :=
  s ← the_state;
  if (16 <? bits) || (32 <? u32 (i_bits s + bits)) then mret Z_STREAM_ERROR else
  let value := Z.land value (Z.shiftl 1 bits - 1) in
  on_state (λ s, set_i_hold (u64 (i_hold s + s32 (Z.shiftl value (i_bits s)))) (set_i_bits (u32 (i_bits s + bits)) s));;
  mret Z_OK.

Definition inflateSetDictionary (dictionary dictLength : Z) : machine Z :=
  s ← the_state;
  if negb (i_wrap s =? 0) && negb (bool_decide (i_mode s = DICT)) then mret Z_STREAM_ERROR else
  ok ← (if bool_decide (i_mode s = DICT) then
          id ← adler 0 NULL 0;
          id ← adler id dictionary dictLength;
          mret (id =? i_check s)
        else mret true);
  if negb ok then mret Z_DATA_ERROR else
  i ← get;
  full ← updatewindow (s_avail_out (f_strm i));
  if negb (full =? 0) then on_state (set_i_mode MEM);; mret Z_MEM_ERROR else
  s ← the_state;
  (if i_wsize s <? dictLength then
     _ ← inmem (memcpy (i_window s) (dictionary + dictLength - i_wsize s) (i_wsize s));
     on_state (λ s, set_i_whave (i_wsize s) s)
   else
     _ ← inmem (memcpy (i_window s + i_wsize s - dictLength) dictionary dictLength);
     on_state (set_i_whave dictLength));;
  on_state (set_i_havedict 1);;
  mret Z_OK.

Definition inflateGetHeader (head : gz_header) : machine Z :=
  s ← the_state;
  if Z.land (i_wrap s) 2 =? 0 then mret Z_STREAM_ERROR else
  on_state (set_i_head (Some (set_g_done 0 head)));;
  mret Z_OK.

(** Where the pattern 0, 0, 0xff, 0xff ends in the [len] bytes [buf]: the bytes of it
    found, and the bytes looked at. *)
Definition syncsearch (have buf len : Z) : C mem (Z * Z) :=
  loop (S (Z.to_nat len)) (λ '(got, next),
    if (next <? len) && (got <? 4) then
      b ← load8 (buf + next);
      let got := if b =? (if got <? 2 then 0 else 0xff) then got + 1
                 else if negb (b =? 0) then 0 else 4 - got in
      Next (got, next + 1)
    else Break (got, next)) (have, 0).

(** [buf] is the local buffer of [inflateSync]. *)
Definition inflateSync (buf : Z) : machine Z :=
  i ← get;
  let s := f_state i in
  if (s_avail_in (f_strm i) =? 0) && (i_bits s <? 8) then mret Z_BUF_ERROR else
  (if bool_decide (i_mode s = SYNC) then mret tt else
   on_state (λ s, set_i_mode SYNC (set_i_hold (u64 (Z.shiftl (i_hold s) (Z.land (i_bits s) 7)))
     (set_i_bits (i_bits s - Z.land (i_bits s) 7) s)));;
   len ← loop 9 (λ len,
     s ← the_state;
     if 8 <=? i_bits s then
       inmem (store8 (buf + len) (u8 (i_hold s)));;
       on_state (λ s, set_i_hold (Z.shiftr (i_hold s) 8) (set_i_bits (i_bits s - 8) s));;
       Next (len + 1)
     else Break len) 0;
   '(got, _) ← inmem (syncsearch 0 buf len);
   on_state (set_i_have got));;
  s ← the_state;
  i ← get;
  '(got, len) ← inmem (syncsearch (i_have s) (s_next_in (f_strm i)) (s_avail_in (f_strm i)));
  on_state (set_i_have got);;
  on_strm (λ z, set_s_avail_in (s_avail_in z - len) (set_s_next_in (s_next_in z + len)
    (set_s_total_in (u64 (s_total_in z + len)) z)));;
  if negb (got =? 4) then mret Z_DATA_ERROR else
  i ← get;
  _ ← inflateReset;
  on_strm (λ z, set_s_total_in (s_total_in (f_strm i)) (set_s_total_out (s_total_out (f_strm i)) z));;
  on_state (set_i_mode TYPE);;
  mret Z_OK.

Definition inflateSyncPoint : machine Z :=
  s ← the_state;
  mret (cbool (bool_decide (i_mode s = STORED) && (i_bits s =? 0))).
End inflate.
