(* ===== verification/InflateTables.v ===== *)
(** * The tables the decompressor decodes with

    [table_ok f root lens ent]: a table (the function [f] from indices to entries) decodes
    the canonical code of the lengths [lens], with [ent s] the operation and value of symbol
    [s].  The tables [inflate_table] builds for a complete code are such tables, and so are
    the two of [inffixed.h]. *)

From Stdlib Require Import List.
From stdpp Require Import base tactics numbers list gmap.
From S2P Require Import Prelude InfFixed Inflate Bitstream Inftrees InftreesSpec InftreesLoop InftreesMain.

Open Scope Z_scope.

(** The word [x] starts with the code word of [s]. *)
Definition starts (lens : list Z) (s : nat) (l x : Z) : Prop :=
  x mod 2 ^ l = rev_bits (Z.to_nat l) (codeword lens s l).

(** The table leads from [x] to the entry [e] of a symbol and the length [l] of its code
    word. *)
Definition finds (f : Z → option code) (root x : Z) (e : Z * Z) (l : Z) : Prop :=
  (1 ≤ l ≤ root ∧ f (x mod 2 ^ root) = Some (Code (fst e) l (snd e))) ∨
  (root < l ∧ ∃ c n, 1 ≤ c ∧ l ≤ root + c ≤ 15 ∧ f (x mod 2 ^ root) = Some (Code c root n) ∧
    f (n + x mod 2 ^ (root + c) / 2 ^ root) = Some (Code (fst e) (l - root) (snd e))).

(** An operation of a symbol: not that of a link to a table of the second level. *)
Definition symbol_op (o : Z) : Prop := o = 0 ∨ Z.land o 0xf0 ≠ 0.

Record table_ok (f : Z → option code) (root : Z) (lens : list Z) (ent : nat → Z * Z) : Prop := {
  tk_root : 1 ≤ root ≤ 15;
  tk_lens : Forall (λ l, 0 ≤ l ≤ 15) lens;
  tk_ops : ∀ s, (s < length lens)%nat → symbol_op (fst (ent s));
  tk_finds : ∀ s l x, lens !! s = Some l → l ≠ 0 → starts lens s l x → finds f root x (ent s) l;
  tk_all : ∀ x, ∃ s l, lens !! s = Some l ∧ l ≠ 0 ∧ starts lens s l x }.

Lemma link_op c : 1 ≤ c ≤ 15 → ¬ symbol_op c.
Proof.
  intros Hc. assert (∃ i, (1 ≤ i ≤ 15)%nat ∧ c = Z.of_nat i) as (i & Hi & ->) by (exists (Z.to_nat c); lia).
  intros [H|H]; [lia|]. apply H. do 16 (destruct i as [|i]; [done|]). lia.
Qed.

(** What a word finds is determined. *)
Lemma finds_det f root x e l e' l' : 1 ≤ root → symbol_op (fst e) → symbol_op (fst e') →
  finds f root x e l → finds f root x e' l' → e = e' ∧ l = l'.
Proof.
  destruct e as [o v], e' as [o' v']. cbn [fst snd]. intros Hr He He'.
  intros [[Hl H]|(Hl & c & n & Hc & Hlc & H & H2)] [[Hl' H']|(Hl' & c' & n' & Hc' & Hlc' & H' & H2')];
    cbn [fst snd] in *; rewrite H in H'; simplify_eq.
  - done.
  - exfalso. by apply (link_op c'); [lia|].
  - exfalso. by apply (link_op o'); [lia|].
  - split; [done|lia].
Qed.

(** ** Built tables *)

Section built.
Context (type : codetype) (size : Z) (lens work : list Z) (root : Z).
Hypothesis Hlens : Forall (λ l, 0 ≤ l ≤ 15) lens.
Hypothesis Halpha : Z.of_nat (length lens) ≤ alphabet type.
Hypothesis Hwork : (length lens ≤ length work)%nat.
Hypothesis Hsize : (if is_LENS type then ENOUGH - MAXD else 2 ^ 16) ≤ size.

Abbreviation ls := (sorted_lengths lens 15).

Lemma pos_starts k s l x : weight ls ≤ 2 ^ 15 → order lens 15 !! k = Some s → ls !! k = Some l →
  pos ls k ≤ rev15 x < pos ls k + 2 ^ (15 - l) → starts lens s l x.
Proof.
  intros Hwl Hor Hk Hx. destruct (order_ls lens Hlens k l Hk) as (s' & j & Hs' & Hsl & Hlo & Ek & Hj).
  rewrite Hs' in Hor. injection Hor as ->. pose proof (symbols_index lens l j s Hj) as Ej.
  apply (starts_word ls (ls_ok lens Hlens) (ls_sorted lens Hlens) Hwl k l x Hk) in Hx. unfold starts. rewrite Hx.
  assert ((j ≤ occurrences l lens)%nat) as Hle by (apply lookup_lt_Some in Hj; rewrite symbols_all in Hj; lia).
  rewrite Ek, (pos_codeword lens Hlens l j Hlo Hle). unfold length_ok in Hlo.
  rewrite <-(rev_bits_shift 15 (Z.to_nat l)) by lia. f_equal. unfold codeword. rewrite Ej. f_equal. f_equal. lia.
Qed.

(** For a complete code [inflate_table] returns tables that decode it, and touches nothing
    outside of the space it reports; only for LENS can it run out of space, when the tables
    need ENOUGH - MAXD entries. *)
Lemma run_complete t : weight (used_lengths lens) = 2 ^ 15 →
  ∃ ret used root' work' t', inflate_table size type lens (Z.of_nat (length lens)) root work t = Ret (ret, used, root', work') t' ∧
  (ret = 1 ∧ type = LENS ∧ ENOUGH - MAXD ≤ decoding_space lens (root_bits lens root) ∨
   ret = 0 ∧ used ≤ size ∧ (∀ i, i < 0 ∨ used ≤ i → t' !! i = t !! i) ∧
   table_ok (λ i, t' !! i) root' lens (λ s, symbol_entry type (Z.of_nat s))).
Proof.
  intros Hw. destruct (longest type size lens work Hlens Halpha Hwork Hsize) as (max & Hz & Hm & Ho); [by rewrite Hw|].
  destruct (run_accepted type size lens work root Hlens Halpha Hwork Hsize t max Hz Hm Ho (or_introl Hw))
    as [(Ht & Hbig & work' & t' & Hrun)|(work' & s & t1 & Hr & Hfin & Hrun)].
  { exists 1, 0, root, work', t'. split; [done|]. by left. }
  set (root' := root_bits lens root) in *. destruct Hfin as (Hh & _ & _ & [Hsp _] & Hfr & Hdec & _). unfold length_ok in Hm.
  assert (weight ls = 2 ^ 15) as Hwl by (by rewrite ls_weight).
  assert (pos ls (length ls) = 2 ^ 15) as Hpos by (unfold pos; rewrite take_ge by lia; done).
  rewrite Hpos in Hh. exists 0, (b_used s), root', work', t1. rewrite Hrun. split.
  { rewrite run_bind, (fill_nothing size lens work Hwork) by (by rewrite Hh). done. }
  right. split; [done|]. split; [lia|]. split; [done|]. split; [lia|done| |..].
  - intros s' Hs'. apply symbol_ops. lia.
  - intros s' l x Hs Hl Hx. pose proof (lens_range lens Hlens s' l Hs).
    destruct (found_symbol type lens work Hlens Hwork root' t1 (λ _, b_used s) s' l x) as (k & Es & Hf); [lia|done..|].
    destruct Hf as [[Hlr Hf]|(Hlr & c & n & Hc1 & Hc2 & _ & _ & Hf1 & Hf2)]; cbv beta in *; rewrite Es in *; [left; split; [lia|done]|].
    right. split; [done|]. by exists c, n.
  - intros x. destruct (Hdec x) as (k & l & Hk & Hp & _); [rewrite Hpos; apply rev15_range|].
    destruct (order_ls lens Hlens k l Hk) as (s' & j & Hs' & Hsl & Hlo & _). unfold length_ok in Hlo. exists s', l.
    split; [done|]. split; [lia|]. apply (pos_starts k s' l x); [lia|done..].
Qed.
End built.

(** ** The fixed tables *)

(** A table of one level, checked word by word. *)
Section flat.
Context (f : Z → option code) (root : Z) (lens : list Z) (ent : nat → Z * Z).

Definition word_of (s : nat) : Z := let l := nth s lens 0 in rev_bits (Z.to_nat l) (codeword lens s l).

Definition words : list (nat * Z * Z) := (λ s, (s, nth s lens 0, word_of s)) <$> seq 0 (length lens).

Definition entry_is (o : option code) (e : Z * Z) (l : Z) : bool :=
  match o with Some (Code a b c) => (a =? fst e) && (b =? l) && (c =? snd e) | None => false end.

Definition flat_ok : bool :=
  let words := words in
  forallb (λ '(s, l, w),
    (1 <=? l) && (l <=? root) && ((fst (ent s) =? 0) || negb (Z.land (fst (ent s)) 0xf0 =? 0)) &&
    forallb (λ q, entry_is (f (w + 2 ^ l * Z.of_nat q)) (ent s) l) (seq 0 (Z.to_nat (2 ^ (root - l))))) words &&
  forallb (λ i, existsb (λ '(s, l, w), Z.of_nat i mod 2 ^ l =? w) words) (seq 0 (Z.to_nat (2 ^ root))).

Lemma flat_table : 1 ≤ root ≤ 15 → flat_ok = true → table_ok f root lens ent.
Proof.
  intros Hr H. unfold flat_ok in H. cbv zeta in H. apply andb_true_iff in H as [H1 H2]. rewrite forallb_forall in H1, H2.
  assert (∀ s l, lens !! s = Some l → In (s, l, word_of s) words) as Hin.
  { intros s l Hs. unfold words. rewrite <-list_elem_of_In. apply list_elem_of_fmap. exists s. rewrite (nth_lookup_Some _ _ _ _ Hs).
    split; [done|]. apply elem_of_seq. apply lookup_lt_Some in Hs. lia. }
  assert (∀ s l, lens !! s = Some l → 1 ≤ l ≤ root ∧ symbol_op (fst (ent s)) ∧
    ∀ q, 0 ≤ q < 2 ^ (root - l) → f (word_of s + 2 ^ l * q) = Some (Code (fst (ent s)) l (snd (ent s)))) as Hs.
  { intros s l Hs. specialize (H1 _ (Hin s l Hs)). cbn beta iota in H1. rewrite !andb_true_iff, orb_true_iff, negb_true_iff in H1.
    destruct H1 as [[[Ha Hb] Hc] Hd]. apply Z.leb_le in Ha, Hb. rewrite forallb_forall in Hd. split; [lia|]. split.
    { destruct Hc as [Hc|Hc]; [left; by apply Z.eqb_eq|right; by apply Z.eqb_neq]. }
    intros q Hq. specialize (Hd (Z.to_nat q)). rewrite Z2Nat.id in Hd by lia. unfold entry_is in Hd.
    destruct (f (word_of s + 2 ^ l * q)) as [[a b c]|].
    - rewrite !andb_true_iff, !Z.eqb_eq in Hd. destruct Hd as [[-> ->] ->]; [|done]. apply in_seq. lia.
    - discriminate Hd. apply in_seq. lia. }
  split; [done|..].
  - apply Forall_lookup_2. intros s l Hl. destruct (Hs s l Hl). lia.
  - intros s Hlt. destruct (lookup_lt_is_Some_2 lens s Hlt) as [l Hl]. apply (Hs s l Hl).
  - intros s l x Hl Hl0 Hx. destruct (Hs s l Hl) as (Hlr & _ & Hf). left. split; [done|].
    unfold starts in Hx. unfold word_of in Hf. rewrite (nth_lookup_Some _ _ _ _ Hl) in Hf. cbv zeta in Hf. rewrite <-Hx in Hf.
    pose proof (pow_pos l ltac:(lia)). pose proof (Z.div_mod (x mod 2 ^ root) (2 ^ l) ltac:(lia)) as E.
    rewrite mod_mod_pow, div_mod_pow in E by lia. rewrite E, Z.add_comm. apply Hf. apply Z.mod_pos_bound, pow_pos. lia.
  - intros x. specialize (H2 (Z.to_nat (x mod 2 ^ root))). pose proof (Z.mod_pos_bound x (2 ^ root) (pow_pos root ltac:(lia))).
    rewrite Z2Nat.id in H2 by lia. assert (existsb (λ '(s, l, w), x mod 2 ^ root mod 2 ^ l =? w) words = true) as H3 by (apply H2, in_seq; lia).
    rewrite existsb_exists in H3. destruct H3 as ([[s l] w] & Hw & E). apply Z.eqb_eq in E. unfold words in Hw.
    rewrite <-list_elem_of_In in Hw. apply list_elem_of_fmap in Hw as (s' & [= -> -> ->] & Hs'). apply elem_of_seq in Hs'.
    destruct (lookup_lt_is_Some_2 lens s' ltac:(lia)) as [l Hl]. exists s', l. destruct (Hs s' l Hl) as (Hlr & _).
    unfold starts, word_of in *. rewrite (nth_lookup_Some _ _ _ _ Hl) in *. cbv zeta in E. rewrite mod_mod_pow in E by lia. split_and!; [done|lia|done].
Qed.
End flat.

(** RFC 1951, 3.2.6. *)
Definition fixed_lengths : list Z := replicate 144 8 ++ replicate 112 9 ++ replicate 24 7 ++ replicate 8 8.
Definition fixed_dists : list Z := replicate 32 5.

(** The entries of [lenfix]: the symbols 286 and 287, which never occur, are marked
    invalid. *)
Definition fixed_entry (s : nat) : Z * Z := if (286 <=? s)%nat then (64, 0) else symbol_entry LENS (Z.of_nat s).

Lemma lenfix_ok codes : table_ok (entry codes LenFix) 9 fixed_lengths fixed_entry.
Proof. apply flat_table; [lia|]. vm_compute. reflexivity. Qed.

Lemma distfix_ok codes : table_ok (entry codes DistFix) 5 fixed_dists (λ s, symbol_entry DISTS (Z.of_nat s)).
Proof. apply flat_table; [lia|]. vm_compute. reflexivity. Qed.
