(* ===== verification/InflateRead.v ===== *)
(** * How the decompressor reads its input

    The bits still to be read are a number: the bits in [hold], then the bytes of the
    input ([feeds]).  Pulling bytes keeps it, dropping bits divides it.  [run_find_symbol]:
    a table that decodes a code finds the symbol whose code word the input starts with,
    pulling no more bytes than it takes. *)

From stdpp Require Import base tactics numbers list gmap.
From S2P Require Import Prelude Memory Words Inftrees InftreesSpec InftreesMain Inflate Bitstream InflateTables.

Open Scope Z_scope.

Definition feeds (m : mem) (next hold bits : Z) (l : list Z) (X : Z) : Prop :=
  bytes_at m next l ∧ 0 ≤ bits ∧ 0 ≤ hold < 2 ^ bits ∧ X = hold + 2 ^ bits * le_value l.

Section feeds.
Context (m : mem).

Lemma feeds_hold next hold bits l X : feeds m next hold bits l X → hold = X mod 2 ^ bits.
Proof. intros (_ & Hb & Hh & ->). rewrite Z.mul_comm, Z_mod_plus_full, Z.mod_small; lia. Qed.

Lemma feeds_mod next hold bits l X n : feeds m next hold bits l X → 0 ≤ n ≤ bits → hold mod 2 ^ n = X mod 2 ^ n.
Proof. intros H Hn. rewrite (feeds_hold _ _ _ _ _ H). by apply mod_mod_pow. Qed.

Lemma feeds_pull next hold bits b l X : feeds m next hold bits (b :: l) X →
  is_byte b ∧ m !! next = Some b ∧ feeds m (next + 1) (hold + b * 2 ^ bits) (bits + 8) l X.
Proof.
  intros (Hm & Hb & Hh & ->). apply bytes_at_cons in Hm as (Hbyte & Hp & Hm). split; [done|]. split; [done|].
  split; [done|]. split; [lia|]. rewrite Z.pow_add_r by lia. change (2 ^ 8) with 256. unfold is_byte in Hbyte.
  pose proof (pow_pos bits Hb). split; [nia|]. cbn [le_value]. ring.
Qed.

(** The shift and the sum as the code has them. *)
Lemma feeds_pull_u64 next hold bits b l X : feeds m next hold bits (b :: l) X → bits ≤ 56 →
  u64 (hold + Z.shiftl b bits) = hold + b * 2 ^ bits ∧ u32 (bits + 8) = bits + 8.
Proof.
  intros Hf Hb. destruct (feeds_pull _ _ _ _ _ _ Hf) as (_ & _ & _ & Hb0 & Hh & _). assert (0 ≤ bits) by apply Hf.
  rewrite Z.shiftl_mul_pow2 by done. split; apply wrap_small; [|lia]. split; [lia|].
  apply Z.lt_le_trans with (2 ^ (bits + 8)); [lia|]. apply Z.pow_le_mono_r; lia.
Qed.

Lemma feeds_drop next hold bits l X n : feeds m next hold bits l X → 0 ≤ n ≤ bits →
  feeds m next (hold / 2 ^ n) (bits - n) l (X / 2 ^ n).
Proof.
  intros (Hm & Hb & Hh & ->) Hn. pose proof (pow_pos n ltac:(lia)).
  assert (2 ^ bits = 2 ^ (bits - n) * 2 ^ n) as E by (rewrite <-Z.pow_add_r by lia; f_equal; lia).
  split; [done|]. split; [lia|]. split.
  - split; [apply Z.div_pos; lia|]. apply Z.div_lt_upper_bound; [lia|]. rewrite Z.mul_comm. lia.
  - rewrite E. replace (2 ^ (bits - n) * 2 ^ n * le_value l) with (2 ^ (bits - n) * le_value l * 2 ^ n) by ring.
    rewrite Z.div_add by lia. ring.
Qed.
(** The bytes before, given back. *)
Lemma le_value_drop l j : Forall is_byte l → (j ≤ length l)%nat → le_value l / 2 ^ (8 * Z.of_nat j) = le_value (drop j l).
Proof.
  intros Hl Hj. rewrite <-(take_drop j l) at 1. rewrite le_value_app, length_take_le by done.
  pose proof (pow_pos (8 * Z.of_nat j) ltac:(lia)). rewrite Z.mul_comm, Z.div_add by lia.
  pose proof (le_value_range (take j l) (Forall_take _ _ _ Hl)) as Hr. rewrite length_take_le in Hr by done. rewrite Z.div_small by done. done.
Qed.

Lemma feeds_unpull next0 hold0 bits0 l0 X0 next hold bits l X k j :
  feeds m next0 hold0 bits0 l0 X0 → feeds m next hold bits l X → 0 ≤ k → X = X0 / 2 ^ k →
  next + Z.of_nat (length l) = next0 + Z.of_nat (length l0) → k + bits = bits0 + 8 * (next - next0) →
  0 ≤ j → 8 * j ≤ bits → next0 ≤ next - j →
  feeds m (next - j) (hold mod 2 ^ (bits - 8 * j)) (bits - 8 * j) (drop (Z.to_nat (next - j - next0)) l0) X.
Proof.
  intros Hf0 Hf Hk HX Hend Hpos Hj Hb Hnext. pose proof Hf0 as (Hm0 & Hb0 & Hh0 & HX0). pose proof (feeds_mod _ _ _ _ _ (bits - 8 * j) Hf ltac:(lia)) as ->.
  pose proof (pow_pos (bits - 8 * j) ltac:(lia)). set (d := Z.to_nat (next - j - next0)).
  split; [|split; [lia|]]; [|split; [by apply Z.mod_pos_bound|]].
  - rewrite <-(take_drop d l0), bytes_at_app in Hm0. destruct Hm0 as [_ Hm0]. rewrite length_take_le in Hm0 by lia.
    by replace (next0 + Z.of_nat d) with (next - j) in Hm0 by lia.
  - assert (X / 2 ^ (bits - 8 * j) = le_value (drop d l0)) as <-; [|rewrite Z.add_comm; apply Z.div_mod; lia].
    rewrite HX, Z.div_div, <-Z.pow_add_r by (lia || apply pow_pos; lia).
    replace (k + (bits - 8 * j)) with (bits0 + 8 * Z.of_nat d) by lia. rewrite Z.pow_add_r, <-Z.div_div by (lia || apply pow_pos; lia).
    rewrite <-(le_value_drop l0) by (apply Hm0 || lia). f_equal. rewrite HX0, Z.mul_comm, Z.div_add, Z.div_small by (lia || (pose proof (pow_pos bits0 Hb0); lia)). lia.
Qed.
End feeds.

(** ** On the machine *)

(** [n] bits are left, the number [X]. *)
Definition input (i : inflating) (X n : Z) : Prop :=
  let r := f_regs i in
  ∃ l, feeds (f_mem i) (r_next r) (r_hold r) (r_bits r) l X ∧ r_have r = Z.of_nat (length l) ∧
    n = r_bits r + 8 * Z.of_nat (length l).

(** Only the registers of the input change. *)
Definition moved (i i' : inflating) : Prop :=
  f_mem i' = f_mem i ∧ f_strm i' = f_strm i ∧ f_state i' = f_state i ∧
  r_put (f_regs i') = r_put (f_regs i) ∧ r_left (f_regs i') = r_left (f_regs i) ∧
  r_in (f_regs i') = r_in (f_regs i) ∧ r_out (f_regs i') = r_out (f_regs i) ∧
  r_next (f_regs i') + r_have (f_regs i') = r_next (f_regs i) + r_have (f_regs i) ∧
  r_next (f_regs i) ≤ r_next (f_regs i').

#[export] Instance moved_preorder : PreOrder moved.
Proof.
  split; [by intros i; split_and!|]. intros i j k (?&?&?&?&?&?&?&?&?) (?&?&?&?&?&?&?&?&?). split_and!; try congruence; lia.
Qed.

Section machine.
Implicit Types (i : inflating) (X n : Z) (k : machine turn).

Lemma run_the_regs i : the_regs i = Ret (f_regs i) i.
Proof. done. Qed.
Lemma run_the_state i : the_state i = Ret (f_state i) i.
Proof. done. Qed.

Lemma run_PULLBYTE k i X n : input i X n → r_bits (f_regs i) < n → r_bits (f_regs i) ≤ 56 →
  ∃ i', PULLBYTE k i = k i' ∧ input i' X n ∧ moved i i' ∧ r_bits (f_regs i') = r_bits (f_regs i) + 8.
Proof.
  intros (l & Hf & Hh & ->) Hlt Hb. destruct l as [|b l]; [cbn in Hlt; lia|]. destruct (feeds_pull _ _ _ _ _ _ _ Hf) as (Hbyte & Hm & Hf').
  unfold PULLBYTE. rewrite run_bind, run_the_regs. cbn beta iota. rewrite (proj2 (Z.eqb_neq _ 0)) by (rewrite Hh; cbn [length]; lia).
  rewrite run_bind. unfold inmem, zoom at 1. rewrite (run_load8 _ _ _ Hm). cbn beta iota. rewrite run_bind. unfold on_regs at 1. rewrite run_modify. cbn beta iota.
  eexists. split; [done|]. cbn. destruct (feeds_pull_u64 _ _ _ _ _ _ _ Hf Hb) as [-> ->].
  split; [|split; [split_and!; cbn; lia || done|done]]. exists l. cbn. cbn [length] in *. split; [done|]. lia.
Qed.

Lemma pull_while_S fuel need k i :
  pull_while (S fuel) need k i = if r_bits (f_regs i) <? need then PULLBYTE (pull_while fuel need k) i else k i.
Proof. cbn [pull_while]. rewrite run_bind, run_the_regs. by destruct (_ <? _). Qed.

Lemma run_pull_while fuel need k i X n : input i X n → need ≤ n → need ≤ 56 → need ≤ r_bits (f_regs i) + 8 * Z.of_nat fuel →
  ∃ i', pull_while (S fuel) need k i = k i' ∧ input i' X n ∧ moved i i' ∧ need ≤ r_bits (f_regs i') ∧
    r_bits (f_regs i) ≤ r_bits (f_regs i') ≤ Z.max (r_bits (f_regs i)) (need + 7).
Proof.
  revert i. induction fuel as [|fuel IH]; intros i Hi Hn H56 Hf; rewrite pull_while_S.
  - rewrite (proj2 (Z.ltb_ge _ _)) by lia. exists i. split_and!; done || lia.
  - destruct (Z.ltb_spec (r_bits (f_regs i)) need) as [Hlt|Hge]; [|exists i; split_and!; done || lia].
    destruct (run_PULLBYTE (pull_while (S fuel) need k) i X n Hi ltac:(lia) ltac:(lia)) as (i1 & E1 & Hi1 & Hm1 & Hb1).
    destruct (IH i1 Hi1) as (i2 & E2 & Hi2 & Hm2 & Hn2 & Hb2); [lia..|]. exists i2. rewrite E1, E2. split; [done|]. split; [done|].
    split; [by transitivity i1|lia].
Qed.

Lemma run_NEEDBITS need k i X n : input i X n → 0 ≤ need ≤ n → need ≤ 56 →
  ∃ i', NEEDBITS need k i = k i' ∧ input i' X n ∧ moved i i' ∧ need ≤ r_bits (f_regs i') ∧
    r_bits (f_regs i) ≤ r_bits (f_regs i') ≤ Z.max (r_bits (f_regs i)) (need + 7).
Proof.
  intros Hi Hn H56. apply run_pull_while; [done|lia|lia|]. destruct Hi as (l & Hf & _). pose proof (proj1 (proj2 Hf)). lia.
Qed.

Lemma run_DROPBITS d i X n : input i X n → 0 ≤ d ≤ r_bits (f_regs i) → r_bits (f_regs i) < 2 ^ 32 →
  ∃ i', DROPBITS d i = Ret tt i' ∧ input i' (X / 2 ^ d) (n - d) ∧ moved i i' ∧ r_bits (f_regs i') = r_bits (f_regs i) - d.
Proof.
  intros (l & Hf & Hh & ->) Hd Hb. unfold DROPBITS, on_regs. rewrite run_modify. eexists. split; [done|]. cbn.
  rewrite wrap_small by lia. split; [|split; [split_and!; cbn; lia || done|done]]. exists l. cbn.
  rewrite Z.shiftr_div_pow2 by lia. split; [by apply feeds_drop|]. lia.
Qed.

(** The low bits of the input. *)
Lemma run_the_bits i X n d : input i X n → 0 ≤ d ≤ r_bits (f_regs i) → d < 32 → the_bits d i = Ret (X mod 2 ^ d) i.
Proof.
  intros (l & Hf & _) Hk H32. unfold the_bits. rewrite run_bind, run_the_regs. cbn beta iota. rewrite BITS_mod by lia.
  by rewrite (feeds_mod _ _ _ _ _ _ _ Hf) by lia.
Qed.

Lemma input_hold i X n : input i X n → r_hold (f_regs i) = X mod 2 ^ r_bits (f_regs i) ∧ 0 ≤ r_bits (f_regs i) ≤ n.
Proof. intros (l & Hf & _ & ->). split; [by apply (feeds_hold _ _ _ _ _ _ Hf)|]. pose proof (proj1 (proj2 Hf)). lia. Qed.

(** *** Looking up a symbol *)

Lemma find_code_S fuel t at_ nb shift (k : code → machine turn) i :
  find_code (S fuel) t at_ nb shift k i =
  match entry (i_codes (f_state i)) (t (f_state i)) (at_ + Z.shiftr (BITS (r_hold (f_regs i)) nb) shift) with
  | Some this => if shift + bits this <=? r_bits (f_regs i) then k this i else PULLBYTE (find_code fuel t at_ nb shift k) i
  | None => UB
  end.
Proof.
  cbn [find_code]. rewrite run_bind, run_the_state. cbn beta iota. rewrite run_bind, run_the_regs. cbn beta iota. rewrite run_bind.
  unfold read_entry. destruct (entry _ _ _); [|done]. cbn. by destruct (_ <=? _).
Qed.

(** Pulling bytes until the entry for the bits there are can be trusted: it is [target],
    which the input leads to once there are [L] bits. *)
Lemma run_find_code (t : inflate_state → table) at_ nb shift target L b0 (k : code → machine turn) s X n :
  (∀ b, b0 ≤ b → ∃ e, entry (i_codes s) (t s) (at_ + Z.shiftr (BITS (X mod 2 ^ b) nb) shift) = Some e ∧
    (shift + bits e ≤ b → e = target) ∧ (L ≤ b → shift + bits e ≤ b)) →
  L ≤ n → L ≤ 48 →
  ∀ fuel i, f_state i = s → input i X n → b0 ≤ r_bits (f_regs i) → L ≤ r_bits (f_regs i) + 8 * Z.of_nat fuel →
  ∃ i', find_code (S fuel) t at_ nb shift k i = k target i' ∧ input i' X n ∧ moved i i' ∧
    shift + bits target ≤ r_bits (f_regs i') ∧ r_bits (f_regs i) ≤ r_bits (f_regs i') ≤ Z.max (r_bits (f_regs i)) (L + 7).
Proof.
  intros Hall HLn HL fuel. induction fuel as [|fuel IH]; intros i Hs Hi Hb0 Hfuel; rewrite find_code_S, Hs;
    destruct (input_hold i X n Hi) as [Hhold Hb]; rewrite Hhold;
    destruct (Hall (r_bits (f_regs i)) ltac:(lia)) as (e & -> & He1 & He2).
  - rewrite (proj2 (Z.leb_le _ _)) by (apply He2; lia). rewrite <-He1 by (apply He2; lia). exists i. split_and!; done || lia || (apply He2; lia).
  - destruct (Z.leb_spec (shift + bits e) (r_bits (f_regs i))) as [Hle|Hgt].
    { rewrite <-He1 by done. exists i. split_and!; done || lia. }
    destruct (run_PULLBYTE (find_code (S fuel) t at_ nb shift k) i X n Hi) as (i1 & E1 & Hi1 & Hm1 & Hb1).
    { destruct (decide (L ≤ r_bits (f_regs i))); [specialize (He2 ltac:(lia)); lia|lia]. }
    { destruct (decide (L ≤ r_bits (f_regs i))); [specialize (He2 ltac:(lia)); lia|lia]. }
    destruct (IH i1) as (i2 & E2 & Hi2 & Hm2 & Ht2 & Hb2); [destruct Hm1 as (_ & _ & -> & _); done|done|lia|lia|].
    exists i2. rewrite E1, E2. split; [done|]. split; [done|]. split; [by transitivity i1|]. split; [done|].
    destruct (decide (L ≤ r_bits (f_regs i))); [specialize (He2 ltac:(lia)); lia|lia].
Qed.

Section symbol.
Context (t : inflate_state → table) (nb : inflate_state → Z) (two : code → bool) (s : inflate_state).
Context (lens : list Z) (ent : nat → Z * Z).
Abbreviation f := (entry (i_codes s) (t s)).
Abbreviation root := (nb s).
Hypothesis Htab : table_ok f root lens ent.
Hypothesis Htwo1 : ∀ e, 1 ≤ op e ≤ 15 → two e = true.
Hypothesis Htwo2 : ∀ x e, (x < length lens)%nat → op e = fst (ent x) → two e = false.

Context (X : Z) (sym : nat) (l : Z).
Hypothesis Hsym : lens !! sym = Some l.
Hypothesis Hl : l ≠ 0.
Hypothesis Hstart : starts lens sym l X.

(** What the first [b] bits find, and how it is related to what all of them do. *)
Lemma partial_finds b : 0 ≤ b → ∃ sym' l', (sym' < length lens)%nat ∧ finds f root (X mod 2 ^ b) (ent sym') l' ∧
  (l' ≤ b → ent sym' = ent sym ∧ l' = l) ∧ (l ≤ b → l' ≤ b).
Proof.
  intros Hb. destruct (tk_all _ _ _ _ Htab (X mod 2 ^ b)) as (sym' & l' & Hs' & Hl' & Hst'). exists sym', l'.
  pose proof (lookup_lt_Some _ _ _ Hs') as Hlt. pose proof (lookup_lt_Some _ _ _ Hsym) as Hlt0.
  pose proof (tk_finds _ _ _ _ Htab sym' l' _ Hs' Hl' Hst') as Hf. pose proof (tk_finds _ _ _ _ Htab sym l X Hsym Hl Hstart) as Hf0.
  pose proof (proj1 (Forall_lookup _ _) (tk_lens _ _ _ _ Htab) sym' l' Hs') as Hr'. pose proof (proj1 (Forall_lookup _ _) (tk_lens _ _ _ _ Htab) sym l Hsym) as Hr.
  cbn beta in Hr, Hr'. pose proof (tk_root _ _ _ _ Htab). pose proof (tk_ops _ _ _ _ Htab sym' Hlt). pose proof (tk_ops _ _ _ _ Htab sym Hlt0).
  split; [done|]. split; [done|]. split; intros Hle.
  - apply (finds_det f root X); [lia|done..| |done]. apply (tk_finds _ _ _ _ Htab); [done..|]. unfold starts in *. by rewrite mod_mod_pow in Hst' by lia.
  - assert (finds f root (X mod 2 ^ b) (ent sym) l) as Hf1.
    { apply (tk_finds _ _ _ _ Htab); [done..|]. unfold starts. by rewrite mod_mod_pow by lia. }
    destruct (finds_det f root (X mod 2 ^ b) (ent sym') l' (ent sym) l) as [_ ->]; try done; lia.
Qed.

Lemma sym_range : 1 ≤ root ≤ 15 ∧ 1 ≤ l ≤ 15.
Proof.
  pose proof (proj1 (Forall_lookup _ _) (tk_lens _ _ _ _ Htab) sym l Hsym) as Hr. cbn beta in Hr. pose proof (tk_root _ _ _ _ Htab). lia.
Qed.

Lemma BITS_first b : 0 + Z.shiftr (BITS (X mod 2 ^ b) root) 0 = X mod 2 ^ b mod 2 ^ root.
Proof. pose proof sym_range. rewrite Z.shiftr_0_r, BITS_mod by lia. lia. Qed.

(** A symbol of the first level. *)
Lemma find_first : l ≤ root → ∀ b, 0 ≤ b →
  ∃ e, f (0 + Z.shiftr (BITS (X mod 2 ^ b) root) 0) = Some e ∧
    (0 + bits e ≤ b → e = Code (fst (ent sym)) l (snd (ent sym))) ∧ (l ≤ b → 0 + bits e ≤ b).
Proof.
  intros Hlr b Hb. pose proof sym_range. rewrite BITS_first. destruct (partial_finds b Hb) as (sym' & l' & Hlt & Hf & Hdet & Hle).
  destruct Hf as [[Hl' Hf]|(Hl' & c & n & Hc & Hlc & Hf & _)]; rewrite Hf; eexists; split; [done| |done|]; cbn [bits].
  - split; [|lia]. intros Hb'. destruct Hdet as [-> ->]; [lia|done].
  - split; [|intros Hb'; specialize (Hle Hb'); lia]. intros Hb'. exfalso. rewrite mod_mod_pow in Hf by lia.
    destruct (tk_finds _ _ _ _ Htab sym l X Hsym Hl Hstart) as [[_ Hf0]|[Hlr' _]]; [|lia]. rewrite Hf0 in Hf. simplify_eq.
    apply (link_op (fst (ent sym))); [lia|]. apply (tk_ops _ _ _ _ Htab). by apply lookup_lt_Some in Hsym.
Qed.

(** The link to the second level, and the symbol there. *)
Lemma find_link c n : root < l → f (X mod 2 ^ root) = Some (Code c root n) → 1 ≤ c ≤ 15 → ∀ b, 0 ≤ b →
  ∃ e, f (0 + Z.shiftr (BITS (X mod 2 ^ b) root) 0) = Some e ∧
    (0 + bits e ≤ b → e = Code c root n) ∧ (root ≤ b → 0 + bits e ≤ b).
Proof.
  intros Hlr Hlink Hc b Hb. pose proof sym_range. rewrite BITS_first. destruct (partial_finds b Hb) as (sym' & l' & Hlt & Hf & Hdet & Hle).
  destruct Hf as [[Hl' Hf]|(Hl' & c' & n' & Hc' & Hlc & Hf & _)]; rewrite Hf; eexists; split; [done| |done|]; cbn [bits].
  - split; [intros Hb'; destruct Hdet; lia|]. intros Hb'. exfalso. rewrite mod_mod_pow, Hlink in Hf by lia. simplify_eq.
    apply (link_op (fst (ent sym'))); [lia|]. by apply (tk_ops _ _ _ _ Htab).
  - split; [|lia]. intros Hb'. rewrite mod_mod_pow, Hlink in Hf by lia. by simplify_eq.
Qed.

Lemma find_second c n : root < l → f (X mod 2 ^ root) = Some (Code c root n) → 1 ≤ c → l ≤ root + c ≤ 15 → ∀ b, root ≤ b →
  ∃ e, f (n + Z.shiftr (BITS (X mod 2 ^ b) (root + c)) root) = Some e ∧
    (root + bits e ≤ b → e = Code (fst (ent sym)) (l - root) (snd (ent sym))) ∧ (l ≤ b → root + bits e ≤ b).
Proof.
  intros Hlr Hlink Hc Hlc b Hb. pose proof sym_range. rewrite BITS_mod, Z.shiftr_div_pow2 by lia.
  destruct (partial_finds b ltac:(lia)) as (sym' & l' & Hlt & Hf & Hdet & Hle).
  destruct Hf as [[Hl' Hf]|(Hl' & c' & n' & Hc' & Hlc' & Hf & Hf2)]; rewrite mod_mod_pow, Hlink in Hf by lia; simplify_eq.
  { exfalso. apply (link_op (fst (ent sym'))); [lia|]. by apply (tk_ops _ _ _ _ Htab). }
  rewrite Hf2. eexists. split; [done|]. cbn [bits]. replace (root + (l' - root)) with l' by lia. split; [|done].
  intros Hb'. by destruct Hdet as [-> ->].
Qed.

(** The symbol the input starts with, its bits dropped. *)
Lemma run_find_symbol (k : code → machine turn) i n : f_state i = s → input i X n → l ≤ n → r_bits (f_regs i) ≤ 48 →
  ∃ this i', find_symbol t nb two k i = k this i' ∧ op this = fst (ent sym) ∧ val this = snd (ent sym) ∧
    input i' (X / 2 ^ l) (n - l) ∧ moved i i' ∧ r_bits (f_regs i') ≤ Z.max (r_bits (f_regs i) - l) 7.
Proof.
  intros Hs Hi Hln Hb. pose proof sym_range. pose proof (proj2 (input_hold i X n Hi)) as Hb0.
  pose proof (lookup_lt_Some _ _ _ Hsym) as Hlt. unfold find_symbol. rewrite run_bind, run_the_state. cbn beta iota. rewrite Hs.
  change code_fuel with (S 63). destruct (tk_finds _ _ _ _ Htab sym l X Hsym Hl Hstart) as [[Hlr Hf]|(Hlr & c & n' & Hc & Hlc & Hf1 & Hf2)].
  - match goal with |- context [find_code _ t _ _ _ ?K _] => set (K1 := K) end.
    destruct (run_find_code t 0 root 0 (Code (fst (ent sym)) l (snd (ent sym))) l 0 K1 s X n (find_first (proj2 Hlr)) ltac:(lia) ltac:(lia) 63 i Hs Hi ltac:(lia) ltac:(lia))
      as (i1 & -> & Hi1 & Hm1 & Ht1 & Hb1). subst K1. cbv beta.
    rewrite (Htwo2 sym) by done. cbn [bits] in *. rewrite run_bind.
    destruct (run_DROPBITS l i1 X n Hi1 ltac:(lia) ltac:(lia)) as (i2 & -> & Hi2 & Hm2 & Hb2).
    eexists _, i2. split; [done|]. split; [done|]. split; [done|]. split; [done|]. split; [by transitivity i1|lia].
  - match goal with |- context [find_code _ t _ _ _ ?K _] => set (K1 := K) end.
    destruct (run_find_code t 0 root 0 (Code c root n') root 0 K1 s X n (find_link c n' Hlr Hf1 ltac:(lia)) ltac:(lia) ltac:(lia) 63 i Hs Hi ltac:(lia) ltac:(lia))
      as (i1 & -> & Hi1 & Hm1 & Ht1 & Hb1). subst K1. cbv beta.
    rewrite Htwo1 by (cbn; lia). cbn [op bits val] in *.
    match goal with |- context [find_code _ t _ _ _ ?K _] => set (K1 := K) end. assert (f_state i1 = s) as Hs1 by (destruct Hm1 as (_ & _ & -> & _); done).
    destruct (run_find_code t n' (root + c) root (Code (fst (ent sym)) (l - root) (snd (ent sym))) l root K1 s X n
      (find_second c n' Hlr Hf1 Hc Hlc) ltac:(lia) ltac:(lia) 63 i1 Hs1 Hi1 ltac:(lia) ltac:(lia)) as (i2 & -> & Hi2 & Hm2 & Ht2 & Hb2).
    subst K1. cbv beta. cbn [bits] in *. rewrite run_bind.
    destruct (run_DROPBITS root i2 X n Hi2 ltac:(lia) ltac:(lia)) as (i3 & -> & Hi3 & Hm3 & Hb3). rewrite run_bind.
    destruct (run_DROPBITS (l - root) i3 _ _ Hi3 ltac:(lia) ltac:(lia)) as (i4 & -> & Hi4 & Hm4 & Hb4).
    rewrite Z.div_div, <-Z.pow_add_r in Hi4 by (lia || apply pow_pos; lia). replace (root + (l - root)) with l in Hi4 by lia.
    replace (n - root - (l - root)) with (n - l) in Hi4 by lia. eexists _, i4. split; [done|]. split; [done|]. split; [done|]. split; [done|].
    split; [by transitivity i1; [|transitivity i2; [|transitivity i3]]|lia].
Qed.
End symbol.
End machine.
