(* ===== verification/InflateCopy.v ===== *)
(** * How the decompressor copies

    What it has written is the output [O] of this call, and before it the window [W] of
    earlier calls, a ring in memory.  A match appends bytes from some distance back, one
    after another, so that it may repeat what it has just written ([grow]).  The copying
    loops of [inflate_fast] and of [inflate] do that, in whatever pieces the ring and the
    unrolling make of it. *)

From stdpp Require Import base tactics numbers list gmap.
From S2P Require Import Prelude Memory Words Inflate.

Open Scope Z_scope.

Section copy.
(** The memory of the caller, the space for output from [ob] to [oe], the window. *)
Context (m0 : mem) (ob oe : Z) (window wsize write : Z) (W : list Z).

Hypothesis Hspace : valid m0 ob (oe - ob).
Hypothesis Hring : W ≠ [] → 0 ≤ write < wsize ∧ Z.of_nat (length W) ≤ wsize ∧ disjoint_ranges window wsize ob (oe - ob).
Hypothesis HW : ∀ j, 1 ≤ j ≤ Z.of_nat (length W) →
  m0 !! (window + (write - j) mod wsize) = W !! Z.to_nat (Z.of_nat (length W) - j).
Hypothesis HWb : Forall is_byte W.

Implicit Types (m : mem) (O : list Z).

(** [O] is written, and nothing outside of the space is touched. *)
Record out_is (m : mem) (O : list Z) : Prop := {
  out_frame : ∀ a, a < ob ∨ oe ≤ a → m !! a = m0 !! a;
  out_bytes : bytes_at m ob O;
  out_len : Z.of_nat (length O) ≤ oe - ob;
  out_valid : valid m ob (oe - ob) }.

Lemma out_store m O b : out_is m O → Z.of_nat (length O) < oe - ob → is_byte b →
  ∃ m', store8 (ob + Z.of_nat (length O)) b m = Ret tt m' ∧ out_is m' (O ++ [b]).
Proof.
  intros [Hf Hb Hl Hv] Hlt Hbyte. rewrite run_store8 by (apply Hv; lia). eexists. split; [done|]. rewrite u8_byte by done. split.
  - intros a Ha. rewrite lookup_insert_ne by lia. by apply Hf.
  - apply bytes_at_app. split.
    + apply (bytes_at_ext m); [done|]. intros a Ha. apply lookup_insert_ne. lia.
    + apply bytes_at_cons. split; [done|]. split; [apply lookup_insert_eq|apply bytes_at_nil].
  - rewrite length_app. cbn. lia.
  - by apply valid_insert.
Qed.

(** The byte [dist] back. *)
Definition back (O : list Z) (dist : Z) : Z := nth (Z.to_nat (Z.of_nat (length (W ++ O)) - dist)) (W ++ O) 0.

Fixpoint grow (n : nat) (dist : Z) (O : list Z) : list Z :=
  match n with O => O | S n => grow n dist (O ++ [back O dist]) end.

Lemma grow_length n dist O : length (grow n dist O) = (n + length O)%nat.
Proof. revert O. induction n as [|n IH]; intros O; cbn [grow]; [done|]. rewrite IH, length_app. cbn. lia. Qed.

Lemma grow_add a b dist O : grow (a + b) dist O = grow b dist (grow a dist O).
Proof. revert O. induction a as [|a IH]; intros O; cbn [grow Nat.add]; [done|]. apply IH. Qed.

(** Where it is, after [n] bytes of output. *)
Definition addr (n dist : Z) : Z := if dist <=? n then ob + n - dist else window + (write - (dist - n)) mod wsize.

Lemma load_addr m O dist : out_is m O → 1 ≤ dist ≤ Z.of_nat (length (W ++ O)) →
  m !! addr (Z.of_nat (length O)) dist = Some (back O dist) ∧ is_byte (back O dist).
Proof.
  intros [Hf Hb Hl Hv] Hd. rewrite length_app in Hd. unfold back, addr. rewrite length_app.
  assert (∃ b, (W ++ O) !! Z.to_nat (Z.of_nat (length W + length O) - dist) = Some b) as [b Hb'].
  { apply lookup_lt_is_Some_2. rewrite length_app. lia. }
  rewrite (nth_lookup_Some _ _ _ _ Hb'). split.
  - destruct (Z.leb_spec dist (Z.of_nat (length O))) as [Hle|Hgt].
    + rewrite lookup_app_r in Hb' by lia. rewrite <-Hb'. replace (ob + Z.of_nat (length O) - dist) with (ob + (Z.of_nat (length O) - dist)) by lia.
      rewrite (bytes_at_lookup _ _ _ _ Hb) by lia. f_equal. lia.
    + rewrite lookup_app_l in Hb' by lia. rewrite <-Hb'. assert (W ≠ []) as HW0 by (intros E; rewrite E in *; cbn in *; lia).
      destruct (Hring HW0) as (Hw1 & Hw2 & Hdis). pose proof (Z.mod_pos_bound (write - (dist - Z.of_nat (length O))) wsize ltac:(lia)).
      rewrite Hf by (unfold disjoint_ranges in Hdis; lia). rewrite HW by lia. f_equal. lia.
  - assert (Forall is_byte (W ++ O)) as HF by (apply Forall_app_2; [done|apply Hb]). by apply (Forall_lookup_1 _ _ _ _ HF Hb').
Qed.

(** ** Byte by byte *)

Fixpoint copy_bytes (n : nat) (put from : Z) : C mem unit :=
  match n with
  | O => mret tt
  | S n => b ← load8 from; store8 put b;; copy_bytes n (put + 1) (from + 1)
  end.

Lemma run_copy_bytes n m O from dist : out_is m O → Z.of_nat (length O) + Z.of_nat n ≤ oe - ob →
  1 ≤ dist ≤ Z.of_nat (length (W ++ O)) →
  (∀ j, 0 ≤ j < Z.of_nat n → from + j = addr (Z.of_nat (length O) + j) dist) →
  ∃ m', copy_bytes n (ob + Z.of_nat (length O)) from m = Ret tt m' ∧ out_is m' (grow n dist O).
Proof.
  revert m O from. induction n as [|n IH]; intros m O from Hm Hn Hd Hfrom; [by exists m|]. cbn [copy_bytes grow].
  destruct (load_addr m O dist Hm Hd) as [Hload Hbyte]. pose proof (Hfrom 0 ltac:(lia)) as H0. rewrite !Z.add_0_r in H0. rewrite <-H0 in Hload.
  rewrite run_bind, (run_load8 _ _ _ Hload). cbn beta iota. destruct (out_store m O _ Hm ltac:(lia) Hbyte) as (m1 & E1 & Hm1).
  rewrite run_bind, E1. cbn beta iota. assert (length (O ++ [back O dist]) = S (length O)) as El by (rewrite length_app; cbn; lia).
  replace (ob + Z.of_nat (length O) + 1) with (ob + Z.of_nat (length (O ++ [back O dist]))) by lia.
  apply IH; [done|lia|rewrite !length_app in *; cbn; lia|]. intros j Hj. rewrite El. rewrite <-Z.add_assoc, Hfrom by lia. f_equal. lia.
Qed.

Lemma copy_bytes_add a b put from m :
  copy_bytes (a + b) put from m = (copy_bytes a put from;; copy_bytes b (put + Z.of_nat a) (from + Z.of_nat a)) m.
Proof.
  revert put from m. induction a as [|a IH]; intros put from m; cbn [copy_bytes Nat.add].
  - rewrite run_bind, run_ret. cbn beta iota. by rewrite !Z.add_0_r.
  - rewrite !run_bind. destruct (load8 from m) as [x m1| |]; [|done..]. rewrite !run_bind. destruct (store8 put x m1) as [[] m2| |]; [|done..].
    rewrite IH, !run_bind. destruct (copy_bytes a (put + 1) (from + 1) m2) as [[] m3| |]; [|done..]. f_equal; lia.
Qed.

(** ** The loops *)

Lemma run_copy_one out from m : copy_one out from m = copy_bytes 1 (out + 1) (from + 1) m.
Proof.
  unfold copy_one. cbn [copy_bytes]. rewrite !run_bind. destruct (load8 (from + 1) m) as [x m1| |]; [|done..].
  rewrite run_bind. by destruct (store8 (out + 1) x m1) as [[] m2| |].
Qed.

Lemma run_copy_three out from m : copy_three out from m = copy_bytes 3 (out + 1) (from + 1) m.
Proof.
  change 3%nat with (1 + (1 + 1))%nat. unfold copy_three. rewrite copy_bytes_add, !run_bind, run_copy_one.
  destruct (copy_bytes 1 (out + 1) (from + 1) m) as [[] m1| |]; [|done..]. rewrite copy_bytes_add, !run_bind, run_copy_one.
  replace (out + 1 + Z.of_nat 1) with (out + 1 + 1) by lia. replace (from + 1 + Z.of_nat 1) with (from + 1 + 1) by lia.
  destruct (copy_bytes 1 (out + 1 + 1) (from + 1 + 1) m1) as [[] m2| |]; [|done..]. rewrite run_copy_one. f_equal; lia.
Qed.

(** [copy_bytes], then the moved pointer *)
Definition copied (n : nat) (out from : Z) : C mem Z := copy_bytes n (out + 1) (from + 1);; mret (out + Z.of_nat n).

Lemma run_copy_rest n out from m : (n < 3)%nat → copy_rest (Z.of_nat n) out from m = copied n out from m.
Proof.
  intros Hn. unfold copy_rest, copied. destruct n as [|[|[|n]]]; [| | |lia].
  - cbn. by rewrite Z.add_0_r.
  - change (Z.of_nat 1 =? 0) with false. change (1 <? Z.of_nat 1) with false. cbn beta iota. by rewrite !run_bind, run_copy_one.
  - change (Z.of_nat 2 =? 0) with false. change (1 <? Z.of_nat 2) with true. cbn beta iota. change 2%nat with (1 + 1)%nat at 2.
    rewrite !run_bind, run_copy_one, copy_bytes_add, run_bind. destruct (copy_bytes 1 (out + 1) (from + 1) m) as [[] m1| |]; [|done..].
    rewrite run_bind, run_copy_one. by replace (from + 1 + Z.of_nat 1) with (from + 1 + 1) by lia.
Qed.

Lemma copied_three n out from m :
  copied (3 + n) out from m = (copy_three out from;; copied n (out + 3) (from + 3)) m.
Proof.
  unfold copied. rewrite !run_bind, copy_bytes_add, run_copy_three, run_bind. destruct (copy_bytes 3 (out + 1) (from + 1) m) as [[] m1| |]; [|done..].
  rewrite run_bind. replace (out + 1 + Z.of_nat 3) with (out + 3 + 1) by lia. replace (from + 1 + Z.of_nat 3) with (from + 3 + 1) by lia.
  destruct (copy_bytes n (out + 3 + 1) (from + 3 + 1) m1) as [[] m2| |]; [|done..]. rewrite !run_ret. f_equal. lia.
Qed.

Lemma run_copy_while n out from m : copy_while (Z.of_nat n) out from m = copied n out from m.
Proof.
  unfold copy_while. rewrite run_bind. rewrite Nat2Z.id.
  assert (∀ fuel n out from m, (n < fuel)%nat →
    match loop fuel (λ '(len, out, from),
      if 2 <? len then copy_three out from;; Next (len - 3, out + 3, from + 3) else Break (len, out, from)) (Z.of_nat n, out, from) m with
    | Ret (len, out, from) m' => copy_rest len out from m' | UB => UB | OOF => OOF end = copied n out from m) as H.
  { clear n out from m. induction fuel as [|fuel IH]; intros n out from m Hn; [lia|]. rewrite run_loop.
    destruct (Z.ltb_spec 2 (Z.of_nat n)) as [Hlt|Hge]; [|cbn; apply run_copy_rest; lia].
    destruct n as [|[|[|n]]]; [lia..|]. change (S (S (S n))) with (3 + n)%nat. rewrite copied_three, !run_bind.
    destruct (copy_three out from m) as [[] m1| |]; [|done..]. rewrite run_ret. replace (Z.of_nat (3 + n) - 3) with (Z.of_nat n) by lia. apply IH. lia. }
  rewrite <-(H (S n)) by lia. match goal with |- match ?l with _ => _ end = _ => destruct l as [[[? ?] ?] ?| |]; done end.
Qed.

Lemma run_copy_direct n out from m : (3 ≤ n)%nat → Z.of_nat n < 2 ^ 32 → copy_direct (Z.of_nat n) out from m = copied n out from m.
Proof.
  intros H3 H32. unfold copy_direct. rewrite run_bind. rewrite Nat2Z.id.
  assert (∀ fuel n out from m, (n < fuel)%nat → (3 ≤ n)%nat → Z.of_nat n < 2 ^ 32 →
    match loop fuel (λ '(len, out, from),
      copy_three out from;;
      let len := u32 (len - 3) in
      if 2 <? len then Next (len, out + 3, from + 3) else Break (len, out + 3, from + 3)) (Z.of_nat n, out, from) m with
    | Ret (len, out, from) m' => copy_rest len out from m' | UB => UB | OOF => OOF end = copied n out from m) as H.
  { clear n out from m H3 H32. induction fuel as [|fuel IH]; intros n out from m Hn H3 H32; [lia|]. rewrite run_loop.
    destruct n as [|[|[|n]]]; [lia..|]. change (S (S (S n))) with (3 + n)%nat in *. rewrite copied_three, !run_bind.
    destruct (copy_three out from m) as [[] m1| |]; [|done..]. cbv zeta. replace (u32 (Z.of_nat (3 + n) - 3)) with (Z.of_nat n) by (rewrite wrap_small; lia).
    destruct (Z.ltb_spec 2 (Z.of_nat n)); [apply IH; lia|cbn; apply run_copy_rest; lia]. }
  rewrite <-(H (S n)) by lia. match goal with |- match ?l with _ => _ end = _ => destruct l as [[[? ?] ?] ?| |]; done end.
Qed.

Lemma run_copy_some n out from m : (1 ≤ n)%nat →
  copy_some (Z.of_nat n) out from m = (copy_bytes n (out + 1) (from + 1);; mret (out + Z.of_nat n, from + Z.of_nat n)) m.
Proof.
  unfold copy_some. rewrite Nat2Z.id. intros Hn. destruct n as [|n]; [lia|]. clear Hn. revert out from m.
  induction n as [|n IH]; intros out from m; rewrite run_loop.
  - rewrite !run_bind, run_copy_one. destruct (copy_bytes 1 (out + 1) (from + 1) m) as [[] m1| |]; done.
  - change (copy_bytes (S (S n))) with (copy_bytes (1 + S n)). rewrite !run_bind, run_copy_one, copy_bytes_add, run_bind.
    destruct (copy_bytes 1 (out + 1) (from + 1) m) as [[] m1| |]; [|done..]. cbv zeta. rewrite (proj2 (Z.eqb_neq _ 0)) by lia. rewrite run_ret.
    replace (Z.of_nat (S (S n)) - 1) with (Z.of_nat (S n)) by lia. rewrite IH, !run_bind.
    replace (out + 1 + Z.of_nat 1) with (out + 1 + 1) by lia. replace (from + 1 + Z.of_nat 1) with (from + 1 + 1) by lia.
    destruct (copy_bytes (S n) (out + 1 + 1) (from + 1 + 1) m1) as [[] m2| |]; [|done..]. rewrite !run_ret. do 2 f_equal; lia.
Qed.

Lemma run_copy_match n put from m : (1 ≤ n)%nat → copy_match put from (Z.of_nat n) m = copy_bytes n put from m.
Proof.
  unfold copy_match. rewrite Nat2Z.id. intros Hn. destruct n as [|n]; [lia|]. clear Hn. revert put from m.
  induction n as [|n IH]; intros put from m; rewrite run_loop; cbn [copy_bytes]; rewrite !run_bind;
    (destruct (load8 from m) as [x m1| |]; [|done..]); rewrite !run_bind; (destruct (store8 put x m1) as [[] m2| |]; [|done..]); [done|].
  rewrite (proj2 (Z.eqb_neq _ 0)) by lia. rewrite run_ret. replace (Z.of_nat (S (S n)) - 1) with (Z.of_nat (S n)) by lia. apply IH.
Qed.
(** ** Where the bytes are *)

Lemma addr_direct n dist j : dist ≤ n → 0 ≤ j → ob + n - dist + j = addr (n + j) dist.
Proof. intros. unfold addr. rewrite (proj2 (Z.leb_le _ _)) by lia. lia. Qed.

(** Before the place to write in the ring, and after it. *)
Lemma addr_low n dist j : 0 ≤ write < wsize → dist - n ≤ write → 0 ≤ j < dist - n → window + (write - (dist - n)) + j = addr (n + j) dist.
Proof. intros. unfold addr. rewrite (proj2 (Z.leb_gt _ _)) by lia. rewrite Z.mod_small by lia. lia. Qed.

Lemma addr_high n dist j : 0 ≤ write < wsize → write < dist - n ≤ wsize → 0 ≤ j < dist - n - write →
  window + (wsize + write - (dist - n)) + j = addr (n + j) dist.
Proof.
  intros. unfold addr. rewrite (proj2 (Z.leb_gt _ _)) by lia. rewrite <-(Z_mod_plus_full _ 1), Z.mod_small by lia. lia.
Qed.

(** ** Matches *)

Context (s : inflate_state).
Hypothesis Hs : i_window s = window ∧ i_wsize s = wsize ∧ i_write s = write ∧ i_whave s = Z.of_nat (length W).

(** Some bytes [copy_some] takes from [from]. *)
Lemma run_copy_part n m O from dist : out_is m O → 1 ≤ n → Z.of_nat (length O) + n ≤ oe - ob →
  1 ≤ dist ≤ Z.of_nat (length (W ++ O)) →
  (∀ j, 0 ≤ j < n → from + 1 + j = addr (Z.of_nat (length O) + j) dist) →
  ∃ m', copy_some n (ob + Z.of_nat (length O) - 1) from m = Ret (ob + Z.of_nat (length O) - 1 + n, from + n) m' ∧
    out_is m' (grow (Z.to_nat n) dist O).
Proof.
  intros Hm Hn Hlen Hd Hfrom. assert (∃ k, n = Z.of_nat k) as [k ->] by (exists (Z.to_nat n); lia). rewrite run_copy_some, Nat2Z.id by lia.
  replace (ob + Z.of_nat (length O) - 1 + 1) with (ob + Z.of_nat (length O)) by lia.
  destruct (run_copy_bytes k m O (from + 1) dist Hm ltac:(lia) Hd) as (m' & E & Hm'); [intros j Hj; apply Hfrom; lia|].
  rewrite run_bind, E. by exists m'.
Qed.

(** What [copy_window] leaves: [c] bytes are copied, and the rest is in one piece. *)
Lemma run_copy_window m O len dist : out_is m O → 1 ≤ len → Z.of_nat (length O) + len ≤ oe - ob →
  Z.of_nat (length O) < dist ≤ Z.of_nat (length (W ++ O)) →
  ∃ c from m', 0 ≤ c ≤ len ∧ copy_window s (dist - Z.of_nat (length O)) len dist (ob + Z.of_nat (length O) - 1) m =
      Ret (len - c, ob + Z.of_nat (length O) - 1 + c, from) m' ∧
    out_is m' (grow (Z.to_nat c) dist O) ∧
    (∀ j, 0 ≤ j < len - c → from + 1 + j = addr (Z.of_nat (length O) + c + j) dist).
Proof.
  intros Hm Hlen Hspc Hd. set (N := Z.of_nat (length O)) in *. set (q := dist - N). rewrite length_app in Hd.
  destruct Hs as (E1 & E2 & E3 & E4). unfold copy_window. rewrite E1, E2, E3.
  destruct Hring as (Hw & Hwl & _); [intros E; rewrite E in *; cbn in *; lia|].
  assert (∀ from c, 1 ≤ c → c < len → (∀ j, 0 ≤ j < c → from + 1 + j = addr (N + j) dist) →
    ∃ m', copy_some c (ob + N - 1) from m = Ret (ob + N - 1 + c, from + c) m' ∧ out_is m' (grow (Z.to_nat c) dist O)) as Hpart.
  { intros from c Hc Hcl Hf. apply run_copy_part; [done|done|lia|rewrite length_app; lia|done]. }
  assert (∀ c, c = q → ∀ j, 0 ≤ j < len - c → ob + N - 1 + c - dist + 1 + j = addr (N + c + j) dist) as Hout.
  { intros c -> j Hj. rewrite <-addr_direct by lia. lia. }
  destruct (Z.eqb_spec write 0) as [Hw0|Hw0]; [|destruct (Z.ltb_spec write q) as [Hwq|Hwq]].
  - assert (∀ j, 0 ≤ j < q → window - 1 + (wsize - q) + 1 + j = addr (N + j) dist) as Hf by (intros j Hj; rewrite <-addr_high by lia; lia).
    destruct (Z.ltb_spec q len) as [Hql|Hql].
    + destruct (Hpart _ q ltac:(lia) Hql Hf) as (m' & E & Hm'). rewrite run_bind, E. cbn beta iota. exists q. eexists _, m'.
      split; [lia|]. split; [done|]. split; [done|]. by apply Hout.
    + exists 0. eexists _, m. split; [lia|]. split; [rewrite run_ret; do 3 f_equal; lia|]. split; [done|]. intros j Hj. rewrite Z.add_0_r. apply Hf. lia.
  - assert (∀ j, 0 ≤ j < q - write → window - 1 + (wsize + write - q) + 1 + j = addr (N + j) dist) as Hf by (intros j Hj; rewrite <-addr_high by lia; lia).
    destruct (Z.ltb_spec (q - write) len) as [Hql|Hql].
    + destruct (Hpart _ (q - write) ltac:(lia) Hql Hf) as (m' & E & Hm'). rewrite run_bind, E. cbn beta iota zeta.
      set (O1 := grow (Z.to_nat (q - write)) dist O) in *. assert (Z.of_nat (length O1) = N + (q - write)) as EN1 by (unfold O1; rewrite grow_length; lia).
      assert (∀ j, 0 ≤ j < write → window - 1 + 1 + j = addr (Z.of_nat (length O1) + j) dist) as Hf1 by (intros j Hj; rewrite <-addr_low by lia; lia).
      destruct (Z.ltb_spec write (len - (q - write))) as [Hwl'|Hwl'].
      * destruct (run_copy_part write m' O1 (window - 1) dist Hm' ltac:(lia) ltac:(lia)) as (m2 & E' & Hm2); [rewrite length_app; lia|done|].
        replace (ob + N - 1 + (q - write)) with (ob + Z.of_nat (length O1) - 1) by lia. rewrite run_bind, E'. cbn beta iota.
        exists q. eexists _, m2. split; [lia|]. split; [rewrite run_ret; do 3 f_equal; lia|]. split.
        { unfold O1 in Hm2. rewrite <-grow_add in Hm2. by replace (Z.to_nat (q - write) + Z.to_nat write)%nat with (Z.to_nat q) in Hm2 by lia. }
        intros j Hj. rewrite <-(Hout q) by (done || lia). lia.
      * exists (q - write). eexists _, m'. split; [lia|]. split; [done|]. split; [done|]. intros j Hj. rewrite Hf1 by lia. f_equal. lia.
    + exists 0. eexists _, m. split; [lia|]. split; [rewrite run_ret; do 3 f_equal; lia|]. split; [done|]. intros j Hj. rewrite Z.add_0_r. apply Hf. lia.
  - assert (∀ j, 0 ≤ j < q → window - 1 + (write - q) + 1 + j = addr (N + j) dist) as Hf by (intros j Hj; rewrite <-addr_low by lia; lia).
    destruct (Z.ltb_spec q len) as [Hql|Hql].
    + destruct (Hpart _ q ltac:(lia) Hql Hf) as (m' & E & Hm'). rewrite run_bind, E. cbn beta iota. exists q. eexists _, m'.
      split; [lia|]. split; [done|]. split; [done|]. by apply Hout.
    + exists 0. eexists _, m. split; [lia|]. split; [rewrite run_ret; do 3 f_equal; lia|]. split; [done|]. intros j Hj. rewrite Z.add_0_r. apply Hf. lia.
Qed.

(** The rest, in one piece. *)
Lemma run_copied n m O from dist : out_is m O → Z.of_nat (length O) + n ≤ oe - ob → 0 ≤ n → 1 ≤ dist ≤ Z.of_nat (length (W ++ O)) →
  (∀ j, 0 ≤ j < n → from + 1 + j = addr (Z.of_nat (length O) + j) dist) →
  ∃ m', copied (Z.to_nat n) (ob + Z.of_nat (length O) - 1) from m = Ret (ob + Z.of_nat (length O) - 1 + n) m' ∧
    out_is m' (grow (Z.to_nat n) dist O).
Proof.
  intros Hm Hlen Hn Hd Hfrom. unfold copied. replace (ob + Z.of_nat (length O) - 1 + 1) with (ob + Z.of_nat (length O)) by lia.
  destruct (run_copy_bytes (Z.to_nat n) m O (from + 1) dist Hm ltac:(lia) Hd) as (m' & E & Hm'); [intros j Hj; apply Hfrom; lia|].
  rewrite run_bind, E. exists m'. split; [|done]. cbn. f_equal. lia.
Qed.

(** A match of [inflate_fast]: it is copied, or it starts before everything there is. *)
Lemma run_fast_match m O len dist : out_is m O → 3 ≤ len < 2 ^ 32 → Z.of_nat (length O) + len ≤ oe - ob → oe - ob < 2 ^ 32 → 1 ≤ dist →
  fast_match s (ob - 1) len dist (ob + Z.of_nat (length O) - 1) m = Ret None m ∧ Z.of_nat (length (W ++ O)) < dist ∨
  dist ≤ Z.of_nat (length (W ++ O)) ∧
  ∃ m', fast_match s (ob - 1) len dist (ob + Z.of_nat (length O) - 1) m = Ret (Some (ob + Z.of_nat (length O) - 1 + len)) m' ∧
    out_is m' (grow (Z.to_nat len) dist O).
Proof.
  intros Hm Hlen Hspc H32 Hd. set (N := Z.of_nat (length O)) in *. unfold fast_match.
  replace (u32 (ob + N - 1 - (ob - 1))) with N by (rewrite wrap_small; lia). destruct (Z.ltb_spec N dist) as [Hfar|Hnear].
  - destruct Hs as (E1 & E2 & E3 & E4). rewrite E4, length_app. destruct (Z.ltb_spec (Z.of_nat (length W)) (dist - N)) as [Htoo|Hok].
    { left. split; [done|lia]. }
    right. split; [lia|]. destruct (run_copy_window m O len dist Hm ltac:(lia) Hspc ltac:(rewrite length_app; lia)) as (c & from & m1 & Hc & E & Hm1 & Hf).
    rewrite run_bind. fold N in E. rewrite E. cbn beta iota. replace (len - c) with (Z.of_nat (Z.to_nat (len - c))) by lia. rewrite run_bind, run_copy_while.
    set (O1 := grow (Z.to_nat c) dist O) in *. assert (Z.of_nat (length O1) = N + c) as EN1 by (unfold O1; rewrite grow_length; lia).
    destruct (run_copied (len - c) m1 O1 from dist Hm1 ltac:(lia) ltac:(lia)) as (m2 & E2' & Hm2);
      [rewrite length_app; lia|intros j Hj; rewrite Hf by lia; f_equal; lia|].
    replace (ob + N - 1 + c) with (ob + Z.of_nat (length O1) - 1) by lia. rewrite E2'. cbn beta iota. exists m2. split; [rewrite run_ret; do 2 f_equal; lia|].
    unfold O1 in Hm2. rewrite <-grow_add in Hm2. by replace (Z.to_nat c + Z.to_nat (len - c))%nat with (Z.to_nat len) in Hm2 by lia.
  - right. split; [rewrite length_app; lia|]. rewrite run_bind.
    assert (∀ out from m, copy_direct len out from m = copied (Z.to_nat len) out from m) as -> by (intros; rewrite <-run_copy_direct, Z2Nat.id by lia; done).
    destruct (run_copied len m O (ob + N - 1 - dist) dist Hm ltac:(lia) ltac:(lia)) as (m2 & E2' & Hm2);
      [rewrite length_app; lia|intros j Hj; fold N; rewrite <-addr_direct by lia; lia|].
    fold N in E2'. rewrite E2'. by exists m2.
Qed.
End copy.
