(* ===== verification/InflateFast.v ===== *)
(** * The fast path of the decompressor

    [inflate_fast] decodes literals and matches with no test of the input or the output
    while there are at least six bytes of the one and room for 258 of the other: what it
    reads and writes stays inside ([run_fast_step]), and it decodes as the tables say. *)

From stdpp Require Import base tactics numbers list gmap.
From S2P Require Import Prelude Memory Words Inftrees InftreesSpec InftreesMain Inflate Bitstream InflateTables InflateRead InflateCopy.

Open Scope Z_scope.

(** ** The symbols of a block *)

Inductive token := Literal (c : Z) | Match (len dist : Z) | EndOfBlock.

(** The codes of a block: the lengths of the code words of literals and lengths and of
    distances, and the entries of their symbols. *)
Record block_codes := BlockCodes {
  lit_lens : list Z; lit_ent : nat → Z * Z; dist_lens : list Z; dist_ent : nat → Z * Z }.

(** A symbol at the front of [X], of [l] bits. *)
Definition symbol_at (lens : list Z) (s : nat) (l X : Z) : Prop := lens !! s = Some l ∧ l ≠ 0 ∧ starts lens s l X.

(** A token at the front of [X], of [w] bits. *)
Definition token_at (c : block_codes) (X : Z) (t : token) (w : Z) : Prop :=
  match t with
  | Literal b => ∃ s, symbol_at (lit_lens c) s w X ∧ lit_ent c s = (0, b) ∧ is_byte b
  | EndOfBlock => ∃ s v, symbol_at (lit_lens c) s w X ∧ lit_ent c s = (96, v)
  | Match len dist => ∃ s1 l1 b1 e1 s2 l2 b2 e2,
      symbol_at (lit_lens c) s1 l1 X ∧ lit_ent c s1 = (16 + e1, b1) ∧ 0 ≤ e1 ≤ 5 ∧
      len = b1 + X / 2 ^ l1 mod 2 ^ e1 ∧ 3 ≤ b1 ∧ len ≤ 258 ∧
      symbol_at (dist_lens c) s2 l2 (X / 2 ^ (l1 + e1)) ∧ dist_ent c s2 = (16 + e2, b2) ∧ 0 ≤ e2 ≤ 13 ∧
      dist = b2 + X / 2 ^ (l1 + e1 + l2) mod 2 ^ e2 ∧ 1 ≤ b2 ∧ dist ≤ 32768 ∧
      w = l1 + e1 + l2 + e2
  end.

(** What a token makes of the output, after the window [W]: nothing when it refers to more
    than there is. *)
Definition expand (W O : list Z) (t : token) : option (list Z) :=
  match t with
  | Literal b => Some (O ++ [b])
  | Match len dist => if decide (dist ≤ Z.of_nat (length (W ++ O))) then Some (grow W (Z.to_nat len) dist O) else None
  | EndOfBlock => Some O
  end.

Fixpoint expand_all (W O : list Z) (ts : list token) : option (list Z) :=
  match ts with
  | [] => Some O
  | t :: ts => match expand W O t with Some O' => expand_all W O' ts | None => None end
  end.

(** The tokens of a block and its end at the front of [X], of [w] bits in all. *)
Fixpoint block_at (c : block_codes) (X : Z) (ts : list token) (w : Z) : Prop :=
  match ts with
  | [] => token_at c X EndOfBlock w
  | t :: ts => t ≠ EndOfBlock ∧ ∃ w1 w2, token_at c X t w1 ∧ block_at c (X / 2 ^ w1) ts w2 ∧ w = w1 + w2
  end.

Lemma expand_all_app W O ts ts' :
  expand_all W O (ts ++ ts') = match expand_all W O ts with Some O' => expand_all W O' ts' | None => None end.
Proof. revert O. induction ts as [|t ts IH]; intros O; cbn; [done|]. by destruct (expand W O t). Qed.

(** The bits of a match, each part after the other. *)
Lemma div_pow_add X a b : 0 ≤ a → 0 ≤ b → X / 2 ^ a / 2 ^ b = X / 2 ^ (a + b).
Proof. intros Ha Hb. rewrite Z.div_div, <-Z.pow_add_r by (lia || apply pow_pos; lia). done. Qed.

Lemma symbol_width lens ent f root sym l X : table_ok f root lens ent → symbol_at lens sym l X → 1 ≤ l ≤ 15.
Proof.
  intros Ht (Hs & Hl & _). pose proof (proj1 (Forall_lookup _ _) (tk_lens _ _ _ _ Ht) sym l Hs) as Hr. cbn beta in Hr. lia.
Qed.

Section fast.
Context (m0 : mem) (ob oe ib ie : Z) (s : inflate_state) (W : list Z) (c : block_codes).

Hypothesis Hspace : valid m0 ob (oe - ob).
Hypothesis H32 : oe - ob < 2 ^ 32.
Hypothesis Hring : W ≠ [] → 0 ≤ i_write s < i_wsize s ∧ Z.of_nat (length W) ≤ i_wsize s ∧ disjoint_ranges (i_window s) (i_wsize s) ob (oe - ob).
Hypothesis HW : ∀ j, 1 ≤ j ≤ Z.of_nat (length W) →
  m0 !! (i_window s + (i_write s - j) mod i_wsize s) = W !! Z.to_nat (Z.of_nat (length W) - j).
Hypothesis HWb : Forall is_byte W.
Hypothesis Hhave : i_whave s = Z.of_nat (length W).
Hypothesis Hin : disjoint_ranges ib (ie - ib) ob (oe - ob).
Hypothesis Hlit : table_ok (entry (i_codes s) (i_lencode s)) (i_lenbits s) (lit_lens c) (lit_ent c).
Hypothesis Hdist : table_ok (entry (i_codes s) (i_distcode s)) (i_distbits s) (dist_lens c) (dist_ent c).
(** The operations of the symbols are not those of links. *)
Hypothesis Hops : ∀ x, (x < length (lit_lens c))%nat → fst (lit_ent c x) ≠ 0 →
  Z.land (fst (lit_ent c x)) 16 ≠ 0 ∨ Z.land (fst (lit_ent c x)) 64 ≠ 0.
Hypothesis Hops' : ∀ x, (x < length (dist_lens c))%nat →
  Z.land (fst (dist_ent c x)) 16 ≠ 0 ∨ Z.land (fst (dist_ent c x)) 64 ≠ 0.

Abbreviation out_is := (out_is m0 ob oe).

(** The registers: [O] is written, and [n] bits are to be read, the number [X]. *)
Definition fast_at (q : fast) (O : list Z) (X n : Z) : Prop :=
  q_out q = ob + Z.of_nat (length O) - 1 ∧ q_bits q ≤ 40 ∧ ib ≤ q_in q + 1 ∧
  ∃ l, feeds m0 (q_in q + 1) (q_hold q) (q_bits q) l X ∧ n = q_bits q + 8 * Z.of_nat (length l) ∧
    q_in q + 1 + Z.of_nat (length l) = ie.

Lemma run_pull q m O X n : fast_at q O X n → out_is m O → q_bits q < n → q_bits q ≤ 32 →
  ∃ q', pull q m = Ret q' m ∧ fast_at q' O X n ∧ q_bits q' = q_bits q + 8.
Proof.
  intros (Ho & Hb & Hi & l & Hf & -> & Hie) Hm Hlt Hb32. destruct l as [|b l]; [cbn in Hlt; lia|].
  destruct (feeds_pull _ _ _ _ _ _ _ Hf) as (Hbyte & Hload & Hf'). unfold pull. cbn [length] in Hie.
  assert (m !! (q_in q + 1) = Some b) as Hload'.
  { rewrite <-Hload. apply (out_frame _ _ _ _ _ Hm). unfold disjoint_ranges in Hin. lia. }
  rewrite run_bind, (run_load8 _ _ _ Hload'). cbn beta iota. rewrite run_ret. eexists. split; [done|].
  destruct (feeds_pull_u64 _ _ _ _ _ _ _ Hf ltac:(lia)) as [-> ->].
  split; [|done]. split; [done|]. cbn [q_out q_in q_hold q_bits]. split; [lia|]. split; [lia|]. exists l. cbn [length]. split; [done|]. lia.
Qed.

Lemma run_pull_two q m O X n : fast_at q O X n → out_is m O → (q_bits q < 15 → q_bits q + 8 < n) →
  ∃ q', pull_two q m = Ret q' m ∧ fast_at q' O X n ∧ 15 ≤ q_bits q'.
Proof.
  intros Hq Hm Hn. unfold pull_two. destruct (Z.ltb_spec (q_bits q) 15); [|by exists q].
  destruct (run_pull q m O X n Hq Hm ltac:(lia) ltac:(lia)) as (q1 & E1 & Hq1 & Hb1).
  destruct (run_pull q1 m O X n Hq1 Hm ltac:(lia) ltac:(lia)) as (q2 & E2 & Hq2 & Hb2).
  rewrite run_bind, E1. exists q2. split; [done|]. split; [done|]. destruct Hq as (_ & _ & _ & l & Hf & _). pose proof (proj1 (proj2 Hf)). lia.
Qed.

Lemma drop_at q O X n d : fast_at q O X n → 0 ≤ d ≤ q_bits q →
  fast_at (drop_bits d q) O (X / 2 ^ d) (n - d) ∧ q_bits (drop_bits d q) = q_bits q - d.
Proof.
  intros (Ho & Hb & Hi & l & Hf & -> & Hie) Hd. unfold drop_bits. cbn [q_in q_out q_hold q_bits].
  assert (u32 (q_bits q - d) = q_bits q - d) as -> by (apply wrap_small; lia). split; [|done].
  split; [done|]. cbn [q_in q_out q_hold q_bits]. split; [lia|]. split; [done|]. exists l. rewrite Z.shiftr_div_pow2 by lia. split; [by apply feeds_drop|]. lia.
Qed.

(** The low bits, when there are enough. *)
Lemma fast_low q O X n d : fast_at q O X n → 0 ≤ d ≤ q_bits q → q_hold q mod 2 ^ d = X mod 2 ^ d.
Proof. intros (_ & _ & _ & l & Hf & _) Hd. by apply (feeds_mod _ _ _ _ _ _ _ Hf). Qed.

Lemma land_low d x : 0 ≤ d → Z.land x (2 ^ d - 1) = x mod 2 ^ d.
Proof. intros Hd. replace (2 ^ d - 1) with (Z.ones d) by (rewrite Z.ones_equiv; lia). by apply Z.land_ones. Qed.

Lemma u32_low x d : 0 ≤ d ≤ 32 → u32 x mod 2 ^ d = x mod 2 ^ d.
Proof. intros. by apply mod_mod_pow. Qed.

Section code.
Context (f : Z → option code) (root : Z) (lens : list Z) (ent : nat → Z * Z) (is_dist : bool).
Hypothesis Htab : table_ok f root lens ent.
Hypothesis Hstop : ∀ x, (x < length lens)%nat →
  (is_dist || negb (fst (ent x) =? 0)) && (Z.land (fst (ent x)) 16 =? 0) && (Z.land (fst (ent x)) 64 =? 0) = false.

Lemma link_goes c' : 1 ≤ c' ≤ 15 → (is_dist || negb (c' =? 0)) && (Z.land c' 16 =? 0) && (Z.land c' 64 =? 0) = true.
Proof.
  intros Hc. assert (∃ i, (1 ≤ i ≤ 15)%nat ∧ c' = Z.of_nat i) as (i & Hi & ->) by (exists (Z.to_nat c'); lia).
  destruct is_dist; (do 16 (destruct i as [|i]; [done || lia|])); lia.
Qed.

(** A symbol, at either level. *)
Lemma run_fast_code q m O X n sym l : fast_at q O X n → 15 ≤ q_bits q → symbol_at lens sym l X →
  ∃ this q', fast_code f is_dist (u32 (Z.shiftl 1 root) - 1) q m = Ret (this, q') m ∧ op this = fst (ent sym) ∧ val this = snd (ent sym) ∧
    fast_at q' O (X / 2 ^ l) (n - l) ∧ q_bits q' = q_bits q - l ∧ 1 ≤ l ≤ 15.
Proof.
  intros Hq H15 (Hsym & Hl & Hst). pose proof (lookup_lt_Some _ _ _ Hsym) as Hlt. pose proof (tk_root _ _ _ _ Htab) as Hroot.
  pose proof (proj1 (Forall_lookup _ _) (tk_lens _ _ _ _ Htab) sym l Hsym) as Hr. cbn beta in Hr.
  unfold fast_code. rewrite run_bind. rewrite Z.shiftl_1_l, (wrap_small 32) by (split; [apply Z.pow_nonneg; lia|apply Z.pow_lt_mono_r; lia]).
  rewrite land_low, (fast_low q O X n) by (done || lia).
  destruct (tk_finds _ _ _ _ Htab sym l X Hsym Hl Hst) as [[Hlr Hf]|(Hlr & c' & n' & Hc & Hlc & Hf1 & Hf2)].
  - unfold read_entry. rewrite Hf. rewrite run_ret. cbn beta iota. change 16%nat with (S 15) at 1. rewrite run_loop. cbn [op bits val].
    rewrite Hstop by done. cbv zeta. rewrite run_ret. destruct (drop_at q O X n l Hq ltac:(lia)) as [Hq' Hb']. eexists _, _. split; [done|]. split_and!; done || lia.
  - unfold read_entry at 1. rewrite Hf1. rewrite run_ret. cbn beta iota. change 16%nat with (S 15) at 1. rewrite run_loop. cbn [op bits val]. cbv zeta.
    rewrite link_goes by lia. destruct (drop_at q O X n root Hq ltac:(lia)) as [Hq1 Hb1]. unfold low_mask.
    rewrite (proj2 (Z.leb_gt _ _)) by lia. rewrite run_bind, run_ret. cbn beta iota. rewrite run_bind.
    rewrite land_low, (fast_low (drop_bits root q) O (X / 2 ^ root) (n - root)) by (done || lia).
    assert ((X / 2 ^ root) mod 2 ^ c' = X mod 2 ^ (root + c') / 2 ^ root) as -> by (rewrite div_mod_pow by lia; do 2 f_equal; lia).
    unfold read_entry. rewrite Hf2, !run_ret. change 15%nat with (S 14) at 1. rewrite run_loop. cbn [op bits val]. cbv zeta. rewrite Hstop by done. rewrite run_ret.
    destruct (drop_at _ O _ _ (l - root) Hq1 ltac:(lia)) as [Hq2 Hb2]. rewrite Z.div_div, <-Z.pow_add_r in Hq2 by (lia || apply pow_pos; lia).
    replace (root + (l - root)) with l in Hq2 by lia. replace (n - root - (l - root)) with (n - l) in Hq2 by lia.
    eexists _, _. split; [done|]. split_and!; done || lia.
Qed.
End code.

Lemma run_len_extra q m O X n b e : fast_at q O X n → out_is m O → 0 ≤ e ≤ 5 → e ≤ n → 0 ≤ b → b + X mod 2 ^ e < 2 ^ 32 →
  ∃ q', fast_len_extra b e q m = Ret (b + X mod 2 ^ e, q') m ∧ fast_at q' O (X / 2 ^ e) (n - e).
Proof.
  intros Hq Hm He Hn Hb H. unfold fast_len_extra. destruct (Z.eqb_spec e 0) as [->|He0].
  { exists q. rewrite Z.mod_1_r, Z.div_1_r, Z.add_0_r, Z.sub_0_r. done. }
  assert (∃ q1, (if q_bits q <? e then pull q else mret q) m = Ret q1 m ∧ fast_at q1 O X n ∧ e ≤ q_bits q1) as (q1 & E1 & Hq1 & Hb1).
  { destruct (Z.ltb_spec (q_bits q) e); [|by exists q]. destruct (run_pull q m O X n Hq Hm ltac:(lia) ltac:(lia)) as (q1 & E1 & Hq1 & Hb1).
    exists q1. split; [done|]. split; [done|]. destruct Hq as (_ & _ & _ & l & Hf & _). pose proof (proj1 (proj2 Hf)). lia. }
  rewrite run_bind, E1. cbn beta iota. rewrite land_low, u32_low, (fast_low q1 O X n) by (done || lia).
  pose proof (Z.mod_pos_bound X (2 ^ e) (pow_pos e ltac:(lia))). rewrite wrap_small by lia. eexists. split; [done|]. apply drop_at; [done|lia].
Qed.

Lemma run_dist_extra q m O X n b e : fast_at q O X n → out_is m O → 0 ≤ e ≤ 13 → e ≤ n → 0 ≤ b → b + X mod 2 ^ e < 2 ^ 32 →
  ∃ q', fast_dist_extra b e q m = Ret (b + X mod 2 ^ e, q') m ∧ fast_at q' O (X / 2 ^ e) (n - e).
Proof.
  intros Hq Hm He Hn Hb H. unfold fast_dist_extra. assert (0 ≤ q_bits q) as Hq0 by (destruct Hq as (_ & _ & _ & l & Hf & _); apply Hf).
  assert (∃ q1, (if q_bits q <? e then q ← pull q; if q_bits q <? e then pull q else mret q else mret q) m = Ret q1 m ∧ fast_at q1 O X n ∧ e ≤ q_bits q1)
    as (q1 & E1 & Hq1 & Hb1).
  { destruct (Z.ltb_spec (q_bits q) e); [|by exists q]. destruct (run_pull q m O X n Hq Hm ltac:(lia) ltac:(lia)) as (q1 & E1 & Hq1 & Hb1).
    rewrite run_bind, E1. destruct (Z.ltb_spec (q_bits q1) e); [|by exists q1].
    destruct (run_pull q1 m O X n Hq1 Hm ltac:(lia) ltac:(lia)) as (q2 & E2 & Hq2 & Hb2). exists q2. split; [done|]. split; [done|lia]. }
  rewrite run_bind, E1. cbn beta iota. rewrite land_low, u32_low, (fast_low q1 O X n) by (done || lia).
  pose proof (Z.mod_pos_bound X (2 ^ e) (pow_pos e ltac:(lia))). rewrite wrap_small by lia. eexists. split; [done|]. apply drop_at; [done|lia].
Qed.
(** The operation of a length or a distance. *)
Lemma base_op e : 0 ≤ e ≤ 13 → (16 + e =? 0) = false ∧ (Z.land (16 + e) 16 =? 0) = false ∧ Z.land (16 + e) 15 = e.
Proof.
  intros He. assert (∃ i, (i ≤ 13)%nat ∧ e = Z.of_nat i) as (i & Hi & ->) by (exists (Z.to_nat e); lia).
  do 14 (destruct i as [|i]; [done|]). lia.
Qed.

Lemma lit_stop x : (x < length (lit_lens c))%nat →
  (false || negb (fst (lit_ent c x) =? 0)) && (Z.land (fst (lit_ent c x)) 16 =? 0) && (Z.land (fst (lit_ent c x)) 64 =? 0) = false.
Proof.
  intros Hx. cbn [orb]. destruct (Z.eqb_spec (fst (lit_ent c x)) 0) as [|Hne]; [done|]. cbn [negb andb].
  destruct (Hops x Hx Hne) as [H|H]; rewrite (proj2 (Z.eqb_neq _ 0) H); by rewrite ?andb_false_r.
Qed.

Lemma dist_stop x : (x < length (dist_lens c))%nat →
  (true || negb (fst (dist_ent c x) =? 0)) && (Z.land (fst (dist_ent c x)) 16 =? 0) && (Z.land (fst (dist_ent c x)) 64 =? 0) = false.
Proof.
  intros Hx. cbn [orb andb]. destruct (Hops' x Hx) as [H|H]; rewrite (proj2 (Z.eqb_neq _ 0) H); by rewrite ?andb_false_r.
Qed.

Lemma move_out q O O' X n : fast_at q O X n →
  fast_at (Fast (q_in q) (ob + Z.of_nat (length O') - 1) (q_hold q) (q_bits q)) O' X n.
Proof. intros (_ & Hb & Hi & l & Hf & Hn & Hie). split; [done|]. split; [done|]. split; [done|]. by exists l. Qed.

(** How a step ends. *)
Definition stepped (m : mem) (O : list Z) (X n : Z) (t : token) (r : outcome mem (fast * option (inflate_mode * option message))) : Prop :=
  ∃ q' m', match t, expand W O t with
  | EndOfBlock, _ => r = Ret (q', Some (TYPE, None)) m' ∧ out_is m' O ∧ fast_at q' O X n
  | _, Some O' => r = Ret (q', None) m' ∧ out_is m' O' ∧ fast_at q' O' X n
  | _, None => r = Ret (q', Some (BAD, Some invalid_distance_too_far_back)) m' ∧ out_is m' O ∧ fast_at q' O X n
  end.

Lemma run_fast_step q m O X n t w : fast_at q O X n → out_is m O → q_bits q + 48 ≤ n → Z.of_nat (length O) + 258 ≤ oe - ob →
  token_at c X t w → stepped m O (X / 2 ^ w) (n - w) t (fast_step s (ob - 1) q m).
Proof.
  intros Hq Hm Hn Hspc Ht. assert (0 ≤ q_bits q) as Hq0 by (destruct Hq as (_ & _ & _ & l & Hf & _); apply Hf).
  destruct (run_pull_two q m O X n Hq Hm ltac:(lia)) as (q1 & E1 & Hq1 & Hb1). unfold stepped, fast_step. rewrite run_bind, E1. cbn beta iota.
  destruct t as [b|len dist|]; cbn [token_at] in Ht; cbn [expand].
  - destruct Ht as (sym & Hsym & Hent & Hbyte).
    destruct (run_fast_code (entry (i_codes s) (i_lencode s)) (i_lenbits s) (lit_lens c) (lit_ent c) false Hlit lit_stop q1 m O X n sym w Hq1 Hb1 Hsym) as (this & q2 & E2 & Hop & Hval & Hq2 & _ & _).
    rewrite run_bind, E2. cbn beta iota. rewrite Hop, Hval, Hent. cbn [fst snd]. change (0 =? 0) with true. cbn beta iota.
    destruct (out_store m0 ob oe W m O b Hm ltac:(lia) Hbyte) as (m' & E3 & Hm'). destruct Hq2 as (Ho2 & Hrest2). rewrite Ho2.
    replace (ob + Z.of_nat (length O) - 1 + 1) with (ob + Z.of_nat (length O)) by lia. rewrite run_bind, E3. cbn beta iota.
    eexists _, m'. split; [done|]. split; [done|]. replace (ob + Z.of_nat (length O)) with (ob + Z.of_nat (length (O ++ [b])) - 1) by (rewrite length_app; cbn; lia).
    by apply (move_out q2 O).
  - destruct Ht as (s1 & l1 & b1 & e1 & s2 & l2 & b2 & e2 & Hs1 & Hent1 & He1 & -> & Hb1' & Hlen & Hs2 & Hent2 & He2 & -> & Hb2' & Hdst & ->).
    destruct (run_fast_code (entry (i_codes s) (i_lencode s)) (i_lenbits s) (lit_lens c) (lit_ent c) false Hlit lit_stop q1 m O X n s1 l1 Hq1 Hb1 Hs1) as (this & q2 & E2 & Hop & Hval & Hq2 & Hb2 & Hl1).
    rewrite run_bind, E2. cbn beta iota. rewrite Hop, Hval, Hent1. cbn [fst snd]. destruct (base_op e1 ltac:(lia)) as (-> & -> & ->). cbn [negb]. cbn beta iota.
    destruct (run_len_extra q2 m O _ _ b1 e1 Hq2 Hm He1 ltac:(lia) ltac:(lia) ltac:(lia)) as (q3 & E3 & Hq3). rewrite run_bind, E3. cbn beta iota.
    rewrite div_pow_add in Hq3 by lia.
    destruct (run_pull_two q3 m O _ _ Hq3 Hm ltac:(lia)) as (q4 & E4 & Hq4 & Hb4).
    rewrite run_bind, E4. cbn beta iota.
    destruct (run_fast_code (entry (i_codes s) (i_distcode s)) (i_distbits s) (dist_lens c) (dist_ent c) true Hdist dist_stop q4 m O _ _ s2 l2 Hq4 Hb4 Hs2) as (this2 & q5 & E5 & Hop2 & Hval2 & Hq5 & Hb5 & Hl2).
    rewrite run_bind, E5. cbn beta iota. rewrite Hop2, Hval2, Hent2. cbn [fst snd]. destruct (base_op e2 ltac:(lia)) as (_ & -> & ->). cbn [negb]. cbn beta iota.
    rewrite div_pow_add in Hq5 by lia.
    destruct (run_dist_extra q5 m O _ _ b2 e2 Hq5 Hm He2 ltac:(lia) ltac:(lia) ltac:(lia)) as (q6 & E6 & Hq6). rewrite run_bind, E6. cbn beta iota.
    rewrite div_pow_add in Hq6 by lia. replace (n - l1 - e1 - l2 - e2) with (n - (l1 + e1 + l2 + e2)) in Hq6 by lia.
    pose proof (Z.mod_pos_bound (X / 2 ^ l1) (2 ^ e1) (pow_pos e1 ltac:(lia))). pose proof (Z.mod_pos_bound (X / 2 ^ (l1 + e1 + l2)) (2 ^ e2) (pow_pos e2 ltac:(lia))).
    set (len := b1 + X / 2 ^ l1 mod 2 ^ e1) in *. set (dist := b2 + X / 2 ^ (l1 + e1 + l2) mod 2 ^ e2) in *. rewrite run_bind, (proj1 Hq6).
    destruct (run_fast_match m0 ob oe (i_window s) (i_wsize s) (i_write s) W Hring HW HWb s ltac:(by split_and!) m O len dist Hm ltac:(lia) ltac:(lia) H32 ltac:(lia))
      as [[E7 Hfar]|(Hnear & m' & E7 & Hm')]; rewrite E7; cbn beta iota.
    + rewrite decide_False by lia. by exists q6, m.
    + rewrite decide_True by done. eexists _, m'. split; [done|]. split; [done|].
      replace (ob + Z.of_nat (length O) - 1 + len) with (ob + Z.of_nat (length (grow W (Z.to_nat len) dist O)) - 1) by (rewrite grow_length; lia). by apply (move_out q6 O).
  - destruct Ht as (sym & v & Hsym & Hent).
    destruct (run_fast_code (entry (i_codes s) (i_lencode s)) (i_lenbits s) (lit_lens c) (lit_ent c) false Hlit lit_stop q1 m O X n sym w Hq1 Hb1 Hsym) as (this & q2 & E2 & Hop & Hval & Hq2 & _ & _).
    rewrite run_bind, E2. cbn beta iota. rewrite Hop, Hval, Hent. cbn [fst snd]. by exists q2, m.
Qed.
(** ** The loop *)

Lemma token_width X t w : token_at c X t w → 1 ≤ w ≤ 48.
Proof.
  destruct t as [b|len dist|]; cbn [token_at].
  - intros (sym & Hs & _). pose proof (symbol_width _ _ _ _ _ _ _ Hlit Hs). lia.
  - intros (s1 & l1 & b1 & e1 & s2 & l2 & b2 & e2 & Hs1 & _ & He1 & _ & _ & _ & Hs2 & _ & He2 & _ & _ & _ & ->).
    pose proof (symbol_width _ _ _ _ _ _ _ Hlit Hs1). pose proof (symbol_width _ _ _ _ _ _ _ Hdist Hs2). lia.
  - intros (sym & v & Hs & _). pose proof (symbol_width _ _ _ _ _ _ _ Hlit Hs). lia.
Qed.

Lemma block_width X ts w : block_at c X ts w → 1 ≤ w.
Proof.
  revert X w. induction ts as [|t ts IH]; intros X w; cbn [block_at]; [intros H; apply token_width in H; lia|].
  intros (_ & w1 & w2 & H1 & H2 & ->). apply token_width in H1. apply IH in H2. lia.
Qed.

Lemma expand_grows O t O' : t ≠ EndOfBlock → (∃ X w, token_at c X t w) → expand W O t = Some O' → (length O < length O')%nat.
Proof.
  intros Ht (X & w & Hx) H. destruct t as [b|len dist|]; [..|done]; cbn [expand] in H.
  - injection H as <-. rewrite length_app. cbn. lia.
  - case_decide; [|done]. injection H as <-. rewrite grow_length. cbn [token_at] in Hx.
    destruct Hx as (s1 & l1 & b1 & e1 & s2 & l2 & b2 & e2 & _ & _ & He1 & -> & Hb1 & _).
    pose proof (Z.mod_pos_bound (X / 2 ^ l1) (2 ^ e1) (pow_pos e1 ltac:(lia))). lia.
Qed.

(** How the loop ends: at the end of the block, short of input or space, or at a match
    that refers to more than there is. *)
Definition fast_result (n : Z) (ts : list token) (w : Z) (X : Z) (O : list Z)
    (r : outcome mem (fast * option (inflate_mode * option message))) : Prop :=
  ∃ q' m' e pre rest O' X' n', r = Ret (q', e) m' ∧ ts = pre ++ rest ∧ expand_all W O pre = Some O' ∧
    out_is m' O' ∧ fast_at q' O' X' n' ∧ n' ≤ n ∧ X' = X / 2 ^ (n - n') ∧
    match e with
    | None => pre ≠ [] ∧ (∃ w', block_at c X' rest w' ∧ n' - w' = n - w) ∧ (n' < q_bits q' + 48 ∨ oe - ob < Z.of_nat (length O') + 258)
    | Some (TYPE, None) => rest = [] ∧ n' = n - w
    | Some (BAD, Some invalid_distance_too_far_back) => ∃ t rest', rest = t :: rest' ∧ expand W O' t = None
    | _ => False
    end.

Definition fast_body (q : fast) : C mem (fast + fast * option (inflate_mode * option message)) :=
  '(q, e) ← fast_step s (ob - 1) q;
  match e with
  | Some _ => Break (q, e)
  | None => if (q_in q <? ie - 6) && (q_out q <? oe - 258) then Next q else Break (q, None)
  end.

Lemma run_fast_loop ts fuel q m O X n w : fast_at q O X n → out_is m O → q_bits q + 48 ≤ n → Z.of_nat (length O) + 258 ≤ oe - ob →
  oe - ob - Z.of_nat (length O) < Z.of_nat fuel → block_at c X ts w → fast_result n ts w X O (loop fuel fast_body q m).
Proof.
  revert fuel q m O X n w. induction ts as [|t ts IH]; intros fuel q m O X n w Hq Hm Hn Hspc Hfuel Hts;
    (destruct fuel as [|fuel]; [lia|]); rewrite run_loop; unfold fast_body at 1; rewrite run_bind; cbn [block_at] in Hts.
  - destruct (run_fast_step q m O X n EndOfBlock w Hq Hm Hn Hspc Hts) as (q' & m' & E & Hm' & Hq'). rewrite E. cbn beta iota. rewrite run_ret.
    pose proof (token_width X _ w Hts). exists q', m', (Some (TYPE, None)), [], [], O, (X / 2 ^ w), (n - w).
    split_and!; try done; [lia|]. do 2 f_equal. lia.
  - destruct Hts as (Hne & w1 & w2 & Ht & Hrest & ->). pose proof (token_width X t w1 Ht). pose proof (block_width _ _ _ Hrest).
    assert (X / 2 ^ (w1 + w2) = X / 2 ^ w1 / 2 ^ w2) as EX by (symmetry; apply div_pow_add; lia).
    destruct (run_fast_step q m O X n t w1 Hq Hm Hn Hspc Ht) as (q' & m' & Hstep). destruct (expand W O t) as [O'|] eqn:Eexp.
    + assert (fast_step s (ob - 1) q m = Ret (q', None) m' ∧ out_is m' O' ∧ fast_at q' O' (X / 2 ^ w1) (n - w1)) as (E & Hm' & Hq') by (destruct t; [rewrite Eexp in Hstep; exact Hstep..|by destruct Hne]).
      clear Hstep. rewrite E. cbn beta iota. pose proof (expand_grows O t O' Hne (ex_intro _ X (ex_intro _ w1 Ht)) Eexp) as Hgrow.
      destruct (Z.ltb_spec (q_in q') (ie - 6)) as [Hin'|Hin']; [destruct (Z.ltb_spec (q_out q') (oe - 258)) as [Hout'|Hout']|]; cbn [andb]; rewrite run_ret.
      * destruct (IH fuel q' m' O' (X / 2 ^ w1) (n - w1) w2 Hq' Hm') as (q2 & m2 & e & pre & rest & O2 & X2 & n2 & E2 & -> & Eall & Hm2 & Hq2 & Hn2 & HX2 & He); [..|done|].
        { destruct Hq' as (_ & _ & _ & l & _ & Hn' & Hl'). lia. }
        { destruct Hq' as (Ho' & _). lia. }
        { lia. }
        exists q2, m2, e, (t :: pre), rest, O2, X2, n2. split; [done|]. split; [done|]. split; [cbn; by rewrite Eexp|]. split; [done|]. split; [done|].
        split; [lia|]. split; [rewrite HX2, div_pow_add by lia; do 2 f_equal; lia|].
        destruct e as [[[] []]|]; try done.
        -- destruct He as (-> & ->). split; [done|lia].
        -- destruct He as (Hd & (w' & Hw' & Hnw) & Hend). split; [done|]. split; [|done]. exists w'. split; [done|lia].
      * exists q', m', None, [t], ts, O', (X / 2 ^ w1), (n - w1). split; [done|]. split; [done|]. split; [cbn; by rewrite Eexp|]. split; [done|]. split; [done|].
        split; [lia|]. split; [do 2 f_equal; lia|]. split; [done|]. split; [exists w2; split; [done|lia]|]. right. destruct Hq' as (Ho' & _). lia.
      * exists q', m', None, [t], ts, O', (X / 2 ^ w1), (n - w1). split; [done|]. split; [done|]. split; [cbn; by rewrite Eexp|]. split; [done|]. split; [done|].
        split; [lia|]. split; [do 2 f_equal; lia|]. split; [done|]. split; [exists w2; split; [done|lia]|]. left. destruct Hq' as (_ & _ & _ & l & _ & Hn' & Hl'). lia.
    + assert (fast_step s (ob - 1) q m = Ret (q', Some (BAD, Some invalid_distance_too_far_back)) m' ∧ out_is m' O ∧ fast_at q' O (X / 2 ^ w1) (n - w1)) as (E & Hm' & Hq') by (destruct t; [rewrite Eexp in Hstep; exact Hstep..|by destruct Hne]).
      rewrite E. cbn beta iota. rewrite run_ret. exists q', m', (Some (BAD, Some invalid_distance_too_far_back)), [], (t :: ts), O, (X / 2 ^ w1), (n - w1).
      split_and!; try done; [lia|do 2 f_equal; lia|]. by exists t, ts.
Qed.
End fast.
