(* ===== verification/InflateBlock.v ===== *)
(** * Decoding a block

    The turns of the machine from [LEN] on: a token at the front of the input is decoded
    and the machine is back at [LEN], or at [TYPE] at the end of the block, by the slow
    path or by [inflate_fast]. *)

From stdpp Require Import base tactics numbers list gmap.
From S2P Require Import Prelude Memory Words Inftrees InftreesSpec InftreesMain Inflate Bitstream InflateTables InflateRead InflateCopy InflateFast.

Open Scope Z_scope.

(** What a block does not change: all of the state but the registers it is decoded with. *)
Definition frozen (s : inflate_state) : inflate_state :=
  set_i_mode HEAD (set_i_length 0 (set_i_offset 0 (set_i_extra 0 (set_i_hold 0 (set_i_bits 0 s))))).
Definition frozen_strm (z : z_stream) : z_stream :=
  set_s_next_in 0 (set_s_avail_in 0 (set_s_next_out 0 (set_s_avail_out 0 z))).

Section machine.
Context (BYFOUR little NO_DIVIDE : bool) (hbuf : Z) (zalloc : Z → Z → C mem Z) (flush : Z).
Abbreviation step := (step BYFOUR little NO_DIVIDE hbuf flush).
Abbreviation run := (run BYFOUR little NO_DIVIDE hbuf flush).

(** The machine gets from one state to another. *)
Definition goes (i i' : inflating) : Prop := ∃ k, ∀ fuel, run (k + fuel) i = run fuel i'.

#[export] Instance goes_preorder : PreOrder goes.
Proof.
  split; [by intros i; exists 0%nat|]. intros i j k [a Ha] [b Hb]. exists (a + b)%nat. intros fuel. by rewrite <-Nat.add_assoc, Ha, Hb.
Qed.

Lemma goes_step i i' : step i = Ret Again i' → goes i i'.
Proof.
  intros H. exists 1%nat. intros fuel. change (1 + fuel)%nat with (S fuel). unfold run at 1. rewrite run_loop, run_bind, H. cbn beta iota. by rewrite run_ret.
Qed.

Context (m0 : mem) (ob oe ib ie : Z) (s : inflate_state) (z : z_stream) (W : list Z) (c : block_codes).

Hypothesis Hspace : valid m0 ob (oe - ob).
Hypothesis H32 : oe - ob < 2 ^ 32.
Hypothesis Hring : W ≠ [] → 0 ≤ i_write s < i_wsize s ∧ Z.of_nat (length W) ≤ i_wsize s ∧ disjoint_ranges (i_window s) (i_wsize s) ob (oe - ob).
Hypothesis HW : ∀ j, 1 ≤ j ≤ Z.of_nat (length W) →
  m0 !! (i_window s + (i_write s - j) mod i_wsize s) = W !! Z.to_nat (Z.of_nat (length W) - j).
Hypothesis HWb : Forall is_byte W.
Hypothesis Hhave : i_whave s = Z.of_nat (length W).
Hypothesis HW32 : Z.of_nat (length W) + (oe - ob) < 2 ^ 32.
Hypothesis Hin : disjoint_ranges ib (ie - ib) ob (oe - ob).
Hypothesis Hlit : table_ok (entry (i_codes s) (i_lencode s)) (i_lenbits s) (lit_lens c) (lit_ent c).
Hypothesis Hdist : table_ok (entry (i_codes s) (i_distcode s)) (i_distbits s) (dist_lens c) (dist_ent c).
Hypothesis Hops : ∀ x, (x < length (lit_lens c))%nat → fst (lit_ent c x) ≠ 0 →
  Z.land (fst (lit_ent c x)) 16 ≠ 0 ∨ Z.land (fst (lit_ent c x)) 64 ≠ 0.
Hypothesis Hops' : ∀ x, (x < length (dist_lens c))%nat →
  Z.land (fst (dist_ent c x)) 16 ≠ 0 ∨ Z.land (fst (dist_ent c x)) 64 ≠ 0.

Abbreviation out_is := (out_is m0 ob oe).

(** In a block: [O] is written and [n] bits are left, the number [X]. *)
Record decoding (i : inflating) (O : list Z) (X n : Z) : Prop := {
  dec_out : out_is (f_mem i) O;
  dec_put : r_put (f_regs i) = ob + Z.of_nat (length O);
  dec_left : r_left (f_regs i) = oe - r_put (f_regs i);
  dec_start : r_out (f_regs i) = oe - ob;
  dec_in : input i X n;
  dec_end : r_next (f_regs i) + r_have (f_regs i) = ie;
  dec_beg : ib ≤ r_next (f_regs i);
  dec_bits : r_bits (f_regs i) ≤ 7;
  dec_same : frozen (f_state i) = frozen s;
  dec_strm : frozen_strm (f_strm i) = frozen_strm z }.

Lemma dec_moved i i' O X n X' n' : decoding i O X n → moved i i' → input i' X' n' → r_bits (f_regs i') ≤ 7 → decoding i' O X' n'.
Proof.
  intros [H1 H2 H3 H4 H5 H6 H7 H8 H9 H10] (M1 & M2 & M3 & M4 & M5 & M6 & M7 & M8 & M9) Hi Hb.
  split; rewrite ?M1, ?M2, ?M3, ?M4, ?M5, ?M6, ?M7, ?M8; try done; lia.
Qed.

(** A change of the registers of the block. *)
Lemma dec_state i O X n f : decoding i O X n → frozen (f (f_state i)) = frozen (f_state i) →
  decoding (set_f_state (f (f_state i)) i) O X n.
Proof. intros [H1 H2 H3 H4 H5 H6 H7 H8 H9 H10] Hf. split; try done. cbn. by rewrite Hf. Qed.

Lemma run_on_state f i : on_state f i = Ret tt (set_f_state (f (f_state i)) i).
Proof. done. Qed.
Lemma run_goto m i : goto_mode m i = Ret Again (set_f_state (set_i_mode m (f_state i)) i).
Proof. done. Qed.

Lemma step_at i m : i_mode (f_state i) = m → step i = match m with
  | LEN => case_LEN i | LENEXT => case_LENEXT i | DIST => case_DIST i | DISTEXT => case_DISTEXT i
  | MATCH => case_MATCH i | LIT => case_LIT i | _ => step i end.
Proof. intros <-. unfold Inflate.step. rewrite run_bind, run_the_state. by destruct (i_mode (f_state i)). Qed.
Lemma frozen_fields s1 : frozen s1 = frozen s →
  i_codes s1 = i_codes s ∧ i_lencode s1 = i_lencode s ∧ i_lenbits s1 = i_lenbits s ∧
  i_distcode s1 = i_distcode s ∧ i_distbits s1 = i_distbits s ∧
  i_window s1 = i_window s ∧ i_wsize s1 = i_wsize s ∧ i_write s1 = i_write s ∧ i_whave s1 = i_whave s.
Proof.
  intros E. split_and!; [apply (f_equal i_codes) in E|apply (f_equal i_lencode) in E|apply (f_equal i_lenbits) in E|
    apply (f_equal i_distcode) in E|apply (f_equal i_distbits) in E|apply (f_equal i_window) in E|apply (f_equal i_wsize) in E|
    apply (f_equal i_write) in E|apply (f_equal i_whave) in E]; exact E.
Qed.

(** More output, by [n] bytes. *)
Lemma dec_output i O X n m' O' k : decoding i O X n → out_is m' O' → Z.of_nat (length O') = Z.of_nat (length O) + k →
  decoding (set_f_regs (set_r_left (r_left (f_regs i) - k) (set_r_put (r_put (f_regs i) + k) (f_regs i))) (set_f_mem m' i)) O' X n.
Proof.
  intros [H1 H2 H3 H4 H5 H6 H7 H8 H9 H10] Hm' Hlen. split; cbn; try done; try lia.
  destruct H5 as (l & (Hb & Hrest) & Hh & ->). exists l. cbn. split; [|done]. split; [|done].
  apply (bytes_at_ext (f_mem i)); [done|]. intros a Ha. rewrite (out_frame _ _ _ _ _ Hm'), (out_frame _ _ _ _ _ H1) by (unfold disjoint_ranges in Hin; lia). done.
Qed.

(** *** Literals *)

Lemma turn_LIT i O X n b : decoding i O X n → i_mode (f_state i) = LIT → i_length (f_state i) = b → is_byte b → Z.of_nat (length O) < oe - ob →
  ∃ i', goes i i' ∧ decoding i' (O ++ [b]) X n ∧ i_mode (f_state i') = LEN.
Proof.
  intros Hd Hmode Hb Hbyte Hspc. pose proof Hd as [H1 H2 H3 _ _ _ _ _ _ _].
  destruct (out_store m0 ob oe W (f_mem i) O b H1 Hspc Hbyte) as (m' & E & Hm').
  eexists. split; [apply goes_step; rewrite (step_at i LIT Hmode)|].
  - unfold case_LIT. rewrite run_bind, run_the_state. cbn beta iota. rewrite run_bind, run_the_regs. cbn beta iota.
    rewrite (proj2 (Z.eqb_neq _ 0)) by lia. rewrite run_bind. unfold inmem, zoom. rewrite Hb, (u8_byte b) by done. rewrite H2, E. cbn beta iota.
    rewrite run_bind. unfold on_regs. rewrite run_modify. cbn beta iota. by rewrite run_goto.
  - split; [|done]. apply (dec_state _ _ _ _ (set_i_mode LEN)); [|done].
    pose proof (dec_output i O X n m' (O ++ [b]) 1 Hd Hm' ltac:(rewrite length_app; cbn; lia)) as Hd'. destruct Hd' as [D1 D2 D3 D4 D5 D6 D7 D8 D9 D10]. by split.
Qed.

(** *** Matches *)

(** One turn copies what is in one piece. *)
Lemma turn_MATCH i O X n len dist : decoding i O X n → i_mode (f_state i) = MATCH → i_length (f_state i) = len → i_offset (f_state i) = dist →
  1 ≤ len → 1 ≤ dist ≤ Z.of_nat (length (W ++ O)) → Z.of_nat (length O) + len ≤ oe - ob →
  ∃ i' k, goes i i' ∧ 1 ≤ k ≤ len ∧ decoding i' (grow W (Z.to_nat k) dist O) X n ∧
    if decide (k = len) then i_mode (f_state i') = LEN
    else i_mode (f_state i') = MATCH ∧ i_length (f_state i') = len - k ∧ i_offset (f_state i') = dist.
Proof.
  intros Hd Hmode El Eo Hlen Hdist' Hspc. pose proof Hd as [H1 H2 H3 H4 _ _ _ _ H9 _].
  destruct (frozen_fields _ H9) as (_ & _ & _ & _ & _ & F1 & F2 & F3 & F4). rewrite length_app in Hdist'.
  assert (∃ from k, match_source (f_state i) (f_regs i) = (from, k) ∧ 1 ≤ k ≤ len ∧
    ∀ j, 0 ≤ j < k → from + j = addr ob (i_window s) (i_wsize s) (i_write s) (Z.of_nat (length O) + j) dist) as (from & k & Esrc & Hk & Hfrom).
  { unfold match_source. rewrite El, Eo, F1, F2, F3, H4, H3, H2. replace (oe - ob - (oe - (ob + Z.of_nat (length O)))) with (Z.of_nat (length O)) by lia.
    destruct (Z.ltb_spec (Z.of_nat (length O)) dist) as [Hfar|Hnear].
    - destruct Hring as (Hw & Hwl & _); [intros E; rewrite E in *; cbn in *; lia|].
      destruct (Z.ltb_spec (i_write s) (dist - Z.of_nat (length O))); eexists _, _; (split; [done|]).
      + destruct (Z.ltb_spec len (dist - Z.of_nat (length O) - i_write s)); (split; [lia|]); intros j Hj; rewrite <-(addr_high _ _ _ _ W) by lia; lia.
      + destruct (Z.ltb_spec len (dist - Z.of_nat (length O))); (split; [lia|]); intros j Hj; rewrite <-(addr_low _ _ _ _ W) by lia; lia.
    - eexists _, _. split; [done|]. split; [lia|]. intros j Hj. rewrite <-(addr_direct _ _ _ _ W) by lia. lia. }
  destruct (run_copy_bytes m0 ob oe (i_window s) (i_wsize s) (i_write s) W Hring HW HWb (Z.to_nat k) (f_mem i) O from dist H1 ltac:(lia)
    ltac:(rewrite length_app; lia)) as (m' & Ecopy & Hm'); [intros j Hj; apply Hfrom; lia|].
  assert (copy_match (ob + Z.of_nat (length O)) from k (f_mem i) = Ret tt m') as Ecm.
  { rewrite <-Ecopy, <-(run_copy_match W), Z2Nat.id by lia. done. }
  pose proof (dec_output i O X n m' (grow W (Z.to_nat k) dist O) k Hd Hm' ltac:(rewrite grow_length; lia)) as Hd'.
  exists (set_f_state (if decide (k = len) then set_i_mode LEN (set_i_length (len - k) (f_state i)) else set_i_length (len - k) (f_state i))
    (set_f_regs (set_r_left (r_left (f_regs i) - k) (set_r_put (r_put (f_regs i) + k) (f_regs i))) (set_f_mem m' i))), k.
  split; [apply goes_step; rewrite (step_at i MATCH Hmode)|].
  - unfold case_MATCH. rewrite run_bind, run_the_state. cbn beta iota. rewrite run_bind, run_the_regs. cbn beta iota.
    rewrite (proj2 (Z.eqb_neq _ 0)) by lia. rewrite Esrc. rewrite (proj2 (Z.ltb_ge _ _)) by lia. rewrite H2, run_bind. unfold inmem, zoom. rewrite Ecm. cbn beta iota.
    rewrite run_bind. unfold on_regs. rewrite run_modify. cbn beta iota. rewrite run_bind, run_on_state. cbn beta iota. rewrite El, <-H2.
    case_decide; [rewrite (proj2 (Z.eqb_eq _ 0)) by lia; by rewrite run_goto|rewrite (proj2 (Z.eqb_neq _ 0)) by lia; done].
  - split; [done|]. split.
    + destruct Hd' as [D1 D2 D3 D4 D5 D6 D7 D8 D9 D10]. split; try done. cbn in *. by case_decide.
    + case_decide; [done|]. by split_and!.
Qed.

Lemma turns_MATCH len : ∀ i O X n dist, decoding i O X n → i_mode (f_state i) = MATCH → i_length (f_state i) = Z.of_nat (S len) → i_offset (f_state i) = dist →
  1 ≤ dist ≤ Z.of_nat (length (W ++ O)) → Z.of_nat (length O) + Z.of_nat (S len) ≤ oe - ob →
  ∃ i', goes i i' ∧ decoding i' (grow W (S len) dist O) X n ∧ i_mode (f_state i') = LEN.
Proof.
  induction len as [len IH] using lt_wf_ind. intros i O X n dist Hd Hmode El Eo Hdist' Hspc.
  destruct (turn_MATCH i O X n (Z.of_nat (S len)) dist Hd Hmode El Eo ltac:(lia) Hdist' Hspc) as (i1 & k & G1 & Hk & Hd1 & Hend).
  case_decide as Ek.
  - subst k. rewrite Nat2Z.id in Hd1. by exists i1.
  - destruct Hend as (Hmode1 & El1 & Eo1).
    destruct (IH (len - Z.to_nat k)%nat ltac:(lia) i1 (grow W (Z.to_nat k) dist O) X n dist Hd1 Hmode1) as (i2 & G2 & Hd2 & Hmode2).
    + rewrite El1. lia.
    + done.
    + rewrite !length_app, grow_length in *. lia.
    + rewrite grow_length. lia.
    + exists i2. split; [by transitivity i1|]. split; [|done]. rewrite <-grow_add in Hd2. by replace (Z.to_nat k + S (len - Z.to_nat k))%nat with (S len) in Hd2 by lia.
Qed.
(** *** The parts of a match *)

(** Extra bits, and what becomes of them. *)
Lemma run_extra e f (k : machine turn) i O X n : decoding i O X n → 1 ≤ e ≤ 13 → e ≤ n → (∀ v st, frozen (f v st) = frozen st) →
  ∃ i', NEEDBITS e (v ← the_bits e; on_state (f v);; DROPBITS e;; k) i = k i' ∧ decoding i' O (X / 2 ^ e) (n - e) ∧
    f_state i' = f (X mod 2 ^ e) (f_state i).
Proof.
  intros Hd He Hn Hf. pose proof Hd as [_ _ _ _ H5 _ _ H8 _ _].
  destruct (run_NEEDBITS e (v ← the_bits e; on_state (f v);; DROPBITS e;; k) i X n H5 ltac:(lia) ltac:(lia)) as (i1 & E1 & Hi1 & Hm1 & Hn1 & Hb1).
  destruct (run_DROPBITS e (set_f_state (f (X mod 2 ^ e) (f_state i1)) i1) X n) as (i2 & E2 & Hi2 & Hm2 & Hb2); [done|cbn; lia|cbn; lia|].
  exists i2. split; [|assert (moved (set_f_state (f (X mod 2 ^ e) (f_state i)) i) i2) as Hm].
  - rewrite E1, run_bind, (run_the_bits i1 X n) by (done || lia). cbn beta iota. rewrite run_bind, run_on_state. cbn beta iota. by rewrite run_bind, E2.
  - transitivity (set_f_state (f (X mod 2 ^ e) (f_state i1)) i1); [|done]. destruct Hm1 as (M1 & M2 & M3 & M4). rewrite <-M3. split; [done|]. split; [done|]. by rewrite M3.
  - split; [|destruct Hm as (_ & _ & -> & _); done].
    assert (decoding (set_f_state (f (X mod 2 ^ e) (f_state i)) i) O X n) as Hd1 by (apply dec_state; [done|apply Hf]).
    apply (dec_moved _ _ _ _ _ _ _ Hd1 Hm Hi2). cbn in Hb2. lia.
Qed.

Lemma turn_LENEXT i O X n e b : decoding i O X n → i_mode (f_state i) = LENEXT → i_extra (f_state i) = e → i_length (f_state i) = b →
  0 ≤ e ≤ 5 → e ≤ n → 0 ≤ b → b + X mod 2 ^ e < 2 ^ 32 →
  ∃ i', goes i i' ∧ decoding i' O (X / 2 ^ e) (n - e) ∧ i_mode (f_state i') = DIST ∧ i_length (f_state i') = b + X mod 2 ^ e.
Proof.
  intros Hd Hmode Ee El He Hn Hb H. assert (case_LENEXT i = (if e =? 0 then goto_mode DIST else
    NEEDBITS e (v ← the_bits e; on_state (set_i_length (u32 (b + v)));; DROPBITS e;; goto_mode DIST)) i) as Ecase.
  { unfold case_LENEXT. rewrite run_bind, run_the_state. cbn beta iota. by rewrite Ee, El. }
  destruct (Z.eqb_spec e 0) as [->|He0].
  - rewrite Z.mod_1_r, Z.div_1_r, Z.add_0_r, Z.sub_0_r. eexists. split; [apply goes_step; rewrite (step_at i LENEXT Hmode), Ecase; by rewrite run_goto|].
    split; [by apply (dec_state _ _ _ _ (set_i_mode DIST))|done].
  - destruct (run_extra e (λ v, set_i_length (u32 (b + v))) (goto_mode DIST) i O X n Hd ltac:(lia) Hn ltac:(done)) as (i1 & E1 & Hd1 & Hst).
    eexists. split; [apply goes_step; rewrite (step_at i LENEXT Hmode), Ecase, E1; by rewrite run_goto|].
    split; [by apply (dec_state _ _ _ _ (set_i_mode DIST))|]. split; [done|]. cbn. rewrite Hst. cbn. apply wrap_small.
    pose proof (Z.mod_pos_bound X (2 ^ e) (pow_pos e ltac:(lia))). lia.
Qed.

(** The distance is checked against what there is. *)
Lemma run_check_distance i O X n dist : decoding i O X n → i_offset (f_state i) = dist →
  check_distance i = if decide (dist ≤ Z.of_nat (length (W ++ O))) then goto_mode MATCH i else bad invalid_distance_too_far_back i.
Proof.
  intros Hd Eo. pose proof Hd as [H1 H2 H3 H4 _ _ _ _ H9 _]. destruct (frozen_fields _ H9) as (_ & _ & _ & _ & _ & _ & _ & _ & F4).
  unfold check_distance. rewrite run_bind, run_the_state. cbn beta iota. rewrite run_bind, run_the_regs. cbn beta iota.
  rewrite Eo, F4, Hhave, H3, H2, H4, length_app. pose proof (out_len _ _ _ _ _ H1). rewrite wrap_small by lia.
  destruct (Z.ltb_spec (Z.of_nat (length W) + (oe - ob) - (oe - (ob + Z.of_nat (length O)))) dist); [rewrite decide_False by lia|rewrite decide_True by lia]; done.
Qed.

Lemma turn_DISTEXT i O X n e b : decoding i O X n → i_mode (f_state i) = DISTEXT → i_extra (f_state i) = e → i_offset (f_state i) = b →
  0 ≤ e ≤ 13 → e ≤ n → 0 ≤ b → b + X mod 2 ^ e < 2 ^ 32 →
  ∃ i1, decoding i1 O (X / 2 ^ e) (n - e) ∧ i_offset (f_state i1) = b + X mod 2 ^ e ∧ i_length (f_state i1) = i_length (f_state i) ∧
    step i = if decide (b + X mod 2 ^ e ≤ Z.of_nat (length (W ++ O))) then goto_mode MATCH i1 else bad invalid_distance_too_far_back i1.
Proof.
  intros Hd Hmode Ee Eo He Hn Hb H. assert (case_DISTEXT i = (if e =? 0 then check_distance else
    NEEDBITS e (v ← the_bits e; on_state (set_i_offset (u32 (b + v)));; DROPBITS e;; check_distance)) i) as Ecase.
  { unfold case_DISTEXT. rewrite run_bind, run_the_state. cbn beta iota. by rewrite Ee, Eo. }
  rewrite (step_at i DISTEXT Hmode), Ecase. destruct (Z.eqb_spec e 0) as [->|He0].
  - rewrite Z.mod_1_r, Z.div_1_r, Z.add_0_r, Z.sub_0_r. exists i. split; [done|]. split; [done|]. split; [done|]. by apply (run_check_distance i O X n).
  - destruct (run_extra e (λ v, set_i_offset (u32 (b + v))) check_distance i O X n Hd ltac:(lia) Hn ltac:(done)) as (i1 & E1 & Hd1 & Hst).
    pose proof (Z.mod_pos_bound X (2 ^ e) (pow_pos e ltac:(lia))).
    assert (i_offset (f_state i1) = b + X mod 2 ^ e) as Eo1 by (rewrite Hst; cbn; apply wrap_small; lia).
    exists i1. split; [done|]. split; [done|]. split; [by rewrite Hst|]. rewrite E1. by apply (run_check_distance i1 O (X / 2 ^ e) (n - e)).
Qed.
(** *** Symbols *)

Lemma high_bits o : Z.land o 0xf0 = 0 → Z.land o 16 = 0 ∧ Z.land o 64 = 0.
Proof.
  intros H. change 16 with (Z.land 0xf0 16). change 64 with (Z.land 0xf0 64). by rewrite !Z.land_assoc, H.
Qed.

Lemma link_bits o : 1 ≤ o ≤ 15 → Z.land o 0xf0 = 0.
Proof. intros H. destruct (Z.eqb_spec (Z.land o 0xf0) 0); [done|]. exfalso. apply (link_op o H). by right. Qed.

Lemma base_bits e : 0 ≤ e ≤ 13 → (16 + e =? 0) = false ∧ (Z.land (16 + e) 32 =? 0) = true ∧ (Z.land (16 + e) 64 =? 0) = true ∧ Z.land (16 + e) 15 = e.
Proof.
  intros He. assert (∃ i, (i ≤ 13)%nat ∧ e = Z.of_nat i) as (i & Hi & ->) by (exists (Z.to_nat e); lia).
  do 14 (destruct i as [|i]; [done|]). lia.
Qed.

Lemma run_symbol_lit (k : code → machine turn) i O X n sym l : decoding i O X n → symbol_at (lit_lens c) sym l X → l ≤ n →
  ∃ this i', find_symbol i_lencode i_lenbits (λ this, negb (op this =? 0) && (Z.land (op this) 0xf0 =? 0)) k i = k this i' ∧
    op this = fst (lit_ent c sym) ∧ val this = snd (lit_ent c sym) ∧ decoding i' O (X / 2 ^ l) (n - l) ∧ f_state i' = f_state i ∧ 1 ≤ l.
Proof.
  intros Hd (Hs & Hl & Hst) Hn. pose proof Hd as [_ _ _ _ H5 _ _ H8 H9 _]. destruct (frozen_fields _ H9) as (F1 & F2 & F3 & _).
  pose proof (proj1 (Forall_lookup _ _) (tk_lens _ _ _ _ Hlit) sym l Hs) as Hr. cbn beta in Hr.
  destruct (run_find_symbol i_lencode i_lenbits (λ this, negb (op this =? 0) && (Z.land (op this) 0xf0 =? 0)) (f_state i) (lit_lens c) (lit_ent c))
    with (X := X) (sym := sym) (l := l) (k := k) (i := i) (n := n) as (this & i' & E & Eo & Ev & Hi & Hm & Hb); try done; try lia.
  - by rewrite F1, F2, F3.
  - intros e He. cbn beta. rewrite (proj2 (Z.eqb_neq _ 0)), link_bits by lia. done.
  - intros x e Hx He. cbn beta. rewrite He. destruct (Z.eqb_spec (fst (lit_ent c x)) 0) as [|Hne]; [done|]. cbn [negb andb].
    apply Z.eqb_neq. intros H0. apply high_bits in H0 as [H0 H0']. by destruct (Hops x Hx Hne).
  - exists this, i'. split; [done|]. split; [done|]. split; [done|]. split; [apply (dec_moved i i' O X n); [done..|lia]|]. split; [by destruct Hm as (_ & _ & -> & _)|lia].
Qed.

Lemma run_symbol_dist (k : code → machine turn) i O X n sym l : decoding i O X n → symbol_at (dist_lens c) sym l X → l ≤ n →
  ∃ this i', find_symbol i_distcode i_distbits (λ this, Z.land (op this) 0xf0 =? 0) k i = k this i' ∧
    op this = fst (dist_ent c sym) ∧ val this = snd (dist_ent c sym) ∧ decoding i' O (X / 2 ^ l) (n - l) ∧ f_state i' = f_state i ∧ 1 ≤ l.
Proof.
  intros Hd (Hs & Hl & Hst) Hn. pose proof Hd as [_ _ _ _ H5 _ _ H8 H9 _]. destruct (frozen_fields _ H9) as (F1 & _ & _ & F2 & F3 & _).
  pose proof (proj1 (Forall_lookup _ _) (tk_lens _ _ _ _ Hdist) sym l Hs) as Hr. cbn beta in Hr.
  destruct (run_find_symbol i_distcode i_distbits (λ this, Z.land (op this) 0xf0 =? 0) (f_state i) (dist_lens c) (dist_ent c))
    with (X := X) (sym := sym) (l := l) (k := k) (i := i) (n := n) as (this & i' & E & Eo & Ev & Hi & Hm & Hb); try done; try lia.
  - by rewrite F1, F2, F3.
  - intros e He. cbn beta. by rewrite link_bits by lia.
  - intros x e Hx He. cbn beta. rewrite He. apply Z.eqb_neq. intros H0. apply high_bits in H0 as [H0 H0']. by destruct (Hops' x Hx).
  - exists this, i'. split; [done|]. split; [done|]. split; [done|]. split; [apply (dec_moved i i' O X n); [done..|lia]|]. split; [by destruct Hm as (_ & _ & -> & _)|lia].
Qed.

Lemma turn_DIST i O X n sym l e b : decoding i O X n → i_mode (f_state i) = DIST → symbol_at (dist_lens c) sym l X → l ≤ n →
  dist_ent c sym = (16 + e, b) → 0 ≤ e ≤ 13 →
  ∃ i', goes i i' ∧ decoding i' O (X / 2 ^ l) (n - l) ∧ i_mode (f_state i') = DISTEXT ∧ i_extra (f_state i') = e ∧ i_offset (f_state i') = b ∧
    i_length (f_state i') = i_length (f_state i).
Proof.
  intros Hd Hmode Hs Hn Hent He. pose proof (step_at i DIST Hmode) as Est. cbn beta iota in Est. unfold case_DIST in Est.
  match type of Est with _ = find_symbol _ _ _ ?K _ => destruct (run_symbol_dist K i O X n sym l Hd Hs Hn) as (this & i1 & E1 & Eo & Ev & Hd1 & Hst & _) end.
  rewrite Hent in Eo, Ev. cbn [fst snd] in Eo, Ev. destruct (base_bits e He) as (_ & _ & E64 & E15). rewrite E1, Eo, Ev, E64, E15 in Est. cbn [negb] in Est. cbn beta iota in Est.
  rewrite run_bind, run_on_state in Est. cbn beta iota in Est. rewrite run_goto in Est. eexists. split; [by apply goes_step|]. split; [|cbn; by rewrite Hst].
  apply (dec_state _ _ _ _ (set_i_mode DISTEXT)); [|done]. by apply (dec_state _ _ _ _ (λ s, set_i_offset b (set_i_extra e s))).
Qed.
(** *** A token, slowly *)

(** Where the machine is after a token: what it has written, or an error. *)
Definition after (i : inflating) (O : list Z) (X n : Z) (t : token) : Prop :=
  match t, expand W O t with
  | EndOfBlock, _ => decoding i O X n ∧ i_mode (f_state i) = TYPE
  | _, Some O' => decoding i O' X n ∧ i_mode (f_state i) = LEN
  | _, None => i_mode (f_state i) = BAD ∧ s_msg (f_strm i) = Some invalid_distance_too_far_back ∧ out_is (f_mem i) O
  end.

Definition slow (i : inflating) : Prop := r_have (f_regs i) < 6 ∨ r_left (f_regs i) < 258.
#[export] Instance slow_dec i : Decision (slow i).
Proof. apply _. Defined.

Lemma slow_LEN i : slow i → i_mode (f_state i) = LEN → step i =
  find_symbol i_lencode i_lenbits (λ this, negb (op this =? 0) && (Z.land (op this) 0xf0 =? 0)) (λ this,
    on_state (set_i_length (val this));;
    if op this =? 0 then goto_mode LIT
    else if negb (Z.land (op this) 32 =? 0) then goto_mode TYPE
    else if negb (Z.land (op this) 64 =? 0) then bad invalid_literal_length_code
    else on_state (set_i_extra (Z.land (op this) 15));; goto_mode LENEXT) i.
Proof.
  intros Hs Hmode. rewrite (step_at i LEN Hmode). unfold case_LEN. rewrite run_bind, run_the_regs. cbn beta iota.
  destruct Hs as [Hs|Hs]; [rewrite (proj2 (Z.leb_gt 6 _)) by done|rewrite (proj2 (Z.leb_gt 258 _)) by done; rewrite andb_false_r]; done.
Qed.

Lemma turns_slow i O X n t w : decoding i O X n → i_mode (f_state i) = LEN → slow i → token_at c X t w → w ≤ n →
  (∀ O', expand W O t = Some O' → Z.of_nat (length O') ≤ oe - ob) →
  ∃ i', goes i i' ∧ after i' O (X / 2 ^ w) (n - w) t.
Proof.
  intros Hd Hmode Hslow Ht Hn Hspc. pose proof (slow_LEN i Hslow Hmode) as Est. unfold after.
  match type of Est with _ = find_symbol _ _ _ ?K _ => set (K0 := K) in Est end.
  destruct t as [b|len dist|]; cbn [token_at expand] in *.
  - destruct Ht as (sym & Hs & Hent & Hbyte). destruct (run_symbol_lit K0 i O X n sym w Hd Hs Hn) as (this & i1 & E1 & Eo & Ev & Hd1 & Hst & _).
    rewrite Hent in Eo, Ev. cbn [fst snd] in Eo, Ev. rewrite E1 in Est. subst K0. cbv beta in Est. rewrite Eo, Ev, run_bind, run_on_state in Est. cbn beta iota in Est.
    change (0 =? 0) with true in Est. cbn beta iota in Est. rewrite run_goto in Est. specialize (Hspc _ eq_refl). rewrite length_app in Hspc. cbn [length] in Hspc.
    match type of Est with _ = Ret _ ?i2 => destruct (turn_LIT i2 O (X / 2 ^ w) (n - w) b) as (i3 & G3 & Hd3 & Hm3); try done; try lia end.
    { apply (dec_state _ _ _ _ (set_i_mode LIT)); [|done]. by apply (dec_state _ _ _ _ (set_i_length b)). }
    exists i3. split; [|done]. etransitivity; [by apply goes_step|done].
  - destruct Ht as (s1 & l1 & b1 & e1 & s2 & l2 & b2 & e2 & Hs1 & Hent1 & He1 & -> & Hb1 & Hlen & Hs2 & Hent2 & He2 & -> & Hb2 & Hdst & ->).
    pose proof (symbol_width _ _ _ _ _ _ _ Hlit Hs1). pose proof (symbol_width _ _ _ _ _ _ _ Hdist Hs2).
    pose proof (Z.mod_pos_bound (X / 2 ^ l1) (2 ^ e1) (pow_pos e1 ltac:(lia))). pose proof (Z.mod_pos_bound (X / 2 ^ (l1 + e1 + l2)) (2 ^ e2) (pow_pos e2 ltac:(lia))).
    destruct (run_symbol_lit K0 i O X n s1 l1 Hd Hs1 ltac:(lia)) as (this & i1 & E1 & Eo & Ev & Hd1 & Hst & _).
    rewrite Hent1 in Eo, Ev. cbn [fst snd] in Eo, Ev. rewrite E1 in Est. subst K0. cbv beta in Est. destruct (base_bits e1 ltac:(lia)) as (E0 & E32 & E64 & E15).
    rewrite Eo, Ev, run_bind, run_on_state, E0, E32, E64, E15 in Est. cbn [negb] in Est. cbn beta iota in Est. rewrite run_bind, run_on_state in Est. cbn beta iota in Est. rewrite run_goto in Est.
    match type of Est with _ = Ret _ ?i2 => destruct (turn_LENEXT i2 O (X / 2 ^ l1) (n - l1) e1 b1) as (i3 & G3 & Hd3 & Hm3 & El3); try done; try lia end.
    { apply (dec_state _ _ _ _ (set_i_mode LENEXT)); [|done]. apply (dec_state _ _ _ _ (set_i_extra e1)); [|done]. by apply (dec_state _ _ _ _ (set_i_length b1)). }
    rewrite (div_pow_add X) in Hd3 by lia.
    destruct (turn_DIST i3 O _ _ s2 l2 e2 b2 Hd3 Hm3 Hs2 ltac:(lia) Hent2 He2) as (i4 & G4 & Hd4 & Hm4 & Ee4 & Eo4 & El4).
    rewrite (div_pow_add X) in Hd4 by lia.
    destruct (turn_DISTEXT i4 O _ _ e2 b2 Hd4 Hm4 Ee4 Eo4 He2 ltac:(lia) ltac:(lia) ltac:(lia)) as (i5 & Hd5 & Eo5 & El5 & Est5).
    rewrite (div_pow_add X) in Hd5 by lia. replace (n - l1 - e1 - l2 - e2) with (n - (l1 + e1 + l2 + e2)) in Hd5 by lia.
    assert (goes i i4) as G by (etransitivity; [by apply goes_step|by transitivity i3]).
    set (len := b1 + X / 2 ^ l1 mod 2 ^ e1) in *. set (dist := b2 + X / 2 ^ (l1 + e1 + l2) mod 2 ^ e2) in *.
    case_decide as Hfar.
    + specialize (Hspc _ eq_refl). rewrite grow_length in Hspc. rewrite run_goto in Est5.
      match type of Est5 with _ = Ret _ ?i2 => destruct (turns_MATCH (Z.to_nat len - 1)%nat i2 O (X / 2 ^ (l1 + e1 + l2 + e2)) (n - (l1 + e1 + l2 + e2)) dist) as (i6 & G6 & Hd6 & Hm6) end.
      { by apply (dec_state _ _ _ _ (set_i_mode MATCH)). }
      { done. }
      { cbn. rewrite El5, El4, El3. lia. }
      { done. }
      { lia. }
      { lia. }
      replace (S (Z.to_nat len - 1)) with (Z.to_nat len) in Hd6 by lia. exists i6. split; [|done]. transitivity i4; [done|]. etransitivity; [by apply goes_step|done].
    + unfold bad in Est5. rewrite run_bind in Est5. unfold on_strm in Est5. rewrite run_modify in Est5. cbn beta iota in Est5. rewrite run_goto in Est5.
      eexists. split; [transitivity i4; [done|by apply goes_step]|]. split; [done|]. split; [done|]. apply (dec_out _ _ _ _ Hd5).
  - destruct Ht as (sym & v & Hs & Hent). destruct (run_symbol_lit K0 i O X n sym w Hd Hs Hn) as (this & i1 & E1 & Eo & Ev & Hd1 & Hst & _).
    rewrite Hent in Eo, Ev. cbn [fst snd] in Eo, Ev. rewrite E1 in Est. subst K0. cbv beta in Est. rewrite Eo, Ev, run_bind, run_on_state in Est. cbn beta iota in Est.
    change (96 =? 0) with false in Est. change (negb (Z.land 96 32 =? 0)) with true in Est. cbn beta iota in Est. rewrite run_goto in Est.
    eexists. split; [by apply goes_step|]. split; [|done]. apply (dec_state _ _ _ _ (set_i_mode TYPE)); [|done]. by apply (dec_state _ _ _ _ (set_i_length v)).
Qed.
(** *** The fast path *)

Hypothesis Hin32 : ie - ib < 2 ^ 32.

(** The input of the machine, in the memory of the caller. *)
Lemma dec_feeds i O X n : decoding i O X n →
  ∃ l, feeds m0 (r_next (f_regs i)) (r_hold (f_regs i)) (r_bits (f_regs i)) l X ∧ r_have (f_regs i) = Z.of_nat (length l) ∧
    n = r_bits (f_regs i) + 8 * Z.of_nat (length l).
Proof.
  intros [H1 _ _ _ (l & (Hb & Hrest) & Hh & Hn) H6 H7 _ _ _]. exists l. split; [|done]. split; [|done].
  apply (bytes_at_ext (f_mem i)); [done|]. intros a Ha. symmetry. apply (out_frame _ _ _ _ _ H1). unfold disjoint_ranges in Hin. lia.
Qed.

(** The machine as [RESTORE] leaves it. *)
Definition restored (i : inflating) : inflating :=
  let r := f_regs i in
  set_f_strm (set_s_next_out (r_put r) (set_s_avail_out (r_left r) (set_s_next_in (r_next r) (set_s_avail_in (r_have r) (f_strm i)))))
    (set_f_state (set_i_hold (r_hold r) (set_i_bits (r_bits r) (f_state i))) i).

(** The end of [inflate_fast] and [LOAD]: the registers that are given back. *)
Definition fast_end (i : inflating) (q : fast) (e : option (inflate_mode * option message)) (m : mem) : inflating :=
  let j := q_bits q / 8 in
  let z := match e with Some (_, Some msg) => set_s_msg (Some msg) (f_strm i) | _ => f_strm i end in
  let st := match e with Some (mo, _) => set_i_mode mo (f_state i) | None => f_state i end in
  let hold := q_hold q mod 2 ^ (q_bits q - 8 * j) in
  let bits := q_bits q - 8 * j in
  let next := q_in q + 1 - j in
  let put := q_out q + 1 in
  Inflating m
    (set_s_next_in next (set_s_next_out put (set_s_avail_in (ie - next) (set_s_avail_out (oe - put) z))))
    (set_i_hold hold (set_i_bits bits st))
    (Regs next (ie - next) put (oe - put) hold bits (r_in (f_regs i)) (r_out (f_regs i))).

Lemma run_fast_return i q e m : f_mem i = m → 0 ≤ q_bits q ≤ 40 → ib ≤ q_in q + 1 - q_bits q / 8 → q_in q + 1 ≤ ie → 0 ≤ oe - (q_out q + 1) < 2 ^ 32 →
  (fast_return (ie - 6) (oe - 258) q e;; LOAD;; mret Again) i = Ret Again (fast_end i q e m).
Proof.
  intros Hm Hb Hib Hie Hout. rewrite run_bind. unfold fast_return. rewrite run_modify. cbv zeta. cbn beta iota. rewrite run_bind. unfold LOAD. rewrite run_modify. cbv zeta. cbn beta iota.
  rewrite run_ret. f_equal. rewrite Z.shiftr_div_pow2, (Z.shiftl_mul_pow2 _ 3) by lia. change (2 ^ 3) with 8. set (j := q_bits q / 8) in *.
  pose proof (Z.div_mod (q_bits q) 8 ltac:(lia)) as Edm. fold j in Edm. pose proof (Z.mod_pos_bound (q_bits q) 8 ltac:(lia)).
  assert (u32 (q_bits q - j * 8) = q_bits q - 8 * j) as Eb by (rewrite wrap_small; lia). rewrite Eb.
  rewrite Z.shiftl_1_l, (wrap_small 32 (2 ^ _)) by (split; [apply Z.pow_nonneg; lia|apply Z.pow_lt_mono_r; lia]).
  assert (Z.land (q_hold q) (2 ^ (q_bits q - 8 * j) - 1) = q_hold q mod 2 ^ (q_bits q - 8 * j)) as Eh.
  { replace (2 ^ (q_bits q - 8 * j) - 1) with (Z.ones (q_bits q - 8 * j)) by (rewrite Z.ones_equiv; lia). apply Z.land_ones. lia. }
  rewrite Eh. assert (u32 (if q_in q - j <? ie - 6 then 5 + (ie - 6 - (q_in q - j)) else 5 - (q_in q - j - (ie - 6))) = ie - (q_in q + 1 - j)) as E1.
  { destruct (_ <? _); rewrite wrap_small by lia; lia. }
  assert (u32 (if q_out q <? oe - 258 then 257 + (oe - 258 - q_out q) else 257 - (q_out q - (oe - 258))) = oe - (q_out q + 1)) as E2.
  { destruct (q_out q <? oe - 258); rewrite wrap_small by lia; lia. }
  rewrite E1, E2. replace (q_in q - j + 1) with (q_in q + 1 - j) by lia. unfold fast_end. fold j. destruct i as [m1 z1 s1 r1]. cbn in Hm. subst m1. done.
Qed.

Lemma run_LEN_fast i O X n q e m' : decoding i O X n → i_mode (f_state i) = LEN → 6 ≤ r_have (f_regs i) → 258 ≤ r_left (f_regs i) →
  (let q0 := Fast (r_next (f_regs i) - 1) (ob + Z.of_nat (length O) - 1) (r_hold (f_regs i)) (r_bits (f_regs i)) in
   loop (S (Z.to_nat (r_have (f_regs i) + r_left (f_regs i)))) (fast_body ob oe ie (f_state (restored i))) q0 (f_mem i) = Ret (q, e) m') →
  0 ≤ q_bits q ≤ 40 → ib ≤ q_in q + 1 - q_bits q / 8 → q_in q + 1 ≤ ie → 0 ≤ oe - (q_out q + 1) < 2 ^ 32 →
  step i = Ret Again (fast_end (restored i) q e m').
Proof.
  intros Hd Hmode Hh Hl Hloop Hb Hib Hie Hout. rewrite (step_at i LEN Hmode). pose proof Hd as [_ H2 H3 H4 _ H6 _ _ _ _].
  unfold case_LEN. rewrite run_bind, run_the_regs. cbn beta iota. rewrite (proj2 (Z.leb_le 6 _)), (proj2 (Z.leb_le 258 _)) by done. cbn [andb].
  rewrite run_bind. unfold RESTORE. rewrite run_modify. cbn beta iota. cbv zeta. change (set_f_strm _ _) with (restored i).
  set (i1 := restored i) in *. rewrite run_bind. unfold inflate_fast. rewrite run_bind, run_get. cbn beta iota. cbv zeta. rewrite run_bind.
  change (s_next_in (f_strm i1)) with (r_next (f_regs i)). change (s_avail_in (f_strm i1)) with (r_have (f_regs i)).
  change (s_next_out (f_strm i1)) with (r_put (f_regs i)). change (s_avail_out (f_strm i1)) with (r_left (f_regs i)).
  change (i_hold (f_state i1)) with (r_hold (f_regs i)). change (i_bits (f_state i1)) with (r_bits (f_regs i)).
  replace (r_next (f_regs i) - 1 + (r_have (f_regs i) - 5)) with (ie - 6) by lia. replace (r_put (f_regs i) - 1 + (r_left (f_regs i) - 257)) with (oe - 258) by lia.
  replace (r_put (f_regs i) - 1 - (r_out (f_regs i) - r_left (f_regs i))) with (ob - 1) by lia. rewrite H2.
  unfold zoom. change (f_mem i1) with (f_mem i). unfold fast_body in Hloop. rewrite Hloop. cbn beta iota.
  pose proof (run_fast_return (set_f_mem m' i1) q e m' eq_refl Hb Hib Hie Hout) as E. rewrite run_bind in E.
  destruct (fast_return (ie - 6) (oe - 258) q e (set_f_mem m' i1)) as [[] i2| |]; [|done..]. rewrite E. done.
Qed.
(** The registers given back hold the rest of the input. *)
Lemma fast_end_decoding i O X n q e m O' X' n' : decoding i O X n → fast_at m0 ob ib ie q O' X' n' → out_is m O' → n' ≤ n → X' = X / 2 ^ (n - n') →
  (match e with Some (_, Some _) => False | _ => True end) →
  decoding (fast_end (restored i) q e m) O' X' n'.
Proof.
  intros Hd (Ho & Hb & Hib & l & Hf & Hn' & Hie) Hm Hle HX He. destruct (dec_feeds i O X n Hd) as (l0 & Hf0 & Hh0 & Hn0).
  destruct Hd as [D1 D2 D3 D4 D5 D6 D7 D8 D9 D10]. pose proof (Z.div_mod (q_bits q) 8 ltac:(lia)) as Edm. pose proof (Z.mod_pos_bound (q_bits q) 8 ltac:(lia)).
  assert (0 ≤ q_bits q) by apply Hf. set (j := q_bits q / 8) in *.
  pose proof (feeds_unpull m0 _ _ _ _ _ _ _ _ _ _ (n - n') j Hf0 Hf ltac:(lia) HX ltac:(lia) ltac:(lia) ltac:(lia) ltac:(lia) ltac:(lia)) as Hun.
  set (l1 := drop (Z.to_nat (q_in q + 1 - j - r_next (f_regs i))) l0) in *.
  assert (Z.of_nat (length l1) = ie - (q_in q + 1 - j)) as Hl1 by (unfold l1; rewrite length_drop; lia).
  split; unfold fast_end; cbn; fold j; try done; try lia.
  - exists l1. cbn. fold j. split; [|split; [lia|lia]]. destruct Hun as (Hbytes & Hrest). split; [|done].
    apply (bytes_at_ext m0); [done|]. intros a Ha. rewrite (out_frame _ _ _ _ _ Hm); [done|]. unfold disjoint_ranges in Hin. lia.
  - destruct e as [[mo [msg|]]|]; done.
  - destruct e as [[mo [msg|]]|]; done.
Qed.

Lemma turn_fast i O X n ts w : decoding i O X n → i_mode (f_state i) = LEN → 6 ≤ r_have (f_regs i) → 258 ≤ r_left (f_regs i) → block_at c X ts w →
  ∃ i' pre rest O', goes i i' ∧ ts = pre ++ rest ∧ expand_all W O pre = Some O' ∧
  (pre ≠ [] ∧ i_mode (f_state i') = LEN ∧ (∃ X' n' w', decoding i' O' X' n' ∧ block_at c X' rest w' ∧ n' - w' = n - w ∧ n' ≤ n ∧ X' = X / 2 ^ (n - n')) ∨
   rest = [] ∧ i_mode (f_state i') = TYPE ∧ decoding i' O' (X / 2 ^ w) (n - w) ∨
   i_mode (f_state i') = BAD ∧ s_msg (f_strm i') = Some invalid_distance_too_far_back ∧ out_is (f_mem i') O' ∧
     ∃ t rest', rest = t :: rest' ∧ expand W O' t = None).
Proof.
  intros Hd Hmode Hh Hl Hts. destruct (dec_feeds i O X n Hd) as (l0 & Hf0 & Hh0 & Hn0). pose proof Hd as [D1 D2 D3 D4 D5 D6 D7 D8 D9 D10].
  pose proof (out_len _ _ _ _ _ D1). set (s1 := f_state (restored i)). assert (frozen s1 = frozen s) as Hfr by (rewrite <-D9; done).
  destruct (frozen_fields _ Hfr) as (F1 & F2 & F3 & F4 & F5 & F6 & F7 & F8 & F9).
  set (q0 := Fast (r_next (f_regs i) - 1) (ob + Z.of_nat (length O) - 1) (r_hold (f_regs i)) (r_bits (f_regs i))).
  destruct (run_fast_loop m0 ob oe ib ie s1 W c H32 ltac:(by rewrite F6, F7, F8) ltac:(by rewrite F6, F7, F8) HWb ltac:(by rewrite F9) Hin
    ltac:(by rewrite F1, F2, F3) ltac:(by rewrite F1, F4, F5) Hops Hops' ts (S (Z.to_nat (r_have (f_regs i) + r_left (f_regs i)))) q0 (f_mem i) O X n w)
    as (q' & m' & e & pre & rest & O' & X' & n' & Eloop & -> & Eexp & Hm' & Hq' & Hle & HX & He); [|done|unfold q0; cbn; lia|lia|lia|done|].
  { unfold q0. split; [done|]. cbn [q_in q_out q_bits q_hold]. split; [lia|]. split; [lia|]. exists l0. replace (r_next (f_regs i) - 1 + 1) with (r_next (f_regs i)) by lia. split; [done|lia]. }
  pose proof Hq' as (Ho' & Hb' & Hib' & l & Hf & Hn' & Hie). pose proof (out_len _ _ _ _ _ Hm').
  assert (0 ≤ q_bits q') as Hb0 by apply Hf. pose proof (Z.div_mod (q_bits q') 8 ltac:(lia)). pose proof (Z.mod_pos_bound (q_bits q') 8 ltac:(lia)).
  assert (step i = Ret Again (fast_end (restored i) q' e m')) as Est by (apply (run_LEN_fast i O X n); [done..|lia|lia|lia|lia]).
  exists (fast_end (restored i) q' e m'), pre, rest, O'. split; [by apply goes_step|]. split; [done|]. split; [done|].
  destruct e as [[[] [[]|]]|]; try done.
  - right. left. destruct He as (-> & ->). split; [done|]. split; [done|]. replace (X / 2 ^ w) with X' by (rewrite HX; do 2 f_equal; lia). by apply (fast_end_decoding i O X n).
  - right. right. split; [done|]. split; [done|]. split; [done|]. destruct He as (t & rest' & -> & Ht). by exists t, rest'.
  - left. destruct He as (Hpre & (w' & Hw' & Hnw) & _). split; [done|]. split; [done|]. exists X', n', w'. split; [by apply (fast_end_decoding i O X n)|]. split_and!; done.
Qed.

(** *** The whole block *)

(** Where the machine is after a block: at the next block with all of the text written, or
    at the match that refers to more than there is. *)
Definition block_end (i : inflating) (O : list Z) (X n : Z) (ts : list token) : Prop :=
  match expand_all W O ts with
  | Some O' => decoding i O' X n ∧ i_mode (f_state i) = TYPE
  | None => i_mode (f_state i) = BAD ∧ s_msg (f_strm i) = Some invalid_distance_too_far_back ∧
      ∃ pre t rest O', ts = pre ++ t :: rest ∧ expand_all W O pre = Some O' ∧ expand W O' t = None ∧ out_is (f_mem i) O'
  end.

(** The room a block needs: that of its text, as far as it can be written. *)
Definition fits (O : list Z) (ts : list token) : Prop :=
  ∀ pre rest O', ts = pre ++ rest → expand_all W O pre = Some O' → Z.of_nat (length O') ≤ oe - ob.

Lemma fits_app O pre rest O' : fits O (pre ++ rest) → expand_all W O pre = Some O' → fits O' rest.
Proof.
  intros Hf Hp pre' rest' O'' -> He. apply (Hf (pre ++ pre') rest'); [by rewrite app_assoc|]. by rewrite expand_all_app, Hp.
Qed.

Lemma block_end_app i O O' X n pre rest : expand_all W O pre = Some O' → block_end i O' X n rest → block_end i O X n (pre ++ rest).
Proof.
  intros Hp. unfold block_end. rewrite expand_all_app, Hp. destruct (expand_all W O' rest); [done|].
  intros (Hm & Hmsg & pre' & t & rest' & O2 & -> & He & Ht & Ho). split; [done|]. split; [done|].
  exists (pre ++ pre'), t, rest', O2. split; [by rewrite <-app_assoc|]. by rewrite expand_all_app, Hp.
Qed.

Lemma run_block : ∀ ts i O X n w, decoding i O X n → i_mode (f_state i) = LEN → block_at c X ts w → w ≤ n → fits O ts →
  ∃ i', goes i i' ∧ block_end i' O (X / 2 ^ w) (n - w) ts.
Proof.
  induction ts as [ts IH] using (induction_ltof1 _ length). intros i O X n w Hd Hmode Hb Hn Hfit.
  destruct (decide (slow i)) as [Hslow|Hfast].
  - destruct ts as [|t ts]; cbn [block_at] in Hb.
    + destruct (turns_slow i O X n EndOfBlock w Hd Hmode Hslow Hb Hn) as (i1 & G1 & A1); [|by exists i1].
      intros O' E. apply (Hfit [] []); [done|done].
    + destruct Hb as (Ht & w1 & w2 & Hw1 & Hw2 & ->).
      assert (1 ≤ w1) by (eapply token_width; done). assert (1 ≤ w2) by (eapply block_width; done).
      destruct (turns_slow i O X n t w1 Hd Hmode Hslow Hw1 ltac:(lia)) as (i1 & G1 & A1).
      { intros O' E. apply (Hfit [t] ts); [done|]. cbn. by rewrite E. }
      unfold after in A1. destruct (expand W O t) as [O1|] eqn:E1.
      * assert (decoding i1 O1 (X / 2 ^ w1) (n - w1) ∧ i_mode (f_state i1) = LEN) as [Hd1 Hm1] by (destruct t; [rewrite E1 in A1..|]; done).
        assert (expand_all W O [t] = Some O1) as E1' by (cbn; by rewrite E1).
        destruct (IH ts ltac:(unfold ltof; cbn; lia) i1 O1 _ _ w2 Hd1 Hm1 Hw2 ltac:(lia) (fits_app O [t] ts O1 Hfit E1')) as (i2 & G2 & A2).
        exists i2. split; [by transitivity i1|]. rewrite (div_pow_add X) in A2 by lia. replace (n - w1 - w2) with (n - (w1 + w2)) in A2 by lia.
        by apply (block_end_app i2 O O1 _ _ [t]).
      * exists i1. split; [done|]. unfold block_end. cbn [expand_all]. rewrite E1.
        assert (i_mode (f_state i1) = BAD ∧ s_msg (f_strm i1) = Some invalid_distance_too_far_back ∧ out_is (f_mem i1) O) as (B1 & B2 & B3) by (destruct t; [rewrite E1 in A1..|]; done).
        split; [done|]. split; [done|]. by exists [], t, ts, O.
  - assert (6 ≤ r_have (f_regs i) ∧ 258 ≤ r_left (f_regs i)) as [Hh Hl] by (unfold slow in Hfast; lia).
    destruct (turn_fast i O X n ts w Hd Hmode Hh Hl Hb) as (i1 & pre & rest & O1 & G1 & -> & Ep & [(Hpre & Hm1 & X1 & n1 & w1 & Hd1 & Hb1 & Hnw & Hle & HX)|[(-> & Hm1 & Hd1)|(Hm1 & Hmsg & Ho & t & rest' & -> & Et)]]).
    + assert (length pre ≠ 0)%nat by (by destruct pre). assert (1 ≤ w1) by (eapply block_width; done).
      destruct (IH rest ltac:(unfold ltof; rewrite length_app; lia) i1 O1 X1 n1 w1 Hd1 Hm1 Hb1 ltac:(lia) (fits_app O pre rest O1 Hfit Ep)) as (i2 & G2 & A2).
      exists i2. split; [by transitivity i1|]. apply (block_end_app i2 O O1 _ _ pre); [done|].
      rewrite HX, (div_pow_add X) in A2 by lia. replace (n - n1 + w1) with w in A2 by lia. by replace (n - w) with (n1 - w1) by lia.
    + exists i1. split; [done|]. unfold block_end. rewrite app_nil_r, Ep. done.
    + exists i1. split; [done|]. unfold block_end. rewrite expand_all_app, Ep. cbn [expand_all]. rewrite Et. split; [done|]. split; [done|]. by exists pre, t, rest', O1.
Qed.
End machine.
