(* ===== verification/InflateStream.v ===== *)
(** * From block to block

    The turns of the machine between blocks: the header of a block, a stored block, the end
    of the stream.  What a block changes of the state is left open, what it keeps is
    [settled]. *)

From stdpp Require Import base tactics numbers list gmap.
From S2P Require Import Prelude Memory Words MemFns Inftrees InftreesSpec InftreesMain Inflate Bitstream InflateTables InflateRead InflateCopy InflateFast InflateBlock.

Open Scope Z_scope.

(** What stays of the state from block to block. *)
Definition settled (s : inflate_state) : inflate_state :=
  set_i_last 0 (set_i_lencode (InCodes 0) (set_i_distcode (InCodes 0) (set_i_lenbits 0 (set_i_distbits 0 (set_i_ncode 0
    (set_i_nlen 0 (set_i_ndist 0 (set_i_have 0 (set_i_next 0 (set_i_lens [] (set_i_work [] (set_i_codes ∅ (frozen s))))))))))))).

Lemma frozen_settled s s' : frozen s = frozen s' → settled s = settled s'.
Proof. unfold settled. by intros ->. Qed.

(** Only the state and the registers of the input change. *)
Definition shifted (i i' : inflating) : Prop :=
  f_mem i' = f_mem i ∧ f_strm i' = f_strm i ∧
  r_put (f_regs i') = r_put (f_regs i) ∧ r_left (f_regs i') = r_left (f_regs i) ∧
  r_in (f_regs i') = r_in (f_regs i) ∧ r_out (f_regs i') = r_out (f_regs i) ∧
  r_next (f_regs i') + r_have (f_regs i') = r_next (f_regs i) + r_have (f_regs i) ∧
  r_next (f_regs i) ≤ r_next (f_regs i').

#[export] Instance shifted_preorder : PreOrder shifted.
Proof.
  split; [by intros i; split_and!|]. intros i j k (?&?&?&?&?&?&?&?) (?&?&?&?&?&?&?&?). split_and!; try congruence; lia.
Qed.

Lemma moved_shifted i i' : moved i i' → shifted i i'.
Proof. intros (?&?&?&?&?&?&?&?&?). by split_and!. Qed.
Lemma state_shifted i s : shifted i (set_f_state s i).
Proof. by split_and!. Qed.

Section stream.
Context (BYFOUR little NO_DIVIDE : bool) (hbuf : Z) (flush : Z).
Abbreviation step := (step BYFOUR little NO_DIVIDE hbuf flush).
Abbreviation goes := (goes BYFOUR little NO_DIVIDE hbuf flush).
Context (m0 : mem) (ob oe ib ie : Z) (s0 : inflate_state) (z : z_stream) (W : list Z).

(** Between blocks: [O] is written and [n] bits are left, the number [X]. *)
Record between (i : inflating) (O : list Z) (X n : Z) : Prop := {
  bt_dec : decoding m0 ob oe ib ie (f_state i) z i O X n;
  bt_same : settled (f_state i) = settled s0 }.

Lemma between_shifted i i' O X n X' n' : between i O X n → shifted i i' → input i' X' n' → r_bits (f_regs i') ≤ 7 →
  settled (f_state i') = settled (f_state i) → between i' O X' n'.
Proof.
  intros [[H1 H2 H3 H4 H5 H6 H7 H8 H9 H10] Hs] (M1 & M2 & M3 & M4 & M5 & M6 & M7 & M8) Hi Hb Hst.
  split; [|congruence]. split; rewrite ?M1, ?M2, ?M3, ?M4, ?M5, ?M6, ?M7, ?M8; try done; lia.
Qed.

Lemma between_of_block i O X n s : decoding m0 ob oe ib ie s z i O X n → settled s = settled s0 → between i O X n.
Proof.
  intros [H1 H2 H3 H4 H5 H6 H7 H8 H9 H10] Hs. split; [by split|]. rewrite <-Hs. by apply frozen_settled.
Qed.

(** *** The header of a block *)

Hypothesis Hflush : flush ≠ Z_BLOCK.

Lemma step_TYPE i : i_mode (f_state i) = TYPE ∨ i_mode (f_state i) = TYPEDO → step i = case_TYPEDO i.
Proof.
  intros Hm. unfold Inflate.step. rewrite run_bind, run_the_state. cbn beta iota. destruct Hm as [-> | ->]; [|done].
  unfold case_TYPE. by rewrite (proj2 (Z.eqb_neq _ _)).
Qed.

(** What the header makes of the state. *)
Definition header_state (t last : Z) (s : inflate_state) : inflate_state :=
  let s := set_i_last last s in
  if t =? 0 then set_i_mode STORED s
  else if t =? 1 then set_i_mode LEN (set_i_lencode LenFix (set_i_lenbits 9 (set_i_distcode DistFix (set_i_distbits 5 s))))
  else set_i_mode TABLE s.

Lemma turn_TYPE i O X n t last : between i O X n → i_mode (f_state i) = TYPE ∨ i_mode (f_state i) = TYPEDO → i_last (f_state i) = 0 →
  3 ≤ n → 0 ≤ last ≤ 1 → 0 ≤ t ≤ 2 → X mod 2 ^ 3 = 2 * t + last →
  ∃ i', goes i i' ∧ between i' O (X / 2 ^ 3) (n - 3) ∧ f_state i' = header_state t last (f_state i).
Proof.
  intros Hb Hm Hlast Hn Hl Ht HX. pose proof Hb as [Hd Hs]. pose proof Hd as [_ _ _ _ Hi _ _ Hb7 _ _].
  pose proof (step_TYPE i Hm) as Est. unfold case_TYPEDO in Est. rewrite run_bind, run_the_state in Est. cbn beta iota in Est. rewrite Hlast in Est.
  change (negb (0 =? 0)) with false in Est. cbn beta iota in Est.
  match type of Est with _ = NEEDBITS 3 ?K _ => destruct (run_NEEDBITS 3 K i X n Hi ltac:(lia) ltac:(lia)) as (i1 & E1 & Hi1 & Hm1 & Hn1 & Hb1) end.
  rewrite E1 in Est. clear E1. assert (X mod 2 ^ 1 = last) as El.
  { rewrite <-(mod_mod_pow X 1 3), HX by lia. rewrite Z.mul_comm, Z.add_comm, Z_mod_plus_full. apply Z.mod_small. lia. }
  assert (X / 2 ^ 1 mod 2 ^ 2 = t) as Et.
  { change 2 with (3 - 1) at 3. rewrite <-div_mod_pow, HX by lia. rewrite Z.mul_comm, Z.div_add_l, (Z.div_small last) by lia. lia. }
  rewrite run_bind, (run_the_bits i1 X n) in Est by (done || lia). cbn beta iota in Est. rewrite run_bind, run_on_state in Est. cbn beta iota in Est. rewrite El in Est.
  set (i2 := set_f_state (set_i_last last (f_state i1)) i1) in *. assert (input i2 X n) as Hi2 by done.
  destruct (run_DROPBITS 1 i2 X n Hi2 ltac:(cbn; lia) ltac:(cbn; lia)) as (i3 & E3 & Hi3 & Hm3 & Hb3). rewrite run_bind, E3 in Est. cbn beta iota in Est.
  change (r_bits (f_regs i2)) with (r_bits (f_regs i1)) in Hb3.
  rewrite run_bind, (run_the_bits i3 _ _ 2 Hi3) in Est by lia. cbn beta iota in Est. rewrite Et in Est.
  assert (f_state i3 = set_i_last last (f_state i)) as Hs3 by (destruct Hm3 as (_ & _ & -> & _); destruct Hm1 as (_ & _ & M & _); cbn; by rewrite M).
  set (i4 := set_f_state (header_state t last (f_state i)) i3). assert (input i4 (X / 2 ^ 1) (n - 1)) as Hi4 by done.
  destruct (run_DROPBITS 2 i4 _ _ Hi4 ltac:(cbn; lia) ltac:(cbn; lia)) as (i5 & E5 & Hi5 & Hm5 & Hb5). rewrite (div_pow_add X) in Hi5 by lia.
  change (r_bits (f_regs i4)) with (r_bits (f_regs i3)) in Hb5.
  assert (f_state i5 = header_state t last (f_state i)) as Hs5 by (destruct Hm5 as (_ & _ & -> & _); done).
  exists i5. split; [|split].
  - apply goes_step. rewrite Est, run_bind.
    assert ((if t =? 0 then goto_mode STORED else if t =? 1 then fixedtables;; goto_mode LEN else if t =? 2 then goto_mode TABLE else bad invalid_block_type) i3 = Ret Again i4) as ->.
    { unfold i4, header_state. rewrite <-Hs3. destruct (Z.eqb_spec t 0); [done|]. destruct (Z.eqb_spec t 1); [done|]. by rewrite (proj2 (Z.eqb_eq t 2)) by lia. }
    cbn beta iota. by rewrite run_bind, E5.
  - replace (n - 3) with (n - 1 - 2) by lia. apply (between_shifted i i5 O X n); [done| |done|lia|].
    + transitivity i1; [by apply moved_shifted|]. transitivity i2; [apply state_shifted|]. transitivity i3; [by apply moved_shifted|].
      transitivity i4; [apply state_shifted|]. by apply moved_shifted.
    + rewrite Hs5. unfold header_state. by destruct (t =? 0), (t =? 1).
  - done.
Qed.

(** *** Stored blocks *)

Lemma lxor_ones a k : 0 ≤ k → 0 ≤ a < 2 ^ k → Z.lxor a (2 ^ k - 1) = 2 ^ k - 1 - a.
Proof.
  intros Hk Ha. pose proof (pow_pos k Hk). replace (2 ^ k - 1 - a) with (Z.lnot a mod 2 ^ k).
  2: { rewrite <-(Z_mod_plus_full _ 1), Z.mod_small; unfold Z.lnot; lia. }
  replace (2 ^ k - 1) with (Z.ones k) by (rewrite Z.ones_equiv; lia). apply Z.bits_inj'. intros j Hj. rewrite Z.lxor_spec, Z.testbit_ones_nonneg by lia.
  destruct (Z.ltb_spec j k); [rewrite Z.mod_pow2_bits_low, Z.lnot_spec by lia; by destruct (Z.testbit a j)|].
  rewrite Z.mod_pow2_bits_high, xorb_false_r by lia. rewrite <-(Z.mod_small a (2 ^ k)) by lia. apply Z.mod_pow2_bits_high. lia.
Qed.

(** The bits up to the next byte are dropped. *)
Lemma run_BYTEBITS i X n : input i X n → r_bits (f_regs i) ≤ 7 →
  ∃ i', BYTEBITS i = Ret tt i' ∧ moved i i' ∧ input i' (X / 2 ^ (n mod 8)) (n - n mod 8) ∧ r_bits (f_regs i') = 0.
Proof.
  intros Hi Hb. pose proof (proj2 (input_hold i X n Hi)) as Hb0. assert (n mod 8 = r_bits (f_regs i)) as ->.
  { destruct Hi as (l & _ & _ & ->). rewrite (Z.mul_comm 8), Z_mod_plus_full. apply Z.mod_small. lia. }
  unfold BYTEBITS. rewrite run_bind, run_the_regs. cbn beta iota. change 7 with (Z.ones 3). rewrite Z.land_ones, Z.mod_small by (cbn; lia).
  destruct (run_DROPBITS (r_bits (f_regs i)) i X n Hi ltac:(lia) ltac:(lia)) as (i' & E & Hi' & Hm & Hb'). exists i'. split_and!; try done. lia.
Qed.

(** [INITBITS] after the bits have been used. *)
Lemma run_INITBITS i X n b : input i X n → r_bits (f_regs i) = b →
  ∃ i', INITBITS i = Ret tt i' ∧ moved i i' ∧ input i' (X / 2 ^ b) (n - b) ∧ r_bits (f_regs i') = 0.
Proof.
  intros (l & (Hm & Hb & Hh & ->) & Hl & ->) Eb. unfold INITBITS, on_regs. rewrite run_modify. eexists. split; [done|].
  split; [split_and!; cbn; done || lia|]. split; [|done]. exists l. cbn. rewrite Eb in *. split; [|lia]. split; [done|]. split; [lia|]. split; [lia|].
  rewrite (Z.mul_comm (2 ^ b)), Z.div_add, Z.div_small by (pose proof (pow_pos b Hb); lia). change (2 ^ 0) with 1. lia.
Qed.

Hypothesis Hspace : valid m0 ob (oe - ob).
Hypothesis Hin : disjoint_ranges ib (ie - ib) ob (oe - ob).

(** The header of a stored block. *)
Lemma turn_STORED i O X n len : between i O X n → i_mode (f_state i) = STORED → 0 ≤ len < 2 ^ 16 → 32 ≤ n - n mod 8 →
  begins (X / 2 ^ (n mod 8)) [(len, 16); (2 ^ 16 - 1 - len, 16)] →
  ∃ i', goes i i' ∧ between i' O (X / 2 ^ (n mod 8 + 32)) (n - (n mod 8 + 32)) ∧ r_bits (f_regs i') = 0 ∧
    f_state i' = set_i_mode COPY (set_i_length len (f_state i)).
Proof.
  intros Hb Hmode Hlen Hn Hbeg. pose proof Hb as [Hd Hs]. pose proof Hd as [_ _ _ _ Hi _ _ Hb7 _ _].
  pose proof (Z.mod_pos_bound n 8 ltac:(lia)).
  destruct (run_BYTEBITS i X n Hi Hb7) as (i1 & E1 & Hm1 & Hi1 & Hb1). set (X1 := X / 2 ^ (n mod 8)) in *.
  assert (step i = case_STORED i) as Est by (unfold Inflate.step; by rewrite run_bind, run_the_state, Hmode).
  unfold case_STORED in Est. rewrite run_bind, E1 in Est. cbn beta iota in Est.
  match type of Est with _ = NEEDBITS 32 ?K _ => destruct (run_NEEDBITS 32 K i1 X1 _ Hi1 ltac:(lia) ltac:(lia)) as (i2 & E2 & Hi2 & Hm2 & Hn2 & Hb2) end.
  rewrite E2 in Est. clear E2. assert (r_bits (f_regs i2) = 32) as Hb32.
  { pose proof Hi2 as (l & _ & _ & Hn'). pose proof (Z.div_mod n 8 ltac:(lia)). lia. }
  destruct (input_hold i2 _ _ Hi2) as [Hh _]. rewrite Hb32 in Hh.
  assert (r_hold (f_regs i2) = len + 2 ^ 16 * (2 ^ 16 - 1 - len)) as Eh by (rewrite Hh; unfold begins in Hbeg; cbn [width pack fst snd] in Hbeg; change (16 + (16 + 0)) with 32 in Hbeg; rewrite Hbeg; ring).
  rewrite run_bind, run_the_regs in Est. cbn beta iota in Est.
  assert (Z.land (r_hold (f_regs i2)) 0xffff = len) as El.
  { rewrite Eh. change 0xffff with (Z.ones 16). rewrite Z.land_ones, (Z.mul_comm (2 ^ 16)), Z_mod_plus_full, Z.mod_small; lia. }
  assert (Z.shiftr (r_hold (f_regs i2)) 16 = 2 ^ 16 - 1 - len) as Er.
  { rewrite Eh, Z.shiftr_div_pow2, (Z.mul_comm (2 ^ 16)), Z.div_add, Z.div_small; lia. }
  rewrite El, Er in Est. change 0xffff with (2 ^ 16 - 1) in Est. rewrite (lxor_ones _ 16) in Est by lia.
  rewrite (proj2 (Z.eqb_eq len _)) in Est by lia. cbn [negb] in Est. cbn beta iota in Est.
  rewrite (wrap_small 32 (r_hold _)) in Est by lia. change (2 ^ 16 - 1) with 0xffff in Est. rewrite El in Est.
  rewrite run_bind, run_on_state in Est. cbn beta iota in Est. set (i3 := set_f_state (set_i_length len (f_state i2)) i2) in *.
  destruct (run_INITBITS i3 X1 (n - n mod 8) 32 Hi2 Hb32) as (i4 & E4 & Hm4 & Hi4 & Hb4). rewrite run_bind, E4 in Est. cbn beta iota in Est. rewrite run_goto in Est.
  assert (f_state i4 = set_i_length len (f_state i)) as Hs4.
  { destruct Hm4 as (_ & _ & -> & _). cbn. destruct Hm2 as (_ & _ & -> & _). by destruct Hm1 as (_ & _ & -> & _). }
  rewrite Hs4 in Est. exists (set_f_state (set_i_mode COPY (set_i_length len (f_state i))) i4). split; [by apply goes_step|].
  split; [|done]. unfold X1 in Hi4. rewrite (div_pow_add X) in Hi4 by lia. replace (n - (n mod 8 + 32)) with (n - n mod 8 - 32) by lia.
  apply (between_shifted i _ O X n); [done| |done|cbn; lia|done].
  transitivity i1; [by apply moved_shifted|]. transitivity i2; [by apply moved_shifted|]. transitivity i3; [apply state_shifted|].
  transitivity i4; [by apply moved_shifted|apply state_shifted].
Qed.

(** Its bytes. *)
Lemma turns_COPY i O X n bs : between i O X n → i_mode (f_state i) = COPY → i_length (f_state i) = Z.of_nat (length bs) → r_bits (f_regs i) = 0 →
  Forall is_byte bs → 8 * Z.of_nat (length bs) ≤ n → begins X (byte_fields bs) → Z.of_nat (length O) + Z.of_nat (length bs) ≤ oe - ob →
  ∃ i', goes i i' ∧ between i' (O ++ bs) (X / 2 ^ (8 * Z.of_nat (length bs))) (n - 8 * Z.of_nat (length bs)) ∧
    i_mode (f_state i') = TYPE ∧ i_last (f_state i') = i_last (f_state i).
Proof.
  intros Hb Hmode Elen Hbits Hbs Hn Hbeg Hspc.
  assert (∀ j, i_mode (f_state j) = COPY → step j = case_COPY j) as Est by (intros j E; unfold Inflate.step; by rewrite run_bind, run_the_state, E).
  assert (∀ j, i_mode (f_state j) = COPY → i_length (f_state j) = 0 → step j = Ret Again (set_f_state (set_i_mode TYPE (f_state j)) j)) as Eend.
  { intros j E1 E2. rewrite (Est j E1). unfold case_COPY. rewrite run_bind, run_the_state. cbn beta iota. by rewrite E2. }
  pose proof Hb as [Hd Hs]. pose proof Hd as [H1 H2 H3 H4 (l & (Hm & _ & Hh & HX) & Hhave & Hn') H6 H7 H8 H9 H10]. rewrite Hbits in *.
  change (2 ^ 0) with 1 in *. assert (r_hold (f_regs i) = 0) as Eh by lia. rewrite Eh, Z.add_0_l, Z.mul_1_l in HX.
  destruct (begins_bytes bs Hbs l ltac:(apply Hm) ltac:(lia)) as [l' El]; [by rewrite <-HX|].
  destruct (decide (bs = [])) as [->|Hne].
  { eexists. split; [apply goes_step, Eend; done|]. rewrite app_nil_r. cbn [length]. change (8 * Z.of_nat 0) with 0. rewrite Z.div_1_r, Z.sub_0_r.
    split; [|done]. apply (between_shifted i _ O X n); [done|apply state_shifted|by destruct Hd|cbn; lia|done]. }
  assert (length bs ≠ 0)%nat by (by destruct bs). rewrite El, bytes_at_app in Hm. destruct Hm as [Hm1 Hm2]. rewrite El, length_app in *.
  set (k := Z.of_nat (length bs)) in *. set (m' := write_bytes (f_mem i) (r_put (f_regs i)) bs).
  assert (memcpy (r_put (f_regs i)) (r_next (f_regs i)) k (f_mem i) = Ret (r_put (f_regs i)) m') as Ecpy.
  { apply run_memcpy; [done| |unfold disjoint_ranges in Hin; lia]. intros j Hj. rewrite H2. destruct (out_valid _ _ _ _ _ H1 (Z.of_nat (length O) + j) ltac:(lia)) as [b Eb].
    exists b. rewrite <-Eb. f_equal. lia. }
  assert (out_is m0 ob oe m' (O ++ bs)) as Hout.
  { split.
    - intros a Ha. unfold m'. rewrite lookup_write_bytes_out by lia. by apply (out_frame _ _ _ _ _ H1).
    - apply bytes_at_app. unfold m'. rewrite H2. split; [|by apply write_bytes_at].
      apply write_bytes_frame; [apply (out_bytes _ _ _ _ _ H1)|]. unfold disjoint_ranges. lia.
    - rewrite length_app. lia.
    - apply write_bytes_valid, (out_valid _ _ _ _ _ H1). }
  set (i1 := set_f_state (set_i_length 0 (f_state i)) (set_f_regs (set_r_left (r_left (f_regs i) - k) (set_r_put (r_put (f_regs i) + k)
    (set_r_have (r_have (f_regs i) - k) (set_r_next (r_next (f_regs i) + k) (f_regs i))))) (set_f_mem m' i))).
  assert (step i = Ret Again i1) as E1.
  { rewrite (Est i Hmode). unfold case_COPY. rewrite run_bind, run_the_state. cbn beta iota zeta. rewrite Elen. fold k. rewrite (proj2 (Z.eqb_neq k 0)) by lia.
    rewrite run_bind, run_the_regs. cbn beta iota zeta. rewrite (proj2 (Z.ltb_ge (r_have _) k)) by lia. rewrite (proj2 (Z.ltb_ge (r_left _) k)) by lia.
    rewrite (proj2 (Z.eqb_neq k 0)) by lia. rewrite run_bind. unfold inmem, zoom. rewrite Ecpy. cbn beta iota. rewrite run_bind. unfold skip_input, on_regs. rewrite run_modify. cbn beta iota.
    rewrite run_bind, run_modify. cbn beta iota. rewrite run_bind, run_on_state. cbn beta iota. rewrite run_ret. unfold i1. rewrite Z.sub_diag. done. }
  exists (set_f_state (set_i_mode TYPE (f_state i1)) i1). split; [transitivity i1; [by apply goes_step|]; apply goes_step, Eend; done|].
  split; [|done]. split; [|done]. rewrite HX, le_value_app. fold k.
  assert (0 ≤ le_value bs < 2 ^ (8 * k)) as Hr by (by apply le_value_range).
  rewrite (Z.mul_comm (2 ^ (8 * k))), Z.div_add, (Z.div_small (le_value bs)), Z.add_0_l by lia.
  split; cbn; try done; try lia.
  - rewrite length_app. lia.
  - exists l'. cbn. rewrite Hbits, Eh. split; [|lia]. split; [|lia].
    apply (bytes_at_ext (f_mem i)); [done|]. intros a Ha. unfold m'. apply lookup_write_bytes_out. unfold disjoint_ranges in Hin. lia.
Qed.
End stream.
