(* ===== verification/InflateFaults.v ===== *)
(** * Where the decompressor goes wrong

    Two inputs that the code of [inflate.c] does not treat as it means to: an extra field
    longer than the space for it, and a synchronization pattern that starts in the bit
    buffer. *)

From stdpp Require Import base tactics numbers list gmap.
From S2P Require Import Prelude Memory Words MemFns Inflate InflateRead.

Open Scope Z_scope.

(** A copy to where there is nothing. *)
Lemma memcpy_nowhere dst src n m b : m !! src = Some b → m !! dst = None → 0 < n → memcpy dst src n m = UB.
Proof.
  intros Hs Hd Hn. unfold memcpy, copy_up. rewrite run_bind, run_loop, (proj2 (Z.eqb_neq n 0)) by lia.
  rewrite run_bind. unfold loadc. rewrite run_bind, (run_load8 _ _ _ Hs). cbn beta iota. rewrite run_ret, run_bind.
  unfold store8. by rewrite Hd.
Qed.

(** The header of a gzip file announces an extra field of 20 bytes; the caller has space
    for 4 of them at 300 and gives the input in pieces.  After 10 bytes the rest to copy,
    [extra_max - len], is below zero, which is 4294967290 bytes to the unsigned type: the
    next byte of input makes [inflate] write outside of the space of the caller. *)
Definition extra_head : gz_header := GzHeader 0 0 0 0 300 20 4 0 0 0 0 0 0.
Definition extra_state : inflate_state :=
  IState EXTRA 0 2 0 0x408 32768 0 0 (Some extra_head) 15 0 0 0 0 0 0 10 0 0 (InCodes 0) (InCodes 0) 0 0 0 0 0 0 0 [] [] ∅.
Definition extra_inflating : inflating :=
  Inflating (write_bytes (write_bytes ∅ 100 [7]) 300 [1; 2; 3; 4]) (ZStream 100 1 0 200 0 0 None 0 0) extra_state (Regs 100 1 200 0 0 0 1 0).

Lemma extra_overruns : valid (f_mem extra_inflating) 300 (g_extra_max extra_head) ∧ case_EXTRA true true extra_inflating = UB.
Proof.
  split; [apply (bytes_at_valid _ _ [1; 2; 3; 4]), bytes_atb_spec; vm_compute; reflexivity|].
  unfold case_EXTRA. rewrite run_bind, run_the_state. cbn beta iota. change (Z.land (i_flags (f_state extra_inflating)) 0x0400 =? 0) with false. cbn beta iota.
  rewrite run_bind, run_bind, run_the_regs. cbn beta iota zeta.
  change (if r_have (f_regs extra_inflating) <? i_length (f_state extra_inflating) then r_have (f_regs extra_inflating) else i_length (f_state extra_inflating)) with 1.
  change (1 =? 0) with false. cbn beta iota. rewrite run_bind, run_bind. unfold save_extra. change (i_head (f_state extra_inflating)) with (Some extra_head). cbn beta iota.
  change (g_extra extra_head =? NULL) with false. cbn beta iota zeta. rewrite run_bind. unfold inmem, zoom.
  rewrite (memcpy_nowhere _ _ _ _ 7); [done|vm_compute; reflexivity|vm_compute; reflexivity|vm_compute; reflexivity].
Qed.

(** Four bits of a code and then the byte 0 are in the bit buffer, and 0, 255, 255 are the
    input: the pattern is there, but [hold] is shifted the wrong way, so that the bits of
    the code are taken for its first byte.  With [hold] shifted right, as the search over
    bytes needs it, the pattern would be found. *)
Definition sync_state (hold bits : Z) : inflate_state :=
  IState LEN 0 0 0 0 32768 0 0 None 15 0 0 0 0 hold bits 0 0 0 (InCodes 0) (InCodes 0) 0 0 0 0 0 0 0 [] [] ∅.
Definition sync_inflating (hold bits : Z) : inflating :=
  Inflating (write_bytes (write_bytes ∅ 100 [0; 255; 255]) 400 [9; 9; 9; 9]) (ZStream 100 3 0 200 0 0 None 0 0) (sync_state hold bits) (Regs 0 0 0 0 0 0 0 0).
Definition result (r : outcome inflating Z) : option Z := match r with Ret v _ => Some v | _ => None end.

Lemma sync_misses :
  result (inflateSync 400 (sync_inflating 0x00f 12)) = Some Z_DATA_ERROR ∧
  result (inflateSync 400 (sync_inflating (Z.shiftr 0x00f 4) 8)) = Some Z_OK.
Proof. vm_compute. done. Qed.
