(* ===== verification/Blocks.v ===== *)
(** * Blocks, from the compressor to the decompressor

    The fields [compress_block] writes are the tokens [inflate] decodes, when the trees the
    one sends with and the tables the other looks up belong to the same lengths of code
    words; the fixed trees and tables do. *)

From stdpp Require Import base tactics numbers list gmap.
From S2P Require Import Prelude Memory Words TreesTables Trees Bitstream TreesBits TreesBlock Inftrees InftreesSpec InftreesMain Inflate InflateTables InflateCopy InflateFast.

Open Scope Z_scope.

(** What a buffered symbol stands for. *)
Definition token_of (x : buffered_symbol) : token :=
  let '(d, c) := x in if d =? 0 then Literal c else Match (c + 3) d.

(** The tree sends the symbol as the code word the lengths give it. *)
Definition coded (tree : list ct_data) (lens : list Z) (s : Z) : Prop :=
  0 ≤ s < Z.of_nat (length tree) ∧ ∃ l, lens !! Z.to_nat s = Some l ∧ 1 ≤ l ≤ 15 ∧
  tree_field tree s = (rev_bits (Z.to_nat l) (codeword lens (Z.to_nat s) l), l).

Lemma coded_field tree lens s : coded tree lens s → field_ok (tree_field tree s).
Proof.
  intros (_ & l & _ & Hl & E). rewrite E. split; [cbn; lia|]. cbn [fst snd]. pose proof (rev_bits_range (Z.to_nat l) (codeword lens (Z.to_nat s) l)) as Hr.
  by rewrite Z2Nat.id in Hr by lia.
Qed.

Lemma coded_sendable tree lens s : coded tree lens s → sendable tree s.
Proof.
  intros Hc. split; [apply Hc|]. split; [by apply (coded_field _ lens)|]. destruct Hc as (_ & l & _ & Hl & E).
  apply (f_equal snd) in E. cbn [snd tree_field] in E. lia.
Qed.

(** The code word at the front. *)
Lemma coded_at tree lens s X fs : coded tree lens s → Forall field_ok fs → begins X (tree_field tree s :: fs) →
  ∃ l, snd (tree_field tree s) = l ∧ 1 ≤ l ≤ 15 ∧ symbol_at lens (Z.to_nat s) l X ∧ begins (X / 2 ^ l) fs.
Proof.
  intros Hc Hfs Hb. apply begins_cons in Hb as [Hb1 Hb2]; [|by apply (coded_field _ lens)|done].
  destruct Hc as (_ & l & Hl & Hr & E). rewrite E in *. cbn [fst snd] in *. exists l. split; [done|]. split; [done|]. split; [|done].
  split; [done|]. split; [lia|exact Hb1].
Qed.

Lemma length_bases s : 257 ≤ s < 286 → 3 ≤ snd (symbol_entry LENS s).
Proof.
  intros Hs. apply Z.leb_le, (all_from_spec (λ s, 3 <=? snd (symbol_entry LENS s)) 29 257); [|lia]. vm_compute. reflexivity.
Qed.

Lemma dist_bases s : 0 ≤ s < 30 → 1 ≤ snd (symbol_entry DISTS s).
Proof.
  intros Hs. apply Z.leb_le, (all_from_spec (λ s, 1 <=? snd (symbol_entry DISTS s)) 30 0); [|lia]. vm_compute. reflexivity.
Qed.

Section codes.
Context (c : block_codes) (ltree dtree : list ct_data).
Hypothesis Hlit : ∀ s, (s < 286)%nat → lit_ent c s = symbol_entry LENS (Z.of_nat s).
Hypothesis Hdist : ∀ s, (s < 30)%nat → dist_ent c s = symbol_entry DISTS (Z.of_nat s).

Definition symbol_coded (x : buffered_symbol) : Prop :=
  let '(d, b) := x in
  if d =? 0 then coded ltree (lit_lens c) b
  else coded ltree (lit_lens c) (fst (length_part b)) ∧ coded dtree (dist_lens c) (fst (dist_part (d - 1))).

Lemma symbol_coded_sendable x : symbol_coded x → symbol_sendable ltree dtree x.
Proof.
  destruct x as [d b]. cbn. destruct (d =? 0); [apply coded_sendable|]. intros [H1 H2]. split; by eapply coded_sendable.
Qed.

Lemma begins_field X f fs : field_ok f → Forall field_ok fs → begins X (f :: fs) → X mod 2 ^ snd f = fst f ∧ begins (X / 2 ^ snd f) fs.
Proof. intros Hf Hfs. by apply begins_cons. Qed.

(** The token of a symbol. *)
Lemma token_begins X x fs : symbol_ok x → symbol_coded x → Forall field_ok fs → begins X (symbol_fields ltree dtree x ++ fs) →
  token_at c X (token_of x) (width (symbol_fields ltree dtree x)) ∧ begins (X / 2 ^ width (symbol_fields ltree dtree x)) fs.
Proof.
  intros Hok Hc Hfs Hb. destruct x as [d b]. destruct Hok as [Hd Hbyte]. cbn [fst snd] in *.
  cbn [symbol_coded symbol_fields token_of] in *. destruct (Z.eqb_spec d 0) as [->|Hd0]; cbn [app width] in *.
  - destruct (coded_at _ _ _ _ _ Hc Hfs Hb) as (l & -> & Hl & Hs & Hb'). rewrite Z.add_0_r. split; [|done].
    cbn [token_at]. exists (Z.to_nat b). unfold is_byte in Hbyte. split; [done|]. split; [|done]. rewrite Hlit by lia.
    unfold symbol_entry. by rewrite Z2Nat.id, (proj2 (Z.ltb_lt _ _)) by lia.
  - destruct Hc as [Hc1 Hc2].
    destruct (part_ok_spec _ _ _ _ _ _ (length_parts b Hbyte)) as (Hk1 & Hf1 & Hb1 & Hent1).
    destruct (part_ok_spec _ _ _ _ _ _ (dist_parts (d - 1) ltac:(lia))) as (Hk2 & Hf2 & Hb2 & Hent2).
    pose proof (length_bases _ Hk1) as Hbase1. pose proof (dist_bases _ Hk2) as Hbase2. rewrite Hent1 in Hbase1. rewrite Hent2 in Hbase2. cbn [snd] in *.
    set (p1 := length_part b) in *. set (p2 := dist_part (d - 1)) in *.
    pose proof (coded_field _ _ _ Hc2) as Hfc2. pose proof (proj1 Hf1) as He1. pose proof (proj1 Hf2) as He2.
    assert (Forall field_ok (snd p2 :: fs)) as F2 by (by constructor).
    assert (Forall field_ok (tree_field dtree (fst p2) :: snd p2 :: fs)) as F3 by (by constructor).
    assert (Forall field_ok (snd p1 :: tree_field dtree (fst p2) :: snd p2 :: fs)) as F4 by (by constructor).
    destruct (coded_at _ _ _ _ _ Hc1 F4 Hb) as (l1 & -> & Hl1 & Hs1 & Hb'). clear Hb.
    apply begins_field in Hb' as [Hv1 Hb']; [|done|done]. rewrite (div_pow_add X) in Hb' by lia.
    destruct (coded_at _ _ _ _ _ Hc2 F2 Hb') as (l2 & -> & Hl2 & Hs2 & Hb''). clear Hb'. rewrite (div_pow_add X) in Hb'' by lia.
    apply begins_field in Hb'' as [Hv2 Hb'']; [|done|done]. rewrite (div_pow_add X) in Hb'' by lia.
    replace (l1 + (snd (snd p1) + (l2 + (snd (snd p2) + 0)))) with (l1 + snd (snd p1) + l2 + snd (snd p2)) by lia. split; [|done].
    exists (Z.to_nat (fst p1)), l1, (b + 3 - fst (snd p1)), (snd (snd p1)), (Z.to_nat (fst p2)), l2, (d - 1 + 1 - fst (snd p2)), (snd (snd p2)).
    unfold is_byte in Hbyte. rewrite Hlit, Hdist, !Z2Nat.id by lia. rewrite Hv1, Hv2. split_and!; try done; lia.
Qed.

(** The tokens of a block. *)
Lemma block_begins xs fs : Forall symbol_ok xs → Forall symbol_coded xs → coded ltree (lit_lens c) END_BLOCK → Forall field_ok fs →
  ∀ X, begins X (block_fields ltree dtree xs ++ fs) →
  block_at c X (token_of <$> xs) (width (block_fields ltree dtree xs)) ∧ begins (X / 2 ^ width (block_fields ltree dtree xs)) fs.
Proof.
  intros Hok Hc Hend Hfs. unfold block_fields. induction Hok as [|x xs Hx Hok IH]; intros X Hb; inversion Hc as [|? ? Hcx Hcxs]; subst; cbn [fmap list_fmap].
  - cbn [app symbols_fields mjoin list_join fmap list_fmap width] in *. destruct (coded_at _ _ _ _ _ Hend Hfs Hb) as (l & -> & Hl & Hs & Hb').
    rewrite Z.add_0_r. split; [|done]. exists (Z.to_nat END_BLOCK), 0. split; [done|]. by rewrite Hlit by (vm_compute; lia).
  - assert (symbols_fields ltree dtree (x :: xs) = symbol_fields ltree dtree x ++ symbols_fields ltree dtree xs) as E by done.
    rewrite E in *. rewrite <-!app_assoc in Hb.
    assert (Forall field_ok (symbols_fields ltree dtree xs)) as Hf.
    { apply symbols_fields_ok; [done|]. eapply Forall_impl; [done|]. apply symbol_coded_sendable. }
    pose proof (symbol_fields_ok ltree dtree x Hx (symbol_coded_sendable x Hcx)) as Hfx.
    assert (Forall field_ok (symbols_fields ltree dtree xs ++ [tree_field ltree END_BLOCK] ++ fs)) as Hf'.
    { apply Forall_app_2; [done|]. apply Forall_app_2; [|done]. constructor; [by eapply coded_field|done]. }
    destruct (token_begins X x _ Hx Hcx Hf' Hb) as [Ht Hb1].
    rewrite app_assoc in Hb1. destruct (IH Hcxs _ Hb1) as [Hbl Hb2]. pose proof (width_nonneg _ Hf). pose proof (width_nonneg _ Hfx).
    pose proof (proj1 (coded_field _ _ _ Hend)). rewrite <-app_assoc, (width_app (symbol_fields ltree dtree x)).
    split; [|rewrite <-div_pow_add; [done|done|rewrite width_app; cbn [width]; lia]].
    cbn [block_at]. split; [destruct x as [d b]; cbn; by destruct (d =? 0)|]. eexists _, _. split; [done|]. by split.
Qed.
End codes.
