(* ===== verification/TreesCodes.v ===== *)
(** * The code words of a tree

    [gen_codes] gives every symbol the code word its length and the lengths of the others
    determine, with its bits reversed: the code [inflate_table] builds the tables for.
    [tr_static_init] generates the tables of [trees.h]. *)

From stdpp Require Import base tactics numbers list gmap.
From S2P Require Import Prelude Words TreesTables Trees Bitstream TreesBits TreesBlock Inftrees InftreesSpec InftreesMain InflateTables Blocks.

Open Scope Z_scope.

(** ** Reversing *)

Lemma bit_or q p : 0 ≤ q → Z.lor (2 * q) (Z.land p 1) = 2 * q + p mod 2.
Proof.
  intros Hq. change 1 with (Z.ones 1). rewrite Z.land_ones by lia. change (2 ^ 1) with 2. pose proof (Z.mod_pos_bound p 2 ltac:(lia)).
  rewrite Z.lor_comm. replace (2 * q) with (Z.shiftl q 1) by (rewrite Z.shiftl_mul_pow2 by lia; lia).
  rewrite lor_shift by lia. rewrite Z.shiftl_mul_pow2 by lia. lia.
Qed.

Lemma run_reverse_loop {S} n : ∀ p q (s : S), 0 ≤ q → (q + 1) * 2 ^ Z.of_nat (Datatypes.S n) ≤ 2 ^ 31 →
  loop (Datatypes.S (Datatypes.S n)) (λ '(code, len, res),
    let res := Z.lor res (Z.land code 1) in
    let code := Z.shiftr code 1 in
    let res := u32 (Z.shiftl res 1) in
    let len := len - 1 in
    if 0 <? len then Next (code, len, res) else Break (Z.shiftr res 1)) (p, Z.of_nat (Datatypes.S n), 2 * q) s =
  Ret (q * 2 ^ Z.of_nat (Datatypes.S n) + rev_bits (Datatypes.S n) p) s.
Proof.
  induction n as [|n IH]; intros p q s Hq Hb; rewrite run_loop; cbv zeta; rewrite bit_or by done; rewrite Z.shiftl_mul_pow2 by lia; change (2 ^ 1) with 2;
    pose proof (Z.mod_pos_bound p 2 ltac:(lia)) as Hp.
  - rewrite (proj2 (Z.ltb_ge _ _)) by lia. rewrite wrap_small by (change (2 ^ Z.of_nat 1) with 2 in Hb; lia). rewrite Z.shiftr_div_pow2 by lia. change (2 ^ 1) with 2.
    rewrite Z.div_mul by lia. cbn [rev_bits]. change (2 ^ Z.of_nat 1) with 2. change (2 ^ Z.of_nat 0) with 1. cbn. f_equal. lia.
  - rewrite (proj2 (Z.ltb_lt _ _)) by lia. rewrite Nat2Z.inj_succ, Z.pow_succ_r in Hb by lia. pose proof (pow_pos (Z.of_nat (Datatypes.S n)) ltac:(lia)).
    assert (2 ≤ 2 ^ Z.of_nat (Datatypes.S n)) by (rewrite Nat2Z.inj_succ, Z.pow_succ_r by lia; pose proof (pow_pos (Z.of_nat n) ltac:(lia)); lia).
    rewrite wrap_small by nia. rewrite run_ret. replace (Z.of_nat (Datatypes.S (Datatypes.S n)) - 1) with (Z.of_nat (Datatypes.S n)) by lia.
    rewrite (Z.mul_comm (2 * q + p mod 2)), IH by nia. rewrite Z.shiftr_div_pow2 by lia. change (2 ^ 1) with 2. f_equal.
    rewrite (Nat2Z.inj_succ (Datatypes.S n)), Z.pow_succ_r by lia. change (rev_bits (Datatypes.S (Datatypes.S n)) p) with (p mod 2 * 2 ^ Z.of_nat (Datatypes.S n) + rev_bits (Datatypes.S n) (p / 2)). ring.
Qed.

Lemma run_bi_reverse {S} c l (s : S) : 1 ≤ l ≤ 15 → bi_reverse c l s = Ret (rev_bits (Z.to_nat l) c) s.
Proof.
  intros Hl. unfold bi_reverse. assert (∃ n, Z.to_nat l = Datatypes.S n ∧ (n ≤ 14)%nat) as (n & En & Hn) by (exists (Z.to_nat l - 1)%nat; lia). rewrite En.
  replace l with (Z.of_nat (Datatypes.S n)) by lia. assert ((0 + 1) * 2 ^ Z.of_nat (Datatypes.S n) ≤ 2 ^ 31) as Hb by (rewrite Z.mul_1_l; apply Z.pow_le_mono_r; lia).
  pose proof (run_reverse_loop n c 0 s ltac:(lia) Hb) as E. by rewrite Z.mul_0_r, Z.mul_0_l, Z.add_0_l in E.
Qed.

(** ** The codes *)

Section codes.
Context (lens bl_count : list Z).
Hypothesis Hlens : Forall (λ l, 0 ≤ l ≤ 15) lens.
Hypothesis Hweight : weight (used_lengths lens) ≤ 2 ^ 15.
Hypothesis Hcount : length bl_count = 16%nat ∧ bl_count !! 0%nat = Some 0 ∧
  ∀ l, (1 ≤ l ≤ 15)%nat → bl_count !! l = Some (Z.of_nat (occurrences (Z.of_nat l) lens)).

(** There is room for the code words of a length. *)
Lemma code_room l : (1 ≤ l ≤ 15)%nat → 0 ≤ first_code lens l ∧ first_code lens l + Z.of_nat (occurrences (Z.of_nat l) lens) ≤ 2 ^ Z.of_nat l.
Proof.
  intros Hl. destruct l as [|m]; [lia|]. pose proof (room_succ (Z.of_nat m) (used_lengths lens)) as Hr. rewrite used_occurrences in Hr by lia.
  replace (Z.of_nat m + 1) with (Z.of_nat (S m)) in Hr by lia. rewrite (first_code_room lens Hlens). pose proof (room_weight (Z.of_nat (S m)) _ (used_ok lens Hlens) ltac:(lia)) as Hw.
  assert (2 ^ 15 = 2 ^ Z.of_nat (S m) * 2 ^ (15 - Z.of_nat (S m))) as E by (rewrite <-Z.pow_add_r by lia; f_equal; lia).
  pose proof (pow_pos (15 - Z.of_nat (S m)) ltac:(lia)). split; [|nia].
  clear. induction (used_lengths lens) as [|x xs IH]; cbn [room]; [lia|]. destruct (x <=? Z.of_nat m) eqn:E; [|lia]. pose proof (Z.pow_nonneg 2 (Z.of_nat m - x) ltac:(lia)). lia.
Qed.

(** [next_code] after the symbols [seen]. *)
Definition next_codes (seen next_code : list Z) : Prop :=
  length next_code = 16%nat ∧ ∀ l, (1 ≤ l ≤ 15)%nat →
    next_code !! l = Some (first_code lens l + Z.of_nat (occurrences (Z.of_nat l) seen)).

Lemma first_code_S l : (l ≤ 14)%nat → first_code lens (S l) = (first_code lens l + default 0 (bl_count !! l)) * 2.
Proof.
  intros Hl. cbn [first_code]. destruct Hcount as (_ & H0 & H1). case_decide as E; [by subst; rewrite H0|]. by rewrite H1 by lia.
Qed.

Lemma run_first_codes {S} (s : S) : ∃ next_code, first_codes bl_count s = Ret next_code s ∧ next_codes [] next_code.
Proof.
  unfold first_codes. change (Z.to_nat MAX_BITS) with 15%nat. change (Z.to_nat (MAX_BITS + 1)) with 16%nat. change MAX_BITS with 15.
  assert (∀ d b nc, (b + d = 15)%nat → length nc = 16%nat → (∀ l, (1 ≤ l ≤ b)%nat → nc !! l = Some (first_code lens l)) →
    ∃ next_code, loop (Datatypes.S d) (λ '(bits, code, next_code),
      if bits <=? 15 then
        n ← elem bl_count (bits - 1);
        let code := u16 (Z.shiftl (code + n) 1) in
        next_code ← upd next_code bits code;
        Next (bits + 1, code, next_code)
      else Break next_code) (Z.of_nat b + 1, first_code lens b, nc) s = Ret next_code s ∧ next_codes [] next_code) as Hloop.
  { induction d as [|d IH]; intros b nc Hb Hnc Hdone; rewrite run_loop.
    - rewrite (proj2 (Z.leb_gt _ _)) by lia. exists nc. split; [done|]. split; [done|]. intros l Hl. rewrite Hdone by lia. f_equal. cbn. lia.
    - rewrite (proj2 (Z.leb_le _ _)) by lia. destruct Hcount as (Hlen & _). destruct (lookup_lt_is_Some_2 bl_count b ltac:(lia)) as [n Hn].
      rewrite run_bind, (run_elem _ _ n) by (lia || by replace (Z.to_nat (Z.of_nat b + 1 - 1)) with b by lia). cbn beta iota zeta.
      pose proof (first_code_S b ltac:(lia)) as Ef. rewrite Hn in Ef. change (default 0 (Some n)) with n in Ef. rewrite Z.shiftl_mul_pow2 by lia. change (2 ^ 1) with 2. rewrite <-Ef.
      destruct (code_room (Datatypes.S b) ltac:(lia)) as [H0 H1]. assert (2 ^ Z.of_nat (Datatypes.S b) ≤ 2 ^ 15) by (apply Z.pow_le_mono_r; lia).
      change (2 ^ 15) with 32768 in *. rewrite wrap_small by lia. rewrite run_bind, run_upd by lia. cbn beta iota. rewrite run_ret.
      replace (Z.of_nat b + 1 + 1) with (Z.of_nat (Datatypes.S b) + 1) by lia. apply IH; [lia|by rewrite length_insert|].
      intros l Hl. replace (Z.to_nat (Z.of_nat b + 1)) with (Datatypes.S b) by lia. destruct (decide (l = Datatypes.S b)) as [->|].
      + apply list_lookup_insert_eq. lia.
      + rewrite list_lookup_insert_ne by lia. apply Hdone. lia. }
  destruct (Hloop 15%nat 0%nat (replicate 16 0) eq_refl ltac:(by rewrite length_replicate) ltac:(intros; lia)) as (nc & E & Hnc). exists nc. split; [|done]. exact E.
Qed.

(** The entry of a symbol, with its code. *)
Definition code_entry (n : nat) (e : ct_data) : ct_data :=
  if dl e =? 0 then e else Ct (rev_bits (Z.to_nat (dl e)) (codeword lens n (dl e))) (dl e).

Lemma codeword_range n l : lens !! n = Some l → l ≠ 0 → 1 ≤ l ≤ 15 ∧ 0 ≤ codeword lens n l < 2 ^ l.
Proof.
  intros Hn Hl. assert (1 ≤ l ≤ 15) as Hr by (apply (proj1 (Forall_lookup _ _) Hlens) in Hn; lia). split; [done|].
  destruct (code_room (Z.to_nat l) ltac:(lia)) as [H0 H1]. rewrite Z2Nat.id in H1 by lia. unfold codeword.
  pose proof (occurrences_take lens n l l Hn) as E. rewrite decide_True in E by done.
  assert (occurrences l (take (S n) lens) ≤ occurrences l lens)%nat by (rewrite <-(take_drop (S n) lens) at 2; rewrite occurrences_app; lia). lia.
Qed.

(** The loop, when [n] symbols are done. *)
Definition coded_tree (tree0 tree : list ct_data) (n : nat) : Prop :=
  length tree = length tree0 ∧ ∀ k, tree !! k = (if decide (k < n)%nat then code_entry k else id) <$> tree0 !! k.

Lemma run_gen_codes {S} (s : S) tree max_code : lens = dl <$> take (Z.to_nat (max_code + 1)) tree → -1 ≤ max_code < Z.of_nat (length tree) →
  ∃ tree', gen_codes tree max_code bl_count s = Ret tree' s ∧ coded_tree tree tree' (Z.to_nat (max_code + 1)).
Proof.
  intros El Hmax. unfold gen_codes. destruct (run_first_codes s) as (nc & E & Hnc). rewrite run_bind, E. cbn beta iota. clear E.
  assert (length lens = Z.to_nat (max_code + 1)) as Hlen by (rewrite El, length_fmap, length_take; lia).
  replace (Z.to_nat (max_code + 2)) with (Datatypes.S (length lens)) by lia.
  assert (∀ d n nc tr, (n + d = length lens)%nat → next_codes (take n lens) nc → coded_tree tree tr n →
    ∃ tree', loop (Datatypes.S d) (λ '(n, next_code, tree),
      if n <=? max_code then
        e ← elem tree n;
        let len := dl e in
        if len =? 0 then Next (n + 1, next_code, tree) else
        c ← elem next_code len;
        next_code ← upd next_code len (u16 (c + 1));
        r ← bi_reverse c len;
        tree ← upd tree n (Ct (u16 r) len);
        Next (n + 1, next_code, tree)
      else Break tree) (Z.of_nat n, nc, tr) s = Ret tree' s ∧ coded_tree tree tree' (Z.to_nat (max_code + 1))) as Hloop.
  { induction d as [|d IH]; intros n nc' tr Hn Hnc' Htr; rewrite run_loop.
    - rewrite (proj2 (Z.leb_gt _ _)) by lia. exists tr. split; [done|]. by replace (Z.to_nat (max_code + 1)) with n by lia.
    - rewrite (proj2 (Z.leb_le _ _)) by lia. destruct (lookup_lt_is_Some_2 tree n ltac:(lia)) as [e He]. destruct Htr as [Hlt Htr]. pose proof (Htr n) as Htn. rewrite He, decide_False in Htn by lia. cbn in Htn.
      rewrite run_bind, (run_elem _ _ e) by (lia || by rewrite Nat2Z.id). cbn beta iota zeta.
      assert (lens !! n = Some (dl e)) as Hln by (rewrite El, list_lookup_fmap, lookup_take_lt, He by lia; done).
      replace (Z.of_nat n + 1) with (Z.of_nat (Datatypes.S n)) by lia. destruct Hnc' as [Hl16 Hnc'].
      destruct (Z.eqb_spec (dl e) 0) as [Hz|Hz].
      + rewrite run_ret. apply IH; [lia| |].
        * split; [done|]. intros l Hl. rewrite Hnc' by lia. rewrite (occurrences_take lens n _ _ Hln), decide_False by lia. f_equal. lia.
        * split; [done|]. intros k. rewrite (Htr k). destruct (decide (k = n)) as [->|]; [|by destruct (decide (k < n)%nat), (decide (k < Datatypes.S n)%nat); try lia].
          rewrite decide_False, decide_True, He by lia. cbn. unfold code_entry. by rewrite (proj2 (Z.eqb_eq _ _)).
      + destruct (codeword_range n (dl e) Hln Hz) as [Hr Hc]. set (l := dl e) in *. assert (2 ^ l ≤ 2 ^ 15) by (apply Z.pow_le_mono_r; lia).
        pose proof (Hnc' (Z.to_nat l) ltac:(lia)) as Hcl. rewrite Z2Nat.id in Hcl by lia. fold (codeword lens n l) in Hcl. change (2 ^ 15) with 32768 in *.
        rewrite run_bind, (run_elem nc' l (codeword lens n l)) by (lia || done). cbn beta iota. rewrite run_bind, run_upd by lia. cbn beta iota. rewrite run_bind, run_bi_reverse by done. cbn beta iota.
        pose proof (rev_bits_range (Z.to_nat l) (codeword lens n l)) as Hrr. rewrite Z2Nat.id in Hrr by lia. rewrite !wrap_small by lia.
        rewrite run_bind, run_upd by lia. cbn beta iota. rewrite run_ret, Nat2Z.id. apply IH; [lia| |].
        * split; [by rewrite length_insert|]. intros l' Hl'. rewrite (occurrences_take lens n _ _ Hln). destruct (decide (l' = Z.to_nat l)) as [->|].
          -- rewrite list_lookup_insert_eq, Z2Nat.id, decide_True by lia. f_equal. unfold codeword. lia.
          -- rewrite list_lookup_insert_ne, Hnc', decide_False by lia. f_equal. lia.
        * split; [by rewrite length_insert|]. intros k. destruct (decide (k = n)) as [->|].
          -- rewrite list_lookup_insert_eq, decide_True, He by lia. cbn. unfold code_entry. fold l. by rewrite (proj2 (Z.eqb_neq _ _)).
          -- rewrite list_lookup_insert_ne by lia. rewrite (Htr k). by destruct (decide (k < n)%nat), (decide (k < Datatypes.S n)%nat); try lia. }
  apply (Hloop (length lens) 0%nat nc tree); [lia|by rewrite take_0|]. split; [done|]. intros k. rewrite decide_False by lia. by destruct (tree !! k).
Qed.
End codes.

(** ** With the tables of the decompressor *)

Lemma finds_decode t root x e l : 1 ≤ root ≤ 15 → symbol_op (fst e) → finds (λ i, t !! i) root x e l → decode t root x = Some (e, l).
Proof.
  intros Hr Ho [[Hl H]|(Hl & c & n & Hc & Hlc & H & H2)]; destruct e as [o v]; cbn [fst snd] in *; unfold decode; rewrite BITS_mod, H by lia; cbn [mbind option_bind op bits val].
  - destruct Ho as [->|Ho]; [done|]. by rewrite (proj2 (Z.eqb_neq (Z.land o _) 0)), andb_false_r by done.
  - rewrite (proj2 (Z.eqb_neq c 0)) by lia. assert (Z.land c 0xf0 = 0) as ->.
    { destruct (decide (Z.land c 0xf0 = 0)) as [|Hne]; [done|]. exfalso. apply (link_op c); [lia|by right]. }
    change (0 =? 0) with true. cbn [negb andb]. rewrite BITS_mod, Z.shiftr_div_pow2, H2 by lia. cbn. do 2 f_equal. lia.
Qed.

(** C12: for lengths that form a complete code [gen_codes] and [inflate_table] agree, whatever
    the lengths are: of every symbol with a code word, [inflate_table]'s tables give the
    symbol and the length of its code word for every word of input that starts with the
    bits [gen_codes] has given it.  (For LENS it may instead return 1, when the tables need
    ENOUGH - MAXD entries or more.) *)
Theorem gen_codes_decoded {S : Type} (st : S) (tree : list ct_data) (max_code : Z) (bl_count : list Z)
    (type : codetype) (size root : Z) (work : list Z) (t : gmap Z code) :
  let lens := dl <$> take (Z.to_nat (max_code + 1)) tree in
  0 ≤ max_code < Z.of_nat (length tree) → Forall (λ l, 0 ≤ l ≤ 15) lens → weight (used_lengths lens) = 2 ^ 15 →
  length bl_count = 16%nat ∧ bl_count !! 0%nat = Some 0 ∧
    (∀ l, (1 ≤ l ≤ 15)%nat → bl_count !! l = Some (Z.of_nat (occurrences (Z.of_nat l) lens))) →
  Z.of_nat (length lens) ≤ alphabet type → (length lens ≤ length work)%nat → (if is_LENS type then ENOUGH - MAXD else 2 ^ 16) ≤ size →
  ∃ tree' ret used root' work' t',
    gen_codes tree max_code bl_count st = Ret tree' st ∧ dl <$> tree' = dl <$> tree ∧
    inflate_table size type lens (Z.of_nat (length lens)) root work t = Ret (ret, used, root', work') t' ∧
    (ret = 1 ∧ type = LENS ∧ ENOUGH - MAXD ≤ decoding_space lens (root_bits lens root) ∨
     ret = 0 ∧ ∀ n e x, tree' !! n = Some e → Z.of_nat n ≤ max_code → dl e ≠ 0 → x mod 2 ^ dl e = fc e →
       decode t' root' x = Some (symbol_entry type (Z.of_nat n), dl e)).
Proof.
  intros lens Hmax Hlens Hw Hcount Halpha Hwork Hsize.
  destruct (run_gen_codes lens bl_count Hlens ltac:(lia) Hcount st tree max_code eq_refl ltac:(lia)) as (tree' & E & Hlen & Htree).
  destruct (run_complete type size lens work root Hlens Halpha Hwork Hsize t Hw) as (ret & used & root' & work' & t' & E' & Hret).
  exists tree', ret, used, root', work', t'. split; [done|]. split; [|split; [done|]].
  { apply list_eq. intros k. rewrite !list_lookup_fmap, (Htree k). destruct (tree !! k) as [e|]; [|done]. cbn. f_equal.
    case_decide; [|done]. unfold code_entry. by destruct (dl e =? 0). }
  destruct Hret as [Hret|(-> & _ & _ & [Hr _ Hops Hfind _])]; [by left|right]. split; [done|]. intros n e x Hn Hnm Hd Hx.
  rewrite (Htree n), decide_True in Hn by lia. destruct (tree !! n) as [e0|] eqn:He0; [|done]. cbn in Hn. injection Hn as <-.
  assert (lens !! n = Some (dl e0)) as Hl by (unfold lens; rewrite list_lookup_fmap, lookup_take_lt, He0 by lia; done).
  unfold code_entry in *. destruct (Z.eqb_spec (dl e0) 0); [done|]. cbn [dl fc] in *. apply finds_decode; [done| |by apply Hfind].
  apply Hops. by apply lookup_lt_Some in Hl.
Qed.

(** Four symbols of the code lengths 1, 2, 3, 3. *)
Lemma gen_codes_decoded_witness :
  ∃ tree' ret used root' work' t',
    gen_codes [Ct 0 3; Ct 0 1; Ct 0 3; Ct 0 2] 3 ([0; 1; 1; 2] ++ replicate 12 0) tt = Ret tree' tt ∧ dl <$> tree' = [3; 1; 3; 2] ∧
    inflate_table (2 ^ 16) CODES [3; 1; 3; 2] (Z.of_nat 4) 7 (replicate 19 0) ∅ = Ret (ret, used, root', work') t' ∧
    (ret = 1 ∧ CODES = LENS ∧ ENOUGH - MAXD ≤ decoding_space [3; 1; 3; 2] (root_bits [3; 1; 3; 2] 7) ∨
     ret = 0 ∧ ∀ n e x, tree' !! n = Some e → Z.of_nat n ≤ 3 → dl e ≠ 0 → x mod 2 ^ dl e = fc e →
       decode t' root' x = Some (symbol_entry CODES (Z.of_nat n), dl e)).
Proof.
  apply (gen_codes_decoded tt [Ct 0 3; Ct 0 1; Ct 0 3; Ct 0 2] 3 ([0; 1; 1; 2] ++ replicate 12 0) CODES (2 ^ 16) 7 (replicate 19 0) ∅).
  - cbn. lia.
  - repeat constructor; done.
  - vm_compute. reflexivity.
  - split; [done|]. split; [done|]. intros l Hl. do 16 (destruct l as [|l]; [lia || (vm_compute; reflexivity)|]). lia.
  - vm_compute. done.
  - vm_compute. lia.
  - vm_compute. done.
Defined.

(** The tables of [trees.h] are the tables [tr_static_init] generates: the fixed trees of
    literals and lengths and of distances, and the codes and bases of lengths and
    distances. *)
Theorem static_tables_generated :
  tr_static_init tt = Ret (static_ltree, static_dtree, _dist_code, _length_code, base_length, base_dist) tt.
Proof. vm_compute. reflexivity. Qed.
