(* ===== verification/Roundtrip.v ===== *)
(** * Streams, from the compressor to the decompressor

    A stream of stored blocks and of blocks with the fixed trees: the bits [trees.c] writes
    for it are the bits [inflate] makes the text of. *)

From stdpp Require Import base tactics numbers list gmap.
From S2P Require Import Prelude Memory Words TreesTables Trees Bitstream TreesBits TreesBlock Inftrees InftreesSpec InftreesMain Inflate InflateTables InflateRead InflateCopy InflateFast InflateBlock InflateStream Blocks.

Open Scope Z_scope.

(** ** The fixed code *)

Definition fixed_codes : block_codes :=
  BlockCodes fixed_lengths fixed_entry fixed_dists (λ s, symbol_entry DISTS (Z.of_nat s)).

Definition codedb (tree : list ct_data) (lens : list Z) (s : Z) : bool :=
  (0 <=? s) && (s <? Z.of_nat (length tree)) &&
  match lens !! Z.to_nat s with
  | Some l => (1 <=? l) && (l <=? 15) && bool_decide (tree_field tree s = (rev_bits (Z.to_nat l) (codeword lens (Z.to_nat s) l), l))
  | None => false
  end.

Lemma codedb_spec tree lens s : codedb tree lens s = true → coded tree lens s.
Proof.
  unfold codedb, coded. rewrite !andb_true_iff. intros [[H1 H2] H3]. split; [lia|]. destruct (lens !! Z.to_nat s) as [l|]; [|done].
  rewrite !andb_true_iff in H3. destruct H3 as [[H3 H4] H5]. apply bool_decide_eq_true in H5. exists l. split; [done|]. split; [lia|done].
Qed.

Lemma static_ltree_coded s : 0 ≤ s < 286 → coded static_ltree fixed_lengths s.
Proof. intros Hs. apply codedb_spec, (all_from_spec (codedb static_ltree fixed_lengths) 286 0); [|lia]. vm_compute. reflexivity. Qed.

Lemma static_dtree_coded s : 0 ≤ s < 30 → coded static_dtree fixed_dists s.
Proof. intros Hs. apply codedb_spec, (all_from_spec (codedb static_dtree fixed_dists) 30 0); [|lia]. vm_compute. reflexivity. Qed.

Lemma fixed_symbol_coded x : symbol_ok x → symbol_coded fixed_codes static_ltree static_dtree x.
Proof.
  destruct x as [d b]. intros [Hd Hb]. cbn [fst snd symbol_coded] in *. destruct (Z.eqb_spec d 0).
  { apply static_ltree_coded. unfold is_byte in Hb. lia. }
  destruct (part_ok_spec _ _ _ _ _ _ (length_parts b Hb)) as (Hk1 & _). destruct (part_ok_spec _ _ _ _ _ _ (dist_parts (d - 1) ltac:(lia))) as (Hk2 & _).
  split; [apply static_ltree_coded; lia|by apply static_dtree_coded].
Qed.

Lemma fixed_ops x : (x < 288)%nat → fst (fixed_entry x) ≠ 0 → Z.land (fst (fixed_entry x)) 16 ≠ 0 ∨ Z.land (fst (fixed_entry x)) 64 ≠ 0.
Proof.
  intros Hx. pose proof (all_from_spec (λ x, let e := fst (fixed_entry (Z.to_nat x)) in (e =? 0) || negb (Z.land e 16 =? 0) || negb (Z.land e 64 =? 0)) 288 0 (Z.of_nat x)
    ltac:(vm_compute; reflexivity) ltac:(lia)) as H. cbv zeta beta in H. rewrite Nat2Z.id, !orb_true_iff, !negb_true_iff, Z.eqb_eq, !Z.eqb_neq in H. tauto.
Qed.

Lemma fixed_dist_ops x : (x < 32)%nat →
  Z.land (fst (symbol_entry DISTS (Z.of_nat x))) 16 ≠ 0 ∨ Z.land (fst (symbol_entry DISTS (Z.of_nat x))) 64 ≠ 0.
Proof.
  intros Hx. pose proof (all_from_spec (λ x, let e := fst (symbol_entry DISTS x) in negb (Z.land e 16 =? 0) || negb (Z.land e 64 =? 0)) 32 0 (Z.of_nat x)
    ltac:(vm_compute; reflexivity) ltac:(lia)) as H. cbv zeta beta in H. rewrite orb_true_iff, !negb_true_iff, !Z.eqb_neq in H. tauto.
Qed.

(** ** Streams *)

Inductive block := Stored (bs : list Z) | Fixed (xs : list buffered_symbol).

(** The fields of a block that begins after [n] bits. *)
Definition fields_of (eof n : Z) (b : block) : list field :=
  match b with
  | Stored bs => stored_fields eof n bs
  | Fixed xs => (2 + eof, 3) :: block_fields static_ltree static_dtree xs
  end.

Definition block_ok (b : block) : Prop :=
  match b with
  | Stored bs => Forall is_byte bs ∧ Z.of_nat (length bs) < 2 ^ 16
  | Fixed xs => Forall symbol_ok xs
  end.

(** The output after a block. *)
Definition block_text (W O : list Z) (b : block) : option (list Z) :=
  match b with
  | Stored bs => Some (O ++ bs)
  | Fixed xs => expand_all W O (token_of <$> xs)
  end.

(** The fields of blocks, the last one marked, and their text. *)
Fixpoint stream_fields (n : Z) (bs : list block) : list field :=
  match bs with
  | [] => []
  | b :: bs => let fs := fields_of (match bs with [] => 1 | _ => 0 end) n b in fs ++ stream_fields (n + width fs) bs
  end.

Fixpoint stream_text (W O : list Z) (bs : list block) : option (list Z) :=
  match bs with
  | [] => Some O
  | b :: bs => match block_text W O b with Some O' => stream_text W O' bs | None => None end
  end.

Lemma expand_all_le W ts : ∀ O O', expand_all W O ts = Some O' → (length O ≤ length O')%nat.
Proof.
  induction ts as [|t ts IH]; intros O O' H; cbn in H; [by simplify_eq|]. destruct (expand W O t) as [O1|] eqn:E; [|done]. apply IH in H.
  enough (length O ≤ length O1)%nat by lia. destruct t as [b|len dist|]; cbn in E; [|case_decide; [|done]|]; simplify_eq; rewrite ?length_app, ?grow_length; lia.
Qed.

Lemma block_text_le W O b O' : block_text W O b = Some O' → (length O ≤ length O')%nat.
Proof. destruct b as [bs|xs]; cbn; [intros [= <-]; rewrite length_app; lia|apply expand_all_le]. Qed.

Lemma stream_text_le W bs : ∀ O O', stream_text W O bs = Some O' → (length O ≤ length O')%nat.
Proof.
  induction bs as [|b bs IH]; intros O O' H; cbn in H; [by simplify_eq|]. destruct (block_text W O b) as [O1|] eqn:E; [|done].
  apply IH in H. apply block_text_le in E. lia.
Qed.

Lemma fields_of_ok eof n b : 0 ≤ eof ≤ 1 → block_ok b → Forall field_ok (fields_of eof n b).
Proof.
  intros He Hb. destruct b as [bs|xs]; cbn [fields_of block_ok] in *.
  - unfold stored_fields. assert (0 ≤ pad (n + 3) < 8) by (apply Z.mod_pos_bound; lia). destruct Hb as [Hb Hl].
    apply Forall_app_2; [|by apply byte_fields_ok]. repeat constructor; cbn [fst snd]; lia.
  - constructor; [split; cbn; lia|]. apply Forall_app_2; [|constructor; [|done]].
    + apply symbols_fields_ok; [done|]. eapply Forall_impl; [done|]. intros x Hx. by apply (symbol_coded_sendable fixed_codes), fixed_symbol_coded.
    + apply (coded_field _ fixed_lengths), static_ltree_coded. vm_compute. done.
Qed.

Lemma stream_fields_ok bs : Forall block_ok bs → ∀ n, Forall field_ok (stream_fields n bs).
Proof.
  induction 1 as [|b bs Hb Hbs IH]; intros n; cbn [stream_fields]; [done|]. apply Forall_app_2; [|apply IH].
  apply fields_of_ok; [by destruct bs|done].
Qed.

(** ** The decompressor *)

(** What the window holds: the [i_whave] last bytes of the text, in a ring. *)
Record window_ok (m : mem) (ob oe : Z) (s : inflate_state) (W : list Z) : Prop := {
  wd_ring : W ≠ [] → 0 ≤ i_write s < i_wsize s ∧ Z.of_nat (length W) ≤ i_wsize s ∧ disjoint_ranges (i_window s) (i_wsize s) ob (oe - ob);
  wd_bytes : ∀ j, 1 ≤ j ≤ Z.of_nat (length W) →
    m !! (i_window s + (i_write s - j) mod i_wsize s) = W !! Z.to_nat (Z.of_nat (length W) - j);
  wd_all : Forall is_byte W;
  wd_have : i_whave s = Z.of_nat (length W) }.

Lemma settled_window s s' : settled s = settled s' →
  i_window s = i_window s' ∧ i_wsize s = i_wsize s' ∧ i_write s = i_write s' ∧ i_whave s = i_whave s' ∧ i_wrap s = i_wrap s'.
Proof.
  intros E. split_and!; [apply (f_equal i_window) in E|apply (f_equal i_wsize) in E|apply (f_equal i_write) in E|apply (f_equal i_whave) in E|
    apply (f_equal i_wrap) in E]; exact E.
Qed.

Section inflate.
Context (BYFOUR little NO_DIVIDE : bool) (hbuf : Z) (flush : Z).
Abbreviation step := (step BYFOUR little NO_DIVIDE hbuf flush).
Abbreviation goes := (goes BYFOUR little NO_DIVIDE hbuf flush).
Context (m0 : mem) (ob oe ib ie : Z) (s0 : inflate_state) (z : z_stream) (W : list Z).
Hypothesis Hflush : flush ≠ Z_BLOCK.
Hypothesis H32 : Z.of_nat (length W) + (oe - ob) < 2 ^ 32.
Hypothesis Hin : disjoint_ranges ib (ie - ib) ob (oe - ob).
Hypothesis Hin32 : ie - ib < 2 ^ 32.
Hypothesis Hwin : window_ok m0 ob oe s0 W.
Abbreviation between := (between m0 ob oe ib ie s0 z).

Definition at_block (i : inflating) : Prop := (i_mode (f_state i) = TYPE ∨ i_mode (f_state i) = TYPEDO) ∧ i_last (f_state i) = 0.

(** A block with the fixed trees. *)
Lemma run_fixed_block i O X n eof xs fs O' : between i O X n → at_block i → 0 ≤ eof ≤ 1 → Forall symbol_ok xs → Forall field_ok fs →
  begins X (fields_of eof 0 (Fixed xs) ++ fs) → width (fields_of eof 0 (Fixed xs)) ≤ n →
  expand_all W O (token_of <$> xs) = Some O' → Z.of_nat (length O') ≤ oe - ob →
  ∃ i', goes i i' ∧ between i' O' (X / 2 ^ width (fields_of eof 0 (Fixed xs))) (n - width (fields_of eof 0 (Fixed xs))) ∧
    i_mode (f_state i') = TYPE ∧ i_last (f_state i') = eof.
Proof.
  intros Hb [Hm Hlast] He Hxs Hfs Hbeg Hn Hexp Hspc. cbn [fields_of app width snd] in *.
  pose proof (fields_of_ok eof 0 (Fixed xs) He Hxs) as Hok. cbn [fields_of] in Hok. inversion Hok as [|? ? Hf3 Hblk]; subst.
  apply begins_cons in Hbeg as [Hhead Hbeg]; [|done|by apply Forall_app_2]. cbn [fst snd] in *.
  pose proof (width_nonneg _ Hblk) as Hw0.
  destruct (turn_TYPE BYFOUR little NO_DIVIDE hbuf flush m0 ob oe ib ie s0 z Hflush i O X n 1 eof Hb Hm Hlast ltac:(lia) He ltac:(lia) ltac:(lia)) as (i1 & G1 & Hb1 & Hs1).
  destruct (block_begins fixed_codes static_ltree static_dtree) with (xs := xs) (fs := fs) (X := X / 2 ^ 3) as [Hblock _]; try done.
  { intros s Hs. cbn. unfold fixed_entry. rewrite (proj2 (Nat.leb_gt 286 s)) by lia. done. }
  { eapply Forall_impl; [done|]. apply fixed_symbol_coded. }
  { apply static_ltree_coded. vm_compute. done. }
  destruct Hwin as [Wr Wb Wa Wh]. pose proof Hb1 as [Hdec1 Hset].
  destruct (settled_window _ _ Hset) as (F1 & F2 & F3 & F4 & _). rewrite <-F1, <-F2, <-F3 in Wr, Wb. rewrite <-F4 in Wh.
  set (w := width (block_fields static_ltree static_dtree xs)) in *.
  assert (i_lencode (f_state i1) = LenFix ∧ i_lenbits (f_state i1) = 9 ∧ i_distcode (f_state i1) = DistFix ∧ i_distbits (f_state i1) = 5) as (T1 & T2 & T3 & T4) by (by rewrite Hs1).
  destruct (run_block BYFOUR little NO_DIVIDE hbuf flush m0 ob oe ib ie (f_state i1) z W fixed_codes) with (ts := token_of <$> xs) (i := i1) (O := O) (X := X / 2 ^ 3) (n := n - 3) (w := w)
    as (i2 & G2 & Hend); try done; try lia.
  { rewrite T1, T2. apply lenfix_ok. }
  { rewrite T3, T4. apply distfix_ok. }
  { apply fixed_ops. }
  { apply fixed_dist_ops. }
  { by rewrite Hs1. }
  { intros pre rest O1 E1 E2. rewrite E1, expand_all_app, E2 in Hexp. apply expand_all_le in Hexp. lia. }
  unfold block_end in Hend. rewrite Hexp in Hend. destruct Hend as [Hd2 Hm2]. exists i2. split; [by transitivity i1|].
  rewrite (div_pow_add X) in Hd2 by lia. replace (n - 3 - w) with (n - (3 + w)) in Hd2 by lia.
  split; [by eapply between_of_block|]. split; [done|].
  pose proof Hd2 as [_ _ _ _ _ _ _ _ E _]. apply (f_equal i_last) in E. change (i_last (f_state i2) = i_last (f_state i1)) in E. by rewrite E, Hs1.
Qed.

(** A stored block. *)
Lemma run_stored_text i O X n eof pos bs fs : between i O X n → at_block i → 0 ≤ eof ≤ 1 → Forall is_byte bs → Z.of_nat (length bs) < 2 ^ 16 →
  Forall field_ok fs → begins X (fields_of eof pos (Stored bs) ++ fs) → width (fields_of eof pos (Stored bs)) ≤ n → (n + pos) mod 8 = 0 →
  Z.of_nat (length O) + Z.of_nat (length bs) ≤ oe - ob →
  ∃ i', goes i i' ∧ between i' (O ++ bs) (X / 2 ^ width (fields_of eof pos (Stored bs))) (n - width (fields_of eof pos (Stored bs))) ∧
    i_mode (f_state i') = TYPE ∧ i_last (f_state i') = eof.
Proof.
  intros Hb [Hm Hlast] He Hbs Hlen Hfs Hbeg Hn Hpos Hspc.
  pose proof (fields_of_ok eof pos (Stored bs) He (conj Hbs Hlen)) as Hok. cbn [fields_of] in *. unfold stored_fields in *.
  assert (pad (pos + 3) = (n - 3) mod 8) as Epad.
  { unfold pad. pose proof (Z.div_mod (n + pos) 8 ltac:(lia)) as E. rewrite Hpos in E.
    replace (n - 3) with (- (pos + 3) + ((n + pos) / 8) * 8) by lia. by rewrite Z_mod_plus_full. }
  assert (0 ≤ (n - 3) mod 8 < 8) as Hpad by (apply Z.mod_pos_bound; lia).
  rewrite Epad in *. set (p := (n - 3) mod 8) in *. set (k := Z.of_nat (length bs)) in *.
  rewrite width_app, byte_fields_width in *. fold k in Hn |- *. cbn [width snd] in Hn |- *. rewrite <-app_assoc in Hbeg.
  apply Forall_app in Hok as [Hok1 Hok2]. assert (Forall field_ok (byte_fields bs ++ fs)) as Hok3 by (by apply Forall_app_2).
  change [(eof, 3); (0, p); (k, 16); (2 ^ 16 - 1 - k, 16)] with ([(eof, 3)] ++ [(0, p)] ++ [(k, 16); (2 ^ 16 - 1 - k, 16)]) in Hbeg, Hok1.
  apply Forall_app in Hok1 as [Ha Hok1]. apply Forall_app in Hok1 as [Hb' Hc]. rewrite <-!app_assoc in Hbeg.
  apply begins_app in Hbeg as [B1 Hbeg]; [|done|by repeat apply Forall_app_2]. apply begins_app in Hbeg as [_ Hbeg]; [|done|by apply Forall_app_2].
  apply begins_app in Hbeg as [B3 Hbeg]; [|done|done]. apply begins_app in Hbeg as [B4 _]; [|done|done].
  cbn [width snd] in *. rewrite !Z.add_0_r in *. change (16 + 16) with 32 in *. unfold begins in B1. cbn [width pack fst snd] in B1. rewrite Z.add_0_r in B1.
  destruct (turn_TYPE BYFOUR little NO_DIVIDE hbuf flush m0 ob oe ib ie s0 z Hflush i O X n 0 eof Hb Hm Hlast ltac:(lia) He ltac:(lia) ltac:(lia)) as (i1 & G1 & Hb1 & Hs1).
  destruct (turn_STORED BYFOUR little NO_DIVIDE hbuf flush m0 ob oe ib ie s0 z i1 O _ _ k Hb1 ltac:(by rewrite Hs1) ltac:(lia) ltac:(fold p; lia) B3) as (i2 & G2 & Hb2 & Hr2 & Hs2).
  fold p in Hb2. rewrite !(div_pow_add X) in * by lia.
  destruct (turns_COPY BYFOUR little NO_DIVIDE hbuf flush m0 ob oe ib ie s0 z Hin i2 O _ _ bs Hb2 ltac:(by rewrite Hs2) ltac:(by rewrite Hs2) Hr2 Hbs ltac:(fold k; lia))
    as (i3 & G3 & Hb3 & Hm3 & Hl3); [by replace (3 + (p + 32)) with (3 + p + 32) by lia|done|].
  exists i3. split; [by transitivity i1; [|transitivity i2]|]. fold k in Hb3. rewrite (div_pow_add X) in Hb3 by lia.
  split; [|split; [done|by rewrite Hl3, Hs2, Hs1]].
  match goal with |- between _ _ (X / 2 ^ ?a) ?b => replace a with (3 + (p + 32) + 8 * k) by lia; replace b with (n - 3 - (p + 32) - 8 * k) by lia end. done.
Qed.

Lemma run_text_block i O X n eof pos b fs O' : between i O X n → at_block i → 0 ≤ eof ≤ 1 → block_ok b → Forall field_ok fs →
  begins X (fields_of eof pos b ++ fs) → width (fields_of eof pos b) ≤ n → (n + pos) mod 8 = 0 →
  block_text W O b = Some O' → Z.of_nat (length O') ≤ oe - ob →
  ∃ i', goes i i' ∧ between i' O' (X / 2 ^ width (fields_of eof pos b)) (n - width (fields_of eof pos b)) ∧
    i_mode (f_state i') = TYPE ∧ i_last (f_state i') = eof.
Proof.
  intros Hb Hat He Hok Hfs Hbeg Hn Hpos Ht Hspc. destruct b as [bs|xs]; cbn [block_text block_ok] in *.
  - destruct Hok as [Hbs Hlen]. injection Ht as <-. rewrite length_app in Hspc. apply (run_stored_text _ _ _ _ _ _ _ fs); try done. lia.
  - by apply (run_fixed_block i O X n eof xs fs).
Qed.

(** All the blocks. *)
Lemma run_stream bs : Forall block_ok bs → bs ≠ [] → ∀ i O X n pos fs O', between i O X n → at_block i → Forall field_ok fs →
  begins X (stream_fields pos bs ++ fs) → width (stream_fields pos bs) ≤ n → (n + pos) mod 8 = 0 →
  stream_text W O bs = Some O' → Z.of_nat (length O') ≤ oe - ob →
  ∃ i', goes i i' ∧ between i' O' (X / 2 ^ width (stream_fields pos bs)) (n - width (stream_fields pos bs)) ∧
    i_mode (f_state i') = TYPE ∧ i_last (f_state i') = 1.
Proof.
  induction 1 as [|b bs Hb Hbs IH]; [done|]. intros _ i O X n pos fs O' Hbt Hat Hfs Hbeg Hn Hpos Ht Hspc. cbn [stream_fields stream_text] in *.
  destruct (block_text W O b) as [O1|] eqn:E1; [|done]. pose proof (stream_text_le _ _ _ _ Ht) as Hle.
  set (eof := match bs with [] => 1 | _ :: _ => 0 end) in *. assert (0 ≤ eof ≤ 1) as He by (unfold eof; by destruct bs).
  pose proof (fields_of_ok eof pos b He Hb) as Hok1. pose proof (stream_fields_ok bs Hbs (pos + width (fields_of eof pos b))) as Hok2.
  pose proof (width_nonneg _ Hok1). pose proof (width_nonneg _ Hok2). rewrite <-app_assoc in Hbeg. rewrite width_app in *.
  pose proof (Forall_app_2 field_ok _ _ Hok2 Hfs) as Hok3.
  destruct (run_text_block i O X n eof pos b _ O1 Hbt Hat He Hb Hok3 Hbeg ltac:(lia) Hpos E1 ltac:(lia)) as (i1 & G1 & Hb1 & Hm1 & Hl1).
  apply begins_app in Hbeg as [_ Hbeg]; [|done|by apply Forall_app_2]. destruct bs as [|b' bs].
  { cbn [stream_fields stream_text width] in *. rewrite Z.add_0_r. injection Ht as ->. by exists i1. }
  destruct (IH ltac:(done) i1 O1 _ _ (pos + width (fields_of eof pos b)) fs O' Hb1) as (i2 & G2 & Hb2 & Hm2 & Hl2); try done; try lia.
  { split; [by left|done]. }
  { rewrite <-Hpos. f_equal. lia. }
  exists i2. split; [by transitivity i1|]. rewrite (div_pow_add X) in Hb2 by lia. by rewrite Z.sub_add_distr.
Qed.

(** After the last block. *)
Lemma turn_last i O X n : between i O X n → i_mode (f_state i) = TYPE → i_last (f_state i) = 1 →
  ∃ i', goes i i' ∧ between i' O (X / 2 ^ (n mod 8)) (n - n mod 8) ∧ f_state i' = set_i_mode CHECK (f_state i) ∧ r_bits (f_regs i') = 0.
Proof.
  intros Hb Hm Hl. pose proof Hb as [Hd Hs]. pose proof Hd as [_ _ _ _ Hi _ _ Hb7 _ _].
  destruct (run_BYTEBITS i X n Hi Hb7) as (i1 & E1 & Hm1 & Hi1 & Hb1).
  assert (f_state i1 = f_state i) as Hs1 by (destruct Hm1 as (_ & _ & -> & _); done).
  exists (set_f_state (set_i_mode CHECK (f_state i)) i1). split; [|split; [|done]].
  - apply goes_step. rewrite step_TYPE by (done || by left). unfold case_TYPEDO. rewrite run_bind, run_the_state. cbn beta iota. rewrite Hl. change (negb (1 =? 0)) with true. cbn beta iota.
    rewrite run_bind, E1. cbn beta iota. by rewrite run_goto, Hs1.
  - apply (between_shifted _ _ _ _ _ _ _ i _ O X n); [done| |done|cbn; lia|done]. transitivity i1; [by apply moved_shifted|apply state_shifted].
Qed.

(** The end of a raw stream. *)
Lemma run_raw_end i O X n : between i O X n → i_mode (f_state i) = TYPE → i_last (f_state i) = 1 → i_wrap s0 = 0 →
  ∃ i', goes i i' ∧ between i' O (X / 2 ^ (n mod 8)) (n - n mod 8) ∧ i_mode (f_state i') = DONE.
Proof.
  intros Hb Hm Hl Hw. destruct (turn_last i O X n Hb Hm Hl) as (i1 & G1 & Hb1 & Hs1 & Hr1).
  pose proof Hb1 as [Hd1 Hset]. destruct (settled_window _ _ Hset) as (_ & _ & _ & _ & Ew). rewrite Hw in Ew.
  set (j m := set_f_state (set_i_mode m (f_state i1)) i1).
  assert (step i1 = Ret Again (j LENGTH)) as S2.
  { unfold Inflate.step. rewrite run_bind, run_the_state. cbn beta iota. replace (i_mode (f_state i1)) with CHECK by (by rewrite Hs1).
    unfold case_CHECK. rewrite run_bind, run_the_state. cbn beta iota. by rewrite Ew. }
  assert (step (j LENGTH) = Ret Again (j DONE)) as S3.
  { unfold Inflate.step. rewrite run_bind, run_the_state. cbn beta iota. change (i_mode (f_state (j LENGTH))) with LENGTH. unfold case_LENGTH. rewrite run_bind, run_the_state. cbn beta iota.
    change (i_wrap (f_state (j LENGTH))) with (i_wrap (f_state i1)). by rewrite Ew. }
  exists (j DONE). split; [transitivity i1; [done|]; transitivity (j LENGTH); by apply goes_step|]. split; [|done].
  apply (between_shifted _ _ _ _ _ _ _ i1 _ O (X / 2 ^ (n mod 8)) (n - n mod 8)); [done|apply state_shifted|by destruct Hd1|cbn; lia|done].
Qed.
End inflate.

(** ** A call of [inflate] *)

(** A stream about to be decoded, raw if [wrap] is 0: nothing read, nothing written, no
    window yet. *)
Record fresh (wrap : Z) (i : inflating) (l : list Z) : Prop := {
  fr_mode : i_mode (f_state i) = HEAD;
  fr_wrap : i_wrap (f_state i) = wrap;
  fr_last : i_last (f_state i) = 0;
  fr_wsize : i_wsize (f_state i) = 0;
  fr_whave : i_whave (f_state i) = 0;
  fr_bits : i_hold (f_state i) = 0 ∧ i_bits (f_state i) = 0;
  fr_ptrs : s_next_in (f_strm i) ≠ NULL ∧ s_next_out (f_strm i) ≠ NULL;
  fr_in : bytes_at (f_mem i) (s_next_in (f_strm i)) l ∧ s_avail_in (f_strm i) = Z.of_nat (length l);
  fr_out : valid (f_mem i) (s_next_out (f_strm i)) (s_avail_out (f_strm i));
  fr_size : 0 ≤ s_avail_out (f_strm i) < 2 ^ 32 ∧ s_avail_in (f_strm i) < 2 ^ 32;
  fr_apart : disjoint_ranges (s_next_in (f_strm i)) (s_avail_in (f_strm i)) (s_next_out (f_strm i)) (s_avail_out (f_strm i)) }.

Section call.
Context (BYFOUR little NO_DIVIDE : bool) (hbuf : Z) (zalloc : Z → Z → C mem Z) (flush : Z).
Hypothesis Hflush : flush ≠ Z_BLOCK.
Abbreviation step := (step BYFOUR little NO_DIVIDE hbuf flush).
Abbreviation run := (run BYFOUR little NO_DIVIDE hbuf flush).

(** The machine as [inflate] starts it. *)
Definition started (i : inflating) : inflating :=
  let z := f_strm i in let s := f_state i in
  set_f_regs (Regs (s_next_in z) (s_avail_in z) (s_next_out z) (s_avail_out z) (i_hold s) (i_bits s) (s_avail_in z) (s_avail_out z)) i.

Lemma run_inflate wrap fuel i l : fresh wrap i l → inflate BYFOUR little NO_DIVIDE hbuf zalloc flush fuel i =
  (t ← run fuel; match t with Again => diverge | Leave ret => inf_leave BYFOUR little NO_DIVIDE zalloc flush ret | Return ret => mret ret end) (started i).
Proof.
  intros [Hm _ _ _ _ _ [Hp1 Hp2] _ _ _ _]. unfold inflate. rewrite run_bind, run_get. cbn beta iota zeta.
  rewrite (proj2 (Z.eqb_neq _ NULL) Hp1), (proj2 (Z.eqb_neq _ NULL) Hp2). cbn [orb andb]. cbn beta iota. rewrite Hm, run_bind, run_ret. cbn beta iota.
  rewrite run_bind. unfold LOAD. rewrite run_modify. cbn beta iota zeta. rewrite run_bind. unfold on_regs. rewrite run_modify. cbn beta iota. done.
Qed.

Lemma run_leave i ret : (ret =? Z_OK) = false → before_CHECK (i_mode (f_state i)) = false → i_wsize (f_state i) = 0 →
  i_wrap (f_state i) = 0 ∨ r_out (f_regs i) = r_left (f_regs i) →
  ∃ i', inf_leave BYFOUR little NO_DIVIDE zalloc flush ret i = Ret ret i' ∧ f_mem i' = f_mem i ∧
    s_next_in (f_strm i') = r_next (f_regs i) ∧ s_avail_in (f_strm i') = r_have (f_regs i) ∧
    s_next_out (f_strm i') = r_put (f_regs i) ∧ s_avail_out (f_strm i') = r_left (f_regs i) ∧ s_msg (f_strm i') = s_msg (f_strm i).
Proof.
  intros Hret Hm Hw Hwrap. unfold inf_leave. rewrite run_bind. unfold RESTORE. rewrite run_modify. cbn beta iota zeta. rewrite run_bind, run_the_regs. cbn beta iota.
  rewrite run_bind, run_the_state. cbn beta iota. rewrite run_bind, run_get. cbn beta iota. rewrite run_bind.
  change (i_wsize (f_state (set_f_strm _ (set_f_state (set_i_hold _ (set_i_bits _ (f_state i))) i)))) with (i_wsize (f_state i)).
  change (i_mode (f_state (set_f_strm _ (set_f_state (set_i_hold _ (set_i_bits _ (f_state i))) i)))) with (i_mode (f_state i)).
  rewrite Hw, Hm. cbn [andb orb negb]. change (0 =? 0) with true. cbn [negb orb]. cbn beta iota. rewrite run_ret. cbn beta iota.
  change (0 =? 0) with true. cbn [negb]. cbn beta iota. rewrite run_bind, run_get. cbn beta iota zeta. rewrite run_bind. unfold on_strm at 1. rewrite run_modify. cbn beta iota.
  rewrite run_bind, run_on_state. cbn beta iota. rewrite run_bind, run_the_state. cbn beta iota. rewrite run_bind.
  match goal with |- context [i_wrap (f_state ?j) =? 0] => change (i_wrap (f_state j)) with (i_wrap (f_state i)) end.
  match goal with |- context [(i_wrap (f_state i) =? 0) || (?e =? 0)] => assert ((i_wrap (f_state i) =? 0) || (e =? 0) = true) as -> end.
  { cbn. rewrite orb_true_iff, !Z.eqb_eq. lia. }
  cbn beta iota.
  rewrite run_ret. cbn beta iota. rewrite run_bind, run_the_state. cbn beta iota. rewrite run_bind. unfold on_strm. rewrite run_modify. cbn beta iota.
  rewrite Hret, andb_false_r, run_ret. eexists. split; [done|]. by split_and!.
Qed.

(** [inflate] on the bits of a stream: the text is in the output, and what is after the
    stream is not read. *)
Lemma run_raw_stream i l bs O : fresh 0 i l → Forall block_ok bs → bs ≠ [] →
  begins (le_value l) (stream_fields 0 bs) → width (stream_fields 0 bs) ≤ 8 * Z.of_nat (length l) →
  stream_text [] [] bs = Some O → Z.of_nat (length O) ≤ s_avail_out (f_strm i) →
  ∃ k, ∀ fuel, (k ≤ fuel)%nat → ∃ i', inflate BYFOUR little NO_DIVIDE hbuf zalloc flush fuel i = Ret Z_STREAM_END i' ∧
    out_is (f_mem i) (s_next_out (f_strm i)) (s_next_out (f_strm i) + s_avail_out (f_strm i)) (f_mem i') O ∧
    s_next_out (f_strm i') = s_next_out (f_strm i) + Z.of_nat (length O) ∧
    s_avail_out (f_strm i') = s_avail_out (f_strm i) - Z.of_nat (length O) ∧
    s_next_in (f_strm i') = s_next_in (f_strm i) + (width (stream_fields 0 bs) + 7) / 8 ∧
    s_avail_in (f_strm i') = s_avail_in (f_strm i) - (width (stream_fields 0 bs) + 7) / 8 ∧ s_msg (f_strm i') = s_msg (f_strm i).
Proof.
  intros Hfr Hok Hne Hbeg Hw Htext Hspc. pose proof Hfr as [Hm Hwrap Hlast Hwsize Hwhave [Hh Hb] _ [Hin Ein] Hout [Hs1 Hs2] Hap].
  set (ob := s_next_out (f_strm i)) in *. set (oe := ob + s_avail_out (f_strm i)). set (ib := s_next_in (f_strm i)) in *. set (ie := ib + s_avail_in (f_strm i)).
  set (i0 := set_f_state (set_i_mode TYPEDO (f_state i)) (started i)). set (s0 := f_state i0). set (z := f_strm i).
  pose proof (stream_fields_ok bs Hok 0) as Hfs. set (w := width (stream_fields 0 bs)) in *. pose proof (width_nonneg _ Hfs) as Hw0. fold w in Hw0.
  assert (goes BYFOUR little NO_DIVIDE hbuf flush (started i) i0) as G0.
  { apply goes_step. unfold Inflate.step. rewrite run_bind, run_the_state. cbn beta iota. change (f_state (started i)) with (f_state i). rewrite Hm.
    unfold case_HEAD. rewrite run_bind, run_the_state. cbn beta iota. change (f_state (started i)) with (f_state i). by rewrite Hwrap. }
  assert (between (f_mem i) ob oe ib ie s0 z i0 [] (le_value l) (8 * Z.of_nat (length l))) as Hb0.
  { split; [|done]. split; cbn; try done; fold ob ib; try (unfold oe, ie; lia).
    - split; [done|by split|cbn; unfold oe; lia|by replace (oe - ob) with (s_avail_out (f_strm i)) by (unfold oe; lia)].
    - exists l. cbn. rewrite Hb, Hh. split; [|lia]. split; [done|]. split; [lia|]. split; [cbn; lia|]. change (2 ^ 0) with 1. lia. }
  assert (window_ok (f_mem i) ob oe s0 []) as Hwin by (split; [done|cbn; lia|constructor|done]).
  destruct (run_stream BYFOUR little NO_DIVIDE hbuf flush (f_mem i) ob oe ib ie s0 z [] Hflush) with (bs := bs) (i := i0) (O := @nil Z) (X := le_value l)
    (n := 8 * Z.of_nat (length l)) (pos := 0) (fs := @nil field) (O' := O) as (i1 & G1 & Hb1 & Hm1 & Hl1); try done; try (cbn [length]; unfold oe, ie; lia).
  { by replace (ie - ib) with (s_avail_in (f_strm i)) by (unfold ie; lia); replace (oe - ob) with (s_avail_out (f_strm i)) by (unfold oe; lia). }
  { split; [by right|done]. }
  { by rewrite app_nil_r. }
  { rewrite Z.add_0_r, Z.mul_comm. apply Z.mod_mul. lia. }
  fold w in Hb1. destruct (run_raw_end BYFOUR little NO_DIVIDE hbuf flush (f_mem i) ob oe ib ie s0 z [] Hflush i1 O _ _ Hb1 Hm1 Hl1 Hwrap) as (i2 & G2 & Hb2 & Hm2).
  assert (goes BYFOUR little NO_DIVIDE hbuf flush (started i) i2) as [k Hk] by (transitivity i0; [done|by transitivity i1]).
  exists (S k). intros fuel Hfuel. rewrite (run_inflate 0 fuel i l Hfr). replace fuel with (k + S (fuel - S k))%nat by lia. rewrite run_bind, Hk.
  assert (run (S (fuel - S k)) i2 = Ret (Leave Z_STREAM_END) i2) as ->.
  { unfold run. rewrite run_loop, run_bind. unfold Inflate.step. rewrite run_bind, run_the_state. cbn beta iota. rewrite Hm2. by rewrite run_ret. }
  cbn beta iota. destruct Hb2 as [Hd2 Hset]. destruct (settled_window _ _ Hset) as (_ & Ews & _ & _ & Ewr).
  destruct (run_leave i2 Z_STREAM_END eq_refl ltac:(by rewrite Hm2) ltac:(by rewrite Ews) ltac:(left; by rewrite Ewr)) as (i3 & E3 & M1 & M2 & M3 & M4 & M5 & M6).
  destruct Hd2 as [D1 D2 D3 D4 D5 D6 D7 D8 D9 D10]. exists i3. split; [done|]. rewrite M1, M2, M3, M4, M5, M6.
  assert (r_bits (f_regs i2) = 0 ∧ 8 * r_have (f_regs i2) = 8 * Z.of_nat (length l) - w - (8 * Z.of_nat (length l) - w) mod 8) as [_ Ehave].
  { destruct D5 as (l' & (_ & Hb0' & _) & -> & Hn). pose proof (Z.div_mod (8 * Z.of_nat (length l) - w) 8 ltac:(lia)). lia. }
  assert (r_have (f_regs i2) = Z.of_nat (length l) - (w + 7) / 8) as Eh2.
  { pose proof (Z.div_mod (8 * Z.of_nat (length l) - w) 8 ltac:(lia)) as E1. pose proof (Z.mod_pos_bound (8 * Z.of_nat (length l) - w) 8 ltac:(lia)).
    pose proof (Z.div_mod (w + 7) 8 ltac:(lia)) as E2. pose proof (Z.mod_pos_bound (w + 7) 8 ltac:(lia)). lia. }
  split; [done|]. unfold z. split; [lia|]. split; [unfold oe in D3; lia|]. split; [unfold ie in D6; lia|]. split; [lia|].
  change (s_msg (frozen_strm (f_strm i2)) = s_msg (frozen_strm z)). by rewrite D10.
Qed.
End call.

(** ** The compressor *)

(** A call that writes a block, and the memory it finds: between the calls the window and
    the buffer of symbols change, the pending output does not. *)
Inductive call := StoredCall (m : mem) (buf : Z) (bs : list Z) | FixedCall (m : mem) (xs : list buffered_symbol).

Definition call_mem (c : call) : mem := match c with StoredCall m _ _ => m | FixedCall m _ => m end.
Definition call_block (c : call) : block := match c with StoredCall _ _ bs => Stored bs | FixedCall _ xs => Fixed xs end.

Section emit.
Context (pb db lb p0 R : Z).

(** The calls of [_tr_flush_block], without the choice between them. *)
Definition write_block (eof : Z) (c : call) : C writer unit :=
  modify (set_mem (call_mem c));;
  match c with
  | StoredCall _ buf bs => _tr_stored_block pb buf (Z.of_nat (length bs)) eof
  | FixedCall _ xs =>
      send_bits pb (Z.shiftl STATIC_TREES 1 + eof) 3;;
      compress_block pb db lb (Z.of_nat (length xs)) static_ltree static_dtree
  end.

Definition eof_of (cs : list call) : Z := match cs with [] => 1 | _ => 0 end.

Fixpoint write_blocks (cs : list call) : C writer unit :=
  match cs with
  | [] => bi_windup pb
  | c :: cs => write_block (eof_of cs) c;; write_blocks cs
  end.

(** What a call relies on after [n] bits: its memory has the pending output and the data,
    and the output does not reach the symbols before they are read. *)
Definition call_ok (w : writer) (n eof : Z) (c : call) : Prop :=
  (∀ a, pb + p0 ≤ a < pb + w_pending w → call_mem c !! a = w_mem w !! a) ∧ valid (call_mem c) (pb + p0) R ∧
  block_ok (call_block c) ∧ n + width (fields_of eof n (call_block c)) ≤ 8 * R ∧
  match c with
  | StoredCall m buf bs => source pb m p0 R buf bs
  | FixedCall m xs =>
      (∀ k d b, xs !! k = Some (d, b) → bytes_at m (db + 2 * Z.of_nat k) (le_bytes 2 d) ∧ m !! (lb + Z.of_nat k) = Some b) ∧
      behind pb p0 db lb static_ltree static_dtree xs [(0, n + 3)]
  end.

Fixpoint calls_ok (w : writer) (n : Z) (cs : list call) : Prop :=
  match cs with
  | [] => n + pad n ≤ 8 * R
  | c :: cs => call_ok w n (eof_of cs) c ∧
      ∀ w', write_block (eof_of cs) c w = Ret tt w' → calls_ok w' (n + width (fields_of (eof_of cs) n (call_block c))) cs
  end.

Hypothesis Hp0 : 0 ≤ p0 ∧ p0 + R < 2 ^ 32.

Lemma wrote_mem m0 m w fs : wrote pb m0 p0 w fs → (∀ a, pb + p0 ≤ a < pb + w_pending w → m !! a = w_mem w !! a) → wrote pb m p0 (set_mem m w) fs.
Proof.
  intros (l & Hfs & (Hm & Hl & Hp) & Hrest) Ha. exists l. split; [done|]. split; [|exact Hrest]. split; [|done].
  cbn. symmetry. apply write_bytes_id. apply (bytes_at_ext (w_mem w)); [rewrite Hm; by apply write_bytes_at|]. intros a Ha'. apply Ha. lia.
Qed.

Lemma behind_width xs fs n : behind pb p0 db lb static_ltree static_dtree xs [(0, n)] → width fs = n → behind pb p0 db lb static_ltree static_dtree xs fs.
Proof. intros H E k Hk. destruct (H k Hk) as [H1 H2]. cbn [width snd] in H1, H2. lia. Qed.

Lemma run_write_block m0 w fs eof c : wrote pb m0 p0 w fs → 0 ≤ eof ≤ 1 → call_ok w (width fs) eof c →
  ∃ w', write_block eof c w = Ret tt w' ∧ wrote pb (call_mem c) p0 w' (fs ++ fields_of eof (width fs) (call_block c)).
Proof.
  intros Hw He (Hmem & Hroom & Hok & HR & Hc). pose proof (wrote_mem _ _ _ _ Hw Hmem) as Hw'. unfold write_block. rewrite run_bind, run_modify. cbn beta iota.
  destruct c as [m buf bs|m xs]; cbn [call_mem call_block block_ok fields_of] in *.
  - destruct Hok as [Hbs Hlen]. destruct (run_stored_block pb m p0 R Hroom Hp0 buf bs eof _ fs Hc Hlen He Hw' HR) as (w' & E & Hw1 & _). by exists w'.
  - destruct Hc as [Hbuf Hbeh]. cbn [width snd] in HR. change (Z.shiftl STATIC_TREES 1 + eof) with (2 + eof).
    pose proof (fields_of_ok eof 0 (Fixed xs) He Hok) as Hf. cbn [fields_of] in Hf. inversion Hf as [|? ? Hf3 Hblk]; subst. pose proof (width_nonneg _ Hblk).
    destruct (run_send_bits pb m p0 R Hroom Hp0 _ fs (2 + eof) 3 Hw' Hf3 ltac:(lia) ltac:(lia)) as (w1 & E1 & Hw1 & _). rewrite run_bind, E1. cbn beta iota.
    destruct (run_compress_block pb m p0 R Hroom Hp0 db lb static_ltree static_dtree xs) with (fs := fs ++ [(2 + eof, 3)]) (w := w1) as (w2 & E2 & Hw2 & _).
    + intros k d b Hk. split; [by apply (proj1 (Forall_lookup _ _) Hok k)|by apply Hbuf].
    + eapply Forall_impl; [done|]. intros x Hx. by apply (symbol_coded_sendable fixed_codes), fixed_symbol_coded.
    + apply (coded_sendable _ fixed_lengths), static_ltree_coded. vm_compute. done.
    + done.
    + apply (behind_width _ _ (width fs + 3)); [done|]. rewrite width_app. cbn [width snd]. lia.
    + rewrite width_app. cbn [width snd]. lia.
    + exists w2. split; [done|]. by rewrite <-app_assoc in Hw2.
Qed.

(** The calls write the stream, up to a byte boundary. *)
Lemma run_write_blocks cs : ∀ m0 w fs, wrote pb m0 p0 w fs → valid m0 (pb + p0) R → calls_ok w (width fs) cs →
  let fs' := fs ++ stream_fields (width fs) (call_block <$> cs) in
  Forall block_ok (call_block <$> cs) ∧
  ∃ w' m', write_blocks cs w = Ret tt w' ∧ wrote pb m' p0 w' (fs' ++ [(0, pad (width fs'))]) ∧ w_bi_valid w' = 0.
Proof.
  induction cs as [|c cs IH]; intros m0 w fs Hw Hroom Hok; cbn [calls_ok write_blocks fmap list_fmap stream_fields] in *.
  - rewrite app_nil_r. cbv zeta. destruct (run_bi_windup pb m0 p0 R Hroom Hp0 w fs Hw Hok) as (w' & E & Hw' & Hv & _). split; [constructor|]. by exists w', m0.
  - destruct Hok as [Hc Hcs]. assert (0 ≤ eof_of cs ≤ 1) as He by (by destruct cs).
    destruct (run_write_block m0 w fs (eof_of cs) c Hw He Hc) as (w1 & E1 & Hw1). specialize (Hcs w1 E1). rewrite <-width_app in Hcs.
    destruct (IH (call_mem c) w1 _ Hw1 ltac:(apply Hc) Hcs) as (Hblk & w2 & m2 & E2 & Hw2 & Hv2). split; [constructor; [apply Hc|done]|]. exists w2, m2. rewrite run_bind, E1. cbn beta iota zeta in *. split; [done|]. split; [|done].
    assert (match call_block <$> cs with [] => 1 | _ :: _ => 0 end = eof_of cs) as -> by (by destruct cs).
    rewrite (width_app fs), <-!app_assoc in Hw2. rewrite <-!app_assoc. exact Hw2.
Qed.
End emit.

(** The bytes of a stream that has been written. *)
Lemma wrote_stream pb m p0 w fs : wrote pb m p0 w (fs ++ [(0, pad (width fs))]) → w_bi_valid w = 0 →
  ∃ l, bytes_at (w_mem w) (pb + p0) l ∧ w_pending w = p0 + Z.of_nat (length l) ∧ begins (le_value l) fs ∧
    Z.of_nat (length l) = (width fs + 7) / 8 ∧ width fs ≤ 8 * Z.of_nat (length l).
Proof.
  intros (l & Hfs & (Hm & Hl & Hp) & _ & Hb & Hpack & Hw) Hv. rewrite Hv in *. change (2 ^ 0) with 1 in Hb. exists l.
  split; [rewrite Hm; by apply write_bytes_at|]. split; [done|]. apply Forall_app in Hfs as [Hfs _]. pose proof (pack_range fs Hfs).
  rewrite pack_app, width_app in * by done. cbn [pack width fst snd] in *. assert (0 ≤ pad (width fs) < 8) by (apply Z.mod_pos_bound; lia).
  split; [unfold begins; replace (le_value l) with (pack fs) by lia; by apply Z.mod_small|]. split; [|lia].
  apply (Z.div_unique _ 8 _ (7 - pad (width fs))); lia.
Qed.

(** C3: whatever sequence of stored blocks and of blocks with the fixed trees [trees.c]
    writes (with [_tr_stored_block], and with [send_bits] and [compress_block], the last
    one marked and wound up by [bi_windup]), in any memory that keeps the pending output
    and in which the output does not overtake the symbols still to be read, the calls
    succeed, and [inflate], given the bytes they wrote, returns [Z_STREAM_END] with the
    text the blocks stand for in its output and the whole of its input read, on its fast
    path or its slow one. *)
Theorem stream_round_trip (pb db lb R : Z) (w : writer) (cs : list call)
    (BYFOUR little NO_DIVIDE : bool) (hbuf : Z) (zalloc : Z → Z → C mem Z) (flush : Z)
    (Hbits : w_bi_valid w = 0 ∧ w_bi_buf w = 0) (Hpend : 0 ≤ w_pending w ∧ w_pending w + R < 2 ^ 32)
    (Hroom : valid (w_mem w) (pb + w_pending w) R) (Hcs : cs ≠ []) (Hok : calls_ok pb db lb (w_pending w) R w 0 cs)
    (Hflush : flush ≠ Z_BLOCK) :
  ∃ w' l, write_blocks pb db lb cs w = Ret tt w' ∧
    bytes_at (w_mem w') (pb + w_pending w) l ∧ w_pending w' = w_pending w + Z.of_nat (length l) ∧
    ∀ i O, fresh 0 i l → stream_text [] [] (call_block <$> cs) = Some O → Z.of_nat (length O) ≤ s_avail_out (f_strm i) →
    ∃ k, ∀ fuel, (k ≤ fuel)%nat → ∃ i', inflate BYFOUR little NO_DIVIDE hbuf zalloc flush fuel i = Ret Z_STREAM_END i' ∧
      bytes_at (f_mem i') (s_next_out (f_strm i)) O ∧
      s_avail_out (f_strm i') = s_avail_out (f_strm i) - Z.of_nat (length O) ∧ s_avail_in (f_strm i') = 0.
Proof.
  destruct Hbits as [Hv Hb]. assert (wrote pb (w_mem w) (w_pending w) w []) as Hw.
  { exists []. split; [constructor|]. split; [split_and!; [done|constructor|cbn; lia]|]. rewrite Hv, Hb. cbn. split_and!; lia || done. }
  destruct (run_write_blocks pb db lb (w_pending w) R Hpend cs (w_mem w) w [] Hw Hroom Hok) as (Hblk & w' & m' & E & Hw' & Hv').
  cbn [app width] in Hw'. destruct (wrote_stream _ _ _ _ _ Hw' Hv') as (l & Hl & Hp & Hbeg & Hlen & Hwid).
  exists w', l. split; [done|]. split; [done|]. split; [done|]. intros i O Hfr Htext Hspc.
  destruct (run_raw_stream BYFOUR little NO_DIVIDE hbuf zalloc flush Hflush i l (call_block <$> cs) O Hfr Hblk) as [k Hk]; [by destruct cs|done..|].
  exists k. intros fuel Hfuel. destruct (Hk fuel Hfuel) as (i' & E' & [_ Hout _ _] & _ & Ho & _ & Hi & _). exists i'. split; [done|]. split; [done|]. split; [done|].
  destruct Hfr as [_ _ _ _ _ _ _ [_ Ein] _ _ _]. lia.
Qed.

(** A stream of two blocks: the stored bytes [hi], then the literals [ab] and the match that
    repeats them three times. *)
Definition example_mem : mem :=
  write_bytes (write_bytes (write_bytes (write_bytes ∅ 1000 (replicate 40 0)) 1100 [0; 0; 0; 0; 2; 0]) 1200 [97; 98; 3]) 1300 [104; 105].
Definition example_writer : writer := Writer example_mem 0 0 0 8.
Definition example_calls : list call :=
  [StoredCall example_mem 1300 [104; 105]; FixedCall (write_bytes example_mem 1000 [0; 2; 0; 253; 255; 104; 105]) [(0, 97); (0, 98); (2, 3)]].

Lemma stream_round_trip_witness :
  stream_text [] [] (call_block <$> example_calls) = Some [104; 105; 97; 98; 97; 98; 97; 98; 97; 98] ∧
  ∃ w' l, write_blocks 1000 1100 1200 example_calls example_writer = Ret tt w' ∧
    bytes_at (w_mem w') (1000 + w_pending example_writer) l ∧ w_pending w' = w_pending example_writer + Z.of_nat (length l) ∧
    ∀ i O, fresh 0 i l → stream_text [] [] (call_block <$> example_calls) = Some O → Z.of_nat (length O) ≤ s_avail_out (f_strm i) →
    ∃ k, ∀ fuel, (k ≤ fuel)%nat → ∃ i', inflate false true false 0 (λ _ _, mret 0) 0 fuel i = Ret Z_STREAM_END i' ∧
      bytes_at (f_mem i') (s_next_out (f_strm i)) O ∧
      s_avail_out (f_strm i') = s_avail_out (f_strm i) - Z.of_nat (length O) ∧ s_avail_in (f_strm i') = 0.
Proof.
  split; [vm_compute; reflexivity|]. apply (stream_round_trip 1000 1100 1200 40); [done|done| |done| |done].
  - apply (bytes_at_valid _ _ (replicate 40 0)), bytes_atb_spec. vm_compute. reflexivity.
  - assert (∀ m, bytes_atb m 1000 (take 40 (default 0 <$> ((λ a, m !! a) <$> seqZ 1000 40))) = true → valid m 1000 40) as Hvalid.
    { intros m Hm. apply bytes_atb_spec, bytes_at_valid in Hm. by rewrite length_take, !length_fmap, length_seqZ in Hm. }
    split; [|intros w' E; vm_compute in E; injection E as <-; split; [|intros w' E; vm_compute in E; injection E as <-; vm_compute; done]].
    + split; [cbn; lia|]. split; [apply Hvalid; vm_compute; reflexivity|]. split; [split; [repeat constructor; done|vm_compute; done]|]. split; [vm_compute; done|].
      split; [apply bytes_atb_spec; vm_compute; reflexivity|cbn; unfold disjoint_ranges; lia].
    + split; [intros a _; f_equal; vm_compute; reflexivity|]. split; [apply Hvalid; vm_compute; reflexivity|].
      split; [repeat constructor; done|]. split; [vm_compute; done|]. split.
      * intros k d b. do 3 (destruct k as [|k]; [intros [= <- <-]; split; [apply bytes_atb_spec|]; vm_compute; reflexivity|]). done.
      * intros k Hk. do 3 (destruct k as [|k]; [split; vm_compute; done|]). cbn in Hk. lia.
Defined.

(** ** Blocks with any trees *)

(** The tables of the state belong to the codes. *)
Record tables_ready (s : inflate_state) (c : block_codes) : Prop := {
  tr_lit : table_ok (entry (i_codes s) (i_lencode s)) (i_lenbits s) (lit_lens c) (lit_ent c);
  tr_dist : table_ok (entry (i_codes s) (i_distcode s)) (i_distbits s) (dist_lens c) (dist_ent c);
  tr_lit_ops : ∀ x, (x < length (lit_lens c))%nat → fst (lit_ent c x) ≠ 0 → Z.land (fst (lit_ent c x)) 16 ≠ 0 ∨ Z.land (fst (lit_ent c x)) 64 ≠ 0;
  tr_dist_ops : ∀ x, (x < length (dist_lens c))%nat → Z.land (fst (dist_ent c x)) 16 ≠ 0 ∨ Z.land (fst (dist_ent c x)) 64 ≠ 0;
  tr_lit_ent : ∀ x, (x < 286)%nat → lit_ent c x = symbol_entry LENS (Z.of_nat x);
  tr_dist_ent : ∀ x, (x < 30)%nat → dist_ent c x = symbol_entry DISTS (Z.of_nat x) }.

(** C4: whatever the codes of a block are, as long as the trees its symbols were sent with
    and the tables of the state belong to the same lengths of code words: [inflate] decodes
    the fields [compress_block] writes to the text of the symbols and goes on to the next
    block, through [inflate_fast] or without it, wherever the bytes of a match lie in the
    output and in the window; at a match that refers to more than there is it stops with the
    message "invalid distance too far back", the text before the match in the output. *)
Theorem block_decoded (BYFOUR little NO_DIVIDE : bool) (hbuf flush : Z) (m0 : mem) (ob oe ib ie : Z) (s : inflate_state) (z : z_stream)
    (W : list Z) (c : block_codes) (ltree dtree : list ct_data) (xs : list buffered_symbol) (i : inflating) (O : list Z) (X n : Z)
    (Hwin : window_ok m0 ob oe s W) (Htab : tables_ready s c) (H32 : Z.of_nat (length W) + (oe - ob) < 2 ^ 32)
    (Hin : disjoint_ranges ib (ie - ib) ob (oe - ob)) (Hin32 : ie - ib < 2 ^ 32)
    (Hxs : Forall symbol_ok xs) (Hc : Forall (symbol_coded c ltree dtree) xs) (Hend : coded ltree (lit_lens c) END_BLOCK)
    (Hd : decoding m0 ob oe ib ie s z i O X n) (Hmode : i_mode (f_state i) = LEN)
    (Hbits : begins X (block_fields ltree dtree xs)) (Hn : width (block_fields ltree dtree xs) ≤ n)
    (Hfits : fits ob oe W O (token_of <$> xs)) :
  ∃ i', goes BYFOUR little NO_DIVIDE hbuf flush i i' ∧
    match expand_all W O (token_of <$> xs) with
    | Some O' =>
        decoding m0 ob oe ib ie s z i' O' (X / 2 ^ width (block_fields ltree dtree xs)) (n - width (block_fields ltree dtree xs)) ∧
        i_mode (f_state i') = TYPE
    | None => i_mode (f_state i') = BAD ∧ s_msg (f_strm i') = Some invalid_distance_too_far_back ∧
        ∃ pre t rest O', token_of <$> xs = pre ++ t :: rest ∧ expand_all W O pre = Some O' ∧ expand W O' t = None ∧
          bytes_at (f_mem i') ob O'
    end.
Proof.
  destruct Htab as [T1 T2 T3 T4 T5 T6], Hwin as [Wr Wb Wa Wh].
  assert (begins X (block_fields ltree dtree xs ++ [])) as Hbits' by (by rewrite app_nil_r).
  destruct (block_begins c ltree dtree T5 T6 xs [] Hxs Hc Hend (Forall_nil_2 _) X Hbits') as [Hblock _].
  pose proof (dec_out _ _ _ _ _ _ _ _ _ _ _ Hd) as Ho. pose proof (out_valid _ _ _ _ _ Ho) as Hv. pose proof (out_len _ _ _ _ _ Ho).
  destruct (run_block BYFOUR little NO_DIVIDE hbuf flush m0 ob oe ib ie s z W c ltac:(lia) Wr Wb Wa Wh H32 Hin T1 T2 T3 T4 Hin32 (token_of <$> xs) i O X n _ Hd Hmode Hblock Hn Hfits)
    as (i' & G & Hfin). exists i'. split; [done|]. unfold block_end in Hfin. destruct (expand_all W O (token_of <$> xs)); [done|].
  destruct Hfin as (Hm & Hmsg & pre & t & rest & O' & E1 & E2 & E3 & [_ Hb _ _]). split; [done|]. split; [done|]. by exists pre, t, rest, O'.
Qed.

Lemma fixed_tables_ready s : i_lencode s = LenFix → i_lenbits s = 9 → i_distcode s = DistFix → i_distbits s = 5 → tables_ready s fixed_codes.
Proof.
  intros E1 E2 E3 E4. split; rewrite ?E1, ?E2, ?E3, ?E4; [apply lenfix_ok|apply distfix_ok|apply fixed_ops|apply fixed_dist_ops| |done].
  intros x Hx. cbn. unfold fixed_entry. by rewrite (proj2 (Nat.leb_gt 286 x)) by lia.
Qed.

(** The literal [a], then a match that goes back five bytes. *)
Definition far_symbols : list buffered_symbol := [(0, 97); (5, 0)].
Definition far_input : list Z := le_bytes 8 (pack (block_fields static_ltree static_dtree far_symbols)).
Definition far_state : inflate_state :=
  IState LEN 0 0 0 0 32768 0 0 None 15 0 0 0 0 0 0 0 0 0 LenFix DistFix 9 5 0 0 0 0 0 (replicate 320 0) (replicate 288 0) ∅.
Definition far_inflating : inflating :=
  Inflating (write_bytes (write_bytes ∅ 100 far_input) 200 (replicate 10 0)) (ZStream 100 8 0 200 10 0 None 0 0) far_state
    (Regs 100 8 200 10 0 0 8 10).

Lemma block_decoded_witness :
  ∃ i', goes false true false 0 0 far_inflating i' ∧
    match expand_all [] [] (token_of <$> far_symbols) with
    | Some O' =>
        decoding (f_mem far_inflating) 200 210 100 108 far_state (f_strm far_inflating) i' O'
          (le_value far_input / 2 ^ width (block_fields static_ltree static_dtree far_symbols)) (64 - width (block_fields static_ltree static_dtree far_symbols)) ∧
        i_mode (f_state i') = TYPE
    | None => i_mode (f_state i') = BAD ∧ s_msg (f_strm i') = Some invalid_distance_too_far_back ∧
        ∃ pre t rest O', token_of <$> far_symbols = pre ++ t :: rest ∧ expand_all [] [] pre = Some O' ∧ expand [] O' t = None ∧
          bytes_at (f_mem i') 200 O'
    end.
Proof.
  apply (block_decoded false true false 0 0 (f_mem far_inflating) 200 210 100 108 far_state (f_strm far_inflating) [] fixed_codes static_ltree static_dtree far_symbols
    far_inflating [] (le_value far_input) 64).
  - split; [done|cbn; lia|constructor|done].
  - by apply fixed_tables_ready.
  - cbn. lia.
  - left. cbn. lia.
  - lia.
  - repeat constructor; done.
  - apply (Forall_impl symbol_ok); [repeat constructor; done|apply fixed_symbol_coded].
  - apply static_ltree_coded. vm_compute. done.
  - split; try done.
    + split; [done|by split|cbn; lia|]. apply (bytes_at_valid _ _ (replicate 10 0)), bytes_atb_spec. vm_compute. reflexivity.
    + exists far_input. split; [|vm_compute; done]. split; [apply bytes_atb_spec; vm_compute; reflexivity|]. split; [done|]. split; [cbn; lia|vm_compute; done].
  - done.
  - vm_compute. reflexivity.
  - vm_compute. done.
  - intros pre rest O' E1 E2. destruct pre as [|t [|t' pre]]; cbn in *; simplify_eq; cbn; try lia. change (Some [97] = Some O') in E2. injection E2 as <-. cbn. lia.
Defined.
