(* ===== verification/ZlibFormat.v ===== *)
(** * The zlib format

    The header before a stream and the checksum after it: [inflate] checks the one, keeps
    the checksum of its output with [adler32], and accepts the stream only if the other
    agrees. *)

From stdpp Require Import base tactics numbers list gmap.
From S2P Require Import Prelude Memory Words Adler Bitstream TreesBlock Inftrees InftreesMain Inflate InflateTables InflateRead InflateCopy InflateFast InflateBlock InflateStream Roundtrip.

Open Scope Z_scope.

(** RFC 1950: the two bytes of the header, for a stream without a preset dictionary. *)
Definition header_ok (wbits cmf flg : Z) : Prop :=
  is_byte cmf ∧ is_byte flg ∧ cmf mod 16 = 8 ∧ cmf / 16 + 8 ≤ wbits ∧ (256 * cmf + flg) mod 31 = 0 ∧ (flg / 32) mod 2 = 0.

(** The checksum, most significant byte first. *)
Definition be_bytes (v : Z) : list Z := [v / 2 ^ 24 mod 256; v / 2 ^ 16 mod 256; v / 2 ^ 8 mod 256; v mod 256].

Lemma low_byte x k : 0 ≤ k → Z.land (Z.shiftr x k) 0xff = x / 2 ^ k mod 256.
Proof. intros Hk. change 0xff with (Z.ones 8). by rewrite Z.land_ones, Z.shiftr_div_pow2 by lia. Qed.

Lemma high_byte x : Z.land x 0xff00 = x / 256 mod 256 * 256.
Proof.
  change 0xff00 with (Z.shiftl (Z.ones 8) 8). apply Z.bits_inj'. intros j Hj. change 256 with (2 ^ 8). rewrite Z.land_spec, Z.shiftl_spec by lia.
  destruct (Z.ltb_spec j 8); [rewrite Z.mul_pow2_bits_low, (Z.testbit_neg_r _ (j - 8)) by lia; apply andb_false_r|].
  rewrite Z.mul_pow2_bits, Z.testbit_ones_nonneg by lia. destruct (Z.ltb_spec (j - 8) 8).
  - rewrite Z.mod_pow2_bits_low, Z.div_pow2_bits, andb_true_r by lia. f_equal. lia.
  - by rewrite Z.mod_pow2_bits_high, andb_false_r by lia.
Qed.

Lemma REVERSE_be v : 0 ≤ v < 2 ^ 32 → REVERSE (le_value (be_bytes v)) = v.
Proof.
  intros Hv. unfold REVERSE, be_bytes. set (a := v / 2 ^ 24 mod 256). set (b := v / 2 ^ 16 mod 256). set (c := v / 2 ^ 8 mod 256). set (d := v mod 256).
  assert (0 ≤ a < 256) by (apply Z.mod_pos_bound; lia). assert (0 ≤ b < 256) by (apply Z.mod_pos_bound; lia).
  assert (0 ≤ c < 256) by (apply Z.mod_pos_bound; lia). assert (0 ≤ d < 256) by (apply Z.mod_pos_bound; lia).
  assert (v = d + 256 * c + 65536 * b + 16777216 * a) as Ev.
  { pose proof (Z.div_mod v 256 ltac:(lia)) as E0. fold d in E0. pose proof (Z.div_mod (v / 256) 256 ltac:(lia)) as E1. change (v / 256 mod 256) with c in E1.
    rewrite Z.div_div in E1 by lia. change (256 * 256) with (2 ^ 16) in E1. pose proof (Z.div_mod (v / 2 ^ 16) 256 ltac:(lia)) as E2. fold b in E2.
    rewrite Z.div_div in E2 by lia. change (2 ^ 16 * 256) with (2 ^ 24) in E2.
    assert (v / 2 ^ 24 = a) as E3 by (unfold a; rewrite Z.mod_small; [done|]; split; [apply Z.div_pos; lia|apply Z.div_lt_upper_bound; lia]). lia. }
  cbn [le_value]. set (x := a + 256 * (b + 256 * (c + 256 * (d + 256 * 0)))).
  assert (x / 2 ^ 8 = b + 256 * (c + 256 * d)) as X1 by (symmetry; apply (Z.div_unique _ _ _ a); unfold x; lia).
  assert (x / 2 ^ 16 = c + 256 * d) as X2 by (symmetry; apply (Z.div_unique _ _ _ (a + 256 * b)); unfold x; lia).
  assert (x / 2 ^ 24 = d) as X3 by (symmetry; apply (Z.div_unique _ _ _ (a + 256 * b + 65536 * c)); unfold x; lia).
  rewrite low_byte, X3, (high_byte x) by lia. change (x / 256) with (x / 2 ^ 8). rewrite X1. rewrite (high_byte (Z.shiftr x 8)), Z.shiftr_div_pow2, X1 by lia.
  change 0xff with (Z.ones 8). rewrite Z.land_ones, !Z.shiftl_mul_pow2 by lia. change (2 ^ 8) with 256.
  assert ((b + 256 * (c + 256 * d)) / 256 = c + 256 * d) as -> by (symmetry; apply (Z.div_unique _ _ _ b); lia).
  rewrite (Z.mod_small d) by lia. rewrite <-(Z.mod_unique (b + 256 * (c + 256 * d)) 256 (c + 256 * d) b) by lia.
  rewrite <-(Z.mod_unique (c + 256 * d) 256 d c) by lia. rewrite <-(Z.mod_unique x 256 (b + 256 * (c + 256 * d)) a) by (unfold x; lia). lia.
Qed.

Section zlib.
Context (BYFOUR little NO_DIVIDE : bool) (hbuf : Z) (zalloc : Z → Z → C mem Z) (flush : Z).
Hypothesis Hflush : flush ≠ Z_BLOCK.
Abbreviation step := (step BYFOUR little NO_DIVIDE hbuf flush).
Abbreviation goes := (goes BYFOUR little NO_DIVIDE hbuf flush).
Abbreviation run := (run BYFOUR little NO_DIVIDE hbuf flush).

Lemma run_adler_start i : adler NO_DIVIDE 0 NULL 0 i = Ret 1 i.
Proof. unfold adler, inmem, zoom, adler32. rewrite run_bind || idtac. by destruct i. Qed.

(** What the header leaves. *)
Record opened (s : inflate_state) : Prop := {
  op_mode : i_mode s = TYPE; op_last : i_last s = 0; op_wrap : i_wrap s = 1; op_flags : i_flags s = 0;
  op_check : i_check s = 1; op_wsize : i_wsize s = 0; op_whave : i_whave s = 0 }.

Lemma turn_HEAD i cmf flg l : fresh 1 i (cmf :: flg :: l) → header_ok (i_wbits (f_state i)) cmf flg →
  let z := f_strm i in
  let ob := s_next_out z in let oe := ob + s_avail_out z in let ib := s_next_in z in let ie := ib + s_avail_in z in
  ∃ i', goes (started i) i' ∧ opened (f_state i') ∧ s_msg (f_strm i') = s_msg z ∧
    between (f_mem i) ob oe ib ie (f_state i') (f_strm i') i' [] (le_value l) (8 * Z.of_nat (length l)).
Proof.
  intros Hfr (Hcmf & Hflg & Hm8 & Hwin & H31 & Hdict). pose proof Hfr as [Hm Hwrap Hlast Hwsize Hwhave [Hh Hb] _ [Hin Ein] Hout [Hs1 Hs2] Hap].
  intros z ob oe ib ie. set (X := le_value (cmf :: flg :: l)). set (n := 8 * Z.of_nat (length (cmf :: flg :: l))).
  unfold is_byte in Hcmf, Hflg. assert (X = cmf + 256 * flg + 2 ^ 16 * le_value l) as EX by (unfold X; cbn [le_value]; lia).
  assert (input (started i) X n) as Hi0.
  { exists (cmf :: flg :: l). cbn. rewrite Hb, Hh. split; [|done]. split; [done|]. split; [lia|]. split; [cbn; lia|]. unfold X. cbn [le_value]. change (2 ^ 0) with 1. lia. }
  assert (step (started i) = case_HEAD BYFOUR little NO_DIVIDE hbuf (started i)) as Est by (unfold Inflate.step; rewrite run_bind, run_the_state; cbn beta iota; change (f_state (started i)) with (f_state i); by rewrite Hm).
  unfold case_HEAD in Est. rewrite run_bind, run_the_state in Est. cbn beta iota in Est. change (f_state (started i)) with (f_state i) in Est. rewrite Hwrap in Est.
  change (1 =? 0) with false in Est. cbn beta iota in Est.
  match type of Est with _ = NEEDBITS 16 ?K _ => destruct (run_NEEDBITS 16 K (started i) X n Hi0 ltac:(unfold n; cbn [length]; lia) ltac:(lia)) as (i1 & E1 & Hi1 & Hm1 & Hn1 & Hb1) end.
  cbn in Hb1. rewrite Hb in Hb1. rewrite E1 in Est. clear E1. assert (r_bits (f_regs i1) = 16) as Hb16 by (destruct Hi1 as (l1 & _ & _ & En); unfold n in En; lia).
  destruct (input_hold i1 _ _ Hi1) as [Hh1 _]. rewrite Hb16, EX, (Z.mul_comm (2 ^ 16)), Z_mod_plus_full, Z.mod_small in Hh1 by lia.
  rewrite run_bind, run_the_regs in Est. cbn beta iota in Est. rewrite Hh1 in Est. change (Z.land 1 2 =? 0) with true in Est. cbn [negb andb] in Est. cbn beta iota in Est.
  rewrite run_bind, run_on_state in Est. cbn beta iota in Est. rewrite run_bind in Est. unfold on_head in Est. rewrite run_on_state in Est. cbn beta iota in Est.
  assert (f_state i1 = f_state i) as Es1 by (destruct Hm1 as (_ & _ & -> & _); done).
  set (s2 := set_i_head (set_g_done (-1) <$> i_head (f_state i)) (set_i_flags 0 (f_state i))).
  match type of Est with context [set_f_state ?a (set_f_state ?b i1)] => replace (set_f_state a (set_f_state b i1)) with (set_f_state s2 i1) in Est by (unfold s2; by rewrite Es1) end.
  change (Z.land 1 1 =? 0) with false in Est. cbn [orb] in Est.
  assert (BITS (cmf + 256 * flg) 8 = cmf) as B8 by (rewrite BITS_mod by lia; change (2 ^ 8) with 256; rewrite (Z.mul_comm 256), Z_mod_plus_full, Z.mod_small; lia).
  assert (Z.shiftr (cmf + 256 * flg) 8 = flg) as S8 by (rewrite Z.shiftr_div_pow2 by lia; change (2 ^ 8) with 256; rewrite (Z.mul_comm 256), Z.div_add, Z.div_small by lia; lia).
  assert (BITS (cmf + 256 * flg) 4 = 8) as B4.
  { rewrite BITS_mod by lia. change (2 ^ 4) with 16. replace (cmf + 256 * flg) with (cmf + 16 * flg * 16) by lia. by rewrite Z_mod_plus_full. }
  rewrite B8, S8, B4, Z.shiftl_mul_pow2, wrap_small in Est by lia. replace (cmf * 2 ^ 8 + flg) with (256 * cmf + flg) in Est by lia. rewrite H31 in Est.
  change (0 =? 0) with true in Est. change (8 =? Z_DEFLATED) with true in Est. cbn [negb] in Est. cbn beta iota in Est.
  destruct (run_DROPBITS 4 (set_f_state s2 i1) X n Hi1 ltac:(cbn; lia) ltac:(cbn; lia)) as (i3 & E3 & Hi3 & Hm3 & Hb3). rewrite run_bind, E3 in Est. cbn beta iota in Est.
  change (r_bits (f_regs (set_f_state s2 i1))) with (r_bits (f_regs i1)) in Hb3. rewrite Hb16 in Hb3. change (16 - 4) with 12 in Hb3.
  destruct (input_hold i3 _ _ Hi3) as [Hh3 _]. rewrite Hb3, EX in Hh3.
  assert ((cmf + 256 * flg + 2 ^ 16 * le_value l) / 2 ^ 4 mod 2 ^ 12 = cmf / 16 + 16 * flg) as Eh3.
  { replace (cmf + 256 * flg + 2 ^ 16 * le_value l) with (cmf + (16 * flg + 2 ^ 12 * le_value l) * 2 ^ 4) by lia. rewrite Z.div_add by lia. change (2 ^ 4) with 16.
    rewrite Z.add_assoc, (Z.mul_comm (2 ^ 12)), Z_mod_plus_full. apply Z.mod_small. pose proof (Z.div_lt_upper_bound cmf 16 16). pose proof (Z.div_pos cmf 16). lia. }
  rewrite Eh3 in Hh3. rewrite run_bind, run_the_regs in Est. cbn beta iota in Est. rewrite Hh3 in Est.
  assert (0 ≤ cmf / 16 < 16) as Hc16 by (split; [apply Z.div_pos; lia|apply Z.div_lt_upper_bound; lia]).
  assert (BITS (cmf / 16 + 16 * flg) 4 = cmf / 16) as B4' by (rewrite BITS_mod by lia; change (2 ^ 4) with 16; rewrite (Z.mul_comm 16), Z_mod_plus_full, Z.mod_small; lia).
  rewrite B4' in Est. cbv zeta in Est. change (i_wbits (f_state i)) with (i_wbits (f_state i)) in Est. rewrite (proj2 (Z.ltb_ge _ _)) in Est by lia.
  rewrite run_bind, run_on_state in Est. cbn beta iota in Est. rewrite run_bind, run_adler_start in Est. cbn beta iota in Est.
  rewrite run_bind, run_on_state in Est. cbn beta iota in Est. rewrite run_bind in Est. unfold on_strm in Est. rewrite run_modify in Est. cbn beta iota in Est.
  assert (f_state i3 = s2) as Es3 by (destruct Hm3 as (_ & _ & -> & _); done).
  rewrite run_bind in Est.
  match type of Est with _ = match INITBITS ?j with _ => _ end => set (i4 := j) in Est end.
  assert (input i4 (X / 2 ^ 4) (n - 4)) as Hi4 by done. assert (r_bits (f_regs i4) = 12) as Hb4 by done.
  destruct (run_INITBITS i4 _ _ 12 Hi4 Hb4) as (i5 & E5 & Hm5 & Hi5 & Hb5). rewrite E5 in Est. cbn beta iota in Est. rewrite run_goto in Est.
  assert ((Z.land (cmf / 16 + 16 * flg) 0x200 =? 0) = true) as Edict.
  { apply Z.eqb_eq. change 0x200 with (Z.shiftl (Z.ones 1) 9). apply Z.bits_inj'. intros j Hj. rewrite Z.land_spec, Z.shiftl_spec, Z.bits_0 by lia.
    destruct (Z.ltb_spec j 9); [rewrite (Z.testbit_neg_r _ (j - 9)) by lia; apply andb_false_r|]. rewrite Z.testbit_ones_nonneg by lia.
    destruct (Z.ltb_spec (j - 9) 1); [|apply andb_false_r]. rewrite andb_true_r. replace j with 9 by lia.
    rewrite (Z.testbit_eqb _ 9) by lia. apply Z.eqb_neq. change (2 ^ 9) with (16 * 32). rewrite <-Z.div_div by lia.
    replace ((cmf / 16 + 16 * flg) / 16) with flg by (symmetry; rewrite (Z.mul_comm 16), Z.div_add, Z.div_small by lia; lia). lia. }
  rewrite Edict in Est. rewrite (div_pow_add X) in Hi5 by lia. change (4 + 12) with 16 in Hi5.
  assert (X / 2 ^ 16 = le_value l) as EX2 by (rewrite EX, (Z.mul_comm (2 ^ 16)), Z.div_add, Z.div_small by lia; lia). rewrite EX2 in Hi5.
  assert (n - 4 - 12 = 8 * Z.of_nat (length l)) as En by (unfold n; cbn [length]; lia). rewrite En in Hi5.
  assert (f_state i5 = f_state i4) as Es5 by (destruct Hm5 as (_ & _ & -> & _); done).
  assert (f_strm i5 = set_s_adler 1 z) as Ez5.
  { destruct Hm5 as (_ & -> & _). unfold i4. cbn. destruct Hm3 as (_ & -> & _). cbn. by destruct Hm1 as (_ & -> & _). }
  assert (f_state i4 = set_i_check 1 (set_i_dmax (2 ^ (cmf / 16 + 8)) s2)) as Es4 by (unfold i4; cbn; by rewrite Es3).
  assert (shifted (started i) (set_f_strm z (set_f_state (f_state i) i5))) as Hsh.
  { destruct Hm1 as (A1 & A2 & A3 & A4 & A5 & A6 & A7 & A8 & A9), Hm3 as (B1 & B2 & B3 & B4'' & B5 & B6 & B7 & B8' & B9), Hm5 as (C1 & C2 & C3 & C4 & C5 & C6 & C7 & C8 & C9).
    unfold i4 in *. cbn in *. split_and!; cbn; try congruence; done || lia. }
  exists (set_f_state (set_i_mode TYPE (f_state i5)) i5). split; [by apply goes_step|]. split; [|split].
  - cbn. rewrite Es5, Es4. split; cbn; done.
  - cbn. by rewrite Ez5.
  - destruct Hsh as (M1 & _ & M3 & M4 & _ & M6 & M7 & M8). cbn in M1, M3, M4, M6, M7, M8. split; [|done].
    split; cbn; try done; rewrite ?M1, ?M3, ?M4, ?M6; fold ob ib; cbn; try (unfold oe, ob, ie, ib, z; lia).
    split; [done|by split|cbn; unfold oe, z; lia|by replace (oe - ob) with (s_avail_out (f_strm i)) by (unfold oe, z; lia)].
Qed.

Lemma adler_nil : Adler.adler [] = 1.
Proof. done. Qed.

Lemma adler_range l : 0 ≤ Adler.adler l < 2 ^ 32.
Proof. unfold Adler.adler, checksum. pose proof (reduce_range (exact_sums (1, 0) l)). unfold BASE in *. lia. Qed.

Section stream_end.
Context (m0 : mem) (ob oe ib ie : Z) (s0 : inflate_state) (z : z_stream).
Hypothesis Hnull : ob ≠ NULL.
Hypothesis Hwrap : i_wrap s0 = 1.
Hypothesis Hflags : i_flags s0 = 0.
Hypothesis Hcheck : i_check s0 = 1.

(** The checksum of the output. *)
Lemma run_UPDATE i O : out_is m0 ob oe (f_mem i) O → i_flags (f_state i) = 0 →
  UPDATE BYFOUR little NO_DIVIDE 1 ob (Z.of_nat (length O)) i = Ret (Adler.adler O) i.
Proof.
  intros [_ Hb _ _] Hf. unfold UPDATE. rewrite run_bind, run_the_state. cbn beta iota. rewrite Hf. change (0 =? 0) with true. cbn beta iota.
  unfold adler, inmem, zoom. change 1 with (checksum (1, 0)) at 1.
  rewrite (run_adler32 64 ltac:(lia) NO_DIVIDE (f_mem i) ob O (1, 0) Hb Hnull) by (unfold BASE; cbn; lia). by destruct i.
Qed.

Definition verdict (i : inflating) (O : list Z) (v : Z) : Prop :=
  if decide (v = Adler.adler O) then i_mode (f_state i) = DONE ∧ s_msg (f_strm i) = s_msg z
  else i_mode (f_state i) = BAD ∧ s_msg (f_strm i) = Some incorrect_data_check.

Lemma turn_CHECK i O X n v : between m0 ob oe ib ie s0 z i O X n → i_mode (f_state i) = CHECK → r_bits (f_regs i) = 0 →
  32 ≤ n → 0 ≤ v < 2 ^ 32 → X mod 2 ^ 32 = le_value (be_bytes v) →
  ∃ i', goes i i' ∧ verdict i' O v ∧ out_is m0 ob oe (f_mem i') O ∧ r_put (f_regs i') = r_put (f_regs i) ∧ r_left (f_regs i') = r_left (f_regs i) ∧
    r_out (f_regs i') = r_left (f_regs i) ∧ i_wsize (f_state i') = i_wsize s0 ∧
    r_next (f_regs i') = r_next (f_regs i) + 4 ∧ r_have (f_regs i') = r_have (f_regs i) - 4.
Proof.
  intros Hb Hmode Hbits Hn Hv HX. pose proof Hb as [Hd Hset]. pose proof Hd as [D1 D2 D3 D4 D5 D6 D7 D8 D9 D10].
  assert (i_wrap (f_state i) = 1 ∧ i_flags (f_state i) = 0 ∧ i_check (f_state i) = 1 ∧ i_wsize (f_state i) = i_wsize s0) as (F1 & F2 & F3 & F4).
  { split_and!; [rewrite <-Hwrap; apply (f_equal i_wrap Hset)|rewrite <-Hflags; apply (f_equal i_flags Hset)|rewrite <-Hcheck; apply (f_equal i_check Hset)|apply (f_equal i_wsize Hset)]. }
  assert (step i = case_CHECK BYFOUR little NO_DIVIDE i) as Est by (unfold Inflate.step; rewrite run_bind, run_the_state; cbn beta iota; by rewrite Hmode).
  unfold case_CHECK in Est. rewrite run_bind, run_the_state in Est. cbn beta iota in Est. rewrite F1 in Est. change (1 =? 0) with false in Est. cbn beta iota in Est.
  match type of Est with _ = NEEDBITS 32 ?K _ => destruct (run_NEEDBITS 32 K i X n D5 ltac:(lia) ltac:(lia)) as (i1 & E1 & Hi1 & Hm1 & Hn1 & Hb1) end.
  rewrite E1 in Est. clear E1. pose proof Hm1 as (M1 & M2 & M3 & M4 & M5 & M6 & M7 & M8 & M9).
  assert (r_bits (f_regs i1) = 32) as Hb32 by (destruct D5 as (l0 & _ & _ & En0), Hi1 as (l1 & _ & _ & En1); lia).
  destruct (input_hold i1 _ _ Hi1) as [Hh1 _]. rewrite Hb32, HX in Hh1.
  rewrite run_bind, run_the_regs in Est. cbn beta iota zeta in Est. rewrite M7, M5, D4, D3, D2 in Est. replace (oe - ob - (oe - (ob + Z.of_nat (length O)))) with (Z.of_nat (length O)) in Est by lia.
  rewrite run_bind in Est. unfold on_strm at 1 in Est. rewrite run_modify in Est. cbn beta iota in Est. rewrite run_bind, run_on_state in Est. cbn beta iota in Est.
  match type of Est with _ = (?A ≫= _) ?j => set (A0 := A) in Est; set (i2 := j) in Est end.
  assert (∃ i3, A0 i2 = Ret tt i3 ∧ i_check (f_state i3) = Adler.adler O ∧ f_mem i3 = f_mem i ∧ f_regs i3 = f_regs i1 ∧ i_flags (f_state i3) = 0 ∧ i_wrap (f_state i3) = 1 ∧
    i_wsize (f_state i3) = i_wsize s0 ∧ s_msg (f_strm i3) = s_msg (f_strm i)) as (i3 & E3 & C1 & C2 & C3 & C4 & C5 & C6 & C7).
  { unfold A0. destruct (Z.eqb_spec (Z.of_nat (length O)) 0) as [Hz|Hz].
    - exists i2. destruct O; [|done]. cbn. rewrite M1, M2, M3. split_and!; done.
    - rewrite run_bind, run_the_state. cbn beta iota. rewrite run_bind.
      change (i_check (f_state i2)) with (i_check (f_state i1)). rewrite M3, F3, M4, D2. replace (ob + Z.of_nat (length O) - Z.of_nat (length O)) with ob by lia.
      rewrite (run_UPDATE i2 O); [|change (f_mem i2) with (f_mem i1); by rewrite M1|change (i_flags (f_state i2)) with (i_flags (f_state i1)); by rewrite M3].
      cbn beta iota. rewrite run_bind, run_on_state. cbn beta iota. unfold on_strm. rewrite run_modify. eexists. split; [done|]. cbn. rewrite M1, M2, M3. by split_and!. }
  rewrite run_bind, E3 in Est. cbn beta iota in Est. rewrite run_bind in Est. unfold on_regs in Est. rewrite run_modify in Est. cbn beta iota in Est.
  rewrite run_bind, run_the_state in Est. cbn beta iota in Est.
  match type of Est with _ = _ ?j => set (i4 := j) in Est end. change (f_state i4) with (f_state i3) in Est. rewrite C4, C1, Hh1, REVERSE_be in Est by done. change (0 =? 0) with true in Est. cbn beta iota in Est.
  assert (f_regs i4 = set_r_out (oe - (ob + Z.of_nat (length O))) (f_regs i1)) as R4 by (unfold i4; cbn; by rewrite C3).
  assert (f_mem i4 = f_mem i ∧ f_state i4 = f_state i3 ∧ f_strm i4 = f_strm i3) as (Em4 & Es4 & Ez4) by done. clearbody i4.
  assert (r_next (f_regs i1) = r_next (f_regs i) + 4 ∧ r_have (f_regs i1) = r_have (f_regs i) - 4) as [N1 N2].
  { destruct D5 as (l0 & _ & Eh0 & En0), Hi1 as (l1 & _ & Eh1 & En1). lia. }
  unfold verdict. case_decide as Hvd.
  - rewrite (proj2 (Z.eqb_eq _ _)) in Est by done. cbn [negb] in Est. cbn beta iota in Est. rewrite run_bind in Est. unfold INITBITS, on_regs in Est. rewrite run_modify in Est. cbn beta iota in Est.
    rewrite run_goto in Est. match type of Est with _ = Ret _ ?j => set (i5 := j) in Est end.
    assert (step i5 = Ret Again (set_f_state (set_i_mode DONE (f_state i5)) i5)) as E6.
    { unfold Inflate.step. rewrite run_bind, run_the_state. cbn beta iota. change (i_mode (f_state i5)) with LENGTH. unfold case_LENGTH. rewrite run_bind, run_the_state. cbn beta iota.
      change (i_wrap (f_state i5)) with (i_wrap (f_state i4)). change (i_flags (f_state i5)) with (i_flags (f_state i4)). by rewrite Es4, C5, C4. }
    exists (set_f_state (set_i_mode DONE (f_state i5)) i5). split; [transitivity i5; by apply goes_step|]. unfold i5. cbn. rewrite R4, Es4, Ez4, C6, C7, Em4. cbn.
    split; [split; [done|]|split_and!; try done; lia]. change (s_msg (frozen_strm (f_strm i)) = s_msg (frozen_strm z)). by rewrite D10.
  - rewrite (proj2 (Z.eqb_neq _ _)) in Est by done. cbn [negb] in Est. cbn beta iota in Est. unfold bad in Est. rewrite run_bind in Est. unfold on_strm in Est. rewrite run_modify in Est. cbn beta iota in Est.
    rewrite run_goto in Est. eexists. split; [by apply goes_step|]. cbn. rewrite R4, Es4, C6, Em4. cbn. split_and!; try done; lia.
Qed.
End stream_end.

(** Fields at the front of more input. *)
Lemma begins_more l l' fs : Forall is_byte l → Forall field_ok fs → width fs ≤ 8 * Z.of_nat (length l) → begins (le_value l) fs → begins (le_value (l ++ l')) fs.
Proof.
  intros Hl Hfs Hw H. unfold begins in *. pose proof (width_nonneg fs Hfs). rewrite le_value_app, <-(mod_mod_pow _ (width fs) (8 * Z.of_nat (length l))) by lia.
  rewrite (Z.mul_comm (2 ^ _)), Z_mod_plus_full, mod_mod_pow by lia. done.
Qed.
End zlib.

(** [inflate] on a stream in the zlib format. *)
Lemma run_zlib_stream (BYFOUR little NO_DIVIDE : bool) (hbuf : Z) (zalloc : Z → Z → C mem Z) (flush : Z)
    (i : inflating) (cmf flg : Z) (l : list Z) (v : Z) (bs : list block) (O : list Z)
    (Hflush : flush ≠ Z_BLOCK) (Hfr : fresh 1 i (cmf :: flg :: l ++ be_bytes v)) (Hhead : header_ok (i_wbits (f_state i)) cmf flg)
    (Hbs : Forall block_ok bs) (Hne : bs ≠ []) (Hbits : begins (le_value l) (stream_fields 0 bs))
    (Hlen : Z.of_nat (length l) = (width (stream_fields 0 bs) + 7) / 8) (Hv : 0 ≤ v < 2 ^ 32)
    (Htext : stream_text [] [] bs = Some O) (Hspace : Z.of_nat (length O) ≤ s_avail_out (f_strm i)) :
  ∃ k, ∀ fuel, (k ≤ fuel)%nat → ∃ i',
    inflate BYFOUR little NO_DIVIDE hbuf zalloc flush fuel i = Ret (if decide (v = Adler.adler O) then Z_STREAM_END else Z_DATA_ERROR) i' ∧
    s_msg (f_strm i') = (if decide (v = Adler.adler O) then s_msg (f_strm i) else Some incorrect_data_check) ∧
    bytes_at (f_mem i') (s_next_out (f_strm i)) O ∧
    s_avail_out (f_strm i') = s_avail_out (f_strm i) - Z.of_nat (length O) ∧ s_avail_in (f_strm i') = 0.
Proof.
  pose proof Hfr as [_ _ _ _ _ _ [_ Hnull] [Hin Ein] _ [Hs1 Hs2] Hap]. pose proof (bytes_at_is_byte _ _ _ Hin) as Hby. inversion Hby as [|? ? _ Hby1]; subst. inversion Hby1 as [|? ? _ Hby2]; subst.
  apply Forall_app in Hby2 as [Hl _]. set (w := width (stream_fields 0 bs)) in *. pose proof (stream_fields_ok bs Hbs 0) as Hfs. pose proof (width_nonneg _ Hfs) as Hw0. fold w in Hw0.
  assert (0 ≤ 8 * Z.of_nat (length l) - w < 8) as Hpad by (pose proof (Z.div_mod (w + 7) 8 ltac:(lia)); pose proof (Z.mod_pos_bound (w + 7) 8 ltac:(lia)); lia).
  set (ob := s_next_out (f_strm i)) in *. set (ib := s_next_in (f_strm i)) in *. set (oe := ob + s_avail_out (f_strm i)). set (ie := ib + s_avail_in (f_strm i)).
  destruct (turn_HEAD BYFOUR little NO_DIVIDE hbuf flush i cmf flg _ Hfr Hhead) as (i1 & G1 & [P1 P2 P3 P4 P5 P6 P7] & Hmsg & Hb1). fold ob ib oe ie in Hb1.
  assert (window_ok (f_mem i) ob oe (f_state i1) []) as Hwin by (split; [done|cbn; lia|constructor|done]).
  destruct (run_stream BYFOUR little NO_DIVIDE hbuf flush (f_mem i) ob oe ib ie (f_state i1) (f_strm i1) [] Hflush) with (bs := bs) (i := i1) (O := @nil Z) (X := le_value (l ++ be_bytes v))
    (n := 8 * Z.of_nat (length (l ++ be_bytes v))) (pos := 0) (fs := @nil field) (O' := O) as (i2 & G2 & Hb2 & Hm2 & Hl2); try done; try (cbn [length]; unfold oe, ie; lia).
  { by replace (ie - ib) with (s_avail_in (f_strm i)) by (unfold ie; lia); replace (oe - ob) with (s_avail_out (f_strm i)) by (unfold oe; lia). }
  { split; [by left|done]. }
  { rewrite app_nil_r. apply begins_more; [done|done|fold w; lia|done]. }
  { fold w. rewrite length_app. cbn [length be_bytes]. lia. }
  { rewrite Z.add_0_r, Z.mul_comm. apply Z.mod_mul. lia. }
  fold w in Hb2. destruct (turn_last BYFOUR little NO_DIVIDE hbuf flush (f_mem i) ob oe ib ie (f_state i1) (f_strm i1) [] Hflush i2 O _ _ Hb2 Hm2 Hl2) as (i3 & G3 & Hb3 & Hs3 & Hr3).
  assert ((8 * Z.of_nat (length (l ++ be_bytes v)) - w) mod 8 = 8 * Z.of_nat (length l) - w) as Emod.
  { rewrite length_app. cbn [length be_bytes]. replace (8 * Z.of_nat (length l + 4) - w) with (8 * Z.of_nat (length l) - w + 4 * 8) by lia. rewrite Z_mod_plus_full. apply Z.mod_small. lia. }
  rewrite Emod, (div_pow_add (le_value _)) in Hb3 by lia. replace (w + (8 * Z.of_nat (length l) - w)) with (8 * Z.of_nat (length l)) in Hb3 by lia.
  rewrite le_value_app, (Z.mul_comm (2 ^ _)), Z.div_add, (Z.div_small (le_value l)), Z.add_0_l in Hb3 by (pose proof (le_value_range l Hl); lia).
  replace (8 * Z.of_nat (length (l ++ be_bytes v)) - w - (8 * Z.of_nat (length l) - w)) with 32 in Hb3 by (rewrite length_app; cbn [length be_bytes]; lia).
  assert (Forall is_byte (be_bytes v)) as Hbe by (repeat constructor; apply Z.mod_pos_bound; lia).
  destruct (turn_CHECK BYFOUR little NO_DIVIDE hbuf flush (f_mem i) ob oe ib ie (f_state i1) (f_strm i1) Hnull P3 P4 P5 i3 O _ _ v Hb3 ltac:(by rewrite Hs3) Hr3 ltac:(lia) Hv)
    as (i4 & G4 & Hver & Hout & Q1 & Q2 & Q3 & Q4 & Q5 & Q6); [apply Z.mod_small; apply (le_value_range _ Hbe)|].
  assert (goes BYFOUR little NO_DIVIDE hbuf flush (started i) i4) as [k Hk] by (transitivity i1; [done|]; transitivity i2; [done|]; by transitivity i3).
  set (ret := if decide (v = Adler.adler O) then Z_STREAM_END else Z_DATA_ERROR).
  assert (Inflate.step BYFOUR little NO_DIVIDE hbuf flush i4 = Ret (Leave ret) i4 ∧ before_CHECK (i_mode (f_state i4)) = false ∧ s_msg (f_strm i4) = (if decide (v = Adler.adler O) then s_msg (f_strm i) else Some incorrect_data_check)) as (Eret & Hbc & Emsg).
  { unfold verdict in Hver. unfold Inflate.step, ret. rewrite run_bind, run_the_state. cbn beta iota. case_decide; destruct Hver as [-> ->]; by rewrite ?Hmsg. }
  exists (S k). intros fuel Hfuel. rewrite (run_inflate BYFOUR little NO_DIVIDE hbuf zalloc flush 1 fuel i _ Hfr). replace fuel with (k + S (fuel - S k))%nat by lia. rewrite run_bind, Hk.
  assert (Inflate.run BYFOUR little NO_DIVIDE hbuf flush (S (fuel - S k)) i4 = Ret (Leave ret) i4) as -> by (unfold Inflate.run; rewrite run_loop, run_bind, Eret; done).
  cbn beta iota. destruct (run_leave BYFOUR little NO_DIVIDE zalloc flush i4 ret) as (i5 & E5 & M1 & M2 & M3 & M4 & M5 & M6).
  { unfold ret. by case_decide. }
  { done. }
  { by rewrite Q4. }
  { right. by rewrite Q2. }
  exists i5. split; [done|]. rewrite M1, M3, M5, M6. split; [done|]. split; [by destruct Hout|]. destruct Hb3 as [[D1 D2 D3 D4 D5 D6 D7 D8 D9 D10] _].
  split; [rewrite Q2, D3, D2; unfold oe; lia|]. rewrite Q6. destruct D5 as (l5 & _ & Eh & En). rewrite Eh. lia.
Qed.

(** C5: given a stream in the zlib format without a preset dictionary, all of whose blocks
    are stored or have the fixed trees (a header it accepts, the bits of any such blocks,
    and four bytes), [inflate] writes the text of the
    blocks, and returns [Z_STREAM_END] if the four bytes are the Adler-32 checksum of that
    text and [Z_DATA_ERROR] with the message "incorrect data check" if they are not; in
    both cases it has read all of the stream. *)
Theorem zlib_stream_checked (BYFOUR little NO_DIVIDE : bool) (hbuf : Z) (zalloc : Z → Z → C mem Z) (flush : Z)
    (i : inflating) (cmf flg : Z) (l : list Z) (v : Z) (bs : list block) (O : list Z)
    (Hflush : flush ≠ Z_BLOCK) (Hfr : fresh 1 i (cmf :: flg :: l ++ be_bytes v)) (Hhead : header_ok (i_wbits (f_state i)) cmf flg)
    (Hbs : Forall block_ok bs) (Hne : bs ≠ []) (Hbits : begins (le_value l) (stream_fields 0 bs))
    (Hlen : Z.of_nat (length l) = (width (stream_fields 0 bs) + 7) / 8) (Hv : 0 ≤ v < 2 ^ 32)
    (Htext : stream_text [] [] bs = Some O) (Hspace : Z.of_nat (length O) ≤ s_avail_out (f_strm i)) :
  ∃ k, ∀ fuel, (k ≤ fuel)%nat → ∃ i',
    inflate BYFOUR little NO_DIVIDE hbuf zalloc flush fuel i = Ret (if decide (v = Adler.adler O) then Z_STREAM_END else Z_DATA_ERROR) i' ∧
    s_msg (f_strm i') = (if decide (v = Adler.adler O) then s_msg (f_strm i) else Some incorrect_data_check) ∧
    bytes_at (f_mem i') (s_next_out (f_strm i)) O ∧
    s_avail_out (f_strm i') = s_avail_out (f_strm i) - Z.of_nat (length O) ∧ s_avail_in (f_strm i') = 0.
Proof. by eapply run_zlib_stream. Qed.

(** The text [hi] in a stored block, with its checksum. *)
Definition example_input : list Z := 120 :: 156 :: [1; 2; 0; 253; 255; 104; 105] ++ be_bytes 20644050.
Definition example_inflating : inflating :=
  Inflating (write_bytes (write_bytes ∅ 100 example_input) 200 (replicate 10 0))
    (ZStream 100 13 0 200 10 0 None 0 0)
    (IState HEAD 0 1 0 0 32768 0 0 None 15 0 0 0 0 0 0 0 0 0 (InCodes 0) (InCodes 0) 0 0 0 0 0 0 0 (replicate 320 0) (replicate 288 0) ∅)
    (Regs 0 0 0 0 0 0 0 0).

Lemma zlib_stream_checked_witness :
  ∃ k, ∀ fuel, (k ≤ fuel)%nat → ∃ i',
    inflate false true false 0 (λ _ _, mret 0) 0 fuel example_inflating = Ret (if decide (20644050 = Adler.adler [104; 105]) then Z_STREAM_END else Z_DATA_ERROR) i' ∧
    s_msg (f_strm i') = (if decide (20644050 = Adler.adler [104; 105]) then s_msg (f_strm example_inflating) else Some incorrect_data_check) ∧
    bytes_at (f_mem i') (s_next_out (f_strm example_inflating)) [104; 105] ∧
    s_avail_out (f_strm i') = s_avail_out (f_strm example_inflating) - Z.of_nat (length [104; 105]) ∧ s_avail_in (f_strm i') = 0.
Proof.
  apply (zlib_stream_checked false true false 0 (λ _ _, mret 0) 0 example_inflating 120 156 [1; 2; 0; 253; 255; 104; 105] 20644050 [Stored [104; 105]] [104; 105]); [done|..].
  - split; try done.
    + split; [apply bytes_atb_spec; vm_compute; reflexivity|done].
    + apply (bytes_at_valid _ _ (replicate 10 0)), bytes_atb_spec. vm_compute. reflexivity.
    + left. cbn. lia.
  - repeat split; done.
  - repeat constructor; done.
  - done.
  - vm_compute. reflexivity.
  - vm_compute. reflexivity.
  - lia.
  - done.
  - cbn. lia.
Defined.
