(* ===== verification/Deflate.v ===== *)
(** * The compressor: [zlib/deflate.c], [zlib/deflate.h], [zlib/compress.c]

    [deflate] reads the input into a window of twice [w_size] bytes, finds in it, with the
    help of hash chains, strings that have occurred before, tallies literals and matches
    and has [trees.c] write them out block by block.  There is a loop for level 0
    ([deflate_stored]), one for levels 1 to 3 ([deflate_fast]) and one that looks one byte
    ahead before it takes a match, for levels 4 to 9 ([deflate_slow]).

    The input, the output, the window and the pending output are in the byte memory; the
    hash tables [head] and [prev] are lists.  What [deflateInit2_] sets once is a
    [geometry].  As configured: neither [FASTEST] nor [ASMV] nor [UNALIGNED_OK], with
    [GZIP].  The allocator is the caller's: the addresses it returns are arguments. *)

From stdpp Require Import base tactics numbers list gmap.
From S2P Require Import Prelude Memory Words MemFns Adler Crc TreesTables Trees Inflate.

Open Scope Z_scope.

Definition Z_NO_FLUSH : Z := 0.
Definition Z_PARTIAL_FLUSH : Z := 1.
Definition Z_FULL_FLUSH : Z := 3.
Definition Z_VERSION_ERROR : Z := -6.
Definition Z_FILTERED : Z := 1.
Definition Z_HUFFMAN_ONLY : Z := 2.
Definition Z_RLE : Z := 3.
Definition Z_DEFAULT_COMPRESSION : Z := -1.
Definition MAX_MEM_LEVEL : Z := 9.
Definition MIN_MATCH : Z := 3.
Definition MAX_MATCH : Z := 258.
Definition PRESET_DICT : Z := 0x20.
Definition OS_CODE : Z := 0x03.
Definition NIL : Z := 0.
Definition TOO_FAR : Z := 4096.
Definition MIN_LOOKAHEAD : Z := MAX_MATCH + MIN_MATCH + 1.
Definition INIT_STATE : Z := 42.
Definition EXTRA_STATE : Z := 69.
Definition NAME_STATE : Z := 73.
Definition COMMENT_STATE : Z := 91.
Definition HCRC_STATE : Z := 103.
Definition BUSY_STATE : Z := 113.
Definition FINISH_STATE : Z := 666.

Inductive block_state := need_more | block_done | finish_started | finish_done.

Inductive compress_func := Use_stored | Use_fast | Use_slow.

#[export] Instance compress_func_eq_dec : EqDecision compress_func.
Proof. solve_decision. Defined.

Record config := Config { good_length : Z; max_lazy : Z; nice_length : Z; max_chain : Z; func : compress_func }.

Definition configuration_table : list config :=
  [Config 0 0 0 0 Use_stored;
   Config 4 4 8 4 Use_fast; Config 4 5 16 8 Use_fast; Config 4 6 32 32 Use_fast;
   Config 4 4 16 16 Use_slow; Config 8 16 32 32 Use_slow; Config 8 16 128 128 Use_slow;
   Config 8 32 128 256 Use_slow; Config 32 128 258 1024 Use_slow; Config 32 258 258 4096 Use_slow].

(** What is set once, by [deflateInit2_]. *)
Record geometry := Geometry {
  k_window : Z; k_w_bits : Z; k_hash_bits : Z; k_pending_buf : Z; k_lit_bufsize : Z }.

(** The window and the hash chains: what the search for matches keeps. *)
Record finder := Finder {
  m_prev : list Z; m_head : list Z; m_ins_h : Z; m_block_start : Z; m_match_length : Z; m_prev_match : Z; m_match_available : Z; m_strstart : Z; m_match_start : Z; m_lookahead : Z; m_prev_length : Z }.


(** The parameters of the search and of the blocks; [max_insert_length] is [max_lazy_match]. *)
Record tuning := Tuning {
  t_max_chain_length : Z; t_max_lazy_match : Z; t_good_match : Z; t_nice_match : Z; t_level : Z; t_strategy : Z }.


(** The stream of the caller and its [internal_state]. *)
Record compressor := Compressor {
  c_strm : z_stream; c_status : Z; c_pending_out : Z; c_wrap : Z; c_gzhead : option gz_header; c_gzindex : Z; c_last_flush : Z; c_find : finder; c_tune : tuning; c_trees : deflate_state }.

Definition set_m_prev (v : list Z) (s : finder) : finder :=
  Finder v (m_head s) (m_ins_h s) (m_block_start s) (m_match_length s) (m_prev_match s) (m_match_available s) (m_strstart s) (m_match_start s) (m_lookahead s) (m_prev_length s).
Definition set_m_head (v : list Z) (s : finder) : finder :=
  Finder (m_prev s) v (m_ins_h s) (m_block_start s) (m_match_length s) (m_prev_match s) (m_match_available s) (m_strstart s) (m_match_start s) (m_lookahead s) (m_prev_length s).
Definition set_m_ins_h (v : Z) (s : finder) : finder :=
  Finder (m_prev s) (m_head s) v (m_block_start s) (m_match_length s) (m_prev_match s) (m_match_available s) (m_strstart s) (m_match_start s) (m_lookahead s) (m_prev_length s).
Definition set_m_block_start (v : Z) (s : finder) : finder :=
  Finder (m_prev s) (m_head s) (m_ins_h s) v (m_match_length s) (m_prev_match s) (m_match_available s) (m_strstart s) (m_match_start s) (m_lookahead s) (m_prev_length s).
Definition set_m_match_length (v : Z) (s : finder) : finder :=
  Finder (m_prev s) (m_head s) (m_ins_h s) (m_block_start s) v (m_prev_match s) (m_match_available s) (m_strstart s) (m_match_start s) (m_lookahead s) (m_prev_length s).
Definition set_m_prev_match (v : Z) (s : finder) : finder :=
  Finder (m_prev s) (m_head s) (m_ins_h s) (m_block_start s) (m_match_length s) v (m_match_available s) (m_strstart s) (m_match_start s) (m_lookahead s) (m_prev_length s).
Definition set_m_match_available (v : Z) (s : finder) : finder :=
  Finder (m_prev s) (m_head s) (m_ins_h s) (m_block_start s) (m_match_length s) (m_prev_match s) v (m_strstart s) (m_match_start s) (m_lookahead s) (m_prev_length s).
Definition set_m_strstart (v : Z) (s : finder) : finder :=
  Finder (m_prev s) (m_head s) (m_ins_h s) (m_block_start s) (m_match_length s) (m_prev_match s) (m_match_available s) v (m_match_start s) (m_lookahead s) (m_prev_length s).
Definition set_m_match_start (v : Z) (s : finder) : finder :=
  Finder (m_prev s) (m_head s) (m_ins_h s) (m_block_start s) (m_match_length s) (m_prev_match s) (m_match_available s) (m_strstart s) v (m_lookahead s) (m_prev_length s).
Definition set_m_lookahead (v : Z) (s : finder) : finder :=
  Finder (m_prev s) (m_head s) (m_ins_h s) (m_block_start s) (m_match_length s) (m_prev_match s) (m_match_available s) (m_strstart s) (m_match_start s) v (m_prev_length s).
Definition set_m_prev_length (v : Z) (s : finder) : finder :=
  Finder (m_prev s) (m_head s) (m_ins_h s) (m_block_start s) (m_match_length s) (m_prev_match s) (m_match_available s) (m_strstart s) (m_match_start s) (m_lookahead s) v.

Definition set_t_max_chain_length (v : Z) (s : tuning) : tuning :=
  Tuning v (t_max_lazy_match s) (t_good_match s) (t_nice_match s) (t_level s) (t_strategy s).
Definition set_t_max_lazy_match (v : Z) (s : tuning) : tuning :=
  Tuning (t_max_chain_length s) v (t_good_match s) (t_nice_match s) (t_level s) (t_strategy s).
Definition set_t_good_match (v : Z) (s : tuning) : tuning :=
  Tuning (t_max_chain_length s) (t_max_lazy_match s) v (t_nice_match s) (t_level s) (t_strategy s).
Definition set_t_nice_match (v : Z) (s : tuning) : tuning :=
  Tuning (t_max_chain_length s) (t_max_lazy_match s) (t_good_match s) v (t_level s) (t_strategy s).
Definition set_t_level (v : Z) (s : tuning) : tuning :=
  Tuning (t_max_chain_length s) (t_max_lazy_match s) (t_good_match s) (t_nice_match s) v (t_strategy s).
Definition set_t_strategy (v : Z) (s : tuning) : tuning :=
  Tuning (t_max_chain_length s) (t_max_lazy_match s) (t_good_match s) (t_nice_match s) (t_level s) v.

Definition set_c_strm (v : z_stream) (s : compressor) : compressor :=
  Compressor v (c_status s) (c_pending_out s) (c_wrap s) (c_gzhead s) (c_gzindex s) (c_last_flush s) (c_find s) (c_tune s) (c_trees s).
Definition set_c_status (v : Z) (s : compressor) : compressor :=
  Compressor (c_strm s) v (c_pending_out s) (c_wrap s) (c_gzhead s) (c_gzindex s) (c_last_flush s) (c_find s) (c_tune s) (c_trees s).
Definition set_c_pending_out (v : Z) (s : compressor) : compressor :=
  Compressor (c_strm s) (c_status s) v (c_wrap s) (c_gzhead s) (c_gzindex s) (c_last_flush s) (c_find s) (c_tune s) (c_trees s).
Definition set_c_wrap (v : Z) (s : compressor) : compressor :=
  Compressor (c_strm s) (c_status s) (c_pending_out s) v (c_gzhead s) (c_gzindex s) (c_last_flush s) (c_find s) (c_tune s) (c_trees s).
Definition set_c_gzhead (v : option gz_header) (s : compressor) : compressor :=
  Compressor (c_strm s) (c_status s) (c_pending_out s) (c_wrap s) v (c_gzindex s) (c_last_flush s) (c_find s) (c_tune s) (c_trees s).
Definition set_c_gzindex (v : Z) (s : compressor) : compressor :=
  Compressor (c_strm s) (c_status s) (c_pending_out s) (c_wrap s) (c_gzhead s) v (c_last_flush s) (c_find s) (c_tune s) (c_trees s).
Definition set_c_last_flush (v : Z) (s : compressor) : compressor :=
  Compressor (c_strm s) (c_status s) (c_pending_out s) (c_wrap s) (c_gzhead s) (c_gzindex s) v (c_find s) (c_tune s) (c_trees s).
Definition set_c_find (v : finder) (s : compressor) : compressor :=
  Compressor (c_strm s) (c_status s) (c_pending_out s) (c_wrap s) (c_gzhead s) (c_gzindex s) (c_last_flush s) v (c_tune s) (c_trees s).
Definition set_c_tune (v : tuning) (s : compressor) : compressor :=
  Compressor (c_strm s) (c_status s) (c_pending_out s) (c_wrap s) (c_gzhead s) (c_gzindex s) (c_last_flush s) (c_find s) v (c_trees s).
Definition set_c_trees (v : deflate_state) (s : compressor) : compressor :=
  Compressor (c_strm s) (c_status s) (c_pending_out s) (c_wrap s) (c_gzhead s) (c_gzindex s) (c_last_flush s) (c_find s) (c_tune s) v.

(** ** The parts of the state *)

Definition on_mem {A} (c : C mem A) : C compressor A :=
  zoom (λ s, w_mem (d_writer (c_trees s)))
    (λ m s, set_c_trees (set_writer (set_mem m (d_writer (c_trees s))) (c_trees s)) s) c.
Definition on_trees {A} (c : C deflate_state A) : C compressor A := zoom c_trees set_c_trees c.
Definition on_writer {A} (c : C writer A) : C compressor A := on_trees (writing c).
Definition finding : C compressor finder := s ← get; mret (c_find s).
Definition tuned : C compressor tuning := s ← get; mret (c_tune s).
Definition strm : C compressor z_stream := s ← get; mret (c_strm s).
Definition pending : C compressor Z := s ← get; mret (w_pending (d_writer (c_trees s))).
Definition adjust (f : finder → finder) : C compressor unit := modify (λ s, set_c_find (f (c_find s)) s).
Definition adjust_strm (f : z_stream → z_stream) : C compressor unit := modify (λ s, set_c_strm (f (c_strm s)) s).

Section deflate.
Context (BYFOUR little NO_DIVIDE : bool) (G : geometry).

Definition window : Z := k_window G.
Definition w_size : Z := 2 ^ k_w_bits G.
Definition w_mask : Z := w_size - 1.
Definition hash_size : Z := 2 ^ k_hash_bits G.
Definition hash_mask : Z := hash_size - 1.
Definition hash_shift : Z := (k_hash_bits G + MIN_MATCH - 1) / MIN_MATCH.
Definition window_size : Z := 2 * w_size.
Definition MAX_DIST : Z := w_size - MIN_LOOKAHEAD.
Definition pending_buf : Z := k_pending_buf G.
Definition pending_buf_size : Z := k_lit_bufsize G * (2 + 2).
Definition d_buf : Z := pending_buf + 2 * (k_lit_bufsize G / 2).
Definition l_buf : Z := pending_buf + (1 + 2) * k_lit_bufsize G.

Definition crc (check buf len : Z) : C compressor Z := on_mem (crc32 BYFOUR little check buf len).
Definition adler (check buf len : Z) : C compressor Z := on_mem (adler32 64 NO_DIVIDE check buf len).

(** [s->window[i]] *)
Definition window_at (i : Z) : C compressor Z := on_mem (load8 (window + i)).

(** ** The hash chains *)

Definition UPDATE_HASH (h c : Z) : Z := Z.land (Z.lxor (u32 (Z.shiftl h hash_shift)) c) hash_mask.

(** [INSERT_STRING(s, str, match_head)], which returns [match_head] *)
Definition INSERT_STRING (str : Z) : C compressor Z :=
  c ← window_at (str + (MIN_MATCH - 1));
  f ← finding;
  let ins_h := UPDATE_HASH (m_ins_h f) c in
  match_head ← elem (m_head f) ins_h;
  prev ← upd (m_prev f) (Z.land str w_mask) match_head;
  head ← upd (m_head f) ins_h (u16 str);
  adjust (λ f, set_m_prev prev (set_m_head head (set_m_ins_h ins_h f)));;
  mret match_head.

Definition CLEAR_HASH : C compressor unit := adjust (λ f, set_m_head (replicate (Z.to_nat hash_size) NIL) f).

(** The hash of the two bytes at [strstart]. *)
Definition restart_hash : C compressor unit :=
  f ← finding;
  a ← window_at (m_strstart f);
  b ← window_at (m_strstart f + 1);
  adjust (set_m_ins_h (UPDATE_HASH a b)).

(** ** Matches *)

(** [*++scan == *++match], [n] times while it holds; with the place [scan] has come to. *)
Fixpoint equal_bytes (n : nat) (scan match_ : Z) : C mem (bool * Z) :=
  match n with
  | O => mret (true, scan)
  | Datatypes.S n =>
      a ← load8 (scan + 1);
      b ← load8 (match_ + 1);
      if a =? b then equal_bytes n (scan + 1) (match_ + 1) else mret (false, scan + 1)
  end.

(** [do {} while (... && scan < strend)] *)
Definition compare_run (strend scan match_ : Z) : C mem Z :=
  loop (Datatypes.S (Z.to_nat (strend - scan))) (λ '(scan, match_),
    r ← equal_bytes 8 scan match_;
    let '(same, scan) := r in
    if same && (scan <? strend) then Next (scan, match_ + 8) else Break scan) (scan, match_).

(** The four tests before the comparison. *)
Definition promising (scan match_ best_len scan_end1 scan_end : Z) : C mem bool :=
  a ← load8 (match_ + best_len);
  if negb (a =? scan_end) then mret false else
  a ← load8 (match_ + best_len - 1);
  if negb (a =? scan_end1) then mret false else
  a ← load8 match_;
  b ← load8 scan;
  if negb (a =? b) then mret false else
  a ← load8 (match_ + 1);
  b ← load8 (scan + 1);
  mret (a =? b).

(** The length of the match and [match_start]. *)
Definition longest_match (f : finder) (t : tuning) (cur_match : Z) : C mem (Z * Z) :=
  let scan := window + m_strstart f in
  let best_len := m_prev_length f in
  let limit := if MAX_DIST <? m_strstart f then m_strstart f - MAX_DIST else NIL in
  let strend := window + m_strstart f + MAX_MATCH in
  scan_end1 ← load8 (scan + best_len - 1);
  scan_end ← load8 (scan + best_len);
  let chain_length :=
    if t_good_match t <=? m_prev_length f then Z.shiftr (t_max_chain_length t) 2 else t_max_chain_length t in
  let nice_match := if m_lookahead f <? u32 (t_nice_match t) then m_lookahead f else t_nice_match t in
  r ← loop (Datatypes.S (Z.to_nat (m_strstart f) + Z.to_nat chain_length))
    (λ '(cur_match, chain_length, best_len, match_start, scan_end1, scan_end),
      let follow best_len match_start scan_end1 scan_end :=
        cur_match ← elem (m_prev f) (Z.land cur_match w_mask);
        let chain_length := u32 (chain_length - 1) in
        if (limit <? cur_match) && negb (chain_length =? 0)
        then Next (cur_match, chain_length, best_len, match_start, scan_end1, scan_end)
        else Break (best_len, match_start) in
      let match_ := window + cur_match in
      worth ← promising scan match_ best_len scan_end1 scan_end;
      if negb worth then follow best_len match_start scan_end1 scan_end else
      stop ← compare_run strend (scan + 2) (match_ + 2);
      let len := MAX_MATCH - (strend - stop) in
      if best_len <? len then
        if nice_match <=? len then Break (len, cur_match) else
        scan_end1 ← load8 (scan + len - 1);
        scan_end ← load8 (scan + len);
        follow len cur_match scan_end1 scan_end
      else follow best_len match_start scan_end1 scan_end)
    (cur_match, chain_length, best_len, m_match_start f, scan_end1, scan_end);
  let '(best_len, match_start) := r in
  mret (if best_len <=? m_lookahead f then best_len else m_lookahead f, match_start).

Definition longest_match_fast (f : finder) (cur_match : Z) : C mem (Z * Z) :=
  let scan := window + m_strstart f in
  let strend := window + m_strstart f + MAX_MATCH in
  let match_ := window + cur_match in
  a ← load8 match_;
  b ← load8 scan;
  if negb (a =? b) then mret (MIN_MATCH - 1, m_match_start f) else
  a ← load8 (match_ + 1);
  b ← load8 (scan + 1);
  if negb (a =? b) then mret (MIN_MATCH - 1, m_match_start f) else
  stop ← compare_run strend (scan + 2) (match_ + 2);
  let len := MAX_MATCH - (strend - stop) in
  if len <? MIN_MATCH then mret (MIN_MATCH - 1, m_match_start f) else
  mret (if len <=? m_lookahead f then len else m_lookahead f, cur_match).

(** ** The window *)

Definition read_buf (buf size : Z) : C compressor Z :=
  z ← strm;
  let len := if size <? s_avail_in z then size else s_avail_in z in
  if len =? 0 then mret 0 else
  adjust_strm (set_s_avail_in (u32 (s_avail_in z - len)));;
  s ← get;
  (if c_wrap s =? 1 then
     check ← adler (s_adler z) (s_next_in z) len;
     adjust_strm (set_s_adler check)
   else if c_wrap s =? 2 then
     check ← crc (s_adler z) (s_next_in z) len;
     adjust_strm (set_s_adler check)
   else mret tt);;
  on_mem (memcpy buf (s_next_in z) len);;
  adjust_strm (λ z, set_s_next_in (s_next_in z + len) (set_s_total_in (u64 (s_total_in z + len)) z));;
  mret len.

(** An entry of a hash table, after the window has moved. *)
Definition slide_entry (m : Z) : Z := u16 (if w_size <=? m then m - w_size else NIL).

(** Move the upper half of the window to the lower one. *)
Definition slide : C compressor unit :=
  on_mem (memcpy window (window + w_size) w_size);;
  adjust (λ f,
    set_m_match_start (u32 (m_match_start f - w_size))
    (set_m_strstart (u32 (m_strstart f - w_size))
    (set_m_block_start (m_block_start f - w_size)
    (set_m_head (slide_entry <$> m_head f)
    (set_m_prev (slide_entry <$> m_prev f) f))))).

Definition fill_window : C compressor unit :=
  loop (Z.to_nat MIN_LOOKAHEAD) (λ _ : unit,
    f ← finding;
    let more := u32 (window_size - m_lookahead f - m_strstart f) in
    more ← (if w_size + MAX_DIST <=? m_strstart f then slide;; mret (u32 (more + w_size)) else mret more);
    z ← strm;
    if s_avail_in z =? 0 then Break tt else
    f ← finding;
    n ← read_buf (window + m_strstart f + m_lookahead f) more;
    adjust (λ f, set_m_lookahead (u32 (m_lookahead f + n)) f);;
    f ← finding;
    (if MIN_MATCH <=? m_lookahead f then restart_hash else mret tt);;
    z ← strm;
    if (m_lookahead f <? MIN_LOOKAHEAD) && negb (s_avail_in z =? 0) then Next tt else Break tt) tt.

(** ** Symbols and blocks *)

Definition _tr_tally_lit (c : Z) : C deflate_state bool :=
  let cc := u8 c in
  s ← get;
  writing (wmem (store_le 2 (d_buf + 2 * last_lit s) 0));;
  writing (wmem (store8 (l_buf + last_lit s) cc));;
  l ← count_symbol (dyn_ltree s) cc;
  let lit := u32 (last_lit s + 1) in
  modify (λ s, set_symbols lit (matches s) (set_trees l (dyn_dtree s) (bl_tree s) s));;
  mret (lit =? k_lit_bufsize G - 1).

Definition _tr_tally_dist (distance length : Z) : C deflate_state bool :=
  let len := u8 length in
  let dist := u16 distance in
  s ← get;
  writing (wmem (store_le 2 (d_buf + 2 * last_lit s) dist));;
  writing (wmem (store8 (l_buf + last_lit s) len));;
  let dist := u16 (dist - 1) in
  code ← elem _length_code len;
  l ← count_symbol (dyn_ltree s) (code + LITERALS + 1);
  code ← d_code dist;
  d ← count_symbol (dyn_dtree s) code;
  let lit := u32 (last_lit s + 1) in
  modify (λ s, set_symbols lit (matches s) (set_trees l d (bl_tree s) s));;
  mret (lit =? k_lit_bufsize G - 1).

Definition putShortMSB (b : Z) : C writer unit :=
  put_byte pending_buf (u8 (Z.shiftr b 8));;
  put_byte pending_buf (u8 (Z.land b 0xff)).

Definition flush_pending : C compressor unit :=
  z ← strm;
  p ← pending;
  let len := if s_avail_out z <? p then s_avail_out z else p in
  if len =? 0 then mret tt else
  s ← get;
  on_mem (memcpy (s_next_out z) (c_pending_out s) len);;
  adjust_strm (λ z, set_s_next_out (s_next_out z + len)
    (set_s_total_out (u64 (s_total_out z + len)) (set_s_avail_out (u32 (s_avail_out z - len)) z)));;
  modify (λ s, set_c_pending_out (c_pending_out s + len) s);;
  on_writer (modify (λ w, set_pending (u32 (w_pending w - len)) w));;
  p ← pending;
  if p =? 0 then modify (set_c_pending_out pending_buf) else mret tt.

Definition FLUSH_BLOCK_ONLY (eof : Z) : C compressor unit :=
  f ← finding;
  t ← tuned;
  on_trees (_tr_flush_block pending_buf d_buf l_buf (t_level t) (t_strategy t)
    (if 0 <=? m_block_start f then window + u32 (m_block_start f) else NULL)
    (u64 (m_strstart f - m_block_start f)) eof);;
  adjust (λ f, set_m_block_start (m_strstart f) f);;
  flush_pending.

(** [Some] is what the function that uses the macro returns. *)
Definition FLUSH_BLOCK (eof : Z) : C compressor (option block_state) :=
  FLUSH_BLOCK_ONLY eof;;
  z ← strm;
  mret (if s_avail_out z =? 0 then Some (if eof =? 0 then need_more else finish_started) else None).

(** The end of the three loops: [FLUSH_BLOCK(s, flush == Z_FINISH)] and the return. *)
Definition last_block (flush : Z) : C compressor block_state :=
  r ← FLUSH_BLOCK (cbool (flush =? Z_FINISH));
  mret (match r with Some b => b | None => if flush =? Z_FINISH then finish_done else block_done end).

(** After a loop: it has returned, or has come to the end of the input. *)
Definition finish_loop (flush : Z) (r : option block_state) : C compressor block_state :=
  match r with Some b => mret b | None => last_block flush end.

(** ** The three loops *)

(** Rounds enough for what there is to read: every one consumes something. *)
Definition input_left (s : compressor) : nat :=
  Datatypes.S (Z.to_nat (m_lookahead (c_find s)) + Z.to_nat (s_avail_in (c_strm s))).

Definition stored_round (flush max_block_size : Z) (_ : unit) : C compressor (unit + option block_state) :=
  f ← finding;
  r ← (if m_lookahead f <=? 1 then
         fill_window;;
         f ← finding;
         mret (if (m_lookahead f =? 0) && (flush =? Z_NO_FLUSH) then Some (Some need_more)
               else if m_lookahead f =? 0 then Some None else None)
       else mret None);
  match r with
  | Some r => Break r
  | None =>
      adjust (λ f, set_m_strstart (u32 (m_strstart f + m_lookahead f)) (set_m_lookahead 0 f));;
      f ← finding;
      let max_start := u64 (m_block_start f + max_block_size) in
      r ← (if (m_strstart f =? 0) || (max_start <=? m_strstart f) then
             adjust (λ f, set_m_lookahead (u32 (m_strstart f - max_start)) (set_m_strstart (u32 max_start) f));;
             FLUSH_BLOCK 0
           else mret None);
      match r with
      | Some b => Break (Some b)
      | None =>
          f ← finding;
          r ← (if MAX_DIST <=? u32 (m_strstart f - u32 (m_block_start f)) then FLUSH_BLOCK 0 else mret None);
          match r with Some b => Break (Some b) | None => Next tt end
      end
  end.

Definition deflate_stored (flush : Z) : C compressor block_state :=
  let max_block_size := if pending_buf_size - 5 <? 0xffff then pending_buf_size - 5 else 0xffff in
  s ← get;
  r ← loop (input_left s) (stored_round flush max_block_size) tt;
  finish_loop flush r.

(** Make sure that there is enough lookahead; [Some] is the way out of the loop. *)
Definition refill (flush : Z) : C compressor (option (option block_state)) :=
  f ← finding;
  if m_lookahead f <? MIN_LOOKAHEAD then
    fill_window;;
    f ← finding;
    mret (if (m_lookahead f <? MIN_LOOKAHEAD) && (flush =? Z_NO_FLUSH) then Some (Some need_more)
          else if m_lookahead f =? 0 then Some None else None)
  else mret None.

(** Insert the string at [strstart], if there is one; the new [hash_head]. *)
Definition insert_here (hash_head : Z) : C compressor Z :=
  f ← finding;
  if MIN_MATCH <=? m_lookahead f then INSERT_STRING (m_strstart f) else mret hash_head.

(** Search with [longest_match] or, for runs, with [longest_match_fast]. *)
Definition search (hash_head : Z) : C compressor unit :=
  f ← finding;
  t ← tuned;
  let found (r : Z * Z) := adjust (λ f, set_m_match_length (fst r) (set_m_match_start (snd r) f)) in
  if negb (t_strategy t =? Z_HUFFMAN_ONLY) && negb (t_strategy t =? Z_RLE) then
    r ← on_mem (longest_match f t hash_head); found r
  else if (t_strategy t =? Z_RLE) && (u32 (m_strstart f - hash_head) =? 1) then
    r ← on_mem (longest_match_fast f hash_head); found r
  else mret tt.

Definition within_reach (f : finder) (hash_head : Z) : bool :=
  negb (hash_head =? NIL) && (u32 (m_strstart f - hash_head) <=? MAX_DIST).

(** [do { strstart++; INSERT_STRING } while (--match_length != 0)] *)
Definition insert_match (hash_head : Z) : C compressor Z :=
  f ← finding;
  loop (Z.to_nat (m_match_length f)) (λ _ : Z,
    adjust (λ f, set_m_strstart (u32 (m_strstart f + 1)) f);;
    f ← finding;
    hash_head ← INSERT_STRING (m_strstart f);
    adjust (λ f, set_m_match_length (u32 (m_match_length f - 1)) f);;
    f ← finding;
    if m_match_length f =? 0 then Break hash_head else Next hash_head) hash_head.

(** Tally a match or a literal and go on behind it. *)
Definition fast_tally (hash_head : Z) : C compressor (bool * Z) :=
  f ← finding;
  t ← tuned;
  if MIN_MATCH <=? m_match_length f then
    bflush ← on_trees (_tr_tally_dist (u32 (m_strstart f - m_match_start f)) (m_match_length f - MIN_MATCH));
    adjust (λ f, set_m_lookahead (u32 (m_lookahead f - m_match_length f)) f);;
    f ← finding;
    if (m_match_length f <=? t_max_lazy_match t) && (MIN_MATCH <=? m_lookahead f) then
      adjust (λ f, set_m_match_length (u32 (m_match_length f - 1)) f);;
      hash_head ← insert_match hash_head;
      adjust (λ f, set_m_strstart (u32 (m_strstart f + 1)) f);;
      mret (bflush, hash_head)
    else
      adjust (λ f, set_m_strstart (u32 (m_strstart f + m_match_length f)) (set_m_match_length 0 f));;
      restart_hash;;
      mret (bflush, hash_head)
  else
    c ← window_at (m_strstart f);
    bflush ← on_trees (_tr_tally_lit c);
    adjust (λ f, set_m_lookahead (u32 (m_lookahead f - 1)) (set_m_strstart (u32 (m_strstart f + 1)) f));;
    mret (bflush, hash_head).

(** [if (bflush) FLUSH_BLOCK(s, 0);] at the end of a round. *)
Definition flush_if_full (bflush : bool) (hash_head : Z) : C compressor (Z + option block_state) :=
  r ← (if bflush then FLUSH_BLOCK 0 else mret None);
  match r with Some b => Break (Some b) | None => Next hash_head end.

Definition fast_round (flush hash_head : Z) : C compressor (Z + option block_state) :=
  r ← refill flush;
  match r with
  | Some r => Break r
  | None =>
      hash_head ← insert_here hash_head;
      f ← finding;
      (if within_reach f hash_head then search hash_head else mret tt);;
      r ← fast_tally hash_head;
      let '(bflush, hash_head) := r in
      flush_if_full bflush hash_head
  end.

Definition deflate_fast (flush : Z) : C compressor block_state :=
  s ← get;
  r ← loop (input_left s) (fast_round flush) NIL;
  finish_loop flush r.

(** The match at [strstart], if it is looked for; the one before becomes the previous one. *)
Definition lazy_search (hash_head : Z) : C compressor unit :=
  adjust (λ f, set_m_prev_length (m_match_length f) (set_m_prev_match (m_match_start f)
    (set_m_match_length (MIN_MATCH - 1) f)));;
  f ← finding;
  t ← tuned;
  if negb (hash_head =? NIL) && (m_prev_length f <? t_max_lazy_match t) && (u32 (m_strstart f - hash_head) <=? MAX_DIST) then
    search hash_head;;
    f ← finding;
    if (m_match_length f <=? 5) &&
       ((t_strategy t =? Z_FILTERED) ||
        ((m_match_length f =? MIN_MATCH) && (TOO_FAR <? u32 (m_strstart f - m_match_start f))))
    then adjust (set_m_match_length (MIN_MATCH - 1)) else mret tt
  else mret tt.

(** Insert the strings up to the end of the previous match. *)
Definition insert_prev (max_insert hash_head : Z) : C compressor Z :=
  f ← finding;
  loop (Z.to_nat (m_prev_length f)) (λ hash_head,
    adjust (λ f, set_m_strstart (u32 (m_strstart f + 1)) f);;
    f ← finding;
    hash_head ← (if m_strstart f <=? max_insert then INSERT_STRING (m_strstart f) else mret hash_head);
    adjust (λ f, set_m_prev_length (u32 (m_prev_length f - 1)) f);;
    f ← finding;
    if m_prev_length f =? 0 then Break hash_head else Next hash_head) hash_head.

Definition slow_match (hash_head : Z) : C compressor (Z + option block_state) :=
  f ← finding;
  let max_insert := u32 (m_strstart f + m_lookahead f - MIN_MATCH) in
  bflush ← on_trees (_tr_tally_dist (u32 (m_strstart f - 1 - m_prev_match f)) (m_prev_length f - MIN_MATCH));
  adjust (λ f, set_m_lookahead (u32 (m_lookahead f - (m_prev_length f - 1)))
    (set_m_prev_length (u32 (m_prev_length f - 2)) f));;
  hash_head ← insert_prev max_insert hash_head;
  adjust (λ f, set_m_match_available 0 (set_m_match_length (MIN_MATCH - 1)
    (set_m_strstart (u32 (m_strstart f + 1)) f)));;
  flush_if_full bflush hash_head.

Definition advance : finder → finder := λ f,
  set_m_strstart (u32 (m_strstart f + 1)) (set_m_lookahead (u32 (m_lookahead f - 1)) f).

Definition slow_round (flush hash_head : Z) : C compressor (Z + option block_state) :=
  r ← refill flush;
  match r with
  | Some r => Break r
  | None =>
      hash_head ← insert_here hash_head;
      lazy_search hash_head;;
      f ← finding;
      if (MIN_MATCH <=? m_prev_length f) && (m_match_length f <=? m_prev_length f) then slow_match hash_head
      else if negb (m_match_available f =? 0) then
        c ← window_at (m_strstart f - 1);
        bflush ← on_trees (_tr_tally_lit c);
        (if (bflush : bool) then FLUSH_BLOCK_ONLY 0 else mret tt);;
        adjust advance;;
        z ← strm;
        if s_avail_out z =? 0 then Break (Some need_more) else Next hash_head
      else
        adjust (λ f, advance (set_m_match_available 1 f));;
        Next hash_head
  end.

(** The literal that is left over. *)
Definition slow_leftover : C compressor unit :=
  f ← finding;
  if negb (m_match_available f =? 0) then
    c ← window_at (m_strstart f - 1);
    _ ← on_trees (_tr_tally_lit c);
    adjust (set_m_match_available 0)
  else mret tt.

Definition deflate_slow (flush : Z) : C compressor block_state :=
  s ← get;
  r ← loop (input_left s) (slow_round flush) NIL;
  match r with
  | Some b => mret b
  | None => slow_leftover;; last_block flush
  end.

(** ** The stream *)

(** [configuration_table[level]] *)
Definition level_config (level : Z) : C compressor config := elem configuration_table level.

Definition set_config (c : config) (t : tuning) : tuning :=
  set_t_max_lazy_match (max_lazy c) (set_t_good_match (good_length c)
    (set_t_nice_match (nice_length c) (set_t_max_chain_length (max_chain c) t))).

Definition lm_init : C compressor unit :=
  CLEAR_HASH;;
  t ← tuned;
  c ← level_config (t_level t);
  modify (λ s, set_c_tune (set_config c (c_tune s)) s);;
  adjust (λ f, set_m_strstart 0 (set_m_block_start 0 (set_m_lookahead 0 (set_m_match_length (MIN_MATCH - 1)
    (set_m_prev_length (MIN_MATCH - 1) (set_m_match_available 0 (set_m_ins_h 0 f))))))).

Definition deflateReset : C compressor Z :=
  adjust_strm (λ z, set_s_total_in 0 (set_s_total_out 0 (set_s_msg None z)));;
  on_trees (modify (set_type Z_UNKNOWN));;
  on_writer (modify (set_pending 0));;
  modify (set_c_pending_out pending_buf);;
  s ← get;
  (if c_wrap s <? 0 then modify (λ s, set_c_wrap (- c_wrap s) s) else mret tt);;
  s ← get;
  modify (set_c_status (if c_wrap s =? 0 then BUSY_STATE else INIT_STATE));;
  check ← (if c_wrap s =? 2 then crc 0 NULL 0 else adler 0 NULL 0);
  adjust_strm (set_s_adler check);;
  modify (set_c_last_flush Z_NO_FLUSH);;
  on_trees _tr_init;;
  lm_init;;
  mret Z_OK.

Definition deflateSetDictionary (dictionary dictLength : Z) : C compressor Z :=
  s ← get;
  if (dictionary =? NULL) || (c_wrap s =? 2) || ((c_wrap s =? 1) && negb (c_status s =? INIT_STATE)) then mret Z_STREAM_ERROR else
  (if c_wrap s =? 0 then mret tt else
   check ← adler (s_adler (c_strm s)) dictionary dictLength;
   adjust_strm (set_s_adler check));;
  if dictLength <? MIN_MATCH then mret Z_OK else
  let length := if MAX_DIST <? dictLength then MAX_DIST else dictLength in
  let dictionary := dictionary + (dictLength - length) in
  on_mem (memcpy window dictionary length);;
  adjust (λ f, set_m_strstart length (set_m_block_start length f));;
  a ← window_at 0;
  b ← window_at 1;
  adjust (set_m_ins_h (UPDATE_HASH a b));;
  loop (Datatypes.S (Z.to_nat length)) (λ n,
    if n <=? length - MIN_MATCH then _ ← INSERT_STRING n; Next (n + 1) else Break tt) 0;;
  mret Z_OK.

Definition deflateSetHeader (head : option gz_header) : C compressor Z :=
  s ← get;
  if negb (c_wrap s =? 2) then mret Z_STREAM_ERROR else
  modify (set_c_gzhead head);;
  mret Z_OK.

Definition deflatePrime (bits value : Z) : C compressor Z :=
  on_writer (modify (set_bits (u16 (Z.land value (Z.shiftl 1 bits - 1))) bits));;
  mret Z_OK.

Definition deflateTune (good_length max_lazy nice_length max_chain : Z) : C compressor Z :=
  modify (λ s, set_c_tune (set_t_good_match (u32 good_length) (set_t_max_lazy_match (u32 max_lazy)
    (set_t_nice_match nice_length (set_t_max_chain_length (u32 max_chain) (c_tune s))))) s);;
  mret Z_OK.

Definition compressBound (sourceLen : Z) : Z :=
  u64 (sourceLen + Z.shiftr sourceLen 12 + Z.shiftr sourceLen 14 + 11).

Definition deflateBound (sourceLen : Z) : Z :=
  let destLen := u64 (sourceLen + Z.shiftr (u64 (sourceLen + 7)) 3 + Z.shiftr (u64 (sourceLen + 63)) 6 + 11) in
  if negb (k_w_bits G =? 15) || negb (k_hash_bits G =? 8 + 7) then destLen else compressBound sourceLen.

(** ** Headers *)

Definition put (c : Z) : C compressor unit := on_writer (put_byte pending_buf c).

(** The flags of a gzip header for the level. *)
Definition xflags (t : tuning) : Z :=
  if t_level t =? 9 then 2 else if (Z_HUFFMAN_ONLY <=? t_strategy t) || (t_level t <? 2) then 4 else 0.

Definition null (p : Z) (n : Z) : Z := if p =? NULL then 0 else n.

Definition gzip_header : C compressor unit :=
  check ← crc 0 NULL 0;
  adjust_strm (set_s_adler check);;
  put 31;; put 139;; put 8;;
  s ← get;
  match c_gzhead s with
  | None =>
      put 0;; put 0;; put 0;; put 0;; put 0;;
      put (xflags (c_tune s));;
      put OS_CODE;;
      modify (set_c_status BUSY_STATE)
  | Some h =>
      put (null (g_text h) 1 + null (g_hcrc h) 2 + null (g_extra h) 4 + null (g_name h) 8 + null (g_comment h) 16);;
      put (u8 (Z.land (g_time h) 0xff));;
      put (u8 (Z.land (Z.shiftr (g_time h) 8) 0xff));;
      put (u8 (Z.land (Z.shiftr (g_time h) 16) 0xff));;
      put (u8 (Z.land (Z.shiftr (g_time h) 24) 0xff));;
      put (xflags (c_tune s));;
      put (Z.land (g_os h) 0xff);;
      (if g_extra h =? NULL then mret tt else
       put (Z.land (g_extra_len h) 0xff);; put (Z.land (Z.shiftr (g_extra_len h) 8) 0xff));;
      (if g_hcrc h =? 0 then mret tt else
       s ← get;
       p ← pending;
       check ← crc (s_adler (c_strm s)) pending_buf p;
       adjust_strm (set_s_adler check));;
      modify (λ s, set_c_status EXTRA_STATE (set_c_gzindex 0 s))
  end.

Definition level_flags (t : tuning) : Z :=
  if (Z_HUFFMAN_ONLY <=? t_strategy t) || (t_level t <? 2) then 0
  else if t_level t <? 6 then 1 else if t_level t =? 6 then 2 else 3.

(** The two bytes of a zlib header as a number. *)
Definition header_word (t : tuning) (strstart : Z) : Z :=
  let header := Z.shiftl (Z_DEFLATED + Z.shiftl (k_w_bits G - 8) 4) 8 in
  let header := Z.lor header (Z.shiftl (level_flags t) 6) in
  let header := if strstart =? 0 then header else Z.lor header PRESET_DICT in
  header + (31 - header mod 31).

Definition zlib_header : C compressor unit :=
  s ← get;
  let f := c_find s in
  modify (set_c_status BUSY_STATE);;
  on_writer (putShortMSB (header_word (c_tune s) (m_strstart f)));;
  (if m_strstart f =? 0 then mret tt else
   on_writer (putShortMSB (u32 (Z.shiftr (s_adler (c_strm s)) 16)));;
   on_writer (putShortMSB (u32 (Z.land (s_adler (c_strm s)) 0xffff))));;
  check ← adler 0 NULL 0;
  adjust_strm (set_s_adler check).

(** The bytes of the header from [beg] on into its checksum. *)
Definition header_crc (h : gz_header) (beg : Z) : C compressor unit :=
  p ← pending;
  if negb (g_hcrc h =? 0) && (beg <? p) then
    z ← strm;
    check ← crc (s_adler z) (pending_buf + beg) (u32 (p - beg));
    adjust_strm (set_s_adler check)
  else mret tt.

(** Room in the pending output: [None] if there is none, or the new [beg]. *)
Definition header_room (h : gz_header) (beg : Z) : C compressor (option Z) :=
  p ← pending;
  if p =? pending_buf_size then
    header_crc h beg;;
    flush_pending;;
    p ← pending;
    mret (if p =? pending_buf_size then None else Some p)
  else mret (Some beg).

Definition gzip_extra (h : gz_header) : C compressor unit :=
  if g_extra h =? NULL then modify (set_c_status NAME_STATE) else
  beg ← pending;
  beg ← loop (Datatypes.S (Z.to_nat (Z.land (g_extra_len h) 0xffff))) (λ beg,
    s ← get;
    if c_gzindex s <? Z.land (g_extra_len h) 0xffff then
      r ← header_room h beg;
      match r with
      | None => p ← pending; Break p
      | Some beg =>
          c ← on_mem (load8 (g_extra h + c_gzindex s));
          put c;;
          modify (λ s, set_c_gzindex (u32 (c_gzindex s + 1)) s);;
          Next beg
      end
    else Break beg) beg;
  header_crc h beg;;
  s ← get;
  if c_gzindex s =? g_extra_len h then modify (λ s, set_c_status NAME_STATE (set_c_gzindex 0 s)) else mret tt.

(** The bytes of a string and its NUL; whether that has been put. *)
Definition gzip_string (h : gz_header) (text : Z) : C compressor bool :=
  beg ← pending;
  s ← get;
  r ← loop (Datatypes.S (size (w_mem (d_writer (c_trees s))))) (λ beg,
    r ← header_room h beg;
    match r with
    | None => p ← pending; Break (p, 1)
    | Some beg =>
        s ← get;
        val ← on_mem (load8 (text + c_gzindex s));
        modify (λ s, set_c_gzindex (u32 (c_gzindex s + 1)) s);;
        put val;;
        if val =? 0 then Break (beg, val) else Next beg
    end) beg;
  let '(beg, val) := r in
  header_crc h beg;;
  mret (val =? 0).

Definition gzip_name (h : gz_header) : C compressor unit :=
  if g_name h =? NULL then modify (set_c_status COMMENT_STATE) else
  over ← gzip_string h (g_name h);
  if (over : bool) then modify (λ s, set_c_status COMMENT_STATE (set_c_gzindex 0 s)) else mret tt.

Definition gzip_comment (h : gz_header) : C compressor unit :=
  if g_comment h =? NULL then modify (set_c_status HCRC_STATE) else
  over ← gzip_string h (g_comment h);
  if (over : bool) then modify (set_c_status HCRC_STATE) else mret tt.

Definition gzip_hcrc (h : gz_header) : C compressor unit :=
  if g_hcrc h =? 0 then modify (set_c_status BUSY_STATE) else
  p ← pending;
  (if pending_buf_size <? p + 2 then flush_pending else mret tt);;
  p ← pending;
  if p + 2 <=? pending_buf_size then
    z ← strm;
    put (u8 (Z.land (s_adler z) 0xff));;
    put (u8 (Z.land (Z.shiftr (s_adler z) 8) 0xff));;
    check ← crc 0 NULL 0;
    adjust_strm (set_s_adler check);;
    modify (set_c_status BUSY_STATE)
  else mret tt.

(** [if (s->status == status) ...] of a part of the gzip header; [gzhead] is not null then. *)
Definition in_status (status : Z) (part : gz_header → C compressor unit) : C compressor unit :=
  s ← get;
  if c_status s =? status then
    match c_gzhead s with Some h => part h | None => undef end
  else mret tt.

Definition write_header : C compressor unit :=
  s ← get;
  (if c_status s =? INIT_STATE then if c_wrap s =? 2 then gzip_header else zlib_header else mret tt);;
  in_status EXTRA_STATE gzip_extra;;
  in_status NAME_STATE gzip_name;;
  in_status COMMENT_STATE gzip_comment;;
  in_status HCRC_STATE gzip_hcrc.

(** ** One call *)

Definition ERR_RETURN (msg : message) (err : Z) : C compressor Z :=
  adjust_strm (set_s_msg (Some msg));; mret err.

Definition run_func (fn : compress_func) (flush : Z) : C compressor block_state :=
  match fn with
  | Use_stored => deflate_stored flush
  | Use_fast => deflate_fast flush
  | Use_slow => deflate_slow flush
  end.

(** The end of a block that is not the last: a marker for the flush that is asked for. *)
Definition flush_marker (flush : Z) : C compressor unit :=
  (if flush =? Z_PARTIAL_FLUSH then on_writer (_tr_align pending_buf)
   else
     on_writer (_tr_stored_block pending_buf NULL 0 0);;
     if flush =? Z_FULL_FLUSH then CLEAR_HASH else mret tt);;
  flush_pending.

Definition trailer : C compressor unit :=
  s ← get;
  let z := c_strm s in
  if c_wrap s =? 2 then
    put (u8 (Z.land (s_adler z) 0xff));;
    put (u8 (Z.land (Z.shiftr (s_adler z) 8) 0xff));;
    put (u8 (Z.land (Z.shiftr (s_adler z) 16) 0xff));;
    put (u8 (Z.land (Z.shiftr (s_adler z) 24) 0xff));;
    put (u8 (Z.land (s_total_in z) 0xff));;
    put (u8 (Z.land (Z.shiftr (s_total_in z) 8) 0xff));;
    put (u8 (Z.land (Z.shiftr (s_total_in z) 16) 0xff));;
    put (u8 (Z.land (Z.shiftr (s_total_in z) 24) 0xff))
  else
    on_writer (putShortMSB (u32 (Z.shiftr (s_adler z) 16)));;
    on_writer (putShortMSB (u32 (Z.land (s_adler z) 0xffff))).

(** The end of the stream, after the last block. *)
Definition end_stream : C compressor Z :=
  s ← get;
  if c_wrap s <=? 0 then mret Z_STREAM_END else
  trailer;;
  flush_pending;;
  s ← get;
  (if 0 <? c_wrap s then modify (λ s, set_c_wrap (- c_wrap s) s) else mret tt);;
  p ← pending;
  mret (if p =? 0 then Z_STREAM_END else Z_OK).

(** Compress; [Some] is what [deflate] returns, [None] if it goes on. *)
Definition run_block (flush : Z) : C compressor (option Z) :=
  s ← get;
  c ← level_config (t_level (c_tune s));
  bstate ← run_func (func c) flush;
  (match bstate with
   | finish_started | finish_done => modify (set_c_status FINISH_STATE)
   | _ => mret tt
   end);;
  z ← strm;
  let stalled := if s_avail_out z =? 0 then modify (set_c_last_flush (-1)) else mret tt in
  match bstate with
  | need_more | finish_started => stalled;; mret (Some Z_OK)
  | block_done =>
      flush_marker flush;;
      z ← strm;
      if s_avail_out z =? 0 then modify (set_c_last_flush (-1));; mret (Some Z_OK) else mret None
  | finish_done => mret None
  end.

Definition deflate (flush : Z) : C compressor Z :=
  if (Z_FINISH <? flush) || (flush <? 0) then mret Z_STREAM_ERROR else
  s ← get;
  let z := c_strm s in
  if (s_next_out z =? NULL) || ((s_next_in z =? NULL) && negb (s_avail_in z =? 0)) ||
     ((c_status s =? FINISH_STATE) && negb (flush =? Z_FINISH)) then ERR_RETURN stream_error Z_STREAM_ERROR else
  if s_avail_out z =? 0 then ERR_RETURN buffer_error Z_BUF_ERROR else
  let old_flush := c_last_flush s in
  modify (set_c_last_flush flush);;
  write_header;;
  p ← pending;
  let rest :=
    s ← get;
    if (c_status s =? FINISH_STATE) && negb (s_avail_in (c_strm s) =? 0) then ERR_RETURN buffer_error Z_BUF_ERROR else
    r ← (if negb (s_avail_in (c_strm s) =? 0) || negb (m_lookahead (c_find s) =? 0) ||
            (negb (flush =? Z_NO_FLUSH) && negb (c_status s =? FINISH_STATE)) then run_block flush else mret None);
    match r with
    | Some r => mret r
    | None => if negb (flush =? Z_FINISH) then mret Z_OK else end_stream
    end in
  if negb (p =? 0) then
    flush_pending;;
    z ← strm;
    if s_avail_out z =? 0 then modify (set_c_last_flush (-1));; mret Z_OK else rest
  else
    z ← strm;
    if (s_avail_in z =? 0) && (flush <=? old_flush) && negb (flush =? Z_FINISH) then ERR_RETURN buffer_error Z_BUF_ERROR
    else rest.

Definition deflateParams (level strategy : Z) : C compressor Z :=
  let level := if level =? Z_DEFAULT_COMPRESSION then 6 else level in
  if (level <? 0) || (9 <? level) || (strategy <? 0) || (Z_FIXED <? strategy) then mret Z_STREAM_ERROR else
  s ← get;
  old ← level_config (t_level (c_tune s));
  new ← level_config level;
  err ← (if negb (bool_decide (func old = func new)) && negb (s_total_in (c_strm s) =? 0)
         then deflate Z_PARTIAL_FLUSH else mret Z_OK);
  s ← get;
  (if negb (t_level (c_tune s) =? level)
   then modify (λ s, set_c_tune (set_config new (set_t_level level (c_tune s))) s) else mret tt);;
  modify (λ s, set_c_tune (set_t_strategy strategy (c_tune s)) s);;
  mret err.
End deflate.

(** ** Opening a stream *)

(** What the allocator returned, and what is in the tables, the trees and the rest of the
    state before anything is stored there. *)
Record allocation := Allocation {
  a_state : Z; a_window : Z; a_prev : Z; a_head : Z; a_overlay : Z;
  a_finder : finder; a_tuning : tuning; a_trees : deflate_state }.

(** The arguments of [deflateInit2_] after the defaults: [wrap], [windowBits]. *)
Definition wrap_of (windowBits : Z) : Z * Z :=
  if windowBits <? 0 then (0, - windowBits)
  else if 15 <? windowBits then (2, windowBits - 16)
  else (1, windowBits).

Definition init_args_ok (level method windowBits memLevel strategy : Z) : bool :=
  negb ((memLevel <? 1) || (MAX_MEM_LEVEL <? memLevel) || negb (method =? Z_DEFLATED) ||
        (windowBits <? 8) || (15 <? windowBits) || (level <? 0) || (9 <? level) ||
        (strategy <? 0) || (Z_FIXED <? strategy)).

(** The result and, if it is [Z_OK], the state; [compatible] is the test of the version and
    of the size of [z_stream].  Of a failed allocation only the result is modelled, not the
    message and the blocks [deflateEnd] gives back. *)
Definition deflateInit2_ (BYFOUR little NO_DIVIDE compatible : bool) (a : allocation) (z : z_stream)
    (level method windowBits memLevel strategy : Z) : option (Z * option (geometry * compressor)) :=
  if negb compatible then Some (Z_VERSION_ERROR, None) else
  let z := set_s_msg None z in
  let level := if level =? Z_DEFAULT_COMPRESSION then 6 else level in
  let '(wrap, windowBits) := wrap_of windowBits in
  if negb (init_args_ok level method windowBits memLevel strategy) then Some (Z_STREAM_ERROR, None) else
  let windowBits := if windowBits =? 8 then 9 else windowBits in
  if a_state a =? NULL then Some (Z_MEM_ERROR, None) else
  if (a_window a =? NULL) || (a_prev a =? NULL) || (a_head a =? NULL) || (a_overlay a =? NULL) then Some (Z_MEM_ERROR, None) else
  let G := Geometry (a_window a) windowBits (memLevel + 7) (a_overlay a) (Z.shiftl 1 (memLevel + 6)) in
  let s := Compressor z 0 0 wrap None 0 0 (a_finder a) (set_t_level level (set_t_strategy strategy (a_tuning a))) (a_trees a) in
  match deflateReset BYFOUR little NO_DIVIDE G s with
  | Ret r s => Some (r, Some (G, s))
  | _ => None
  end.

Definition MAX_WBITS : Z := 15.
Definition DEF_MEM_LEVEL : Z := 8.
Definition Z_DEFAULT_STRATEGY : Z := 0.

Definition deflateInit_ (BYFOUR little NO_DIVIDE compatible : bool) (a : allocation) (z : z_stream) (level : Z) :
    option (Z * option (geometry * compressor)) :=
  deflateInit2_ BYFOUR little NO_DIVIDE compatible a z level Z_DEFLATED MAX_WBITS DEF_MEM_LEVEL Z_DEFAULT_STRATEGY.
