(* ===== verification/DeflateMatch.v ===== *)
(** * The search for matches

    [longest_match] follows a chain of earlier positions and compares the strings there with
    the current one, all but the third byte.  [run_longest_match]: it returns, and what it
    returns is the previous length with [match_start] as it was, or a longer match at a
    position of the chain where every byte but the third is known to agree. *)

From stdpp Require Import base tactics numbers list gmap.
From S2P Require Import Prelude Memory Words Trees Inflate Deflate.

Open Scope Z_scope.

(** ** Comparing *)

Lemma load_in m p n a : valid m p n → p ≤ a < p + n → ∃ b, m !! a = Some b ∧ load8 a m = Ret b m.
Proof.
  intros Hv Ha. destruct (Hv (a - p) ltac:(lia)) as [b Hb]. replace (p + (a - p)) with a in Hb by lia.
  exists b. split; [done|]. by apply run_load8.
Qed.

(** The two strings agree from [lo] up to [hi]. *)
Definition agree (m : mem) (p q lo hi : Z) : Prop := ∀ k, lo ≤ k < hi → m !! (p + k) = m !! (q + k).

Lemma agree_le m p q lo hi lo' hi' : agree m p q lo hi → lo ≤ lo' → hi' ≤ hi → agree m p q lo' hi'.
Proof. intros H H1 H2 k Hk. apply H. lia. Qed.

Section compare.
Context (m : mem) (wp wn : Z).
Hypothesis Hv : valid m wp wn.

(** The bytes from [p] on that are read lie in the window. *)
Definition inside (p n : Z) : Prop := wp ≤ p ∧ p + n ≤ wp + wn.

Lemma run_equal_bytes n : ∀ scan match_, inside scan (Z.of_nat n + 1) → inside match_ (Z.of_nat n + 1) →
  ∃ same stop, equal_bytes n scan match_ m = Ret (same, stop) m ∧ stop ≤ scan + Z.of_nat n ∧
    agree m scan match_ 1 (stop - scan) ∧
    (if same : bool then stop = scan + Z.of_nat n ∧ agree m scan match_ 1 (stop - scan + 1) else scan < stop).
Proof.
  unfold inside. induction n as [|n IH]; intros scan match_ Hs Hm; cbn [equal_bytes].
  { exists true, scan. split; [done|]. split; [lia|]. split; [intros k Hk; lia|]. split; [lia|intros k Hk; lia]. }
  destruct (load_in m wp wn (scan + 1) Hv ltac:(lia)) as (a & Ea & La). destruct (load_in m wp wn (match_ + 1) Hv ltac:(lia)) as (b & Eb & Lb).
  rewrite run_bind, La. cbn beta iota. rewrite run_bind, Lb. cbn beta iota. destruct (Z.eqb_spec a b) as [->|Hne].
  - destruct (IH (scan + 1) (match_ + 1) ltac:(lia) ltac:(lia)) as (same & stop & E & Hle & Hag & Hend). exists same, stop. split; [done|]. split; [lia|].
    assert (∀ hi, agree m (scan + 1) (match_ + 1) 1 hi → agree m scan match_ 1 (hi + 1)) as Hext.
    { intros hi H k Hk. destruct (decide (k = 1)) as [->|]; [congruence|]. specialize (H (k - 1) ltac:(lia)).
      replace (scan + 1 + (k - 1)) with (scan + k) in H by lia. by replace (match_ + 1 + (k - 1)) with (match_ + k) in H by lia. }
    split; [apply (agree_le _ _ _ 1 (stop - (scan + 1) + 1)); [by apply Hext|lia|lia]|].
    destruct same; [|lia]. split; [lia|]. destruct Hend as [_ Hend]. apply (agree_le _ _ _ 1 (stop - (scan + 1) + 1 + 1)); [by apply Hext|lia|lia].
  - exists false, (scan + 1). split; [done|]. split; [lia|]. split; [intros k Hk; lia|lia].
Qed.

Lemma run_compare_run n : ∀ strend scan match_, strend = scan + 8 * Z.of_nat (S n) →
  inside scan (strend - scan + 1) → inside match_ (strend - scan + 1) →
  ∃ stop, compare_run strend scan match_ m = Ret stop m ∧ scan < stop ≤ strend ∧ agree m scan match_ 1 (stop - scan).
Proof.
  intros strend scan match_ Hend Hs Hm.
  destruct (loop_total (S := mem) (R := Z)
    (λ k '(sc, ma) s, s = m ∧ (k ≤ n)%nat ∧ strend = sc + 8 * Z.of_nat (S k) ∧ ma - match_ = sc - scan ∧ agree m scan match_ 1 (sc - scan + 1))
    (λ stop s, s = m ∧ scan < stop ≤ strend ∧ agree m scan match_ 1 (stop - scan))
    (λ '(scan, match_), r ← equal_bytes 8 scan match_; let '(same, scan) := r in
      if same && (scan <? strend) then Next (scan, match_ + 8) else Break scan)) with (n := n)
    (fuel := S (Z.to_nat (strend - scan))) (st := (scan, match_)) (s := m) as (stop & s' & E & -> & Hr).
  - intros k [sc ma] s (-> & Hk & Esc & Ema & Hag). unfold inside in *.
    destruct (run_equal_bytes 8 sc ma) as (same & stop & E & Hle & H1 & H2); [unfold inside; lia..|]. rewrite run_bind, E. cbn beta iota.
    assert (∀ hi, agree m sc ma 1 hi → agree m scan match_ 1 (sc - scan + hi)) as Hext.
    { intros hi H j Hj. destruct (decide (j < sc - scan + 1)); [apply Hag; lia|]. specialize (H (j - (sc - scan)) ltac:(lia)).
      replace (sc + (j - (sc - scan))) with (scan + j) in H by lia. by replace (ma + (j - (sc - scan))) with (match_ + j) in H by lia. }
    destruct same; cbn [andb]; [destruct (Z.ltb_spec stop strend) as [Hlt|Hge]|].
    + eexists _, _. split; [done|]. destruct H2 as [-> H2]. destruct k as [|k]; [lia|]. exists k. split; [lia|]. split; [done|].
      split; [lia|]. split; [lia|]. split; [lia|]. apply (agree_le _ _ _ 1 (sc - scan + (sc + Z.of_nat 8 - sc + 1))); [by apply Hext|lia|lia].
    + eexists _, _. split; [done|]. split; [done|]. destruct H2 as [-> H2]. split; [lia|].
      apply (agree_le _ _ _ 1 (sc - scan + (sc + Z.of_nat 8 - sc))); [by apply Hext|lia|lia].
    + eexists _, _. split; [done|]. split; [done|]. split; [lia|]. apply (agree_le _ _ _ 1 (sc - scan + (stop - sc))); [by apply Hext|lia|lia].
  - lia.
  - split; [done|]. split; [lia|]. split; [lia|]. split; [lia|]. intros k Hk. lia.
  - exists stop. split; [done|]. done.
Qed.

(** The four tests, and what they show of the first two bytes. *)
Lemma run_promising scan match_ best_len e1 e : 1 ≤ best_len → inside scan 2 → inside match_ (best_len + 1) →
  ∃ b, promising scan match_ best_len e1 e m = Ret b m ∧ (b = true → agree m scan match_ 0 2).
Proof.
  intros Hb Hs Hm. unfold inside in *. unfold promising.
  destruct (load_in m wp wn (match_ + best_len) Hv ltac:(lia)) as (a1 & E1 & L1). rewrite run_bind, L1. cbn beta iota.
  destruct (negb (a1 =? e)); [by eexists|].
  destruct (load_in m wp wn (match_ + best_len - 1) Hv ltac:(lia)) as (a2 & E2 & L2). rewrite run_bind, L2. cbn beta iota.
  destruct (negb (a2 =? e1)); [by eexists|].
  destruct (load_in m wp wn match_ Hv ltac:(lia)) as (a3 & E3 & L3). rewrite run_bind, L3. cbn beta iota.
  destruct (load_in m wp wn scan Hv ltac:(lia)) as (b3 & F3 & M3). rewrite run_bind, M3. cbn beta iota.
  destruct (Z.eqb_spec a3 b3) as [->|]; cbn [negb]; [|by eexists].
  destruct (load_in m wp wn (match_ + 1) Hv ltac:(lia)) as (a4 & E4 & L4). rewrite run_bind, L4. cbn beta iota.
  destruct (load_in m wp wn (scan + 1) Hv ltac:(lia)) as (b4 & F4 & M4). rewrite run_bind, M4. cbn beta iota.
  eexists. split; [done|]. intros Heq%Z.eqb_eq k Hk. destruct (decide (k = 0)) as [->|]; [rewrite !Z.add_0_r; congruence|].
  replace k with 1 by lia. congruence.
Qed.
End compare.

(** All bytes of the two strings but the third. *)
Definition agree_but_third (m : mem) (p q n : Z) : Prop := agree m p q 0 2 ∧ agree m p q 3 n.

(** ** The geometry *)

Record geometry_ok (G : geometry) : Prop := {
  gk_w : 9 ≤ k_w_bits G ≤ 15;
  gk_hash : 8 ≤ k_hash_bits G ≤ 16;
  gk_lit : ∃ k, k_lit_bufsize G = 2 * k ∧ 1 ≤ k ≤ 2 ^ 14;
  gk_addr : 0 < k_window G ∧ 0 < k_pending_buf G }.

Section search.
Context (G : geometry).
Hypothesis HG : geometry_ok G.
Abbreviation window := (window G).
Abbreviation w_size := (w_size G).
Abbreviation w_mask := (w_mask G).
Abbreviation window_size := (window_size G).
Abbreviation MAX_DIST := (MAX_DIST G).

Lemma w_size_range : 512 ≤ w_size ≤ 32768.
Proof using HG.
  destruct HG as [Hw _ _ _]. unfold Deflate.w_size. change 512 with (2 ^ 9). change 32768 with (2 ^ 15).
  split; apply Z.pow_le_mono_r; lia.
Qed.

Lemma land_w_mask p : Z.land p w_mask = p mod w_size.
Proof using HG.
  destruct HG as [Hw _ _ _]. unfold Deflate.w_mask, Deflate.w_size. rewrite <-Z.land_ones by lia. f_equal. rewrite Z.ones_equiv. lia.
Qed.

(** A link of the chains. *)
Lemma run_prev {S} (prev : list Z) p (s : S) : Z.of_nat (length prev) = w_size →
  ∃ q, prev !! Z.to_nat (p mod w_size) = Some q ∧ elem prev (Z.land p w_mask) s = Ret q s.
Proof using HG.
  intros Hl. pose proof w_size_range. pose proof (Z.mod_pos_bound p w_size ltac:(lia)). rewrite land_w_mask.
  destruct (lookup_lt_is_Some_2 prev (Z.to_nat (p mod w_size))) as [q Hq]; [lia|]. exists q. split; [done|]. apply run_elem; [lia|done].
Qed.

(** *** The longest match *)

Definition limit (f : finder) : Z := if MAX_DIST <? m_strstart f then m_strstart f - MAX_DIST else NIL.

Section longest.
Context (m : mem) (f : finder) (P : Z → Prop).
Hypothesis Hv : valid m window window_size.
Hypothesis Hprev : Z.of_nat (length (m_prev f)) = w_size.
Hypothesis Hrange : ∀ p, P p → 0 ≤ p ≤ m_strstart f.
Hypothesis Hstart : 0 ≤ m_strstart f ∧ m_strstart f + MIN_LOOKAHEAD ≤ window_size.
Hypothesis Hlook : 1 ≤ m_lookahead f.
(** The candidates: the chain leads from one to the next. *)
Hypothesis Hchain : ∀ p q, P p → m_prev f !! Z.to_nat (p mod w_size) = Some q → limit f < q → P q.

(** A match that has been found, or none that is longer than the previous one. *)
Definition found (best_len match_start : Z) : Prop :=
  match_start = m_match_start f ∧ best_len = m_prev_length f ∨
  P match_start ∧ 0 ≤ match_start ≤ m_strstart f ∧ 3 ≤ best_len ∧
  agree_but_third m (window + m_strstart f) (window + match_start) best_len.

(** The variables of the loop, [n] more candidates being allowed, and its result. *)
Definition chasing (n : nat) (v : Z * Z * Z * Z * Z * Z) (s : mem) : Prop :=
  let '(cur, chain, best, start, _, _) := v in
  s = m ∧ Z.of_nat n = chain - 1 ∧ chain < 2 ^ 32 ∧ 0 ≤ cur ≤ m_strstart f ∧ P cur ∧ 1 ≤ best ≤ 258 ∧ found best start.
Definition caught (r : Z * Z) (s : mem) : Prop := s = m ∧ 1 ≤ fst r ≤ 258 ∧ found (fst r) (snd r).

(** Going on to the next candidate. *)
Lemma run_follow n cur chain best start e1 e : Z.of_nat n = chain - 1 → chain < 2 ^ 32 → P cur → 1 ≤ best ≤ 258 → found best start →
  ∃ r s', (cur_match ← elem (m_prev f) (Z.land cur w_mask);
    let chain_length := u32 (chain - 1) in
    if (limit f <? cur_match) && negb (chain_length =? 0)
    then Next (cur_match, chain_length, best, start, e1, e) else Break (best, start)) m = Ret r s' ∧
  match r with inl v => ∃ n', (n' < n)%nat ∧ chasing n' v s' | inr x => caught x s' end.
Proof using HG Hprev Hrange Hchain.
  intros Hn Hch HPc Hb Hf. destruct (run_prev (m_prev f) cur m Hprev) as (q & Hq & Eq). rewrite run_bind, Eq. cbn beta iota zeta.
  rewrite (wrap_small 32 (chain - 1)) by lia.
  destruct (Z.ltb_spec (limit f) q) as [Hlq|]; cbn [andb]; [destruct (Z.eqb_spec (chain - 1) 0) as [Hz|Hz]; cbn [negb]|].
  - by eexists _, _.
  - eexists _, _. split; [done|]. exists (pred n). split; [lia|]. split; [done|]. split; [lia|]. split; [lia|].
    split; [by apply Hrange, (Hchain cur q)|]. split; [by apply (Hchain cur)|]. done.
  - by eexists _, _.
Qed.

Lemma run_longest_match t cur_match : 0 ≤ cur_match ≤ m_strstart f → P cur_match → 1 ≤ m_prev_length f ≤ MAX_MATCH →
  4 ≤ t_max_chain_length t < 2 ^ 32 →
  ∃ len match_start, longest_match G f t cur_match m = Ret (len, match_start) m ∧ 1 ≤ len ≤ m_lookahead f ∧ len ≤ MAX_MATCH ∧
    (match_start = m_match_start f ∧ len ≤ m_prev_length f ∨
     P match_start ∧ 0 ≤ match_start ≤ m_strstart f ∧ agree_but_third m (window + m_strstart f) (window + match_start) len).
Proof using HG Hv Hprev Hrange Hstart Hlook Hchain.
  intros Hcur HPcur Hbest Hmax. unfold longest_match. cbn zeta. fold (limit f).
  assert (∀ p n, 0 ≤ p → p + n ≤ window_size → inside window window_size (window + p) n) as Hin by (unfold inside; lia).
  unfold MAX_MATCH, MIN_LOOKAHEAD, MAX_MATCH, MIN_MATCH in *.
  destruct (load_in m window window_size (window + m_strstart f + m_prev_length f - 1) Hv ltac:(lia)) as (e1 & _ & L1). rewrite run_bind, L1. cbn beta iota.
  destruct (load_in m window window_size (window + m_strstart f + m_prev_length f) Hv ltac:(lia)) as (e & _ & L). rewrite run_bind, L. cbn beta iota.
  set (chain := if t_good_match t <=? m_prev_length f then Z.shiftr (t_max_chain_length t) 2 else t_max_chain_length t).
  assert (1 ≤ chain < 2 ^ 32) as Hch.
  { unfold chain. destruct (_ <=? _); [|lia]. rewrite Z.shiftr_div_pow2 by lia. change (2 ^ 2) with 4.
    split; [apply Z.div_le_lower_bound; lia|apply Z.div_lt_upper_bound; lia]. }
  rewrite run_bind.
  match goal with |- context [loop ?fl ?bd ?s0 m] =>
    destruct (loop_total (S := mem) (R := Z * Z)
      chasing caught bd)
      with (n := Z.to_nat (chain - 1)) (fuel := fl) (st := s0) (s := m) as ([best ms] & s' & E & -> & Hb & Hf); cbn [fst snd] in *
  end.
  - intros n [[[[[cur ch] best] ms] g1] g] s (-> & Hn & Hch2 & Hc & HPc & Hb & Hf).
    destruct (run_promising m window window_size Hv (window + m_strstart f) (window + cur) best g1 g) as (b & Eb & Hag); [lia|apply Hin; lia..|].
    rewrite run_bind, Eb. cbn beta iota. destruct b; cbn [negb]; [|by apply run_follow].
    destruct (run_compare_run m window window_size Hv 31 (window + m_strstart f + 258) (window + m_strstart f + 2) (window + cur + 2)) as (stop & Es & Hs & Hag2); [lia|unfold inside; lia..|].
    rewrite run_bind, Es. cbn beta iota zeta. set (len := 258 - (window + m_strstart f + 258 - stop)).
    destruct (Z.ltb_spec best len) as [Hlt|Hge]; [|by apply run_follow].
    assert (found len cur) as Hnew.
    { right. split; [done|]. split; [done|]. unfold len. split; [lia|]. split; [by apply Hag|]. intros k Hk. specialize (Hag2 (k - 2) ltac:(lia)).
      replace (window + m_strstart f + 2 + (k - 2)) with (window + m_strstart f + k) in Hag2 by lia.
      by replace (window + cur + 2 + (k - 2)) with (window + cur + k) in Hag2 by lia. }
    match goal with |- context [if ?b then _ else _] => destruct b end.
    { eexists _, _. split; [done|]. split; [done|]. split; [cbn [fst]; unfold len in *; lia|done]. }
    destruct (load_in m window window_size (window + m_strstart f + len - 1) Hv ltac:(unfold len; lia)) as (x1 & _ & M1). rewrite run_bind, M1. cbn beta iota.
    destruct (load_in m window window_size (window + m_strstart f + len) Hv ltac:(unfold len; lia)) as (x & _ & M). rewrite run_bind, M. cbn beta iota.
    apply run_follow; try done. unfold len in *; lia.
  - lia.
  - split; [done|]. split; [lia|]. split; [lia|]. split; [done|]. split; [done|]. split; [lia|]. by left.
  - rewrite E. cbn beta iota. eexists _, ms. split; [done|].
    assert ((if best <=? m_lookahead f then best else m_lookahead f) ≤ best ∧ 1 ≤ (if best <=? m_lookahead f then best else m_lookahead f) ≤ m_lookahead f) as [Hle Hr]
      by (destruct (Z.leb_spec best (m_lookahead f)); lia).
    split; [done|]. split; [lia|]. destruct Hf as [[-> ->]|(HP & Hms & _ & H1 & H2)]; [left; split; [done|lia]|]. right.
    split; [done|]. split; [done|]. split; [done|]. by apply (agree_le _ _ _ 3 best).
Qed.

Lemma run_longest_match_fast cur_match : 0 ≤ cur_match ≤ m_strstart f → P cur_match →
  ∃ len match_start, longest_match_fast G f cur_match m = Ret (len, match_start) m ∧ 1 ≤ len ≤ MAX_MATCH ∧
    (match_start = m_match_start f ∧ len = 2 ∨
     len ≤ m_lookahead f ∧ P match_start ∧ 0 ≤ match_start ≤ m_strstart f ∧
     agree_but_third m (window + m_strstart f) (window + match_start) len).
Proof using HG Hv Hstart Hlook.
  intros Hcur HP. unfold longest_match_fast. cbn zeta. unfold MAX_MATCH, MIN_LOOKAHEAD, MAX_MATCH, MIN_MATCH in *.
  destruct (load_in m window window_size (window + cur_match) Hv ltac:(lia)) as (a & Ea & La). rewrite run_bind, La. cbn beta iota.
  destruct (load_in m window window_size (window + m_strstart f) Hv ltac:(lia)) as (b & Eb & Lb). rewrite run_bind, Lb. cbn beta iota.
  destruct (Z.eqb_spec a b) as [->|]; cbn [negb]; [|eexists _, _; split; [done|]; split; [lia|by left]].
  destruct (load_in m window window_size (window + cur_match + 1) Hv ltac:(lia)) as (a' & Ea' & La'). rewrite run_bind, La'. cbn beta iota.
  destruct (load_in m window window_size (window + m_strstart f + 1) Hv ltac:(lia)) as (b' & Eb' & Lb'). rewrite run_bind, Lb'. cbn beta iota.
  destruct (Z.eqb_spec a' b') as [->|]; cbn [negb]; [|eexists _, _; split; [done|]; split; [lia|by left]].
  destruct (run_compare_run m window window_size Hv 31 (window + m_strstart f + 258) (window + m_strstart f + 2) (window + cur_match + 2)) as (stop & Es & Hs & Hag2); [lia|unfold inside; lia..|].
  rewrite run_bind, Es. cbn beta iota zeta. set (len := 258 - (window + m_strstart f + 258 - stop)). rewrite (proj2 (Z.ltb_ge len 3)) by (unfold len; lia).
  eexists _, cur_match. split; [done|]. assert (3 ≤ len ≤ 258) by (unfold len; lia).
  split; [destruct (Z.leb_spec len (m_lookahead f)); lia|]. right. split; [destruct (Z.leb_spec len (m_lookahead f)); lia|]. split; [done|]. split; [done|]. split.
  - intros k Hk. destruct (decide (k = 0)) as [->|]; [rewrite !Z.add_0_r; congruence|]. replace k with 1 by lia. congruence.
  - intros k Hk. assert (k < len) by (destruct (Z.leb_spec len (m_lookahead f)); lia). specialize (Hag2 (k - 2) ltac:(unfold len in *; lia)).
    replace (window + m_strstart f + 2 + (k - 2)) with (window + m_strstart f + k) in Hag2 by lia.
    by replace (window + cur_match + 2 + (k - 2)) with (window + cur_match + k) in Hag2 by lia.
Qed.
End longest.
End search.
