(* ===== verification/DeflateChains.v ===== *)
(** * The hash chains

    The hash of three bytes can be rolled on byte by byte, and two strings with the same
    hash whose first two bytes agree also have the third byte in common: that is why
    [longest_match] need not compare it.  [chained]: from every head a chain of earlier
    positions descends, each with the hash of the head, as far as the window reaches; it is
    preserved when a string is inserted, when the text grows, and when the window slides. *)

From stdpp Require Import base tactics numbers list gmap.
From S2P Require Import Prelude Memory Words Trees Inflate Deflate DeflateMatch.

Open Scope Z_scope.

Section chains.
Context (G : geometry).
Hypothesis HG : geometry_ok G.
Abbreviation w_size := (w_size G).
Abbreviation hash_size := (hash_size G).
Abbreviation hash_shift := (hash_shift G).
Abbreviation UPDATE_HASH := (UPDATE_HASH G).

(** ** The hash *)

Definition hash3 (a b c : Z) : Z := UPDATE_HASH (UPDATE_HASH a b) c.

Lemma hash_shift_spec : 1 ≤ hash_shift ≤ 6 ∧ k_hash_bits G ≤ 3 * hash_shift.
Proof using HG.
  destruct HG as [_ Hh _ _]. unfold Deflate.hash_shift, MIN_MATCH.
  pose proof (Z.div_mod (k_hash_bits G + 3 - 1) 3 ltac:(lia)). pose proof (Z.mod_pos_bound (k_hash_bits G + 3 - 1) 3 ltac:(lia)). lia.
Qed.

Lemma hash_mask_ones : hash_mask G = Z.ones (k_hash_bits G).
Proof using HG. destruct HG as [_ Hh _ _]. unfold hash_mask, Deflate.hash_size. rewrite Z.ones_equiv. lia. Qed.

Lemma UPDATE_HASH_range h c : 0 ≤ UPDATE_HASH h c < hash_size.
Proof using HG.
  destruct HG as [_ Hh _ _]. unfold Deflate.UPDATE_HASH. rewrite hash_mask_ones, Z.land_ones by lia. apply Z.mod_pos_bound. unfold Deflate.hash_size. lia.
Qed.

Lemma hash_size_range : 256 ≤ hash_size ≤ 2 ^ 16.
Proof using HG.
  destruct HG as [_ Hh _ _]. unfold Deflate.hash_size. change 256 with (2 ^ 8). split; apply Z.pow_le_mono_r; lia.
Qed.

Lemma UPDATE_HASH_bit h c n : 0 ≤ h < 2 ^ 16 → 0 ≤ n →
  Z.testbit (UPDATE_HASH h c) n = (n <? k_hash_bits G) && xorb (Z.testbit h (n - hash_shift)) (Z.testbit c n).
Proof using HG.
  intros Hh Hn. destruct hash_shift_spec as [Hs _]. pose proof (gk_hash _ HG). unfold Deflate.UPDATE_HASH.
  assert (u32 (Z.shiftl h hash_shift) = Z.shiftl h hash_shift) as ->.
  { apply wrap_small. rewrite Z.shiftl_mul_pow2 by lia. pose proof (Z.pow_le_mono_r 2 hash_shift 6 ltac:(lia) ltac:(lia)).
    change (2 ^ 6) with 64 in *. pose proof (Z.pow_pos_nonneg 2 hash_shift ltac:(lia) ltac:(lia)).
    split; [lia|]. apply Z.le_lt_trans with (2 ^ 16 * 64); [|lia]. apply Z.mul_le_mono_nonneg; lia. }
  rewrite hash_mask_ones, Z.land_spec, Z.lxor_spec, Z.shiftl_spec, Z.testbit_ones_nonneg by lia.
  destruct (n <? k_hash_bits G); [by rewrite andb_true_r|by rewrite andb_false_r].
Qed.

Lemma hash3_bit a b c n : is_byte a → 0 ≤ n →
  Z.testbit (hash3 a b c) n =
  (n <? k_hash_bits G) && xorb ((n - hash_shift <? k_hash_bits G) &&
    xorb (Z.testbit a (n - 2 * hash_shift)) ((0 <=? n - hash_shift) && Z.testbit b (n - hash_shift))) (Z.testbit c n).
Proof using HG.
  intros Ha Hn. destruct hash_shift_spec as [Hs _]. pose proof (UPDATE_HASH_range a b). pose proof hash_size_range. unfold is_byte in Ha.
  unfold hash3. rewrite UPDATE_HASH_bit by lia. do 2 f_equal. destruct (Z.leb_spec 0 (n - hash_shift)).
  - rewrite UPDATE_HASH_bit by lia. by replace (n - hash_shift - hash_shift) with (n - 2 * hash_shift) by lia.
  - rewrite !Z.testbit_neg_r by lia. cbn [andb xorb]. by rewrite andb_false_r.
Qed.

Lemma hash_rolls a b c d : is_byte a → is_byte b → UPDATE_HASH (hash3 a b c) d = hash3 b c d.
Proof using HG.
  intros Ha Hb. destruct hash_shift_spec as [Hs Hbits]. pose proof (gk_hash _ HG). pose proof hash_size_range.
  assert (0 ≤ hash3 a b c < hash_size) by apply UPDATE_HASH_range.
  apply Z.bits_inj'. intros n Hn. rewrite UPDATE_HASH_bit by lia. rewrite (hash3_bit b c d n) by done.
  destruct (Z.ltb_spec n (k_hash_bits G)); [|done]. cbn [andb]. f_equal.
  destruct (Z.leb_spec 0 (n - hash_shift)).
  - rewrite hash3_bit by done. replace (n - hash_shift - hash_shift) with (n - 2 * hash_shift) by lia.
    rewrite (Z.testbit_neg_r a) by lia. rewrite xorb_false_l. rewrite !(proj2 (Z.ltb_lt _ (k_hash_bits G))) by lia.
    cbn [andb]. f_equal. destruct (Z.leb_spec 0 (n - 2 * hash_shift)); [done|]. by rewrite Z.testbit_neg_r by lia.
  - rewrite !Z.testbit_neg_r by lia. cbn [andb xorb]. by rewrite andb_false_r.
Qed.

Lemma hash3_third a b c c' : is_byte a → is_byte c → is_byte c' → hash3 a b c = hash3 a b c' → c = c'.
Proof using HG.
  intros Ha Hc Hc' E. pose proof (gk_hash _ HG). unfold is_byte in *. apply Z.bits_inj'. intros n Hn. destruct (decide (n < 8)).
  - apply (f_equal (λ x, Z.testbit x n)) in E. rewrite !hash3_bit in E by done. rewrite (proj2 (Z.ltb_lt n _)) in E by lia. cbn [andb] in E.
    destruct (Z.testbit c n), (Z.testbit c' n), (_ && _); done.
  - assert (∀ x, 0 ≤ x < 256 → Z.testbit x n = false) as H'; [|by rewrite !H'].
    intros x Hx. destruct (decide (x = 0)) as [->|]; [apply Z.testbit_0_l|]. apply Z.bits_above_log2; [lia|].
    apply Z.log2_lt_pow2; [lia|]. apply Z.lt_le_trans with (2 ^ 8); [lia|]. apply Z.pow_le_mono_r; lia.
Qed.

(** The hash of the string at [a] of a text. *)
Definition hash_at (T : list Z) (a : Z) : option Z :=
  match T !! Z.to_nat a, T !! Z.to_nat (a + 1), T !! Z.to_nat (a + 2) with
  | Some x, Some y, Some z => Some (hash3 x y z)
  | _, _, _ => None
  end.

Lemma hash_at_app T U a h : hash_at T a = Some h → hash_at (T ++ U) a = Some h.
Proof.
  unfold hash_at. destruct (T !! Z.to_nat a) as [x|] eqn:E1; [|done]. destruct (T !! Z.to_nat (a + 1)) as [y|] eqn:E2; [|done].
  destruct (T !! Z.to_nat (a + 2)) as [z|] eqn:E3; [|done]. by rewrite !lookup_app_l, E1, E2, E3 by (eapply lookup_lt_Some; eassumption).
Qed.

(** ** Chains *)

(** Positions from [p] down, all above [lo] with the hash [h]. *)
Inductive chain (T : list Z) (B : Z) (prev : list Z) (lo h : Z) : Z → Prop :=
  | chain_end p : 0 ≤ p ≤ lo → chain T B prev lo h p
  | chain_link p q : lo < p → hash_at T (B + p) = Some h → prev !! Z.to_nat (p mod w_size) = Some q → 0 ≤ q < p →
      chain T B prev lo h q → chain T B prev lo h p.

(** Where the window ends for the position [n]. *)
Definition low (n : Z) : Z := Z.max 0 (n - w_size).

(** Entries of [prev] that have never been written are arbitrary.  A position is safe if the
    links from it lead through entries that have been, to positions below [n]. *)
Definition closed (good : Z → Prop) (n : Z) (prev : list Z) : Prop :=
  ∀ i q, good i → prev !! Z.to_nat i = Some q → 0 ≤ i ∧ 0 ≤ q < Z.max 1 n ∧ (q = 0 ∨ good (q mod w_size)).
Definition safe (prev : list Z) (n p : Z) : Prop := p = 0 ∨ ∃ good, closed good n prev ∧ good (p mod w_size).

Record chained (T : list Z) (B n : Z) (prev head : list Z) : Prop := {
  cd_prev_len : Z.of_nat (length prev) = w_size;
  cd_head_len : Z.of_nat (length head) = hash_size;
  cd_head : ∀ h p, head !! h = Some p → 0 ≤ p < Z.max 1 n ∧ chain T B prev (low n) (Z.of_nat h) p ∧ safe prev n p }.

Lemma chain_next T B prev lo h p q : chain T B prev lo h p → lo < p → prev !! Z.to_nat (p mod w_size) = Some q →
  hash_at T (B + p) = Some h ∧ 0 ≤ q < p ∧ chain T B prev lo h q.
Proof. intros [p' Hp|p' q' Hp Hh Hq Hlt Hc] Hlo Hq'; [lia|]. rewrite Hq in Hq'. injection Hq' as <-. done. Qed.

Lemma chain_mono T U B prev lo lo' h p : chain T B prev lo h p → lo ≤ lo' → chain (T ++ U) B prev lo' h p.
Proof.
  intros Hc Hle. induction Hc as [p Hp|p q Hp Hh Hq Hlt Hc IH]; [apply chain_end; lia|].
  destruct (decide (p ≤ lo')); [apply chain_end; lia|]. apply (chain_link _ _ _ _ _ p q); [lia|by apply hash_at_app|done..].
Qed.

Lemma mod_other n p : n - w_size < p < n → p mod w_size ≠ n mod w_size.
Proof using HG.
  pose proof (w_size_range G HG). intros Hp E. pose proof (Z.div_mod p w_size ltac:(lia)). pose proof (Z.div_mod n w_size ltac:(lia)).
  pose proof (Z.mod_pos_bound p w_size ltac:(lia)). assert (n - p = w_size * (n / w_size - p / w_size)) as E' by lia.
  destruct (Z.le_gt_cases (n / w_size - p / w_size) 0); nia.
Qed.

Lemma chain_update T B prev lo lo' h p n x : chain T B prev lo h p → p < n → n - w_size ≤ lo → lo ≤ lo' →
  chain T B (<[Z.to_nat (n mod w_size) := x]> prev) lo' h p.
Proof using HG.
  intros Hc Hn Hlo Hle. induction Hc as [p Hp|p q Hp Hh Hq Hlt Hc IH]; [apply chain_end; lia|].
  destruct (decide (p ≤ lo')); [apply chain_end; lia|]. apply (chain_link _ _ _ _ _ p q); [lia|done| |done|apply IH; lia].
  pose proof (w_size_range G HG). pose proof (mod_other n p ltac:(lia)). pose proof (Z.mod_pos_bound p w_size ltac:(lia)). pose proof (Z.mod_pos_bound n w_size ltac:(lia)).
  rewrite list_lookup_insert_ne by lia. done.
Qed.

Lemma safe_next prev n p q : safe prev n p → p ≠ 0 → prev !! Z.to_nat (p mod w_size) = Some q → 0 ≤ q < Z.max 1 n ∧ safe prev n q.
Proof.
  intros [->|(good & Hc & Hg)] Hp Hq; [done|]. destruct (Hc _ _ Hg Hq) as (_ & Hr & Hg'). split; [done|].
  destruct Hg' as [->|Hg']; [by left|]. right. by exists good.
Qed.

Lemma safe_mono prev n n' p : safe prev n p → n ≤ n' → safe prev n' p.
Proof.
  intros [->|(good & Hc & Hg)] Hn; [by left|]. right. exists good. split; [|done]. intros i q Hi Hq. destruct (Hc i q Hi Hq) as (H1 & H2 & H3).
  split; [done|]. split; [lia|done].
Qed.

Lemma safe_insert prev n match_head p : safe prev n p → safe prev n match_head → 0 ≤ match_head < Z.max 1 n → 0 ≤ n →
  safe (<[Z.to_nat (n mod w_size) := match_head]> prev) (n + 1) p ∧ safe (<[Z.to_nat (n mod w_size) := match_head]> prev) (n + 1) n.
Proof using HG.
  pose proof (w_size_range G HG) as Hw. intros Hp Hm Hr Hn. pose proof (Z.mod_pos_bound n w_size ltac:(lia)) as Hmod.
  assert (∃ good : Z → Prop, closed good n prev ∧ (p = 0 ∨ good (p mod w_size)) ∧ (match_head = 0 ∨ good (match_head mod w_size))) as (good & Hc & Hgp & Hgm).
  { destruct Hp as [->|(g1 & C1 & G1)], Hm as [->|(g2 & C2 & G2)].
    - exists (λ _, False). split; [by intros i q []|]. split; by left.
    - exists g2. split; [done|]. split; [by left|by right].
    - exists g1. split; [done|]. split; [by right|by left].
    - exists (λ i, g1 i ∨ g2 i). split; [|split; right; [by left|by right]]. intros i q [Hi|Hi] Hq.
      + destruct (C1 i q Hi Hq) as (H1 & H2 & [->|H3]); split; [done|split; [done|by left]|done|split; [done|right; by left]].
      + destruct (C2 i q Hi Hq) as (H1 & H2 & [->|H3]); split; [done|split; [done|by left]|done|split; [done|right; by right]]. }
  set (good' := λ i, i = n mod w_size ∨ good i).
  assert (closed good' (n + 1) (<[Z.to_nat (n mod w_size) := match_head]> prev)) as Hc'.
  { intros i q Hi Hq. destruct (decide (i = n mod w_size)) as [->|Hne].
    - assert (q = match_head) as ->.
      { destruct (decide (Z.to_nat (n mod w_size) < length prev)%nat); [by rewrite list_lookup_insert_eq in Hq by done; injection Hq|].
        apply lookup_lt_Some in Hq. rewrite length_insert in Hq. done. }
      split; [lia|]. split; [lia|]. destruct Hgm as [->|Hgm]; [by left|right; by right].
    - destruct Hi as [|Hi]; [done|]. assert (0 ≤ i ∧ prev !! Z.to_nat i = Some q) as [Hi0 Hq'].
      { destruct (decide (Z.to_nat i = Z.to_nat (n mod w_size))) as [E|E].
        - rewrite <-E in Hq. destruct (decide (Z.to_nat i < length prev)%nat) as [Hlt|Hlt].
          + destruct (lookup_lt_is_Some_2 prev (Z.to_nat i) Hlt) as [q' Hq']. destruct (Hc i q' Hi Hq') as [Hi0 _]. lia.
          + apply lookup_lt_Some in Hq. rewrite length_insert in Hq. done.
        - rewrite list_lookup_insert_ne in Hq by done. split; [by apply (Hc i q Hi Hq)|done]. }
      destruct (Hc i q Hi Hq') as (_ & H2 & H3). split; [done|]. split; [lia|]. destruct H3 as [->|H3]; [by left|right; by right]. }
  split; [destruct Hgp as [->|Hgp]; [by left|]|]; right; exists good'; (split; [done|]); [by right|by left].
Qed.

(** A string is inserted: the chain that was there begins with [match_head]. *)
Lemma chained_insert T B n prev head h match_head : chained T B n prev head → 0 ≤ n → hash_at T (B + n) = Some h → 0 ≤ h →
  head !! Z.to_nat h = Some match_head →
  chained T B (n + 1) (<[Z.to_nat (n mod w_size) := match_head]> prev) (<[Z.to_nat h := n]> head) ∧
  (match_head = 0 ∨ 0 < match_head < n) ∧
  chain T B (<[Z.to_nat (n mod w_size) := match_head]> prev) (low n) h match_head ∧
  (∀ p, safe prev n p → safe (<[Z.to_nat (n mod w_size) := match_head]> prev) (n + 1) p) ∧ safe prev n match_head.
Proof using HG.
  intros [H1 H2 H4] Hn Hh Hh0 Hm. pose proof (w_size_range G HG) as Hw. pose proof (Z.mod_pos_bound n w_size ltac:(lia)) as Hmod.
  destruct (H4 _ _ Hm) as (Hr & Hc & Hsafe). rewrite Z2Nat.id in Hc by done.
  assert (∀ p h, 0 ≤ p < Z.max 1 n → chain T B prev (low n) h p → ∀ lo', low n ≤ lo' → chain T B (<[Z.to_nat (n mod w_size) := match_head]> prev) lo' h p) as Hup.
  { intros p h' Hp Hc' lo' Hlo. destruct (decide (p < n)).
    - apply (chain_update T B prev (low n)); [done|done|unfold low; lia|done].
    - apply chain_end. unfold low in *. lia. }
  assert (low n ≤ low (n + 1)) by (unfold low; lia).
  split; [split|split; [lia|split; [by apply Hup|split; [intros p Hp; by apply safe_insert|done]]]].
  - by rewrite length_insert.
  - by rewrite length_insert.
  - intros h' p. destruct (decide (h' = Z.to_nat h)) as [->|Hne].
    + rewrite list_lookup_insert_eq by (by apply lookup_lt_Some in Hm). intros [= <-]. split; [lia|]. rewrite Z2Nat.id by done. split; [|by apply (safe_insert prev n match_head match_head)].
      destruct (decide (n = 0)) as [->|]; [apply chain_end; unfold low; lia|].
      apply (chain_link _ _ _ _ _ n match_head); [unfold low; lia|done| |lia|by apply Hup].
      apply list_lookup_insert_eq. lia.
    + rewrite list_lookup_insert_ne by done. intros Hp. destruct (H4 _ _ Hp) as (Hr' & Hc' & Hs'). split; [lia|]. split; [by apply Hup|by apply safe_insert].
Qed.

(** The position advances, the text grows. *)
Lemma chained_mono T U B n n' prev head : chained T B n prev head → n ≤ n' → chained (T ++ U) B n' prev head.
Proof.
  intros [H1 H2 H4] Hle. split; [done|done|]. intros h p Hp. destruct (H4 _ _ Hp) as (Hr & Hc & Hs). split; [lia|].
  split; [apply (chain_mono T U B prev (low n)); [done|unfold low; lia]|by apply (safe_mono prev n)].
Qed.

Lemma slide_entry_spec q : 0 ≤ q < 2 ^ 16 → slide_entry G q = if w_size <=? q then q - w_size else 0.
Proof using HG.
  intros Hq. pose proof (w_size_range G HG). unfold slide_entry, NIL. destruct (Z.leb_spec w_size q); apply wrap_small; lia.
Qed.

Lemma chain_slide T B prev lo h p : chain T B prev lo h p → w_size ≤ p < 2 ^ 16 → lo ≤ w_size →
  chain T (B + w_size) (slide_entry G <$> prev) 0 h (p - w_size).
Proof using HG.
  pose proof (w_size_range G HG) as Hw. induction 1 as [p Hp|p q Hp Hh Hq Hlt Hc IH]; intros Hr Hlo; [apply chain_end; lia|].
  destruct (decide (p = w_size)); [apply chain_end; lia|].
  apply (chain_link _ _ _ _ _ _ (slide_entry G q)); [lia|by replace (B + w_size + (p - w_size)) with (B + p) by lia| | |].
  - replace ((p - w_size) mod w_size) with (p mod w_size); [by rewrite list_lookup_fmap, Hq|].
    symmetry. rewrite <-(Z_mod_plus_full (p - w_size) 1). f_equal. lia.
  - rewrite slide_entry_spec by lia. destruct (Z.leb_spec w_size q); lia.
  - rewrite slide_entry_spec by lia. destruct (Z.leb_spec w_size q); [apply IH; lia|apply chain_end; lia].
Qed.

Lemma safe_slide prev n p : safe prev n p → w_size ≤ n ≤ 2 ^ 16 → safe (slide_entry G <$> prev) (n - w_size) p.
Proof using HG.
  pose proof (w_size_range G HG) as Hw. intros [->|(good & Hc & Hg)] Hn; [by left|]. right. exists good. split; [|done].
  intros i q' Hi. rewrite list_lookup_fmap, fmap_Some. intros (q & Hq & ->). destruct (Hc i q Hi Hq) as (H1 & H2 & H3). split; [done|].
  rewrite slide_entry_spec by lia. destruct (Z.leb_spec w_size q) as [Hle|Hlt]; [|split; [lia|by left]]. split; [lia|].
  destruct H3 as [->|H3]; [lia|]. right. replace ((q - w_size) mod w_size) with (q mod w_size); [done|].
  symmetry. rewrite <-(Z_mod_plus_full (q - w_size) 1). f_equal. lia.
Qed.

Lemma safe_slide_entry prev n p : safe prev n p → 0 ≤ p < 2 ^ 16 → w_size ≤ n ≤ 2 ^ 16 → safe (slide_entry G <$> prev) (n - w_size) (slide_entry G p).
Proof using HG.
  intros Hs Hp Hn. pose proof (w_size_range G HG) as Hw. rewrite slide_entry_spec by done. destruct (Z.leb_spec w_size p) as [Hle|]; [|by left].
  destruct (safe_slide prev n p Hs Hn) as [->|(good & Hc & Hg)]; [lia|]. right. exists good. split; [done|].
  replace ((p - w_size) mod w_size) with (p mod w_size); [done|]. symmetry. rewrite <-(Z_mod_plus_full (p - w_size) 1). f_equal. lia.
Qed.

(** The window slides. *)
Lemma chained_slide T B n prev head : chained T B n prev head → w_size ≤ n ≤ 2 * w_size →
  chained T (B + w_size) (n - w_size) (slide_entry G <$> prev) (slide_entry G <$> head).
Proof using HG.
  intros [H1 H2 H4] Hn. pose proof (w_size_range G HG) as Hw. split; [by rewrite length_fmap|by rewrite length_fmap|].
  - intros h p'. rewrite list_lookup_fmap, fmap_Some. intros (p & Hp & ->). destruct (H4 _ _ Hp) as (Hr & Hc & Hs).
    apply and_assoc. split; [|apply safe_slide_entry; [done|lia|lia]].
    rewrite slide_entry_spec by lia. destruct (Z.leb_spec w_size p) as [Hle|]; [|split; [lia|apply chain_end; unfold low; lia]].
    split; [lia|]. replace (low (n - w_size)) with 0 by (unfold low; lia). apply (chain_slide T B prev (low n)); [done|lia|unfold low; lia].
Qed.

(** At the beginning. *)
Lemma chained_init T B prev head : Z.of_nat (length prev) = w_size →
  head = replicate (Z.to_nat hash_size) NIL → chained T B 0 prev head.
Proof using HG.
  intros H1 ->. pose proof hash_size_range. split; [done|rewrite length_replicate; lia|].
  intros h p [-> _]%lookup_replicate. unfold NIL. split; [lia|]. split; [apply chain_end; unfold low; lia|by left].
Qed.
End chains.
