(* ===== verification/DeflateWindow.v ===== *)
(** * The window

    What holds of the compressor between two steps of its loops: the window holds the end of
    the text that has been read, the hash chains and the rolling hash belong to it, and the
    rest of the input is still to be read.  [run_fill_window]: [fill_window] returns, keeps
    this, moves the window down if it has to, and reads until there is lookahead enough or
    the input is used up. *)

From stdpp Require Import base tactics numbers list gmap.
From S2P Require Import Prelude Memory Words MemFns Adler Crc Trees Inflate Deflate DeflateMatch DeflateChains.

Open Scope Z_scope.

(** ** The memory of a compressor *)

Definition mem_of (s : compressor) : mem := w_mem (d_writer (c_trees s)).
Definition with_mem (m : mem) (s : compressor) : compressor :=
  set_c_trees (set_writer (set_mem m (d_writer (c_trees s))) (c_trees s)) s.

Lemma with_mem_of s : with_mem (mem_of s) s = s.
Proof. destruct s as [? ? ? ? ? ? ? ? ? [[] ? ? ? ? ? ? ? ? ? ?]]. reflexivity. Qed.

Lemma mem_of_with m s : mem_of (with_mem m s) = m.
Proof. reflexivity. Qed.

Lemma run_c_mem {A} (c : C mem A) s a m : c (mem_of s) = Ret a m → on_mem c s = Ret a (with_mem m s).
Proof. intros H. unfold on_mem, zoom. unfold mem_of in H. by rewrite H. Qed.

Lemma run_c_mem_read {A} (c : C mem A) s a : c (mem_of s) = Ret a (mem_of s) → on_mem c s = Ret a s.
Proof. intros H. rewrite (run_c_mem _ _ _ _ H). by rewrite with_mem_of. Qed.

Lemma run_finding s : finding s = Ret (c_find s) s.
Proof. reflexivity. Qed.
Lemma run_tuned s : tuned s = Ret (c_tune s) s.
Proof. reflexivity. Qed.
Lemma run_strm s : strm s = Ret (c_strm s) s.
Proof. reflexivity. Qed.
Lemma run_adjust f s : adjust f s = Ret tt (set_c_find (f (c_find s)) s).
Proof. reflexivity. Qed.
Lemma run_adjust_strm f s : adjust_strm f s = Ret tt (set_c_strm (f (c_strm s)) s).
Proof. reflexivity. Qed.

(** Run one step of the compressor. *)
Ltac dstep := rewrite run_bind; first [rewrite run_finding|rewrite run_tuned|rewrite run_strm|rewrite run_adjust|rewrite run_adjust_strm|rewrite run_get|rewrite run_modify|rewrite run_ret]; cbn beta iota.

Section window.
Context (BYFOUR little NO_DIVIDE : bool) (G : geometry).
Hypothesis HG : geometry_ok G.
Abbreviation window := (window G).
Abbreviation w_size := (w_size G).
Abbreviation window_size := (window_size G).
Abbreviation UPDATE_HASH := (UPDATE_HASH G).

(** ** The invariant *)

(** There is a byte in each of [n] places. *)
Definition cells (m : mem) (p n : Z) : Prop := ∀ i, 0 ≤ i < n → ∃ b, m !! (p + i) = Some b ∧ is_byte b.

Lemma cells_valid m p n : cells m p n → valid m p n.
Proof. intros H i Hi. destruct (H i Hi) as (b & Hb & _). by exists b. Qed.

Lemma cells_bytes m p n : 0 ≤ n → cells m p n → ∃ l, bytes_at m p l ∧ Z.of_nat (length l) = n.
Proof.
  intros Hn H. exists ((λ i, default 0 (m !! (p + Z.of_nat i))) <$> seq 0 (Z.to_nat n)). rewrite length_fmap, length_seq. split; [|lia].
  assert (∀ i x, seq 0 (Z.to_nat n) !! i = Some x → x = i ∧ Z.of_nat i < n) as Hseq by (intros i x [-> Hi]%lookup_seq; lia). split.
  - apply Forall_lookup_2. intros i b. rewrite list_lookup_fmap, fmap_Some. intros (x & Hx & ->). destruct (Hseq _ _ Hx) as [-> Hi].
    destruct (H (Z.of_nat i) ltac:(lia)) as (c & -> & Hc). done.
  - intros i b. rewrite list_lookup_fmap, fmap_Some. intros (x & Hx & ->). destruct (Hseq _ _ Hx) as [-> Hi].
    destruct (H (Z.of_nat i) ltac:(lia)) as (c & -> & Hc). done.
Qed.

Lemma cells_write m p n q l : Forall is_byte l → cells m p n → cells (write_bytes m q l) p n.
Proof.
  intros Hl H i Hi. rewrite lookup_write_bytes. case_decide; [|by apply H].
  destruct (lookup_lt_is_Some_2 l (Z.to_nat (p + i - q))) as [b Hb]; [lia|]. exists b. split; [done|by apply (Forall_lookup_1 _ _ _ _ Hl Hb)].
Qed.

(** The window holds [n] bytes of the text from [B] on, to its end. *)
Record held (m : mem) (T : list Z) (B n : Z) : Prop := {
  hd_cells : cells m window window_size;
  hd_B : 0 ≤ B;
  hd_n : 0 ≤ n ≤ window_size;
  hd_byte : ∀ i, 0 ≤ i < n → m !! (window + i) = T !! Z.to_nat (B + i);
  hd_len : Z.of_nat (length T) = B + n;
  hd_all : Forall is_byte T }.

(** The rolling hash is ready for the string at [a]. *)
Definition rolled (T : list Z) (a ins_h : Z) : Prop := ∀ x y z,
  T !! Z.to_nat a = Some x → T !! Z.to_nat (a + 1) = Some y → T !! Z.to_nat (a + 2) = Some z → UPDATE_HASH ins_h z = hash3 G x y z.

(** [R] is still to be read, and is not where the window or the pending output are. *)
Record unread (m : mem) (z : z_stream) (R : list Z) : Prop := {
  ur_bytes : bytes_at m (s_next_in z) R;
  ur_avail : s_avail_in z = Z.of_nat (length R) ∧ s_avail_in z < 2 ^ 32;
  ur_null : 0 < s_next_in z;
  ur_window : disjoint_ranges (s_next_in z) (Z.of_nat (length R)) window window_size;
  ur_pending : disjoint_ranges (s_next_in z) (Z.of_nat (length R)) (pending_buf G) (pending_buf_size G) }.

(** The check of the stream is that of the text, from [D] on. *)
Definition checked (s : compressor) (D : nat) (T : list Z) : Prop :=
  (c_wrap s = 1 → s_adler (c_strm s) = Adler.adler (drop D T)) ∧ (c_wrap s = 2 → s_adler (c_strm s) = Crc.crc (drop D T)) ∧ (D ≤ length T)%nat.

Record ready (s : compressor) (D : nat) (T : list Z) (B : Z) (R : list Z) : Prop := {
  rd_held : held (mem_of s) T B (m_strstart (c_find s) + m_lookahead (c_find s));
  rd_pos : 0 ≤ m_strstart (c_find s) ∧ m_strstart (c_find s) ≤ window_size ∧ 0 ≤ m_lookahead (c_find s) ∧ 0 ≤ m_match_start (c_find s) < 2 ^ 32;
  rd_chained : chained G T B (m_strstart (c_find s)) (m_prev (c_find s)) (m_head (c_find s));
  rd_rolled : rolled T (B + m_strstart (c_find s)) (m_ins_h (c_find s));
  rd_unread : unread (mem_of s) (c_strm s) R;
  rd_checked : checked s D T }.

Lemma window_apart : disjoint_ranges window window_size (pending_buf G) (pending_buf_size G) →
  ∀ a, window ≤ a < window + window_size → a < pending_buf G ∨ pending_buf G + pending_buf_size G ≤ a.
Proof. unfold disjoint_ranges. lia. Qed.

Lemma window_size_range : window_size = 2 * w_size ∧ 1024 ≤ window_size ≤ 65536.
Proof using HG. pose proof (w_size_range G HG). unfold Deflate.window_size. lia. Qed.

(** A byte of the text in the window. *)
Lemma run_window_at s D T B R i : ready s D T B R → 0 ≤ i < m_strstart (c_find s) + m_lookahead (c_find s) →
  ∃ b, T !! Z.to_nat (B + i) = Some b ∧ is_byte b ∧ window_at G i s = Ret b s.
Proof.
  intros [[Hv HB Hn Hb Hl Ha] _ _ _ _ _] Hi. destruct (lookup_lt_is_Some_2 T (Z.to_nat (B + i))) as [b Hb']; [lia|].
  exists b. split; [done|]. split; [by apply (Forall_lookup_1 _ _ _ _ Ha Hb')|]. apply run_c_mem_read, run_load8. by rewrite Hb.
Qed.

(** Any byte of it. *)
Lemma run_window_any s i : valid (mem_of s) window window_size → 0 ≤ i < window_size → ∃ b, window_at G i s = Ret b s.
Proof.
  intros Hv Hi. destruct (Hv i Hi) as [b Hb]. exists b. by apply run_c_mem_read, run_load8.
Qed.

(** ** Reading *)

Lemma held_append m T B n bs : held m T B n → Forall is_byte bs → n + Z.of_nat (length bs) ≤ window_size →
  held (write_bytes m (window + n) bs) (T ++ bs) B (n + Z.of_nat (length bs)).
Proof.
  intros [Hv HB Hn Hb Hl Ha] Hbs Hle. split; [by apply cells_write|done|lia| |rewrite length_app; lia|by apply Forall_app_2].
  intros i Hi. rewrite lookup_write_bytes. case_decide as Hd.
  - rewrite lookup_app_r by lia. f_equal. lia.
  - rewrite Hb by lia. rewrite lookup_app_l by lia. done.
Qed.

(** [s'] is [s] but for what it has read of the input, and the window. *)
Record reads (s s' : compressor) : Prop := {
  rs_rest : c_status s' = c_status s ∧ c_pending_out s' = c_pending_out s ∧ c_wrap s' = c_wrap s ∧ c_gzhead s' = c_gzhead s ∧
    c_gzindex s' = c_gzindex s ∧ c_last_flush s' = c_last_flush s ∧ c_tune s' = c_tune s;
  rs_trees : c_trees s' = c_trees (with_mem (mem_of s') s);
  rs_mem : ∀ a, a < window ∨ window + window_size ≤ a → mem_of s' !! a = mem_of s !! a;
  rs_out : s_next_out (c_strm s') = s_next_out (c_strm s) ∧ s_avail_out (c_strm s') = s_avail_out (c_strm s) ∧ s_total_out (c_strm s') = s_total_out (c_strm s) ∧
    s_next_in (c_strm s') + s_avail_in (c_strm s') = s_next_in (c_strm s) + s_avail_in (c_strm s) }.

Lemma reads_refl s : reads s s.
Proof. split; [done|by rewrite with_mem_of|done|done]. Qed.

Lemma reads_trans s1 s2 s3 : reads s1 s2 → reads s2 s3 → reads s1 s3.
Proof.
  intros [(? & ? & ? & ? & ? & ? & ?) E1 M1 (? & ? & ? & ?)] [(? & ? & ? & ? & ? & ? & ?) E2 M2 (? & ? & ? & ?)]. split.
  - split_and!; congruence.
  - rewrite E2. unfold with_mem in *. cbn [c_trees set_c_trees] in *. by rewrite E1.
  - intros a Ha. by rewrite M2, M1.
  - split_and!; congruence.
Qed.

(** The checksums go on from one part of the text to the next. *)
Lemma adler_goes_on m buf l0 l : bytes_at m buf l → buf ≠ NULL →
  adler32 64 NO_DIVIDE (Adler.adler l0) buf (Z.of_nat (length l)) m = Ret (Adler.adler (l0 ++ l)) m.
Proof.
  intros Hm Hbuf. destruct (reduce_range (exact_sums (1, 0) l0)) as [H1 H2]. unfold Adler.adler at 1.
  rewrite run_adler32 by done. by rewrite reduce_sums, <-exact_sums_app.
Qed.

Lemma crc_goes_on m buf l0 l : Forall is_byte l0 → bytes_at m buf l → buf ≠ NULL →
  crc32 BYFOUR little (Crc.crc l0) buf (Z.of_nat (length l)) m = Ret (Crc.crc (l0 ++ l)) m.
Proof.
  intros Hl0 Hm Hbuf. rewrite run_crc32; [|done|done|by apply crc_reg]. unfold Crc.crc. by rewrite Z.lxor_assoc, Z.lxor_nilpotent, Z.lxor_0_r, crc_steps_app.
Qed.

Lemma run_read_buf s D T B R size : ready s D T B R → R ≠ [] → 0 < size →
  m_strstart (c_find s) + m_lookahead (c_find s) + size ≤ window_size →
  ∃ R1 R2 s', read_buf BYFOUR little NO_DIVIDE (window + m_strstart (c_find s) + m_lookahead (c_find s)) size s = Ret (Z.of_nat (length R1)) s' ∧
    R = R1 ++ R2 ∧ R1 ≠ [] ∧ (Z.of_nat (length R1) = size ∨ R2 = []) ∧ c_find s' = c_find s ∧ reads s s' ∧
    held (mem_of s') (T ++ R1) B (m_strstart (c_find s) + m_lookahead (c_find s) + Z.of_nat (length R1)) ∧
    unread (mem_of s') (c_strm s') R2 ∧ checked s' D (T ++ R1) ∧ Z.of_nat (length R1) ≤ size.
Proof using HG.
  intros [Hh Hp Hc Hr [Ub [Ua Ua'] Un Uw Up] (C1 & C2 & C3)] HR Hsz Hle.
  set (k := if size <? s_avail_in (c_strm s) then size else s_avail_in (c_strm s)).
  assert (0 < k ≤ Z.of_nat (length R) ∧ k ≤ size ∧ (k = size ∨ k = Z.of_nat (length R))) as (Hk1 & Hk2 & Hk3).
  { unfold k. rewrite Ua in *. destruct R; [done|]. cbn [length] in *. destruct (Z.ltb_spec size (Z.of_nat (S (length R)))); lia. }
  set (R1 := take (Z.to_nat k) R). set (R2 := drop (Z.to_nat k) R). assert (R = R1 ++ R2) as ER by (unfold R1, R2; by rewrite take_drop).
  assert (Z.of_nat (length R1) = k) as El by (unfold R1; rewrite length_take; lia).
  assert (Z.of_nat (length R2) = Z.of_nat (length R) - k) as El2 by (unfold R2; rewrite length_drop; lia).
  rewrite ER in Ub. apply bytes_at_app in Ub as [Ub1 Ub2]. rewrite El in Ub2.
  pose proof (bytes_at_is_byte _ _ _ Ub1) as HbR1. destruct Hh as [Hv HB Hn Hb Hl Ha] eqn:EH. pose proof window_size_range as [Ews _].
  set (n := m_strstart (c_find s) + m_lookahead (c_find s)) in *.
  set (check := if c_wrap s =? 1 then Adler.adler (drop D (T ++ R1)) else if c_wrap s =? 2 then Crc.crc (drop D (T ++ R1)) else s_adler (c_strm s)).
  set (m' := write_bytes (mem_of s) (window + n) R1).
  exists R1, R2, (with_mem m' (set_c_strm
    (set_s_next_in (s_next_in (c_strm s) + k) (set_s_total_in (u64 (s_total_in (c_strm s) + k)) (set_s_adler check (set_s_avail_in (u32 (s_avail_in (c_strm s) - k)) (c_strm s))))) s)).
  assert (∀ a, a < window ∨ window + window_size ≤ a → m' !! a = mem_of s !! a) as Hout.
  { intros a Ha'. apply lookup_write_bytes_out. lia. }
  split_and!; try done.
  - unfold read_buf. dstep. fold k. rewrite (proj2 (Z.eqb_neq k 0)) by lia. dstep. dstep. rewrite run_bind.
    set (s1 := set_c_strm _ s). change (c_wrap s1) with (c_wrap s).
    assert ((if c_wrap s =? 1 then check0 ← adler NO_DIVIDE (s_adler (c_strm s)) (s_next_in (c_strm s)) k; adjust_strm (set_s_adler check0)
      else if c_wrap s =? 2 then check0 ← crc BYFOUR little (s_adler (c_strm s)) (s_next_in (c_strm s)) k; adjust_strm (set_s_adler check0)
      else mret tt) s1 = Ret tt (set_c_strm (set_s_adler check (c_strm s1)) s1)) as ->.
    { unfold check. destruct (Z.eqb_spec (c_wrap s) 1) as [Hw|]; [|destruct (Z.eqb_spec (c_wrap s) 2) as [Hw|]].
      - rewrite run_bind. unfold adler. rewrite (run_c_mem_read _ _ (Adler.adler (drop D (T ++ R1)))); [done|].
        rewrite (C1 Hw), <-El, drop_app_le by done. apply adler_goes_on; [done|unfold NULL; lia].
      - rewrite run_bind. unfold crc. rewrite (run_c_mem_read _ _ (Crc.crc (drop D (T ++ R1)))); [done|].
        rewrite (C2 Hw), <-El, drop_app_le by done. apply crc_goes_on; [by apply Forall_drop|done|unfold NULL; lia].
      - rewrite run_ret. subst s1. by destruct s as [[]]. }
    cbn beta iota. rewrite run_bind. rewrite (run_c_mem _ _ (window + m_strstart (c_find s) + m_lookahead (c_find s)) m'); cycle 1.
    { unfold m', n. rewrite <-El, Z.add_assoc. apply run_memcpy; [done| |].
      - apply (valid_sub _ _ _ _ _ (cells_valid _ _ _ Hv)); unfold n in *; lia.
      - unfold disjoint_ranges in Uw. unfold n in *. lia. }
    cbn beta iota. dstep. rewrite run_ret, El. done.
  - intros E. rewrite E in El. cbn in El. lia.
  - destruct Hk3 as [->| ->]; [by left|right]. apply length_zero_iff_nil. lia.
  - split; [done|done|exact Hout|]. split_and!; [done|done|done|]. cbn. rewrite wrap_small by lia. lia.
  - cbn. unfold m'. rewrite El. replace (window + n) with (window + n) by done. rewrite <-El. apply held_append; [done|done|lia].
  - rewrite mem_of_with. change (c_strm (with_mem m' ?x)) with (c_strm x). cbn [c_strm set_c_strm].
    split; cbn [s_next_in s_avail_in set_s_next_in set_s_total_in set_s_adler set_s_avail_in]; unfold disjoint_ranges in *.
    + apply (bytes_at_ext (mem_of s)); [done|]. intros a Ha'. apply Hout. lia.
    + rewrite wrap_small by lia. lia.
    + lia.
    + lia.
    + lia.
  - split; [|split]; cbn [c_wrap c_strm with_mem set_c_trees set_c_strm s_adler set_s_next_in set_s_total_in set_s_adler]; unfold check.
    + intros Hw. change (c_wrap s = 1) in Hw. by rewrite Hw.
    + intros Hw. change (c_wrap s = 2) in Hw. by rewrite Hw.
    + rewrite length_app. lia.
  - lia.
Qed.
(** ** Sliding *)

Lemma run_slide s D T B R : ready s D T B R → disjoint_ranges window window_size (pending_buf G) (pending_buf_size G) →
  w_size + MAX_DIST G ≤ m_strstart (c_find s) →
  ∃ s', slide G s = Ret tt s' ∧ ready s' D T (B + w_size) R ∧ reads s s' ∧ c_strm s' = c_strm s ∧
    c_find s' = set_m_match_start (u32 (m_match_start (c_find s) - w_size)) (set_m_strstart (m_strstart (c_find s) - w_size)
      (set_m_block_start (m_block_start (c_find s) - w_size) (set_m_head (slide_entry G <$> m_head (c_find s))
      (set_m_prev (slide_entry G <$> m_prev (c_find s)) (c_find s))))).
Proof using HG.
  intros [[Hv HB Hn Hb Hl Ha] Hp Hc Hr [Ub Ua Un Uw Up] Hk] Hd Hst. pose proof window_size_range as [Ews _]. pose proof (w_size_range G HG) as Hw.
  unfold MAX_DIST, MIN_LOOKAHEAD, MAX_MATCH, MIN_MATCH in Hst.
  destruct (cells_bytes (mem_of s) (window + w_size) w_size) as (l & Hbl & El); [lia| |].
  { intros i Hi. rewrite <-Z.add_assoc. apply Hv. lia. }
  set (m' := write_bytes (mem_of s) window l).
  assert (∀ a, a < window ∨ window + window_size ≤ a → m' !! a = mem_of s !! a) as Hout by (intros a Ha'; apply lookup_write_bytes_out; lia).
  set (f := c_find s) in *.
  exists (set_c_find (set_m_match_start (u32 (m_match_start f - w_size)) (set_m_strstart (m_strstart f - w_size)
      (set_m_block_start (m_block_start f - w_size) (set_m_head (slide_entry G <$> m_head f) (set_m_prev (slide_entry G <$> m_prev f) f))))) (with_mem m' s)).
  split; [|split; [|split; [by split|done]]].
  - unfold slide. rewrite run_bind, (run_c_mem _ _ window m'); cycle 1.
    { unfold m'. rewrite <-El at 2. apply run_memcpy; [done|apply (valid_sub _ _ _ _ _ (cells_valid _ _ _ Hv)); lia|lia]. }
    cbn beta iota. rewrite run_adjust. cbn [c_find with_mem set_c_trees]. fold f. by rewrite (wrap_small 32 (m_strstart f - w_size)) by lia.
  - split; cbn [c_find set_c_find m_strstart m_lookahead set_m_match_start set_m_strstart set_m_block_start set_m_head set_m_prev m_prev m_head m_ins_h m_match_start].
    + split; [apply cells_write; [by apply (bytes_at_is_byte _ _ _ Hbl)|done]|lia|lia| |lia|done].
      intros i Hi. change (mem_of _) with m'. unfold m'. rewrite lookup_write_bytes, decide_True by lia.
      replace (window + i - window) with i by lia. rewrite <-(bytes_at_lookup _ _ _ i Hbl) by lia. rewrite <-Z.add_assoc, Hb by lia. f_equal. lia.
    + pose proof (wrap_range 32 (m_match_start f - w_size) ltac:(lia)). cbn [m_match_start]. lia.
    + apply chained_slide; [done|done|lia].
    + by replace (B + w_size + (m_strstart f - w_size)) with (B + m_strstart f) by lia.
    + split; try done. change (mem_of _) with m'. apply (bytes_at_ext (mem_of s)); [done|]. intros a Ha'. apply Hout. unfold disjoint_ranges in *. cbn [c_strm set_c_find with_mem set_c_trees] in Ha'. lia.
    + exact Hk.
Qed.

(** ** Filling *)

(** The hash is computed anew. *)
Lemma run_restart_hash s T B : held (mem_of s) T B (m_strstart (c_find s) + m_lookahead (c_find s)) → 0 ≤ m_strstart (c_find s) →
  m_strstart (c_find s) + 2 ≤ window_size →
  ∃ h, restart_hash G s = Ret tt (set_c_find (set_m_ins_h h (c_find s)) s) ∧ (2 ≤ m_lookahead (c_find s) → rolled T (B + m_strstart (c_find s)) h).
Proof using HG.
  intros [Hv HB Hn Hb Hl Ha] Hp Hs. unfold restart_hash. dstep.
  destruct (Hv (m_strstart (c_find s)) ltac:(lia)) as (a & Ea & Ba). destruct (Hv (m_strstart (c_find s) + 1) ltac:(lia)) as (b & Eb & Bb).
  unfold window_at. rewrite run_bind, (run_c_mem_read _ _ a) by (by apply run_load8). cbn beta iota.
  rewrite run_bind, (run_c_mem_read _ _ b) by (by apply run_load8). cbn beta iota. rewrite run_adjust. eexists. split; [done|].
  intros H2 x y z Hx Hy Hz. rewrite <-Hb in Hx by lia. rewrite <-Z.add_assoc, <-Hb in Hy by lia. unfold hash3. congruence.
Qed.

Record filled (s s' : compressor) (D : nat) (T : list Z) (B : Z) (R R1 : list Z) (B' : Z) (R2 : list Z) : Prop := {
  fl_ready : ready s' D (T ++ R1) B' R2;
  fl_input : R = R1 ++ R2;
  fl_reads : reads s s';
  fl_start : m_strstart (c_find s') = m_strstart (c_find s) - (B' - B);
  fl_look : m_lookahead (c_find s') = m_lookahead (c_find s) + Z.of_nat (length R1);
  fl_match_start : m_match_start (c_find s') = u32 (m_match_start (c_find s) - (B' - B));
  fl_block : m_block_start (c_find s') = m_block_start (c_find s) - (B' - B);
  fl_low : B' = B ∨ 0 < m_strstart (c_find s') ∧ B' = B + w_size ∧ w_size + MAX_DIST G ≤ m_strstart (c_find s);
  fl_safe : ∀ p, safe G (m_prev (c_find s)) (m_strstart (c_find s)) p → safe G (m_prev (c_find s')) (m_strstart (c_find s')) p;
  fl_same : m_match_length (c_find s') = m_match_length (c_find s) ∧ m_prev_length (c_find s') = m_prev_length (c_find s) ∧
    m_prev_match (c_find s') = m_prev_match (c_find s) ∧ m_match_available (c_find s') = m_match_available (c_find s) }.
(** One round: the window slides if it has to, and something is read if there is anything. *)
Lemma run_fill_round s D T B R : ready s D T B R → disjoint_ranges window window_size (pending_buf G) (pending_buf_size G) →
  m_lookahead (c_find s) < MIN_LOOKAHEAD →
  ∃ r s' B' R1 R2, (
    f ← finding;
    let more := u32 (window_size - m_lookahead f - m_strstart f) in
    more ← (if w_size + MAX_DIST G <=? m_strstart f then slide G;; mret (u32 (more + w_size)) else mret more);
    z ← strm;
    if s_avail_in z =? 0 then Break tt else
    f ← finding;
    n ← read_buf BYFOUR little NO_DIVIDE (window + m_strstart f + m_lookahead f) more;
    adjust (λ f, set_m_lookahead (u32 (m_lookahead f + n)) f);;
    f ← finding;
    (if MIN_MATCH <=? m_lookahead f then restart_hash G else mret tt);;
    z ← strm;
    if (m_lookahead f <? MIN_LOOKAHEAD) && negb (s_avail_in z =? 0) then Next tt else Break tt) s = Ret r s' ∧
  filled s s' D T B R R1 B' R2 ∧ m_strstart (c_find s') < w_size + MAX_DIST G ∧
  match r with
  | inl _ => m_lookahead (c_find s') < MIN_LOOKAHEAD ∧ R1 ≠ []
  | inr _ => R2 = [] ∨ MIN_LOOKAHEAD ≤ m_lookahead (c_find s')
  end.
Proof using HG.
  intros Hrd Hd Hlook. pose proof window_size_range as [Ews Hws]. pose proof (w_size_range G HG) as Hw. dstep.
  assert (∃ s1 B1 more, (let more := u32 (window_size - m_lookahead (c_find s) - m_strstart (c_find s)) in
    if w_size + MAX_DIST G <=? m_strstart (c_find s) then slide G;; mret (u32 (more + w_size)) else mret more) s = Ret more s1 ∧
    filled s s1 D T B R [] B1 R ∧ m_strstart (c_find s1) < w_size + MAX_DIST G ∧ 2 ≤ more ∧
    m_strstart (c_find s1) + m_lookahead (c_find s1) + more ≤ window_size) as (s1 & B1 & more & E1 & F1 & Hst & Hm & Hfit).
  { pose proof (hd_n _ _ _ _ (rd_held _ _ _ _ _ Hrd)) as Hn. pose proof (rd_pos _ _ _ _ _ Hrd) as Hp.
    unfold MAX_DIST, MIN_LOOKAHEAD, MAX_MATCH, MIN_MATCH in *. cbn zeta. rewrite (wrap_small 32 (_ - _ - _)) by lia.
    destruct (Z.leb_spec (w_size + (w_size - (258 + 3 + 1))) (m_strstart (c_find s))) as [Hge|Hlt].
    - destruct (run_slide s D T B R Hrd Hd) as (s1 & E & Hrd1 & Hrs & Hz & Hf1); [unfold MAX_DIST, MIN_LOOKAHEAD, MAX_MATCH, MIN_MATCH; lia|].
      exists s1, (B + w_size), (window_size - m_lookahead (c_find s) - m_strstart (c_find s) + w_size).
      rewrite run_bind, E. cbn beta iota. rewrite run_ret, (wrap_small 32 (_ + w_size)) by lia. split; [done|]. rewrite Hf1. cbn [m_strstart m_lookahead set_m_match_start set_m_strstart set_m_block_start set_m_head set_m_prev].
      split; [|lia]. split; rewrite ?app_nil_r, ?Hf1; try done; cbn; unfold MAX_DIST, MIN_LOOKAHEAD, MAX_MATCH, MIN_MATCH; try lia; [f_equal; lia|]. intros p Hsafe. apply safe_slide; [done|done|lia].
    - exists s, B, (window_size - m_lookahead (c_find s) - m_strstart (c_find s)). split; [done|]. split; [|lia].
      split; rewrite ?app_nil_r; try done; cbn; try lia; [apply reads_refl|rewrite wrap_small; lia]. }
  cbn zeta in E1 |- *. rewrite run_bind, E1. cbn beta iota. dstep. destruct F1 as [Hrd1 _ Hrs1 Fs Fl Fm Fb Flow Fsafe (Fx1 & Fx2 & Fx3 & Fx4)].
  rewrite app_nil_r in Hrd1. cbn [length Z.of_nat] in Fl. rewrite Z.add_0_r in Fl.
  destruct (ur_avail _ _ _ (rd_unread _ _ _ _ _ Hrd1)) as [Ea _]. destruct (Z.eqb_spec (s_avail_in (c_strm s1)) 0) as [Hz|Hz].
  { exists (inr tt), s1, B1, [], R. assert (R = []) as -> by (apply length_zero_iff_nil; lia). split; [done|].
    split; [|split; [done|by left]]. split; rewrite ?app_nil_r; try done. cbn. lia. }
  dstep. destruct (run_read_buf s1 D T B1 R more Hrd1) as (R1 & R2 & s2 & E2 & ER & HR1 & Hfull & Ef2 & Hrs2 & Hh2 & Hu2 & Hk2 & Hle2).
  { intros ->. cbn in Ea. lia. }
  { lia. }
  { lia. }
  rewrite run_bind, E2. cbn beta iota. dstep. dstep.
  pose proof (hd_n _ _ _ _ Hh2) as Hn2. pose proof (rd_pos _ _ _ _ _ Hrd1) as Hp1.
  set (L := m_lookahead (c_find s1) + Z.of_nat (length R1)).
  assert (u32 (m_lookahead (c_find s2) + Z.of_nat (length R1)) = L) as -> by (rewrite Ef2; apply wrap_small; unfold L; lia).
  set (s3 := set_c_find _ s2). change (m_lookahead (c_find s3)) with L.
  assert (held (mem_of s3) (T ++ R1) B1 (m_strstart (c_find s3) + m_lookahead (c_find s3))) as Hh3.
  { change (mem_of s3) with (mem_of s2). cbn. rewrite Ef2. fold L. unfold L. by rewrite Z.add_assoc. }
  assert (∃ h, (if MIN_MATCH <=? L then restart_hash G else mret tt) s3 = Ret tt (set_c_find (set_m_ins_h h (c_find s3)) s3) ∧
    rolled (T ++ R1) (B1 + m_strstart (c_find s3)) h) as (h & E4 & Hroll).
  { unfold MIN_MATCH. destruct (Z.leb_spec 3 L) as [HL|HL].
    - destruct (run_restart_hash s3 (T ++ R1) B1 Hh3) as (h & E4 & Hroll); [cbn; rewrite Ef2; lia..|]. exists h. split; [done|]. apply Hroll. cbn. lia.
    - exists (m_ins_h (c_find s3)). split; [rewrite run_ret; subst s3; by destruct s2 as [? ? ? ? ? ? ? [] ? ?]|].
      intros x y z _ _ Hz3. apply lookup_lt_Some in Hz3. pose proof (hd_len _ _ _ _ Hh3) as Hl3. pose proof (hd_B _ _ _ _ Hh3).
      cbn in Hl3, Hz3. rewrite Ef2 in Hl3, Hz3. fold L in Hl3. lia. }
  rewrite run_bind, E4. cbn beta iota. dstep. set (s4 := set_c_find _ s3).
  assert (filled s s4 D T B R R1 B1 R2) as Hfin.
  { split.
    - split; cbn; rewrite ?Ef2.
      + cbn in Hh3. rewrite Ef2 in Hh3. exact Hh3.
      + fold L. unfold L. lia.
      + apply (chained_mono G T R1 B1 (m_strstart (c_find s1))); [apply (rd_chained _ _ _ _ _ Hrd1)|lia].
      + cbn in Hroll. by rewrite Ef2 in Hroll.
      + exact Hu2.
      + exact Hk2.
    - done.
    - apply (reads_trans s s1 s4); [done|]. destruct Hrs2 as [A1 A2 A3 A4]. by split.
    - cbn. rewrite Ef2. done.
    - cbn. unfold L. lia.
    - cbn. by rewrite Ef2.
    - cbn. by rewrite Ef2.
    - cbn. by rewrite Ef2.
    - cbn. by rewrite Ef2.
    - cbn. by rewrite Ef2. }
  destruct (ur_avail _ _ _ Hu2) as [Ea2 _].
  exists (if (L <? MIN_LOOKAHEAD) && negb (s_avail_in (c_strm s2) =? 0) then inl tt else inr tt), s4, B1, R1, R2.
  split; [change (c_strm s4) with (c_strm s2); by destruct (_ && _)|]. split; [done|].
  split; [cbn; rewrite Ef2; done|]. change (m_lookahead (c_find s4)) with L.
  destruct (Z.ltb_spec L MIN_LOOKAHEAD) as [HL|HL]; cbn [andb]; [|by right].
  destruct (Z.eqb_spec (s_avail_in (c_strm s2)) 0); cbn [negb]; [|done]. left. apply length_zero_iff_nil. lia.
Qed.

Lemma filled_trans s s1 s2 D T B R R1 B1 R2 R3 B2 R4 : m_strstart (c_find s) ≤ window_size →
  filled s s1 D T B R R1 B1 R2 → filled s1 s2 D (T ++ R1) B1 R2 R3 B2 R4 → filled s s2 D T B R (R1 ++ R3) B2 R4.
Proof.
  pose proof window_size_range as [Ews _]. pose proof (w_size_range G HG). unfold MAX_DIST, MIN_LOOKAHEAD, MAX_MATCH, MIN_MATCH in *.
  intros Hbound [A1 A2 A3 A4 A5 A6 A7 Al As (A8 & A9 & A10 & A11)] [H1 H2 H3 H4 H5 H6 H7 Hl Hs (H8 & H9 & H10 & H11)].
  split; [by rewrite app_assoc|by rewrite <-app_assoc, <-H2|by eapply reads_trans|lia|rewrite length_app; lia| |lia|lia|by auto|split_and!; congruence].
  rewrite H6, A6. unfold wrap. rewrite Zminus_mod_idemp_l. f_equal. lia.
Qed.

(** [fill_window] *)
Lemma run_fill_window s D T B R : ready s D T B R → disjoint_ranges window window_size (pending_buf G) (pending_buf_size G) →
  m_lookahead (c_find s) < MIN_LOOKAHEAD →
  ∃ s' B' R1 R2, fill_window BYFOUR little NO_DIVIDE G s = Ret tt s' ∧ filled s s' D T B R R1 B' R2 ∧
    m_strstart (c_find s') < w_size + MAX_DIST G ∧ (R2 = [] ∨ MIN_LOOKAHEAD ≤ m_lookahead (c_find s')).
Proof using HG.
  intros Hrd Hd Hlook. unfold fill_window.
  match goal with |- context [loop ?fl ?bd tt s] =>
    destruct (loop_total (S := compressor) (R := unit)
      (λ n _ s1, ∃ B1 R1 R2, (ready s D T B R → filled s s1 D T B R R1 B1 R2) ∧ ready s1 D (T ++ R1) B1 R2 ∧ m_lookahead (c_find s1) < MIN_LOOKAHEAD ∧ Z.of_nat n = MIN_LOOKAHEAD - 1 - m_lookahead (c_find s1))
      (λ _ s1, ∃ B1 R1 R2, filled s s1 D T B R R1 B1 R2 ∧ m_strstart (c_find s1) < w_size + MAX_DIST G ∧ (R2 = [] ∨ MIN_LOOKAHEAD ≤ m_lookahead (c_find s1))) bd)
      with (n := Z.to_nat (MIN_LOOKAHEAD - 1 - m_lookahead (c_find s))) (fuel := fl) (st := tt) (s := s) as ([] & s' & E & B1 & R1 & R2 & H1 & H2 & H3)
  end.
  - intros n [] s1 (B1 & R1 & R2 & Hf1 & Hrd1 & Hl1 & Hn). destruct (run_fill_round s1 D (T ++ R1) B1 R2 Hrd1 Hd Hl1) as (r & s2 & B2 & R3 & R4 & E & Hf & Hst & Hr).
    exists r, s2. split; [exact E|]. specialize (Hf1 Hrd). pose proof (filled_trans _ _ _ _ _ _ _ _ _ _ _ _ _ ltac:(apply (rd_pos _ _ _ _ _ Hrd)) Hf1 Hf) as Hf2. destruct r as [[]|[]].
    + destruct Hr as [Hl2 HR3]. pose proof (fl_look _ _ _ _ _ _ _ _ _ Hf) as El. assert (0 < Z.of_nat (length R3)) by (destruct R3; [done|cbn; lia]).
      exists (Z.to_nat (MIN_LOOKAHEAD - 1 - m_lookahead (c_find s2))). split; [lia|]. exists B2, (R1 ++ R3), R4.
      split; [done|]. split; [apply (fl_ready _ _ _ _ _ _ _ _ _ Hf2)|]. split; [done|lia].
    + by exists B2, (R1 ++ R3), R4.
  - pose proof (rd_pos _ _ _ _ _ Hrd). unfold MIN_LOOKAHEAD, MAX_MATCH, MIN_MATCH in *. lia.
  - exists B, [], R. rewrite app_nil_r. split; [intros _; split; rewrite ?app_nil_r; try done; cbn; try lia; [apply reads_refl|]|].
    + pose proof (rd_pos _ _ _ _ _ Hrd). rewrite wrap_small; lia.
    + split; [done|]. split; [done|lia].
  - by exists s', B1, R1, R2.
Qed.
End window.
