(* ===== verification/DeflateText.v ===== *)
(** * From text to symbols: the parts of the loops

    The parts [deflate_fast] and [deflate_slow] are made of, on a compressor whose window,
    hash chains and input are as in [DeflateWindow]: inserting strings keeps the chains,
    [search] finds matches that are there in the text, and a tallied literal or match is in
    the buffer of symbols. *)

From stdpp Require Import base tactics numbers list gmap.
From S2P Require Import Prelude Memory Words MemFns Adler Crc TreesTables Trees TreesBlock InflateCopy InflateFast Blocks Inflate Deflate DeflateMatch DeflateChains DeflateWindow.

Open Scope Z_scope.

(** ** Matches in a text *)

(** The [len] bytes at [a] are those [dist] before. *)
Definition is_match (T : list Z) (a dist len : Z) : Prop :=
  ∀ k, 0 ≤ k < len → T !! Z.to_nat (a + k) = T !! Z.to_nat (a + k - dist).

Lemma is_match_app T U a dist len : is_match T a dist len → 0 ≤ a - dist → 0 ≤ dist → a + len ≤ Z.of_nat (length T) → is_match (T ++ U) a dist len.
Proof. intros H H1 H2 H3 k Hk. rewrite !lookup_app_l by lia. by apply H. Qed.

Lemma take_snoc (T : list Z) a b : T !! a = Some b → take (S a) T = take a T ++ [b].
Proof. apply take_S_r. Qed.

Lemma grow_text T dist n : ∀ a, 1 ≤ dist ≤ Z.of_nat a → (a + n ≤ length T)%nat → is_match T (Z.of_nat a) dist (Z.of_nat n) →
  grow [] n dist (take a T) = take (a + n) T.
Proof.
  induction n as [|n IH]; intros a Hd Hl Hm; cbn [grow]; [by rewrite Nat.add_0_r|].
  destruct (lookup_lt_is_Some_2 T a) as [b Hb]; [lia|].
  assert (back [] (take a T) dist = b) as ->.
  { unfold back. cbn [app]. rewrite length_take_le by lia. pose proof (Hm 0 ltac:(lia)) as H0. rewrite Z.add_0_r, Nat2Z.id, Hb in H0.
    apply nth_lookup_Some. rewrite lookup_take_lt by lia. by rewrite <-H0. }
  rewrite <-(take_snoc _ _ _ Hb), IH; [f_equal; lia|lia|lia|]. intros k Hk. pose proof (Hm (k + 1) ltac:(lia)) as H1.
  replace (Z.of_nat (S a) + k) with (Z.of_nat a + (k + 1)) by lia. by replace (Z.of_nat (S a) + k - dist) with (Z.of_nat a + (k + 1) - dist) by lia.
Qed.

(** The text so far, after a literal and after a match. *)
Lemma expand_literal O ts T a b : expand_all [] O ts = Some (take (Z.to_nat a) T) → 0 ≤ a → T !! Z.to_nat a = Some b →
  expand_all [] O (ts ++ [token_of (0, b)]) = Some (take (Z.to_nat (a + 1)) T).
Proof.
  intros H Ha Hb. rewrite expand_all_app, H. cbn. f_equal. rewrite <-(take_snoc _ _ _ Hb). f_equal. lia.
Qed.

Lemma expand_match O ts T a dist len : expand_all [] O ts = Some (take (Z.to_nat a) T) → 1 ≤ dist ≤ a → 3 ≤ len →
  a + len ≤ Z.of_nat (length T) → is_match T a dist len →
  expand_all [] O (ts ++ [token_of (dist, len - 3)]) = Some (take (Z.to_nat (a + len)) T).
Proof.
  intros H Hd Hlen Hl Hm. rewrite expand_all_app, H. cbn [token_of]. rewrite (proj2 (Z.eqb_neq dist 0)) by lia. cbn [expand_all expand].
  rewrite decide_True by (cbn [app]; rewrite length_take_le; lia). f_equal. replace (Z.to_nat (len - 3 + 3)) with (Z.to_nat len) by lia.
  rewrite grow_text; [f_equal; lia|lia|lia|]. by rewrite !Z2Nat.id by lia.
Qed.

Section text.
Context (BYFOUR little NO_DIVIDE : bool) (G : geometry).
Hypothesis HG : geometry_ok G.
Abbreviation window := (window G).
Abbreviation w_size := (w_size G).
Abbreviation window_size := (window_size G).
Abbreviation MAX_DIST := (MAX_DIST G).
Abbreviation pb := (pending_buf G).
Abbreviation lit_bufsize := (k_lit_bufsize G).
Hypothesis Happart : disjoint_ranges window window_size pb (pending_buf_size G).

(** ** The buffer of symbols *)

Record tallied (s : compressor) (xs : list buffered_symbol) : Prop := {
  ta_last : last_lit (c_trees s) = Z.of_nat (length xs) ∧ Z.of_nat (length xs) ≤ lit_bufsize;
  ta_room : valid (mem_of s) pb (pending_buf_size G);
  ta_syms : ∀ k d c, xs !! k = Some (d, c) →
    symbol_ok (d, c) ∧ bytes_at (mem_of s) (d_buf G + 2 * Z.of_nat k) (le_bytes 2 d) ∧ mem_of s !! (l_buf G + Z.of_nat k) = Some c;
  ta_trees : length (dyn_ltree (c_trees s)) = 573%nat ∧ length (dyn_dtree (c_trees s)) = 61%nat }.

(** [s'] is [s] but for the pending output and the trees. *)
Record tallies (s s' : compressor) : Prop := {
  tl_find : c_find s' = c_find s;
  tl_strm : c_strm s' = c_strm s;
  tl_rest : c_status s' = c_status s ∧ c_pending_out s' = c_pending_out s ∧ c_wrap s' = c_wrap s ∧ c_gzhead s' = c_gzhead s ∧
    c_gzindex s' = c_gzindex s ∧ c_last_flush s' = c_last_flush s ∧ c_tune s' = c_tune s;
  tl_mem : ∀ a, a < pb ∨ pb + pending_buf_size G ≤ a → mem_of s' !! a = mem_of s !! a }.

Lemma bufs : pending_buf_size G = 4 * lit_bufsize ∧ d_buf G = pb + lit_bufsize ∧ l_buf G = pb + 3 * lit_bufsize ∧ 2 ≤ lit_bufsize ≤ 2 ^ 15.
Proof using HG.
  destruct (gk_lit _ HG) as (k & Ek & Hk). unfold pending_buf_size, d_buf, l_buf. rewrite Ek, (Z.mul_comm 2 k), Z.div_mul by lia. lia.
Qed.

(** The two stores of a tally. *)
Lemma run_store_symbol s xs d c : tallied s xs → symbol_ok (d, c) → Z.of_nat (length xs) < lit_bufsize →
  ∃ m1 m2, store_le 2 (d_buf G + 2 * Z.of_nat (length xs)) d (mem_of s) = Ret tt m1 ∧
    store8 (l_buf G + Z.of_nat (length xs)) c m1 = Ret tt m2 ∧
    (∀ a, a < pb ∨ pb + pending_buf_size G ≤ a → m2 !! a = mem_of s !! a) ∧
    valid m2 pb (pending_buf_size G) ∧
    ∀ k d' c', (xs ++ [(d, c)]) !! k = Some (d', c') →
      symbol_ok (d', c') ∧ bytes_at m2 (d_buf G + 2 * Z.of_nat k) (le_bytes 2 d') ∧ m2 !! (l_buf G + Z.of_nat k) = Some c'.
Proof using HG.
  intros [_ Hv Hs _] Hok Hlt. destruct bufs as (E1 & E2 & E3 & Hlit). set (n := Z.of_nat (length xs)) in *.
  set (m1 := write_bytes (mem_of s) (d_buf G + 2 * n) (le_bytes 2 d)). assert (valid m1 pb (pending_buf_size G)) as Hv1 by (by apply write_bytes_valid).
  exists m1, (<[l_buf G + n := c]> m1). destruct Hok as [Hd Hc]. cbn [fst snd] in *.
  split; [apply run_store_le; apply (valid_sub _ _ _ _ _ Hv); lia|].
  split.
  { rewrite run_store8; [by rewrite u8_byte|]. destruct (Hv1 (l_buf G + n - pb)) as [x Hx]; [lia|]. replace (pb + (l_buf G + n - pb)) with (l_buf G + n) in Hx by lia. by exists x. }
  assert (∀ a, a ≠ l_buf G + n → (a < d_buf G + 2 * n ∨ d_buf G + 2 * n + 2 ≤ a) → <[l_buf G + n := c]> m1 !! a = mem_of s !! a) as Hold.
  { intros a Ha1 Ha2. rewrite lookup_insert_ne by done. apply lookup_write_bytes_out. rewrite le_bytes_length. lia. }
  split; [intros a Ha; apply Hold; lia|]. split; [by apply valid_insert|].
  intros k d' c' Hk. destruct (decide (k < length xs)%nat).
  - rewrite lookup_app_l in Hk by done. destruct (Hs k d' c' Hk) as (H1 & H2 & H3). split; [done|]. split.
    + apply (bytes_at_ext (mem_of s)); [done|]. intros a Ha. rewrite le_bytes_length in Ha. apply Hold; lia.
    + rewrite Hold by lia. done.
  - rewrite lookup_app_r in Hk by lia. destruct (k - length xs)%nat as [|j] eqn:Ej; [|by rewrite lookup_cons_ne_0 in Hk by lia].
    injection Hk as <- <-. replace (Z.of_nat k) with n by lia. split; [done|]. split; [|apply lookup_insert_eq].
    apply (bytes_at_ext m1); [apply write_bytes_at, le_bytes_is_byte|]. intros a Ha. rewrite le_bytes_length in Ha. apply lookup_insert_ne. lia.
Qed.

Lemma run_count_symbol {S} (tree : list ct_data) n (s : S) : 0 ≤ n < Z.of_nat (length tree) →
  ∃ t, count_symbol tree n s = Ret t s ∧ length t = length tree.
Proof.
  intros Hn. unfold count_symbol. rewrite run_bind, (run_elem_nth _ _ (Ct 0 0)) by done. cbn beta iota. rewrite run_upd by done.
  eexists. split; [done|]. by rewrite length_insert.
Qed.

(** The part of the compressor the tally works on. *)
Lemma run_writing_mem (c : C mem unit) (t : deflate_state) m : c (w_mem (d_writer t)) = Ret tt m →
  writing (wmem c) t = Ret tt (set_writer (set_mem m (d_writer t)) t).
Proof. intros H. unfold writing, wmem, zoom. by rewrite H. Qed.

Lemma run_tally_lit s xs c : tallied s xs → is_byte c → Z.of_nat (length xs) + 1 < lit_bufsize - 1 →
  ∃ s', on_trees (_tr_tally_lit G c) s = Ret false s' ∧ tallied s' (xs ++ [(0, c)]) ∧ tallies s s'.
Proof using HG.
  intros Ht Hc Hlt. pose proof Ht as [[Hlast _] Hroom Hsyms [Hl1 Hl2]]. destruct bufs as (_ & _ & _ & Hlit).
  destruct (run_store_symbol s xs 0 c Ht) as (m1 & m2 & S1 & S2 & Hout & Hv & Hs); [split; [cbn; lia|done]|lia|].
  unfold on_trees, zoom, _tr_tally_lit. rewrite run_bind, run_get. cbn beta iota. rewrite u8_byte, Hlast by done.
  rewrite run_bind, (run_writing_mem _ _ m1) by exact S1. cbn beta iota. rewrite run_bind, (run_writing_mem _ _ m2) by exact S2. cbn beta iota.
  destruct (run_count_symbol (dyn_ltree (c_trees s)) c (set_writer (set_mem m2 (d_writer (set_writer (set_mem m1 (d_writer (c_trees s))) (c_trees s)))) (set_writer (set_mem m1 (d_writer (c_trees s))) (c_trees s))))
    as (l & El & Hll); [unfold is_byte in Hc; lia|]. rewrite run_bind, El. cbn beta iota zeta.
  rewrite (wrap_small 32) by lia. rewrite run_bind, run_modify. cbn beta iota. rewrite run_ret, (proj2 (Z.eqb_neq _ _)) by lia.
  eexists. split; [done|]. split; [|by split]. split; [cbn; rewrite length_app; cbn; split; lia|exact Hv|exact Hs|]. cbn. split; [lia|done].
Qed.

Lemma run_tally_dist s xs dist len : tallied s xs → 1 ≤ dist ≤ 32768 → 3 ≤ len ≤ 258 → Z.of_nat (length xs) + 1 < lit_bufsize - 1 →
  ∃ s', on_trees (_tr_tally_dist G dist (len - 3)) s = Ret false s' ∧ tallied s' (xs ++ [(dist, len - 3)]) ∧ tallies s s'.
Proof using HG.
  intros Ht Hd Hlen Hlt. pose proof Ht as [[Hlast _] Hroom Hsyms [Hl1 Hl2]]. destruct bufs as (_ & _ & _ & Hlit).
  assert (is_byte (len - 3)) as Hb by (unfold is_byte; lia).
  destruct (run_store_symbol s xs dist (len - 3) Ht) as (m1 & m2 & S1 & S2 & Hout & Hv & Hs); [split; [cbn; lia|done]|lia|].
  destruct (part_ok_spec _ _ _ _ _ _ (length_parts (len - 3) Hb)) as (Hk1 & _). destruct (part_ok_spec _ _ _ _ _ _ (dist_parts (dist - 1) ltac:(lia))) as (Hk2 & _).
  unfold length_part, dist_part in *. cbn [fst snd] in *.
  unfold on_trees, zoom, _tr_tally_dist. rewrite (u8_byte (len - 3)), (wrap_small 16 dist) by (done || lia). cbn zeta. rewrite run_bind, run_get. cbn beta iota. rewrite Hlast.
  rewrite run_bind, (run_writing_mem _ _ m1) by exact S1. cbn beta iota. rewrite run_bind, (run_writing_mem _ _ m2) by exact S2. cbn beta iota.
  rewrite (wrap_small 16 (dist - 1)) by lia. set (t2 := set_writer _ _).
  rewrite run_bind, (run_elem_nth _ _ 0) by (change (length _length_code) with 256%nat; unfold is_byte in Hb; lia). cbn beta iota.
  destruct (run_count_symbol (dyn_ltree (c_trees s)) (nth (Z.to_nat (len - 3)) _length_code 0 + LITERALS + 1) t2) as (l & El & Hll); [unfold LITERALS; lia|].
  rewrite run_bind, El. cbn beta iota.
  set (i2 := if dist - 1 <? 256 then dist - 1 else 256 + (dist - 1) / 128) in *.
  assert (d_code (dist - 1) t2 = Ret (nth (Z.to_nat i2) _dist_code 0) t2) as Ed.
  { unfold d_code, i2. rewrite Z.shiftr_div_pow2 by lia. change (2 ^ 7) with 128.
    pose proof (Z.div_lt_upper_bound (dist - 1) 128 256 ltac:(lia) ltac:(lia)). pose proof (Z.div_pos (dist - 1) 128 ltac:(lia) ltac:(lia)).
    destruct (Z.ltb_spec (dist - 1) 256); apply run_elem_nth; change (length _dist_code) with 512%nat; lia. }
  rewrite run_bind, Ed. cbn beta iota.
  destruct (run_count_symbol (dyn_dtree (c_trees s)) (nth (Z.to_nat i2) _dist_code 0) t2) as (d & Ed' & Hld); [lia|]. rewrite run_bind, Ed'. cbn beta iota zeta.
  rewrite (wrap_small 32) by lia. rewrite run_bind, run_modify. cbn beta iota. rewrite run_ret, (proj2 (Z.eqb_neq _ _)) by lia.
  eexists. split; [done|]. split; [|by split]. split; [cbn; rewrite length_app; cbn; split; lia|exact Hv|exact Hs|]. cbn. split; lia.
Qed.

(** *** What keeps the parts of the invariant *)

Lemma tallied_reads s s' xs : reads G s s' → tallied s xs → tallied s' xs.
Proof using HG Happart.
  intros [_ Ht Hm _] [H1 H2 H3 H4]. destruct bufs as (E1 & E2 & E3 & Hlit). unfold disjoint_ranges in Happart.
  assert (∀ a, pb ≤ a < pb + pending_buf_size G → mem_of s' !! a = mem_of s !! a) as Hs by (intros a Ha; apply Hm; lia).
  assert (last_lit (c_trees s') = last_lit (c_trees s) ∧ dyn_ltree (c_trees s') = dyn_ltree (c_trees s) ∧ dyn_dtree (c_trees s') = dyn_dtree (c_trees s)) as (F1 & F2 & F3) by (by rewrite Ht).
  split; [by rewrite F1| | |by rewrite F2, F3].
  - intros i Hi. rewrite Hs by lia. by apply H2.
  - intros k d c Hk. destruct (H3 k d c Hk) as (A1 & A2 & A3). apply lookup_lt_Some in Hk. split; [done|]. split.
    + apply (bytes_at_ext (mem_of s)); [done|]. intros a Ha. rewrite le_bytes_length in Ha. apply Hs. lia.
    + rewrite Hs by lia. done.
Qed.
(** ** Inserting strings *)

(** The hash tables and the rolling hash are those of the strings below [q]. *)
Definition indexed (f : finder) (T : list Z) (B q : Z) : Prop :=
  chained G T B q (m_prev f) (m_head f) ∧ rolled G T (B + q) (m_ins_h f).

(** The rest of [ready]. *)
Record core (s : compressor) (D : nat) (T : list Z) (B : Z) (R : list Z) : Prop := {
  co_held : held G (mem_of s) T B (m_strstart (c_find s) + m_lookahead (c_find s));
  co_pos : 0 ≤ m_strstart (c_find s) ∧ m_strstart (c_find s) ≤ window_size ∧ 0 ≤ m_lookahead (c_find s) ∧ 0 ≤ m_match_start (c_find s) < 2 ^ 32;
  co_unread : unread G (mem_of s) (c_strm s) R;
  co_checked : checked s D T }.

Lemma ready_split s D T B R : ready G s D T B R ↔ core s D T B R ∧ indexed (c_find s) T B (m_strstart (c_find s)).
Proof. split; [intros [A1 A2 A3 A4 A5 A6]; split; by split|intros [[A1 A2 A3 A4] [A5 A6]]; by split]. Qed.

Lemma core_tallies s s' D T B R : tallies s s' → core s D T B R → core s' D T B R.
Proof using Happart.
  intros [Hf Hz (_ & _ & Hw & _) Hm] [[Hv HB Hn Hb Hl Ha] Hp [Ub Ua Un Uw Up] Hk]. pose proof (window_apart G Happart) as Hwp.
  split; rewrite ?Hf, ?Hz; try done.
  - split; try done.
    + intros i Hi. rewrite Hm by (apply Hwp; lia). by apply Hv.
    + intros i Hi. rewrite Hm by (apply Hwp; unfold window_size in *; lia). by apply Hb.
  - split; try done. apply (bytes_at_ext (mem_of s)); [done|]. intros a Ha'. apply Hm. unfold disjoint_ranges in *. lia.
  - unfold checked in *. by rewrite Hw, Hz.
Qed.

(** Where there is no string to insert, the index may go on. *)
Lemma indexed_skip f T B q q' : indexed f T B q → q ≤ q' → 0 ≤ B + q' → Z.of_nat (length T) ≤ B + q' + 2 → indexed f T B q'.
Proof.
  intros [Hc _] Hq Hpos Hlen. split; [rewrite <-(app_nil_r T); by apply (chained_mono G T [] B q)|].
  intros x y z _ _ Hz. apply lookup_lt_Some in Hz. lia.
Qed.

Definition set_tables (prev head : list Z) (ins_h : Z) (f : finder) : finder := set_m_prev prev (set_m_head head (set_m_ins_h ins_h f)).

Lemma run_INSERT_STRING s T B n q : held G (mem_of s) T B n → 0 ≤ q → q + 3 ≤ n → indexed (c_find s) T B q →
  ∃ match_head prev head ins_h, INSERT_STRING G q s = Ret match_head (set_c_find (set_tables prev head ins_h (c_find s)) s) ∧
    indexed (set_tables prev head ins_h (c_find s)) T B (q + 1) ∧ hash_at G T (B + q) = Some ins_h ∧
    chain G T B prev (low G q) ins_h match_head ∧ (match_head = 0 ∨ 0 < match_head < q) ∧
    (∀ p, safe G (m_prev (c_find s)) q p → safe G prev (q + 1) p) ∧ safe G prev (q + 1) match_head.
Proof using HG.
  intros [Hv HB Hn Hb Hl Ha] Hq Hqn [Hc Hr]. pose proof (window_size_range G HG) as [_ Hws]. pose proof (w_size_range G HG) as Hw. pose proof (hash_size_range G HG) as Hhs.
  destruct (lookup_lt_is_Some_2 T (Z.to_nat (B + q))) as [x Hx]; [lia|]. destruct (lookup_lt_is_Some_2 T (Z.to_nat (B + q + 1))) as [y Hy]; [lia|].
  destruct (lookup_lt_is_Some_2 T (Z.to_nat (B + q + 2))) as [z Hz]; [lia|]. pose proof (Forall_lookup_1 _ _ _ _ Ha Hx) as Bx. pose proof (Forall_lookup_1 _ _ _ _ Ha Hy) as By.
  assert (hash_at G T (B + q) = Some (hash3 G x y z)) as Hh by (unfold hash_at; by rewrite Hx, Hy, Hz).
  pose proof (UPDATE_HASH_range G HG (UPDATE_HASH G x y) z) as Hhr. change (0 ≤ hash3 G x y z < hash_size G) in Hhr. destruct Hc as [L1 L2 L4].
  destruct (lookup_lt_is_Some_2 (m_head (c_find s)) (Z.to_nat (hash3 G x y z))) as [hh Hhh]; [lia|].
  destruct (chained_insert G HG T B q _ _ _ hh (Build_chained _ _ _ _ _ _ L1 L2 L4) Hq Hh (proj1 Hhr) Hhh) as (Hc' & Hhh' & Hch & Hsafe & Hsafe').
  exists hh, (<[Z.to_nat (q mod w_size) := hh]> (m_prev (c_find s))), (<[Z.to_nat (hash3 G x y z) := q]> (m_head (c_find s))), (hash3 G x y z).
  split.
  - unfold INSERT_STRING, MIN_MATCH. unfold window_at. rewrite run_bind, (run_c_mem_read _ _ z); cycle 1.
    { apply run_load8. rewrite Hb by lia. by replace (B + (q + (3 - 1))) with (B + q + 2) by lia. }
    cbn beta iota. dstep. rewrite (Hr x y z Hx Hy Hz). rewrite run_bind, (run_elem _ _ hh) by (done || lia). cbn beta iota.
    pose proof (Z.mod_pos_bound q w_size ltac:(lia)). rewrite (land_w_mask G HG). rewrite run_bind, run_upd by lia. cbn beta iota.
    rewrite run_bind, run_upd by lia. cbn beta iota. rewrite (wrap_small 16 q) by lia. dstep. done.
  - split; [split; [done|]|split; [done|split; [done|split; [done|split; [done|by apply Hsafe]]]]].
    intros x' y' z' Hx' Hy' Hz'. cbn. rewrite Z.add_assoc in Hx', Hy', Hz'. rewrite Hy in Hx'. injection Hx' as <-.
    replace (B + q + 1 + 1) with (B + q + 2) in Hy' by lia. rewrite Hz in Hy'. injection Hy' as <-. by apply hash_rolls.
Qed.

(** A value of [hash_head] that can be searched from, be it of an earlier string. *)
Definition usable (f : finder) (n hh : Z) : Prop := 0 ≤ hh < 2 ^ 16 ∧ safe G (m_prev f) n hh.

(** The string at [strstart], if there is one: the chain the search begins with. *)
Definition chain_for (f : finder) (T : list Z) (B hash_head : Z) : Prop :=
  3 ≤ m_lookahead f → ∃ h, hash_at G T (B + m_strstart f) = Some h ∧ chain G T B (m_prev f) (low G (m_strstart f)) h hash_head ∧
    (hash_head = 0 ∨ 0 < hash_head < m_strstart f).

Lemma run_insert_here s D T B R hash_head : ready G s D T B R → usable (c_find s) (m_strstart (c_find s)) hash_head →
  ∃ hh prev head ins_h, insert_here G hash_head s = Ret hh (set_c_find (set_tables prev head ins_h (c_find s)) s) ∧
    usable (set_tables prev head ins_h (c_find s)) (m_strstart (c_find s) + 1) hh ∧
    indexed (set_tables prev head ins_h (c_find s)) T B (m_strstart (c_find s) + 1) ∧
    chain_for (set_tables prev head ins_h (c_find s)) T B hh.
Proof using HG.
  intros [Hco Hin]%ready_split Hhh. destruct Hco as [Hh Hp _ _]. pose proof (window_size_range G HG) as [_ Hws]. unfold insert_here. dstep. unfold MIN_MATCH.
  destruct (Z.leb_spec 3 (m_lookahead (c_find s))) as [H3|H3].
  - destruct (run_INSERT_STRING s T B _ (m_strstart (c_find s)) Hh ltac:(lia) ltac:(lia) Hin) as (hh & prev & head & ins_h & E & Hin' & Ha & Hc & Hr & _ & Hs).
    exists hh, prev, head, ins_h. split; [done|]. split; [split; [lia|done]|]. split; [done|]. intros _. by exists ins_h.
  - exists hash_head, (m_prev (c_find s)), (m_head (c_find s)), (m_ins_h (c_find s)). split; [by destruct s as [? ? ? ? ? ? ? [] ? ?]|].
    split; [split; [apply Hhh|apply (safe_mono G _ (m_strstart (c_find s))); [apply Hhh|lia]]|]. split; [|intros Hl; cbn in Hl; lia]. apply (indexed_skip _ T B (m_strstart (c_find s))); [by destruct Hin|lia|destruct Hh; lia|].
    destruct Hh as [_ _ _ _ Hl _]. lia.
Qed.

(** ** The search *)

(** What the search leaves: what there was, or too little, or a match of the text. *)
Definition outcome (f : finder) (T : list Z) (B len start : Z) : Prop :=
  (len = m_match_length f ∨ 1 ≤ len) ∧ len ≤ Z.max (m_match_length f) MAX_MATCH ∧ 0 ≤ start < 2 ^ 32 ∧
  (start = m_match_start f ∧ len ≤ Z.max (m_match_length f) (Z.max 2 (m_prev_length f)) ∨ len < 3 ∨
   is_match T (B + m_strstart f) (m_strstart f - start) len ∧ 1 ≤ m_strstart f - start ≤ MAX_DIST ∧ len ≤ m_lookahead f).

(** A candidate is a position of the chain, as far as it is searched. *)
Definition candidate (f : finder) (T : list Z) (B h p : Z) : Prop :=
  0 < p < m_strstart f ∧ limit G f ≤ p ∧ chain G T B (m_prev f) (low G (m_strstart f)) h p.

Lemma candidate_above f T B h p : candidate f T B h p → low G (m_strstart f) < p.
Proof using HG.
  intros (Hp & Hl & _). unfold limit, low, Deflate.MAX_DIST, MIN_LOOKAHEAD, MAX_MATCH, MIN_MATCH in *. pose proof (w_size_range G HG).
  destruct (Z.ltb_spec (w_size - (258 + 3 + 1)) (m_strstart f)); lia.
Qed.

Lemma candidate_next f T B h p q : candidate f T B h p → m_prev f !! Z.to_nat (p mod w_size) = Some q → limit G f < q → candidate f T B h q.
Proof using HG.
  intros Hc Hq Hl. pose proof (candidate_above _ _ _ _ _ Hc). destruct Hc as (Hp & Hlim & Hc).
  destruct (chain_next G T B _ _ _ _ _ Hc ltac:(lia) Hq) as (_ & Hr & Hc').
  assert (0 ≤ limit G f) by (unfold limit, NIL; destruct (Z.ltb_spec MAX_DIST (m_strstart f)); lia). split; [lia|]. split; [lia|done].
Qed.

(** Where the strings agree but for the third byte, the third byte agrees too. *)
Lemma candidate_match m f T B h p len : held G m T B (m_strstart f + m_lookahead f) → 0 ≤ m_strstart f → Z.of_nat (length (m_prev f)) = w_size →
  candidate f T B h p → hash_at G T (B + m_strstart f) = Some h → len ≤ m_lookahead f →
  agree_but_third m (window + m_strstart f) (window + p) len → is_match T (B + m_strstart f) (m_strstart f - p) len.
Proof using HG.
  intros [Hv HB Hn Hb Hl Ha] Hst Hpl Hc Hh Hlen [H1 H2]. pose proof (candidate_above _ _ _ _ _ Hc) as Habove. destruct Hc as (Hp & _ & Hc).
  pose proof (w_size_range G HG) as Hw. pose proof (Z.mod_pos_bound p w_size ltac:(lia)).
  destruct (lookup_lt_is_Some_2 (m_prev f) (Z.to_nat (p mod w_size))) as [q Hq]; [lia|]. destruct (chain_next G T B _ _ _ _ _ Hc Habove Hq) as (Hhp & _ & _).
  assert (∀ k, 0 ≤ k < len → m !! (window + m_strstart f + k) = m !! (window + p + k) → T !! Z.to_nat (B + m_strstart f + k) = T !! Z.to_nat (B + p + k)) as Htext.
  { intros k Hk. rewrite <-!Z.add_assoc, !Hb by lia. done. }
  assert (∀ k, 0 ≤ k < Z.min 2 len → T !! Z.to_nat (B + m_strstart f + k) = T !! Z.to_nat (B + p + k)) as H01 by (intros k Hk; apply Htext; [lia|]; apply H1; lia).
  intros k Hk. replace (B + m_strstart f + k - (m_strstart f - p)) with (B + p + k) by lia.
  destruct (decide (k < 2)); [apply H01; lia|]. destruct (decide (k = 2)) as [->|]; [|apply Htext; [lia|]; apply H2; lia].
  pose proof (H01 0 ltac:(lia)) as E0. pose proof (H01 1 ltac:(lia)) as E1. rewrite !Z.add_0_r in E0. unfold hash_at in Hh, Hhp.
  destruct (T !! Z.to_nat (B + m_strstart f)) as [x|] eqn:Ex; [|done]. destruct (T !! Z.to_nat (B + m_strstart f + 1)) as [y|] eqn:Ey; [|done].
  destruct (T !! Z.to_nat (B + m_strstart f + 2)) as [z|] eqn:Ez; [|done]. rewrite <-E0, <-E1 in Hhp.
  destruct (T !! Z.to_nat (B + p + 2)) as [z'|] eqn:Ez'; [|done]. injection Hh as <-. injection Hhp as Ehh. f_equal.
  apply (hash3_third G HG x y); [by apply (Forall_lookup_1 _ _ _ _ Ha Ex)|by apply (Forall_lookup_1 _ _ _ _ Ha Ez)|by apply (Forall_lookup_1 _ _ _ _ Ha Ez')|done].
Qed.
Lemma within_reach_spec f hh : within_reach G f hh = true → 0 ≤ hh < 2 ^ 16 → 0 ≤ m_strstart f < 2 ^ 16 → 0 < hh ≤ m_strstart f ∧ m_strstart f - hh ≤ MAX_DIST.
Proof using HG.
  unfold within_reach, NIL. rewrite andb_true_iff, negb_true_iff, Z.eqb_neq, Z.leb_le. intros [Hne Hle] Hhh Hst. pose proof (w_size_range G HG) as Hw.
  destruct (decide (hh ≤ m_strstart f)) as [|Hgt]; [rewrite wrap_small in Hle by lia; lia|].
  exfalso. unfold Deflate.MAX_DIST, MIN_LOOKAHEAD, MAX_MATCH, MIN_MATCH, wrap in Hle.
  rewrite <-(Z_mod_plus_full _ 1), Z.mod_small in Hle by lia. lia.
Qed.

(** The two searches, with the candidates that are known to have the hash of the string. *)
Lemma run_both_searches s D T B R t hh : core s D T B R → indexed (c_find s) T B (m_strstart (c_find s) + 1) → chain_for (c_find s) T B hh →
  within_reach G (c_find s) hh = true → usable (c_find s) (m_strstart (c_find s) + 1) hh → 1 ≤ m_lookahead (c_find s) →
  m_strstart (c_find s) + MIN_LOOKAHEAD ≤ window_size → 1 ≤ m_prev_length (c_find s) ≤ MAX_MATCH → 4 ≤ t_max_chain_length t < 2 ^ 32 →
  (∃ len start, longest_match G (c_find s) t hh (mem_of s) = Ret (len, start) (mem_of s) ∧ outcome (c_find s) T B len start) ∧
  (∃ len start, longest_match_fast G (c_find s) hh (mem_of s) = Ret (len, start) (mem_of s) ∧ outcome (c_find s) T B len start).
Proof using HG.
  intros [Hh Hp _ _] [Hc _] Hfor Hreach Hhh Hlook Hst Hprev Hmax. set (f := c_find s) in *. pose proof (window_size_range G HG) as [_ Hws].
  destruct (within_reach_spec f hh Hreach (proj1 Hhh) ltac:(unfold MIN_LOOKAHEAD, MAX_MATCH, MIN_MATCH in Hst; lia)) as [Hr1 Hr2]. pose proof (hd_cells _ _ _ _ _ Hh) as Hv%cells_valid.
  pose proof (cd_prev_len _ _ _ _ _ _ Hc) as Hpl.
  assert (∃ P : Z → Prop, P hh ∧ (∀ p, P p → 0 ≤ p ≤ m_strstart f) ∧ (∀ p q, P p → m_prev f !! Z.to_nat (p mod w_size) = Some q → limit G f < q → P q) ∧
    ∀ len start, P start → 0 ≤ start ≤ m_strstart f → 1 ≤ len → len ≤ m_lookahead f → len ≤ MAX_MATCH →
      agree_but_third (mem_of s) (window + m_strstart f) (window + start) len → outcome f T B len start) as (P & HP & Hrange & Hnext & Hout).
  { destruct (decide (3 ≤ m_lookahead f)) as [H3|H3].
    - destruct (Hfor H3) as (h & Hhash & Hch & Hhr). exists (candidate f T B h). split; [|split; [intros p [Hp' _]; lia|split]].
      + split; [lia|]. split; [unfold limit, NIL; destruct (Z.ltb_spec MAX_DIST (m_strstart f)); lia|done].
      + apply candidate_next.
      + intros len start Hcand Hs H1 H2 Hm Hag. split; [by right|]. split; [lia|]. split; [lia|]. right. right.
        split; [apply (candidate_match (mem_of s) f T B h); try done; lia|]. split; [|done]. destruct Hcand as (Hpos & Hlim & _).
        split; [lia|]. unfold limit in Hlim. destruct (Z.ltb_spec MAX_DIST (m_strstart f)); lia.
    - exists (λ p, 0 < p ≤ m_strstart f ∧ safe G (m_prev f) (m_strstart f + 1) p). split; [split; [done|apply Hhh]|]. split; [intros p [Hp' _]; lia|]. split.
      { intros p q [Hp' Hs] Hq Hlim. destruct (safe_next G _ _ _ _ Hs ltac:(lia) Hq) as [Hqr Hqs]. assert (0 ≤ limit G f) by (unfold limit, NIL; destruct (Z.ltb_spec MAX_DIST (m_strstart f)); lia). split; [lia|done]. }
      intros len start _ Hs H1 H2 Hm _. split; [by right|]. split; [lia|]. split; [lia|]. right. left. lia. }
  split.
  - destruct (run_longest_match G HG (mem_of s) f P Hv Hpl Hrange ltac:(lia) Hlook Hnext t hh ltac:(lia) HP Hprev Hmax) as (len & start & E & Hl & Hm & Hcase).
    exists len, start. split; [done|]. destruct Hcase as [[-> Hle]|(HPs & Hs & Hag)]; [|by apply Hout; try lia].
    split; [right; lia|]. split; [lia|]. split; [lia|]. left. split; [done|lia].
  - destruct (run_longest_match_fast G HG (mem_of s) f P Hv ltac:(lia) Hlook hh ltac:(lia) HP) as (len & start & E & Hl & Hcase).
    exists len, start. split; [done|]. destruct Hcase as [[-> ->]|(Hle & HPs & Hs & Hag)]; [|by apply Hout; try lia].
    split; [right; lia|]. unfold MAX_MATCH in *. split; [lia|]. split; [lia|]. left. split; [done|lia].
Qed.

Lemma run_find_match s D T B R hh : core s D T B R → indexed (c_find s) T B (m_strstart (c_find s) + 1) → chain_for (c_find s) T B hh →
  within_reach G (c_find s) hh = true → usable (c_find s) (m_strstart (c_find s) + 1) hh → 1 ≤ m_lookahead (c_find s) →
  m_strstart (c_find s) + MIN_LOOKAHEAD ≤ window_size → 1 ≤ m_prev_length (c_find s) ≤ MAX_MATCH → 4 ≤ t_max_chain_length (c_tune s) < 2 ^ 32 →
  ∃ len start, search G hh s = Ret tt (set_c_find (set_m_match_length len (set_m_match_start start (c_find s))) s) ∧ outcome (c_find s) T B len start.
Proof using HG.
  intros Hco Hin Hfor Hreach Hhh Hlook Hst Hprev Hmax. unfold search. dstep. dstep. cbn zeta.
  destruct (run_both_searches s D T B R (c_tune s) hh Hco Hin Hfor Hreach Hhh Hlook Hst Hprev Hmax) as [(len & start & E & Ho) (len' & start' & E' & Ho')].
  destruct (negb _ && negb _); [|destruct (_ && _)].
  - exists len, start. rewrite run_bind, (run_c_mem_read _ _ (len, start)) by exact E. done.
  - exists len', start'. rewrite run_bind, (run_c_mem_read _ _ (len', start')) by exact E'. done.
  - exists (m_match_length (c_find s)), (m_match_start (c_find s)). split; [by destruct s as [? ? ? ? ? ? ? [] ? ?]|].
    split; [by left|]. split; [lia|]. split; [apply (co_pos _ _ _ _ _ Hco)|]. left. split; [done|lia].
Qed.
End text.
