(* ===== verification/DeflateRun.v ===== *)
(** * The loops of the compressor

    [deflate_fast] and [deflate_slow] on a text that fits into the buffer of symbols: the
    symbols they tally expand, as the decompressor expands them, to the text that has been
    read, whatever the level, the strategy and the size of the window. *)

From stdpp Require Import base tactics numbers list gmap.
From S2P Require Import Prelude Memory Words MemFns TreesTables Trees TreesBlock InflateCopy InflateFast Blocks Inflate Deflate DeflateMatch DeflateChains DeflateWindow DeflateText.

Open Scope Z_scope.

Section run.
Context (BYFOUR little NO_DIVIDE : bool) (G : geometry).
Hypothesis HG : geometry_ok G.
Abbreviation window := (window G).
Abbreviation w_size := (w_size G).
Abbreviation window_size := (window_size G).
Abbreviation MAX_DIST := (MAX_DIST G).
Abbreviation pb := (pending_buf G).
Abbreviation lit_bufsize := (k_lit_bufsize G).
Hypothesis Happart : disjoint_ranges window window_size pb (pending_buf_size G).

(** ** Common to both *)

(** The finder changes, the text in the window does not. *)
Lemma core_find s f D T B R : core G s D T B R → m_strstart f + m_lookahead f = m_strstart (c_find s) + m_lookahead (c_find s) →
  0 ≤ m_strstart f ∧ m_strstart f ≤ window_size ∧ 0 ≤ m_lookahead f ∧ 0 ≤ m_match_start f < 2 ^ 32 → core G (set_c_find f s) D T B R.
Proof. intros [H1 H2 H3 H4] E Hp. split; [cbn; by rewrite E|exact Hp|exact H3|exact H4]. Qed.

Lemma tallied_find s f xs : tallied G s xs → tallied G (set_c_find f s) xs.
Proof. intros [H1 H2 H3 H4]. by split. Qed.

(** Make sure of the lookahead. *)
Lemma run_refill s D T B R flush : ready G s D T B R →
  ∃ r s' B' R1 R2, refill BYFOUR little NO_DIVIDE G flush s = Ret r s' ∧ filled G s s' D T B R R1 B' R2 ∧
    match r with
    | None => 1 ≤ m_lookahead (c_find s') ∧ m_strstart (c_find s') + MIN_LOOKAHEAD ≤ window_size
    | Some x => R2 = [] ∧ (if flush =? Z_NO_FLUSH then x = Some need_more else x = None ∧ m_lookahead (c_find s') = 0)
    end.
Proof using HG Happart.
  intros Hrd. unfold refill. dstep. destruct (window_size_range G HG) as [Ews _]. unfold MIN_LOOKAHEAD, MAX_MATCH, MIN_MATCH in *.
  destruct (Z.ltb_spec (m_lookahead (c_find s)) (258 + 3 + 1)) as [Hlt|Hge].
  - destruct (run_fill_window BYFOUR little NO_DIVIDE G HG s D T B R Hrd Happart Hlt) as (s' & B' & R1 & R2 & E & Hf & Hst & Hend).
    rewrite run_bind, E. cbn beta iota. dstep. rewrite run_ret. eexists _, s', B', R1, R2. split; [done|]. split; [done|].
    pose proof (co_pos _ _ _ _ _ _ (proj1 (proj1 (ready_split _ _ _ _ _ _) (fl_ready _ _ _ _ _ _ _ _ _ _ Hf)))) as Hp.
    unfold MIN_LOOKAHEAD, MAX_MATCH, MIN_MATCH, Deflate.MAX_DIST in *.
    destruct (Z.ltb_spec (m_lookahead (c_find s')) (258 + 3 + 1)) as [Hl|Hl]; cbn [andb].
    + assert (R2 = []) by (destruct Hend; [done|lia]). destruct (flush =? Z_NO_FLUSH); [done|].
      destruct (Z.eqb_spec (m_lookahead (c_find s')) 0); [done|]. unfold MIN_LOOKAHEAD, MAX_MATCH, MIN_MATCH in *. lia.
    + destruct (Z.eqb_spec (m_lookahead (c_find s')) 0); unfold MIN_LOOKAHEAD, MAX_MATCH, MIN_MATCH in *; lia.
  - exists None, s, B, [], R. split; [done|]. pose proof (rd_held _ _ _ _ _ _ Hrd) as Hh. pose proof (hd_n _ _ _ _ _ Hh). pose proof (rd_pos _ _ _ _ _ _ Hrd).
    split; [|lia]. split; rewrite ?app_nil_r; try done; cbn; try lia; [apply reads_refl|rewrite wrap_small; lia].
Qed.

(** The text that has been tallied is there when more is read. *)
Lemma filled_text s s' D T B R R1 B' R2 a : ready G s D T B R → filled G s s' D T B R R1 B' R2 → a ≤ B + m_strstart (c_find s) →
  B' + m_strstart (c_find s') = B + m_strstart (c_find s) ∧ take (Z.to_nat a) (T ++ R1) = take (Z.to_nat a) T.
Proof.
  intros Hrd Hf Ha. pose proof (hd_len _ _ _ _ _ (rd_held _ _ _ _ _ _ Hrd)). pose proof (rd_pos _ _ _ _ _ _ Hrd).
  rewrite (fl_start _ _ _ _ _ _ _ _ _ _ Hf). split; [lia|]. apply take_app_le. lia.
Qed.

(** ** [deflate_fast] *)

(** The strings of a match. *)
Lemma run_insert_loop T B n : ∀ j s hh, held G (mem_of s) T B n → 0 ≤ m_strstart (c_find s) → m_strstart (c_find s) + Z.of_nat (S j) + 3 ≤ n →
  indexed G (c_find s) T B (m_strstart (c_find s) + 1) → m_match_length (c_find s) = Z.of_nat (S j) → Z.of_nat (S j) < 2 ^ 32 →
  ∃ hh' prev head ins_h, loop (S j) (λ _ : Z,
      adjust (λ f, set_m_strstart (u32 (m_strstart f + 1)) f);;
      f ← finding;
      hash_head ← INSERT_STRING G (m_strstart f);
      adjust (λ f, set_m_match_length (u32 (m_match_length f - 1)) f);;
      f ← finding;
      if m_match_length f =? 0 then Break hash_head else Next hash_head) hh s =
    Ret hh' (set_c_find (set_m_match_length 0 (set_m_strstart (m_strstart (c_find s) + Z.of_nat (S j)) (set_tables prev head ins_h (c_find s)))) s) ∧
    usable G (set_tables prev head ins_h (c_find s)) (m_strstart (c_find s) + Z.of_nat (S j) + 1) hh' ∧
    indexed G (set_tables prev head ins_h (c_find s)) T B (m_strstart (c_find s) + Z.of_nat (S j) + 1).
Proof using HG.
  pose proof (window_size_range G HG) as [_ Hws]. induction j as [|j IH]; intros s hh Hh Hst Hn Hin Hlen H32; pose proof (hd_n _ _ _ _ _ Hh) as Hnw; rewrite run_loop.
  all: dstep; rewrite (wrap_small 32 (m_strstart (c_find s) + 1)) by lia; dstep; cbn [c_find set_c_find m_strstart set_m_strstart].
  all: destruct (run_INSERT_STRING G HG (set_c_find (set_m_strstart (m_strstart (c_find s) + 1) (c_find s)) s) T B n (m_strstart (c_find s) + 1) Hh ltac:(lia) ltac:(lia) Hin)
    as (h1 & p1 & d1 & i1 & E & Hin1 & _ & _ & Hr1 & _ & Hs1); rewrite run_bind, E; cbn beta iota; dstep; dstep.
  all: cbn [c_find set_c_find m_match_length set_m_match_length set_tables set_m_prev set_m_head set_m_ins_h set_m_strstart]; rewrite Hlen, (wrap_small 32) by lia.
  - rewrite (proj2 (Z.eqb_eq _ 0)) by lia. exists h1, p1, d1, i1. split; [done|]. split; [split; [lia|exact Hs1]|exact Hin1].
  - rewrite (proj2 (Z.eqb_neq _ 0)) by lia. rewrite run_ret. set (s1 := set_c_find _ _).
    destruct (IH s1 h1) as (h2 & p2 & d2 & i2 & E2 & Hr2 & Hin2); [exact Hh|cbn; lia|cbn; lia|exact Hin1|cbn; lia|lia|].
    exists h2, p2, d2, i2. cbn [c_find s1 set_c_find m_strstart set_m_match_length set_tables set_m_prev set_m_head set_m_ins_h set_m_strstart] in E2, Hr2, Hin2.
    replace (m_strstart (c_find s) + 1 + Z.of_nat (S j)) with (m_strstart (c_find s) + Z.of_nat (S (S j))) in E2, Hr2, Hin2 by lia. split; [exact E2|]. split; [done|exact Hin2].
Qed.

Record fast_ok (s : compressor) (D : nat) (T : list Z) (B : Z) (R : list Z) (O : list Z) (xs : list buffered_symbol) : Prop := {
  fo_ready : ready G s D T B R;
  fo_tallied : tallied G s xs;
  fo_prev : m_prev_length (c_find s) = 2;
  fo_len : 0 ≤ m_match_length (c_find s) < 3;
  fo_text : expand_all [] O (token_of <$> xs) = Some (take (Z.to_nat (B + m_strstart (c_find s))) T);
  fo_chain : 4 ≤ t_max_chain_length (c_tune s) < 2 ^ 32;
  fo_room : Z.of_nat (length xs) + m_lookahead (c_find s) + Z.of_nat (length R) < lit_bufsize - 1;
  fo_block : B + m_block_start (c_find s) = Z.of_nat (length O) }.

Lemma fast_filled s s' D T B R R1 B' R2 O xs : fast_ok s D T B R O xs → filled G s s' D T B R R1 B' R2 → fast_ok s' D (T ++ R1) B' R2 O xs.
Proof using HG Happart.
  intros [H1 H2 H3 H4 H5 H6 H7 H8] Hf. pose proof Hf as [F1 F2 F3 F4 F5 F6 F7 _ _ (F8 & F9 & F10 & F11)].
  destruct (filled_text _ _ _ _ _ _ _ _ _ (B + m_strstart (c_find s)) H1 Hf ltac:(lia)) as [Ea Et].
  split; [done|by apply (tallied_reads G HG Happart s)|by rewrite F9|by rewrite F8|by rewrite Ea, Et| |rewrite F2, length_app in H7; lia|lia].
  destruct F3 as [(_ & _ & _ & _ & _ & _ & ->) _ _ _]. done.
Qed.

(** A match the text has, or none. *)
Definition fast_agrees (f : finder) (T : list Z) (B : Z) : Prop :=
  m_match_length f < 3 ∨
  is_match T (B + m_strstart f) (m_strstart f - m_match_start f) (m_match_length f) ∧ 1 ≤ m_strstart f - m_match_start f ≤ MAX_DIST ∧
  m_match_length f ≤ m_lookahead f ∧ m_match_length f ≤ MAX_MATCH.
(** What holds when the search is over. *)
Record fast_mid (s : compressor) (D : nat) (T : list Z) (B : Z) (R : list Z) (O : list Z) (xs : list buffered_symbol) : Prop := {
  fm_core : core G s D T B R;
  fm_indexed : indexed G (c_find s) T B (m_strstart (c_find s) + 1);
  fm_tallied : tallied G s xs;
  fm_prev : m_prev_length (c_find s) = 2;
  fm_text : expand_all [] O (token_of <$> xs) = Some (take (Z.to_nat (B + m_strstart (c_find s))) T);
  fm_chain : 4 ≤ t_max_chain_length (c_tune s) < 2 ^ 32;
  fm_room : Z.of_nat (length xs) + m_lookahead (c_find s) + Z.of_nat (length R) < lit_bufsize - 1;
  fm_look : 1 ≤ m_lookahead (c_find s) ∧ m_strstart (c_find s) + MIN_LOOKAHEAD ≤ window_size;
  fm_block : B + m_block_start (c_find s) = Z.of_nat (length O) }.

Lemma run_fast_literal s D T B R O xs hh : fast_mid s D T B R O xs → 0 ≤ m_match_length (c_find s) < 3 →
  ∃ s' xs', fast_tally G hh s = Ret (false, hh) s' ∧ fast_ok s' D T B R O xs' ∧ m_lookahead (c_find s') < m_lookahead (c_find s) ∧
    m_prev (c_find s') = m_prev (c_find s) ∧ m_strstart (c_find s') = m_strstart (c_find s) + 1.
Proof using HG Happart.
  intros [Hco Hin Hta Hpv Htx Hch Hrm [Hl Hst] Hbk] Hlen. destruct (window_size_range G HG) as [_ Hws]. pose proof (co_pos _ _ _ _ _ _ Hco) as Hp. pose proof (co_held _ _ _ _ _ _ Hco) as Hh.
  unfold MIN_LOOKAHEAD, MAX_MATCH, MIN_MATCH in Hst. unfold fast_tally. dstep. dstep. unfold MIN_MATCH. rewrite (proj2 (Z.leb_gt 3 _)) by lia.
  pose proof (hd_B _ _ _ _ _ Hh) as HB. pose proof (hd_len _ _ _ _ _ Hh) as HT. pose proof (hd_n _ _ _ _ _ Hh) as HN.
  destruct (lookup_lt_is_Some_2 T (Z.to_nat (B + m_strstart (c_find s)))) as [b Hb]; [lia|].
  pose proof (Forall_lookup_1 _ _ _ _ (hd_all _ _ _ _ _ Hh) Hb) as Hbyte.
  unfold window_at. rewrite run_bind, (run_c_mem_read _ _ b); cycle 1.
  { apply run_load8. rewrite (hd_byte _ _ _ _ _ Hh) by lia. done. }
  cbn beta iota. destruct (run_tally_lit G HG s xs b Hta Hbyte ltac:(lia)) as (s1 & E1 & Ht1 & Hs1). rewrite run_bind, E1. cbn beta iota.
  pose proof Hs1 as [Ef Ez (_ & _ & _ & _ & _ & _ & Et) _]. dstep. rewrite Ef, !(wrap_small 32) by lia. rewrite run_ret.
  eexists _, (xs ++ [(0, b)]). split; [done|]. cbn [c_find set_c_find m_lookahead set_m_lookahead m_block_start set_m_strstart].
  split; [|split; [lia|done]].
  split; cbn [c_find set_c_find m_lookahead set_m_lookahead m_strstart set_m_strstart m_prev_length m_match_length c_tune]; try done.
  - apply ready_split. split; [|exact Hin]. apply core_find; [by apply (core_tallies G Happart s)|cbn; rewrite Ef; lia|cbn; lia].
  - by apply tallied_find.
  - rewrite fmap_app. cbn [fmap list_fmap]. rewrite Z.add_assoc. apply expand_literal; [done|lia|done].
  - by rewrite Et.
  - rewrite length_app. cbn. lia.
Qed.

Lemma run_deflate_fast_match s D T B R O xs hh : fast_mid s D T B R O xs → fast_agrees (c_find s) T B → 3 ≤ m_match_length (c_find s) → usable G (c_find s) (m_strstart (c_find s) + 1) hh →
  ∃ hh' s' xs', fast_tally G hh s = Ret (false, hh') s' ∧ usable G (c_find s') (m_strstart (c_find s')) hh' ∧ fast_ok s' D T B R O xs' ∧
    m_lookahead (c_find s') < m_lookahead (c_find s).
Proof using HG Happart.
  intros [Hco Hin Hta Hpv Htx Hch Hrm [Hl Hst] Hbk] Hmat Hlen Hhh. destruct (window_size_range G HG) as [_ Hws]. pose proof (co_pos _ _ _ _ _ _ Hco) as Hp. pose proof (co_held _ _ _ _ _ _ Hco) as Hh.
  destruct Hmat as [|(Hm & Hd & Hle & Hmx)]; [lia|]. pose proof (w_size_range G HG) as Hw. pose proof (hd_B _ _ _ _ _ Hh) as HB. pose proof (hd_len _ _ _ _ _ Hh) as HT. pose proof (hd_n _ _ _ _ _ Hh) as HN.
  unfold Deflate.MAX_DIST in Hd. unfold MIN_LOOKAHEAD, MAX_MATCH, MIN_MATCH in *. set (len := m_match_length (c_find s)) in *. set (p := m_strstart (c_find s)) in *.
  unfold fast_tally. dstep. dstep. unfold MIN_MATCH. fold len p. rewrite (proj2 (Z.leb_le 3 len)) by lia. rewrite (wrap_small 32 (p - _)) by lia.
  destruct (run_tally_dist G HG s xs (p - m_match_start (c_find s)) len Hta ltac:(lia) ltac:(lia) ltac:(lia)) as (s1 & E1 & Ht1 & Hs1). rewrite run_bind, E1. cbn beta iota.
  pose proof Hs1 as [Ef Ez (_ & _ & _ & _ & _ & _ & Et) _]. dstep. dstep. rewrite Ef. fold len.
  cbn [c_find set_c_find m_lookahead set_m_lookahead m_match_length]. fold len. rewrite (wrap_small 32 (m_lookahead (c_find s) - len)) by lia.
  set (L := m_lookahead (c_find s) - len). set (xs' := xs ++ [(p - m_match_start (c_find s), len - 3)]).
  pose proof (core_tallies G Happart s s1 D T B R Hs1 Hco) as Hco1.
  (* what the two ways of going on have to show *)
  assert (∀ f', m_strstart f' = p + len → m_lookahead f' = L → m_match_start f' = m_match_start (c_find s) → m_block_start f' = m_block_start (c_find s) → m_prev_length f' = 2 → m_match_length f' = 0 →
    indexed G f' T B (p + len) → fast_ok (set_c_find f' s1) D T B R O xs') as Hdone.
  { intros f' A1 A2 A3 Ab A4 A5 A6. split; cbn [c_find set_c_find]; rewrite ?A1, ?A2, ?A4, ?A5, ?Ab; try done.
    - apply ready_split. cbn [c_find set_c_find]. rewrite A1. split; [|done]. apply core_find; [done|rewrite A1, A2, Ef; unfold L; lia|rewrite A1, A2, A3; unfold L; lia].
    - by apply tallied_find.
    - unfold xs'. rewrite fmap_app. cbn [fmap list_fmap]. rewrite Z.add_assoc. apply expand_match; [done|lia|done|lia|done].
    - cbn. by rewrite Et.
    - unfold xs'. rewrite length_app. cbn. unfold L. lia. }
  destruct ((len <=? t_max_lazy_match (c_tune s)) && (3 <=? L)) eqn:Eins.
  - apply andb_true_iff in Eins as [_ HL%Z.leb_le]. dstep. cbn [c_find set_c_find m_match_length set_m_lookahead]. fold len. rewrite (wrap_small 32 (len - 1)) by lia.
    unfold insert_match. rewrite run_bind. dstep. cbn [c_find set_c_find m_match_length set_m_match_length].
    set (s2 := set_c_find _ (set_c_find _ s1)).
    destruct (run_insert_loop T B (p + m_lookahead (c_find s)) (Z.to_nat (len - 2)) s2 hh) as (h & pr & hd & ih & E2 & Hr & Hin2).
    { change (mem_of s2) with (mem_of s1). pose proof (co_held _ _ _ _ _ _ Hco1) as Hh1. by rewrite Ef in Hh1. }
    1-5: cbn; fold p; try (unfold L in *; lia). 1: exact Hin.
    replace (S (Z.to_nat (len - 2))) with (Z.to_nat (len - 1)) in * by lia. rewrite Z2Nat.id in * by lia.
    rewrite E2. cbn beta iota. dstep. rewrite run_ret. cbn in Hin2, Hr. fold p in Hin2, Hr. eexists h, _, xs'. cbn. fold p.
    rewrite (wrap_small 32) by lia. replace (p + (len - 1) + 1) with (p + len) in * by lia. split; [done|]. split; [exact Hr|].
    split; [|cbn; unfold L; lia].
    match goal with |- fast_ok (set_c_find ?f _) _ _ _ _ _ _ => change (fast_ok (set_c_find f s1) D T B R O xs') end. by apply Hdone.
  - rewrite run_bind, run_adjust. cbn beta iota. cbn [c_find set_c_find m_match_length set_m_lookahead m_strstart]. fold len p. rewrite (wrap_small 32 (p + len)) by lia.
    set (s2 := set_c_find _ (set_c_find _ s1)).
    assert (held G (mem_of s2) T B (m_strstart (c_find s2) + m_lookahead (c_find s2))) as Hh2.
    { change (mem_of s2) with (mem_of s1). pose proof (co_held _ _ _ _ _ _ Hco1) as Hh1. rewrite Ef in Hh1. cbn. by replace (p + len + L) with (p + m_lookahead (c_find s)) by (unfold L; lia). }
    destruct (run_restart_hash G HG s2 T B Hh2) as (h & E2 & Hroll); [cbn; lia|cbn; lia|]. rewrite run_bind, E2. cbn beta iota. rewrite run_ret.
    eexists hh, _, xs'. split; [done|]. split; [split; [apply Hhh|apply (safe_mono G _ (p + 1)); [apply Hhh|cbn; lia]]|]. split; [|cbn; unfold L; lia].
    match goal with |- fast_ok (set_c_find ?f _) _ _ _ _ _ _ => change (fast_ok (set_c_find f s1) D T B R O xs') end. apply Hdone; try done. split.
    + cbn. rewrite <-(app_nil_r T). apply (chained_mono G T [] B (p + 1)); [apply Hin|lia].
    + cbn. cbn in Hroll. destruct (decide (2 ≤ L)); [by apply Hroll|]. intros x y z _ _ Hz. apply lookup_lt_Some in Hz. unfold L in *. lia.
Qed.
(** One round. *)
Lemma run_deflate_fast_step s D T B R O xs flush hh : fast_ok s D T B R O xs → usable G (c_find s) (m_strstart (c_find s)) hh →
  ∃ r s' T' B' R' xs', fast_round BYFOUR little NO_DIVIDE G flush hh s = Ret r s' ∧ fast_ok s' D T' B' R' O xs' ∧ T' ++ R' = T ++ R ∧
    match r with
    | inl hh' => usable G (c_find s') (m_strstart (c_find s')) hh' ∧ m_lookahead (c_find s') + Z.of_nat (length R') < m_lookahead (c_find s) + Z.of_nat (length R)
    | inr x => R' = [] ∧ (if flush =? Z_NO_FLUSH then x = Some need_more else x = None ∧ m_lookahead (c_find s') = 0)
    end.
Proof using HG Happart.
  intros Hok Hhh. unfold fast_round. destruct (run_refill s D T B R flush (fo_ready _ _ _ _ _ _ _ Hok)) as (r & s1 & B1 & R1 & R2 & E1 & Hf & Hr).
  rewrite run_bind, E1. cbn beta iota. pose proof (fast_filled _ _ _ _ _ _ _ _ _ _ _ Hok Hf) as Hok1. pose proof (fl_input _ _ _ _ _ _ _ _ _ _ Hf) as ER.
  assert ((T ++ R1) ++ R2 = T ++ R) as ET by (by rewrite <-app_assoc, <-ER). destruct r as [x|].
  { exists (inr x), s1, (T ++ R1), B1, R2, xs. done. }
  destruct Hr as [Hl Hst]. assert (m_lookahead (c_find s1) + Z.of_nat (length R2) = m_lookahead (c_find s) + Z.of_nat (length R)) as Eleft.
  { rewrite (fl_look _ _ _ _ _ _ _ _ _ _ Hf), ER, length_app. lia. }
  destruct Hok1 as [Hrd Hta Hpv Hml Htx Hch Hrm Hbk]. destruct (proj1 (ready_split _ _ _ _ _ _) Hrd) as [Hco _].
  assert (usable G (c_find s1) (m_strstart (c_find s1)) hh) as Hhh1 by (split; [apply Hhh|apply (fl_safe _ _ _ _ _ _ _ _ _ _ Hf), Hhh]).
  destruct (run_insert_here G HG s1 D (T ++ R1) B1 R2 hh Hrd Hhh1) as (hh2 & prev & head & ins_h & E2 & Hhh2 & Hin2 & Hfor).
  rewrite run_bind, E2. cbn beta iota. set (s2 := set_c_find _ s1) in *. change (set_tables prev head ins_h (c_find s1)) with (c_find s2) in Hfor, Hin2, Hhh2. dstep.
  assert (∀ len start, 0 ≤ start < 2 ^ 32 → fast_mid (set_c_find (set_m_match_length len (set_m_match_start start (c_find s2))) s2) D (T ++ R1) B1 R2 O xs) as Hmid.
  { intros len start Hs. split; try done; try (by apply tallied_find, tallied_find).
    - apply core_find; [apply core_find; [done|done|apply (co_pos _ _ _ _ _ _ Hco)]|done|]. pose proof (co_pos _ _ _ _ _ _ Hco). cbn. lia. }
  pose proof (co_pos _ _ _ _ _ _ Hco) as Hp.
  assert (core G s2 D (T ++ R1) B1 R2) as Hco2 by (by apply core_find).
  assert (∃ s3, (if within_reach G (c_find s2) hh2 then search G hh2 else mret tt) s2 = Ret tt s3 ∧ fast_mid s3 D (T ++ R1) B1 R2 O xs ∧
    0 ≤ m_match_length (c_find s3) ∧ fast_agrees (c_find s3) (T ++ R1) B1 ∧ m_lookahead (c_find s3) = m_lookahead (c_find s1) ∧
    usable G (c_find s3) (m_strstart (c_find s3) + 1) hh2) as (s3 & E3 & Hmid3 & Hml3 & Hfm & El3 & Hhh3).
  { destruct (within_reach G (c_find s2) hh2) eqn:Ereach.
    - destruct (run_find_match G HG s2 D (T ++ R1) B1 R2 hh2) as (len & start & E3 & Ho1 & Ho2 & Ho3 & Ho4); try done; [cbn; rewrite Hpv; unfold MAX_MATCH; lia|].
      eexists. split; [exact E3|]. split; [by apply Hmid|]. cbn in Ho1, Ho2, Ho4 |- *. split; [lia|]. split; [|split; [done|exact Hhh2]]. unfold fast_agrees. cbn. rewrite Hpv in Ho4.
      destruct Ho4 as [[_ Hle]|[Hlt|(Hm & Hd & Hle)]]; [left; lia|by left|]. right. split; [done|]. split; [done|]. split; [done|]. unfold MAX_MATCH in *. lia.
    - exists s2. split; [done|]. split; [|split; [cbn; lia|split; [left; cbn; lia|split; [done|exact Hhh2]]]].
      pose proof (Hmid (m_match_length (c_find s2)) (m_match_start (c_find s2)) (proj2 (proj2 (proj2 Hp)))) as Hm2.
      by replace (set_c_find _ s2) with s2 in Hm2 by (destruct s1 as [? ? ? ? ? ? ? [] ? ?]; reflexivity). }
  rewrite run_bind, E3. cbn beta iota. destruct (decide (m_match_length (c_find s3) < 3)) as [Hlt|Hge].
  - destruct (run_fast_literal s3 D (T ++ R1) B1 R2 O xs hh2 Hmid3 ltac:(lia)) as (s4 & xs' & E4 & Hok4 & Hdec & Ep4 & Es4). rewrite run_bind, E4. cbn beta iota.
    exists (inl hh2), s4, (T ++ R1), B1, R2, xs'. split; [done|]. split; [done|]. split; [done|]. split; [|lia]. unfold usable. rewrite Ep4, Es4. exact Hhh3.
  - destruct (run_deflate_fast_match s3 D (T ++ R1) B1 R2 O xs hh2 Hmid3 Hfm ltac:(lia) Hhh3) as (hh4 & s4 & xs' & E4 & Hhh4 & Hok4 & Hdec). rewrite run_bind, E4. cbn beta iota.
    exists (inl hh4), s4, (T ++ R1), B1, R2, xs'. split; [done|]. split; [done|]. split; [done|]. split; [done|lia].
Qed.

(** The loop: it comes to the end of the input, and the symbols expand to the text. *)
Lemma run_deflate_fast_loop s D T B R O xs flush : fast_ok s D T B R O xs →
  ∃ x s' B' xs', loop (input_left s) (fast_round BYFOUR little NO_DIVIDE G flush) NIL s = Ret x s' ∧ fast_ok s' D (T ++ R) B' [] O xs' ∧
    (if flush =? Z_NO_FLUSH then x = Some need_more else x = None ∧ m_lookahead (c_find s') = 0).
Proof using HG Happart.
  intros Hok. pose proof (rd_pos _ _ _ _ _ _ (fo_ready _ _ _ _ _ _ _ Hok)) as Hp. destruct (ur_avail _ _ _ _ (rd_unread _ _ _ _ _ _ (fo_ready _ _ _ _ _ _ _ Hok))) as [Ea _].
  destruct (loop_total (S := compressor) (R := option block_state)
    (λ n hh s1, usable G (c_find s1) (m_strstart (c_find s1)) hh ∧ ∃ T1 B1 R1 xs1, fast_ok s1 D T1 B1 R1 O xs1 ∧ T1 ++ R1 = T ++ R ∧ Z.of_nat n = m_lookahead (c_find s1) + Z.of_nat (length R1))
    (λ x s1, ∃ B1 xs1, fast_ok s1 D (T ++ R) B1 [] O xs1 ∧ (if flush =? Z_NO_FLUSH then x = Some need_more else x = None ∧ m_lookahead (c_find s1) = 0))
    (fast_round BYFOUR little NO_DIVIDE G flush)) with (n := Z.to_nat (m_lookahead (c_find s) + Z.of_nat (length R))) (fuel := input_left s) (st := NIL) (s := s) as (x & s' & E & B1 & xs1 & Hok1 & Hx).
  - intros n hh s1 (Hhh & T1 & B1 & R1 & xs1 & Hok1 & ET & Hn). destruct (run_deflate_fast_step s1 D T1 B1 R1 O xs1 flush hh Hok1 Hhh) as (r & s2 & T2 & B2 & R2 & xs2 & E & Hok2 & ET2 & Hr).
    exists r, s2. split; [done|]. destruct r as [hh2|x].
    + destruct Hr as [Hhh2 Hdec]. pose proof (rd_pos _ _ _ _ _ _ (fo_ready _ _ _ _ _ _ _ Hok2)).
      exists (Z.to_nat (m_lookahead (c_find s2) + Z.of_nat (length R2))). split; [lia|]. split; [done|]. exists T2, B2, R2, xs2. split; [done|]. split; [congruence|lia].
    + destruct Hr as [-> Hx]. rewrite app_nil_r in ET2. exists B2, xs2. split; [|done]. by rewrite <-ET, <-ET2.
  - unfold input_left. rewrite Ea. lia.
  - split; [split; [done|by left]|]. exists T, B, R, xs. split; [done|]. split; [done|lia].
  - by exists x, s', B1, xs1.
Qed.
End run.
