(* ===== verification/DeflateLazy.v ===== *)
(** * The loop that looks ahead

    [deflate_slow] keeps a match back until it has seen whether the next position has a
    longer one.  What it keeps back is a match of the text at the position before, and its
    symbols expand to the text up to there. *)

From stdpp Require Import base tactics numbers list gmap.
From S2P Require Import Prelude Memory Words MemFns TreesTables Trees TreesBlock InflateCopy InflateFast Blocks Inflate Deflate DeflateMatch DeflateChains DeflateWindow DeflateText DeflateRun.

Open Scope Z_scope.

Section run.
Context (BYFOUR little NO_DIVIDE : bool) (G : geometry).
Hypothesis HG : geometry_ok G.
Abbreviation window := (window G).
Abbreviation w_size := (w_size G).
Abbreviation window_size := (window_size G).
Abbreviation MAX_DIST := (MAX_DIST G).
Abbreviation pb := (pending_buf G).
Abbreviation lit_bufsize := (k_lit_bufsize G).
Hypothesis Happart : disjoint_ranges window window_size pb (pending_buf_size G).

(** A match of length [len] at the position before [strstart], with [start] as the field has it. *)
Definition kept_back (f : finder) (T : list Z) (B len start : Z) : Prop :=
  3 ≤ len → m_match_available f = 1 ∧ ∃ d, start = u32 (m_strstart f - 1 - d) ∧ is_match T (B + m_strstart f - 1) d len ∧
    1 ≤ d ≤ MAX_DIST ∧ d ≤ B + m_strstart f - 1 ∧ len ≤ m_lookahead f + 1.

Record slow_common (s : compressor) (D : nat) (T : list Z) (B : Z) (R : list Z) (O : list Z) (xs : list buffered_symbol) : Prop := {
  sc_tallied : tallied G s xs;
  sc_available : m_match_available (c_find s) = 0 ∨ m_match_available (c_find s) = 1 ∧ 0 < m_strstart (c_find s);
  sc_text : expand_all [] O (token_of <$> xs) = Some (take (Z.to_nat (B + m_strstart (c_find s) - m_match_available (c_find s))) T);
  sc_chain : 4 ≤ t_max_chain_length (c_tune s) < 2 ^ 32;
  sc_room : Z.of_nat (length xs) + m_match_available (c_find s) + m_lookahead (c_find s) + Z.of_nat (length R) < lit_bufsize - 1;
  sc_block : B + m_block_start (c_find s) = Z.of_nat (length O);
  sc_out : 0 < s_avail_out (c_strm s) }.

Record slow_ok (s : compressor) (D : nat) (T : list Z) (B : Z) (R : list Z) (O : list Z) (xs : list buffered_symbol) : Prop := {
  so_ready : ready G s D T B R;
  so_common : slow_common s D T B R O xs;
  so_len : 1 ≤ m_match_length (c_find s) ≤ MAX_MATCH;
  so_kept : kept_back (c_find s) T B (m_match_length (c_find s)) (m_match_start (c_find s)) }.

Lemma slow_filled s s' D T B R R1 B' R2 O xs : slow_ok s D T B R O xs → filled G s s' D T B R R1 B' R2 → slow_ok s' D (T ++ R1) B' R2 O xs.
Proof using HG Happart.
  intros [Hrd [C1 C2 C3 C4 C5 C6 C7] Hlen Hkept] Hf. pose proof Hf as [F1 F2 F3 F4 F5 F6 F7 Flow _ (F8 & F9 & F10 & F11)].
  destruct (filled_text G _ _ _ _ _ _ _ _ _ (B + m_strstart (c_find s) - m_match_available (c_find s)) Hrd Hf ltac:(lia)) as [Ea Et].
  pose proof (hd_len _ _ _ _ _ (rd_held _ _ _ _ _ _ Hrd)) as HT. pose proof (rd_pos _ _ _ _ _ _ Hrd) as Hp.
  split; [done| |by rewrite F8|].
  - split; rewrite ?F11; [by apply (tallied_reads G HG Happart s)|lia|by rewrite Ea, Et| |rewrite F2, length_app in C5; lia|lia|].
    + destruct F3 as [(_ & _ & _ & _ & _ & _ & ->) _ _ _]. done.
    + destruct F3 as [_ _ _ (_ & -> & _)]. done.
  - unfold kept_back in *. rewrite F8, F6, F11. intros H3. destruct (Hkept H3) as (Hav & d & Hs & Hm & Hd & Hd2 & Hl). split; [done|].
    exists d. split; [rewrite F4, Hs; unfold wrap; rewrite Zminus_mod_idemp_l; f_equal; lia|]. rewrite Ea. split; [apply is_match_app; [done|lia|lia|lia]|].
    split; [done|]. split; [done|]. rewrite F5. lia.
Qed.

(** ** The search for a longer match *)

(** After the search: the match that was kept back, and the new one, if it is longer. *)
Record slow_mid (s : compressor) (D : nat) (T : list Z) (B : Z) (R : list Z) (O : list Z) (xs : list buffered_symbol) : Prop := {
  sm_core : core G s D T B R;
  sm_indexed : indexed G (c_find s) T B (m_strstart (c_find s) + 1);
  sm_common : slow_common s D T B R O xs;
  sm_prev : 1 ≤ m_prev_length (c_find s) ≤ MAX_MATCH;
  sm_kept : kept_back (c_find s) T B (m_prev_length (c_find s)) (m_prev_match (c_find s));
  sm_len : 1 ≤ m_match_length (c_find s) ≤ MAX_MATCH;
  sm_new : m_match_length (c_find s) < 3 ∨ m_match_length (c_find s) ≤ m_prev_length (c_find s) ∨
    is_match T (B + m_strstart (c_find s)) (m_strstart (c_find s) - m_match_start (c_find s)) (m_match_length (c_find s)) ∧
    1 ≤ m_strstart (c_find s) - m_match_start (c_find s) ≤ MAX_DIST ∧ m_match_length (c_find s) ≤ m_lookahead (c_find s);
  sm_look : 1 ≤ m_lookahead (c_find s) ∧ m_strstart (c_find s) + MIN_LOOKAHEAD ≤ window_size }.

(** The fields the search changes. *)
Definition set_search (len start prev_len prev_match : Z) (f : finder) : finder :=
  set_m_match_length len (set_m_match_start start (set_m_prev_length prev_len (set_m_prev_match prev_match f))).

Lemma run_lazy_search s D T B R hh : core G s D T B R → indexed G (c_find s) T B (m_strstart (c_find s) + 1) → chain_for G (c_find s) T B hh →
  usable G (c_find s) (m_strstart (c_find s) + 1) hh → 1 ≤ m_lookahead (c_find s) → m_strstart (c_find s) + MIN_LOOKAHEAD ≤ window_size →
  1 ≤ m_match_length (c_find s) ≤ MAX_MATCH → 4 ≤ t_max_chain_length (c_tune s) < 2 ^ 32 →
  ∃ len start, lazy_search G hh s = Ret tt (set_c_find (set_search len start (m_match_length (c_find s)) (m_match_start (c_find s)) (c_find s)) s) ∧
    1 ≤ len ≤ MAX_MATCH ∧ 0 ≤ start < 2 ^ 32 ∧
    (len < 3 ∨ len ≤ m_match_length (c_find s) ∨
     is_match T (B + m_strstart (c_find s)) (m_strstart (c_find s) - start) len ∧ 1 ≤ m_strstart (c_find s) - start ≤ MAX_DIST ∧ len ≤ m_lookahead (c_find s)).
Proof using HG.
  intros Hco Hin Hfor Hhh Hl Hst Hlen Hmax. pose proof (co_pos _ _ _ _ _ _ Hco) as Hp. unfold lazy_search. dstep. dstep. dstep.
  set (f3 := set_m_prev_length _ _). set (s3 := set_c_find f3 s). change (c_find s3) with f3. change (c_tune s3) with (c_tune s).
  destruct (negb (hh =? NIL) && (m_prev_length f3 <? t_max_lazy_match (c_tune s)) && (u32 (m_strstart f3 - hh) <=? MAX_DIST)) eqn:Econd.
  - apply andb_true_iff in Econd as [Econd Ec3]. apply andb_true_iff in Econd as [Ec1 _].
    destruct (run_find_match G HG s3 D T B R hh) as (len & start & E & Ho1 & Ho2 & Ho3 & Ho4); try done.
    { by apply core_find. }
    { apply andb_true_iff. by split. }
    cbn in Ho1, Ho2, Ho4. unfold MIN_MATCH, MAX_MATCH in *. rewrite run_bind, E. cbn beta iota. dstep. set (s4 := set_c_find _ s3).
    change (m_match_length (c_find s4)) with len.
    match goal with |- context [if ?b then adjust _ else _] => destruct b end.
    + rewrite run_adjust. exists 2, start. split; [done|]. split; [lia|]. split; [done|]. left. lia.
    + rewrite run_ret. exists len, start. split; [done|]. split; [lia|]. split; [done|]. destruct Ho4 as [[_ Hle]|[Hlt|Hm]]; [|by left|by right; right].
      destruct (decide (len < 3)); [by left|right; left; lia].
  - rewrite run_ret. exists 2, (m_match_start (c_find s)). split; [by destruct s as [? ? ? ? ? ? ? [] ? ?]|]. unfold MAX_MATCH in *. split; [lia|]. split; [lia|]. left. lia.
Qed.

(** ** The three ways on *)

(** The strings of the previous match, as far as there are any. *)
Lemma run_insert_prev_loop T B n : ∀ j s hh, held G (mem_of s) T B n → 0 ≤ m_strstart (c_find s) → m_strstart (c_find s) + Z.of_nat (S j) < 2 ^ 31 → 3 ≤ n → usable G (c_find s) (m_strstart (c_find s) + 1) hh →
  indexed G (c_find s) T B (m_strstart (c_find s) + 1) → m_prev_length (c_find s) = Z.of_nat (S j) →
  ∃ hh' prev head ins_h, loop (S j) (λ hash_head,
      adjust (λ f, set_m_strstart (u32 (m_strstart f + 1)) f);;
      f ← finding;
      hash_head ← (if m_strstart f <=? n - 3 then INSERT_STRING G (m_strstart f) else mret hash_head);
      adjust (λ f, set_m_prev_length (u32 (m_prev_length f - 1)) f);;
      f ← finding;
      if m_prev_length f =? 0 then Break hash_head else Next hash_head) hh s =
    Ret hh' (set_c_find (set_m_prev_length 0 (set_m_strstart (m_strstart (c_find s) + Z.of_nat (S j)) (set_tables prev head ins_h (c_find s)))) s) ∧
    usable G (set_tables prev head ins_h (c_find s)) (m_strstart (c_find s) + Z.of_nat (S j) + 1) hh' ∧
    indexed G (set_tables prev head ins_h (c_find s)) T B (m_strstart (c_find s) + Z.of_nat (S j) + 1).
Proof using HG.
  pose proof (window_size_range G HG) as [_ Hws].
  assert (∀ s hh, held G (mem_of s) T B n → 0 ≤ m_strstart (c_find s) → usable G (c_find s) (m_strstart (c_find s)) hh → indexed G (c_find s) T B (m_strstart (c_find s)) →
    ∃ h p d i, (if m_strstart (c_find s) <=? n - 3 then INSERT_STRING G (m_strstart (c_find s)) else mret hh) s = Ret h (set_c_find (set_tables p d i (c_find s)) s) ∧
      usable G (set_tables p d i (c_find s)) (m_strstart (c_find s) + 1) h ∧ indexed G (set_tables p d i (c_find s)) T B (m_strstart (c_find s) + 1)) as Hone.
  { intros s hh Hh Hst Hhh Hin. pose proof (hd_n _ _ _ _ _ Hh). pose proof (hd_len _ _ _ _ _ Hh). pose proof (hd_B _ _ _ _ _ Hh).
    destruct (Z.leb_spec (m_strstart (c_find s)) (n - 3)).
    - destruct (run_INSERT_STRING G HG s T B n (m_strstart (c_find s)) Hh Hst ltac:(lia) Hin) as (h & p & d & i & E & Hin1 & _ & _ & Hr & _ & Hs).
      exists h, p, d, i. split; [done|]. split; [split; [lia|done]|done].
    - exists hh, (m_prev (c_find s)), (m_head (c_find s)), (m_ins_h (c_find s)). split; [by destruct s as [? ? ? ? ? ? ? [] ? ?]|].
      split; [split; [apply Hhh|apply (safe_mono G _ (m_strstart (c_find s))); [apply Hhh|lia]]|]. apply (indexed_skip G _ T B (m_strstart (c_find s))); [by destruct Hin|lia|lia|lia]. }
  induction j as [|j IH]; intros s hh Hh Hst Hlim Hn Hhh Hin Hlen; rewrite run_loop.
  all: dstep; rewrite (wrap_small 32 (m_strstart (c_find s) + 1)) by lia; dstep; set (s1 := set_c_find _ s).
  all: destruct (Hone s1 hh Hh ltac:(cbn; lia) Hhh Hin) as (h1 & p1 & d1 & i1 & E & Hr1 & Hin1); rewrite run_bind, E; cbn beta iota; dstep; dstep.
  all: cbn [c_find s1 set_c_find m_prev_length set_m_prev_length set_tables set_m_prev set_m_head set_m_ins_h set_m_strstart]; rewrite Hlen, (wrap_small 32) by lia.
  - rewrite (proj2 (Z.eqb_eq _ 0)) by lia. exists h1, p1, d1, i1. split; [done|]. split; [exact Hr1|exact Hin1].
  - rewrite (proj2 (Z.eqb_neq _ 0)) by lia. rewrite run_ret. set (s2 := set_c_find _ _).
    destruct (IH s2 h1) as (h2 & p2 & d2 & i2 & E2 & Hr2 & Hin2); [exact Hh|cbn; lia|cbn; lia|done|exact Hr1|exact Hin1|cbn; lia|].
    exists h2, p2, d2, i2. cbn [c_find s2 s1 set_c_find m_strstart set_m_prev_length set_tables set_m_prev set_m_head set_m_ins_h set_m_strstart] in E2, Hr2, Hin2.
    replace (m_strstart (c_find s) + 1 + Z.of_nat (S j)) with (m_strstart (c_find s) + Z.of_nat (S (S j))) in E2, Hr2, Hin2 by lia. split; [exact E2|]. split; [done|exact Hin2].
Qed.
Lemma run_slow_match s D T B R O xs hh : slow_mid s D T B R O xs → 3 ≤ m_prev_length (c_find s) → usable G (c_find s) (m_strstart (c_find s) + 1) hh →
  ∃ hh' s' xs', slow_match G hh s = Ret (inl hh') s' ∧ usable G (c_find s') (m_strstart (c_find s')) hh' ∧ slow_ok s' D T B R O xs' ∧ m_lookahead (c_find s') < m_lookahead (c_find s).
Proof using HG Happart.
  intros [Hco Hin [C1 C2 C3 C4 C5 C6 C7] Hpv Hkept _ _ [Hl Hst]] H3 Hhh. destruct (Hkept H3) as (Hav & d & Hpm & Hm & Hd & Hd2 & Hpl).
  destruct (window_size_range G HG) as [_ Hws]. pose proof (w_size_range G HG) as Hw. pose proof (co_pos _ _ _ _ _ _ Hco) as Hp. pose proof (co_held _ _ _ _ _ _ Hco) as Hh.
  pose proof (hd_B _ _ _ _ _ Hh) as HB. pose proof (hd_len _ _ _ _ _ Hh) as HT. pose proof (hd_n _ _ _ _ _ Hh) as HN. rewrite Hav in *.
  unfold Deflate.MAX_DIST in Hd. unfold MIN_LOOKAHEAD, MAX_MATCH, MIN_MATCH in *. set (len := m_prev_length (c_find s)) in *. set (p := m_strstart (c_find s)) in *. set (L := m_lookahead (c_find s)) in *.
  unfold slow_match. dstep. fold p len L. unfold MIN_MATCH. rewrite (wrap_small 32 (p + L - 3)) by lia.
  assert (u32 (p - 1 - m_prev_match (c_find s)) = d) as ->.
  { rewrite Hpm. unfold wrap. rewrite Zminus_mod_idemp_r. rewrite Z.mod_small; lia. }
  destruct (run_tally_dist G HG s xs d len C1 ltac:(lia) ltac:(lia) ltac:(lia)) as (s1 & E1 & Ht1 & Hs1). rewrite run_bind, E1. cbn beta iota.
  pose proof Hs1 as [Ef Ez (_ & _ & _ & _ & _ & _ & Et) _]. pose proof (core_tallies G Happart s s1 D T B R Hs1 Hco) as Hco1. dstep. rewrite Ef. fold len L.
  rewrite (wrap_small 32 (L - (len - 1))), (wrap_small 32 (len - 2)) by lia. set (s2 := set_c_find _ s1).
  unfold insert_prev. rewrite run_bind. dstep. change (m_prev_length (c_find s2)) with (len - 2).
  destruct (run_insert_prev_loop T B (p + L) (Z.to_nat (len - 3)) s2 hh) as (h & pr & hd & ih & E2 & Hr & Hin2).
  { change (mem_of s2) with (mem_of s1). pose proof (co_held _ _ _ _ _ _ Hco1) as Hh1. by rewrite Ef in Hh1. }
  1-6: cbn; fold p; try lia. 1: exact Hhh. 1: exact Hin.
  replace (S (Z.to_nat (len - 3))) with (Z.to_nat (len - 2)) in * by lia. rewrite Z2Nat.id in * by lia. rewrite E2. cbn beta iota. dstep.
  cbn [c_find set_c_find m_strstart set_m_prev_length set_m_strstart]. change (m_strstart (c_find s2)) with p. rewrite (wrap_small 32) by lia.
  cbn in Hin2, Hr. fold p in Hin2, Hr. replace (p + (len - 2) + 1) with (p + len - 1) in * by lia. eexists h, _, (xs ++ [(d, len - 3)]). split; [done|]. split; [exact Hr|].
  match goal with |- slow_ok (set_c_find ?f _) _ _ _ _ _ _ ∧ _ => set (f' := f); change (slow_ok (set_c_find f' s1) D T B R O (xs ++ [(d, len - 3)]) ∧ L - (len - 1) < L) end.
  split; [|lia].
  assert (core G (set_c_find f' s1) D T B R) as Hco' by (apply core_find; [done|rewrite Ef; cbn; fold p L; lia|cbn; lia]).
  split; [apply ready_split; split; [done|]|split|cbn; unfold MAX_MATCH; lia|intros H; cbn in H; lia]; cbn.
  - exact Hin2.
  - by apply tallied_find.
  - by left.
  - rewrite fmap_app. cbn [fmap list_fmap]. replace (B + (p + len - 1) - 0) with (B + p - 1 + len) by lia. apply expand_match; [done|lia|done|lia|done].
  - by rewrite Et.
  - rewrite length_app. cbn. lia.
  - done.
  - by rewrite Ez.
Qed.

(** A step on, without a symbol or with the literal before. *)
Lemma slow_advance s s1 D T B R O xs xs' : slow_mid s D T B R O xs → (m_prev_length (c_find s) < 3 ∨ m_prev_length (c_find s) < m_match_length (c_find s)) →
  tallies G s s1 → tallied G s1 xs' → expand_all [] O (token_of <$> xs') = Some (take (Z.to_nat (B + m_strstart (c_find s))) T) →
  Z.of_nat (length xs') = Z.of_nat (length xs) + m_match_available (c_find s) →
  slow_ok (set_c_find (advance (set_m_match_available 1 (c_find s))) s1) D T B R O xs'.
Proof using HG Happart.
  intros [Hco Hin [C1 C2 C3 C4 C5 C6 C7] Hpv Hkept Hlen Hnew [Hl Hst]] Hless Hs1 Ht1 Htx Hxs. destruct (window_size_range G HG) as [_ Hws]. pose proof (co_pos _ _ _ _ _ _ Hco) as Hp.
  pose proof (hd_n _ _ _ _ _ (co_held _ _ _ _ _ _ Hco)) as HN. pose proof (hd_B _ _ _ _ _ (co_held _ _ _ _ _ _ Hco)) as HB. unfold MIN_LOOKAHEAD, MAX_MATCH, MIN_MATCH in *.
  pose proof (core_tallies G Happart s s1 D T B R Hs1 Hco) as Hco1. pose proof Hs1 as [Ef Ez (_ & _ & _ & _ & _ & _ & Et) _].
  set (f' := advance (set_m_match_available 1 (c_find s))).
  assert (m_strstart f' = m_strstart (c_find s) + 1 ∧ m_lookahead f' = m_lookahead (c_find s) - 1) as [Es' El'] by (cbn; rewrite !(wrap_small 32) by lia; done).
  split.
  - apply ready_split. split; [apply core_find; [done|rewrite Ef; lia|rewrite Es', El'; cbn; lia]|]. change (c_find (set_c_find f' s1)) with f'. rewrite Es'. exact Hin.
  - split; change (c_find (set_c_find f' s1)) with f'; change (m_match_available f') with 1; rewrite ?Es', ?El'; [by apply tallied_find|right; lia| |cbn; by rewrite Et|lia|done|cbn; by rewrite Ez].
    by replace (B + (m_strstart (c_find s) + 1) - 1) with (B + m_strstart (c_find s)) by lia.
  - exact Hlen.
  - change (c_find (set_c_find f' s1)) with f'. change (m_match_length f') with (m_match_length (c_find s)). change (m_match_start f') with (m_match_start (c_find s)).
    intros H3. split; [done|]. destruct Hnew as [|[|(Hm & Hd & Hle)]]; [lia|lia|]. exists (m_strstart (c_find s) - m_match_start (c_find s)). rewrite Es', El'.
    split; [rewrite wrap_small; lia|]. replace (B + (m_strstart (c_find s) + 1) - 1) with (B + m_strstart (c_find s)) by lia. split; [done|]. lia.
Qed.

Lemma run_slow_step s D T B R O xs flush hh : slow_ok s D T B R O xs → usable G (c_find s) (m_strstart (c_find s)) hh →
  ∃ r s' T' B' R' xs', slow_round BYFOUR little NO_DIVIDE G flush hh s = Ret r s' ∧ slow_ok s' D T' B' R' O xs' ∧ T' ++ R' = T ++ R ∧
    match r with
    | inl hh' => usable G (c_find s') (m_strstart (c_find s')) hh' ∧ m_lookahead (c_find s') + Z.of_nat (length R') < m_lookahead (c_find s) + Z.of_nat (length R)
    | inr x => R' = [] ∧ (if flush =? Z_NO_FLUSH then x = Some need_more else x = None ∧ m_lookahead (c_find s') = 0)
    end.
Proof using HG Happart.
  intros Hok Hhh. unfold slow_round. destruct (run_refill BYFOUR little NO_DIVIDE G HG Happart s D T B R flush (so_ready _ _ _ _ _ _ _ Hok)) as (r & s1 & B1 & R1 & R2 & E1 & Hf & Hr).
  rewrite run_bind, E1. cbn beta iota. pose proof (slow_filled _ _ _ _ _ _ _ _ _ _ _ Hok Hf) as Hok1. pose proof (fl_input _ _ _ _ _ _ _ _ _ _ Hf) as ER.
  assert ((T ++ R1) ++ R2 = T ++ R) as ET by (by rewrite <-app_assoc, <-ER). destruct r as [x|].
  { exists (inr x), s1, (T ++ R1), B1, R2, xs. done. }
  destruct Hr as [Hl Hst]. assert (m_lookahead (c_find s1) + Z.of_nat (length R2) = m_lookahead (c_find s) + Z.of_nat (length R)) as Eleft.
  { rewrite (fl_look _ _ _ _ _ _ _ _ _ _ Hf), ER, length_app. lia. }
  destruct Hok1 as [Hrd [C1 C2 C3 C4 C5 C6 C7] Hlen Hkept]. destruct (proj1 (ready_split _ _ _ _ _ _) Hrd) as [Hco _]. pose proof (co_pos _ _ _ _ _ _ Hco) as Hp.
  pose proof (hd_n _ _ _ _ _ (co_held _ _ _ _ _ _ Hco)) as HN. destruct (window_size_range G HG) as [_ Hws].
  assert (usable G (c_find s1) (m_strstart (c_find s1)) hh) as Hhh1 by (split; [apply Hhh|apply (fl_safe _ _ _ _ _ _ _ _ _ _ Hf), Hhh]).
  destruct (run_insert_here G HG s1 D (T ++ R1) B1 R2 hh Hrd Hhh1) as (hh2 & prev & head & ins_h & E2 & Hhh2 & Hin2 & Hfor).
  rewrite run_bind, E2. cbn beta iota. set (s2 := set_c_find _ s1) in *. change (set_tables prev head ins_h (c_find s1)) with (c_find s2) in Hfor, Hin2, Hhh2.
  assert (core G s2 D (T ++ R1) B1 R2) as Hco2 by (by apply core_find).
  destruct (run_lazy_search s2 D (T ++ R1) B1 R2 hh2) as (len & start & E3 & Hlen3 & Hs3 & Hnew); try done. rewrite run_bind, E3. cbn beta iota.
  set (s3 := set_c_find _ s2). change (m_match_length (c_find s2)) with (m_match_length (c_find s1)) in Hnew.
  assert (slow_mid s3 D (T ++ R1) B1 R2 O xs) as Hmid.
  { split; try done; [apply core_find; [done|done|]; cbn; lia|]. split; try done. by apply tallied_find, tallied_find. }
  dstep. change (m_prev_length (c_find s3)) with (m_match_length (c_find s1)). change (m_match_length (c_find s3)) with len. change (m_match_available (c_find s3)) with (m_match_available (c_find s1)).
  unfold MIN_MATCH. destruct ((3 <=? m_match_length (c_find s1)) && (len <=? m_match_length (c_find s1))) eqn:Eb.
  { apply andb_true_iff in Eb as [Eb1%Z.leb_le _]. destruct (run_slow_match s3 D (T ++ R1) B1 R2 O xs hh2 Hmid Eb1 Hhh2) as (hh4 & s4 & xs' & E4 & Hhh4 & Hok4 & Hdec). rewrite E4.
    exists (inl hh4), s4, (T ++ R1), B1, R2, xs'. split; [done|]. split; [done|]. split; [done|]. split; [done|]. change (m_lookahead (c_find s3)) with (m_lookahead (c_find s1)) in Hdec. lia. }
  assert (m_prev_length (c_find s3) < 3 ∨ m_prev_length (c_find s3) < m_match_length (c_find s3)) as Hless.
  { apply andb_false_iff in Eb as [Eb%Z.leb_gt|Eb%Z.leb_gt]; [by left|by right]. }
  destruct (Z.eqb_spec (m_match_available (c_find s1)) 0) as [Hz|Hz]; cbn [negb].
  - rewrite run_bind, run_adjust. cbn beta iota. rewrite run_ret. eexists (inl hh2), _, (T ++ R1), B1, R2, xs. split; [done|].
    pose proof (slow_advance s3 s3 D (T ++ R1) B1 R2 O xs xs Hmid Hless ltac:(by split) (tallied_find G _ _ _ (tallied_find G _ _ _ C1))) as Hadv.
    split; [apply Hadv; [|cbn; lia]; change (m_strstart (c_find s3)) with (m_strstart (c_find s1)); by rewrite C3, Hz, Z.sub_0_r|].
    split; [done|]. split; [unfold usable; cbn; rewrite (wrap_small 32) by lia; exact Hhh2|]. cbn. rewrite wrap_small by lia. lia.
  - destruct C2 as [|[Hav Hpos]]; [done|]. rewrite Hav in *. pose proof (co_held _ _ _ _ _ _ Hco) as Hh. pose proof (hd_B _ _ _ _ _ Hh). pose proof (hd_len _ _ _ _ _ Hh).
    destruct (lookup_lt_is_Some_2 (T ++ R1) (Z.to_nat (B1 + m_strstart (c_find s1) - 1))) as [b Hb]; [lia|].
    change (m_strstart (c_find s3)) with (m_strstart (c_find s1)). unfold window_at. rewrite run_bind, (run_c_mem_read _ _ b); cycle 1.
    { apply run_load8. change (mem_of s3) with (mem_of s1). rewrite (hd_byte _ _ _ _ _ Hh) by lia. by rewrite Z.add_sub_assoc. }
    cbn beta iota. destruct (run_tally_lit G HG s3 xs b) as (s4 & E4 & Ht4 & Hs4).
    { by apply tallied_find, tallied_find. }
    { by apply (Forall_lookup_1 _ _ _ _ (hd_all _ _ _ _ _ Hh) Hb). }
    { lia. }
    rewrite run_bind, E4. cbn beta iota. dstep. pose proof Hs4 as [Ef Ez _ _]. dstep. dstep.
    set (s5 := set_c_find (advance (c_find s4)) s4). change (c_strm s5) with (c_strm s4). rewrite Ez. change (c_strm s3) with (c_strm s1). rewrite (proj2 (Z.eqb_neq _ 0)) by lia.
    rewrite run_ret. exists (inl hh2), s5, (T ++ R1), B1, R2, (xs ++ [(0, b)]). split; [done|].
    assert (s5 = set_c_find (advance (set_m_match_available 1 (c_find s3))) s4) as Es5.
    { unfold s5. rewrite Ef. f_equal. transitivity (advance (set_m_match_available (m_match_available (c_find s1)) (c_find s3))); [done|by rewrite Hav]. }
    split; [rewrite Es5; apply (slow_advance s3 s4 D (T ++ R1) B1 R2 O xs); try done|].
    { change (m_strstart (c_find s3)) with (m_strstart (c_find s1)). rewrite fmap_app. cbn [fmap list_fmap].
      replace (B1 + m_strstart (c_find s1)) with (B1 + m_strstart (c_find s1) - 1 + 1) by lia. apply expand_literal; [done|lia|done]. }
    { rewrite length_app. cbn. lia. }
    split; [done|]. rewrite Es5. split; [unfold usable; cbn; rewrite (wrap_small 32) by lia; exact Hhh2|]. cbn. rewrite wrap_small by lia. lia.
Qed.

(** The loop, and the literal that is left over. *)
Lemma run_slow_loop s D T B R O xs flush : slow_ok s D T B R O xs →
  ∃ x s' B' xs', loop (input_left s) (slow_round BYFOUR little NO_DIVIDE G flush) NIL s = Ret x s' ∧ slow_ok s' D (T ++ R) B' [] O xs' ∧
    (if flush =? Z_NO_FLUSH then x = Some need_more else x = None ∧ m_lookahead (c_find s') = 0).
Proof using HG Happart.
  intros Hok. pose proof (rd_pos _ _ _ _ _ _ (so_ready _ _ _ _ _ _ _ Hok)) as Hp. destruct (ur_avail _ _ _ _ (rd_unread _ _ _ _ _ _ (so_ready _ _ _ _ _ _ _ Hok))) as [Ea _].
  destruct (loop_total (S := compressor) (R := option block_state)
    (λ n hh s1, usable G (c_find s1) (m_strstart (c_find s1)) hh ∧ ∃ T1 B1 R1 xs1, slow_ok s1 D T1 B1 R1 O xs1 ∧ T1 ++ R1 = T ++ R ∧ Z.of_nat n = m_lookahead (c_find s1) + Z.of_nat (length R1))
    (λ x s1, ∃ B1 xs1, slow_ok s1 D (T ++ R) B1 [] O xs1 ∧ (if flush =? Z_NO_FLUSH then x = Some need_more else x = None ∧ m_lookahead (c_find s1) = 0))
    (slow_round BYFOUR little NO_DIVIDE G flush)) with (n := Z.to_nat (m_lookahead (c_find s) + Z.of_nat (length R))) (fuel := input_left s) (st := NIL) (s := s) as (x & s' & E & B1 & xs1 & Hok1 & Hx).
  - intros n hh s1 (Hhh & T1 & B1 & R1 & xs1 & Hok1 & ET & Hn). destruct (run_slow_step s1 D T1 B1 R1 O xs1 flush hh Hok1 Hhh) as (r & s2 & T2 & B2 & R2 & xs2 & E & Hok2 & ET2 & Hr).
    exists r, s2. split; [done|]. destruct r as [hh2|x].
    + destruct Hr as [Hhh2 Hdec]. pose proof (rd_pos _ _ _ _ _ _ (so_ready _ _ _ _ _ _ _ Hok2)).
      exists (Z.to_nat (m_lookahead (c_find s2) + Z.of_nat (length R2))). split; [lia|]. split; [done|]. exists T2, B2, R2, xs2. split; [done|]. split; [congruence|lia].
    + destruct Hr as [-> Hx]. rewrite app_nil_r in ET2. exists B2, xs2. split; [|done]. by rewrite <-ET, <-ET2.
  - unfold input_left. rewrite Ea. lia.
  - split; [split; [done|by left]|]. exists T, B, R, xs. split; [done|]. split; [done|lia].
  - by exists x, s', B1, xs1.
Qed.
End run.
