(* ===== verification/DeflateSpec.v ===== *)
(** * What the compressor makes of a text

    [deflateReset] and then the loop of the level, for a text that fits into the buffer of
    symbols: [deflate_symbols]. *)

From stdpp Require Import base tactics numbers list gmap.
From S2P Require Import Prelude Memory Words MemFns Adler Crc TreesTables Trees TreesBlock InflateCopy InflateFast Blocks Inflate Deflate DeflateMatch DeflateChains DeflateWindow DeflateText DeflateRun DeflateLazy.

Open Scope Z_scope.

(** ** Resetting *)

Lemma run_tr_static_init {S} (s : S) : ∃ x, tr_static_init s = Ret x s.
Proof. eexists. vm_compute. reflexivity. Qed.

Lemma run_clear_freqs {S} codes (tree : list ct_data) (s : S) : 0 ≤ codes ≤ Z.of_nat (length tree) →
  ∃ t, clear_freqs codes tree s = Ret t s ∧ length t = length tree.
Proof.
  intros Hc. unfold clear_freqs.
  match goal with |- context [loop ?fl ?bd ?s0 s] =>
    destruct (loop_total (S := S) (R := list ct_data)
      (λ k '(n, t) s1, s1 = s ∧ 0 ≤ n ∧ Z.of_nat k = codes - n ∧ length t = length tree) (λ t s1, s1 = s ∧ length t = length tree) bd)
      with (n := Z.to_nat codes) (fuel := fl) (st := s0) (s := s) as (t & s1 & E & -> & Ht)
  end.
  - intros k [n t] s1 (-> & Hn & Hk & Ht). destruct (Z.ltb_spec n codes).
    + rewrite run_bind, (run_elem_nth _ _ (Ct 0 0)) by lia. cbn beta iota. rewrite run_bind, run_upd by lia. cbn beta iota. rewrite run_ret.
      eexists _, _. split; [done|]. exists (pred k). split; [lia|]. split; [done|]. split; [lia|]. split; [lia|]. by rewrite length_insert.
    + eexists _, _. split; [done|]. done.
  - lia.
  - split; [done|]. split; [lia|]. split; [lia|done].
  - by exists t.
Qed.

(** The arrays of the trees have the sizes of the source. *)
Definition trees_sized (t : deflate_state) : Prop :=
  length (dyn_ltree t) = 573%nat ∧ length (dyn_dtree t) = 61%nat ∧ length (bl_tree t) = 39%nat.

Lemma run_init_block t : trees_sized t →
  ∃ t', init_block t = Ret tt t' ∧ trees_sized t' ∧ d_writer t' = d_writer t ∧ last_lit t' = 0 ∧ data_type t' = data_type t.
Proof.
  intros (H1 & H2 & H3). unfold init_block. rewrite run_bind, run_get. cbn beta iota.
  destruct (run_clear_freqs L_CODES (dyn_ltree t) t) as (l & El & Hl); [unfold L_CODES, LITERALS, LENGTH_CODES; lia|]. rewrite run_bind, El. cbn beta iota.
  destruct (run_clear_freqs D_CODES (dyn_dtree t) t) as (d & Ed & Hd); [unfold D_CODES; lia|]. rewrite run_bind, Ed. cbn beta iota.
  destruct (run_clear_freqs BL_CODES (bl_tree t) t) as (b & Eb & Hb); [unfold BL_CODES; lia|]. rewrite run_bind, Eb. cbn beta iota.
  rewrite run_bind, (run_elem_nth _ _ (Ct 0 0)) by (unfold END_BLOCK; lia). cbn beta iota. rewrite run_bind, run_upd by (unfold END_BLOCK; lia). cbn beta iota.
  rewrite run_modify. eexists. split; [done|]. split; [|done]. unfold trees_sized. cbn. rewrite length_insert. lia.
Qed.

Lemma run_tr_init t : trees_sized t →
  ∃ t', _tr_init t = Ret tt t' ∧ trees_sized t' ∧ w_mem (d_writer t') = w_mem (d_writer t) ∧ w_pending (d_writer t') = w_pending (d_writer t) ∧ last_lit t' = 0 ∧
    w_bi_valid (d_writer t') = 0 ∧ w_bi_buf (d_writer t') = 0.
Proof.
  intros Ht. unfold _tr_init. destruct (run_tr_static_init t) as (x & E). rewrite run_bind, E. cbn beta iota. rewrite run_bind, run_modify. cbn beta iota.
  set (t1 := set_writer _ t). destruct (run_init_block t1 Ht) as (t2 & E2 & H2 & Hw & Hl & _). clear E. exists t2. rewrite Hw. split; [exact E2|]. split; [exact H2|]. split; [reflexivity|]. split; [reflexivity|]. split; [exact Hl|]. split; reflexivity.
Qed.

Section spec.
Context (BYFOUR little NO_DIVIDE : bool) (G : geometry).
Hypothesis HG : geometry_ok G.
Abbreviation window := (window G).
Abbreviation window_size := (window_size G).
Abbreviation pb := (pending_buf G).
Abbreviation lit_bufsize := (k_lit_bufsize G).

(** The memory and the arrays [deflateInit2_] has allocated; what is in them is arbitrary. *)
Record allocated (s : compressor) : Prop := {
  al_apart : disjoint_ranges window window_size pb (pending_buf_size G);
  al_window : cells (mem_of s) window window_size;
  al_pending : valid (mem_of s) pb (pending_buf_size G);
  al_prev : Z.of_nat (length (m_prev (c_find s))) = w_size G;
  al_trees : trees_sized (c_trees s);
  al_match_start : 0 ≤ m_match_start (c_find s) < 2 ^ 32 }.

(** A stream just opened. *)
Record opened (s : compressor) (c : config) : Prop := {
  op_alloc : allocated s;
  op_find : m_strstart (c_find s) = 0 ∧ m_block_start (c_find s) = 0 ∧ m_lookahead (c_find s) = 0 ∧ m_match_length (c_find s) = 2 ∧
    m_prev_length (c_find s) = 2 ∧ m_match_available (c_find s) = 0 ∧ m_head (c_find s) = replicate (Z.to_nat (hash_size G)) NIL;
  op_tune : t_max_chain_length (c_tune s) = max_chain c;
  op_last : last_lit (c_trees s) = 0 ∧ w_pending (d_writer (c_trees s)) = 0;
  op_check : checked s 0 [] }.

(** What [deflateReset] keeps of the state and what it sets, but for the search. *)
Record reset_from (s s' : compressor) : Prop := {
  rf_bits : w_bi_valid (d_writer (c_trees s')) = 0 ∧ w_bi_buf (d_writer (c_trees s')) = 0 ∧ c_pending_out s' = pb;
  rf_wrap : c_wrap s' = Z.abs (c_wrap s);
  rf_status : c_status s' = if c_wrap s' =? 0 then BUSY_STATE else INIT_STATE;
  rf_level : t_level (c_tune s') = t_level (c_tune s);
  rf_mem : mem_of s' = mem_of s;
  rf_strm : s_next_in (c_strm s') = s_next_in (c_strm s) ∧ s_avail_in (c_strm s') = s_avail_in (c_strm s) ∧
    s_next_out (c_strm s') = s_next_out (c_strm s) ∧ s_avail_out (c_strm s') = s_avail_out (c_strm s) }.

Lemma run_deflateReset s c : allocated s → configuration_table !! Z.to_nat (t_level (c_tune s)) = Some c → 0 ≤ t_level (c_tune s) →
  ∃ s', deflateReset BYFOUR little NO_DIVIDE G s = Ret Z_OK s' ∧ opened s' c ∧ reset_from s s'.
Proof using HG.
  intros [A1 A2 A3 A4 A5 A6] Hc Hlev. unfold deflateReset. dstep. set (s1 := set_c_strm _ s).
  rewrite run_bind. change (on_trees (modify (set_type Z_UNKNOWN)) s1) with (Ret tt (set_c_trees (set_type Z_UNKNOWN (c_trees s1)) s1)). cbn beta iota. set (s2 := set_c_trees _ s1).
  rewrite run_bind. change (on_writer (modify (set_pending 0)) s2) with (Ret tt (set_c_trees (set_writer (set_pending 0 (d_writer (c_trees s2))) (c_trees s2)) s2)). cbn beta iota. set (s3 := set_c_trees _ s2).
  dstep. dstep. set (s4 := set_c_pending_out _ s3).
  assert (∃ s5, (if c_wrap s4 <? 0 then modify (λ s0, set_c_wrap (- c_wrap s0) s0) else mret tt) s4 = Ret tt s5 ∧ s5 = set_c_wrap (Z.abs (c_wrap s)) s4) as (s5 & E5 & Hs5).
  { change (c_wrap s4) with (c_wrap s). destruct (Z.ltb_spec (c_wrap s) 0); eexists; (split; [done|]); [by rewrite Z.abs_neq by lia|]. rewrite Z.abs_eq by lia. by destruct s. }
  assert (c_wrap s5 = Z.abs (c_wrap s)) as Hw5 by (by rewrite Hs5).
  rewrite run_bind, E5. cbn beta iota. dstep. dstep. set (s6 := set_c_status _ s5).
  assert (∃ v, (if c_wrap s5 =? 2 then crc BYFOUR little 0 NULL 0 else adler NO_DIVIDE 0 NULL 0) s6 = Ret v s6 ∧ (c_wrap s5 = 1 → v = Adler.adler []) ∧ (c_wrap s5 = 2 → v = Crc.crc [])) as (v & E7 & Hv1 & Hv2).
  { destruct (Z.eqb_spec (c_wrap s5) 2) as [Hw|Hw]; eexists; (split; [by apply run_c_mem_read|]); (split; [intros; first [congruence|reflexivity]|intros; first [done|reflexivity]]). }
  rewrite run_bind, E7. cbn beta iota. dstep. dstep. set (s8 := set_c_last_flush _ _).
  assert (trees_sized (c_trees s8)) as Ht8 by (unfold s8, s6; rewrite Hs5; exact A5).
  destruct (run_tr_init (c_trees s8) Ht8) as (t9 & E9 & Ht9 & Hm9 & Hp9 & Hl9 & Hv9 & Hb9).
  rewrite run_bind. unfold on_trees at 1, zoom. rewrite E9. clear E9. cbn beta iota. set (s9 := set_c_trees t9 s8).
  unfold lm_init. rewrite run_bind. unfold CLEAR_HASH. rewrite run_bind, run_adjust. cbn beta iota. dstep. unfold level_config.
  assert (t_level (c_tune s9) = t_level (c_tune s)) as El9 by (unfold s9, s8, s6; by rewrite Hs5).
  rewrite run_bind. change (c_tune (set_c_find ?f s9)) with (c_tune s9). rewrite El9, (run_elem _ _ c) by done. cbn beta iota. rewrite run_bind, run_modify. cbn beta iota. rewrite run_adjust. cbn beta iota. rewrite run_ret.
  eexists. split; [done|].
  assert (mem_of s8 = mem_of s ∧ c_find s8 = c_find s ∧ s_next_in (c_strm s8) = s_next_in (c_strm s) ∧ s_avail_in (c_strm s8) = s_avail_in (c_strm s) ∧
    s_avail_out (c_strm s8) = s_avail_out (c_strm s) ∧ c_wrap s8 = c_wrap s5 ∧ s_adler (c_strm s8) = v ∧ w_pending (d_writer (c_trees s8)) = 0 ∧
    s_next_out (c_strm s8) = s_next_out (c_strm s) ∧ c_pending_out s8 = pb ∧ c_status s8 = if c_wrap s5 =? 0 then BUSY_STATE else INIT_STATE) as (M1 & M2 & M3 & M4 & M5 & M6 & M7 & M8 & M9 & M10 & M11).
  { unfold s8, s6. rewrite Hs5. done. }
  set (s' := set_c_find _ _). assert (mem_of s' = mem_of s) as Em by (transitivity (mem_of s8); [exact Hm9|done]).
  split; cycle 1.
  { split; [split_and!; [exact Hv9|exact Hb9|exact M10]| |change (c_status s8 = if c_wrap s8 =? 0 then BUSY_STATE else INIT_STATE); by rewrite M6|exact El9|exact Em|split_and!; [exact M3|exact M4|exact M9|exact M5]].
    change (c_wrap s8 = Z.abs (c_wrap s)). by rewrite M6. }
  split; [split| | | |].
  - done.
  - by rewrite Em.
  - by rewrite Em.
  - change (Z.of_nat (length (m_prev (c_find s8))) = w_size G). by rewrite M2.
  - done.
  - change (0 ≤ m_match_start (c_find s8) < 2 ^ 32). by rewrite M2.
  - done.
  - done.
  - split; [exact Hl9|]. change (w_pending (d_writer t9) = 0). by rewrite Hp9.
  - split; [change (c_wrap s8 = 1 → s_adler (c_strm s8) = Adler.adler [])|split; [change (c_wrap s8 = 2 → s_adler (c_strm s8) = Crc.crc [])|done]]; by rewrite M6, M7.
Qed.

(** ** The symbols of a text *)

(** All of the text is in the buffer as symbols, and in the window as well as far as the
    block has not slid out of it; the check is that of the text. *)
Record block_of (s : compressor) (text : list Z) (xs : list buffered_symbol) : Prop := {
  bo_tallied : tallied G s xs;
  bo_text : expand_all [] [] (token_of <$> xs) = Some text;
  bo_read : s_avail_in (c_strm s) = 0 ∧ m_lookahead (c_find s) = 0;
  bo_window : 0 ≤ m_block_start (c_find s) → bytes_at (mem_of s) (window + m_block_start (c_find s)) text ∧
    m_strstart (c_find s) - m_block_start (c_find s) = Z.of_nat (length text);
  bo_check : (c_wrap s = 1 → s_adler (c_strm s) = Adler.adler text) ∧ (c_wrap s = 2 → s_adler (c_strm s) = Crc.crc text) }.

Lemma ready_block s B text xs : ready G s 0 text B [] → tallied G s xs → expand_all [] [] (token_of <$> xs) = Some text → m_lookahead (c_find s) = 0 →
  B + m_block_start (c_find s) = 0 → block_of s text xs.
Proof.
  intros [[Hv HB Hn Hb Hl Ha] Hp _ _ [_ Ua _ _ _] (K1 & K2 & _)] Ht Hx H0 Hbk. split; [done|done|split; [cbn in Ua; lia|done]| |by rewrite drop_0 in K1, K2].
  intros Hpos. split; [|lia]. assert (B = 0) as -> by lia. replace (m_block_start (c_find s)) with 0 by lia. rewrite Z.add_0_r. split; [done|].
  intros i b Hi. apply lookup_lt_Some in Hi as Hlt. rewrite Hb by lia. replace (Z.to_nat (0 + Z.of_nat i)) with i by lia. done.
Qed.

Lemma opened_ready s c text : opened s c → unread G (mem_of s) (c_strm s) text → ready G s 0 [] 0 text ∧ tallied G s [].
Proof using HG.
  intros [[A1 A2 A3 A4 A5 A6] (F1 & F2 & F3 & F4 & F5 & F6 & F7) _ [L1 _] Hk] Hu. destruct (window_size_range G HG) as [Ew Hws]. split; [split|split].
  - rewrite F1, F3. split; [done|lia|lia|intros i Hi; lia|done|done].
  - rewrite F1, F3. lia.
  - rewrite F1. by apply chained_init.
  - intros x y z Hx. by rewrite lookup_nil in Hx.
  - done.
  - done.
  - split; [done|]. destruct (gk_lit _ HG) as (k & -> & Hk2). cbn. lia.
  - done.
  - intros k d c' Hk'. by rewrite lookup_nil in Hk'.
  - split; apply A5.
Qed.

(** What is to be compressed: it is in memory, not where the compressor works, and shorter
    than the buffer of symbols. *)
Record input_ok (s : compressor) (text : list Z) : Prop := {
  in_unread : unread G (mem_of s) (c_strm s) text;
  in_fits : Z.of_nat (length text) < lit_bufsize - 1;
  in_out : 0 < s_avail_out (c_strm s) }.

Lemma run_deflate_fast s c text flush : opened s c → 4 ≤ max_chain c < 2 ^ 32 → input_ok s text → flush ≠ Z_NO_FLUSH →
  ∃ s' xs, deflate_fast BYFOUR little NO_DIVIDE G flush s = last_block G flush s' ∧ block_of s' text xs.
Proof using HG.
  intros Ho Hch [Hu Hfit _] Hfl. destruct (opened_ready s c text Ho Hu) as [Hrd Ht]. pose proof Ho as [[A1 _ _ _ _ _] (F1 & F2 & F3 & F4 & F5 & F6 & F7) Htune _ _].
  destruct (run_deflate_fast_loop BYFOUR little NO_DIVIDE G HG A1 s 0 [] 0 text [] [] flush) as (x & s' & B' & xs' & E & [R1 R2 R3 R4 R5 R6 R7 R8] & Hx).
  { split; rewrite ?F1, ?F2, ?F3, ?F4, ?F5, ?Htune; done. }
  rewrite (proj2 (Z.eqb_neq flush Z_NO_FLUSH)) in Hx by done. destruct Hx as [-> H0]. exists s', xs'. split.
  - unfold deflate_fast. rewrite run_bind, run_get. cbn beta iota. rewrite run_bind, E. done.
  - cbn [app] in *. apply (ready_block s' B'); [done|done| |done|exact R8].
    rewrite R5. pose proof (hd_len _ _ _ _ _ (rd_held _ _ _ _ _ _ R1)). rewrite take_ge by lia. done.
Qed.

(** The literal that is left over. *)
Lemma run_deflate_slow s c text flush : opened s c → 4 ≤ max_chain c < 2 ^ 32 → input_ok s text → flush ≠ Z_NO_FLUSH →
  ∃ s' xs, deflate_slow BYFOUR little NO_DIVIDE G flush s = last_block G flush s' ∧ block_of s' text xs.
Proof using HG.
  intros Ho Hch [Hu Hfit Hout] Hfl. destruct (opened_ready s c text Ho Hu) as [Hrd Ht]. pose proof Ho as [[A1 _ _ _ _ _] (F1 & F2 & F3 & F4 & F5 & F6 & F7) Htune _ _].
  destruct (run_slow_loop BYFOUR little NO_DIVIDE G HG A1 s 0 [] 0 text [] [] flush) as (x & s' & B' & xs' & E & [R1 [C1 C2 C3 C4 C5 C6 C7] R3 R4] & Hx).
  { split; [done| |rewrite F4; unfold MAX_MATCH; lia|unfold kept_back; rewrite F4; lia]. split; rewrite ?F1, ?F2, ?F3, ?F6, ?Htune; try done. by left. }
  rewrite (proj2 (Z.eqb_neq flush Z_NO_FLUSH)) in Hx by done. destruct Hx as [-> H0]. cbn [app] in *.
  pose proof (rd_held _ _ _ _ _ _ R1) as Hh. pose proof (hd_len _ _ _ _ _ Hh) as HT. pose proof (hd_B _ _ _ _ _ Hh) as HB. pose proof (hd_n _ _ _ _ _ Hh) as HN.
  unfold deflate_slow. rewrite run_bind, run_get. cbn beta iota. rewrite run_bind, E. cbn beta iota. unfold slow_leftover.
  destruct (Z.eqb_spec (m_match_available (c_find s')) 0) as [Hz|Hz].
  - exists s', xs'. split; [rewrite run_bind; dstep; by rewrite Hz|]. apply (ready_block s' B'); [done|done| |done|exact C6]. rewrite C3, Hz. rewrite take_ge by lia. done.
  - destruct C2 as [|[Hav Hpos]]; [done|]. rewrite Hav in *. destruct (lookup_lt_is_Some_2 text (Z.to_nat (B' + m_strstart (c_find s') - 1))) as [b Hb]; [lia|].
    destruct (run_tally_lit G HG s' xs' b C1) as (s2 & E2 & Ht2 & Hs2).
    { by apply (Forall_lookup_1 _ _ _ _ (hd_all _ _ _ _ _ Hh) Hb). }
    { cbn in C5. lia. }
    exists (set_c_find (set_m_match_available 0 (c_find s2)) s2), (xs' ++ [(0, b)]). split.
    + rewrite run_bind. dstep. rewrite Hav. cbn [Z.eqb negb]. unfold window_at. rewrite run_bind, (run_c_mem_read _ _ b); cycle 1.
      { apply run_load8. rewrite (hd_byte _ _ _ _ _ Hh) by lia. by rewrite Z.add_sub_assoc. }
      cbn beta iota. rewrite run_bind, E2. cbn beta iota. rewrite run_adjust. done.
    + pose proof Hs2 as [Ef Ez _ _]. apply ready_split in R1 as [Hco Hin]. pose proof (co_pos _ _ _ _ _ _ Hco) as Hp.
      apply (ready_block _ B'); [|by apply tallied_find| |cbn; by rewrite Ef|cbn; by rewrite Ef].
      * apply ready_split. split; [|cbn; by rewrite Ef]. apply core_find; [by apply (core_tallies G A1 s')|cbn; by rewrite Ef|cbn; rewrite Ef; done].
      * rewrite fmap_app. cbn [fmap list_fmap]. rewrite (expand_literal _ _ text (B' + m_strstart (c_find s') - 1)); [|done|lia|done]. rewrite take_ge by lia. done.
Qed.
End spec.

(** ** From the arguments of [deflateInit2_] *)

(** The sizes it computes. *)
Definition geometry_of (a : allocation) (windowBits memLevel : Z) : geometry :=
  Geometry (a_window a) (Z.max 9 (snd (wrap_of windowBits))) (memLevel + 7) (a_overlay a) (Z.shiftl 1 (memLevel + 6)).

Lemma geometry_of_ok a level windowBits memLevel strategy :
  init_args_ok level Z_DEFLATED (snd (wrap_of windowBits)) memLevel strategy = true → 0 < a_window a → 0 < a_overlay a →
  geometry_ok (geometry_of a windowBits memLevel).
Proof.
  intros H Hw Ho. unfold init_args_ok, MAX_MEM_LEVEL in H. rewrite negb_true_iff, !orb_false_iff, !Z.ltb_ge in H. unfold geometry_of. split; cbn [k_w_bits k_hash_bits k_lit_bufsize k_window k_pending_buf]; [lia|lia| |done].
  exists (2 ^ (memLevel + 5)). rewrite Z.shiftl_1_l. split; [rewrite <-Z.pow_succ_r by lia; f_equal; lia|].
  split; [apply (Z.pow_le_mono_r 2 0); lia|apply Z.pow_le_mono_r; lia].
Qed.

Lemma wrap_of_bits windowBits : wrap_of windowBits = (fst (wrap_of windowBits), snd (wrap_of windowBits)).
Proof. by destruct (wrap_of windowBits). Qed.

(** The state [deflateInit2_] has when it calls [deflateReset]. *)
Definition before_reset (a : allocation) (z : z_stream) (level windowBits strategy : Z) : compressor :=
  Compressor (set_s_msg None z) 0 0 (fst (wrap_of windowBits)) None 0 0 (a_finder a) (set_t_level level (set_t_strategy strategy (a_tuning a))) (a_trees a).

Lemma run_deflateInit2_ BYFOUR little NO_DIVIDE a z level windowBits memLevel strategy c : let G := geometry_of a windowBits memLevel in
  init_args_ok level Z_DEFLATED (snd (wrap_of windowBits)) memLevel strategy = true → 0 < a_window a → 0 < a_overlay a →
  a_state a ≠ NULL → a_prev a ≠ NULL → a_head a ≠ NULL → allocated G (before_reset a z level windowBits strategy) →
  configuration_table !! Z.to_nat level = Some c →
  ∃ s, deflateInit2_ BYFOUR little NO_DIVIDE true a z level Z_DEFLATED windowBits memLevel strategy = Some (Z_OK, Some (G, s)) ∧ opened G s c ∧
    reset_from G (before_reset a z level windowBits strategy) s.
Proof.
  intros G Hargs Hw Ho N1 N2 N3 Hal Hc. pose proof (geometry_of_ok _ _ _ _ _ Hargs Hw Ho) as HG.
  assert (0 ≤ level ∧ 8 ≤ snd (wrap_of windowBits)) as [Hl Hb]. { unfold init_args_ok in Hargs. rewrite negb_true_iff, !orb_false_iff, !Z.ltb_ge in Hargs. lia. }
  destruct (run_deflateReset BYFOUR little NO_DIVIDE G HG (before_reset a z level windowBits strategy) c Hal Hc Hl) as (s & E & Hop & Hrs).
  exists s. split; [|done]. unfold deflateInit2_. cbn [negb]. rewrite (wrap_of_bits windowBits).
  replace (level =? Z_DEFAULT_COMPRESSION) with false by (symmetry; apply Z.eqb_neq; unfold Z_DEFAULT_COMPRESSION; lia). cbv zeta. rewrite Hargs. cbn [negb].
  rewrite (proj2 (Z.eqb_neq (a_state a) NULL) N1), (proj2 (Z.eqb_neq (a_prev a) NULL) N2), (proj2 (Z.eqb_neq (a_head a) NULL) N3).
  rewrite (proj2 (Z.eqb_neq (a_window a) NULL)), (proj2 (Z.eqb_neq (a_overlay a) NULL)) by (unfold NULL; lia). cbn [orb].
  replace (if snd (wrap_of windowBits) =? 8 then 9 else snd (wrap_of windowBits)) with (Z.max 9 (snd (wrap_of windowBits))) by (destruct (Z.eqb_spec (snd (wrap_of windowBits)) 8); lia).
  fold (before_reset a z level windowBits strategy) (geometry_of a windowBits memLevel). fold G. by rewrite E.
Qed.

(** From level 1 on a level has one of the two loops that search, and a chain to search. *)
Lemma level_searches level c : 1 ≤ level → configuration_table !! Z.to_nat level = Some c → 4 ≤ max_chain c < 2 ^ 32 ∧ (func c = Use_fast ∨ func c = Use_slow).
Proof.
  intros Hl Hc. apply lookup_lt_Some in Hc as Hn. change (length configuration_table) with 10%nat in Hn.
  assert (∃ k, Z.to_nat level = S k) as (k & Ek) by (exists (pred (Z.to_nat level)); lia). rewrite Ek in *. clear Ek.
  do 9 (destruct k as [|k]; [injection Hc as <-; split; [split; [done|reflexivity]|first [by left|by right]]|]). lia.
Qed.

(** C9: With every level from 1 to 9, every strategy and every size of the window and of the
    tables, and whatever the memory of the hash chains held, [deflateInit2_] succeeds and the
    loop of the level then turns a text that fits into the buffer of symbols into literals
    and matches which expand, as [inflate] expands them, to that text; all of it is read and
    checksummed, and it is still in the window if the block could be stored. What is left
    to do is to write the block. *)
Theorem deflate_symbols BYFOUR little NO_DIVIDE a z level windowBits memLevel strategy c text flush : let G := geometry_of a windowBits memLevel in
  init_args_ok level Z_DEFLATED (snd (wrap_of windowBits)) memLevel strategy = true → 1 ≤ level → configuration_table !! Z.to_nat level = Some c →
  0 < a_window a → 0 < a_overlay a → a_state a ≠ NULL → a_prev a ≠ NULL → a_head a ≠ NULL →
  allocated G (before_reset a z level windowBits strategy) → input_ok G (before_reset a z level windowBits strategy) text → flush ≠ Z_NO_FLUSH →
  ∃ s s' xs, deflateInit2_ BYFOUR little NO_DIVIDE true a z level Z_DEFLATED windowBits memLevel strategy = Some (Z_OK, Some (G, s)) ∧
    run_func BYFOUR little NO_DIVIDE G (func c) flush s = last_block G flush s' ∧ block_of G s' text xs.
Proof.
  intros G Hargs Hlev Hc Hw Ho N1 N2 N3 Hal [[U1 U2 U3 U4 U5] Hfit Hout] Hfl. pose proof (geometry_of_ok _ _ _ _ _ Hargs Hw Ho) as HG.
  destruct (run_deflateInit2_ BYFOUR little NO_DIVIDE a z level windowBits memLevel strategy c Hargs Hw Ho N1 N2 N3 Hal Hc) as (s & E & Hop & [_ _ _ _ Hm (H1 & H2 & _ & H3)]).
  destruct (level_searches level c Hlev Hc) as [Hch Hfn]. exists s.
  assert (input_ok G s text) as Hin. { split; [split; rewrite ?Hm, ?H1, ?H2; done|done|by rewrite H3]. }
  destruct Hfn as [-> | ->];
    [destruct (run_deflate_fast BYFOUR little NO_DIVIDE G HG s c text flush Hop Hch Hin Hfl) as (s' & xs & E' & Hb)
    |destruct (run_deflate_slow BYFOUR little NO_DIVIDE G HG s c text flush Hop Hch Hin Hfl) as (s' & xs & E' & Hb)]; by exists s', xs.
Qed.

(** ** The search and the window *)

(** C10: After a string is inserted the search of its chain, if [longest_match] is called,
    returns a length within the lookahead: one that is no improvement, with [match_start]
    as it was, or that of a true match, every byte of which is in the text at a distance of
    at most [MAX_DIST] before the string, though the third byte is never compared. *)
Theorem longest_match_sound G s D T B R t : geometry_ok G → ready G s D T B R → 3 ≤ m_lookahead (c_find s) →
  m_strstart (c_find s) + MIN_LOOKAHEAD ≤ window_size G → 1 ≤ m_prev_length (c_find s) ≤ MAX_MATCH → 4 ≤ t_max_chain_length t < 2 ^ 32 →
  ∃ hash_head s1, INSERT_STRING G (m_strstart (c_find s)) s = Ret hash_head s1 ∧
    (within_reach G (c_find s1) hash_head = true → ∃ len start, longest_match G (c_find s1) t hash_head (mem_of s1) = Ret (len, start) (mem_of s1) ∧
      1 ≤ len ≤ m_lookahead (c_find s) ∧ len ≤ MAX_MATCH ∧
      (start = m_match_start (c_find s) ∧ len ≤ m_prev_length (c_find s) ∨
       is_match T (B + m_strstart (c_find s)) (m_strstart (c_find s) - start) len ∧ 1 ≤ m_strstart (c_find s) - start ≤ MAX_DIST G)).
Proof.
  intros HG [[Hh Hp _ _] Hin]%ready_split H3 Hst Hprev Hmax. pose proof (window_size_range G HG) as [_ Hws].
  destruct (run_INSERT_STRING G HG s T B _ (m_strstart (c_find s)) Hh ltac:(lia) ltac:(lia) Hin) as (hh & prev & head & ins_h & E & [Hc _] & Hhash & Hch & Hhr & _ & Hsafe).
  exists hh, (set_c_find (set_tables prev head ins_h (c_find s)) s). split; [done|]. intros Hreach. cbn [c_find set_c_find] in *. set (f := set_tables prev head ins_h (c_find s)) in *.
  destruct (within_reach_spec G HG f hh Hreach) as [Hr1 Hr2]; [lia|change (m_strstart f) with (m_strstart (c_find s)); unfold MIN_LOOKAHEAD, MAX_MATCH, MIN_MATCH in Hst; lia|]. change (m_strstart (c_find s)) with (m_strstart f) in *.
  change (m_lookahead (c_find s)) with (m_lookahead f) in *. change (m_prev_length (c_find s)) with (m_prev_length f) in *. change (mem_of (set_c_find f s)) with (mem_of s).
  pose proof (cd_prev_len _ _ _ _ _ _ Hc) as Hpl. change prev with (m_prev f) in Hpl, Hch.
  destruct (run_longest_match G HG (mem_of s) f (candidate G f T B ins_h)) with (t := t) (cur_match := hh) as (len & start & El & Hl & Hm & Hcase); try done; try lia.
  - by apply cells_valid, Hh.
  - intros p [Hp' _]. lia.
  - apply (candidate_next G HG).
  - split; [lia|]. split; [unfold limit, NIL; destruct (Z.ltb_spec (MAX_DIST G) (m_strstart f)); lia|done].
  - exists len, start. split; [done|]. split; [done|]. split; [done|]. destruct Hcase as [?|(Hcand & Hs & Hag)]; [by left|]. right.
    split; [apply (candidate_match G HG (mem_of s) f T B ins_h); try done; lia|]. destruct Hcand as (Hpos & Hlim & _).
    unfold limit in Hlim. destruct (Z.ltb_spec (MAX_DIST G) (m_strstart f)); lia.
Qed.

(** C11: When the lookahead is short [fill_window] reads until it is not or there is no more
    input, sliding the window as often as it must. The window keeps the end of the text and
    gets what is read behind it; the hash chains go on linking positions with the same hash,
    those that have left the window cut off, whatever the entries never written hold; the
    rolling hash stays ready for the next string, the checksum is that of the text so far,
    and nothing else of the state changes its meaning. *)
Theorem fill_window_keeps BYFOUR little NO_DIVIDE G s D T B R : geometry_ok G → ready G s D T B R →
  disjoint_ranges (window G) (window_size G) (pending_buf G) (pending_buf_size G) → m_lookahead (c_find s) < MIN_LOOKAHEAD →
  ∃ s' B' R1 R2, fill_window BYFOUR little NO_DIVIDE G s = Ret tt s' ∧ R = R1 ++ R2 ∧ ready G s' D (T ++ R1) B' R2 ∧
    m_strstart (c_find s') = m_strstart (c_find s) - (B' - B) ∧ m_block_start (c_find s') = m_block_start (c_find s) - (B' - B) ∧
    m_lookahead (c_find s') = m_lookahead (c_find s) + Z.of_nat (length R1) ∧
    m_strstart (c_find s') < w_size G + MAX_DIST G ∧ (R2 = [] ∨ MIN_LOOKAHEAD ≤ m_lookahead (c_find s')).
Proof.
  intros HG Hrd Hd Hl. destruct (run_fill_window BYFOUR little NO_DIVIDE G HG s D T B R Hrd Hd Hl) as (s' & B' & R1 & R2 & E & [F1 F2 _ F3 F4 _ F5 _ _ _] & Hst & Hr).
  by exists s', B', R1, R2.
Qed.

(** ** Examples *)

(** A window of 1024 bytes, tables as never written, and the text to be compressed. *)
Definition demo_text : list Z := [120; 97; 98; 99; 97; 98; 99].
Definition demo_mem (win : list Z) : mem :=
  write_bytes (write_bytes (write_bytes ∅ 1000 (win ++ replicate (1024 - length win) 0)) 200000 (replicate 512 0)) 400000 demo_text.
Definition demo_trees (win : list Z) : deflate_state :=
  Deflate (Writer (demo_mem win) 0 0 0 0) (replicate 573 (Ct 0 0)) 0 (replicate 61 (Ct 0 0)) 0 (replicate 39 (Ct 0 0)) 0
    (Work (replicate 573 0) 0 0 (replicate 573 0) (replicate 16 0) 0 0) 0 0 0.
Definition demo_allocation : allocation :=
  Allocation 1 1000 1 1 200000 (Finder (replicate 512 40000) (replicate 256 7) 0 0 0 0 0 0 0 0 0) (Tuning 0 0 0 0 0 0) (demo_trees []).
Definition demo_stream (next_in avail_in : Z) : z_stream := ZStream next_in avail_in 0 600000 100 0 None 0 0.
Definition demo_geometry : geometry := Geometry 1000 9 8 200000 128.

Lemma demo_geometry_ok : geometry_ok demo_geometry.
Proof. split; [done|done| |done]. exists 64. by split; [|split]. Qed.

Lemma demo_window win : Forall is_byte win → (length win ≤ 1024)%nat → bytes_at (demo_mem win) 1000 (win ++ replicate (1024 - length win) 0).
Proof.
  intros Hw Hl. assert (length (win ++ replicate (1024 - length win) 0) = 1024%nat) as E by (rewrite length_app, length_replicate; lia).
  unfold demo_mem. apply write_bytes_frame; [apply write_bytes_frame; [apply write_bytes_at|]|]; rewrite ?E, ?length_replicate; [|by right..].
  apply Forall_app. split; [done|]. apply Forall_replicate. done.
Qed.

Lemma bytes_at_cells m p l n : bytes_at m p l → Z.of_nat (length l) = n → cells m p n.
Proof.
  intros [Hl Hb] <- i Hi. destruct (lookup_lt_is_Some_2 l (Z.to_nat i)) as [b E]; [lia|]. exists b.
  split; [|by apply (Forall_lookup_1 _ _ _ _ Hl E)]. apply Hb in E. by rewrite Z2Nat.id in E by lia.
Qed.

Lemma demo_cells win : Forall is_byte win → (length win ≤ 1024)%nat → cells (demo_mem win) 1000 1024.
Proof. intros Hw Hl. eapply bytes_at_cells; [by apply demo_window|]. rewrite length_app, length_replicate. lia. Qed.

Lemma demo_pending win : valid (demo_mem win) 200000 512.
Proof.
  apply write_bytes_valid, cells_valid. eapply bytes_at_cells; [apply write_bytes_at|by rewrite length_replicate]. apply Forall_replicate. done.
Qed.

Lemma demo_unread win : unread demo_geometry (demo_mem win) (demo_stream 400000 7) demo_text.
Proof. split; [apply write_bytes_at; repeat constructor; done|done|done|by right|by right]. Qed.

Lemma deflate_symbols_witness : ∃ s s' xs,
  deflateInit2_ false true false true demo_allocation (demo_stream 400000 7) 9 Z_DEFLATED (-9) 1 0 = Some (Z_OK, Some (demo_geometry, s)) ∧
  run_func false true false demo_geometry Use_slow Z_FINISH s = last_block demo_geometry Z_FINISH s' ∧ block_of demo_geometry s' demo_text xs.
Proof.
  apply (deflate_symbols false true false demo_allocation (demo_stream 400000 7) 9 (-9) 1 0 (Config 32 258 258 4096 Use_slow) demo_text Z_FINISH); try done.
  - split; [by left|by apply demo_cells; [constructor|apply Nat.le_0_l]|apply demo_pending|done|done|done].
  - split; [apply (demo_unread [])|done|done].
Defined.

Lemma fill_window_keeps_witness : ∃ s, ready demo_geometry s 0 [] 0 demo_text ∧
  ∃ s' B' R1 R2, fill_window false true false demo_geometry s = Ret tt s' ∧ demo_text = R1 ++ R2 ∧ ready demo_geometry s' 0 R1 B' R2 ∧
    m_strstart (c_find s') = m_strstart (c_find s) - (B' - 0) ∧ m_block_start (c_find s') = m_block_start (c_find s) - (B' - 0) ∧
    m_lookahead (c_find s') = m_lookahead (c_find s) + Z.of_nat (length R1) ∧
    m_strstart (c_find s') < 762 ∧ (R2 = [] ∨ MIN_LOOKAHEAD ≤ m_lookahead (c_find s')).
Proof.
  set (s := Compressor (demo_stream 400000 7) BUSY_STATE 0 0 None 0 0 (Finder (replicate 512 40000) (replicate 256 0) 0 0 2 0 0 0 0 0 2) (Tuning 4 4 4 4 1 0) (demo_trees [])).
  assert (ready demo_geometry s 0 [] 0 demo_text) as Hr.
  { split; [split|done|apply (chained_init _ demo_geometry_ok); reflexivity| | |].
    - by apply demo_cells; [constructor|apply Nat.le_0_l].
    - done.
    - done.
    - intros i Hi. cbn in Hi. lia.
    - done.
    - constructor.
    - intros x y z Hx. by rewrite lookup_nil in Hx.
    - apply demo_unread.
    - done. }
  exists s. split; [exact Hr|]. apply (fill_window_keeps false true false demo_geometry s 0 [] 0 demo_text demo_geometry_ok Hr); [by left|done].
Defined.

(** The strings at 0 to 3 of the text inserted: the one at 4 is that at 1. *)
Definition demo_head : list Z :=
  <[Z.to_nat (hash3 demo_geometry 99 97 98) := 3]> (<[Z.to_nat (hash3 demo_geometry 98 99 97) := 2]>
    (<[Z.to_nat (hash3 demo_geometry 97 98 99) := 1]> (<[Z.to_nat (hash3 demo_geometry 120 97 98) := 0]> (replicate 256 0)))).
Definition demo_prev : list Z := <[3%nat := 0]> (<[2%nat := 0]> (<[1%nat := 0]> (<[0%nat := 0]> (replicate 512 40000)))).
Definition demo_searching : compressor :=
  Compressor (demo_stream 400007 0) BUSY_STATE 0 0 None 0 0 (Finder demo_prev demo_head (hash3 demo_geometry 99 97 98) 0 2 0 0 4 0 3 2)
    (Tuning 4 4 4 4 1 0) (demo_trees demo_text).

Lemma demo_chained : chained demo_geometry demo_text 0 4 demo_prev demo_head.
Proof.
  pose proof (chained_init _ demo_geometry_ok demo_text 0 (replicate 512 40000) (replicate 256 0) eq_refl eq_refl) as H.
  do 4 (eapply (chained_insert _ demo_geometry_ok) in H as [H _]; [|done|vm_compute; reflexivity|done|vm_compute; reflexivity]).
  exact H.
Qed.

Lemma demo_ready : ready demo_geometry demo_searching 0 demo_text 0 [].
Proof.
  assert (Forall is_byte demo_text) as Hb by (repeat constructor; done). pose proof (demo_window demo_text Hb ltac:(cbn; lia)) as [_ Hw].
  split; [split|done|exact demo_chained| | |split; [done|split; [done|apply Nat.le_0_l]]].
  - by apply demo_cells; [|cbn; lia].
  - done.
  - done.
  - intros i Hi. cbn in Hi. destruct (lookup_lt_is_Some_2 demo_text (Z.to_nat i)) as [b E]; [cbn; lia|]. rewrite Z.add_0_l, E.
    rewrite <-(Hw (Z.to_nat i) b), Z2Nat.id by (first [lia|by apply lookup_app_l_Some]). done.
  - done.
  - done.
  - intros x y z [= <-] [= <-] [= <-]. reflexivity.
  - split; [split; [constructor|by intros i b E; rewrite lookup_nil in E]|done|done|by right|by right].
Qed.

Lemma longest_match_sound_witness : ∃ s1, INSERT_STRING demo_geometry 4 demo_searching = Ret 1 s1 ∧
  ∃ len start, longest_match demo_geometry (c_find s1) (Tuning 4 4 4 4 1 0) 1 (mem_of s1) = Ret (len, start) (mem_of s1) ∧
    1 ≤ len ≤ 3 ∧ len ≤ MAX_MATCH ∧ (start = 0 ∧ len ≤ 2 ∨ is_match demo_text (0 + 4) (4 - start) len ∧ 1 ≤ 4 - start ≤ MAX_DIST demo_geometry).
Proof.
  destruct (longest_match_sound demo_geometry demo_searching 0 demo_text 0 [] (Tuning 4 4 4 4 1 0) demo_geometry_ok demo_ready) as (hh & s1 & E & H); [done..|].
  change (m_strstart (c_find demo_searching)) with 4 in E.
  assert (hh = 1 ∧ within_reach demo_geometry (c_find s1) 1 = true) as [-> Hr].
  { assert (match INSERT_STRING demo_geometry 4 demo_searching with Ret h s2 => (h =? 1) && within_reach demo_geometry (c_find s2) 1 | _ => false end = true) as Ht
      by (vm_compute; reflexivity). rewrite E in Ht. apply andb_true_iff in Ht as [Ht1%Z.eqb_eq Ht2]. exact (conj Ht1 Ht2). }
  exists s1. split; [exact E|]. exact (H Hr).
Defined.
