(* ===== verification/DeflateStored.v ===== *)
(** * Level 0: storing, from [deflateInit2_] to [inflate] and back

    Without compression the whole way through the library can be followed: a stream is
    opened, one call of [deflate] writes the header, the text in stored blocks and the
    checksum, and [inflate] returns the text: [deflate_stored_round_trip]. *)

From stdpp Require Import base tactics numbers list gmap.
From S2P Require Import Prelude Memory Words MemFns Adler Crc TreesTables Trees Bitstream TreesBits TreesBlock InflateCopy InflateFast Blocks Inflate Roundtrip ZlibFormat Deflate DeflateMatch DeflateChains DeflateWindow DeflateText DeflateRun DeflateSpec.

Open Scope Z_scope.

(** ** Bytes that are whole blocks *)

(** The bytes are exactly the fields. *)
Record aligned (l : list Z) (fs : list field) : Prop := {
  ag_bytes : Forall is_byte l;
  ag_fields : Forall field_ok fs;
  ag_value : le_value l = pack fs;
  ag_width : 8 * Z.of_nat (length l) = width fs }.

Lemma aligned_nil : aligned [] [].
Proof. by split. Qed.

Lemma aligned_app l fs l' fs' : aligned l fs → aligned l' fs' → aligned (l ++ l') (fs ++ fs').
Proof.
  intros [A1 A2 A3 A4] [B1 B2 B3 B4]. split; [by apply Forall_app_2|by apply Forall_app_2| |rewrite length_app, width_app; lia].
  rewrite le_value_app, pack_app by done. by rewrite A3, B3, A4.
Qed.

Lemma aligned_begins l fs : aligned l fs → begins (le_value l) fs ∧ Z.of_nat (length l) = (width fs + 7) / 8.
Proof.
  intros [A1 A2 A3 A4]. pose proof (pack_range fs A2). split; [unfold begins; rewrite A3; by apply Z.mod_small|].
  apply (Z.div_unique _ 8 _ 7); lia.
Qed.

(** A writer that has come to a byte boundary. *)
Lemma wrote_aligned pb m w fs : wrote pb m 0 w fs → w_bi_valid w = 0 →
  ∃ l, aligned l fs ∧ w_mem w = write_bytes m pb l ∧ w_pending w = Z.of_nat (length l) ∧ w_bi_buf w = 0.
Proof.
  intros (l & Hfs & (Hm & Hl & Hp) & _ & Hb & Hpack & Hw) Hv. rewrite Hv in *. change (2 ^ 0) with 1 in Hb. assert (w_bi_buf w = 0) as E by lia. rewrite E in Hpack.
  exists l. split; [split; [done|done|lia|lia]|]. rewrite Z.add_0_r in Hm. split; [done|]. split; [lia|done].
Qed.

Lemma stored_fields_aligned eof n bs : n mod 8 = 0 → stored_fields eof n bs = stored_fields eof 0 bs.
Proof.
  intros H. unfold stored_fields. replace (pad (n + 3)) with (pad (0 + 3)); [done|]. unfold pad.
  rewrite (Z.div_mod n 8), H by lia. replace (- (8 * (n / 8) + 0 + 3)) with (- 3 + - (n / 8) * 8) by lia. by rewrite Z_mod_plus_full.
Qed.

Lemma stored_width eof bs : width (stored_fields eof 0 bs) = 40 + 8 * Z.of_nat (length bs).
Proof. unfold stored_fields. rewrite width_app, byte_fields_width. reflexivity. Qed.

(** Blocks that are not the last. *)
Definition open_fields (bs : list (list Z)) : list field := mjoin (stored_fields 0 0 <$> bs).

Lemma open_fields_snoc bs b : open_fields (bs ++ [b]) = open_fields bs ++ stored_fields 0 0 b.
Proof. unfold open_fields. rewrite fmap_app, join_app. cbn. by rewrite app_nil_r. Qed.

Lemma open_stream bs b : ∀ n, n mod 8 = 0 → stream_fields n (Stored <$> bs ++ [b]) = open_fields bs ++ stored_fields 1 0 b.
Proof.
  induction bs as [|b0 bs IH]; intros n Hn; cbn [fmap list_fmap app stream_fields fields_of].
  - rewrite stored_fields_aligned by done. by rewrite app_nil_r.
  - assert (match Stored <$> bs ++ [b] with [] => 1 | _ => 0 end = 0) as -> by (by destruct bs). rewrite stored_fields_aligned by done.
    change (open_fields (b0 :: bs)) with (stored_fields 0 0 b0 ++ open_fields bs). rewrite IH; [by rewrite <-app_assoc|]. rewrite stored_width. replace (n + (40 + 8 * Z.of_nat (length b0))) with (n + (5 + Z.of_nat (length b0)) * 8) by lia. by rewrite Z_mod_plus_full.
Qed.

Lemma open_text bs : ∀ O, stream_text [] O (Stored <$> bs) = Some (O ++ mjoin bs).
Proof. induction bs as [|b bs IH]; intros O; cbn; [by rewrite app_nil_r|]. by rewrite IH, <-app_assoc. Qed.

(** ** The output of the compressor *)

(** [s'] differs from [s] in the writer and the output only. *)
Record quiet (G : geometry) (out n_out : Z) (s s' : compressor) : Prop := {
  qu_rest : c_wrap s' = c_wrap s ∧ c_gzhead s' = c_gzhead s ∧ c_last_flush s' = c_last_flush s ∧ c_tune s' = c_tune s ∧ c_status s' = c_status s ∧ c_find s' = c_find s;
  qu_in : s_next_in (c_strm s') = s_next_in (c_strm s) ∧ s_avail_in (c_strm s') = s_avail_in (c_strm s) ∧ s_adler (c_strm s') = s_adler (c_strm s);
  qu_mem : ∀ a, a < pending_buf G ∨ pending_buf G + pending_buf_size G ≤ a → a < out ∨ out + n_out ≤ a → mem_of s' !! a = mem_of s !! a }.

Section output.
Context (G : geometry) (out n_out : Z).
Abbreviation pb := (pending_buf G).
Abbreviation pbs := (pending_buf_size G).
Abbreviation quiet := (quiet G out n_out).
Hypothesis HG : geometry_ok G.
Hypothesis Hapart : disjoint_ranges out n_out pb pbs.
Hypothesis Hspace : n_out < 2 ^ 32.

Lemma pbs_range : 8 ≤ pbs ≤ 2 ^ 17.
Proof using HG. destruct (gk_lit _ HG) as (k & E & Hk). unfold pending_buf_size. rewrite E. lia. Qed.

(** [L] has been given to the caller, [l] is still pending; there are no bits left over. *)
Record pend (s : compressor) (L l : list Z) : Prop := {
  pd_writer : w_pending (d_writer (c_trees s)) = Z.of_nat (length l) ∧ w_bi_valid (d_writer (c_trees s)) = 0 ∧
    w_bi_buf (d_writer (c_trees s)) = 0 ∧ c_pending_out s = pb;
  pd_bytes : bytes_at (mem_of s) pb l ∧ Z.of_nat (length l) ≤ pbs;
  pd_trees : trees_sized (c_trees s);
  pd_room : valid (mem_of s) pb pbs;
  pd_out : valid (mem_of s) out n_out ∧ bytes_at (mem_of s) out L;
  pd_next : s_next_out (c_strm s) = out + Z.of_nat (length L) ∧ s_avail_out (c_strm s) = n_out - Z.of_nat (length L) ∧ Z.of_nat (length L) ≤ n_out }.

Lemma run_pending s : pending s = Ret (w_pending (d_writer (c_trees s))) s.
Proof. reflexivity. Qed.

Lemma quiet_refl s : quiet s s.
Proof. by split. Qed.

Lemma quiet_trans s1 s2 s3 : quiet s1 s2 → quiet s2 s3 → quiet s1 s3.
Proof.
  intros [(? & ? & ? & ? & ? & ?) (? & ? & ?) M1] [(? & ? & ? & ? & ? & ?) (? & ? & ?) M2].
  split; [split_and!; congruence|split_and!; congruence|]. intros a H1' H2'. by rewrite M2, M1.
Qed.

Lemma run_flush_pending s L l : pend s L l → Z.of_nat (length L + length l) ≤ n_out →
  ∃ s', flush_pending G s = Ret tt s' ∧ pend s' (L ++ l) [] ∧ quiet s s'.
Proof using HG Hapart Hspace.
  intros [(Hp & Hv & Hb & Ho) [Hl Hle] Ht Hr [Hout HL] (Hn & Ha & HnL)] Hfit. unfold flush_pending. dstep. rewrite run_bind, run_pending. cbn beta iota zeta.
  rewrite Hp, (proj2 (Z.ltb_ge _ (Z.of_nat (length l)))) by lia. destruct (Z.eqb_spec (Z.of_nat (length l)) 0) as [Hz|Hz].
  { exists s. assert (l = []) as -> by (apply length_zero_iff_nil; lia). rewrite app_nil_r. split; [done|]. split; [by split|apply quiet_refl]. }
  dstep. rewrite Hn, Ho. set (m' := write_bytes (mem_of s) (out + Z.of_nat (length L)) l).
  rewrite run_bind, (run_c_mem _ _ (out + Z.of_nat (length L)) m'); cycle 1.
  { apply run_memcpy; [done|apply (valid_sub _ _ _ _ _ Hout); lia|]. unfold disjoint_ranges in Hapart. lia. }
  cbn beta iota. rewrite run_bind, run_adjust_strm. cbn beta iota. rewrite run_bind, run_modify. cbn beta iota. set (s1 := set_c_pending_out _ _).
  rewrite run_bind. change (on_writer (modify ?g) s1) with (Ret tt (set_c_trees (set_writer (g (d_writer (c_trees s1))) (c_trees s1)) s1)). cbn beta iota.
  assert (u32 (w_pending (d_writer (c_trees s1)) - Z.of_nat (length l)) = 0) as -> by (change (w_pending (d_writer (c_trees s1))) with (w_pending (d_writer (c_trees s))); rewrite Hp, Z.sub_diag; done).
  set (s2 := set_c_trees _ s1). rewrite run_bind, run_pending. cbn beta iota. change (w_pending _ =? 0) with true. cbn beta iota. rewrite run_modify.
  assert (∀ a, a < out + Z.of_nat (length L) ∨ out + Z.of_nat (length L) + Z.of_nat (length l) ≤ a → m' !! a = mem_of s !! a) as Hm by (intros a Ha'; by apply lookup_write_bytes_out).
  eexists. split; [done|]. split; [split|split].
  - split; [done|]. split; [exact Hv|]. split; [exact Hb|done].
  - split; [split; [constructor|intros i b E; by rewrite lookup_nil in E]|]. cbn. pose proof pbs_range. lia.
  - exact Ht.
  - change (mem_of _) with m'. unfold m'. by apply write_bytes_valid.
  - change (mem_of _) with m'. split; [unfold m'; by apply write_bytes_valid|]. apply bytes_at_app. split.
    + apply (bytes_at_ext (mem_of s)); [done|]. intros a Ha'. apply Hm. lia.
    + apply write_bytes_at. by apply (bytes_at_is_byte _ _ _ Hl).
  - cbn. rewrite length_app, Hn, Ha. rewrite wrap_small by lia. lia.
  - done.
  - done.
  - intros a H1 H2. transitivity (m' !! a); [done|]. apply Hm. lia.
Qed.

(** More bytes. *)
Lemma run_put_pending s L l c : pend s L l → Z.of_nat (length l) < pbs →
  ∃ s', on_writer (put_byte pb c) s = Ret tt s' ∧ pend s' L (l ++ [u8 c]) ∧ quiet s s'.
Proof using HG Hapart.
  intros [(Hp & Hv & Hb & Ho) [Hl Hle] Ht Hr [Hout HL] Hnext] Hlt. pose proof pbs_range as Hps.
  destruct (run_put_byte pb (mem_of s) 0 pbs ltac:(by rewrite Z.add_0_r) ltac:(lia) (d_writer (c_trees s)) l c) as [E (Em & Eb & Ep)]; [|lia|].
  { split; [rewrite Z.add_0_r; symmetry; by apply write_bytes_id|]. split; [by apply (bytes_at_is_byte _ _ _ Hl)|lia]. }
  unfold on_writer, on_trees, writing, zoom. rewrite E. set (w' := with_bytes _ _ _ _ _) in *. eexists. split; [done|].
  rewrite Z.add_0_r in Em. assert (∀ a, a < pb ∨ pb + pbs ≤ a → w_mem w' !! a = mem_of s !! a) as Hm.
  { intros a Ha. rewrite Em. apply lookup_write_bytes_out. rewrite length_app. cbn. lia. }
  split; [split|split].
  - split; [exact Ep|]. split; [exact Hv|]. split; [exact Hb|done].
  - change (mem_of _) with (w_mem w'). split; [rewrite Em; by apply write_bytes_at|rewrite length_app; cbn; lia].
  - exact Ht.
  - change (mem_of _) with (w_mem w'). rewrite Em. by apply write_bytes_valid.
  - change (mem_of _) with (w_mem w'). split; [rewrite Em; by apply write_bytes_valid|].
    apply (bytes_at_ext (mem_of s)); [done|]. intros a Ha. apply Hm. unfold disjoint_ranges in Hapart. lia.
  - exact Hnext.
  - done.
  - done.
  - intros a H1 H2. transitivity (w_mem w' !! a); [done|by apply Hm].
Qed.

Lemma run_putShortMSB s L l v : pend s L l → Z.of_nat (length l) + 2 ≤ pbs → 0 ≤ v < 2 ^ 16 →
  ∃ s', on_writer (putShortMSB G v) s = Ret tt s' ∧ pend s' L (l ++ [v / 256; v mod 256]) ∧ quiet s s'.
Proof using HG Hapart.
  intros Hp Hlt Hv. destruct (run_put_pending s L l (u8 (Z.shiftr v 8)) Hp ltac:(lia)) as (s1 & E1 & Hp1 & Q1).
  destruct (run_put_pending s1 L _ (u8 (Z.land v 0xff)) Hp1) as (s2 & E2 & Hp2 & Q2); [rewrite length_app; cbn; lia|].
  exists s2. split; [|split; [|by eapply quiet_trans]].
  - unfold putShortMSB. unfold on_writer, on_trees, writing, zoom in *. rewrite run_bind. destruct (put_byte pb (u8 (Z.shiftr v 8)) (d_writer (c_trees s))) as [[] w1| |] eqn:Ew; [|done|done].
    cbn beta iota. injection E1 as <-. cbn [c_trees set_c_trees d_writer set_writer] in E2. destruct (put_byte pb _ w1) as [[] w2| |]; [|done|done]. injection E2 as <-. done.
  - rewrite <-app_assoc in Hp2. cbn [app] in Hp2. rewrite !wrap_wrap in Hp2 by lia.
    rewrite Z.shiftr_div_pow2 in Hp2 by lia. change 0xff with (Z.ones 8) in Hp2. rewrite Z.land_ones in Hp2 by lia. change (2 ^ 8) with 256 in Hp2.
    pose proof (Z.mod_pos_bound v 256 ltac:(lia)). rewrite (wrap_small 8 (v / 256)), (wrap_small 8 (v mod 256)) in Hp2; [done|lia|].
    split; [apply Z.div_pos; lia|apply Z.div_lt_upper_bound; lia].
Qed.
End output.

(** ** A block *)

Lemma run_writing {A} (c : C writer A) t a w : c (d_writer t) = Ret a w → writing c t = Ret a (set_writer w t).
Proof. intros E. unfold writing, zoom. by rewrite E. Qed.

(** [_tr_flush_block] at level 0 stores. *)
Lemma run_flush_stored pb pbs db lb strategy t buf b eof : trees_sized t → 5 + Z.of_nat (length b) ≤ pbs < 2 ^ 32 → Z.of_nat (length b) < 2 ^ 16 → 0 ≤ eof ≤ 1 →
  w_pending (d_writer t) = 0 → w_bi_valid (d_writer t) = 0 → w_bi_buf (d_writer t) = 0 → valid (w_mem (d_writer t)) pb pbs →
  bytes_at (w_mem (d_writer t)) buf b → disjoint_ranges buf (Z.of_nat (length b)) pb pbs → buf ≠ NULL →
  ∃ t' l, _tr_flush_block pb db lb 0 strategy buf (Z.of_nat (length b)) eof t = Ret tt t' ∧ aligned l (stored_fields eof 0 b) ∧ trees_sized t' ∧
    w_mem (d_writer t') = write_bytes (w_mem (d_writer t)) pb l ∧ w_pending (d_writer t') = Z.of_nat (length l) ∧ w_bi_valid (d_writer t') = 0 ∧ w_bi_buf (d_writer t') = 0.
Proof.
  intros Ht Hfit Hlen He Hp Hv Hb Hroom Hbuf Hd Hnull. set (w := d_writer t) in *. set (m := w_mem w) in *.
  assert (valid m (pb + 0) pbs) as Hroom' by (by rewrite Z.add_0_r). assert (0 ≤ 0 ∧ 0 + pbs < 2 ^ 32) as Hp0 by lia.
  assert (wrote pb m 0 w []) as Hw.
  { exists []. split; [constructor|]. split; [split_and!; [done|constructor|by rewrite Hp]|]. rewrite Hv, Hb. cbn. lia. }
  destruct (run_stored_block pb m 0 pbs Hroom' Hp0 buf b eof w []) as (w1 & E1 & Hw1 & Hv1 & _); [split; [done|by rewrite Z.add_0_r]|done|done|done| |].
  { cbn [width]. rewrite stored_width. lia. }
  cbn [app width] in Hw1. destruct (wrote_aligned _ _ _ _ Hw1 Hv1) as (l & Hal & Hm1 & Hp1 & Hb1).
  unfold _tr_flush_block. rewrite run_bind. unfold block_lengths. change (0 <? 0) with false. cbn beta iota. rewrite run_ret. cbn beta iota. rewrite run_bind, run_get. cbn beta iota.
  rewrite (wrap_small 64 (_ + 4)), (wrap_small 64 (_ + 5)) by lia. rewrite (proj2 (Z.leb_le _ (_ + 5))) by lia. rewrite (proj2 (Z.eqb_neq buf NULL) Hnull). cbn [andb negb]. cbn beta iota.
  rewrite run_bind, (run_writing _ _ _ _ E1). cbn beta iota. set (t1 := set_writer w1 t). destruct (run_init_block t1 Ht) as (t2 & E2 & Ht2 & Hw2 & _).
  rewrite run_bind, E2. cbn beta iota. change (d_writer t1) with w1 in Hw2. destruct (Z.eqb_spec eof 0) as [Hz|Hz].
  { exists t2, l. rewrite run_ret, Hw2. split; [done|]. split; [done|]. split; [done|]. by split_and!. }
  destruct (run_bi_windup pb m 0 pbs Hroom' Hp0 w1 _ Hw1) as (w3 & E3 & Hw3 & Hv3 & _).
  { rewrite stored_width. replace (pad _) with 0; [lia|]. unfold pad. replace (- (40 + 8 * Z.of_nat (length b))) with ((- 5 - Z.of_nat (length b)) * 8) by lia. by rewrite Z.mod_mul. }
  assert (pad (width (stored_fields eof 0 b)) = 0) as Epad.
  { rewrite stored_width. unfold pad. replace (- (40 + 8 * Z.of_nat (length b))) with ((- 5 - Z.of_nat (length b)) * 8) by lia. by rewrite Z.mod_mul. }
  rewrite Epad in Hw3. destruct (wrote_aligned _ _ _ _ Hw3 Hv3) as (l3 & [G1 G2 G3 G4] & Hm3 & Hp3 & Hb3).
  exists (set_writer w3 t2), l3. rewrite (run_writing _ _ _ w3) by (by rewrite Hw2). split; [done|].
  split; [|split; [done|by split_and!]]. apply Forall_app in G2 as [G2 _]. rewrite pack_app, width_app in * by done. cbn [pack width fst snd] in G3, G4. split; [done|done|lia|lia].
Qed.

Section flushing.
Context (G : geometry) (out n_out : Z).
Abbreviation pb := (pending_buf G).
Abbreviation pbs := (pending_buf_size G).
Abbreviation quiet := (quiet G out n_out).
Abbreviation pend := (pend G out n_out).
Hypothesis HG : geometry_ok G.
Hypothesis Hapart : disjoint_ranges out n_out pb pbs.
Hypothesis Hspace : n_out < 2 ^ 32.
Hypothesis Hwin : disjoint_ranges (window G) (window_size G) pb pbs.

Lemma run_FLUSH_BLOCK s L b eof : pend s L [] → t_level (c_tune s) = 0 → 0 ≤ eof ≤ 1 →
  0 ≤ m_block_start (c_find s) → m_strstart (c_find s) = m_block_start (c_find s) + Z.of_nat (length b) → m_strstart (c_find s) ≤ window_size G →
  bytes_at (mem_of s) (window G + m_block_start (c_find s)) b → 5 + Z.of_nat (length b) ≤ pbs → Z.of_nat (length b) < 2 ^ 16 →
  Z.of_nat (length L) + 5 + Z.of_nat (length b) ≤ n_out →
  ∃ s' l, FLUSH_BLOCK G eof s = Ret (if s_avail_out (c_strm s') =? 0 then Some (if eof =? 0 then need_more else finish_started) else None) s' ∧
    aligned l (stored_fields eof 0 b) ∧ pend s' (L ++ l) [] ∧ quiet (set_c_find (set_m_block_start (m_strstart (c_find s)) (c_find s)) s) s'.
Proof using HG Hapart Hspace Hwin.
  intros [(Hp & Hv & Hb & Ho) [Hl Hle] Ht Hr [Hout HL] Hnext] Hlev He Hbs Hst Hws Hbytes Hfit Hlen Hroom. pose proof (window_size_range G HG) as [_ Hwr]. pose proof (pbs_range G HG) as Hps.
  unfold FLUSH_BLOCK, FLUSH_BLOCK_ONLY. rewrite run_bind. dstep. dstep. rewrite (proj2 (Z.leb_le 0 _) Hbs), (wrap_small 32 (m_block_start _)) by lia.
  rewrite (wrap_small 64 (_ - _)) by lia. replace (m_strstart (c_find s) - m_block_start (c_find s)) with (Z.of_nat (length b)) by lia. rewrite Hlev.
  destruct (run_flush_stored pb pbs (d_buf G) (l_buf G) (t_strategy (c_tune s)) (c_trees s) (window G + m_block_start (c_find s)) b eof) as (t' & l & E & Hal & Ht' & Hm' & Hp' & Hv' & Hb'); try done.
  { lia. }
  { unfold disjoint_ranges in *. lia. }
  { pose proof (gk_addr _ HG) as [Hg _]. unfold NULL. unfold window in *. lia. }
  rewrite run_bind. unfold on_trees at 1, zoom. rewrite E. cbn beta iota. rewrite run_bind, run_adjust. cbn beta iota. set (s1 := set_c_find _ _).
  assert (Z.of_nat (length l) = 5 + Z.of_nat (length b)) as El by (pose proof (ag_width _ _ Hal) as Hw'; rewrite stored_width in Hw'; lia).
  assert (mem_of s1 = write_bytes (mem_of s) pb l) as Em by exact Hm'. assert (∀ a, a < pb ∨ pb + pbs ≤ a → mem_of s1 !! a = mem_of s !! a) as Hsame.
  { intros a Ha. rewrite Em. apply lookup_write_bytes_out. lia. }
  assert (pend s1 L l) as Hpend.
  { split; [split_and!; done| |done|rewrite Em; by apply write_bytes_valid| |exact Hnext].
    - rewrite Em. split; [apply write_bytes_at, Hal|lia].
    - split; [rewrite Em; by apply write_bytes_valid|]. apply (bytes_at_ext (mem_of s)); [done|]. intros a Ha. apply Hsame. unfold disjoint_ranges in Hapart. lia. }
  destruct (run_flush_pending G out n_out HG Hapart Hspace s1 L l Hpend) as (s2 & E2 & Hp2 & Q2); [lia|]. rewrite E2. cbn beta iota. dstep. rewrite run_ret.
  exists s2, l. split; [done|]. split; [done|]. split; [done|]. eapply quiet_trans; [|exact Q2]. split; [done|done|]. intros a H1 H2. exact (Hsame a H1).
Qed.
End flushing.

(** ** The loop of [deflate_stored] *)

Section loop.
Context (BYFOUR little NO_DIVIDE : bool) (G : geometry) (out n_out : Z) (header : list Z).
Abbreviation pb := (pending_buf G).
Abbreviation pbs := (pending_buf_size G).
Abbreviation quiet := (quiet G out n_out).
Abbreviation pend := (pend G out n_out).
Hypothesis HG : geometry_ok G.
Hypothesis Hapart : disjoint_ranges out n_out pb pbs.
Hypothesis Hspace : n_out < 2 ^ 32.
Hypothesis Hwin : disjoint_ranges (window G) (window_size G) pb pbs.
Hypothesis Houtw : disjoint_ranges out n_out (window G) (window_size G).

Definition max_block_size : Z := if pbs - 5 <? 0xffff then pbs - 5 else 0xffff.
Abbreviation mbs := max_block_size.

(** A block that is not the last has so many bytes, at least. *)
Definition quantum : Z := Z.min (MAX_DIST G) mbs.

Lemma quantum_range : 1 ≤ quantum ∧ quantum ≤ MAX_DIST G ∧ quantum ≤ mbs ∧ 1 ≤ mbs ∧ mbs + 5 ≤ pbs ∧ mbs < 2 ^ 16 ∧ 250 ≤ MAX_DIST G ∧ MAX_DIST G < w_size G.
Proof using HG.
  pose proof (pbs_range G HG). pose proof (w_size_range G HG). unfold quantum, max_block_size, MAX_DIST, MIN_LOOKAHEAD, MAX_MATCH, MIN_MATCH.
  destruct (Z.ltb_spec (pbs - 5) 0xffff); lia.
Qed.

(** The space for what is left: a header for every block, and the checksum. *)
Definition room (rest : Z) : Z := rest + 5 * (rest / quantum) + 9.

Lemma room_block rest n : 0 ≤ n → quantum ≤ n → n ≤ rest → room (rest - n) + 5 + n ≤ room rest.
Proof using HG.
  intros Hn Hq Hr. pose proof quantum_range as (H1 & _). unfold room.
  assert ((rest - n) / quantum + 1 ≤ rest / quantum); [|lia]. rewrite <-Z.div_add by lia. apply Z.div_le_mono; lia.
Qed.

Record storing (s : compressor) (T : list Z) (B : Z) (R : list Z) (Lb : list Z) (bs : list (list Z)) : Prop := {
  sg_core : core G s 0 T B R;
  sg_chain : chained G T B (m_strstart (c_find s)) (m_prev (c_find s)) (m_head (c_find s));
  sg_pend : pend s (header ++ Lb) [];
  sg_blocks : aligned Lb (open_fields bs);
  sg_ok : Forall (λ b, Forall is_byte b ∧ Z.of_nat (length b) < 2 ^ 16) bs;
  sg_text : mjoin bs = take (Z.to_nat (B + m_block_start (c_find s))) T;
  sg_range : 0 ≤ m_block_start (c_find s) ≤ m_strstart (c_find s);
  sg_room : room (Z.of_nat (length T + length R) - (B + m_block_start (c_find s))) ≤ s_avail_out (c_strm s);
  sg_in : disjoint_ranges out n_out (s_next_in (c_strm s)) (Z.of_nat (length R));
  sg_state : t_level (c_tune s) = 0 ∧ c_wrap s = 1 ∧ c_status s = BUSY_STATE }.

(** The block is not yet to be written. *)
Definition short (s : compressor) : Prop := m_strstart (c_find s) - m_block_start (c_find s) < quantum.

(** Writing leaves the window and the input alone. *)
Lemma core_quiet s s' D T B R : core G s D T B R → quiet s s' → disjoint_ranges out n_out (s_next_in (c_strm s)) (Z.of_nat (length R)) → core G s' D T B R.
Proof using Hwin Houtw.
  intros [[Hv HB Hn Hb Hl Ha] Hp [U1 U2 U3 U4 U5] Hk] [(W1 & _ & _ & _ & _ & Ef) (I1 & I2 & I3) Hm] Hd. unfold disjoint_ranges in *.
  assert (∀ i, 0 ≤ i < window_size G → mem_of s' !! (window G + i) = mem_of s !! (window G + i)) as Hw by (intros i Hi; apply Hm; lia).
  split; rewrite ?Ef; [split; try done| done|split; rewrite ?I1, ?I2; try done|].
  - intros i Hi. rewrite Hw by done. by apply Hv.
  - intros i Hi. rewrite Hw by lia. by apply Hb.
  - apply (bytes_at_ext (mem_of s)); [done|]. intros a Ha'. apply Hm; lia.
  - unfold checked in *. by rewrite W1, I3.
Qed.

(** Reading leaves the output alone. *)
Lemma pend_reads s s' L l : pend s L l → reads G s s' → pend s' L l.
Proof using Hwin Houtw.
  intros [(P1 & P2 & P3 & P4) [P5 P6] P7 P8 [P9 P10] P11] [(_ & Ho & _) Et Hm (O1 & O2 & _)]. unfold disjoint_ranges in *.
  assert (∀ a, (pb ≤ a < pb + pbs) ∨ (out ≤ a < out + n_out) → mem_of s' !! a = mem_of s !! a) as Hsame by (intros a Ha; apply Hm; lia).
  split; rewrite ?Et, ?Ho, ?O1, ?O2; try done.
  - split; [|done]. apply (bytes_at_ext (mem_of s)); [done|]. intros a Ha. apply Hsame. lia.
  - intros i Hi. rewrite Hsame by lia. by apply P8.
  - destruct P11 as (_ & _ & P11). split; [intros i Hi; rewrite Hsame by lia; by apply P9|]. apply (bytes_at_ext (mem_of s)); [done|]. intros a Ha. apply Hsame. lia.
Qed.

(** The window is filled. *)
Lemma run_store_fill s T B R Lb bs : storing s T B R Lb bs → short s → m_lookahead (c_find s) ≤ 1 →
  ∃ s' B' R1 R2, fill_window BYFOUR little NO_DIVIDE G s = Ret tt s' ∧ storing s' (T ++ R1) B' R2 Lb bs ∧ short s' ∧ R = R1 ++ R2 ∧
    m_lookahead (c_find s') = m_lookahead (c_find s) + Z.of_nat (length R1) ∧ (R2 = [] ∨ 1 ≤ m_lookahead (c_find s')).
Proof using HG Hapart Hwin Houtw.
  intros [Hco Hch Hpd Hal Hbk Htx Hr1 Hrm Hin Hst] Hr2 Hl. unfold short in Hr2. pose proof quantum_range as (Q1 & Q2 & Q3 & _). pose proof (co_held _ _ _ _ _ _ Hco) as [_ HB _ _ Hlen _]. pose proof (co_pos _ _ _ _ _ _ Hco) as Hpos.
  assert (ready G s 0 T B R) as Hrd.
  { apply ready_split. split; [done|]. split; [done|]. intros x y z _ _ Hz. apply lookup_lt_Some in Hz. lia. }
  destruct (run_fill_window BYFOUR little NO_DIVIDE G HG s 0 T B R Hrd Hwin) as (s' & B' & R1 & R2 & E & Hf & _ & Hend); [unfold MIN_LOOKAHEAD, MAX_MATCH, MIN_MATCH; lia|].
  exists s', B', R1, R2. pose proof Hf as [F1 F2 F3 F4 F5 _ F6 F7 _ _]. split; [done|]. pose proof F3 as [(G1 & _ & G3 & _ & _ & _ & G7) Et Gm (O1 & O2 & _ & O4)].
  apply ready_split in F1 as [Hco' [Hch' _]]. split; [|split; [unfold short; lia|split; [done|split; [done|destruct Hend as [?|Hend]; [by left|right; unfold MIN_LOOKAHEAD, MAX_MATCH, MIN_MATCH in Hend; lia]]]]].
  pose proof (ur_avail _ _ _ _ (co_unread _ _ _ _ _ _ Hco)) as [Ea _]. pose proof (ur_avail _ _ _ _ (co_unread _ _ _ _ _ _ Hco')) as [Ea' _].
  assert (length R = length R1 + length R2)%nat as El by (rewrite F2, length_app; done).
  split; [done|done|by eapply pend_reads|done|done| | | | |by rewrite G1, G3, G7].
  - rewrite Htx, F6. replace (B' + (m_block_start (c_find s) - (B' - B))) with (B + m_block_start (c_find s)) by lia. rewrite take_app_le by lia. done.
  - lia.
  - rewrite F6, O2, length_app. replace (Z.of_nat (length T + length R1 + length R2)) with (Z.of_nat (length T + length R)) by lia.
    replace (B' + (m_block_start (c_find s) - (B' - B))) with (B + m_block_start (c_find s)) by lia. done.
  - unfold disjoint_ranges in *. lia.
Qed.

(** The block is written. *)
Lemma run_store_out s T B R Lb bs eof : storing s T B R Lb bs → 0 ≤ eof ≤ 1 → m_strstart (c_find s) - m_block_start (c_find s) ≤ mbs →
  m_strstart (c_find s) - m_block_start (c_find s) + 5 < s_avail_out (c_strm s) →
  ∃ s' l, let b := take (Z.to_nat (m_strstart (c_find s) - m_block_start (c_find s))) (drop (Z.to_nat (B + m_block_start (c_find s))) T) in
    FLUSH_BLOCK G eof s = Ret None s' ∧ aligned l (stored_fields eof 0 b) ∧ Forall is_byte b ∧ Z.of_nat (length b) = m_strstart (c_find s) - m_block_start (c_find s) ∧
    pend s' ((header ++ Lb) ++ l) [] ∧ quiet (set_c_find (set_m_block_start (m_strstart (c_find s)) (c_find s)) s) s' ∧
    s_avail_out (c_strm s') = s_avail_out (c_strm s) - 5 - (m_strstart (c_find s) - m_block_start (c_find s)).
Proof using HG Hapart Hspace Hwin.
  intros [Hco Hch Hpd Hal Hbk Htx Hr Hrm Hin (Hlev & _)] He Hn Ha. pose proof quantum_range as (_ & _ & _ & _ & Q5 & Q6 & _). pose proof (co_held _ _ _ _ _ _ Hco) as [_ HB _ Hb Hlen Hby]. pose proof (co_pos _ _ _ _ _ _ Hco) as Hpos.
  set (n := m_strstart (c_find s) - m_block_start (c_find s)) in *. set (b := take (Z.to_nat n) (drop (Z.to_nat (B + m_block_start (c_find s))) T)).
  assert (Z.of_nat (length b) = n) as Eb by (unfold b; rewrite length_take, length_drop; lia).
  assert (Forall is_byte b) as Hbb by (unfold b; by apply Forall_take, Forall_drop).
  pose proof (pd_next _ _ _ _ _ _ Hpd) as (_ & Hav & _).
  destruct (run_FLUSH_BLOCK G out n_out HG Hapart Hspace Hwin s (header ++ Lb) b eof Hpd Hlev He) as (s' & l & E & Hl & Hpd' & Hq); try lia.
  { split; [done|]. intros i x Hi. unfold b in Hi. rewrite lookup_take_Some, lookup_drop in Hi. destruct Hi as [Hi Hlt]. rewrite <-Z.add_assoc, Hb by lia. rewrite <-Hi. f_equal. lia. }
  exists s', l. cbn zeta. pose proof (ag_width _ _ Hl) as Hw. rewrite stored_width in Hw. pose proof (pd_next _ _ _ _ _ _ Hpd') as (_ & Hav' & _). rewrite length_app in Hav'.
  rewrite (proj2 (Z.eqb_neq _ 0)) in E by lia. split_and!; try done. lia.
Qed.

(** A block that is not the last. *)
Lemma run_store_flush s T B R Lb bs : storing s T B R Lb bs → quantum ≤ m_strstart (c_find s) - m_block_start (c_find s) ≤ mbs →
  ∃ s' Lb' bs', FLUSH_BLOCK G 0 s = Ret None s' ∧ storing s' T B R Lb' bs' ∧ c_find s' = set_m_block_start (m_strstart (c_find s)) (c_find s).
Proof using HG Hapart Hspace Hwin Houtw.
  intros Hs [Hq1 Hq2]. pose proof Hs as [Hco Hch Hpd Hal Hbk Htx Hr Hrm Hin Hst]. pose proof quantum_range as (Q1 & _). pose proof (co_held _ _ _ _ _ _ Hco) as [_ HB _ _ Hlen _]. pose proof (co_pos _ _ _ _ _ _ Hco) as Hpos.
  set (n := m_strstart (c_find s) - m_block_start (c_find s)) in *. set (rest := Z.of_nat (length T + length R) - (B + m_block_start (c_find s))) in *.
  pose proof (room_block rest n ltac:(lia) Hq1 ltac:(lia)) as Hroom. assert (0 ≤ (rest - n) / quantum) by (apply Z.div_pos; lia).
  destruct (run_store_out s T B R Lb bs 0 Hs ltac:(lia) Hq2) as (s' & l & E & Hl & Hb & Elen & Hpd' & Hq & Hav). { unfold room in *. lia. }
  set (b := take (Z.to_nat (m_strstart (c_find s) - m_block_start (c_find s))) (drop (Z.to_nat (B + m_block_start (c_find s))) T)) in *. set (s1 := set_c_find _ s) in *. exists s', (Lb ++ l), (bs ++ [b]). split; [done|]. pose proof Hq as [(W1 & _ & _ & W4 & W5 & W6) (I1 & I2 & I3) Hm].
  split; [|done]. split.
  - apply (core_quiet s1); [|done|done]. apply core_find; [done|done|exact Hpos].
  - rewrite W6. exact Hch.
  - by rewrite app_assoc.
  - rewrite open_fields_snoc. by apply aligned_app.
  - apply Forall_app_2; [done|]. constructor; [|done]. split; [done|]. pose proof quantum_range. lia.
  - rewrite join_app, Htx, W6. cbn [c_find set_c_find m_block_start set_m_block_start s1]. cbn. rewrite app_nil_r. unfold b. rewrite take_take_drop. f_equal. lia.
  - rewrite W6. cbn. lia.
  - rewrite W6, Hav. cbn [c_find set_c_find m_block_start set_m_block_start s1]. cbn. replace (_ - (B + m_strstart (c_find s))) with (rest - n) by lia. fold n. lia.
  - rewrite I1. done.
  - rewrite W1, W4, W5. exact Hst.
Qed.

(** Lookahead becomes part of the block. *)
Lemma storing_move s T B R Lb bs p : storing s T B R Lb bs → m_strstart (c_find s) ≤ p ≤ m_strstart (c_find s) + m_lookahead (c_find s) →
  storing (set_c_find (set_m_lookahead (m_strstart (c_find s) + m_lookahead (c_find s) - p) (set_m_strstart p (c_find s))) s) T B R Lb bs.
Proof using HG.
  intros [Hco Hch Hpd Hal Hbk Htx Hr Hrm Hin Hst] Hp. pose proof (co_pos _ _ _ _ _ _ Hco) as Hpos. pose proof (hd_n _ _ _ _ _ (co_held _ _ _ _ _ _ Hco)) as Hn.
  split; [|cbn|by destruct Hpd|done|done|done|cbn; lia|done|done|done].
  - apply core_find; [done|cbn; lia|cbn; lia].
  - rewrite <-(app_nil_r T). apply (chained_mono G T [] B (m_strstart (c_find s))); [done|lia].
Qed.

Lemma run_stored_round s T B R Lb bs : storing s T B R Lb bs → short s →
  ∃ r s' T' B' R' Lb' bs', stored_round BYFOUR little NO_DIVIDE G Z_FINISH mbs tt s = Ret r s' ∧ storing s' T' B' R' Lb' bs' ∧ short s' ∧ T' ++ R' = T ++ R ∧
    match r with
    | inl _ => m_lookahead (c_find s') + Z.of_nat (length R') < m_lookahead (c_find s) + Z.of_nat (length R)
    | inr x => x = None ∧ m_lookahead (c_find s') = 0 ∧ R' = []
    end.
Proof using HG Hapart Hspace Hwin Houtw.
  intros Hs Hsh. pose proof quantum_range as (Q1 & Q2 & Q3 & Q4 & Q5 & Q6 & Q7 & Q8). pose proof (window_size_range G HG) as [_ Hws]. unfold stored_round. dstep.
  assert (∃ r s1 T1 B1 R1, (if m_lookahead (c_find s) <=? 1 then
         fill_window BYFOUR little NO_DIVIDE G;; f ← finding;
         mret (if (m_lookahead f =? 0) && (Z_FINISH =? Z_NO_FLUSH) then Some (Some need_more) else if m_lookahead f =? 0 then Some None else None)
       else mret None) s = Ret r s1 ∧ storing s1 T1 B1 R1 Lb bs ∧ short s1 ∧ T1 ++ R1 = T ++ R ∧
       m_lookahead (c_find s1) + Z.of_nat (length R1) = m_lookahead (c_find s) + Z.of_nat (length R) ∧
       (r = Some None ∧ m_lookahead (c_find s1) = 0 ∧ R1 = [] ∨ r = None ∧ 1 ≤ m_lookahead (c_find s1))) as (r & s1 & T1 & B1 & R1 & E1 & Hs1 & Hsh1 & Ht1 & Hsum & Hr).
  { destruct (Z.leb_spec (m_lookahead (c_find s)) 1) as [Hl|Hl].
    - destruct (run_store_fill s T B R Lb bs Hs Hsh Hl) as (s1 & B1 & R1 & R2 & E & Hs1 & Hsh1 & ER & El & Hend). rewrite run_bind, E. cbn beta iota. dstep. rewrite run_ret.
      rewrite andb_false_r. eexists _, s1, (T ++ R1), B1, R2. split; [done|]. split; [done|]. split; [done|]. split; [by rewrite ER, app_assoc|]. split; [rewrite ER, length_app; lia|].
      pose proof (co_pos _ _ _ _ _ _ (sg_core _ _ _ _ _ _ Hs1)). destruct (Z.eqb_spec (m_lookahead (c_find s1)) 0); [left|right; split; [done|lia]]. split; [done|]. split; [done|]. destruct Hend; [done|lia].
    - exists None, s, T, B, R. split; [done|]. split; [done|]. split; [done|]. split; [done|]. split; [done|]. right. split; [done|lia]. }
  rewrite run_bind, E1. cbn beta iota. clear E1. destruct Hr as [(-> & Hl0 & HR1)|[-> Hl1]].
  { exists (inr None), s1, T1, B1, R1, Lb, bs. by split_and!. }
  pose proof (sg_range _ _ _ _ _ _ Hs1) as Hrg. pose proof (hd_n _ _ _ _ _ (co_held _ _ _ _ _ _ (sg_core _ _ _ _ _ _ Hs1))) as Hn. unfold short in Hsh1.
  set (f := c_find s1) in *. set (p := m_strstart f + m_lookahead f) in *. dstep. fold f. fold p. rewrite (wrap_small 32 p) by lia. dstep. set (s2 := set_c_find _ s1). change (m_strstart (c_find s2)) with p. change (m_block_start (c_find s2)) with (m_block_start f).
  rewrite (wrap_small 64 (_ + mbs)) by lia. rewrite (proj2 (Z.eqb_neq p 0)) by lia. cbn [orb]. rewrite run_bind. destruct (Z.leb_spec (m_block_start f + mbs) p) as [Hge|Hlt].
  - dstep. change (m_strstart (c_find s2)) with p. rewrite (wrap_small 32 (p - _)), (wrap_small 32 (_ + mbs)) by lia.
    set (s3 := set_c_find _ s2). assert (storing s3 T1 B1 R1 Lb bs) as Hs3 by (apply (storing_move s1 T1 B1 R1 Lb bs (m_block_start f + mbs) Hs1); fold f; lia).
    destruct (run_store_flush s3 T1 B1 R1 Lb bs Hs3) as (s4 & Lb' & bs' & E & Hs4 & Ef); [change (quantum ≤ m_block_start f + mbs - m_block_start f ≤ mbs); lia|].
    rewrite E. cbn beta iota. dstep. rewrite Ef. cbn [m_strstart m_block_start set_m_block_start]. change (m_strstart (c_find s3)) with (m_block_start f + mbs).
    rewrite (wrap_small 32 (_ + mbs)), Z.sub_diag by lia. rewrite run_bind, (proj2 (Z.leb_gt _ (u32 0))) by (change (u32 0) with 0; lia). rewrite run_ret. cbn beta iota.
    exists (inl tt), s4, T1, B1, R1, Lb', bs'. split; [done|]. split; [done|]. split; [unfold short; rewrite Ef; cbn; change (m_strstart (c_find s3)) with (m_block_start f + mbs); lia|].
    split; [done|]. rewrite Ef. change (m_lookahead (set_m_block_start (m_strstart (c_find s3)) (c_find s3))) with (p - (m_block_start f + mbs)). lia.
  - rewrite run_ret. cbn beta iota. dstep. change (m_strstart (c_find s2)) with p. change (m_block_start (c_find s2)) with (m_block_start f).
    assert (storing s2 T1 B1 R1 Lb bs) as Hs2.
    { pose proof (storing_move s1 T1 B1 R1 Lb bs p Hs1) as Hmv. fold f in Hmv. fold p in Hmv. rewrite Z.sub_diag in Hmv. apply Hmv. lia. }
    rewrite (wrap_small 32 (m_block_start f)), (wrap_small 32 (p - _)) by lia. rewrite run_bind. destruct (Z.leb_spec (MAX_DIST G) (p - m_block_start f)) as [Hfar|Hnear].
    + destruct (run_store_flush s2 T1 B1 R1 Lb bs Hs2) as (s4 & Lb' & bs' & E & Hs4 & Ef); [change (quantum ≤ p - m_block_start f ≤ mbs); lia|]. rewrite E. cbn beta iota.
      exists (inl tt), s4, T1, B1, R1, Lb', bs'. split; [done|]. split; [done|]. split; [unfold short; rewrite Ef; cbn; change (m_strstart (c_find s2)) with p; lia|]. split; [done|]. rewrite Ef.
      change (m_lookahead (set_m_block_start (m_strstart (c_find s2)) (c_find s2))) with 0. lia.
    + rewrite run_ret. cbn beta iota. exists (inl tt), s2, T1, B1, R1, Lb, bs. split; [done|]. split; [done|]. split; [unfold short; change (p - m_block_start f < quantum); unfold quantum; lia|].
      split; [done|]. change (m_lookahead (c_find s2)) with 0. lia.
Qed.

(** The whole of the input, in stored blocks. *)
Record stored_all (s : compressor) (text l : list Z) : Prop := {
  sa_blocks : ∃ bs b, aligned l (open_fields bs ++ stored_fields 1 0 b) ∧ Forall (λ b, Forall is_byte b ∧ Z.of_nat (length b) < 2 ^ 16) (bs ++ [b]) ∧ mjoin (bs ++ [b]) = text;
  sa_pend : pend s (header ++ l) [];
  sa_strm : s_avail_in (c_strm s) = 0 ∧ 4 ≤ s_avail_out (c_strm s) ∧ s_adler (c_strm s) = Adler.adler text;
  sa_wrap : c_wrap s = 1 }.

Lemma run_deflate_stored s T B R Lb bs : storing s T B R Lb bs → short s →
  ∃ s' l, deflate_stored BYFOUR little NO_DIVIDE G Z_FINISH s = Ret finish_done s' ∧ stored_all s' (T ++ R) l.
Proof using HG Hapart Hspace Hwin Houtw.
  intros Hs Hsh. pose proof quantum_range as (Q1 & Q2 & Q3 & Q4 & Q5 & Q6 & _). unfold deflate_stored. fold mbs. rewrite run_bind, run_get. cbn beta iota.
  destruct (loop_total (S := compressor) (R := option block_state)
    (λ n _ s1, ∃ T1 B1 R1 Lb1 bs1, storing s1 T1 B1 R1 Lb1 bs1 ∧ short s1 ∧ T1 ++ R1 = T ++ R ∧ Z.of_nat n = m_lookahead (c_find s1) + Z.of_nat (length R1))
    (λ x s1, ∃ T1 B1 Lb1 bs1, storing s1 T1 B1 [] Lb1 bs1 ∧ short s1 ∧ T1 = T ++ R ∧ x = None ∧ m_lookahead (c_find s1) = 0)
    (stored_round BYFOUR little NO_DIVIDE G Z_FINISH mbs)) with (n := Z.to_nat (m_lookahead (c_find s) + Z.of_nat (length R))) (fuel := input_left s) (st := tt) (s := s)
    as (x & s1 & E & T1 & B1 & Lb1 & bs1 & Hs1 & Hsh1 & -> & -> & Hl1).
  - intros n [] s1 (T1 & B1 & R1 & Lb1 & bs1 & Hs1 & Hsh1 & Ht1 & Hn). destruct (run_stored_round s1 T1 B1 R1 Lb1 bs1 Hs1 Hsh1) as (r & s2 & T2 & B2 & R2 & Lb2 & bs2 & E & Hs2 & Hsh2 & Ht2 & Hr).
    exists r, s2. split; [done|]. pose proof (co_pos _ _ _ _ _ _ (sg_core _ _ _ _ _ _ Hs2)) as Hp. destruct r as [[]|x].
    + exists (Z.to_nat (m_lookahead (c_find s2) + Z.of_nat (length R2))). split; [lia|]. exists T2, B2, R2, Lb2, bs2. split; [done|]. split; [done|]. split; [congruence|lia].
    + destruct Hr as (-> & Hl & ->). exists T2, B2, Lb2, bs2. rewrite app_nil_r in Ht2. split; [done|]. split; [done|]. split; [congruence|done].
  - pose proof (co_pos _ _ _ _ _ _ (sg_core _ _ _ _ _ _ Hs)) as Hp. destruct (ur_avail _ _ _ _ (co_unread _ _ _ _ _ _ (sg_core _ _ _ _ _ _ Hs))) as [Ea _]. unfold input_left. lia.
  - pose proof (co_pos _ _ _ _ _ _ (sg_core _ _ _ _ _ _ Hs)) as Hp. exists T, B, R, Lb, bs. split; [done|]. split; [done|]. split; [done|lia].
  - rewrite run_bind, E. cbn beta iota. unfold finish_loop, last_block. change (cbool (Z_FINISH =? Z_FINISH)) with 1. set (text := T ++ R) in *.
    pose proof Hs1 as [Hco Hch Hpd Hal Hbk Htx Hr Hrm Hin (Hlev & Hwrap & _)]. unfold short in Hsh1. pose proof (co_held _ _ _ _ _ _ Hco) as [_ HB _ _ Hlen _].
    set (n := m_strstart (c_find s1) - m_block_start (c_find s1)) in *. cbn [length] in Hrm. replace (Z.of_nat (length text + 0) - (B1 + m_block_start (c_find s1))) with n in Hrm by lia.
    assert (0 ≤ n / quantum) by (apply Z.div_pos; lia). unfold room in Hrm.
    destruct (run_store_out s1 text B1 [] Lb1 bs1 1 Hs1 ltac:(lia) ltac:(fold n; lia) ltac:(fold n; lia)) as (s2 & l & E2 & Hl & Hb & Elen & Hpd2 & Hq & Hav).
    fold n in Hav, Elen, Hl, Hb. set (b := take (Z.to_nat n) (drop _ text)) in *. exists s2, (Lb1 ++ l). rewrite run_bind, E2. cbn beta iota. rewrite run_ret. change (Z_FINISH =? Z_FINISH) with true. split; [done|].
    destruct Hq as [(W1 & _ & _ & _ & _ & _) (_ & I2 & I3) _]. split.
    + exists bs1, b. split; [by apply aligned_app|]. split; [apply Forall_app_2; [done|]; constructor; [split; [done|lia]|done]|].
      rewrite join_app, Htx. cbn. rewrite app_nil_r. unfold b. rewrite take_take_drop. apply take_ge. lia.
    + by rewrite app_assoc.
    + rewrite I2, I3, Hav. destruct (ur_avail _ _ _ _ (co_unread _ _ _ _ _ _ Hco)) as [Ea _]. split; [exact Ea|]. split; [lia|].
      destruct (co_checked _ _ _ _ _ _ Hco) as (K1 & _). rewrite drop_0 in K1. by apply K1.
    + by rewrite W1.
Qed.
End loop.

(** ** One call of [deflate] *)

(** The two bytes of the header are accepted by [inflate]. *)
Lemma header_word_ok G t wbits : 9 ≤ k_w_bits G ≤ 15 → t_level t = 0 → k_w_bits G ≤ wbits →
  let h := header_word G t 0 in 0 ≤ h < 2 ^ 16 ∧ header_ok wbits (h / 256) (h mod 256).
Proof.
  intros Hb Hl Hw. unfold header_word, level_flags. rewrite Hl. change (0 <? 2) with true. rewrite orb_true_r. change (0 =? 0) with true. cbv zeta.
  assert (k_w_bits G = 9 ∨ k_w_bits G = 10 ∨ k_w_bits G = 11 ∨ k_w_bits G = 12 ∨ k_w_bits G = 13 ∨ k_w_bits G = 14 ∨ k_w_bits G = 15) as Hc by lia.
  destruct Hc as [E|[E|[E|[E|[E|[E|E]]]]]]; rewrite E in *; (split; [split; [discriminate|reflexivity]|]);
    (split; [split; [discriminate|reflexivity]|]); (split; [split; [discriminate|reflexivity]|]); (split; [reflexivity|]); (split; [|split; reflexivity]);
    match goal with |- ?x ≤ _ => let y := eval vm_compute in x in change x with y end; done.
Qed.

Lemma be_bytes_halves v : 0 ≤ v < 2 ^ 32 → [v / 2 ^ 16 / 256; v / 2 ^ 16 mod 256] ++ [v mod 2 ^ 16 / 256; v mod 2 ^ 16 mod 256] = be_bytes v.
Proof.
  intros Hv. unfold be_bytes. cbn [app]. f_equal; [|f_equal; f_equal; [|f_equal]].
  - rewrite Z.div_div by lia. change (2 ^ 16 * 256) with (2 ^ 24). rewrite Z.mod_small; [done|]. split; [apply Z.div_pos; lia|apply Z.div_lt_upper_bound; lia].
  - change 256 with (2 ^ 8). by rewrite (div_mod_pow v 8 16) by lia.
  - change 256 with (2 ^ 8). by rewrite mod_mod_pow by lia.
Qed.

Section call.
Context (BYFOUR little NO_DIVIDE : bool) (G : geometry) (out n_out : Z).
Abbreviation pb := (pending_buf G).
Abbreviation pbs := (pending_buf_size G).
Abbreviation quiet := (quiet G out n_out).
Abbreviation pend := (pend G out n_out).
Hypothesis HG : geometry_ok G.
Hypothesis Hapart : disjoint_ranges out n_out pb pbs.
Hypothesis Hspace : n_out < 2 ^ 32.
Hypothesis Hwin : disjoint_ranges (window G) (window_size G) pb pbs.
Hypothesis Houtw : disjoint_ranges out n_out (window G) (window_size G).

Lemma pend_same s s' L l : pend s L l → c_trees s' = c_trees s → c_pending_out s' = c_pending_out s → s_next_out (c_strm s') = s_next_out (c_strm s) →
  s_avail_out (c_strm s') = s_avail_out (c_strm s) → pend s' L l.
Proof.
  intros [P1 P2 P3 P4 P5 P6] Et Eo En Ea. unfold mem_of in *. split; unfold mem_of; rewrite ?Et, ?Eo, ?En, ?Ea; done.
Qed.

(** The checksum after the blocks. *)
Lemma run_end_stream s text l header : stored_all G out n_out header s text l → 8 ≤ pbs →
  ∃ s', end_stream G s = Ret Z_STREAM_END s' ∧ pend s' (header ++ l ++ be_bytes (Adler.adler text)) [] ∧ s_avail_in (c_strm s') = 0.
Proof using HG Hapart Hspace.
  intros [_ Hpd (Hin & Hav & Had) Hw] Hps. pose proof (adler_range text) as Hv. set (v := Adler.adler text) in *. unfold end_stream. dstep. rewrite Hw. change (1 <=? 0) with false. cbn beta iota.
  unfold trailer. rewrite run_bind. rewrite run_bind, run_get. cbn beta iota zeta. rewrite Hw. change (1 =? 2) with false. cbn beta iota. rewrite Had.
  assert (u32 (Z.shiftr v 16) = v / 2 ^ 16) as -> by (rewrite Z.shiftr_div_pow2 by lia; apply wrap_small; split; [apply Z.div_pos; lia|apply Z.div_lt_upper_bound; lia]).
  assert (u32 (Z.land v 0xffff) = v mod 2 ^ 16) as -> by (change 0xffff with (Z.ones 16); rewrite Z.land_ones by lia; apply wrap_small; pose proof (Z.mod_pos_bound v (2 ^ 16) ltac:(lia)); lia).
  destruct (run_putShortMSB G out n_out HG Hapart s _ [] (v / 2 ^ 16) Hpd) as (s1 & E1 & Hp1 & Q1); [cbn; lia|split; [apply Z.div_pos; lia|apply Z.div_lt_upper_bound; lia]|].
  rewrite run_bind, E1. cbn beta iota. cbn [app] in Hp1.
  destruct (run_putShortMSB G out n_out HG Hapart s1 _ _ (v mod 2 ^ 16) Hp1) as (s2 & E2 & Hp2 & Q2); [cbn; lia|apply Z.mod_pos_bound; lia|].
  rewrite E2. cbn beta iota. change ([v / 2 ^ 16 / 256; v / 2 ^ 16 mod 256] ++ ?x) with ([v / 2 ^ 16 / 256; v / 2 ^ 16 mod 256] ++ x) in Hp2. rewrite be_bytes_halves in Hp2 by done.
  pose proof (pd_next _ _ _ _ _ _ Hpd) as (_ & Ea & _).
  destruct (run_flush_pending G out n_out HG Hapart Hspace s2 _ _ Hp2) as (s3 & E3 & Hp3 & Q3); [cbn; lia|]. rewrite run_bind, E3. cbn beta iota. dstep.
  pose proof (quiet_trans _ _ _ _ _ _ (quiet_trans _ _ _ _ _ _ Q1 Q2) Q3) as [(W1 & _) (_ & I2 & _) _]. rewrite W1, Hw. change (0 <? 1) with true. cbn beta iota.
  rewrite run_bind, run_modify. cbn beta iota. rewrite run_bind, run_pending. cbn beta iota. rewrite run_ret. set (s4 := set_c_wrap _ s3).
  change (w_pending (d_writer (c_trees s4))) with (w_pending (d_writer (c_trees s3))). pose proof (pd_writer _ _ _ _ _ _ Hp3) as (Ep & _). rewrite Ep. cbn [length Z.of_nat]. change (0 =? 0) with true. cbn beta iota.
  exists s4. split; [done|]. split; [rewrite <-app_assoc in Hp3; by apply (pend_same s3)|]. change (s_avail_in (c_strm s3) = 0). by rewrite I2.
Qed.

Lemma run_in_status s status part : c_status s ≠ status → in_status status part s = Ret tt s.
Proof. intros H. unfold in_status. rewrite run_bind, run_get. cbn beta iota. by rewrite (proj2 (Z.eqb_neq _ _) H). Qed.

(** The header of the zlib format. *)
Lemma run_zlib_header s : pend s [] [] → 8 ≤ pbs → m_strstart (c_find s) = 0 → c_status s = INIT_STATE → c_wrap s = 1 → t_level (c_tune s) = 0 →
  ∃ s', write_header BYFOUR little NO_DIVIDE G s = Ret tt s' ∧ pend s' [] [header_word G (c_tune s) 0 / 256; header_word G (c_tune s) 0 mod 256] ∧
    quiet (set_c_strm (set_s_adler 1 (c_strm s)) (set_c_status BUSY_STATE s)) s'.
Proof using HG Hapart.
  intros Hpd Hps Hst Hstat Hw Hlev. set (h := header_word G (c_tune s) 0). destruct (header_word_ok G (c_tune s) 15) as [Hh _]; [apply (gk_w _ HG)|done|apply (gk_w _ HG)|]. fold h in Hh.
  unfold write_header. dstep. rewrite Hstat. change (INIT_STATE =? INIT_STATE) with true. rewrite Hw. change (1 =? 2) with false. cbn beta iota.
  rewrite run_bind. unfold zlib_header. dstep. rewrite run_bind, run_modify. cbn beta iota. rewrite Hst. fold h. set (s1 := set_c_status BUSY_STATE s).
  destruct (run_putShortMSB G out n_out HG Hapart s1 [] [] h) as (s2 & E2 & Hp2 & Q2); [by apply (pend_same s)|cbn; lia|done|]. cbn [app] in Hp2.
  rewrite run_bind, E2. cbn beta iota. change (0 =? 0) with true. cbn beta iota. dstep. rewrite run_bind. unfold adler. rewrite (run_c_mem_read _ _ 1) by reflexivity. cbn beta iota. rewrite run_adjust_strm. cbn beta iota.
  set (s3 := set_c_strm _ s2). pose proof Q2 as [(W1 & W2 & W3 & W4 & W5 & W6) (I1 & I2 & I3) Hm].
  assert (c_status s3 = BUSY_STATE) as Es by exact W5.
  do 3 (rewrite run_bind, run_in_status by (by rewrite Es); cbn beta iota). rewrite run_in_status by (by rewrite Es). exists s3. split; [done|].
  split; [by apply (pend_same s2)|]. split; [done| |exact Hm]. split; [exact I1|]. split; [exact I2|done].
Qed.

(** The state before the first block. *)
Lemma storing_start s s1 c text header : opened G s c → unread G (mem_of s) (c_strm s) text → c_wrap s = 1 → t_level (c_tune s) = 0 →
  disjoint_ranges out n_out (s_next_in (c_strm s)) (Z.of_nat (length text)) →
  quiet (set_c_strm (set_s_adler 1 (c_strm s)) (set_c_status BUSY_STATE (set_c_last_flush Z_FINISH s))) s1 → pend s1 header [] →
  room G (Z.of_nat (length text)) ≤ s_avail_out (c_strm s1) → storing G out n_out header s1 [] 0 text [] [] ∧ short G s1.
Proof using HG Hwin Houtw.
  intros Hop Hu Hw Hlev Hd Q Hpd Hroom. destruct (opened_ready G HG s c text Hop Hu) as [[[H1 H2 H3 _] [Hch _]]%ready_split _]. pose proof (op_find _ _ _ Hop) as (F1 & F2 & F3 & _).
  set (s0 := set_c_strm _ _) in Q. pose proof Q as [(W1 & _ & _ & W4 & W5 & W6) (I1 & I2 & I3) Hm]. change (c_find s0) with (c_find s) in W6. pose proof (quantum_range G HG) as (Q1 & _).
  split; [split|unfold short; rewrite W6, F1, F2; lia].
  - apply (core_quiet G out n_out Hwin Houtw s0); [|done|done]. split; [done|done|by destruct H3|]. split; [done|]. split; [|done]. intros Hw2. change (c_wrap s = 2) in Hw2. congruence.
  - rewrite W6. exact Hch.
  - by rewrite app_nil_r.
  - apply aligned_nil.
  - constructor.
  - rewrite W6, F2. done.
  - rewrite W6, F1, F2. lia.
  - rewrite W6, F2. cbn [length]. rewrite Z.add_0_r, Z.sub_0_r. exact Hroom.
  - rewrite I1. exact Hd.
  - rewrite W4, W1, W5. done.
Qed.

Lemma run_deflate_call s c text : opened G s c → unread G (mem_of s) (c_strm s) text → pend s [] [] → c_wrap s = 1 → c_status s = INIT_STATE → t_level (c_tune s) = 0 →
  disjoint_ranges out n_out (s_next_in (c_strm s)) (Z.of_nat (length text)) → room G (Z.of_nat (length text)) + 2 ≤ n_out → 0 < out →
  ∃ s' l bs b, deflate BYFOUR little NO_DIVIDE G Z_FINISH s = Ret Z_STREAM_END s' ∧
    pend s' (header_word G (c_tune s) 0 / 256 :: header_word G (c_tune s) 0 mod 256 :: l ++ be_bytes (Adler.adler text)) [] ∧ s_avail_in (c_strm s') = 0 ∧
    aligned l (open_fields bs ++ stored_fields 1 0 b) ∧ Forall (λ b, Forall is_byte b ∧ Z.of_nat (length b) < 2 ^ 16) (bs ++ [b]) ∧ mjoin (bs ++ [b]) = text.
Proof using HG Hapart Hspace Hwin Houtw.
  intros Hop Hu Hpd Hw Hstat Hlev Hd Hroom Hout. pose proof (pbs_range G HG) as [Hps _]. pose proof (pd_next _ _ _ _ _ _ Hpd) as (En & Ea & _). cbn [length Z.of_nat] in En, Ea. rewrite Z.add_0_r in En. rewrite Z.sub_0_r in Ea.
  pose proof (quantum_range G HG) as (Q1 & _). assert (0 ≤ Z.of_nat (length text) / quantum G) by (apply Z.div_pos; lia). pose proof (ur_null _ _ _ _ Hu) as Hnull. unfold room in Hroom.
  unfold deflate. change ((Z_FINISH <? Z_FINISH) || (Z_FINISH <? 0)) with false. cbn beta iota. dstep. rewrite (proj2 (Z.eqb_neq (s_next_out _) NULL)), (proj2 (Z.eqb_neq (s_next_in _) NULL)) by (unfold NULL; lia). rewrite Hstat. cbn [orb andb].
  change ((INIT_STATE =? FINISH_STATE) && negb (Z_FINISH =? Z_FINISH)) with false. cbn beta iota. rewrite (proj2 (Z.eqb_neq (s_avail_out _) 0)) by lia. rewrite run_bind, run_modify. cbn beta iota.
  set (s1 := set_c_last_flush Z_FINISH s).
  destruct (run_zlib_header s1) as (s2 & E2 & Hp2 & Q2); [by apply (pend_same s)|lia|by apply (op_find _ _ _ Hop)|done|done|done|]. change (c_tune s1) with (c_tune s) in Hp2. set (h := header_word G (c_tune s) 0) in *.
  rewrite run_bind, E2. cbn beta iota. rewrite run_bind, run_pending. cbn beta iota zeta. pose proof (pd_writer _ _ _ _ _ _ Hp2) as (Ep & _). rewrite Ep. change (negb (Z.of_nat (length [h / 256; h mod 256]) =? 0)) with true. cbn beta iota.
  destruct (run_flush_pending G out n_out HG Hapart Hspace s2 [] _ Hp2) as (s3 & E3 & Hp3 & Q3); [cbn; lia|]. cbn [app] in Hp3. rewrite run_bind, E3. cbn beta iota. dstep.
  pose proof (pd_next _ _ _ _ _ _ Hp3) as (_ & Ea3 & _). cbn [length] in Ea3. rewrite (proj2 (Z.eqb_neq (s_avail_out _) 0)) by lia.
  pose proof (quiet_trans _ _ _ _ _ _ Q2 Q3) as Q. pose proof Q as [(_ & _ & _ & W4 & W5 & _) _ _].
  destruct (storing_start s s3 c text [h / 256; h mod 256] Hop Hu Hw Hlev Hd Q Hp3) as [Hsto Hsh]; [unfold room; lia|].
  assert (c_status s3 = BUSY_STATE) as Es3 by (exact W5). assert (t_level (c_tune s3) = 0) as El3 by (rewrite W4; exact Hlev).
  dstep. rewrite Es3. change ((BUSY_STATE =? FINISH_STATE) && ?x) with false. cbn beta iota. change (negb (Z_FINISH =? Z_NO_FLUSH) && negb (BUSY_STATE =? FINISH_STATE)) with true. rewrite orb_true_r.
  rewrite run_bind. unfold run_block. dstep. rewrite El3. unfold level_config. rewrite run_bind, (run_elem _ _ (Config 0 0 0 0 Use_stored)) by done. cbn beta iota.
  destruct (run_deflate_stored BYFOUR little NO_DIVIDE G out n_out [h / 256; h mod 256] HG Hapart Hspace Hwin Houtw s3 [] 0 text [] [] Hsto Hsh) as (s4 & l & E4 & Hall).
  rewrite run_bind. cbn [func run_func]. rewrite E4. cbn beta iota. rewrite run_bind, run_modify. cbn beta iota. dstep. rewrite run_ret. cbn beta iota. change (negb (Z_FINISH =? Z_FINISH)) with false. cbn beta iota.
  set (s5 := set_c_status FINISH_STATE s4). assert (stored_all G out n_out [h / 256; h mod 256] s5 text l) as Hall5 by (destruct Hall as [A1 A2 A3 A4]; split; [done|by apply (pend_same s4)|done|done]).
  destruct (run_end_stream s5 text l _ Hall5 Hps) as (s6 & E6 & Hp6 & Hin6). destruct (sa_blocks _ _ _ _ _ _ _ Hall) as (bs & b & H1 & H2 & H3).
  exists s6, l, bs, b. split; [exact E6|]. split; [exact Hp6|]. by split_and!.
Qed.
End call.

(** ** There and back *)

(** [deflateBound] is enough for one call: a header for every block of [quantum] bytes. *)
Lemma deflateBound_room a level windowBits memLevel strategy n : init_args_ok level Z_DEFLATED (snd (wrap_of windowBits)) memLevel strategy = true → 0 ≤ n < 2 ^ 32 →
  let G := geometry_of a windowBits memLevel in room G n + 2 ≤ deflateBound G n.
Proof.
  intros H Hn G. unfold init_args_ok, MAX_MEM_LEVEL in H. rewrite negb_true_iff, !orb_false_iff, !Z.ltb_ge in H.
  assert (pending_buf_size G = 2 ^ (memLevel + 8)) as Eps.
  { unfold pending_buf_size, G, geometry_of. cbn [k_lit_bufsize]. rewrite Z.shiftl_1_l. replace (memLevel + 8) with (memLevel + 6 + 2) by lia. rewrite (Z.pow_add_r 2 (memLevel + 6) 2) by lia. lia. }
  assert (∀ q, 0 < q → q ≤ quantum G → n / quantum G ≤ n / q) as Hmono by (intros q H1 H2; apply Z.div_le_compat_l; lia).
  unfold deflateBound, compressBound, room. rewrite !Z.shiftr_div_pow2 by lia. rewrite (wrap_small 64 (n + 7)), (wrap_small 64 (n + 63)) by lia.
  assert (∀ k, 0 < k → 0 ≤ n / k ≤ n) as Hdiv by (intros k Hk; split; [apply Z.div_pos; lia|apply Z.div_le_upper_bound; nia]).
  destruct (Z.eqb_spec (k_w_bits G) 15) as [E1|E1], (Z.eqb_spec (k_hash_bits G) (8 + 7)) as [E2|E2]; cbn [negb orb]; cycle 1.
  1-3: assert (512 ≤ pending_buf_size G) as Hps by (rewrite Eps; apply (Z.pow_le_mono_r 2 9); lia);
    assert (9 ≤ k_w_bits G ≤ 15) as Hwb by (unfold G, geometry_of; cbn [k_w_bits]; lia);
    assert (250 ≤ quantum G) as Hq by (unfold quantum, max_block_size, MAX_DIST, MIN_LOOKAHEAD, MAX_MATCH, MIN_MATCH, w_size;
      pose proof (Z.pow_le_mono_r 2 9 (k_w_bits G) ltac:(lia) ltac:(lia)); destruct (Z.ltb_spec (pending_buf_size G - 5) 0xffff); lia);
    pose proof (Hdiv 250 ltac:(lia)); pose proof (Hmono 250 ltac:(lia) Hq); pose proof (Z.mul_div_le n 250 ltac:(lia));
    assert (5 * (n / 250) ≤ (n + 7) / 2 ^ 3) by (apply Z.div_le_lower_bound; lia);
    assert (0 ≤ (n + 63) / 2 ^ 6) by (apply Z.div_pos; lia);
    assert ((n + 7) / 2 ^ 3 ≤ n + 7) by (apply Z.div_le_upper_bound; lia); assert ((n + 63) / 2 ^ 6 ≤ n + 63) by (apply Z.div_le_upper_bound; lia);
    rewrite wrap_small by lia; lia.
  assert (memLevel = 8) as -> by (unfold G, geometry_of in E2; cbn [k_hash_bits] in E2; lia).
  assert (quantum G = 32506) as Eq by (unfold quantum, max_block_size, MAX_DIST, w_size; rewrite E1, Eps; reflexivity). rewrite Eq.
  pose proof (Hdiv (2 ^ 12) ltac:(lia)). pose proof (Hdiv (2 ^ 14) ltac:(lia)). pose proof (Z.mul_div_le n 32506 ltac:(lia)).
  assert (5 * (n / 32506) ≤ n / 2 ^ 12) by (apply Z.div_le_lower_bound; lia). rewrite wrap_small by lia. lia.
Qed.

(** The space of the caller for the output. *)
Record output_ok (G : geometry) (s : compressor) (n : Z) : Prop := {
  oo_valid : valid (mem_of s) (s_next_out (c_strm s)) (s_avail_out (c_strm s));
  oo_size : deflateBound G n ≤ s_avail_out (c_strm s) < 2 ^ 32;
  oo_null : 0 < s_next_out (c_strm s);
  oo_window : disjoint_ranges (s_next_out (c_strm s)) (s_avail_out (c_strm s)) (window G) (window_size G);
  oo_pending : disjoint_ranges (s_next_out (c_strm s)) (s_avail_out (c_strm s)) (pending_buf G) (pending_buf_size G);
  oo_input : disjoint_ranges (s_next_out (c_strm s)) (s_avail_out (c_strm s)) (s_next_in (c_strm s)) n }.

(** C2: At level 0, with every size of the window and of the buffers, and given as much space
    as [deflateBound] asks for, one call of [deflate] with [Z_FINISH] on a stream just opened
    reads a text of any length, returns [Z_STREAM_END], and has written a stream of the zlib
    format for which [inflate] returns [Z_STREAM_END] and the text. *)
Theorem deflate_stored_round_trip BYFOUR little NO_DIVIDE a z windowBits memLevel strategy text :
  let G := geometry_of a windowBits memLevel in let s0 := before_reset a z 0 windowBits strategy in
  init_args_ok 0 Z_DEFLATED (snd (wrap_of windowBits)) memLevel strategy = true → 0 ≤ windowBits ≤ 15 →
  0 < a_window a → 0 < a_overlay a → a_state a ≠ NULL → a_prev a ≠ NULL → a_head a ≠ NULL →
  allocated G s0 → unread G (mem_of s0) (c_strm s0) text → output_ok G s0 (Z.of_nat (length text)) →
  ∃ s s' l, deflateInit2_ BYFOUR little NO_DIVIDE true a z 0 Z_DEFLATED windowBits memLevel strategy = Some (Z_OK, Some (G, s)) ∧
    deflate BYFOUR little NO_DIVIDE G Z_FINISH s = Ret Z_STREAM_END s' ∧
    bytes_at (mem_of s') (s_next_out z) l ∧ Z.of_nat (length l) ≤ s_avail_out z ∧
    s_avail_out (c_strm s') = s_avail_out z - Z.of_nat (length l) ∧ s_avail_in (c_strm s') = 0 ∧
    ∀ hbuf zalloc flush i, flush ≠ Z_BLOCK → fresh 1 i l → k_w_bits G ≤ i_wbits (f_state i) → Z.of_nat (length text) ≤ s_avail_out (f_strm i) →
      ∃ k, ∀ fuel, (k ≤ fuel)%nat → ∃ i', inflate BYFOUR little NO_DIVIDE hbuf zalloc flush fuel i = Ret Z_STREAM_END i' ∧
        bytes_at (f_mem i') (s_next_out (f_strm i)) text ∧
        s_avail_out (f_strm i') = s_avail_out (f_strm i) - Z.of_nat (length text) ∧ s_avail_in (f_strm i') = 0.
Proof.
  intros G s0 Hargs Hwb Hw Ho N1 N2 N3 Hal Hu [V1 [V2 V2'] V3 V4 V5 V6]. pose proof (geometry_of_ok _ _ _ _ _ Hargs Hw Ho) as HG. fold G in HG.
  destruct (run_deflateInit2_ BYFOUR little NO_DIVIDE a z 0 windowBits memLevel strategy (Config 0 0 0 0 Use_stored) Hargs Hw Ho N1 N2 N3 Hal eq_refl) as (s & E & Hop & [(R1 & R2 & R3) R4 R5 R6 R7 (R8 & R9 & R10 & R11)]).
  fold G s0 in Hop, R3, R4, R6, R7, R8, R9, R10, R11. set (out := s_next_out (c_strm s0)) in *. set (n_out := s_avail_out (c_strm s0)) in *.
  assert (fst (wrap_of windowBits) = 1) as Ewrap. { unfold wrap_of. rewrite (proj2 (Z.ltb_ge windowBits 0)), (proj2 (Z.ltb_ge 15 windowBits)) by lia. done. }
  assert (c_wrap s = 1) as Ew by (rewrite R4; change (c_wrap s0) with (fst (wrap_of windowBits)); by rewrite Ewrap). rewrite Ew in R5.
  pose proof (op_alloc _ _ _ Hop) as [A1 A2 A3 A4 A5 A6]. pose proof (op_last _ _ _ Hop) as [_ L2]. destruct Hu as [U1 [U2 U2'] U3 U4 U5].
  assert (unread G (mem_of s) (c_strm s) text) as Hu by (split; rewrite ?R7, ?R8, ?R9; done).
  destruct (run_deflate_call BYFOUR little NO_DIVIDE G out n_out HG V5 V2' A1 V4 s _ text Hop Hu) as (s' & l & bs & b & Ed & [_ _ _ _ [_ Hout] (_ & Ea & Hfits)] & Hin & Hl & Hok & Htext); [|done|done|done|by rewrite R8| |done|].
  { split; [split_and!; [exact L2|done|done|done]|split; [split; [constructor|intros i b E'; by rewrite lookup_nil in E']|pose proof (pbs_range G HG); cbn; lia]|done|done| |].
    - rewrite R7. split; [done|]. split; [constructor|intros i b E'; by rewrite lookup_nil in E'].
    - rewrite R10, R11. cbn [length Z.of_nat]. rewrite Z.add_0_r, Z.sub_0_r. split; [done|]. split; [done|]. pose proof (deflateBound_room a 0 windowBits memLevel strategy (Z.of_nat (length text)) Hargs ltac:(lia)) as Hr. cbv zeta in Hr. fold G in Hr. pose proof (quantum_range G HG) as (Q1 & _).
      assert (0 ≤ Z.of_nat (length text) / quantum G) by (apply Z.div_pos; lia). unfold room in Hr. lia. }
  { pose proof (deflateBound_room a 0 windowBits memLevel strategy (Z.of_nat (length text)) Hargs ltac:(lia)) as Hr. cbv zeta in Hr. fold G in Hr. lia. }
  set (h := header_word G (c_tune s) 0) in *. exists s, s', (h / 256 :: h mod 256 :: l ++ be_bytes (Adler.adler text)). split; [done|]. split; [done|]. split; [done|]. split; [done|]. split; [done|]. split; [done|].
  intros hbuf zalloc flush i Hfl Hfr Hbits Hsp. destruct (aligned_begins _ _ Hl) as [Hbeg Hlen]. destruct (header_word_ok G (c_tune s) (i_wbits (f_state i)) (gk_w _ HG) R6 Hbits) as [_ Hh]. fold h in Hh.
  destruct (run_zlib_stream BYFOUR little NO_DIVIDE hbuf zalloc flush i (h / 256) (h mod 256) l (Adler.adler text) (Stored <$> bs ++ [b]) text) as (k & Hk); try done.
  - apply Forall_fmap. done.
  - by destruct bs.
  - by rewrite open_stream.
  - by rewrite open_stream.
  - apply adler_range.
  - rewrite open_text. by rewrite Htext.
  - exists k. intros fuel Hfuel. destruct (Hk fuel Hfuel) as (i' & Ei & _ & H1 & H2 & H3). rewrite decide_True in Ei by done. by exists i'.
Qed.

(** ** An example *)

(** The memory of the example of [DeflateSpec], with 100 bytes for the output. *)
Definition store_mem : mem := write_bytes (demo_mem []) 600000 (replicate 100 0).
Definition store_allocation : allocation :=
  Allocation 1 1000 1 1 200000 (Finder (replicate 512 40000) (replicate 256 7) 0 0 0 0 0 0 0 0 0) (Tuning 0 0 0 0 0 0)
    (set_writer (set_mem store_mem (d_writer (demo_trees []))) (demo_trees [])).

(** A decompressor given [l]. *)
Definition inflating_of (l : list Z) : inflating :=
  Inflating (write_bytes (write_bytes ∅ 5000 l) 9000 (replicate 10 0)) (ZStream 5000 (Z.of_nat (length l)) 0 9000 10 0 None 0 0)
    (IState HEAD 0 1 0 0 32768 0 0 None 15 0 0 0 0 0 0 0 0 0 (InCodes 0) (InCodes 0) 0 0 0 0 0 0 0 (replicate 320 0) (replicate 288 0) ∅)
    (Regs 0 0 0 0 0 0 0 0).

Lemma inflating_of_fresh l : Forall is_byte l → Z.of_nat (length l) ≤ 100 → fresh 1 (inflating_of l) l.
Proof.
  intros Hl Hn. split; try done.
  - split; [|done]. apply (write_bytes_frame (write_bytes ∅ 5000 l)); [by apply write_bytes_at|]. right. cbn. lia.
  - apply cells_valid. eapply bytes_at_cells; [apply write_bytes_at|done]. apply Forall_replicate. done.
  - cbn. lia.
  - left. cbn. lia.
Qed.

Lemma store_allocated : allocated demo_geometry (before_reset store_allocation (demo_stream 400000 7) 0 9 0).
Proof.
  split; [by left| | |done|done|done].
  - apply (bytes_at_cells _ _ (replicate 1024 0)); [|reflexivity]. apply write_bytes_frame; [apply (demo_window []); [constructor|apply Nat.le_0_l]|]. by right.
  - apply write_bytes_valid, demo_pending.
Qed.

Lemma deflate_stored_round_trip_witness : ∃ s s' l,
  deflateInit2_ false true false true store_allocation (demo_stream 400000 7) 0 Z_DEFLATED 9 1 0 = Some (Z_OK, Some (demo_geometry, s)) ∧
  deflate false true false demo_geometry Z_FINISH s = Ret Z_STREAM_END s' ∧ bytes_at (mem_of s') 600000 l ∧ s_avail_in (c_strm s') = 0 ∧
  ∃ k, ∀ fuel, (k ≤ fuel)%nat → ∃ i', inflate false true false 0 (λ _ _, mret 0) 0 fuel (inflating_of l) = Ret Z_STREAM_END i' ∧
    bytes_at (f_mem i') 9000 demo_text ∧ s_avail_out (f_strm i') = 3 ∧ s_avail_in (f_strm i') = 0.
Proof.
  destruct (deflate_stored_round_trip false true false store_allocation (demo_stream 400000 7) 9 1 0 demo_text) as (s & s' & l & E1 & E2 & Hl & Hn & _ & Hin & Hinf);
    [reflexivity|lia|reflexivity|reflexivity|discriminate|discriminate|discriminate|..].
  - apply store_allocated.
  - split; [apply write_bytes_frame; [apply write_bytes_at; repeat constructor; done|by right]|done|done|by right|by right].
  - split; [|done|done|by right|by right|by right]. apply cells_valid. eapply bytes_at_cells; [apply write_bytes_at|done]. apply Forall_replicate. done.
  - exists s, s', l. split; [exact E1|]. split; [exact E2|]. split; [exact Hl|]. split; [exact Hin|].
    destruct (Hinf 0 (λ _ _, mret 0) 0 (inflating_of l)) as (k & Hk); [done|by apply inflating_of_fresh; [apply (bytes_at_is_byte _ _ _ Hl)|]|done|done|].
    exists k. exact Hk.
Defined.
