(* ===== verification/DeflateFaults.v ===== *)
(** * Where the compressor goes wrong *)

From stdpp Require Import base tactics numbers list gmap.
From S2P Require Import Prelude Memory Words MemFns TreesTables Trees Inflate Deflate.

Open Scope Z_scope.

(** A raw stream at level 6 with a window of 512 bytes and room for 128 symbols; 400 bytes
    of input at 400000, 1000 of output at 600000. *)
Definition switch_text : list Z := (λ i : nat, 97 + (Z.of_nat i * Z.of_nat i * 37 + Z.of_nat i * 11) mod 251 mod 7) <$> seq 0 400.
Definition switch_mem : mem :=
  write_bytes (write_bytes (write_bytes (write_bytes ∅ 1000 (replicate 1024 0)) 200000 (replicate 512 0)) 400000 switch_text) 600000 (replicate 1000 0).
Definition switch_allocation : allocation :=
  Allocation 1 1000 1 1 200000 (Finder (replicate 512 0) (replicate 256 0) 0 0 0 0 0 0 0 0 0) (Tuning 0 0 0 0 0 0)
    (Deflate (Writer switch_mem 0 0 0 0) (replicate 573 (Ct 0 0)) 0 (replicate 61 (Ct 0 0)) 0 (replicate 39 (Ct 0 0)) 0
      (Work (replicate 573 0) 0 0 (replicate 573 0) (replicate 16 0) 0 0) 0 0 0).

(** [deflate] takes 300 bytes; the level is changed with the other 100 waiting and one byte of
    space; then there is space for all the rest. *)
Definition switch_level : option (Z * Z * Z * list Z) :=
  match deflateInit2_ false true false true switch_allocation (ZStream 400000 300 0 600000 1000 0 None 0 0) 6 Z_DEFLATED (-9) 1 Z_HUFFMAN_ONLY with
  | Some (_, Some (G, s)) =>
      match (
        _ ← deflate false true false G Z_NO_FLUSH;
        adjust_strm (λ z, set_s_avail_in 100 (set_s_avail_out 1 z));;
        r ← deflateParams false true false G 1 Z_HUFFMAN_ONLY;
        adjust_strm (set_s_avail_out 900);;
        r' ← deflate false true false G Z_FINISH;
        z ← strm;
        mret (r, r', s_avail_in z)) s with
      | Ret (r, r', n) s => Some (r, r', n,
          (λ i : nat, default 0 (w_mem (d_writer (c_trees s)) !! (600000 + Z.of_nat i))) <$> seq 0 (Z.to_nat (s_total_out (c_strm s))))
      | _ => None
      end
  | _ => None
  end.

(** What [inflate] makes of a raw stream, with space for 400 bytes. *)
Definition inflated (l : list Z) : option (Z * list Z) :=
  match inflate false true false 0 (λ _ _, mret 0) Z_FINISH 2000
    (Inflating (write_bytes (write_bytes ∅ 5000 l) 9000 (replicate 400 0)) (ZStream 5000 (Z.of_nat (length l)) 0 9000 400 0 None 0 0)
      (IState HEAD 0 0 0 0 32768 0 0 None 15 0 0 0 0 0 0 0 0 0 (InCodes 0) (InCodes 0) 0 0 0 0 0 0 0 (replicate 320 0) (replicate 288 0) ∅)
      (Regs 0 0 0 0 0 0 0 0)) with
  | Ret r i => Some (r, (λ k : nat, default 0 (f_mem i !! (9000 + Z.of_nat k))) <$> seq 0 (Z.to_nat (400 - s_avail_out (f_strm i))))
  | _ => None
  end.

(** [deflate] runs out of space in the middle of [deflate_slow], which keeps one byte back;
    [deflateParams] returns [Z_OK] and sets the new level all the same, and [deflate_fast]
    goes on behind that byte: the stream is complete and has no error, but stands for the text
    without its 128th byte. *)
Lemma deflateParams_loses_byte :
  match switch_level with
  | Some (r, r', n, l) => r = Z_OK ∧ r' = Z_STREAM_END ∧ n = 0 ∧ inflated l = Some (Z_STREAM_END, take 127 switch_text ++ drop 128 switch_text)
  | None => False
  end.
Proof. vm_compute. auto. Qed.
